(* ===== verification/_CoqProject ===== *)
-Q . S2P
Prelude.v
Text.v
Order.v
Effects.v
Utf8.v
Net.v
Identity.v
Workspace.v
BrokerFrame.v
Admission.v
Leases.v
Credentials.v
CredentialProtocol.v
LivePolicy.v
HostBroker.v
StaticElf.v
GitIdentity.v
Substitution.v
Profile.v
Jsonc.v
HostRequirements.v
Metadata.v
Lifecycle.v
LifecycleRun.v
HostProcesses.v
FeatureReference.v
Feature.v
Resolution.v
FeatureLock.v
Ports.v
Planning.v
DockerOptions.v
DockerCommands.v
DockerInspection.v
JsonValue.v
ProfileValidator.v
Discovery.v
FeatureParser.v
MetadataSources.v
Compose.v
ImmutablePlan.v
Status.v
Storage.v
WorkspaceState.v
Transaction.v
Calendar.v
FileTree.v
Supervisor.v
Registry.v
Enumeration.v
Installation.v
FeatureArchive.v
FeatureSources.v
FeatureResolver.v
LockCommand.v
Git.v
Create.v
CredentialStore.v
ComposeRebuild.v
ComposeLifecycle.v
Reconciliation.v
LifecycleScript.v
Down.v
Forwarding.v
ProductionStop.v
Rebuild.v
