(* ===== verification/Prelude.v ===== *)
(** * cdenv: a verification library

    cdenv creates development containers and connects the developer's editor to them.  Its
    source is four crates:
      - [cdenv-core]: values and protocols shared by the host and the container;
      - [cdenv-devcontainer]: the interpretation of [devcontainer.json] and of Features, which
        performs no I/O;
      - [cdenv-agent]: the process that runs in the container;
      - [cdenv-cli]: the host program, which drives Docker, Git and SSH.
    This library models the first two, the parts that decide, and the transactions of the third
    part that writes durable state, [cdenv-cli], as Rocq functions, and proves the properties
    their callers rely on.  A command runs like this: [cdenv-cli] loads the workspace state,
    takes the lifecycle lock, asks [cdenv-devcontainer] for a plan (profile, Features, metadata,
    ports, lifecycle), runs it through Docker and the agent, and commits the new state; the
    agent and the host then speak the protocols of [cdenv-core].

    ** Files

    Foundations:
      - [Prelude]: [Result] and the [?] operator, loops that may return early, the tactics, list
        lemmas;
      - [Text]: [str] as the list of its scalar values, the [str] methods the code uses;
      - [Order]: the order of text and of maps with text keys;
      - [Effects]: the monad of code that calls adapters, with the traces of its calls and the
        rules to reason about them;
      - [Utf8]: the UTF-8 encoding of text, and its decoder;
      - [Net]: [Ipv4Addr], [Ipv6Addr] and their parsers.

    [cdenv-core/src]:
      - [Identity] ([identity.rs]): tokens, container identifiers, generations, architectures;
      - [Workspace] ([workspace.rs]): workspace names, their derivation from a repository source,
        workspace hosts;
      - [BrokerFrame], [Admission], [Leases] ([credential_broker.rs]): the frames of the
        credential broker, the accounting of its queues, the registry of its leases;
      - [Credentials] ([credentials.rs]): origins, SSH-agent selectors, grants;
      - [CredentialProtocol] ([credential_protocol.rs]): the Git credential protocol;
      - [GitIdentity] ([git_identity.rs]): the forwarded Git identity and its encoding;
      - [StaticElf] ([executable.rs]): the validation of the agent executable;
      - [Status] ([status.rs]): foreground operations and loopback endpoints, the part of the
        status that the state stores.

    [cdenv-devcontainer/src]:
      - [Jsonc] ([jsonc.rs]): the bounded reader of JSON with comments;
      - [JsonValue]: reading and rendering of JSON values, shared by the validators;
      - [Profile], [ProfileValidator] ([profile.rs]): the data of a validated profile, and the
        validator that builds it from a JSON document;
      - [Discovery] ([discovery.rs]): the search for a configuration file;
      - [Substitution] ([substitution.rs]): variable substitution and [devcontainerId];
      - [HostRequirements] ([host_requirements.rs]): the evaluation of [hostRequirements];
      - [Metadata], [MetadataSources] ([metadata.rs]): the merge of image metadata with the
        profile, and the contributions of Features and image labels;
      - [Lifecycle] ([lifecycle.rs]): the lifecycle plan and the checkpoint of its stages;
      - [FeatureReference], [Feature], [FeatureParser], [Resolution] ([feature/reference.rs],
        [feature.rs], [feature/metadata.rs], [feature/resolution.rs]): Feature references,
        options, the parser of [devcontainer-feature.json], and the resolution of dependencies
        into an installation order;
      - [FeatureLock] ([feature/lock.rs]): the lock that freezes a resolution;
      - [Ports] ([ports.rs]): publications, declared forwards and their attributes;
      - [Planning] ([planning.rs]): paths, users, mounts and environment of the runtime plan;
      - [DockerOptions] ([docker_options.rs]): build options and run arguments;
      - [Compose] ([compose.rs]): the Compose plan, its services and its override;
      - [ImmutablePlan] ([immutable_plan.rs]): the comparison of plans by category.

    [cdenv-cli/src]:
      - [Storage], [FileTree] ([storage.rs], [paths.rs], [locking.rs]): managed files and their
        atomic replacement in one directory, and the tree of files with its lock files;
      - [WorkspaceState] ([state.rs]): the durable state of a workspace, its validation, its
        migration, and the store the transactions use;
      - [Transaction] ([locking.rs]): what the transactions share;
      - [Reconciliation] ([reconciliation.rs]), [Down] ([down.rs]), [Rebuild] ([rebuild.rs]),
        [ComposeRebuild] ([compose_rebuild.rs]): the transactions of [create] and [up], of
        [down], and of [rebuild];
      - [Registry], [Enumeration] ([workspace_registry.rs]): the reservation of a workspace and
        the enumeration of workspaces;
      - [Git] ([git.rs]): the clone of a repository and the version of Git, with the operation log
        they write and the redaction of what is written;
      - [Create], [Calendar] ([create.rs]): the creation of a workspace with its rollback, and
        its timestamps;
      - [Installation] ([installation.rs]): the installation record, its key and the digests of
        plans;
      - [LifecycleRun], [HostProcesses] ([lifecycle_orchestration.rs]): the orchestration of
        lifecycle stages, and the processes on the host;
      - [DockerCommands] ([docker_cli.rs]): the argument vectors of Docker;
      - [DockerInspection] ([bollard.rs], [bollard/inspection.rs], [bollard/mutation.rs]): the
        requests to the daemon, the mapping of its answers, verification and removal;
      - [ComposeLifecycle] ([compose_lifecycle.rs]): creation, resume and stop of the recorded
        Compose services;
      - [FeatureArchive], [FeatureSources], [FeatureResolver] ([feature_sources/]): extraction of
        archives, the registry protocol, and the resolution of Features from the network, the
        cache, the checkout and a frozen lock;
      - [LockCommand] ([feature_lock.rs]): the command that writes the lock, and the resolution
        from a lock;
      - [LivePolicy], [HostBroker] ([forwarding.rs], [credential_broker.rs]): the credential
        authority that a supervisor holds, and the broker with its tasks;
      - [Supervisor] ([forwarding.rs]): the forwarding supervisor, its control channel and its
        files;
      - [CredentialStore] ([credentials.rs]): the permissions on disk, the commands that change them,
        their binding to a workspace and the leases made of them;
      - [Forwarding] ([forwarding_reconciliation.rs], [production.rs]): the desired forwards and
        the switch of the supervisor;
      - [LifecycleScript], [ProductionStop] ([production.rs]): the scripts of lifecycle commands,
        and the adapters of [down].

    A definition that models code carries the tag [@src file:lines symbol], with the path under
    [src/crates].

    ** How the code is modelled

    A [String] is the list of its Unicode scalar values and a byte slice is a list of bytes, both
    as [N] below their bound.  Machine integers are [N] or [Z] with their range written in the
    definition where the code checks or wraps it.  A [BTreeMap] is a [gmap], and an iteration
    over it is over the entries in key order; a [Vec] is a list.  A method that takes [&mut self]
    is a function from the old state to the new one, with its result; an error is a value of the
    inductive type with the code's variants.  Readers are lists of the chunks that successive
    [read] calls return.

    Libraries outside the repository are parameters: [url::Url] as a parser whose results satisfy
    a class of laws ([UrlLaws], [FeatureUrlLaws]), SHA-256, the JSON codec, the JSONC parser, the
    archive reader and the HTTP client as functions, the git process with its streams as the class
    [GitSystem].  Each class has an instance, which the
    witnesses use.

    A transaction of the command line is a function of the store and of the world of its
    adapters, an arbitrary type.  The traits of the source (planner, environment, stop adapters)
    are classes of functions on that world, without laws: the theorems hold whatever the
    adapters answer.  The store is the class [StateStore] with the laws [StateStoreLaws], which
    [Storage] and [WorkspaceState] discharge for a managed directory on which any step of a
    write may fail.  The JSON codec of the state is the class [StateSerde] with its round trip.

    Code that uses the file system runs on the tree of [FileTree]: a map from paths to entries,
    and a script of the operating system that says of each call whether it fails and, of each
    path, in which mode other processes hold its lock.  The script is
    arbitrary, so the theorems hold under every sequence of failures, and count them where a
    promise depends on none.

    Concurrent code is a machine with explicit steps: a state of all tasks, channels, permits
    and buffers, and a function from the choice of a step to the next state, [None] where that
    step waits.  The theorems are about every list of choices ([HostBroker]); small races
    ([Supervisor], [Forwarding]) have the order of the two parties as a parameter.

    Recursion that is not structural carries a fuel that the definition computes from its input:
    the number of bytes or characters left, of nodes, requests, services or arguments; the size
    of the tree for walks over directories ([validate_pending], [visit]), the limit on files for
    the walk that counts them ([validate_local_pending]); 101 polls for the two seconds of grace
    of a process that is terminated, and a poll per 20 ms of the horizon before; two rounds for a
    lock file; one unit per request and per pair of packages for the retrieval of Features
    ([lock_retrieval_completes]).  That it is enough is part of the theorem (a result is returned) or a lemma of the
    file.  Timestamps are proved for the years 1970 to 9999.

    ** What the theorems show

    - Frames: any fragmentation of an encoded frame is read back to the frame and the rest of the
      input; what is read is the encoding of a frame; a proper prefix is reported as truncated.
    - Admission: the bounds hold after any calls, and the accounting is that of a queue.
    - Leases: in any history, the lease that may serve is the one a start or a promotion of an
      exact identity authorised; a stopped identity is not served again; the registry holds one
      active and one candidate lease per workspace at most.
    - Grants and origins: authority comes from an enabling call on that capability and origin; an
      origin is canonical, without user information, path or query.
    - Credential protocol: requests round trip, and a response is released only when it is
      current and answers the request.
    - Executables: an accepted file is a static ELF image of the machine asked for.
    - Workspace names: validation is the documented predicate, derived names are valid.
    - Substitution: the scanner denotes the expressions of the text and defers the container's.
    - Metadata: the merge is the declarative one (last scalar, union of lists, last mount of a
      target, strongest requirement).
    - Lifecycle: one-time stages run at most once successfully and in order; the plan denotes the
      merged commands; the orchestrator runs what applies in order, and a group of host processes
      ends, where each sibling of a failed process is told to terminate and, if it still runs after
      the grace period, killed and waited for.
    - Documents: the JSONC reader accepts exactly the bounded documents without duplicate keys; a
      validated profile is well formed, and the document of a well-formed profile validates to
      it; parsed Feature metadata has usable defaults and ordered dependencies, and no Feature
      and no image contributes a command that runs on the host.
    - Plans: a runtime plan keeps cdenv's mounts, run arguments in their usual forms do not set
      what cdenv sets, a Compose plan has the closure of the services asked for, and two plans differ in a category
      exactly when the inputs of that category differ.
    - Features: parsed references are canonical and not private, options validate to the declared
      domain, and a resolved order installs what is asked for, dependencies first, or names a
      real cycle; a lock holds the record of every resolved Feature and accepts only a resolution
      that agrees with it.
    - Ports: a plan has the publication of each [appPort] entry and the request of each declared
      forward, in order, without conflicts, and a warning for each publication that may be
      reachable from outside.
    - Storage and state: whatever step of a write fails, a reader finds the old or the new
      content, never a mixture, and no temporary file is left unless its removal failed; a
      persisted state is loaded back.
    - Transactions: the active environment of the stored state changes only at the commit of a
      validated candidate, and every failure before it keeps the previous one; planning precedes
      mutation; a rebuild calls its environment in the documented order and a Compose rebuild
      commits last; a shutdown attempts every phase and reports every failure; image retention
      keeps the newest.
    - Creation: a reservation is made whole or undone; a failed creation is undone or recorded, and
      apart from its workspace and the shared paths of the registry only the operation log is written;
      an installation survives a failure at any call; enumeration only reads.
    - Feature sources: an archive cannot write outside its destination and is used whole or not
      at all; requests go to HTTPS URLs without credentials whose host the
      policy does not refuse (by name or by private address) and a token only to the origin it was issued for;
      what comes over the network or from the cache hashes to its digests; a Feature of the
      checkout stays in the checkout.  The lock command retrieves every package it needs and
      ends, and writes the lock inside the checkout or leaves the old one; the resolution from a lock
      succeeds exactly when every record resolves from the cache or the checkout and the lock of the
      result is that lock.
    - Docker: a resource is removed, and a Compose service started or stopped, only after the
      daemon described it as this workspace's; [down] stops exactly what it saw running, and
      reports success only after it saw it stopped.
    - Credentials at run time: whatever the schedule, a credential, an identity or a connection
      to the agent is released only under a grant that held from its admission to its release,
      and the broker's queues, permits and helpers stay in their bounds; a policy changes only
      forwards, and an epoch that did not move means an authority that did not change.
    - Permissions: a command changes the permission of its own name only, to exactly the grants it
      says and under the next revision, whatever fails; a revocation that reports success is on
      disk and in force in the supervisor, or no supervisor runs; a lease comes only from a
      permission bound to this very workspace directory.
    - Supervisor: it publishes its state only with its listeners bound and its transport ready,
      obeys only requests with every identity and the token, and removes its files when it ends,
      unless the operating system refuses; a
      reconciliation that the client sees acknowledged is the policy the supervisor holds; what
      [up] records about forwarding is what is live.
    - Scripts: the groups that are due run once and in order, those up to readiness in the
      foreground, and nothing runs after a failure.

    ** What is not modelled

    What a shell makes of the scripts of lifecycle commands is not defined; the scripts are built
    character by character.  The agent's servers ([ssh.rs], [forwarding.rs], [credential_bridge.rs] of [cdenv-agent]) and
    the streams of an attached exec ([bollard/exec.rs]) move bytes between sockets, terminals and
    processes; the protocols they speak are modelled in the core components.  The orchestration
    of image builds ([image_orchestration.rs], [generated_image.rs]) is a sequence of daemon calls
    around the plans and verifications that are modelled.  [production.rs] beyond the parts above,
    [reporting.rs], [output.rs] and [command_line.rs] wire the transactions to their adapters,
    parse arguments and render; [schema.rs] calls a library.  The build tool, the feasibility
    spikes and the test programs are not part of the product. *)

From Stdlib Require Export ZArith.
From stdpp Require Export base tactics list numbers gmap sorting.

#[global] Open Scope N_scope.

(** ** Results: Rust's [Result<T, E>] and the [?] operator *)

Inductive result (E T : Type) : Type :=
| Ok (t : T)
| Err (e : E).
Arguments Ok {E T} t.
Arguments Err {E T} e.

#[export] Instance result_eq_dec {E T} `{!EqDecision E, !EqDecision T} :
  EqDecision (result E T).
Proof. solve_decision. Defined.

Declare Scope rust_scope.
Delimit Scope rust_scope with rust.
#[global] Open Scope rust_scope.

(** [let? x := m in k] is Rust's [let x = m?; k]. *)
Notation "'let?' x := m 'in' k" :=
  (match m with Ok x => k | Err e => Err e end)
  (at level 10, x pattern, m at level 100, k at level 200,
   format "'[v' 'let?'  x  :=  m  'in' '/' k ']'") : rust_scope.

(** [fail_if b with e in k] is Rust's [if b { return Err(e) }; k]. *)
Notation "'fail_if' b 'with' e 'in' k" :=
  (if b then Err e else k)
  (at level 10, b at level 100, e at level 100, k at level 200,
   format "'[v' 'fail_if'  b  'with'  e  'in' '/' k ']'") : rust_scope.

Definition result_map {E T U} (f : T -> U) (r : result E T) : result E U :=
  match r with Ok t => Ok (f t) | Err e => Err e end.

Definition map_err {E F T} (f : E -> F) (r : result E T) : result F T :=
  match r with Ok t => Ok t | Err e => Err (f e) end.

Definition ok_or {E T} (e : E) (o : option T) : result E T :=
  match o with Some t => Ok t | None => Err e end.

Definition is_ok {E T} (r : result E T) : bool :=
  match r with Ok _ => true | Err _ => false end.

Definition ok {E T} (r : result E T) : option T :=
  match r with Ok t => Some t | Err _ => None end.

(** [o.is_some()] *)
Definition is_Some_b {T} (o : option T) : bool :=
  match o with Some _ => true | None => false end.

(** [iter.map(f).collect::<Result<Vec<_>, _>>()]: stops at the first error. *)
Fixpoint try_map {E A B} (f : A -> result E B) (l : list A) : result E (list B) :=
  match l with
  | [] => Ok []
  | a :: l' => let? b := f a in let? bs := try_map f l' in Ok (b :: bs)
  end.

(** A [for] loop whose body updates an accumulator and may return early. *)
Fixpoint try_fold {E A S} (f : S -> A -> result E S) (s : S) (l : list A) : result E S :=
  match l with
  | [] => Ok s
  | a :: l' => let? s' := f s a in try_fold f s' l'
  end.

(** ** Automation *)

(** [lia] with division and remainder by constants. *)
Ltac Zify.zify_post_hook ::= Z.to_euclidean_division_equations.

(** Case analysis driven by the shape of the code: every [if] and [match] of a
    hypothesis or of the goal, keeping the equation. *)
Ltac case_hyp H :=
  match type of H with
  | context [if ?b then _ else _] => destruct b eqn:?
  | context [match ?x with _ => _ end] => destruct x eqn:?
  end.

Ltac inv_step :=
  match goal with
  | H : Ok _ = Ok _ |- _ => injection H as H; subst
  | H : Err _ = Err _ |- _ => injection H as H; subst
  | H : Some _ = Some _ |- _ => injection H as H; subst
  | H : Ok _ = Err _ |- _ => discriminate H
  | H : Err _ = Ok _ |- _ => discriminate H
  | H : None = Some _ |- _ => discriminate H
  | H : Some _ = None |- _ => discriminate H
  | H : true = false |- _ => discriminate H
  | H : false = true |- _ => discriminate H
  end.

(** Runs the code in [H] down to its result, discarding impossible branches. *)
Ltac run H :=
  simpl in H; try inv_step; repeat (case_hyp H; simpl in H; try inv_step).

(** Turns boolean tests into propositions. *)
Ltac prop_of_bool :=
  repeat match goal with
  | H : (_ && _)%bool = true |- _ => apply andb_true_iff in H as [? ?]
  | H : (_ && _)%bool = false |- _ => apply andb_false_iff in H
  | H : (_ || _)%bool = true |- _ => apply orb_true_iff in H
  | H : (_ || _)%bool = false |- _ => apply orb_false_iff in H as [? ?]
  | H : negb _ = true |- _ => apply negb_true_iff in H
  | H : negb _ = false |- _ => apply negb_false_iff in H
  | H : bool_decide _ = true |- _ => apply bool_decide_eq_true in H
  | H : bool_decide _ = false |- _ => apply bool_decide_eq_false in H
  | H : N.eqb _ _ = true |- _ => apply N.eqb_eq in H
  | H : N.eqb _ _ = false |- _ => apply N.eqb_neq in H
  | H : N.leb _ _ = true |- _ => apply N.leb_le in H
  | H : N.leb _ _ = false |- _ => apply N.leb_gt in H
  | H : N.ltb _ _ = true |- _ => apply N.ltb_lt in H
  | H : N.ltb _ _ = false |- _ => apply N.ltb_ge in H
  end.

(** ** Lists *)

(** [v.len()] as a machine-size number. *)
Definition lenN {A} (l : list A) : N := N.of_nat (length l).

Lemma lenN_nil {A} : lenN (@nil A) = 0.
Proof. reflexivity. Qed.

Lemma lenN_cons {A} (a : A) l : lenN (a :: l) = 1 + lenN l.
Proof. unfold lenN. simpl. lia. Qed.

Lemma lenN_app {A} (l k : list A) : lenN (l ++ k) = lenN l + lenN k.
Proof. unfold lenN. rewrite length_app. lia. Qed.

Lemma lenN_take {A} n (l : list A) : lenN (take (N.to_nat n) l) = N.min n (lenN l).
Proof. unfold lenN. rewrite length_take. lia. Qed.

Lemma lenN_drop {A} n (l : list A) : lenN (drop (N.to_nat n) l) = lenN l - n.
Proof. unfold lenN. rewrite length_drop. lia. Qed.

Lemma lenN_zero_iff {A} (l : list A) : lenN l = 0 <-> l = [].
Proof. unfold lenN. destruct l; simpl; split; [done|done|lia|done]. Qed.

Lemma try_map_length {E A B} (f : A -> result E B) l bs :
  try_map f l = Ok bs -> length bs = length l.
Proof.
  revert bs. induction l as [|a l IH]; intros bs H; simpl in H; run H; simpl; [done|].
  f_equal. eauto.
Qed.

Lemma try_map_Forall2 {E A B} (f : A -> result E B) l bs :
  try_map f l = Ok bs <-> Forall2 (fun a b => f a = Ok b) l bs.
Proof.
  split.
  - revert bs. induction l as [|a l IH]; intros bs H; simpl in H; run H; subst; auto.
  - induction 1 as [|a b l k Hab _ IH]; simpl; [done|]. by rewrite Hab, IH.
Qed.

Lemma try_fold_app {E A S} (f : S -> A -> result E S) s l k :
  try_fold f s (l ++ k) = let? s' := try_fold f s l in try_fold f s' k.
Proof. revert s. induction l as [|a l IH]; intros s; simpl; [done|]. destruct (f s a); auto. Qed.

(** An invariant of the body is an invariant of the loop. *)
Lemma try_fold_ind {E A S} (P : S -> Prop) (f : S -> A -> result E S) :
  (forall s a s', P s -> f s a = Ok s' -> P s') ->
  forall l s s', P s -> try_fold f s l = Ok s' -> P s'.
Proof.
  intros Hf l. induction l as [|a l IH]; intros s s' Hs H; simpl in H; run H; eauto.
Qed.

Lemma try_fold_ind_elem {E A S} (P : S -> Prop) (f : S -> A -> result E S) l :
  (forall s a s', a ∈ l -> P s -> f s a = Ok s' -> P s') ->
  forall s s', P s -> try_fold f s l = Ok s' -> P s'.
Proof.
  induction l as [|a l IH]; intros Hf s s' Hs H; simpl in H; run H; [done|].
  eapply IH; [|eapply Hf|]; eauto; set_solver.
Qed.

Lemma forallb_Forall {A} (p : A -> bool) l : forallb p l = true <-> Forall (fun a => p a = true) l.
Proof. rewrite forallb_forall, List.Forall_forall. done. Qed.

Lemma forallb_false_iff {A} (p : A -> bool) l :
  forallb p l = false <-> Exists (fun a => p a = false) l.
Proof.
  induction l as [|a l IH]; simpl.
  - split; [done|]. by rewrite Exists_nil.
  - rewrite andb_false_iff, Exists_cons, IH. done.
Qed.

Lemma existsb_false_iff {A} (p : A -> bool) l :
  existsb p l = false <-> Forall (fun a => p a = false) l.
Proof.
  induction l as [|a l IH]; simpl; [split; auto|].
  rewrite orb_false_iff, Forall_cons, IH. done.
Qed.

Lemma existsb_true_iff {A} (p : A -> bool) l :
  existsb p l = true <-> Exists (fun a => p a = true) l.
Proof.
  induction l as [|a l IH]; simpl.
  - split; [done|]. by rewrite Exists_nil.
  - rewrite orb_true_iff, Exists_cons, IH. done.
Qed.

(** Position of the first element that satisfies [p]. *)
Fixpoint position {A} (p : A -> bool) (l : list A) : option nat :=
  match l with
  | [] => None
  | a :: l' => if p a then Some O else S <$> position p l'
  end.

Lemma position_none {A} (p : A -> bool) l : position p l = None -> Forall (fun x => p x = false) l.
Proof.
  induction l as [|a l IH]; intros H; cbn in H; [done|]. destruct (p a) eqn:Hp; [done|].
  constructor; [done|]. apply IH. by destruct (position p l).
Qed.

Lemma filter_every {A} (P : A -> Prop) `{!forall x, Decision (P x)} l :
  Forall P l -> filter P l = l.
Proof. induction 1 as [|a l Ha _ IH]; [done|]. rewrite filter_cons_True by done. by rewrite IH. Qed.

Lemma filter_none {A} (P : A -> Prop) `{!forall x, Decision (P x)} l :
  Forall (fun a => ~ P a) l -> filter P l = [].
Proof. induction 1 as [|a l Ha _ IH]; [done|]. by rewrite filter_cons_False. Qed.

(** [l.iter().enumerate()], from [i]. *)
Fixpoint enumerate {A} (i : N) (l : list A) : list (N * A) :=
  match l with [] => [] | a :: l' => (i, a) :: enumerate (i + 1) l' end.

Lemma enumerate_app {A} i (l k : list A) :
  enumerate i (l ++ k) = enumerate i l ++ enumerate (i + N.of_nat (length l)) k.
Proof.
  revert i. induction l as [|a l IH]; intros i; cbn [enumerate app length].
  - f_equal. lia.
  - rewrite IH. do 3 f_equal. lia.
Qed.

Lemma enumerate_snd {A} i (l : list A) : (enumerate i l).*2 = l.
Proof. revert i. induction l as [|a l IH]; intros i; cbn; [done|]. by rewrite IH. Qed.

Lemma enumerate_NoDup {A} i (l : list A) : NoDup (enumerate i l).*1 /\ Forall (fun p => i <= p.1) (enumerate i l).
Proof.
  revert i. induction l as [|a l IH]; intros i; cbn; [split; constructor|].
  destruct (IH (i + 1)) as [Hn Hf]. split.
  - constructor; [|done]. intros Hin. apply list_elem_of_fmap in Hin as ([j b] & Hj & Hin).
    rewrite Forall_forall in Hf. specialize (Hf _ Hin). cbn in *. lia.
  - constructor; [cbn; lia|]. eapply Forall_impl; [exact Hf|]. cbn. intros. lia.
Qed.

(** Induction over the elements a loop has gone through. *)
Lemma try_fold_prefix {E A S} (P : list A -> S -> Prop) (f : S -> A -> result E S) :
  (forall pre a s s', P pre s -> f s a = Ok s' -> P (pre ++ [a]) s') ->
  forall l s s', P [] s -> try_fold f s l = Ok s' -> P l s'.
Proof.
  intros Hf l s s'.
  assert (Hgen : forall l pre s s', P pre s -> try_fold f s l = Ok s' -> P (pre ++ l) s').
  { clear l s s'. induction l as [|a l IH]; intros pre s s' Hs H; simpl in H; run H.
    - by rewrite app_nil_r.
    - change (a :: l) with ([a] ++ l). rewrite app_assoc. eapply IH; [|done]. by eapply Hf. }
  exact (Hgen l [] s s').
Qed.
