(* ===== verification/Text.v ===== *)
(** * Text: the parts of Rust's [char], [str] and integer parsing the sources use

    A [&str] is a sequence of Unicode scalar values, so [str] is [list N]; byte
    lengths and byte offsets are computed with [len_utf8].  Every function below is
    the standard-library function of the same name restricted to the pattern kinds
    the sources use. *)

From Stdlib Require Ascii String.
From S2P Require Import Prelude.
Export String.StringSyntax.
#[global] Delimit Scope string_scope with string.

(** The only abbreviation for the type: a [char] is an [N], a [str] a list of them. *)
Abbreviation char := N (only parsing).
Abbreviation str := (list N) (only parsing).

(** ASCII literals: [$"abc"]. *)
Definition lit (s : String.string) : str :=
  List.map Ascii.N_of_ascii (String.list_ascii_of_string s).
Notation "$ s" := (lit s%string) (at level 1, format "$ s") : rust_scope.

Definition str_eqb (a b : str) : bool := bool_decide (a = b).

(** ** Characters *)

Definition in_range (lo hi c : N) : bool := (lo <=? c) && (c <=? hi).

Definition is_ascii_lowercase (c : char) : bool := in_range 97 122 c.
Definition is_ascii_uppercase (c : char) : bool := in_range 65 90 c.
Definition is_ascii_digit (c : char) : bool := in_range 48 57 c.
Definition is_ascii_alphabetic (c : char) : bool := is_ascii_lowercase c || is_ascii_uppercase c.
Definition is_ascii_alphanumeric (c : char) : bool := is_ascii_alphabetic c || is_ascii_digit c.
Definition to_ascii_lowercase (c : char) : char := if is_ascii_uppercase c then c + 32 else c.

(** General category Cc. *)
Definition is_control (c : char) : bool := in_range 0 31 c || in_range 127 159 c.

(** The White_Space property. *)
Definition is_whitespace (c : char) : bool :=
  in_range 9 13 c || (c =? 32) || (c =? 133) || (c =? 160) || (c =? 5760)
  || in_range 8192 8202 c || (c =? 8232) || (c =? 8233) || (c =? 8239) || (c =? 8287)
  || (c =? 12288).

Definition is_scalar (c : char) : bool := (c <? 55296) || in_range 57344 1114111 c.

Definition len_utf8 (c : char) : N :=
  if c <? 128 then 1 else if c <? 2048 then 2 else if c <? 65536 then 3 else 4.

Definition lower_str (s : str) : str := List.map to_ascii_lowercase s.
Definition eq_ignore_ascii_case (a b : str) : bool := str_eqb (lower_str a) (lower_str b).

(** ** Lengths and offsets *)

(** [s.len()], in bytes. *)
Fixpoint str_len (s : str) : N :=
  match s with [] => 0 | c :: s' => len_utf8 c + str_len s' end.

(** [s.char_indices()], starting at byte [i]. *)
Fixpoint char_indices_from (i : N) (s : str) : list (N * char) :=
  match s with [] => [] | c :: s' => (i, c) :: char_indices_from (i + len_utf8 c) s' end.

Definition char_indices (s : str) : list (N * char) := char_indices_from 0 s.

(** The loop [for (index, character) in value.char_indices()] that stops at the first
    character outside an alphabet. *)
Definition first_rejected (ok : char -> bool) (s : str) : option (N * char) :=
  List.find (fun '(_, c) => negb (ok c)) (char_indices s).

(** ** Searching and splitting *)

Definition contains_char (c : char) (s : str) : bool := existsb (N.eqb c) s.
Definition contains_any (cs : list char) (s : str) : bool :=
  existsb (fun c => contains_char c cs) s.

Fixpoint strip_prefix (p s : str) : option str :=
  match p, s with
  | [], _ => Some s
  | a :: p', b :: s' => if a =? b then strip_prefix p' s' else None
  | _ :: _, [] => None
  end.

Definition strip_suffix (p s : str) : option str :=
  option_map (@rev N) (strip_prefix (rev p) (rev s)).

Definition starts_with (p s : str) : bool :=
  match strip_prefix p s with Some _ => true | None => false end.
Definition ends_with (p s : str) : bool :=
  match strip_suffix p s with Some _ => true | None => false end.

(** [s.split_once(p)]: around the first occurrence of [p]. *)
Fixpoint split_once (p s : str) : option (str * str) :=
  match strip_prefix p s with
  | Some rest => Some ([], rest)
  | None =>
      match s with
      | [] => None
      | c :: s' => option_map (fun '(a, b) => (c :: a, b)) (split_once p s')
      end
  end.

(** [s.contains(p)] for a string pattern. *)
Definition contains_str (p s : str) : bool :=
  match split_once p s with Some _ => true | None => false end.

(** [s.rsplit_once(c)]: around the last occurrence of the character [c]. *)
Definition rsplit_once (c : char) (s : str) : option (str * str) :=
  option_map (fun '(a, b) => (rev b, rev a)) (split_once [c] (rev s)).

(** [s.split(c)]: always at least one piece. *)
Fixpoint split (c : char) (s : str) : list str :=
  match s with
  | [] => [[]]
  | x :: s' =>
      if c =? x then [] :: split c s'
      else match split c s' with
           | [] => [[x]]
           | w :: ws => (x :: w) :: ws
           end
  end.

(** [s.split_terminator(c)]: as [split], without a trailing empty piece. *)
Definition split_terminator (c : char) (s : str) : list str :=
  match rev (split c s) with
  | [] :: ws => rev ws
  | _ => split c s
  end.

(** [s.rsplit(c).next().unwrap_or_default()]: the last piece. *)
Definition last_piece (c : char) (s : str) : str := default [] (last (split c s)).

(** [s.split(c).next().unwrap_or_default()]: the first piece. *)
Definition first_piece (c : char) (s : str) : str := default [] (head (split c s)).

Fixpoint drop_while {A} (p : A -> bool) (l : list A) : list A :=
  match l with [] => [] | a :: l' => if p a then drop_while p l' else l end.

Fixpoint take_while {A} (p : A -> bool) (l : list A) : list A :=
  match l with [] => [] | a :: l' => if p a then a :: take_while p l' else [] end.

Definition trim_end_matches (c : char) (s : str) : str := rev (drop_while (N.eqb c) (rev s)).

Definition trim (s : str) : str :=
  rev (drop_while is_whitespace (rev (drop_while is_whitespace s))).

(** [parts.join(sep)] *)
Fixpoint join (sep : str) (parts : list str) : str :=
  match parts with
  | [] => []
  | [w] => w
  | w :: ws => w ++ sep ++ join sep ws
  end.

(** ** Unsigned integers *)

Definition MAX_U16 : N := 65535.
Definition MAX_U32 : N := 4294967295.
Definition MAX_U64 : N := 18446744073709551615.

Definition checked_add (max a b : N) : option N := if a + b <=? max then Some (a + b) else None.
Definition checked_mul (max a b : N) : option N := if a * b <=? max then Some (a * b) else None.
Definition saturating_add (max a b : N) : N := N.min max (a + b).
(** [a.saturating_sub(b)] is the truncated subtraction of [N]. *)
Definition saturating_sub (a b : N) : N := a - b.

(** One round of [from_str_radix]: checked multiplication, then checked addition. *)
Definition push_digit (max acc : N) (c : char) : option N :=
  if is_ascii_digit c then
    match checked_mul max acc 10 with
    | Some m => checked_add max m (c - 48)
    | None => None
    end
  else None.

Fixpoint parse_digits (max acc : N) (s : str) : option N :=
  match s with
  | [] => Some acc
  | c :: s' =>
      match push_digit max acc c with
      | Some acc' => parse_digits max acc' s'
      | None => None
      end
  end.

(** [s.parse::<uN>()]: decimal digits, with one optional leading [+]. *)
Definition parse_uint (max : N) (s : str) : option N :=
  match s with
  | [] => None
  | 43 :: ((_ :: _) as rest) => parse_digits max 0 rest
  | _ => parse_digits max 0 s
  end.

Fixpoint to_string_go (fuel : nat) (n : N) (acc : str) : str :=
  match fuel with
  | O => acc
  | S fuel' =>
      let acc' := 48 + n mod 10 :: acc in
      if n / 10 =? 0 then acc' else to_string_go fuel' (n / 10) acc'
  end.

(** [n.to_string()]; a number has no more decimal digits than bits. *)
Definition to_string (n : N) : str := to_string_go (S (N.to_nat (N.size n))) n [].

(** [hex::encode] *)
Definition hex_lower (d : N) : char := if d <? 10 then 48 + d else 87 + d.
Definition hex_encode (bytes : list N) : str :=
  concat (List.map (fun b => [hex_lower (b / 16); hex_lower (b mod 16)]) bytes).

(** ** Lemmas: prefixes, suffixes, splitting *)

Lemma str_eqb_true a b : str_eqb a b = true <-> a = b.
Proof. apply bool_decide_eq_true. Qed.

Lemma str_eqb_refl a : str_eqb a a = true.
Proof. by apply str_eqb_true. Qed.

Lemma strip_prefix_app p s : strip_prefix p (p ++ s) = Some s.
Proof. induction p as [|a p IH]; simpl; [done|]. by rewrite N.eqb_refl. Qed.

Lemma strip_prefix_Some p s r : strip_prefix p s = Some r <-> s = p ++ r.
Proof.
  split; [|intros ->; apply strip_prefix_app].
  revert s. induction p as [|a p IH]; intros s H; simpl in H.
  - by injection H as ->.
  - destruct s as [|b s]; [done|]. destruct (N.eqb_spec a b) as [->|]; [|done].
    by rewrite (IH s H).
Qed.

Lemma strip_suffix_Some p s r : strip_suffix p s = Some r <-> s = r ++ p.
Proof.
  unfold strip_suffix. split.
  - destruct (strip_prefix (rev p) (rev s)) as [t|] eqn:E; simpl; [|done].
    intros [= <-]. apply strip_prefix_Some in E.
    by rewrite <- (rev_involutive s), E, rev_app_distr, rev_involutive.
  - intros ->. by rewrite rev_app_distr, strip_prefix_app; simpl; rewrite rev_involutive.
Qed.

Lemma starts_with_true p s : starts_with p s = true <-> exists r, s = p ++ r.
Proof.
  unfold starts_with. destruct (strip_prefix p s) as [r|] eqn:E.
  - apply strip_prefix_Some in E. split; eauto.
  - split; [done|]. intros [r ->]. by rewrite strip_prefix_app in E.
Qed.

Lemma contains_char_true c s : contains_char c s = true <-> c ∈ s.
Proof.
  unfold contains_char. rewrite existsb_exists. setoid_rewrite N.eqb_eq.
  rewrite list_elem_of_In. naive_solver.
Qed.

Lemma contains_char_false c s : contains_char c s = false <-> c ∉ s.
Proof. rewrite <- contains_char_true. by destruct (contains_char c s). Qed.

Lemma split_once_char c a b : c ∉ a -> split_once [c] (a ++ c :: b) = Some (a, b).
Proof.
  induction a as [|x a IH]; intros Hc; simpl.
  - by rewrite N.eqb_refl.
  - apply not_elem_of_cons in Hc as [Hx Ha]. destruct (N.eqb_spec c x); [done|].
    by rewrite (IH Ha).
Qed.

Lemma split_once_char_None c s : c ∉ s -> split_once [c] s = None.
Proof.
  induction s as [|x s IH]; intros Hc; simpl; [done|].
  apply not_elem_of_cons in Hc as [Hx Hs]. destruct (N.eqb_spec c x); [done|].
  by rewrite (IH Hs).
Qed.

Lemma split_once_char_Some c s a b :
  split_once [c] s = Some (a, b) <-> s = a ++ c :: b /\ c ∉ a.
Proof.
  split; [|intros [-> ?]; by apply split_once_char].
  revert a b. induction s as [|x s IH]; intros a b H; simpl in H; [done|].
  destruct (N.eqb_spec c x) as [->|Hx].
  - injection H as <- <-. split; [done|]. apply not_elem_of_nil.
  - destruct (split_once [c] s) as [[a' b']|]; [|done]. injection H as <- <-.
    destruct (IH _ _ eq_refl) as [-> Ha]. split; [done|]. by apply not_elem_of_cons.
Qed.

Lemma split_once_app p s a b : split_once p s = Some (a, b) -> s = a ++ p ++ b.
Proof.
  revert a b. induction s as [|x s IH]; intros a b H; simpl in H.
  - destruct (strip_prefix p []) as [r|] eqn:E; [|done]. injection H as <- <-.
    by apply strip_prefix_Some in E.
  - destruct (strip_prefix p (x :: s)) as [r|] eqn:E.
    + injection H as <- <-. by apply strip_prefix_Some in E.
    + destruct (split_once p s) as [[a' b']|]; [|done]. injection H as <- <-.
      by rewrite (IH _ _ eq_refl).
Qed.

Lemma split_not_nil c s : split c s <> [].
Proof. destruct s as [|x s]; simpl; [done|]. case_match; [done|]. by destruct (split c s). Qed.

Lemma split_nosep c s : c ∉ s -> split c s = [s].
Proof.
  induction s as [|x s IH]; intros Hc; simpl; [done|].
  apply not_elem_of_cons in Hc as [Hx Hs]. destruct (N.eqb_spec c x); [done|]. by rewrite IH.
Qed.

Lemma split_app c a b : c ∉ a -> split c (a ++ c :: b) = a :: split c b.
Proof.
  induction a as [|x a IH]; intros Hc; simpl.
  - by rewrite N.eqb_refl.
  - apply not_elem_of_cons in Hc as [Hx Ha]. destruct (N.eqb_spec c x); [done|]. by rewrite IH.
Qed.

Lemma split_pieces c s : Forall (fun w => c ∉ w) (split c s).
Proof.
  induction s as [|x s IH]; simpl.
  - repeat constructor. apply not_elem_of_nil.
  - destruct (N.eqb_spec c x).
    + constructor; [apply not_elem_of_nil|done].
    + destruct (split c s) as [|w ws].
      * repeat constructor. set_solver.
      * apply Forall_cons in IH as [Hw Hws]. constructor; [set_solver|done].
Qed.

Lemma join_cons sep w ws : ws <> [] -> join sep (w :: ws) = w ++ sep ++ join sep ws.
Proof. by destruct ws. Qed.

Lemma join_split c s : join [c] (split c s) = s.
Proof.
  induction s as [|x s IH]; simpl; [done|]. destruct (N.eqb_spec c x) as [->|].
  - rewrite join_cons by apply split_not_nil. by rewrite IH.
  - destruct (split c s) as [|w ws] eqn:E; [by destruct (split_not_nil c s)|].
    rewrite <- IH. by destruct ws.
Qed.

(** Splitting inverts joining separator-free pieces. *)
Lemma split_join c ws :
  ws <> [] -> Forall (fun w => c ∉ w) ws -> split c (join [c] ws) = ws.
Proof.
  induction ws as [|w ws IH]; intros Hne Hws; [done|].
  apply Forall_cons in Hws as [Hw Hws]. destruct ws as [|v vs].
  - simpl. by apply split_nosep.
  - rewrite join_cons by done. change ([c] ++ join [c] (v :: vs)) with (c :: join [c] (v :: vs)).
    rewrite split_app by done. by rewrite IH.
Qed.

Lemma take_while_app_drop {A} (p : A -> bool) l : take_while p l ++ drop_while p l = l.
Proof. induction l as [|a l IH]; simpl; [done|]. destruct (p a); simpl; [by rewrite IH|done]. Qed.

Lemma take_while_all {A} (p : A -> bool) l : Forall (fun a => p a = true) (take_while p l).
Proof. induction l as [|a l IH]; simpl; [done|]. destruct (p a) eqn:E; auto. Qed.

Lemma drop_while_head {A} (p : A -> bool) l a l' : drop_while p l = a :: l' -> p a = false.
Proof.
  induction l as [|b l IH]; simpl; [done|]. destruct (p b) eqn:E; [done|].
  by intros [= <- <-].
Qed.

Lemma trim_end_matches_spec c s :
  (exists k, s = trim_end_matches c s ++ replicate k c) /\ last (trim_end_matches c s) <> Some c.
Proof.
  unfold trim_end_matches. split.
  - exists (length (take_while (N.eqb c) (rev s))).
    rewrite <- (rev_involutive s) at 1.
    rewrite <- (take_while_app_drop (N.eqb c) (rev s)) at 1. rewrite rev_app_distr. f_equal.
    assert (Hall := take_while_all (N.eqb c) (rev s)).
    induction (take_while (N.eqb c) (rev s)) as [|x l IH]; [done|].
    apply Forall_cons in Hall as [Hx Hl]. apply N.eqb_eq in Hx as <-. simpl.
    rewrite IH by done. symmetry. apply replicate_S_end.
  - destruct (drop_while (N.eqb c) (rev s)) as [|x l] eqn:E; simpl; [done|].
    rewrite last_snoc. apply drop_while_head, N.eqb_neq in E. congruence.
Qed.

(** ** Lemmas: byte lengths *)

Lemma len_utf8_pos c : 1 <= len_utf8 c <= 4.
Proof. unfold len_utf8. repeat case_match; lia. Qed.

Lemma str_len_app a b : str_len (a ++ b) = str_len a + str_len b.
Proof. induction a as [|c a IH]; simpl; [done|]. rewrite IH. lia. Qed.

Lemma str_len_ascii s : Forall (fun c => c < 128) s -> str_len s = lenN s.
Proof.
  induction 1 as [|c s Hc Hs IH]; simpl; [done|]. rewrite IH, lenN_cons. unfold len_utf8.
  destruct (N.ltb_spec c 128); lia.
Qed.

Lemma lenN_le_str_len s : lenN s <= str_len s.
Proof.
  induction s as [|c s IH]; simpl; [done|]. rewrite lenN_cons.
  assert (Hc := len_utf8_pos c). lia.
Qed.

Lemma str_len_zero s : str_len s = 0 <-> s = [].
Proof.
  split; [|by intros ->]. destruct s as [|c s]; [done|]. simpl.
  assert (Hc := len_utf8_pos c). lia.
Qed.

(** ** Lemmas: alphabets *)

Lemma in_range_true lo hi c : in_range lo hi c = true <-> lo <= c <= hi.
Proof. unfold in_range. rewrite andb_true_iff, !N.leb_le. done. Qed.

Lemma in_range_false lo hi c : in_range lo hi c = false <-> c < lo \/ hi < c.
Proof. unfold in_range. rewrite andb_false_iff, !N.leb_gt. done. Qed.

Lemma is_scalar_true c : is_scalar c = true <-> c < 55296 \/ 57344 <= c <= 1114111.
Proof. unfold is_scalar. by rewrite orb_true_iff, N.ltb_lt, in_range_true. Qed.

Lemma first_rejected_from ok i s :
  match List.find (fun '(_, c) => negb (ok c)) (char_indices_from i s) with
  | None => Forall (fun c => ok c = true) s
  | Some (j, c) => exists a b, s = a ++ c :: b /\ Forall (fun c => ok c = true) a /\
                     ok c = false /\ j = i + str_len a
  end.
Proof.
  revert i. induction s as [|x s IH]; intros i; simpl; [done|].
  destruct (ok x) eqn:Hx; simpl.
  - specialize (IH (i + len_utf8 x)). case_match eqn:E.
    + destruct p as [j c]. destruct IH as (a & b & -> & Ha & Hc & ->).
      exists (x :: a), b. simpl. repeat split; auto. lia.
    + auto.
  - exists [], s. simpl. repeat split; auto. lia.
Qed.

(** The loop reports the byte offset of the first offending character, or accepts. *)
Lemma first_rejected_spec ok s :
  match first_rejected ok s with
  | None => Forall (fun c => ok c = true) s
  | Some (j, c) => exists a b, s = a ++ c :: b /\ Forall (fun c => ok c = true) a /\
                     ok c = false /\ j = str_len a
  end.
Proof. apply (first_rejected_from ok 0 s). Qed.

Lemma first_rejected_None ok s :
  first_rejected ok s = None <-> Forall (fun c => ok c = true) s.
Proof.
  assert (H := first_rejected_spec ok s). destruct (first_rejected ok s) as [[j c]|]; [|done].
  destruct H as (a & b & -> & _ & Hc & _). split; [done|].
  intros Hall. apply Forall_app in Hall as [_ Hall]. apply Forall_cons in Hall as [Hc' _]. congruence.
Qed.

Lemma alphanumeric_range c :
  is_ascii_alphanumeric c = true -> 48 <= c <= 57 \/ 65 <= c <= 90 \/ 97 <= c <= 122.
Proof.
  unfold is_ascii_alphanumeric, is_ascii_alphabetic, is_ascii_lowercase, is_ascii_uppercase,
    is_ascii_digit. rewrite !orb_true_iff, !in_range_true. tauto.
Qed.

(** ** Lemmas: decimal numbers *)

Fixpoint dec_value (acc : N) (s : str) : N :=
  match s with [] => acc | c :: s' => dec_value (acc * 10 + (c - 48)) s' end.

Lemma dec_value_app acc s c : dec_value acc (s ++ [c]) = dec_value acc s * 10 + (c - 48).
Proof. revert acc. induction s as [|x s IH]; intros acc; simpl; auto. Qed.

Lemma dec_value_ge acc s : acc <= dec_value acc s.
Proof. revert acc. induction s as [|x s IH]; intros acc; simpl; [lia|]. specialize (IH (acc * 10 + (x - 48))). lia. Qed.

(** The stepwise overflow checks of the parser are one check of the final value. *)
Lemma parse_digits_spec max acc s :
  Forall (fun c => is_ascii_digit c = true) s -> acc <= max ->
  parse_digits max acc s =
    if dec_value acc s <=? max then Some (dec_value acc s) else None.
Proof.
  revert acc. induction s as [|c s IH]; intros acc Hs Hacc; simpl.
  - by destruct (N.leb_spec acc max); [|lia].
  - apply Forall_cons in Hs as [Hc Hs]. unfold push_digit, checked_mul, checked_add. rewrite Hc.
    assert (Hge := dec_value_ge (acc * 10 + (c - 48)) s).
    destruct (N.leb_spec (acc * 10) max).
    + destruct (N.leb_spec (acc * 10 + (c - 48)) max); [by apply IH|].
      by destruct (N.leb_spec (dec_value (acc * 10 + (c - 48)) s) max); [lia|].
    + by destruct (N.leb_spec (dec_value (acc * 10 + (c - 48)) s) max); [lia|].
Qed.

Lemma parse_digits_Some max acc s n :
  acc <= max -> parse_digits max acc s = Some n ->
  Forall (fun c => is_ascii_digit c = true) s /\ n = dec_value acc s /\ n <= max.
Proof.
  revert acc. induction s as [|c s IH]; intros acc Hacc H; simpl in H.
  - injection H as <-. auto.
  - unfold push_digit, checked_mul, checked_add in H.
    destruct (is_ascii_digit c) eqn:Hc; [|done].
    destruct (acc * 10 <=? max); [|done].
    destruct (N.leb_spec (acc * 10 + (c - 48)) max); [|done].
    destruct (IH _ H0 H) as (? & ? & ?). auto.
Qed.

Lemma parse_uint_bound max s n : parse_uint max s = Some n -> n <= max.
Proof.
  unfold parse_uint. intros H.
  destruct s as [|c s]; [done|].
  assert (Hgen : forall t, parse_digits max 0 t = Some n -> n <= max)
    by (intros t Ht; eapply parse_digits_Some in Ht; [naive_solver|lia]).
  repeat case_match; eauto.
Qed.

Lemma to_string_go_spec fuel n acc :
  n < 10 ^ N.of_nat fuel -> (fuel <> 0)%nat ->
  exists ds, to_string_go fuel n acc = ds ++ acc /\ ds <> [] /\
    Forall (fun c => is_ascii_digit c = true) ds /\ dec_value 0 ds = n.
Proof.
  revert n acc. induction fuel as [|fuel IH]; intros n acc Hn Hf; [done|]. cbn [to_string_go].
  assert (Hd : is_ascii_digit (48 + n mod 10) = true).
  { unfold is_ascii_digit, in_range. apply andb_true_iff. rewrite !N.leb_le.
    assert (n mod 10 < 10) by (apply N.mod_lt; lia). lia. }
  destruct (N.eqb_spec (n / 10) 0) as [Hz|Hz].
  - exists [48 + n mod 10]. repeat split; auto. cbn [dec_value].
    assert (n = 10 * (n / 10) + n mod 10) by (apply N.div_mod; lia). lia.
  - rewrite Nat2N.inj_succ, N.pow_succ_r' in Hn.
    assert (Hlt : n / 10 < 10 ^ N.of_nat fuel) by (apply N.Div0.div_lt_upper_bound; lia).
    assert (Hfuel : fuel <> O) by (intros ->; simpl in Hlt; lia).
    destruct (IH (n / 10) (48 + n mod 10 :: acc) Hlt Hfuel) as (ds & -> & Hne & Hds & Hv).
    exists (ds ++ [48 + n mod 10]). rewrite <- app_assoc. repeat split.
    + by destruct ds.
    + apply Forall_app. auto.
    + rewrite dec_value_app, Hv. assert (n = 10 * (n / 10) + n mod 10) by (apply N.div_mod; lia). lia.
Qed.

Lemma to_string_spec n :
  to_string n <> [] /\ Forall (fun c => is_ascii_digit c = true) (to_string n) /\
  dec_value 0 (to_string n) = n.
Proof.
  unfold to_string.
  destruct (to_string_go_spec (S (N.to_nat (N.size n))) n []) as (ds & -> & Hne & Hds & Hv).
  - rewrite Nat2N.inj_succ, N2Nat.id. apply N.lt_le_trans with (2 ^ N.size n).
    + apply N.size_gt.
    + transitivity (10 ^ N.size n); [apply N.pow_le_mono_l; lia|]. apply N.pow_le_mono_r; lia.
  - done.
  - rewrite app_nil_r. auto.
Qed.

Lemma digit_range c : is_ascii_digit c = true -> 48 <= c <= 57.
Proof. apply in_range_true. Qed.

(** Printing then parsing an integer of the type gives it back. *)
Lemma parse_to_string max n : n <= max -> parse_uint max (to_string n) = Some n.
Proof.
  intros Hn. destruct (to_string_spec n) as (Hne & Hds & Hv).
  assert (Hp : parse_digits max 0 (to_string n) = Some n).
  { rewrite parse_digits_spec by (auto; lia). rewrite Hv. by destruct (N.leb_spec n max); [|lia]. }
  unfold parse_uint. destruct (to_string n) as [|c s] eqn:E; [done|].
  apply Forall_cons in Hds as [Hc _]. apply digit_range in Hc.
  destruct (N.eq_dec c 43) as [->|]; [lia|].
  by repeat case_match; [|simplify_eq; done..].
Qed.

Lemma to_string_go_len k fuel n acc :
  n < 10 ^ k -> 1 <= k -> lenN (to_string_go fuel n acc) <= k + lenN acc.
Proof.
  revert k n acc. induction fuel as [|fuel IH]; intros k n acc Hn Hk; cbn [to_string_go]; [lia|].
  destruct (N.eqb_spec (n / 10) 0) as [Hz|Hz]; [rewrite lenN_cons; lia|].
  assert (H10 : 10 ^ k = 10 * 10 ^ (k - 1)).
  { rewrite <- N.pow_succ_r'. f_equal. lia. }
  assert (Hlt : n / 10 < 10 ^ (k - 1)) by (apply N.Div0.div_lt_upper_bound; lia).
  assert (Hk1 : 1 <= k - 1).
  { destruct (N.eq_dec k 1) as [->|]; [|lia]. change (10 ^ (1 - 1)) with 1 in Hlt. lia. }
  specialize (IH (k - 1) (n / 10) (48 + n mod 10 :: acc) Hlt Hk1). rewrite lenN_cons in IH. lia.
Qed.

(** A number below [10 ^ k] prints in at most [k] digits. *)
Lemma to_string_len k n : n < 10 ^ k -> 1 <= k -> lenN (to_string n) <= k.
Proof. intros Hn Hk. eapply N.le_trans; [by apply to_string_go_len|]. rewrite lenN_nil. lia. Qed.

Lemma strip_suffix_snoc c s x : strip_suffix [c] (s ++ [x]) = if c =? x then Some s else None.
Proof.
  unfold strip_suffix. rewrite rev_app_distr. simpl. destruct (c =? x); simpl; [|done].
  by rewrite rev_involutive.
Qed.

Lemma first_piece_app c a b : c ∉ a -> first_piece c (a ++ c :: b) = a.
Proof. intros H. unfold first_piece. by rewrite split_app. Qed.

Lemma split_snoc_sep c s : split c (s ++ [c]) = split c s ++ [[]].
Proof.
  induction s as [|x s IH]; simpl; [by rewrite N.eqb_refl|].
  rewrite IH. destruct (c =? x); [done|].
  destruct (split c s) as [|w ws] eqn:E; [by destruct (split_not_nil c s)|done].
Qed.

Lemma split_Forall (P : char -> Prop) c s : Forall P s -> Forall (Forall P) (split c s).
Proof.
  induction 1 as [|x s Hx Hs IH]; simpl; [by repeat constructor|].
  destruct (c =? x); [by constructor|]. destruct (split c s) as [|w ws]; [by repeat constructor|].
  apply Forall_cons in IH as [Hw Hws]. by repeat constructor.
Qed.

Lemma split_terminator_Forall (P : char -> Prop) c s :
  Forall P s -> Forall (Forall P) (split_terminator c s).
Proof.
  intros Hs%(split_Forall P c). unfold split_terminator. destruct (rev (split c s)) as [|[|] ws] eqn:E;
    [done| |done].
  apply Forall_rev in Hs. rewrite E in Hs. apply Forall_cons in Hs as [_ Hs]. by apply Forall_rev.
Qed.

(** The lines of a text are the lines it was made of. *)
Definition unlines (c : char) (lines : list str) : str := concat (List.map (fun l => l ++ [c]) lines).

Lemma split_unlines c lines :
  Forall (fun l => c ∉ l) lines -> split c (unlines c lines) = lines ++ [[]].
Proof.
  induction 1 as [|l lines Hl _ IH]; [done|]. cbn [unlines List.map concat].
  rewrite <- app_assoc. cbn [app]. rewrite split_app by done. fold (unlines c lines). by rewrite IH.
Qed.

Lemma split_terminator_unlines c lines :
  Forall (fun l => c ∉ l) lines -> split_terminator c (unlines c lines) = lines.
Proof.
  intros H. unfold split_terminator. rewrite split_unlines, rev_app_distr by done. simpl.
  apply rev_involutive.
Qed.

Lemma split_once_char_None_iff c s : split_once [c] s = None <-> c ∉ s.
Proof.
  split; [|apply split_once_char_None]. intros H Hc.
  apply list_elem_of_In, in_split in Hc as (a & b & ->). revert H. induction a as [|x a IH]; simpl.
  - by rewrite N.eqb_refl.
  - destruct (c =? x); [done|]. destruct (split_once [c] (a ++ c :: b)) as [[? ?]|]; [done|auto].
Qed.

Lemma rsplit_once_Some c s a b :
  rsplit_once c s = Some (a, b) <-> s = a ++ c :: b /\ c ∉ b.
Proof.
  unfold rsplit_once. split.
  - destruct (split_once [c] (rev s)) as [[x y]|] eqn:E; simpl; [|done]. intros [= <- <-].
    apply split_once_char_Some in E as [E Hx]. split.
    + apply (f_equal (@rev N)) in E. rewrite rev_involutive, rev_app_distr in E. simpl in E.
      by rewrite <- app_assoc in E.
    + by rewrite list_elem_of_In, <- in_rev, <- list_elem_of_In.
  - intros [-> Hb]. rewrite rev_app_distr. simpl. rewrite <- app_assoc. simpl.
    rewrite split_once_char; [simpl; by rewrite !rev_involutive|].
    by rewrite list_elem_of_In, <- in_rev, <- list_elem_of_In.
Qed.

Lemma rsplit_once_None c s : rsplit_once c s = None <-> c ∉ s.
Proof.
  unfold rsplit_once. assert (Hin : c ∈ rev s <-> c ∈ s) by (rewrite !list_elem_of_In; symmetry; apply in_rev).
  rewrite <- Hin, <- split_once_char_None_iff.
  by destruct (split_once [c] (rev s)) as [[x y]|].
Qed.

Lemma split_last c s : exists ws, split c s = ws ++ [last_piece c s].
Proof.
  unfold last_piece. destruct (exists_last (split_not_nil c s)) as (ws & w & E). exists ws.
  by rewrite E, last_snoc.
Qed.

Lemma last_piece_spec c s :
  (c ∉ last_piece c s) /\ exists pre, s = pre ++ last_piece c s /\ (pre = [] \/ exists p, pre = p ++ [c]).
Proof.
  destruct (split_last c s) as [ws E]. split.
  - assert (H := split_pieces c s). rewrite E in H. apply Forall_app in H as [_ H].
    by apply Forall_cons in H as [? _].
  - assert (Hj := join_split c s). rewrite E in Hj. revert Hj. generalize (last_piece c s). intros l Hj.
    clear E. subst s. destruct ws as [|w ws]; [by exists []; auto|].
    exists (join [c] (w :: ws) ++ [c]). split; [|eauto]. revert w. induction ws as [|v ws IH]; intros w.
    + simpl. by rewrite <- app_assoc.
    + change ((w :: v :: ws) ++ [l]) with (w :: ((v :: ws) ++ [l])).
      rewrite (join_cons [c] w ((v :: ws) ++ [l])) by (by destruct ws). rewrite IH.
      rewrite (join_cons [c] w (v :: ws)) by done. by rewrite <- !app_assoc.
Qed.

Lemma split_app_last c a b :
  (c ∉ b) -> exists ws w, split c a = ws ++ [w] /\ split c (a ++ b) = ws ++ [w ++ b].
Proof.
  intros Hb. induction a as [|x a (ws & w & Ha & Hab)]; simpl.
  - exists [], []. by rewrite split_nosep.
  - rewrite Ha, Hab. destruct (c =? x).
    + by exists ([] :: ws), w.
    + destruct ws as [|v ws]; [by exists [], (x :: w)|by exists ((x :: v) :: ws), w].
Qed.

Lemma last_piece_app c a b : (c ∉ b) -> last_piece c (a ++ b) = last_piece c a ++ b.
Proof.
  intros Hb. destruct (split_app_last c a b Hb) as (ws & w & Ha & Hab).
  unfold last_piece. by rewrite Ha, Hab, !last_snoc.
Qed.

Create HintDb text.
#[export] Hint Resolve strip_prefix_app str_eqb_refl split_not_nil split_pieces : text.
#[export] Hint Resolve take_while_all parse_to_string : text.
