(* ===== verification/Order.v ===== *)
(** * Order: the order of text, and maps keyed by text

    A [BTreeMap<String, _>] is a [gmap]; where the code iterates over one, the iteration is over
    [sorted_entries], its entries in key order.  [Vec::sort] is [merge_sort]. *)

From S2P Require Import Prelude Text.

Abbreviation strmap A := (gmap (list N) A) (only parsing).

(** [str::cmp]: lexicographic on scalar values, which is lexicographic on UTF-8 bytes. *)
Fixpoint str_cmp (a b : str) : comparison :=
  match a, b with
  | [], [] => Eq
  | [], _ :: _ => Lt
  | _ :: _, [] => Gt
  | x :: a', y :: b' => match N.compare x y with Eq => str_cmp a' b' | c => c end
  end.

(** [Ordering::then_with] *)
Definition then_with (a b : comparison) : comparison := match a with Eq => b | c => c end.

Definition str_le (a b : str) : Prop := str_cmp a b <> Gt.
#[export] Instance str_le_dec a b : Decision (str_le a b).
Proof. unfold str_le. destruct (str_cmp a b); [left|left|right]; congruence. Defined.

Lemma str_cmp_eq a b : str_cmp a b = Eq -> a = b.
Proof.
  revert b. induction a as [|x a IH]; intros [|y b]; cbn; try done.
  destruct (N.compare_spec x y); [|done..]. intros Hab. f_equal; auto.
Qed.

Lemma str_cmp_refl a : str_cmp a a = Eq.
Proof. induction a as [|x a IH]; cbn; [done|]. by rewrite N.compare_refl. Qed.

Lemma str_cmp_antisym a b : str_cmp b a = CompOpp (str_cmp a b).
Proof.
  revert b. induction a as [|x a IH]; intros [|y b]; cbn; try done.
  rewrite N.compare_antisym. destruct (N.compare x y); cbn; auto.
Qed.

#[export] Instance str_le_trans : Transitive str_le.
Proof.
  intros a b. revert a. induction b as [|y b IH]; intros [|x a] [|z c]; unfold str_le; cbn;
    try congruence.
  destruct (N.compare_spec x y), (N.compare_spec y z), (N.compare_spec x z);
    first [apply IH|congruence|lia].
Qed.

#[export] Instance str_le_total : Total str_le.
Proof.
  intros a b. unfold str_le. rewrite (str_cmp_antisym a b). destruct (str_cmp a b); cbn; auto.
Qed.

#[export] Instance str_le_antisym : AntiSymm (=) str_le.
Proof.
  intros a b. unfold str_le. rewrite (str_cmp_antisym a b).
  destruct (str_cmp a b) eqn:E; cbn; [by intros; apply str_cmp_eq|done..].
Qed.

(** The entries of a map in key order. *)
Definition sorted_entries {A} (m : strmap A) : list (str * A) :=
  merge_sort (fun x y => str_le (fst x) (fst y)) (map_to_list m).

Lemma elem_of_sorted_entries {A} (m : strmap A) k v : (k, v) ∈ sorted_entries m <-> m !! k = Some v.
Proof. unfold sorted_entries. rewrite merge_sort_Permutation. apply elem_of_map_to_list. Qed.

Lemma NoDup_sorted_entries {A} (m : strmap A) : NoDup (sorted_entries m).*1.
Proof. unfold sorted_entries. rewrite merge_sort_Permutation. apply NoDup_fst_map_to_list. Qed.

(** A loop over the entries of a map that inserts a value for each key relates the two maps. *)
Lemma try_fold_entries {E A B} (f : gmap (list N) B -> str * A -> result E (gmap (list N) B))
    (R : str -> A -> B -> Prop) :
  (forall acc k a acc', f acc (k, a) = Ok acc' -> exists b, R k a b /\ acc' = <[k := b]> acc) ->
  forall (m : gmap (list N) A) acc, try_fold f ∅ (sorted_entries m) = Ok acc -> map_Forall2 R m acc.
Proof.
  intros Hf m acc H.
  assert (Hgen : NoDup (sorted_entries m).*1 ->
    (forall k a, (k, a) ∈ sorted_entries m -> exists b, acc !! k = Some b /\ R k a b) /\
    (forall k, is_Some (acc !! k) -> k ∈ (sorted_entries m).*1)).
  { revert H. apply (try_fold_prefix (fun pre (acc : gmap (list N) B) => NoDup pre.*1 ->
      (forall k a, (k, a) ∈ pre -> exists b, acc !! k = Some b /\ R k a b) /\
      (forall k, is_Some (acc !! k) -> k ∈ pre.*1))).
    - intros pre [k a] s s' IH Hs. rewrite fmap_app. intros (Hnd & Hnew & _)%NoDup_app.
      destruct (IH Hnd) as [Hin Hdom]. destruct (Hf _ _ _ _ Hs) as (b & HR & ->). split.
      + intros k' a' [Hold|Hl%list_elem_of_singleton]%elem_of_app.
        * destruct (Hin _ _ Hold) as (b' & Hb & HR'). exists b'. split; [|done].
          rewrite lookup_insert_ne; [done|]. intros ->. apply (Hnew k'); [|by left].
          apply list_elem_of_fmap. by exists (k', a').
        * injection Hl as -> ->. exists b. by rewrite lookup_insert_eq.
      + intros k' [<-|[_ Hk]]%lookup_insert_is_Some; apply elem_of_app; [right; by left|]. left. by apply Hdom.
    - intros _. split; [by intros ? ? ?%not_elem_of_nil|]. intros k [? Hk]. by rewrite lookup_empty in Hk. }
  destruct (Hgen (NoDup_sorted_entries m)) as [Hin Hdom]. intros k.
  destruct (m !! k) as [a|] eqn:Hm.
  - destruct (Hin k a) as (b & -> & HR); [by apply elem_of_sorted_entries|]. by constructor.
  - destruct (acc !! k) as [b|] eqn:Hb; [exfalso|constructor].
    assert (Hk := Hdom k (mk_is_Some _ _ Hb)). apply list_elem_of_fmap in Hk as ([k' a] & Hkk & Hk).
    cbn in Hkk. subst k'. apply elem_of_sorted_entries in Hk. by rewrite Hm in Hk.
Qed.

(** The elements of a set of text in order. *)
Definition sorted_elements (s : gset (list N)) : list str := merge_sort str_le (elements s).

Lemma elem_of_sorted_elements (s : gset (list N)) x : x ∈ sorted_elements s <-> x ∈ s.
Proof. unfold sorted_elements. rewrite merge_sort_Permutation. apply elem_of_elements. Qed.

Lemma NoDup_sorted_elements (s : gset (list N)) : NoDup (sorted_elements s).
Proof. unfold sorted_elements. rewrite merge_sort_Permutation. apply NoDup_elements. Qed.

Lemma length_sorted_elements (s : gset (list N)) : length (sorted_elements s) = size s.
Proof. unfold sorted_elements. by rewrite merge_sort_Permutation. Qed.
