(* ===== verification/Effects.v ===== *)
(** * Effects: orchestration over adapters, and the traces it leaves

    An orchestrator calls the methods of its adapters, whose world is an arbitrary type [A], and
    returns a value or an error.  [act] is the monad of such code: it threads the world and logs
    the calls.  A log entry may hold the arguments of the call and what it returned, so a theorem
    about traces is a theorem about the order, the arguments and the answers of the calls.

    [emits m Q] says that from every world [m] ends with a trace and a result in [Q]; the lemmas
    below are its rules, one per construct, and [trace] applies them. *)

From S2P Require Import Prelude.

(** An action: the new world, the calls made, the result. *)
Definition act (A C E X : Type) : Type := A -> A * list C * result E X.

Section actions.
Context {A C : Type}.

Definition done {E X} (x : X) : act A C E X := fun a => (a, [], Ok x).
Definition raise {E X} (e : E) : act A C E X := fun a => (a, [], Err e).

(** A method of an adapter. *)
Definition invoke {E X} (entry : result E X -> C) (f : A -> A * result E X) : act A C E X :=
  fun a => let '(a', r) := f a in (a', [entry r], r).

(** [match m { Ok(x) => k(x), Err(e) => h(e) }] *)
Definition handle {E F X Y} (m : act A C E X) (h : E -> act A C F Y) (k : X -> act A C F Y) :
    act A C F Y :=
  fun a => let '(a1, t1, r1) := m a in
           let '(a2, t2, r2) := match r1 with Ok x => k x a1 | Err e => h e a1 end in
           (a2, t1 ++ t2, r2).

(** Reading the world, as [CancellationToken::is_cancelled] does. *)
Definition observe {E X Y} (f : A -> Y) (k : Y -> act A C E X) : act A C E X := fun a => k (f a) a.

(** [for x in l { body(x)?; }] *)
Fixpoint each {E X} (body : X -> act A C E unit) (l : list X) : act A C E unit :=
  match l with
  | [] => done tt
  | x :: l' => handle (body x) raise (fun _ => each body l')
  end.

Lemma each_app {E X} (body : X -> act A C E unit) (l1 l2 : list X) a :
  each body (l1 ++ l2) a = handle (each body l1) raise (fun _ => each body l2) a.
Proof.
  revert a. induction l1 as [|x l1 IH]; intros a; cbn [each app]; unfold handle, done, raise in *.
  - by destruct (each body l2 a) as [[a2 t2] r2].
  - destruct (body x a) as [[a1 t1] [[]|e]]; [|by rewrite !app_nil_r]. rewrite IH.
    destruct (each body l1 a1) as [[a2 t2] [[]|e]]; [|by rewrite !app_nil_r].
    destruct (each body l2 a2) as [[a3 t3] r3]. by rewrite app_assoc.
Qed.
End actions.

Notation "'do?' x := m 'else' h 'in' k" := (handle m h (fun x => k))
  (at level 10, x pattern, m at level 100, h at level 100, k at level 200,
   format "'[v' 'do?'  x  :=  m  'else'  h  'in' '/' k ']'") : rust_scope.

(** [m.map_err(f)?] *)
Notation "'do?' x := m 'or' f 'in' k" := (handle m (fun e => raise (f e)) (fun x => k))
  (at level 10, x pattern, m at level 100, f at level 100, k at level 200,
   format "'[v' 'do?'  x  :=  m  'or'  f  'in' '/' k ']'") : rust_scope.

(** ** Traces *)

Section traces.
Context {A C : Type}.

Definition emits {E X} (m : act A C E X) (Q : list C -> result E X -> Prop) : Prop :=
  forall a, let '(_, t, r) := m a in Q t r.

Lemma emits_run {E X} (m : act A C E X) Q a a' t r : emits m Q -> m a = (a', t, r) -> Q t r.
Proof. intros H Hm. specialize (H a). by rewrite Hm in H. Qed.

Lemma emits_impl {E X} (m : act A C E X) (Q Q' : list C -> result E X -> Prop) :
  emits m Q -> (forall t r, Q t r -> Q' t r) -> emits m Q'.
Proof. intros H HQ a. specialize (H a). destruct (m a) as [[a' t] r]. auto. Qed.

Lemma emits_done {E X} (x : X) (Q : list C -> result E X -> Prop) : Q [] (Ok x) -> emits (done x) Q.
Proof. by intros H a. Qed.

Lemma emits_raise {E X} (e : E) (Q : list C -> result E X -> Prop) : Q [] (Err e) -> emits (raise e) Q.
Proof. by intros H a. Qed.

Lemma emits_invoke {E X} (entry : result E X -> C) f (Q : list C -> result E X -> Prop) :
  (forall r, Q [entry r] r) -> emits (invoke entry f) Q.
Proof. intros H a. unfold invoke. destruct (f a) as [a' r]. apply H. Qed.

Lemma emits_handle {E F X Y} (m : act A C E X) (h : E -> act A C F Y) k (P : list C -> result E X -> Prop)
    (Q : list C -> result F Y -> Prop) :
  emits m P ->
  (forall t x, P t (Ok x) -> emits (k x) (fun t' r => Q (t ++ t') r)) ->
  (forall t e, P t (Err e) -> emits (h e) (fun t' r => Q (t ++ t') r)) ->
  emits (handle m h k) Q.
Proof.
  intros Hm Hk Hh a. unfold handle. specialize (Hm a). destruct (m a) as [[a1 t1] [x|e]].
  - specialize (Hk t1 x Hm a1). by destruct (k x a1) as [[a2 t2] r2].
  - specialize (Hh t1 e Hm a1). by destruct (h e a1) as [[a2 t2] r2].
Qed.

(** The common case: a method followed by its continuation or its handler. *)
Lemma emits_call {E F X Y} (entry : result E X -> C) f (h : E -> act A C F Y) k
    (Q : list C -> result F Y -> Prop) :
  (forall x, emits (k x) (fun t r => Q (entry (Ok x) :: t) r)) ->
  (forall e, emits (h e) (fun t r => Q (entry (Err e) :: t) r)) ->
  emits (handle (invoke entry f) h k) Q.
Proof.
  intros Hk Hh. apply (emits_handle _ _ _ (fun t r => t = [entry r])); [by apply emits_invoke|..];
    intros t x ->; [apply Hk|apply Hh].
Qed.

Lemma emits_observe {E X Y} (f : A -> Y) (k : Y -> act A C E X) Q :
  (forall y, emits (k y) Q) -> emits (observe f k) Q.
Proof. intros H a. apply H. Qed.

(** A loop runs the elements in order and stops at the first failure. *)
Lemma emits_each {E X} (body : X -> act A C E unit) (P : X -> list C -> result E unit -> Prop) l :
  (forall x, emits (body x) (P x)) ->
  emits (each body l) (fun t r =>
    exists pre post ts, l = pre ++ post /\ Forall2 (fun x t => P x t (Ok tt)) pre ts /\
      match r with
      | Ok _ => post = [] /\ t = concat ts
      | Err e => exists x rest tx, post = x :: rest /\ P x tx (Err e) /\ t = concat ts ++ tx
      end).
Proof.
  intros Hb. induction l as [|x l IH]; cbn [each].
  - apply emits_done. exists [], [], []. by split_and!.
  - eapply emits_handle; [apply Hb|..]; intros t; [intros [] Hx|intros e Hx].
    + eapply emits_impl; [exact IH|]. intros t' r (pre & post & ts & -> & Hf & Hr).
      exists (x :: pre), post, (t :: ts). split_and!; [done|by constructor|]. destruct r as [u|e].
      * destruct Hr as [-> ->]. done.
      * destruct Hr as (y & rest & ty & -> & Hy & ->). exists y, rest, ty. split_and!; [done..|].
        cbn. by rewrite app_assoc.
    + apply emits_raise. exists [], (x :: l), []. split_and!; [done|constructor|].
      exists x, l, t. split_and!; [done..|]. by rewrite app_nil_r.
Qed.
End traces.

(** ** Traces from a given world *)

(** After the calls [t0], the run of [m] from the world [a] ends in [Q]. *)
Definition wp {A C E X} (t0 : list C) (m : act A C E X) (Q : A -> list C -> result E X -> Prop) (a : A) : Prop :=
  let '(a', t, r) := m a in Q a' (t0 ++ t) r.

Section worlds.
Context {A C : Type}.

Lemma wp_done {E X} t0 (x : X) (Q : A -> list C -> result E X -> Prop) a :
  Q a t0 (Ok x) -> wp t0 (done x) Q a.
Proof. unfold wp, done. by rewrite app_nil_r. Qed.

Lemma wp_raise {E X} t0 (e : E) (Q : A -> list C -> result E X -> Prop) a :
  Q a t0 (Err e) -> wp t0 (raise e) Q a.
Proof. unfold wp, raise. by rewrite app_nil_r. Qed.

Lemma wp_impl {E X} t0 (m : act A C E X) (Q Q' : A -> list C -> result E X -> Prop) a :
  wp t0 m Q a -> (forall a' t r, Q a' t r -> Q' a' t r) -> wp t0 m Q' a.
Proof. unfold wp. destruct (m a) as [[a' t] r]. auto. Qed.

Lemma wp_handle {E F X Y} t0 (m : act A C E X) (h : E -> act A C F Y) k Q a :
  wp t0 m (fun a' t r => match r with Ok x => wp t (k x) Q a' | Err e => wp t (h e) Q a' end) a ->
  wp t0 (handle m h k) Q a.
Proof.
  unfold wp, handle. destruct (m a) as [[a1 t1] [x|e]].
  - destruct (k x a1) as [[a2 t2] r2]. by rewrite app_assoc.
  - destruct (h e a1) as [[a2 t2] r2]. by rewrite app_assoc.
Qed.

Lemma wp_call {E F X Y} t0 (entry : result E X -> C) f (h : E -> act A C F Y) k Q a :
  (forall a' r, f a = (a', r) ->
     match r with
     | Ok x => wp (t0 ++ [entry r]) (k x) Q a'
     | Err e => wp (t0 ++ [entry r]) (h e) Q a'
     end) ->
  wp t0 (handle (invoke entry f) h k) Q a.
Proof.
  intros H. apply wp_handle. unfold wp at 1, invoke. destruct (f a) as [a' [x|e]] eqn:Ef;
    by apply (H _ _ eq_refl).
Qed.

(** A method whose answer is ignored. *)
Lemma wp_ignore {E F X Y} t0 (c : C) (f : A -> A * result E X) (k : act A C F Y) Q a :
  wp (t0 ++ [c]) k Q (fst (f a)) ->
  wp t0 (handle (invoke (fun _ => c) f) (fun _ => k) (fun _ => k)) Q a.
Proof. intros H. apply wp_call. intros a' r Ef. rewrite Ef in H. by destruct r. Qed.

Lemma wp_observe {E X Y} t0 (f : A -> Y) (k : Y -> act A C E X) Q a :
  wp t0 (k (f a)) Q a -> wp t0 (observe f k) Q a.
Proof. done. Qed.
End worlds.

(** Applies the rules to straight-line code and splits on the conditions in between. *)
Ltac trace_step :=
  match goal with
  | |- emits (done _) _ => apply emits_done
  | |- emits (raise _) _ => apply emits_raise
  | |- emits (handle (invoke _ _) _ _) _ => apply emits_call; intros
  | |- emits (observe _ _) _ => apply emits_observe; intros []
  end.
Ltac trace := repeat trace_step.
