(* ===== verification/Utf8.v ===== *)
(** * Utf8: [str::as_bytes] and [str::from_utf8]

    [encode_utf8] gives the bytes of a string; [from_utf8] is the strict decoder of
    the standard library (no overlong forms, no surrogates, nothing above U+10FFFF).
    The two are inverse on strings of scalar values and on valid byte strings, and the
    length of the encoding is [str_len]. *)

From S2P Require Import Prelude Text.

(** Bytes of one character. *)
Definition encode_char (c : char) : list N :=
  if c <? 128 then [c]
  else if c <? 2048 then [192 + c / 64; 128 + c mod 64]
  else if c <? 65536 then [224 + c / 4096; 128 + (c / 64) mod 64; 128 + c mod 64]
  else [240 + c / 262144; 128 + (c / 4096) mod 64; 128 + (c / 64) mod 64; 128 + c mod 64].

(** [s.as_bytes()] *)
Fixpoint encode_utf8 (s : str) : list N :=
  match s with [] => [] | c :: s' => encode_char c ++ encode_utf8 s' end.

Definition is_cont (b : N) : bool := in_range 128 191 b.

(** [str::from_utf8(bytes).ok()] *)
Fixpoint from_utf8 (bs : list N) : option str :=
  match bs with
  | [] => Some []
  | b0 :: r0 =>
      if b0 <? 128 then cons b0 <$> from_utf8 r0
      else
        match r0 with
        | [] => None
        | b1 :: r1 =>
            if in_range 194 223 b0 then
              if is_cont b1 then cons ((b0 - 192) * 64 + (b1 - 128)) <$> from_utf8 r1 else None
            else
              match r1 with
              | [] => None
              | b2 :: r2 =>
                  if in_range 224 239 b0 then
                    let c := (b0 - 224) * 4096 + (b1 - 128) * 64 + (b2 - 128) in
                    if is_cont b1 && is_cont b2 && (2048 <=? c) && is_scalar c
                    then cons c <$> from_utf8 r2 else None
                  else
                    match r2 with
                    | [] => None
                    | b3 :: r3 =>
                        let c := (b0 - 240) * 262144 + (b1 - 128) * 4096
                                 + (b2 - 128) * 64 + (b3 - 128) in
                        if in_range 240 244 b0 && is_cont b1 && is_cont b2 && is_cont b3
                           && (65536 <=? c) && (c <=? 1114111)
                        then cons c <$> from_utf8 r3 else None
                    end
              end
        end
  end.

Definition valid_str (s : str) : Prop := Forall (fun c => is_scalar c = true) s.

Ltac range_of_bool :=
  prop_of_bool;
  repeat match goal with
  | H : in_range _ _ _ = true |- _ => apply in_range_true in H
  | H : in_range _ _ _ = false |- _ => apply in_range_false in H
  | H : is_cont _ = true |- _ => apply in_range_true in H
  | H : is_scalar _ = true |- _ => apply is_scalar_true in H
  end.

(** Decoding peels one encoded character off the front. *)
Lemma from_utf8_encode_char c bs :
  is_scalar c = true -> from_utf8 (encode_char c ++ bs) = cons c <$> from_utf8 bs.
Proof.
  intros Hc. assert (Hs := Hc). apply is_scalar_true in Hs. unfold encode_char.
  assert (Hcont : forall x, is_cont (128 + x mod 64) = true)
    by (intros x; apply in_range_true; lia).
  destruct (N.ltb_spec c 128).
  { cbn [app from_utf8]. by destruct (N.ltb_spec c 128); [|lia]. }
  destruct (N.ltb_spec c 2048).
  { cbn [app from_utf8]. destruct (N.ltb_spec (192 + c / 64) 128); [lia|].
    rewrite (proj2 (in_range_true _ _ _)) by lia. rewrite Hcont. do 2 f_equal. lia. }
  destruct (N.ltb_spec c 65536).
  { cbn [app from_utf8]. destruct (N.ltb_spec (224 + c / 4096) 128); [lia|].
    rewrite (proj2 (in_range_false _ _ _)) by lia.
    rewrite (proj2 (in_range_true _ _ _)) by lia. rewrite !Hcont. cbn zeta.
    replace ((224 + c / 4096 - 224) * 4096 + (128 + (c / 64) mod 64 - 128) * 64
             + (128 + c mod 64 - 128)) with c by lia.
    rewrite Hc. by destruct (N.leb_spec 2048 c); [|lia]. }
  cbn [app from_utf8]. destruct (N.ltb_spec (240 + c / 262144) 128); [lia|].
  rewrite (proj2 (in_range_false 194 _ _)) by lia.
  rewrite (proj2 (in_range_false 224 _ _)) by lia.
  rewrite (proj2 (in_range_true 240 _ _)) by lia. rewrite !Hcont. cbn zeta.
  replace ((240 + c / 262144 - 240) * 262144 + (128 + (c / 4096) mod 64 - 128) * 4096
           + (128 + (c / 64) mod 64 - 128) * 64 + (128 + c mod 64 - 128)) with c by lia.
  by destruct (N.leb_spec 65536 c), (N.leb_spec c 1114111); [|lia..].
Qed.

Lemma from_utf8_encode s : valid_str s -> from_utf8 (encode_utf8 s) = Some s.
Proof.
  induction 1 as [|c s Hc Hs IH]; simpl; [done|]. by rewrite from_utf8_encode_char, IH.
Qed.

Lemma encode_char_len c : lenN (encode_char c) = len_utf8 c.
Proof. unfold encode_char, len_utf8. by repeat case_match. Qed.

Lemma encode_utf8_len s : lenN (encode_utf8 s) = str_len s.
Proof. induction s as [|c s IH]; simpl; [done|]. by rewrite lenN_app, encode_char_len, IH. Qed.

Lemma encode_utf8_app s t : encode_utf8 (s ++ t) = encode_utf8 s ++ encode_utf8 t.
Proof. induction s as [|c s IH]; simpl; [done|]. by rewrite IH, app_assoc. Qed.

Lemma encode_utf8_ascii s : Forall (fun c => c < 128) s -> encode_utf8 s = s.
Proof.
  induction 1 as [|c s Hc Hs IH]; simpl; [done|]. unfold encode_char.
  destruct (N.ltb_spec c 128); [|lia]. by rewrite IH.
Qed.

Lemma from_utf8_ascii s : Forall (fun c => c < 128) s -> from_utf8 s = Some s.
Proof.
  intros H. rewrite <- (encode_utf8_ascii s) at 1 by done. apply from_utf8_encode.
  eapply Forall_impl; [exact H|]. intros c Hc. apply is_scalar_true. simpl in Hc. lia.
Qed.

Lemma cons_fmap_Some {A} (a : A) o l : cons a <$> o = Some l <-> exists l', o = Some l' /\ l = a :: l'.
Proof. destruct o; simpl; naive_solver. Qed.

(** The multi-byte forms the decoder accepts are the encodings of their code points. *)
Lemma encode_char_2 b0 b1 :
  194 <= b0 <= 223 -> 128 <= b1 <= 191 ->
  let c := (b0 - 192) * 64 + (b1 - 128) in encode_char c = [b0; b1] /\ is_scalar c = true.
Proof.
  intros H0 H1 c. split; [|apply is_scalar_true; lia]. unfold encode_char.
  destruct (N.ltb_spec c 128); [lia|]. destruct (N.ltb_spec c 2048); [|lia].
  subst c. repeat f_equal; lia.
Qed.

Lemma encode_char_3 b0 b1 b2 :
  224 <= b0 <= 239 -> 128 <= b1 <= 191 -> 128 <= b2 <= 191 ->
  let c := (b0 - 224) * 4096 + (b1 - 128) * 64 + (b2 - 128) in
  2048 <= c -> encode_char c = [b0; b1; b2].
Proof.
  intros H0 H1 H2 c Hc. unfold encode_char.
  destruct (N.ltb_spec c 128); [lia|]. destruct (N.ltb_spec c 2048); [lia|].
  destruct (N.ltb_spec c 65536); [|lia]. subst c. repeat f_equal; lia.
Qed.

Lemma encode_char_4 b0 b1 b2 b3 :
  240 <= b0 <= 244 -> 128 <= b1 <= 191 -> 128 <= b2 <= 191 -> 128 <= b3 <= 191 ->
  let c := (b0 - 240) * 262144 + (b1 - 128) * 4096 + (b2 - 128) * 64 + (b3 - 128) in
  65536 <= c -> encode_char c = [b0; b1; b2; b3].
Proof.
  intros H0 H1 H2 H3 c Hc. unfold encode_char.
  destruct (N.ltb_spec c 128); [lia|]. destruct (N.ltb_spec c 2048); [lia|].
  destruct (N.ltb_spec c 65536); [lia|]. subst c. repeat f_equal; lia.
Qed.

(** Whatever decodes is the encoding of the decoded string, which is valid. *)
Lemma from_utf8_Some bs s : from_utf8 bs = Some s -> encode_utf8 s = bs /\ valid_str s.
Proof.
  revert s. induction bs as [bs IH] using (induction_ltof1 _ (@length N)). unfold ltof in IH.
  assert (Hstep : forall c hd tl s, bs = hd ++ tl -> (hd <> []) -> encode_char c = hd ->
            is_scalar c = true -> cons c <$> from_utf8 tl = Some s ->
            encode_utf8 s = bs /\ valid_str s).
  { intros c hd tl s -> Hhd <- Hc H. apply cons_fmap_Some in H as (s' & H & ->).
    assert (Hlt : (length tl < length (encode_char c ++ tl))%nat)
      by (rewrite length_app; destruct (encode_char c); [done|simpl; lia]).
    destruct (IH tl Hlt s' H) as [He Hv]. simpl. rewrite He. split; [done|]. by constructor. }
  intros s H. destruct bs as [|b0 r0]; cbn [from_utf8] in H; [injection H as <-; split; [done|constructor]|].
  destruct (N.ltb_spec b0 128) as [H0|H0].
  { apply (Hstep b0 [b0] r0 s); auto; [unfold encode_char; by destruct (N.ltb_spec b0 128); [|lia]|].
    apply is_scalar_true; lia. }
  destruct r0 as [|b1 r1]; [done|]. destruct (in_range 194 223 b0) eqn:H2.
  { destruct (is_cont b1) eqn:H1; [|done]. range_of_bool.
    destruct (encode_char_2 b0 b1); auto. by eapply (Hstep _ [b0; b1] r1 s). }
  destruct r1 as [|b2 r2]; [done|]. destruct (in_range 224 239 b0) eqn:H3.
  { case_match eqn:Hg; [|done]. range_of_bool. eapply (Hstep _ [b0; b1; b2] r2 s); [done..| | |exact H].
    - by apply encode_char_3.
    - by apply is_scalar_true. }
  destruct r2 as [|b3 r3]; [done|]. case_match eqn:Hg; [|done]. range_of_bool.
  eapply (Hstep _ [b0; b1; b2; b3] r3 s); [done..| | |exact H].
  - by apply encode_char_4.
  - apply is_scalar_true; lia.
Qed.

#[export] Hint Resolve from_utf8_encode : text.
