(* ===== verification/Net.v ===== *)
(** * Net: the parts of Rust's [std::net] the sources use

    [Ipv4Addr] and [Ipv6Addr] by their bits, with [Display], [FromStr] and the address
    classes; [IpAddr].  The parsers are the standard library's: they consume a prefix and
    return the rest, and a failed alternative leaves the input where it was. *)

From S2P Require Import Prelude Text.

(** ** Addresses and their text *)

Record Ipv4Addr : Type := mkIpv4 { ipv4_bits : N }.
Record Ipv6Addr : Type := mkIpv6 { ipv6_bits : N }.

(** Field [i] (counted from the most significant of [n]) of [w] bits. *)
Definition bit_field (w n i bits : N) : N := N.land (N.shiftr bits (w * (n - 1 - i))) (N.ones w).

Definition octets (a : Ipv4Addr) : list N :=
  List.map (fun i => bit_field 8 4 i (ipv4_bits a)) [0; 1; 2; 3].
Definition segments (a : Ipv6Addr) : list N :=
  List.map (fun i => bit_field 16 8 i (ipv6_bits a)) [0; 1; 2; 3; 4; 5; 6; 7].

Definition Ipv4_to_string (a : Ipv4Addr) : str := join ($".") (List.map to_string (octets a)).

Definition hex_digit (d : N) : char := if d <? 10 then 48 + d else 87 + d.

(** [{:x}] of a [u16]. *)
Definition hex_u16 (n : N) : str :=
  let nibbles := List.map (fun i => bit_field 4 4 i n) [0; 1; 2; 3] in
  match drop_while (N.eqb 0) nibbles with
  | [] => $"0"
  | ds => List.map hex_digit ds
  end.

(** The first longest run of zero segments: its start and length. *)
Fixpoint longest_zeroes (i : nat) (segs : list N) (cur best : nat * nat) : nat * nat :=
  match segs with
  | [] => best
  | s :: segs' =>
      if s =? 0 then
        let cur' := ((if Nat.eqb (snd cur) 0 then i else fst cur), S (snd cur)) in
        longest_zeroes (S i) segs' cur' (if Nat.ltb (snd best) (snd cur') then cur' else best)
      else longest_zeroes (S i) segs' (0%nat, 0%nat) best
  end.

Definition fmt_segments (segs : list N) : str := join ($":") (List.map hex_u16 segs).

(** [Display for Ipv6Addr]: the mapped form, then the longest run of zeroes compressed. *)
Definition Ipv6_to_string (a : Ipv6Addr) : str :=
  let segs := segments a in
  if bool_decide (take 6 segs = [0; 0; 0; 0; 0; 65535]) then
    $"::ffff:" ++ Ipv4_to_string (mkIpv4 (N.land (ipv6_bits a) MAX_U32))
  else
    let '(start, len) := longest_zeroes 0 segs (0%nat, 0%nat) (0%nat, 0%nat) in
    if Nat.ltb 1 len then
      fmt_segments (take start segs) ++ $"::" ++ fmt_segments (drop (start + len) segs)
    else fmt_segments segs.

(** ** Parsing *)

(** One decimal or hexadecimal digit. *)
Definition digit_of (radix : N) (c : char) : option N :=
  let d := if is_ascii_digit c then Some (c - 48)
           else if in_range 97 102 c then Some (c - 87)
           else if in_range 65 70 c then Some (c - 55)
           else None in
  match d with Some d => if d <? radix then Some d else None | None => None end.

(** [read_number(radix, Some(max_digits), allow_zero_prefix)] into a type of maximum [max]:
    all leading digits are read; too many digits, overflow, no digit, or a forbidden
    leading zero is a failure. *)
Fixpoint read_digits (radix max : N) (count : nat) (max_digits : nat) (acc : N) (s : str) :
    option (nat * N * str) :=
  match s with
  | c :: s' =>
      match digit_of radix c with
      | Some d =>
          if max <? acc * radix + d then None
          else if Nat.ltb max_digits (S count) then None
          else read_digits radix max (S count) max_digits (acc * radix + d) s'
      | None => Some (count, acc, s)
      end
  | [] => Some (count, acc, s)
  end.

Definition read_number (radix max : N) (max_digits : nat) (allow_zero_prefix : bool) (s : str) :
    option (N * str) :=
  match read_digits radix max 0 max_digits 0 s with
  | None => None
  | Some (count, value, rest) =>
      if Nat.eqb count 0 then None
      else if negb allow_zero_prefix && bool_decide (head s = Some 48) && Nat.ltb 1 count then None
      else Some (value, rest)
  end.

Definition read_given_char (c : char) (s : str) : option str :=
  match s with x :: s' => if x =? c then Some s' else None | [] => None end.

(** [read_separator(sep, index, inner)] *)
Definition read_separator {A} (sep : char) (index : nat) (inner : str -> option (A * str)) (s : str) :
    option (A * str) :=
  if Nat.eqb index 0 then inner s
  else match read_given_char sep s with Some s' => inner s' | None => None end.

Fixpoint read_octets (index count : nat) (acc : N) (s : str) : option (N * str) :=
  match count with
  | O => Some (acc, s)
  | S count' =>
      match read_separator 46 index (read_number 10 255 3 false) s with
      | Some (octet, s') => read_octets (S index) count' (acc * 256 + octet) s'
      | None => None
      end
  end.

Definition read_ipv4_addr (s : str) : option (Ipv4Addr * str) :=
  match read_octets 0 4 0 s with Some (bits, s') => Some (mkIpv4 bits, s') | None => None end.

(** [read_groups] into [limit] slots, [i] of them filled: the groups read, whether the last
    two came from an embedded IPv4 address, and the rest. *)
Fixpoint read_groups (fuel i : nat) (s : str) : list N * bool * str :=
  match fuel with
  | O => ([], false, s)
  | S fuel' =>
      match (if Nat.ltb 0 fuel' then read_separator 58 i read_ipv4_addr s else None) with
      | Some (v4, s') =>
          ([N.shiftr (ipv4_bits v4) 16; N.land (ipv4_bits v4) 65535], true, s')
      | None =>
          match read_separator 58 i (read_number 16 65535 4 true) s with
          | Some (group, s') =>
              let '(groups, v4, rest) := read_groups fuel' (S i) s' in (group :: groups, v4, rest)
          | None => ([], false, s)
          end
      end
  end.

Definition segments_to_ipv6 (segs : list N) : Ipv6Addr :=
  mkIpv6 (fold_left (fun acc g => acc * 65536 + g) segs 0).

Definition read_ipv6_addr (s : str) : option (Ipv6Addr * str) :=
  let '(head, head_ipv4, s) := read_groups 8 0 s in
  if Nat.eqb (length head) 8 then Some (segments_to_ipv6 head, s)
  else if head_ipv4 then None
  else match read_given_char 58 s with
       | None => None
       | Some s =>
           match read_given_char 58 s with
           | None => None
           | Some s =>
               let '(tail, _, s) := read_groups (8 - (length head + 1)) 0 s in
               Some (segments_to_ipv6 (head ++ replicate (8 - length head - length tail) 0 ++ tail), s)
           end
       end.

Inductive IpAddr : Type := IpAddr_V4 (a : Ipv4Addr) | IpAddr_V6 (a : Ipv6Addr).

(** [s.parse::<IpAddr>()]: the whole input. *)
Definition IpAddr_parse (s : str) : option IpAddr :=
  match read_ipv4_addr s with
  | Some (a, []) => Some (IpAddr_V4 a)
  | Some (_, _ :: _) => None
  | None =>
      match read_ipv6_addr s with
      | Some (a, []) => Some (IpAddr_V6 a)
      | _ => None
      end
  end.

(** ** Address classes *)

Definition ipv4_is_loopback (a : Ipv4Addr) : bool := bit_field 8 4 0 (ipv4_bits a) =? 127.
Definition ipv4_is_private (a : Ipv4Addr) : bool :=
  match octets a with
  | [a0; a1; _; _] =>
      (a0 =? 10) || ((a0 =? 172) && in_range 16 31 a1) || ((a0 =? 192) && (a1 =? 168))
  | _ => false
  end.
Definition ipv4_is_link_local (a : Ipv4Addr) : bool :=
  (bit_field 8 4 0 (ipv4_bits a) =? 169) && (bit_field 8 4 1 (ipv4_bits a) =? 254).

Definition ipv6_is_loopback (a : Ipv6Addr) : bool := ipv6_bits a =? 1.
Definition ipv6_is_unique_local (a : Ipv6Addr) : bool :=
  N.land (bit_field 16 8 0 (ipv6_bits a)) 0xfe00 =? 0xfc00.
Definition ipv6_is_unicast_link_local (a : Ipv6Addr) : bool :=
  N.land (bit_field 16 8 0 (ipv6_bits a)) 0xffc0 =? 0xfe80.

Definition is_loopback (a : IpAddr) : bool :=
  match a with IpAddr_V4 a => ipv4_is_loopback a | IpAddr_V6 a => ipv6_is_loopback a end.

#[export] Instance Ipv4Addr_eq_dec : EqDecision Ipv4Addr.
Proof. solve_decision. Defined.
#[export] Instance Ipv6Addr_eq_dec : EqDecision Ipv6Addr.
Proof. solve_decision. Defined.
#[export] Instance IpAddr_eq_dec : EqDecision IpAddr.
Proof. solve_decision. Defined.

(** Concrete addresses, both ways. *)
Example ipv4_text : IpAddr_parse ($"192.168.0.1") = Some (IpAddr_V4 (mkIpv4 0xc0a80001)).
Proof. vm_compute. reflexivity. Qed.
Example ipv4_leading_zero : IpAddr_parse ($"192.168.00.1") = None.
Proof. vm_compute. reflexivity. Qed.
Example ipv6_text :
  IpAddr_parse ($"2001:db8::ff00:42:8329")
    = Some (IpAddr_V6 (mkIpv6 0x20010db8000000000000ff0000428329)) /\
  Ipv6_to_string (mkIpv6 0x20010db8000000000000ff0000428329) = $"2001:db8::ff00:42:8329".
Proof. vm_compute. split; reflexivity. Qed.
Example ipv6_mapped :
  IpAddr_parse ($"::ffff:10.0.0.1") = Some (IpAddr_V6 (mkIpv6 0xffff0a000001)) /\
  Ipv6_to_string (mkIpv6 0xffff0a000001) = $"::ffff:10.0.0.1".
Proof. vm_compute. split; reflexivity. Qed.

(** ** The text of an address *)

(** Four numbers with dots between them. *)
Definition dotted (a b c d : N) : str := to_string a ++ 46 :: to_string b ++ 46 :: to_string c ++ 46 :: to_string d.

Lemma read_octet n rest : n < 256 -> (rest = [] \/ exists r, rest = 46 :: r) ->
  read_number 10 255 3 false (to_string n ++ rest) = Some (n, rest).
Proof.
  intros Hn Hrest. assert (Hin : In n (List.map N.of_nat (seq 0 256))).
  { apply in_map_iff. exists (N.to_nat n). split; [lia|]. apply in_seq. lia. }
  clear Hn. cbn [List.map seq] in Hin.
  destruct Hrest as [->|[r ->]]; [rewrite app_nil_r|];
    repeat (destruct Hin as [<-|Hin]; [reflexivity|]); destruct Hin.
Qed.

Lemma dotted_parse a b c d : a < 256 -> b < 256 -> c < 256 -> d < 256 ->
  IpAddr_parse (dotted a b c d) = Some (IpAddr_V4 (mkIpv4 (((a * 256 + b) * 256 + c) * 256 + d))).
Proof.
  intros Ha Hb Hc Hd. unfold IpAddr_parse, read_ipv4_addr, dotted. cbn [read_octets read_separator Nat.eqb].
  rewrite read_octet by eauto. unfold read_separator, read_given_char. cbn [Nat.eqb]. rewrite N.eqb_refl.
  rewrite read_octet by eauto. rewrite N.eqb_refl.
  rewrite read_octet by eauto. rewrite N.eqb_refl.
  rewrite <- (app_nil_r (to_string d)). rewrite read_octet by eauto. done.
Qed.


Lemma dotted_octets a b c d : a < 256 -> b < 256 -> c < 256 -> d < 256 ->
  octets (mkIpv4 (((a * 256 + b) * 256 + c) * 256 + d)) = [a; b; c; d].
Proof.
  intros Ha Hb Hc Hd. unfold octets, bit_field. cbn [List.map ipv4_bits]. rewrite !N.land_ones, !N.shiftr_div_pow2.
  change (2 ^ (8 * (4 - 1 - 0))) with 16777216. change (2 ^ (8 * (4 - 1 - 1))) with 65536.
  change (2 ^ (8 * (4 - 1 - 2))) with 256. change (2 ^ (8 * (4 - 1 - 3))) with 1. change (2 ^ 8) with 256.
  rewrite N.div_1_r. repeat f_equal; Z.to_euclidean_division_equations; lia.
Qed.
