(* ===== verification/Identity.v ===== *)
(** * Identity: validated identities shared by host and agent
    ([cdenv-core/src/identity.rs])

    Opaque tokens, full Docker container IDs, positive generations and protocol
    versions, and the supported architectures.  A newtype with a private field is a
    record whose only constructor in the code is the validated [parse]. *)

From S2P Require Import Prelude Text Utf8.

(** ** Opaque tokens *)

(** @src cdenv-core/src/identity.rs:17-43 IdentityTokenError *)
Inductive IdentityTokenError : Type :=
| IdentityTokenError_Empty
| IdentityTokenError_InvalidStart (character : char)
| IdentityTokenError_InvalidEnd (character : char)
| IdentityTokenError_InvalidCharacter (index : N) (character : char).

(** [character.is_ascii_alphanumeric() || matches!(character, '-' | '_' | '.')]
    @src cdenv-core/src/identity.rs:56-56 validate_identity_token *)
Definition token_char (c : char) : bool :=
  is_ascii_alphanumeric c || (c =? 45) || (c =? 95) || (c =? 46).

(** @src cdenv-core/src/identity.rs:45-70 validate_identity_token *)
Definition validate_identity_token (value : str) : result IdentityTokenError unit :=
  match value with
  | [] => Err IdentityTokenError_Empty
  | first :: _ =>
      fail_if negb (is_ascii_alphanumeric first)
        with IdentityTokenError_InvalidStart first in
      match first_rejected token_char value with
      | Some (index, character) => Err (IdentityTokenError_InvalidCharacter index character)
      | None =>
          match last value with
          | None => Err IdentityTokenError_Empty
          | Some l =>
              fail_if negb (is_ascii_alphanumeric l) with IdentityTokenError_InvalidEnd l in
              Ok tt
          end
      end
  end.

(** The three types the macro [define_token_identity] generates.
    @src cdenv-core/src/identity.rs:184-193 InstallationId *)
Record InstallationId : Type := mkInstallationId { installation_str : str }.
(** @src cdenv-core/src/identity.rs:195-203 AgentBuildId *)
Record AgentBuildId : Type := mkAgentBuildId { build_str : str }.
(** @src cdenv-core/src/identity.rs:205-214 ProfileId *)
Record ProfileId : Type := mkProfileId { profile_str : str }.

#[export] Instance InstallationId_eq_dec : EqDecision InstallationId.
Proof. solve_decision. Defined.
#[export] Instance AgentBuildId_eq_dec : EqDecision AgentBuildId.
Proof. solve_decision. Defined.
#[export] Instance ProfileId_eq_dec : EqDecision ProfileId.
Proof. solve_decision. Defined.

(** [try_from(value: &str)], common to the three types: [$type_name] is the constructor.
    @src cdenv-core/src/identity.rs:137-161 define_token_identity *)
Definition token_parse {T : Type} (type_name : str -> T) (value : str) :
    result IdentityTokenError T :=
  let? _ := validate_identity_token value in Ok (type_name value).

(** ** Container IDs *)

(** @src cdenv-core/src/identity.rs:227-244 ContainerIdError *)
Inductive ContainerIdError : Type :=
| ContainerIdError_InvalidLength (length : N)
| ContainerIdError_InvalidCharacter (index : N) (character : char).

(** @src cdenv-core/src/identity.rs:222-222 ContainerId *)
Record ContainerId : Type := mkContainerId { container_str : str }.

#[export] Instance ContainerId_eq_dec : EqDecision ContainerId.
Proof. solve_decision. Defined.

(** [character.is_ascii_digit() || matches!(character, 'a'..='f')]
    @src cdenv-core/src/identity.rs:272-272 validate_container_id *)
Definition lower_hex (c : char) : bool := is_ascii_digit c || in_range 97 102 c.

(** @src cdenv-core/src/identity.rs:264-278 validate_container_id *)
Definition validate_container_id (value : str) : result ContainerIdError unit :=
  fail_if negb (str_len value =? 64) with ContainerIdError_InvalidLength (str_len value) in
  match first_rejected lower_hex value with
  | Some (index, character) => Err (ContainerIdError_InvalidCharacter index character)
  | None => Ok tt
  end.

(** @src cdenv-core/src/identity.rs:298-322 ContainerId::try_from *)
Definition ContainerId_parse (value : str) : result ContainerIdError ContainerId :=
  let? _ := validate_container_id value in Ok (mkContainerId value).

(** ** Positive integers: [NonZeroU64] and [NonZeroU32] *)

(** @src cdenv-core/src/identity.rs:348-348 GenerationId *)
Record GenerationId : Type := mkGenerationId { generation_get : N }.
(** @src cdenv-core/src/identity.rs:353-353 GenerationIdError *)
Inductive GenerationIdError : Type := mkGenerationIdError.

(** @src cdenv-core/src/identity.rs:361-366 GenerationId::new *)
Definition GenerationId_new (value : N) : result GenerationIdError GenerationId :=
  if value =? 0 then Err mkGenerationIdError else Ok (mkGenerationId value).

(** @src cdenv-core/src/identity.rs:419-419 ProtocolVersion *)
Record ProtocolVersion : Type := mkProtocolVersion { protocol_get : N }.
(** @src cdenv-core/src/identity.rs:424-424 ProtocolVersionError *)
Inductive ProtocolVersionError : Type := mkProtocolVersionError.

(** @src cdenv-core/src/identity.rs:432-437 ProtocolVersion::new *)
Definition ProtocolVersion_new (value : N) : result ProtocolVersionError ProtocolVersion :=
  if value =? 0 then Err mkProtocolVersionError else Ok (mkProtocolVersion value).

#[export] Instance GenerationId_eq_dec : EqDecision GenerationId.
Proof. solve_decision. Defined.
#[export] Instance ProtocolVersion_eq_dec : EqDecision ProtocolVersion.
Proof. solve_decision. Defined.

#[export] Instance GenerationId_countable : Countable GenerationId.
Proof. apply (inj_countable' generation_get mkGenerationId). by intros []. Defined.

(** ** Architectures *)

(** @src cdenv-core/src/identity.rs:500-505 ContainerArchitecture *)
Inductive ContainerArchitecture : Type := X86_64 | Aarch64.

#[export] Instance ContainerArchitecture_eq_dec : EqDecision ContainerArchitecture.
Proof. solve_decision. Defined.

(** @src cdenv-core/src/identity.rs:512-514 UnsupportedContainerArchitecture *)
Record UnsupportedContainerArchitecture : Type :=
  mkUnsupportedContainerArchitecture { architecture : str }.

(** @src cdenv-core/src/identity.rs:537-542 canonical_name *)
Definition canonical_name (a : ContainerArchitecture) : str :=
  match a with X86_64 => $"x86_64" | Aarch64 => $"aarch64" end.

(** @src cdenv-core/src/identity.rs:546-551 docker_name *)
Definition docker_name (a : ContainerArchitecture) : str :=
  match a with X86_64 => $"amd64" | Aarch64 => $"arm64" end.

(** @src cdenv-core/src/identity.rs:555-560 musl_target *)
Definition musl_target (a : ContainerArchitecture) : str :=
  match a with
  | X86_64 => $"x86_64-unknown-linux-musl"
  | Aarch64 => $"aarch64-unknown-linux-musl"
  end.

(** @src cdenv-core/src/identity.rs:569-589 ContainerArchitecture::try_from *)
Definition ContainerArchitecture_parse (value : str) :
    result UnsupportedContainerArchitecture ContainerArchitecture :=
  if str_eqb value ($"amd64") || str_eqb value ($"x86_64") then Ok X86_64
  else if str_eqb value ($"arm64") || str_eqb value ($"aarch64") then Ok Aarch64
  else Err (mkUnsupportedContainerArchitecture value).

(** ** Lemmas *)

(** What an accepted token is. *)
Definition token_ok (value : str) : Prop :=
  Forall (fun c => token_char c = true) value /\
  (exists c, head value = Some c /\ is_ascii_alphanumeric c = true) /\
  (exists c, last value = Some c /\ is_ascii_alphanumeric c = true).

Lemma token_char_ascii c : token_char c = true -> c < 128.
Proof.
  unfold token_char. rewrite !orb_true_iff, !N.eqb_eq. intros [[[H|H]|H]|H]; try lia.
  apply alphanumeric_range in H. lia.
Qed.

Lemma lower_hex_range c : lower_hex c = true <-> 48 <= c <= 57 \/ 97 <= c <= 102.
Proof. unfold lower_hex, is_ascii_digit. by rewrite orb_true_iff, !in_range_true. Qed.

(** Every branch of the token validator, with the values its errors carry: the error
    names the first offending character and its byte offset. *)
Lemma validate_identity_token_branches value :
  match validate_identity_token value with
  | Ok _ => token_ok value
  | Err IdentityTokenError_Empty => value = []
  | Err (IdentityTokenError_InvalidStart c) =>
      head value = Some c /\ is_ascii_alphanumeric c = false
  | Err (IdentityTokenError_InvalidCharacter i c) =>
      exists a b, value = a ++ c :: b /\ Forall (fun c => token_char c = true) a /\
        token_char c = false /\ i = str_len a
  | Err (IdentityTokenError_InvalidEnd c) =>
      last value = Some c /\ is_ascii_alphanumeric c = false /\
      Forall (fun c => token_char c = true) value
  end.
Proof.
  unfold validate_identity_token. destruct value as [|first rest] eqn:Ev; [done|].
  rewrite <- Ev. destruct (is_ascii_alphanumeric first) eqn:Hf; simpl; [|by subst].
  assert (Hr := first_rejected_spec token_char value).
  destruct (first_rejected token_char value) as [[i c]|]; [done|].
  destruct (last value) as [l|] eqn:Hl.
  - destruct (is_ascii_alphanumeric l) eqn:Hal; simpl; [|done].
    unfold token_ok. split; [done|]. split; [|eauto]. exists first. by subst.
  - apply last_None in Hl. by subst.
Qed.

Lemma validate_identity_token_ok value : validate_identity_token value = Ok tt <-> token_ok value.
Proof.
  assert (H := validate_identity_token_branches value). split.
  - intros E. by rewrite E in H.
  - intros (Hall & (f & Hf & Haf) & (l & Hl & Hal)).
    destruct (validate_identity_token value) as [[]|[]]; [done|exfalso..].
    + by subst.
    + destruct H as [H1 H2]. congruence.
    + destruct H as (H1 & H2 & _). congruence.
    + destruct H as (a & b & -> & _ & Hc & _). apply Forall_app in Hall as [_ Hall].
      apply Forall_cons in Hall as [Hc' _]. congruence.
Qed.

Lemma validate_container_id_ok value :
  validate_container_id value = Ok tt <->
  lenN value = 64 /\ Forall (fun c => lower_hex c = true) value.
Proof.
  unfold validate_container_id.
  assert (Hlen : Forall (fun c => lower_hex c = true) value -> str_len value = lenN value).
  { intros H. apply str_len_ascii. eapply Forall_impl; [exact H|].
    intros c Hc. apply lower_hex_range in Hc. lia. }
  destruct (first_rejected lower_hex value) as [[i c]|] eqn:E.
  - split; [by destruct (str_len value =? 64)|]. intros [_ H].
    apply first_rejected_None in H. congruence.
  - apply first_rejected_None in E. rewrite (Hlen E). destruct (N.eqb_spec (lenN value) 64); simpl.
    + split; auto.
    + split; [done|]. by intros [? _].
Qed.

#[export] Hint Resolve validate_identity_token_branches : text.

(** ** Hexadecimal text *)

Lemma hex_encode_spec bytes : Forall (fun b => b < 256) bytes ->
  lenN (hex_encode bytes) = 2 * lenN bytes /\ Forall (fun c => lower_hex c = true) (hex_encode bytes).
Proof.
  induction 1 as [|b bytes Hb _ IH]; [by split|]. unfold hex_encode in *. cbn [List.map concat app] in *. split.
  - unfold lenN in *. cbn [length]. lia.
  - assert (Hd : forall d, d < 16 -> lower_hex (hex_lower d) = true).
    { intros d Hd. unfold hex_lower. destruct (N.ltb_spec d 10); unfold lower_hex, is_ascii_digit, in_range; prop_of_bool;
      apply orb_true_iff; [left|right]; apply andb_true_iff; split; apply N.leb_le; lia. }
    repeat (apply Forall_cons; split); [apply Hd, N.Div0.div_lt_upper_bound; lia|apply Hd, N.mod_lt; lia|apply IH].
Qed.
