(* ===== verification/Workspace.v ===== *)
(** * Workspace: workspace labels, SSH hosts, and names derived from Git sources
    ([cdenv-core/src/workspace.rs])

    A [&Path] is the byte string of a Unix [OsStr]; [Path::new(source)] is the
    encoding of [source]. *)

From S2P Require Import Prelude Text Utf8.

(** @src cdenv-core/src/workspace.rs:12-12 MAX_WORKSPACE_NAME_LENGTH *)
Definition MAX_WORKSPACE_NAME_LENGTH : N := 63.

(** @src cdenv-core/src/workspace.rs:15-15 WORKSPACE_HOST_SUFFIX *)
Definition WORKSPACE_HOST_SUFFIX : str := $".cdenv".

(** ** Names *)

(** @src cdenv-core/src/workspace.rs:34-34 WorkspaceName *)
Record WorkspaceName : Type := mkWorkspaceName { name_str : str }.

#[export] Instance WorkspaceName_eq_dec : EqDecision WorkspaceName.
Proof. solve_decision. Defined.

#[export] Instance WorkspaceName_countable : Countable WorkspaceName.
Proof. apply (inj_countable' name_str mkWorkspaceName). by intros []. Defined.

(** @src cdenv-core/src/workspace.rs:39-75 WorkspaceNameError *)
Inductive WorkspaceNameError : Type :=
| WorkspaceNameError_Empty
| WorkspaceNameError_TooLong (length maximum : N)
| WorkspaceNameError_InvalidStart (character : char)
| WorkspaceNameError_InvalidEnd (character : char)
| WorkspaceNameError_InvalidCharacter (index : N) (character : char).

(** [is_ascii_lowercase() || is_ascii_digit() || == '-']
    @src cdenv-core/src/workspace.rs:132-132 validate_workspace_name *)
Definition name_char (c : char) : bool := is_ascii_lowercase c || is_ascii_digit c || (c =? 45).

(** @src cdenv-core/src/workspace.rs:119-152 validate_workspace_name *)
Definition validate_workspace_name (value : str) : result WorkspaceNameError unit :=
  fail_if bool_decide (value = []) with WorkspaceNameError_Empty in
  fail_if MAX_WORKSPACE_NAME_LENGTH <? str_len value
    with WorkspaceNameError_TooLong (str_len value) MAX_WORKSPACE_NAME_LENGTH in
  match first_rejected name_char value with
  | Some (index, character) => Err (WorkspaceNameError_InvalidCharacter index character)
  | None =>
      match head value with
      | None => Err WorkspaceNameError_Empty
      | Some first =>
          fail_if negb (is_ascii_alphanumeric first)
            with WorkspaceNameError_InvalidStart first in
          match last value with
          | None => Err WorkspaceNameError_Empty
          | Some l =>
              fail_if negb (is_ascii_alphanumeric l) with WorkspaceNameError_InvalidEnd l in
              Ok tt
          end
      end
  end.

(** [FromStr], [TryFrom<&str>] and [TryFrom<String>].
    @src cdenv-core/src/workspace.rs:172-196 WorkspaceName::try_from *)
Definition WorkspaceName_parse (value : str) : result WorkspaceNameError WorkspaceName :=
  let? _ := validate_workspace_name value in Ok (mkWorkspaceName value).

(** ** Hosts *)

(** @src cdenv-core/src/workspace.rs:222-222 WorkspaceHost *)
Record WorkspaceHost : Type := mkWorkspaceHost { workspace_name : WorkspaceName }.

(** @src cdenv-core/src/workspace.rs:227-234 WorkspaceHostError *)
Inductive WorkspaceHostError : Type :=
| WorkspaceHostError_InvalidSuffix
| WorkspaceHostError_InvalidWorkspaceName (reason : WorkspaceNameError).

(** @src cdenv-core/src/workspace.rs:266-274 WorkspaceHost::fmt *)
Definition WorkspaceHost_display (h : WorkspaceHost) : str :=
  name_str (workspace_name h) ++ WORKSPACE_HOST_SUFFIX.

(** @src cdenv-core/src/workspace.rs:288-306 WorkspaceHost::try_from *)
Definition WorkspaceHost_parse (value : str) : result WorkspaceHostError WorkspaceHost :=
  match strip_suffix WORKSPACE_HOST_SUFFIX value with
  | None => Err WorkspaceHostError_InvalidSuffix
  | Some name =>
      let? name := map_err WorkspaceHostError_InvalidWorkspaceName (WorkspaceName_parse name) in
      Ok (mkWorkspaceHost name)
  end.

(** ** Default names *)

(** @src cdenv-core/src/workspace.rs:333-372 WorkspaceNameSelectionError *)
Inductive WorkspaceNameSelectionError : Type :=
| MissingFinalComponent
| NonUtf8Path
| UnsupportedUrlScheme (scheme : str)
| InvalidUrlEncoding
| InvalidDerivedName (reason : WorkspaceNameError)
| AlreadyReserved (name : WorkspaceName).

(** @src cdenv-core/src/workspace.rs:541-548 hexadecimal_value *)
Definition hexadecimal_value (value : N) : option N :=
  if in_range 48 57 value then Some (value - 48)
  else if in_range 97 102 value then Some (value - 97 + 10)
  else if in_range 65 70 value then Some (value - 65 + 10)
  else None.

(** The decoding loop over the bytes of the component.
    @src cdenv-core/src/workspace.rs:513-534 percent_decode *)
Fixpoint percent_loop (bytes : list N) : result WorkspaceNameSelectionError (list N) :=
  match bytes with
  | [] => Ok []
  | b :: rest =>
      if negb (b =? 37) then let? decoded := percent_loop rest in Ok (b :: decoded)
      else
        match rest with
        | h :: l :: rest' =>
            match hexadecimal_value h, hexadecimal_value l with
            | Some high, Some low =>
                let? decoded := percent_loop rest' in
                Ok (N.lor (N.shiftl high 4) low :: decoded)
            | _, _ => Err InvalidUrlEncoding
            end
        | _ => Err InvalidUrlEncoding
        end
  end.

(** @src cdenv-core/src/workspace.rs:505-539 percent_decode *)
Definition percent_decode (value : str) : result WorkspaceNameSelectionError str :=
  if negb (contains_char 37 (encode_utf8 value)) then Ok value
  else
    let? decoded := percent_loop (encode_utf8 value) in
    ok_or InvalidUrlEncoding (from_utf8 decoded).

(** @src cdenv-core/src/workspace.rs:478-482 final_slash_component *)
Definition final_slash_component (path : str) : result WorkspaceNameSelectionError str :=
  let component := last_piece 47 (trim_end_matches 47 path) in
  if bool_decide (component = []) then Err MissingFinalComponent else Ok component.

(** @src cdenv-core/src/workspace.rs:454-476 url_repository_component *)
Definition url_repository_component (scheme remainder : str) :
    result WorkspaceNameSelectionError str :=
  let without_query := take_while (fun c => negb (contains_char c [63; 35])) remainder in
  let file := eq_ignore_ascii_case scheme ($"file") in
  let? path :=
    if file && starts_with [47] without_query then Ok without_query
    else
      match split_once [47] without_query with
      | None => Err MissingFinalComponent
      | Some (authority, path) =>
          fail_if bool_decide (authority = []) && negb file with MissingFinalComponent in
          Ok path
      end in
  let? component := final_slash_component path in
  percent_decode component.

(** @src cdenv-core/src/workspace.rs:484-503 scp_like_remote_path *)
Definition scp_like_remote_path (source : str) : option str :=
  match split_once [58] source with
  | None => None
  | Some (prefix, path) =>
      if bool_decide (prefix = []) || contains_any [47; 92] prefix || existsb is_whitespace prefix
      then None
      else
        let windows_drive :=
          (str_len prefix =? 1)
          && match head (encode_utf8 prefix) with Some b => is_ascii_alphabetic b | None => false end
          && (starts_with [47] path || starts_with [92] path) in
        if windows_drive then None else Some path
  end.

(** One round of the normalization loop on [(normalized, invalid_run)].
    @src cdenv-core/src/workspace.rs:557-575 normalize_repository_component *)
Definition normalize_step (st : str * bool) (character : char) : str * bool :=
  let '(normalized, invalid_run) := st in
  let character := to_ascii_lowercase character in
  let normalized_sep :=
    if invalid_run && negb (bool_decide (normalized = [])) then normalized ++ [45]
    else normalized in
  if is_ascii_lowercase character || is_ascii_digit character then
    (normalized_sep ++ [character], false)
  else if character =? 45 then
    (if negb (bool_decide (normalized_sep = [])) then normalized_sep ++ [45] else normalized_sep,
     false)
  else (normalized, true).

(** @src cdenv-core/src/workspace.rs:550-584 normalize_repository_component *)
Definition normalize_repository_component (component : str) :
    result WorkspaceNameSelectionError WorkspaceName :=
  let component := default component (strip_suffix ($".git") component) in
  let normalized := trim_end_matches 45 (fold_left normalize_step component ([], false)).1 in
  map_err InvalidDerivedName (WorkspaceName_parse normalized).

(** [Path::file_name] on Unix: the last component, ignoring trailing separators and
    [.] components; absent when that component is [..]. *)
Definition path_file_name (path : list N) : option (list N) :=
  match last (List.filter (fun p => negb (bool_decide (p = []) || bool_decide (p = $"."))) (split 47 path)) with
  | Some p => if bool_decide (p = $"..") then None else Some p
  | None => None
  end.

(** @src cdenv-core/src/workspace.rs:441-452 derive_workspace_name_from_path *)
Definition derive_workspace_name_from_path (path : list N) :
    result WorkspaceNameSelectionError WorkspaceName :=
  let? component := ok_or MissingFinalComponent (path_file_name path) in
  let? component := ok_or NonUtf8Path (from_utf8 component) in
  normalize_repository_component component.

(** @src cdenv-core/src/workspace.rs:409-430 derive_workspace_name *)
Definition derive_workspace_name (source : str) :
    result WorkspaceNameSelectionError WorkspaceName :=
  match split_once ($"://") source with
  | Some (scheme, remainder) =>
      fail_if negb (eq_ignore_ascii_case scheme ($"https")
                    || eq_ignore_ascii_case scheme ($"ssh")
                    || eq_ignore_ascii_case scheme ($"file"))
        with UnsupportedUrlScheme scheme in
      let? component := url_repository_component scheme remainder in
      normalize_repository_component component
  | None =>
      match scp_like_remote_path source with
      | Some remote_path =>
          let? component := final_slash_component remote_path in
          normalize_repository_component component
      | None => derive_workspace_name_from_path (encode_utf8 source)
      end
  end.

(** ** Lemmas: names *)

(** The documented label rule: 1 to 63 lowercase letters, digits and hyphens, with a
    letter or digit at each end. *)
Definition name_ok (value : str) : Prop :=
  1 <= lenN value <= 63 /\ Forall (fun c => name_char c = true) value /\
  head value <> Some 45 /\ last value <> Some 45.

Lemma name_char_range c : name_char c = true <-> 97 <= c <= 122 \/ 48 <= c <= 57 \/ c = 45.
Proof.
  unfold name_char, is_ascii_lowercase, is_ascii_digit.
  rewrite !orb_true_iff, !in_range_true, N.eqb_eq. tauto.
Qed.

Lemma name_char_alphanumeric c :
  name_char c = true -> is_ascii_alphanumeric c = true <-> c <> 45.
Proof.
  intros H. apply name_char_range in H. split.
  - intros Ha. apply alphanumeric_range in Ha. lia.
  - intros Hne. unfold is_ascii_alphanumeric, is_ascii_alphabetic, is_ascii_lowercase,
      is_ascii_uppercase, is_ascii_digit. rewrite !orb_true_iff, !in_range_true. lia.
Qed.

Lemma name_ascii value : Forall (fun c => name_char c = true) value -> Forall (fun c => c < 128) value.
Proof. intros H. eapply Forall_impl; [exact H|]. intros c Hc. apply name_char_range in Hc. lia. Qed.

(** A string over the name alphabet without boundary hyphens fails only on length. *)
Lemma validate_normalized value :
  Forall (fun c => name_char c = true) value -> head value <> Some 45 -> last value <> Some 45 ->
  validate_workspace_name value =
    if lenN value =? 0 then Err WorkspaceNameError_Empty
    else if 63 <? lenN value then Err (WorkspaceNameError_TooLong (lenN value) 63)
    else Ok tt.
Proof.
  intros Hall Hhd Hlast. unfold validate_workspace_name, MAX_WORKSPACE_NAME_LENGTH.
  rewrite (str_len_ascii value) by (by apply name_ascii).
  destruct value as [|c rest] eqn:Ev; [done|]. rewrite <- Ev in *.
  rewrite (bool_decide_eq_false_2 (value = [])) by (by subst).
  destruct (N.eqb_spec (lenN value) 0) as [Hz|_]; [apply lenN_zero_iff in Hz; by subst|].
  destruct (63 <? lenN value); [done|].
  rewrite (proj2 (first_rejected_None name_char value)) by done.
  assert (Hmem : forall x, (head value = Some x \/ last value = Some x) ->
                  x <> 45 -> is_ascii_alphanumeric x = true).
  { intros x Hx Hne. apply name_char_alphanumeric; [|done]. rewrite Forall_forall in Hall.
    apply Hall. destruct Hx as [Hx|Hx]; [by apply head_Some_elem_of|by apply last_Some_elem_of]. }
  destruct (head value) as [f|] eqn:Hf; [|by subst].
  rewrite (Hmem f) by (auto; congruence). simpl.
  destruct (last value) as [l|] eqn:Hl; [|apply last_None in Hl; by subst].
  by rewrite (Hmem l) by (auto; congruence).
Qed.

Lemma validate_workspace_name_ok value : validate_workspace_name value = Ok tt <-> name_ok value.
Proof.
  split.
  - intros H. assert (Hall : Forall (fun c => name_char c = true) value).
    { apply first_rejected_None. unfold validate_workspace_name in H.
      by destruct (first_rejected name_char value) as [[]|]; [run H|]. }
    unfold validate_workspace_name, MAX_WORKSPACE_NAME_LENGTH in H.
    rewrite (str_len_ascii value) in H by (by apply name_ascii).
    run H. prop_of_bool. unfold name_ok. repeat split; auto.
    + destruct value; [done|]. rewrite lenN_cons. lia.
    + intros ?. by simplify_eq.
    + intros ?. by simplify_eq.
  - intros (Hlen & Hall & Hhd & Hl). rewrite validate_normalized by done.
    destruct (N.eqb_spec (lenN value) 0); [lia|]. by destruct (N.ltb_spec 63 (lenN value)); [lia|].
Qed.

(** Every branch of the name validator. *)
Lemma validate_workspace_name_branches value :
  match validate_workspace_name value with
  | Ok _ => name_ok value
  | Err WorkspaceNameError_Empty => value = []
  | Err (WorkspaceNameError_TooLong len max) => len = str_len value /\ max = 63 /\ max < len
  | Err (WorkspaceNameError_InvalidCharacter i c) =>
      exists a b, value = a ++ c :: b /\ Forall (fun c => name_char c = true) a /\
        name_char c = false /\ i = str_len a
  | Err (WorkspaceNameError_InvalidStart c) => head value = Some c /\ c = 45
  | Err (WorkspaceNameError_InvalidEnd c) => last value = Some c /\ c = 45
  end.
Proof.
  destruct (validate_workspace_name value) as [[]|e] eqn:E; [by apply validate_workspace_name_ok|].
  unfold validate_workspace_name, MAX_WORKSPACE_NAME_LENGTH in E.
  case_bool_decide; [by run E|]. destruct (N.ltb_spec 63 (str_len value)); [by run E|].
  assert (Hr := first_rejected_spec name_char value).
  destruct (first_rejected name_char value) as [[i c]|]; [by run E|].
  rewrite Forall_forall in Hr.
  destruct (head value) as [f|] eqn:Hf; [|by destruct value].
  destruct (is_ascii_alphanumeric f) eqn:Haf; simpl in E.
  - destruct (last value) as [l|] eqn:Hl; [|by apply last_None in Hl].
    destruct (is_ascii_alphanumeric l) eqn:Hal; simpl in E; run E. split; [done|].
    destruct (N.eq_dec l 45); [done|]. apply last_Some_elem_of, Hr in Hl.
    by apply name_char_alphanumeric in n; [congruence|].
  - run E. split; [done|]. destruct (N.eq_dec f 45); [done|]. apply head_Some_elem_of, Hr in Hf.
    by apply name_char_alphanumeric in n; [congruence|].
Qed.

Lemma WorkspaceName_parse_ok value n :
  WorkspaceName_parse value = Ok n <-> name_ok value /\ n = mkWorkspaceName value.
Proof.
  unfold WorkspaceName_parse. destruct (validate_workspace_name value) as [[]|e] eqn:E.
  - apply validate_workspace_name_ok in E. naive_solver.
  - split; [done|]. intros [H _]. apply validate_workspace_name_ok in H. congruence.
Qed.

(** ** Lemmas: normalization *)

Definition normalize_inv (st : str * bool) : Prop :=
  Forall (fun c => name_char c = true) st.1 /\ head st.1 <> Some 45.

Lemma normalize_inv_snoc s c :
  normalize_inv (s, false) -> name_char c = true -> (s = [] -> c <> 45) ->
  normalize_inv (s ++ [c], false).
Proof.
  intros [Hall Hhd] Hc Hne. split; simpl in *.
  - apply Forall_app. auto.
  - destruct s; simpl in *; [|done]. intros [= ->]. by apply Hne.
Qed.

Lemma normalize_step_inv st c : normalize_inv st -> normalize_inv (normalize_step st c).
Proof.
  destruct st as [s run]. intros Hinv. unfold normalize_step.
  set (s' := if run && negb (bool_decide (s = [])) then s ++ [45] else s).
  assert (Hs' : normalize_inv (s', false)).
  { subst s'. destruct run; simpl; [|done]. case_bool_decide; simpl; [done|].
    by apply normalize_inv_snoc. }
  destruct (is_ascii_lowercase _ || is_ascii_digit _) eqn:Ha.
  - apply normalize_inv_snoc; [done| |].
    + unfold name_char. by rewrite Ha.
    + intros _ E. by rewrite E in Ha.
  - destruct (to_ascii_lowercase c =? 45); [|done].
    case_bool_decide; simpl; [done|]. by apply normalize_inv_snoc.
Qed.

Lemma normalize_fold_inv s st :
  normalize_inv st -> normalize_inv (fold_left normalize_step s st).
Proof. revert st. induction s as [|c s IH]; intros st H; simpl; [done|]. by apply IH, normalize_step_inv. Qed.

Lemma trim_end_inv s :
  Forall (fun c => name_char c = true) s -> head s <> Some 45 ->
  Forall (fun c => name_char c = true) (trim_end_matches 45 s) /\
  head (trim_end_matches 45 s) <> Some 45.
Proof.
  intros Hall Hhd. destruct (trim_end_matches_spec 45 s) as [[k Hk] _].
  set (t := trim_end_matches 45 s) in *. rewrite Hk in Hall, Hhd. split.
  - by apply Forall_app in Hall as [? _].
  - by destruct t.
Qed.

(** Normalizing any component fails only because nothing is left or too much is. *)
Lemma normalize_repository_component_cases component :
  match normalize_repository_component component with
  | Ok n => name_ok (name_str n)
  | Err (InvalidDerivedName WorkspaceNameError_Empty) => True
  | Err (InvalidDerivedName (WorkspaceNameError_TooLong len max)) => max = 63 /\ 63 < len
  | Err _ => False
  end.
Proof.
  unfold normalize_repository_component.
  set (s := (fold_left normalize_step _ ([], false)).1).
  assert (Hs : normalize_inv (s, false)) by (apply normalize_fold_inv; split; simpl; auto).
  destruct Hs as [Hall Hhd]. destruct (trim_end_inv s Hall Hhd) as [Hall' Hhd'].
  destruct (trim_end_matches_spec 45 s) as [_ Hlast'].
  set (t := trim_end_matches 45 s) in *.
  destruct (WorkspaceName_parse t) as [n|e] eqn:E; simpl.
  - apply WorkspaceName_parse_ok in E as [? ->]. done.
  - unfold WorkspaceName_parse in E. rewrite (validate_normalized t Hall' Hhd' Hlast') in E.
    destruct (lenN t =? 0); [by run E|]. destruct (N.ltb_spec 63 (lenN t)); by run E.
Qed.

Lemma normalize_step_keep s c :
  name_char c = true -> (s = [] -> c <> 45) -> normalize_step (s, false) c = (s ++ [c], false).
Proof.
  intros Hc Hne. apply name_char_range in Hc. unfold normalize_step. simpl.
  assert (Hl : to_ascii_lowercase c = c).
  { unfold to_ascii_lowercase, is_ascii_uppercase. by rewrite (proj2 (in_range_false _ _ _)) by lia. }
  rewrite Hl. destruct (is_ascii_lowercase c || is_ascii_digit c) eqn:Ha; [done|].
  apply orb_false_iff in Ha as [H1 H2]. apply in_range_false in H1, H2.
  assert (c = 45) as -> by lia. simpl. case_bool_decide; [|done]. by destruct Hne.
Qed.

Lemma normalize_fold_keep s t :
  Forall (fun c => name_char c = true) s -> (t = [] -> head s <> Some 45) ->
  fold_left normalize_step s (t, false) = (t ++ s, false).
Proof.
  revert t. induction s as [|c s IH]; intros t Hall Hhd; cbn [fold_left]; [by rewrite app_nil_r|].
  apply Forall_cons in Hall as [Hc Hall]. rewrite normalize_step_keep; [|done|].
  - rewrite IH; [by rewrite <- app_assoc|done|]. by destruct t.
  - intros Ht ->. by apply Hhd.
Qed.

Lemma name_no_char value c : name_ok value -> name_char c = false -> c ∉ value.
Proof. intros (_ & Hall & _) Hc Hin. rewrite Forall_forall in Hall. apply Hall in Hin. congruence. Qed.

Lemma trim_end_matches_id c s : last s <> Some c -> trim_end_matches c s = s.
Proof.
  intros H. unfold trim_end_matches. rewrite <- (rev_involutive s) at 2. f_equal.
  destruct (rev s) as [|x l] eqn:E; [done|]. simpl. destruct (N.eqb_spec c x) as [->|]; [|done].
  destruct H. rewrite <- (rev_involutive s), E. simpl. by rewrite last_snoc.
Qed.

(** A valid label is its own default name. *)
Lemma normalize_valid value :
  name_ok value -> normalize_repository_component value = Ok (mkWorkspaceName value).
Proof.
  intros Hok. assert (Hok' := Hok). destruct Hok' as (_ & Hall & Hhd & Hl).
  unfold normalize_repository_component.
  replace (strip_suffix ($".git") value) with (@None str).
  - simpl. rewrite normalize_fold_keep by done. simpl. rewrite trim_end_matches_id by done.
    by rewrite (proj2 (WorkspaceName_parse_ok value (mkWorkspaceName value))).
  - destruct (strip_suffix ($".git") value) as [r|] eqn:E; [|done].
    apply strip_suffix_Some in E as ->. exfalso.
    apply (name_no_char _ 46 Hok); [done|]. apply elem_of_app. right. by left.
Qed.

(** ** Properties *)

(** the label validator accepts exactly the labels of one to 63 lowercase ASCII
    letters, digits and hyphens that start and end with a letter or digit, and each
    rejection carries the first offending character with its byte offset, the
    offending boundary hyphen, or the length that exceeds the limit. *)
Theorem workspace_name_validation value :
  (validate_workspace_name value = Ok tt <-> name_ok value) /\
  match validate_workspace_name value with
  | Ok _ => name_ok value
  | Err WorkspaceNameError_Empty => value = []
  | Err (WorkspaceNameError_TooLong len max) => len = str_len value /\ max = 63 /\ max < len
  | Err (WorkspaceNameError_InvalidCharacter i c) =>
      exists a b, value = a ++ c :: b /\ Forall (fun c => name_char c = true) a /\
        name_char c = false /\ i = str_len a
  | Err (WorkspaceNameError_InvalidStart c) => head value = Some c /\ c = 45
  | Err (WorkspaceNameError_InvalidEnd c) => last value = Some c /\ c = 45
  end.
Proof. split; [apply validate_workspace_name_ok|apply validate_workspace_name_branches]. Qed.

Lemma percent_loop_error bytes e : percent_loop bytes = Err e -> e = InvalidUrlEncoding.
Proof.
  revert e. induction bytes as [bs IH] using (induction_ltof1 _ (@length N)). unfold ltof in IH.
  assert (Hrec : forall bs' e, (length bs' < length bs)%nat -> percent_loop bs' = Err e ->
            e = InvalidUrlEncoding) by eauto.
  intros e H. destruct bs as [|b rest]; cbn [percent_loop] in H; [done|].
  destruct (negb (b =? 37)).
  - destruct (percent_loop rest) eqn:E; [done|]. eapply (Hrec rest); [simpl; lia|congruence].
  - destruct rest as [|h [|l rest]]; [congruence..|].
    destruct (hexadecimal_value h), (hexadecimal_value l); [|congruence..].
    destruct (percent_loop rest) eqn:E; [done|]. eapply (Hrec rest); [simpl; lia|congruence].
Qed.

(** The four exits of the derivation, as one inversion principle. *)
Lemma derive_workspace_name_exits source :
  (exists component, derive_workspace_name source = normalize_repository_component component) \/
  (exists e, derive_workspace_name source = Err e /\
     (e = MissingFinalComponent \/ e = NonUtf8Path \/ e = InvalidUrlEncoding \/
      exists scheme, e = UnsupportedUrlScheme scheme)).
Proof.
  unfold derive_workspace_name, derive_workspace_name_from_path, url_repository_component,
    final_slash_component, percent_decode, ok_or.
  assert (Hpl := percent_loop_error).
  repeat case_match; simplify_eq; try (left; by eexists); right; eexists; split; try done;
    naive_solver.
Qed.

(** Deriving a default name from any Git source yields a valid label or one of the
    documented errors; after normalization only an empty or an overlong result remains
    possible, so the alphabet and boundary rules can never be violated by a derived
    name. *)
Theorem derived_names_are_valid source :
  match derive_workspace_name source with
  | Ok n => name_ok (name_str n)
  | Err (InvalidDerivedName WorkspaceNameError_Empty) => True
  | Err (InvalidDerivedName (WorkspaceNameError_TooLong len max)) => max = 63 /\ 63 < len
  | Err (InvalidDerivedName _) | Err (AlreadyReserved _) => False
  | Err _ => True
  end.
Proof.
  destruct (derive_workspace_name_exits source) as [[c ->]|(e & -> & He)].
  - assert (H := normalize_repository_component_cases c).
    by destruct (normalize_repository_component c) as [|[]].
  - by destruct He as [->|[->|[->|[s ->]]]].
Qed.

(** a valid workspace label is a fixed point of derivation: read as a local path,
    it derives to itself, so selecting by an existing name never renames it. *)
Theorem derive_valid_name value :
  name_ok value -> derive_workspace_name value = Ok (mkWorkspaceName value).
Proof.
  intros Hok. assert (Hno : forall c, name_char c = false -> c ∉ value)
    by (intros c; by apply name_no_char).
  unfold derive_workspace_name. destruct (split_once ($"://") value) as [[a b]|] eqn:E.
  { apply split_once_app in E. destruct (Hno 58); [done|]. rewrite E.
    apply elem_of_app. right. by left. }
  unfold scp_like_remote_path. rewrite split_once_char_None by (by apply Hno).
  assert (Hascii : Forall (fun c => c < 128) value) by (apply name_ascii, Hok).
  rewrite encode_utf8_ascii by done.
  unfold derive_workspace_name_from_path, path_file_name. rewrite split_nosep by (by apply Hno).
  assert (Hne : value <> []) by (destruct Hok as (Hl & _); intros ->; by destruct Hl).
  assert (Hdot : value <> $"." /\ value <> $"..").
  { split; intros ->; destruct (Hno 46); try done; by left. }
  simpl. rewrite !bool_decide_eq_false_2 by tauto. simpl. rewrite bool_decide_eq_false_2 by tauto.
  simpl. rewrite from_utf8_ascii by done. by apply normalize_valid.
Qed.

Lemma derive_valid_name_witness :
  name_ok ($"project-2") /\ derive_workspace_name ($"project-2") = Ok (mkWorkspaceName ($"project-2")).
Proof.
  assert (H : name_ok ($"project-2")) by (apply validate_workspace_name_ok; vm_compute; reflexivity).
  split; [exact H|]. exact (derive_valid_name _ H).
Defined.

(** SSH host names and workspace names are in bijection: printing a host and
    parsing it back gives the host, and every accepted host text is the printed form
    of the host it denotes, whose label is valid. *)
Theorem workspace_host_roundtrip :
  (forall n, name_ok (name_str n) ->
     WorkspaceHost_parse (WorkspaceHost_display (mkWorkspaceHost n)) = Ok (mkWorkspaceHost n)) /\
  (forall text h, WorkspaceHost_parse text = Ok h ->
     WorkspaceHost_display h = text /\ name_ok (name_str (workspace_name h))).
Proof.
  split.
  - intros [n] Hn. simpl in Hn. unfold WorkspaceHost_parse, WorkspaceHost_display. simpl.
    rewrite (proj2 (strip_suffix_Some WORKSPACE_HOST_SUFFIX _ n)) by done.
    by rewrite (proj2 (WorkspaceName_parse_ok n (mkWorkspaceName n))).
  - intros text h H. unfold WorkspaceHost_parse in H.
    destruct (strip_suffix WORKSPACE_HOST_SUFFIX text) as [name|] eqn:E; [|done].
    apply strip_suffix_Some in E as ->.
    destruct (WorkspaceName_parse name) as [n|e] eqn:En; simpl in H; [|done].
    injection H as <-. apply WorkspaceName_parse_ok in En as [Hok ->]. done.
Qed.
