(* ===== verification/BrokerFrame.v ===== *)
(** * BrokerFrame: the credential broker's wire frames
    ([cdenv-core/src/credential_broker.rs], frames)

    A private stream is modelled by the outcomes of its successive [read] calls, so
    the theorems hold for every fragmentation of the bytes and for every pattern of
    interrupted calls, not for one buffer that arrives whole. *)

From S2P Require Import Prelude Text.

(** ** Constants and errors *)

(** @src cdenv-core/src/credential_broker.rs:20-20 CREDENTIAL_BROKER_PROTOCOL *)
Definition CREDENTIAL_BROKER_PROTOCOL : N := 1.
(** @src cdenv-core/src/credential_broker.rs:22-22 MAX_BROKER_FRAME_BYTES *)
Definition MAX_BROKER_FRAME_BYTES : N := 64 * 1024.
(** @src cdenv-core/src/credential_broker.rs:44-44 MAGIC *)
Definition MAGIC : list N := $"CDBR".
(** @src cdenv-core/src/credential_broker.rs:46-47 HEADER_BYTES *)
Definition HEADER_BYTES : N := 16.

(** @src cdenv-core/src/credential_broker.rs:614-657 BrokerProtocolError *)
Inductive BrokerProtocolError : Type :=
| Truncated | Framing | Version | Kind | Bounds | StreamId | StreamLimit | UnknownStream
| QueueLimit | Identity (what : str) | OldGeneration | GenerationExists | CandidateAuthority | Io.

#[export] Instance BrokerProtocolError_eq_dec : EqDecision BrokerProtocolError.
Proof. solve_decision. Defined.

(** ** Frame kinds *)

(** @src cdenv-core/src/credential_broker.rs:149-178 BrokerFrameKind *)
Inductive BrokerFrameKind : Type :=
| Hello | HelloAck | CredentialLookup | CredentialResult | AgentOpen | StreamData | StreamClose
| Cancel | IdentityRequest | IdentityResult | Health | HealthAck | Stop | Error.

#[export] Instance BrokerFrameKind_eq_dec : EqDecision BrokerFrameKind.
Proof. solve_decision. Defined.

(** [kind as u8], the declared discriminants.
    @src cdenv-core/src/credential_broker.rs:148-178 BrokerFrameKind *)
Definition kind_as_u8 (k : BrokerFrameKind) : N :=
  match k with
  | Hello => 1 | HelloAck => 2 | CredentialLookup => 3 | CredentialResult => 4
  | AgentOpen => 5 | StreamData => 6 | StreamClose => 7 | Cancel => 8
  | IdentityRequest => 9 | IdentityResult => 10 | Health => 11 | HealthAck => 12
  | Stop => 13 | Error => 14
  end.

(** @src cdenv-core/src/credential_broker.rs:180-202 BrokerFrameKind::try_from *)
Definition kind_try_from (value : N) : result BrokerProtocolError BrokerFrameKind :=
  match value with
  | 1 => Ok Hello | 2 => Ok HelloAck | 3 => Ok CredentialLookup | 4 => Ok CredentialResult
  | 5 => Ok AgentOpen | 6 => Ok StreamData | 7 => Ok StreamClose | 8 => Ok Cancel
  | 9 => Ok IdentityRequest | 10 => Ok IdentityResult | 11 => Ok Health | 12 => Ok HealthAck
  | 13 => Ok Stop | 14 => Ok Error
  | _ => Err Kind
  end.

(** ** Frames *)

(** @src cdenv-core/src/credential_broker.rs:206-212 BrokerFrame *)
Record BrokerFrame : Type :=
  mkFrame { kind : BrokerFrameKind; stream_id : N; payload : list N }.

#[export] Instance BrokerFrame_eq_dec : EqDecision BrokerFrame.
Proof. solve_decision. Defined.

(** @src cdenv-core/src/credential_broker.rs:240-247 BrokerFrame::new *)
Definition connection_control (k : BrokerFrameKind) : bool :=
  match k with Hello | HelloAck | Health | HealthAck | Stop => true | _ => false end.

(** @src cdenv-core/src/credential_broker.rs:232-256 BrokerFrame::new *)
Definition frame_new (k : BrokerFrameKind) (sid : N) (body : list N) :
    result BrokerProtocolError BrokerFrame :=
  fail_if MAX_BROKER_FRAME_BYTES <? lenN body with Bounds in
  fail_if negb (eqb (connection_control k) (sid =? 0)) with StreamId in
  Ok (mkFrame k sid body).

(** [u16::to_be_bytes] and [u32::to_be_bytes]. *)
Definition to_be_bytes_u16 (n : N) : list N := [(n / 256) mod 256; n mod 256].
Definition to_be_bytes_u32 (n : N) : list N :=
  [(n / 16777216) mod 256; (n / 65536) mod 256; (n / 256) mod 256; n mod 256].
(** [u16::from_be_bytes] and [u32::from_be_bytes]. *)
Definition from_be_bytes_u16 (b0 b1 : N) : N := b0 * 256 + b1.
Definition from_be_bytes_u32 (b0 b1 b2 b3 : N) : N := ((b0 * 256 + b1) * 256 + b2) * 256 + b3.

(** Appends one frame to an in-memory sink (whose writes cannot fail).
    @src cdenv-core/src/credential_broker.rs:328-342 BrokerFrame::write_to *)
Definition write_to (f : BrokerFrame) (output : list N) : result BrokerProtocolError (list N) :=
  let? length := if lenN (payload f) <=? MAX_U32 then Ok (lenN (payload f)) else Err Bounds in
  let header :=
    MAGIC ++ to_be_bytes_u16 CREDENTIAL_BROKER_PROTOCOL ++ [kind_as_u8 (kind f); 0]
    ++ to_be_bytes_u32 (stream_id f) ++ to_be_bytes_u32 length in
  Ok (output ++ header ++ payload f).

(** @src cdenv-core/src/credential_broker.rs:272-277 BrokerFrame::encode *)
Definition encode (f : BrokerFrame) : list N :=
  match write_to f [] with Ok bytes => bytes | Err _ => [] end.

(** The parameter is an array of exactly 16 bytes.
    @src cdenv-core/src/credential_broker.rs:284-308 BrokerFrame::parse_header *)
Definition parse_header (header : list N) :
    result BrokerProtocolError (BrokerFrameKind * N * N) :=
  match header with
  | [m0; m1; m2; m3; v0; v1; k; r; s0; s1; s2; s3; l0; l1; l2; l3] =>
      fail_if negb (bool_decide ([m0; m1; m2; m3] = MAGIC)) || negb (r =? 0) with Framing in
      fail_if negb (from_be_bytes_u16 v0 v1 =? CREDENTIAL_BROKER_PROTOCOL) with Version in
      let? k := kind_try_from k in
      let sid := from_be_bytes_u32 s0 s1 s2 s3 in
      let length := from_be_bytes_u32 l0 l1 l2 l3 in
      fail_if MAX_BROKER_FRAME_BYTES <? length with Bounds in
      Ok (k, sid, length)
  | _ => Err Framing
  end.

(** ** Reading from a stream *)

(** The outcome of one [read] call: a chunk (longer chunks are delivered in several
    calls), an interrupted call, or an I/O error.  An exhausted list is end of file. *)
Inductive ReadEvent : Type :=
| Chunk (bytes : list N)
| Interrupted
| IoError.

(** Fills a buffer of [need] bytes; returns the bytes read and the remaining stream.
    @src cdenv-core/src/credential_broker.rs:367-378 read_full *)
Fixpoint read_full (need : N) (input : list ReadEvent) :
    result BrokerProtocolError (list N * list ReadEvent) :=
  if need =? 0 then Ok ([], input)
  else
    match input with
    | [] => Ok ([], [])
    | Chunk [] :: rest => Ok ([], rest)
    | Chunk bytes :: rest =>
        if lenN bytes <=? need then
          let? (more, rest') := read_full (need - lenN bytes) rest in
          Ok (bytes ++ more, rest')
        else Ok (take (N.to_nat need) bytes, Chunk (drop (N.to_nat need) bytes) :: rest)
    | Interrupted :: rest => read_full need rest
    | IoError :: _ => Err Io
    end.

(** @src cdenv-core/src/credential_broker.rs:349-364 BrokerFrame::read_from *)
Definition read_from (input : list ReadEvent) :
    result BrokerProtocolError (option BrokerFrame * list ReadEvent) :=
  let? (header, input) := read_full HEADER_BYTES input in
  if lenN header =? 0 then Ok (None, input)
  else
    fail_if negb (lenN header =? HEADER_BYTES) with Truncated in
    let? (k, sid, length) := parse_header header in
    let? (body, input) := read_full length input in
    fail_if negb (lenN body =? length) with Truncated in
    let? f := frame_new k sid body in
    Ok (Some f, input).

(** ** Lemmas *)

(** A stream without I/O errors and without empty reads before its end. *)
Definition clean_event (e : ReadEvent) : Prop :=
  match e with Chunk bytes => bytes <> [] | Interrupted => True | IoError => False end.
Definition clean (input : list ReadEvent) : Prop := Forall clean_event input.

(** The bytes a stream delivers. *)
Definition bytes_of (input : list ReadEvent) : list N :=
  concat (List.map (fun e => match e with Chunk bytes => bytes | _ => [] end) input).

Lemma kind_roundtrip k : kind_try_from (kind_as_u8 k) = Ok k.
Proof. by destruct k. Qed.

Lemma kind_try_from_Ok v k : kind_try_from v = Ok k -> v = kind_as_u8 k.
Proof. unfold kind_try_from. intros H. repeat case_match; by simplify_eq. Qed.

Lemma be_u32_roundtrip n : n <= MAX_U32 ->
  from_be_bytes_u32 ((n / 16777216) mod 256) ((n / 65536) mod 256) ((n / 256) mod 256) (n mod 256) = n.
Proof. unfold from_be_bytes_u32, MAX_U32. intros H. lia. Qed.

Lemma be_u32_inverse b0 b1 b2 b3 :
  b0 < 256 -> b1 < 256 -> b2 < 256 -> b3 < 256 ->
  to_be_bytes_u32 (from_be_bytes_u32 b0 b1 b2 b3) = [b0; b1; b2; b3] /\
  from_be_bytes_u32 b0 b1 b2 b3 <= MAX_U32.
Proof.
  unfold to_be_bytes_u32, from_be_bytes_u32, MAX_U32. intros. split; [repeat f_equal|]; lia.
Qed.

(** Filling a buffer from a clean stream takes exactly the next bytes, however they
    are fragmented. *)
Lemma read_full_clean need input :
  clean input ->
  exists input', read_full need input = Ok (take (N.to_nat need) (bytes_of input), input') /\
    clean input' /\ bytes_of input' = drop (N.to_nat need) (bytes_of input).
Proof.
  revert need. induction input as [|e input IH]; intros need Hc; cbn [read_full];
    destruct (N.eqb_spec need 0) as [->|Hn].
  - by exists [].
  - exists []. unfold bytes_of. simpl. by rewrite take_nil, drop_nil.
  - by exists (e :: input).
  - apply Forall_cons in Hc as [He Hc]. destruct e as [bytes| |]; [|by apply IH|done].
    simpl in He. destruct bytes as [|b bytes]; [done|]. set (bs := b :: bytes) in *.
    change (bytes_of (Chunk bs :: input)) with (bs ++ bytes_of input).
    destruct (N.leb_spec (lenN bs) need) as [Hle|Hgt].
    + destruct (IH (need - lenN bs) Hc) as (input' & -> & Hc' & Hb'). exists input'.
      unfold lenN in *. rewrite take_app, drop_app, (take_ge bs), (drop_ge bs) by lia.
      replace (N.to_nat (need - N.of_nat (length bs))) with (N.to_nat need - length bs)%nat in * by lia.
      by rewrite Hb'.
    + exists (Chunk (drop (N.to_nat need) bs) :: input). unfold lenN in Hgt.
      rewrite take_app_le, drop_app_le by lia. split; [done|]. split; [|done].
      constructor; [|done]. simpl. intros Hd. apply (f_equal length) in Hd.
      rewrite length_drop in Hd. simpl length in Hd at 2. lia.
Qed.

Lemma frame_new_Ok k sid body f : frame_new k sid body = Ok f -> f = mkFrame k sid body.
Proof.
  unfold frame_new. destruct (_ <? _); [done|]. destruct (negb _); [done|]. by intros [= <-].
Qed.

(** The header of a frame whose payload fits. *)
Definition header_of (f : BrokerFrame) : list N :=
  MAGIC ++ to_be_bytes_u16 CREDENTIAL_BROKER_PROTOCOL ++ [kind_as_u8 (kind f); 0]
  ++ to_be_bytes_u32 (stream_id f) ++ to_be_bytes_u32 (lenN (payload f)).

Definition frame_ok (f : BrokerFrame) : Prop :=
  frame_new (kind f) (stream_id f) (payload f) = Ok f /\ stream_id f <= MAX_U32.

Lemma frame_ok_bound f : frame_ok f -> lenN (payload f) <= MAX_BROKER_FRAME_BYTES.
Proof.
  intros [H _]. unfold frame_new in H. destruct (N.ltb_spec MAX_BROKER_FRAME_BYTES (lenN (payload f))); done.
Qed.

Lemma encode_header f :
  lenN (payload f) <= MAX_BROKER_FRAME_BYTES -> encode f = header_of f ++ payload f.
Proof.
  intros H. unfold encode, write_to. unfold MAX_BROKER_FRAME_BYTES in H.
  destruct (N.leb_spec (lenN (payload f)) MAX_U32); [done|]. unfold MAX_U32 in *. lia.
Qed.

Lemma parse_header_of f :
  lenN (payload f) <= MAX_BROKER_FRAME_BYTES -> stream_id f <= MAX_U32 ->
  parse_header (header_of f) = Ok (kind f, stream_id f, lenN (payload f)).
Proof.
  intros Hl Hs. unfold header_of. change MAGIC with [67; 68; 66; 82].
  unfold to_be_bytes_u16, to_be_bytes_u32. cbn [app]. unfold parse_header. rewrite bool_decide_eq_true_2 by done. simpl negb. cbn [orb].
  rewrite kind_roundtrip, (be_u32_roundtrip (stream_id f)) by done.
  rewrite (be_u32_roundtrip (lenN (payload f))) by (unfold MAX_BROKER_FRAME_BYTES, MAX_U32 in *; lia).
  unfold from_be_bytes_u16, CREDENTIAL_BROKER_PROTOCOL. simpl.
  by destruct (N.ltb_spec MAX_BROKER_FRAME_BYTES (lenN (payload f))); [lia|].
Qed.

Lemma header_length f : length (header_of f) = 16%nat.
Proof. done. Qed.

(** The reader, once it holds the header of a frame. *)
Lemma read_from_header f input in1 :
  lenN (payload f) <= MAX_BROKER_FRAME_BYTES -> stream_id f <= MAX_U32 ->
  read_full HEADER_BYTES input = Ok (header_of f, in1) ->
  read_from input =
    let? (body, in2) := read_full (lenN (payload f)) in1 in
    fail_if negb (lenN body =? lenN (payload f)) with Truncated in
    let? g := frame_new (kind f) (stream_id f) body in
    Ok (Some g, in2).
Proof.
  intros Hl Hs E. unfold read_from. rewrite E. change (lenN (header_of f)) with 16.
  change (16 =? 0) with false. change (16 =? HEADER_BYTES) with true. cbn [negb].
  by rewrite parse_header_of.
Qed.

(** A complete frame at the head of a clean stream is read whole. *)
Lemma read_from_frame f rest input :
  frame_ok f -> clean input -> bytes_of input = encode f ++ rest ->
  exists input', read_from input = Ok (Some f, input') /\ clean input' /\ bytes_of input' = rest.
Proof.
  intros Hok Hc Hb. assert (Hbound := frame_ok_bound f Hok). destruct Hok as [Hnew Hsid].
  rewrite encode_header in Hb by done. rewrite <- app_assoc in Hb.
  destruct (read_full_clean HEADER_BYTES input Hc) as (in1 & E1 & Hc1 & Hb1).
  rewrite Hb in E1, Hb1. change (N.to_nat HEADER_BYTES) with (length (header_of f)) in E1, Hb1.
  rewrite take_app_length in E1. rewrite drop_app_length in Hb1.
  destruct (read_full_clean (lenN (payload f)) in1 Hc1) as (in2 & E2 & Hc2 & Hb2).
  unfold lenN in E2 at 2. unfold lenN in Hb2. rewrite Hb1, Nat2N.id in E2, Hb2.
  rewrite take_app_length in E2. rewrite drop_app_length in Hb2.
  exists in2. rewrite (read_from_header f input in1) by done.
  rewrite E2, N.eqb_refl. cbn [negb]. by rewrite Hnew.
Qed.

(** Inversion of a successful read of a clean stream. *)
Lemma read_from_Some input f input' :
  clean input -> read_from input = Ok (Some f, input') ->
  exists header, length header = 16%nat /\
    parse_header header = Ok (kind f, stream_id f, lenN (payload f)) /\
    frame_new (kind f) (stream_id f) (payload f) = Ok f /\
    bytes_of input = header ++ payload f ++ bytes_of input' /\ clean input'.
Proof.
  intros Hc H. unfold read_from in H.
  destruct (read_full_clean HEADER_BYTES input Hc) as (in1 & E1 & Hc1 & Hb1). rewrite E1 in H.
  set (header := take (N.to_nat HEADER_BYTES) (bytes_of input)) in *.
  destruct (lenN header =? 0); [done|].
  destruct (N.eqb_spec (lenN header) HEADER_BYTES) as [Hh|]; simpl in H; [|done].
  destruct (parse_header header) as [[[k sid] len]|] eqn:Ep; [|done].
  destruct (read_full_clean len in1 Hc1) as (in2 & E2 & Hc2 & Hb2). rewrite E2 in H.
  set (body := take (N.to_nat len) (bytes_of in1)) in *.
  destruct (N.eqb_spec (lenN body) len) as [Hlen|]; simpl in H; [|done].
  destruct (frame_new k sid body) as [g|] eqn:En; [|done]. injection H as <- <-.
  assert (g = mkFrame k sid body) as -> by (by apply frame_new_Ok). simpl.
  exists header. rewrite Ep, Hlen. repeat split; auto.
  - unfold lenN, HEADER_BYTES in Hh. lia.
  - rewrite <- (take_drop (N.to_nat HEADER_BYTES) (bytes_of input)). f_equal.
    by rewrite <- Hb1, <- (take_drop (N.to_nat len) (bytes_of in1)), Hb2.
Qed.

(** A header that parses is the one the writer produces. *)
Lemma parse_header_canonical header f :
  Forall (fun b => b < 256) header ->
  parse_header header = Ok (kind f, stream_id f, lenN (payload f)) ->
  header = header_of f /\ stream_id f <= MAX_U32.
Proof.
  intros Hb H. unfold parse_header in H.
  do 16 (destruct header as [|? header]; [done|]). destruct header; [|done].
  repeat (apply Forall_cons in Hb as [? Hb]).
  case_hyp H; [done|]. case_hyp H; [done|]. prop_of_bool.
  destruct (kind_try_from n5) as [k|] eqn:Ek; [|done]. apply kind_try_from_Ok in Ek as ->.
  case_hyp H; [done|]. injection H as Hk Hs Hl. unfold header_of. rewrite <- Hk, <- Hs, <- Hl.
  destruct (be_u32_inverse n7 n8 n9 n10) as [-> ?]; [done..|].
  destruct (be_u32_inverse n11 n12 n13 n14) as [-> ?]; [done..|].
  split; [|done]. unfold from_be_bytes_u16, CREDENTIAL_BROKER_PROTOCOL in *.
  match goal with H : [_; _; _; _] = MAGIC |- _ => rewrite <- H end.
  simpl. repeat f_equal; lia.
Qed.

(** ** Properties *)

(** C11: a frame survives the wire under any fragmentation: for every well-formed frame
    and every stream that delivers its encoding followed by more bytes, in chunks of
    any size and with interrupted reads anywhere, the reader returns exactly that
    frame and leaves exactly the following bytes. *)
Theorem frame_roundtrip_any_fragmentation k sid body f rest input :
  frame_new k sid body = Ok f -> sid <= MAX_U32 ->
  clean input -> bytes_of input = encode f ++ rest ->
  exists input', read_from input = Ok (Some f, input') /\ clean input' /\ bytes_of input' = rest.
Proof.
  intros Hnew Hsid. apply read_from_frame.
  assert (f = mkFrame k sid body) as -> by (by apply frame_new_Ok). by split.
Qed.

Lemma frame_roundtrip_any_fragmentation_witness :
  exists input', read_from [Chunk [67; 68]; Interrupted; Chunk [66; 82; 0; 1; 6; 0; 0]; Chunk [0; 0; 5];
                            Chunk [0; 0; 0; 2; 7]; Interrupted; Chunk [8; 99]]
                 = Ok (Some (mkFrame StreamData 5 [7; 8]), input')
                 /\ clean input' /\ bytes_of input' = [99].
Proof.
  apply (frame_roundtrip_any_fragmentation StreamData 5 [7; 8]).
  - reflexivity.
  - discriminate.
  - repeat constructor; discriminate.
  - reflexivity.
Defined.

(** the encoding is canonical: whatever a stream of bytes delivers, a frame that is
    read satisfies the constructor's checks and the bytes consumed are exactly its
    encoding, so no two byte sequences denote the same frame and no header field is
    ignored. *)
Theorem frame_read_is_canonical input f input' :
  clean input -> Forall (fun b => b < 256) (bytes_of input) ->
  read_from input = Ok (Some f, input') ->
  frame_ok f /\ bytes_of input = encode f ++ bytes_of input'.
Proof.
  intros Hc Hb H. destruct (read_from_Some _ _ _ Hc H) as (header & Hl & Hp & Hn & Hbytes & _).
  rewrite Hbytes in Hb. apply Forall_app in Hb as [Hbh _].
  destruct (parse_header_canonical header f Hbh Hp) as [-> Hs].
  assert (Hok : frame_ok f) by (by split). split; [done|].
  rewrite encode_header by (by apply frame_ok_bound). by rewrite <- app_assoc.
Qed.

Lemma frame_read_is_canonical_witness :
  frame_ok (mkFrame Health 0 []) /\
  bytes_of [Chunk [67; 68; 66; 82; 0; 1; 11; 0]; Chunk [0; 0; 0; 0; 0; 0; 0; 0]; Chunk [1; 2]]
  = encode (mkFrame Health 0 []) ++ bytes_of [Chunk [1; 2]].
Proof.
  apply (frame_read_is_canonical
    [Chunk [67; 68; 66; 82; 0; 1; 11; 0]; Chunk [0; 0; 0; 0; 0; 0; 0; 0]; Chunk [1; 2]]).
  - repeat constructor; discriminate.
  - repeat constructor.
  - reflexivity.
Defined.

(** end of file is an error everywhere inside a frame and only there: on a clean
    stream that delivers a proper prefix of an encoding, the reader reports [None]
    when the prefix is empty and [Truncated] otherwise. *)
Theorem frame_prefix_is_truncated f input tail :
  frame_ok f -> clean input -> tail <> [] -> encode f = bytes_of input ++ tail ->
  match read_from input with
  | Ok (None, _) => bytes_of input = []
  | Err Truncated => bytes_of input <> []
  | _ => False
  end.
Proof.
  intros Hok Hc Htail He. assert (Hbound := frame_ok_bound f Hok).
  rewrite encode_header in He by done.
  destruct (read_full_clean HEADER_BYTES input Hc) as (in1 & E1 & Hc1 & Hb1).
  change (N.to_nat HEADER_BYTES) with 16%nat in *.
  destruct (decide (length (bytes_of input) < 16)%nat) as [Hshort|Hlong].
  { unfold read_from. rewrite E1, take_ge by lia. destruct (bytes_of input) as [|b bs]; [done|].
    unfold lenN. simpl length. destruct (N.eqb_spec (N.of_nat (S (length bs))) 0); [lia|].
    destruct (N.eqb_spec (N.of_nat (S (length bs))) HEADER_BYTES); [|done].
    simpl in Hshort. unfold HEADER_BYTES in *. lia. }
  assert (Hh : take 16 (bytes_of input) = header_of f).
  { apply (f_equal (take 16)) in He. rewrite (take_app_le (bytes_of input)) in He by lia.
    by rewrite <- He, take_app_length'. }
  rewrite Hh in E1. destruct Hok as [_ Hs]. rewrite (read_from_header f input in1) by done.
  destruct (read_full_clean (lenN (payload f)) in1 Hc1) as (in2 & -> & _).
  assert (Hp : payload f = bytes_of in1 ++ tail).
  { apply (f_equal (drop 16)) in He. rewrite (drop_app_le (bytes_of input)) in He by lia.
    by rewrite Hb1, <- He, drop_app_length'. }
  assert (0 < length tail)%nat by (destruct tail; [done|simpl; lia]).
  destruct (N.eqb_spec (lenN (take (N.to_nat (lenN (payload f))) (bytes_of in1))) (lenN (payload f)))
    as [Heq|_].
  - unfold lenN in Heq. rewrite length_take, Hp, length_app in Heq. lia.
  - simpl. intros Hnil. rewrite Hnil in Hlong. simpl in Hlong. lia.
Qed.

Lemma frame_prefix_is_truncated_witness :
  match read_from [Chunk [67; 68; 66; 82; 0; 1; 11; 0]] with
  | Ok (None, _) => bytes_of [Chunk [67; 68; 66; 82; 0; 1; 11; 0]] = []
  | Err Truncated => bytes_of [Chunk [67; 68; 66; 82; 0; 1; 11; 0]] <> []
  | _ => False
  end.
Proof.
  apply (frame_prefix_is_truncated (mkFrame Health 0 []) _ [0; 0; 0; 0; 0; 0; 0; 0]).
  - split; [reflexivity|discriminate].
  - repeat constructor; discriminate.
  - discriminate.
  - reflexivity.
Defined.
