(* ===== verification/Admission.v ===== *)
(** * Admission: per-connection stream and queue accounting
    ([cdenv-core/src/credential_broker.rs], [BrokerAdmission])

    The concrete state is a set of stream ids and two saturating counters.  The
    specification is a set of live streams and the list of payload sizes that are
    queued; the refinement theorem says the counters decide exactly what the list
    would. *)

From S2P Require Import Prelude Text BrokerFrame.

(** @src cdenv-core/src/credential_broker.rs:24-24 MAX_BROKER_STREAMS *)
Definition MAX_BROKER_STREAMS : N := 32.
(** @src cdenv-core/src/credential_broker.rs:26-26 MAX_BROKER_QUEUED_FRAMES *)
Definition MAX_BROKER_QUEUED_FRAMES : N := 64.
(** @src cdenv-core/src/credential_broker.rs:28-28 MAX_BROKER_QUEUED_BYTES *)
Definition MAX_BROKER_QUEUED_BYTES : N := 512 * 1024.

(** [usize::MAX] on the supported 64-bit hosts and agents. *)
Definition MAX_USIZE : N := MAX_U64.

(** @src cdenv-core/src/credential_broker.rs:382-386 BrokerAdmission *)
Record BrokerAdmission : Type :=
  mkAdmission { streams : gset N; queued_frames : N; queued_bytes : N }.

(** [BrokerAdmission::default()] *)
Definition admission_default : BrokerAdmission := mkAdmission ∅ 0 0.

(** [self.streams.len()] *)
Definition active_streams (a : BrokerAdmission) : N := N.of_nat (size (streams a)).

(** The new state and the returned value; [BTreeSet::insert] is evaluated last and
    returns [false] on a duplicate without changing the set.
    @src cdenv-core/src/credential_broker.rs:394-402 BrokerAdmission::open *)
Definition open (a : BrokerAdmission) (sid : N) :
    BrokerAdmission * result BrokerProtocolError unit :=
  if (sid =? 0) || (active_streams a =? MAX_BROKER_STREAMS) || bool_decide (sid ∈ streams a)
  then (a, Err StreamLimit)
  else (mkAdmission ({[sid]} ∪ streams a) (queued_frames a) (queued_bytes a), Ok tt).

(** @src cdenv-core/src/credential_broker.rs:408-414 BrokerAdmission::close *)
Definition close (a : BrokerAdmission) (sid : N) :
    BrokerAdmission * result BrokerProtocolError unit :=
  if bool_decide (sid ∈ streams a)
  then (mkAdmission (streams a ∖ {[sid]}) (queued_frames a) (queued_bytes a), Ok tt)
  else (a, Err UnknownStream).

(** @src cdenv-core/src/credential_broker.rs:420-430 BrokerAdmission::enqueue *)
Definition enqueue (a : BrokerAdmission) (payload_bytes : N) :
    BrokerAdmission * result BrokerProtocolError unit :=
  if (MAX_BROKER_FRAME_BYTES <? payload_bytes)
     || (queued_frames a =? MAX_BROKER_QUEUED_FRAMES)
     || (MAX_BROKER_QUEUED_BYTES <? saturating_add MAX_USIZE (queued_bytes a) payload_bytes)
  then (a, Err QueueLimit)
  else (mkAdmission (streams a) (queued_frames a + 1) (queued_bytes a + payload_bytes), Ok tt).

(** @src cdenv-core/src/credential_broker.rs:432-435 BrokerAdmission::dequeue *)
Definition dequeue (a : BrokerAdmission) (payload_bytes : N) : BrokerAdmission :=
  mkAdmission (streams a) (saturating_sub (queued_frames a) 1)
    (saturating_sub (queued_bytes a) payload_bytes).

(** ** Sequences of calls *)

Inductive AdmissionCall : Type :=
| CallOpen (sid : N)
| CallClose (sid : N)
| CallEnqueue (payload_bytes : N)
| CallDequeue (payload_bytes : N).

Definition admission_step (a : BrokerAdmission) (c : AdmissionCall) :
    BrokerAdmission * result BrokerProtocolError unit :=
  match c with
  | CallOpen sid => open a sid
  | CallClose sid => close a sid
  | CallEnqueue n => enqueue a n
  | CallDequeue n => (dequeue a n, Ok tt)
  end.

(** Runs a sequence of calls, collecting the returned values. *)
Fixpoint admission_run (a : BrokerAdmission) (cs : list AdmissionCall) :
    BrokerAdmission * list (result BrokerProtocolError unit) :=
  match cs with
  | [] => (a, [])
  | c :: cs' =>
      let '(a1, r) := admission_step a c in
      let '(a2, rs) := admission_run a1 cs' in
      (a2, r :: rs)
  end.

(** ** Invariant *)

Definition admission_inv (a : BrokerAdmission) : Prop :=
  (size (streams a) <= 32)%nat /\ (0 ∉ streams a) /\
  queued_frames a <= MAX_BROKER_QUEUED_FRAMES /\ queued_bytes a <= MAX_BROKER_QUEUED_BYTES.

Lemma admission_default_inv : admission_inv admission_default.
Proof. split; [change (size (streams admission_default)) with O; lia|]. split; [set_solver|done]. Qed.

Lemma saturating_add_small a b : a + b <= MAX_USIZE -> saturating_add MAX_USIZE a b = a + b.
Proof. unfold saturating_add. lia. Qed.

Lemma open_inv a sid : admission_inv a -> admission_inv (open a sid).1.
Proof.
  intros (Hs & H0 & Hf & Hb). unfold open. destruct (_ || _) eqn:E; [by repeat split|].
  prop_of_bool. unfold active_streams, MAX_BROKER_STREAMS in *. repeat split; simpl; auto.
  - rewrite size_union, size_singleton by set_solver. lia.
  - set_solver.
Qed.

Lemma close_inv a sid : admission_inv a -> admission_inv (close a sid).1.
Proof.
  intros (Hs & H0 & Hf & Hb). unfold close. destruct (bool_decide _) eqn:E; [|by repeat split].
  prop_of_bool. repeat split; simpl; auto.
  - assert (size (streams a ∖ {[sid]}) <= size (streams a))%nat
      by (apply subseteq_size; set_solver). lia.
  - set_solver.
Qed.

Lemma enqueue_inv a n : admission_inv a -> admission_inv (enqueue a n).1.
Proof.
  intros (Hs & H0 & Hf & Hb). unfold enqueue. destruct (_ || _) eqn:E; [by repeat split|].
  prop_of_bool. unfold MAX_BROKER_QUEUED_FRAMES, MAX_BROKER_QUEUED_BYTES, MAX_BROKER_FRAME_BYTES in *.
  rewrite saturating_add_small in * by (unfold MAX_USIZE, MAX_U64; lia).
  repeat split; simpl; auto; unfold MAX_BROKER_QUEUED_FRAMES, MAX_BROKER_QUEUED_BYTES; lia.
Qed.

Lemma dequeue_inv a n : admission_inv a -> admission_inv (dequeue a n).
Proof.
  intros (Hs & H0 & Hf & Hb). unfold dequeue, saturating_sub. repeat split; simpl; auto; lia.
Qed.

Create HintDb admission.
#[export] Hint Resolve open_inv close_inv enqueue_inv dequeue_inv : admission.

Lemma admission_run_inv cs a : admission_inv a -> admission_inv (admission_run a cs).1.
Proof.
  revert a. induction cs as [|c cs IH]; intros a Ha; simpl; [done|].
  destruct (admission_step a c) as [a1 r] eqn:E1.
  destruct (admission_run a1 cs) as [a2 rs] eqn:E2. simpl.
  change a2 with ((a2, rs).1). rewrite <- E2. apply IH.
  change a1 with ((a1, r).1). rewrite <- E1. destruct c; simpl; auto with admission.
Qed.

(** ** Specification *)

(** What a connection really holds: the live streams and the queued payload sizes. *)
Record AdmissionSpec : Type := mkSpec { live : gset N; pending : list N }.

Definition sumN (l : list N) : N := foldr N.add 0 l.

(** Whether the specification admits a call. *)
Definition spec_admits (s : AdmissionSpec) (c : AdmissionCall) : bool :=
  match c with
  | CallOpen sid => negb (sid =? 0) && (N.of_nat (size (live s)) <? 32) && negb (bool_decide (sid ∈ live s))
  | CallClose sid => bool_decide (sid ∈ live s)
  | CallEnqueue n =>
      (n <=? 64 * 1024) && (lenN (pending s) <? 64) && (sumN (pending s) + n <=? 512 * 1024)
  | CallDequeue n => true
  end.

(** Removes one queued payload of the given size. *)
Fixpoint remove_one (n : N) (l : list N) : list N :=
  match l with [] => [] | x :: l' => if n =? x then l' else x :: remove_one n l' end.

Definition spec_step (s : AdmissionSpec) (c : AdmissionCall) : AdmissionSpec :=
  if negb (spec_admits s c) then s
  else
    match c with
    | CallOpen sid => mkSpec ({[sid]} ∪ live s) (pending s)
    | CallClose sid => mkSpec (live s ∖ {[sid]}) (pending s)
    | CallEnqueue n => mkSpec (live s) (pending s ++ [n])
    | CallDequeue n => mkSpec (live s) (remove_one n (pending s))
    end.

(** Callers release only what they queued. *)
Fixpoint disciplined (s : AdmissionSpec) (cs : list AdmissionCall) : Prop :=
  match cs with
  | [] => True
  | c :: cs' =>
      match c with CallDequeue n => n ∈ pending s | _ => True end /\
      disciplined (spec_step s c) cs'
  end.

Fixpoint spec_run (s : AdmissionSpec) (cs : list AdmissionCall) : AdmissionSpec * list bool :=
  match cs with
  | [] => (s, [])
  | c :: cs' => let '(s', bs) := spec_run (spec_step s c) cs' in (s', spec_admits s c :: bs)
  end.

(** The abstraction relation: the counters are the length and the sum. *)
Definition represents (s : AdmissionSpec) (a : BrokerAdmission) : Prop :=
  streams a = live s /\ queued_frames a = lenN (pending s) /\ queued_bytes a = sumN (pending s) /\
  admission_inv a.

Lemma sumN_app l k : sumN (l ++ k) = sumN l + sumN k.
Proof. induction l as [|x l IH]; simpl; [done|]. rewrite IH. lia. Qed.

Lemma remove_one_spec n l :
  n ∈ l -> lenN l = 1 + lenN (remove_one n l) /\ sumN l = n + sumN (remove_one n l).
Proof.
  induction l as [|x l IH]; intros Hin; [by apply not_elem_of_nil in Hin|].
  cbn [remove_one]. destruct (N.eqb_spec n x) as [->|Hne].
  - rewrite lenN_cons. simpl. lia.
  - apply elem_of_cons in Hin as [?|Hin]; [done|]. destruct (IH Hin) as [H1 H2].
    rewrite !lenN_cons. simpl. lia.
Qed.

Lemma step_represents s a c :
  represents s a -> (forall n, c = CallDequeue n -> n ∈ pending s) ->
  represents (spec_step s c) (admission_step a c).1 /\
  is_ok (admission_step a c).2 = spec_admits s c.
Proof.
  intros (Hl & Hf & Hb & Hinv) Hd.
  assert (Hinv' : admission_inv (admission_step a c).1)
    by (destruct c; simpl; auto with admission).
  unfold represents, spec_step. destruct c as [sid|sid|n|n]; simpl in *.
  - unfold open in *. unfold active_streams, MAX_BROKER_STREAMS in *. rewrite <- Hl.
    destruct Hinv as (Hs & _).
    destruct (N.eqb_spec sid 0); simpl; [done|].
    destruct (N.eqb_spec (N.of_nat (size (streams a))) 32) as [E|E]; simpl.
    + destruct (N.ltb_spec (N.of_nat (size (streams a))) 32); [lia|]. done.
    + destruct (N.ltb_spec (N.of_nat (size (streams a))) 32); [|lia].
      destruct (bool_decide (sid ∈ streams a)); simpl in *; done.
  - unfold close in *. rewrite <- Hl. destruct (bool_decide (sid ∈ streams a)); simpl in *; done.
  - unfold enqueue in *. rewrite <- Hb, <- Hf. destruct Hinv as (_ & _ & Hif & Hib).
    unfold MAX_BROKER_FRAME_BYTES, MAX_BROKER_QUEUED_FRAMES, MAX_BROKER_QUEUED_BYTES in *.
    destruct (N.ltb_spec (64 * 1024) n), (N.leb_spec n (64 * 1024)); simpl in *; try lia; [done|].
    rewrite saturating_add_small in * by (unfold MAX_USIZE, MAX_U64; lia).
    destruct (N.eqb_spec (queued_frames a) 64), (N.ltb_spec (queued_frames a) 64); simpl in *;
      try lia; [done|].
    destruct (N.ltb_spec (512 * 1024) (queued_bytes a + n)),
      (N.leb_spec (queued_bytes a + n) (512 * 1024)); simpl in *; try lia; [done|].
    rewrite lenN_app, sumN_app, <- Hf, <- Hb. cbn [sumN foldr]. rewrite N.add_0_r. done.
  - destruct (remove_one_spec n (pending s) (Hd n eq_refl)) as [H1 H2].
    unfold saturating_sub. split_and!; [done|lia|lia|done|done].
Qed.

(** ** Properties *)

(** on every sequence of calls, starting from a new connection, the broker never
    holds more than 32 streams, never admits stream zero, and never accounts for more
    than 64 queued frames or 512 KiB of queued payload. *)
Theorem admission_bounds cs :
  let a := (admission_run admission_default cs).1 in
  active_streams a <= MAX_BROKER_STREAMS /\ (0 ∉ streams a) /\
  queued_frames a <= MAX_BROKER_QUEUED_FRAMES /\ queued_bytes a <= MAX_BROKER_QUEUED_BYTES.
Proof.
  simpl. assert (H0 := admission_default_inv).
  destruct (admission_run_inv cs _ H0) as (Hs & Hz & Hf & Hb).
  repeat split; auto. unfold active_streams, MAX_BROKER_STREAMS. lia.
Qed.

(** C39: the counters refine the queue they stand for: as long as callers release only
    payloads they queued, every call is admitted exactly when the specification, which
    remembers the whole list of queued sizes, admits it, and the counters stay equal to
    the length and the sum of that list, so the saturating arithmetic never saturates. *)
Theorem admission_refines_queue cs :
  disciplined (mkSpec ∅ []) cs ->
  represents (spec_run (mkSpec ∅ []) cs).1 (admission_run admission_default cs).1 /\
  List.map is_ok (admission_run admission_default cs).2 = (spec_run (mkSpec ∅ []) cs).2.
Proof.
  assert (Hgen : forall s a, represents s a -> disciplined s cs ->
    represents (spec_run s cs).1 (admission_run a cs).1 /\
    List.map is_ok (admission_run a cs).2 = (spec_run s cs).2).
  { induction cs as [|c cs IH]; intros s a Hr Hd; simpl; [done|]. destruct Hd as [Hc Hd].
    destruct (step_represents s a c Hr) as [Hr' Hok]; [by intros n ->|].
    destruct (admission_step a c) as [a1 r]. simpl in Hr', Hok.
    destruct (IH _ _ Hr' Hd) as [H1 H2].
    destruct (admission_run a1 cs), (spec_run (spec_step s c) cs). simpl in *. by rewrite Hok, H2. }
  apply Hgen. split_and!; try done. apply admission_default_inv.
Qed.

Lemma admission_refines_queue_witness :
  let cs := [CallOpen 7; CallEnqueue 100; CallOpen 7; CallEnqueue 70000; CallEnqueue 40;
             CallDequeue 100; CallClose 7; CallClose 7] in
  represents (spec_run (mkSpec ∅ []) cs).1 (admission_run admission_default cs).1 /\
  List.map is_ok (admission_run admission_default cs).2 = (spec_run (mkSpec ∅ []) cs).2.
Proof.
  intros cs. apply (admission_refines_queue cs). cbn. repeat split.
  vm_compute. constructor.
Defined.
