(* ===== verification/Leases.v ===== *)
(** * Leases: the host's registry of active and candidate generations
    ([cdenv-core/src/credential_broker.rs], [CredentialLeaseIdentity] and
    [CredentialLeaseSet])

    A lease binds one generation to one exact authority.  The properties are about
    whole call histories: which calls must have succeeded before a lease can carry
    authority, and that a stopped identity cannot come back by itself. *)

From S2P Require Import Prelude Text Utf8 Identity Workspace BrokerFrame.

(** ** Identity of a lease *)

(** @src cdenv-core/src/credential_broker.rs:139-144 CredentialUserIdentity *)
Record CredentialUserIdentity : Type := mkUser { uid : N; gid : N }.

(** @src cdenv-core/src/credential_broker.rs:53-76 CredentialLeaseIdentity *)
Record CredentialLeaseIdentity : Type := mkLeaseIdentity {
  installation : InstallationId;
  workspace : WorkspaceName;
  workspace_receipt : str;
  container : ContainerId;
  generation : GenerationId;
  user : CredentialUserIdentity;
  host_build : AgentBuildId;
  agent_build : AgentBuildId;
  agent_protocol : ProtocolVersion;
  broker_protocol : N;
  grant_revision : N
}.

#[export] Instance CredentialUserIdentity_eq_dec : EqDecision CredentialUserIdentity.
Proof. solve_decision. Defined.
#[export] Instance CredentialLeaseIdentity_eq_dec : EqDecision CredentialLeaseIdentity.
Proof. solve_decision. Defined.

(** @src cdenv-core/src/credential_broker.rs:84-103 CredentialLeaseIdentity::validate *)
Definition validate (i : CredentialLeaseIdentity) : result BrokerProtocolError unit :=
  let receipt_valid :=
    in_range 16 128 (str_len (workspace_receipt i))
    && forallb is_ascii_alphanumeric (encode_utf8 (workspace_receipt i)) in
  fail_if negb receipt_valid with Identity ($"workspace receipt") in
  fail_if grant_revision i =? 0 with Identity ($"grant revision") in
  fail_if negb (broker_protocol i =? CREDENTIAL_BROKER_PROTOCOL)
          || negb (protocol_get (agent_protocol i) =? 1) with Version in
  fail_if negb (bool_decide (host_build i = agent_build i)) with Identity ($"build") in
  Ok tt.

(** ** The registry *)

(** @src cdenv-core/src/credential_broker.rs:445-450 CredentialLeaseRole *)
Inductive CredentialLeaseRole : Type := Active | Candidate.
(** @src cdenv-core/src/credential_broker.rs:454-459 CredentialLeaseReadiness *)
Inductive CredentialLeaseReadiness : Type := Starting | Ready.

#[export] Instance CredentialLeaseRole_eq_dec : EqDecision CredentialLeaseRole.
Proof. solve_decision. Defined.
#[export] Instance CredentialLeaseReadiness_eq_dec : EqDecision CredentialLeaseReadiness.
Proof. solve_decision. Defined.

(** @src cdenv-core/src/credential_broker.rs:462-467 LeaseRecord *)
Record LeaseRecord : Type := mkLease {
  identity : CredentialLeaseIdentity;
  role : CredentialLeaseRole;
  readiness : CredentialLeaseReadiness;
  operation : option N
}.

(** [CredentialLeaseSet], the map from generations to leases.
    Each operation below returns the new map, or the error that leaves it unchanged. *)
Abbreviation CredentialLeaseSet := (gmap GenerationId LeaseRecord).

(** @src cdenv-core/src/credential_broker.rs:502-522 CredentialLeaseSet::insert *)
Definition lease_insert (leases : CredentialLeaseSet) (i : CredentialLeaseIdentity)
    (r : CredentialLeaseRole) (op : option N) : result BrokerProtocolError CredentialLeaseSet :=
  let? _ := validate i in
  fail_if bool_decide (is_Some (leases !! generation i)) with GenerationExists in
  Ok (<[generation i := mkLease i r Starting op]> leases).

(** @src cdenv-core/src/credential_broker.rs:481-486 CredentialLeaseSet::start_active *)
Definition start_active (leases : CredentialLeaseSet) (i : CredentialLeaseIdentity) :
    result BrokerProtocolError CredentialLeaseSet :=
  lease_insert leases i Active None.

(** @src cdenv-core/src/credential_broker.rs:492-501 CredentialLeaseSet::start_candidate *)
Definition start_candidate (leases : CredentialLeaseSet) (i : CredentialLeaseIdentity) (op : N) :
    result BrokerProtocolError CredentialLeaseSet :=
  fail_if op =? 0 with Identity ($"operation") in
  lease_insert leases i Candidate (Some op).

(** The shared and the mutable borrow of the exact lease.
    @src cdenv-core/src/credential_broker.rs:582-609 CredentialLeaseSet::exact *)
Definition exact_lease (leases : CredentialLeaseSet) (i : CredentialLeaseIdentity) :
    result BrokerProtocolError LeaseRecord :=
  let? lease := ok_or OldGeneration (leases !! generation i) in
  if bool_decide (identity lease = i) then Ok lease else Err (Identity ($"lease")).

(** @src cdenv-core/src/credential_broker.rs:528-535 CredentialLeaseSet::mark_ready *)
Definition mark_ready (leases : CredentialLeaseSet) (i : CredentialLeaseIdentity) :
    result BrokerProtocolError CredentialLeaseSet :=
  let? lease := exact_lease leases i in
  Ok (<[generation i := mkLease (identity lease) (role lease) Ready (operation lease)]> leases).

(** @src cdenv-core/src/credential_broker.rs:541-559 CredentialLeaseSet::promote_candidate *)
Definition promote_candidate (leases : CredentialLeaseSet) (g : GenerationId) (op : N) :
    result BrokerProtocolError CredentialLeaseSet :=
  let? lease := ok_or OldGeneration (leases !! g) in
  fail_if negb (bool_decide (role lease = Candidate))
          || negb (bool_decide (operation lease = Some op))
          || negb (bool_decide (readiness lease = Ready)) with CandidateAuthority in
  Ok (<[g := mkLease (identity lease) Active (readiness lease) None]> leases).

(** @src cdenv-core/src/credential_broker.rs:565-569 CredentialLeaseSet::stop *)
Definition stop (leases : CredentialLeaseSet) (i : CredentialLeaseIdentity) :
    result BrokerProtocolError CredentialLeaseSet :=
  let? _ := exact_lease leases i in Ok (delete (generation i) leases).

(** @src cdenv-core/src/credential_broker.rs:575-581 CredentialLeaseSet::status *)
Definition status (leases : CredentialLeaseSet) (i : CredentialLeaseIdentity) :
    result BrokerProtocolError (CredentialLeaseRole * CredentialLeaseReadiness) :=
  let? lease := exact_lease leases i in Ok (role lease, readiness lease).

(** ** Histories *)

Inductive LeaseCall : Type :=
| CallStartActive (i : CredentialLeaseIdentity)
| CallStartCandidate (i : CredentialLeaseIdentity) (op : N)
| CallMarkReady (i : CredentialLeaseIdentity)
| CallPromote (g : GenerationId) (op : N)
| CallStop (i : CredentialLeaseIdentity).

Definition lease_step (leases : CredentialLeaseSet) (c : LeaseCall) :
    result BrokerProtocolError CredentialLeaseSet :=
  match c with
  | CallStartActive i => start_active leases i
  | CallStartCandidate i op => start_candidate leases i op
  | CallMarkReady i => mark_ready leases i
  | CallPromote g op => promote_candidate leases g op
  | CallStop i => stop leases i
  end.

Definition call_generation (c : LeaseCall) : GenerationId :=
  match c with
  | CallStartActive i | CallStartCandidate i _ | CallMarkReady i | CallStop i => generation i
  | CallPromote g _ => g
  end.

(** [lease_history h leases]: from the empty registry, the calls of [h] that succeeded,
    in order, led to [leases]; rejected calls may occur anywhere and change nothing. *)
Inductive lease_history : list LeaseCall -> CredentialLeaseSet -> Prop :=
| history_start : lease_history [] ∅
| history_call h leases c leases' :
    lease_history h leases -> lease_step leases c = Ok leases' ->
    lease_history (h ++ [c]) leases'.

(** ** Lemmas *)

Lemma exact_lease_Ok leases i lease :
  exact_lease leases i = Ok lease <-> leases !! generation i = Some lease /\ identity lease = i.
Proof.
  unfold exact_lease. destruct (leases !! generation i) as [l|]; simpl; [|naive_solver].
  case_bool_decide; naive_solver.
Qed.

Lemma lease_insert_Ok leases i r op leases' :
  lease_insert leases i r op = Ok leases' <->
  validate i = Ok tt /\ leases !! generation i = None /\
  leases' = <[generation i := mkLease i r Starting op]> leases.
Proof.
  unfold lease_insert. destruct (validate i) as [[]|e]; [|naive_solver].
  case_bool_decide as H; split.
  - done.
  - intros (_ & H' & _). rewrite H' in H. by destruct H.
  - intros [= <-]. by rewrite <- eq_None_not_Some in H.
  - by intros (_ & _ & ->).
Qed.

(** What each successful call did to the registry. *)
Lemma lease_step_Ok leases c leases' :
  lease_step leases c = Ok leases' ->
  match c with
  | CallStartActive i =>
      validate i = Ok tt /\ leases !! generation i = None /\
      leases' = <[generation i := mkLease i Active Starting None]> leases
  | CallStartCandidate i op =>
      op <> 0 /\ validate i = Ok tt /\ leases !! generation i = None /\
      leases' = <[generation i := mkLease i Candidate Starting (Some op)]> leases
  | CallMarkReady i =>
      exists lease, leases !! generation i = Some lease /\ identity lease = i /\
        leases' = <[generation i := mkLease i (role lease) Ready (operation lease)]> leases
  | CallPromote g op =>
      exists i, leases !! g = Some (mkLease i Candidate Ready (Some op)) /\
        leases' = <[g := mkLease i Active Ready None]> leases
  | CallStop i =>
      exists lease, leases !! generation i = Some lease /\ identity lease = i /\
        leases' = delete (generation i) leases
  end.
Proof.
  destruct c as [i|i op|i|g op|i]; simpl; intros H.
  - by apply lease_insert_Ok.
  - unfold start_candidate in H. destruct (N.eqb_spec op 0); [done|].
    by apply lease_insert_Ok in H.
  - unfold mark_ready in H. destruct (exact_lease leases i) as [lease|] eqn:E; [|done].
    apply exact_lease_Ok in E as [E Hi]. injection H as <-. exists lease. by subst.
  - unfold promote_candidate in H. destruct (leases !! g) as [[i r rd o]|]; simpl in H; [|done].
    destruct (_ || _) eqn:E; [done|]. prop_of_bool. simplify_eq. eauto.
  - unfold stop in H. destruct (exact_lease leases i) as [lease|] eqn:E; [|done].
    apply exact_lease_Ok in E as [E Hi]. injection H as <-. eauto.
Qed.

(** A successful call touches only its own generation. *)
Lemma lease_step_frame leases c leases' g :
  lease_step leases c = Ok leases' -> g <> call_generation c -> leases' !! g = leases !! g.
Proof.
  intros H Hg. apply lease_step_Ok in H. destruct c; simpl in Hg; destruct_and?;
    repeat match goal with H : exists _, _ |- _ => destruct H as [? H]; destruct_and? end;
    subst; by rewrite ?lookup_insert_ne, ?lookup_delete_ne by done.
Qed.

(** ** Invariant *)

(** Every lease is stored under its own generation with a validated identity; an
    operation owner is recorded exactly for candidates, and is never zero. *)
Definition lease_ok (g : GenerationId) (l : LeaseRecord) : Prop :=
  generation (identity l) = g /\ validate (identity l) = Ok tt /\
  match role l with
  | Active => operation l = None
  | Candidate => exists op, operation l = Some op /\ op <> 0
  end.

Definition leases_inv (leases : CredentialLeaseSet) : Prop := map_Forall lease_ok leases.

Lemma lease_step_inv leases c leases' :
  leases_inv leases -> lease_step leases c = Ok leases' -> leases_inv leases'.
Proof.
  intros Hinv H. apply lease_step_Ok in H. unfold leases_inv in *.
  destruct c as [i|i op|i|g op|i].
  - destruct H as (Hv & _ & ->). by apply map_Forall_insert_2.
  - destruct H as (Hop & Hv & _ & ->). apply map_Forall_insert_2; [|done].
    repeat split; [done|]. by exists op.
  - destruct H as (l & Hl & Hi & ->). apply map_Forall_insert_2; [|done].
    destruct (Hinv _ _ Hl) as (H1 & H2 & H3). subst i. by repeat split.
  - destruct H as (i & Hl & ->). apply map_Forall_insert_2; [|done].
    destruct (Hinv _ _ Hl) as (H1 & H2 & H3). by repeat split.
  - destruct H as (l & _ & _ & ->). by apply map_Forall_delete.
Qed.

Lemma lease_history_inv h leases : lease_history h leases -> leases_inv leases.
Proof.
  induction 1 as [|h leases c leases' Hh IH Hs]; [apply map_Forall_empty|].
  by eapply lease_step_inv.
Qed.

(** ** Provenance of a lease *)

(** The calls a lease in the registry owes its state to: [since] is the part of the
    history after the call that started it. *)
Definition provenance (since : list LeaseCall) (origin : LeaseCall) (g : GenerationId)
    (l : LeaseRecord) : Prop :=
  (forall i, generation i = g -> CallStop i ∉ since) /\
  (readiness l = Ready -> CallMarkReady (identity l) ∈ since) /\
  match role l with
  | Active =>
      origin = CallStartActive (identity l) \/
      exists op before after,
        origin = CallStartCandidate (identity l) op /\ op <> 0 /\
        since = before ++ CallPromote g op :: after /\ CallMarkReady (identity l) ∈ before
  | Candidate =>
      exists op, origin = CallStartCandidate (identity l) op /\ op <> 0 /\ operation l = Some op
  end.

Lemma provenance_other since origin g l c :
  provenance since origin g l -> call_generation c <> g -> provenance (since ++ [c]) origin g l.
Proof.
  intros (Hstop & Hready & Hrole) Hc. repeat split.
  - intros i Hi Hin. apply elem_of_app in Hin as [Hin|Hin]; [by apply (Hstop i)|].
    apply list_elem_of_singleton in Hin as <-. by apply Hc.
  - intros Hr. apply elem_of_app. auto.
  - destruct (role l); [|done].
    destruct Hrole as [?|(op & b & a & ? & ? & -> & ?)]; [by left|right].
    exists op, b, (a ++ [c]). rewrite <- app_assoc. done.
Qed.

Lemma history_provenance h leases :
  lease_history h leases ->
  forall g l, leases !! g = Some l ->
  exists before origin since, h = before ++ origin :: since /\ provenance since origin g l.
Proof.
  induction 1 as [|h leases c leases' Hh IH Hs]; intros g l Hl; [done|].
  assert (Hinv := lease_history_inv _ _ Hh).
  destruct (decide (g = call_generation c)) as [->|Hne].
  2:{ rewrite (lease_step_frame _ _ _ _ Hs Hne) in Hl.
      destruct (IH g l Hl) as (b & o & s & -> & Hp). exists b, o, (s ++ [c]).
      split; [by rewrite <- app_assoc|]. by apply provenance_other. }
  assert (Hnew : forall r op o, l = mkLease (identity l) r Starting op ->
            o = c -> match r with
              | Active => o = CallStartActive (identity l)
              | Candidate => exists k, o = CallStartCandidate (identity l) k /\ k <> 0 /\ op = Some k
              end ->
            exists before origin since, h ++ [c] = before ++ origin :: since /\
              provenance since origin (call_generation c) l).
  { intros r op o -> -> Hr. exists h, c, []. split; [done|]. repeat split; simpl.
    - intros i _. apply not_elem_of_nil.
    - done.
    - destruct r; naive_solver. }
  apply lease_step_Ok in Hs. destruct c as [i|i op|i|g op|i]; simpl in *.
  - destruct Hs as (_ & _ & ->). rewrite lookup_insert_eq in Hl. injection Hl as <-.
    by apply (Hnew Active None (CallStartActive i)).
  - destruct Hs as (Hop & _ & _ & ->). rewrite lookup_insert_eq in Hl. injection Hl as <-.
    apply (Hnew Candidate (Some op) (CallStartCandidate i op)); eauto.
  - destruct Hs as (l0 & Hl0 & Hi & ->). rewrite lookup_insert_eq in Hl. injection Hl as <-.
    destruct (IH _ _ Hl0) as (b & o & s & -> & Hst & Hrd & Hrole). subst i.
    exists b, o, (s ++ [CallMarkReady (identity l0)]). split; [by rewrite <- app_assoc|].
    repeat split; simpl.
    + intros j Hj Hin. apply elem_of_app in Hin as [Hin|Hin]; [by apply (Hst j)|].
      by apply list_elem_of_singleton in Hin.
    + intros _. apply elem_of_app. right. by left.
    + destruct (role l0); [|done].
      destruct Hrole as [?|(op & b' & a' & ? & ? & -> & ?)]; [by left|right].
      exists op, b', (a' ++ [CallMarkReady (identity l0)]). rewrite <- app_assoc. done.
  - destruct Hs as (i & Hl0 & ->). rewrite lookup_insert_eq in Hl. injection Hl as <-.
    destruct (IH _ _ Hl0) as (b & o & s & -> & Hst & Hrd & op' & Ho & Hop & [= <-]). simpl in *.
    exists b, o, (s ++ [CallPromote g op]). split; [by rewrite <- app_assoc|]. repeat split; simpl.
    + intros j Hj Hin. apply elem_of_app in Hin as [Hin|Hin]; [by apply (Hst j)|].
      by apply list_elem_of_singleton in Hin.
    + intros _. apply elem_of_app. auto.
    + right. exists op, s, []. auto.
  - destruct Hs as (l0 & _ & _ & ->). by rewrite lookup_delete_eq in Hl.
Qed.

(** ** Properties *)

(** C10: authority of the registry: in every history of calls, a lease that is active
    was started as active with exactly its identity, or it was started as a candidate
    by a nonzero operation, then marked ready with exactly its identity, then promoted
    by that same operation, in this order, and was not stopped in between; a lease that
    is still a candidate was started by the operation it records. *)
Theorem lease_authority h leases g l :
  lease_history h leases -> leases !! g = Some l ->
  exists before origin since, h = before ++ origin :: since /\
  (forall i, generation i = g -> CallStop i ∉ since) /\
  (readiness l = Ready -> CallMarkReady (identity l) ∈ since) /\
  match role l with
  | Active =>
      origin = CallStartActive (identity l) \/
      exists op started promoted,
        origin = CallStartCandidate (identity l) op /\ op <> 0 /\
        since = started ++ CallPromote g op :: promoted /\ CallMarkReady (identity l) ∈ started
  | Candidate =>
      exists op, origin = CallStartCandidate (identity l) op /\ op <> 0 /\ operation l = Some op
  end.
Proof. intros Hh Hl. exact (history_provenance h leases Hh g l Hl). Qed.

Definition sample_identity : CredentialLeaseIdentity :=
  mkLeaseIdentity (mkInstallationId ($"host-1")) (mkWorkspaceName ($"project"))
    ($"abcdefghijklmnop") (mkContainerId ($"c0")) (mkGenerationId 2) (mkUser 1000 1000)
    (mkAgentBuildId ($"b1")) (mkAgentBuildId ($"b1")) (mkProtocolVersion 1) 1 4.

Definition sample_calls : list LeaseCall :=
  [CallStartCandidate sample_identity 9; CallMarkReady sample_identity;
   CallPromote (mkGenerationId 2) 9].

Lemma lease_authority_witness :
  exists before origin since, sample_calls = before ++ origin :: since /\
  (forall i, generation i = mkGenerationId 2 -> CallStop i ∉ since) /\
  (Ready = Ready -> CallMarkReady sample_identity ∈ since) /\
  (origin = CallStartActive sample_identity \/
   exists op started promoted,
     origin = CallStartCandidate sample_identity op /\ op <> 0 /\
     since = started ++ CallPromote (mkGenerationId 2) op :: promoted /\
     CallMarkReady sample_identity ∈ started).
Proof.
  apply (lease_authority sample_calls
    {[mkGenerationId 2 := mkLease sample_identity Active Ready None]}
    (mkGenerationId 2) (mkLease sample_identity Active Ready None)).
  - apply (history_call [CallStartCandidate sample_identity 9; CallMarkReady sample_identity]
      {[mkGenerationId 2 := mkLease sample_identity Candidate Ready (Some 9)]}); [|reflexivity].
    apply (history_call [CallStartCandidate sample_identity 9]
      {[mkGenerationId 2 := mkLease sample_identity Candidate Starting (Some 9)]}); [|reflexivity].
    apply (history_call [] ∅); [apply history_start|reflexivity].
  - reflexivity.
Defined.

(** no replay and no collateral change: once an exact identity is stopped, every
    further call on that generation other than a fresh start fails with [OldGeneration];
    an identity that differs from the recorded one in any field is refused by every
    identity-checked call; and a call never changes the lease of another generation. *)
Theorem lease_stop_prevents_replay leases i leases' :
  stop leases i = Ok leases' ->
  (forall j, generation j = generation i ->
     mark_ready leases' j = Err OldGeneration /\ stop leases' j = Err OldGeneration /\
     status leases' j = Err OldGeneration) /\
  (forall op, promote_candidate leases' (generation i) op = Err OldGeneration) /\
  (forall j, generation j = generation i -> j <> i ->
     mark_ready leases j = Err (Identity ($"lease")) /\ stop leases j = Err (Identity ($"lease")) /\
     status leases j = Err (Identity ($"lease"))) /\
  (forall g, g <> generation i -> leases' !! g = leases !! g).
Proof.
  intros H. assert (Hf := fun g => lease_step_frame leases (CallStop i) leases' g H).
  apply (lease_step_Ok leases (CallStop i)) in H as (l & Hl & Hi & ->).
  assert (Hgone : delete (generation i) leases !! generation i = None) by apply lookup_delete_eq.
  split_and!; [| | |done].
  - intros j Hj. unfold mark_ready, stop, status, exact_lease. by rewrite Hj, Hgone.
  - intros op. unfold promote_candidate. by rewrite Hgone.
  - intros j Hj Hne. unfold mark_ready, stop, status, exact_lease. rewrite Hj, Hl. simpl.
    by rewrite bool_decide_eq_false_2 by congruence.
Qed.

Lemma lease_stop_prevents_replay_witness :
  promote_candidate (∅ : CredentialLeaseSet) (mkGenerationId 2) 9 = Err OldGeneration.
Proof.
  assert (H : stop ({[mkGenerationId 2 := mkLease sample_identity Candidate Ready (Some 9)]}
                      : CredentialLeaseSet) sample_identity = Ok (∅ : CredentialLeaseSet))
    by (vm_compute; reflexivity).
  destruct (lease_stop_prevents_replay _ _ _ H) as (_ & Hp & _). exact (Hp 9).
Defined.

(** the registry is well formed on every history: each lease is stored under the
    generation of its own validated identity, candidates and only candidates record an
    operation owner, and that owner is never zero. *)
Theorem lease_registry_invariant h leases g l :
  lease_history h leases -> leases !! g = Some l ->
  generation (identity l) = g /\ validate (identity l) = Ok tt /\
  (role l = Active <-> operation l = None) /\ operation l <> Some 0.
Proof.
  intros Hh Hl. destruct (lease_history_inv h leases Hh g l Hl) as (Hg & Hv & Hr).
  split_and!; auto; destruct (role l); naive_solver.
Qed.

Lemma lease_registry_invariant_witness :
  generation (identity (mkLease sample_identity Active Starting None)) = mkGenerationId 2 /\
  validate (identity (mkLease sample_identity Active Starting None)) = Ok tt /\
  (Active = Active <-> operation (mkLease sample_identity Active Starting None) = None) /\
  operation (mkLease sample_identity Active Starting None) <> Some 0.
Proof.
  apply (lease_registry_invariant [CallStartActive sample_identity]
    {[mkGenerationId 2 := mkLease sample_identity Active Starting None]} (mkGenerationId 2)
    (mkLease sample_identity Active Starting None)).
  - apply (history_call [] ∅); [apply history_start|reflexivity].
  - reflexivity.
Defined.
