(* ===== verification/Credentials.v ===== *)
(** * Credentials: host capabilities and exact HTTPS-origin grants
    ([cdenv-core/src/credentials.rs])

    [Url::parse] belongs to the [url] crate, so it is a parameter [Url_parse] that
    returns the components the source reads; [UrlLaws] names the documented facts the
    theorems use.  [&mut self] methods return the new grants beside
    their result, so that what an error leaves behind is visible. *)

From S2P Require Import Prelude Text Net.

(** @src cdenv-core/src/credentials.rs:16-16 MAX_HTTPS_ORIGINS *)
Definition MAX_HTTPS_ORIGINS : N := 64.
(** @src cdenv-core/src/credentials.rs:18-18 MAX_ORIGIN_BYTES *)
Definition MAX_ORIGIN_BYTES : N := 2048.

(** ** Capabilities *)

(** @src cdenv-core/src/credentials.rs:23-30 CredentialCapability *)
Inductive CredentialCapability : Type := GitHttps | SshAgent | GitIdentity.

(** @src cdenv-core/src/credentials.rs:401-424 CredentialPolicyError *)
Inductive CredentialPolicyError : Type :=
| UnknownCapability | InvalidOrigin | OriginsRequired | HttpsDisabled | TooManyOrigins
| InvalidSocketSelector.

#[export] Instance CredentialCapability_eq_dec : EqDecision CredentialCapability.
Proof. solve_decision. Defined.
#[export] Instance CredentialPolicyError_eq_dec : EqDecision CredentialPolicyError.
Proof. solve_decision. Defined.

(** @src cdenv-core/src/credentials.rs:35-41 CredentialCapability::as_str *)
Definition capability_as_str (c : CredentialCapability) : str :=
  match c with
  | GitHttps => $"git-https"
  | SshAgent => $"ssh-agent"
  | GitIdentity => $"git-identity"
  end.

(** @src cdenv-core/src/credentials.rs:69-76 CredentialCapability::from_str *)
Definition capability_from_str (value : str) : result CredentialPolicyError CredentialCapability :=
  if str_eqb value ($"git-https") then Ok GitHttps
  else if str_eqb value ($"ssh-agent") then Ok SshAgent
  else if str_eqb value ($"git-identity") then Ok GitIdentity
  else Err UnknownCapability.

(** ** What the source reads of a parsed URL *)

Inductive Host : Type :=
| Host_Domain (host : str)
| Host_Ipv4 (host : Ipv4Addr)
| Host_Ipv6 (host : Ipv6Addr).

Record Url : Type := mkUrl {
  url_scheme : str;
  url_username : str;
  url_password : option str;
  url_query : option str;
  url_fragment : option str;
  url_host : option Host;
  url_port_or_known_default : option N;
}.

(** ** Origins *)

(** @src cdenv-core/src/credentials.rs:86-86 HttpsOrigin *)
Record HttpsOrigin : Type := mkHttpsOrigin { origin_as_str : str }.

#[export] Instance HttpsOrigin_eq_dec : EqDecision HttpsOrigin.
Proof. solve_decision. Defined.
#[export] Instance HttpsOrigin_countable : Countable HttpsOrigin.
Proof. apply (inj_countable' origin_as_str mkHttpsOrigin). by intros []. Defined.

(** [c.is_control() || c.is_whitespace()] @src cdenv-core/src/credentials.rs:97-97 parse *)
Definition blank_or_control (c : char) : bool := is_control c || is_whitespace c.

(** ['\\', '%', '*', '?', '#', '@'] @src cdenv-core/src/credentials.rs:98-98 parse *)
Definition ambiguous_chars : list char := [92; 37; 42; 63; 35; 64].

(** [label.bytes().all(...)]; a byte of a multi-byte character is not alphanumeric.
    @src cdenv-core/src/credentials.rs:117-125 parse *)
Definition bad_label (label : str) : bool :=
  bool_decide (label = []) || (63 <? str_len label) || starts_with ($"-") label
  || ends_with ($"-") label || negb (forallb (fun b => is_ascii_alphanumeric b || (b =? 45)) label).

(** The [match] on the parsed host. @src cdenv-core/src/credentials.rs:113-142 parse *)
Definition origin_host (authority : str) (h : Host) : result CredentialPolicyError str :=
  match h with
  | Host_Domain host =>
      let host := default host (strip_suffix ($".") host) in
      fail_if bool_decide (host = []) || existsb bad_label (split 46 host) || (253 <? str_len host)
        with InvalidOrigin in
      Ok host
  | Host_Ipv4 host =>
      let input_host := first_piece 58 authority in
      fail_if negb (str_eqb input_host (Ipv4_to_string host)) with InvalidOrigin in
      Ok (Ipv4_to_string host)
  | Host_Ipv6 host => Ok ($"[" ++ Ipv6_to_string host ++ $"]")
  end.

Section origins.
Context (Url_parse : str -> option Url).

(** @src cdenv-core/src/credentials.rs:95-150 HttpsOrigin::parse *)
Definition HttpsOrigin_parse (value : str) : result CredentialPolicyError HttpsOrigin :=
  fail_if (MAX_ORIGIN_BYTES <? str_len value) || existsb blank_or_control value
          || contains_any ambiguous_chars value with InvalidOrigin in
  let? (scheme, authority) := ok_or InvalidOrigin (split_once ($"://") value) in
  fail_if negb (eq_ignore_ascii_case scheme ($"https")) with InvalidOrigin in
  let authority := default authority (strip_suffix ($"/") authority) in
  fail_if bool_decide (authority = []) || contains_char 47 authority
          || ends_with ($":") authority with InvalidOrigin in
  let? url := ok_or InvalidOrigin (Url_parse value) in
  let? h := ok_or InvalidOrigin (url_host url) in
  let? host := origin_host authority h in
  let? port := ok_or InvalidOrigin (url_port_or_known_default url) in
  fail_if port =? 0 with InvalidOrigin in
  Ok (mkHttpsOrigin ($"https://" ++ host ++ $":" ++ to_string port)).

(** @src cdenv-core/src/credentials.rs:160-182 HttpsOrigin::from_repository_source *)
Definition from_repository_source (value : str) : result CredentialPolicyError HttpsOrigin :=
  fail_if existsb blank_or_control value || contains_char 92 value with InvalidOrigin in
  let? url := ok_or InvalidOrigin (Url_parse value) in
  fail_if negb (str_eqb (url_scheme url) ($"https")) || negb (str_eqb (url_username url) [])
          || is_Some_b (url_password url) || is_Some_b (url_query url)
          || is_Some_b (url_fragment url) with InvalidOrigin in
  let? (_, remainder) := ok_or InvalidOrigin (split_once ($"://") value) in
  let? authority := ok_or InvalidOrigin (head (split 47 remainder)) in
  HttpsOrigin_parse ($"https://" ++ authority).

End origins.

(** ** SSH-agent selectors *)

(** @src cdenv-core/src/credentials.rs:222-222 SshAgentSelector *)
Record SshAgentSelector : Type := mkSelector { selector_str : str }.
#[export] Instance SshAgentSelector_eq_dec : EqDecision SshAgentSelector.
Proof. solve_decision. Defined.

(** @src cdenv-core/src/credentials.rs:227-229 SshAgentSelector::automatic *)
Definition automatic : SshAgentSelector := mkSelector ($"auto").

(** @src cdenv-core/src/credentials.rs:233-235 SshAgentSelector::explicit_path *)
Definition explicit_path (s : SshAgentSelector) : option str :=
  if negb (str_eqb (selector_str s) ($"auto")) then Some (selector_str s) else None.

(** [matches!(part, "" | "." | "..")] @src cdenv-core/src/credentials.rs:251-251 from_str *)
Definition dot_part (part : str) : bool :=
  str_eqb part [] || str_eqb part ($".") || str_eqb part ($"..").

(** @src cdenv-core/src/credentials.rs:241-256 SshAgentSelector::from_str *)
Definition selector_from_str (value : str) : result CredentialPolicyError SshAgentSelector :=
  if str_eqb value ($"auto") then Ok automatic else
  fail_if negb (starts_with ($"/") value) || (4096 <? str_len value) || existsb is_control value
          || existsb dot_part (drop 1 (split 47 value)) with InvalidSocketSelector in
  Ok (mkSelector value).

(** ** Grants *)

(** @src cdenv-core/src/credentials.rs:276-280 CredentialGrants *)
Record CredentialGrants : Type := mkGrants {
  git_https : option (gset HttpsOrigin);
  ssh_agent : option SshAgentSelector;
  git_identity : bool;
}.

(** [Default]: absence is always disabled. @src cdenv-core/src/credentials.rs:274-274 Default *)
Definition default_grants : CredentialGrants := mkGrants None None false.

(** @src cdenv-core/src/credentials.rs:285-291 CredentialGrants::enabled *)
Definition enabled (g : CredentialGrants) (c : CredentialCapability) : bool :=
  match c with
  | GitHttps => is_Some_b (git_https g)
  | SshAgent => is_Some_b (ssh_agent g)
  | GitIdentity => git_identity g
  end.

(** @src cdenv-core/src/credentials.rs:307-311 CredentialGrants::allows *)
Definition allows (g : CredentialGrants) (origin : HttpsOrigin) : bool :=
  match git_https g with Some origins => bool_decide (origin ∈ origins) | None => false end.

(** @src cdenv-core/src/credentials.rs:318-327 CredentialGrants::validate *)
Definition validate_grants (g : CredentialGrants) : result CredentialPolicyError unit :=
  fail_if match git_https g with
          | Some origins => MAX_HTTPS_ORIGINS <? N.of_nat (size origins)
          | None => false
          end with TooManyOrigins in
  Ok tt.

(** @src cdenv-core/src/credentials.rs:334-345 CredentialGrants::enable_https *)
Definition enable_https (g : CredentialGrants) (origins : list HttpsOrigin) :
    CredentialGrants * result CredentialPolicyError unit :=
  if negb (is_Some_b (git_https g)) && bool_decide (origins = []) then (g, Err OriginsRequired)
  else
    let desired := default ∅ (git_https g) ∪ list_to_set origins in
    if MAX_HTTPS_ORIGINS <? N.of_nat (size desired) then (g, Err TooManyOrigins)
    else (mkGrants (Some desired) (ssh_agent g) (git_identity g), Ok tt).

(** @src cdenv-core/src/credentials.rs:352-371 CredentialGrants::adjust_origins *)
Definition adjust_origins (g : CredentialGrants) (origins : list HttpsOrigin) (allow : bool) :
    CredentialGrants * result CredentialPolicyError unit :=
  if negb (is_Some_b (git_https g)) then (g, Err HttpsDisabled)
  else if bool_decide (origins = []) then (g, Err OriginsRequired)
  else if allow then enable_https g origins
  else match git_https g with
       | Some granted =>
           (mkGrants (Some (filter (fun origin => origin ∉ origins) granted))
              (ssh_agent g) (git_identity g), Ok tt)
       | None => (g, Ok tt)
       end.

(** @src cdenv-core/src/credentials.rs:374-376 CredentialGrants::enable_ssh_agent *)
Definition enable_ssh_agent (g : CredentialGrants) (selector : SshAgentSelector) :
    CredentialGrants := mkGrants (git_https g) (Some selector) (git_identity g).

(** @src cdenv-core/src/credentials.rs:379-381 CredentialGrants::enable_identity *)
Definition enable_identity (g : CredentialGrants) : CredentialGrants :=
  mkGrants (git_https g) (ssh_agent g) true.

(** @src cdenv-core/src/credentials.rs:384-390 CredentialGrants::disable *)
Definition disable (g : CredentialGrants) (c : CredentialCapability) : CredentialGrants :=
  match c with
  | GitHttps => mkGrants None (ssh_agent g) (git_identity g)
  | SshAgent => mkGrants (git_https g) None (git_identity g)
  | GitIdentity => mkGrants (git_https g) (ssh_agent g) false
  end.

(** @src cdenv-core/src/credentials.rs:394-396 CredentialGrants::is_empty *)
Definition grants_is_empty (g : CredentialGrants) : bool :=
  negb (is_Some_b (git_https g)) && negb (is_Some_b (ssh_agent g)) && negb (git_identity g).

(** ** Histories of policy calls *)

Inductive GrantCall : Type :=
| CallEnableHttps (origins : list HttpsOrigin)
| CallAdjustOrigins (origins : list HttpsOrigin) (allow : bool)
| CallEnableSshAgent (selector : SshAgentSelector)
| CallEnableIdentity
| CallDisable (capability : CredentialCapability).

Definition grant_call (g : CredentialGrants) (c : GrantCall) :
    CredentialGrants * result CredentialPolicyError unit :=
  match c with
  | CallEnableHttps origins => enable_https g origins
  | CallAdjustOrigins origins allow => adjust_origins g origins allow
  | CallEnableSshAgent selector => (enable_ssh_agent g selector, Ok tt)
  | CallEnableIdentity => (enable_identity g, Ok tt)
  | CallDisable capability => (disable g capability, Ok tt)
  end.

Definition grant_calls (g : CredentialGrants) (cs : list GrantCall) : CredentialGrants :=
  fold_left (fun g c => fst (grant_call g c)) cs g.

(** The capability a call is about. *)
Definition call_target (c : GrantCall) : CredentialCapability :=
  match c with
  | CallEnableHttps _ | CallAdjustOrigins _ _ => GitHttps
  | CallEnableSshAgent _ => SshAgent
  | CallEnableIdentity => GitIdentity
  | CallDisable capability => capability
  end.

(** The part of the grants that belongs to one capability. *)
Definition authority_of (g : CredentialGrants) (c : CredentialCapability) :
    option (gset HttpsOrigin) * option SshAgentSelector * bool :=
  match c with
  | GitHttps => (git_https g, None, false)
  | SshAgent => (None, ssh_agent g, false)
  | GitIdentity => (None, None, git_identity g)
  end.

(** The calls that consent to [o], and the calls that withdraw it. *)
Definition consents (o : HttpsOrigin) (c : GrantCall) : Prop :=
  match c with
  | CallEnableHttps origins | CallAdjustOrigins origins true => o ∈ origins
  | _ => False
  end.
Definition withdraws (o : HttpsOrigin) (c : GrantCall) : Prop :=
  match c with
  | CallAdjustOrigins origins false => o ∈ origins
  | CallDisable GitHttps => True
  | _ => False
  end.

#[export] Instance consents_dec o c : Decision (consents o c).
Proof. destruct c as [| ? []| | |]; simpl; apply _. Defined.
#[export] Instance withdraws_dec o c : Decision (withdraws o c).
Proof. destruct c as [| ? []| | |[]]; simpl; apply _. Defined.

Definition origin_bound (g : CredentialGrants) : Prop :=
  forall os, git_https g = Some os -> N.of_nat (size os) <= MAX_HTTPS_ORIGINS.

Lemma validate_grants_Ok g : validate_grants g = Ok tt <-> origin_bound g.
Proof.
  unfold validate_grants, origin_bound. destruct (git_https g) as [os|]; [|naive_solver].
  destruct (N.ltb_spec MAX_HTTPS_ORIGINS (N.of_nat (size os))) as [Hlt|Hge]; split; try done.
  - intros H. specialize (H os eq_refl). lia.
  - by intros _ os' [= <-].
Qed.

Lemma enable_https_error g os e : snd (enable_https g os) = Err e -> fst (enable_https g os) = g.
Proof. unfold enable_https. by repeat case_match. Qed.

Lemma grant_call_error g c e : snd (grant_call g c) = Err e -> fst (grant_call g c) = g.
Proof.
  destruct c; simpl; try done; [apply enable_https_error|].
  unfold adjust_origins. repeat case_match; try done. apply enable_https_error.
Qed.

Lemma enable_https_bound g os : origin_bound g -> origin_bound (fst (enable_https g os)).
Proof.
  unfold enable_https. intros Hg. repeat case_match; try done. intros os' [= <-].
  prop_of_bool. done.
Qed.

Lemma grant_call_bound g c : origin_bound g -> origin_bound (fst (grant_call g c)).
Proof.
  intros Hg. destruct c as [os|os allow| | |cap]; simpl; try done.
  - by apply enable_https_bound.
  - unfold adjust_origins. repeat case_match; try done; [by apply enable_https_bound|].
    rename select (git_https g = Some _) into E. specialize (Hg _ E). intros os' [= <-].
    match goal with |- N.of_nat (size (filter ?P ?X)) <= _ =>
      assert (size (filter P X) <= size X)%nat by (apply subseteq_size; set_solver) end. lia.
  - destruct cap; [|done..]. intros os [=].
Qed.

Lemma enable_https_frame g os cap :
  cap <> GitHttps -> authority_of (fst (enable_https g os)) cap = authority_of g cap.
Proof. intros Hc. unfold enable_https. repeat case_match; by destruct cap. Qed.

Lemma grant_call_frame g c cap :
  cap <> call_target c -> authority_of (fst (grant_call g c)) cap = authority_of g cap.
Proof.
  destruct c as [os|os allow| | |cap']; simpl; intros Hc;
    [by apply enable_https_frame| |by destruct cap..|by destruct cap, cap'].
  unfold adjust_origins. repeat case_match; try done; [by apply enable_https_frame|by destruct cap].
Qed.

(** What one call does to the authority over one origin. *)
Lemma allows_call g c o :
  allows (fst (grant_call g c)) o = true <->
    (consents o c /\ snd (grant_call g c) = Ok tt) \/ (allows g o = true /\ ~ withdraws o c).
Proof.
  assert (Henable : forall os, allows (fst (enable_https g os)) o = true <->
    (o ∈ os /\ snd (enable_https g os) = Ok tt) \/ allows g o = true).
  { intros os. unfold enable_https, allows.
    repeat (case_match; simplify_eq/=); prop_of_bool; rewrite ?bool_decide_eq_true; set_solver. }
  destruct c as [os|os [|]| | |[| |]]; cbn [grant_call consents withdraws]; try tauto.
  - rewrite Henable. tauto.
  - unfold adjust_origins. destruct (git_https g) as [granted|] eqn:E; cbn [is_Some_b negb fst snd].
    + case_bool_decide; cbn [fst snd]; [set_solver|]. rewrite Henable. tauto.
    + unfold allows. rewrite E. naive_solver.
  - unfold adjust_origins, allows. destruct (git_https g) as [granted|] eqn:E;
      cbn [is_Some_b negb fst snd]; [|rewrite E; naive_solver].
    case_bool_decide; cbn [fst snd git_https]; rewrite ?E, ?bool_decide_eq_true; set_solver.
  - simpl. naive_solver.
Qed.

(** every policy call is transactional, bounded and confined to its capability.  A
    call that reports an error leaves the grants unchanged; the bound of 64 origins that
    [validate] checks is preserved; the authority of every other capability is untouched;
    and adjusting origins never enables a disabled capability. *)
Theorem grant_calls_are_confined g c :
  (forall e, snd (grant_call g c) = Err e -> fst (grant_call g c) = g) /\
  (validate_grants g = Ok tt -> validate_grants (fst (grant_call g c)) = Ok tt) /\
  (forall cap, cap <> call_target c ->
     authority_of (fst (grant_call g c)) cap = authority_of g cap) /\
  (forall os allow, enabled g GitHttps = false ->
     adjust_origins g os allow = (g, Err HttpsDisabled)).
Proof.
  split_and!.
  - apply grant_call_error.
  - rewrite !validate_grants_Ok. apply grant_call_bound.
  - apply grant_call_frame.
  - intros os allow H. unfold adjust_origins. simpl in H. by rewrite H.
Qed.

(** An origin is authorised exactly when it was explicitly consented to and not
    withdrawn since.  From the empty grants, after any sequence of policy calls, [allows]
    holds iff some successful enable or allow call named the origin and no later call
    removed it or disabled the capability. *)
Theorem origin_authority_is_consented cs o :
  allows (grant_calls default_grants cs) o = true <->
  exists pre c post, cs = pre ++ c :: post /\ consents o c /\
    snd (grant_call (grant_calls default_grants pre) c) = Ok tt /\
    Forall (fun c' => ~ withdraws o c') post.
Proof.
  induction cs as [|c cs IH] using rev_ind.
  - split; [done|]. intros (pre & c & post & E & _). by destruct pre.
  - unfold grant_calls at 1. rewrite fold_left_app. cbn [fold_left].
    fold (grant_calls default_grants cs). rewrite allows_call, IH. clear IH. split.
    + intros [[Hc Hok]|[(pre & c' & post & -> & Hc' & Hok & Hpost) Hw]].
      * exists cs, c, []. auto.
      * exists pre, c', (post ++ [c]). rewrite <- app_assoc. split_and!; auto.
        apply Forall_app. auto.
    + intros (pre & c' & post & E & Hc' & Hok & Hpost).
      destruct post as [|d post _] using rev_ind.
      * apply app_inj_tail in E as [-> ->]. auto.
      * rewrite app_comm_cons, app_assoc in E. apply app_inj_tail in E as [-> ->].
        apply Forall_app in Hpost as [Hpost Hd]. apply Forall_cons in Hd as [Hd _]. right. eauto 10.
Qed.

(** ** Canonical origins *)

(** The host text of an accepted host. *)
Definition host_text (h : Host) : str :=
  match h with
  | Host_Domain d => default d (strip_suffix ($".") d)
  | Host_Ipv4 a => Ipv4_to_string a
  | Host_Ipv6 a => $"[" ++ Ipv6_to_string a ++ $"]"
  end.

(** The same host, a domain without its root dot. *)
Definition rootless (h : Host) : Host :=
  match h with Host_Domain d => Host_Domain (default d (strip_suffix ($".") d)) | _ => h end.

Definition domain_ok (d : str) : Prop :=
  d <> [] /\ Forall (fun label => bad_label label = false) (split 46 d) /\ str_len d <= 253.

Definition host_ok (h : Host) : Prop :=
  match h with Host_Domain d => domain_ok (default d (strip_suffix ($".") d)) | _ => True end.

(** Documented behaviour of [Url::parse] on [https] URLs: ports are [u16], and the
    serialisation of a host it has returned parses to that host. *)
Class UrlLaws (Url_parse : str -> option Url) : Prop := {
  url_port_u16 : forall v u p,
    Url_parse v = Some u -> url_port_or_known_default u = Some p -> p <= MAX_U16;
  url_reparse : forall v u h p,
    Url_parse v = Some u -> url_host u = Some h -> url_port_or_known_default u = Some p ->
    host_ok h -> p <> 0 ->
    exists u', Url_parse ($"https://" ++ host_text h ++ $":" ++ to_string p) = Some u' /\
      url_host u' = Some (rootless h) /\ url_port_or_known_default u' = Some p;
}.

(** The characters of a canonical host. *)
Definition host_char (c : char) : Prop :=
  c = 45 \/ c = 46 \/ 48 <= c <= 58 \/ 65 <= c <= 91 \/ c = 93 \/ 97 <= c <= 122.

(** [Forall host_char] of a literal. *)
Ltac host_literal :=
  match goal with |- Forall ?P ?l => let l' := eval vm_compute in l in change (Forall P l') end;
  repeat (apply List.Forall_cons; [unfold host_char; lia|]); apply List.Forall_nil.

Lemma join_Forall (P : char -> Prop) sep ws :
  Forall P sep -> Forall (Forall P) ws -> Forall P (join sep ws).
Proof.
  intros Hs. induction 1 as [|w ws Hw Hws IH]; [done|]. destruct ws as [|v vs]; [done|].
  rewrite join_cons by done. rewrite !Forall_app. auto.
Qed.

Lemma join_length (k : N) (ws : list str) :
  Forall (fun w => lenN w <= k) ws -> lenN (join [58] ws) <= (k + 1) * lenN ws.
Proof.
  induction 1 as [|w ws Hw Hws IH]; [unfold lenN; simpl; lia|]. rewrite lenN_cons. destruct ws as [|v vs]; [simpl; nia|].
  rewrite join_cons by done. rewrite !lenN_app. change (lenN [58]) with 1. nia.
Qed.

Lemma bit_field_lt w n i bits : bit_field w n i bits < 2 ^ w.
Proof. unfold bit_field. rewrite N.land_ones. apply N.mod_lt. lia. Qed.

Lemma to_string_host n : Forall (fun c => 48 <= c <= 57) (to_string n).
Proof.
  destruct (to_string_spec n) as (_ & Hd & _). eapply Forall_impl; [exact Hd|]. apply digit_range.
Qed.

(** Octets print in at most three characters. *)
Lemma to_string_octet n : n < 2 ^ 8 -> lenN (to_string n) <= 3.
Proof. intros Hn. apply to_string_len; lia. Qed.

Lemma hex_u16_spec n : Forall host_char (hex_u16 n) /\ lenN (hex_u16 n) <= 4.
Proof.
  unfold hex_u16. set (nib := List.map _ _).
  assert (Hlen : (length (drop_while (N.eqb 0) nib) <= 4)%nat).
  { change 4%nat with (length nib). rewrite <- (take_while_app_drop (N.eqb 0) nib) at 2.
    rewrite length_app. lia. }
  assert (Hd : Forall (fun d => d < 16) (drop_while (N.eqb 0) nib)).
  { assert (Hall : Forall (fun d => d < 16) nib) by (repeat constructor; apply bit_field_lt).
    rewrite <- (take_while_app_drop (N.eqb 0) nib) in Hall. by apply Forall_app in Hall as [_ ?]. }
  destruct (drop_while (N.eqb 0) nib) as [|d ds].
  - split; [host_literal|vm_compute; discriminate].
  - revert Hlen Hd. generalize (d :: ds). intros l Hlen Hd. split.
    + apply List.Forall_map. eapply Forall_impl; [exact Hd|]. intros x Hx. simpl in Hx.
      unfold hex_digit, host_char. destruct (N.ltb_spec x 10); lia.
    + unfold lenN. rewrite length_map. lia.
Qed.

Lemma fmt_segments_spec segs :
  Forall host_char (fmt_segments segs) /\ lenN (fmt_segments segs) <= 5 * lenN segs.
Proof.
  unfold fmt_segments. split.
  - apply join_Forall; [host_literal|].
    apply List.Forall_map, Forall_true. intros x. apply hex_u16_spec.
  - assert (H : Forall (fun w => lenN w <= 4) (List.map hex_u16 segs))
      by (apply List.Forall_map, Forall_true; intros x; apply hex_u16_spec).
    apply join_length in H.
    replace (lenN (List.map hex_u16 segs)) with (lenN segs) in H
      by (unfold lenN; by rewrite length_map).
    change ($":") with [58]. lia.
Qed.

Lemma Ipv4_to_string_spec a :
  Forall (fun c => c = 46 \/ 48 <= c <= 57) (Ipv4_to_string a) /\ lenN (Ipv4_to_string a) <= 15.
Proof.
  unfold Ipv4_to_string. split.
  - apply join_Forall; [repeat constructor; lia|]. apply List.Forall_map, Forall_true. intros x.
    eapply Forall_impl; [apply to_string_host|]. naive_solver.
  - unfold octets. cbn [List.map join]. rewrite !lenN_app.
    assert (H := fun i => to_string_octet _ (bit_field_lt 8 4 i (ipv4_bits a))).
    assert (H0 := H 0). assert (H1 := H 1). assert (H2 := H 2). assert (H3 := H 3).
    change (lenN ($".")) with 1. lia.
Qed.

Lemma Ipv6_to_string_spec a :
  Forall host_char (Ipv6_to_string a) /\ lenN (Ipv6_to_string a) <= 82.
Proof.
  unfold Ipv6_to_string. assert (Hs : lenN (segments a) = 8) by reflexivity.
  case_bool_decide.
  - destruct (Ipv4_to_string_spec (mkIpv4 (N.land (ipv6_bits a) MAX_U32))) as [Hc Hl].
    rewrite Forall_app, lenN_app. change (lenN ($"::ffff:")) with 7. split; [split|lia].
    + host_literal.
    + eapply Forall_impl; [exact Hc|]. intros c. unfold host_char. simpl. lia.
  - destruct (longest_zeroes _ _ _ _) as [start len]. case_match.
    + destruct (fmt_segments_spec (take start (segments a))) as [Hc1 Hl1].
      destruct (fmt_segments_spec (drop (start + len) (segments a))) as [Hc2 Hl2].
      rewrite !Forall_app, !lenN_app. change (lenN ($"::")) with 2.
      unfold lenN in Hs, Hl1, Hl2 |- *. rewrite length_take in Hl1. rewrite length_drop in Hl2.
      split; [split_and!; auto; host_literal|lia].
    + destruct (fmt_segments_spec (segments a)). split; [done|lia].
Qed.

Lemma domain_chars d : domain_ok d -> Forall host_char d.
Proof.
  intros (_ & Hl & _). rewrite <- (join_split 46 d). apply join_Forall.
  - host_literal.
  - eapply Forall_impl; [exact Hl|]. intros label Hb. simpl in Hb. unfold bad_label in Hb.
    prop_of_bool. rewrite forallb_Forall in *. eapply Forall_impl; [eassumption|].
    intros c Hc. simpl in Hc. apply orb_true_iff in Hc as [Hc|Hc];
      [apply alphanumeric_range in Hc|prop_of_bool]; unfold host_char; lia.
Qed.

Lemma host_text_spec h :
  host_ok h -> Forall host_char (host_text h) /\ lenN (host_text h) <= 253 /\ host_text h <> [].
Proof.
  destruct h as [d|a|a]; cbn [host_text host_ok]; intros H.
  - split_and!; [by apply domain_chars| |by destruct H].
    destruct H as (_ & _ & Hlen). eapply N.le_trans; [apply lenN_le_str_len|done].
  - destruct (Ipv4_to_string_spec a) as [Hc Hl]. split_and!; [|lia|].
    + eapply Forall_impl; [exact Hc|]. intros c. unfold host_char. simpl. lia.
    + unfold Ipv4_to_string, octets. cbn [List.map join]. destruct (to_string_spec (bit_field 8 4 0 (ipv4_bits a))).
      by destruct (to_string _).
  - destruct (Ipv6_to_string_spec a) as [Hc Hl]. split_and!; [| |done].
    + rewrite !Forall_app. split_and!; [|done|]; host_literal.
    + rewrite !lenN_app. change (lenN ($"[")) with 1. change (lenN ($"]")) with 1. lia.
Qed.

#[local] Opaque Ipv4_to_string Ipv6_to_string to_string.

Section canonical.
Context (Url_parse : str -> option Url) {laws : UrlLaws Url_parse}.

Lemma origin_host_Ok authority h host :
  origin_host authority h = Ok host -> host = host_text h /\ host_ok h.
Proof.
  destruct h as [d|a|a]; cbn [origin_host host_text host_ok]; intros H.
  - destruct (_ || _) eqn:E in H; [done|]. injection H as <-. split; [done|]. prop_of_bool.
    unfold domain_ok. by rewrite <- existsb_false_iff.
  - destruct (negb _) in H; [done|]. by injection H as <-.
  - by injection H as <-.
Qed.

Lemma HttpsOrigin_parse_Ok v o :
  HttpsOrigin_parse Url_parse v = Ok o ->
  exists u h p, Url_parse v = Some u /\ url_host u = Some h /\
    url_port_or_known_default u = Some p /\ p <> 0 /\ host_ok h /\
    o = mkHttpsOrigin ($"https://" ++ host_text h ++ $":" ++ to_string p).
Proof.
  unfold HttpsOrigin_parse. intros H. destruct (_ || _) in H; [done|].
  destruct (split_once _ _) as [[scheme authority]|]; cbn [ok_or] in H; [|done].
  destruct (negb _) in H; [done|]. destruct (_ || _) in H; [done|].
  destruct (Url_parse v) as [u|]; cbn [ok_or] in H; [|done].
  destruct (url_host u) as [h|] eqn:Eh; cbn [ok_or] in H; [|done].
  destruct (origin_host _ h) as [host|] eqn:Eo; [|done]. apply origin_host_Ok in Eo as [-> Hh].
  destruct (url_port_or_known_default u) as [p|] eqn:Ep; cbn [ok_or] in H; [|done].
  destruct (N.eqb_spec p 0); [done|]. injection H as <-. eauto 10.
Qed.

Lemma origin_host_canonical h ds :
  host_ok h -> origin_host (host_text h ++ 58 :: ds) (rootless h) = Ok (host_text h).
Proof.
  destruct h as [d|a|a]; cbn [origin_host host_text host_ok rootless]; intros H.
  - revert H. generalize (default d (strip_suffix ($".") d)). clear d. intros d H.
    assert (E : strip_suffix ($".") d = None).
    { destruct (strip_suffix ($".") d) as [r|] eqn:E; [|done]. exfalso.
      apply strip_suffix_Some in E as ->. destruct H as (_ & Hl & _).
      change ($".") with [46] in Hl. rewrite split_snoc_sep in Hl.
      apply Forall_app in Hl as [_ Hl]. by apply Forall_cons in Hl as [? _]. }
    rewrite E. cbn [default]. destruct H as (Hne & Hl & Hlen).
    rewrite bool_decide_eq_false_2 by done. apply existsb_false_iff in Hl. rewrite Hl.
    by destruct (N.ltb_spec 253 (str_len d)); [lia|].
  - destruct (Ipv4_to_string_spec a) as [Hc _]. rewrite first_piece_app.
    + by rewrite str_eqb_refl.
    + intros H58. rewrite Forall_forall in Hc. apply Hc in H58. lia.
  - done.
Qed.

Lemma host_char_allowed c :
  host_char c -> blank_or_control c = false /\ contains_char c ambiguous_chars = false /\
    c <> 47 /\ c < 128.
Proof.
  unfold host_char. intros H. split_and!; [| |lia|lia].
  - unfold blank_or_control, is_control, is_whitespace. rewrite !orb_false_iff, !in_range_false, !N.eqb_neq. lia.
  - apply contains_char_false. unfold ambiguous_chars. rewrite !not_elem_of_cons. split_and!; try lia. apply not_elem_of_nil.
Qed.

(** The canonical text of an accepted host and port passes every lexical test of [parse]. *)
Lemma canonical_lexical h p :
  host_ok h -> p <= MAX_U16 ->
  let text := $"https://" ++ host_text h ++ $":" ++ to_string p in
  let authority := host_text h ++ 58 :: to_string p in
  (MAX_ORIGIN_BYTES <? str_len text) || existsb blank_or_control text
    || contains_any ambiguous_chars text = false /\
  split_once ($"://") text = Some ($"https", authority) /\
  strip_suffix ($"/") authority = None /\
  bool_decide (authority = []) || contains_char 47 authority || ends_with ($":") authority = false.
Proof.
  intros Hh Hp text authority. destruct (host_text_spec h Hh) as (Hc & Hl & Hne).
  assert (Hd := to_string_host p).
  assert (Hlen : lenN (to_string p) <= 5) by (apply to_string_len; unfold MAX_U16 in *; lia).
  assert (Hd' : Forall host_char (58 :: to_string p)).
  { constructor; [unfold host_char; lia|]. eapply Forall_impl; [exact Hd|].
    intros c. unfold host_char. simpl. lia. }
  assert (Hauth : Forall host_char authority) by (apply Forall_app; auto).
  assert (Hsnoc : exists a x, authority = a ++ [x] /\ 48 <= x <= 57).
  { destruct (to_string_spec p) as (Hnil & _ & _).
    destruct (exists_last Hnil) as (a & x & E). exists (host_text h ++ 58 :: a), x.
    unfold authority. rewrite E, <- app_assoc. split; [done|]. rewrite E in Hd.
    apply Forall_app in Hd as [_ Hd]. by apply Forall_cons in Hd as [? _]. }
  change text with (($"https:") ++ 47 :: 47 :: authority). clearbody text.
  split_and!.
  - assert (Hpre : forall c, c ∈ ($"https:") ++ 47 :: 47 :: authority -> host_char c \/ c = 47).
    { intros c Hin. apply elem_of_app in Hin as [Hin|Hin].
      - left. revert c Hin. apply Forall_forall. host_literal.
      - rewrite !elem_of_cons in Hin. rewrite Forall_forall in Hauth. naive_solver. }
    rewrite !orb_false_iff. split_and!.
    + apply N.ltb_ge. rewrite str_len_ascii.
      * unfold authority. rewrite lenN_app, !lenN_cons, lenN_app, lenN_cons.
        change (lenN ($"https:")) with 6. unfold MAX_ORIGIN_BYTES. lia.
      * apply Forall_forall. intros c [Hc'| ->]%Hpre; [by apply host_char_allowed|lia].
    + apply existsb_false_iff, Forall_forall. intros c [Hc'| ->]%Hpre; [by apply host_char_allowed|done].
    + apply existsb_false_iff, Forall_forall. intros c [Hc'| ->]%Hpre; [by apply host_char_allowed|done].
  - generalize authority. intros a. reflexivity.
  - destruct Hsnoc as (a & x & -> & Hx). change ($"/") with [47]. rewrite strip_suffix_snoc.
    by destruct (N.eqb_spec 47 x); [lia|].
  - rewrite !orb_false_iff. split_and!.
    + apply bool_decide_eq_false. unfold authority. by destruct (host_text h).
    + apply contains_char_false. intros Hin. rewrite Forall_forall in Hauth.
      by apply Hauth, host_char_allowed in Hin as (_ & _ & ? & _).
    + destruct Hsnoc as (a & x & -> & Hx). unfold ends_with. change ($":") with [58].
      rewrite strip_suffix_snoc. by destruct (N.eqb_spec 58 x); [lia|].
Qed.

(** An accepted HTTPS origin is canonical.  [HttpsOrigin::parse] returns
    [https://host:port] with the host text of the parsed host (a domain of valid labels
    without its root dot, a dotted IPv4 address or a bracketed IPv6 address) and an
    explicit port between 1 and 65535, and parsing that text again returns the same
    origin, so equality of stored origins is equality of canonical text. *)
Theorem https_origin_canonical v o :
  HttpsOrigin_parse Url_parse v = Ok o ->
  (exists h p, origin_as_str o = $"https://" ++ host_text h ++ $":" ++ to_string p /\
     host_ok h /\ 1 <= p <= MAX_U16) /\
  HttpsOrigin_parse Url_parse (origin_as_str o) = Ok o.
Proof.
  intros H. apply HttpsOrigin_parse_Ok in H as (u & h & p & Hu & Hh & Hp & Hp0 & Hok & ->).
  assert (Hp16 := url_port_u16 _ _ _ Hu Hp). split; [exists h, p; split_and!; auto; lia|].
  destruct (url_reparse _ _ _ _ Hu Hh Hp Hok Hp0) as (u' & Hu' & Hh' & Hp').
  destruct (canonical_lexical h p Hok Hp16) as (Hlex & Hsplit & Hslash & Hauth).
  unfold HttpsOrigin_parse. cbn [origin_as_str]. rewrite Hlex, Hsplit. cbn [ok_or].
  change (negb (eq_ignore_ascii_case ($"https") ($"https"))) with false. cbn iota.
  rewrite Hslash. cbn [default]. rewrite Hauth, Hu'. cbn [ok_or]. rewrite Hh'. cbn [ok_or].
  rewrite origin_host_canonical by done. rewrite Hp'. cbn [ok_or].
  by destruct (N.eqb_spec p 0); [lia|].
Qed.
End canonical.

(** A parser that knows one site, under two spellings. *)
Definition sample_url : Url := mkUrl ($"https") [] None None None
  (Some (Host_Domain ($"github.com"))) (Some 443).
Definition sample_url_parse (v : str) : option Url :=
  if str_eqb v ($"HTTPS://GitHub.COM/") || str_eqb v ($"https://github.com:443")
  then Some sample_url else None.

#[local] Instance sample_url_laws : UrlLaws sample_url_parse.
Proof.
  split; unfold sample_url_parse; intros v u; destruct (_ || _); try done.
  - intros p [= <-] [= <-]. by vm_compute.
  - intros h p [= <-] [= <-] [= <-] _ _. exists sample_url. split_and!; reflexivity.
Qed.

Lemma https_origin_canonical_witness :
  HttpsOrigin_parse sample_url_parse ($"https://github.com:443")
    = Ok (mkHttpsOrigin ($"https://github.com:443")).
Proof.
  apply (https_origin_canonical sample_url_parse ($"HTTPS://GitHub.COM/")
    (mkHttpsOrigin ($"https://github.com:443"))).
  vm_compute. reflexivity.
Defined.
