(* ===== verification/CredentialProtocol.v ===== *)
(** * CredentialProtocol: the Git credential field surface, version 1
    ([cdenv-core/src/credential_protocol.rs])

    A body is a list of bytes.  [BTreeMap<&str, &str>] is a [gmap]; the origin of a
    request is checked with [HttpsOrigin_parse], so the functions take the URL parser
    as their parameter.  Output goes to an in-memory sink, whose writes do not fail. *)

From S2P Require Import Prelude Text Utf8 BrokerFrame Credentials.

(** @src cdenv-core/src/credential_protocol.rs:19-19 MAX_CREDENTIAL_BYTES *)
Definition MAX_CREDENTIAL_BYTES : N := 32 * 1024.
(** @src cdenv-core/src/credential_protocol.rs:21-21 MAX_CREDENTIAL_FIELD_BYTES *)
Definition MAX_CREDENTIAL_FIELD_BYTES : N := 8 * 1024.
(** @src cdenv-core/src/credential_protocol.rs:23-23 MAX_CREDENTIAL_FIELDS *)
Definition MAX_CREDENTIAL_FIELDS : N := 8.

(** @src cdenv-core/src/credential_protocol.rs:288-312 CredentialProtocolError *)
Inductive CredentialProtocolError : Type :=
| ProtocolOperation | ProtocolBounds | ProtocolFraming | ProtocolUnsupportedField
| ProtocolContext | ProtocolExpiry | ProtocolIo.

#[export] Instance CredentialProtocolError_eq_dec : EqDecision CredentialProtocolError.
Proof. solve_decision. Defined.

(** @src cdenv-core/src/credential_protocol.rs:27-34 CredentialHelperOperation *)
Inductive CredentialHelperOperation : Type := Helper_Get | Helper_Store | Helper_Erase.

(** @src cdenv-core/src/credential_protocol.rs:39-46 CredentialHelperOperation::from_str *)
Definition helper_from_str (value : str) :
    result CredentialProtocolError CredentialHelperOperation :=
  if str_eqb value ($"get") then Ok Helper_Get
  else if str_eqb value ($"store") then Ok Helper_Store
  else if str_eqb value ($"erase") then Ok Helper_Erase
  else Err ProtocolOperation.

(** ** Fields *)

Abbreviation fields := (gmap (list N) (list N)) (only parsing).

(** One round of the loop over the lines; the state is [(fields, terminated)].
    @src cdenv-core/src/credential_protocol.rs:262-282 parse_fields *)
Definition field_step (state : fields * bool) (line : str) :
    result CredentialProtocolError (fields * bool) :=
  let '(fields, terminated) := state in
  fail_if terminated with ProtocolFraming in
  if bool_decide (line = []) then Ok (fields, true) else
  fail_if (MAX_CREDENTIAL_FIELD_BYTES <? str_len line)
          || (N.of_nat (size fields) =? MAX_CREDENTIAL_FIELDS) with ProtocolBounds in
  fail_if existsb is_control line with ProtocolFraming in
  let? (key, value) := ok_or ProtocolFraming (split_once ($"=") line) in
  fail_if bool_decide (key = []) || is_Some_b (fields !! key) with ProtocolFraming in
  Ok (<[key := value]> fields, terminated).

(** @src cdenv-core/src/credential_protocol.rs:251-284 parse_fields *)
Definition parse_fields (bytes : list N) : result CredentialProtocolError fields :=
  fail_if MAX_CREDENTIAL_BYTES <? lenN bytes with ProtocolBounds in
  let? text := ok_or ProtocolFraming (from_utf8 bytes) in
  fail_if negb (bool_decide (text = [])) && negb (ends_with [10] text) with ProtocolFraming in
  let? (fields, _) := try_fold field_step (∅, false) (split_terminator 10 text) in
  Ok fields.

(** [fields.remove(key)] *)
Definition remove (key : str) (m : fields) : option str * fields := (m !! key, delete key m).

(** @src cdenv-core/src/credential_protocol.rs:222-227 write_field *)
Definition write_field (output : list N) (name value : str) : list N :=
  output ++ encode_utf8 name ++ $"=" ++ encode_utf8 value ++ [10].

(** Reads at most one byte more than the bound, up to end of file.
    @src cdenv-core/src/credential_protocol.rs:237-249 read_private_body *)
Definition read_private_body (input : list ReadEvent) : result CredentialProtocolError (list N) :=
  let? (bytes, _) := map_err (fun _ => ProtocolIo) (read_full (MAX_CREDENTIAL_BYTES + 1) input) in
  fail_if MAX_CREDENTIAL_BYTES <? lenN bytes with ProtocolBounds in
  Ok bytes.

(** ** Requests *)

(** @src cdenv-core/src/credential_protocol.rs:50-55 GitCredentialRequest *)
Record GitCredentialRequest : Type := mkRequest {
  req_origin : HttpsOrigin;
  req_host : str;
  req_path : option str;
  req_username : option str;
}.

(** @src cdenv-core/src/credential_protocol.rs:107-117 GitCredentialRequest::write_private *)
Definition request_write_private (r : GitCredentialRequest) (output : list N) : list N :=
  let output := output ++ $"protocol=https" ++ [10] in
  let output := write_field output ($"host") (req_host r) in
  let output := match req_path r with
                | Some path => write_field output ($"path") path
                | None => output
                end in
  let output := match req_username r with
                | Some username => write_field output ($"username") username
                | None => output
                end in
  output ++ [10].

(** ** Responses *)

(** @src cdenv-core/src/credential_protocol.rs:121-125 GitCredentialResponse *)
Record GitCredentialResponse : Type := mkResponse {
  res_username : str;
  res_password : str;
  res_expires_at : option N;
}.

(** @src cdenv-core/src/credential_protocol.rs:200-203 GitCredentialResponse::is_current *)
Definition is_current (r : GitCredentialResponse) (now_unix_seconds : N) : bool :=
  match res_expires_at r with Some expiry => now_unix_seconds <? expiry | None => true end.

(** @src cdenv-core/src/credential_protocol.rs:212-219 GitCredentialResponse::write_private *)
Definition response_write_private (r : GitCredentialResponse) (output : list N) : list N :=
  let output := write_field output ($"username") (res_username r) in
  let output := write_field output ($"password") (res_password r) in
  let output := match res_expires_at r with
                | Some expiry => output ++ $"password_expiry_utc=" ++ to_string expiry ++ [10]
                | None => output
                end in
  output ++ [10].

(** The closure over an optional expiry.
    @src cdenv-core/src/credential_protocol.rs:164-174 GitCredentialResponse::parse *)
Definition parse_expiry (value : option str) : result CredentialProtocolError (option N) :=
  match value with
  | None => Ok None
  | Some value =>
      fail_if bool_decide (value = []) || negb (forallb is_ascii_digit value)
        with ProtocolExpiry in
      let? n := ok_or ProtocolExpiry (parse_uint MAX_U64 value) in Ok (Some n)
  end.

Section protocol.
Context (Url_parse : str -> option Url).

(** @src cdenv-core/src/credential_protocol.rs:70-94 GitCredentialRequest::parse *)
Definition request_parse (bytes : list N) : result CredentialProtocolError GitCredentialRequest :=
  let? m := parse_fields bytes in
  let '(protocol, m) := remove ($"protocol") m in
  let? protocol := ok_or ProtocolContext protocol in
  let '(host, m) := remove ($"host") m in
  let? host := ok_or ProtocolContext host in
  fail_if negb (str_eqb protocol ($"https")) || bool_decide (host = []) || contains_char 47 host
    with ProtocolContext in
  let? origin := map_err (fun _ => ProtocolContext)
                   (HttpsOrigin_parse Url_parse ($"https://" ++ host)) in
  let '(path, m) := remove ($"path") m in
  let '(username, m) := remove ($"username") m in
  fail_if negb (bool_decide (m = ∅)) with ProtocolUnsupportedField in
  Ok (mkRequest origin host path username).

(** The echoed host names the request's origin.
    @src cdenv-core/src/credential_protocol.rs:151-155 GitCredentialResponse::parse *)
Definition host_conflicts (origin : HttpsOrigin) (host : str) : bool :=
  contains_char 47 host
  || negb (bool_decide (HttpsOrigin_parse Url_parse ($"https://" ++ host) = Ok origin)).

(** [o.is_some_and(p)] *)
Definition is_some_and {A} (p : A -> bool) (o : option A) : bool :=
  match o with Some a => p a | None => false end.

(** [||] is lazy, but its right operands only remove fields when no error is returned,
    and on the error path the fields are dropped.
    @src cdenv-core/src/credential_protocol.rs:142-196 GitCredentialResponse::parse *)
Definition response_parse (bytes : list N) (request : GitCredentialRequest)
    (now_unix_seconds : N) : result CredentialProtocolError (option GitCredentialResponse) :=
  let? m := parse_fields bytes in
  let '(protocol, m) := remove ($"protocol") m in
  let '(host, m) := remove ($"host") m in
  let '(path, m) := remove ($"path") m in
  fail_if is_some_and (fun value => negb (str_eqb value ($"https"))) protocol
          || is_some_and (host_conflicts (req_origin request)) host
          || is_some_and (fun path => negb (bool_decide (req_path request = Some path))) path
    with ProtocolContext in
  let '(username, m) := remove ($"username") m in
  let '(password, m) := remove ($"password") m in
  let '(expiry, m) := remove ($"password_expiry_utc") m in
  let? expires_at := parse_expiry expiry in
  fail_if negb (bool_decide (m = ∅)) with ProtocolUnsupportedField in
  if is_some_and (fun expiry => expiry <=? now_unix_seconds) expires_at then Ok None else
  match username, password with
  | Some username, Some password =>
      fail_if is_some_and (fun expected => negb (str_eqb expected username)) (req_username request)
        with ProtocolContext in
      Ok (Some (mkResponse username password expires_at))
  | _, _ => Ok None
  end.

End protocol.

(** ** Fields as an association list with optional values *)

Definition put (key : str) (value : option str) (m : fields) : fields :=
  match value with Some v => <[key := v]> m | None => m end.

Fixpoint fields_of (l : list (str * option str)) : fields :=
  match l with [] => ∅ | (k, o) :: l' => put k o (fields_of l') end.

Definition field_line (f : str * option str) : option str :=
  match f with (k, Some v) => Some (k ++ 61 :: v) | _ => None end.

(** The body that carries the fields of [l], with its blank terminator. *)
Definition body_text (l : list (str * option str)) : str := unlines 10 (omap field_line l ++ [[]]).

Definition field_ok (k v : str) : Prop :=
  k <> [] /\ (61 ∉ k) /\ Forall (fun c => is_control c = false) (k ++ v) /\ valid_str (k ++ v) /\
  str_len k + 1 + str_len v <= MAX_CREDENTIAL_FIELD_BYTES.

Definition field_ok_opt (f : str * option str) : Prop :=
  match f with (k, Some v) => field_ok k v | _ => True end.

Lemma field_line_clean k v : field_ok k v -> 10 ∉ k ++ 61 :: v.
Proof.
  intros (_ & _ & Hc & _ & _) Hin.
  assert (H : 10 ∈ k ++ v) by (revert Hin; rewrite !elem_of_app, elem_of_cons; naive_solver).
  rewrite Forall_forall in Hc. by apply Hc in H.
Qed.

Lemma field_step_Ok m k v :
  field_ok k v -> m !! k = None -> (size m < 8)%nat ->
  field_step (m, false) (k ++ 61 :: v) = Ok (<[k := v]> m, false).
Proof.
  intros (Hk & H61 & Hc & _ & Hlen) Hm Hs. unfold field_step.
  rewrite bool_decide_eq_false_2 by (by destruct k).
  rewrite str_len_app. cbn [str_len]. change (len_utf8 61) with 1.
  destruct (N.ltb_spec MAX_CREDENTIAL_FIELD_BYTES (str_len k + (1 + str_len v))); [lia|].
  unfold MAX_CREDENTIAL_FIELDS. destruct (N.eqb_spec (N.of_nat (size m)) 8); [lia|].
  cbn [orb]. apply Forall_app in Hc as [Hck Hcv].
  assert (Hctl : existsb is_control (k ++ 61 :: v) = false)
    by (apply existsb_false_iff, Forall_app; split; [|constructor]; done).
  rewrite Hctl. change ($"=") with [61]. rewrite split_once_char by done. cbn [ok_or].
  by rewrite bool_decide_eq_false_2, Hm by done.
Qed.

Lemma fields_of_lookup_None l k : k ∉ l.*1 -> fields_of l !! k = None.
Proof.
  induction l as [|[k' o] l IH]; intros Hk; [by apply lookup_empty|]. cbn [fields_of put].
  apply not_elem_of_cons in Hk as [Hne Hk]. destruct o as [v|]; simpl; [|by apply IH].
  simpl in Hne. rewrite lookup_insert_ne by congruence. by apply IH.
Qed.

(** The loop collects the fields of a well-formed body. *)
Lemma field_steps_Ok l m :
  Forall field_ok_opt l -> NoDup l.*1 -> (forall k, k ∈ l.*1 -> m !! k = None) ->
  (size m + length l <= 8)%nat ->
  try_fold field_step (m, false) (omap field_line l) = Ok (fields_of l ∪ m, false).
Proof.
  revert m. induction l as [|[k [v|]] l IH]; intros m Hok Hnd Hm Hs; cbn [fmap list_fmap fst] in *.
  - simpl. by rewrite map_empty_union.
  - apply Forall_cons in Hok as [Hf Hok]. apply NoDup_cons in Hnd as [Hk Hnd]. simpl in Hf.
    cbn [omap list_omap field_line try_fold]. cbn [length] in Hs.
    assert (Hmk : m !! k = None) by (apply Hm; set_solver).
    rewrite field_step_Ok by (done || lia). rewrite IH; [|done|done| |].
    + f_equal. f_equal. cbn [fields_of put]. rewrite <- insert_union_r by (by apply fields_of_lookup_None).
      by rewrite insert_union_l.
    + intros k' Hk'. rewrite lookup_insert_ne by set_solver. apply Hm. set_solver.
    + rewrite map_size_insert_None by done. lia.
  - apply Forall_cons in Hok as [_ Hok]. apply NoDup_cons in Hnd as [_ Hnd]. cbn [length] in Hs.
    cbn [omap list_omap field_line]. rewrite IH; [done|done|done| |lia]. set_solver.
Qed.

Lemma body_text_lines l :
  Forall field_ok_opt l -> Forall (fun line => 10 ∉ line) (omap field_line l ++ [[]]).
Proof.
  intros Hok. apply Forall_app. split; [|repeat constructor; apply not_elem_of_nil].
  induction Hok as [|[k [v|]] l Hf _ IH]; [done| |done]. cbn [omap list_omap field_line].
  constructor; [by apply field_line_clean|done].
Qed.

Lemma body_text_valid l : Forall field_ok_opt l -> valid_str (body_text l).
Proof.
  unfold valid_str, body_text, unlines. intros Hok. rewrite List.map_app, concat_app. apply Forall_app.
  split; [|by repeat constructor]. induction Hok as [|[k [v|]] l Hf _ IH]; [done| |done].
  cbn [omap list_omap field_line List.map concat]. apply Forall_app. split; [|done].
  destruct Hf as (_ & _ & _ & Hv & _). apply Forall_app in Hv as [Hk Hv].
  rewrite !Forall_app. split_and!; [done|by constructor|by repeat constructor].
Qed.

(** Parsing the encoding of well-formed fields gives those fields. *)
Lemma parse_fields_body l :
  Forall field_ok_opt l -> NoDup l.*1 -> (length l <= 8)%nat ->
  str_len (body_text l) <= MAX_CREDENTIAL_BYTES ->
  parse_fields (encode_utf8 (body_text l)) = Ok (fields_of l).
Proof.
  intros Hok Hnd Hlen Hsz. unfold parse_fields. rewrite encode_utf8_len.
  destruct (N.ltb_spec MAX_CREDENTIAL_BYTES (str_len (body_text l))); [lia|].
  rewrite from_utf8_encode by (by apply body_text_valid). cbn [ok_or].
  assert (Hend : ends_with [10] (body_text l) = true).
  { unfold ends_with, body_text, unlines. rewrite List.map_app, concat_app. cbn [List.map concat app].
    by rewrite strip_suffix_snoc. }
  rewrite Hend, andb_false_r. unfold body_text. rewrite split_terminator_unlines by (by apply body_text_lines).
  rewrite try_fold_app, field_steps_Ok; [|done|done|intros; apply lookup_empty|by rewrite map_size_empty].
  simpl. by rewrite map_union_empty.
Qed.

Lemma field_step_inv text s line s' :
  valid_str text -> line ∈ split_terminator 10 text ->
  (forall k v, fst s !! k = Some v -> field_ok k v) -> field_step s line = Ok s' ->
  (forall k v, fst s' !! k = Some v -> field_ok k v).
Proof.
  intros Hv Hin Hs H k v Hk. destruct s as [m t]. unfold field_step in H.
  assert (Hl : valid_str line).
  { assert (Hall := split_terminator_Forall _ 10 _ Hv). rewrite Forall_forall in Hall. by apply Hall. }
  destruct t; [done|]. case_bool_decide; [by injection H as <-; eauto|].
  destruct (_ || _) eqn:E1 in H; [done|]. destruct (existsb _ _) eqn:E2; [done|].
  destruct (split_once _ _) as [[key value]|] eqn:E3; cbn [ok_or] in H; [|done].
  destruct (_ || _) eqn:E4 in H; [done|]. injection H as <-. cbn [fst] in *.
  change ($"=") with [61] in E3. apply split_once_char_Some in E3 as [-> H61].
  apply lookup_insert_Some in Hk as [[<- <-]|[_ Hk]]; [|eauto].
  prop_of_bool. rewrite existsb_false_iff in E2. unfold valid_str in Hl.
  rewrite Forall_app, Forall_cons in *. rewrite str_len_app in *. cbn [str_len] in *.
  change (len_utf8 61) with 1 in *. unfold field_ok, valid_str. rewrite !Forall_app.
  split_and!; naive_solver lia.
Qed.

(** Every accepted field is well formed. *)
Lemma parse_fields_Ok bytes m k v : parse_fields bytes = Ok m -> m !! k = Some v -> field_ok k v.
Proof.
  unfold parse_fields. intros H Hk. destruct (_ <? _) in H; [done|].
  destruct (from_utf8 bytes) as [text|] eqn:E; cbn [ok_or] in H; [|done].
  apply from_utf8_Some in E as [_ Hv]. destruct (_ && _) in H; [done|].
  destruct (try_fold _ _ _) as [[m' t]|] eqn:Ef; [|done]. injection H as ->.
  refine (try_fold_ind_elem (fun s => forall k v, fst s !! k = Some v -> field_ok k v)
    field_step _ _ _ _ _ Ef k v Hk).
  - intros s a s' Ha Hs Hstep. by eapply field_step_inv.
  - intros k' v'. cbn [fst]. by rewrite lookup_empty.
Qed.

Lemma remove_put k m : m = put k (m !! k) (delete k m).
Proof. unfold put. destruct (m !! k) eqn:E; [by rewrite insert_delete_id|by rewrite delete_id]. Qed.

Lemma remove_cons k o l : k ∉ l.*1 -> remove k (fields_of ((k, o) :: l)) = (o, fields_of l).
Proof.
  intros Hk%fields_of_lookup_None. unfold remove. cbn [fields_of put]. destruct o as [v|]; cbn [put].
  - by rewrite lookup_insert_eq, delete_insert_id.
  - by rewrite Hk, delete_id.
Qed.

Lemma fields_of_lookup l k v :
  NoDup l.*1 -> (k, Some v) ∈ l -> fields_of l !! k = Some v.
Proof.
  induction l as [|[k' o] l IH]; intros Hnd Hin; [by apply elem_of_nil in Hin|].
  apply NoDup_cons in Hnd as [Hk Hnd]. cbn [fields_of]. apply elem_of_cons in Hin as [[= <- <-]|Hin].
  - apply lookup_insert_eq.
  - assert (k' <> k). { intros ->. apply Hk. apply (list_elem_of_fmap_2 fst) in Hin. done. }
    destruct o; cbn [put]; [rewrite lookup_insert_ne by done|]; eauto.
Qed.

Lemma parse_fields_of_Ok bytes l :
  NoDup l.*1 -> parse_fields bytes = Ok (fields_of l) -> Forall field_ok_opt l.
Proof.
  intros Hnd H. apply Forall_forall. intros [k [v|]] Hin; simpl; [|done].
  by eapply parse_fields_Ok, fields_of_lookup.
Qed.

(** ** Requests and responses as fields *)

Definition request_fields (r : GitCredentialRequest) : list (str * option str) :=
  [($"protocol", Some ($"https")); ($"host", Some (req_host r)); ($"path", req_path r);
   ($"username", req_username r)].

Definition response_fields (r : GitCredentialResponse) : list (str * option str) :=
  [($"username", Some (res_username r)); ($"password", Some (res_password r));
   ($"password_expiry_utc", option_map to_string (res_expires_at r))].

Lemma write_field_text output name value :
  write_field output name value = output ++ encode_utf8 (name ++ 61 :: value ++ [10]).
Proof.
  unfold write_field. f_equal. rewrite encode_utf8_app.
  change (61 :: value ++ [10]) with ([61] ++ value ++ [10]). by rewrite !encode_utf8_app.
Qed.

Lemma newline_text output : output ++ [10] = output ++ encode_utf8 [10].
Proof. reflexivity. Qed.

Lemma expiry_text output e :
  output ++ $"password_expiry_utc=" ++ to_string e ++ [10] =
  output ++ encode_utf8 ($"password_expiry_utc" ++ 61 :: to_string e ++ [10]).
Proof.
  f_equal. rewrite encode_utf8_ascii; [done|]. apply Forall_app. split; [by repeat constructor|].
  constructor; [done|]. apply Forall_app. split; [|by repeat constructor].
  destruct (to_string_spec e) as (_ & Hd & _). eapply Forall_impl; [exact Hd|].
  intros c Hc%digit_range. lia.
Qed.

(** Both sides of a body as one text. *)
Ltac body_texts :=
  rewrite ?app_nil_l; rewrite <- !encode_utf8_app; f_equal; unfold body_text, unlines;
  cbn [omap list_omap field_line option_map List.map concat app];
  rewrite <- ?app_assoc; cbn [app]; rewrite <- ?app_assoc; reflexivity.

Lemma request_write_text r :
  request_write_private r [] = encode_utf8 (body_text (request_fields r)).
Proof.
  unfold request_write_private. rewrite newline_text.
  change ([] ++ $"protocol=https" ++ [10]) with (encode_utf8 ($"protocol=https" ++ [10])).
  destruct r as [o h [p|] [u|]]; unfold request_fields; cbn [req_path req_username req_host];
    rewrite !write_field_text; body_texts.
Qed.

Lemma response_write_text r :
  response_write_private r [] = encode_utf8 (body_text (response_fields r)).
Proof.
  unfold response_write_private. rewrite newline_text.
  destruct r as [u p [e|]]; unfold response_fields;
    cbn [res_username res_password res_expires_at]; rewrite ?expiry_text, !write_field_text; body_texts.
Qed.

(** Closed decidable side conditions. *)
Ltac by_decision := apply (bool_decide_unpack _); vm_compute; exact I.

Lemma body_text_len l :
  str_len (body_text l) =
  1 + foldr (fun f n => match field_line f with Some s => str_len s + 1 + n | None => n end) 0 l.
Proof.
  unfold body_text, unlines. rewrite List.map_app, concat_app, str_len_app. cbn [List.map concat app].
  change (str_len [10]) with 1. rewrite N.add_comm. f_equal.
  induction l as [|f l IH]; [done|]. cbn [omap list_omap foldr].
  destruct (field_line f) as [s|]; [|done]. cbn [List.map concat].
  rewrite !str_len_app, IH. change (str_len [10]) with 1. lia.
Qed.

Section requests.
Context (Url_parse : str -> option Url).

Lemma HttpsOrigin_parse_len v o :
  HttpsOrigin_parse Url_parse v = Ok o -> str_len v <= MAX_ORIGIN_BYTES.
Proof. unfold HttpsOrigin_parse. destruct (_ || _) eqn:E; [done|]. by prop_of_bool. Qed.

(** A request is its four fields with an accepted host. *)
Lemma request_parse_iff bytes r :
  request_parse Url_parse bytes = Ok r <->
  parse_fields bytes = Ok (fields_of (request_fields r)) /\ req_host r <> [] /\
  contains_char 47 (req_host r) = false /\
  HttpsOrigin_parse Url_parse ($"https://" ++ req_host r) = Ok (req_origin r).
Proof.
  unfold request_parse. split.
  - intros H. destruct (parse_fields bytes) as [m|]; [|done]. unfold remove in H.
    destruct (m !! $"protocol") as [protocol|] eqn:E1; cbn [ok_or] in H; [|done].
    set (m1 := delete ($"protocol") m) in *.
    destruct (m1 !! $"host") as [host|] eqn:E2; cbn [ok_or] in H; [|done].
    set (m2 := delete ($"host") m1) in *. destruct (_ || _) eqn:Eg in H; [done|].
    destruct (HttpsOrigin_parse _ _) as [origin|] eqn:Eo; cbn [map_err] in H; [|done].
    set (m3 := delete ($"path") m2) in *. destruct (negb _) eqn:Ee in H; [done|].
    injection H as <-. unfold request_fields. cbn [req_host req_path req_username req_origin fields_of].
    apply negb_false_iff, bool_decide_eq_true in Ee.
    apply orb_false_iff in Eg as [[Ep%negb_false_iff%str_eqb_true Eh]%orb_false_iff Es].
    apply bool_decide_eq_false in Eh. subst protocol. split_and!; [|done..]. f_equal.
    rewrite <- Ee, <- (remove_put ($"username")). fold m3. unfold m3.
    rewrite <- (remove_put ($"path")). rewrite <- E2. unfold m2. rewrite <- (remove_put ($"host")).
    rewrite <- E1. apply remove_put.
  - intros (Hm & Hne & Hs & Ho). rewrite Hm. unfold request_fields.
    rewrite remove_cons by by_decision. cbn [ok_or]. rewrite remove_cons by by_decision. cbn [ok_or].
    rewrite str_eqb_refl, bool_decide_eq_false_2, Hs by done. cbn [negb orb]. rewrite Ho. cbn [map_err].
    rewrite remove_cons by by_decision. rewrite remove_cons by by_decision.
    change (fields_of []) with (∅ : fields). rewrite bool_decide_eq_true_2 by done. by destruct r.
Qed.

(** the lookup forwarded to host Git is the lookup that was validated.  Whatever
    bytes a container sends, if they parse as a request then writing the request for host
    Git and parsing that again gives the same request: no path, user name or host value
    can inject another field, and the re-encoded body is always within the bounds. *)
Theorem request_roundtrip bytes r :
  request_parse Url_parse bytes = Ok r ->
  request_parse Url_parse (request_write_private r []) = Ok r.
Proof.
  rewrite !request_parse_iff. intros (Hm & Hne & Hs & Ho). split_and!; try done.
  rewrite request_write_text. apply parse_fields_body; [|by_decision|simpl; lia|].
  - eapply parse_fields_of_Ok; [by_decision|done].
  - apply parse_fields_of_Ok in Hm; [|by_decision]. revert Hm.
    apply HttpsOrigin_parse_len in Ho. rewrite str_len_app in Ho. rewrite body_text_len.
    destruct r as [o h p u]; unfold request_fields; cbn [req_host req_path req_username] in *.
    rewrite !Forall_cons. cbn [foldr field_line field_ok_opt].
    unfold field_ok, MAX_CREDENTIAL_BYTES, MAX_CREDENTIAL_FIELD_BYTES, MAX_ORIGIN_BYTES in *.
    intros (_ & _ & Hp & Hu & _).
    destruct p as [p|], u as [u|]; rewrite ?str_len_app; cbn [str_len];
      change (len_utf8 61) with 1; change (str_len ($"host")) with 4;
      change (str_len ($"protocol")) with 8; change (str_len ($"https")) with 5; lia.
Qed.

Lemma remove_absent k l : k ∉ l.*1 -> remove k (fields_of l) = (None, fields_of l).
Proof. intros Hk%fields_of_lookup_None. unfold remove. by rewrite Hk, delete_id. Qed.

Lemma parse_expiry_Ok o e :
  parse_expiry o = Ok e -> (forall n, e = Some n -> n <= MAX_U64).
Proof.
  unfold parse_expiry. intros H n ->. destruct o as [v|]; [|done]. destruct (_ || _) in H; [done|].
  destruct (parse_uint MAX_U64 v) eqn:E; cbn [ok_or] in H; [|done]. injection H as ->.
  by apply parse_uint_bound in E.
Qed.

Lemma parse_expiry_print e :
  (forall n, e = Some n -> n <= MAX_U64) -> parse_expiry (option_map to_string e) = Ok e.
Proof.
  intros He. destruct e as [n|]; [|done]. specialize (He n eq_refl).
  destruct (to_string_spec n) as (Hne & Hd & _). unfold parse_expiry. cbn [option_map].
  rewrite bool_decide_eq_false_2 by done. apply forallb_Forall in Hd. rewrite Hd. cbn [negb orb].
  by rewrite parse_to_string.
Qed.

Lemma response_parse_Some bytes request now res :
  response_parse Url_parse bytes request now = Ok (Some res) ->
  field_ok ($"username") (res_username res) /\ field_ok ($"password") (res_password res) /\
  (forall e, res_expires_at res = Some e -> now < e <= MAX_U64) /\
  (forall u, req_username request = Some u -> u = res_username res).
Proof.
  unfold response_parse. intros H. destruct (parse_fields bytes) as [m|] eqn:Em; [|done].
  unfold remove in H. destruct (_ || _) in H; [done|].
  rewrite !lookup_delete_ne in H by by_decision.
  destruct (parse_expiry _) as [e|] eqn:Ee; [|done]. destruct (negb _) in H; [done|].
  destruct (is_some_and _ e) eqn:Ex in H; [done|].
  destruct (m !! $"username") as [u|] eqn:Eu; [|done].
  destruct (m !! $"password") as [p|] eqn:Ep; [|done].
  destruct (is_some_and _ (req_username request)) eqn:Er in H; [done|]. injection H as <-.
  cbn [res_username res_password res_expires_at].
  split_and!; [by eapply parse_fields_Ok..| |].
  - intros n ->. split; [|by eapply parse_expiry_Ok]. simpl in Ex. by prop_of_bool.
  - intros u' Eq. rewrite Eq in Er. simpl in Er. by apply negb_false_iff, str_eqb_true in Er.
Qed.

Lemma response_fields_ok res :
  field_ok ($"username") (res_username res) -> field_ok ($"password") (res_password res) ->
  (forall e, res_expires_at res = Some e -> e <= MAX_U64) ->
  parse_fields (response_write_private res []) = Ok (fields_of (response_fields res)).
Proof.
  intros Hu Hp He. rewrite response_write_text.
  assert (Hdig : forall e, res_expires_at res = Some e -> lenN (to_string e) <= 20)
    by (intros e Ee; apply to_string_len; [|lia]; specialize (He e Ee); unfold MAX_U64 in He; lia).
  assert (Hasc : forall e, str_len (to_string e) = lenN (to_string e)).
  { intros e. apply str_len_ascii. destruct (to_string_spec e) as (_ & Hd & _).
    eapply Forall_impl; [exact Hd|]. intros c Hc%digit_range. lia. }
  destruct res as [u p [e|]]; unfold response_fields;
    cbn [res_username res_password res_expires_at option_map] in *.
  all: apply parse_fields_body; [|by_decision|simpl; lia|].
  - repeat apply List.Forall_cons; [done..| |apply List.Forall_nil]. cbn [field_ok_opt].
    specialize (Hdig e eq_refl). destruct (to_string_spec e) as (_ & Hd & _).
    assert (Hd2 : Forall (fun c => is_control c = false) (to_string e)
              /\ Forall (fun c => is_scalar c = true) (to_string e)).
    { split; (eapply Forall_impl; [exact Hd|]); intros c Hc%digit_range.
      - unfold is_control. rewrite orb_false_iff, !in_range_false. lia.
      - apply is_scalar_true. lia. }
    unfold field_ok, valid_str. rewrite !Forall_app. rewrite Hasc.
    unfold MAX_CREDENTIAL_FIELD_BYTES. change (str_len ($"password_expiry_utc")) with 19.
    destruct Hd2. split_and!; [done|by_decision|by repeat constructor|done|by repeat constructor|done|lia].
  - rewrite body_text_len. cbn [foldr field_line]. rewrite !str_len_app. cbn [str_len].
    rewrite Hasc. specialize (Hdig e eq_refl).
    destruct Hu as (_ & _ & _ & _ & Hu). destruct Hp as (_ & _ & _ & _ & Hp).
    change (len_utf8 61) with 1. unfold MAX_CREDENTIAL_FIELD_BYTES, MAX_CREDENTIAL_BYTES in *.
    change (str_len ($"password_expiry_utc")) with 19. lia.
  - by repeat apply List.Forall_cons.
  - rewrite body_text_len. cbn [foldr field_line]. rewrite !str_len_app. cbn [str_len].
    destruct Hu as (_ & _ & _ & _ & Hu). destruct Hp as (_ & _ & _ & _ & Hp).
    change (len_utf8 61) with 1. unfold MAX_CREDENTIAL_FIELD_BYTES, MAX_CREDENTIAL_BYTES in *. lia.
Qed.

(** a released credential is current, belongs to the requested account and survives
    its transport.  If host Git's output parses to a response at time [now], the response
    has not expired at [now], carries the user name the request named if it named one, and
    its encoding parses back to it at every [later] time until it expires, after which it
    parses to no credential at all. *)
Theorem response_release bytes request now res :
  response_parse Url_parse bytes request now = Ok (Some res) ->
  is_current res now = true /\
  (forall u, req_username request = Some u -> res_username res = u) /\
  (forall later, response_parse Url_parse (response_write_private res []) request later =
     Ok (if is_current res later then Some res else None)).
Proof.
  intros H. apply response_parse_Some in H as (Hu & Hp & He & Hr). split_and!.
  - unfold is_current. destruct (res_expires_at res) as [e|]; [|done]. apply N.ltb_lt. by apply He.
  - intros u Eq. symmetry. by apply Hr.
  - intros later. unfold response_parse. rewrite response_fields_ok by (try done; intros e Ee; by apply He).
    unfold response_fields. rewrite !remove_absent by by_decision. cbn [is_some_and orb].
    do 3 (rewrite remove_cons by by_decision).
    rewrite parse_expiry_print by (intros e Ee; by apply He).
    change (fields_of []) with (∅ : fields). rewrite bool_decide_eq_true_2 by done. cbn [negb].
    assert (Hr' : is_some_and (fun expected => negb (str_eqb expected (res_username res)))
              (req_username request) = false).
    { destruct (req_username request) as [u|]; [|done]. simpl. rewrite (Hr u eq_refl).
      by rewrite str_eqb_refl. }
    rewrite Hr'. unfold is_current. destruct res as [u p [e|]]; cbn [is_some_and res_expires_at]; [|done].
    destruct (N.leb_spec e later), (N.ltb_spec later e); try lia; done.
Qed.
End requests.

Definition sample_request : GitCredentialRequest :=
  mkRequest (mkHttpsOrigin ($"https://github.com:443")) ($"github.com:443") (Some ($"a/b"))
    (Some ($"alice")).

Lemma request_roundtrip_witness :
  request_parse sample_url_parse (request_write_private sample_request []) = Ok sample_request.
Proof.
  apply (request_roundtrip sample_url_parse
    ($"host=github.com:443" ++ [10] ++ $"username=alice" ++ [10] ++ $"path=a/b" ++ [10]
     ++ $"protocol=https" ++ [10])).
  vm_compute. reflexivity.
Defined.

Lemma response_release_witness :
  is_current (mkResponse ($"alice") ($"token") (Some 100)) 99 = true.
Proof.
  apply (response_release sample_url_parse
    ($"username=alice" ++ [10] ++ $"password=token" ++ [10] ++ $"password_expiry_utc=0100" ++ [10])
    sample_request 99).
  vm_compute. reflexivity.
Defined.
