(* ===== verification/LivePolicy.v ===== *)
(** * LivePolicy: the credential authority that the supervisor holds
    ([cdenv-cli/src/forwarding.rs], [LiveCredentialBackend] and its policy; the selection of
    [cdenv-cli/src/host_ssh_agent.rs])

    An authenticated control request replaces the grants under a revision; each capability has an
    epoch, the revision that changed it last, which the broker compares before it releases a
    result.  The lock around the policy is never poisoned, since nothing panics while it is held,
    so its error branches are not modelled.  The Git adapter and the connection to the agent are
    behind [HostBroker]. *)

From S2P Require Import Prelude Text Utf8 Net Identity Workspace Credentials CredentialProtocol BrokerFrame Leases.

#[export] Instance CredentialGrants_eq_dec : EqDecision CredentialGrants.
Proof. solve_decision. Defined.

(** ** The policy *)

(** @src cdenv-cli/src/forwarding.rs:598-604 LiveCredentialPolicy *)
Record LiveCredentialPolicy : Type := mkPolicy {
  lp_revision : N;
  lp_grants : CredentialGrants;
  lp_https_epoch : N;
  lp_agent_epoch : N;
  lp_identity_epoch : N;
}.

#[export] Instance LiveCredentialPolicy_eq_dec : EqDecision LiveCredentialPolicy.
Proof. solve_decision. Defined.

(** The new policy and the acknowledged revision; on an error the policy is unchanged.
    @src cdenv-cli/src/forwarding.rs:661-689 LiveCredentialBackend::reconcile *)
Definition reconcile (policy : LiveCredentialPolicy) (revision : N) (grants : CredentialGrants) :
    result str (LiveCredentialPolicy * N) :=
  let? _ := map_err (fun _ => $"invalid credential grants") (validate_grants grants) in
  fail_if revision =? 0 with $"invalid credential revision" in
  fail_if (revision <? lp_revision policy)
          || ((revision =? lp_revision policy) && negb (bool_decide (grants = lp_grants policy)))
    with $"stale or conflicting credential revision" in
  let changed {X : Type} `{EqDecision X} (part : CredentialGrants -> X) (epoch : N) : N :=
    if negb (bool_decide (part (lp_grants policy) = part grants)) then revision else epoch in
  let policy := mkPolicy revision grants (changed git_https (lp_https_epoch policy))
    (changed ssh_agent (lp_agent_epoch policy)) (changed (fun g => enabled g GitIdentity) (lp_identity_epoch policy)) in
  Ok (policy, lp_revision policy).

(** ** The backend *)

(** @src cdenv-cli/src/host_ssh_agent.rs:94-96 SelectedHostSshAgent *)
Record SelectedHostSshAgent : Type := mkSelected { selected_path : str }.

(** [environment] is the value of [SSH_AUTH_SOCK] where it is UTF-8.
    @src cdenv-cli/src/host_ssh_agent.rs:108-136 SelectedHostSshAgent::resolve_for_mutation *)
Definition resolve_for_mutation (selector : SshAgentSelector) (environment : option str) : option SelectedHostSshAgent :=
  match explicit_path selector with
  | Some path => Some (mkSelected path)
  | None =>
      match environment with
      | None | Some [] => None
      | Some text =>
          match selector_from_str text with
          | Ok parsed => mkSelected <$> explicit_path parsed
          | Err _ => None
          end
      end
  end.

(** The Git adapter is an input of the lookup in [HostBroker].
    @src cdenv-cli/src/forwarding.rs:608-615 LiveCredentialBackend *)
Record LiveCredentialBackend : Type := mkBackend {
  lb_lease : CredentialLeaseIdentity;
  lb_policy : LiveCredentialPolicy;
  lb_ready : bool;
  lb_ssh_agent : option SelectedHostSshAgent;
}.

(** @src cdenv-cli/src/forwarding.rs:618-652 LiveCredentialBackend::new *)
Definition backend_new (lease : CredentialLeaseIdentity) (grants : CredentialGrants) (environment : option str) : LiveCredentialBackend :=
  let agent := selector ← ssh_agent grants; resolve_for_mutation selector environment in
  mkBackend lease (mkPolicy (grant_revision lease) grants (grant_revision lease) (grant_revision lease) (grant_revision lease)) false agent.

Definition with_policy (b : LiveCredentialBackend) (policy : LiveCredentialPolicy) : LiveCredentialBackend :=
  mkBackend (lb_lease b) policy (lb_ready b) (lb_ssh_agent b).

(** @src cdenv-cli/src/forwarding.rs:691-693 LiveCredentialBackend::revision *)
Definition backend_revision (b : LiveCredentialBackend) : N := lp_revision (lb_policy b).

(** Every field but the revision of the grants.
    @src cdenv-cli/src/forwarding.rs:695-706 LiveCredentialBackend::exact_lease *)
Definition backend_exact_lease (b : LiveCredentialBackend) (identity : CredentialLeaseIdentity) : bool :=
  let l := lb_lease b in
  bool_decide (installation identity = installation l) && bool_decide (workspace identity = workspace l)
  && bool_decide (workspace_receipt identity = workspace_receipt l) && bool_decide (container identity = container l)
  && bool_decide (generation identity = generation l) && bool_decide (user identity = user l)
  && bool_decide (host_build identity = host_build l) && bool_decide (agent_build identity = agent_build l)
  && bool_decide (agent_protocol identity = agent_protocol l) && bool_decide (broker_protocol identity = broker_protocol l).

(** @src cdenv-cli/src/forwarding.rs:710-713 LiveCredentialBackend::transport_ready *)
Definition transport_ready (b : LiveCredentialBackend) : LiveCredentialBackend :=
  mkBackend (lb_lease b) (lb_policy b) true (lb_ssh_agent b).

(** The capability that an operation needs. *)
Definition operation_capability (operation : BrokerFrameKind) : option CredentialCapability :=
  match operation with
  | CredentialLookup => Some GitHttps
  | AgentOpen => Some SshAgent
  | IdentityRequest => Some GitIdentity
  | _ => None
  end.

(** @src cdenv-cli/src/forwarding.rs:715-735 LiveCredentialBackend::is_authorized *)
Definition is_authorized (b : LiveCredentialBackend) (identity : CredentialLeaseIdentity) (operation : BrokerFrameKind) : bool :=
  if negb (backend_exact_lease b identity) then false else
  match operation with
  | CredentialLookup => enabled (lp_grants (lb_policy b)) GitHttps
  | AgentOpen => enabled (lp_grants (lb_policy b)) SshAgent
  | IdentityRequest => enabled (lp_grants (lb_policy b)) GitIdentity
  | _ => false
  end.

(** @src cdenv-cli/src/forwarding.rs:737-746 LiveCredentialBackend::authorization_epoch *)
Definition authorization_epoch (b : LiveCredentialBackend) (operation : BrokerFrameKind) : N :=
  match operation with
  | CredentialLookup => lp_https_epoch (lb_policy b)
  | AgentOpen => lp_agent_epoch (lb_policy b)
  | IdentityRequest => lp_identity_epoch (lb_policy b)
  | _ => MAX_U64
  end.

(** The lookup up to its call of the host's Git: the request, if the policy allows its origin.
    @src cdenv-cli/src/forwarding.rs:748-758 LiveCredentialBackend::credential_lookup *)
Definition lookup_begin (Url_parse : str -> option Url) (b : LiveCredentialBackend) (body : list N) : option GitCredentialRequest :=
  match request_parse Url_parse body with
  | Err _ => None
  | Ok request => if allows (lp_grants (lb_policy b)) (req_origin request) then Some request else None
  end.

(** The rest: [outcome] is what Git answered, [None] for an error or no credential.
    @src cdenv-cli/src/forwarding.rs:761-782 LiveCredentialBackend::credential_lookup *)
Definition lookup_finish (b : LiveCredentialBackend) (request : GitCredentialRequest) (outcome : option GitCredentialResponse) (now : N) :
    option (list N) :=
  match outcome with
  | None => None
  | Some response =>
      if negb (allows (lp_grants (lb_policy b)) (req_origin request)) || negb (is_current response now) then None
      else Some (response_write_private response [])
  end.

(** ** Histories of the policy *)

(** One control request, and a sequence of them. *)
Definition policy_step (policy : LiveCredentialPolicy) (call : N * CredentialGrants) : LiveCredentialPolicy :=
  match reconcile policy call.1 call.2 with Ok (policy', _) => policy' | Err _ => policy end.
Definition policy_after (policy : LiveCredentialPolicy) (calls : list (N * CredentialGrants)) : LiveCredentialPolicy :=
  fold_left policy_step calls policy.

Definition epoch_of (policy : LiveCredentialPolicy) (c : CredentialCapability) : N :=
  match c with
  | GitHttps => lp_https_epoch policy
  | SshAgent => lp_agent_epoch policy
  | GitIdentity => lp_identity_epoch policy
  end.

(** An epoch is a revision that the policy had. *)
Definition policy_ok (policy : LiveCredentialPolicy) : Prop :=
  0 < lp_revision policy /\ forall c, epoch_of policy c <= lp_revision policy.

Lemma authorization_epoch_of b operation c : operation_capability operation = Some c -> authorization_epoch b operation = epoch_of (lb_policy b) c.
Proof. by destruct operation; intros [= <-]. Qed.

Lemma backend_new_ok lease grants environment : grant_revision lease <> 0 -> policy_ok (lb_policy (backend_new lease grants environment)).
Proof. intros Hr. split; cbn; [lia|]. intros []; cbn; lia. Qed.

(** The new epoch of a capability: the revision if the capability changed. *)
Lemma reconcile_Ok policy revision grants policy' acknowledged :
  reconcile policy revision grants = Ok (policy', acknowledged) ->
  acknowledged = revision /\ lp_revision policy' = revision /\ lp_grants policy' = grants /\ revision <> 0 /\
  lp_revision policy <= revision /\ (revision = lp_revision policy -> grants = lp_grants policy) /\
  forall c, epoch_of policy' c = if bool_decide (authority_of (lp_grants policy) c = authority_of grants c) then epoch_of policy c else revision.
Proof.
  unfold reconcile. destruct (validate_grants grants); cbn [map_err]; [|done].
  destruct (N.eqb_spec revision 0) as [|Hz]; [done|]. destruct (_ || _) eqn:Ec; [done|]. intros [= <- <-].
  apply orb_false_iff in Ec as [Hlt%N.ltb_ge Hsame]. cbn [lp_revision lp_grants]. split_and!; try done.
  - intros ->. rewrite N.eqb_refl in Hsame. cbn in Hsame. apply negb_false_iff, bool_decide_eq_true in Hsame. done.
  - intros []; cbn [epoch_of lp_https_epoch lp_agent_epoch lp_identity_epoch authority_of enabled]; repeat case_bool_decide; cbn [negb]; congruence.
Qed.

Lemma policy_step_ok policy call : policy_ok policy -> policy_ok (policy_step policy call).
Proof.
  intros [Hp He]. unfold policy_step. destruct (reconcile policy call.1 call.2) as [[policy' a]|] eqn:Er; [|done].
  apply reconcile_Ok in Er as (_ & Hr & _ & Hz & Hle & _ & Hep). split; [lia|]. intros c. specialize (He c). rewrite Hep, Hr. case_bool_decide; lia.
Qed.

Lemma policy_after_ok calls : forall policy, policy_ok policy -> policy_ok (policy_after policy calls).
Proof. unfold policy_after. induction calls as [|call calls IH]; intros policy Hp; [done|]. by apply IH, policy_step_ok. Qed.

(** One step: the revision never falls, an epoch that moves grows, and it moves with its capability. *)
Lemma policy_step_epoch policy call c :
  policy_ok policy ->
  lp_revision policy <= lp_revision (policy_step policy call) /\ epoch_of policy c <= epoch_of (policy_step policy call) c /\
  (epoch_of (policy_step policy call) c = epoch_of policy c -> authority_of (lp_grants (policy_step policy call)) c = authority_of (lp_grants policy) c) /\
  (lp_revision (policy_step policy call) = lp_revision policy -> policy_step policy call = policy).
Proof.
  intros [Hp He]. specialize (He c). unfold policy_step. destruct (reconcile policy call.1 call.2) as [[policy' a]|] eqn:Er; [|done].
  assert (Er' := Er). apply reconcile_Ok in Er as (_ & Hr & Hg & Hz & Hle & Hsame & Hep). rewrite Hr, Hg. pose proof (Hep c) as Hc. rewrite Hc.
  split; [done|]. split; [case_bool_decide; lia|]. split.
  - case_bool_decide as Ha; [done|]. intros Heq. exfalso. destruct (decide (call.1 = lp_revision policy)) as [Hx|Hx]; [|lia].
    apply Ha. by rewrite (Hsame Hx).
  - intros Heq. specialize (Hsame Heq). destruct policy' as [rev gr e1 e2 e3], policy as [rev0 gr0 f1 f2 f3]. cbn in *. subst.
    pose proof (Hep GitHttps) as H1. pose proof (Hep SshAgent) as H2. pose proof (Hep GitIdentity) as H3. cbn in H1, H2, H3.
    rewrite !bool_decide_eq_true_2 in * by congruence. congruence.
Qed.

(** The order of policies along a history. *)
Lemma policy_after_epoch calls : forall policy c, policy_ok policy ->
  lp_revision policy <= lp_revision (policy_after policy calls) /\ epoch_of policy c <= epoch_of (policy_after policy calls) c.
Proof.
  unfold policy_after. induction calls as [|call calls IH]; intros policy c Hp; [done|]. cbn [fold_left].
  destruct (IH (policy_step policy call) c (policy_step_ok _ _ Hp)) as [H1 H2].
  destruct (policy_step_epoch policy call c Hp) as (H3 & H4 & _). lia.
Qed.

Lemma policy_after_app policy l1 l2 : policy_after policy (l1 ++ l2) = policy_after (policy_after policy l1) l2.
Proof. apply fold_left_app. Qed.

Lemma epoch_frozen calls : forall policy c, policy_ok policy -> epoch_of (policy_after policy calls) c = epoch_of policy c ->
  forall before after, calls = before ++ after -> authority_of (lp_grants (policy_after policy before)) c = authority_of (lp_grants policy) c.
Proof.
  induction calls as [|call calls IH]; intros policy c Hp Hep before after Heq.
  { symmetry in Heq. apply app_nil in Heq as [-> _]. done. }
  destruct before as [|call' before]; [done|]. injection Heq as <- ->.
  change (policy_after policy (call :: ?l)) with (policy_after (policy_step policy call) l) in *.
  destruct (policy_step_epoch policy call c Hp) as (_ & H2 & H3 & _).
  destruct (policy_after_epoch (before ++ after) (policy_step policy call) c (policy_step_ok _ _ Hp)) as [_ H4].
  assert (Hmid : epoch_of (policy_step policy call) c = epoch_of policy c) by lia.
  rewrite <- (H3 Hmid). eapply IH; [by apply policy_step_ok| |done]. congruence.
Qed.

Lemma policy_after_same calls : forall policy, policy_ok policy ->
  lp_revision (policy_after policy calls) = lp_revision policy -> policy_after policy calls = policy.
Proof.
  induction calls as [|call calls IH]; intros policy Hp Heq; [done|].
  change (policy_after policy (call :: calls)) with (policy_after (policy_step policy call) calls) in *.
  destruct (policy_step_epoch policy call GitHttps Hp) as (H3 & _ & _ & H5).
  destruct (policy_after_epoch calls (policy_step policy call) GitHttps (policy_step_ok _ _ Hp)) as [H4 _].
  assert (Hs : policy_step policy call = policy) by (apply H5; lia). rewrite Hs in *. by apply IH.
Qed.

(** C30: the revision and the epochs of the live policy tell whether authority changed.  From the
    policy of a lease, after any control requests, valid or not: the revision never falls, and a
    policy with the same revision is the same policy; an epoch never falls; and as long as the
    epoch of a capability stays, what it grants (the origins, the agent selector, the identity) is
    the same at every moment in between, so a revocation and a later grant of the same authority
    cannot hide behind an old epoch. *)
Theorem live_policy_epochs lease grants environment calls1 calls2 c :
  validate lease = Ok tt ->
  let initial := lb_policy (backend_new lease grants environment) in
  let p1 := policy_after initial calls1 in
  let p2 := policy_after initial (calls1 ++ calls2) in
  lp_revision p1 <= lp_revision p2 /\ (lp_revision p2 = lp_revision p1 -> p2 = p1) /\
  epoch_of p1 c <= epoch_of p2 c /\ epoch_of p2 c <= lp_revision p2 /\
  (epoch_of p2 c = epoch_of p1 c -> forall before after, calls2 = before ++ after ->
     authority_of (lp_grants (policy_after initial (calls1 ++ before))) c = authority_of (lp_grants p1) c).
Proof.
  intros Hv initial p1 p2. assert (Hrev : grant_revision lease <> 0).
  { intros Hz. unfold validate in Hv. rewrite Hz in Hv. destruct (_ && _); done. }
  assert (H1 : policy_ok p1) by (by apply policy_after_ok, backend_new_ok).
  unfold p2. rewrite policy_after_app. fold p1. destruct (policy_after_epoch calls2 p1 c H1) as [Hr He].
  split; [done|]. split; [|split; [done|split]].
  - by apply policy_after_same.
  - by apply (policy_after_ok calls2 p1 H1).
  - intros Heq before after ->. rewrite policy_after_app. fold p1. by eapply epoch_frozen.
Qed.

(** ** A lease and its requests *)

Definition policy_lease (revision : N) : CredentialLeaseIdentity :=
  mkLeaseIdentity (mkInstallationId ($"installation-1")) (mkWorkspaceName ($"workspace")) ($"0123456789abcdef")
    (mkContainerId (repeat 97 64)) (mkGenerationId 1) (mkUser 1000 1000) (mkAgentBuildId ($"build-1")) (mkAgentBuildId ($"build-1"))
    (mkProtocolVersion 1) CREDENTIAL_BROKER_PROTOCOL revision.
Definition agent_grants (path : str) : CredentialGrants := mkGrants None (Some (mkSelector path)) false.

Lemma live_policy_epochs_witness :
  let initial := lb_policy (backend_new (policy_lease 3) (agent_grants ($"auto")) None) in
  let p2 := policy_after initial [(4, default_grants); (4, agent_grants ($"auto")); (5, agent_grants ($"auto")); (2, default_grants)] in
  lp_revision p2 = 5 /\ epoch_of p2 SshAgent = 5 /\ lp_revision initial <= lp_revision p2 /\ epoch_of p2 SshAgent <= lp_revision p2.
Proof.
  destruct (live_policy_epochs (policy_lease 3) (agent_grants ($"auto")) None []
    [(4, default_grants); (4, agent_grants ($"auto")); (5, agent_grants ($"auto")); (2, default_grants)] SshAgent eq_refl) as (H1 & _ & _ & H2 & _).
  split; [by vm_compute|]. split; [by vm_compute|]. split; [exact H1|exact H2].
Defined.

(** The agent that [connect_agent] connects to is the one selected when the backend was made.
    @src cdenv-cli/src/forwarding.rs:784-794 LiveCredentialBackend::connect_agent *)
Definition connect_agent (b : LiveCredentialBackend) : option SelectedHostSshAgent := lb_ssh_agent b.

(** A request that moves the grant to another agent is acknowledged, and connections still go to
    the agent whose grant it replaced. *)
Lemma moved_grant_keeps_agent :
  let b := backend_new (policy_lease 3) (agent_grants ($"/run/first")) None in
  exists policy, reconcile (lb_policy b) 4 (agent_grants ($"/run/second")) = Ok (policy, 4) /\
    ssh_agent (lp_grants policy) = Some (mkSelector ($"/run/second")) /\
    is_authorized (with_policy b policy) (policy_lease 3) AgentOpen = true /\
    connect_agent (with_policy b policy) = Some (mkSelected ($"/run/first")).
Proof. eexists. split; [vm_compute; reflexivity|]. split_and!; vm_compute; reflexivity. Qed.
