(* ===== verification/HostBroker.v ===== *)
(** * HostBroker: the host's end of the credential bridge
    ([cdenv-cli/src/credential_broker.rs])

    One task runs a select loop over three branches (a finished task, a queued frame, the frame
    being read), and spawned tasks run lookups and relay packets of the SSH agent.  The model is an
    interleaving: [step] takes one choice of the scheduler or of the environment, at the grain of
    the accesses that tasks share: the reads of the policy, the queue, the byte permits, the map of
    agent streams.  Control requests change the policy between any two of them; where one
    expression reads the policy twice, a choice carries the requests that come in between.

    A branch of [tokio::select!] that is not taken is dropped: the bytes that a pending
    [read_frame] has taken from the transport are lost ([hs_partial]).  Semaphores and channels
    wait in no particular order. *)

From S2P Require Import Prelude Text Utf8 Net Identity Workspace Credentials CredentialProtocol BrokerFrame Admission Leases LivePolicy.

(** @src cdenv-cli/src/credential_broker.rs:59-75 HostCredentialBrokerError *)
Inductive HostCredentialBrokerError : Type :=
| Host_Protocol (error : BrokerProtocolError) | Host_Io | Host_Timeout | Host_Saturated | Host_Identity.

(** @src cdenv-core/src/credential_broker.rs:30-30 MAX_BROKER_HELPERS *)
Definition MAX_BROKER_HELPERS : N := 4.
(** @src cdenv-core/src/credential_broker.rs:32-32 MAX_BROKER_RETRIES *)
Definition MAX_BROKER_RETRIES : N := 3.

(** The delay in milliseconds.
    @src cdenv-cli/src/credential_broker.rs:432-444 credential_retry_delay *)
Definition credential_retry_delay (attempt : N) : option N :=
  if MAX_BROKER_RETRIES <=? attempt then None else
  if MAX_U32 <? attempt then None else
  let multiplier := if attempt <? 32 then N.shiftl 1 attempt else MAX_U32 in
  Some (N.min (100 * multiplier) 2000).

(** @src cdenv-cli/src/credential_broker.rs:331-341 validate_agent_packet *)
Definition validate_agent_packet (packet : list N) : result BrokerProtocolError unit :=
  match packet with
  | b0 :: b1 :: b2 :: b3 :: rest =>
      let body := from_be_bytes_u32 b0 b1 b2 b3 in
      fail_if (body =? 0) || negb (body + 4 =? lenN packet) with Framing in Ok tt
  | _ => Err Framing
  end.

(** ** Reading a frame *)

(** What the pending [read_frame] wants next, given the bytes it has: the first byte, the rest of the
    header, the payload; [None] when it has a frame or an invalid header.
    @src cdenv-cli/src/credential_broker.rs:390-415 read_frame *)
Definition frame_needs (partial : list N) : option N :=
  let have := lenN partial in
  if have =? 0 then Some 1
  else if have <? HEADER_BYTES then Some (HEADER_BYTES - have)
  else match parse_header (take 16 partial) with
       | Err _ => None
       | Ok (_, _, length) => if have - HEADER_BYTES <? length then Some (length - (have - HEADER_BYTES)) else None
       end.

(** The frame that was read.
    @src cdenv-cli/src/credential_broker.rs:406-414 read_frame *)
Definition frame_read (partial : list N) : result BrokerProtocolError BrokerFrame :=
  let? (k, sid, _) := parse_header (take 16 partial) in
  frame_new k sid (drop 16 partial).

(** ** The state *)

(** The permit is [frame_amount] of the byte semaphore.
    @src cdenv-cli/src/credential_broker.rs:343-347 QueuedFrame *)
Record QueuedFrame : Type := mkQueued {
  qf_frame : BrokerFrame;
  qf_authorization : option (BrokerFrameKind * N);
}.

(** @src cdenv-cli/src/credential_broker.rs:362-363 send_queued_scoped *)
Definition frame_amount (f : BrokerFrame) : N := N.max (lenN (payload f)) 1.

(** The two waits of [send_queued_scoped]: for permits, then for a place in the channel.
    @src cdenv-cli/src/credential_broker.rs:364-376 send_queued_scoped *)
Inductive Sending : Type := Acquiring (q : QueuedFrame) | Pushing (q : QueuedFrame).

(** The points of a lookup task.
    @src cdenv-cli/src/credential_broker.rs:155-173 serve_host_credential_broker *)
Inductive LookupPhase : Type :=
| LK_Start (body : list N)
| LK_Asked (request : GitCredentialRequest)
| LK_Answered (payload : list N)
| LK_Send (sending : Sending).

(** The points of a relay task: in [relay_agent], then after it returned.
    @src cdenv-cli/src/credential_broker.rs:253-329 relay_agent *)
Inductive RelayPhase : Type :=
| RL_Wait
| RL_Reply (epoch : N)
| RL_Got (epoch : N) (response : list N)
| RL_Send (sending : Sending) (returns : bool)
| RL_Closing (sending : Sending)
| RL_Remove.

Inductive Task : Type :=
| Task_Lookup (stream : N) (epoch : N) (phase : LookupPhase)
| Task_Relay (stream : N) (inbox : list BrokerFrame) (phase : RelayPhase)
| Task_Finished.

(** Where the select loop is: waiting for a branch, or inside one. *)
Inductive Loop : Type :=
| Loop_Select
| Loop_Send (sending : Sending)
| Loop_Identity (stream : N) (epoch : N)
| Loop_Answered (stream : N) (epoch : N) (payload : list N)
| Loop_Connect (stream : N)
| Loop_Forward (channel : nat) (frame : BrokerFrame)
| Loop_Stopped (result : result HostCredentialBrokerError unit).

Record HostState : Type := mkHost {
  hs_calls : list (N * CredentialGrants);
  hs_ready : bool;
  hs_unread : list N;
  hs_partial : list N;
  hs_loop : Loop;
  hs_queue : list QueuedFrame;
  hs_permits : N;
  hs_tasks : gmap nat Task;
  hs_inputs : gmap N nat;
  hs_written : list BrokerFrame;
}.

Definition set_loop (s : HostState) (l : Loop) : HostState :=
  mkHost (hs_calls s) (hs_ready s) (hs_unread s) (hs_partial s) l (hs_queue s) (hs_permits s) (hs_tasks s) (hs_inputs s) (hs_written s).
Definition set_calls (s : HostState) (more : list (N * CredentialGrants)) : HostState :=
  mkHost (hs_calls s ++ more) (hs_ready s) (hs_unread s) (hs_partial s) (hs_loop s) (hs_queue s) (hs_permits s) (hs_tasks s) (hs_inputs s) (hs_written s).
Definition set_bytes (s : HostState) (unread partial : list N) : HostState :=
  mkHost (hs_calls s) (hs_ready s) unread partial (hs_loop s) (hs_queue s) (hs_permits s) (hs_tasks s) (hs_inputs s) (hs_written s).
Definition set_queue (s : HostState) (queue : list QueuedFrame) (permits : N) : HostState :=
  mkHost (hs_calls s) (hs_ready s) (hs_unread s) (hs_partial s) (hs_loop s) queue permits (hs_tasks s) (hs_inputs s) (hs_written s).
Definition set_tasks (s : HostState) (tasks : gmap nat Task) (inputs : gmap N nat) : HostState :=
  mkHost (hs_calls s) (hs_ready s) (hs_unread s) (hs_partial s) (hs_loop s) (hs_queue s) (hs_permits s) tasks inputs (hs_written s).
Definition set_written (s : HostState) (written : list BrokerFrame) : HostState :=
  mkHost (hs_calls s) (hs_ready s) (hs_unread s) (hs_partial s) (hs_loop s) (hs_queue s) (hs_permits s) (hs_tasks s) (hs_inputs s) written.
Definition set_ready (s : HostState) : HostState :=
  mkHost (hs_calls s) true (hs_unread s) (hs_partial s) (hs_loop s) (hs_queue s) (hs_permits s) (hs_tasks s) (hs_inputs s) (hs_written s).

Definition is_lookup (t : Task) : N := match t with Task_Lookup _ _ _ => 1 | _ => 0 end.
Definition is_relay (t : Task) : N := match t with Task_Relay _ _ _ => 1 | _ => 0 end.
(** The sum of a weight over the tasks. *)
Definition task_sum (f : Task -> N) (m : gmap nat Task) : N := sumN (List.map (fun '(_, t) => f t) (map_to_list m)).

(** ** Steps *)

(** What can happen to a task. *)
Inductive TaskChoice : Type :=
| TC_Begin
| TC_Git (outcome : option GitCredentialResponse) (now : N)
| TC_Check
| TC_Timeout
| TC_Revoked (between : list (N * CredentialGrants))
| TC_Receive (delivered : bool)
| TC_Tick
| TC_Closed
| TC_Packet (response : option (list N))
| TC_Send
| TC_Remove.

Inductive Choice : Type :=
| Ch_Arrive (bytes : list N)
| Ch_Control (call : N * CredentialGrants)
| Ch_Read (count : N)
| Ch_End
| Ch_Idle
| Ch_Dispatch (between : list (N * CredentialGrants)) (id : nat)
| Ch_Join (id : nat)
| Ch_Write (between : list (N * CredentialGrants)) (written : bool)
| Ch_Send
| Ch_Identity (metadata : option (list N))
| Ch_IdentityRevoked (between : list (N * CredentialGrants))
| Ch_IdentityCheck
| Ch_Connect (connected : bool) (id : nat)
| Ch_Forward
| Ch_Task (id : nat) (choice : TaskChoice).

Section broker.
Context (Url_parse : str -> option Url) (initial : LiveCredentialBackend) (expected : CredentialLeaseIdentity).

(** The backend after the control requests so far. *)
Definition backend_at (calls : list (N * CredentialGrants)) : LiveCredentialBackend :=
  with_policy initial (policy_after (lb_policy initial) calls).
Definition backend_of (s : HostState) : LiveCredentialBackend := backend_at (hs_calls s).
Definition authorized (s : HostState) (operation : BrokerFrameKind) : bool := is_authorized (backend_of s) expected operation.
Definition epoch_at (s : HostState) (operation : BrokerFrameKind) : N := authorization_epoch (backend_of s) operation.

Definition stop_loop (s : HostState) (r : result HostCredentialBrokerError unit) : HostState := set_loop s (Loop_Stopped r).

(** [send_queued(.., BrokerFrame::new(..)?)] in the loop.
    @src cdenv-cli/src/credential_broker.rs:348-354 send_queued *)
Definition loop_send (s : HostState) (k : BrokerFrameKind) (stream : N) (body : list N) (authorization : option (BrokerFrameKind * N)) : HostState :=
  match frame_new k stream body with
  | Err e => stop_loop s (Err (Host_Protocol e))
  | Ok f => set_loop s (Loop_Send (Acquiring (mkQueued f authorization)))
  end.
(** @src cdenv-cli/src/credential_broker.rs:378-389 send_error *)
Definition send_error (s : HostState) (stream : N) : HostState := loop_send s Error stream [] None.

(** Whether the check of [authority_revoked], or of a queued frame, fails: the epoch is read, then
    the authority.
    @src cdenv-cli/src/credential_broker.rs:237-251 authority_revoked *)
Definition revoked (s : HostState) (between : list (N * CredentialGrants)) (operation : BrokerFrameKind) (epoch : N) : bool :=
  negb (epoch_at s operation =? epoch) || negb (authorized (set_calls s between) operation).

(** The branch of an incoming frame, up to its first wait.  [between] are the requests between the
    two reads of the policy, [id] names the new task.
    @src cdenv-cli/src/credential_broker.rs:145-229 serve_host_credential_broker *)
Definition dispatch (s : HostState) (frame : BrokerFrame) (between : list (N * CredentialGrants)) (id : nat) : HostState :=
  let stream := stream_id frame in
  match kind frame with
  | CredentialLookup =>
      if negb (authorized s CredentialLookup) then send_error s stream else
      if MAX_BROKER_HELPERS <=? task_sum is_lookup (hs_tasks s) then stop_loop s (Err Host_Saturated) else
      let s := set_calls s between in
      set_tasks s (<[id := Task_Lookup stream (epoch_at s CredentialLookup) (LK_Start (payload frame))]> (hs_tasks s)) (hs_inputs s)
  | AgentOpen =>
      if negb (authorized s AgentOpen) then send_error s stream else
      if MAX_BROKER_STREAMS <=? task_sum is_relay (hs_tasks s) then send_error s stream else
      set_loop s (Loop_Connect stream)
  | StreamData | StreamClose | Cancel =>
      match hs_inputs s !! stream with
      | None => stop_loop s (Err (Host_Protocol UnknownStream))
      | Some channel => set_loop s (Loop_Forward channel frame)
      end
  | IdentityRequest =>
      if negb (authorized s IdentityRequest) then send_error s stream else
      let s := set_calls s between in
      set_loop s (Loop_Identity stream (epoch_at s IdentityRequest))
  | Health => loop_send (set_ready s) HealthAck 0 [] None
  | Stop => stop_loop s (Ok tt)
  | _ => stop_loop s (Err (Host_Protocol Kind))
  end.

(** The branch of a queued frame: it is released only if its authority is the one it was admitted
    with.  The permit is returned in every case.
    @src cdenv-cli/src/credential_broker.rs:128-144 serve_host_credential_broker *)
Definition write_queued (s : HostState) (q : QueuedFrame) (rest : list QueuedFrame) (between : list (N * CredentialGrants)) (written : bool) : HostState :=
  let free := hs_permits s + frame_amount (qf_frame q) in
  let put (s : HostState) (f : BrokerFrame) :=
    if written then set_written (set_queue s rest free) (hs_written s ++ [f]) else stop_loop (set_queue s rest free) (Err Host_Io) in
  match qf_authorization q with
  | Some (operation, epoch) =>
      if revoked s between operation epoch then
        let k := if bool_decide (operation = AgentOpen) then StreamClose else Error in
        match frame_new k (stream_id (qf_frame q)) [] with
        | Err e => stop_loop (set_queue s rest free) (Err (Host_Protocol e))
        | Ok denied => put (set_calls s between) denied
        end
      else put (set_calls s between) (qf_frame q)
  | None => put s (qf_frame q)
  end.

(** One of the two waits of a sender; [None] while it cannot go on, [Some None] when the frame is queued. *)
Definition sending_step (s : HostState) (sending : Sending) : option (HostState * option Sending) :=
  match sending with
  | Acquiring q =>
      if frame_amount (qf_frame q) <=? hs_permits s
      then Some (set_queue s (hs_queue s) (hs_permits s - frame_amount (qf_frame q)), Some (Pushing q)) else None
  | Pushing q =>
      if lenN (hs_queue s) <? MAX_BROKER_QUEUED_FRAMES
      then Some (set_queue s (hs_queue s ++ [q]) (hs_permits s), None) else None
  end.

Definition put_task (s : HostState) (id : nat) (t : Task) : HostState := set_tasks s (<[id := t]> (hs_tasks s)) (hs_inputs s).

(** [if let Ok(response) = response { send_queued_scoped(..) }] at the end of a lookup. *)
Definition lookup_response (s : HostState) (id : nat) (stream epoch : N) (k : BrokerFrameKind) (body : list N) (authorization : option (BrokerFrameKind * N)) : HostState :=
  match frame_new k stream body with
  | Ok f => put_task s id (Task_Lookup stream epoch (LK_Send (Acquiring (mkQueued f authorization))))
  | Err _ => put_task s id Task_Finished
  end.

(** @src cdenv-cli/src/credential_broker.rs:155-173 serve_host_credential_broker *)
Definition lookup_step (s : HostState) (id : nat) (stream epoch : N) (phase : LookupPhase) (c : TaskChoice) : option HostState :=
  let failed s := lookup_response s id stream epoch Error [] None in
  match phase, c with
  | LK_Start body, TC_Begin =>
      Some (match lookup_begin Url_parse (backend_of s) body with
            | Some request => put_task s id (Task_Lookup stream epoch (LK_Asked request))
            | None => failed s
            end)
  | LK_Asked request, TC_Git outcome now =>
      Some (match lookup_finish (backend_of s) request outcome now with
            | Some body => put_task s id (Task_Lookup stream epoch (LK_Answered body))
            | None => failed s
            end)
  | LK_Start _, TC_Timeout | LK_Asked _, TC_Timeout => Some (failed s)
  | LK_Start _, TC_Revoked between | LK_Asked _, TC_Revoked between =>
      if revoked s between CredentialLookup epoch then Some (failed (set_calls s between)) else None
  | LK_Answered body, TC_Check =>
      Some (if authorized s CredentialLookup
            then lookup_response s id stream epoch CredentialResult body (Some (CredentialLookup, epoch)) else failed s)
  | LK_Send sending, TC_Send =>
      match sending_step s sending with
      | Some (s, Some sending) => Some (put_task s id (Task_Lookup stream epoch (LK_Send sending)))
      | Some (s, None) => Some (put_task s id Task_Finished)
      | None => None
      end
  | _, _ => None
  end.

(** [relay_agent] returned an error: the task sends a close frame before it leaves the map.
    @src cdenv-cli/src/credential_broker.rs:192-196 serve_host_credential_broker *)
Definition relay_failed (s : HostState) (id : nat) (stream : N) : HostState :=
  match frame_new StreamClose stream [] with
  | Ok f => put_task s id (Task_Relay stream [] (RL_Closing (Acquiring (mkQueued f None))))
  | Err _ => put_task s id (Task_Relay stream [] RL_Remove)
  end.

(** A frame that [relay_agent] sends; [returns] if it returns after it.
    @src cdenv-cli/src/credential_broker.rs:253-329 relay_agent *)
Definition relay_send (s : HostState) (id : nat) (stream : N) (inbox : list BrokerFrame) (k : BrokerFrameKind) (body : list N)
    (authorization : option (BrokerFrameKind * N)) (returns : bool) : HostState :=
  match frame_new k stream body with
  | Ok f => put_task s id (Task_Relay stream inbox (RL_Send (Acquiring (mkQueued f authorization)) returns))
  | Err _ => relay_failed s id stream
  end.

(** The frame taken from the channel; [delivered] is whether the agent took the packet, or the end of
    its input, in time.
    @src cdenv-cli/src/credential_broker.rs:272-327 relay_agent *)
Definition relay_receive (s : HostState) (id : nat) (stream : N) (inbox : list BrokerFrame) (frame : BrokerFrame) (delivered : bool) : HostState :=
  match kind frame with
  | StreamData =>
      if is_ok (validate_agent_packet (payload frame)) && delivered
      then put_task s id (Task_Relay stream inbox (RL_Reply (epoch_at s AgentOpen))) else relay_failed s id stream
  | StreamClose | Cancel =>
      if delivered then put_task s id (Task_Relay stream [] RL_Remove) else relay_failed s id stream
  | _ => relay_failed s id stream
  end.

(** The sender of the channel is in the map, or in the loop that uses it. *)
Definition channel_open (s : HostState) (id : nat) (stream : N) : bool :=
  bool_decide (hs_inputs s !! stream = Some id)
  || match hs_loop s with Loop_Forward channel _ => bool_decide (channel = id) | _ => false end.

(** @src cdenv-cli/src/credential_broker.rs:263-329 relay_agent *)
Definition relay_step (s : HostState) (id : nat) (stream : N) (inbox : list BrokerFrame) (phase : RelayPhase) (c : TaskChoice) : option HostState :=
  let close s := relay_send s id stream inbox StreamClose [] None true in
  match phase, c with
  | RL_Wait, TC_Receive delivered =>
      match inbox with frame :: rest => Some (relay_receive s id stream rest frame delivered) | [] => None end
  | RL_Wait, TC_Tick => Some (if authorized s AgentOpen then s else close s)
  | RL_Wait, TC_Closed =>
      if bool_decide (inbox = []) && negb (channel_open s id stream) then Some (relay_failed s id stream) else None
  | RL_Reply epoch, TC_Packet (Some response) => Some (put_task s id (Task_Relay stream inbox (RL_Got epoch response)))
  | RL_Reply _, TC_Packet None | RL_Reply _, TC_Timeout => Some (relay_failed s id stream)
  | RL_Reply epoch, TC_Revoked between =>
      if revoked s between AgentOpen epoch then Some (close (set_calls s between)) else None
  | RL_Got epoch response, TC_Check =>
      Some (if authorized s AgentOpen then relay_send s id stream inbox StreamData response (Some (AgentOpen, epoch)) false else close s)
  | RL_Send sending returns, TC_Send =>
      match sending_step s sending with
      | Some (s, Some sending) => Some (put_task s id (Task_Relay stream inbox (RL_Send sending returns)))
      | Some (s, None) => Some (put_task s id (if returns : bool then Task_Relay stream [] RL_Remove else Task_Relay stream inbox RL_Wait))
      | None => None
      end
  | RL_Closing sending, TC_Send =>
      match sending_step s sending with
      | Some (s, Some sending) => Some (put_task s id (Task_Relay stream [] (RL_Closing sending)))
      | Some (s, None) => Some (put_task s id (Task_Relay stream [] RL_Remove))
      | None => None
      end
  | RL_Remove, TC_Remove => Some (set_tasks s (<[id := Task_Finished]> (hs_tasks s)) (delete stream (hs_inputs s)))
  | _, _ => None
  end.

(** Whether a relay still receives: [relay_agent] has not returned. *)
Definition receives (phase : RelayPhase) : bool := match phase with RL_Closing _ | RL_Remove => false | _ => true end.

(** The channel of a stream holds eight frames. *)
Definition CHANNEL_FRAMES : N := 8.

(** [recipient.send(frame).await]: it fails when the receiver is gone.
    @src cdenv-cli/src/credential_broker.rs:201-202 serve_host_credential_broker *)
Definition forward_step (s : HostState) (channel : nat) (frame : BrokerFrame) : option HostState :=
  match hs_tasks s !! channel with
  | Some (Task_Relay stream inbox phase) =>
      if receives phase then
        if lenN inbox <? CHANNEL_FRAMES
        then Some (set_loop (put_task s channel (Task_Relay stream (inbox ++ [frame]) phase)) Loop_Select) else None
      else Some (stop_loop s (Err (Host_Protocol UnknownStream)))
  | _ => Some (stop_loop s (Err (Host_Protocol UnknownStream)))
  end.

(** After [connect_agent]: the sender is put in the map before the test whether one was there.
    @src cdenv-cli/src/credential_broker.rs:181-198 serve_host_credential_broker *)
Definition connect_step (s : HostState) (stream : N) (connected : bool) (id : nat) : HostState :=
  if negb connected then send_error s stream else
  let inputs := <[stream := id]> (hs_inputs s) in
  if bool_decide (is_Some (hs_inputs s !! stream)) then send_error (set_tasks s (hs_tasks s) inputs) stream
  else set_loop (set_tasks s (<[id := Task_Relay stream [] RL_Wait]> (hs_tasks s)) inputs) Loop_Select.

Definition fresh_task (s : HostState) (id : nat) : bool := bool_decide (hs_tasks s !! id = None).

(** One step of the loop, a task, the transport or the control channel.
    @src cdenv-cli/src/credential_broker.rs:123-235 serve_host_credential_broker *)
Definition step (s : HostState) (c : Choice) : option HostState :=
  match hs_loop s, c with
  | Loop_Stopped _, _ => None
  | _, Ch_Arrive bytes => Some (set_bytes s (hs_unread s ++ bytes) (hs_partial s))
  | _, Ch_Control call => Some (set_calls s [call])
  | _, Ch_Task id choice =>
      match hs_tasks s !! id with
      | Some (Task_Lookup stream epoch phase) => lookup_step s id stream epoch phase choice
      | Some (Task_Relay stream inbox phase) => relay_step s id stream inbox phase choice
      | _ => None
      end
  | Loop_Select, Ch_Read count =>
      match frame_needs (hs_partial s) with
      | Some needs =>
          if (0 <? count) && (count <=? needs) && (count <=? lenN (hs_unread s))
          then Some (set_bytes s (drop (N.to_nat count) (hs_unread s)) (hs_partial s ++ take (N.to_nat count) (hs_unread s))) else None
      | None => None
      end
  | Loop_Select, Ch_End =>
      Some (stop_loop s (if bool_decide (hs_partial s = []) then Ok tt else Err (Host_Protocol Truncated)))
  | Loop_Select, Ch_Idle => Some (stop_loop s (Err Host_Timeout))
  | Loop_Select, Ch_Dispatch between id =>
      match frame_needs (hs_partial s) with
      | Some _ => None
      | None =>
          if negb (fresh_task s id) then None else
          match frame_read (hs_partial s) with
          | Err e => Some (stop_loop s (Err (Host_Protocol e)))
          | Ok frame => Some (dispatch (set_bytes s (hs_unread s) []) frame between id)
          end
      end
  | Loop_Select, Ch_Join id =>
      match hs_tasks s !! id with
      | Some Task_Finished => Some (set_bytes (set_tasks s (delete id (hs_tasks s)) (hs_inputs s)) (hs_unread s) [])
      | _ => None
      end
  | Loop_Select, Ch_Write between written =>
      match hs_queue s with
      | q :: rest => Some (write_queued (set_bytes s (hs_unread s) []) q rest between written)
      | [] => None
      end
  | Loop_Send sending, Ch_Send =>
      match sending_step s sending with
      | Some (s, Some sending) => Some (set_loop s (Loop_Send sending))
      | Some (s, None) => Some (set_loop s Loop_Select)
      | None => None
      end
  | Loop_Identity stream epoch, Ch_Identity (Some metadata) => Some (set_loop s (Loop_Answered stream epoch metadata))
  | Loop_Identity stream epoch, Ch_Identity None => Some (send_error s stream)
  | Loop_Identity stream epoch, Ch_IdentityRevoked between =>
      if revoked s between IdentityRequest epoch then Some (send_error (set_calls s between) stream) else None
  | Loop_Answered stream epoch metadata, Ch_IdentityCheck =>
      Some (if authorized s IdentityRequest
            then loop_send s IdentityResult stream metadata (Some (IdentityRequest, epoch)) else send_error s stream)
  | Loop_Connect stream, Ch_Connect connected id => if fresh_task s id then Some (connect_step s stream connected id) else None
  | Loop_Forward channel frame, Ch_Forward => forward_step s channel frame
  | _, _ => None
  end.

Fixpoint run (s : HostState) (choices : list Choice) : option HostState :=
  match choices with
  | [] => Some s
  | c :: rest => match step s c with Some s' => run s' rest | None => None end
  end.

(** After the handshake.
    @src cdenv-cli/src/credential_broker.rs:116-123 serve_host_credential_broker *)
Definition host_start : HostState := mkHost [] false [] [] Loop_Select [] MAX_BROKER_QUEUED_BYTES ∅ ∅ [].

(** The handshake: [ack] is what [read_frame] gave within the time.
    @src cdenv-cli/src/credential_broker.rs:99-114 serve_host_credential_broker *)
Definition handshake (encode_identity : CredentialLeaseIdentity -> result BrokerProtocolError (list N))
    (decode_identity : list N -> result BrokerProtocolError CredentialLeaseIdentity)
    (ack : option (result HostCredentialBrokerError (option BrokerFrame))) : result HostCredentialBrokerError BrokerFrame :=
  let? _ := map_err Host_Protocol (validate expected) in
  let? body := map_err Host_Protocol (encode_identity expected) in
  let? hello := map_err Host_Protocol (frame_new Hello 0 body) in
  let? answer := ok_or Host_Timeout ack in
  let? answer := answer in
  let? answer := ok_or (Host_Protocol Truncated) answer in
  if negb (bool_decide (kind answer = HelloAck)) then Err Host_Identity else
  let? identity := map_err Host_Protocol (decode_identity (payload answer)) in
  if negb (bool_decide (identity = expected)) then Err Host_Identity else Ok hello.
End broker.

(** ** What is released was granted all along *)

Section safety.
Context (Url_parse : str -> option Url) (initial : LiveCredentialBackend) (expected : CredentialLeaseIdentity).
Implicit Types (calls h : list (N * CredentialGrants)) (s : HostState) (q : QueuedFrame).

(** The grants after a history of control requests. *)
Definition grants_at h : CredentialGrants := lp_grants (lb_policy (backend_at initial h)).

(** The run so far. *)
Definition reached (before : list Choice) s : Prop := run Url_parse initial expected host_start before = Some s.

(** In the run [before] the loop admitted the request [frame], for which the policy was asked, and the
    control requests were [h] when it took the epoch. *)
Definition admitted (before : list Choice) (frame : BrokerFrame) h : Prop :=
  exists a between id rest s, before = a ++ Ch_Dispatch between id :: rest /\ reached a s /\ frame_read (hs_partial s) = Ok frame
    /\ authorized initial expected s (kind frame) = true /\ h = hs_calls s ++ between.

(** In the run [before] a relay of the stream passed a packet to the agent after the control requests [h]. *)
Definition packet_taken (before : list Choice) (stream : N) h : Prop :=
  exists a id rest s frame inbox, before = a ++ Ch_Task id (TC_Receive true) :: rest /\ reached a s
    /\ hs_tasks s !! id = Some (Task_Relay stream (frame :: inbox) RL_Wait) /\ kind frame = StreamData /\ h = hs_calls s.

(** At the moment of admission the operation had the epoch [e], and at a later one the grants had [P]. *)
Definition granted (A : list (N * CredentialGrants) -> Prop) calls (operation : BrokerFrameKind) (e : N) (P : CredentialGrants -> Prop) : Prop :=
  exists h1 h2, A h1 /\ h1 `prefix_of` h2 /\ h2 `prefix_of` calls /\ authorization_epoch (backend_at initial h1) operation = e /\ P (grants_at h2).

(** From the moment of admission to that of the requests [calls] the grants had [P] throughout. *)
Definition granted_from (A : list (N * CredentialGrants) -> Prop) calls (P : CredentialGrants -> Prop) : Prop :=
  exists h1, A h1 /\ h1 `prefix_of` calls /\ forall h, h1 `prefix_of` h -> h `prefix_of` calls -> P (grants_at h).

Definition origin_granted (request : GitCredentialRequest) (g : CredentialGrants) : Prop := allows g (req_origin request) = true.
Definition identity_granted (g : CredentialGrants) : Prop := git_identity g = true.
Definition agent_granted (selector : SshAgentSelector) (g : CredentialGrants) : Prop := ssh_agent g = Some selector.

(** The request of a stream. *)
Definition asks (frame : BrokerFrame) (k : BrokerFrameKind) (stream : N) : Prop := kind frame = k /\ stream_id frame = stream.

(** What stands behind a frame that is released to the wire: after the run [before], with the control
    requests [calls] when its epoch is compared and [between] more when its authority is. *)
Definition release_ok (before : list Choice) calls (between : list (N * CredentialGrants)) (f : BrokerFrame) : Prop :=
  let still c := enabled (grants_at (calls ++ between)) c = true in
  match kind f with
  | CredentialResult => exists frame request response, asks frame CredentialLookup (stream_id f)
      /\ request_parse Url_parse (payload frame) = Ok request /\ payload f = response_write_private response []
      /\ granted_from (admitted before frame) calls (origin_granted request) /\ still GitHttps
  | IdentityResult => exists frame, asks frame IdentityRequest (stream_id f)
      /\ granted_from (admitted before frame) calls identity_granted /\ still GitIdentity
  | StreamData => exists selector, granted_from (packet_taken before (stream_id f)) calls (agent_granted selector) /\ still SshAgent
  | Error | StreamClose | HealthAck => payload f = []
  | _ => False
  end.

(** A frame on the wire was written at one step of the run, and what stands behind it held at that step. *)
Definition released (before : list Choice) (f : BrokerFrame) : Prop :=
  exists a between rest s, before = a ++ Ch_Write between true :: rest /\ reached a s /\ release_ok a (hs_calls s) between f.

(** ** The invariant of a run *)

Hypothesis Hinitial : policy_ok (lb_policy initial).

Section run_so_far.
Context (before : list Choice).

(** The frames that carry something, and what stands behind them in the queue. *)
Definition queued_ok calls q : Prop :=
  let f := qf_frame q in
  match kind f with
  | CredentialResult => exists e frame request response, qf_authorization q = Some (CredentialLookup, e)
      /\ asks frame CredentialLookup (stream_id f) /\ request_parse Url_parse (payload frame) = Ok request
      /\ granted (admitted before frame) calls CredentialLookup e (origin_granted request) /\ payload f = response_write_private response []
  | IdentityResult => exists e frame, qf_authorization q = Some (IdentityRequest, e) /\ asks frame IdentityRequest (stream_id f)
      /\ granted (admitted before frame) calls IdentityRequest e identity_granted
  | StreamData => exists e selector, qf_authorization q = Some (AgentOpen, e)
      /\ granted (packet_taken before (stream_id f)) calls AgentOpen e (agent_granted selector)
  | Error | StreamClose | HealthAck => payload f = []
  | _ => False
  end.

Definition sending_ok calls (sending : Sending) : Prop := match sending with Acquiring q | Pushing q => queued_ok calls q end.

Definition task_ok calls (t : Task) : Prop :=
  match t with
  | Task_Lookup stream e phase =>
      match phase with
      | LK_Start body => exists frame, asks frame CredentialLookup stream /\ payload frame = body
          /\ granted (admitted before frame) calls CredentialLookup e (fun _ => True)
      | LK_Asked request => exists frame, asks frame CredentialLookup stream /\ request_parse Url_parse (payload frame) = Ok request
          /\ granted (admitted before frame) calls CredentialLookup e (origin_granted request)
      | LK_Answered body => exists frame request response, asks frame CredentialLookup stream
          /\ request_parse Url_parse (payload frame) = Ok request
          /\ granted (admitted before frame) calls CredentialLookup e (origin_granted request) /\ body = response_write_private response []
      | LK_Send sending => sending_ok calls sending
      end
  | Task_Relay stream _ phase =>
      match phase with
      | RL_Reply e | RL_Got e _ => granted (packet_taken before stream) calls AgentOpen e (fun _ => True)
      | RL_Send sending _ | RL_Closing sending => sending_ok calls sending
      | RL_Wait | RL_Remove => True
      end
  | Task_Finished => True
  end.

Definition loop_ok calls (l : Loop) : Prop :=
  match l with
  | Loop_Identity stream e | Loop_Answered stream e _ => exists frame, asks frame IdentityRequest stream
      /\ granted (admitted before frame) calls IdentityRequest e (fun _ => True)
  | Loop_Send sending => sending_ok calls sending
  | _ => True
  end.

Record safe s : Prop := mkSafe {
  safe_queue : Forall (queued_ok (hs_calls s)) (hs_queue s);
  safe_tasks : map_Forall (fun _ => task_ok (hs_calls s)) (hs_tasks s);
  safe_loop : loop_ok (hs_calls s) (hs_loop s);
  safe_written : Forall (released before) (hs_written s);
}.

(** More control requests keep what was granted. *)
Lemma granted_more A calls more operation e P : granted A calls operation e P -> granted A (calls ++ more) operation e P.
Proof. intros (h1 & h2 & ? & ? & ? & ? & ?). exists h1, h2. split_and!; try done. by apply prefix_app_r. Qed.

Lemma queued_more calls more q : queued_ok calls q -> queued_ok (calls ++ more) q.
Proof. unfold queued_ok. destruct (kind (qf_frame q)); try done; naive_solver eauto 10 using granted_more. Qed.
Lemma sending_more calls more sending : sending_ok calls sending -> sending_ok (calls ++ more) sending.
Proof. destruct sending; apply queued_more. Qed.
Lemma task_more calls more t : task_ok calls t -> task_ok (calls ++ more) t.
Proof.
  destruct t as [stream e phase|stream inbox phase|]; [destruct phase|destruct phase|]; cbn [task_ok]; try done;
    try apply sending_more; try apply granted_more; naive_solver eauto 10 using granted_more.
Qed.
Lemma loop_more calls more l : loop_ok calls l -> loop_ok (calls ++ more) l.
Proof. destruct l; cbn [loop_ok]; try done; [apply sending_more|naive_solver eauto using granted_more..]. Qed.

Lemma safe_calls s more : safe s -> safe (set_calls s more).
Proof.
  intros [Hq Ht Hl Hw]. split; cbn; [| | |done].
  - eapply Forall_impl; [done|]. intros q. apply queued_more.
  - eapply map_Forall_impl; [done|]. intros id t. apply task_more.
  - by apply loop_more.
Qed.

(** What is true now. *)
Lemma granted_now A s operation : A (hs_calls s) -> granted A (hs_calls s) operation (epoch_at initial s operation) (fun _ => True).
Proof. exists (hs_calls s), (hs_calls s). by split_and!. Qed.
Lemma granted_check A s operation e (P : CredentialGrants -> Prop) :
  granted A (hs_calls s) operation e (fun _ => True) -> P (grants_at (hs_calls s)) -> granted A (hs_calls s) operation e P.
Proof. intros (h1 & h2 & ? & ? & ? & ? & _) HP. exists h1, (hs_calls s). split_and!; try done. by transitivity h2. Qed.

(** With its old epoch, a part of the grants is what it was at every moment in between. *)
Lemma granted_release A calls operation c e (P : CredentialGrants -> Prop) :
  operation_capability operation = Some c -> (forall g g', authority_of g c = authority_of g' c -> P g -> P g') ->
  granted A calls operation e P -> authorization_epoch (backend_at initial calls) operation = e -> granted_from A calls P.
Proof.
  intros Hc HP (h1 & h2 & HA & H12 & H2 & He & HPh) Hnow. exists h1. split; [done|]. split; [by transitivity h2|].
  assert (Hfrozen : forall h, h1 `prefix_of` h -> h `prefix_of` calls -> authority_of (grants_at h) c = authority_of (grants_at h1) c).
  { intros h [k ->] [k' ->]. rewrite (authorization_epoch_of _ _ c Hc) in He; rewrite (authorization_epoch_of _ _ c Hc) in Hnow. cbn [lb_policy backend_at with_policy] in He, Hnow.
    rewrite <- app_assoc, policy_after_app in Hnow. unfold grants_at. cbn [lb_policy backend_at with_policy]. rewrite policy_after_app.
    eapply (epoch_frozen (k ++ k')); [by apply policy_after_ok| |done]. congruence. }
  intros h H1h Hh. apply (HP (grants_at h2)); [|done]. by rewrite (Hfrozen h) by done; apply Hfrozen.
Qed.

(** Updates that keep the state safe. *)
Lemma safe_set_loop s l : safe s -> loop_ok (hs_calls s) l -> safe (set_loop s l).
Proof. by intros [? ? ? ?] ?; split. Qed.
Lemma safe_set_bytes s unread partial : safe s -> safe (set_bytes s unread partial).
Proof. by intros [? ? ? ?]; split. Qed.
Lemma safe_set_queue s queue permits : safe s -> Forall (queued_ok (hs_calls s)) queue -> safe (set_queue s queue permits).
Proof. by intros [? ? ? ?] ?; split. Qed.
Lemma safe_set_tasks s tasks inputs : safe s -> map_Forall (fun _ => task_ok (hs_calls s)) tasks -> safe (set_tasks s tasks inputs).
Proof. by intros [? ? ? ?] ?; split. Qed.
Lemma safe_put_task s id t : safe s -> task_ok (hs_calls s) t -> safe (put_task s id t).
Proof. intros [? Ht ? ?] ?; split; try done. by apply map_Forall_insert_2. Qed.
Lemma safe_set_ready s : safe s -> safe (set_ready s).
Proof. by intros [? ? ? ?]; split. Qed.
Lemma safe_stop_loop s r : safe s -> safe (stop_loop s r).
Proof. intros H. by apply safe_set_loop. Qed.

Lemma safe_loop_send s k stream body authorization :
  safe s -> (forall f, f = mkFrame k stream body -> queued_ok (hs_calls s) (mkQueued f authorization)) -> safe (loop_send s k stream body authorization).
Proof.
  intros Hs Hq. unfold loop_send. destruct (frame_new k stream body) as [f|e] eqn:Ef; [|by apply safe_stop_loop].
  apply safe_set_loop; [done|]. cbn. by apply Hq, frame_new_Ok.
Qed.
Lemma safe_send_error s stream : safe s -> safe (send_error s stream).
Proof. intros Hs. apply safe_loop_send; [done|]. by intros f ->. Qed.

Lemma safe_sending s sending s' next :
  safe s -> sending_ok (hs_calls s) sending -> sending_step s sending = Some (s', next) ->
  safe s' /\ hs_calls s' = hs_calls s /\ forall more, next = Some more -> sending_ok (hs_calls s) more.
Proof.
  intros Hs Hq. unfold sending_step. destruct sending as [q|q]; destruct (_ : bool); try done; intros [= <- <-].
  - split; [by apply safe_set_queue; [|apply Hs]|]. split; [done|]. by intros more [= <-].
  - split; [|done]. apply safe_set_queue; [done|]. apply Forall_app. split; [apply Hs|]. by constructor.
Qed.

Lemma safe_lookup_response s id stream epoch k body authorization :
  safe s -> (forall f, f = mkFrame k stream body -> queued_ok (hs_calls s) (mkQueued f authorization)) ->
  safe (lookup_response s id stream epoch k body authorization).
Proof.
  intros Hs Hq. unfold lookup_response. destruct (frame_new k stream body) as [f|e] eqn:Ef; apply safe_put_task; try done.
  cbn. by apply Hq, frame_new_Ok.
Qed.
Lemma safe_lookup_failed s id stream epoch : safe s -> safe (lookup_response s id stream epoch Error [] None).
Proof. intros Hs. apply safe_lookup_response; [done|]. by intros f ->. Qed.

Lemma safe_lookup_step s id stream epoch phase c s' :
  safe s -> task_ok (hs_calls s) (Task_Lookup stream epoch phase) -> lookup_step Url_parse initial expected s id stream epoch phase c = Some s' -> safe s'.
Proof.
  intros Hs Ht. unfold lookup_step. destruct phase as [body|request|body|sending], c as [|outcome now| | |between|delivered| | |response| |]; try done;
    cbn [task_ok] in Ht.
  - intros [= <-]. unfold lookup_begin. destruct (request_parse Url_parse body) as [request|] eqn:Ep; [|by apply safe_lookup_failed].
    destruct (allows _ _) eqn:Ea; [|by apply safe_lookup_failed]. apply safe_put_task; [done|].
    destruct Ht as (frame & Hask & <- & Hg). exists frame. split_and!; [done..|]. by apply granted_check.
  - intros [= <-]. by apply safe_lookup_failed.
  - destruct (revoked _ _ _ _ _ _); [|done]. intros [= <-]. by apply safe_lookup_failed, safe_calls.
  - intros [= <-]. unfold lookup_finish. destruct outcome as [response|]; [|by apply safe_lookup_failed].
    destruct (_ || _); [by apply safe_lookup_failed|]. apply safe_put_task; [done|].
    destruct Ht as (frame & Hask & Hp & Hg). by exists frame, request, response.
  - intros [= <-]. by apply safe_lookup_failed.
  - destruct (revoked _ _ _ _ _ _); [|done]. intros [= <-]. by apply safe_lookup_failed, safe_calls.
  - intros [= <-]. destruct (authorized _ _ _ _); [|by apply safe_lookup_failed]. apply safe_lookup_response; [done|].
    intros f ->. destruct Ht as (frame & request & response & Hask & Hp & Hg & ->). by exists epoch, frame, request, response.
  - destruct (sending_step s sending) as [[s1 next]|] eqn:Es; [|done]. destruct (safe_sending _ _ _ _ Hs Ht Es) as (H1 & Hc & Hn).
    destruct next as [more|]; intros [= <-]; apply safe_put_task; try done. rewrite Hc. by apply Hn.
Qed.

Lemma safe_relay_failed s id stream : safe s -> safe (relay_failed s id stream).
Proof.
  intros Hs. unfold relay_failed. destruct (frame_new StreamClose stream []) as [f|] eqn:Ef; apply safe_put_task; try done.
  apply frame_new_Ok in Ef as ->. done.
Qed.
Lemma safe_relay_send s id stream inbox k body authorization returns :
  safe s -> (forall f, f = mkFrame k stream body -> queued_ok (hs_calls s) (mkQueued f authorization)) ->
  safe (relay_send s id stream inbox k body authorization returns).
Proof.
  intros Hs Hq. unfold relay_send. destruct (frame_new k stream body) as [f|] eqn:Ef; [|by apply safe_relay_failed].
  apply safe_put_task; [done|]. cbn. by apply Hq, frame_new_Ok.
Qed.
Lemma safe_relay_close s id stream inbox : safe s -> safe (relay_send s id stream inbox StreamClose [] None true).
Proof. intros Hs. apply safe_relay_send; [done|]. by intros f ->. Qed.

Lemma safe_relay_step s id stream inbox phase c s' :
  safe s -> task_ok (hs_calls s) (Task_Relay stream inbox phase) ->
  (forall frame rest, c = TC_Receive true -> phase = RL_Wait -> inbox = frame :: rest -> kind frame = StreamData -> packet_taken before stream (hs_calls s)) ->
  relay_step initial expected s id stream inbox phase c = Some s' -> safe s'.
Proof.
  intros Hs Ht Htaken. unfold relay_step. cbn zeta.
  destruct phase as [|epoch|epoch response|sending returns|sending|], c as [|outcome now| | |between|delivered| | |[packet|]| |]; try done; cbn [task_ok] in Ht.
  - destruct inbox as [|frame rest]; [done|]. intros [= <-]. unfold relay_receive. destruct (kind frame) eqn:Ek; try by apply safe_relay_failed.
    + destruct (_ && delivered) eqn:Ed; [|by apply safe_relay_failed]. apply andb_true_iff in Ed as [_ ->].
      apply safe_put_task; [done|]. apply granted_now. by eapply Htaken.
    + destruct delivered; [by apply safe_put_task|by apply safe_relay_failed].
    + destruct delivered; [by apply safe_put_task|by apply safe_relay_failed].
  - intros [= <-]. destruct (authorized _ _ _ _); [done|by apply safe_relay_close].
  - destruct (_ && _); [|done]. intros [= <-]. by apply safe_relay_failed.
  - intros [= <-]. by apply safe_relay_failed.
  - destruct (revoked _ _ _ _ _ _); [|done]. intros [= <-]. by apply safe_relay_close, safe_calls.
  - intros [= <-]. by apply safe_put_task.
  - intros [= <-]. by apply safe_relay_failed.
  - intros [= <-]. destruct (authorized initial expected s AgentOpen) eqn:Ea; [|by apply safe_relay_close].
    apply safe_relay_send; [done|]. intros f ->. unfold authorized, is_authorized in Ea. destruct (negb _); [done|]. cbn [enabled] in Ea.
    fold (grants_at (hs_calls s)) in Ea. change (lp_grants _) with (grants_at (hs_calls s)) in Ea.
    destruct (ssh_agent (grants_at (hs_calls s))) as [selector|] eqn:Esel; [|done]. exists epoch, selector. split; [done|]. by apply granted_check.
  - destruct (sending_step s sending) as [[s1 next]|] eqn:Es; [|done]. destruct (safe_sending _ _ _ _ Hs Ht Es) as (H1 & Hc & Hn).
    destruct next as [more|]; intros [= <-]; apply safe_put_task; try done; [rewrite Hc; by apply Hn|by destruct returns].
  - destruct (sending_step s sending) as [[s1 next]|] eqn:Es; [|done]. destruct (safe_sending _ _ _ _ Hs Ht Es) as (H1 & Hc & Hn).
    destruct next as [more|]; intros [= <-]; apply safe_put_task; try done. rewrite Hc. by apply Hn.
  - intros [= <-]. apply safe_set_tasks; [done|]. apply map_Forall_insert_2; [done|apply Hs].
Qed.

(** A frame whose check passes was granted from its admission to the check. *)
Lemma queued_released s q between operation e :
  qf_authorization q = Some (operation, e) -> revoked initial expected s between operation e = false -> queued_ok (hs_calls s) q ->
  release_ok before (hs_calls s) between (qf_frame q).
Proof.
  intros Hq Hr. unfold revoked in Hr. apply orb_false_iff in Hr as [Hr Ha]. apply negb_false_iff, N.eqb_eq in Hr. apply negb_false_iff in Ha.
  assert (Hstill : forall c, operation_capability operation = Some c -> enabled (grants_at (hs_calls s ++ between)) c = true).
  { intros c Hc. unfold authorized, is_authorized in Ha. destruct (negb _); [done|]. destruct operation; try done; by injection Hc as <-. }
  unfold queued_ok, release_ok. destruct (kind (qf_frame q)); try done.
  - intros (e' & frame & request & response & Hau & Hask & Hp & Hg & Hbody). rewrite Hq in Hau. injection Hau as -> ->.
    exists frame, request, response. split_and!; try done; [|by apply Hstill].
    eapply (granted_release _ _ CredentialLookup GitHttps); [done| |exact Hg|exact Hr].
    unfold origin_granted, allows. intros g g' [= Hgg]. by rewrite Hgg.
  - intros (e' & selector & Hau & Hg). rewrite Hq in Hau. injection Hau as -> ->. exists selector. split; [|by apply Hstill].
    eapply (granted_release _ _ AgentOpen SshAgent); [done| |exact Hg|exact Hr]. unfold agent_granted. intros g g' [= Hgg]. by rewrite Hgg.
  - intros (e' & frame & Hau & Hask & Hg). rewrite Hq in Hau. injection Hau as -> ->. exists frame. split_and!; try done; [|by apply Hstill].
    eapply (granted_release _ _ IdentityRequest GitIdentity); [done| |exact Hg|exact Hr]. unfold identity_granted. intros g g' [= Hgg]. by rewrite Hgg.
Qed.

Lemma queued_without_authorization calls between q : qf_authorization q = None -> queued_ok calls q -> release_ok before calls between (qf_frame q).
Proof. unfold queued_ok, release_ok. intros Hq. destruct (kind (qf_frame q)); try done; intros Hx; repeat destruct Hx as [? Hx]; simplify_eq; naive_solver. Qed.

Lemma set_calls_nil s : set_calls s [] = s.
Proof. destruct s. unfold set_calls. cbn. by rewrite app_nil_r. Qed.

Lemma safe_write_queued s q rest between written :
  safe s -> hs_queue s = q :: rest ->
  (written = true -> match qf_authorization q with Some (operation, e) => revoked initial expected s between operation e = false | None => True end ->
     released before (qf_frame q)) ->
  (forall f, written = true -> kind f = Error \/ kind f = StreamClose -> payload f = [] -> released before f) ->
  safe (write_queued initial expected s q rest between written).
Proof.
  intros Hs Hqueue Hrel Hdenied. assert (Hok := safe_queue _ Hs). rewrite Hqueue in Hok. apply Forall_cons in Hok as [Hq Hrest].
  assert (Hput : forall more f, (written = true -> released before f) ->
    safe (if written then set_written (set_queue (set_calls s more) rest (hs_permits s + frame_amount (qf_frame q))) (hs_written (set_calls s more) ++ [f])
          else stop_loop (set_queue (set_calls s more) rest (hs_permits s + frame_amount (qf_frame q))) (Err Host_Io))).
  { intros more f Hf. assert (H1 : safe (set_queue (set_calls s more) rest (hs_permits s + frame_amount (qf_frame q)))).
    { apply safe_set_queue; [by apply safe_calls|]. eapply Forall_impl; [done|]. intros q'. apply queued_more. }
    destruct written; [|by apply safe_stop_loop]. destruct H1 as [? ? ? Hw]. split; try done. cbn in *. apply Forall_app. by split; [|constructor; [apply Hf|]]. }
  unfold write_queued. cbn zeta. destruct (qf_authorization q) as [[operation e]|] eqn:Ea.
  - destruct (revoked initial expected s between operation e) eqn:Er.
    + destruct (frame_new _ _ []) as [denied|] eqn:Ef; [|by apply safe_stop_loop, safe_set_queue].
      apply Hput. intros Hw. apply frame_new_Ok in Ef as ->. apply Hdenied; [done| |done]. cbn. case_bool_decide; auto.
    + apply Hput. auto.
  - specialize (Hput [] (qf_frame q)). rewrite set_calls_nil in Hput. auto.
Qed.

Lemma safe_dispatch s frame between id : safe s ->
  (authorized initial expected s (kind frame) = true -> admitted before frame (hs_calls s ++ between)) ->
  safe (dispatch initial expected s frame between id).
Proof.
  intros Hs Had. unfold dispatch. destruct (kind frame) eqn:Ek; try by apply safe_stop_loop.
  - destruct (negb _) eqn:Ea; [by apply safe_send_error|]. apply negb_false_iff in Ea. destruct (_ <=? _); [by apply safe_stop_loop|].
    apply safe_set_tasks; [by apply safe_calls|]. apply map_Forall_insert_2; [|by apply safe_calls].
    exists frame. split_and!; [done|done|]. apply granted_now. by apply Had.
  - destruct (negb _); [by apply safe_send_error|]. destruct (_ <=? _); [by apply safe_send_error|]. by apply safe_set_loop.
  - destruct (hs_inputs s !! _); [by apply safe_set_loop|by apply safe_stop_loop].
  - destruct (hs_inputs s !! _); [by apply safe_set_loop|by apply safe_stop_loop].
  - destruct (hs_inputs s !! _); [by apply safe_set_loop|by apply safe_stop_loop].
  - destruct (negb _) eqn:Ea; [by apply safe_send_error|]. apply negb_false_iff in Ea. apply safe_set_loop; [by apply safe_calls|].
    exists frame. split; [done|]. apply granted_now. by apply Had.
  - apply safe_loop_send; [by apply safe_set_ready|]. by intros f ->.
Qed.

End run_so_far.

(** A longer run keeps what was admitted and what was released. *)
Lemma admitted_more a c frame h : admitted a frame h -> admitted (a ++ [c]) frame h.
Proof. intros (a0 & between & id & rest & s & -> & H). exists a0, between, id, (rest ++ [c]), s. by rewrite <- app_assoc. Qed.
Lemma taken_more a c stream h : packet_taken a stream h -> packet_taken (a ++ [c]) stream h.
Proof. intros (a0 & id & rest & s & frame & inbox & -> & H). exists a0, id, (rest ++ [c]), s, frame, inbox. by rewrite <- app_assoc. Qed.
Lemma granted_mono (A A' : list (N * CredentialGrants) -> Prop) calls operation e P :
  (forall h, A h -> A' h) -> granted A calls operation e P -> granted A' calls operation e P.
Proof. intros HA (h1 & h2 & ? & H). exists h1, h2. split; auto. Qed.
Lemma queued_later a c calls q : queued_ok a calls q -> queued_ok (a ++ [c]) calls q.
Proof. unfold queued_ok. destruct (kind (qf_frame q)); try done; naive_solver eauto 10 using granted_mono, admitted_more, taken_more. Qed.
Lemma sending_later a c calls sending : sending_ok a calls sending -> sending_ok (a ++ [c]) calls sending.
Proof. destruct sending; apply queued_later. Qed.
Lemma safe_later a c s : safe a s -> safe (a ++ [c]) s.
Proof.
  intros [Hq Ht Hl Hw]. split.
  - eapply Forall_impl; [done|]. intros q. apply queued_later.
  - eapply map_Forall_impl; [done|]. intros id t. destruct t as [stream e phase|stream inbox phase|]; [destruct phase|destruct phase|]; cbn [task_ok]; try done;
      try apply sending_later; naive_solver eauto 10 using granted_mono, admitted_more, taken_more.
  - destruct (hs_loop s); cbn [loop_ok] in *; try done; [by apply sending_later|naive_solver eauto 10 using granted_mono, admitted_more..].
  - eapply Forall_impl; [done|]. intros f (a0 & between & rest & s0 & -> & H). exists a0, between, (rest ++ [c]), s0. by rewrite <- app_assoc.
Qed.

Lemma safe_step a s c s' : reached a s -> safe a s -> step Url_parse initial expected s c = Some s' -> safe (a ++ [c]) s'.
Proof.
  intros Hreach Hbefore Hstep. assert (Hs := safe_later _ c _ Hbefore). assert (Hl := safe_loop _ _ Hs). unfold step in Hstep.
  destruct (hs_loop s) as [|sending|stream epoch|stream epoch metadata|stream|channel frame|r] eqn:El; [..|done];
    (destruct c as [bytes|call|count| | |between id|id|between written| |[answer|]|between| |connected id| |id choice]; try done);
    try (injection Hstep as <-; first [by apply safe_set_bytes|by apply safe_calls|by apply safe_stop_loop]; done);
    try (destruct (hs_tasks s !! id) as [[stream' e' phase|stream' inbox phase|]|] eqn:Et; try done;
         [eapply safe_lookup_step; [exact Hs|exact (safe_tasks _ _ Hs _ _ Et)|exact Hstep]
         |eapply safe_relay_step; [exact Hs|exact (safe_tasks _ _ Hs _ _ Et)| |exact Hstep];
          intros frame0 rest0 -> -> -> Hk; by exists a, id, [], s, frame0, rest0]); cbn [loop_ok] in Hl.
  - destruct (frame_needs _); [|done]. destruct (_ && _ && _); [|done]. injection Hstep as <-. by apply safe_set_bytes.
  - destruct (frame_needs _); [done|]. destruct (negb _); [done|]. destruct (frame_read _) as [frame|e] eqn:Ef; injection Hstep as <-.
    + apply safe_dispatch; [by apply safe_set_bytes|]. intros Ha. by exists a, between, id, [], s.
    + by apply safe_stop_loop.
  - destruct (hs_tasks s !! id) as [[]|]; try done. injection Hstep as <-. apply safe_set_bytes, safe_set_tasks; [done|].
    apply map_Forall_delete, Hs.
  - destruct (hs_queue s) as [|q rest] eqn:Eq; [done|]. injection Hstep as <-.
    assert (Hhead := safe_queue _ _ Hbefore). rewrite Eq in Hhead. apply Forall_cons in Hhead as [Hhead _].
    apply safe_write_queued; [by apply safe_set_bytes|done| |].
    + intros -> Hr. exists a, between, [], s. split_and!; [done..|]. destruct (qf_authorization q) as [[operation e]|] eqn:Ea.
      * exact (queued_released a s q between operation e Ea Hr Hhead).
      * by apply queued_without_authorization.
    + intros f -> Hk Hp. exists a, between, [], s. split_and!; [done..|]. unfold release_ok. by destruct Hk as [->| ->].
  - destruct (sending_step s sending) as [[s1 next]|] eqn:Es; [|done]. destruct (safe_sending _ _ _ _ _ Hs Hl Es) as (H1 & Hc & Hn).
    destruct next as [more|]; injection Hstep as <-; apply safe_set_loop; try done. rewrite Hc. by apply Hn.
  - injection Hstep as <-. by apply safe_set_loop.
  - injection Hstep as <-. by apply safe_send_error.
  - destruct (revoked _ _ _ _ _ _); [|done]. injection Hstep as <-. by apply safe_send_error, safe_calls.
  - injection Hstep as <-. destruct (authorized initial expected s IdentityRequest) eqn:Ea; [|by apply safe_send_error].
    apply safe_loop_send; [done|]. intros f ->. destruct Hl as (frame & Hask & Hg). exists epoch, frame. split_and!; [done..|].
    apply granted_check; [done|]. unfold authorized, is_authorized in Ea. destruct (negb _); [done|]. exact Ea.
  - destruct (fresh_task s id); [|done]. injection Hstep as <-. unfold connect_step. destruct (negb connected); [by apply safe_send_error|].
    destruct (bool_decide _); [apply safe_send_error, safe_set_tasks; [done|apply Hs]|]. apply safe_set_loop; [|done].
    apply safe_set_tasks; [done|]. by apply map_Forall_insert_2; [|apply Hs].
  - unfold forward_step in Hstep. destruct (hs_tasks s !! channel) as [[|stream inbox phase|]|] eqn:Et; try (injection Hstep as <-; by apply safe_stop_loop).
    destruct (receives phase) eqn:Er; [|injection Hstep as <-; by apply safe_stop_loop]. destruct (_ <? _); [|done]. injection Hstep as <-.
    apply safe_set_loop; [|done]. apply safe_put_task; [done|]. exact (safe_tasks _ _ Hs _ _ Et).
Qed.

Lemma safe_run choices : forall a s s', reached a s -> safe a s -> run Url_parse initial expected s choices = Some s' -> safe (a ++ choices) s'.
Proof.
  induction choices as [|c choices IH]; intros a s s' Hreach Hs Hr; cbn [run] in Hr; [rewrite app_nil_r; by injection Hr as <-|].
  destruct (step _ _ _ s c) as [s1|] eqn:Es; [|done]. change (a ++ c :: choices) with (a ++ [c] ++ choices). rewrite app_assoc. eapply IH; [|by eapply safe_step|exact Hr].
  unfold reached in *. clear -Hreach Es. revert Hreach. generalize host_start. induction a as [|x a IHa]; intros s0; cbn [run app].
  - intros [= ->]. by rewrite Es.
  - destruct (step _ _ _ s0 x); [apply IHa|done].
Qed.

Lemma safe_start : safe [] host_start.
Proof. split; cbn; [constructor|apply map_Forall_empty|done|constructor]. Qed.
End safety.

(** ** Bounds *)

Section sums.
Context (f : Task -> N).
Lemma sumN_permutation (l k : list N) : l ≡ₚ k -> sumN l = sumN k.
Proof. unfold sumN. induction 1; cbn [foldr] in *; lia. Qed.
Lemma task_sum_new m id t : m !! id = None -> task_sum f (<[id := t]> m) = f t + task_sum f m.
Proof.
  intros Hn. unfold task_sum. rewrite (sumN_permutation _ (List.map (fun '(_, t) => f t) ((id, t) :: map_to_list m))); [done|].
  apply Permutation_map. by apply map_to_list_insert.
Qed.
Lemma task_sum_delete m id t : m !! id = Some t -> task_sum f m = f t + task_sum f (delete id m).
Proof. intros Ht. rewrite <- (task_sum_new _ id) by apply lookup_delete_eq. by rewrite insert_delete_id. Qed.
Lemma task_sum_replace m id old t : m !! id = Some old -> task_sum f (<[id := t]> m) + f old = task_sum f m + f t.
Proof.
  intros Ho. rewrite (task_sum_delete m id old) by done. rewrite <- insert_delete_eq. rewrite task_sum_new by apply lookup_delete_eq. lia.
Qed.
End sums.

Definition sending_held (sending : Sending) : N := match sending with Acquiring _ => 0 | Pushing q => frame_amount (qf_frame q) end.
Definition task_held (t : Task) : N :=
  match t with
  | Task_Lookup _ _ (LK_Send sending) | Task_Relay _ _ (RL_Send sending _) | Task_Relay _ _ (RL_Closing sending) => sending_held sending
  | _ => 0
  end.
Definition loop_held (l : Loop) : N := match l with Loop_Send sending => sending_held sending | _ => 0 end.
Definition queue_held (queue : list QueuedFrame) : N := sumN (List.map (fun q => frame_amount (qf_frame q)) queue).
Definition connecting (l : Loop) : N := match l with Loop_Connect _ => 1 | _ => 0 end.

(** Every permit is free, with a queued frame, or with a sender that waits for its place. *)
Record bounded (s : HostState) : Prop := mkBounded {
  bounded_permits : hs_permits s + queue_held (hs_queue s) + task_sum task_held (hs_tasks s) + loop_held (hs_loop s) = MAX_BROKER_QUEUED_BYTES;
  bounded_queue : lenN (hs_queue s) <= MAX_BROKER_QUEUED_FRAMES;
  bounded_lookups : task_sum is_lookup (hs_tasks s) <= MAX_BROKER_HELPERS;
  bounded_relays : task_sum is_relay (hs_tasks s) + connecting (hs_loop s) <= MAX_BROKER_STREAMS;
}.

Lemma queue_held_app l k : queue_held (l ++ k) = queue_held l + queue_held k.
Proof. unfold queue_held, sumN in *. induction l as [|q l IH]; cbn [app List.map foldr] in *; [done|]. lia. Qed.

(** The fields of an updated state. *)
Ltac fields := cbn [hs_permits hs_queue hs_tasks hs_loop put_task stop_loop set_tasks set_loop set_queue set_calls set_bytes set_written set_ready] in *.

Section bounds.
Context (Url_parse : str -> option Url) (initial : LiveCredentialBackend) (expected : CredentialLeaseIdentity).

(** Replacing a task by one of its kind that holds nothing. *)
Lemma bounded_put s id old t :
  bounded s -> hs_tasks s !! id = Some old -> task_held old = 0 -> task_held t = 0 -> is_lookup t <= is_lookup old -> is_relay t <= is_relay old -> bounded (put_task s id t).
Proof.
  intros [Hp Hq Hl Hr] Ho H1 H2 H3 H4. pose proof (task_sum_replace task_held _ _ _ t Ho). pose proof (task_sum_replace is_lookup _ _ _ t Ho).
  pose proof (task_sum_replace is_relay _ _ _ t Ho). split; fields; lia.
Qed.
Lemma bounded_loop s l : bounded s -> loop_held (hs_loop s) = 0 -> loop_held l = 0 -> connecting l <= connecting (hs_loop s) -> bounded (set_loop s l).
Proof. intros [Hp Hq Hl Hr] H1 H2 H3. split; fields; lia. Qed.
Lemma bounded_calls s more : bounded s -> bounded (set_calls s more).
Proof. by intros [? ? ? ?]; split. Qed.
Lemma bounded_bytes s unread partial : bounded s -> bounded (set_bytes s unread partial).
Proof. by intros [? ? ? ?]; split. Qed.

Lemma bounded_loop_send s k stream body authorization : bounded s -> loop_held (hs_loop s) = 0 -> bounded (loop_send s k stream body authorization).
Proof. intros Hs Hl. unfold loop_send. destruct (frame_new _ _ _); apply bounded_loop; first [done|cbn; lia]. Qed.

(** A sender, as a function of where it is kept. *)
Lemma bounded_task_send s id old (keep : Sending -> Task) (last : Task) sending s' :
  bounded s -> hs_tasks s !! id = Some old -> task_held old = sending_held sending -> (forall x, task_held (keep x) = sending_held x) ->
  (forall x, is_lookup (keep x) <= is_lookup old /\ is_relay (keep x) <= is_relay old) ->
  task_held last = 0 -> is_lookup last <= is_lookup old -> is_relay last <= is_relay old ->
  match sending_step s sending with
  | Some (s1, Some next) => Some (put_task s1 id (keep next))
  | Some (s1, None) => Some (put_task s1 id last)
  | None => None
  end = Some s' -> bounded s'.
Proof.
  intros [Hp Hq Hl Hr] Ho Hh Hk Hc H1 H2 H3. unfold sending_step. destruct sending as [q|q].
  - destruct (N.leb_spec (frame_amount (qf_frame q)) (hs_permits s)) as [Hle|]; [|done]. intros [= <-].
    destruct (Hc (Pushing q)) as [Hc1 Hc2]. pose proof (Hk (Pushing q)) as Hkq. cbn in Hkq, Hh.
    pose proof (task_sum_replace task_held _ _ _ (keep (Pushing q)) Ho). pose proof (task_sum_replace is_lookup _ _ _ (keep (Pushing q)) Ho).
    pose proof (task_sum_replace is_relay _ _ _ (keep (Pushing q)) Ho). split; fields; lia.
  - destruct (N.ltb_spec (lenN (hs_queue s)) MAX_BROKER_QUEUED_FRAMES) as [Hlt|]; [|done]. intros [= <-]. cbn in Hh.
    pose proof (task_sum_replace task_held _ _ _ last Ho). pose proof (task_sum_replace is_lookup _ _ _ last Ho).
    pose proof (task_sum_replace is_relay _ _ _ last Ho). split; fields; try lia.
    + rewrite queue_held_app. unfold queue_held at 2. cbn [List.map sumN foldr]. lia.
    + unfold lenN in *. rewrite length_app. cbn. lia.
Qed.

Lemma bounded_finish s id old k stream body authorization (keep : QueuedFrame -> Task) (last : Task) :
  bounded s -> hs_tasks s !! id = Some old -> task_held old = 0 -> (forall q, task_held (keep q) = 0 /\ is_lookup (keep q) <= is_lookup old /\ is_relay (keep q) <= is_relay old) ->
  task_held last = 0 -> is_lookup last <= is_lookup old -> is_relay last <= is_relay old ->
  bounded (match frame_new k stream body with Ok f => put_task s id (keep (mkQueued f authorization)) | Err _ => put_task s id last end).
Proof.
  intros Hs Ho Hh Hk H1 H2 H3. destruct (frame_new k stream body) as [f|e]; [|by eapply bounded_put].
  destruct (Hk (mkQueued f authorization)) as (? & ? & ?). by eapply bounded_put.
Qed.

Lemma bounded_lookup_response s id old stream epoch k body authorization :
  bounded s -> hs_tasks s !! id = Some old -> task_held old = 0 -> is_lookup old = 1 -> bounded (lookup_response s id stream epoch k body authorization).
Proof.
  intros Hs Ho Hh Hl. unfold lookup_response.
  apply (bounded_finish s id old k stream body authorization (fun q => Task_Lookup stream epoch (LK_Send (Acquiring q))) Task_Finished); try done; [|cbn; lia..].
  intros q. split_and!; cbn; lia.
Qed.

Lemma bounded_lookup_step s id stream epoch phase c s' :
  bounded s -> hs_tasks s !! id = Some (Task_Lookup stream epoch phase) -> lookup_step Url_parse initial expected s id stream epoch phase c = Some s' -> bounded s'.
Proof.
  intros Hs Ht. unfold lookup_step.
  assert (Hfail : forall s0, bounded s0 -> hs_tasks s0 = hs_tasks s -> task_held (Task_Lookup stream epoch phase) = 0 -> forall k body a, bounded (lookup_response s0 id stream epoch k body a)).
  { intros s0 H0 E0 Hh k body a. eapply bounded_lookup_response; [done|by rewrite E0|done|done]. }
  destruct phase as [body|request|body|sending], c as [|outcome now| | |between|delivered| | |response| |]; try done.
  - intros [= <-]. destruct (lookup_begin _ _ _); [by eapply bounded_put|by apply Hfail].
  - intros [= <-]. by apply Hfail.
  - destruct (revoked _ _ _ _ _ _); [|done]. intros [= <-]. by apply Hfail; [apply bounded_calls|..].
  - intros [= <-]. destruct (lookup_finish _ _ _ _); [by eapply bounded_put|by apply Hfail].
  - intros [= <-]. by apply Hfail.
  - destruct (revoked _ _ _ _ _ _); [|done]. intros [= <-]. by apply Hfail; [apply bounded_calls|..].
  - intros [= <-]. destruct (authorized _ _ _ _); by apply Hfail.
  - apply (bounded_task_send s id _ (fun x => Task_Lookup stream epoch (LK_Send x)) Task_Finished sending s' Hs Ht); done.
Qed.

Lemma bounded_relay_failed s id old stream :
  bounded s -> hs_tasks s !! id = Some old -> task_held old = 0 -> is_relay old = 1 -> bounded (relay_failed s id stream).
Proof.
  intros Hs Ho Hh Hr. unfold relay_failed.
  apply (bounded_finish s id old StreamClose stream [] None (fun q => Task_Relay stream [] (RL_Closing (Acquiring q))) (Task_Relay stream [] RL_Remove)); try done; [|cbn; lia..].
  intros q. split_and!; cbn; lia.
Qed.
Lemma bounded_relay_send s id old stream inbox k body authorization returns :
  bounded s -> hs_tasks s !! id = Some old -> task_held old = 0 -> is_relay old = 1 -> bounded (relay_send s id stream inbox k body authorization returns).
Proof.
  intros Hs Ho Hh Hr. unfold relay_send. destruct (frame_new _ _ _); [|by eapply bounded_relay_failed].
  eapply bounded_put; [exact Hs|exact Ho|exact Hh|done|cbn; lia..].
Qed.

Lemma bounded_relay_step s id stream inbox phase c s' :
  bounded s -> hs_tasks s !! id = Some (Task_Relay stream inbox phase) -> relay_step initial expected s id stream inbox phase c = Some s' -> bounded s'.
Proof.
  intros Hs Ht. unfold relay_step. cbn zeta.
  assert (Hfail : task_held (Task_Relay stream inbox phase) = 0 -> bounded (relay_failed s id stream)) by (intros Hh; by eapply bounded_relay_failed).
  assert (Hclose : forall s0, bounded s0 -> hs_tasks s0 = hs_tasks s -> task_held (Task_Relay stream inbox phase) = 0 -> forall k body a r, bounded (relay_send s0 id stream inbox k body a r)).
  { intros s0 H0 E0 Hh k body a r. eapply bounded_relay_send; [done|by rewrite E0|done|done]. }
  destruct phase as [|epoch|epoch response|sending returns|sending|], c as [|outcome now| | |between|delivered| | |[packet|]| |]; try done.
  - destruct inbox as [|frame rest]; [done|]. intros [= <-]. unfold relay_receive. destruct (kind frame); try by apply Hfail.
    + destruct (_ && _); [by eapply bounded_put|by apply Hfail].
    + destruct delivered; [by eapply bounded_put|by apply Hfail].
    + destruct delivered; [by eapply bounded_put|by apply Hfail].
  - intros [= <-]. destruct (authorized _ _ _ _); [done|by apply Hclose].
  - destruct (_ && _); [|done]. intros [= <-]. by apply Hfail.
  - intros [= <-]. by apply Hfail.
  - destruct (revoked _ _ _ _ _ _); [|done]. intros [= <-]. by apply Hclose; [apply bounded_calls|..].
  - intros [= <-]. by eapply bounded_put.
  - intros [= <-]. by apply Hfail.
  - intros [= <-]. destruct (authorized _ _ _ _); by apply Hclose.
  - apply (bounded_task_send s id _ (fun x => Task_Relay stream inbox (RL_Send x returns)) (if returns then Task_Relay stream [] RL_Remove else Task_Relay stream inbox RL_Wait) sending s' Hs Ht);
      try done; by destruct returns.
  - apply (bounded_task_send s id _ (fun x => Task_Relay stream [] (RL_Closing x)) (Task_Relay stream [] RL_Remove) sending s' Hs Ht); done.
  - intros [= <-]. eapply (bounded_put s id _ Task_Finished) in Hs; [|exact Ht|done..]. by destruct Hs as [? ? ? ?]; split.
Qed.

Lemma bounded_write_queued s q rest between written :
  bounded s -> hs_queue s = q :: rest -> loop_held (hs_loop s) = 0 -> bounded (write_queued initial expected s q rest between written).
Proof.
  intros [Hp Hq Hl Hr] Hqueue Hloop. rewrite Hqueue in Hp, Hq. unfold queue_held in Hp. cbn [List.map sumN foldr] in Hp.
  assert (Hlen : lenN rest <= MAX_BROKER_QUEUED_FRAMES) by (unfold lenN in *; cbn [length] in Hq; lia).
  assert (Hbase : forall more, bounded (set_queue (set_calls s more) rest (hs_permits s + frame_amount (qf_frame q)))).
  { intros more. split; fields; try done. unfold queue_held, sumN in *. lia. }
  assert (Hput : forall more f, bounded (if written then set_written (set_queue (set_calls s more) rest (hs_permits s + frame_amount (qf_frame q))) (hs_written (set_calls s more) ++ [f])
          else stop_loop (set_queue (set_calls s more) rest (hs_permits s + frame_amount (qf_frame q))) (Err Host_Io))).
  { intros more f. destruct written; [by destruct (Hbase more) as [? ? ? ?]; split|]. apply bounded_loop; [apply Hbase|done..|cbn; lia]. }
  unfold write_queued. cbn zeta. destruct (qf_authorization q) as [[operation e]|].
  - destruct (revoked _ _ _ _ _ _); [|apply Hput]. destruct (frame_new _ _ []); [apply Hput|].
    specialize (Hbase []). rewrite set_calls_nil in Hbase. apply bounded_loop; [done|done|done|cbn; lia].
  - specialize (Hput [] (qf_frame q)). by rewrite set_calls_nil in Hput.
Qed.

Lemma bounded_dispatch s frame between id :
  bounded s -> hs_loop s = Loop_Select -> hs_tasks s !! id = None -> bounded (dispatch initial expected s frame between id).
Proof.
  intros Hs Hl Hid. assert (Hh : loop_held (hs_loop s) = 0) by (by rewrite Hl).
  assert (Hc : forall l, connecting l = 0 -> connecting l <= connecting (hs_loop s)) by (intros l ->; lia).
  unfold dispatch. destruct (kind frame); try (by apply bounded_loop; auto).
  - destruct (negb _); [by apply bounded_loop_send|]. destruct (N.leb_spec MAX_BROKER_HELPERS (task_sum is_lookup (hs_tasks s))) as [|Hlt]; [by apply bounded_loop; auto|].
    destruct Hs as [Hp Hq Hk Hr]. split; fields; try done; rewrite task_sum_new by done; cbn [task_held is_lookup is_relay]; lia.
  - destruct (negb _); [by apply bounded_loop_send|]. destruct (N.leb_spec MAX_BROKER_STREAMS (task_sum is_relay (hs_tasks s))) as [|Hlt]; [by apply bounded_loop_send|].
    destruct Hs as [Hp Hq Hk Hr]. split; fields; rewrite ?Hl in *; cbn [loop_held connecting] in *; lia.
  - destruct (hs_inputs s !! _); by apply bounded_loop; auto.
  - destruct (hs_inputs s !! _); by apply bounded_loop; auto.
  - destruct (hs_inputs s !! _); by apply bounded_loop; auto.
  - destruct (negb _); [by apply bounded_loop_send|]. apply bounded_loop; [by apply bounded_calls|done|done|by apply Hc].
  - apply bounded_loop_send; [|done]. by destruct Hs as [? ? ? ?]; split.
Qed.

Lemma bounded_step s c s' : bounded s -> step Url_parse initial expected s c = Some s' -> bounded s'.
Proof.
  intros Hs Hstep. unfold step in Hstep.
  assert (Hstop : forall r, loop_held (hs_loop s) = 0 -> bounded (stop_loop s r)) by (intros r Hr; apply bounded_loop; try done; cbn; lia).
  destruct (hs_loop s) as [|sending|stream epoch|stream epoch metadata|stream|channel frame|r] eqn:El; [..|done];
    (destruct c as [bytes|call|count| | |between id|id|between written| |[answer|]|between| |connected id| |id choice]; try done);
    try (injection Hstep as <-; first [by apply bounded_bytes|by apply bounded_calls|by apply Hstop]; done);
    try (destruct (hs_tasks s !! id) as [[stream' e' phase|stream' inbox phase|]|] eqn:Et; try done;
         [by eapply bounded_lookup_step|by eapply bounded_relay_step]).
  - destruct (frame_needs _); [|done]. destruct (_ && _ && _); [|done]. injection Hstep as <-. by apply bounded_bytes.
  - destruct (frame_needs _); [done|]. destruct (fresh_task s id) eqn:Ef; cbn [negb] in Hstep; [|done]. apply bool_decide_eq_true in Ef.
    destruct (frame_read _) as [frame|e]; injection Hstep as <-; [|by apply Hstop]. by apply bounded_dispatch; [apply bounded_bytes|..].
  - destruct (hs_tasks s !! id) as [[]|] eqn:Et; try done. injection Hstep as <-. apply bounded_bytes. destruct Hs as [Hp Hq Hk Hr].
    pose proof (task_sum_delete task_held _ _ _ Et). pose proof (task_sum_delete is_lookup _ _ _ Et). pose proof (task_sum_delete is_relay _ _ _ Et).
    split; fields; try done; cbn in *; lia.
  - destruct (hs_queue s) as [|q rest] eqn:Eq; [done|]. injection Hstep as <-. apply bounded_write_queued; [by apply bounded_bytes|done|]. fields. by rewrite El.
  - destruct Hs as [Hp Hq Hk Hr]. rewrite El in Hp, Hr. unfold sending_step in Hstep. destruct sending as [q|q]; cbn [loop_held sending_held connecting] in *.
    + destruct (N.leb_spec (frame_amount (qf_frame q)) (hs_permits s)); [|done]. injection Hstep as <-. split; fields; cbn [loop_held sending_held connecting]; lia.
    + destruct (N.ltb_spec (lenN (hs_queue s)) MAX_BROKER_QUEUED_FRAMES); [|done]. injection Hstep as <-.
      split; fields; cbn [loop_held connecting]; try lia.
      * rewrite queue_held_app. unfold queue_held at 2. cbn [List.map sumN foldr]. lia.
      * unfold lenN in *. rewrite length_app. cbn. lia.
  - injection Hstep as <-. apply bounded_loop; [done|by rewrite El|done|cbn; lia].
  - injection Hstep as <-. apply bounded_loop_send; [done|by rewrite El].
  - destruct (revoked _ _ _ _ _ _); [|done]. injection Hstep as <-. apply bounded_loop_send; [by apply bounded_calls|fields; by rewrite El].
  - injection Hstep as <-. destruct (authorized _ _ _ _); apply bounded_loop_send; try done; by rewrite El.
  - destruct (fresh_task s id) eqn:Ef; [|done]. apply bool_decide_eq_true in Ef. injection Hstep as <-. unfold connect_step.
    destruct (negb connected); [apply bounded_loop_send; [done|by rewrite El]|].
    destruct (bool_decide _); [apply bounded_loop_send; [by destruct Hs as [? ? ? ?]; split|fields; by rewrite El]|].
    destruct Hs as [Hp Hq Hk Hr]. rewrite El in Hp, Hr. cbn [loop_held connecting] in *.
    split; fields; rewrite ?task_sum_new by done; cbn [task_held is_lookup is_relay loop_held connecting]; lia.
  - unfold forward_step in Hstep. assert (Hend : bounded (stop_loop s (Err (Host_Protocol UnknownStream)))) by (by apply Hstop).
    destruct (hs_tasks s !! channel) as [[|stream inbox phase|]|] eqn:Et; try (by injection Hstep as <-).
    destruct (receives phase); [|by injection Hstep as <-]. destruct (_ <? _); [|done]. injection Hstep as <-.
    apply bounded_loop; [|fields; by rewrite El|done|fields; rewrite El; cbn; lia].
    destruct Hs as [Hp Hq Hk Hr]. pose proof (task_sum_replace task_held _ _ _ (Task_Relay stream (inbox ++ [frame]) phase) Et).
    pose proof (task_sum_replace is_lookup _ _ _ (Task_Relay stream (inbox ++ [frame]) phase) Et).
    pose proof (task_sum_replace is_relay _ _ _ (Task_Relay stream (inbox ++ [frame]) phase) Et). split; fields; cbn [task_held is_lookup is_relay] in *; lia.
Qed.

Lemma bounded_run choices : forall s s', bounded s -> run Url_parse initial expected s choices = Some s' -> bounded s'.
Proof.
  induction choices as [|c choices IH]; intros s s' Hs Hr; cbn [run] in Hr; [by injection Hr as <-|].
  destruct (step _ _ _ s c) as [s1|] eqn:Es; [|done]. eapply IH; [|exact Hr]. by eapply bounded_step.
Qed.

Lemma bounded_start : bounded host_start.
Proof. by split; vm_compute. Qed.
End bounds.

(** C3: a credential leaves the host only under a grant that held all along.  For every
    interleaving of the loop, its tasks, the transport, the SSH agent, Git and control requests:
    each frame on the wire was written at a step of the run; one with a credential answers a
    lookup that the loop admitted before, on the same stream, and at every moment from the step
    that admitted it to the step that wrote it the origin of that very request was granted; one
    with the author identity likewise answers an admitted request under a grant that held
    throughout; one with an answer of the agent follows a packet that was passed to the agent,
    and one and the same agent was granted from then to the write; and at the last check, after
    any requests in between, the capability was still enabled.  Every other frame has no payload. *)
Theorem broker_releases_granted Url_parse lease grants environment expected choices s :
  validate lease = Ok tt ->
  run Url_parse (backend_new lease grants environment) expected host_start choices = Some s ->
  Forall (released Url_parse (backend_new lease grants environment) expected choices) (hs_written s).
Proof.
  intros Hv Hr. assert (Hrev : grant_revision lease <> 0).
  { intros Hz. unfold validate in Hv. rewrite Hz in Hv. destruct (_ && _); done. }
  apply (safe_run _ _ _ (backend_new_ok _ _ _ Hrev) choices []) in Hr; [apply Hr|done|apply safe_start].
Qed.

(** C31: the broker stays within its limits.  In every interleaving at most 64 frames are queued, at
    most four lookups and 32 agent streams run, and the bytes of the queued frames, those of the
    senders that wait for a place in the queue and the free permits add up to exactly 512 KiB. *)
Theorem broker_bounded Url_parse initial expected choices s :
  run Url_parse initial expected host_start choices = Some s ->
  lenN (hs_queue s) <= 64 /\ task_sum is_lookup (hs_tasks s) <= 4 /\ task_sum is_relay (hs_tasks s) <= 32 /\
  queue_held (hs_queue s) + task_sum task_held (hs_tasks s) + loop_held (hs_loop s) + hs_permits s = 524288.
Proof.
  intros Hr. destruct (bounded_run _ _ _ _ _ _ bounded_start Hr) as [Hp Hq Hl Hk].
  change MAX_BROKER_QUEUED_FRAMES with 64 in *. change MAX_BROKER_HELPERS with 4 in *. change MAX_BROKER_STREAMS with 32 in *.
  change MAX_BROKER_QUEUED_BYTES with 524288 in *. split_and!; lia.
Qed.

(** ** Runs *)

(** A frame that arrives whole and is read whole. *)
Definition receive (f : BrokerFrame) (id : nat) : list Choice :=
  [Ch_Arrive (encode f); Ch_Read 1; Ch_Read 15] ++ (if lenN (payload f) =? 0 then [] else [Ch_Read (lenN (payload f))]) ++ [Ch_Dispatch [] id].

Definition broker_grants : CredentialGrants := mkGrants (Some {[req_origin sample_request]}) (Some (mkSelector ($"/run/agent"))) true.
Definition broker_backend : LiveCredentialBackend := backend_new (policy_lease 3) broker_grants None.
Definition broker_run (choices : list Choice) : option HostState := run sample_url_parse broker_backend (policy_lease 3) host_start choices.
Definition sample_response : GitCredentialResponse := mkResponse ($"alice") ($"token") None.
Definition lookup_frame : BrokerFrame := mkFrame CredentialLookup 1 (request_write_private sample_request []).
(** The lookup of stream 1 as task 0, up to its frame in the queue. *)
Definition lookup_choices : list Choice :=
  receive lookup_frame 0 ++ [Ch_Task 0 TC_Begin; Ch_Task 0 (TC_Git (Some sample_response) 0); Ch_Task 0 TC_Check; Ch_Task 0 TC_Send; Ch_Task 0 TC_Send].

Lemma broker_releases_granted_witness :
  exists s, broker_run (lookup_choices ++ [Ch_Write [] true]) = Some s /\
    hs_written s = [mkFrame CredentialResult 1 (response_write_private sample_response [])] /\
    Forall (released sample_url_parse broker_backend (policy_lease 3) (lookup_choices ++ [Ch_Write [] true])) (hs_written s).
Proof.
  destruct (broker_run (lookup_choices ++ [Ch_Write [] true])) as [s|] eqn:E.
  - exists s. split; [done|]. split; [apply (f_equal (fun x => hs_written <$> x)) in E; vm_compute in E; by injection E|].
    exact (broker_releases_granted sample_url_parse (policy_lease 3) broker_grants None (policy_lease 3) _ s eq_refl E).
  - apply (f_equal (fun x => bool_decide (is_Some (hs_written <$> x)))) in E. vm_compute in E. done.
Defined.

(** A revocation, and a new grant of the same origins, before the release: the credential is not sent. *)
Example revoked_lookup_is_denied :
  (hs_written <$> broker_run (lookup_choices ++ [Ch_Control (4, default_grants); Ch_Control (5, broker_grants); Ch_Write [] true]))
    = Some [mkFrame Error 1 []].
Proof. vm_compute. reflexivity. Qed.

Lemma broker_bounded_witness :
  exists s, broker_run lookup_choices = Some s /\ lenN (hs_queue s) = 1 /\
    queue_held (hs_queue s) + task_sum task_held (hs_tasks s) + loop_held (hs_loop s) + hs_permits s = 524288.
Proof.
  destruct (broker_run lookup_choices) as [s|] eqn:E.
  - exists s. split; [done|]. split; [apply (f_equal (fun x => (fun s => lenN (hs_queue s)) <$> x)) in E; vm_compute in E; by injection E|].
    by apply (broker_bounded sample_url_parse broker_backend (policy_lease 3) lookup_choices s E).
  - apply (f_equal (fun x => bool_decide (is_Some (hs_written <$> x)))) in E. vm_compute in E. done.
Defined.

(** A frame of the queue is written while the first byte of a frame has been read: that byte is
    lost, and the rest of the frame is not one. *)
Example select_loses_bytes :
  (hs_loop <$> broker_run (lookup_choices ++
     [Ch_Arrive (encode (mkFrame Health 0 [])); Ch_Read 1; Ch_Write [] true; Ch_Arrive [0]; Ch_Read 1; Ch_Read 15; Ch_Dispatch [] 1]))
    = Some (Loop_Stopped (Err (Host_Protocol Framing))) /\
  (hs_loop <$> broker_run (lookup_choices ++ [Ch_Write [] true] ++ receive (mkFrame Health 0 []) 1 ++ [Ch_Send; Ch_Send])) = Some Loop_Select.
Proof. split; vm_compute; reflexivity. Qed.

(** A second open of a stream is refused, but its sender has replaced the one of the open stream: the
    relay of that stream ends, and the next packet for it stops the broker. *)
Definition open_stream (id : nat) : list Choice := receive (mkFrame AgentOpen 5 []) id ++ [Ch_Connect true id].
Example second_open_breaks_stream :
  (hs_loop <$> broker_run (open_stream 1 ++ open_stream 2 ++ [Ch_Send; Ch_Send] ++
     receive (mkFrame StreamData 5 [0; 0; 0; 1; 11]) 3 ++ [Ch_Forward]))
    = Some (Loop_Stopped (Err (Host_Protocol UnknownStream))) /\
  ((fun s => relay_step broker_backend (policy_lease 3) s 1 5 [] RL_Wait TC_Closed) <$> broker_run (open_stream 1 ++ open_stream 2))
    <> Some None /\
  (hs_loop <$> broker_run (open_stream 1 ++ receive (mkFrame StreamData 5 [0; 0; 0; 1; 11]) 3 ++ [Ch_Forward])) = Some Loop_Select.
Proof. split_and!; vm_compute; done. Qed.

(** The loop is the only reader of its queue and waits for a place in it: with 64 refusals queued, the
    next one stops it for ever, whatever happens around it. *)
Definition no_grants : LiveCredentialBackend := backend_new (policy_lease 3) default_grants None.
Definition refuse_lookup : list Choice := receive lookup_frame 0 ++ [Ch_Send; Ch_Send].
Definition full_queue : list Choice := concat (repeat refuse_lookup 64) ++ receive lookup_frame 0 ++ [Ch_Send].

Definition stuck (s : HostState) : Prop :=
  hs_tasks s = ∅ /\ lenN (hs_queue s) = MAX_BROKER_QUEUED_FRAMES /\ exists q, hs_loop s = Loop_Send (Pushing q).

Lemma stuck_step Url_parse initial expected s c s' : stuck s -> step Url_parse initial expected s c = Some s' -> stuck s'.
Proof.
  intros (Ht & Hq & q & Hl) Hs. unfold step in Hs. rewrite Hl in Hs.
  destruct c as [bytes|call|count| | |between id|id|between written| |[answer|]|between| |connected id| |id choice]; try done.
  - injection Hs as <-. split_and!; eauto.
  - injection Hs as <-. split_and!; eauto.
  - unfold sending_step in Hs. by rewrite Hq, N.ltb_irrefl in Hs.
  - by rewrite Ht, lookup_empty in Hs.
Qed.

Lemma full_queue_state :
  (fun s => (bool_decide (hs_tasks s = ∅), lenN (hs_queue s), match hs_loop s with Loop_Send (Pushing _) => true | _ => false end))
    <$> run sample_url_parse no_grants (policy_lease 3) host_start full_queue = Some (true, 64, true).
Proof. vm_compute. reflexivity. Qed.

Lemma refusals_block_loop : exists s, run sample_url_parse no_grants (policy_lease 3) host_start full_queue = Some s /\
  forall choices s', run sample_url_parse no_grants (policy_lease 3) s choices = Some s' -> exists q, hs_loop s' = Loop_Send (Pushing q).
Proof.
  pose proof full_queue_state as Hf. destruct (run sample_url_parse no_grants (policy_lease 3) host_start full_queue) as [s|]; [|done].
  exists s. split; [done|]. injection Hf as H1 H2 H3. assert (Hstuck : stuck s).
  { split; [by apply bool_decide_eq_true in H1|]. split; [done|]. destruct (hs_loop s) as [|[]| | | | |]; try done. eauto. }
  clear H1 H2 H3. intros choices. revert s Hstuck. induction choices as [|c choices IH]; intros s Hs s' Hr; cbn [run] in Hr; [injection Hr as <-; apply Hs|].
  destruct (step _ _ _ s c) as [s1|] eqn:Es; [|done]. by eapply IH; [eapply stuck_step|].
Qed.
