(* ===== verification/StaticElf.v ===== *)
(** * StaticElf: structural validation of the Linux agent executable
    ([cdenv-core/src/executable.rs])

    Indexing and slicing can panic in Rust, so every access returns an [option] whose
    [None] is the panic; the outer [option] of the validator is [None] only if one of
    them is out of range.  [usize] is 64 bits wide. *)

From S2P Require Import Prelude Text.

(** @src cdenv-core/src/executable.rs:7-17 StaticElfError *)
Inductive StaticElfError : Type := Elf_Malformed | Elf_WrongMachine | Elf_Dynamic.

#[export] Instance StaticElfError_eq_dec : EqDecision StaticElfError.
Proof. solve_decision. Defined.

(** ** Slices *)

(** [&l[a..b]] *)
Definition slice (a b : N) (l : list N) : option (list N) :=
  if (a <=? b) && (b <=? lenN l) then Some (take (N.to_nat (b - a)) (drop (N.to_nat a) l)) else None.

(** [l[i]] *)
Definition index (i : N) (l : list N) : option N := l !! N.to_nat i.

(** [uN::from_le_bytes] *)
Definition from_le_bytes (l : list N) : N := foldr (fun b acc => b + 256 * acc) 0 l.

(** [l.chunks_exact(size)] for a non-zero [size]; [fuel] bounds the number of chunks. *)
Fixpoint chunks_exact (fuel size : nat) (l : list N) : list (list N) :=
  match fuel with
  | O => []
  | S fuel' =>
      if Nat.ltb (length l) size then []
      else take size l :: chunks_exact fuel' size (drop size l)
  end.

(** [need x := m in k]: [m] panics or gives [x]. *)
#[local] Notation "'need' x := m 'in' k" :=
  (match m with Some x => k | None => None end)
  (at level 10, x pattern, m at level 100, k at level 200).

Abbreviation outcome T := (option (result StaticElfError T)) (only parsing).

(** [u64::from_le_bytes(header[a..b].try_into().map_err(|_| Malformed)?)], where the array
    has [b - a] elements, so the conversion of a slice of that length succeeds.
    @src cdenv-core/src/executable.rs:56-56 validate_static_elf *)
Definition le_field (a b : N) (l : list N) : option N :=
  need s := slice a b l in Some (from_le_bytes s).

(** The body of the [for] loop, [executable] being the accumulator.
    @src cdenv-core/src/executable.rs:55-75 validate_static_elf *)
Definition elf_header_step (bytes : list N) (entry : N) (executable : bool) (header : list N) :
    outcome bool :=
  need kind := le_field 0 4 header in
  if (kind =? 2) || (kind =? 3) then Some (Err Elf_Dynamic)
  else if kind =? 1 then
    need start := le_field 8 16 header in
    need length := le_field 32 40 header in
    need memory := le_field 40 48 header in
    if (memory <? length)
       || match checked_add MAX_U64 start length with
          | Some e => lenN bytes <? e
          | None => true
          end
    then Some (Err Elf_Malformed)
    else
      need address := le_field 16 24 header in
      match checked_add MAX_U64 address length with
      | None => Some (Err Elf_Malformed)
      | Some end_address =>
          need flags := index 4 header in
          Some (Ok (executable || (negb (N.land flags 1 =? 0)
                                   && ((address <=? entry) && (entry <? end_address)))))
      end
  else Some (Ok executable).

(** @src cdenv-core/src/executable.rs:54-76 validate_static_elf *)
Fixpoint elf_headers (bytes : list N) (entry : N) (executable : bool) (headers : list (list N)) :
    outcome bool :=
  match headers with
  | [] => Some (Ok executable)
  | h :: hs =>
      need r := elf_header_step bytes entry executable h in
      match r with
      | Ok executable' => elf_headers bytes entry executable' hs
      | Err e => Some (Err e)
      end
  end.

(** The first test, with the lazy evaluation of [||]: [true] means malformed.
    @src cdenv-core/src/executable.rs:29-37 validate_static_elf *)
Definition elf_ident_malformed (bytes : list N) : option bool :=
  if lenN bytes <? 64 then Some true else
  need ident := slice 0 7 bytes in
  if negb (bool_decide (ident = [127; 69; 76; 70; 2; 1; 1])) then Some true else
  need t0 := index 16 bytes in
  need t1 := index 17 bytes in
  let ty := from_le_bytes [t0; t1] in
  if negb ((ty =? 2) || (ty =? 3)) then Some true else
  need version := slice 20 24 bytes in
  if negb (bool_decide (version = [1; 0; 0; 0])) then Some true else
  need entry := slice 24 32 bytes in
  if bool_decide (entry = replicate 8 0) then Some true else
  need ehsize := slice 52 54 bytes in
  Some (negb (bool_decide (ehsize = [64; 0]))).

(** @src cdenv-core/src/executable.rs:27-80 validate_static_elf *)
Definition validate_static_elf (bytes : list N) (machine : N) : outcome unit :=
  need malformed := elf_ident_malformed bytes in
  if malformed then Some (Err Elf_Malformed) else
  need m0 := index 18 bytes in
  need m1 := index 19 bytes in
  if negb (from_le_bytes [m0; m1] =? machine) then Some (Err Elf_WrongMachine) else
  need offset := le_field 32 40 bytes in
  need s0 := index 54 bytes in
  need s1 := index 55 bytes in
  let size := from_le_bytes [s0; s1] in
  need c0 := index 56 bytes in
  need c1 := index 57 bytes in
  let count := from_le_bytes [c0; c1] in
  match checked_mul MAX_U64 size count with
  | None => Some (Err Elf_Malformed)
  | Some table =>
  match checked_add MAX_U64 offset table with
  | None => Some (Err Elf_Malformed)
  | Some end_ =>
  if negb (size =? 56) || (count =? 0) || (offset <? 64) || (lenN bytes <? end_)
  then Some (Err Elf_Malformed) else
  need entry := le_field 24 32 bytes in
  need table := slice offset end_ bytes in
  need r := elf_headers bytes entry false
              (chunks_exact (length table) (N.to_nat size) table) in
  match r with
  | Err e => Some (Err e)
  | Ok executable => if negb executable then Some (Err Elf_Malformed) else Some (Ok tt)
  end
  end
  end.

(** ** The specification: a static executable of a machine *)

(** The little-endian field of [w] bytes at [pos]. *)
Definition field_at (bytes : list N) (pos w : N) : N :=
  from_le_bytes (take (N.to_nat w) (drop (N.to_nat pos) bytes)).

Section spec.
Context (bytes : list N) (machine : N).

Definition ph_offset : N := field_at bytes 32 8.
Definition ph_count : N := field_at bytes 56 2.
Definition elf_entry : N := field_at bytes 24 8.
(** Field [pos] of program header [i]. *)
Definition ph (i pos w : N) : N := field_at bytes (ph_offset + 56 * i + pos) w.

Record elf_ident : Prop := {
  ei_length : 64 <= lenN bytes;
  ei_magic : take 7 bytes = [127; 69; 76; 70; 2; 1; 1];
  ei_type : field_at bytes 16 2 = 2 \/ field_at bytes 16 2 = 3;
  ei_version : take 4 (drop 20 bytes) = [1; 0; 0; 0];
  ei_entry : take 8 (drop 24 bytes) <> replicate 8 0;
  ei_ehsize : take 2 (drop 52 bytes) = [64; 0];
}.

(** Program header [i] is neither dynamic nor an interpreter, and a loadable segment
    lies inside the file and does not wrap in memory. *)
Definition ph_ok (i : N) : Prop :=
  ph i 0 4 <> 2 /\ ph i 0 4 <> 3 /\
  (ph i 0 4 = 1 -> ph i 32 8 <= ph i 40 8 /\ ph i 8 8 + ph i 32 8 <= lenN bytes /\
                   ph i 16 8 + ph i 32 8 <= MAX_U64).

(** Program header [i] loads the entry point from the file into executable memory. *)
Definition ph_executes (i : N) : Prop :=
  ph i 0 4 = 1 /\ N.odd (ph i 4 1) = true /\
  ph i 16 8 <= elf_entry < ph i 16 8 + ph i 32 8.

Record static_elf : Prop := {
  se_ident : elf_ident;
  se_machine : field_at bytes 18 2 = machine;
  se_phentsize : field_at bytes 54 2 = 56;
  se_count : ph_count <> 0;
  se_after_header : 64 <= ph_offset;
  se_table : ph_offset + 56 * ph_count <= lenN bytes;
  se_headers : forall i, i < ph_count -> ph_ok i;
  se_executable : exists i, i < ph_count /\ ph_executes i;
}.
End spec.

(** ** Accesses in range *)

Lemma slice_Some a b l :
  a <= b -> b <= lenN l -> slice a b l = Some (take (N.to_nat (b - a)) (drop (N.to_nat a) l)).
Proof. intros. unfold slice. by destruct (N.leb_spec a b), (N.leb_spec b (lenN l)); try lia. Qed.

Lemma le_field_Some a b l :
  a <= b -> b <= lenN l -> le_field a b l = Some (field_at l a (b - a)).
Proof. intros. unfold le_field. by rewrite slice_Some. Qed.

Lemma index_pair i l :
  i + 1 < lenN l ->
  exists v0 v1, index i l = Some v0 /\ index (i + 1) l = Some v1 /\
    from_le_bytes [v0; v1] = field_at l i 2.
Proof.
  unfold lenN, index, field_at. intros Hi.
  destruct (lookup_lt_is_Some_2 l (N.to_nat i)) as [v0 E0]; [lia|].
  destruct (lookup_lt_is_Some_2 l (N.to_nat (i + 1))) as [v1 E1]; [lia|].
  exists v0, v1. split_and!; auto.
  rewrite (drop_S _ _ _ E0). replace (N.to_nat (i + 1)) with (S (N.to_nat i)) in E1 by lia.
  by rewrite (drop_S _ _ _ E1).
Qed.

Lemma index_byte i l :
  i < lenN l -> exists v, index i l = Some v /\ field_at l i 1 = v.
Proof.
  unfold lenN, index, field_at. intros Hi.
  destruct (lookup_lt_is_Some_2 l (N.to_nat i)) as [v E]; [lia|].
  exists v. split; [done|]. rewrite (drop_S _ _ _ E).
  change (take (N.to_nat 1) (v :: drop (S (N.to_nat i)) l)) with [v]. simpl. lia.
Qed.

Lemma chunks_exact_spec size count fuel l :
  (0 < size)%nat -> length l = (size * count)%nat -> (count <= fuel)%nat ->
  chunks_exact fuel size l = List.map (fun i => take size (drop (size * i) l)) (seq 0 count).
Proof.
  intros Hs. revert fuel l. induction count as [|count IH]; intros fuel l Hl Hf.
  - destruct fuel; [done|]. simpl. destruct (Nat.ltb_spec (length l) size); [done|lia].
  - destruct fuel as [|fuel]; [lia|]. cbn [chunks_exact seq List.map].
    destruct (Nat.ltb_spec (length l) size); [nia|]. rewrite Nat.mul_0_r. f_equal.
    rewrite IH by (rewrite ?length_drop; lia). rewrite <- seq_shift, List.map_map.
    apply map_ext. intros i. rewrite drop_drop. by rewrite Nat.mul_succ_r, Nat.add_comm.
Qed.

Section correctness.
Context (bytes : list N).

Lemma elf_ident_malformed_spec :
  exists b, elf_ident_malformed bytes = Some b /\ (b = false <-> elf_ident bytes).
Proof.
  unfold elf_ident_malformed. destruct (N.ltb_spec (lenN bytes) 64) as [Hl|Hl].
  { exists true. split; [done|]. split; [done|]. intros []. lia. }
  rewrite !slice_Some by lia. cbn iota.
  destruct (index_pair 16 bytes) as (t0 & t1 & E0 & E1 & Et); [lia|].
  change (16 + 1) with 17 in E1.
  change (take (N.to_nat (7 - 0)) (drop (N.to_nat 0) bytes)) with (take 7 bytes).
  change (take (N.to_nat (24 - 20)) (drop (N.to_nat 20) bytes)) with (take 4 (drop 20 bytes)).
  change (take (N.to_nat (32 - 24)) (drop (N.to_nat 24) bytes)) with (take 8 (drop 24 bytes)).
  change (take (N.to_nat (54 - 52)) (drop (N.to_nat 52) bytes)) with (take 2 (drop 52 bytes)).
  rewrite E0, E1, Et. cbv zeta.
  case_bool_decide; simpl; [|exists true; split; [done|]; split; [done|]; by intros []].
  destruct (N.eqb_spec (field_at bytes 16 2) 2), (N.eqb_spec (field_at bytes 16 2) 3); cbn [orb negb].
  4: exists true; split; [done|]; split; [done|]; by intros [? ? [] ? ? ?].
  all: case_bool_decide; simpl; [|exists true; split; [done|]; split; [done|]; by intros []].
  all: case_bool_decide; simpl; [exists true; split; [done|]; split; [done|]; by intros []|].
  all: case_bool_decide; simpl; [|exists true; split; [done|]; split; [done|]; by intros []].
  all: exists false; split; [done|]; split; [|done]; intros _; constructor; auto.
Qed.

Definition ph_chunk (i : N) : list N :=
  take 56 (drop (N.to_nat (ph_offset bytes + 56 * i)) bytes).

Lemma ph_chunk_field i pos w :
  pos + w <= 56 -> field_at (ph_chunk i) pos w = ph bytes i pos w.
Proof.
  intros Hp. unfold field_at, ph, ph_chunk, field_at. f_equal.
  rewrite skipn_firstn_comm, take_take, drop_drop. f_equal; [lia|]. f_equal. lia.
Qed.

Lemma odd_land n : N.odd n = negb (N.land n 1 =? 0).
Proof.
  change 1 with (N.ones 1) at 1. rewrite N.land_ones. change (2 ^ 1) with 2.
  rewrite <- N.bit0_mod, N.bit0_odd. by destruct (N.odd n).
Qed.

Hypothesis (Hmax : lenN bytes <= MAX_U64).

(** One program header: never a panic, and accepted exactly when it is well formed. *)
Lemma elf_header_step_spec e i :
  lenN (ph_chunk i) = 56 ->
  exists r, elf_header_step bytes (elf_entry bytes) e (ph_chunk i) = Some r /\
    (ph_ok bytes i -> is_ok r = true) /\
    (forall e', r = Ok e' -> ph_ok bytes i /\ (e' = true <-> e = true \/ ph_executes bytes i)).
Proof.
  intros Hlen. unfold elf_header_step, ph_ok, ph_executes.
  rewrite !le_field_Some by lia. rewrite !ph_chunk_field by lia.
  change (4 - 0) with 4. change (16 - 8) with 8. change (40 - 32) with 8. change (48 - 40) with 8.
  change (24 - 16) with 8.
  destruct (index_byte 4 (ph_chunk i)) as (flags & Ef & Hf); [lia|]. rewrite ph_chunk_field in Hf by lia.
  rewrite Ef, Hf, odd_land. unfold checked_add. clear Ef Hf Hlen.
  generalize (ph bytes i 0 4) (ph bytes i 8 8) (ph bytes i 32 8) (ph bytes i 40 8) (ph bytes i 16 8)
    (elf_entry bytes) (negb (N.land flags 1 =? 0)).
  intros kind start len memory address entry exec.
  destruct (N.eqb_spec kind 2); [by eexists; split; [done|]; split; [lia|]|].
  destruct (N.eqb_spec kind 3); [by eexists; split; [done|]; split; [lia|]|]. cbn [orb].
  destruct (N.eqb_spec kind 1); [|by eexists; split; [done|]; split; [done|]; intros e' [= <-];
    split; [lia|]; split; [auto|]; intros [?|?]; [done|lia]].
  destruct (N.ltb_spec memory len); cbn [orb]; [by eexists; split; [done|]; split; [lia|]|].
  destruct (N.leb_spec (start + len) MAX_U64); [|by eexists; split; [done|]; split; [lia|]].
  destruct (N.ltb_spec (lenN bytes) (start + len)); [by eexists; split; [done|]; split; [lia|]|].
  destruct (N.leb_spec (address + len) MAX_U64); [|by eexists; split; [done|]; split; [lia|]].
  eexists. split; [done|]. split; [done|]. intros e' [= <-]. split; [lia|].
  rewrite orb_true_iff, !andb_true_iff, N.leb_le, N.ltb_lt. naive_solver.
Qed.

Lemma elf_headers_spec e ks :
  Forall (fun i => lenN (ph_chunk i) = 56) ks ->
  exists r, elf_headers bytes (elf_entry bytes) e (List.map ph_chunk ks) = Some r /\
    (Forall (ph_ok bytes) ks -> is_ok r = true) /\
    (forall e', r = Ok e' -> Forall (ph_ok bytes) ks /\
       (e' = true <-> e = true \/ Exists (ph_executes bytes) ks)).
Proof.
  intros H. revert e. induction H as [|i ks Hi Hks IH]; intros e; cbn [List.map elf_headers].
  - exists (Ok e). split_and!; try done. intros e' [= <-]. rewrite Exists_nil. naive_solver.
  - destruct (elf_header_step_spec e i Hi) as (r & -> & Hr1 & Hr2). destruct r as [e1|err].
    + destruct (Hr2 e1 eq_refl) as [Hok He1]. destruct (IH e1) as (r & -> & Hr3 & Hr4).
      exists r. split; [done|]. split; [by intros [_ ?]%Forall_cons; auto|].
      intros e' ->. destruct (Hr4 e' eq_refl) as [Hoks He']. split; [by constructor|].
      rewrite Exists_cons. tauto.
    + exists (Err err). split; [done|]. split; [|done]. intros [Hi' _]%Forall_cons. by apply Hr1 in Hi'.
Qed.

Lemma is_ok_spec {T} (r : result StaticElfError T) : is_ok r = true <-> exists t, r = Ok t.
Proof. destruct r; naive_solver. Qed.

Lemma ph_table_chunks :
  64 <= ph_offset bytes -> ph_offset bytes + 56 * ph_count bytes <= lenN bytes ->
  let table := take (N.to_nat (ph_offset bytes + 56 * ph_count bytes - ph_offset bytes))
                 (drop (N.to_nat (ph_offset bytes)) bytes) in
  let ks := List.map N.of_nat (seq 0 (N.to_nat (ph_count bytes))) in
  chunks_exact (length table) 56 table = List.map ph_chunk ks /\
  Forall (fun i => lenN (ph_chunk i) = 56) ks /\ (forall i, i ∈ ks <-> i < ph_count bytes).
Proof.
  intros Ho Hend table ks. assert (Hks : forall i, i ∈ ks <-> i < ph_count bytes).
  { intros i. unfold ks. rewrite list_elem_of_In, in_map_iff. setoid_rewrite in_seq. split.
    - intros (k & <- & Hk). lia.
    - intros Hi. exists (N.to_nat i). lia. }
  unfold lenN in Hend.
  assert (Hlen : length table = (56 * N.to_nat (ph_count bytes))%nat)
    by (unfold table; rewrite length_take, length_drop; lia).
  split_and!; [| |done].
  - rewrite (chunks_exact_spec 56 (N.to_nat (ph_count bytes))) by lia.
    unfold ks. rewrite List.map_map. apply map_ext_in. intros i Hi%in_seq. unfold table, ph_chunk.
    rewrite skipn_firstn_comm, take_take, drop_drop. f_equal; [lia|]. f_equal. lia.
  - apply Forall_forall. intros i Hi%Hks. unfold lenN, ph_chunk. rewrite length_take, length_drop. lia.
Qed.
End correctness.

(** the executable validator never panics and accepts exactly the static executables.
    For every byte string (of a length the address space allows) and machine, all slices
    and indices stay in range, and the result is [Ok] iff the file is a 64-bit
    little-endian executable for that machine whose program-header table lies in the file
    after the ELF header, no program header is dynamic or an interpreter, every loadable
    segment lies inside the file and does not wrap, and the entry point is loaded from the
    file into an executable segment. *)
Theorem static_elf_validation bytes machine :
  lenN bytes <= MAX_U64 ->
  exists r, validate_static_elf bytes machine = Some r /\ (r = Ok tt <-> static_elf bytes machine).
Proof.
  intros Hmax. unfold validate_static_elf.
  destruct (elf_ident_malformed_spec bytes) as (b & -> & Hb).
  destruct b; [exists (Err Elf_Malformed); split; [done|]; split; [done|]; intros []; naive_solver|].
  assert (Hid : elf_ident bytes) by naive_solver. assert (Hlen := ei_length _ Hid).
  destruct (index_pair 18 bytes) as (m0 & m1 & Em0 & Em1 & Em); [lia|].
  destruct (index_pair 54 bytes) as (s0 & s1 & Es0 & Es1 & Es); [lia|].
  destruct (index_pair 56 bytes) as (c0 & c1 & Ec0 & Ec1 & Ec); [lia|].
  change (18 + 1) with 19 in Em1. change (54 + 1) with 55 in Es1. change (56 + 1) with 57 in Ec1.
  rewrite Em0, Em1, Em, Es0, Es1, Es, Ec0, Ec1, Ec.
  destruct (N.eqb_spec (field_at bytes 18 2) machine) as [Hm|];
    [|by eexists; split; [done|]; split; [done|]; intros []]. cbn [negb].
  rewrite !le_field_Some by lia. change (40 - 32) with 8. change (32 - 24) with 8.
  fold (ph_offset bytes) (elf_entry bytes) (ph_count bytes). cbv zeta. unfold checked_mul, checked_add.
  destruct (N.leb_spec (field_at bytes 54 2 * ph_count bytes) MAX_U64);
    [|eexists; split; [done|]; split; [done|]; intros []; lia].
  destruct (N.leb_spec (ph_offset bytes + field_at bytes 54 2 * ph_count bytes) MAX_U64);
    [|eexists; split; [done|]; split; [done|]; intros []; lia].
  destruct (N.eqb_spec (field_at bytes 54 2) 56) as [Hs|]; cbn [negb orb];
    [|by eexists; split; [done|]; split; [done|]; intros []].
  rewrite Hs in *. destruct (N.eqb_spec (ph_count bytes) 0) as [Hc|Hc]; cbn [orb];
    [by eexists; split; [done|]; split; [done|]; intros []|].
  destruct (N.ltb_spec (ph_offset bytes) 64) as [Ho|Ho]; cbn [orb];
    [eexists; split; [done|]; split; [done|]; intros []; lia|].
  destruct (N.ltb_spec (lenN bytes) (ph_offset bytes + 56 * ph_count bytes)) as [He|He];
    [eexists; split; [done|]; split; [done|]; intros []; lia|].
  rewrite slice_Some by lia. change (N.to_nat 56) with 56%nat.
  destruct (ph_table_chunks bytes Hmax Ho He) as (-> & Hks & Hin).
  destruct (elf_headers_spec bytes Hmax false _ Hks) as (r & -> & Hr1 & Hr2).
  setoid_rewrite Forall_forall in Hr1. setoid_rewrite Forall_forall in Hr2.
  setoid_rewrite Exists_exists in Hr2. setoid_rewrite Hin in Hr1. setoid_rewrite Hin in Hr2.
  destruct r as [e|err].
  - destruct (Hr2 e eq_refl) as [Hok Hex]. destruct e; cbn [negb]; eexists; (split; [done|]).
    + split; [intros _|done]. constructor; auto. destruct Hex as [Hex _]. naive_solver.
    + split; [done|]. intros []. naive_solver.
  - eexists. split; [done|]. split; [done|]. intros []. by discriminate Hr1.
Qed.

(** The smallest accepted file: one executable segment that maps the whole file. *)
Definition sample_elf : list N :=
  [127; 69; 76; 70; 2; 1; 1] ++ replicate 9 0 ++ [2; 0; 62; 0; 1; 0; 0; 0] ++ [1] ++ replicate 7 0
  ++ [64] ++ replicate 19 0 ++ [64; 0; 56; 0; 1; 0] ++ replicate 6 0
  ++ [1; 0; 0; 0; 1] ++ replicate 27 0 ++ [120] ++ replicate 7 0 ++ [120] ++ replicate 15 0.

Lemma static_elf_validation_witness :
  lenN sample_elf <= MAX_U64 /\ validate_static_elf sample_elf 62 = Some (Ok tt) /\
  static_elf sample_elf 62.
Proof.
  assert (Hl : lenN sample_elf <= MAX_U64) by (vm_compute; discriminate).
  assert (E : validate_static_elf sample_elf 62 = Some (Ok tt)) by (vm_compute; reflexivity).
  split; [exact Hl|]. split; [exact E|].
  destruct (static_elf_validation sample_elf 62 Hl) as (r & Hr & Hs).
  apply Hs. rewrite E in Hr. by injection Hr as <-.
Defined.
