(* ===== verification/GitIdentity.v ===== *)
(** * GitIdentity: the author identity carried by the credential broker
    ([cdenv-core/src/git_identity.rs])

    The JSON codec of the record is a class with one law: what [serde_json] writes it reads back. *)

From S2P Require Import Prelude Text Utf8.

(** @src cdenv-core/src/git_identity.rs:11-11 MAX_GIT_IDENTITY_BYTES *)
Definition MAX_GIT_IDENTITY_BYTES : N := 16 * 1024.
(** @src cdenv-core/src/git_identity.rs:13-13 MAX_GIT_IDENTITY_FIELD_BYTES *)
Definition MAX_GIT_IDENTITY_FIELD_BYTES : N := 8 * 1024.

(** @src cdenv-core/src/git_identity.rs:18-21 GitIdentityMetadata *)
Record GitIdentityMetadata : Type := mkGitIdentity { identity_name : option str; identity_email : option str }.

(** @src cdenv-core/src/git_identity.rs:102-112 GitIdentityError *)
Inductive GitIdentityError : Type := GitIdentity_Bounds | GitIdentity_InvalidField | GitIdentity_Encoding.

(** [serde_json::to_vec] and [serde_json::from_slice] of the closed record. *)
Class IdentitySerde : Type := {
  identity_to_vec : GitIdentityMetadata -> option (list N);
  identity_from_slice : list N -> option GitIdentityMetadata;
}.
Class IdentitySerdeLaws `{IdentitySerde} : Prop := {
  identity_codec : forall m bytes, identity_to_vec m = Some bytes -> identity_from_slice bytes = Some m;
}.

(** @src cdenv-core/src/git_identity.rs:90-98 validate_field *)
Definition validate_field (value : option str) : result GitIdentityError unit :=
  if match value with
     | Some value => (MAX_GIT_IDENTITY_FIELD_BYTES <? str_len value) || existsb is_control value
     | None => false
     end
  then Err GitIdentity_InvalidField else Ok tt.

(** @src cdenv-core/src/git_identity.rs:40-44 GitIdentityMetadata::new *)
Definition git_identity_new (name email : option str) : result GitIdentityError GitIdentityMetadata :=
  let? _ := validate_field name in
  let? _ := validate_field email in
  Ok (mkGitIdentity name email).

Section codec.
Context `{IdentitySerde}.

(** @src cdenv-core/src/git_identity.rs:63-71 GitIdentityMetadata::encode *)
Definition git_identity_encode (m : GitIdentityMetadata) : result GitIdentityError (list N) :=
  let? _ := validate_field (identity_name m) in
  let? _ := validate_field (identity_email m) in
  let? bytes := ok_or GitIdentity_Encoding (identity_to_vec m) in
  fail_if MAX_GIT_IDENTITY_BYTES <? lenN bytes with GitIdentity_Bounds in
  Ok bytes.

(** @src cdenv-core/src/git_identity.rs:78-87 GitIdentityMetadata::decode *)
Definition git_identity_decode (bytes : list N) : result GitIdentityError GitIdentityMetadata :=
  fail_if MAX_GIT_IDENTITY_BYTES <? lenN bytes with GitIdentity_Bounds in
  let? m := ok_or GitIdentity_Encoding (identity_from_slice bytes) in
  let? _ := validate_field (identity_name m) in
  let? _ := validate_field (identity_email m) in
  Ok m.

(** ** Properties *)

(** A field that may be sent: bounded, and without line breaks or other controls. *)
Definition sendable (value : option str) : Prop :=
  forall s, value = Some s -> str_len s <= MAX_GIT_IDENTITY_FIELD_BYTES /\ Forall (fun c => is_control c = false) s.

Lemma validate_field_Ok value u : validate_field value = Ok u <-> sendable value.
Proof.
  destruct u. unfold validate_field, sendable. destruct value as [s|]; [|by split].
  destruct ((_ <? _) || _)%bool eqn:E; prop_of_bool.
  - split; [done|]. intros Hs. destruct (Hs s eq_refl) as [Hl Hc]. rewrite <- existsb_false_iff in Hc.
    destruct E as [E|E]; prop_of_bool; [lia|congruence].
  - split; [|done]. intros _ s' [= <-]. split; [done|]. by apply existsb_false_iff.
Qed.

(** What one side of the bridge encodes the other decodes to the same identity; whatever is
    decoded, from any bytes, has fields without control characters and within the bound. *)
Theorem git_identity_roundtrip `{!IdentitySerdeLaws} :
  (forall m bytes, git_identity_encode m = Ok bytes -> git_identity_decode bytes = Ok m) /\
  (forall bytes m, git_identity_decode bytes = Ok m -> sendable (identity_name m) /\ sendable (identity_email m)).
Proof.
  split.
  - intros m bytes E. unfold git_identity_encode in E.
    destruct (validate_field (identity_name m)) as [[]|] eqn:Hn; [|done].
    destruct (validate_field (identity_email m)) as [[]|] eqn:He; [|done].
    destruct (identity_to_vec m) as [b|] eqn:Hv; [|done]. cbn [ok_or] in E.
    destruct (N.ltb_spec MAX_GIT_IDENTITY_BYTES (lenN b)); [done|]. injection E as <-.
    unfold git_identity_decode. rewrite (proj2 (N.ltb_ge _ _)) by done.
    rewrite (identity_codec _ _ Hv). cbn [ok_or]. by rewrite Hn, He.
  - intros bytes m E. unfold git_identity_decode in E. destruct (_ <? _); [done|].
    destruct (identity_from_slice bytes) as [m'|]; [|done]. cbn [ok_or] in E.
    destruct (validate_field (identity_name m')) eqn:Hn; [|done].
    destruct (validate_field (identity_email m')) eqn:He; [|done]. injection E as <-.
    apply validate_field_Ok in Hn, He. done.
Qed.
End codec.
