(* ===== verification/Substitution.v ===== *)
(** * Substitution: staged Dev Container variable substitution
    ([cdenv-devcontainer/src/substitution.rs])

    [serde_json::to_vec] and [Sha256::digest] are parameters: the former of a sorted
    label map, the latter a function from bytes to bytes.  The scan over [index] is a
    recursion on the remaining input with a fuel of its length, which is enough because
    every round consumes at least one character ([substitute_loop_denotes]). *)

From S2P Require Import Prelude Text.

(** ** Properties and errors *)

(** @src cdenv-devcontainer/src/substitution.rs:34-61 SubstitutionProperty *)
Inductive SubstitutionProperty : Type :=
| Prop_Name | Prop_BuildArgument | Prop_RunArgument | Prop_WorkspaceFolder | Prop_WorkspaceMount
| Prop_Mount | Prop_ContainerEnv | Prop_RemoteEnv | Prop_ContainerUser | Prop_RemoteUser
| Prop_LifecycleCommand | Prop_Customization | Prop_FeatureEntrypoint.

#[export] Instance SubstitutionProperty_eq_dec : EqDecision SubstitutionProperty.
Proof. solve_decision. Defined.

(** @src cdenv-devcontainer/src/substitution.rs:64-66 allows_devcontainer_id *)
Definition allows_devcontainer_id (p : SubstitutionProperty) : bool :=
  match p with Prop_BuildArgument => false | _ => true end.

(** @src cdenv-devcontainer/src/substitution.rs:68-70 allows_container_env *)
Definition allows_container_env (p : SubstitutionProperty) : bool :=
  match p with Prop_RemoteEnv | Prop_LifecycleCommand => true | _ => false end.

(** @src cdenv-devcontainer/src/substitution.rs:347-363 SubstitutionError *)
Inductive SubstitutionError : Type :=
| Subst_Malformed (property : SubstitutionProperty)
| Subst_Disallowed (property : SubstitutionProperty) (variable : str)
| Subst_Unsupported (property : SubstitutionProperty) (variable : str).

(** ** Deferred strings *)

(** @src cdenv-devcontainer/src/substitution.rs:92-95 Segment *)
Inductive Segment : Type :=
| Segment_Literal (text : str)
| Segment_ContainerEnv (name default : str).

(** @src cdenv-devcontainer/src/substitution.rs:87-89 DeferredString *)
Record DeferredString : Type := mkDeferred { segments_of : list Segment }.

#[export] Instance Segment_eq_dec : EqDecision Segment.
Proof. solve_decision. Defined.
#[export] Instance DeferredString_eq_dec : EqDecision DeferredString.
Proof. solve_decision. Defined.

(** @src cdenv-devcontainer/src/substitution.rs:127-131 requires_container_environment *)
Definition requires_container_environment (d : DeferredString) : bool :=
  existsb (fun s => match s with Segment_ContainerEnv _ _ => true | _ => false end) (segments_of d).

(** What one segment contributes. @src cdenv-devcontainer/src/substitution.rs:147-154 resolve *)
Definition resolve_segment (container_env : gmap (list N) (list N)) (s : Segment) : str :=
  match s with
  | Segment_Literal text => text
  | Segment_ContainerEnv name dflt => default dflt (container_env !! name)
  end.

(** @src cdenv-devcontainer/src/substitution.rs:145-156 DeferredString::resolve *)
Definition resolve (d : DeferredString) (container_env : gmap (list N) (list N)) : str :=
  fold_left (fun value s => value ++ resolve_segment container_env s) (segments_of d) [].

(** ** Identity labels and the identifier *)

(** @src cdenv-devcontainer/src/substitution.rs:16-21 StableIdentityLabels::new *)
Definition StableIdentityLabels_new (installation_id workspace_name : str) :
    gmap (list N) (list N) :=
  {[ $"cdenv.installation" := installation_id; $"cdenv.workspace" := workspace_name ]}.

(** @src cdenv-devcontainer/src/substitution.rs:322-322 DIGITS *)
Definition DIGITS : list char := $"0123456789abcdefghijklmnopqrstuv".

(** One pass of the inner loop: the quotient digits and the carry.
    @src cdenv-devcontainer/src/substitution.rs:326-331 base32_big_integer *)
Fixpoint divide_by_32 (carry : N) (number : list N) : list N * N :=
  match number with
  | [] => ([], carry)
  | byte :: rest =>
      let value := N.lor (N.shiftl carry 8) byte in
      let quotient := if value / 32 <=? 255 then value / 32 else 0 in
      let '(rest', carry') := divide_by_32 (value mod 32) rest in
      (quotient :: rest', carry')
  end.

(** The outer [while]; [output] is pushed at the end.
    @src cdenv-devcontainer/src/substitution.rs:325-333 base32_big_integer *)
Fixpoint base32_digits (fuel : nat) (number output : list N) : list N :=
  match fuel with
  | O => output
  | S fuel' =>
      if existsb (fun byte => negb (byte =? 0)) number then
        let '(number', carry) := divide_by_32 0 number in
        base32_digits fuel' number' (output ++ [nth (N.to_nat carry) DIGITS 0])
      else output
  end.

(** A number of [k] bytes has at most [8 k] base-32 digits.
    @src cdenv-devcontainer/src/substitution.rs:321-339 base32_big_integer *)
Definition base32_big_integer (bytes : list N) : str :=
  let output := base32_digits (S (8 * length bytes)) bytes [] in
  let output := output ++ replicate (52 - length output) 48 in
  rev output.

(** ** Expressions *)

(** [splitn(2, ':')] of the text after the prefix.
    @src cdenv-devcontainer/src/substitution.rs:300-311 environment_expression *)
Definition environment_expression (rest : str) (property : SubstitutionProperty) :
    result SubstitutionError (str * str) :=
  let '(name, dflt) := match split_once ($":") rest with
                       | Some (name, dflt) => (name, dflt)
                       | None => (rest, [])
                       end in
  fail_if bool_decide (name = []) with Subst_Malformed property in
  Ok (name, dflt).

(** @src cdenv-devcontainer/src/substitution.rs:313-315 expression_name *)
Definition expression_name (expression : str) : str :=
  default ($"unknown") (head (split 58 expression)).

(** @src cdenv-devcontainer/src/substitution.rs:317-319 basename *)
Definition basename (path : str) : str := last_piece 47 (trim_end_matches 47 path).

(** @src cdenv-devcontainer/src/substitution.rs:74-83 HostSubstitutionInputs *)
Record HostSubstitutionInputs : Type := mkInputs {
  local_workspace_folder : str;
  container_workspace_folder : str;
  local_env : gmap (list N) (list N);
  identity_labels : gmap (list N) (list N);
}.

(** What the [match] on an expression decides: replacement text, or a deferred lookup. *)
Inductive Replacement : Type :=
| Replace_Text (text : str)
| Replace_ContainerEnv (name default : str).

Section substitution.
Context (to_vec : gmap (list N) (list N) -> option (list N)) (Sha256_digest : list N -> list N).

(** @src cdenv-devcontainer/src/substitution.rs:25-28 StableIdentityLabels::devcontainer_id *)
Definition devcontainer_id (labels : gmap (list N) (list N)) : str :=
  base32_big_integer (Sha256_digest (default [] (to_vec labels))).

(** @src cdenv-devcontainer/src/substitution.rs:250-290 substitute_host *)
Definition replacement (property : SubstitutionProperty) (context : HostSubstitutionInputs)
    (expression : str) : result SubstitutionError Replacement :=
  if str_eqb expression ($"localWorkspaceFolder") then
    Ok (Replace_Text (local_workspace_folder context))
  else if str_eqb expression ($"localWorkspaceFolderBasename") then
    Ok (Replace_Text (basename (local_workspace_folder context)))
  else if str_eqb expression ($"containerWorkspaceFolder") then
    Ok (Replace_Text (container_workspace_folder context))
  else if str_eqb expression ($"containerWorkspaceFolderBasename") then
    Ok (Replace_Text (basename (container_workspace_folder context)))
  else if str_eqb expression ($"devcontainerId") then
    if allows_devcontainer_id property then
      Ok (Replace_Text (devcontainer_id (identity_labels context)))
    else Err (Subst_Disallowed property ($"devcontainerId"))
  else match strip_prefix ($"localEnv:") expression with
  | Some rest =>
      let? (name, dflt) := environment_expression rest property in
      Ok (Replace_Text (default dflt (local_env context !! name)))
  | None =>
  match strip_prefix ($"containerEnv:") expression with
  | Some rest =>
      if allows_container_env property then
        let? (name, dflt) := environment_expression rest property in
        Ok (Replace_ContainerEnv name dflt)
      else Err (Subst_Disallowed property ($"containerEnv"))
  | None => Err (Subst_Unsupported property (expression_name expression))
  end
  end.

(** The final push. @src cdenv-devcontainer/src/substitution.rs:294-297 substitute_host *)
Definition finish (segments : list Segment) (literal : str) : DeferredString :=
  if negb (bool_decide (literal = [])) || bool_decide (segments = [])
  then mkDeferred (segments ++ [Segment_Literal literal])
  else mkDeferred segments.

(** The loop; [remainder] is [&input[index..]].
    @src cdenv-devcontainer/src/substitution.rs:225-297 substitute_host *)
Fixpoint substitute_loop (fuel : nat) (property : SubstitutionProperty)
    (context : HostSubstitutionInputs) (remainder : str) (segments : list Segment)
    (literal : str) : result SubstitutionError DeferredString :=
  match remainder, fuel with
  | [], _ => Ok (finish segments literal)
  | _, O => Err (Subst_Malformed property)
  | character :: rest, S fuel' =>
      match strip_prefix ($"$${") remainder with
      | Some rest' => substitute_loop fuel' property context rest' segments (literal ++ $"${")
      | None =>
      match strip_prefix ($"${") remainder with
      | None => substitute_loop fuel' property context rest segments (literal ++ [character])
      | Some after =>
          match split_once ($"}") after with
          | None => Err (Subst_Malformed property)
          | Some (expression, rest') =>
              let? r := replacement property context expression in
              match r with
              | Replace_Text text =>
                  substitute_loop fuel' property context rest' segments (literal ++ text)
              | Replace_ContainerEnv name dflt =>
                  let segments' :=
                    if bool_decide (literal = []) then segments
                    else segments ++ [Segment_Literal literal] in
                  substitute_loop fuel' property context rest'
                    (segments' ++ [Segment_ContainerEnv name dflt]) []
              end
          end
      end
      end
  end.

(** @src cdenv-devcontainer/src/substitution.rs:217-298 substitute_host *)
Definition substitute_host (property : SubstitutionProperty) (input : str)
    (context : HostSubstitutionInputs) : result SubstitutionError DeferredString :=
  substitute_loop (length input) property context input [] [].

End substitution.

(** ** What an input denotes *)

Section denotation.
Context (to_vec : gmap (list N) (list N) -> option (list N)) (Sha256_digest : list N -> list N).
Context (property : SubstitutionProperty) (context : HostSubstitutionInputs).

(** The value of an expression once the container environment is known. *)
Definition replacement_value (env : gmap (list N) (list N)) (r : Replacement) : str :=
  match r with
  | Replace_Text text => text
  | Replace_ContainerEnv name dflt => default dflt (env !! name)
  end.

(** [denotes env input v]: reading [input] from left to right, an escape [$${] is a literal
    [${], an expression [${e}] is its value, any other character is itself. *)
Inductive denotes (env : gmap (list N) (list N)) : str -> str -> Prop :=
| den_nil : denotes env [] []
| den_escape rest v : denotes env rest v -> denotes env ($"$${" ++ rest) ($"${" ++ v)
| den_expression e r rest v :
    (125 ∉ e) -> replacement to_vec Sha256_digest property context e = Ok r ->
    denotes env rest v ->
    denotes env ($"${" ++ e ++ $"}" ++ rest) (replacement_value env r ++ v)
| den_character c rest v :
    starts_with ($"$${") (c :: rest) = false -> starts_with ($"${") (c :: rest) = false ->
    denotes env rest v -> denotes env (c :: rest) (c :: v).

Definition flatten (env : gmap (list N) (list N)) (segs : list Segment) : str :=
  concat (List.map (resolve_segment env) segs).

Lemma resolve_flatten d env : resolve d env = flatten env (segments_of d).
Proof.
  unfold resolve, flatten. change (concat (List.map (resolve_segment env) (segments_of d)))
    with ([] ++ concat (List.map (resolve_segment env) (segments_of d))).
  generalize (@nil N) as acc. induction (segments_of d) as [|s l IH]; intros acc; simpl.
  - by rewrite app_nil_r.
  - by rewrite IH, app_assoc.
Qed.

Lemma flatten_app env a b : flatten env (a ++ b) = flatten env a ++ flatten env b.
Proof. unfold flatten. by rewrite List.map_app, concat_app. Qed.

Lemma finish_flatten env segs lit :
  flatten env (segments_of (finish segs lit)) = flatten env segs ++ lit.
Proof.
  unfold finish. repeat case_bool_decide; simpl; rewrite ?flatten_app; subst; unfold flatten; simpl;
    rewrite ?app_nil_r; done.
Qed.

(** A denotation begins the way the scan begins. *)
Lemma denotes_inv env c rest v :
  denotes env (c :: rest) v ->
  (exists rest' v', strip_prefix ($"$${") (c :: rest) = Some rest' /\ denotes env rest' v') \/
  (strip_prefix ($"$${") (c :: rest) = None /\
   exists e rest' r v', strip_prefix ($"${") (c :: rest) = Some (e ++ 125 :: rest') /\ (125 ∉ e) /\
     replacement to_vec Sha256_digest property context e = Ok r /\ denotes env rest' v') \/
  (strip_prefix ($"$${") (c :: rest) = None /\ strip_prefix ($"${") (c :: rest) = None /\
   exists v', denotes env rest v').
Proof.
  inversion 1 as [|rest' v' Hd E|e r rest' v' He Hr Hd E|c' rest' v' He1 He2 Hd E]; subst.
  - left. eauto.
  - right. left. split; [done|]. exists e, rest', r, v'. done.
  - right. right. unfold starts_with in *. repeat case_match; try done. eauto.
Qed.

Lemma strip_prefix_length p s r : strip_prefix p s = Some r -> length s = (length p + length r)%nat.
Proof. intros ->%strip_prefix_Some. apply length_app. Qed.

Lemma expression_unique (e r e' r' : str) :
  e ++ 125 :: r = e' ++ 125 :: r' -> (125 ∉ e) -> (125 ∉ e') -> e = e' /\ r = r'.
Proof.
  intros Heq He He'. apply (f_equal (split_once [125])) in Heq.
  rewrite !split_once_char in Heq by done. by injection Heq.
Qed.

Ltac shorter := repeat match goal with
  | H : strip_prefix _ _ = Some _ |- _ => apply strip_prefix_length in H
  end; simpl in *; rewrite ?length_app in *; simpl in *; lia.

(** The loop computes the denotation of the rest of the input, or there is none. *)
Lemma substitute_loop_denotes fuel remainder segs lit :
  (length remainder <= fuel)%nat ->
  match substitute_loop to_vec Sha256_digest fuel property context remainder segs lit with
  | Ok d => forall env, exists v, denotes env remainder v /\
              resolve d env = flatten env segs ++ lit ++ v
  | Err _ => forall env v, ~ denotes env remainder v
  end.
Proof.
  revert remainder segs lit. induction fuel as [|fuel IH]; intros [|c rest] segs lit Hf;
    cbn [substitute_loop]; try (cbn in Hf; lia).
  1, 2: intros env; exists []; split; [constructor|]; rewrite resolve_flatten, finish_flatten;
    by rewrite app_nil_r.
  destruct (strip_prefix ($"$${") (c :: rest)) as [rest'|] eqn:E1.
  { specialize (IH rest' segs (lit ++ $"${") ltac:(shorter)). case_match.
    - intros env. destruct (IH env) as (v & Hv & ->). exists ($"${" ++ v).
      apply strip_prefix_Some in E1 as ->. split; [by constructor|]. by rewrite <- !app_assoc.
    - intros env v [(?&?&?&?)|[(?&?)|(?&?)]]%denotes_inv; simplify_eq. by eapply IH. }
  destruct (strip_prefix ($"${") (c :: rest)) as [after|] eqn:E2.
  - destruct (split_once ($"}") after) as [[e rest']|] eqn:E3.
    2: { intros env v [(?&?&?&?)|[(_&e&rest'&r&v'&?&He&_)|(?&?&?)]]%denotes_inv; simplify_eq.
         change ($"}") with [125] in E3. by rewrite split_once_char in E3. }
    change ($"}") with [125] in E3. apply split_once_char_Some in E3 as [-> He].
    destruct (replacement _ _ property context e) as [r|err] eqn:E4.
    2: { intros env v [(?&?&?&?)|[(_&e'&rest''&r&v'&E&He'&Hr&_)|(?&?&?)]]%denotes_inv; simplify_eq.
         destruct (expression_unique e rest' e' rest'') as [-> ->]; [congruence..|]. congruence. }
    destruct r as [text|name dflt].
    + specialize (IH rest' segs (lit ++ text) ltac:(shorter)). case_match.
      * intros env. destruct (IH env) as (v & Hv & ->). exists (text ++ v).
        apply strip_prefix_Some in E2 as ->. split; [|by rewrite <- !app_assoc].
        by apply (den_expression env e (Replace_Text text)).
      * intros env v [(?&?&?&?)|[(_&e'&rest''&r&v'&E&He'&Hr&Hd)|(?&?&?)]]%denotes_inv; simplify_eq.
        destruct (expression_unique e rest' e' rest'') as [-> ->]; [congruence..|]. by eapply IH.
    + set (segs' := if bool_decide (lit = []) then segs else segs ++ [Segment_Literal lit]).
      assert (Hs : forall env, flatten env segs' = flatten env segs ++ lit).
      { intros env. unfold segs'. case_bool_decide; subst; rewrite ?flatten_app; unfold flatten; simpl;
          by rewrite ?app_nil_r. }
      specialize (IH rest' (segs' ++ [Segment_ContainerEnv name dflt]) [] ltac:(shorter)). case_match.
      * intros env. destruct (IH env) as (v & Hv & ->). exists (default dflt (env !! name) ++ v).
        apply strip_prefix_Some in E2 as ->.
        split; [by apply (den_expression env e (Replace_ContainerEnv name dflt))|].
        rewrite flatten_app, Hs. unfold flatten. simpl. by rewrite app_nil_r, <- !app_assoc.
      * intros env v [(?&?&?&?)|[(_&e'&rest''&r&v'&E&He'&Hr&Hd)|(?&?&?)]]%denotes_inv; simplify_eq.
        destruct (expression_unique e rest' e' rest'') as [-> ->]; [congruence..|]. by eapply IH.
  - specialize (IH rest segs (lit ++ [c]) ltac:(shorter)). case_match.
    + intros env. destruct (IH env) as (v & Hv & ->). exists (c :: v). split.
      * constructor; [unfold starts_with; by rewrite ?E1, ?E2..|done].
      * by rewrite <- !app_assoc.
    + intros env v [(?&?&?&?)|[(_&e'&rest''&r&v'&?&_)|(_&_&v'&Hd)]]%denotes_inv; simplify_eq. by eapply IH.
Qed.

Definition env_segment (s : Segment) : bool :=
  match s with Segment_ContainerEnv _ _ => true | _ => false end.

Lemma replacement_env e name dflt :
  replacement to_vec Sha256_digest property context e = Ok (Replace_ContainerEnv name dflt) ->
  allows_container_env property = true.
Proof. unfold replacement. intros H. repeat case_match; simplify_eq; done. Qed.

Lemma substitute_loop_env fuel remainder segs lit d :
  substitute_loop to_vec Sha256_digest fuel property context remainder segs lit = Ok d ->
  allows_container_env property = false -> existsb env_segment segs = false ->
  existsb env_segment (segments_of d) = false.
Proof.
  intros H Ha. revert remainder segs lit H. induction fuel as [|fuel IH];
    intros [|c rest] segs lit H Hs; cbn [substitute_loop] in H; try done.
  1, 2: injection H as <-; unfold finish; case_match; simpl; rewrite ?existsb_app, ?Hs; done.
  destruct (strip_prefix ($"$${") _); [eauto|]. destruct (strip_prefix ($"${") _); [|eauto].
  destruct (split_once _ _) as [[e rest']|]; [|done].
  destruct (replacement _ _ _ _ _) as [[text|name dflt]|] eqn:E; [eauto| |done].
  apply replacement_env in E. congruence.
Qed.
End denotation.

(** A successful substitution resolves to what the input denotes. *)
Lemma substitute_host_Ok to_vec Sha256_digest property context input d env :
  substitute_host to_vec Sha256_digest property input context = Ok d ->
  denotes to_vec Sha256_digest property context env input (resolve d env).
Proof.
  intros E. assert (H := substitute_loop_denotes to_vec Sha256_digest property context (length input)
    input [] [] (le_n _)).
  unfold substitute_host in E. rewrite E in H. destruct (H env) as (v & Hv & ->). exact Hv.
Qed.

(** C38: host substitution computes what the input denotes, or there is nothing it denotes.
    When [substitute_host] succeeds, resolving the deferred string in any container
    environment gives the text the input denotes there: escapes become literal [${],
    expressions become their values, every other character is copied.  When it fails, no
    denotation exists.  Only properties that allow container variables ever yield a value
    that still needs the container environment. *)
Theorem substitution_denotes to_vec Sha256_digest property context input :
  match substitute_host to_vec Sha256_digest property input context with
  | Ok d => (forall env, denotes to_vec Sha256_digest property context env input (resolve d env)) /\
            (requires_container_environment d = true -> allows_container_env property = true)
  | Err _ => forall env v, ~ denotes to_vec Sha256_digest property context env input v
  end.
Proof.
  assert (H := substitute_loop_denotes to_vec Sha256_digest property context (length input) input [] []
    (le_n _)).
  destruct (substitute_host _ _ _ _ _) as [d|] eqn:E; unfold substitute_host in E; rewrite E in H;
    [|exact H]. split.
  - intros env. by apply substitute_host_Ok.
  - intros Hr. destruct (allows_container_env property) eqn:Ea; [done|].
    apply substitute_loop_env in E; [|done|done]. unfold requires_container_environment in Hr.
    change (existsb env_segment (segments_of d) = true) in Hr. congruence.
Qed.

(** ** The identifier *)

(** The number a big-endian byte string writes. *)
Definition be_value (bytes : list N) : N := fold_left (fun acc b => acc * 256 + b) bytes 0.
(** The value of a base-32 digit, and of a base-32 string. *)
Definition digit_value (c : char) : N := default 0 (N.of_nat <$> position (N.eqb c) DIGITS).
Definition base32_value (s : str) : N := fold_left (fun acc c => acc * 32 + digit_value c) s 0.

Lemma be_value_from acc l :
  fold_left (fun acc b => acc * 256 + b) l acc = acc * 256 ^ lenN l + be_value l.
Proof.
  unfold be_value. revert acc. induction l as [|b l IH]; intros acc; cbn [fold_left].
  - rewrite lenN_nil. simpl. lia.
  - rewrite IH, (IH (0 * 256 + b)), lenN_cons, N.add_1_l, N.pow_succ_r'. lia.
Qed.

Lemma be_value_cons b l : be_value (b :: l) = b * 256 ^ lenN l + be_value l.
Proof. unfold be_value at 1. cbn [fold_left]. by rewrite be_value_from. Qed.

Lemma be_value_bound l : Forall (fun b => b < 256) l -> be_value l < 256 ^ lenN l.
Proof.
  induction 1 as [|b l Hb _ IH]; [done|]. rewrite be_value_cons, lenN_cons, N.add_1_l, N.pow_succ_r'. nia.
Qed.

Lemma be_value_zero l : be_value l = 0 <-> existsb (fun b => negb (b =? 0)) l = false.
Proof.
  induction l as [|b l IH]; [done|]. rewrite be_value_cons. simpl. rewrite orb_false_iff, <- IH.
  assert (0 < 256 ^ lenN l) by (apply N.neq_0_lt_0, N.pow_nonzero; lia).
  rewrite negb_false_iff, N.eqb_eq. split; [nia|]. intros [-> ->]. lia.
Qed.

Lemma lor_shift_byte a b : b < 256 -> N.lor (N.shiftl a 8) b = a * 256 + b.
Proof.
  intros Hb. assert (Hland : N.land (N.shiftl a 8) b = 0).
  { apply N.bits_inj_0. intros n. rewrite N.land_spec. destruct (N.lt_ge_cases n 8) as [Hn|Hn].
    - by rewrite N.shiftl_spec_low.
    - replace b with (b mod 2 ^ 8) by (apply N.mod_small; lia).
      by rewrite N.mod_pow2_bits_high, andb_false_r. }
  rewrite <- N.lxor_lor, <- N.add_nocarry_lxor by done. by rewrite N.shiftl_mul_pow2.
Qed.

(** One pass is a long division by 32. *)
Lemma divide_by_32_spec carry l :
  carry < 32 -> Forall (fun b => b < 256) l ->
  let '(q, r) := divide_by_32 carry l in
  Forall (fun b => b < 256) q /\ lenN q = lenN l /\ r < 32 /\
  carry * 256 ^ lenN l + be_value l = 32 * be_value q + r.
Proof.
  revert carry. induction l as [|b l IH]; intros carry Hc Hl; cbn [divide_by_32].
  - rewrite lenN_nil. unfold be_value. simpl. split_and!; auto; lia.
  - apply Forall_cons in Hl as [Hb Hl].
    assert (Hor := lor_shift_byte carry b Hb).
    rewrite Hor. set (value := carry * 256 + b).
    assert (Hv : value < 8192) by (unfold value; lia).
    assert (Hq : value / 32 < 256) by (apply N.Div0.div_lt_upper_bound; lia).
    destruct (N.leb_spec (value / 32) 255); [|lia].
    specialize (IH (value mod 32) ltac:(apply N.mod_lt; lia) Hl).
    destruct (divide_by_32 (value mod 32) l) as [q r]. destruct IH as (Hqs & Hlen & Hr & Heq).
    split_and!; [by constructor|by rewrite !lenN_cons, Hlen|done|].
    rewrite !be_value_cons, Hlen, lenN_cons, N.add_1_l, N.pow_succ_r'.
    assert (Hdm : value = 32 * (value / 32) + value mod 32) by (apply N.div_mod; lia).
    unfold value in *. nia.
Qed.

(** Least significant digit first. *)
Definition lsb32 (ds : list N) : N := foldr (fun d acc => d + 32 * acc) 0 ds.
Definition digit_char (d : N) : char := nth (N.to_nat d) DIGITS 0.

Lemma digit_char_spec d :
  d < 32 -> digit_value (digit_char d) = d /\ digit_char d ∈ DIGITS.
Proof.
  intros Hd. assert (H : forallb (fun k => (digit_value (digit_char (N.of_nat k)) =? N.of_nat k)
      && contains_char (digit_char (N.of_nat k)) DIGITS) (seq 0 32) = true) by (vm_compute; reflexivity).
  rewrite forallb_forall in H. specialize (H (N.to_nat d) ltac:(apply in_seq; lia)).
  rewrite N2Nat.id in H. prop_of_bool. by rewrite contains_char_true in *.
Qed.

Lemma base32_digits_spec fuel k number output :
  Forall (fun b => b < 256) number -> be_value number < 32 ^ N.of_nat k -> (k <= fuel)%nat ->
  exists ds, base32_digits fuel number output = output ++ List.map digit_char ds /\
    (length ds <= k)%nat /\ Forall (fun d => d < 32) ds /\ lsb32 ds = be_value number.
Proof.
  revert k number output. induction fuel as [|fuel IH]; intros k number output Hn Hk Hf;
    cbn [base32_digits].
  - assert (k = O) as -> by lia. exists []. rewrite app_nil_r. simpl in *. split_and!; auto; lia.
  - destruct (existsb _ number) eqn:E.
    + assert (Hnz : be_value number <> 0) by (rewrite be_value_zero; congruence).
      destruct k as [|k]; [simpl in Hk; lia|].
      assert (Hd := divide_by_32_spec 0 number ltac:(lia) Hn).
      destruct (divide_by_32 0 number) as [q r]. destruct Hd as (Hq & Hlen & Hr & Heq).
      rewrite Nat2N.inj_succ, N.pow_succ_r' in Hk.
      change (nth (N.to_nat r) DIGITS 0) with (digit_char r).
      destruct (IH k q (output ++ [digit_char r]) Hq ltac:(lia) ltac:(lia)) as (ds & -> & Hl & Hds & Hv).
      exists (r :: ds). cbn [List.map length lsb32 foldr]. rewrite <- app_assoc. split_and!; auto; [lia|].
      fold (lsb32 ds). lia.
    + exists []. rewrite app_nil_r. apply be_value_zero in E. simpl. split_and!; auto; lia.
Qed.

Lemma lsb32_app a b : lsb32 (a ++ b) = lsb32 a + 32 ^ lenN a * lsb32 b.
Proof.
  unfold lsb32. induction a as [|d a IH]; [unfold lenN; simpl; lia|].
  rewrite lenN_cons, N.add_1_l, N.pow_succ_r'. simpl. rewrite IH. lia.
Qed.

Lemma base32_value_rev ds :
  Forall (fun d => d < 32) ds -> base32_value (rev (List.map digit_char ds)) = lsb32 ds.
Proof.
  unfold base32_value. intros H. rewrite <- fold_left_rev_right, rev_involutive.
  induction H as [|d ds Hd _ IH]; [done|]. cbn [List.map fold_right lsb32 foldr].
  rewrite IH. destruct (digit_char_spec d Hd) as [-> _]. fold (lsb32 ds). lia.
Qed.

Lemma lsb32_zeros n : lsb32 (replicate n 0) = 0.
Proof. unfold lsb32. induction n as [|n IH]; [done|]. cbn [replicate foldr]. rewrite IH. lia. Qed.

(** the workspace identifier is the digest in base 32.  For every 32-byte digest the
    repeated division terminates with exactly 52 characters of the alphabet whose value is
    the digest read as a big-endian number, so distinct digests give distinct
    identifiers. *)
Theorem base32_identifier bytes :
  length bytes = 32%nat -> Forall (fun b => b < 256) bytes ->
  length (base32_big_integer bytes) = 52%nat /\
  Forall (fun c => c ∈ DIGITS) (base32_big_integer bytes) /\
  base32_value (base32_big_integer bytes) = be_value bytes.
Proof.
  intros Hlen Hb. assert (Hv := be_value_bound bytes Hb). unfold lenN in Hv. rewrite Hlen in Hv.
  destruct (base32_digits_spec (S (8 * length bytes)) 52 bytes [] Hb) as (ds & E & Hl & Hds & Hval).
  { eapply N.lt_le_trans; [exact Hv|]. vm_compute. discriminate. }
  { lia. }
  unfold base32_big_integer. cbv zeta. rewrite E. cbn [app].
  assert (Hall : List.map digit_char ds ++ replicate (52 - length (List.map digit_char ds)) 48 =
    List.map digit_char (ds ++ replicate (52 - length ds) 0)).
  { rewrite List.map_app, length_map. f_equal. clear. by induction (52 - length ds)%nat as [|n IH]; simpl; [|rewrite IH]. }
  rewrite Hall. assert (Hds' : Forall (fun d => d < 32) (ds ++ replicate (52 - length ds) 0)).
  { apply Forall_app. split; [done|]. apply Forall_replicate. lia. }
  split_and!.
  - rewrite length_rev, length_map, length_app, length_replicate. lia.
  - apply Forall_rev, List.Forall_map. eapply Forall_impl; [exact Hds'|].
    intros d Hd. by apply digit_char_spec.
  - rewrite base32_value_rev by done. rewrite lsb32_app, lsb32_zeros, Hval. lia.
Qed.

Lemma base32_identifier_witness :
  base32_value (base32_big_integer (replicate 31 0 ++ [33])) = 33.
Proof.
  apply (base32_identifier (replicate 31 0 ++ [33])).
  - reflexivity.
  - apply Forall_app. split; [apply Forall_replicate; lia|]. constructor; [lia|constructor].
Defined.
