(* ===== verification/Profile.v ===== *)
(** * Profile: the typed, validated Dev Container configuration
    ([cdenv-devcontainer/src/profile.rs], data types)

    [BTreeMap<String, _>] is a [gmap] where only lookups matter; where the code
    iterates over a map and the order is observable (parallel commands), it is the list
    of entries in key order.  [serde_json::Value] is the inductive type [Json]. *)

From S2P Require Import Prelude Text Order.

Inductive Json : Type :=
| Json_Null
| Json_Bool (b : bool)
| Json_Number (text : str)
| Json_String (s : str)
| Json_Array (items : list Json)
| Json_Object (entries : list (str * Json)).

(** @src cdenv-devcontainer/src/profile.rs:242-249 FeatureSource *)
Inductive FeatureSource : Type :=
| Source_Oci (s : str) | Source_Https (s : str) | Source_Local (s : str).
(** @src cdenv-devcontainer/src/profile.rs:252-257 FeatureOptionValue *)
Inductive FeatureOptionValue : Type := Option_Boolean (b : bool) | Option_String (s : str).
(** @src cdenv-devcontainer/src/profile.rs:233-238 RawFeature *)
Record RawFeature : Type := mkRawFeature {
  feature_source : FeatureSource;
  feature_options : strmap FeatureOptionValue;
}.
(** @src cdenv-devcontainer/src/profile.rs:275-280 MountKind *)
Inductive MountKind : Type := Mount_Bind | Mount_Volume.
(** @src cdenv-devcontainer/src/profile.rs:260-272 RawMount *)
Inductive RawMount : Type :=
| RawMount_String (value : str)
| RawMount_Object (kind : MountKind) (source : option str) (target : str).
(** @src cdenv-devcontainer/src/profile.rs:283-288 AppPort *)
Inductive AppPort : Type := AppPort_Number (port : N) | AppPort_DockerArgument (value : str).
(** @src cdenv-devcontainer/src/profile.rs:291-301 ForwardPort *)
Inductive ForwardPort : Type :=
| ForwardPort_Container (port : N)
| ForwardPort_Service (service : str) (port : N).
(** @src cdenv-devcontainer/src/profile.rs:304-311 ShutdownAction *)
Inductive ShutdownAction : Type := Shutdown_None | Shutdown_StopContainer | Shutdown_StopCompose.
(** @src cdenv-devcontainer/src/profile.rs:315-324 UserEnvProbe *)
Inductive UserEnvProbe : Type :=
| Probe_None | Probe_LoginShell | Probe_LoginInteractiveShell | Probe_InteractiveShell.
(** @src cdenv-devcontainer/src/profile.rs:327-338 WaitFor *)
Inductive WaitFor : Type :=
| WaitFor_Initialize | WaitFor_OnCreate | WaitFor_UpdateContent | WaitFor_PostCreate
| WaitFor_PostStart.
(** @src cdenv-devcontainer/src/profile.rs:342-355 AutoForwardAction *)
Inductive AutoForwardAction : Type :=
| Auto_Notify | Auto_OpenBrowser | Auto_OpenBrowserOnce | Auto_OpenPreview | Auto_Silent
| Auto_Ignore.
(** @src cdenv-devcontainer/src/profile.rs:359-364 PortProtocol *)
Inductive PortProtocol : Type := Protocol_Http | Protocol_Https.
(** @src cdenv-devcontainer/src/profile.rs:368-379 PortAttributes *)
Record PortAttributes : Type := mkPortAttributes {
  on_auto_forward : option AutoForwardAction;
  elevate_if_needed : option bool;
  port_label : option str;
  require_local_port : option bool;
  port_protocol : option PortProtocol;
}.
(** @src cdenv-devcontainer/src/profile.rs:394-399 CommandValue *)
Inductive CommandValue : Type := Command_Shell (s : str) | Command_Exec (args : list str).
(** @src cdenv-devcontainer/src/profile.rs:383-390 RawCommand *)
Inductive RawCommand : Type :=
| RawCommand_Shell (s : str)
| RawCommand_Exec (args : list str)
| RawCommand_Parallel (commands : list (str * CommandValue)).
(** @src cdenv-devcontainer/src/profile.rs:403-416 LifecycleCommands *)
Record LifecycleCommands : Type := mkLifecycleCommands {
  lc_initialize : option RawCommand;
  lc_on_create : option RawCommand;
  lc_update_content : option RawCommand;
  lc_post_create : option RawCommand;
  lc_post_start : option RawCommand;
  lc_post_attach : option RawCommand;
}.
(** @src cdenv-devcontainer/src/profile.rs:433-447 GpuRequirement *)
Inductive GpuRequirement : Type :=
| Gpu_Required | Gpu_NotRequired | Gpu_Optional
| Gpu_Detailed (cores : option N) (memory : option str).
(** @src cdenv-devcontainer/src/profile.rs:420-429 HostRequirements *)
Record HostRequirements : Type := mkHostRequirements {
  cpus : option N;
  memory : option str;
  storage : option str;
  gpu : option GpuRequirement;
}.
(** @src cdenv-devcontainer/src/profile.rs:451-456 SecretMetadata *)
Record SecretMetadata : Type := mkSecretMetadata {
  secret_description : option str;
  documentation_url : option str;
}.

(** @src cdenv-devcontainer/src/profile.rs:183-228 RawCommon *)
Record RawCommon : Type := mkRawCommon {
  features : strmap RawFeature;
  override_feature_install_order : list str;
  container_env : strmap (list N);
  remote_env : strmap (option (list N));
  container_user : option str;
  remote_user : option str;
  update_remote_user_uid : option bool;
  user_env_probe : option UserEnvProbe;
  init : option bool;
  privileged : option bool;
  cap_add : list str;
  security_opt : list str;
  mounts : list RawMount;
  app_ports : list AppPort;
  forward_ports : list ForwardPort;
  ports_attributes : strmap PortAttributes;
  other_ports_attributes : option PortAttributes;
  lifecycle : LifecycleCommands;
  wait_for : option WaitFor;
  host_requirements : option HostRequirements;
  customizations : strmap Json;
  secrets : strmap SecretMetadata;
}.

(** @src cdenv-devcontainer/src/profile.rs:149-162 RawBuild *)
Record RawBuild : Type := mkRawBuild {
  dockerfile : str;
  build_context : option str;
  build_target : option str;
  build_args : strmap (list N);
  cache_from : list str;
  build_options : list str;
}.
(** @src cdenv-devcontainer/src/profile.rs:167-178 NonComposeOptions *)
Record NonComposeOptions : Type := mkNonComposeOptions {
  workspace_folder : option str;
  workspace_mount : option str;
  run_args : list str;
  shutdown_action : option ShutdownAction;
  override_command : option bool;
}.
(** @src cdenv-devcontainer/src/profile.rs:111-116 ImageScenario *)
Record ImageScenario : Type := mkImageScenario {
  scenario_image : str;
  image_options : NonComposeOptions;
}.
(** @src cdenv-devcontainer/src/profile.rs:121-126 DockerfileScenario *)
Record DockerfileScenario : Type := mkDockerfileScenario {
  scenario_build : RawBuild;
  dockerfile_options : NonComposeOptions;
}.
(** @src cdenv-devcontainer/src/profile.rs:131-144 ComposeScenario *)
Record ComposeScenario : Type := mkComposeScenario {
  compose_files : list str;
  compose_service : str;
  run_services : option (list str);
  compose_workspace_folder : str;
  compose_shutdown_action : option ShutdownAction;
  compose_override_command : option bool;
}.
(** @src cdenv-devcontainer/src/profile.rs:99-106 RawScenario *)
Inductive RawScenario : Type :=
| Scenario_Image (value : ImageScenario)
| Scenario_Dockerfile (value : DockerfileScenario)
| Scenario_Compose (value : ComposeScenario).
(** @src cdenv-devcontainer/src/profile.rs:86-95 RawProfile *)
Record RawProfile : Type := mkRawProfile {
  schema_uri : option str;
  profile_name : option str;
  scenario : RawScenario;
  common : RawCommon;
}.

#[export] Instance MountKind_eq_dec : EqDecision MountKind.
Proof. solve_decision. Defined.
#[export] Instance AutoForwardAction_eq_dec : EqDecision AutoForwardAction.
Proof. solve_decision. Defined.
#[export] Instance PortProtocol_eq_dec : EqDecision PortProtocol.
Proof. solve_decision. Defined.
#[export] Instance RawMount_eq_dec : EqDecision RawMount.
Proof. solve_decision. Defined.
#[export] Instance ForwardPort_eq_dec : EqDecision ForwardPort.
Proof. solve_decision. Defined.
#[export] Instance PortAttributes_eq_dec : EqDecision PortAttributes.
Proof. solve_decision. Defined.
#[export] Instance GpuRequirement_eq_dec : EqDecision GpuRequirement.
Proof. solve_decision. Defined.
#[export] Instance HostRequirements_eq_dec : EqDecision HostRequirements.
Proof. solve_decision. Defined.
