(* ===== verification/Jsonc.v ===== *)
(** * Jsonc: bounded reading of configuration documents
    ([cdenv-devcontainer/src/jsonc.rs])

    [jsonc_parser::parse_to_ast] is a parameter: from text to a syntax tree with byte ranges, or a
    syntax error with its range and message; [Value::from] and the rendering of a JSON string are
    parameters too.  What the file adds is modelled: the limits, duplicate keys, property paths
    and the line index. *)

From S2P Require Import Prelude Text Order Utf8 Profile.

(** ** Limits and diagnostics *)

(** @src cdenv-devcontainer/src/jsonc.rs:15-15 MAX_CONFIG_BYTES *)
Definition MAX_CONFIG_BYTES : N := 1024 * 1024.
(** @src cdenv-devcontainer/src/jsonc.rs:17-17 MAX_NESTING_DEPTH *)
Definition MAX_NESTING_DEPTH : N := 64.
(** @src cdenv-devcontainer/src/jsonc.rs:19-19 MAX_ARRAY_ITEMS *)
Definition MAX_ARRAY_ITEMS : N := 4096.
(** @src cdenv-devcontainer/src/jsonc.rs:21-21 MAX_OBJECT_ITEMS *)
Definition MAX_OBJECT_ITEMS : N := 4096.
(** @src cdenv-devcontainer/src/jsonc.rs:23-23 MAX_STRING_BYTES *)
Definition MAX_STRING_BYTES : N := 256 * 1024.
(** @src cdenv-devcontainer/src/jsonc.rs:25-25 MAX_LIFECYCLE_GROUP_ITEMS *)
Definition MAX_LIFECYCLE_GROUP_ITEMS : N := 4096.

(** @src cdenv-devcontainer/src/jsonc.rs:27-34 LIFECYCLE_PROPERTIES *)
Definition LIFECYCLE_PROPERTIES : list str :=
  [$"initializeCommand"; $"onCreateCommand"; $"updateContentCommand"; $"postCreateCommand";
   $"postStartCommand"; $"postAttachCommand"].

(** @src cdenv-devcontainer/src/jsonc.rs:38-51 ParseLimits *)
Record ParseLimits : Type := mkLimits {
  file_bytes : N;
  nesting_depth : N;
  array_items : N;
  object_items : N;
  string_bytes : N;
  lifecycle_group_items : N;
}.

(** @src cdenv-devcontainer/src/jsonc.rs:54-63 ParseLimits::default *)
Definition default_limits : ParseLimits :=
  mkLimits MAX_CONFIG_BYTES MAX_NESTING_DEPTH MAX_ARRAY_ITEMS MAX_OBJECT_ITEMS MAX_STRING_BYTES
    MAX_LIFECYCLE_GROUP_ITEMS.

(** @src cdenv-devcontainer/src/jsonc.rs:68-77 SourceSpan *)
Record SourceSpan : Type := mkSpan { span_start : N; span_end : N; span_line : N; span_column : N }.

(** @src cdenv-devcontainer/src/jsonc.rs:81-90 Diagnostic *)
Record Diagnostic : Type := mkDiagnostic {
  d_file : str;
  d_property_path : str;
  d_span : SourceSpan;
  d_message : str;
}.

(** @src cdenv-devcontainer/src/jsonc.rs:104-119 BoundKind *)
Inductive BoundKind : Type :=
| FileBytes | NestingDepth | ArrayItems | ObjectItems | StringBytes | KeyBytes | LifecycleGroupItems.

(** @src cdenv-devcontainer/src/jsonc.rs:124-153 JsoncError *)
Inductive JsoncError : Type :=
| Jsonc_Bound (kind : BoundKind) (limit : N) (diagnostic : Diagnostic)
| Jsonc_Utf8 (diagnostic : Diagnostic)
| Jsonc_Syntax (diagnostic : Diagnostic)
| Jsonc_DuplicateKey (diagnostic : Diagnostic).

(** [{kind:?}] *)
Definition bound_kind_text (kind : BoundKind) : str :=
  match kind with
  | FileBytes => $"FileBytes" | NestingDepth => $"NestingDepth" | ArrayItems => $"ArrayItems"
  | ObjectItems => $"ObjectItems" | StringBytes => $"StringBytes" | KeyBytes => $"KeyBytes"
  | LifecycleGroupItems => $"LifecycleGroupItems"
  end.

(** @src cdenv-devcontainer/src/jsonc.rs:438-455 bound_error *)
Definition bound_error (file path : str) (span : SourceSpan) (kind : BoundKind) (limit : N) : JsoncError :=
  Jsonc_Bound kind limit (mkDiagnostic file path span
    (bound_kind_text kind ++ $" exceeds configured limit " ++ to_string limit)).

(** ** The syntax tree of [jsonc_parser] *)

Record Range : Type := mkByteRange { r_start : N; r_end : N }.

Inductive AstValue : Type :=
| Ast_String (value : str) (range : Range)
| Ast_Number (value : str) (range : Range)
| Ast_Boolean (value : bool) (range : Range)
| Ast_Object (properties : list (str * Range * AstValue)) (range : Range)
| Ast_Array (elements : list AstValue) (range : Range)
| Ast_Null (range : Range).

(** @src cdenv-devcontainer/src/jsonc.rs:427-436 ast_range *)
Definition ast_range (v : AstValue) : Range :=
  match v with
  | Ast_String _ r | Ast_Number _ r | Ast_Boolean _ r | Ast_Object _ r | Ast_Array _ r | Ast_Null r => r
  end.

(** ** Lines and columns *)

(** @src cdenv-devcontainer/src/jsonc.rs:457-460 LineIndex *)
Record LineIndex : Type := mkLineIndex { starts : list N; scalar_prefix : list N }.

(** The bytes after each newline. @src cdenv-devcontainer/src/jsonc.rs:464-469 LineIndex::new *)
Fixpoint line_starts (index : N) (bytes : list N) : list N :=
  match bytes with
  | [] => []
  | byte :: rest => if byte =? 10 then (index + 1) :: line_starts (index + 1) rest
                    else line_starts (index + 1) rest
  end.

(** For every byte the number of the character it belongs to, and the count of characters.
    @src cdenv-devcontainer/src/jsonc.rs:470-478 LineIndex::new *)
Fixpoint scalar_counts (count : N) (text : str) : list N :=
  match text with
  | [] => [count]
  | c :: rest => replicate (N.to_nat (len_utf8 c)) count ++ scalar_counts (count + 1) rest
  end.

(** @src cdenv-devcontainer/src/jsonc.rs:463-483 LineIndex::new *)
Definition LineIndex_new (text : str) : LineIndex :=
  mkLineIndex (0 :: line_starts 0 (encode_utf8 text)) (scalar_counts 0 text).

(** [partition_point] of a sorted vector: the length of the prefix that satisfies the predicate. *)
Fixpoint partition_point {A} (p : A -> bool) (l : list A) : nat :=
  match l with [] => O | a :: l' => if p a then S (partition_point p l') else O end.

(** What stops the reader: an error, or a panic of an index out of range. *)
Inductive JsoncStop : Type := Jsonc_Error (error : JsoncError) | Jsonc_Panicked.

Definition index {A} (l : list A) (i : N) : result JsoncStop A := ok_or Jsonc_Panicked (l !! N.to_nat i).

(** @src cdenv-devcontainer/src/jsonc.rs:485-497 LineIndex::span *)
Definition line_span (lines : LineIndex) (range : Range) : result JsoncStop SourceSpan :=
  let line_index := N.of_nat (partition_point (fun line_start => line_start <=? r_start range) (starts lines)) - 1 in
  let? line_start := index (starts lines) line_index in
  let? here := index (scalar_prefix lines) (r_start range) in
  let? there := index (scalar_prefix lines) line_start in
  Ok (mkSpan (r_start range) (r_end range) (line_index + 1) (here - there + 1)).

(** ** Checking a document *)

Section checking.
Context (json_string : str -> str) (file : str) (lines : LineIndex) (limits : ParseLimits).

(** @src cdenv-devcontainer/src/jsonc.rs:415-425 child_path *)
Definition child_path (parent name : str) : str :=
  if negb (bool_decide (name = [])) && forallb (fun c => (c =? 95) || is_ascii_alphanumeric c) name
  then parent ++ $"." ++ name
  else parent ++ $"[" ++ json_string name ++ $"]".

(** [format!("{path}[{index}]")] *)
Definition item_path (parent : str) (i : N) : str := parent ++ $"[" ++ to_string i ++ $"]".

Definition is_container (v : AstValue) : bool :=
  match v with Ast_Object _ _ | Ast_Array _ _ => true | _ => false end.

Definition stop_at {X} (path : str) (range : Range) (kind : BoundKind) (limit : N) : result JsoncStop X :=
  let? span := line_span lines range in
  Err (Jsonc_Error (bound_error file path span kind limit)).

(** The limit of lifecycle groups, on the properties of the root.
    @src cdenv-devcontainer/src/jsonc.rs:361-378 check_object *)
Fixpoint check_groups (path : str) (properties : list (str * Range * AstValue)) : result JsoncStop unit :=
  match properties with
  | [] => Ok tt
  | (name, _, Ast_Object group range) :: rest =>
      if bool_decide (name ∈ LIFECYCLE_PROPERTIES) && (lifecycle_group_items limits <? lenN group)
      then stop_at (child_path path name) range LifecycleGroupItems (lifecycle_group_items limits)
      else check_groups path rest
  | _ :: rest => check_groups path rest
  end.

Abbreviation spans_map := (strmap SourceSpan) (only parsing).

(** The elements of an array, each checked by [check].
    @src cdenv-devcontainer/src/jsonc.rs:331-343 check_value *)
Definition check_elements (check : AstValue -> str -> spans_map -> result JsoncStop spans_map) (path : str) :
    N -> list AstValue -> spans_map -> result JsoncStop spans_map :=
  fix go i elements spans :=
    match elements with
    | [] => Ok spans
    | child :: rest => let? spans := check child (item_path path i) spans in go (i + 1) rest spans
    end.

(** The properties of an object; [names] are the keys seen.
    @src cdenv-devcontainer/src/jsonc.rs:379-412 check_object *)
Definition check_properties (check : AstValue -> str -> spans_map -> result JsoncStop spans_map) (path : str) :
    gset (list N) -> list (str * Range * AstValue) -> spans_map -> result JsoncStop spans_map :=
  fix go names properties spans :=
    match properties with
    | [] => Ok spans
    | (name, range, value) :: rest =>
        let property_path := child_path path name in
        if string_bytes limits <? str_len name then stop_at path range KeyBytes (string_bytes limits) else
        if bool_decide (name ∈ names) then
          let? span := line_span lines range in
          Err (Jsonc_Error (Jsonc_DuplicateKey (mkDiagnostic file property_path span
                 ($"duplicate object key `" ++ name ++ $"`"))))
        else
        let? spans := check value property_path spans in
        go ({[name]} ∪ names) rest spans
    end.

(** [parent_depth] counts the containers above.
    @src cdenv-devcontainer/src/jsonc.rs:286-351 check_value *)
Fixpoint check_value (v : AstValue) (path : str) (parent_depth : N) (spans : spans_map) :
    result JsoncStop spans_map :=
  let range := ast_range v in
  let? span := line_span lines range in
  let spans := <[path := span]> spans in
  let depth := parent_depth + (if is_container v then 1 else 0) in
  if nesting_depth limits <? depth then stop_at path range NestingDepth (nesting_depth limits) else
  match v with
  | Ast_String value range =>
      if string_bytes limits <? str_len value then stop_at path range StringBytes (string_bytes limits)
      else Ok spans
  | Ast_Array elements range =>
      if array_items limits <? lenN elements then stop_at path range ArrayItems (array_items limits) else
      check_elements (fun child child_path spans => check_value child child_path depth spans) path 0 elements spans
  | Ast_Object properties range =>
      if object_items limits <? lenN properties then stop_at path range ObjectItems (object_items limits) else
      let? _ := if bool_decide (path = $"$") then check_groups path properties else Ok tt in
      check_properties (fun child child_path spans => check_value child child_path depth spans) path ∅ properties spans
  | _ => Ok spans
  end.
End checking.

(** ** Reading a document *)

(** The length of the longest valid prefix, and of the invalid sequence after it; an incomplete
    sequence at the end has no length ([Utf8Error::valid_up_to], [Utf8Error::error_len]). *)
Definition second_byte (b0 b1 : N) : bool :=
  match b0 with
  | 224 => in_range 160 191 b1 | 237 => in_range 128 159 b1
  | 240 => in_range 144 191 b1 | 244 => in_range 128 143 b1
  | _ => is_cont b1
  end.

Definition char_width (b0 : N) : N :=
  if b0 <? 128 then 1 else if in_range 194 223 b0 then 2 else if in_range 224 239 b0 then 3
  else if in_range 240 244 b0 then 4 else 0.

(** The sequence at the front: its width, or the error. *)
Definition first_char (bytes : list N) : option N + option N :=
  match bytes with
  | [] => inl None
  | b0 :: rest =>
      match char_width b0, rest with
      | 0, _ => inr (Some 1)
      | 1, _ => inl (Some 1)
      | _, [] => inr None
      | width, b1 :: rest1 =>
          if negb (second_byte b0 b1) then inr (Some 1) else
          if width =? 2 then inl (Some 2) else
          match rest1 with
          | [] => inr None
          | b2 :: rest2 =>
              if negb (is_cont b2) then inr (Some 2) else
              if width =? 3 then inl (Some 3) else
              match rest2 with
              | [] => inr None
              | b3 :: _ => if negb (is_cont b3) then inr (Some 3) else inl (Some 4)
              end
          end
      end
  end.

Fixpoint utf8_error (fuel : nat) (index : N) (bytes : list N) : N * option N :=
  match fuel with
  | O => (index, None)
  | S fuel' =>
      match first_char bytes with
      | inl (Some width) => utf8_error fuel' (index + width) (drop (N.to_nat width) bytes)
      | inl None => (index, None)
      | inr length => (index, length)
      end
  end.

(** @src cdenv-devcontainer/src/jsonc.rs:170-175 RawDocument *)
Record RawDocument : Type := mkDocument {
  doc_path : str;
  doc_value : Json;
  doc_property_spans : strmap SourceSpan;
  doc_diagnostics : list Diagnostic;
}.

Section reading.
Context (parse_to_ast : str -> result (Range * str) (option AstValue)) (to_value : AstValue -> Json)
  (json_string : str -> str).

(** @src cdenv-devcontainer/src/jsonc.rs:213-284 parse_jsonc *)
Definition parse_jsonc (path : str) (bytes : list N) (limits : ParseLimits) : result JsoncStop RawDocument :=
  if file_bytes limits <? lenN bytes then
    let at_ := N.min (file_bytes limits) (lenN bytes) in
    Err (Jsonc_Error (bound_error path ($"$") (mkSpan at_ at_ 1 1) FileBytes (file_bytes limits)))
  else
  match from_utf8 bytes with
  | None =>
      let '(index, error_len) := utf8_error (length bytes) 0 bytes in
      Err (Jsonc_Error (Jsonc_Utf8 (mkDiagnostic path ($"$")
        (mkSpan index (N.min (index + default 0 error_len) (lenN bytes)) 1 (index + 1))
        ($"configuration is not UTF-8"))))
  | Some text =>
      let lines := LineIndex_new text in
      match parse_to_ast text with
      | Err (range, message) =>
          let? span := line_span lines range in
          Err (Jsonc_Error (Jsonc_Syntax (mkDiagnostic path ($"$") span message)))
      | Ok None =>
          let? span := line_span lines (mkByteRange 0 0) in
          Err (Jsonc_Error (Jsonc_Syntax (mkDiagnostic path ($"$") span ($"configuration is empty"))))
      | Ok (Some ast) =>
          let? spans := check_value json_string path lines limits ast ($"$") 0 ∅ in
          Ok (mkDocument path (to_value ast) spans [])
      end
  end.
End reading.

(** ** The line index is right *)

(** The characters that end at or before the byte [n]. *)
Fixpoint chars_before (n : N) (text : str) : str :=
  match text with
  | [] => []
  | c :: rest => if len_utf8 c <=? n then c :: chars_before (n - len_utf8 c) rest else []
  end.

(** The reference: reading the characters one by one. *)
Fixpoint walk (line column : N) (text : str) : N * N :=
  match text with
  | [] => (line, column)
  | c :: rest => if c =? 10 then walk (line + 1) 1 rest else walk line (column + 1) rest
  end.

Definition position_at (text : str) (start : N) : N * N := walk 1 1 (chars_before start text).

Lemma scalar_counts_lookup text k n :
  n <= str_len text ->
  scalar_counts k text !! N.to_nat n = Some (k + lenN (chars_before n text)).
Proof.
  revert k n. induction text as [|c text IH]; intros k n Hn; cbn [scalar_counts chars_before str_len] in *.
  - replace n with 0 by lia. cbn. by rewrite N.add_0_r.
  - destruct (N.leb_spec (len_utf8 c) n).
    + rewrite lookup_app_r by (rewrite length_replicate; lia).
      rewrite length_replicate, <- N2Nat.inj_sub.
      rewrite IH by lia. rewrite lenN_cons. f_equal. lia.
    + rewrite lookup_app_l by (rewrite length_replicate; lia). rewrite lookup_replicate_2 by lia.
      by rewrite N.add_0_r.
Qed.

Lemma chars_before_prefix pre text : pre `prefix_of` text -> chars_before (str_len pre) text = pre.
Proof.
  intros [k ->]. induction pre as [|c pre IH]; cbn [app chars_before str_len].
  - destruct k as [|c k]; [done|]. cbn. assert (H := len_utf8_pos c). by destruct (N.leb_spec (len_utf8 c) 0); [lia|].
  - destruct (N.leb_spec (len_utf8 c) (len_utf8 c + str_len pre)); [|lia].
    rewrite N.add_comm, N.add_sub, IH. done.
Qed.

Lemma chars_before_is_prefix n text : chars_before n text `prefix_of` text.
Proof.
  revert n. induction text as [|c text IH]; intros n; cbn; [done|]. case_match; [|apply prefix_nil].
  apply prefix_cons, IH.
Qed.

(** The newlines of a text, the byte and the character at which its last line starts. *)
Fixpoint newlines (text : str) : N :=
  match text with [] => 0 | c :: rest => (if c =? 10 then 1 else 0) + newlines rest end.
Fixpoint last_line (ls i : N) (text : str) : N :=
  match text with [] => ls | c :: rest => last_line (if c =? 10 then i + 1 else ls) (i + len_utf8 c) rest end.
Fixpoint last_line_char (cs k : N) (text : str) : N :=
  match text with [] => cs | c :: rest => last_line_char (if c =? 10 then k + 1 else cs) (k + 1) rest end.

Lemma walk_lines line cs k text :
  cs <= k -> walk line (k - cs + 1) text =
    (line + newlines text, k + lenN text - last_line_char cs k text + 1) /\ last_line_char cs k text <= k + lenN text.
Proof.
  revert line cs k. induction text as [|c text IH]; intros line cs k Hle; cbn [walk newlines last_line_char].
  - change (lenN (@nil char)) with 0. rewrite !N.add_0_r. done.
  - rewrite lenN_cons. destruct (N.eqb_spec c 10).
    + destruct (IH (line + 1) (k + 1) (k + 1)) as [Hw Hl]; [lia|]. rewrite N.sub_diag in Hw. change (0 + 1) with 1 in Hw. rewrite Hw.
      split; [f_equal; lia|lia].
    + destruct (IH line cs (k + 1)) as [Hw Hl]; [lia|].
      replace (k - cs + 1 + 1) with (k + 1 - cs + 1) by lia. rewrite Hw. split; [f_equal; lia|lia].
Qed.

(** Both starts are the length of the same prefix. *)
Lemma last_line_prefix text : exists pre, pre `prefix_of` text /\
  last_line 0 0 text = str_len pre /\ last_line_char 0 0 text = lenN pre.
Proof.
  enough (H : forall rest pre0 done0, pre0 `prefix_of` done0 -> exists pre, pre `prefix_of` done0 ++ rest /\
    last_line (str_len pre0) (str_len done0) rest = str_len pre /\
    last_line_char (lenN pre0) (lenN done0) rest = lenN pre).
  { destruct (H text [] [] (prefix_nil _)) as (pre & Hp & Hb & Hc). by exists pre. }
  induction rest as [|c rest IH]; intros pre0 done0 Hp; cbn [last_line last_line_char].
  - exists pre0. rewrite app_nil_r. done.
  - replace (done0 ++ c :: rest) with ((done0 ++ [c]) ++ rest) by (by rewrite <- app_assoc).
    replace (str_len done0 + len_utf8 c) with (str_len (done0 ++ [c])) by (rewrite str_len_app; cbn; lia).
    replace (lenN done0 + 1) with (lenN (done0 ++ [c])) by (rewrite lenN_app; done).
    destruct (N.eqb_spec c 10) as [->|].
    + replace (str_len done0 + 1) with (str_len (done0 ++ [10])) by (rewrite str_len_app; done). apply IH. done.
    + apply IH. etrans; [exact Hp|]. by eexists.
Qed.

Lemma line_starts_gt i bytes : Forall (fun s => i < s) (line_starts i bytes).
Proof.
  revert i. induction bytes as [|b bytes IH]; intros i; cbn; [constructor|].
  assert (H : Forall (fun s => i < s) (line_starts (i + 1) bytes))
    by (eapply Forall_impl; [apply IH|]; cbn; lia).
  case_match; [constructor; [lia|done]|done].
Qed.

Lemma line_starts_skip i chunk bytes :
  (10 ∉ chunk) -> line_starts i (chunk ++ bytes) = line_starts (i + lenN chunk) bytes.
Proof.
  revert i. induction chunk as [|b chunk IH]; intros i Hn; cbn [app line_starts].
  - change (lenN (@nil N)) with 0. by rewrite N.add_0_r.
  - apply not_elem_of_cons in Hn as [Hb Hn]. destruct (N.eqb_spec b 10); [done|].
    rewrite IH by done. rewrite lenN_cons. f_equal. lia.
Qed.

Lemma encode_char_newline c : c <> 10 -> 10 ∉ encode_char c.
Proof. intros Hc. unfold encode_char. repeat case_match; rewrite ?not_elem_of_cons; prop_of_bool;
  split_and?; try apply not_elem_of_nil; lia. Qed.

Lemma partition_point_none {A} (p : A -> bool) l : Forall (fun a => p a = false) l -> partition_point p l = O.
Proof. intros H. destruct H as [|a l Ha _]; cbn; [done|]. by rewrite Ha. Qed.

(** The line that contains the byte [i + s], in the starts after [ls]. *)
Lemma line_starts_point text ls i s :
  ls <= i -> s <= str_len text ->
  let l := ls :: line_starts i (encode_utf8 text) in
  N.of_nat (partition_point (fun start => start <=? i + s) l) = 1 + newlines (chars_before s text) /\
  l !! N.to_nat (newlines (chars_before s text)) = Some (last_line ls i (chars_before s text)).
Proof.
  revert ls i s. induction text as [|c text IH]; intros ls i s Hls Hs;
    cbn [encode_utf8 chars_before line_starts str_len] in *.
  { cbn. destruct (N.leb_spec ls (i + s)); [done|lia]. }
  cbn [partition_point]. destruct (N.leb_spec ls (i + s)); [|lia].
  destruct (N.leb_spec (len_utf8 c) s).
  - destruct (N.eq_dec c 10) as [->|Hc].
    + change (encode_char 10 ++ encode_utf8 text) with (10 :: encode_utf8 text). cbn [line_starts newlines last_line].
      rewrite N.eqb_refl. change (len_utf8 10) with 1 in *.
      destruct (IH (i + 1) (i + 1) (s - 1)) as [Hp Hl]; [lia..|].
      replace (i + 1 + (s - 1)) with (i + s) in Hp by lia. split; [rewrite Nat2N.inj_succ, Hp; lia|].
      rewrite N2Nat.inj_add. exact Hl.
    + rewrite line_starts_skip by (by apply encode_char_newline). rewrite encode_char_len.
      cbn [newlines last_line]. rewrite (proj2 (N.eqb_neq c 10)) by done.
      destruct (IH ls (i + len_utf8 c) (s - len_utf8 c)) as [Hp Hl]; [lia..|].
      replace (i + len_utf8 c + (s - len_utf8 c)) with (i + s) in Hp by lia. cbn [partition_point] in Hp.
      destruct (N.leb_spec ls (i + s)); [|lia]. done.
  - rewrite partition_point_none; [done|].
    eapply Forall_impl; [|intros a Ha; apply N.leb_gt; exact Ha].
    destruct (N.eq_dec c 10) as [->|Hc].
    + change (encode_char 10 ++ encode_utf8 text) with (10 :: encode_utf8 text). cbn [line_starts].
      change (len_utf8 10) with 1 in *. rewrite N.eqb_refl. constructor; [lia|].
      eapply Forall_impl; [apply line_starts_gt|]. cbn. lia.
    + rewrite line_starts_skip by (by apply encode_char_newline). rewrite encode_char_len.
      eapply Forall_impl; [apply line_starts_gt|]. cbn. lia.
Qed.

Lemma line_span_position text start end_ :
  start <= str_len text ->
  line_span (LineIndex_new text) (mkByteRange start end_) =
  Ok (mkSpan start end_ (fst (position_at text start)) (snd (position_at text start))).
Proof.
  intros Hs. destruct (line_starts_point text 0 0 start) as [Hp Hl]; [lia|done|].
  unfold line_span, LineIndex_new, index. cbn [starts scalar_prefix r_start r_end].
  change (0 + start) with start in Hp. rewrite Hp, N.add_comm, N.add_sub, Hl. cbn [ok_or].
  rewrite scalar_counts_lookup by done. cbn [ok_or].
  destruct (last_line_prefix (chars_before start text)) as (pre & Hpre & -> & Hc).
  assert (Hpt : pre `prefix_of` text) by (etrans; [exact Hpre|apply chars_before_is_prefix]).
  rewrite scalar_counts_lookup by (destruct Hpt as [k ->]; rewrite str_len_app; lia).
  rewrite chars_before_prefix by done. cbn [ok_or]. unfold position_at.
  destruct (walk_lines 1 0 0 (chars_before start text)) as [Hw _]; [lia|]. change (0 - 0 + 1) with 1 in Hw.
  rewrite Hw, Hc. cbn [fst snd]. do 2 f_equal; lia.
Qed.

(** The line index gives the position that reading the text gives.  For every byte offset of
    the text the span of the index has the line and the column at which a reader that advances
    character by character, starting a new line after each newline, finds the character of that
    byte; no index of the two tables is out of range. *)
Theorem line_index_is_position text start end_ :
  start <= str_len text ->
  line_span (LineIndex_new text) (mkByteRange start end_) =
  Ok (mkSpan start end_ (fst (position_at text start)) (snd (position_at text start))).
Proof. apply line_span_position. Qed.

Lemma line_index_is_position_witness :
  4 <= str_len [97; 10; 233; 98] /\
  line_span (LineIndex_new [97; 10; 233; 98]) (mkByteRange 4 5) = Ok (mkSpan 4 5 2 2).
Proof. split; [vm_compute; discriminate|]. apply (line_index_is_position [97; 10; 233; 98] 4 5). vm_compute. discriminate. Defined.

(** ** What is accepted *)

(** Induction over a tree and its children. *)
Lemma ast_ind (P : AstValue -> Prop) :
  (forall v r, P (Ast_String v r)) -> (forall v r, P (Ast_Number v r)) -> (forall v r, P (Ast_Boolean v r)) ->
  (forall properties r, Forall (fun p => P (snd p)) properties -> P (Ast_Object properties r)) ->
  (forall elements r, Forall P elements -> P (Ast_Array elements r)) -> (forall r, P (Ast_Null r)) ->
  forall v, P v.
Proof.
  intros Hs Hn Hb Ho Ha Hz. fix IH 1. intros [v r|v r|v r|properties r|elements r|r]; [auto|auto|auto| | |auto].
  - apply Ho. induction properties as [|[[name range] v] properties IHp]; constructor; [apply IH|exact IHp].
  - apply Ha. induction elements as [|v elements IHe]; constructor; [apply IH|exact IHe].
Qed.

(** A tree within the limits, below [depth] containers; the root also limits its lifecycle groups. *)
Inductive within (limits : ParseLimits) : bool -> N -> AstValue -> Prop :=
| within_string root depth value range :
    depth <= nesting_depth limits -> str_len value <= string_bytes limits ->
    within limits root depth (Ast_String value range)
| within_number root depth value range :
    depth <= nesting_depth limits -> within limits root depth (Ast_Number value range)
| within_boolean root depth value range :
    depth <= nesting_depth limits -> within limits root depth (Ast_Boolean value range)
| within_null root depth range :
    depth <= nesting_depth limits -> within limits root depth (Ast_Null range)
| within_array root depth elements range :
    depth + 1 <= nesting_depth limits -> lenN elements <= array_items limits ->
    Forall (within limits false (depth + 1)) elements ->
    within limits root depth (Ast_Array elements range)
| within_object root depth properties range :
    depth + 1 <= nesting_depth limits -> lenN properties <= object_items limits ->
    (root = true -> forall name r group r', (name, r, Ast_Object group r') ∈ properties ->
       name ∈ LIFECYCLE_PROPERTIES -> lenN group <= lifecycle_group_items limits) ->
    NoDup (List.map (fun p => fst (fst p)) properties) ->
    Forall (fun p => str_len (fst (fst p)) <= string_bytes limits /\ within limits false (depth + 1) (snd p)) properties ->
    within limits root depth (Ast_Object properties range).

(** Every range of the tree starts in the text. *)
Fixpoint located (text : str) (v : AstValue) : Prop :=
  r_start (ast_range v) <= str_len text /\
  match v with
  | Ast_Array elements _ =>
      (fix all (l : list AstValue) : Prop := match l with [] => True | x :: l' => located text x /\ all l' end) elements
  | Ast_Object properties _ =>
      (fix all (l : list (str * Range * AstValue)) : Prop :=
         match l with
         | [] => True
         | (_, range, x) :: l' => r_start range <= str_len text /\ located text x /\ all l'
         end) properties
  | _ => True
  end.

Section acceptance.
Context (json_string : str -> str) (file text : str) (limits : ParseLimits).
Let lines := LineIndex_new text.
Let check := check_value json_string file lines limits.

Lemma line_span_located range : r_start range <= str_len text -> exists span, line_span lines range = Ok span.
Proof. intros H. destruct range as [start end_]. eexists. by apply line_span_position. Qed.

(** The outcome of a check: no panic, and success exactly when [P] holds. *)
Definition decides {X} (P : Prop) (r : result JsoncStop X) : Prop :=
  match r with Ok _ => P | Err (Jsonc_Error _) => ~ P | Err Jsonc_Panicked => False end.

Lemma decides_iff {X} (P Q : Prop) (r : result JsoncStop X) : (P <-> Q) -> decides P r -> decides Q r.
Proof. intros HPQ. destruct r as [|[]]; cbn; tauto. Qed.

Lemma stop_decides {X} P path range kind limit :
  r_start range <= str_len text -> ~ P -> decides P (stop_at (X := X) file lines path range kind limit).
Proof. intros Hr HP. unfold stop_at. by destruct (line_span_located range Hr) as [span ->]. Qed.

Lemma decides_bind {X Y} (P Q : Prop) (m : result JsoncStop X) (k : X -> result JsoncStop Y) :
  decides P m -> (forall x, m = Ok x -> P -> decides Q (k x)) -> (Q -> P) ->
  decides Q (let? x := m in k x).
Proof. intros Hm Hk HQP. destruct m as [x|[]]; cbn in *; [by apply Hk|tauto|done]. Qed.

Lemma located_groups path properties :
  (forall name r v, (name, r, v) ∈ properties -> r_start (ast_range v) <= str_len text) ->
  decides (forall name r group r', (name, r, Ast_Object group r') ∈ properties ->
             name ∈ LIFECYCLE_PROPERTIES -> lenN group <= lifecycle_group_items limits)
    (check_groups json_string file lines limits path properties).
Proof.
  induction properties as [|[[name r] v] properties IH]; intros Hl; cbn [check_groups].
  { intros ? ? ? ? Hin. by apply not_elem_of_nil in Hin. }
  assert (IH' := IH (fun n r v Hin => Hl n r v (list_elem_of_further _ _ _ Hin))).
  assert (Hskip : (forall group r', v = Ast_Object group r' -> name ∈ LIFECYCLE_PROPERTIES ->
      lenN group <= lifecycle_group_items limits) ->
    decides (forall name0 r0 group r', (name0, r0, Ast_Object group r') ∈ (name, r, v) :: properties ->
      name0 ∈ LIFECYCLE_PROPERTIES -> lenN group <= lifecycle_group_items limits)
      (check_groups json_string file lines limits path properties)).
  { intros Hv. eapply decides_iff; [|exact IH']. split; [|by eauto using list_elem_of_further].
    intros H n r0 g r' Hin. apply elem_of_cons in Hin as [Heq|Hin]; [|by eauto].
    injection Heq as -> -> Hv'. by apply (Hv g r'). }
  destruct v; try (apply Hskip; by intros).
  destruct (bool_decide _) eqn:Hb; cbn [andb]; [|apply Hskip; intros ? ? [= <- <-] ?; prop_of_bool; done].
  destruct (N.ltb_spec (lifecycle_group_items limits) (lenN properties0)).
  - prop_of_bool. apply stop_decides; [apply (Hl name r (Ast_Object properties0 range)), list_elem_of_here|]. intros H1.
    specialize (H1 name r properties0 range (list_elem_of_here _ _) Hb). lia.
  - apply Hskip. by intros ? ? [= <- <-] ?.
Qed.

(** The paths of children are not the root's. *)
Lemma child_path_not_root path name : path <> [] -> child_path json_string path name <> $"$".
Proof.
  intros Hp H. unfold child_path in H. apply (f_equal length) in H. revert H.
  case_match; rewrite !length_app; destruct path; cbn; [done|lia|done|lia].
Qed.

Lemma item_path_not_root path i : path <> [] -> item_path path i <> $"$".
Proof.
  intros Hp H. unfold item_path in H. apply (f_equal length) in H. revert H.
  rewrite !length_app. destruct path; cbn; [done|lia].
Qed.

Definition root_path (path : str) : bool := bool_decide (path = $"$").

(** The statement of the check of one value. *)
Definition checks (v : AstValue) : Prop :=
  forall path depth spans, path <> [] -> located text v ->
    decides (within limits (root_path path) depth v) (check v path depth spans).

Lemma check_elements_decides elements depth path i spans :
  path <> [] -> Forall checks elements -> Forall (located text) elements ->
  decides (Forall (within limits false depth) elements)
    (check_elements (fun child p s => check child p depth s) path i elements spans).
Proof.
  intros Hp Hc. revert i spans. induction Hc as [|v elements Hv _ IH]; intros i spans Hl; cbn [check_elements].
  - constructor.
  - inversion_clear Hl as [|? ? Hlv Hle].
    assert (Hip : item_path path i <> []) by (unfold item_path; by destruct path).
    specialize (Hv (item_path path i) depth spans Hip Hlv). unfold root_path in Hv.
    rewrite bool_decide_eq_false_2 in Hv by (by apply item_path_not_root).
    eapply decides_bind; [exact Hv| |by inversion_clear 1].
    intros s' _ Hw. eapply decides_iff; [|apply IH, Hle]. rewrite Forall_cons. tauto.
Qed.

Lemma check_properties_decides properties depth path names spans :
  path <> [] -> Forall (fun p => checks (snd p)) properties ->
  Forall (fun p => r_start (snd (fst p)) <= str_len text /\ located text (snd p)) properties ->
  decides (NoDup (List.map (fun p => fst (fst p)) properties) /\
           Forall (fun p => fst (fst p) ∉ names) properties /\
           Forall (fun p => str_len (fst (fst p)) <= string_bytes limits /\ within limits false depth (snd p)) properties)
    (check_properties json_string file lines limits (fun child p s => check child p depth s) path names properties spans).
Proof.
  intros Hp Hc. revert names spans. induction Hc as [|[[name range] v] properties Hv _ IH]; intros names spans Hl;
    cbn [check_properties]; [by split_and!; constructor|].
  inversion_clear Hl as [|? ? [Hr Hlv] Hle]. cbn [fst snd List.map] in *.
  destruct (N.ltb_spec (string_bytes limits) (str_len name)).
  { apply stop_decides; [done|]. intros (_ & _ & Hf). apply Forall_cons in Hf as [[Hf _] _]. cbn in Hf. lia. }
  case_bool_decide as Hn.
  { destruct (line_span_located range Hr) as [span ->]. cbn. intros (_ & Hf & _).
    apply Forall_cons in Hf as [Hf _]. by apply Hf. }
  assert (Hip : child_path json_string path name <> []) by (unfold child_path; case_match; by destruct path).
  specialize (Hv (child_path json_string path name) depth spans Hip Hlv). unfold root_path in Hv.
  rewrite bool_decide_eq_false_2 in Hv by (by apply child_path_not_root).
  eapply decides_bind; [exact Hv| |].
  2:{ intros (_ & _ & Hf). by apply Forall_cons in Hf as [[_ Hf] _]. }
  intros s' _ Hw. eapply decides_iff; [|apply IH, Hle]. rewrite NoDup_cons, !Forall_cons. cbn [fst snd].
  assert (Hset : Forall (fun p : str * Range * AstValue => fst (fst p) ∉ {[name]} ∪ names) properties <->
    (name ∉ List.map (fun p => fst (fst p)) properties) /\ Forall (fun p => fst (fst p) ∉ names) properties).
  { rewrite !Forall_forall. split.
    - intros H1. split; [|intros p Hin; specialize (H1 p Hin); set_solver].
      intros Hin. apply list_elem_of_fmap in Hin as (p & -> & Hin). specialize (H1 p Hin). set_solver.
    - intros [H1 H2] p Hin. specialize (H2 p Hin). apply not_elem_of_union. split; [|done].
      intros Heq%elem_of_singleton. apply H1, list_elem_of_fmap. by exists p. }
  rewrite Hset. tauto.
Qed.

Lemma located_elements elements r : located text (Ast_Array elements r) ->
  r_start r <= str_len text /\ Forall (located text) elements.
Proof.
  intros [Hr H]. split; [exact Hr|]. induction elements as [|v elements IH]; [constructor|].
  destruct H as [Hv H]. constructor; auto.
Qed.

Lemma located_properties properties r : located text (Ast_Object properties r) ->
  r_start r <= str_len text /\
  Forall (fun p => r_start (snd (fst p)) <= str_len text /\ located text (snd p)) properties.
Proof.
  intros [Hr H]. split; [exact Hr|]. induction properties as [|[[name range] v] properties IH]; [constructor|].
  destruct H as (Hv & Hv' & H). constructor; auto.
Qed.

Lemma located_range v : located text v -> r_start (ast_range v) <= str_len text.
Proof. by destruct v; intros [? _]. Qed.

Lemma check_value_decides v : checks v.
Proof.
  induction v as [v r|v r|v r|properties r IH|elements r IH|r] using ast_ind; intros path depth spans Hp Hl;
    unfold check; cbn [check_value ast_range is_container];
    destruct (line_span_located _ (located_range _ Hl)) as [span Hspan]; cbn [ast_range] in Hspan; rewrite Hspan;
    rewrite ?N.add_0_r; apply located_range in Hl as Hr; cbn [ast_range] in Hr;
    (match goal with |- context [nesting_depth limits <? ?d] => destruct (N.ltb_spec (nesting_depth limits) d) end;
     [apply stop_decides; [done|]; inversion_clear 1; lia|]).
  - destruct (N.ltb_spec (string_bytes limits) (str_len v)).
    + apply stop_decides; [done|]. inversion_clear 1. lia.
    + by constructor.
  - by constructor.
  - by constructor.
  - apply located_properties in Hl as [_ Hl].
    destruct (N.ltb_spec (object_items limits) (lenN properties)).
    { apply stop_decides; [done|]. inversion_clear 1. lia. }
    pose (G := forall name r0 group r', (name, r0, Ast_Object group r') ∈ properties ->
      name ∈ LIFECYCLE_PROPERTIES -> lenN group <= lifecycle_group_items limits).
    eapply (decides_bind (root_path path = true -> G)).
    + unfold root_path. case_bool_decide.
      * eapply decides_iff; [|apply located_groups].
        -- split; [intros Hg _; exact Hg|intros Hg; exact (Hg eq_refl)].
        -- intros name r0 v Hin. rewrite Forall_forall in Hl. apply located_range. by apply (Hl _ Hin).
      * cbn. done.
    + intros [] _ Hg. eapply decides_iff; [|by apply check_properties_decides]. split.
      * intros (Hn & _ & Hf). by constructor.
      * inversion_clear 1. split_and!; [done| |done]. apply Forall_forall. set_solver.
    + inversion_clear 1. done.
  - apply located_elements in Hl as [_ Hl].
    destruct (N.ltb_spec (array_items limits) (lenN elements)).
    { apply stop_decides; [done|]. inversion_clear 1. lia. }
    eapply decides_iff; [|by apply check_elements_decides]. split; [by constructor|by inversion_clear 1].
  - by constructor.
Qed.
End acceptance.

(** The ranges of [jsonc_parser] start in the text they were parsed from. *)
Class JsoncParserLaws (parse_to_ast : str -> result (Range * str) (option AstValue)) : Prop := {
  parsed_located text ast : parse_to_ast text = Ok (Some ast) -> located text ast;
  error_located text range message : parse_to_ast text = Err (range, message) -> r_start range <= str_len text;
}.

Section documents.
Context (parse_to_ast : str -> result (Range * str) (option AstValue)) `{!JsoncParserLaws parse_to_ast}
  (to_value : AstValue -> Json) (json_string : str -> str).

(** The documents the reader is documented to accept. *)
Definition accepted (bytes : list N) (limits : ParseLimits) (ast : AstValue) : Prop :=
  lenN bytes <= file_bytes limits /\
  exists text, from_utf8 bytes = Some text /\ parse_to_ast text = Ok (Some ast) /\ within limits true 0 ast.

(** the reader accepts exactly the bounded documents and never panics.  A document is read
    exactly when its bytes are at most the file limit and UTF-8, the parser reads a tree from
    them, and the tree is within every limit: containers nested at most to the limit, arrays,
    objects, strings, keys and lifecycle groups at most their limits, and no key twice in an
    object, at any depth.  The value is that of the tree; every other input is an error, and no
    table is indexed out of range. *)
Theorem jsonc_accepts_bounded (path : str) (bytes : list N) (limits : ParseLimits) :
  match parse_jsonc parse_to_ast to_value json_string path bytes limits with
  | Ok doc => exists ast, accepted bytes limits ast /\ doc_value doc = to_value ast /\ doc_path doc = path
  | Err (Jsonc_Error _) => forall ast, ~ accepted bytes limits ast
  | Err Jsonc_Panicked => False
  end.
Proof.
  unfold parse_jsonc, accepted. destruct (N.ltb_spec (file_bytes limits) (lenN bytes)).
  { intros ast [H1 _]. lia. }
  destruct (from_utf8 bytes) as [text|] eqn:Hu.
  2:{ destruct (utf8_error _ _ _). by intros ast (_ & text & Ht & _). }
  destruct (parse_to_ast text) as [[ast|]|[range message]] eqn:Hp.
  - assert (Hc := check_value_decides json_string path text limits ast ($"$") 0 ∅ ltac:(done)
      (parsed_located _ _ Hp)). unfold root_path in Hc. rewrite bool_decide_eq_true_2 in Hc by done.
    unfold decides in Hc. destruct (check_value _ _ _ _ _ _ _ _) as [spans|[e|]]; [| |done].
    + exists ast. split_and!; [done|by exists text|done|done].
    + intros ast' (_ & text' & [= <-] & Hp' & Hw). rewrite Hp in Hp'. injection Hp' as <-. by apply Hc.
  - destruct (line_span_located text (mkByteRange 0 0)) as [span ->]; [apply N.le_0_l|].
    intros ast (_ & text' & [= <-] & Hp' & _). by rewrite Hp in Hp'.
  - destruct (line_span_located text range) as [span ->]; [by eapply error_located|].
    intros ast (_ & text' & [= <-] & Hp' & _). by rewrite Hp in Hp'.
Qed.
End documents.

(** ** A document *)

Definition small_tree : AstValue :=
  Ast_Object [($"image", mkByteRange 1 8, Ast_String ($"debian:13") (mkByteRange 9 20))] (mkByteRange 0 21).

(** A parser that knows one document. *)
Definition one_document (text : str) : result (Range * str) (option AstValue) :=
  if bool_decide (text = $"{'image':'debian:13'}") then Ok (Some small_tree) else Err (mkByteRange 0 0, []).

#[export] Instance one_document_laws : JsoncParserLaws one_document.
Proof.
  split; intros text; unfold one_document; case_bool_decide as H; try done.
  - intros ast [= <-]. rewrite H. vm_compute. repeat split; discriminate.
  - intros range message [= <- <-]. apply N.le_0_l.
Qed.

Lemma jsonc_accepts_bounded_witness :
  (exists ast, accepted one_document ($"{'image':'debian:13'}") default_limits ast) /\
  forall ast, ~ accepted one_document ($"{'image':'debian:13'}") (mkLimits 100 0 1 1 100 1) ast.
Proof.
  split.
  - assert (H := jsonc_accepts_bounded one_document (fun _ => Json_Null) (fun s => s) []
      ($"{'image':'debian:13'}") default_limits).
    destruct (parse_jsonc _ _ _ _ _ _) as [doc|e] eqn:E; [|by vm_compute in E].
    destruct H as (ast & Ha & _). by exists ast.
  - assert (H := jsonc_accepts_bounded one_document (fun _ => Json_Null) (fun s => s) []
      ($"{'image':'debian:13'}") (mkLimits 100 0 1 1 100 1)).
    destruct (parse_jsonc _ _ _ _ _ _) as [doc|[e|]] eqn:E; [by vm_compute in E|exact H|done].
Defined.
