(* ===== verification/HostRequirements.v ===== *)
(** * HostRequirements: evaluation of host requirements against measured capabilities
    ([cdenv-devcontainer/src/host_requirements.rs])

    The [&mut Vec] of warnings is threaded through the checks. *)

From S2P Require Import Prelude Text Profile.

(** ** Capabilities, warnings and errors *)

(** @src cdenv-devcontainer/src/host_requirements.rs:20-25 UnknownMeasurement *)
Inductive UnknownMeasurement : Type := Unmeasurable | ProbeUnavailable.
(** @src cdenv-devcontainer/src/host_requirements.rs:10-15 Measured *)
Inductive Measured (T : Type) : Type := Reliable (t : T) | Unknown (reason : UnknownMeasurement).
Arguments Reliable {T} t.
Arguments Unknown {T} reason.
(** @src cdenv-devcontainer/src/host_requirements.rs:29-34 GpuCapabilities *)
Record GpuCapabilities : Type := mkGpuCapabilities {
  gpu_cores : option N;
  gpu_memory_bytes : option N;
}.
(** @src cdenv-devcontainer/src/host_requirements.rs:38-47 HostCapabilities *)
Record HostCapabilities : Type := mkHostCapabilities {
  cap_cpus : Measured N;
  cap_memory_bytes : Measured N;
  cap_storage_bytes : Measured N;
  cap_gpu : Measured (option GpuCapabilities);
}.
(** @src cdenv-devcontainer/src/host_requirements.rs:52-57 GpuAccessIntent *)
Inductive GpuAccessIntent : Type := GpuAccess_None | GpuAccess_Requested.
(** @src cdenv-devcontainer/src/host_requirements.rs:62-75 HostResource *)
Inductive HostResource : Type :=
| Resource_Cpu | Resource_Memory | Resource_Storage | Resource_Gpu | Resource_GpuCores
| Resource_GpuMemory.
(** @src cdenv-devcontainer/src/host_requirements.rs:78-87 HostResource::property_path *)
Definition property_path (r : HostResource) : str :=
  match r with
  | Resource_Cpu => $"$.hostRequirements.cpus"
  | Resource_Memory => $"$.hostRequirements.memory"
  | Resource_Storage => $"$.hostRequirements.storage"
  | Resource_Gpu => $"$.hostRequirements.gpu"
  | Resource_GpuCores => $"$.hostRequirements.gpu.cores"
  | Resource_GpuMemory => $"$.hostRequirements.gpu.memory"
  end.
(** @src cdenv-devcontainer/src/host_requirements.rs:102-111 HostRequirementWarningKind *)
Inductive HostRequirementWarningKind : Type :=
| Warn_Unknown (reason : UnknownMeasurement)
| Warn_OptionalGpuUnavailable
| Warn_OptionalGpuUnknown (reason : UnknownMeasurement)
| Warn_GpuDetailUnknown.
(** @src cdenv-devcontainer/src/host_requirements.rs:92-97 HostRequirementWarning *)
Record HostRequirementWarning : Type := mkWarning {
  warning_resource : HostResource;
  warning_kind : HostRequirementWarningKind;
}.
(** @src cdenv-devcontainer/src/host_requirements.rs:115-120 HostRequirementEvaluation *)
Record HostRequirementEvaluation : Type := mkEvaluation {
  warnings : list HostRequirementWarning;
  gpu_access : GpuAccessIntent;
}.
(** @src cdenv-devcontainer/src/host_requirements.rs:125-127 is_proved_met *)
Definition is_proved_met (e : HostRequirementEvaluation) : bool :=
  match warnings e with [] => true | _ => false end.
(** The property path is a function of the resource.
    @src cdenv-devcontainer/src/host_requirements.rs:133-138 HostRequirementError *)
Record HostRequirementError : Type := mkRequirementError {
  error_path : str;
  error_resource : HostResource;
}.
Definition unmet (r : HostResource) : HostRequirementError := mkRequirementError (property_path r) r.

(** ** Quantities *)

(** [1 << 10] and so on. @src cdenv-devcontainer/src/host_requirements.rs:317-324 byte_quantity *)
Definition unit_multiplier (suffix : str) : option N :=
  if str_eqb suffix [] then Some 1
  else if str_eqb suffix ($"kb") then Some (N.shiftl 1 10)
  else if str_eqb suffix ($"mb") then Some (N.shiftl 1 20)
  else if str_eqb suffix ($"gb") then Some (N.shiftl 1 30)
  else if str_eqb suffix ($"tb") then Some (N.shiftl 1 40)
  else None.

(** The digits are ASCII, so both slices are at character boundaries and [get] succeeds.
    @src cdenv-devcontainer/src/host_requirements.rs:314-326 byte_quantity *)
Definition byte_quantity (value : str) : option N :=
  match parse_uint MAX_U64 (take_while is_ascii_digit value) with
  | None => None
  | Some number =>
      match unit_multiplier (drop_while is_ascii_digit value) with
      | None => None
      | Some multiplier => checked_mul MAX_U64 number multiplier
      end
  end.

(** ** Evaluation *)

Abbreviation Warnings := (list HostRequirementWarning) (only parsing).

(** @src cdenv-devcontainer/src/host_requirements.rs:200-220 evaluate_scalar *)
Definition evaluate_scalar (required : N) (measured : Measured N) (resource : HostResource)
    (w : Warnings) : result HostRequirementError Warnings :=
  match measured with
  | Reliable available => if available <? required then Err (unmet resource) else Ok w
  | Unknown reason => Ok (w ++ [mkWarning resource (Warn_Unknown reason)])
  end.

(** @src cdenv-devcontainer/src/host_requirements.rs:294-312 require_gpu *)
Definition require_gpu (measured : Measured (option GpuCapabilities)) (w : Warnings) :
    result HostRequirementError (option GpuCapabilities * Warnings) :=
  match measured with
  | Reliable None => Err (unmet Resource_Gpu)
  | Reliable gpu => Ok (gpu, w)
  | Unknown reason => Ok (None, w ++ [mkWarning Resource_Gpu (Warn_Unknown reason)])
  end.

(** The check of one detailed GPU quantity.
    @src cdenv-devcontainer/src/host_requirements.rs:255-269 evaluate_gpu *)
Definition evaluate_gpu_detail (required : N) (available : option N) (resource : HostResource)
    (w : Warnings) : result HostRequirementError Warnings :=
  match available with
  | Some available => if available <? required then Err (unmet resource) else Ok w
  | None => Ok (w ++ [mkWarning resource Warn_GpuDetailUnknown])
  end.

(** @src cdenv-devcontainer/src/host_requirements.rs:222-292 evaluate_gpu *)
Definition evaluate_gpu (requirement : option GpuRequirement)
    (measured : Measured (option GpuCapabilities)) (w : Warnings) :
    result HostRequirementError (GpuAccessIntent * Warnings) :=
  match requirement with
  | None => Ok (GpuAccess_None, w)
  | Some Gpu_NotRequired => Ok (GpuAccess_None, w)
  | Some Gpu_Optional =>
      match measured with
      | Reliable (Some _) => Ok (GpuAccess_Requested, w)
      | Reliable None => Ok (GpuAccess_None, w ++ [mkWarning Resource_Gpu Warn_OptionalGpuUnavailable])
      | Unknown reason =>
          Ok (GpuAccess_None, w ++ [mkWarning Resource_Gpu (Warn_OptionalGpuUnknown reason)])
      end
  | Some Gpu_Required =>
      let? (_, w) := require_gpu measured w in
      Ok (GpuAccess_Requested, w)
  | Some (Gpu_Detailed cores memory) =>
      let? (gpu, w) := require_gpu measured w in
      let? w := match cores with
                | Some required =>
                    evaluate_gpu_detail required (gpu ≫= gpu_cores) Resource_GpuCores w
                | None => Ok w
                end in
      let? w := match memory with
                | Some required =>
                    let? required := ok_or (unmet Resource_GpuMemory) (byte_quantity required) in
                    evaluate_gpu_detail required (gpu ≫= gpu_memory_bytes) Resource_GpuMemory w
                | None => Ok w
                end in
      Ok (GpuAccess_Requested, w)
  end.

(** @src cdenv-devcontainer/src/host_requirements.rs:150-198 evaluate_host_requirements *)
Definition evaluate_host_requirements (requirements : option HostRequirements)
    (capabilities : HostCapabilities) : result HostRequirementError HostRequirementEvaluation :=
  match requirements with
  | None => Ok (mkEvaluation [] GpuAccess_None)
  | Some requirements =>
      let? w := match cpus requirements with
                | Some required => evaluate_scalar required (cap_cpus capabilities) Resource_Cpu []
                | None => Ok []
                end in
      let? w := match memory requirements with
                | Some required =>
                    let? required := ok_or (unmet Resource_Memory) (byte_quantity required) in
                    evaluate_scalar required (cap_memory_bytes capabilities) Resource_Memory w
                | None => Ok w
                end in
      let? w := match storage requirements with
                | Some required =>
                    let? required := ok_or (unmet Resource_Storage) (byte_quantity required) in
                    evaluate_scalar required (cap_storage_bytes capabilities) Resource_Storage w
                | None => Ok w
                end in
      let? (gpu_access, w) := evaluate_gpu (gpu requirements) (cap_gpu capabilities) w in
      Ok (mkEvaluation w gpu_access)
  end.

(** ** What the evaluation decides *)

Definition scalar_met (m : Measured N) (n : N) : Prop := exists a, m = Reliable a /\ n <= a.
Definition scalar_refuted (m : Measured N) (n : N) : Prop := exists a, m = Reliable a /\ a < n.

(** A size that does not denote a [u64] is refuted by every host. *)
Definition size_met (m : Measured N) (s : str) : Prop :=
  exists n, byte_quantity s = Some n /\ scalar_met m n.
Definition size_refuted (m : Measured N) (s : str) : Prop :=
  byte_quantity s = None \/ exists n, byte_quantity s = Some n /\ scalar_refuted m n.

Definition for_some {A} (P : A -> Prop) (o : option A) : Prop :=
  match o with Some a => P a | None => True end.
Definition for_any {A} (P : A -> Prop) (o : option A) : Prop :=
  match o with Some a => P a | None => False end.

(** A reliably measured GPU. *)
Definition measured_gpu (c : HostCapabilities) : option GpuCapabilities :=
  match cap_gpu c with Reliable (Some g) => Some g | _ => None end.
Definition gpu_quantity (o : option N) : Measured N :=
  match o with Some n => Reliable n | None => Unknown Unmeasurable end.

Definition gpu_met (c : HostCapabilities) (r : GpuRequirement) : Prop :=
  match r with
  | Gpu_NotRequired => True
  | Gpu_Optional | Gpu_Required => is_Some (measured_gpu c)
  | Gpu_Detailed cores memory =>
      is_Some (measured_gpu c) /\
      for_some (scalar_met (gpu_quantity (measured_gpu c ≫= gpu_cores))) cores /\
      for_some (size_met (gpu_quantity (measured_gpu c ≫= gpu_memory_bytes))) memory
  end.
Definition gpu_refuted (c : HostCapabilities) (r : GpuRequirement) : Prop :=
  match r with
  | Gpu_NotRequired | Gpu_Optional => False
  | Gpu_Required => cap_gpu c = Reliable None
  | Gpu_Detailed cores memory =>
      cap_gpu c = Reliable None \/
      for_any (scalar_refuted (gpu_quantity (measured_gpu c ≫= gpu_cores))) cores \/
      for_any (size_refuted (gpu_quantity (measured_gpu c ≫= gpu_memory_bytes))) memory
  end.

(** Every requirement is reliably met; some requirement is reliably refuted. *)
Definition requirements_met (r : HostRequirements) (c : HostCapabilities) : Prop :=
  for_some (scalar_met (cap_cpus c)) (cpus r) /\
  for_some (size_met (cap_memory_bytes c)) (memory r) /\
  for_some (size_met (cap_storage_bytes c)) (storage r) /\
  for_some (gpu_met c) (gpu r).
Definition requirements_refuted (r : HostRequirements) (c : HostCapabilities) : Prop :=
  for_any (scalar_refuted (cap_cpus c)) (cpus r) \/
  for_any (size_refuted (cap_memory_bytes c)) (memory r) \/
  for_any (size_refuted (cap_storage_bytes c)) (storage r) \/
  for_any (gpu_refuted c) (gpu r).

(** A check that fails exactly when refuted and adds no warning exactly when met. *)
Definition check_spec (r : result HostRequirementError Warnings) (w : Warnings)
    (refuted met : Prop) : Prop :=
  match r with
  | Err _ => refuted
  | Ok w' => ~ refuted /\ exists extra, w' = w ++ extra /\ (extra = [] <-> met)
  end.

Lemma check_bind r k w R1 M1 R2 M2 :
  check_spec r w R1 M1 -> (forall w', check_spec (k w') w' R2 M2) ->
  check_spec (let? w' := r in k w') w (R1 \/ R2) (M1 /\ M2).
Proof.
  destruct r as [w1|e]; simpl; [|tauto]. intros (HR1 & x1 & -> & Hx1) Hk. specialize (Hk (w ++ x1)).
  destruct (k (w ++ x1)) as [w2|e]; simpl in *; [|tauto]. destruct Hk as (HR2 & x2 & -> & Hx2).
  split; [tauto|]. exists (x1 ++ x2). rewrite app_assoc, app_nil, Hx1, Hx2. done.
Qed.

Lemma check_skip w : check_spec (Ok w) w False True.
Proof. split; [tauto|]. exists []. by rewrite app_nil_r. Qed.

Lemma check_scalar n m res w :
  check_spec (evaluate_scalar n m res w) w (scalar_refuted m n) (scalar_met m n).
Proof.
  unfold evaluate_scalar, scalar_refuted, scalar_met. destruct m as [a|reason]; simpl.
  - destruct (N.ltb_spec a n); simpl; [eauto|]. split; [intros (? & [= <-] & ?); lia|].
    exists []. rewrite app_nil_r. split; [done|]. split; [eauto|done].
  - split; [by intros (? & ? & _)|]. eexists. split; [done|]. split; [done|]. by intros (? & ? & _).
Qed.

Lemma check_size s m res w :
  check_spec (let? n := ok_or (unmet res) (byte_quantity s) in evaluate_scalar n m res w) w
    (size_refuted m s) (size_met m s).
Proof.
  unfold size_refuted, size_met. destruct (byte_quantity s) as [n|]; simpl; [|auto].
  assert (H := check_scalar n m res w). destruct (evaluate_scalar n m res w); simpl in *; [|eauto].
  destruct H as (HR & x & -> & Hx). split; [intros [?|(? & [= <-] & ?)]; auto; done|].
  exists x. split; [done|]. rewrite Hx. split; [eauto|]. by intros (? & [= <-] & ?).
Qed.

Lemma check_opt {A} (f : A -> Warnings -> result HostRequirementError Warnings) R M o :
  (forall a w, check_spec (f a w) w (R a) (M a)) ->
  forall w, check_spec (match o with Some a => f a w | None => Ok w end) w (for_any R o) (for_some M o).
Proof. intros H w. destruct o; [apply H|apply check_skip]. Qed.

Lemma detail_scalar n o res w :
  check_spec (evaluate_gpu_detail n o res w) w (scalar_refuted (gpu_quantity o) n)
    (scalar_met (gpu_quantity o) n).
Proof.
  destruct o as [a|]; [apply (check_scalar n (Reliable a) res w)|]. simpl.
  unfold scalar_refuted, scalar_met. split; [by intros (? & ? & _)|].
  eexists. split; [done|]. split; [done|]. by intros (? & ? & _).
Qed.

Lemma detail_size s o res w :
  check_spec (let? n := ok_or (unmet res) (byte_quantity s) in evaluate_gpu_detail n o res w) w
    (size_refuted (gpu_quantity o) s) (size_met (gpu_quantity o) s).
Proof.
  unfold size_refuted, size_met. destruct (byte_quantity s) as [n|]; simpl; [|auto].
  assert (H := detail_scalar n o res w). destruct (evaluate_gpu_detail n o res w); simpl in *; [|eauto].
  destruct H as (HR & x & -> & Hx). split; [intros [?|(? & [= <-] & ?)]; auto; done|].
  exists x. split; [done|]. rewrite Hx. split; [eauto|]. by intros (? & [= <-] & ?).
Qed.

Definition no_intent (r : result HostRequirementError (GpuAccessIntent * Warnings)) :
  result HostRequirementError Warnings := result_map snd r.

Lemma check_bind_intent r i w R M :
  check_spec r w R M -> check_spec (no_intent (let? w' := r in Ok (i, w'))) w R M.
Proof. by destruct r. Qed.

(** A check on a host with a known (or unknown) GPU, after the warnings of [require_gpu]. *)
Lemma check_details cores memory g w :
  check_spec (no_intent
    (let? w := match cores with
               | Some n => evaluate_gpu_detail n (g ≫= gpu_cores) Resource_GpuCores w
               | None => Ok w
               end in
     let? w := match memory with
               | Some s =>
                   let? n := ok_or (unmet Resource_GpuMemory) (byte_quantity s) in
                   evaluate_gpu_detail n (g ≫= gpu_memory_bytes) Resource_GpuMemory w
               | None => Ok w
               end in
     Ok (GpuAccess_Requested, w))) w
    (for_any (scalar_refuted (gpu_quantity (g ≫= gpu_cores))) cores \/
     for_any (size_refuted (gpu_quantity (g ≫= gpu_memory_bytes))) memory)
    (for_some (scalar_met (gpu_quantity (g ≫= gpu_cores))) cores /\
     for_some (size_met (gpu_quantity (g ≫= gpu_memory_bytes))) memory).
Proof.
  assert (H1 := check_opt (fun n w => evaluate_gpu_detail n (g ≫= gpu_cores) Resource_GpuCores w)
    _ _ cores (fun n w => detail_scalar n _ _ w) w).
  assert (H2 := check_opt (fun s w => let? n := ok_or (unmet Resource_GpuMemory) (byte_quantity s) in
      evaluate_gpu_detail n (g ≫= gpu_memory_bytes) Resource_GpuMemory w)
    _ _ memory (fun s w => detail_size s _ _ w)).
  destruct (match cores with Some _ => _ | None => _ end) as [w1|e]; [|simpl in *; tauto].
  refine (check_bind (Ok w1) (fun w => no_intent
    (let? w := match memory with
               | Some s =>
                   let? n := ok_or (unmet Resource_GpuMemory) (byte_quantity s) in
                   evaluate_gpu_detail n (g ≫= gpu_memory_bytes) Resource_GpuMemory w
               | None => Ok w
               end in Ok (GpuAccess_Requested, w))) w _ _ _ _ H1 _).
  intros w'. apply check_bind_intent, H2.
Qed.

Lemma check_weaken r w R M R' M' :
  check_spec r w R M -> (R <-> R') -> (M <-> M') -> check_spec r w R' M'.
Proof.
  intros H HR HM. destruct r; simpl in *; [|tauto]. destruct H as (HR' & x & -> & Hx).
  split; [tauto|]. exists x. split; [done|]. tauto.
Qed.

(** A check that started with a warning proves nothing. *)
Lemma check_warned r w x R M R' M' :
  check_spec r (w ++ [x]) R M -> (R <-> R') -> ~ M' -> check_spec r w R' M'.
Proof.
  intros H HR HM. destruct r; simpl in *; [|tauto]. destruct H as (HR' & y & -> & _).
  split; [tauto|]. exists (x :: y). rewrite <- app_assoc. split; [done|]. split; [done|tauto].
Qed.

Lemma check_gpu r c w :
  check_spec (no_intent (evaluate_gpu (Some r) (cap_gpu c) w)) w (gpu_refuted c r) (gpu_met c r).
Proof.
  destruct r as [| | |cores memory]; cbn [evaluate_gpu gpu_refuted gpu_met]; unfold measured_gpu.
  - unfold require_gpu. destruct (cap_gpu c) as [[g|]|reason]; simpl; [|done|].
    + split; [done|]. exists []. rewrite app_nil_r. split; [done|]. split; [by eexists|done].
    + split; [done|]. eexists. split; [done|]. split; [done|]. by intros [? ?].
  - apply check_skip.
  - destruct (cap_gpu c) as [[g|]|reason]; simpl; (split; [tauto|]).
    + exists []. rewrite app_nil_r. split; [done|]. split; [by eexists|done].
    + eexists. split; [done|]. split; [done|]. by intros [? ?].
    + eexists. split; [done|]. split; [done|]. by intros [? ?].
  - unfold require_gpu. destruct (cap_gpu c) as [[g|]|reason]; [|simpl; auto|].
    + refine (check_weaken _ _ _ _ _ _ (check_details cores memory (Some g) w) _ _).
      * split; [auto|]. by intros [?|?].
      * split; [by split|tauto].
    + refine (check_warned _ _ _ _ _ _ _ (check_details cores memory None _) _ _).
      * split; [auto|]. by intros [?|?].
      * by intros ([? ?] & _).
Qed.

Lemma evaluate_intent r m w i w' :
  evaluate_gpu r m w = Ok (i, w') -> i = GpuAccess_Requested ->
  match r with
  | Some Gpu_Required | Some (Gpu_Detailed _ _) => True
  | Some Gpu_Optional => exists g, m = Reliable (Some g)
  | Some Gpu_NotRequired | None => False
  end.
Proof. intros H ->. destruct r as [[| | |]|]; simpl in H; repeat case_match; simplify_eq; eauto. Qed.

(** Only reliable evidence fails a host, and no warning means proved.  The evaluation
    of configured requirements is an error exactly when reliable evidence refutes one of
    them (or a size does not denote a machine integer); otherwise there are no warnings
    exactly when every requirement is reliably met; and GPU access is requested only for a
    required or detailed GPU, or for an optional one that is reliably present. *)
Theorem host_requirements_decided r c :
  match evaluate_host_requirements (Some r) c with
  | Err _ => requirements_refuted r c
  | Ok e => ~ requirements_refuted r c /\ (is_proved_met e = true <-> requirements_met r c) /\
            (gpu_access e = GpuAccess_Requested ->
               exists g, gpu r = Some g /\
                 (g = Gpu_Required \/ (exists cores mem, g = Gpu_Detailed cores mem) \/
                  (g = Gpu_Optional /\ is_Some (measured_gpu c))))
  end.
Proof.
  unfold evaluate_host_requirements, requirements_refuted, requirements_met.
  assert (Hcpu := check_opt (fun n w => evaluate_scalar n (cap_cpus c) Resource_Cpu w)
    _ _ (cpus r) (fun n w => check_scalar n _ _ w) []).
  assert (Hmem := check_opt (fun s w => let? n := ok_or (unmet Resource_Memory) (byte_quantity s) in
    evaluate_scalar n (cap_memory_bytes c) Resource_Memory w) _ _ (memory r) (fun s w => check_size s _ _ w)).
  assert (Hsto := check_opt (fun s w => let? n := ok_or (unmet Resource_Storage) (byte_quantity s) in
    evaluate_scalar n (cap_storage_bytes c) Resource_Storage w) _ _ (storage r) (fun s w => check_size s _ _ w)).
  assert (Hgpu := check_opt (fun g w => no_intent (evaluate_gpu (Some g) (cap_gpu c) w)) _ _ (gpu r)
    (fun g w => check_gpu g c w)).
  cbv beta in Hcpu, Hmem, Hsto, Hgpu.
  destruct (match cpus r with Some _ => _ | None => _ end) as [w1|e1]; [|simpl in Hcpu; tauto].
  specialize (Hmem w1).
  destruct (match memory r with Some _ => _ | None => _ end) as [w2|e2]; [|simpl in Hmem; tauto].
  specialize (Hsto w2).
  destruct (match storage r with Some _ => _ | None => _ end) as [w3|e3]; [|simpl in Hsto; tauto].
  specialize (Hgpu w3).
  assert (Heq : match gpu r with
                | Some g => no_intent (evaluate_gpu (Some g) (cap_gpu c) w3)
                | None => Ok w3
                end = no_intent (evaluate_gpu (gpu r) (cap_gpu c) w3)) by (by destruct (gpu r)).
  rewrite Heq in Hgpu. clear Heq.
  destruct (evaluate_gpu (gpu r) (cap_gpu c) w3) as [[i w4]|e4] eqn:Eg; [|simpl in Hgpu; tauto].
  cbn [check_spec no_intent result_map snd] in *.
  destruct Hcpu as (N1 & x1 & -> & X1), Hmem as (N2 & x2 & -> & X2), Hsto as (N3 & x3 & -> & X3),
    Hgpu as (N4 & x4 & -> & X4). split_and!; [tauto| |].
  - unfold is_proved_met. cbn [warnings]. rewrite <- X1, <- X2, <- X3, <- X4. clear.
    destruct x1, x2, x3, x4; simpl; naive_solver.
  - intros Hi. apply evaluate_intent in Eg; [|done]. unfold measured_gpu.
    destruct (gpu r) as [[| | |]|]; try done; eexists; (split; [done|]); eauto 10.
    destruct Eg as [g ->]. eauto.
Qed.
