(* ===== verification/Metadata.v ===== *)
(** * Metadata: property-specific merging of image metadata and repository configuration
    ([cdenv-devcontainer/src/metadata.rs], merging)

    The accumulators that [merge_common] takes by [&mut] are the fields of [MergeState];
    an error drops them, so the functions return a [result] of the new state. *)

From S2P Require Import Prelude Text Order Profile HostRequirements.

(** ** Errors, inputs and outputs *)

(** @src cdenv-devcontainer/src/metadata.rs:710-733 MetadataError *)
Inductive MetadataError : Type :=
| Metadata_InvalidType (source property expected : str)
| Metadata_UnknownProperty (source property : str)
| Metadata_Normalize (source : str)
| Metadata_Parse (source detail : str)
| Metadata_Validation (source property detail : str)
| Metadata_InvalidMount (source property : str)
| Metadata_InvalidRequirement (source property : str).

(** @src cdenv-devcontainer/src/metadata.rs:43-49 ImageMetadata *)
Record ImageMetadata : Type := mkImageMetadata {
  im_source : str;
  im_common : RawCommon;
  im_entrypoint : option str;
  im_override_command : option bool;
  im_shutdown_action : option ShutdownAction;
}.

(** @src cdenv-devcontainer/src/metadata.rs:179-192 EffectiveLifecycle *)
Record EffectiveLifecycle : Type := mkEffectiveLifecycle {
  el_initialize : list RawCommand;
  el_on_create : list RawCommand;
  el_update_content : list RawCommand;
  el_post_create : list RawCommand;
  el_post_start : list RawCommand;
  el_post_attach : list RawCommand;
}.

(** @src cdenv-devcontainer/src/metadata.rs:196-239 EffectiveMetadata *)
Record EffectiveMetadata : Type := mkEffective {
  e_init : option bool;
  e_privileged : option bool;
  e_cap_add : list str;
  e_security_opt : list str;
  e_entrypoints : list str;
  e_mounts : list RawMount;
  e_lifecycle : EffectiveLifecycle;
  e_container_user : option str;
  e_remote_user : option str;
  e_user_env_probe : option UserEnvProbe;
  e_update_remote_user_uid : option bool;
  e_override_command : option bool;
  e_wait_for : option WaitFor;
  e_shutdown_action : option ShutdownAction;
  e_container_env : strmap (list N);
  e_remote_env : strmap (option (list N));
  e_ports_attributes : strmap PortAttributes;
  e_other_ports_attributes : option PortAttributes;
  e_forward_ports : list ForwardPort;
  e_host_requirements : option HostRequirements;
  e_customizations : list (strmap Json);
}.

(** The locals of [merge_image_metadata] that [merge_common] borrows.
    @src cdenv-devcontainer/src/metadata.rs:273-293 merge_image_metadata *)
Record MergeState : Type := mkMerge {
  m_init : option bool;
  m_privileged : option bool;
  m_cap_add : list str;
  m_security_opt : list str;
  m_mounts : list (str * RawMount);
  m_lifecycle : EffectiveLifecycle;
  m_container_user : option str;
  m_remote_user : option str;
  m_user_env_probe : option UserEnvProbe;
  m_update_remote_user_uid : option bool;
  m_wait_for : option WaitFor;
  m_container_env : strmap (list N);
  m_remote_env : strmap (option (list N));
  m_ports_attributes : strmap PortAttributes;
  m_other_ports_attributes : option PortAttributes;
  m_forward_ports : list (str * ForwardPort);
  m_host_requirements : option HostRequirements;
  m_customizations : list (strmap Json);
}.

Definition merge_start : MergeState :=
  mkMerge None None [] [] [] (mkEffectiveLifecycle [] [] [] [] [] []) None None None None None
    ∅ ∅ ∅ None [] None [].

(** ** Helpers *)

(** [Some(current.unwrap_or(false) || value)].
    @src cdenv-devcontainer/src/metadata.rs:409-414 merge_common *)
Definition or_merge (current value : option bool) : option bool :=
  match value with Some v => Some (default false current || v) | None => current end.

(** [seen.insert] is true for values not seen before.
    @src cdenv-devcontainer/src/metadata.rs:483-491 stable_extend *)
Fixpoint stable_filter (seen : gset (list N)) (values : list str) : list str :=
  match values with
  | [] => []
  | v :: vs => if bool_decide (v ∈ seen) then stable_filter seen vs
               else v :: stable_filter ({[v]} ∪ seen) vs
  end.

(** @src cdenv-devcontainer/src/metadata.rs:483-491 stable_extend *)
Definition stable_extend (output values : list str) : list str :=
  output ++ stable_filter (list_to_set output) values.

(** [if value.is_some() { *output = value }].
    @src cdenv-devcontainer/src/metadata.rs:493-497 replace_if_some *)
Definition replace_if_some {A} (output value : option A) : option A :=
  match value with Some v => Some v | None => output end.

(** [if let Some(command) = value { output.push(command) }] *)
Definition push_some {A} (output : list A) (value : option A) : list A :=
  match value with Some v => output ++ [v] | None => output end.

(** @src cdenv-devcontainer/src/metadata.rs:499-518 append_lifecycle *)
Definition append_lifecycle (output : EffectiveLifecycle) (value : LifecycleCommands) :
    EffectiveLifecycle :=
  mkEffectiveLifecycle
    (push_some (el_initialize output) (lc_initialize value))
    (push_some (el_on_create output) (lc_on_create value))
    (push_some (el_update_content output) (lc_update_content value))
    (push_some (el_post_create output) (lc_post_create value))
    (push_some (el_post_start output) (lc_post_start value))
    (push_some (el_post_attach output) (lc_post_attach value)).

(** The closure of [find_map] over the comma-separated fields.
    @src cdenv-devcontainer/src/metadata.rs:523-526 mount_target *)
Definition target_field (field : str) : option str :=
  match split_once ($"=") field with
  | None => None
  | Some (key, target) =>
      let key := trim key in
      if str_eqb key ($"target") || str_eqb key ($"dst") || str_eqb key ($"destination")
      then Some (trim target) else None
  end.

(** [iter.find_map(f)] *)
Fixpoint find_map {A B} (f : A -> option B) (l : list A) : option B :=
  match l with [] => None | a :: l' => match f a with Some b => Some b | None => find_map f l' end end.

(** @src cdenv-devcontainer/src/metadata.rs:520-528 mount_target *)
Definition mount_target (mount : RawMount) : option str :=
  match mount with
  | RawMount_Object _ _ target => Some target
  | RawMount_String value => find_map target_field (split 44 value)
  end.

(** @src cdenv-devcontainer/src/metadata.rs:530-534 forward_port_key *)
Definition forward_port_key (port : ForwardPort) : str :=
  match port with
  | ForwardPort_Container port | ForwardPort_Service _ port => to_string port
  end.

(** Replaces the entry of [key] in place, or pushes a new one.
    @src cdenv-devcontainer/src/metadata.rs:422-426 merge_common *)
Fixpoint upsert {V} (key : str) (value : V) (l : list (str * V)) : list (str * V) :=
  match l with
  | [] => [(key, value)]
  | (k, v) :: l' => if str_eqb k key then (k, value) :: l' else (k, v) :: upsert key value l'
  end.

(** The loop over the mounts. @src cdenv-devcontainer/src/metadata.rs:417-427 merge_common *)
Definition merge_mounts (source : str) (current : list (str * RawMount)) (new : list RawMount) :
    result MetadataError (list (str * RawMount)) :=
  try_fold (fun mounts mount =>
    let? target := ok_or (Metadata_InvalidMount source ($"$.mounts")) (mount_target mount) in
    Ok (upsert target mount mounts)) current new.

(** The loop over the forwarded ports.
    @src cdenv-devcontainer/src/metadata.rs:461-471 merge_common *)
Definition merge_forward_ports (current : list (str * ForwardPort)) (new : list ForwardPort) :
    list (str * ForwardPort) :=
  fold_left (fun ports port => upsert (forward_port_key port) port ports) new current.

(** ** Requirements *)

(** @src cdenv-devcontainer/src/metadata.rs:628-640 size_bytes *)
Definition size_bytes (value : str) : option N :=
  match parse_uint MAX_U64 (take_while is_ascii_digit value) with
  | None => None
  | Some number =>
      match unit_multiplier (drop_while is_ascii_digit value) with
      | None => None
      | Some multiplier => checked_mul MAX_U64 number multiplier
      end
  end.

(** [Ord::max] on [Option<u64>]: [None] is the least. *)
Definition option_max (a b : option N) : option N :=
  match a, b with
  | Some x, Some y => Some (N.max x y)
  | Some x, None => Some x
  | None, b => b
  end.

(** @src cdenv-devcontainer/src/metadata.rs:598-626 max_size *)
Definition max_size (current next : option str) (source property : str) :
    result MetadataError (option str) :=
  match next with
  | None => Ok current
  | Some next =>
      let? next_bytes := ok_or (Metadata_InvalidRequirement source property) (size_bytes next) in
      match current with
      | None => Ok (Some next)
      | Some current =>
          let? current_bytes :=
            ok_or (Metadata_InvalidRequirement ($"earlier metadata") property) (size_bytes current) in
          Ok (Some (if current_bytes <=? next_bytes then next else current))
      end
  end.

(** @src cdenv-devcontainer/src/metadata.rs:672-677 merge_gpu *)
Definition gpu_rank (r : GpuRequirement) : N :=
  match r with
  | Gpu_NotRequired => 0 | Gpu_Optional => 1 | Gpu_Required => 2 | Gpu_Detailed _ _ => 3
  end.

(** @src cdenv-devcontainer/src/metadata.rs:642-688 merge_gpu *)
Definition merge_gpu (current next : option GpuRequirement) (source : str) :
    result MetadataError (option GpuRequirement) :=
  match current, next with
  | Some current, Some next =>
      match current, next with
      | Gpu_Detailed a_cores a_memory, Gpu_Detailed b_cores b_memory =>
          let? memory := max_size a_memory b_memory source ($"$.hostRequirements.gpu.memory") in
          Ok (Some (Gpu_Detailed (option_max a_cores b_cores) memory))
      | Gpu_Detailed _ _, _ => Ok (Some current)
      | _, Gpu_Detailed _ _ => Ok (Some next)
      | _, _ => Ok (Some (if gpu_rank current <=? gpu_rank next then next else current))
      end
  | Some current, None => Ok (Some current)
  | None, next => Ok next
  end.

Definition bad_size (value : option str) : bool :=
  match value with Some v => negb (is_Some_b (size_bytes v)) | None => false end.

(** @src cdenv-devcontainer/src/metadata.rs:566-596 validate_requirement_sizes *)
Definition validate_requirement_sizes (r : HostRequirements) (source : str) :
    result MetadataError unit :=
  fail_if bad_size (memory r)
    with Metadata_InvalidRequirement source ($"$.hostRequirements.memory") in
  fail_if bad_size (storage r)
    with Metadata_InvalidRequirement source ($"$.hostRequirements.storage") in
  match gpu r with
  | Some (Gpu_Detailed _ (Some value)) =>
      fail_if negb (is_Some_b (size_bytes value))
        with Metadata_InvalidRequirement source ($"$.hostRequirements.gpu.memory") in
      Ok tt
  | _ => Ok tt
  end.

(** @src cdenv-devcontainer/src/metadata.rs:536-564 merge_requirements *)
Definition merge_requirements (current next : option HostRequirements) (source : str) :
    result MetadataError (option HostRequirements) :=
  match current, next with
  | Some current, Some next =>
      let? mem := max_size (memory current) (memory next) source ($"$.hostRequirements.memory") in
      let? sto := max_size (storage current) (storage next) source
                    ($"$.hostRequirements.storage") in
      let? g := merge_gpu (gpu current) (gpu next) source in
      Ok (Some (mkHostRequirements (option_max (cpus current) (cpus next)) mem sto g))
  | _, _ =>
      let value := match current with Some _ => current | None => next end in
      let? _ := match value with
                | Some requirements => validate_requirement_sizes requirements source
                | None => Ok tt
                end in
      Ok value
  end.

(** ** Merging *)

(** [map.extend(other)]: the entries of [other] win. *)
Definition extend {A} (m other : strmap A) : strmap A := other ∪ m.

(** @src cdenv-devcontainer/src/metadata.rs:387-481 merge_common *)
Definition merge_common (source : str) (c : RawCommon) (s : MergeState) :
    result MetadataError MergeState :=
  let? mounts' := merge_mounts source (m_mounts s) (mounts c) in
  let? requirements :=
    merge_requirements (m_host_requirements s) (host_requirements c) source in
  Ok (mkMerge
    (or_merge (m_init s) (init c))
    (or_merge (m_privileged s) (privileged c))
    (stable_extend (m_cap_add s) (cap_add c))
    (stable_extend (m_security_opt s) (security_opt c))
    mounts'
    (append_lifecycle (m_lifecycle s) (lifecycle c))
    (replace_if_some (m_container_user s) (container_user c))
    (replace_if_some (m_remote_user s) (remote_user c))
    (replace_if_some (m_user_env_probe s) (user_env_probe c))
    (replace_if_some (m_update_remote_user_uid s) (update_remote_user_uid c))
    (replace_if_some (m_wait_for s) (wait_for c))
    (extend (m_container_env s) (container_env c))
    (extend (m_remote_env s) (remote_env c))
    (extend (m_ports_attributes s) (ports_attributes c))
    (replace_if_some (m_other_ports_attributes s) (other_ports_attributes c))
    (merge_forward_ports (m_forward_ports s) (forward_ports c))
    requirements
    (if bool_decide (customizations c = ∅) then m_customizations s
     else m_customizations s ++ [customizations c])).

(** @src cdenv-devcontainer/src/metadata.rs:690-702 scenario_scalars *)
Definition scenario_scalars (s : RawScenario) : option bool * option ShutdownAction :=
  match s with
  | Scenario_Image v => (override_command (image_options v), shutdown_action (image_options v))
  | Scenario_Dockerfile v =>
      (override_command (dockerfile_options v), shutdown_action (dockerfile_options v))
  | Scenario_Compose v => (compose_override_command v, compose_shutdown_action v)
  end.

(** The body of the loop over the image metadata; the locals are the merge state, the
    entrypoints, the command override and the shutdown action.
    @src cdenv-devcontainer/src/metadata.rs:295-327 merge_image_metadata *)
Definition merge_contribution
    (locals : MergeState * list str * option bool * option ShutdownAction) (im : ImageMetadata) :
    result MetadataError (MergeState * list str * option bool * option ShutdownAction) :=
  let '(s, entrypoints, override_command, shutdown_action) := locals in
  let? s := merge_common (im_source im) (im_common im) s in
  Ok (s, push_some entrypoints (im_entrypoint im),
      replace_if_some override_command (im_override_command im),
      replace_if_some shutdown_action (im_shutdown_action im)).

(** @src cdenv-devcontainer/src/metadata.rs:269-381 merge_image_metadata *)
Definition merge_image_metadata (metadata : list ImageMetadata) (repository : RawProfile) :
    result MetadataError EffectiveMetadata :=
  let? (s, entrypoints, override_command, shutdown_action) :=
    try_fold merge_contribution (merge_start, [], None, None) metadata in
  let? s := merge_common ($"repository") (common repository) s in
  let '(repository_override, repository_shutdown) := scenario_scalars (scenario repository) in
  Ok (mkEffective (m_init s) (m_privileged s) (m_cap_add s) (m_security_opt s) entrypoints
    (m_mounts s).*2 (m_lifecycle s) (m_container_user s) (m_remote_user s) (m_user_env_probe s)
    (m_update_remote_user_uid s) (replace_if_some override_command repository_override)
    (m_wait_for s) (replace_if_some shutdown_action repository_shutdown) (m_container_env s)
    (m_remote_env s) (m_ports_attributes s) (m_other_ports_attributes s)
    (m_forward_ports s).*2 (m_host_requirements s) (m_customizations s)).

(** ** The declarative merge *)

(** First occurrences, in order. *)
Definition stable_dedup (l : list str) : list str := rev (remove_dups (rev l)).
(** The last value that is present, and the disjunction of the present ones. *)
Definition last_defined {A} (l : list (option A)) : option A := last (omap id l).
Definition any_true (l : list (option bool)) : option bool :=
  match omap id l with [] => None | bs => Some (existsb id bs) end.
(** The last element of [l] with a given key. *)
Definition last_with {V} (key : V -> str) (k : str) (l : list V) : option V :=
  last (filter (fun v => key v = k) l).
(** [l'] holds one element per key of [l], in order of first occurrence, the last one of
    that key. *)
Definition keyed_merge {V} (key : V -> str) (l l' : list V) : Prop :=
  List.map key l' = stable_dedup (List.map key l) /\
  Forall (fun v => last_with key (key v) l = Some v) l'.
Definition mount_key (m : RawMount) : str := default [] (mount_target m).

Lemma stable_dedup_snoc l x :
  stable_dedup (l ++ [x]) = if decide (x ∈ l) then stable_dedup l else stable_dedup l ++ [x].
Proof.
  unfold stable_dedup. rewrite rev_app_distr. simpl. unfold remove_dups at 1. fold (remove_dups (rev l)).
  assert (Hin : x ∈ rev l <-> x ∈ l) by (rewrite !list_elem_of_In; symmetry; apply in_rev).
  destruct (decide_rel _ x (rev l)) as [H|H], (decide (x ∈ l)) as [H'|H']; try tauto.
Qed.

Lemma elem_of_stable_dedup x l : x ∈ stable_dedup l <-> x ∈ l.
Proof.
  unfold stable_dedup. rewrite list_elem_of_In, <- in_rev, <- list_elem_of_In, elem_of_remove_dups.
  rewrite !list_elem_of_In. symmetry. apply in_rev.
Qed.

Lemma stable_filter_dedup seen pre values :
  (forall x, x ∈ seen <-> x ∈ pre) ->
  stable_dedup pre ++ stable_filter seen values = stable_dedup (pre ++ values).
Proof.
  revert seen pre. induction values as [|v vs IH]; intros seen pre Hs; simpl; [by rewrite !app_nil_r|].
  assert (Hsnoc := stable_dedup_snoc pre v). rewrite cons_middle, app_assoc.
  case_bool_decide as Hv; rewrite Hs in Hv.
  - rewrite <- (IH seen); [|set_solver]. rewrite Hsnoc, decide_True by done. done.
  - rewrite <- (IH ({[v]} ∪ seen)); [|set_solver]. rewrite Hsnoc, decide_False by done.
    by rewrite <- app_assoc.
Qed.

Lemma stable_extend_dedup pre values :
  stable_extend (stable_dedup pre) values = stable_dedup (pre ++ values).
Proof.
  unfold stable_extend. apply stable_filter_dedup. intros x.
  by rewrite elem_of_list_to_set, elem_of_stable_dedup.
Qed.

Lemma fold_stable_extend {A} (f : A -> list str) cs pre :
  fold_left (fun acc c => stable_extend acc (f c)) cs (stable_dedup pre) =
  stable_dedup (pre ++ concat (List.map f cs)).
Proof.
  revert pre. induction cs as [|c cs IH]; intros pre; simpl; [by rewrite app_nil_r|].
  by rewrite stable_extend_dedup, IH, <- app_assoc.
Qed.

Lemma fold_replace {A B} (f : A -> option B) cs o :
  fold_left (fun acc c => replace_if_some acc (f c)) cs o =
  match last_defined (List.map f cs) with Some v => Some v | None => o end.
Proof.
  unfold last_defined. revert o. induction cs as [|c cs IH] using rev_ind; intros o; simpl; [done|].
  rewrite fold_left_app, List.map_app, omap_app. simpl. rewrite IH.
  destruct (f c) as [v|]; simpl; [by rewrite last_snoc|by rewrite app_nil_r].
Qed.

Lemma fold_or {A} (f : A -> option bool) cs :
  fold_left (fun acc c => or_merge acc (f c)) cs None = any_true (List.map f cs).
Proof.
  unfold any_true. induction cs as [|c cs IH] using rev_ind; simpl; [done|].
  rewrite fold_left_app, List.map_app, omap_app. simpl. rewrite IH. clear IH.
  destruct (f c) as [v|]; simpl; [|by rewrite app_nil_r].
  destruct (omap id (List.map f cs)) as [|b bs]; simpl; [by rewrite orb_false_r|].
  by rewrite existsb_app; simpl; rewrite orb_false_r, orb_assoc.
Qed.

Lemma fold_push {A B} (f : A -> option B) cs l :
  fold_left (fun acc c => push_some acc (f c)) cs l = l ++ omap f cs.
Proof.
  revert l. induction cs as [|c cs IH]; intros l; simpl; [by rewrite app_nil_r|].
  rewrite IH. destruct (f c); simpl; [by rewrite <- app_assoc|done].
Qed.

Lemma fold_extend {A B} (f : A -> strmap B) cs m k :
  fold_left (fun acc c => extend acc (f c)) cs m !! k =
  match last_defined (List.map (fun c => f c !! k) cs) with Some v => Some v | None => m !! k end.
Proof.
  rewrite <- (fold_replace (fun c => f c !! k)). revert m.
  induction cs as [|c cs IH]; intros m; simpl; [done|]. rewrite IH. f_equal. unfold extend.
  rewrite lookup_union. by destruct (f c !! k), (m !! k).
Qed.

Lemma NoDup_stable_dedup l : NoDup (stable_dedup l).
Proof. unfold stable_dedup. apply NoDup_ListNoDup, List.NoDup_rev, NoDup_ListNoDup, NoDup_remove_dups. Qed.

Lemma upsert_keys {V} k (v : V) l :
  (upsert k v l).*1 = if decide (k ∈ l.*1) then l.*1 else l.*1 ++ [k].
Proof.
  induction l as [|[k' v'] l IH]; [done|]. cbn [upsert fmap list_fmap fst].
  destruct (str_eqb k' k) eqn:E.
  - apply str_eqb_true in E as ->. by rewrite decide_True by set_solver.
  - cbn [fmap list_fmap fst]. fold (l.*1). rewrite IH.
    assert (k' <> k) by (intros ->; by rewrite str_eqb_refl in E).
    destruct (decide (k ∈ l.*1)), (decide (k ∈ k' :: l.*1)); set_solver.
Qed.

Lemma upsert_elem {V} k (v : V) l k' v' :
  NoDup l.*1 -> (k', v') ∈ upsert k v l -> (k' = k /\ v' = v) \/ (k' <> k /\ (k', v') ∈ l).
Proof.
  induction l as [|[k0 v0] l IH]; intros Hnd Hin; cbn [upsert] in Hin; [set_solver|].
  apply NoDup_cons in Hnd as [Hk0 Hnd]. cbn [fst] in Hk0. fold (l.*1) in Hk0, Hnd.
  destruct (str_eqb k0 k) eqn:E.
  - apply str_eqb_true in E as ->. apply elem_of_cons in Hin as [[= -> ->]|Hin]; [auto|].
    right. split; [|set_solver]. intros ->. apply Hk0. by apply (list_elem_of_fmap_2 fst) in Hin.
  - assert (k0 <> k) by (intros ->; by rewrite str_eqb_refl in E).
    apply elem_of_cons in Hin as [[= -> ->]|Hin]; [set_solver|].
    destruct (IH Hnd Hin) as [?|[? ?]]; [auto|set_solver].
Qed.

Lemma last_with_snoc {V} (key : V -> str) k l v :
  last_with key k (l ++ [v]) = if decide (key v = k) then Some v else last_with key k l.
Proof.
  unfold last_with. rewrite filter_app, filter_cons, filter_nil. destruct (decide (key v = k)); simpl.
  - by rewrite last_snoc.
  - by rewrite app_nil_r.
Qed.

(** Upserting a list of values by key is the keyed merge. *)
Lemma upsert_fold {V} (key : V -> str) vs :
  let acc := fold_left (fun acc v => upsert (key v) v acc) vs [] in
  acc.*1 = stable_dedup (List.map key vs) /\
  Forall (fun '(k, v) => k = key v /\ last_with key k vs = Some v) acc.
Proof.
  induction vs as [|v vs IH] using rev_ind; [done|]. cbv zeta in *.
  rewrite fold_left_app, List.map_app. cbn [fold_left List.map]. destruct IH as [Hk Hl].
  set (acc := fold_left _ vs []) in *. split.
  - rewrite upsert_keys, stable_dedup_snoc, Hk.
    destruct (decide (key v ∈ stable_dedup _)) as [H|H], (decide (key v ∈ List.map key vs)) as [H'|H'];
      rewrite elem_of_stable_dedup in H; tauto.
  - apply Forall_forall. intros [k' v'] Hin. apply upsert_elem in Hin; [|rewrite Hk; apply NoDup_stable_dedup].
    rewrite last_with_snoc. destruct Hin as [[-> ->]|[Hne Hin]]; [by rewrite decide_True|].
    rewrite Forall_forall in Hl. apply (Hl (k', v')) in Hin as [-> Hlast].
    by rewrite decide_False by congruence.
Qed.

Lemma upsert_fold_merge {V} (key : V -> str) vs :
  keyed_merge key vs (fold_left (fun acc v => upsert (key v) v acc) vs []).*2.
Proof.
  destruct (upsert_fold key vs) as [Hk Hl]. set (acc := fold_left _ vs []) in *.
  assert (Heq : List.map key acc.*2 = acc.*1).
  { clearbody acc. clear Hk. induction acc as [|[k v] acc IH]; [done|].
    apply Forall_cons in Hl as [[-> _] Hl]. cbn. f_equal. by apply IH. }
  split; [by rewrite Heq|]. apply Forall_forall. intros v Hv.
  apply list_elem_of_fmap in Hv as ([k v'] & -> & Hin). rewrite Forall_forall in Hl.
  apply (Hl (k, v')) in Hin as [Hkey Hlast]. cbn [snd]. by rewrite <- Hkey.
Qed.

(** ** The loop as a fold over the contributions *)

Definition merge_step (s : MergeState) (c : str * RawCommon) : result MetadataError MergeState :=
  merge_common (fst c) (snd c) s.

(** The contributions in merge order, the repository last. *)
Definition contributions (metadata : list ImageMetadata) (repository : RawProfile) :
    list (str * RawCommon) :=
  List.map (fun im => (im_source im, im_common im)) metadata
  ++ [($"repository", common repository)].

Lemma merge_contributions metadata locals s ep ov sh :
  try_fold merge_contribution locals metadata = Ok (s, ep, ov, sh) ->
  let '(s0, ep0, ov0, sh0) := locals in
  try_fold merge_step s0 (List.map (fun im => (im_source im, im_common im)) metadata) = Ok s /\
  ep = ep0 ++ omap im_entrypoint metadata /\
  ov = fold_left (fun o im => replace_if_some o (im_override_command im)) metadata ov0 /\
  sh = fold_left (fun o im => replace_if_some o (im_shutdown_action im)) metadata sh0.
Proof.
  revert locals. induction metadata as [|im metadata IH]; intros [[[s0 ep0] ov0] sh0] H.
  - simpl in H. injection H as -> -> -> ->. simpl. by rewrite app_nil_r.
  - cbn [try_fold merge_contribution] in H.
    destruct (merge_common (im_source im) (im_common im) s0) as [s1|] eqn:E; [|done].
    apply IH in H as (H1 & -> & -> & ->). cbn [List.map try_fold merge_step fst snd fold_left].
    unfold merge_step at 1. cbn [fst snd]. rewrite E. split_and!; auto.
    cbn. destruct (im_entrypoint im); simpl; [by rewrite <- app_assoc|done].
Qed.

(** A field that one contribution updates is the fold of that update. *)
Lemma merge_field {A} (p : MergeState -> A) (g : A -> RawCommon -> A) :
  (forall src c s s', merge_common src c s = Ok s' -> p s' = g (p s) c) ->
  forall cs s s', try_fold merge_step s cs = Ok s' -> p s' = fold_left g cs.*2 (p s).
Proof.
  intros Hg cs. induction cs as [|[src c] cs IH]; intros s s' H; simpl in H; [by injection H as ->|].
  unfold merge_step at 1 in H. cbn [fst snd] in H.
  destruct (merge_common src c s) as [s1|] eqn:E; [|done]. cbn. rewrite <- (Hg _ _ _ _ E). by apply IH.
Qed.

Lemma merge_common_Ok src c s s' :
  merge_common src c s = Ok s' ->
  exists ms hr, merge_mounts src (m_mounts s) (mounts c) = Ok ms /\
    merge_requirements (m_host_requirements s) (host_requirements c) src = Ok hr /\
    s' = mkMerge (or_merge (m_init s) (init c)) (or_merge (m_privileged s) (privileged c))
      (stable_extend (m_cap_add s) (cap_add c)) (stable_extend (m_security_opt s) (security_opt c))
      ms (append_lifecycle (m_lifecycle s) (lifecycle c))
      (replace_if_some (m_container_user s) (container_user c))
      (replace_if_some (m_remote_user s) (remote_user c))
      (replace_if_some (m_user_env_probe s) (user_env_probe c))
      (replace_if_some (m_update_remote_user_uid s) (update_remote_user_uid c))
      (replace_if_some (m_wait_for s) (wait_for c)) (extend (m_container_env s) (container_env c))
      (extend (m_remote_env s) (remote_env c)) (extend (m_ports_attributes s) (ports_attributes c))
      (replace_if_some (m_other_ports_attributes s) (other_ports_attributes c))
      (merge_forward_ports (m_forward_ports s) (forward_ports c)) hr
      (if bool_decide (customizations c = ∅) then m_customizations s
       else m_customizations s ++ [customizations c]).
Proof.
  unfold merge_common. intros H. destruct (merge_mounts _ _ _) as [ms|]; [|done].
  destruct (merge_requirements _ _ _) as [hr|]; [|done]. injection H as <-. eauto 10.
Qed.

Lemma merge_mounts_Ok src cur new ms :
  merge_mounts src cur new = Ok ms ->
  Forall (fun m => is_Some (mount_target m)) new /\
  ms = fold_left (fun acc m => upsert (mount_key m) m acc) new cur.
Proof.
  unfold merge_mounts. revert cur. induction new as [|m new IH]; intros cur H; cbn [try_fold] in H.
  - injection H as ->. done.
  - destruct (mount_target m) as [t|] eqn:E; cbn [ok_or] in H; [|done].
    apply IH in H as [Hall ->]. cbn [fold_left].
    assert (mount_key m = t) as -> by (unfold mount_key; by rewrite E). split; [|done].
    constructor; [by eexists|done].
Qed.

Lemma fold_concat {A B C} (f : A -> list B) (g : C -> B -> C) cs acc :
  fold_left (fun acc c => fold_left g (f c) acc) cs acc = fold_left g (concat (List.map f cs)) acc.
Proof.
  revert acc. induction cs as [|c cs IH]; intros acc; simpl; [done|]. by rewrite fold_left_app, IH.
Qed.

Lemma merge_mounts_targets cs s s' :
  try_fold merge_step s cs = Ok s' ->
  Forall (fun m => is_Some (mount_target m)) (concat (List.map mounts cs.*2)).
Proof.
  revert s. induction cs as [|[src c] cs IH]; intros s H; simpl in H; [done|].
  unfold merge_step at 1 in H. cbn [fst snd] in H.
  destruct (merge_common src c s) as [s1|] eqn:E; [|done].
  apply merge_common_Ok in E as (ms & hr & Hm & _ & _). apply merge_mounts_Ok in Hm as [Hm _].
  cbn. apply Forall_app. split; [done|]. by eapply IH.
Qed.

(** Every field of the final state, by its own fold. *)
Ltac by_field :=
  intros ? ? ? ? E; apply merge_common_Ok in E as (ms & hr & Em & _ & ->);
  try (apply merge_mounts_Ok in Em as [_ ->]); reflexivity.

Section final_state.
Context (cs : list (str * RawCommon)) (s : MergeState).
Hypothesis (H : try_fold merge_step merge_start cs = Ok s).

Lemma final_or (p : MergeState -> option bool) (f : RawCommon -> option bool) :
  (forall src c s s', merge_common src c s = Ok s' -> p s' = or_merge (p s) (f c)) ->
  p merge_start = None -> p s = any_true (List.map f cs.*2).
Proof. intros Hp H0. rewrite (merge_field p (fun a c => or_merge a (f c)) Hp _ _ _ H), H0. apply (fold_or f). Qed.

Lemma final_replace {A} (p : MergeState -> option A) (f : RawCommon -> option A) :
  (forall src c s s', merge_common src c s = Ok s' -> p s' = replace_if_some (p s) (f c)) ->
  p merge_start = None -> p s = last_defined (List.map f cs.*2).
Proof.
  intros Hp H0. rewrite (merge_field p (fun a c => replace_if_some a (f c)) Hp _ _ _ H), H0, (fold_replace f).
  by destruct (last_defined _).
Qed.

Lemma final_union (p : MergeState -> list str) (f : RawCommon -> list str) :
  (forall src c s s', merge_common src c s = Ok s' -> p s' = stable_extend (p s) (f c)) ->
  p merge_start = [] -> p s = stable_dedup (concat (List.map f cs.*2)).
Proof. intros Hp H0. rewrite (merge_field p (fun a c => stable_extend a (f c)) Hp _ _ _ H), H0. apply (fold_stable_extend f _ []). Qed.

Lemma final_push {A} (p : MergeState -> list A) (f : RawCommon -> option A) :
  (forall src c s s', merge_common src c s = Ok s' -> p s' = push_some (p s) (f c)) ->
  p merge_start = [] -> p s = omap f cs.*2.
Proof. intros Hp H0. rewrite (merge_field p (fun a c => push_some a (f c)) Hp _ _ _ H), H0. apply (fold_push f). Qed.

Lemma final_extend {A} (p : MergeState -> strmap A) (f : RawCommon -> strmap A) k :
  (forall src c s s', merge_common src c s = Ok s' -> p s' = extend (p s) (f c)) ->
  p merge_start = ∅ -> p s !! k = last_defined (List.map (fun c => f c !! k) cs.*2).
Proof.
  intros Hp H0. rewrite (merge_field p (fun a c => extend a (f c)) Hp _ _ _ H), H0, (fold_extend f), lookup_empty.
  by destruct (last_defined _).
Qed.

Lemma final_keyed {V} (p : MergeState -> list (str * V)) (key : V -> str) (f : RawCommon -> list V) :
  (forall src c s s', merge_common src c s = Ok s' ->
     p s' = fold_left (fun acc v => upsert (key v) v acc) (f c) (p s)) ->
  p merge_start = [] -> keyed_merge key (concat (List.map f cs.*2)) (p s).*2.
Proof.
  intros Hp H0. rewrite (merge_field p (fun a c => fold_left (fun acc v => upsert (key v) v acc) (f c) a) Hp _ _ _ H), H0.
  rewrite (fold_concat f (fun acc v => upsert (key v) v acc)). apply upsert_fold_merge.
Qed.
End final_state.

(** The customizations a contribution adds, if any. *)
Definition customized (c : RawCommon) : option (strmap Json) :=
  if bool_decide (customizations c = ∅) then None else Some (customizations c).

Lemma contributions_commons metadata repository :
  (contributions metadata repository).*2 = List.map im_common metadata ++ [common repository].
Proof.
  unfold contributions. rewrite fmap_app. f_equal.
  induction metadata as [|im metadata IH]; [done|]. cbn. f_equal. apply IH.
Qed.

Lemma merge_image_metadata_Ok metadata repository e :
  merge_image_metadata metadata repository = Ok e ->
  exists s, try_fold merge_step merge_start (contributions metadata repository) = Ok s /\
    let '(ov, sh) := scenario_scalars (scenario repository) in
    e = mkEffective (m_init s) (m_privileged s) (m_cap_add s) (m_security_opt s)
      (omap im_entrypoint metadata) (m_mounts s).*2 (m_lifecycle s) (m_container_user s)
      (m_remote_user s) (m_user_env_probe s) (m_update_remote_user_uid s)
      (last_defined (List.map im_override_command metadata ++ [ov])) (m_wait_for s)
      (last_defined (List.map im_shutdown_action metadata ++ [sh])) (m_container_env s)
      (m_remote_env s) (m_ports_attributes s) (m_other_ports_attributes s)
      (m_forward_ports s).*2 (m_host_requirements s) (m_customizations s).
Proof.
  unfold merge_image_metadata. intros H.
  destruct (try_fold merge_contribution _ metadata) as [[[[s0 ep] ov] sh]|] eqn:E; [|done].
  apply merge_contributions in E as (E & -> & -> & ->).
  destruct (merge_common _ _ s0) as [s|] eqn:Em; [|done]. exists s.
  destruct (scenario_scalars _) as [ov' sh']. injection H as <-. split.
  - unfold contributions. rewrite try_fold_app, E. cbn [try_fold]. unfold merge_step. cbn [fst snd].
    by rewrite Em.
  - f_equal.
    + rewrite (fold_replace im_override_command). unfold last_defined.
      rewrite omap_app. simpl. destruct ov' as [v|]; simpl; [by rewrite last_snoc|].
      rewrite app_nil_r. by destruct (last _).
    + rewrite (fold_replace im_shutdown_action). unfold last_defined.
      rewrite omap_app. simpl. destruct sh' as [v|]; simpl; [by rewrite last_snoc|].
      rewrite app_nil_r. by destruct (last _).
Qed.

Lemma merged_initialize metadata repository e :
  merge_image_metadata metadata repository = Ok e ->
  el_initialize (e_lifecycle e) =
    omap (fun c => lc_initialize (lifecycle c)) (List.map im_common metadata ++ [common repository]).
Proof.
  intros H. apply merge_image_metadata_Ok in H as (s & H & He).
  rewrite <- (contributions_commons metadata repository). destruct (scenario_scalars _) as [ov sh]. subst e. cbn.
  by apply (final_push _ _ H (fun s => el_initialize (m_lifecycle s))); [by_field|].
Qed.

(** C37: the merge is the declarative per-property merge.  When merging succeeds, every
    effective property but the host requirements is a function of the contributions in order
    (images first, the repository last): flags are or-ed; capability lists are the union in first-occurrence
    order; a scalar is the last one defined; commands, entrypoints and customizations
    accumulate in order; an environment or port-attribute key takes the last contribution
    that defines it; mounts and forwarded ports are merged by target and by port, in
    first-occurrence order, the last one winning; and every mount has a target. *)
Theorem merge_is_declarative metadata repository e :
  merge_image_metadata metadata repository = Ok e ->
  let cs := List.map im_common metadata ++ [common repository] in
  let '(ov, sh) := scenario_scalars (scenario repository) in
  e_init e = any_true (List.map init cs) /\ e_privileged e = any_true (List.map privileged cs) /\
  e_cap_add e = stable_dedup (concat (List.map cap_add cs)) /\
  e_security_opt e = stable_dedup (concat (List.map security_opt cs)) /\
  e_entrypoints e = omap im_entrypoint metadata /\
  e_container_user e = last_defined (List.map container_user cs) /\
  e_remote_user e = last_defined (List.map remote_user cs) /\
  e_user_env_probe e = last_defined (List.map user_env_probe cs) /\
  e_update_remote_user_uid e = last_defined (List.map update_remote_user_uid cs) /\
  e_wait_for e = last_defined (List.map wait_for cs) /\
  e_other_ports_attributes e = last_defined (List.map other_ports_attributes cs) /\
  e_override_command e = last_defined (List.map im_override_command metadata ++ [ov]) /\
  e_shutdown_action e = last_defined (List.map im_shutdown_action metadata ++ [sh]) /\
  el_initialize (e_lifecycle e) = omap (fun c => lc_initialize (lifecycle c)) cs /\
  el_on_create (e_lifecycle e) = omap (fun c => lc_on_create (lifecycle c)) cs /\
  el_update_content (e_lifecycle e) = omap (fun c => lc_update_content (lifecycle c)) cs /\
  el_post_create (e_lifecycle e) = omap (fun c => lc_post_create (lifecycle c)) cs /\
  el_post_start (e_lifecycle e) = omap (fun c => lc_post_start (lifecycle c)) cs /\
  el_post_attach (e_lifecycle e) = omap (fun c => lc_post_attach (lifecycle c)) cs /\
  e_customizations e = omap customized cs /\
  (forall k, e_container_env e !! k = last_defined (List.map (fun c => container_env c !! k) cs)) /\
  (forall k, e_remote_env e !! k = last_defined (List.map (fun c => remote_env c !! k) cs)) /\
  (forall k, e_ports_attributes e !! k =
     last_defined (List.map (fun c => ports_attributes c !! k) cs)) /\
  Forall (fun m => is_Some (mount_target m)) (concat (List.map mounts cs)) /\
  keyed_merge mount_key (concat (List.map mounts cs)) (e_mounts e) /\
  keyed_merge forward_port_key (concat (List.map forward_ports cs)) (e_forward_ports e).
Proof.
  intros H. apply merge_image_metadata_Ok in H as (s & H & He).
  assert (Hcs := contributions_commons metadata repository).
  destruct (scenario_scalars _) as [ov sh]. subst e. cbv zeta.
  cbn [e_init e_privileged e_cap_add e_security_opt e_entrypoints e_container_user e_remote_user
    e_user_env_probe e_update_remote_user_uid e_wait_for e_other_ports_attributes e_override_command
    e_shutdown_action e_lifecycle e_customizations e_container_env e_remote_env e_ports_attributes e_mounts
    e_forward_ports]. rewrite <- Hcs. clear Hcs.
  split_and!; try done.
  1, 2: by apply (final_or _ _ H); [by_field|].
  1, 2: by apply (final_union _ _ H); [by_field|].
  1-6: by apply (final_replace _ _ H); [by_field|].
  1: by apply (final_push _ _ H (fun s => el_initialize (m_lifecycle s))); [by_field|].
  1: by apply (final_push _ _ H (fun s => el_on_create (m_lifecycle s))); [by_field|].
  1: by apply (final_push _ _ H (fun s => el_update_content (m_lifecycle s))); [by_field|].
  1: by apply (final_push _ _ H (fun s => el_post_create (m_lifecycle s))); [by_field|].
  1: by apply (final_push _ _ H (fun s => el_post_start (m_lifecycle s))); [by_field|].
  1: by apply (final_push _ _ H (fun s => el_post_attach (m_lifecycle s))); [by_field|].
  1: apply (final_push _ _ H m_customizations customized); [|done]; intros ? ? ? ? E;
    apply merge_common_Ok in E as (ms & hr & _ & _ & ->); unfold customized; cbn [m_customizations];
    by case_bool_decide.
  1-3: intros k; by apply (final_extend _ _ H); [by_field|].
  1: by eapply merge_mounts_targets.
  1: by apply (final_keyed _ _ H m_mounts mount_key mounts); [by_field|].
  by apply (final_keyed _ _ H m_forward_ports forward_port_key forward_ports); [by_field|].
Qed.

(** ** Samples *)

Definition no_lifecycle : LifecycleCommands := mkLifecycleCommands None None None None None None.

(** A contribution with the given capabilities, mounts and requirements. *)
Definition sample_common (caps : list str) (ms : list RawMount) (hr : option HostRequirements) :
    RawCommon :=
  mkRawCommon ∅ [] ∅ ∅ None None None None None None caps [] ms [] [] ∅ None no_lifecycle None hr ∅ ∅.
Definition sample_profile (caps : list str) (ms : list RawMount) (hr : option HostRequirements) :
    RawProfile :=
  mkRawProfile None None
    (Scenario_Image (mkImageScenario ($"x") (mkNonComposeOptions None None [] None None)))
    (sample_common caps ms hr).
Definition sample_image (caps : list str) (ms : list RawMount) (hr : option HostRequirements) :
    ImageMetadata := mkImageMetadata ($"image") (sample_common caps ms hr) None None None.

Definition sample_merge :=
  merge_image_metadata
    [sample_image [$"A"; $"B"] [RawMount_String ($"source=a,target=/x"); RawMount_String ($"dst=/y")] None]
    (sample_profile [$"C"; $"A"] [RawMount_Object Mount_Volume None ($"/x")] None).

Lemma merge_is_declarative_witness :
  exists e, sample_merge = Ok e /\ e_cap_add e = [$"A"; $"B"; $"C"] /\
    e_mounts e = [RawMount_Object Mount_Volume None ($"/x"); RawMount_String ($"dst=/y")].
Proof.
  assert (H : exists e, sample_merge = Ok e) by (vm_compute; eexists; reflexivity).
  destruct H as [e H]. exists e. split; [exact H|].
  assert (Hd := merge_is_declarative _ _ _ H). split.
  - destruct Hd as (_ & _ & -> & _). vm_compute. reflexivity.
  - revert H. vm_compute. by intros [= <-].
Defined.

(** ** Merged requirements *)

(** Both routines that read a byte quantity agree. *)
Lemma size_bytes_byte_quantity value : size_bytes value = byte_quantity value.
Proof. reflexivity. Qed.

(** Every host that meets [m] meets [r]. *)
Definition at_least (m r : HostRequirements) : Prop :=
  forall c, requirements_met m c -> requirements_met r c.

Lemma scalar_met_le m a b : a <= b -> scalar_met m b -> scalar_met m a.
Proof. intros Hab (x & -> & Hx). exists x. split; [done|lia]. Qed.

Lemma option_max_met m a b :
  for_some (scalar_met m) (option_max a b) -> for_some (scalar_met m) a /\ for_some (scalar_met m) b.
Proof.
  destruct a as [a|], b as [b|]; simpl; try tauto.
  intros H. split; (eapply scalar_met_le; [|exact H]; lia).
Qed.

Lemma max_size_met m a b src prop o :
  max_size a b src prop = Ok o -> for_some (size_met m) o ->
  for_some (size_met m) a /\ for_some (size_met m) b.
Proof.
  unfold max_size. intros H Hm. destruct b as [b|]; [|by injection H as ->].
  destruct (size_bytes b) as [nb|] eqn:Eb; cbn [ok_or] in H; [|done].
  destruct a as [a|]; [|by injection H as <-].
  destruct (size_bytes a) as [na|] eqn:Ea; cbn [ok_or] in H; [|done]. injection H as <-.
  rewrite size_bytes_byte_quantity in *. cbn [for_some] in *. unfold size_met in *.
  rewrite Ea, Eb. destruct (N.leb_spec na nb); [rewrite Eb in Hm|rewrite Ea in Hm];
    destruct Hm as (n & [= <-] & Hn); split; eexists; (split; [done|]);
    (eapply scalar_met_le; [|exact Hn]; lia).
Qed.

Lemma merge_gpu_met c a b src o :
  merge_gpu a b src = Ok o -> for_some (gpu_met c) o ->
  for_some (gpu_met c) a /\ for_some (gpu_met c) b.
Proof.
  intros H Hm. destruct a as [a|], b as [b|]; simpl in H; try (injection H as <-; simpl in *; tauto).
  destruct a as [| | |ac am], b as [| | |bc bm]; try (injection H as <-; simpl in *; tauto).
  destruct (max_size am bm _ _) as [mm|] eqn:E; [|done]. injection H as <-.
  cbn [for_some gpu_met] in *. destruct Hm as (Hs & Hc & Hmm).
  destruct (option_max_met _ _ _ Hc), (max_size_met _ _ _ _ _ _ E Hmm). tauto.
Qed.

Lemma merge_requirements_at_least cur next src hr r :
  merge_requirements cur next src = Ok hr -> cur = Some r \/ next = Some r ->
  exists m, hr = Some m /\ at_least m r.
Proof.
  intros H Hr. destruct cur as [a|], next as [b|]; cbn [merge_requirements] in H.
  - destruct (max_size (memory a) _ _ _) as [mm|] eqn:E1; [|done].
    destruct (max_size (storage a) _ _ _) as [ms|] eqn:E2; [|done].
    destruct (merge_gpu _ _ _) as [mg|] eqn:E3; [|done]. injection H as <-. eexists. split; [done|].
    intros c (H1 & H2 & H3 & H4). cbn [cpus memory storage gpu] in *.
    apply option_max_met in H1. apply (max_size_met _ _ _ _ _ _ E1) in H2.
    apply (max_size_met _ _ _ _ _ _ E2) in H3. apply (merge_gpu_met _ _ _ _ _ E3) in H4.
    destruct Hr as [[= ->]|[= ->]]; unfold requirements_met; tauto.
  - destruct (validate_requirement_sizes _ _); [|done]. injection H as <-.
    destruct Hr as [[= ->]|[=]]. exists r. by split; [|intros c].
  - destruct (validate_requirement_sizes _ _); [|done]. injection H as <-.
    destruct Hr as [[=]|[= ->]]. exists r. by split; [|intros c].
  - by destruct Hr.
Qed.

Lemma merge_steps_at_least cs s s' r :
  try_fold merge_step s cs = Ok s' ->
  m_host_requirements s = Some r \/ (exists c, c ∈ cs.*2 /\ host_requirements c = Some r) ->
  exists m, m_host_requirements s' = Some m /\ at_least m r.
Proof.
  revert s r. induction cs as [|[src c] cs IH]; intros s r H Hr; simpl in H.
  - injection H as ->. destruct Hr as [Hr|(c & Hc & _)]; [|by apply elem_of_nil in Hc].
    exists r. by split; [|intros ?].
  - unfold merge_step at 1 in H. cbn [fst snd] in H.
    destruct (merge_common src c s) as [s1|] eqn:E; [|done].
    apply merge_common_Ok in E as (ms & hr & _ & Eh & E). apply (f_equal m_host_requirements) in E.
    cbn [m_host_requirements] in E.
    assert (Hfirst : m_host_requirements s = Some r \/ host_requirements c = Some r ->
      exists m, m_host_requirements s' = Some m /\ at_least m r).
    { intros Hc. destruct (merge_requirements_at_least _ _ _ _ _ Eh Hc) as (m1 & -> & H1).
      destruct (IH s1 m1 H) as (m & Hm & H2); [by left|]. exists m. split; [done|].
      intros cap Hcap. by apply H1, H2. }
    destruct Hr as [Hr|(c' & Hin & Hr)]; [auto|]. cbn in Hin.
    apply elem_of_cons in Hin as [->|Hin]; [auto|]. apply (IH s1 r H). eauto.
Qed.

(** merged host requirements are the strongest.  Whatever a contribution requires, the
    merged requirements exist and every host that reliably meets them reliably meets that
    contribution's requirements too. *)
Theorem merged_requirements_strongest metadata repository e c r :
  merge_image_metadata metadata repository = Ok e ->
  c ∈ List.map im_common metadata ++ [common repository] -> host_requirements c = Some r ->
  exists m, e_host_requirements e = Some m /\
    forall cap, requirements_met m cap -> requirements_met r cap.
Proof.
  intros H Hc Hr. apply merge_image_metadata_Ok in H as (s & H & He).
  destruct (scenario_scalars _) as [ov sh]. subst e. cbn [e_host_requirements].
  apply (merge_steps_at_least _ _ _ r H). right. exists c.
  by rewrite contributions_commons.
Qed.

Definition sample_requirements (n : N) (s : str) : option HostRequirements :=
  Some (mkHostRequirements (Some n) (Some s) None None).

Lemma merged_requirements_strongest_witness :
  exists m, e_host_requirements <$> ok (merge_image_metadata
      [sample_image [] [] (sample_requirements 2 ($"4gb"))]
      (sample_profile [] [] (sample_requirements 1 ($"5000mb")))) = Some (Some m) /\
    forall cap, requirements_met m cap ->
      requirements_met (mkHostRequirements (Some 2) (Some ($"4gb")) None None) cap.
Proof.
  assert (H : exists e, merge_image_metadata [sample_image [] [] (sample_requirements 2 ($"4gb"))]
    (sample_profile [] [] (sample_requirements 1 ($"5000mb"))) = Ok e) by (vm_compute; eexists; reflexivity).
  destruct H as [e H].
  destruct (merged_requirements_strongest _ _ e (sample_common [] [] (sample_requirements 2 ($"4gb"))) _ H
    ltac:(left) eq_refl) as (m & Hm & Hcap).
  exists m. rewrite H. simpl. rewrite Hm. by split.
Defined.

(** A detailed GPU memory that denotes no machine integer is reported when it is the only
    contribution, and accepted when an earlier contribution has requirements without a
    GPU. *)
Lemma gpu_memory_validation_gap :
  let bad := Some (mkHostRequirements None None None
               (Some (Gpu_Detailed None (Some ($"99999999999999999999gb"))))) in
  merge_requirements None bad ($"repository") =
    Err (Metadata_InvalidRequirement ($"repository") ($"$.hostRequirements.gpu.memory")) /\
  is_ok (merge_requirements (sample_requirements 1 ($"1gb")) bad ($"repository")) = true.
Proof. vm_compute. split; reflexivity. Qed.
