(* ===== verification/Lifecycle.v ===== *)
(** * Lifecycle: lifecycle command planning and the one-time checkpoint
    ([cdenv-devcontainer/src/lifecycle.rs])

    A [BTreeMap] of parallel processes is the list of its entries in key order.  The
    [&mut self] transitions of the checkpoint return the new checkpoint beside their
    result. *)

From S2P Require Import Prelude Text Profile HostRequirements Metadata Substitution.

(** ** Stages *)

(** @src cdenv-devcontainer/src/lifecycle.rs:14-27 LifecycleStage *)
Inductive LifecycleStage : Type :=
| Initialize | OnCreate | UpdateContent | PostCreate | PostStart | PostAttach.

#[export] Instance LifecycleStage_eq_dec : EqDecision LifecycleStage.
Proof. solve_decision. Defined.

(** The derived [Ord]: declaration order. @src cdenv-devcontainer/src/lifecycle.rs:13-13 Ord *)
Definition stage_index (s : LifecycleStage) : N :=
  match s with
  | Initialize => 0 | OnCreate => 1 | UpdateContent => 2 | PostCreate => 3 | PostStart => 4
  | PostAttach => 5
  end.

(** @src cdenv-devcontainer/src/lifecycle.rs:32-37 LifecycleStage::is_one_time *)
Definition is_one_time (s : LifecycleStage) : bool :=
  match s with OnCreate | UpdateContent | PostCreate => true | _ => false end.

(** @src cdenv-devcontainer/src/lifecycle.rs:41-46 LifecycleStage::background_eligible *)
Definition background_eligible (s : LifecycleStage) : bool :=
  match s with OnCreate | UpdateContent | PostCreate | PostStart => true | _ => false end.

(** @src cdenv-devcontainer/src/lifecycle.rs:64-73 LifecycleTrigger *)
Inductive LifecycleTrigger : Type :=
| BeforeContainerMutation | NewGeneration | SuccessfulStart | NewTransport.

(** @src cdenv-devcontainer/src/lifecycle.rs:50-59 LifecycleStage::trigger *)
Definition trigger (s : LifecycleStage) : LifecycleTrigger :=
  match s with
  | Initialize => BeforeContainerMutation
  | OnCreate | UpdateContent | PostCreate => NewGeneration
  | PostStart => SuccessfulStart
  | PostAttach => NewTransport
  end.

(** ** Commands and plans *)

(** @src cdenv-devcontainer/src/lifecycle.rs:77-82 LifecycleProcess *)
Inductive LifecycleProcess : Type :=
| Process_Shell (command : DeferredString)
| Process_Exec (arguments : list DeferredString).

(** @src cdenv-devcontainer/src/lifecycle.rs:98-103 LifecycleCommand *)
Inductive LifecycleCommand : Type :=
| Lifecycle_Process (process : LifecycleProcess)
| Lifecycle_Parallel (processes : list (str * LifecycleProcess)).

(** @src cdenv-devcontainer/src/lifecycle.rs:108-110 stdin_is_closed *)
Definition stdin_is_closed (c : LifecycleCommand) : bool :=
  match c with Lifecycle_Parallel _ => true | Lifecycle_Process _ => false end.

(** @src cdenv-devcontainer/src/lifecycle.rs:302-309 process_requires_container_environment *)
Definition process_requires_container_environment (p : LifecycleProcess) : bool :=
  match p with
  | Process_Shell command => requires_container_environment command
  | Process_Exec arguments => existsb requires_container_environment arguments
  end.

(** @src cdenv-devcontainer/src/lifecycle.rs:114-121 requires_container_environment *)
Definition command_requires_container_environment (c : LifecycleCommand) : bool :=
  match c with
  | Lifecycle_Process process => process_requires_container_environment process
  | Lifecycle_Parallel processes =>
      existsb process_requires_container_environment processes.*2
  end.

(** @src cdenv-devcontainer/src/lifecycle.rs:138-143 LifecycleStagePlan *)
Record LifecycleStagePlan : Type := mkStagePlan {
  plan_stage : LifecycleStage;
  plan_commands : list LifecycleCommand;
}.

(** @src cdenv-devcontainer/src/lifecycle.rs:147-162 LifecyclePlan *)
Record LifecyclePlan : Type := mkPlan {
  p_initialize : LifecycleStagePlan;
  p_on_create : LifecycleStagePlan;
  p_update_content : LifecycleStagePlan;
  p_post_create : LifecycleStagePlan;
  p_post_start : LifecycleStagePlan;
  p_post_attach : LifecycleStagePlan;
  readiness : LifecycleStage;
}.

(** @src cdenv-devcontainer/src/lifecycle.rs:167-176 LifecyclePlan::stage *)
Definition stage (p : LifecyclePlan) (s : LifecycleStage) : LifecycleStagePlan :=
  match s with
  | Initialize => p_initialize p
  | OnCreate => p_on_create p
  | UpdateContent => p_update_content p
  | PostCreate => p_post_create p
  | PostStart => p_post_start p
  | PostAttach => p_post_attach p
  end.

(** @src cdenv-devcontainer/src/lifecycle.rs:180-182 LifecyclePlan::runs_after_readiness *)
Definition runs_after_readiness (p : LifecyclePlan) (s : LifecycleStage) : bool :=
  background_eligible s && (stage_index (readiness p) <? stage_index s).

(** @src cdenv-devcontainer/src/lifecycle.rs:313-325 LifecyclePlanningError *)
Inductive LifecyclePlanningError : Type :=
| RuntimeValueInInitialize
| Planning_Substitution (stage : LifecycleStage) (source : SubstitutionError).

(** @src cdenv-devcontainer/src/lifecycle.rs:292-300 readiness_stage *)
Definition readiness_stage (wait_for : option WaitFor) : LifecycleStage :=
  match default WaitFor_UpdateContent wait_for with
  | WaitFor_Initialize => Initialize
  | WaitFor_OnCreate => OnCreate
  | WaitFor_UpdateContent => UpdateContent
  | WaitFor_PostCreate => PostCreate
  | WaitFor_PostStart => PostStart
  end.

Section planning.
Context (to_vec : gmap (list N) (list N) -> option (list N)) (Sha256_digest : list N -> list N).

(** The closure [process]. @src cdenv-devcontainer/src/lifecycle.rs:249-260 normalize_command *)
Definition plan_value (s : LifecycleStage) (substitutions : HostSubstitutionInputs) (command : str) :
    result LifecyclePlanningError DeferredString :=
  let? value := map_err (Planning_Substitution s)
    (substitute_host to_vec Sha256_digest Prop_LifecycleCommand command substitutions) in
  fail_if bool_decide (s = Initialize) && requires_container_environment value
    with RuntimeValueInInitialize in
  Ok value.

(** The process of one keyed entry.
    @src cdenv-devcontainer/src/lifecycle.rs:274-284 normalize_command *)
Definition plan_process (s : LifecycleStage) (substitutions : HostSubstitutionInputs)
    (command : CommandValue) : result LifecyclePlanningError LifecycleProcess :=
  match command with
  | Command_Shell command =>
      let? value := plan_value s substitutions command in Ok (Process_Shell value)
  | Command_Exec arguments =>
      let? values := try_map (plan_value s substitutions) arguments in Ok (Process_Exec values)
  end.

(** @src cdenv-devcontainer/src/lifecycle.rs:244-290 normalize_command *)
Definition normalize_command (s : LifecycleStage) (substitutions : HostSubstitutionInputs)
    (command : RawCommand) : result LifecyclePlanningError LifecycleCommand :=
  match command with
  | RawCommand_Shell command =>
      let? value := plan_value s substitutions command in
      Ok (Lifecycle_Process (Process_Shell value))
  | RawCommand_Exec arguments =>
      let? values := try_map (plan_value s substitutions) arguments in
      Ok (Lifecycle_Process (Process_Exec values))
  | RawCommand_Parallel commands =>
      let? processes := try_map (fun '(key, command) =>
        let? process := plan_process s substitutions command in Ok (key, process)) commands in
      Ok (Lifecycle_Parallel processes)
  end.

(** @src cdenv-devcontainer/src/lifecycle.rs:232-242 stage_plan *)
Definition stage_plan (s : LifecycleStage) (commands : list RawCommand)
    (substitutions : HostSubstitutionInputs) : result LifecyclePlanningError LifecycleStagePlan :=
  let? commands := try_map (normalize_command s substitutions) commands in
  Ok (mkStagePlan s commands).

(** @src cdenv-devcontainer/src/lifecycle.rs:192-230 plan_lifecycle *)
Definition plan_lifecycle (effective : EffectiveMetadata) (substitutions : HostSubstitutionInputs) :
    result LifecyclePlanningError LifecyclePlan :=
  let lifecycle := e_lifecycle effective in
  let? initialize := stage_plan Initialize (el_initialize lifecycle) substitutions in
  let? on_create := stage_plan OnCreate (el_on_create lifecycle) substitutions in
  let? update_content := stage_plan UpdateContent (el_update_content lifecycle) substitutions in
  let? post_create := stage_plan PostCreate (el_post_create lifecycle) substitutions in
  let? post_start := stage_plan PostStart (el_post_start lifecycle) substitutions in
  let? post_attach := stage_plan PostAttach (el_post_attach lifecycle) substitutions in
  Ok (mkPlan initialize on_create update_content post_create post_start post_attach
        (readiness_stage (e_wait_for effective))).
End planning.

(** ** The checkpoint *)

(** @src cdenv-devcontainer/src/lifecycle.rs:329-334 LifecycleCheckpoint *)
Record LifecycleCheckpoint : Type := mkCheckpoint {
  completed_through : option LifecycleStage;
  running : option LifecycleStage;
  failure : option LifecycleStage;
  indeterminate : bool;
}.

(** [Default] *)
Definition checkpoint_default : LifecycleCheckpoint := mkCheckpoint None None None false.

(** @src cdenv-devcontainer/src/lifecycle.rs:435-459 LifecycleTransitionError *)
Inductive LifecycleTransitionError : Type :=
| InvalidStart (stage : LifecycleStage)
| OutOfOrder (stage : LifecycleStage) (expected : option LifecycleStage)
| NotRunning (stage : LifecycleStage)
| NothingRunning.

(** @src cdenv-devcontainer/src/lifecycle.rs:424-431 next_stage *)
Definition next_stage (completed : option LifecycleStage) : option LifecycleStage :=
  match completed with
  | None => Some OnCreate
  | Some OnCreate => Some UpdateContent
  | Some UpdateContent => Some PostCreate
  | _ => None
  end.

Abbreviation transition :=
  (LifecycleCheckpoint * result LifecycleTransitionError unit)%type (only parsing).

(** @src cdenv-devcontainer/src/lifecycle.rs:366-380 LifecycleCheckpoint::start *)
Definition checkpoint_start (c : LifecycleCheckpoint) (s : LifecycleStage) : transition :=
  if negb (is_one_time s) || is_Some_b (running c) || is_Some_b (failure c) || indeterminate c
  then (c, Err (InvalidStart s))
  else
    let expected := next_stage (completed_through c) in
    if negb (bool_decide (expected = Some s)) then (c, Err (OutOfOrder s expected))
    else (mkCheckpoint (completed_through c) (Some s) (failure c) (indeterminate c), Ok tt).

(** @src cdenv-devcontainer/src/lifecycle.rs:387-394 LifecycleCheckpoint::succeed *)
Definition checkpoint_succeed (c : LifecycleCheckpoint) (s : LifecycleStage) : transition :=
  if negb (bool_decide (running c = Some s)) then (c, Err (NotRunning s))
  else (mkCheckpoint (Some s) None (failure c) (indeterminate c), Ok tt).

(** @src cdenv-devcontainer/src/lifecycle.rs:401-408 LifecycleCheckpoint::fail *)
Definition checkpoint_fail (c : LifecycleCheckpoint) (s : LifecycleStage) : transition :=
  if negb (bool_decide (running c = Some s)) then (c, Err (NotRunning s))
  else (mkCheckpoint (completed_through c) None (Some s) (indeterminate c), Ok tt).

(** [self.running.take().is_none()].
    @src cdenv-devcontainer/src/lifecycle.rs:415-421 LifecycleCheckpoint::interrupt *)
Definition checkpoint_interrupt (c : LifecycleCheckpoint) : transition :=
  let taken := running c in
  let c := mkCheckpoint (completed_through c) None (failure c) (indeterminate c) in
  if negb (is_Some_b taken) then (c, Err NothingRunning)
  else (mkCheckpoint (completed_through c) None (failure c) true, Ok tt).

(** @src cdenv-devcontainer/src/lifecycle.rs:464-467 ActiveGenerationLifecycle *)
Record ActiveGenerationLifecycle : Type := mkActive {
  active_plan : LifecyclePlan;
  active_checkpoint : LifecycleCheckpoint;
}.

(** @src cdenv-devcontainer/src/lifecycle.rs:472-477 ActiveGenerationLifecycle::capture *)
Definition capture (desired : LifecyclePlan) : ActiveGenerationLifecycle :=
  mkActive desired checkpoint_default.

(** ** Histories of checkpoint calls *)

Inductive CheckpointCall : Type :=
| CallStart (s : LifecycleStage)
| CallSucceed (s : LifecycleStage)
| CallFail (s : LifecycleStage)
| CallInterrupt.

#[export] Instance CheckpointCall_eq_dec : EqDecision CheckpointCall.
Proof. solve_decision. Defined.
#[export] Instance LifecycleCheckpoint_eq_dec : EqDecision LifecycleCheckpoint.
Proof. solve_decision. Defined.

Definition checkpoint_call (c : LifecycleCheckpoint) (call : CheckpointCall) : transition :=
  match call with
  | CallStart s => checkpoint_start c s
  | CallSucceed s => checkpoint_succeed c s
  | CallFail s => checkpoint_fail c s
  | CallInterrupt => checkpoint_interrupt c
  end.

(** The checkpoint after a sequence of calls, and the calls that were accepted. *)
Definition checkpoint_calls (calls : list CheckpointCall) :
    LifecycleCheckpoint * list CheckpointCall :=
  fold_left (fun '(c, log) call =>
    let '(c', r) := checkpoint_call c call in (c', if is_ok r then log ++ [call] else log))
    calls (checkpoint_default, []).

Definition one_time_order : list LifecycleStage := [OnCreate; UpdateContent; PostCreate].

(** The first [k] stages, each started and completed. *)
Definition completed_log (k : nat) : list CheckpointCall :=
  concat (List.map (fun s => [CallStart s; CallSucceed s]) (take k one_time_order)).

(** The checkpoint and the log with [k] stages completed and no stage after them, or the
    next stage [s] running, failed or interrupted. *)
Definition idle_state (k : nat) : LifecycleCheckpoint * list CheckpointCall :=
  (mkCheckpoint (last (take k one_time_order)) None None false, completed_log k).
Definition open_states (k : nat) (s : LifecycleStage) :
    list (LifecycleCheckpoint * list CheckpointCall) :=
  let done := last (take k one_time_order) in
  [(mkCheckpoint done (Some s) None false, completed_log k ++ [CallStart s]);
   (mkCheckpoint done None (Some s) false, completed_log k ++ [CallStart s; CallFail s]);
   (mkCheckpoint done None None true, completed_log k ++ [CallStart s; CallInterrupt])].

Definition reachable_states : list (LifecycleCheckpoint * list CheckpointCall) :=
  List.map idle_state (seq 0 4)
  ++ concat (List.map (fun k => match one_time_order !! k with
                                | Some s => open_states k s
                                | None => []
                                end) (seq 0 3)).

Definition all_stages : list LifecycleStage :=
  [Initialize; OnCreate; UpdateContent; PostCreate; PostStart; PostAttach].
Definition all_calls : list CheckpointCall :=
  List.map CallStart all_stages ++ List.map CallSucceed all_stages ++ List.map CallFail all_stages
  ++ [CallInterrupt].

Lemma all_calls_complete call : call ∈ all_calls.
Proof. apply (bool_decide_unpack _). destruct call as [s|s|s|]; try destruct s; vm_compute; exact I. Qed.

(** One call keeps the state and the log among the reachable ones. *)
Definition call_closed (st : LifecycleCheckpoint * list CheckpointCall) (call : CheckpointCall) :
    bool :=
  let '(c, log) := st in
  let '(c', r) := checkpoint_call c call in
  bool_decide ((c', if is_ok r then log ++ [call] else log) ∈ reachable_states).

Lemma calls_closed :
  forallb (fun st => forallb (call_closed st) all_calls) reachable_states = true.
Proof. vm_compute. reflexivity. Qed.

Lemma checkpoint_calls_reachable calls : checkpoint_calls calls ∈ reachable_states.
Proof.
  induction calls as [|call calls IH] using rev_ind.
  - apply (bool_decide_unpack _). vm_compute. exact I.
  - unfold checkpoint_calls in *. rewrite fold_left_app. cbn [fold_left].
    destruct (fold_left _ calls _) as [c log].
    assert (H := calls_closed). rewrite forallb_forall in H.
    apply list_elem_of_In in IH. specialize (H _ IH). rewrite forallb_forall in H.
    specialize (H call). rewrite <- list_elem_of_In in H. specialize (H (all_calls_complete call)).
    unfold call_closed in H. destruct (checkpoint_call c call) as [c' r]. by prop_of_bool.
Qed.

(** C18: one-time lifecycle stages run at most once, in order, and stop at the first
    failure.  Whatever sequence of start, succeed, fail and interrupt calls is made on a
    new checkpoint, the accepted ones are: the first [k] stages of the order, each started
    and then succeeded, followed by nothing, or by the start of the next stage that is
    still running, or by that start and its failure or interruption, after which nothing
    is ever accepted; and the checkpoint records exactly that. *)
Theorem one_time_stages_run_once calls :
  let '(c, log) := checkpoint_calls calls in
  exists k, (k <= 3)%nat /\ completed_through c = last (take k one_time_order) /\
    ((running c = None /\ failure c = None /\ indeterminate c = false /\ log = completed_log k) \/
     exists s, one_time_order !! k = Some s /\
       ((running c = Some s /\ failure c = None /\ indeterminate c = false /\
         log = completed_log k ++ [CallStart s]) \/
        (running c = None /\ failure c = Some s /\ indeterminate c = false /\
         log = completed_log k ++ [CallStart s; CallFail s]) \/
        (running c = None /\ failure c = None /\ indeterminate c = true /\
         log = completed_log k ++ [CallStart s; CallInterrupt]))).
Proof.
  assert (H := checkpoint_calls_reachable calls). destruct (checkpoint_calls calls) as [c log].
  unfold reachable_states in H. apply elem_of_app in H as [H|H].
  - apply list_elem_of_In, in_map_iff in H as (k & [= <- <-] & Hk). apply in_seq in Hk.
    exists k. split; [lia|]. split; [done|]. left. done.
  - apply list_elem_of_In, in_concat in H as (l & Hl & Hin).
    apply in_map_iff in Hl as (k & <- & Hk). apply in_seq in Hk.
    destruct (one_time_order !! k) as [s|] eqn:E; [|done]. exists k. split; [lia|].
    simpl in Hin. destruct Hin as [[= <- <-]|[[= <- <-]|[[= <- <-]|[]]]]; (split; [done|]); right;
      exists s; (split; [done|]); auto 10.
Qed.

(** ** What a plan means *)

Section plan_meaning.
Context (to_vec : gmap (list N) (list N) -> option (list N)) (Sha256_digest : list N -> list N).
Context (subs : HostSubstitutionInputs).

(** The planned value resolves, in every container environment, to what the configured
    text denotes there. *)
Definition value_denotes (raw : str) (d : DeferredString) : Prop :=
  forall env, denotes to_vec Sha256_digest Prop_LifecycleCommand subs env raw (resolve d env).

Definition process_denotes (raw : CommandValue) (p : LifecycleProcess) : Prop :=
  match raw, p with
  | Command_Shell s, Process_Shell d => value_denotes s d
  | Command_Exec args, Process_Exec ds => Forall2 value_denotes args ds
  | _, _ => False
  end.

Definition command_denotes (raw : RawCommand) (c : LifecycleCommand) : Prop :=
  match raw, c with
  | RawCommand_Shell s, Lifecycle_Process p => process_denotes (Command_Shell s) p
  | RawCommand_Exec args, Lifecycle_Process p => process_denotes (Command_Exec args) p
  | RawCommand_Parallel entries, Lifecycle_Parallel processes =>
      Forall2 (fun e p => fst e = fst p /\ process_denotes (snd e) (snd p)) entries processes
  | _, _ => False
  end.

Definition raw_commands (e : EffectiveMetadata) (s : LifecycleStage) : list RawCommand :=
  match s with
  | Initialize => el_initialize (e_lifecycle e)
  | OnCreate => el_on_create (e_lifecycle e)
  | UpdateContent => el_update_content (e_lifecycle e)
  | PostCreate => el_post_create (e_lifecycle e)
  | PostStart => el_post_start (e_lifecycle e)
  | PostAttach => el_post_attach (e_lifecycle e)
  end.

Lemma plan_value_Ok s raw d :
  plan_value to_vec Sha256_digest s subs raw = Ok d ->
  value_denotes raw d /\ (s = Initialize -> requires_container_environment d = false).
Proof.
  unfold plan_value. intros H.
  destruct (substitute_host _ _ _ _ _) as [v|] eqn:E; cbn [map_err] in H; [|done].
  destruct (_ && _) eqn:Eg in H; [done|]. injection H as <-. split.
  - intros env. by apply substitute_host_Ok.
  - intros ->. rewrite bool_decide_eq_true_2 in Eg by done. by apply andb_false_iff in Eg as [?|?].
Qed.

Lemma plan_values_Ok s args ds :
  try_map (plan_value to_vec Sha256_digest s subs) args = Ok ds ->
  Forall2 value_denotes args ds /\
  (s = Initialize -> existsb requires_container_environment ds = false).
Proof.
  intros H%try_map_Forall2. split.
  - eapply Forall2_impl; [exact H|]. intros a b Hab. exact (proj1 (plan_value_Ok _ _ _ Hab)).
  - intros ->. apply existsb_false_iff. eapply Forall2_Forall_r; [exact H|]. apply Forall_forall.
    intros a _ b Hab. apply plan_value_Ok in Hab as [_ Hb]. auto.
Qed.

Lemma plan_process_Ok s raw p :
  plan_process to_vec Sha256_digest s subs raw = Ok p ->
  process_denotes raw p /\ (s = Initialize -> process_requires_container_environment p = false).
Proof.
  intros H. destruct raw as [t|args]; cbn [plan_process] in H.
  - destruct (plan_value _ _ _ _ _) as [d|] eqn:Ed; [|done]. injection H as <-. by apply plan_value_Ok.
  - destruct (try_map _ _) as [ds|] eqn:Ed; [|done]. injection H as <-. by apply plan_values_Ok.
Qed.

Lemma normalize_command_Ok s raw c :
  normalize_command to_vec Sha256_digest s subs raw = Ok c ->
  command_denotes raw c /\ (s = Initialize -> command_requires_container_environment c = false).
Proof.
  intros H. destruct raw as [t|args|entries]; cbn [normalize_command] in H.
  - destruct (plan_value _ _ _ _ _) as [d|] eqn:E; [|done]. injection H as <-. by apply plan_value_Ok.
  - destruct (try_map _ _) as [ds|] eqn:E; [|done]. injection H as <-. by apply plan_values_Ok.
  - destruct (try_map _ _) as [ps|] eqn:E; [|done]. injection H as <-. apply try_map_Forall2 in E.
    assert (Hone : forall e (p : str * LifecycleProcess),
      (let '(key, command) := e in
       let? process := plan_process to_vec Sha256_digest s subs command in Ok (key, process)) = Ok p ->
      fst e = fst p /\ process_denotes (snd e) (snd p) /\
      (s = Initialize -> process_requires_container_environment (snd p) = false)).
    { intros [key command] p Hp. destruct (plan_process _ _ _ _ command) as [q|] eqn:Eq; [|done].
      injection Hp as <-. split; [done|]. by apply plan_process_Ok. }
    split.
    + eapply Forall2_impl; [exact E|]. intros e p Hep. by destruct (Hone e p Hep) as (? & ? & _).
    + intros ->. cbn [command_requires_container_environment]. apply existsb_false_iff, Forall_fmap.
      eapply Forall2_Forall_r; [exact E|]. apply Forall_forall. intros e _ p Hep.
      destruct (Hone e p Hep) as (_ & _ & ?). auto.
Qed.

Lemma stage_plan_Ok s raws p :
  stage_plan to_vec Sha256_digest s raws subs = Ok p ->
  plan_stage p = s /\ Forall2 command_denotes raws (plan_commands p) /\
  (s = Initialize ->
     Forall (fun c => command_requires_container_environment c = false) (plan_commands p)).
Proof.
  unfold stage_plan. intros H. destruct (try_map _ _) as [cs|] eqn:E; [|done]. injection H as <-.
  apply try_map_Forall2 in E. cbn [plan_stage plan_commands]. split_and!; [done| |].
  - eapply Forall2_impl; [exact E|]. intros a b Hab. exact (proj1 (normalize_command_Ok _ _ _ Hab)).
  - intros ->. eapply Forall2_Forall_r; [exact E|]. apply Forall_forall.
    intros a _ b Hab. apply normalize_command_Ok in Hab as [_ ?]. auto.
Qed.

(** a lifecycle plan means what was configured, and host initialization never depends
    on the container.  When planning succeeds, every stage of the plan has one command per
    effective contribution, in order and of the same shape (shell text, argument vector,
    or keyed parallel group), each value resolving in any container environment to what
    the configured text denotes there; and no [initializeCommand] value needs the
    container environment. *)
Theorem lifecycle_plan_denotes effective p :
  plan_lifecycle to_vec Sha256_digest effective subs = Ok p ->
  (forall s, plan_stage (stage p s) = s /\
     Forall2 command_denotes (raw_commands effective s) (plan_commands (stage p s))) /\
  Forall (fun c => command_requires_container_environment c = false) (plan_commands (p_initialize p)) /\
  readiness p = readiness_stage (e_wait_for effective).
Proof.
  unfold plan_lifecycle. intros H.
  destruct (stage_plan _ _ Initialize _ _) as [p0|] eqn:E0; [|done].
  destruct (stage_plan _ _ OnCreate _ _) as [p1|] eqn:E1; [|done].
  destruct (stage_plan _ _ UpdateContent _ _) as [p2|] eqn:E2; [|done].
  destruct (stage_plan _ _ PostCreate _ _) as [p3|] eqn:E3; [|done].
  destruct (stage_plan _ _ PostStart _ _) as [p4|] eqn:E4; [|done].
  destruct (stage_plan _ _ PostAttach _ _) as [p5|] eqn:E5; [|done]. injection H as <-.
  apply stage_plan_Ok in E0 as (? & ? & ?), E1 as (? & ? & _), E2 as (? & ? & _), E3 as (? & ? & _),
    E4 as (? & ? & _), E5 as (? & ? & _).
  split_and!; [|auto|done]. by intros [].
Qed.
End plan_meaning.

Definition sample_inputs : HostSubstitutionInputs := mkInputs ($"/a/b") ($"/w/b") ∅ ∅.
Definition sample_effective : EffectiveMetadata :=
  mkEffective None None [] [] [] []
    (mkEffectiveLifecycle [RawCommand_Shell ($"echo ${localWorkspaceFolderBasename}")] [] [] []
       [RawCommand_Exec [$"run"; $"${containerEnv:HOME:none}"]] [])
    None None None None None None None ∅ ∅ ∅ None [] None [].

Lemma lifecycle_plan_denotes_witness :
  exists p, plan_lifecycle (fun _ => None) (fun b => b) sample_effective sample_inputs = Ok p /\
    Forall (fun c => command_requires_container_environment c = false)
      (plan_commands (p_initialize p)) /\
    List.map command_requires_container_environment (plan_commands (p_post_start p)) = [true].
Proof.
  assert (H : exists p, plan_lifecycle (fun _ => None) (fun b => b) sample_effective sample_inputs = Ok p)
    by (vm_compute; eexists; reflexivity).
  destruct H as [p H]. exists p. split; [exact H|].
  destruct (lifecycle_plan_denotes _ _ _ _ _ H) as (_ & Hi & _). split; [exact Hi|].
  revert H. vm_compute. by intros [= <-].
Defined.
