(* ===== verification/LifecycleRun.v ===== *)
(** * LifecycleRun: host coordination of lifecycle stages
    ([cdenv-cli/src/lifecycle_orchestration.rs])

    The first part is the orchestrator over its three traits (host, mutation, container), as
    classes over an arbitrary world in which [is_cancelled] reads the cancellation token.  The
    second part is the production host executor: the processes of a command group, the loop that
    waits for them and their termination. *)

From S2P Require Import Prelude Text Effects Profile Metadata Substitution Lifecycle.

(** ** Data *)

(** @src cdenv-cli/src/lifecycle_orchestration.rs:27-34 LifecycleOperation *)
Inductive LifecycleOperation : Type := Operation_Create | Operation_Up | Operation_Rebuild.
(** @src cdenv-cli/src/lifecycle_orchestration.rs:38-45 LifecycleScenario *)
Inductive LifecycleScenario : Type := Run_Image | Run_Dockerfile | Run_Compose.
(** @src cdenv-cli/src/lifecycle_orchestration.rs:49-54 LifecycleInput *)
Inductive LifecycleInput : Type := Input_Inherit | Input_Closed.

(** @src cdenv-cli/src/lifecycle_orchestration.rs:58-63 LifecycleMutationOutcome *)
Record LifecycleMutationOutcome : Type := mkMutation { new_generation : bool; actual_start : bool }.

(** @src cdenv-cli/src/lifecycle_orchestration.rs:67-76 LifecycleRetryClassification *)
Inductive LifecycleRetryClassification : Type :=
| SafeRetry | DefiniteFailure | BackgroundFailure | IndeterminateOneTime.

(** @src cdenv-cli/src/lifecycle_orchestration.rs:80-91 BackgroundRunnerOutcome *)
Inductive BackgroundRunnerOutcome : Type :=
| Runner_Started | Runner_VerifiedRunning | Runner_Complete | Runner_Failed | Runner_Indeterminate.

(** @src cdenv-cli/src/lifecycle_orchestration.rs:95-100 BackgroundReadiness *)
Inductive BackgroundReadiness : Type := NotRequired | Runner (outcome : BackgroundRunnerOutcome).

(** @src cdenv-cli/src/lifecycle_orchestration.rs:106-119 LifecycleReadiness *)
Record LifecycleReadiness (V N F : Type) : Type := mkReadiness {
  lr_mutation : LifecycleMutationOutcome;
  lr_provisioned : V;
  lr_environment : N;
  lr_forwarding : F;
  lr_completed_through : LifecycleStage;
  lr_background : BackgroundReadiness;
}.
Arguments mkReadiness {V N F} _ _ _ _ _ _.
Arguments lr_mutation {V N F} _.
Arguments lr_completed_through {V N F} _.
Arguments lr_background {V N F} _.

(** @src cdenv-cli/src/lifecycle_orchestration.rs:123-133 LifecycleCommandFailure *)
Inductive LifecycleCommandFailure (E : Type) : Type :=
| BeforeStart (error : E) | Definite (error : E) | Indeterminate (error : E).
Arguments BeforeStart {E} _.
Arguments Definite {E} _.
Arguments Indeterminate {E} _.

(** @src cdenv-cli/src/lifecycle_orchestration.rs:137-144 LifecycleMutationFailure *)
Inductive LifecycleMutationFailure (E : Type) : Type :=
| Mutation_SafeRetry (error : E) | Mutation_Definite (error : E).
Arguments Mutation_SafeRetry {E} _.
Arguments Mutation_Definite {E} _.

(** @src cdenv-cli/src/lifecycle_orchestration.rs:148-218 LifecycleOrchestrationError *)
Inductive LifecycleOrchestrationError (H M R : Type) : Type :=
| Run_Initialize (source : H)
| Run_Cancelled (step : str)
| Run_Mutation (source : LifecycleMutationFailure M)
| Run_Stage (stage : LifecycleStage) (source : LifecycleCommandFailure R)
| Run_Provision (source : R)
| Run_Environment (operation : str) (source : R)
| Run_Forwarding (source : R)
| Run_Runner (source : R)
| Run_Background (outcome : BackgroundRunnerOutcome).
Arguments Run_Initialize {H M R} _.
Arguments Run_Cancelled {H M R} _.
Arguments Run_Mutation {H M R} _.
Arguments Run_Stage {H M R} _ _.
Arguments Run_Provision {H M R} _.
Arguments Run_Environment {H M R} _ _.
Arguments Run_Forwarding {H M R} _.
Arguments Run_Runner {H M R} _.
Arguments Run_Background {H M R} _.

(** @src cdenv-cli/src/lifecycle_orchestration.rs:226-256 LifecycleOrchestrationError::retry_classification *)
Definition retry_classification {H M R} (e : LifecycleOrchestrationError H M R) :
    LifecycleRetryClassification :=
  match e with
  | Run_Initialize _ | Run_Cancelled _ | Run_Provision _ | Run_Environment _ _ | Run_Forwarding _
  | Run_Mutation (Mutation_SafeRetry _) | Run_Stage _ (BeforeStart _) => SafeRetry
  | Run_Stage stage (Indeterminate _) =>
      if is_one_time stage then IndeterminateOneTime else DefiniteFailure
  | Run_Background Runner_Indeterminate => IndeterminateOneTime
  | Run_Background _ | Run_Runner _ => BackgroundFailure
  | Run_Mutation _ | Run_Stage _ _ => DefiniteFailure
  end.

(** @src cdenv-cli/src/lifecycle_orchestration.rs:350-361 LifecycleOrchestrationRequest *)
Record LifecycleRequest : Type := mkLifecycleRequest {
  rq_plan : LifecyclePlan;
  rq_checkout : str;
  rq_operation : LifecycleOperation;
  rq_scenario : LifecycleScenario;
  rq_input : LifecycleInput;
}.

(** @src cdenv-cli/src/lifecycle_orchestration.rs:505-517 applicable_stages *)
Definition applicable_stages (plan : LifecyclePlan) (mutation : LifecycleMutationOutcome) :
    list LifecycleStagePlan :=
  (if new_generation mutation then [p_on_create plan; p_update_content plan; p_post_create plan] else []) ++
  (if actual_start mutation then [p_post_start plan] else []).

(** ** The three traits *)

(** @src cdenv-cli/src/lifecycle_orchestration.rs:278-290 HostLifecycle *)
Class HostLifecycle (A HE : Type) : Type :=
  initialize : LifecycleStagePlan -> str -> LifecycleInput -> A -> A * result HE unit.

(** @src cdenv-cli/src/lifecycle_orchestration.rs:261-274 LifecycleMutation *)
Class LifecycleMutation (A ME : Type) : Type :=
  mutate : LifecycleOperation -> LifecycleScenario -> A ->
    A * result (LifecycleMutationFailure ME) LifecycleMutationOutcome.

(** @src cdenv-cli/src/lifecycle_orchestration.rs:294-347 ContainerLifecycle *)
Class ContainerLifecycle (A RE V I N F : Type) : Type := {
  execute_stage : LifecycleStagePlan -> A -> A * result (LifecycleCommandFailure RE) unit;
  provision : A -> A * result RE V;
  capture_environment : V -> A -> A * result RE I;
  recapture_environment : V -> I -> A -> A * result RE N;
  forwarding_ready : N -> A -> A * result RE F;
  start_or_verify_runner : list LifecycleStagePlan -> A -> A * result RE BackgroundRunnerOutcome;
}.

(** The calls. *)
Inductive LifecycleCall (ME RE : Type) : Type :=
| On_Initialize (plan : LifecycleStagePlan) (ok : bool)
| On_Mutate (answer : result (LifecycleMutationFailure ME) LifecycleMutationOutcome)
| On_Provision (ok : bool)
| On_Capture (ok : bool)
| On_Stage (plan : LifecycleStagePlan) (answer : result (LifecycleCommandFailure RE) unit)
| On_Recapture (ok : bool)
| On_Forwarding (ok : bool)
| On_Runner (later : list LifecycleStagePlan) (answer : result RE BackgroundRunnerOutcome).
Arguments On_Initialize {ME RE} _ _.
Arguments On_Mutate {ME RE} _.
Arguments On_Provision {ME RE} _.
Arguments On_Capture {ME RE} _.
Arguments On_Stage {ME RE} _ _.
Arguments On_Recapture {ME RE} _.
Arguments On_Forwarding {ME RE} _.
Arguments On_Runner {ME RE} _ _.

Section orchestrate.
Context {A HE ME RE V I N F : Type}
  `{!HostLifecycle A HE, !LifecycleMutation A ME, !ContainerLifecycle A RE V I N F}
  (is_cancelled : A -> bool).

Abbreviation error := (LifecycleOrchestrationError HE ME RE) (only parsing).
Abbreviation run X := (act A (LifecycleCall ME RE) error X) (only parsing).

(** @src cdenv-cli/src/lifecycle_orchestration.rs:489-503 check_cancelled *)
Definition check_cancelled {X} (step : str) (k : run X) : run X :=
  observe is_cancelled (fun c : bool => if c then raise (Run_Cancelled step) else k).

(** The stages up to readiness, and the later ones.
    @src cdenv-cli/src/lifecycle_orchestration.rs:429-432 LifecycleOrchestrator::orchestrate *)
Definition foreground (plan : LifecyclePlan) (mutation : LifecycleMutationOutcome) : list LifecycleStagePlan :=
  List.filter (fun s => stage_index (plan_stage s) <=? stage_index (readiness plan))
    (applicable_stages plan mutation).
(** @src cdenv-cli/src/lifecycle_orchestration.rs:456-460 LifecycleOrchestrator::orchestrate *)
Definition later (plan : LifecyclePlan) (mutation : LifecycleMutationOutcome) : list LifecycleStagePlan :=
  List.filter (fun s => stage_index (readiness plan) <? stage_index (plan_stage s))
    (applicable_stages plan mutation).

(** @src cdenv-cli/src/lifecycle_orchestration.rs:433-441 LifecycleOrchestrator::orchestrate *)
Definition foreground_stage (s : LifecycleStagePlan) : run unit :=
  check_cancelled ($"foreground lifecycle stage") (
  do? _ := invoke (On_Stage s) (execute_stage s) or (Run_Stage (plan_stage s)) in
  done tt).

(** @src cdenv-cli/src/lifecycle_orchestration.rs:461-477 LifecycleOrchestrator::orchestrate *)
Definition background (stages : list LifecycleStagePlan) : run BackgroundReadiness :=
  match stages with
  | [] => done NotRequired
  | _ =>
      do? outcome := invoke (On_Runner stages) (start_or_verify_runner stages) or Run_Runner in
      match outcome with
      | Runner_Failed | Runner_Indeterminate => raise (Run_Background outcome)
      | _ => done (Runner outcome)
      end
  end.

(** @src cdenv-cli/src/lifecycle_orchestration.rs:389-486 LifecycleOrchestrator::orchestrate *)
Definition orchestrate (request : LifecycleRequest) : run (LifecycleReadiness V N F) :=
  let plan := rq_plan request in
  do? _ := invoke (fun r => On_Initialize (p_initialize plan) (is_ok r))
      (initialize (p_initialize plan) (rq_checkout request) (rq_input request))
    or Run_Initialize in
  check_cancelled ($"container mutation") (
  do? mutation := invoke On_Mutate (mutate (rq_operation request) (rq_scenario request))
    or Run_Mutation in
  check_cancelled ($"agent provisioning") (
  do? provisioned := invoke (fun r => On_Provision (is_ok r)) provision or Run_Provision in
  do? initial := invoke (fun r => On_Capture (is_ok r)) (capture_environment provisioned)
    or (Run_Environment ($"capture")) in
  do? _ := each foreground_stage (foreground plan mutation) else raise in
  do? environment := invoke (fun r => On_Recapture (is_ok r)) (recapture_environment provisioned initial)
    or (Run_Environment ($"recapture")) in
  do? forwarding := invoke (fun r => On_Forwarding (is_ok r)) (forwarding_ready environment)
    or Run_Forwarding in
  do? background := background (later plan mutation) else raise in
  done (mkReadiness mutation provisioned environment forwarding (readiness plan) background))).
End orchestrate.

(** ** The order of a run *)

Inductive Step : Type :=
| Step_Initialize (plan : LifecycleStagePlan) | Step_Mutate | Step_Provision | Step_Capture
| Step_Stage (plan : LifecycleStagePlan) | Step_Recapture | Step_Forwarding
| Step_Runner (later : list LifecycleStagePlan).

Definition closing_steps (plan : LifecyclePlan) (m : LifecycleMutationOutcome) : list Step :=
  [Step_Recapture; Step_Forwarding] ++ match later plan m with [] => [] | stages => [Step_Runner stages] end.

(** The steps of a run whose mutation answered [m]. *)
Definition canonical (plan : LifecyclePlan) (m : LifecycleMutationOutcome) : list Step :=
  [Step_Initialize (p_initialize plan); Step_Mutate; Step_Provision; Step_Capture]
  ++ List.map Step_Stage (foreground plan m) ++ closing_steps plan m.

Section order.
Context {A HE ME RE V I N F : Type}
  `{!HostLifecycle A HE, !LifecycleMutation A ME, !ContainerLifecycle A RE V I N F}
  (is_cancelled : A -> bool).

Abbreviation call := (LifecycleCall ME RE) (only parsing).
Abbreviation error := (LifecycleOrchestrationError HE ME RE) (only parsing).

Definition step (c : call) : Step :=
  match c with
  | On_Initialize plan _ => Step_Initialize plan
  | On_Mutate _ => Step_Mutate
  | On_Provision _ => Step_Provision
  | On_Capture _ => Step_Capture
  | On_Stage plan _ => Step_Stage plan
  | On_Recapture _ => Step_Recapture
  | On_Forwarding _ => Step_Forwarding
  | On_Runner later _ => Step_Runner later
  end.

Definition healthy_runner (o : BackgroundRunnerOutcome) : bool :=
  match o with Runner_Failed | Runner_Indeterminate => false | _ => true end.

(** The call succeeded. *)
Definition answered (c : call) : bool :=
  match c with
  | On_Initialize _ b | On_Provision b | On_Capture b | On_Recapture b | On_Forwarding b => b
  | On_Mutate r => is_ok r
  | On_Stage _ r => is_ok r
  | On_Runner _ r => match r with Ok o => healthy_runner o | Err _ => false end
  end.

(** The failed call [c] is what [e] reports. *)
Definition explains (c : call) (e : error) : Prop :=
  match c, e with
  | On_Initialize _ false, Run_Initialize _ | On_Provision false, Run_Provision _
  | On_Forwarding false, Run_Forwarding _ | On_Runner _ (Err _), Run_Runner _ => True
  | On_Capture false, Run_Environment operation _ => operation = $"capture"
  | On_Recapture false, Run_Environment operation _ => operation = $"recapture"
  | On_Mutate (Err source), Run_Mutation source' => source = source'
  | On_Stage plan (Err source), Run_Stage stage source' => stage = plan_stage plan /\ source = source'
  | On_Runner _ (Ok o), Run_Background o' => o = o' /\ healthy_runner o = false
  | _, _ => False
  end.

(** The run went through an initial part of the canonical steps, stopping at the first failure. *)
Definition ordered (plan : LifecyclePlan) (t : list call) (r : result error (LifecycleReadiness V N F)) : Prop :=
  exists m, (forall answer, On_Mutate (Ok answer) ∈ t -> answer = m) /\
  List.map step t `prefix_of` canonical plan m /\
  match r with
  | Ok ready =>
      List.map step t = canonical plan m /\ forallb answered t = true
      /\ lr_mutation ready = m /\ lr_completed_through ready = readiness plan
      /\ match lr_background ready with
         | NotRequired => later plan m = []
         | Runner o => On_Runner (later plan m) (Ok o) ∈ t /\ healthy_runner o = true
         end
  | Err (Run_Cancelled _) => forallb answered t = true
  | Err e => exists pre c, t = pre ++ [c] /\ forallb answered pre = true /\ explains c e
  end.

Definition stage_result (s : LifecycleStagePlan) (t : list call) (r : result error unit) : Prop :=
  match r with
  | Ok _ => t = [On_Stage s (Ok tt)]
  | Err (Run_Cancelled _) => t = []
  | Err (Run_Stage st source) => st = plan_stage s /\ t = [On_Stage s (Err source)]
  | Err _ => False
  end.

Lemma foreground_stage_result s : emits (foreground_stage (HE := HE) (ME := ME) is_cancelled s) (stage_result s).
Proof. unfold foreground_stage, check_cancelled. trace; [done| |done]. by destruct x. Qed.

(** The calls of the foreground stages. *)
Definition stage_calls (stages : list LifecycleStagePlan) : list call :=
  List.map (fun s => On_Stage s (Ok tt)) stages.

Lemma stages_done pre ts :
  Forall2 (fun s t => stage_result s t (Ok tt)) pre ts ->
  concat ts = stage_calls pre.
Proof. induction 1 as [|s t pre ts Hs _ IH]; cbn; [done|]. by rewrite Hs, IH. Qed.

(** The loop ran a prefix of the stages successfully, and then the rest of its trace says why it
    stopped. *)
Lemma foreground_result stages :
  emits (each (foreground_stage (HE := HE) (ME := ME) is_cancelled) stages) (fun t r =>
    exists pre post, stages = pre ++ post /\
      match r with
      | Ok _ => post = [] /\ t = stage_calls pre
      | Err (Run_Cancelled _) => t = stage_calls pre
      | Err (Run_Stage st source) => exists s rest, post = s :: rest /\ st = plan_stage s
          /\ t = stage_calls pre ++ [On_Stage s (Err source)]
      | Err _ => False
      end).
Proof.
  eapply emits_impl; [apply (emits_each _ stage_result), foreground_stage_result|].
  intros t r (pre & post & ts & -> & Hf & Hr). exists pre, post. split; [done|].
  apply stages_done in Hf. destruct r as [[]|e].
  - by rewrite <- Hf.
  - destruct Hr as (s & rest & tx & -> & Hs & ->). destruct e; try done; cbn in Hs.
    + by rewrite Hs, app_nil_r.
    + destruct Hs as [-> ->]. exists s, rest. by rewrite Hf.
Qed.

Lemma stages_steps pre : List.map step (stage_calls pre) = List.map Step_Stage pre.
Proof. unfold stage_calls. by rewrite map_map. Qed.

Lemma stages_answered pre : forallb answered (stage_calls pre) = true.
Proof. by induction pre. Qed.

Definition not_mutate (c : call) : Prop := forall a, c <> On_Mutate (Ok a).

Lemma stages_not_mutate pre : Forall not_mutate (stage_calls pre).
Proof. by induction pre; constructor. Qed.

(** What a run has done before its foreground stages. *)
Definition opening (plan : LifecyclePlan) (m : LifecycleMutationOutcome) : list call :=
  [On_Initialize (p_initialize plan) true; On_Mutate (Ok m); On_Provision true; On_Capture true].

Lemma ordered_intro plan m t r :
  Forall not_mutate t ->
  List.map step t `prefix_of` drop 4 (canonical plan m) ->
  match r with
  | Ok ready =>
      List.map step t = drop 4 (canonical plan m) /\ forallb answered t = true
      /\ lr_mutation ready = m /\ lr_completed_through ready = readiness plan
      /\ match lr_background ready with
         | NotRequired => later plan m = []
         | Runner o => On_Runner (later plan m) (Ok o) ∈ t /\ healthy_runner o = true
         end
  | Err (Run_Cancelled _) => forallb answered t = true
  | Err e => exists pre c, t = pre ++ [c] /\ forallb answered pre = true /\ explains c e
  end -> ordered plan (opening plan m ++ t) r.
Proof.
  intros Hm Hp Hr. exists m. rewrite map_app. split_and!.
  - intros a Ha. apply elem_of_app in Ha as [Ha|Ha]; [set_solver|].
    rewrite Forall_forall in Hm. by destruct (Hm _ Ha a).
  - unfold canonical. cbn. do 4 apply prefix_cons. exact Hp.
  - destruct r as [ready|e].
    + destruct Hr as (-> & Ha & -> & -> & Hb). split_and!; [done|done|done|done|].
      destruct (lr_background ready); [done|]. split; [|by destruct Hb]. apply elem_of_app. right. by destruct Hb.
    + destruct e; try done; destruct Hr as (pre & c & -> & Ha & He);
        exists (opening plan m ++ pre), c; by rewrite app_assoc.
Qed.

Lemma explains_not_cancelled c e : explains c e -> forall step, e <> Run_Cancelled step.
Proof. intros H step ->. destruct c; cbn in H; repeat case_match; done. Qed.

(** A failure at the call [c], after some of the canonical calls. *)
Lemma ordered_fail plan m pre c e :
  Forall not_mutate (pre ++ [c]) -> List.map step (pre ++ [c]) `prefix_of` drop 4 (canonical plan m) ->
  forallb answered pre = true -> explains c e ->
  ordered plan (opening plan m ++ pre ++ [c]) (Err e).
Proof.
  intros Hn Hs Ha He. apply ordered_intro; [done|done|].
  assert (Hc := explains_not_cancelled _ _ He). destruct e; first [by destruct (Hc _ eq_refl)|by exists pre, c].
Qed.
Lemma stage_calls_prefix plan m t :
  List.map step t `prefix_of` closing_steps plan m ->
  List.map step (stage_calls (foreground plan m) ++ t) `prefix_of` drop 4 (canonical plan m).
Proof. intros Ht. rewrite map_app, stages_steps. by apply prefix_app. Qed.

(** A failure after the foreground stages. *)
Lemma closing_fail plan m pre c e :
  Forall not_mutate (pre ++ [c]) -> List.map step (pre ++ [c]) `prefix_of` closing_steps plan m ->
  forallb answered pre = true -> explains c e ->
  ordered plan (opening plan m ++ stage_calls (foreground plan m) ++ pre ++ [c]) (Err e).
Proof.
  intros Hn Hs Ha He. rewrite (app_assoc (stage_calls _)). apply ordered_fail; rewrite <- ?app_assoc.
  - apply Forall_app. split; [apply stages_not_mutate|done].
  - by apply stage_calls_prefix.
  - by rewrite forallb_app, stages_answered.
  - done.
Qed.

Lemma closing_ordered plan m provisioned initial :
  emits (A := A) (E := error)
    (do? environment := invoke (fun r => On_Recapture (is_ok r)) (recapture_environment provisioned initial)
       or (Run_Environment ($"recapture")) in
     do? forwarding := invoke (fun r => On_Forwarding (is_ok r)) (forwarding_ready environment)
       or Run_Forwarding in
     do? background := background (later plan m) else raise in
     done (mkReadiness m provisioned environment forwarding (readiness plan) background))
    (fun t r => ordered plan (opening plan m ++ stage_calls (foreground plan m) ++ t) r).
Proof.
  assert (Hok : forall t ready, Forall not_mutate t -> List.map step t = closing_steps plan m ->
    forallb answered t = true -> lr_mutation ready = m -> lr_completed_through ready = readiness plan ->
    match lr_background ready with
    | NotRequired => later plan m = []
    | Runner o => On_Runner (later plan m) (Ok o) ∈ t /\ healthy_runner o = true
    end -> ordered plan (opening plan m ++ stage_calls (foreground plan m) ++ t) (Ok ready)).
  { intros t ready Hn Hs Ha Hm Hc Hb. apply ordered_intro.
    - apply Forall_app. split; [apply stages_not_mutate|done].
    - apply stage_calls_prefix. by rewrite Hs.
    - split_and!; [|by rewrite forallb_app, stages_answered|done|done|].
      + rewrite map_app, stages_steps, Hs. done.
      + destruct (lr_background ready); [done|]. split; [set_solver|by destruct Hb]. }
  assert (Hfail : forall pre c e, Forall not_mutate (pre ++ [c]) ->
    List.map step (pre ++ [c]) `prefix_of` closing_steps plan m -> forallb answered pre = true -> explains c e ->
    ordered plan (opening plan m ++ stage_calls (foreground plan m) ++ pre ++ [c]) (Err e)) by apply closing_fail.
  unfold closing_steps, background in *. destruct (later plan m) as [|s stages] eqn:Hl; trace.
  - eapply emits_handle; [by apply (emits_done _ (fun t r => t = [] /\ r = Ok NotRequired))|..];
      intros t y [-> [= ->]]. trace. apply Hok; try done. by repeat constructor.
  - apply (Hfail [_]); [by repeat constructor|by eexists|done|done].
  - apply (Hfail []); [by repeat constructor|by eexists|done|done].
  - eapply (emits_handle _ _ _ (fun t r => exists answer, t = [On_Runner (s :: stages) answer] /\
      match answer, r with
      | Ok o, Ok y => y = Runner o /\ healthy_runner o = true
      | Ok o, Err e => e = Run_Background o /\ healthy_runner o = false
      | Err e, Err e' => e' = Run_Runner e
      | _, _ => False
      end)).
    + trace; [|by eexists]. destruct x1; trace; by eexists.
    + intros t y ([o|] & -> & Hy); [|done]. destruct Hy as [-> Ho]. trace.
      apply Hok; cbn; rewrite ?Ho; try done; [by repeat constructor|]. split; [set_solver|done].
    + intros t e (answer & -> & Hy). trace. apply (Hfail [_; _]); [by repeat constructor|by eexists|done|].
      destruct answer; [destruct Hy as [-> ?]|subst e]; done.
  - apply (Hfail [_]); [by repeat constructor|by eexists|done|done].
  - apply (Hfail []); [by repeat constructor|by eexists|done|done].
Qed.

(** A run that stops before the foreground stages; the mutation outcome it would have had is
    arbitrary when it did not mutate. *)
Lemma early_fail plan t c e m :
  (forall answer, On_Mutate (Ok answer) ∈ t ++ [c] -> answer = m) ->
  List.map step (t ++ [c]) `prefix_of` canonical plan m -> forallb answered t = true -> explains c e ->
  ordered plan (t ++ [c]) (Err e).
Proof.
  intros Hm Hs Ha He. exists m. split_and!; [done..|].
  assert (Hc := explains_not_cancelled _ _ He). destruct e; first [by destruct (Hc _ eq_refl)|exists t, c; split_and!; done].
Qed.

Lemma orchestrate_ordered (request : LifecycleRequest) :
  emits (orchestrate is_cancelled request) (ordered (rq_plan request)).
Proof.
  unfold orchestrate, check_cancelled. set (plan := rq_plan request). set (m0 := mkMutation false false).
  trace.
  - exists m0. split_and!; [set_solver|by eexists|done].
  - exists x0. split_and!; [set_solver|by eexists|done].
  - eapply emits_handle; [apply foreground_result|..].
    + intros t y (pre & post & Hf & -> & ->). rewrite app_nil_r in Hf. subst pre.
      eapply emits_impl; [apply closing_ordered|]. done.
    + intros t e (pre & post & Hf & He). trace. rewrite app_nil_r.
      assert (Hprefix : forall k, k `prefix_of` post ->
        List.map Step_Stage (pre ++ k) `prefix_of` drop 4 (canonical plan x0)).
      { intros k [k' ->]. unfold canonical. cbn [drop app]. rewrite Hf, (app_assoc pre), drop_0, (map_app _ (pre ++ k)).
        eexists. by rewrite <- app_assoc. }
      apply (ordered_intro plan x0).
      * destruct e; try done; [subst t; apply stages_not_mutate|].
        destruct He as (s & rest & _ & _ & ->). apply Forall_app. split; [apply stages_not_mutate|apply Forall_singleton; by intros a].
      * destruct e; try done; [subst t|destruct He as (s & rest & -> & _ & ->)].
        -- rewrite stages_steps, <- (app_nil_r pre). apply Hprefix, prefix_nil.
        -- rewrite map_app, stages_steps. specialize (Hprefix [s]). rewrite map_app in Hprefix.
           apply Hprefix. by exists rest.
      * destruct e; try done; [subst t; apply stages_answered|].
        destruct He as (s & rest & -> & -> & ->). exists (stage_calls pre). eexists.
        split_and!; [done|apply stages_answered|done].
  - apply (early_fail plan [_; _; _] _ _ x0); [set_solver|by eexists|done|done].
  - apply (early_fail plan [_; _] _ _ x0); [set_solver|by eexists|done|done].
  - apply (early_fail plan [_] _ _ m0); [set_solver|by eexists|done|done].
  - apply (early_fail plan [] _ _ m0); [set_solver|by eexists|done|done].
Qed.

(** Every call but the last succeeded. *)
Lemma ordered_answered plan t r pre c c' rest :
  ordered plan t r -> t = pre ++ c :: c' :: rest -> answered c = true.
Proof.
  intros (m & _ & _ & Hr) ->.
  assert (Hall : forall l, forallb answered (pre ++ c :: l) = true -> answered c = true).
  { intros l Hl. rewrite forallb_app in Hl. cbn in Hl. prop_of_bool. done. }
  assert (Hlast : (exists l x, pre ++ c :: c' :: rest = l ++ [x] /\ forallb answered l = true) -> answered c = true).
  { intros (l & x & Hl & Ha). destruct (exists_last (l := c' :: rest)) as (k & y & Hk); [done|].
    rewrite Hk in Hl. change (c :: k ++ [y]) with ((c :: k) ++ [y]) in Hl. rewrite app_assoc in Hl.
    apply app_inj_tail in Hl as [<- _]. eauto. }
  destruct r as [ready|e]; [destruct Hr as (_ & Ha & _); eauto|].
  destruct e; first [by eapply Hall|destruct Hr as (l & x & ? & ? & _); eauto].
Qed.

(** A stage runs only after the mutation that makes it applicable, up to readiness. *)
Lemma ordered_stage plan t r p answer :
  ordered plan t r -> On_Stage p answer ∈ t ->
  exists m, On_Mutate (Ok m) ∈ t /\ p ∈ foreground plan m.
Proof.
  intros Ho Hp. pose proof Ho as (m & Hm & Hs & _). exists m.
  assert (Hstep : Step_Stage p ∈ List.map step t) by (apply list_elem_of_fmap; by exists (On_Stage p answer)).
  assert (Hin : Step_Stage p ∈ canonical plan m) by (eapply elem_of_prefix; done).
  destruct t as [|c0 [|c1 [|c2 rest]]]; [by apply not_elem_of_nil in Hp|..];
    destruct Hs as [k Hs]; unfold canonical in Hs; cbn in Hs; [by set_solver|by set_solver|].
  injection Hs as H0 H1 H2 Hs. destruct c1; try done.
  assert (Ha := ordered_answered plan _ _ [c0] _ c2 rest Ho eq_refl). destruct answer0 as [m'|]; [|done].
  rewrite (Hm m') by set_solver. split; [set_solver|].
  unfold canonical, closing_steps in Hin. cbn in Hin.
  repeat (apply elem_of_cons in Hin as [?|Hin]; [done|]).
  apply elem_of_app in Hin as [Hin|Hin].
  - apply list_elem_of_fmap in Hin as (q & [= ->] & Hq). done.
  - destruct (later plan m); set_solver.
Qed.

(** What the class of an error says of the one-time stages of the run. *)
Definition classified (t : list call) (e : error) : Prop :=
  match retry_classification e with
  | SafeRetry => forall p answer, On_Stage p answer ∈ t -> is_one_time (plan_stage p) = true ->
      answer = Ok tt \/ exists source, answer = Err (BeforeStart source)
  | IndeterminateOneTime =>
      (exists p source, On_Stage p (Err (Indeterminate source)) ∈ t /\ is_one_time (plan_stage p) = true) \/
      (exists stages, On_Runner stages (Ok Runner_Indeterminate) ∈ t)
  | _ => True
  end.

Lemma answered_stage pre p answer :
  forallb answered pre = true -> On_Stage p answer ∈ pre -> answer = Ok tt.
Proof.
  intros Ha Hin. rewrite forallb_Forall, Forall_forall in Ha. specialize (Ha _ Hin).
  by destruct answer as [[]|].
Qed.

Lemma ordered_classified plan t e : ordered plan t (Err e) -> classified t e.
Proof.
  intros (m & _ & _ & Hr). unfold classified.
  destruct (retry_classification e) eqn:Hc; [|done|done|].
  - intros p answer Hin Hone. destruct e; try done; cbn in Hc; repeat case_match; try done;
      try (destruct Hr as (pre & c & -> & Ha & He);
           apply elem_of_app in Hin as [Hin|Hin%list_elem_of_singleton]; [left; by eapply answered_stage|subst c];
           cbn in He; repeat case_match; try done; destruct He; subst; eauto).
    left. by eapply answered_stage.
  - destruct e; try done; cbn in Hc; repeat case_match; try done;
      destruct Hr as (pre & c & -> & Ha & He); destruct c; cbn in He; repeat case_match; try done;
      destruct He; subst.
    + left. eexists _, _. split; [apply elem_of_app; right; by apply list_elem_of_singleton|done].
    + right. eexists. apply elem_of_app. right. by apply list_elem_of_singleton.
Qed.

(** The stage [s] is due after the mutation [m]. *)
Definition due (m : LifecycleMutationOutcome) (s : LifecycleStage) : Prop :=
  match trigger s with
  | NewGeneration => new_generation m = true
  | SuccessfulStart => actual_start m = true
  | _ => False
  end.

Lemma applicable_due plan m p : p ∈ applicable_stages plan m -> exists s, p = stage plan s /\ due m s.
Proof.
  unfold applicable_stages. destruct (new_generation m) eqn:Hn, (actual_start m) eqn:Ha; cbn; intros Hin;
    repeat (apply elem_of_cons in Hin as [->|Hin]; [
      first [by exists OnCreate|by exists UpdateContent|by exists PostCreate|by exists PostStart]|]);
    by apply not_elem_of_nil in Hin.
Qed.

(** C20: the orchestration of a lifecycle runs the stages that apply, in order, and reports honestly.
    Whatever its adapters answer and whenever it is cancelled, it goes through host
    initialization, mutation, provisioning, capture, the applicable stages up to readiness,
    recapture, forwarding and, when stages are left, one start of the background runner with
    exactly those stages; it stops at the first call that fails, which its error names, or at a
    cancellation, after calls that all succeeded.  A one-time stage runs only for a new
    generation, [postStartCommand] only after an actual start, and never a stage beyond
    readiness.  An error classified as safe to retry leaves no one-time stage failed or unknown
    (each ran to success or never started); one classified as indeterminate comes from a one-time
    stage, or a background runner, of unknown outcome. *)
Theorem lifecycle_run_ordered (request : LifecycleRequest) :
  (forall s, plan_stage (stage (rq_plan request) s) = s) ->
  emits (orchestrate is_cancelled request) (fun t r =>
    ordered (rq_plan request) t r
    /\ (forall p answer, On_Stage p answer ∈ t ->
          exists s m, p = stage (rq_plan request) s /\ On_Mutate (Ok m) ∈ t
            /\ stage_index s <= stage_index (readiness (rq_plan request))
            /\ due m s)
    /\ match r with Ok _ => True | Err e => classified t e end).
Proof.
  intros Hplan. eapply emits_impl; [apply orchestrate_ordered|]. intros t r Ho. split_and!; [done| |].
  - intros p answer Hp. destruct (ordered_stage _ _ _ _ _ Ho Hp) as (m & Hm & Hf).
    unfold foreground in Hf. apply list_elem_of_In, filter_In in Hf as [Hin Hle]. prop_of_bool.
    apply list_elem_of_In, applicable_due in Hin as (s & -> & Hd). exists s, m. rewrite Hplan in Hle. by split_and!.
  - destruct r; [done|]. by eapply ordered_classified.
Qed.
End order.

(** ** Concrete runs *)

Section examples.
Let stage_of s := mkStagePlan s [].
Let request (wait : LifecycleStage) := mkLifecycleRequest
  (mkPlan (stage_of Initialize) (stage_of OnCreate) (stage_of UpdateContent) (stage_of PostCreate)
     (stage_of PostStart) (stage_of PostAttach) wait) [] Operation_Create Run_Image Input_Closed.

(** The adapters of a new generation, whose recapture answers the world. *)
#[local] Instance calm_host : HostLifecycle bool unit := fun _ _ _ a => (a, Ok tt).
#[local] Instance calm_mutation : LifecycleMutation bool unit := fun _ _ a => (a, Ok (mkMutation true true)).
#[local] Instance calm_runtime : ContainerLifecycle bool unit unit unit unit unit := {
  execute_stage _ a := (a, Ok tt);
  provision a := (a, Ok tt);
  capture_environment _ a := (a, Ok tt);
  recapture_environment _ _ a := (a, if a then Ok tt else Err tt);
  forwarding_ready _ a := (a, Ok tt);
  start_or_verify_runner _ a := (a, Ok Runner_Started);
}.

Lemma lifecycle_run_ordered_witness :
  let '(_, t, r) := orchestrate (fun _ => false) (request UpdateContent) true in
  ordered (rq_plan (request UpdateContent)) t r /\
  List.map step t =
    [Step_Initialize (stage_of Initialize); Step_Mutate; Step_Provision; Step_Capture;
     Step_Stage (stage_of OnCreate); Step_Stage (stage_of UpdateContent); Step_Recapture; Step_Forwarding;
     Step_Runner [stage_of PostCreate; stage_of PostStart]].
Proof.
  assert (H := lifecycle_run_ordered (fun _ : bool => false) (request UpdateContent)
    (ltac:(by intros []))  true).
  destruct (orchestrate _ _ true) as [[a t] r] eqn:E. destruct H as [H _]. split; [exact H|].
  vm_compute in E. injection E as <- <- <-. reflexivity.
Defined.

(** The documentation of [SafeRetry] says that no one-time command may have executed; a recapture
    that fails after the one-time stages is classified so as well. *)
Example safe_retry_after_one_time_stages :
  exists t e, orchestrate (fun _ => false) (request PostCreate) false = (false, t, Err e) /\
    retry_classification e = SafeRetry /\
    List.map (fun s => On_Stage (ME := unit) (RE := unit) s (Ok tt))
      [stage_of OnCreate; stage_of UpdateContent; stage_of PostCreate] `sublist_of` t.
Proof.
  eexists _, _. split; [vm_compute; reflexivity|]. split; [reflexivity|].
  do 4 apply sublist_cons. do 3 apply sublist_skip. apply sublist_nil_l.
Qed.
End examples.
