(* ===== verification/HostProcesses.v ===== *)
(** * HostProcesses: the host executor of [initializeCommand]
    ([cdenv-cli/src/lifecycle_orchestration.rs], from [HostLifecycleExecutor])

    The operating system is a class over its world: spawning, polling, signals, the clock (in
    milliseconds) and the cancellation token.  The two waiting loops carry a fuel; a run that
    uses it up ends in [Out_Of_Fuel], and [host_group_terminates] says how much is enough for an
    operating system on which sleeping takes time and processes end. *)

From S2P Require Import Prelude Text Effects Profile Metadata Substitution Lifecycle LifecycleRun.

(** @src cdenv-cli/src/lifecycle_orchestration.rs:22-22 PROCESS_POLL_INTERVAL *)
Definition PROCESS_POLL_INTERVAL : nat := 20.
(** @src cdenv-cli/src/lifecycle_orchestration.rs:23-23 PROCESS_TERMINATION_GRACE *)
Definition PROCESS_TERMINATION_GRACE : nat := 2000.

(** @src cdenv-cli/src/lifecycle_orchestration.rs:525-542 HostLifecycleError *)
Inductive HostLifecycleError (IoE : Type) : Type :=
| Host_Cancelled | Host_Process (source : IoE) | Host_Failed | Host_EmptyArguments.
Arguments Host_Cancelled {IoE}.
Arguments Host_Process {IoE} _.
Arguments Host_Failed {IoE}.
Arguments Host_EmptyArguments {IoE}.

Inductive HostStop (IoE : Type) : Type := Stopped (error : HostLifecycleError IoE) | Out_Of_Fuel.
Arguments Stopped {IoE} _.
Arguments Out_Of_Fuel {IoE}.

(** What [tokio::process::Command] is configured with. *)
Record HostCommand : Type := mkHostCommand {
  hc_program : str;
  hc_arguments : list str;
  hc_directory : str;
  hc_stdin_closed : bool;
}.

Inductive Signal : Type := SIGTERM | SIGKILL.

Class HostOs (A Ch IoE : Type) : Type := {
  os_spawn : HostCommand -> A -> A * result IoE Ch;
  os_try_wait : Ch -> A -> A * result IoE (option bool);
  os_wait : Ch -> A -> A * result IoE unit;
  os_signal : Ch -> Signal -> A -> A * result IoE unit;
  os_sleep : A -> A * result IoE unit;
  os_now : A -> nat;
  os_cancelled : A -> bool;
}.

Inductive HostCall (Ch IoE : Type) : Type :=
| On_Spawn (command : HostCommand) (answer : result IoE Ch)
| On_Poll (child : Ch) (answer : result IoE (option bool))
| On_Wait (child : Ch)
| On_Signal (child : Ch) (signal : Signal)
| On_Sleep.
Arguments On_Spawn {Ch IoE} _ _.
Arguments On_Poll {Ch IoE} _ _.
Arguments On_Wait {Ch IoE} _.
Arguments On_Signal {Ch IoE} _ _.
Arguments On_Sleep {Ch IoE}.

(** @src cdenv-cli/src/lifecycle_orchestration.rs:564-569 resolve_host *)
Definition resolve_host (value : DeferredString) : str := resolve value ∅.

(** The command of one process.
    @src cdenv-cli/src/lifecycle_orchestration.rs:602-625 spawn_host *)
Definition host_command {IoE} (process : LifecycleProcess) (checkout : str) (closed : bool) :
    result (HostLifecycleError IoE) HostCommand :=
  match process with
  | Process_Shell value =>
      Ok (mkHostCommand ($"/bin/sh") [$"-c"; resolve_host value] checkout closed)
  | Process_Exec [] => Err Host_EmptyArguments
  | Process_Exec (program :: arguments) =>
      Ok (mkHostCommand (resolve_host program) (List.map resolve_host arguments) checkout closed)
  end.

Section processes.
Context {A Ch IoE : Type} `{!HostOs A Ch IoE}.

Abbreviation host X := (act A (HostCall Ch IoE) (HostStop IoE) X) (only parsing).

Definition halt {X} (e : HostLifecycleError IoE) : host X := raise (Stopped e).

(** @src cdenv-cli/src/lifecycle_orchestration.rs:595-628 spawn_host *)
Definition spawn_host (process : LifecycleProcess) (checkout : str) (closed : bool) :
    act A (HostCall Ch IoE) (HostLifecycleError IoE) Ch :=
  match host_command process checkout closed with
  | Err e => raise e
  | Ok command => do? child := invoke (On_Spawn command) (os_spawn command) or Host_Process in done child
  end.

(** [child.try_wait().ok().flatten().is_some()] *)
Definition has_ended {X} (child : Ch) (k : bool -> host X) : host X :=
  do? status := invoke (On_Poll child) (os_try_wait child) else (fun _ => k false) in
  k (is_Some_b status).

Definition sleep {X} (k : host X) : host X :=
  do? _ := invoke (fun _ => On_Sleep) os_sleep else (fun _ => k) in k.

(** @src cdenv-cli/src/lifecycle_orchestration.rs:696-700 signal_host_group *)
Definition signal_host_group {X} (child : Ch) (signal : Signal) (k : host X) : host X :=
  do? _ := invoke (fun _ => On_Signal child signal) (os_signal child signal) else (fun _ => k) in k.

(** @src cdenv-cli/src/lifecycle_orchestration.rs:672-676 terminate_host_children *)
Fixpoint terminate_all {X} (children : list Ch) (k : host X) : host X :=
  match children with
  | [] => k
  | child :: rest =>
      has_ended child (fun ended : bool =>
        if ended then terminate_all rest k else signal_host_group child SIGTERM (terminate_all rest k))
  end.

(** @src cdenv-cli/src/lifecycle_orchestration.rs:679-682 terminate_host_children *)
Fixpoint all_ended {X} (children : list Ch) (complete : bool) (k : bool -> host X) : host X :=
  match children with
  | [] => k complete
  | child :: rest => has_ended child (fun ended => all_ended rest (complete && ended) k)
  end.

(** @src cdenv-cli/src/lifecycle_orchestration.rs:688-693 terminate_host_children *)
Fixpoint kill_all {X} (children : list Ch) (k : host X) : host X :=
  match children with
  | [] => k
  | child :: rest =>
      has_ended child (fun ended : bool =>
        if ended then kill_all rest k else
        signal_host_group child SIGKILL (
        do? _ := invoke (fun _ => On_Wait child) (os_wait child) else (fun _ => kill_all rest k) in
        kill_all rest k))
  end.

(** The loop until the deadline.
    @src cdenv-cli/src/lifecycle_orchestration.rs:677-694 terminate_host_children *)
Fixpoint until_deadline {X} (fuel : nat) (children : list Ch) (deadline : nat) (k : host X) : host X :=
  match fuel with
  | O => raise Out_Of_Fuel
  | S fuel' =>
      observe (fun a => Nat.ltb (os_now a) deadline) (fun before : bool =>
        if before then
          all_ended children true (fun complete : bool =>
            if complete then k else sleep (until_deadline fuel' children deadline k))
        else kill_all children k)
  end.

(** The grace is one hundred polls.
    @src cdenv-cli/src/lifecycle_orchestration.rs:671-694 terminate_host_children *)
Definition terminate_host_children {X} (children : list Ch) (k : host X) : host X :=
  terminate_all children (
  observe os_now (fun now =>
  until_deadline (S (PROCESS_TERMINATION_GRACE / PROCESS_POLL_INTERVAL)) children
    (now + PROCESS_TERMINATION_GRACE)%nat k)).

(** One round of polls; the statuses seen so far are kept, and a failed poll ends it.
    @src cdenv-cli/src/lifecycle_orchestration.rs:644-656 wait_host_children *)
Fixpoint poll_round (children : list (Ch * option bool)) :
    act A (HostCall Ch IoE) IoE (list (Ch * option bool)) :=
  match children with
  | [] => done []
  | (child, Some status) :: rest =>
      do? polled := poll_round rest else raise in done ((child, Some status) :: polled)
  | (child, None) :: rest =>
      do? status := invoke (On_Poll child) (os_try_wait child) else raise in
      do? polled := poll_round rest else raise in done ((child, status) :: polled)
  end.

(** @src cdenv-cli/src/lifecycle_orchestration.rs:634-669 wait_host_children *)
Fixpoint wait_host_children (fuel : nat) (children : list (Ch * option bool)) : host unit :=
  match fuel with
  | O => raise Out_Of_Fuel
  | S fuel' =>
      observe os_cancelled (fun cancelled : bool =>
        if cancelled then terminate_host_children children.*1 (halt Host_Cancelled) else
        do? polled := poll_round children
          else (fun source => terminate_host_children children.*1 (halt (Host_Process source))) in
        if existsb (fun '(_, status) => bool_decide (status = Some false)) polled
        then terminate_host_children polled.*1 (halt Host_Failed) else
        if forallb (fun '(_, status) => is_Some_b status) polled then done tt else
        sleep (wait_host_children fuel' polled))
  end.

(** @src cdenv-cli/src/lifecycle_orchestration.rs:583-593 run_host_group *)
Fixpoint spawn_all (processes : list LifecycleProcess) (checkout : str) (closed : bool) (children : list Ch)
    (k : list Ch -> host unit) : host unit :=
  match processes with
  | [] => k children
  | process :: rest =>
      do? child := spawn_host process checkout closed
        else (fun e => terminate_host_children children (halt e)) in
      spawn_all rest checkout closed (children ++ [child]) k
  end.

(** The processes of a group.
    @src cdenv-cli/src/lifecycle_orchestration.rs:577-580 run_host_group *)
Definition group_processes (group : LifecycleCommand) : list LifecycleProcess :=
  match group with Lifecycle_Process process => [process] | Lifecycle_Parallel processes => processes.*2 end.

(** @src cdenv-cli/src/lifecycle_orchestration.rs:571-593 run_host_group *)
Definition run_host_group (fuel : nat) (group : LifecycleCommand) (checkout : str) (input : LifecycleInput) :
    host unit :=
  let closed := stdin_is_closed group || match input with Input_Closed => true | Input_Inherit => false end in
  spawn_all (group_processes group) checkout closed [] (fun children =>
    wait_host_children fuel (List.map (fun child => (child, None)) children)).

(** @src cdenv-cli/src/lifecycle_orchestration.rs:547-561 HostLifecycleExecutor::initialize *)
Definition host_initialize (fuel : nat) (plan : LifecycleStagePlan) (checkout : str) (input : LifecycleInput) :
    host unit :=
  if negb (bool_decide (plan_stage plan = Initialize)) then halt Host_Failed else
  each (fun command => run_host_group fuel command checkout input) (plan_commands plan).
End processes.

(** ** Termination, and no process left behind *)

(** The clock does not run backwards, a sleep takes its time, and after [lifetime] a process has
    ended. *)
Class HostOsLaws (A Ch IoE : Type) `{!HostOs A Ch IoE} : Type := {
  lifetime : Ch -> nat;
  now_spawn command a : (os_now a <= os_now (os_spawn command a).1)%nat;
  now_poll child a : (os_now a <= os_now (os_try_wait child a).1)%nat;
  now_wait child a : (os_now a <= os_now (os_wait child a).1)%nat;
  now_signal child s a : (os_now a <= os_now (os_signal child s a).1)%nat;
  now_sleep a : (os_now a + PROCESS_POLL_INTERVAL <= os_now (os_sleep a).1)%nat;
  poll_ended child a : (lifetime child <= os_now a)%nat ->
    snd (os_try_wait child a) <> Ok None;
}.

Section reaping.
Context {A Ch IoE : Type} `{!HostOs A Ch IoE, !HostOsLaws A Ch IoE}.

Abbreviation call := (HostCall Ch IoE) (only parsing).
Implicit Types (t : list call) (cs : list Ch) (a : A).

(** [t'] continues [t] without spawning. *)
Definition is_spawn (c : call) : bool := match c with On_Spawn _ _ => true | _ => false end.
Definition extends t t' : Prop := exists k, t' = t ++ k /\ existsb is_spawn k = false.

#[local] Instance extends_preorder : PreOrder extends.
Proof.
  split.
  - intros t. exists []. by rewrite app_nil_r.
  - intros t1 t2 t3 (k & -> & Hk) (k' & -> & Hk'). exists (k ++ k'). rewrite app_assoc, existsb_app. by rewrite Hk, Hk'.
Qed.

Lemma extends_snoc t t' c : is_spawn c = false -> extends (t ++ [c]) t' -> extends t t'.
Proof. intros Hc H. etrans; [|exact H]. exists [c]. split; [done|]. cbn. by rewrite Hc. Qed.

(** Closes [extends t t'] from a hypothesis about [t] followed by a few calls. *)
Ltac grow n H := first [exact H|match n with S ?m => (eapply extends_snoc; [|grow m H]); reflexivity end].

Definition ended_answer (answer : result IoE (option bool)) : bool :=
  match answer with Ok (Some _) => true | _ => false end.

(** The three rounds over the children, each with the answers of its polls: the one that tells those
    that have not ended to end, one in which all have ended, and the one that kills the others and
    waits for them. *)
Abbreviation polls := (list (Ch * result IoE (option bool))).
Definition told_calls (poll : Ch * result IoE (option bool)) : list call :=
  On_Poll poll.1 poll.2 :: if ended_answer poll.2 then [] else [On_Signal poll.1 SIGTERM].
Definition killed_calls (poll : Ch * result IoE (option bool)) : list call :=
  On_Poll poll.1 poll.2 :: if ended_answer poll.2 then [] else [On_Signal poll.1 SIGKILL; On_Wait poll.1].
Definition told_round cs (l : list call) : Prop := exists answers : polls, answers.*1 = cs /\ l = concat (List.map told_calls answers).
Definition ended_round cs (l : list call) : Prop :=
  exists answers : polls, answers.*1 = cs /\ Forall (fun poll => ended_answer poll.2 = true) answers
    /\ l = List.map (fun poll => On_Poll poll.1 poll.2) answers.
Definition killed_round cs (l : list call) : Prop := exists answers : polls, answers.*1 = cs /\ l = concat (List.map killed_calls answers).

Definition is_wait (c : call) : bool := match c with On_Poll _ _ | On_Sleep => true | _ => false end.

(** [t'] continues [t] with the end of the children: they are told, polled for a while, and at the end
    all have ended or were killed. *)
Definition terminates cs t t' : Prop :=
  exists told waits last, t' = t ++ told ++ waits ++ last /\ told_round cs told /\ forallb is_wait waits = true
    /\ (ended_round cs last \/ killed_round cs last).

(** A process that was seen to have ended, or was told to end, then killed, and waited for. *)
Definition reaped t (child : Ch) : Prop :=
  (exists status, On_Poll child (Ok (Some status)) ∈ t)
  \/ exists t1 t2, t = t1 ++ [On_Signal child SIGKILL; On_Wait child] ++ t2 /\ On_Signal child SIGTERM ∈ t1.
Definition all_reaped t cs : Prop := Forall (reaped t) cs.

Lemma ended_answer_seen (poll : Ch * result IoE (option bool)) :
  ended_answer poll.2 = true -> exists status, On_Poll poll.1 poll.2 = On_Poll (IoE := IoE) poll.1 (Ok (Some status)).
Proof. destruct poll as [c [[s|]|]]; try done. by exists s. Qed.

Lemma terminates_reaped cs t t' : terminates cs t t' -> all_reaped t' cs.
Proof.
  intros (told & waits & last & -> & (answers & Ha & ->) & _ & Hlast). apply Forall_forall. intros c Hc.
  rewrite <- Ha in Hc. apply list_elem_of_fmap in Hc as (poll & -> & Hin). rewrite list_elem_of_In in Hin.
  apply in_split in Hin as (l1 & l2 & Hl). rewrite Hl, map_app, concat_app. cbn [List.map concat].
  destruct (ended_answer poll.2) eqn:He.
  { left. destruct (ended_answer_seen _ He) as [s Hs]. exists s. rewrite <- Hs. unfold told_calls at 2. set_solver. }
  assert (Hc : poll.1 ∈ cs) by (rewrite <- Ha, Hl, fmap_app; set_solver).
  destruct Hlast as [(answers' & Ha' & Hall & ->)|(answers' & Ha' & ->)]; rewrite <- Ha' in Hc;
    apply list_elem_of_fmap in Hc as (poll' & Hp & Hin).
  - left. rewrite Forall_forall in Hall. destruct (ended_answer_seen _ (Hall _ Hin)) as [s Hs]. exists s. rewrite Hp, <- Hs.
    rewrite !elem_of_app. do 3 right. apply list_elem_of_In, in_map_iff. exists poll'. split; [done|]. by apply list_elem_of_In.
  - rewrite list_elem_of_In in Hin. apply in_split in Hin as (k1 & k2 & ->). rewrite map_app, concat_app. cbn [List.map concat].
    destruct (ended_answer poll'.2) eqn:He'.
    + left. destruct (ended_answer_seen _ He') as [s Hs]. exists s. rewrite Hp, <- Hs. unfold killed_calls at 2. set_solver.
    + right. unfold killed_calls at 2. rewrite He', <- Hp.
      eexists (t ++ (concat (List.map told_calls l1) ++ told_calls poll ++ concat (List.map told_calls l2)) ++ waits
               ++ concat (List.map killed_calls k1) ++ [On_Poll poll.1 poll'.2]), _.
      split; [by rewrite <- !app_assoc|]. unfold told_calls at 2. rewrite He. set_solver.
Qed.

Lemma told_no_spawn answers : existsb is_spawn (concat (List.map told_calls answers)) = false.
Proof. induction answers as [|poll answers IH]; [done|]. cbn. rewrite existsb_app, IH. by destruct (ended_answer poll.2). Qed.
Lemma killed_no_spawn answers : existsb is_spawn (concat (List.map killed_calls answers)) = false.
Proof. induction answers as [|poll answers IH]; [done|]. cbn. rewrite existsb_app, IH. by destruct (ended_answer poll.2). Qed.
Lemma wait_no_spawn l : forallb is_wait l = true -> existsb is_spawn l = false.
Proof. induction l as [|c l IH]; [done|]. cbn. intros [Hc Hl]%andb_true_iff. rewrite IH by done. by destruct c. Qed.
Lemma ended_waits (answers : polls) : forallb is_wait (List.map (fun poll => On_Poll poll.1 poll.2) answers) = true.
Proof. by induction answers. Qed.

Lemma terminates_extends cs t t' : terminates cs t t' -> extends t t'.
Proof.
  intros (told & waits & last & -> & (answers & _ & ->) & Hw & Hlast). eexists. split; [done|].
  rewrite !existsb_app, told_no_spawn, (wait_no_spawn _ Hw). cbn.
  destruct Hlast as [(answers' & _ & _ & ->)|(answers' & _ & ->)]; [apply wait_no_spawn, ended_waits|apply killed_no_spawn].
Qed.

Section continuation.
Context {X : Type} (Q : A -> list call -> result (HostStop IoE) X -> Prop).

Lemma wp_has_ended child (k : bool -> act A call (HostStop IoE) X) t a :
  (forall a' answer, (os_now a <= os_now a')%nat ->
     wp (t ++ [On_Poll child answer]) (k (ended_answer answer)) Q a') ->
  wp t (has_ended child k) Q a.
Proof.
  intros H. apply wp_call. intros a' r Ef. assert (Hn := now_poll child a). rewrite Ef in Hn. cbn in Hn.
  specialize (H a' r Hn). by destruct r as [[s|]|].
Qed.

Lemma wp_sleep (k : act A call (HostStop IoE) X) t a :
  (forall a', (os_now a + PROCESS_POLL_INTERVAL <= os_now a')%nat -> wp (t ++ [On_Sleep]) k Q a') ->
  wp t (sleep k) Q a.
Proof. intros H. apply wp_ignore, H, now_sleep. Qed.

Lemma wp_signal child s (k : act A call (HostStop IoE) X) t a :
  (forall a', (os_now a <= os_now a')%nat -> wp (t ++ [On_Signal child s]) k Q a') ->
  wp t (signal_host_group child s k) Q a.
Proof. intros H. apply wp_ignore, H, now_signal. Qed.

Lemma wp_terminate_all cs (k : act A call (HostStop IoE) X) t a :
  (forall a' told, (os_now a <= os_now a')%nat -> told_round cs told -> wp (t ++ told) k Q a') ->
  wp t (terminate_all cs k) Q a.
Proof.
  revert t a. induction cs as [|c cs IH]; intros t a H; cbn [terminate_all].
  { specialize (H a []). rewrite app_nil_r in H. apply H; [done|]. by exists []. }
  apply wp_has_ended. intros a1 answer H1.
  assert (Hmore : forall a2, (os_now a <= os_now a2)%nat -> wp (t ++ told_calls (c, answer)) (terminate_all cs k) Q a2).
  { intros a2 H2. apply IH. intros a' told H' (answers & Ha & ->). rewrite <- app_assoc. apply H; [lia|].
    exists ((c, answer) :: answers). by rewrite <- Ha. }
  unfold told_calls in Hmore. cbn [fst snd] in Hmore. destruct (ended_answer answer); [by apply Hmore|].
  apply wp_signal. intros a2 H2. rewrite <- app_assoc. apply Hmore. lia.
Qed.

Lemma wp_all_ended cs b (k : bool -> act A call (HostStop IoE) X) t a :
  (forall a' (answers : polls), (os_now a <= os_now a')%nat -> answers.*1 = cs ->
     wp (t ++ List.map (fun poll => On_Poll poll.1 poll.2) answers) (k (b && forallb (fun poll => ended_answer poll.2) answers)) Q a') ->
  wp t (all_ended cs b k) Q a.
Proof.
  revert t a b. induction cs as [|c cs IH]; intros t a b H; cbn [all_ended].
  - specialize (H a []). rewrite app_nil_r, andb_true_r in H. by apply H.
  - apply wp_has_ended. intros a1 answer H1. apply IH. intros a' answers H' Ha. rewrite <- app_assoc, <- andb_assoc.
    apply (H a' ((c, answer) :: answers)); [lia|]. by rewrite <- Ha.
Qed.

Lemma wp_kill_all cs (k : act A call (HostStop IoE) X) t a :
  (forall a' last, killed_round cs last -> wp (t ++ last) k Q a') ->
  wp t (kill_all cs k) Q a.
Proof.
  revert t a. induction cs as [|c cs IH]; intros t a H; cbn [kill_all].
  { specialize (H a []). rewrite app_nil_r in H. apply H. by exists []. }
  apply wp_has_ended. intros a1 answer _.
  assert (Hmore : forall a2, wp (t ++ killed_calls (c, answer)) (kill_all cs k) Q a2).
  { intros a2. apply IH. intros a' last (answers & Ha & ->). rewrite <- app_assoc. apply H.
    exists ((c, answer) :: answers). by rewrite <- Ha. }
  unfold killed_calls in Hmore. cbn [fst snd] in Hmore. destruct (ended_answer answer); [by apply Hmore|].
  apply wp_signal. intros a2 _. apply wp_ignore. rewrite <- !app_assoc. apply Hmore.
Qed.

Lemma wp_until_deadline fuel cs deadline (k : act A call (HostStop IoE) X) t a :
  (deadline <= os_now a + PROCESS_POLL_INTERVAL * fuel)%nat ->
  (forall a' waits last, forallb is_wait waits = true -> ended_round cs last \/ killed_round cs last -> wp (t ++ waits ++ last) k Q a') ->
  wp t (until_deadline (S fuel) cs deadline k) Q a.
Proof.
  revert t a. induction fuel as [|fuel IH]; intros t a Hd H; cbn [until_deadline]; apply wp_observe;
    (destruct (Nat.ltb_spec (os_now a) deadline); [|apply wp_kill_all; intros a' last Hl; apply (H a' []); auto]).
  - lia.
  - apply wp_all_ended. intros a1 answers H1 Ha. cbn [andb]. destruct (forallb _ answers) eqn:Hall.
    + apply (H a1 []); [done|]. left. exists answers. split_and!; [done| |done]. by apply forallb_Forall.
    + apply wp_sleep. intros a2 H2. apply IH; [unfold PROCESS_POLL_INTERVAL in *; lia|].
      intros a' waits last Hw Hl. rewrite <- !app_assoc. rewrite (app_assoc [On_Sleep]), (app_assoc (List.map _ answers)). apply H; [|done].
      rewrite !forallb_app, ended_waits, Hw. done.
Qed.

Lemma wp_terminate_host_children cs (k : act A call (HostStop IoE) X) t a :
  (forall a' t', terminates cs t t' -> wp t' k Q a') ->
  wp t (terminate_host_children cs k) Q a.
Proof.
  intros H. apply wp_terminate_all. intros a1 told H1 Htold. apply wp_observe, wp_until_deadline.
  - unfold PROCESS_TERMINATION_GRACE, PROCESS_POLL_INTERVAL. cbn. lia.
  - intros a' waits last Hw Hl. apply H. rewrite <- app_assoc. exists told, waits, last. auto.
Qed.
End continuation.

(** The statuses kept between rounds were seen. *)
Definition witnessed t (children : list (Ch * option bool)) : Prop :=
  Forall (fun '(child, status) =>
    match status with Some s => On_Poll child (Ok (Some s)) ∈ t | None => True end) children.

Lemma witnessed_extends t t' children : extends t t' -> witnessed t children -> witnessed t' children.
Proof.
  intros (k & -> & _) H. eapply Forall_impl; [exact H|]. intros [c [s|]]; [|done].
  intros Hin. apply elem_of_app. by left.
Qed.

(** A round polls the same children; those whose lifetime is over have a status after it. *)
Lemma wp_poll_round children t a (Q : A -> list call -> result IoE (list (Ch * option bool)) -> Prop) :
  witnessed t children ->
  (forall a' t' r, (os_now a <= os_now a')%nat -> extends t t' ->
     (forall polled, r = Ok polled -> polled.*1 = children.*1 /\ witnessed t' polled /\
        Forall (fun '(child, status) => (lifetime child <= os_now a)%nat -> status <> None) polled) ->
     Q a' t' r) ->
  wp t (poll_round children) Q a.
Proof.
  revert t a Q. induction children as [|[c [s|]] children IH]; intros t a Q Hw H; cbn [poll_round].
  - apply wp_done, H; [done|done|]. intros polled [= <-]. by split_and!; constructor.
  - inversion_clear Hw as [|? ? Hc Hw']. apply wp_handle, IH; [done|]. intros a' t' [polled|e] Hn Hx Hp.
    + destruct (Hp _ eq_refl) as (Hf & Hwp & Hl). apply wp_done, H; [done|done|]. intros ? [= <-]. cbn. rewrite Hf.
      split_and!; [done| |by constructor]. constructor; [|done]. destruct Hx as (k & -> & _). apply elem_of_app. by left.
    + by apply wp_raise, H.
  - inversion_clear Hw as [|? ? _ Hw']. apply wp_call. intros a1 r Er.
    assert (Hn1 := now_poll c a). rewrite Er in Hn1. cbn in Hn1.
    assert (Hl1 := poll_ended c a). rewrite Er in Hl1. cbn in Hl1.
    assert (Hx1 : extends t (t ++ [On_Poll c r])) by (by exists [On_Poll c r]).
    destruct r as [status|e]; [|by apply wp_raise, H].
    apply wp_handle, IH; [by eapply witnessed_extends|]. intros a' t' [polled|e] Hn Hx Hp.
    + destruct (Hp _ eq_refl) as (Hf & Hwp & Hl). apply wp_done, H; [lia|by etrans|]. intros ? [= <-]. cbn. rewrite Hf.
      split_and!; [done|constructor; [|done]|constructor].
      * destruct status as [s|]; [|done]. destruct Hx as (k & -> & _). set_solver.
      * intros Hlt ->. by apply Hl1.
      * eapply Forall_impl; [exact Hl|]. intros [c' s'] Hc' Hlt. apply Hc'. lia.
    + apply wp_raise, H; [lia|by etrans|done].
Qed.

(** What a group leaves: it ends, a success means that every process ended successfully, and after a
    failure the processes were terminated. *)
Definition group_result t cs t' (r : result (HostStop IoE) unit) : Prop :=
  r <> Err Out_Of_Fuel /\ extends t t' /\
  match r with
  | Ok _ => Forall (fun child => On_Poll child (Ok (Some true)) ∈ t') cs
  | Err _ => exists t1, terminates cs t1 t'
  end.

Lemma wp_terminated cs t0 t e a :
  extends t0 t -> e <> Out_Of_Fuel ->
  wp t (terminate_host_children cs (raise e)) (fun _ t' r => group_result t0 cs t' r) a.
Proof.
  intros Hx He. apply wp_terminate_host_children. intros a' t' Ht. apply wp_raise.
  split_and!; [congruence|etrans; [exact Hx|by eapply terminates_extends]|eauto].
Qed.

Lemma complete_success t (polled : list (Ch * option bool)) :
  witnessed t polled ->
  existsb (fun '(_, status) => bool_decide (status = Some false)) polled = false ->
  forallb (fun '(_, status) => is_Some_b status) polled = true ->
  Forall (fun child => On_Poll child (Ok (Some true)) ∈ t) polled.*1.
Proof.
  induction 1 as [|[c [[]|]] polled Hc _ IH]; cbn; intros Hf Hs; try done; constructor; auto.
Qed.

Lemma wp_wait_host_children fuel children horizon t a :
  Forall (fun child => (lifetime child <= horizon)%nat) children.*1 ->
  (horizon <= os_now a + PROCESS_POLL_INTERVAL * fuel)%nat -> witnessed t children ->
  wp t (wait_host_children (S fuel) children) (fun _ t' r => group_result t children.*1 t' r) a.
Proof.
  revert children t a. induction fuel as [|fuel IH]; intros children t a Hl Hh Hw; cbn [wait_host_children];
    apply wp_observe; (destruct (os_cancelled a); [by apply wp_terminated|]);
    apply wp_handle, wp_poll_round; try done; intros a1 t1 [polled|source] Hn Hx Hp;
    try (by apply wp_terminated).
  all: destruct (Hp _ eq_refl) as (Hf & Hwp & Hend); rewrite <- Hf in *;
    destruct (existsb _ polled) eqn:Hfail; [by apply wp_terminated|];
    destruct (forallb _ polled) eqn:Hdone;
    [apply wp_done; pose proof (complete_success _ _ Hwp Hfail Hdone); split_and!; auto|].
  - exfalso. apply forallb_false_iff, Exists_exists in Hdone as ([c s] & Hin & Hs).
    rewrite Forall_forall in Hend. specialize (Hend _ Hin). cbn in Hend. destruct s as [|]; [done|].
    apply Hend; [|done]. rewrite Forall_forall in Hl. assert (Hc : c ∈ polled.*1)
      by (apply list_elem_of_fmap; by exists (c, None)). specialize (Hl _ Hc). lia.
  - apply wp_sleep. intros a2 Hn2. eapply wp_impl.
    + apply (IH polled); [done|unfold PROCESS_POLL_INTERVAL in *; lia|].
      eapply witnessed_extends; [|exact Hwp]. by exists [On_Sleep].
    + intros a' t' r (H1 & H3 & H4). split_and!; [done| |done].
      etrans; [exact Hx|]. grow 1%nat H3.
Qed.

(** The commands a group spawns, in order. *)
Definition group_commands (group : LifecycleCommand) (checkout : str) (input : LifecycleInput) :
    list (result (HostLifecycleError IoE) HostCommand) :=
  List.map (fun process => host_command process checkout
    (stdin_is_closed group || match input with Input_Closed => true | Input_Inherit => false end))
    (group_processes group).

Definition spawned t : list (HostCommand * Ch) :=
  omap (fun c => match c with On_Spawn command (Ok child) => Some (command, child) | _ => None end) t.

Lemma spawned_extends t t' : extends t t' -> spawned t' = spawned t.
Proof.
  intros (k & -> & Hk). unfold spawned. rewrite omap_app.
  enough (omap (fun c : call => match c with On_Spawn command (Ok child) => Some (command, child) | _ => None end) k = [])
    as -> by apply app_nil_r.
  induction k as [|c k IH]; [done|]. cbn in *. prop_of_bool. rewrite IH by done. by destruct c.
Qed.

(** The result of a group whose processes are still to be spawned. *)
Definition group_spec (processes : list LifecycleProcess) (checkout : str) (closed : bool) t t'
    (r : result (HostStop IoE) unit) : Prop :=
  r <> Err Out_Of_Fuel /\
  exists later, spawned t' = spawned t ++ later /\
    match r with
    | Ok _ =>
        List.map (fun process => host_command process checkout closed) processes
          = List.map (fun p => Ok (E := HostLifecycleError IoE) p.1) later /\
        Forall (fun child => On_Poll child (Ok (Some true)) ∈ t') (spawned t').*2
    | Err _ => exists before, terminates (spawned t').*2 before t'
    end.

Lemma wp_spawn_failed processes checkout closed t e a :
  wp t (terminate_host_children (spawned t).*2 (halt e))
    (fun _ t' r => group_spec processes checkout closed t t' r) a.
Proof.
  apply wp_terminate_host_children. intros a' t' Ht. apply wp_raise.
  unfold group_spec. rewrite (spawned_extends _ _ (terminates_extends _ _ _ Ht)). split; [done|]. exists []. rewrite app_nil_r. eauto.
Qed.

Lemma wp_spawn_all processes checkout closed horizon fuel t a :
  (forall child, (lifetime child <= horizon)%nat) -> (horizon <= PROCESS_POLL_INTERVAL * fuel)%nat ->
  wp t (spawn_all processes checkout closed (spawned t).*2 (fun children =>
      wait_host_children (S fuel) (List.map (fun child => (child, None)) children)))
    (fun _ t' r => group_spec processes checkout closed t t' r) a.
Proof.
  intros Hl Hh. revert t a. induction processes as [|process processes IH]; intros t a; cbn [spawn_all].
  - eapply wp_impl.
    + apply (wp_wait_host_children _ _ horizon); [by apply Forall_forall|lia|]. apply Forall_forall.
      intros [c s] Hin. apply list_elem_of_In, in_map_iff in Hin as (? & [= <- <-] & _). done.
    + intros a' t' r (H1 & H3 & H4). unfold group_spec.
      assert (Hc : (List.map (fun child : Ch => (child, @None bool)) (spawned t).*2).*1 = (spawned t).*2).
      { generalize (spawned t).*2. clear. intros cs. induction cs; cbn; by f_equal. }
      rewrite Hc in *. rewrite (spawned_extends _ _ H3). split; [done|]. exists []. rewrite app_nil_r.
      split; [done|]. destruct r as [[]|e]; [by split|done].
  - unfold spawn_host. destruct (host_command process checkout closed) as [command|e] eqn:Hc.
    2:{ apply wp_handle, wp_raise. apply wp_spawn_failed. }
    apply wp_handle, wp_call. intros a1 [child|e] _.
    + apply wp_done. set (t1 := t ++ [On_Spawn command (Ok child)]).
      assert (Hs : spawned t1 = spawned t ++ [(command, child)]) by (unfold t1, spawned; by rewrite omap_app).
      replace ((spawned t).*2 ++ [child]) with (spawned t1).*2 by (by rewrite Hs, fmap_app).
      eapply wp_impl; [apply IH|]. intros a' t' r (H1 & later & H3 & H4). split; [done|].
      exists ((command, child) :: later). rewrite H3, Hs, <- app_assoc in *. split; [done|]. destruct r as [[]|e]; [|done].
      destruct H4 as [Hm Hf]. split; [cbn; by rewrite Hc, Hm|done].
    + apply wp_raise. set (t1 := t ++ [On_Spawn command (Err e)]).
      assert (Hs : spawned t1 = spawned t) by (unfold t1, spawned; rewrite omap_app; apply app_nil_r).
      rewrite <- Hs. eapply wp_impl; [apply wp_spawn_failed|]. unfold group_spec. by rewrite Hs.
Qed.

(** C21: a group of host processes always ends and leaves no process behind.  On an operating system
    whose clock advances and whose processes end within [horizon] milliseconds, with a poll for
    every twenty of them, the group returns whatever the processes, the polls and the cancellation
    do.  A success means that the commands of the group were all spawned, in order, and that every
    process ended successfully.  A failure ends with the termination of every process that was
    spawned: each is polled and sent SIGTERM unless it has ended; then, after polls and sleeps only,
    either a whole round finds all of them ended, or each is polled once more and killed and waited
    for unless it has ended.  So every process was seen to end, or was sent SIGTERM, then SIGKILL,
    and waited for. *)
Theorem host_group_terminates horizon fuel group checkout input a :
  (forall child : Ch, (lifetime child <= horizon)%nat) -> (horizon <= PROCESS_POLL_INTERVAL * fuel)%nat ->
  let '(_, t, r) := run_host_group (S fuel) group checkout input a in
  r <> Err Out_Of_Fuel /\
  match r with
  | Ok _ => group_commands group checkout input = List.map (fun p => Ok p.1) (spawned t) /\
      Forall (fun child => On_Poll child (Ok (Some true)) ∈ t) (spawned t).*2
  | Err _ => (exists before, terminates (spawned t).*2 before t) /\ all_reaped t (spawned t).*2
  end.
Proof.
  intros Hl Hh. assert (H := wp_spawn_all (group_processes group) checkout
    (stdin_is_closed group || match input with Input_Closed => true | Input_Inherit => false end)
    horizon fuel [] a Hl Hh).
  unfold wp in H. change (spawned []) with (@nil (HostCommand * Ch)) in H. cbn [fmap list_fmap] in H.
  unfold run_host_group. destruct (spawn_all _ _ _ _ _ a) as [[a' t] r].
  destruct H as (H1 & later & H3 & H4). cbn in H3. subst later. split; [done|]. destruct r as [[]|e]; [done|].
  split; [done|]. destruct H4 as [before Ht]. by eapply terminates_reaped.
Qed.
End reaping.

(** ** A clock with two kinds of processes *)

(** The world is the clock; a process is its status, a success takes longer. *)
Definition ends_at (success : bool) : nat := if success then 50 else 10.

#[export] Instance clock_os : HostOs nat bool unit := {
  os_spawn command now := (now, Ok (bool_decide (hc_program command = $"/bin/sh")));
  os_try_wait child now := (now, Ok (if Nat.leb (ends_at child) now then Some child else None));
  os_wait child now := (Nat.max now (ends_at child), Ok tt);
  os_signal _ _ now := (now, Ok tt);
  os_sleep now := ((now + PROCESS_POLL_INTERVAL)%nat, Ok tt);
  os_now now := now;
  os_cancelled _ := false;
}.

#[export] Instance clock_laws : HostOsLaws nat bool unit.
Proof.
  refine {| lifetime := ends_at |}; cbn; intros; try lia. destruct (Nat.leb_spec (ends_at child) a); [done|lia].
Defined.

Definition literal (text : str) : DeferredString := mkDeferred [Segment_Literal text].
Definition sample_group : LifecycleCommand :=
  Lifecycle_Parallel [($"a", Process_Shell (literal ($"make"))); ($"b", Process_Exec [literal ($"false")])].

(** The failure of [b] ends the group while [a] runs: [a] is terminated and seen to end. *)
Lemma host_group_terminates_witness :
  let '(_, t, r) := run_host_group 4 sample_group ($"/w") Input_Inherit 0%nat in
  all_reaped t (spawned t).*2 /\ r = Err (Stopped Host_Failed) /\ length (spawned t) = 2%nat
  /\ On_Signal true SIGTERM ∈ t.
Proof.
  assert (H := host_group_terminates (A := nat) (Ch := bool) (IoE := unit) 50 3 sample_group ($"/w") Input_Inherit 0%nat
    ltac:(intros child; destruct child; cbn; lia) ltac:(cbn; lia)).
  destruct (run_host_group 4 _ _ _ 0%nat) as [[a t] r] eqn:E. vm_compute in E. injection E as <- <- <-.
  destruct H as (_ & _ & Hr). split; [exact Hr|]. split_and!; [reflexivity|reflexivity|].
  set_solver.
Defined.
