(* ===== verification/FeatureReference.v ===== *)
(** * FeatureReference: Feature references and content identities
    ([cdenv-devcontainer/src/feature/reference.rs], errors of [feature.rs])

    [Url::parse], [Url::set_host] and [Url::to_string] belong to the [url] crate: the
    parameter [Url_parse] returns the components the source reads and, as a function of
    the host, the text of the URL after [set_host]. *)

From S2P Require Import Prelude Text Net.

(** ** References and identities *)

(** @src cdenv-devcontainer/src/feature/reference.rs:12-19 FeatureReference *)
Inductive FeatureReference : Type :=
| Ref_Oci (value : str) | Ref_Https (value : str) | Ref_Local (value : str).

(** @src cdenv-devcontainer/src/feature/reference.rs:249-256 FeatureInstallIdentity *)
Inductive FeatureInstallIdentity : Type :=
| OciDigest (value : str) | HttpsIntegrity (value : str) | LocalSource (value : str).

#[export] Instance FeatureReference_eq_dec : EqDecision FeatureReference.
Proof. solve_decision. Defined.
#[export] Instance FeatureInstallIdentity_eq_dec : EqDecision FeatureInstallIdentity.
Proof. solve_decision. Defined.

Definition reference_code (r : FeatureReference) : N * list N :=
  match r with Ref_Oci v => (0, v) | Ref_Https v => (1, v) | Ref_Local v => (2, v) end.
Definition reference_decode (p : N * list N) : FeatureReference :=
  match p with (0, v) => Ref_Oci v | (1, v) => Ref_Https v | (_, v) => Ref_Local v end.
#[export] Instance FeatureReference_countable : Countable FeatureReference.
Proof. apply (inj_countable' reference_code reference_decode). by intros []. Defined.

(** The derived order of identities: variant, then text. *)
Definition identity_code (i : FeatureInstallIdentity) : N * list N :=
  match i with OciDigest v => (0, v) | HttpsIntegrity v => (1, v) | LocalSource v => (2, v) end.
Definition identity_decode (p : N * list N) : FeatureInstallIdentity :=
  match p with (0, v) => OciDigest v | (1, v) => HttpsIntegrity v | (_, v) => LocalSource v end.
#[export] Instance FeatureInstallIdentity_countable : Countable FeatureInstallIdentity.
Proof. apply (inj_countable' identity_code identity_decode). by intros []. Defined.

(** [FeatureError::UnsupportedReference] *)
Record UnsupportedReference : Type := mkUnsupported {
  unsupported_reference : str;
  unsupported_reason : str;
}.

(** @src cdenv-devcontainer/src/feature/reference.rs:46-50 FeatureReference::as_str *)
Definition reference_as_str (r : FeatureReference) : str :=
  match r with Ref_Oci v | Ref_Https v | Ref_Local v => v end.

(** The text before an [@], cut at the first [:] of its last path component.  The values it
    is called with are normalized references, which contain a slash; on other ASCII text
    [rfind] is [0] and the search for [:] starts at the second byte.
    @src cdenv-devcontainer/src/feature/reference.rs:237-245 oci_resource_name *)
Definition oci_resource_name (value : str) : str :=
  let without_digest := first_piece 64 value in
  match rsplit_once 47 without_digest with
  | Some (before, last) =>
      match split_once ($":") last with
      | Some (name, _) => before ++ 47 :: name
      | None => without_digest
      end
  | None =>
      match without_digest with
      | [] => []
      | c :: rest =>
          match split_once ($":") rest with
          | Some (name, _) => c :: name
          | None => without_digest
          end
      end
  end.

(** @src cdenv-devcontainer/src/feature/reference.rs:52-57 FeatureReference::resource_name *)
Definition resource_name (r : FeatureReference) : str :=
  match r with Ref_Oci v => oci_resource_name v | Ref_Https v | Ref_Local v => v end.

(** @src cdenv-devcontainer/src/feature/reference.rs:59-66 FeatureReference::selector *)
Definition selector (r : FeatureReference) : str :=
  match r with
  | Ref_Oci v => default [] (strip_prefix (oci_resource_name v) v)
  | Ref_Https _ | Ref_Local _ => []
  end.

(** ** Validation *)

(** @src cdenv-devcontainer/src/feature/reference.rs:223-235 validate_sha256 *)
Definition validate_sha256 (value : str) : result str unit :=
  match strip_prefix ($"sha256:") value with
  | None => Err ($"digest must use SHA-256")
  | Some hex =>
      fail_if negb (str_len hex =? 64)
              || negb (forallb (fun b => is_ascii_digit b || in_range 97 102 b) hex)
        with $"digest must contain 64 lowercase hexadecimal characters" in
      Ok tt
  end.

(** [lowercase.parse::<IpAddr>()] and its class.
    @src cdenv-devcontainer/src/feature/reference.rs:199-206 reject_private_host *)
Definition private_ip (lowercase : str) : bool :=
  match IpAddr_parse lowercase with
  | Some (IpAddr_V4 v) => ipv4_is_private v || ipv4_is_loopback v || ipv4_is_link_local v
  | Some (IpAddr_V6 v) =>
      ipv6_is_loopback v || ipv6_is_unique_local v || ipv6_is_unicast_link_local v
  | None => false
  end.

(** @src cdenv-devcontainer/src/feature/reference.rs:195-198 reject_private_host *)
Definition private_name (lowercase : str) : bool :=
  str_eqb lowercase ($"localhost") || ends_with ($".localhost") lowercase
  || is_Some_b (strip_suffix ($".local") lowercase) || negb (contains_char 46 lowercase).

(** @src cdenv-devcontainer/src/feature/reference.rs:193-214 reject_private_host *)
Definition reject_private_host (reference host : str) : result UnsupportedReference unit :=
  let lowercase := lower_str host in
  fail_if private_name lowercase || private_ip lowercase
    with mkUnsupported reference ($"private or local Feature endpoints are unsupported") in
  Ok tt.

(** ** Normalization *)

(** One component of a local path; [None] in the success case is a skipped one.
    @src cdenv-devcontainer/src/feature/reference.rs:77-94 normalize_local *)
Definition local_part (input part : str) : result UnsupportedReference (option str) :=
  if str_eqb part [] || str_eqb part ($".") then Ok None
  else if str_eqb part ($"..") then
    Err (mkUnsupported input ($"local Feature escapes its configuration directory"))
  else if contains_char 0 part || contains_char 92 part then
    Err (mkUnsupported input ($"local Feature path contains an unsupported component"))
  else Ok (Some part).

(** @src cdenv-devcontainer/src/feature/reference.rs:75-102 normalize_local *)
Definition normalize_local (input : str) : result UnsupportedReference str :=
  let? parts := try_map (local_part input) (split 47 (drop 2 input)) in
  let parts := omap id parts in
  fail_if bool_decide (parts = [])
    with mkUnsupported input ($"local Feature path must name a directory") in
  Ok ($"./" ++ join ($"/") parts).

(** A byte of an OCI repository component; bytes of multi-byte characters are rejected.
    @src cdenv-devcontainer/src/feature/reference.rs:167-171 normalize_oci *)
Definition oci_char (b : char) : bool :=
  is_ascii_lowercase b || is_ascii_digit b || (b =? 46) || (b =? 95) || (b =? 45).

(** @src cdenv-devcontainer/src/feature/reference.rs:124-191 normalize_oci *)
Definition normalize_oci (input : str) : result UnsupportedReference str :=
  let unsupported := mkUnsupported input in
  fail_if bool_decide (input = []) || existsb is_whitespace input
    with unsupported ($"OCI Feature reference is empty or contains whitespace") in
  fail_if contains_char 64 input && negb (contains_str ($"@sha256:") input)
    with unsupported ($"OCI credentials and non-SHA-256 digests are unsupported") in
  let '(name_and_tag, digest) :=
    match split_once ($"@") input with
    | Some (name, digest) => (name, Some digest)
    | None => (input, None)
    end in
  let? _ := match digest with
            | Some digest => map_err unsupported (validate_sha256 digest)
            | None => Ok tt
            end in
  let? (registry, repository_and_tag) :=
    ok_or (unsupported ($"OCI Feature reference must be fully qualified"))
      (split_once ($"/") name_and_tag) in
  let? _ := reject_private_host input (first_piece 58 registry) in
  fail_if negb (contains_char 46 registry || contains_char 58 registry)
    with unsupported ($"OCI Feature reference must include a registry host") in
  let last := last_piece 47 repository_and_tag in
  let has_tag := contains_char 58 last in
  let repository :=
    if has_tag then
      match rsplit_once 58 repository_and_tag with
      | Some (name, _) => name
      | None => repository_and_tag
      end
    else repository_and_tag in
  fail_if bool_decide (repository = [])
          || existsb (fun part => bool_decide (part = []) || negb (forallb oci_char part))
               (split 47 repository)
    with unsupported ($"OCI repository must be lowercase and fully qualified") in
  fail_if has_tag && match rsplit_once 58 last with
                     | Some (_, tag) => bool_decide (tag = [])
                     | None => false
                     end
    with unsupported ($"OCI Feature tag cannot be empty") in
  let normalized := lower_str registry ++ $"/" ++ repository_and_tag in
  let normalized :=
    if negb (is_Some_b digest) && negb has_tag then normalized ++ $":latest" else normalized in
  let normalized :=
    match digest with Some digest => normalized ++ $"@" ++ digest | None => normalized end in
  Ok normalized.

(** What the source reads of a URL, and its text with another host. *)
Record FeatureUrl : Type := mkFeatureUrl {
  fu_username : str;
  fu_password : option str;
  fu_host_str : option str;
  fu_fragment : option str;
  fu_with_host : str -> option str;
}.

Section references.
Context (Url_parse : str -> result str FeatureUrl).

(** @src cdenv-devcontainer/src/feature/reference.rs:104-122 normalize_https *)
Definition normalize_https (input : str) : result UnsupportedReference str :=
  let unsupported := mkUnsupported input in
  let? url := map_err unsupported (Url_parse input) in
  fail_if negb (str_eqb (fu_username url) []) || is_Some_b (fu_password url)
    with unsupported ($"Feature URL credentials are unsupported") in
  let? host := ok_or (unsupported ($"Feature URL requires a public host")) (fu_host_str url) in
  let? _ := reject_private_host input host in
  fail_if is_Some_b (fu_fragment url)
    with unsupported ($"Feature URL fragments are unsupported") in
  ok_or (unsupported ($"Feature URL host is invalid")) (fu_with_host url (lower_str host)).

(** @src cdenv-devcontainer/src/feature/reference.rs:28-42 FeatureReference::parse *)
Definition FeatureReference_parse (input : str) : result UnsupportedReference FeatureReference :=
  if starts_with ($"./") input then result_map Ref_Local (normalize_local input)
  else if starts_with ($"https://") input then result_map Ref_Https (normalize_https input)
  else if contains_str ($"://") input || starts_with ($"http:") input then
    Err (mkUnsupported input ($"Feature transport must use verified HTTPS"))
  else result_map Ref_Oci (normalize_oci input).
End references.

(** ** Identities *)

(** @src cdenv-devcontainer/src/feature/reference.rs:264-271 FeatureInstallIdentity::oci_digest *)
Definition oci_digest (digest : str) : result (str * str) FeatureInstallIdentity :=
  let? _ := map_err (fun message => (digest, message)) (validate_sha256 digest) in
  Ok (OciDigest digest).

(** @src cdenv-devcontainer/src/feature/reference.rs:277-284 FeatureInstallIdentity::https_integrity *)
Definition https_integrity (integrity : str) : result (str * str) FeatureInstallIdentity :=
  let? _ := map_err (fun message => (integrity, message)) (validate_sha256 integrity) in
  Ok (HttpsIntegrity integrity).

(** @src cdenv-devcontainer/src/feature/reference.rs:287-289 FeatureInstallIdentity::local *)
Definition identity_local (reference : FeatureReference) : FeatureInstallIdentity :=
  LocalSource (reference_as_str reference).

(** ** The parts of an OCI reference *)

Record OciParts : Type := mkParts {
  registry : str;
  repository : str;
  tag : option str;
  digest : option str;
}.

Definition opt_part (c : char) (o : option str) : str :=
  match o with Some v => c :: v | None => [] end.
Definition name_and_tag (p : OciParts) : str :=
  registry p ++ 47 :: repository p ++ opt_part 58 (tag p).
Definition oci_text (p : OciParts) : str := name_and_tag p ++ opt_part 64 (digest p).

Definition public_host (registry : str) : Prop :=
  private_name (lower_str (first_piece 58 registry)) = false /\
  private_ip (lower_str (first_piece 58 registry)) = false.

Record oci_ok (p : OciParts) : Prop := {
  ok_blank : Forall (fun c => is_whitespace c = false) (oci_text p);
  ok_at : 64 ∉ name_and_tag p;
  ok_slash : 47 ∉ registry p;
  ok_public : public_host (registry p);
  ok_host : contains_char 46 (registry p) || contains_char 58 (registry p) = true;
  ok_repository : Forall (fun part => part <> [] /\ Forall (fun b => oci_char b = true) part)
                    (split 47 (repository p));
  ok_tag : forall t, tag p = Some t -> t <> [] /\ (47 ∉ t) /\ (58 ∉ t);
  ok_digest : forall d, digest p = Some d -> validate_sha256 d = Ok tt;
}.

(** The normal form: a lowercase registry and, without a digest, an explicit tag. *)
Definition canonical (p : OciParts) : OciParts :=
  mkParts (lower_str (registry p)) (repository p)
    (match tag p, digest p with None, None => Some ($"latest") | t, _ => t end) (digest p).

Lemma oci_char_not c : oci_char c = true -> c <> 58 /\ c <> 47 /\ c <> 64.
Proof.
  unfold oci_char, is_ascii_lowercase, is_ascii_digit.
  rewrite !orb_true_iff, !in_range_true, !N.eqb_eq. lia.
Qed.

Lemma repository_chars r :
  Forall (fun part => part <> [] /\ Forall (fun b => oci_char b = true) part) (split 47 r) ->
  r <> [] /\ (58 ∉ r) /\ head r <> Some 47.
Proof.
  intros H. assert (Hall : Forall (fun c => c = 47 \/ oci_char c = true) r).
  { rewrite <- (join_split 47 r). revert H. generalize (split 47 r). intros ws.
    induction 1 as [|w ws [_ Hw] Hws IH]; [done|]. destruct ws as [|v vs].
    - simpl. eapply Forall_impl; [exact Hw|]. auto.
    - rewrite join_cons by done. rewrite !Forall_app. split_and!; [|by repeat constructor; auto|done].
      eapply Forall_impl; [exact Hw|]. auto. }
  split_and!.
  - intros ->. simpl in H. by apply Forall_cons in H as [[? _] _].
  - intros H58. rewrite Forall_forall in Hall. destruct (Hall _ H58) as [Hc|Hc]; [done|].
    by destruct (oci_char_not _ Hc).
  - destruct r as [|c r]; [done|]. intros [= ->]. simpl in H. by apply Forall_cons in H as [[? _] _].
Qed.

Lemma bad_repository_false r :
  bool_decide (r = []) || existsb (fun part => bool_decide (part = []) || negb (forallb oci_char part))
    (split 47 r) = false <->
  Forall (fun part => part <> [] /\ Forall (fun b => oci_char b = true) part) (split 47 r).
Proof.
  rewrite orb_false_iff, existsb_false_iff.
  assert (H : Forall (fun part => bool_decide (part = []) || negb (forallb oci_char part) = false)
      (split 47 r) <->
    Forall (fun part => part <> [] /\ Forall (fun b => oci_char b = true) part) (split 47 r)).
  { apply Forall_iff. intros part. rewrite orb_false_iff, bool_decide_eq_false, negb_false_iff.
    by rewrite forallb_Forall. }
  rewrite H. split; [tauto|]. intros Hr. split; [|done].
  apply bool_decide_eq_false. by destruct (repository_chars r Hr).
Qed.

(** The tag of [repository[:tag]]. *)
Lemma tag_split rt :
  contains_char 58 (last_piece 47 rt) = true ->
  exists repo t pre, rt = repo ++ 58 :: t /\ (58 ∉ t) /\ (47 ∉ t) /\ rsplit_once 58 rt = Some (repo, t) /\
    rsplit_once 58 (last_piece 47 rt) = Some (pre, t).
Proof.
  intros H. destruct (last_piece_spec 47 rt) as (H47 & pre & Ert & _).
  destruct (rsplit_once 58 (last_piece 47 rt)) as [[x t]|] eqn:E;
    [|apply rsplit_once_None, contains_char_false in E; congruence].
  apply rsplit_once_Some in E as [El Ht]. exists (pre ++ x), t, x.
  rewrite El in Ert, H47. rewrite app_assoc in Ert. split_and!; auto; [set_solver|].
  apply rsplit_once_Some. auto.
Qed.

Lemma rejects_Ok reference host :
  reject_private_host reference host = Ok tt <->
  private_name (lower_str host) = false /\ private_ip (lower_str host) = false.
Proof.
  unfold reject_private_host. rewrite <- orb_false_iff. by destruct (_ || _).
Qed.

Lemma rejects_unit reference host u : reject_private_host reference host = Ok u -> u = tt.
Proof. by destruct u. Qed.

Lemma digest_split input :
  exists name dg, match split_once ($"@") input with
                  | Some (name, digest) => (name, Some digest)
                  | None => (input, None)
                  end = (name, dg) /\ input = name ++ opt_part 64 dg /\ (64 ∉ name).
Proof.
  change ($"@") with [64]. destruct (split_once [64] input) as [[name d]|] eqn:E.
  - apply split_once_char_Some in E as [-> H]. by exists name, (Some d).
  - apply split_once_char_None_iff in E. exists input, None. by rewrite app_nil_r.
Qed.

Lemma normalize_oci_Ok input out :
  normalize_oci input = Ok out ->
  exists p, oci_ok p /\ input = oci_text p /\ out = oci_text (canonical p).
Proof.
  unfold normalize_oci. intros H. destruct (_ || existsb is_whitespace input) eqn:E1; [done|].
  apply orb_false_iff in E1 as [_ Hblank]. apply existsb_false_iff in Hblank.
  destruct (_ && _) in H; [done|]. destruct (digest_split input) as (name & dg & Hs & Hin & Hat).
  rewrite Hs in H. clear Hs.
  destruct (match dg with Some _ => _ | None => _ end) as [[]|] eqn:Hdg in H; [|done].
  destruct (split_once ($"/") name) as [[reg rt]|] eqn:Hsl; cbn [ok_or] in H; [|done].
  change ($"/") with [47] in Hsl. apply split_once_char_Some in Hsl as [-> Hreg].
  destruct (reject_private_host input (first_piece 58 reg)) as [[]|] eqn:Hpriv; [|done].
  apply rejects_Ok in Hpriv. destruct (negb _) eqn:Hhost in H; [done|]. apply negb_false_iff in Hhost.
  assert (Hd : forall d, dg = Some d -> validate_sha256 d = Ok tt).
  { intros d ->. destruct (validate_sha256 d) as [[]|]; [done|discriminate Hdg]. }
  destruct (contains_char 58 (last_piece 47 rt)) eqn:Htag.
  - destruct (tag_split rt Htag) as (repo & t & pre & Hrt & H58 & H47 & Hr1 & Hr2).
    rewrite Hr1, Hr2 in H. destruct (_ || existsb _ _) eqn:Hrepo in H; [done|].
    apply bad_repository_false in Hrepo. cbn [andb] in H. case_bool_decide as Hne; [done|].
    exists (mkParts reg repo (Some t) dg). split; [|split].
    + assert (Ht : oci_text (mkParts reg repo (Some t) dg) = input)
        by (rewrite Hin, Hrt; unfold oci_text, name_and_tag; by rewrite <- !app_assoc).
      constructor; cbn [registry repository tag digest]; auto; [by rewrite Ht| |by intros ? [= <-]].
      unfold name_and_tag. cbn [registry repository tag digest opt_part]. by rewrite Hrt in Hat.
    + rewrite Hin, Hrt. unfold oci_text, name_and_tag. by rewrite <- !app_assoc.
    + injection H as <-. unfold oci_text, name_and_tag, canonical.
      cbn [registry repository tag digest opt_part negb andb]. rewrite andb_false_r, Hrt.
      destruct dg as [d|]; cbn [opt_part]; rewrite ?app_nil_r, <- ?app_assoc; done.
  - destruct (_ || existsb _ _) eqn:Hrepo in H; [done|]. apply bad_repository_false in Hrepo.
    cbn [andb] in H. exists (mkParts reg rt None dg). split; [|split].
    + assert (Ht : oci_text (mkParts reg rt None dg) = input)
        by (rewrite Hin; unfold oci_text, name_and_tag; cbn; by rewrite app_nil_r).
      constructor; cbn [registry repository tag digest]; auto; [by rewrite Ht| |done].
      unfold name_and_tag. cbn [registry repository tag digest opt_part]. by rewrite app_nil_r.
    + rewrite Hin. unfold oci_text, name_and_tag. cbn. by rewrite app_nil_r.
    + injection H as <-. unfold oci_text, name_and_tag, canonical.
      cbn [registry repository tag digest opt_part]. destruct dg as [d|]; cbn [is_Some_b negb andb opt_part];
        rewrite ?app_nil_r, <- ?app_assoc; cbn; rewrite <- ?app_assoc; done.
Qed.

Lemma contains_str_app pat a b : contains_str pat (a ++ pat ++ b) = true.
Proof.
  unfold contains_str. induction a as [|x a IH].
  - cbn [app]. destruct pat as [|c pat]; [by destruct b|].
    cbn [app split_once]. by rewrite (strip_prefix_app (c :: pat) b : strip_prefix (c :: pat) (c :: pat ++ b) = Some b).
  - cbn [app split_once]. destruct (strip_prefix pat (x :: a ++ pat ++ b)); [done|].
    by destruct (split_once pat (a ++ pat ++ b)) as [[? ?]|].
Qed.

Lemma validate_sha256_prefix d : validate_sha256 d = Ok tt -> exists h, d = $"sha256:" ++ h.
Proof.
  unfold validate_sha256. destruct (strip_prefix ($"sha256:") d) as [h|] eqn:E; [|done].
  apply strip_prefix_Some in E as ->. eauto.
Qed.

Lemma oci_text_nonblank p :
  oci_ok p -> bool_decide (oci_text p = []) || existsb is_whitespace (oci_text p) = false.
Proof.
  intros Hp. apply orb_false_iff. split; [|by apply existsb_false_iff; destruct Hp].
  apply bool_decide_eq_false. unfold oci_text, name_and_tag. by destruct Hp, (registry p).
Qed.

(** The first [@] of a reference separates its digest. *)
Lemma oci_text_split p :
  oci_ok p ->
  split_once ($"@") (oci_text p) = match digest p with Some d => Some (name_and_tag p, d) | None => None end
  /\ contains_char 64 (oci_text p) && negb (contains_str ($"@sha256:") (oci_text p)) = false.
Proof.
  intros [_ Hat _ _ _ _ _ Hdig]. split; change ($"@") with [64]; unfold oci_text;
    destruct (digest p) as [d|]; cbn [opt_part].
  - by apply split_once_char.
  - rewrite app_nil_r. by apply split_once_char_None.
  - destruct (validate_sha256_prefix d (Hdig d eq_refl)) as [h ->].
    apply andb_false_iff. right. apply negb_false_iff, (contains_str_app ($"@sha256:") (name_and_tag p) h).
  - apply andb_false_iff. left. apply contains_char_false. by rewrite app_nil_r.
Qed.

Lemma normalize_oci_text p : oci_ok p -> normalize_oci (oci_text p) = Ok (oci_text (canonical p)).
Proof.
  intros Hp. unfold normalize_oci. rewrite (oci_text_nonblank p Hp).
  destruct (oci_text_split p Hp) as [Hsp Hc]. rewrite Hc, Hsp. clear Hc Hsp.
  destruct Hp as [_ Hat Hsl [Hp1 Hp2] Hhost Hrepo Htag Hdig].
  destruct (repository_chars _ Hrepo) as (Hrne & Hr58 & _).
  set (rt := repository p ++ opt_part 58 (tag p)).
  assert (Hns : split_once ($"/") (name_and_tag p) = Some (registry p, rt))
    by (change ($"/") with [47]; by apply split_once_char).
  replace (match match digest p with Some d => Some (name_and_tag p, d) | None => None end with
           | Some (name, digest) => (name, Some digest) | None => (oci_text p, None) end)
    with (name_and_tag p, digest p)
    by (destruct (digest p) eqn:Ed; [done|]; unfold oci_text; rewrite Ed; cbn; by rewrite app_nil_r).
  cbn iota.
  assert (Hv : match digest p with
               | Some d => map_err (mkUnsupported (oci_text p)) (validate_sha256 d)
               | None => Ok tt
               end = Ok tt) by (destruct (digest p); [by rewrite Hdig|done]).
  rewrite Hv, Hns. cbn [ok_or].
  rewrite (proj2 (rejects_Ok (oci_text p) (first_piece 58 (registry p))) (conj Hp1 Hp2)), Hhost.
  cbn [negb]. apply bad_repository_false in Hrepo.
  assert (Hlast : last_piece 47 rt = last_piece 47 (repository p) ++ opt_part 58 (tag p)).
  { apply last_piece_app. destruct (tag p) as [t|]; [|apply not_elem_of_nil].
    destruct (Htag t eq_refl) as (_ & ? & _). cbn. set_solver. }
  unfold oci_text, canonical, name_and_tag.
  destruct (tag p) as [t|] eqn:Et; cbn [opt_part] in *.
  - destruct (Htag t eq_refl) as (Htne & Ht47 & Ht58).
    assert (Hc : contains_char 58 (last_piece 47 rt) = true)
      by (rewrite Hlast; apply contains_char_true; set_solver).
    rewrite Hc, (proj2 (rsplit_once_Some 58 rt (repository p) t)) by done. rewrite Hrepo. cbn [andb].
    rewrite (proj2 (rsplit_once_Some 58 (last_piece 47 rt) (last_piece 47 (repository p)) t)) by done.
    rewrite bool_decide_eq_false_2 by done. rewrite andb_false_r. f_equal.
    cbn [registry repository tag digest]. destruct (digest p); cbn [opt_part];
      unfold rt; rewrite <- ?app_assoc; cbn; rewrite ?app_nil_r, <- ?app_assoc; done.
  - assert (Hrt : rt = repository p) by (unfold rt; apply app_nil_r). rewrite Hrt.
    assert (Hc : contains_char 58 (last_piece 47 (repository p)) = false).
    { apply contains_char_false. intros H. destruct (last_piece_spec 47 (repository p)) as (_ & pre & E & _).
      apply Hr58. rewrite E. set_solver. }
    rewrite Hc, Hrepo. cbn [andb]. f_equal. cbn [registry repository tag digest].
    destruct (digest p); cbn [is_Some_b negb andb opt_part];
      rewrite ?app_nil_r, <- ?app_assoc; cbn; rewrite <- ?app_assoc; done.
Qed.

(** ** Lowercasing *)

Lemma to_ascii_lowercase_cases c :
  (65 <= c <= 90 /\ to_ascii_lowercase c = c + 32) \/
  (~ (65 <= c <= 90) /\ to_ascii_lowercase c = c).
Proof.
  unfold to_ascii_lowercase, is_ascii_uppercase. destruct (in_range 65 90 c) eqn:E.
  - apply in_range_true in E. auto.
  - apply in_range_false in E. right. split; [lia|done].
Qed.

Lemma lower_elem x s : x < 65 -> (x ∈ lower_str s <-> x ∈ s).
Proof.
  intros Hx. unfold lower_str. rewrite !list_elem_of_In, in_map_iff. split.
  - intros (c & Hc & Hin). destruct (to_ascii_lowercase_cases c) as [[? ?]|[_ E]]; [lia|].
    by rewrite <- Hc, E.
  - intros Hin. exists x. split; [|done]. destruct (to_ascii_lowercase_cases x) as [[? ?]|[_ E]]; [lia|done].
Qed.

Lemma lower_str_idemp s : lower_str (lower_str s) = lower_str s.
Proof.
  unfold lower_str. rewrite List.map_map. apply map_ext. intros c.
  destruct (to_ascii_lowercase_cases c) as [[? E]|[? E]]; rewrite E;
    destruct (to_ascii_lowercase_cases (to_ascii_lowercase c)) as [[? E']|[? E']]; rewrite ?E in *; lia.
Qed.

Lemma split_lower c s : c < 65 -> split c (lower_str s) = List.map lower_str (split c s).
Proof.
  intros Hc. induction s as [|x s IH]; [done|]. cbn [lower_str List.map split].
  fold (lower_str s). rewrite IH.
  assert (Heq : (c =? to_ascii_lowercase x) = (c =? x)).
  { destruct (to_ascii_lowercase_cases x) as [[? E]|[? E]]; rewrite E; [|done].
    destruct (N.eqb_spec c (x + 32)), (N.eqb_spec c x); lia || done. }
  rewrite Heq. destruct (c =? x); [done|]. by destruct (split c s).
Qed.

Lemma first_piece_lower c s : c < 65 -> first_piece c (lower_str s) = lower_str (first_piece c s).
Proof. intros Hc. unfold first_piece. rewrite split_lower by done. by destruct (split c s). Qed.

Lemma lower_not_whitespace s :
  Forall (fun c => is_whitespace c = false) s -> Forall (fun c => is_whitespace c = false) (lower_str s).
Proof.
  intros H. apply List.Forall_map. eapply Forall_impl; [exact H|]. intros c Hc. simpl in *.
  destruct (to_ascii_lowercase_cases c) as [[Hr E]|[_ E]]; rewrite E; [|done].
  unfold is_whitespace. rewrite !orb_false_iff, !in_range_false, !N.eqb_neq. lia.
Qed.

Lemma contains_lower x s : x < 65 -> contains_char x (lower_str s) = contains_char x s.
Proof.
  intros Hx. destruct (contains_char x s) eqn:E.
  - apply contains_char_true. by apply lower_elem; [|apply contains_char_true].
  - apply contains_char_false. rewrite lower_elem by done. by apply contains_char_false.
Qed.

Lemma canonical_ok p : oci_ok p -> oci_ok (canonical p).
Proof.
  intros [Hblank Hat Hsl [Hp1 Hp2] Hhost Hrepo Htag Hdig].
  unfold oci_text, name_and_tag in Hblank. unfold name_and_tag in Hat.
  rewrite Forall_app, Forall_app, Forall_cons, Forall_app in Hblank.
  destruct Hblank as ((Hb1 & _ & Hb2 & Hb3) & Hb4).
  set (t := match tag p, digest p with None, None => Some ($"latest") | t, _ => t end).
  assert (Hcases : t = tag p \/ t = Some ($"latest")) by (unfold t; destruct (tag p), (digest p); auto).
  constructor; unfold oci_text, name_and_tag, canonical; cbn [registry repository tag digest]; fold t.
  - rewrite Forall_app, Forall_app, Forall_cons, Forall_app.
    split_and!; try done; [by apply lower_not_whitespace|].
    destruct Hcases as [-> | ->]; [done|by repeat constructor].
  - rewrite !elem_of_app, elem_of_cons, elem_of_app in *. rewrite lower_elem by lia.
    destruct Hcases as [-> | ->]; [tauto|]. intros [?|[?|[?|H]]]; [tauto..|].
    revert H. by apply (bool_decide_unpack _); vm_compute.
  - by rewrite lower_elem.
  - split; rewrite first_piece_lower by lia; by rewrite lower_str_idemp.
  - by rewrite !contains_lower.
  - done.
  - intros t' Ht'. destruct Hcases as [E|E]; rewrite E in Ht'; [by apply Htag|]. injection Ht' as <-.
    split; [done|]. split; by apply (bool_decide_unpack _); vm_compute.
  - done.
Qed.

Lemma canonical_idemp p : canonical (canonical p) = canonical p.
Proof.
  unfold canonical. cbn [registry repository tag digest]. rewrite lower_str_idemp.
  by destruct (tag p), (digest p).
Qed.

Lemma sha256_no_slash d : validate_sha256 d = Ok tt -> 47 ∉ d.
Proof.
  unfold validate_sha256. destruct (strip_prefix ($"sha256:") d) as [h|] eqn:E; [|done].
  apply strip_prefix_Some in E as ->. destruct (_ || _) eqn:E; [done|]. intros _.
  apply orb_false_iff in E as [_ E%negb_false_iff]. rewrite forallb_Forall, Forall_forall in E.
  intros [H|H]%elem_of_app.
  - revert H. by apply (bool_decide_unpack _); vm_compute.
  - by apply E in H.
Qed.

(** After the registry a colon is never followed by a slash. *)
Lemma tail_no_colon_slash p a b :
  oci_ok p ->
  repository p ++ opt_part 58 (tag p) ++ opt_part 64 (digest p) <> a ++ 58 :: 47 :: b.
Proof.
  intros [_ _ _ _ _ Hrepo Htag Hdig] E. destruct (repository_chars _ Hrepo) as (_ & H58 & _).
  assert (H47 : 47 ∉ opt_part 58 (tag p) ++ opt_part 64 (digest p)).
  { intros [H|H]%elem_of_app.
    - destruct (tag p) as [t|]; [|by apply elem_of_nil in H]. destruct (Htag t eq_refl) as (_ & ? & _).
      apply elem_of_cons in H as [?|?]; done.
    - destruct (digest p) as [d|]; [|by apply elem_of_nil in H].
      apply elem_of_cons in H as [?|H]; [done|]. revert H. by apply sha256_no_slash, Hdig. }
  apply app_eq_inv in E as [(k & Er & E)|(k & Er & E)].
  - destruct k as [|c k]; [apply H47; simpl in E; rewrite <- E; set_solver|]. injection E as <- _.
    apply H58. rewrite Er. set_solver.
  - apply H47. rewrite E. set_solver.
Qed.

(** An OCI reference in normal form is not mistaken for another kind. *)
Lemma oci_text_kind p :
  oci_ok p -> registry p <> [46] ->
  starts_with ($"./") (oci_text p) = false /\ starts_with ($"https://") (oci_text p) = false /\
  contains_str ($"://") (oci_text p) || starts_with ($"http:") (oci_text p) = false.
Proof.
  intros Hok Hdot. assert (Hok' := Hok). destruct Hok as [_ _ Hsl [Hpub _] _ Hrepo _ _].
  destruct (repository_chars _ Hrepo) as (Hrne & _ & Hhead).
  assert (Ht : oci_text p = registry p ++ 47 :: repository p ++ opt_part 58 (tag p) ++ opt_part 64 (digest p))
    by (unfold oci_text, name_and_tag; by rewrite <- !app_assoc; cbn; rewrite <- !app_assoc).
  assert (Hcolon : contains_str ($"://") (oci_text p) = false).
  { unfold contains_str. destruct (split_once _ _) as [[a b]|] eqn:E; [|done]. exfalso.
    apply split_once_app in E. rewrite Ht in E. change ($"://" ++ b) with (58 :: 47 :: 47 :: b) in E.
    destruct (decide (47 ∈ a)) as [Ha|Ha].
    - apply list_elem_of_In, in_split in Ha as (a1 & a2 & ->).
      assert (Hex : exists a2', repository p ++ opt_part 58 (tag p) ++ opt_part 64 (digest p)
                 = a2' ++ 58 :: 47 :: 47 :: b).
      { rewrite <- app_assoc in E. apply app_eq_inv in E as [(k & Er & E)|(k & Er & E)].
        - destruct k as [|c k]; [injection E as E; by exists a2|]. injection E as <- _.
          destruct Hsl. rewrite Er. set_solver.
        - destruct k as [|c k]; [injection E as E; by exists a2|]. injection E as <- E.
          exists (k ++ 47 :: a2). rewrite E, <- app_assoc. done. }
      destruct Hex as [a2' Hex]. by apply (tail_no_colon_slash p a2' (47 :: b) Hok').
    - assert (Hf : split_once [47] (registry p ++ 47 :: repository p ++ opt_part 58 (tag p) ++
        opt_part 64 (digest p)) = Some (a ++ [58], 47 :: b)).
      { rewrite E, (app_assoc a [58] (47 :: 47 :: b) : a ++ 58 :: 47 :: 47 :: b = _).
        apply split_once_char. set_solver. }
      rewrite split_once_char in Hf by done. injection Hf as _ Hf.
      destruct (repository p) as [|c r]; [done|]. injection Hf as -> _. by destruct Hhead. }
  split_and!.
  - destruct (starts_with _ _) eqn:E; [|done]. exfalso. apply starts_with_true in E as [r E].
    change ($"./" ++ r) with (46 :: 47 :: r) in E. rewrite Ht in E.
    destruct (registry p) as [|c [|c' reg]]; [done|by injection E as ->|].
    injection E as _ -> _. apply Hsl. set_solver.
  - destruct (starts_with _ _) eqn:E; [|done]. exfalso. apply starts_with_true in E as [r E].
    rewrite E in Hcolon. change ($"https://" ++ r) with ($"https" ++ $"://" ++ r) in Hcolon.
    by rewrite contains_str_app in Hcolon.
  - rewrite Hcolon. cbn [orb]. destruct (starts_with _ _) eqn:E; [|done]. exfalso.
    apply starts_with_true in E as [r E]. rewrite Ht in E.
    apply app_eq_inv in E as [(k & Er & _)|(k & Er & E)].
    + rewrite Er in Hpub. change ($"http:" ++ k) with ($"http" ++ 58 :: k) in Hpub.
      rewrite first_piece_app in Hpub by (by apply (bool_decide_unpack _); vm_compute).
      vm_compute in Hpub. done.
    + destruct k as [|c k].
      * rewrite app_nil_r in Er. rewrite <- Er in Hpub. vm_compute in Hpub. done.
      * injection E as <- _. assert (H : 47 ∈ $"http:") by (rewrite Er; set_solver).
        revert H. by apply (bool_decide_unpack _); vm_compute.
Qed.

(** ** Local references *)

Definition good_part (part : str) : Prop :=
  local_part part part = Ok (Some part) /\ (47 ∉ part).

Lemma local_part_input i j part : local_part i part = Ok (Some part) -> local_part j part = Ok (Some part).
Proof. unfold local_part. by repeat case_match. Qed.

Lemma local_part_Some i part x : local_part i part = Ok (Some x) -> x = part.
Proof. unfold local_part. repeat case_match; congruence. Qed.

Lemma local_parts_good input pieces parts :
  Forall (fun w => 47 ∉ w) pieces -> try_map (local_part input) pieces = Ok parts ->
  Forall good_part (omap id parts).
Proof.
  intros Hp H%try_map_Forall2. revert Hp. induction H as [|w o ws os Hw _ IH]; intros Hp; [done|].
  apply Forall_cons in Hp as [Hw47 Hp]. cbn. destruct o as [x|]; simpl; [|by apply IH].
  assert (Hx := local_part_Some _ _ _ Hw). subst x.
  constructor; [split; [by eapply local_part_input|done]|by apply IH].
Qed.

Lemma try_map_good input parts :
  Forall good_part parts -> try_map (local_part input) parts = Ok (List.map Some parts).
Proof.
  intros H. apply try_map_Forall2. induction H as [|w ws [Hw _] _ IH]; [constructor|].
  cbn. constructor; [by eapply local_part_input|done].
Qed.

Lemma omap_Some {A} (l : list A) : omap id (List.map Some l) = l.
Proof. induction l as [|a l IH]; [done|]. cbn. by rewrite <- IH at 2. Qed.

Lemma normalize_local_parts parts :
  Forall good_part parts -> parts <> [] ->
  normalize_local (46 :: 47 :: join [47] parts) = Ok (46 :: 47 :: join [47] parts).
Proof.
  intros Hg Hne. unfold normalize_local.
  change (drop 2 (46 :: 47 :: join [47] parts)) with (join [47] parts).
  rewrite split_join; [|done|]. 2: { eapply Forall_impl; [exact Hg|]. by intros w [_ ?]. }
  rewrite try_map_good by done. rewrite omap_Some. by rewrite bool_decide_eq_false_2.
Qed.

Lemma normalize_local_idemp input out :
  normalize_local input = Ok out ->
  starts_with ($"./") out = true /\ normalize_local out = Ok out.
Proof.
  unfold normalize_local at 1. intros H. destruct (try_map _ _) as [os|] eqn:E; [|done].
  case_bool_decide as Hne; [done|]. apply local_parts_good in E; [|apply split_pieces].
  assert (Hout : out = 46 :: 47 :: join [47] (omap id os)) by (injection H as <-; reflexivity).
  rewrite Hout. split; [done|]. by apply normalize_local_parts.
Qed.

(** ** Canonical references *)

(** Documented behaviour of the URL library on an [https] URL: replacing the host by its
    lowercase form and printing gives an [https] URL that parses to the same user
    information and fragment, to the lowercase host, and prints to itself. *)
Class FeatureUrlLaws (Url_parse : str -> result str FeatureUrl) : Prop := {
  feature_url_reparse : forall v u h t,
    starts_with ($"https://") v = true -> Url_parse v = Ok u -> fu_host_str u = Some h ->
    fu_with_host u (lower_str h) = Some t ->
    starts_with ($"https://") t = true /\
    exists u', Url_parse t = Ok u' /\ fu_username u' = fu_username u /\
      fu_password u' = fu_password u /\ fu_fragment u' = fu_fragment u /\
      fu_host_str u' = Some (lower_str h) /\ fu_with_host u' (lower_str h) = Some t;
}.

Section canonical_references.
Context (Url_parse : str -> result str FeatureUrl) {laws : FeatureUrlLaws Url_parse}.

Lemma normalize_https_idemp input out :
  starts_with ($"https://") input = true -> normalize_https Url_parse input = Ok out ->
  starts_with ($"https://") out = true /\ normalize_https Url_parse out = Ok out.
Proof.
  intros Hs H. unfold normalize_https in H.
  destruct (Url_parse input) as [u|] eqn:Eu; cbn [map_err] in H; [|done].
  destruct (_ || _) eqn:Ec in H; [done|].
  destruct (fu_host_str u) as [h|] eqn:Eh; cbn [ok_or] in H; [|done].
  destruct (reject_private_host input h) as [[]|] eqn:Er; [|done]. apply rejects_Ok in Er.
  destruct (is_Some_b (fu_fragment u)) eqn:Ef; [done|].
  destruct (fu_with_host u (lower_str h)) as [t|] eqn:Et; cbn [ok_or] in H; [|done]. injection H as ->.
  destruct (feature_url_reparse _ _ _ _ Hs Eu Eh Et) as (Hs' & u' & Eu' & Hu & Hp & Hf & Hh & Ht).
  split; [done|]. unfold normalize_https. rewrite Eu'. cbn [map_err]. rewrite Hu, Hp, Ec, Hh. cbn [ok_or].
  rewrite <- lower_str_idemp in Er. rewrite (proj2 (rejects_Ok out (lower_str h)) Er).
  rewrite Hf, Ef, lower_str_idemp, Ht. done.
Qed.

(** a Feature reference is its own canonical text.  Whatever input [parse] accepts
    (a local directory, an HTTPS URL, or an OCI reference with optional tag and digest),
    parsing the canonical text it returns succeeds with the same reference; so the text
    used as catalog and lock key identifies the reference. *)
Theorem feature_reference_canonical input r :
  FeatureReference_parse Url_parse input = Ok r ->
  FeatureReference_parse Url_parse (reference_as_str r) = Ok r.
Proof.
  unfold FeatureReference_parse. intros H.
  destruct (starts_with ($"./") input) eqn:E1.
  { destruct (normalize_local input) as [out|] eqn:E; cbn [result_map] in H; [|done].
    injection H as <-. apply normalize_local_idemp in E as [Hs E]. cbn [reference_as_str].
    by rewrite Hs, E. }
  destruct (starts_with ($"https://") input) eqn:E2.
  { destruct (normalize_https Url_parse input) as [out|] eqn:E; cbn [result_map] in H; [|done].
    injection H as <-. apply normalize_https_idemp in E as [Hs E]; [|done]. cbn [reference_as_str].
    rewrite Hs, E. apply starts_with_true in Hs as [r ->]. done. }
  destruct (_ || _) eqn:E3; [done|].
  destruct (normalize_oci input) as [out|] eqn:E; cbn [result_map] in H; [|done]. injection H as <-.
  cbn [reference_as_str]. apply normalize_oci_Ok in E as (p & Hok & -> & ->).
  assert (Hdot : registry (canonical p) <> [46]).
  { cbn [canonical registry]. intros Hd. assert (Hr : registry p = [46]).
    { destruct (registry p) as [|c [|]]; try done. injection Hd as Hc.
      destruct (to_ascii_lowercase_cases c) as [[? E]|[_ E]]; rewrite E in Hc; [lia|by subst]. }
    unfold oci_text, name_and_tag in E1. rewrite Hr in E1. done. }
  destruct (oci_text_kind _ (canonical_ok p Hok) Hdot) as (-> & -> & ->).
  rewrite normalize_oci_text by (by apply canonical_ok). by rewrite canonical_idemp.
Qed.
End canonical_references.

Definition no_urls (_ : str) : result str FeatureUrl := Err ($"no URL support").
#[local] Instance no_urls_laws : FeatureUrlLaws no_urls.
Proof. by split. Qed.

Lemma feature_reference_canonical_witness :
  FeatureReference_parse no_urls ($"GHCR.io/devcontainers/features/go") =
    Ok (Ref_Oci ($"ghcr.io/devcontainers/features/go:latest")) /\
  FeatureReference_parse no_urls ($"ghcr.io/devcontainers/features/go:latest") =
    Ok (Ref_Oci ($"ghcr.io/devcontainers/features/go:latest")).
Proof.
  assert (H : FeatureReference_parse no_urls ($"GHCR.io/devcontainers/features/go") =
    Ok (Ref_Oci ($"ghcr.io/devcontainers/features/go:latest"))) by (vm_compute; reflexivity).
  split; [exact H|]. exact (feature_reference_canonical no_urls _ _ H).
Defined.

(** The private-endpoint test looks at the name as written: with the root dot, [localhost]
    and [.local] names pass it, and so does the unspecified address. *)
Lemma root_dot_passes_private_test :
  is_ok (reject_private_host [] ($"localhost")) = false /\
  is_ok (reject_private_host [] ($"localhost.")) = true /\
  is_ok (reject_private_host [] ($"printer.local.")) = true /\
  is_ok (FeatureReference_parse no_urls ($"localhost./a/b")) = true /\
  is_ok (FeatureReference_parse no_urls ($"0.0.0.0/a/b")) = true.
Proof. vm_compute. split_and!; reflexivity. Qed.
