(* ===== verification/Feature.v ===== *)
(** * Feature: the Feature model and option validation
    ([cdenv-devcontainer/src/feature.rs], [feature/metadata.rs]) *)

From S2P Require Import Prelude Text Order Profile FeatureReference.

(** ** Values, options, metadata *)

(** @src cdenv-devcontainer/src/feature/metadata.rs:46-51 FeatureValue *)
Inductive FeatureValue : Type := Value_Boolean (value : bool) | Value_String (value : str).

#[export] Instance FeatureValue_eq_dec : EqDecision FeatureValue.
Proof. solve_decision. Defined.

(** The derived order: variant, then payload.
    @src cdenv-devcontainer/src/feature/metadata.rs:44-44 Ord *)
Definition value_cmp (a b : FeatureValue) : comparison :=
  match a, b with
  | Value_Boolean x, Value_Boolean y => Bool.compare x y
  | Value_Boolean _, Value_String _ => Lt
  | Value_String _, Value_Boolean _ => Gt
  | Value_String x, Value_String y => str_cmp x y
  end.

(** @src cdenv-devcontainer/src/feature/metadata.rs:64-79 FeatureOption *)
Inductive FeatureOption : Type :=
| FeatureOption_Boolean (dflt : bool)
| FeatureOption_String (dflt : str) (allowed : option (gset (list N))) (proposals : gset (list N)).

(** @src cdenv-devcontainer/src/feature/metadata.rs:83-102 FeatureContributions *)
Record FeatureContributions : Type := mkContributions {
  fc_container_env : strmap (list N);
  fc_mounts : list RawMount;
  fc_cap_add : list str;
  fc_security_opt : list str;
  fc_entrypoint : option str;
  fc_lifecycle : LifecycleCommands;
  fc_customizations : strmap Json;
  fc_init : option bool;
  fc_privileged : option bool;
}.

(** [depends_on] is the list of its entries in reference order.
    @src cdenv-devcontainer/src/feature/metadata.rs:106-119 FeatureMetadata *)
Record FeatureMetadata : Type := mkFeatureMetadata {
  fm_id : str;
  fm_version : str;
  fm_options : strmap FeatureOption;
  fm_depends_on : list (FeatureReference * strmap FeatureValue);
  fm_installs_after : list str;
  fm_contributions : FeatureContributions;
}.

(** @src cdenv-devcontainer/src/feature.rs:24-35 FeaturePackage *)
Record FeaturePackage : Type := mkPackage {
  package_reference : FeatureReference;
  package_identity : FeatureInstallIdentity;
  package_metadata : FeatureMetadata;
  package_digest : option str;
  package_integrity : option str;
}.

(** @src cdenv-devcontainer/src/feature.rs:39-44 FeatureRequest *)
Record FeatureRequest : Type := mkFeatureRequest {
  request_reference : FeatureReference;
  request_options : strmap FeatureValue;
}.

(** @src cdenv-devcontainer/src/feature.rs:59-68 ResolvedFeature *)
Record ResolvedFeature : Type := mkResolved {
  rf_reference : FeatureReference;
  rf_identity : FeatureInstallIdentity;
  rf_metadata : FeatureMetadata;
  rf_options : strmap FeatureValue;
}.

(** @src cdenv-devcontainer/src/feature.rs:79-183 FeatureError *)
Inductive FeatureError : Type :=
| Feature_UnsupportedReference (reference reason : str)
| Feature_InvalidMetadata (path message : str)
| Feature_InvalidIdentity (value message : str)
| Feature_MissingPackage (reference : FeatureReference) (path : str)
| Feature_CatalogMismatch (key package : FeatureReference)
| Feature_UnknownOption (feature option path : str)
| Feature_InvalidOption (feature option : str) (value : FeatureValue) (path : str)
| Feature_ConflictingOptions (identity : FeatureInstallIdentity) (option first_path second_path : str)
| Feature_InvalidOverride (reference message : str)
| Feature_DependencyCycle (cycle : str)
| Feature_InvalidLock (message : str)
| Feature_StaleLock.

(** @src cdenv-devcontainer/src/feature.rs:185-190 render_path *)
Definition render_path (path : list FeatureReference) : str :=
  join ($" -> ") (List.map reference_as_str path).

(** ** Options *)

(** @src cdenv-devcontainer/src/feature/metadata.rs:511-514 validate_options *)
Definition option_default (definition : FeatureOption) : FeatureValue :=
  match definition with
  | FeatureOption_Boolean dflt => Value_Boolean dflt
  | FeatureOption_String dflt _ _ => Value_String dflt
  end.

(** @src cdenv-devcontainer/src/feature/metadata.rs:515-521 validate_options *)
Definition option_valid (definition : FeatureOption) (value : FeatureValue) : bool :=
  match definition, value with
  | FeatureOption_Boolean _, Value_Boolean _ => true
  | FeatureOption_String _ allowed _, Value_String value =>
      match allowed with Some allowed => bool_decide (value ∈ allowed) | None => true end
  | _, _ => false
  end.

(** The closure over one option. @src cdenv-devcontainer/src/feature/metadata.rs:507-531 validate_options *)
Definition effective_option (metadata : FeatureMetadata) (provided : strmap FeatureValue)
    (path : list FeatureReference) (entry : str * FeatureOption) :
    result FeatureError (str * FeatureValue) :=
  let '(name, definition) := entry in
  let value := default (option_default definition) (provided !! name) in
  fail_if negb (option_valid definition value)
    with Feature_InvalidOption (fm_id metadata) name value (render_path path) in
  Ok (name, value).

(** @src cdenv-devcontainer/src/feature/metadata.rs:489-533 validate_options *)
Definition validate_options (metadata : FeatureMetadata) (provided : strmap FeatureValue)
    (path : list FeatureReference) : result FeatureError (strmap FeatureValue) :=
  match List.find (fun '(name, _) => negb (is_Some_b (fm_options metadata !! name)))
          (sorted_entries provided) with
  | Some (name, _) => Err (Feature_UnknownOption (fm_id metadata) name (render_path path))
  | None =>
      let? effective := try_map (effective_option metadata provided path)
                          (sorted_entries (fm_options metadata)) in
      Ok (list_to_map effective)
  end.

(** ** Effective options *)

(** option validation is total on the declared options.  It succeeds exactly when every
    provided option is declared and the effective value of every declared option (the
    provided one, else the default) has the declared type and is an allowed value; the
    result then maps exactly the declared options to their effective values. *)
Theorem validate_options_spec metadata provided path :
  match validate_options metadata provided path with
  | Ok effective =>
      (forall k, is_Some (provided !! k) -> is_Some (fm_options metadata !! k)) /\
      (forall k, effective !! k =
         (fun d => default (option_default d) (provided !! k)) <$> fm_options metadata !! k) /\
      (forall k d, fm_options metadata !! k = Some d ->
         option_valid d (default (option_default d) (provided !! k)) = true)
  | Err _ =>
      (exists k, is_Some (provided !! k) /\ fm_options metadata !! k = None) \/
      (exists k d, fm_options metadata !! k = Some d /\
         option_valid d (default (option_default d) (provided !! k)) = false)
  end.
Proof.
  unfold validate_options. destruct (List.find _ _) as [[name v]|] eqn:Ef.
  - apply find_some in Ef as [Hin Hn]. apply list_elem_of_In, elem_of_sorted_entries in Hin.
    left. exists name. split; [by eexists|]. by destruct (fm_options metadata !! name).
  - assert (Hknown : forall k, is_Some (provided !! k) -> is_Some (fm_options metadata !! k)).
    { intros k [v Hv]. apply elem_of_sorted_entries, list_elem_of_In in Hv.
      apply (find_none _ _ Ef) in Hv. simpl in Hv. by destruct (fm_options metadata !! k). }
    destruct (try_map _ _) as [es|] eqn:Et.
    + apply try_map_Forall2 in Et.
      assert (Hel : forall k d, fm_options metadata !! k = Some d ->
        option_valid d (default (option_default d) (provided !! k)) = true /\
        (k, default (option_default d) (provided !! k)) ∈ es).
      { intros k d Hd%elem_of_sorted_entries. apply list_elem_of_lookup in Hd as [i Hi].
        destruct (Forall2_lookup_l _ _ _ _ _ Et Hi) as (e & He & Hop). unfold effective_option in Hop.
        destruct (option_valid _ _); [|done]. injection Hop as <-. split; [done|].
        by eapply list_elem_of_lookup_2. }
      assert (Hkeys : es.*1 = (sorted_entries (fm_options metadata)).*1).
      { clear - Et. induction Et as [|[k d] e l es H _ IH]; [done|]. unfold effective_option in H.
        destruct (negb _); [done|]. injection H as <-. cbn. by rewrite <- IH. }
      split_and!; [done| |by intros k d Hd; apply Hel].
      intros k. destruct (fm_options metadata !! k) as [d|] eqn:Ed; simpl.
      * apply elem_of_list_to_map; [rewrite Hkeys; apply NoDup_sorted_entries|by apply Hel].
      * apply not_elem_of_list_to_map. rewrite Hkeys. intros Hin.
        apply list_elem_of_fmap in Hin as ([k' d'] & -> & Hin). apply elem_of_sorted_entries in Hin.
        cbn in Ed. congruence.
    + right. revert Et. assert (Hall : forall k d, (k, d) ∈ sorted_entries (fm_options metadata) ->
        fm_options metadata !! k = Some d) by (intros; by apply elem_of_sorted_entries).
      revert Hall. generalize (sorted_entries (fm_options metadata)). intros l Hall.
      induction l as [|[k d] l IH]; cbn [try_map]; [done|].
      unfold effective_option at 1. destruct (option_valid _ _) eqn:Ev; cbn [negb].
      * destruct (try_map _ l); [done|]. intros [= ->]. apply IH; [|done].
        intros k' d' H'. apply Hall. set_solver.
      * intros _. exists k, d. split; [apply Hall; set_solver|done].
Qed.
