(* ===== verification/Resolution.v ===== *)
(** * Resolution: dependency expansion and installation rounds of Features
    ([cdenv-devcontainer/src/feature/resolution.rs])

    The node map is a [gmap]; [node_keys] is its key order.  The worklist and the rounds
    carry a fuel, and their result is [None] when it runs out: [expand_all_fuel] and [rounds_spec]
    show that the fuel the definitions choose is enough.  The fuel of [visit] is the
    number of nodes plus one, the longest path without a repetition. *)

From S2P Require Import Prelude Text Order Profile Net FeatureReference Feature.

(** ** Nodes and pending requests *)

(** @src cdenv-devcontainer/src/feature/resolution.rs:14-21 Node *)
Record Node : Type := mkNode {
  n_package : FeaturePackage;
  n_options : strmap FeatureValue;
  n_explicit_options : strmap FeatureValue;
  n_dependencies : gset FeatureInstallIdentity;
  n_first_path : list FeatureReference;
  n_priority : N;
}.

(** @src cdenv-devcontainer/src/feature/resolution.rs:23-28 Pending *)
Record Pending : Type := mkPending {
  p_reference : FeatureReference;
  p_options : strmap FeatureValue;
  p_parent : option FeatureInstallIdentity;
  p_path : list FeatureReference;
}.

Abbreviation Nodes := (gmap FeatureInstallIdentity Node) (only parsing).
Abbreviation Catalog := (gmap FeatureReference FeaturePackage) (only parsing).

(** ** Orders *)

(** The derived order of [FeatureInstallIdentity]. *)
Definition identity_cmp (a b : FeatureInstallIdentity) : comparison :=
  then_with (N.compare (fst (identity_code a)) (fst (identity_code b)))
    (str_cmp (snd (identity_code a)) (snd (identity_code b))).

Definition identity_le (a b : FeatureInstallIdentity) : Prop := identity_cmp a b <> Gt.
#[export] Instance identity_le_dec a b : Decision (identity_le a b).
Proof. unfold identity_le. destruct (identity_cmp a b); [left|left|right]; congruence. Defined.

(** [nodes.keys()] *)
Definition node_keys {A} (nodes : gmap FeatureInstallIdentity A) : list FeatureInstallIdentity :=
  merge_sort identity_le (map_to_list nodes).*1.

(** [BTreeMap::cmp]: lexicographic on the entries. *)
Fixpoint entries_cmp (a b : list (str * FeatureValue)) : comparison :=
  match a, b with
  | [], [] => Eq
  | [], _ :: _ => Lt
  | _ :: _, [] => Gt
  | (k, v) :: a', (k', v') :: b' =>
      then_with (str_cmp k k') (then_with (value_cmp v v') (entries_cmp a' b'))
  end.

(** @src cdenv-devcontainer/src/feature/resolution.rs:234-253 compare_nodes *)
Definition compare_nodes (left right : Node) : comparison :=
  let lref := package_reference (n_package left) in
  let rref := package_reference (n_package right) in
  then_with (str_cmp (resource_name lref) (resource_name rref))
  (then_with (str_cmp (selector lref) (selector rref))
  (then_with (Nat.compare (size (n_explicit_options right)) (size (n_explicit_options left)))
  (then_with (entries_cmp (sorted_entries (n_explicit_options left))
                          (sorted_entries (n_explicit_options right)))
             (identity_cmp (package_identity (n_package left)) (package_identity (n_package right)))))).

(** ** Expansion *)

(** @src cdenv-devcontainer/src/feature/resolution.rs:302-312 differing_option *)
Definition differing_option (first second : strmap FeatureValue) : str :=
  default ($"<options>")
    (List.find (fun key => negb (bool_decide (first !! key = second !! key)))
       ((sorted_entries first).*1 ++ (sorted_entries second).*1)).

(** [nodes.get_mut(&parent)] and the insertion of a dependency, for a request with a parent.
    @src cdenv-devcontainer/src/feature/resolution.rs:97-101 resolve_features *)
Definition add_dependency (parent : option FeatureInstallIdentity)
    (identity : FeatureInstallIdentity) (nodes : Nodes) : Nodes :=
  match parent with
  | None => nodes
  | Some parent =>
      alter (fun n => mkNode (n_package n) (n_options n) (n_explicit_options n)
                        ({[identity]} ∪ n_dependencies n) (n_first_path n) (n_priority n))
        parent nodes
  end.

(** The requests pushed for the dependencies of a new node.
    @src cdenv-devcontainer/src/feature/resolution.rs:102-111 resolve_features *)
Definition dependency_requests (package : FeaturePackage) (path : list FeatureReference) :
    list Pending :=
  List.map (fun '(reference, options) =>
    mkPending reference options (Some (package_identity package)) (path ++ [reference]))
    (fm_depends_on (package_metadata package)).

(** The body of the [while let]: the new nodes and the requests pushed at the back.
    @src cdenv-devcontainer/src/feature/resolution.rs:55-112 resolve_features *)
Definition expand (packages : Catalog) (item : Pending) (nodes : Nodes) :
    result FeatureError (Nodes * list Pending) :=
  let? package := ok_or (Feature_MissingPackage (p_reference item) (render_path (p_path item)))
                    (packages !! p_reference item) in
  fail_if negb (bool_decide (package_reference package = p_reference item))
    with Feature_CatalogMismatch (p_reference item) (package_reference package) in
  let? effective := validate_options (package_metadata package) (p_options item) (p_path item) in
  match nodes !! package_identity package with
  | Some existing =>
      fail_if negb (bool_decide (n_options existing = effective))
        with Feature_ConflictingOptions (package_identity package)
               (differing_option (n_options existing) effective)
               (render_path (n_first_path existing)) (render_path (p_path item)) in
      Ok (add_dependency (p_parent item) (package_identity package) nodes, [])
  | None =>
      let nodes := <[package_identity package :=
        mkNode package effective (p_options item) ∅ (p_path item) 0]> nodes in
      Ok (add_dependency (p_parent item) (package_identity package) nodes,
          dependency_requests package (p_path item))
  end.

(** @src cdenv-devcontainer/src/feature/resolution.rs:55-112 resolve_features *)
Fixpoint expand_all (fuel : nat) (packages : Catalog) (pending : list Pending) (nodes : Nodes) :
    option (result FeatureError Nodes) :=
  match pending, fuel with
  | [], _ => Some (Ok nodes)
  | _ :: _, O => None
  | item :: pending', S fuel' =>
      match expand packages item nodes with
      | Err e => Some (Err e)
      | Ok (nodes', pushed) => expand_all fuel' packages (pending' ++ pushed) nodes'
      end
  end.

(** ** Soft edges and priorities *)

Section hints.
Context (Url_parse : str -> result str FeatureUrl).

(** @src cdenv-devcontainer/src/feature/resolution.rs:132-137 apply_soft_edges *)
Definition hint_name (hint : str) : str :=
  lower_str (match FeatureReference_parse Url_parse hint with
             | Ok reference => resource_name reference
             | Err _ => hint
             end).

(** The identities a hint matches, other than the node's own.
    @src cdenv-devcontainer/src/feature/resolution.rs:138-145 apply_soft_edges *)
Definition hint_matches (nodes : Nodes) (own : FeatureInstallIdentity) (hint : str) :
    gset FeatureInstallIdentity :=
  filter (fun identity => identity <> own)
    (dom (filter (fun '(_, node) =>
       eq_ignore_ascii_case (resource_name (package_reference (n_package node))) (hint_name hint)
         = true) nodes)).

(** @src cdenv-devcontainer/src/feature/resolution.rs:120-148 apply_soft_edges *)
Definition apply_soft_edges (nodes : Nodes) : Nodes :=
  (fun node =>
     mkNode (n_package node) (n_options node) (n_explicit_options node)
       (fold_left (fun deps hint =>
          deps ∪ hint_matches nodes (package_identity (n_package node)) hint)
          (fm_installs_after (package_metadata (n_package node))) (n_dependencies node))
       (n_first_path node) (n_priority node)) <$> nodes.

(** One override. @src cdenv-devcontainer/src/feature/resolution.rs:155-185 apply_priorities *)
Definition apply_override (count : N) (nodes : Nodes) (entry : N * str) :
    result FeatureError Nodes :=
  let '(index, value) := entry in
  fail_if contains_char 64 value || contains_char 58 (last_piece 47 value)
    with Feature_InvalidOverride value ($"override must omit tags, digests, and options") in
  let matches (node : Node) :=
    eq_ignore_ascii_case (resource_name (package_reference (n_package node))) value in
  fail_if bool_decide (filter (fun '(_, node) => matches node = true) nodes = ∅)
    with Feature_InvalidOverride value ($"override does not match a resolved Feature") in
  Ok ((fun node => if matches node
                   then mkNode (n_package node) (n_options node) (n_explicit_options node)
                          (n_dependencies node) (n_first_path node) (count - index)
                   else node) <$> nodes).

(** @src cdenv-devcontainer/src/feature/resolution.rs:150-187 apply_priorities *)
Definition apply_priorities (nodes : Nodes) (overrides : list str) : result FeatureError Nodes :=
  try_fold (apply_override (lenN overrides)) nodes (enumerate 0 overrides).
End hints.

(** ** Cycles *)

(** @src cdenv-devcontainer/src/feature/resolution.rs:295-301 identity_label *)
Definition identity_label (i : FeatureInstallIdentity) : str :=
  match i with OciDigest v | HttpsIntegrity v | LocalSource v => v end.

(** The [for] over the dependencies, with [visit] applied to each.
    @src cdenv-devcontainer/src/feature/resolution.rs:273-281 find_cycle::visit *)
Fixpoint visit_children (visit : gset FeatureInstallIdentity -> FeatureInstallIdentity ->
      list FeatureInstallIdentity + gset FeatureInstallIdentity)
    (done : gset FeatureInstallIdentity) (dependencies : list FeatureInstallIdentity) :
    list FeatureInstallIdentity + gset FeatureInstallIdentity :=
  match dependencies with
  | [] => inr done
  | dependency :: rest =>
      match visit done dependency with
      | inl cycle => inl cycle
      | inr done' => visit_children visit done' rest
      end
  end.

(** Depth-first search from [identity]: a closed path, or the nodes that are done.
    [visiting.pop()] restores the stack of the caller.
    @src cdenv-devcontainer/src/feature/resolution.rs:258-285 find_cycle::visit *)
Fixpoint visit (fuel : nat) (nodes : Nodes) (visiting : list FeatureInstallIdentity)
    (done : gset FeatureInstallIdentity) (identity : FeatureInstallIdentity) :
    list FeatureInstallIdentity + gset FeatureInstallIdentity :=
  match fuel with
  | O => inr done
  | S fuel' =>
      match position (fun item => bool_decide (item = identity)) visiting with
      | Some index => inl (drop index visiting ++ [identity])
      | None =>
          if bool_decide (identity ∈ done) then inr done else
          let dependencies :=
            match nodes !! identity with
            | Some node => filter (fun d => is_Some (nodes !! d))
                             (merge_sort identity_le (elements (n_dependencies node)))
            | None => []
            end in
          match visit_children (visit fuel' nodes (visiting ++ [identity])) done dependencies with
          | inl cycle => inl cycle
          | inr done' => inr ({[identity]} ∪ done')
          end
      end
  end.

(** @src cdenv-devcontainer/src/feature/resolution.rs:255-293 find_cycle *)
Definition find_cycle (nodes : Nodes) : option (list FeatureInstallIdentity) :=
  match fold_left (fun acc identity =>
          match acc with
          | inl cycle => inl cycle
          | inr done => visit (S (size nodes)) nodes [] done identity
          end) (node_keys nodes) (inr ∅) with
  | inl cycle => Some cycle
  | inr _ => None
  end.

(** ** Rounds *)

(** The nodes whose dependencies are installed, in key order.
    @src cdenv-devcontainer/src/feature/resolution.rs:195-199 round_sort *)
Definition ready_nodes (nodes : Nodes) (installed : gset FeatureInstallIdentity) :
    list (FeatureInstallIdentity * Node) :=
  omap (fun identity =>
    match nodes !! identity with
    | Some node => if bool_decide (n_dependencies node ⊆ installed) then Some (identity, node) else None
    | None => None
    end) (node_keys nodes).

(** @src cdenv-devcontainer/src/feature/resolution.rs:210-216 round_sort *)
Definition select_round (ready : list (FeatureInstallIdentity * Node)) :
    list (FeatureInstallIdentity * Node) :=
  let max_priority := fold_left (fun m '(_, node) => N.max m (n_priority node)) ready 0 in
  merge_sort (fun l r => compare_nodes (snd l) (snd r) <> Gt)
    (filter (fun '(_, node) => n_priority node = max_priority) ready).

(** @src cdenv-devcontainer/src/feature/resolution.rs:220-225 round_sort *)
Definition resolved_of (entry : FeatureInstallIdentity * Node) : ResolvedFeature :=
  let '(identity, node) := entry in
  mkResolved (package_reference (n_package node)) identity (package_metadata (n_package node))
    (n_options node).

(** @src cdenv-devcontainer/src/feature/resolution.rs:189-232 round_sort *)
Fixpoint rounds (fuel : nat) (nodes : Nodes) (installed : gset FeatureInstallIdentity)
    (output : list ResolvedFeature) : option (result FeatureError (list ResolvedFeature)) :=
  if bool_decide (nodes = ∅) then Some (Ok output) else
  match fuel with
  | O => None
  | S fuel' =>
      match ready_nodes nodes installed with
      | [] =>
          let cycle := default (node_keys nodes) (find_cycle nodes) in
          Some (Err (Feature_DependencyCycle (join ($" -> ") (List.map identity_label cycle))))
      | ready =>
          let round := select_round ready in
          rounds fuel' (foldr (fun '(identity, _) nodes => delete identity nodes) nodes round)
            (list_to_set round.*1 ∪ installed) (output ++ List.map resolved_of round)
      end
  end.

(** @src cdenv-devcontainer/src/feature/resolution.rs:189-232 round_sort *)
Definition round_sort (nodes : Nodes) : option (result FeatureError (list ResolvedFeature)) :=
  rounds (size nodes) nodes ∅ [].

(** ** Resolution *)

(** Every node pushes the dependencies of one catalog package at most once. *)
Definition expansion_fuel (requests : list FeatureRequest) (packages : Catalog) : nat :=
  length requests
  + sum_list (List.map (fun '(_, p) => length (fm_depends_on (package_metadata p)))
                (map_to_list packages)).

(** @src cdenv-devcontainer/src/feature/resolution.rs:39-118 resolve_features *)
Definition resolve_features (Url_parse : str -> result str FeatureUrl)
    (requests : list FeatureRequest) (packages : Catalog)
    (override_feature_install_order : list str) :
    option (result FeatureError (list ResolvedFeature)) :=
  let pending := List.map (fun request =>
    mkPending (request_reference request) (request_options request) None
      [request_reference request]) requests in
  match expand_all (expansion_fuel requests packages) packages pending ∅ with
  | None => None
  | Some (Err e) => Some (Err e)
  | Some (Ok nodes) =>
      match apply_priorities (apply_soft_edges Url_parse nodes) override_feature_install_order with
      | Err e => Some (Err e)
      | Ok nodes => round_sort nodes
      end
  end.

(** ** Installation orders *)

(** Every node comes after its dependencies, given what is installed. *)
Fixpoint respects (installed : gset FeatureInstallIdentity)
    (order : list (FeatureInstallIdentity * Node)) : Prop :=
  match order with
  | [] => True
  | (identity, node) :: rest =>
      n_dependencies node ⊆ installed /\ respects ({[identity]} ∪ installed) rest
  end.

(** An installation order of all nodes. *)
Definition valid_order (nodes : Nodes) (installed : gset FeatureInstallIdentity)
    (order : list (FeatureInstallIdentity * Node)) : Prop :=
  order ≡ₚ map_to_list nodes /\ respects installed order.

Lemma respects_mono I J order : I ⊆ J -> respects I order -> respects J order.
Proof.
  revert I J. induction order as [|[i n] order IH]; intros I J HIJ; simpl; [done|].
  intros [Hd Hr]. split; [set_solver|]. eapply IH; [|exact Hr]. set_solver.
Qed.

Lemma respects_app I a b :
  respects I a -> respects (list_to_set a.*1 ∪ I) b -> respects I (a ++ b).
Proof.
  revert I. induction a as [|[i n] a IH]; intros I Ha Hb; simpl in *.
  - eapply respects_mono; [|exact Hb]. set_solver.
  - destruct Ha as [Hd Ha]. split; [done|]. apply IH; [done|].
    eapply respects_mono; [|exact Hb]. cbn. set_solver.
Qed.

Lemma respects_filter I (S : gset FeatureInstallIdentity) order :
  respects I order -> respects (S ∪ I) (filter (fun e => e.1 ∉ S) order).
Proof.
  revert I. induction order as [|[i n] order IH]; intros I H; [done|].
  destruct H as [Hd Hr]. rewrite filter_cons. cbn [fst]. destruct (decide (i ∉ S)) as [Hi|Hi].
  - split; [set_solver|]. eapply respects_mono; [|by apply (IH _ Hr)]. set_solver.
  - eapply respects_mono; [|by apply (IH _ Hr)].
    assert (i ∈ S) by (destruct (decide (i ∈ S)); tauto). set_solver.
Qed.

Lemma respects_ready I order : Forall (fun e => n_dependencies e.2 ⊆ I) order -> respects I order.
Proof.
  revert I. induction order as [|[i n] order IH]; intros I H; [done|].
  apply Forall_cons in H as [Hd Hr]. split; [done|]. apply IH.
  eapply Forall_impl; [exact Hr|]. simpl. intros e He. set_solver.
Qed.

(** ** One round *)

Lemma node_keys_perm {A} (nodes : gmap FeatureInstallIdentity A) : node_keys nodes ≡ₚ (map_to_list nodes).*1.
Proof. apply merge_sort_Permutation. Qed.

Lemma elem_of_ready nodes I i n :
  (i, n) ∈ ready_nodes nodes I <-> nodes !! i = Some n /\ n_dependencies n ⊆ I.
Proof.
  unfold ready_nodes. rewrite list_elem_of_omap. split.
  - intros (k & _ & H). destruct (nodes !! k) as [m|] eqn:E; [|done].
    case_bool_decide; [|done]. by injection H as -> ->.
  - intros [Hn Hd]. exists i. split.
    + rewrite node_keys_perm. apply list_elem_of_fmap. exists (i, n). by rewrite elem_of_map_to_list.
    + rewrite Hn. by rewrite bool_decide_eq_true_2.
Qed.

Lemma NoDup_ready nodes I : NoDup (ready_nodes nodes I).*1.
Proof.
  unfold ready_nodes. assert (Hk : NoDup (node_keys nodes))
    by (rewrite node_keys_perm; apply NoDup_fst_map_to_list).
  induction Hk as [|k ks Hk _ IH]; [constructor|]. cbn.
  destruct (nodes !! k) as [n|]; [|done]. case_bool_decide; [|done]. cbn. constructor; [|done].
  intros Hin. apply list_elem_of_fmap in Hin as ([k' n'] & -> & Hin). cbn in Hk.
  apply list_elem_of_omap in Hin as (k2 & Hk2 & Hm). destruct (nodes !! k2); [|done].
  case_bool_decide; [|done]. injection Hm as -> ->. done.
Qed.

Definition max_priority (l : list (FeatureInstallIdentity * Node)) (m : N) : N :=
  fold_left (fun m '(_, node) => N.max m (n_priority node)) l m.

Lemma fold_max_attained l m :
  max_priority l m = m \/ exists e, e ∈ l /\ n_priority e.2 = max_priority l m.
Proof.
  revert m. induction l as [|[i n] l IH]; intros m; simpl; [auto|].
  destruct (IH (N.max m (n_priority n))) as [H|(e & He & Hp)].
  - rewrite H. destruct (N.max_spec m (n_priority n)) as [[_ ->]|[_ ->]]; [right|by left].
    exists (i, n). set_solver.
  - right. exists e. set_solver.
Qed.

Lemma fold_max_ge l m : m <= max_priority l m.
Proof.
  revert m. induction l as [|[i n] l IH]; intros m; simpl; [lia|].
  specialize (IH (N.max m (n_priority n))). lia.
Qed.

Lemma select_round_spec ready :
  ready <> [] -> select_round ready <> [] /\ select_round ready ⊆+ ready.
Proof.
  intros Hne. unfold select_round. fold (max_priority ready 0). split.
  - assert (Hex : exists e, e ∈ ready /\ n_priority e.2 = max_priority ready 0).
    { destruct (fold_max_attained ready 0) as [H0|?]; [|done].
      destruct ready as [|[i n] ready]; [done|]. exists (i, n). split; [set_solver|].
      assert (Hge := fold_max_ge ready (N.max 0 (n_priority n))). cbn [snd].
      change (max_priority ready (N.max 0 (n_priority n))) with (max_priority ((i, n) :: ready) 0) in Hge.
      lia. }
    destruct Hex as ([i n] & Hin & Hp). intros Hnil.
    assert (Hm : (i, n) ∈ merge_sort (fun l r => compare_nodes (snd l) (snd r) <> Gt)
      (filter (fun '(_, node) => n_priority node = max_priority ready 0) ready)).
    { rewrite merge_sort_Permutation. apply list_elem_of_filter. done. }
    rewrite Hnil in Hm. by apply elem_of_nil in Hm.
  - rewrite merge_sort_Permutation. apply sublist_submseteq, sublist_filter.
Qed.


Lemma select_round_ready nodes I :
  ready_nodes nodes I <> [] ->
  exists round, select_round (ready_nodes nodes I) = round /\ round <> [] /\ NoDup round.*1 /\
    Forall (fun e => nodes !! e.1 = Some e.2 /\ n_dependencies e.2 ⊆ I) round.
Proof.
  intros Hne. destruct (select_round_spec _ Hne) as [Hr Hsub]. eexists. split_and!; [done|done| |].
  - destruct (submseteq_Permutation _ _ Hsub) as [rest Hp]. assert (Hnd := NoDup_ready nodes I).
    rewrite Hp, fmap_app in Hnd. by apply NoDup_app in Hnd as [? _].
  - apply Forall_forall. intros [i n] Hin. apply elem_of_ready. by apply (elem_of_submseteq _ _ _ Hin).
Qed.

Definition remove_round (round : list (FeatureInstallIdentity * Node)) (nodes : Nodes) : Nodes :=
  foldr (fun '(identity, _) nodes => delete identity nodes) nodes round.

Lemma remove_round_perm round nodes :
  NoDup round.*1 -> Forall (fun e => nodes !! e.1 = Some e.2) round ->
  round ++ map_to_list (remove_round round nodes) ≡ₚ map_to_list nodes.
Proof.
  intros Hnd Hin. induction round as [|[i n] round IH]; [done|].
  apply NoDup_cons in Hnd as [Hi Hnd]. apply Forall_cons in Hin as [Hn Hin]. cbn in Hn.
  specialize (IH Hnd Hin). rewrite <- IH. cbn [remove_round foldr app].
  fold (remove_round round nodes).
  assert (Hl : remove_round round nodes !! i = Some n).
  { rewrite <- Hn. clear -Hi. induction round as [|[j m] round IH]; [done|]. cbn in *.
    apply not_elem_of_cons in Hi as [Hij Hi]. rewrite lookup_delete_ne by done. by apply IH. }
  rewrite <- (map_to_list_delete _ _ _ Hl). by rewrite Permutation_middle.
Qed.

Lemma remove_round_size round nodes :
  round <> [] -> NoDup round.*1 -> Forall (fun e => nodes !! e.1 = Some e.2) round ->
  (size (remove_round round nodes) < size nodes)%nat.
Proof.
  intros Hne Hnd Hin. assert (Hp := Permutation_length (remove_round_perm _ _ Hnd Hin)).
  rewrite length_app, !length_map_to_list in Hp. destruct round; [done|]. cbn in *. lia.
Qed.

Lemma remove_round_filter round nodes order :
  NoDup round.*1 -> Forall (fun e => nodes !! e.1 = Some e.2) round ->
  order ≡ₚ map_to_list nodes ->
  filter (fun e => e.1 ∉@{gset _} list_to_set round.*1) order ≡ₚ map_to_list (remove_round round nodes).
Proof.
  intros Hnd Hin ->. assert (Hp := remove_round_perm round nodes Hnd Hin).
  assert (Hall : NoDup (round ++ map_to_list (remove_round round nodes)).*1)
    by (rewrite Hp; apply NoDup_fst_map_to_list).
  rewrite fmap_app in Hall. apply NoDup_app in Hall as (_ & Hdis & _).
  rewrite <- Hp, filter_app. rewrite filter_none, filter_every; [done| |].
  - apply Forall_forall. intros e He Hr. apply elem_of_list_to_set in Hr.
    apply (Hdis _ Hr). by apply list_elem_of_fmap_2.
  - apply Forall_forall. intros e He Hr. apply Hr, elem_of_list_to_set. by apply list_elem_of_fmap_2.
Qed.

(** ** All rounds *)

(** What the rounds return from a partial state. *)
Lemma rounds_spec fuel nodes I out :
  (size nodes <= fuel)%nat ->
  match rounds fuel nodes I out with
  | None => False
  | Some (Ok res) => exists order, res = out ++ List.map resolved_of order /\ valid_order nodes I order
  | Some (Err _) => forall order, ~ valid_order nodes I order
  end.
Proof.
  revert nodes I out. induction fuel as [|fuel IH]; intros nodes I out Hsz; cbn [rounds];
    case_bool_decide as Hemp.
  1,3: subst; exists []; rewrite app_nil_r; by split; [done|split; [by rewrite map_to_list_empty|]].
  { apply Hemp. apply map_size_empty_inv. lia. }
  destruct (ready_nodes nodes I) as [|e0 ready0] eqn:Hready.
  - intros order [Hp Hr]. destruct order as [|[i n] order].
    + symmetry in Hp. apply Permutation_nil_r, map_to_list_empty_iff in Hp. done.
    + assert (Hin : (i, n) ∈ ready_nodes nodes I).
      { apply elem_of_ready. split; [|by destruct Hr]. apply elem_of_map_to_list. rewrite <- Hp. left. }
      rewrite Hready in Hin. by apply elem_of_nil in Hin.
  - rewrite <- Hready. destruct (select_round_ready nodes I) as (round & -> & Hne & Hnd & Hall);
      [by rewrite Hready|].
    fold (remove_round round nodes).
    assert (Hin : Forall (fun e => nodes !! e.1 = Some e.2) round)
      by (eapply Forall_impl; [exact Hall|]; by intros ? [? _]).
    assert (Hdeps : respects I round)
      by (apply respects_ready; eapply Forall_impl; [exact Hall|]; by intros ? [_ ?]).
    assert (Hp := remove_round_perm round nodes Hnd Hin).
    assert (Hlt := remove_round_size round nodes Hne Hnd Hin).
    specialize (IH (remove_round round nodes) (list_to_set round.*1 ∪ I)
      (out ++ List.map resolved_of round) ltac:(lia)).
    destruct (rounds fuel _ _ _) as [[res|err]|].
    + destruct IH as (order & -> & Hop & Hor).
      exists (round ++ order). rewrite List.map_app, app_assoc. split; [done|]. split.
      * by rewrite Hop.
      * by apply respects_app.
    + intros order [Hop Hor]. eapply IH. split; [|by apply respects_filter].
      by apply remove_round_filter.
    + exact IH.
Qed.

(** ** Expansion *)

(** The packages and options of a node are fixed; its dependencies only grow. *)
Definition node_ext (n n' : Node) : Prop :=
  n_package n' = n_package n /\ n_options n' = n_options n /\ n_dependencies n ⊆ n_dependencies n'.

#[export] Instance node_ext_preorder : PreOrder node_ext.
Proof.
  split; [intros n; unfold node_ext; by split_and!|]. intros n1 n2 n3 (H1 & H2 & H3) (H4 & H5 & H6).
  unfold node_ext. split_and!; [congruence..|set_solver].
Qed.

(** [nodes'] keeps the nodes of [nodes]. *)
Definition grows (nodes nodes' : Nodes) : Prop :=
  forall i n, nodes !! i = Some n -> exists n', nodes' !! i = Some n' /\ node_ext n n'.

#[export] Instance grows_preorder : PreOrder grows.
Proof.
  split; [intros m i n H; by exists n|]. intros m1 m2 m3 H1 H2 i n Hn.
  destruct (H1 _ _ Hn) as (n' & Hn' & ?). destruct (H2 _ _ Hn') as (n'' & ? & ?).
  exists n''. split; [done|]. by etrans.
Qed.

(** A request is met: its package is a node with the options the request validates to, and
    the node that asked for it depends on it. *)
Definition satisfied (packages : Catalog) (nodes : Nodes) (r : Pending) : Prop :=
  exists package node,
    packages !! p_reference r = Some package /\ package_reference package = p_reference r /\
    nodes !! package_identity package = Some node /\
    validate_options (package_metadata package) (p_options r) (p_path r) = Ok (n_options node) /\
    forall parent, p_parent r = Some parent ->
      exists pn, nodes !! parent = Some pn /\ package_identity package ∈ n_dependencies pn.

Lemma satisfied_grows packages nodes nodes' r :
  grows nodes nodes' -> satisfied packages nodes r -> satisfied packages nodes' r.
Proof.
  intros Hg (p & n & Hp & Hr & Hn & Hv & Hpar). destruct (Hg _ _ Hn) as (n' & Hn' & _ & Ho & _).
  exists p, n'. split_and!; [done..|by rewrite Ho|]. intros parent Hparent.
  destruct (Hpar _ Hparent) as (pn & Hpn & Hin). destruct (Hg _ _ Hpn) as (pn' & Hpn' & _ & _ & ?).
  exists pn'. split; [done|set_solver].
Qed.

Lemma add_dependency_grows parent i nodes : grows nodes (add_dependency parent i nodes).
Proof.
  destruct parent as [parent|]; [|done]. intros j n Hj. cbn.
  destruct (decide (parent = j)) as [->|Hne].
  - rewrite lookup_alter_eq, Hj. eexists. split; [done|]. split_and!; [done..|]. cbn. set_solver.
  - rewrite lookup_alter_ne by done. by exists n.
Qed.

Lemma add_dependency_inv parent i nodes j n' :
  add_dependency parent i nodes !! j = Some n' ->
  exists n, nodes !! j = Some n /\ n_package n' = n_package n /\ n_options n' = n_options n /\
    n_dependencies n' ⊆ {[i]} ∪ n_dependencies n.
Proof.
  destruct parent as [parent|]; cbn; [|intros ?; exists n'; split_and!; [done..|set_solver]].
  destruct (decide (parent = j)) as [->|Hne].
  - rewrite lookup_alter_eq. destruct (nodes !! j) as [n|] eqn:E; [|done]. intros [= <-].
    exists n. by split_and!.
  - rewrite lookup_alter_ne by done. intros ?. exists n'. split_and!; [done..|set_solver].
Qed.

Lemma add_dependency_parent parent i nodes pn :
  nodes !! parent = Some pn ->
  exists pn', add_dependency (Some parent) i nodes !! parent = Some pn' /\ i ∈ n_dependencies pn'.
Proof. intros H. cbn. rewrite lookup_alter_eq, H. eexists. split; [done|]. cbn. set_solver. Qed.

(** The shape of a successful step: the package, and the nodes before the parent's dependency
    is recorded. *)
Lemma expand_inv packages item nodes nodes' pushed :
  expand packages item nodes = Ok (nodes', pushed) ->
  exists package node base,
    packages !! p_reference item = Some package /\ package_reference package = p_reference item /\
    validate_options (package_metadata package) (p_options item) (p_path item) = Ok (n_options node) /\
    nodes' = add_dependency (p_parent item) (package_identity package) base /\
    base !! package_identity package = Some node /\
    ((base = nodes /\ pushed = []) \/
     (base = <[package_identity package := node]> nodes /\ nodes !! package_identity package = None /\
      n_package node = package /\ n_dependencies node = ∅ /\
      pushed = dependency_requests package (p_path item))).
Proof.
  unfold expand. intros H. unfold ok_or in H.
  destruct (packages !! p_reference item) as [package|] eqn:Hp; [|done].
  case_bool_decide as Href; [|done]. cbn [negb] in H.
  destruct (validate_options _ _ _) as [effective|] eqn:Hv; [|done].
  destruct (nodes !! package_identity package) as [node|] eqn:Hn.
  - case_bool_decide as Heq; [|done]. cbn [negb] in H. injection H as <- <-.
    exists package, node, nodes. rewrite Heq. split_and!; auto.
  - injection H as <- <-.
    eexists package, (mkNode package effective (p_options item) ∅ (p_path item) 0), _.
    split_and!; [done..|apply lookup_insert_eq|]. by right.
Qed.

(** The requests still to be pushed: those of the catalog packages that are not nodes. *)
Definition unexpanded (nodes : Nodes) (l : list (FeatureReference * FeaturePackage)) : nat :=
  sum_list (List.map (fun '(_, p) =>
    if bool_decide (package_identity p ∈ dom nodes) then O
    else length (fm_depends_on (package_metadata p))) l).

Lemma unexpanded_mono nodes nodes' l :
  dom nodes ⊆ dom nodes' -> (unexpanded nodes' l <= unexpanded nodes l)%nat.
Proof.
  intros Hd. induction l as [|[r p] l IH]; [done|]. unfold unexpanded in *. cbn.
  repeat case_bool_decide; try lia. set_solver.
Qed.

Lemma unexpanded_new nodes nodes' l r p :
  dom nodes ⊆ dom nodes' -> (r, p) ∈ l -> package_identity p ∉ dom nodes ->
  package_identity p ∈ dom nodes' ->
  (length (fm_depends_on (package_metadata p)) + unexpanded nodes' l <= unexpanded nodes l)%nat.
Proof.
  intros Hd Hin Hn Hn'. induction l as [|[r' p'] l IH]; [by apply elem_of_nil in Hin|].
  assert (Hmono := unexpanded_mono nodes nodes' l Hd).
  apply elem_of_cons in Hin as [[= <- <-]|Hin]; unfold unexpanded in *; cbn.
  - rewrite bool_decide_eq_true_2, bool_decide_eq_false_2 by done. lia.
  - specialize (IH Hin). repeat case_bool_decide; try lia. set_solver.
Qed.

Lemma grows_dom nodes nodes' : grows nodes nodes' -> dom nodes ⊆ dom nodes'.
Proof.
  intros Hg i [n Hn]%elem_of_dom. destruct (Hg _ _ Hn) as (n' & ? & _). apply elem_of_dom. by exists n'.
Qed.

Lemma expand_grows packages item nodes nodes' pushed :
  expand packages item nodes = Ok (nodes', pushed) -> grows nodes nodes'.
Proof.
  intros H. apply expand_inv in H as (p & n & base & _ & _ & _ & -> & _ & [[-> _]|(-> & Hn & _)]).
  { apply add_dependency_grows. }
  etrans; [|apply add_dependency_grows]. intros i m Hm. exists m. split; [|done].
  by rewrite lookup_insert_ne by congruence.
Qed.

Lemma expand_measure packages item nodes nodes' pushed :
  expand packages item nodes = Ok (nodes', pushed) ->
  (length pushed + unexpanded nodes' (map_to_list packages)
     <= unexpanded nodes (map_to_list packages))%nat.
Proof.
  intros H. assert (Hd := grows_dom _ _ (expand_grows _ _ _ _ _ H)).
  apply expand_inv in H as (p & n & base & Hp & _ & _ & -> & Hb & [[-> ->]|(-> & Hn & _ & _ & ->)]).
  { by apply unexpanded_mono. }
  unfold dependency_requests. rewrite List.length_map. eapply unexpanded_new; [done| | |].
  - apply elem_of_map_to_list. exact Hp.
  - by apply not_elem_of_dom.
  - destruct (add_dependency_grows (p_parent item) (package_identity p) _ _ _ Hb) as (n' & Hn' & _).
    apply elem_of_dom. by exists n'.
Qed.

(** The fuel is enough: every step takes one request and pushes those of a new package. *)
Lemma expand_all_fuel fuel packages pending nodes :
  (length pending + unexpanded nodes (map_to_list packages) <= fuel)%nat ->
  exists r, expand_all fuel packages pending nodes = Some r.
Proof.
  revert pending nodes. induction fuel as [|fuel IH]; intros [|item pending] nodes Hf;
    cbn [expand_all]; cbn [length] in Hf; eauto; [lia|].
  destruct (expand packages item nodes) as [[nodes' pushed]|] eqn:He; [|eauto].
  apply IH. apply expand_measure in He. rewrite length_app. lia.
Qed.

Lemma expand_satisfies packages item nodes nodes' pushed :
  expand packages item nodes = Ok (nodes', pushed) ->
  (forall parent, p_parent item = Some parent -> is_Some (nodes !! parent)) ->
  satisfied packages nodes' item.
Proof.
  intros H Hpar. apply expand_inv in H as (p & n & base & Hp & Hr & Hv & -> & Hb & Hcase).
  destruct (add_dependency_grows (p_parent item) (package_identity p) _ _ _ Hb) as (n' & Hn' & _ & Ho & _).
  exists p, n'. split_and!; [done..|by rewrite Ho|]. intros parent Hparent. rewrite Hparent.
  destruct (Hpar _ Hparent) as [pn Hpn].
  assert (Hbase : exists pn', base !! parent = Some pn') by
    (destruct Hcase as [[-> _]|(-> & Hn & _)]; [by exists pn|]; exists pn;
     by rewrite lookup_insert_ne by congruence).
  destruct Hbase as [pn' Hpn']. by eapply add_dependency_parent.
Qed.

(** A node after a step is an old one or the new one, whose dependencies are pushed. *)
Lemma expand_nodes packages item nodes nodes' pushed :
  expand packages item nodes = Ok (nodes', pushed) ->
  exists p, packages !! p_reference item = Some p /\ package_reference p = p_reference item /\
    package_identity p ∈ dom nodes' /\
    (pushed = [] \/ pushed = dependency_requests p (p_path item) /\
       exists n, nodes' !! package_identity p = Some n /\ n_package n = p) /\
    forall j n', nodes' !! j = Some n' -> exists deps,
      n_dependencies n' ⊆ {[package_identity p]} ∪ deps /\
      ((exists n, nodes !! j = Some n /\ n_package n' = n_package n /\ deps = n_dependencies n) \/
       (j = package_identity p /\ n_package n' = p /\ deps = ∅ /\
        pushed = dependency_requests p (p_path item))).
Proof.
  intros H. apply expand_inv in H as (p & n & base & Hp & Hr & _ & -> & Hb & Hcase).
  destruct (add_dependency_grows (p_parent item) (package_identity p) _ _ _ Hb) as (n' & Hn' & Hpk & _ & _).
  exists p. split_and!; [done|done|apply elem_of_dom; by exists n'| |].
  - destruct Hcase as [[_ ->]|(_ & _ & Hnp & _ & ->)]; [by left|right]. split; [done|].
    exists n'. split; [done|congruence].
  - intros j m Hm. apply add_dependency_inv in Hm as (m0 & Hm0 & Hpk0 & _ & Hdeps).
    exists (n_dependencies m0). split; [done|].
    destruct Hcase as [[-> ->]|(-> & Hn & Hnp & Hnd & ->)]; [left; by exists m0|].
    destruct (decide (package_identity p = j)) as [<-|Hne].
    + rewrite lookup_insert_eq in Hm0. injection Hm0 as <-. right. split_and!; congruence.
    + rewrite lookup_insert_ne in Hm0 by done. left. by exists m0.
Qed.

(** A reference is wanted: it is requested, or a node depends on it. *)
Definition wanted (requested : list FeatureReference) (nodes : Nodes) (reference : FeatureReference) : Prop :=
  reference ∈ requested \/
  exists i n options, nodes !! i = Some n /\
    (reference, options) ∈ fm_depends_on (package_metadata (n_package n)).

Lemma wanted_grows requested nodes nodes' reference :
  grows nodes nodes' -> wanted requested nodes reference -> wanted requested nodes' reference.
Proof.
  intros Hg [?|(i & n & o & Hn & Hin)]; [by left|right]. destruct (Hg _ _ Hn) as (n' & Hn' & Hp & _).
  exists i, n', o. by rewrite Hp.
Qed.

(** The invariant of the expansion loop. *)
Record expanding (packages : Catalog) (requests : list Pending) (pending : list Pending)
    (nodes : Nodes) : Prop := mkExpanding {
  ex_parents r parent : r ∈ pending -> p_parent r = Some parent -> is_Some (nodes !! parent);
  ex_pending r : r ∈ pending -> wanted (List.map p_reference requests) nodes (p_reference r);
  ex_requests r : r ∈ requests -> r ∈ pending \/ satisfied packages nodes r;
  ex_nodes i n : nodes !! i = Some n ->
    package_identity (n_package n) = i /\
    packages !! package_reference (n_package n) = Some (n_package n) /\
    wanted (List.map p_reference requests) nodes (package_reference (n_package n)) /\
    n_dependencies n ⊆ dom nodes /\
    exists path, forall r, r ∈ dependency_requests (n_package n) path ->
      r ∈ pending \/ satisfied packages nodes r;
}.

Lemma elem_of_dependency_requests p path r :
  r ∈ dependency_requests p path <->
  exists reference options, (reference, options) ∈ fm_depends_on (package_metadata p) /\
    r = mkPending reference options (Some (package_identity p)) (path ++ [reference]).
Proof.
  unfold dependency_requests. rewrite list_elem_of_fmap. split.
  - intros ([a b] & -> & ?). by exists a, b.
  - intros (a & b & ? & ->). by exists (a, b).
Qed.

Lemma expanding_start packages requests :
  (forall r, r ∈ requests -> p_parent r = None) -> expanding packages requests requests ∅.
Proof.
  intros Hp. split.
  - intros r parent Hr Hs. by rewrite (Hp _ Hr) in Hs.
  - intros r Hr. left. by apply list_elem_of_fmap_2.
  - by left.
  - intros i n. by rewrite lookup_empty.
Qed.

Lemma expanding_step packages requests item pending nodes nodes' pushed :
  expanding packages requests (item :: pending) nodes ->
  expand packages item nodes = Ok (nodes', pushed) ->
  expanding packages requests (pending ++ pushed) nodes'.
Proof.
  intros [Hpar Hpend Hreq Hnodes] He.
  assert (Hg := expand_grows _ _ _ _ _ He). assert (Hd := grows_dom _ _ Hg).
  assert (Hsat : satisfied packages nodes' item)
    by (eapply expand_satisfies; [exact He|]; intros; eapply Hpar; [left|done]).
  assert (Hmet : forall r, r ∈ item :: pending \/ satisfied packages nodes r ->
                           r ∈ pending ++ pushed \/ satisfied packages nodes' r).
  { intros r [[->|?]%elem_of_cons|?]; [by right|left; set_solver|right; by eapply satisfied_grows]. }
  destruct (expand_nodes _ _ _ _ _ He) as (p & Hp & Hpr & Hpd & Hpush & Hold).
  split.
  - intros r parent [Hr|Hr]%elem_of_app Hs.
    + destruct (Hpar r parent) as [n Hn]; [by right|done|]. destruct (Hg _ _ Hn) as (n' & ? & _).
      by exists n'.
    + destruct Hpush as [->|[-> _]]; [by apply elem_of_nil in Hr|].
      apply elem_of_dependency_requests in Hr as (? & ? & _ & ->). injection Hs as <-.
      by apply elem_of_dom.
  - intros r [Hr|Hr]%elem_of_app; [eapply wanted_grows; [exact Hg|]; apply Hpend; by right|].
    destruct Hpush as [->|[-> (n & Hn & Hnp)]]; [by apply elem_of_nil in Hr|].
    apply elem_of_dependency_requests in Hr as (a & o & Hin & ->).
    right. exists (package_identity p), n, o. by rewrite Hnp.
  - intros r Hr. apply Hmet, Hreq, Hr.
  - intros j n' Hj. destruct (Hold _ _ Hj) as (deps & Hdeps & [(n & Hn & -> & ->)|(-> & -> & -> & ->)]).
    + destruct (Hnodes _ _ Hn) as (Hi & Hc & Hw & Hsub & path & Hall). split_and!; [done|done| | |].
      * by eapply wanted_grows.
      * set_solver.
      * exists path. intros r Hr. apply Hmet, Hall, Hr.
    + split_and!; [done|by rewrite Hpr| |set_solver|].
      * eapply wanted_grows; [exact Hg|]. rewrite Hpr. apply Hpend. left.
      * exists (p_path item). intros r Hr. left. set_solver.
Qed.

Lemma expanding_all fuel packages requests pending nodes nodes' :
  expanding packages requests pending nodes ->
  expand_all fuel packages pending nodes = Some (Ok nodes') ->
  expanding packages requests [] nodes'.
Proof.
  revert pending nodes. induction fuel as [|fuel IH]; intros [|item pending] nodes Hi H;
    cbn [expand_all] in H; [by injection H as <-|done|by injection H as <-|].
  destruct (expand packages item nodes) as [[n2 pushed]|] eqn:He; [|done].
  eapply IH; [|exact H]. by eapply expanding_step.
Qed.

(** ** Soft edges and priorities *)

(** What holds of the nodes when the rounds start. *)
Record planned (Url_parse : str -> result str FeatureUrl) (packages : Catalog)
    (requests : list Pending) (nodes : Nodes) : Prop := mkPlanned {
  pl_nodes i n : nodes !! i = Some n ->
    package_identity (n_package n) = i /\
    packages !! package_reference (n_package n) = Some (n_package n) /\
    wanted (List.map p_reference requests) nodes (package_reference (n_package n)) /\
    n_dependencies n ⊆ dom nodes /\
    exists path, forall r, r ∈ dependency_requests (n_package n) path -> satisfied packages nodes r;
  pl_requests r : r ∈ requests -> satisfied packages nodes r;
  pl_soft i n hint j m :
    nodes !! i = Some n -> hint ∈ fm_installs_after (package_metadata (n_package n)) ->
    nodes !! j = Some m -> j <> i ->
    eq_ignore_ascii_case (resource_name (package_reference (n_package m))) (hint_name Url_parse hint)
      = true ->
    j ∈ n_dependencies n;
}.

Lemma elem_of_fold_union {A} (g : A -> gset FeatureInstallIdentity) hs d j :
  j ∈ fold_left (fun deps h => deps ∪ g h) hs d <-> j ∈ d \/ exists h, h ∈ hs /\ j ∈ g h.
Proof.
  revert d. induction hs as [|h hs IH]; intros d; cbn [fold_left].
  - split; [by left|]. intros [?|(h & Hh & _)]; [done|by apply elem_of_nil in Hh].
  - rewrite IH. set_solver.
Qed.

Lemma elem_of_hint_matches U nodes own hint j :
  j ∈ hint_matches U nodes own hint <->
  j <> own /\ exists m, nodes !! j = Some m /\
    eq_ignore_ascii_case (resource_name (package_reference (n_package m))) (hint_name U hint) = true.
Proof.
  unfold hint_matches. rewrite elem_of_filter, elem_of_dom. unfold is_Some.
  setoid_rewrite map_lookup_filter_Some. done.
Qed.

Lemma grows_fmap (f : Node -> Node) nodes : (forall n, node_ext n (f n)) -> grows nodes (f <$> nodes).
Proof. intros Hf i n Hn. exists (f n). by rewrite lookup_fmap, Hn. Qed.

Lemma planned_soft_edges U packages requests nodes :
  expanding packages requests [] nodes -> planned U packages requests (apply_soft_edges U nodes).
Proof.
  intros [_ _ Hreq Hnodes].
  assert (Hg : grows nodes (apply_soft_edges U nodes)).
  { apply grows_fmap. intros n. split_and!; [done..|]. intros j Hj. apply elem_of_fold_union. by left. }
  assert (Hmet : forall r, r ∈ [] \/ satisfied packages nodes r ->
                           satisfied packages (apply_soft_edges U nodes) r).
  { intros r [Hr|Hr]; [by apply elem_of_nil in Hr|by eapply satisfied_grows]. }
  split.
  - intros i n' Hn'. unfold apply_soft_edges in Hn' at 1. rewrite lookup_fmap in Hn'.
    destruct (nodes !! i) as [n|] eqn:Hn; [|done]. injection Hn' as <-. cbn.
    destruct (Hnodes _ _ Hn) as (Hi & Hc & Hw & Hd & path & Hall).
    split_and!; [done|done|by eapply wanted_grows| |].
    + intros j Hj. unfold apply_soft_edges. rewrite dom_fmap. apply elem_of_fold_union in Hj
        as [Hj|(h & _ & Hj)]; [by apply Hd|].
      apply elem_of_hint_matches in Hj as (_ & m & Hm & _). apply elem_of_dom. by exists m.
    + exists path. intros r Hr. apply Hmet, Hall, Hr.
  - intros r Hr. apply Hmet, Hreq, Hr.
  - intros i n' hint j m' Hn' Hh Hm' Hne He. unfold apply_soft_edges in Hn', Hm'.
    rewrite lookup_fmap in Hn', Hm'. destruct (nodes !! i) as [n|] eqn:Hn; [|done].
    destruct (nodes !! j) as [m|] eqn:Hm; [|done]. injection Hn' as <-. injection Hm' as <-.
    destruct (Hnodes _ _ Hn) as (Hi & _). apply elem_of_fold_union. right.
    exists hint. split; [done|]. apply elem_of_hint_matches. split; [congruence|]. by exists m.
Qed.

Lemma planned_override U packages requests count nodes entry nodes' :
  planned U packages requests nodes -> apply_override count nodes entry = Ok nodes' ->
  planned U packages requests nodes'.
Proof.
  intros [Hnodes Hreq Hsoft] H. destruct entry as [index value]. unfold apply_override in H.
  destruct (_ || _); [done|]. case_bool_decide; [done|]. injection H as <-.
  match goal with |- planned _ _ _ (?f <$> _) => set (f0 := f) end.
  assert (Hf : forall n, n_package (f0 n) = n_package n /\ n_options (f0 n) = n_options n /\
                         n_dependencies (f0 n) = n_dependencies n).
  { intros n. unfold f0. by destruct (eq_ignore_ascii_case _ _). }
  assert (Hg : grows nodes (f0 <$> nodes)).
  { apply grows_fmap. intros n. unfold node_ext. by destruct (Hf n) as (-> & -> & ->). }
  assert (Hinv : forall i n', (f0 <$> nodes) !! i = Some n' -> exists n, nodes !! i = Some n /\
            n_package n' = n_package n /\ n_dependencies n' = n_dependencies n).
  { intros i n' Hn'. rewrite lookup_fmap in Hn'. destruct (nodes !! i) as [n|]; [|done].
    injection Hn' as <-. exists n. split; [done|]. by destruct (Hf n) as (-> & _ & ->). }
  split.
  - intros i n' Hn'. destruct (Hinv _ _ Hn') as (n & Hn & -> & ->).
    destruct (Hnodes _ _ Hn) as (Hi & Hc & Hw & Hd & path & Hall). rewrite dom_fmap.
    split_and!; [done|done|by eapply wanted_grows|done|].
    exists path. intros r Hr. eapply satisfied_grows; [exact Hg|]. by apply Hall.
  - intros r Hr. eapply satisfied_grows; [exact Hg|]. by apply Hreq.
  - intros i n' hint j m' Hn' Hh Hm' Hne He. destruct (Hinv _ _ Hn') as (n & Hn & Hp & ->).
    destruct (Hinv _ _ Hm') as (m & Hm & Hpm & _). rewrite Hp in Hh. rewrite Hpm in He.
    by eapply Hsoft.
Qed.

Lemma planned_priorities U packages requests overrides nodes nodes' :
  planned U packages requests nodes -> apply_priorities nodes overrides = Ok nodes' ->
  planned U packages requests nodes'.
Proof. apply try_fold_ind. intros s a s' Hs H. by eapply planned_override. Qed.

(** ** Cycles *)

(** [a] depends on [b], both being nodes. *)
Definition edge (nodes : Nodes) (a b : FeatureInstallIdentity) : Prop :=
  exists n, nodes !! a = Some n /\ b ∈ n_dependencies n /\ is_Some (nodes !! b).

Fixpoint walk (nodes : Nodes) (l : list FeatureInstallIdentity) : Prop :=
  match l with
  | a :: ((b :: _) as rest) => edge nodes a b /\ walk nodes rest
  | _ => True
  end.

(** A dependency path that ends where it starts, with at least one edge. *)
Definition closed_walk (nodes : Nodes) (c : list FeatureInstallIdentity) : Prop :=
  walk nodes c /\ exists a mid, c = a :: mid ++ [a].

Lemma walk_suffix nodes a b : walk nodes (a ++ b) -> walk nodes b.
Proof.
  induction a as [|x a IH]; intros H; [done|]. apply IH. cbn in H. by destruct (a ++ b); [|destruct H].
Qed.

Lemma walk_snoc nodes l a b : walk nodes (l ++ [a]) -> edge nodes a b -> walk nodes ((l ++ [a]) ++ [b]).
Proof.
  induction l as [|x l IH]; intros Hw He; [done|]. cbn in Hw |- *.
  destruct l as [|y l]; cbn in *; [by destruct Hw|]. destruct Hw as [Hxy Hw]. split; [done|].
  by apply IH.
Qed.

Lemma position_spec {A} (p : A -> bool) l k :
  position p l = Some k -> exists x, drop k l = x :: drop (S k) l /\ p x = true.
Proof.
  revert k. induction l as [|a l IH]; intros k H; cbn in H; [done|].
  destruct (p a) eqn:Hp; [injection H as <-; by exists a|].
  destruct (position p l) as [k'|]; [|done]. injection H as <-. by apply IH.
Qed.

(** The dependencies [visit] follows. *)
Definition node_deps (nodes : Nodes) (identity : FeatureInstallIdentity) : list FeatureInstallIdentity :=
  match nodes !! identity with
  | Some node => filter (fun d => is_Some (nodes !! d))
                   (merge_sort identity_le (elements (n_dependencies node)))
  | None => []
  end.

Lemma elem_of_node_deps nodes i d : d ∈ node_deps nodes i <-> edge nodes i d.
Proof.
  unfold node_deps, edge. destruct (nodes !! i) as [n|] eqn:Hn.
  - rewrite list_elem_of_filter, merge_sort_Permutation, elem_of_elements. split.
    + intros [? ?]. by exists n.
    + intros (n' & [= <-] & ? & ?). done.
  - split; [by intros ?%elem_of_nil|]. by intros (? & ? & _).
Qed.

(** What [visit] returns as a cycle is one. *)
Lemma visit_sound fuel nodes visiting D identity c :
  walk nodes (visiting ++ [identity]) -> visit fuel nodes visiting D identity = inl c ->
  closed_walk nodes c.
Proof.
  revert visiting D identity. induction fuel as [|fuel IH]; intros visiting D identity Hw H;
    cbn [visit] in H; [done|].
  destruct (position _ visiting) as [k|] eqn:Hpos.
  - injection H as <-. apply position_spec in Hpos as (x & Hd & Hx%bool_decide_eq_true). subst x.
    split; [|by exists identity, (drop (S k) visiting); rewrite Hd].
    apply (walk_suffix _ (take k visiting)). by rewrite app_assoc, take_drop.
  - case_bool_decide as HD; [done|]. clear HD. fold (node_deps nodes identity) in H.
    destruct (visit_children _ _ _) as [c'|] eqn:Hc; [|done]. injection H as <-.
    assert (Hall : forall d, d ∈ node_deps nodes identity -> edge nodes identity d)
      by (intros; by apply elem_of_node_deps).
    revert D Hc. induction (node_deps nodes identity) as [|d ds IHd]; intros D Hc; [done|].
    cbn [visit_children] in Hc. destruct (visit fuel _ _ D d) as [c2|D'] eqn:Hv.
    + injection Hc as ->. eapply IH; [|exact Hv]. apply walk_snoc; [done|]. apply Hall. left.
    + apply (IHd ltac:(intros; apply Hall; by right) D' Hc).
Qed.

(** The sets of nodes that can be installed in some order, ignoring what is not a node. *)
Inductive schedulable (nodes : Nodes) : gset FeatureInstallIdentity -> Prop :=
| schedulable_empty : schedulable nodes ∅
| schedulable_add D i n :
    schedulable nodes D -> nodes !! i = Some n ->
    (forall d, edge nodes i d -> d ∈ D) -> schedulable nodes ({[i]} ∪ D).

Lemma schedulable_source nodes D :
  schedulable nodes D -> D <> ∅ -> exists i n, nodes !! i = Some n /\ forall d, ~ edge nodes i d.
Proof.
  induction 1 as [|D i n HD IH Hn Hd]; intros Hne; [done|].
  destruct (decide (D = ∅)) as [->|HneD]; [|by apply IH].
  exists i, n. split; [done|]. intros d He. specialize (Hd _ He). set_solver.
Qed.

(** With enough fuel, a search that finds no cycle schedules the node it starts from. *)
Lemma visit_complete fuel nodes visiting D identity D' :
  NoDup visiting -> (forall i, i ∈ visiting -> i ∈ dom nodes) -> identity ∈ dom nodes ->
  (size nodes < fuel + length visiting)%nat -> schedulable nodes D ->
  visit fuel nodes visiting D identity = inr D' ->
  D ⊆ D' /\ identity ∈ D' /\ schedulable nodes D'.
Proof.
  revert visiting D identity D'. induction fuel as [|fuel IH];
    intros visiting D identity D' Hnd Hin Hid Hf HD H; cbn [visit] in H.
  { assert (Hle : visiting ⊆+ (map_to_list nodes).*1).
    { apply NoDup_submseteq; [done|]. intros i Hi. apply Hin, elem_of_dom in Hi as [n Hn].
      apply list_elem_of_fmap. exists (i, n). by rewrite elem_of_map_to_list. }
    apply submseteq_length in Hle. rewrite length_fmap, length_map_to_list in Hle. lia. }
  destruct (position _ visiting) as [k|] eqn:Hpos; [done|].
  assert (Hfresh : identity ∉ visiting).
  { intros Hi. apply position_none in Hpos. rewrite Forall_forall in Hpos.
    specialize (Hpos _ Hi). apply bool_decide_eq_false in Hpos. done. }
  case_bool_decide as HiD; [injection H as <-; done|]. clear HiD. fold (node_deps nodes identity) in H.
  destruct (visit_children _ _ _) as [|D2] eqn:Hc; [done|]. injection H as <-.
  assert (Hkids : forall ds D, (forall d, d ∈ ds -> edge nodes identity d) -> schedulable nodes D ->
    visit_children (visit fuel nodes (visiting ++ [identity])) D ds = inr D2 ->
    D ⊆ D2 /\ (forall d, d ∈ ds -> d ∈ D2) /\ schedulable nodes D2).
  { clear D HD Hc. induction ds as [|d ds IHd]; intros D Hall HD Hc; cbn [visit_children] in Hc.
    - injection Hc as <-. split_and!; [done| |done]. by intros d ?%elem_of_nil.
    - destruct (visit fuel _ _ D d) as [|D3] eqn:Hv; [done|].
      destruct (Hall d) as (_ & _ & _ & Hd); [left|].
      eapply IH in Hv as (Hs & Hd3 & HD3); [|..|exact HD]; cycle 1.
      + apply NoDup_app. split_and!; [done| |apply NoDup_singleton]. set_solver.
      + set_solver.
      + by apply elem_of_dom.
      + rewrite length_app. cbn. lia.
      + destruct (IHd D3) as (? & ? & ?); [set_solver|done|done|]. split_and!; [set_solver| |done].
        intros x [->|?]%elem_of_cons; [set_solver|auto]. }
  destruct (Hkids _ _ (fun d => proj1 (elem_of_node_deps nodes identity d)) HD Hc) as (Hs & Hds & HD2).
  split_and!; [set_solver|set_solver|]. apply elem_of_dom in Hid as [n Hn].
  eapply schedulable_add; [done|exact Hn|]. intros d He. by apply Hds, elem_of_node_deps.
Qed.

(** [find_cycle] returns a cycle, or there is a node whose dependencies are all gone. *)
Lemma find_cycle_spec nodes :
  nodes <> ∅ ->
  match find_cycle nodes with
  | Some c => closed_walk nodes c
  | None => exists i n, nodes !! i = Some n /\ forall d, ~ edge nodes i d
  end.
Proof.
  intros Hne. unfold find_cycle.
  set (step := fun acc identity => match acc with inl c => inl c | inr D => visit _ nodes [] D identity end).
  assert (Hgen : forall ks acc, (forall k, k ∈ ks -> k ∈ dom nodes) ->
    match acc with inl c => closed_walk nodes c | inr D => schedulable nodes D end ->
    match fold_left step ks acc with
    | inl c => closed_walk nodes c
    | inr D => schedulable nodes D /\ (forall k, k ∈ ks -> k ∈ D) /\
               match acc with inl _ => False | inr D0 => D0 ⊆ D end
    end).
  { induction ks as [|k ks IH]; intros acc Hks Hacc; cbn [fold_left].
    - destruct acc; [done|]. split_and!; [done| |done]. by intros k ?%elem_of_nil.
    - destruct acc as [c|D]; cbn [step].
      + specialize (IH (inl c) ltac:(set_solver) Hacc). by destruct (fold_left step ks _) as [|?]; [|tauto].
      + destruct (visit _ nodes [] D k) as [c|D'] eqn:Hv.
        * apply visit_sound in Hv; [|done].
          specialize (IH (inl c) ltac:(set_solver) Hv). by destruct (fold_left step ks _) as [|?]; [|tauto].
        * apply visit_complete in Hv as (Hs & Hk & HD');
            [|constructor|set_solver|apply Hks; left|cbn; lia|done].
          specialize (IH (inr D') ltac:(set_solver) HD').
          destruct (fold_left step ks _) as [|D2]; [done|]. destruct IH as (? & ? & ?). set_solver. }
  specialize (Hgen (node_keys nodes) (inr ∅)).
  assert (Hks : forall k, k ∈ node_keys nodes <-> k ∈ dom nodes).
  { intros k. rewrite node_keys_perm, list_elem_of_fmap, elem_of_dom. split.
    - intros ([k' n] & -> & Hn%elem_of_map_to_list). by exists n.
    - intros [n Hn]. exists (k, n). by rewrite elem_of_map_to_list. }
  specialize (Hgen ltac:(intros; by apply Hks) (schedulable_empty nodes)).
  destruct (fold_left step _ _) as [c|D]; [done|]. destruct Hgen as (HD & Hall & _).
  apply (schedulable_source _ D HD). intros ->. apply Hne. apply dom_empty_iff_L.
  apply set_eq. intros k. split; [|set_solver]. intros Hk. by apply Hall, Hks.
Qed.

Lemma edge_subset nodes nodes' a b : nodes' ⊆ nodes -> edge nodes' a b -> edge nodes a b.
Proof.
  intros Hs (n & Hn & Hin & [m Hm]). exists n. split_and!; [by eapply lookup_weaken|done|].
  exists m. by eapply lookup_weaken.
Qed.

Lemma closed_walk_subset nodes nodes' c : nodes' ⊆ nodes -> closed_walk nodes' c -> closed_walk nodes c.
Proof.
  intros Hs [Hw Hc]. split; [|done]. clear Hc. induction c as [|a [|b c] IH]; [done..|].
  destruct Hw as [He Hw]. split; [by eapply edge_subset|by apply IH].
Qed.

Lemma remove_round_lookup round nodes i n :
  remove_round round nodes !! i = Some n <-> i ∉ round.*1 /\ nodes !! i = Some n.
Proof.
  induction round as [|[j m] round IH]; cbn.
  - split; [intros ?; split; [apply not_elem_of_nil|done]|by intros [_ ?]].
  - fold (remove_round round nodes). rewrite lookup_delete_Some, IH, not_elem_of_cons. naive_solver.
Qed.

(** Every dependency of a node is a node or installed. *)
Definition closed_under (I : gset FeatureInstallIdentity) (nodes : Nodes) : Prop :=
  forall i n, nodes !! i = Some n -> n_dependencies n ⊆ dom nodes ∪ I.

Lemma closed_remove_round I round nodes :
  closed_under I nodes -> closed_under (list_to_set round.*1 ∪ I) (remove_round round nodes).
Proof.
  intros Hc i n [_ Hn]%remove_round_lookup d Hd. specialize (Hc _ _ Hn d Hd).
  apply elem_of_union in Hc as [[m Hm]%elem_of_dom|?]; [|set_solver].
  destruct (decide (d ∈ round.*1)) as [?|Hr]; [set_solver|].
  apply elem_of_union_l, elem_of_dom. exists m. by apply remove_round_lookup.
Qed.

(** The cycle of the error. *)
Definition cycle_error (c : list FeatureInstallIdentity) : FeatureError :=
  Feature_DependencyCycle (join ($" -> ") (List.map identity_label c)).

Lemma rounds_cycle fuel nodes I out e :
  closed_under I nodes -> rounds fuel nodes I out = Some (Err e) ->
  exists c, e = cycle_error c /\ closed_walk nodes c.
Proof.
  revert nodes I out. induction fuel as [|fuel IH]; intros nodes I out Hc H; cbn [rounds] in H;
    case_bool_decide as Hemp; try done.
  destruct (ready_nodes nodes I) as [|e0 ready0] eqn:Hready.
  - injection H as <-. assert (Hcy := find_cycle_spec nodes Hemp).
    destruct (find_cycle nodes) as [c|]; [by exists c|]. exfalso.
    destruct Hcy as (i & n & Hn & Hnone).
    assert (Hin : (i, n) ∈ ready_nodes nodes I).
    { apply elem_of_ready. split; [done|]. intros d Hd. specialize (Hc _ _ Hn d Hd).
      apply elem_of_union in Hc as [Hd'%elem_of_dom|?]; [|done]. by destruct (Hnone d); exists n. }
    rewrite Hready in Hin. by apply elem_of_nil in Hin.
  - fold (remove_round (select_round (e0 :: ready0)) nodes) in H.
    apply IH in H as (c & -> & Hw); [|by apply closed_remove_round].
    exists c. split; [done|]. eapply closed_walk_subset; [|exact Hw].
    apply map_subseteq_spec. by intros i n [_ ?]%remove_round_lookup.
Qed.

(** ** The resolved order *)

Lemma respects_split I pre i n post :
  respects I (pre ++ (i, n) :: post) -> n_dependencies n ⊆ list_to_set pre.*1 ∪ I.
Proof.
  revert I. induction pre as [|[j m] pre IH]; intros I H; cbn in *; [set_solver|].
  destruct H as [_ H]. apply IH in H. set_solver.
Qed.

(** A resolved Feature stands for a reference with the options it was asked for. *)
Definition provides (packages : Catalog) (feature : ResolvedFeature)
    (reference : FeatureReference) (options : strmap FeatureValue) : Prop :=
  exists package path,
    packages !! reference = Some package /\ package_reference package = reference /\
    package_identity package = rf_identity feature /\
    validate_options (package_metadata package) options path = Ok (rf_options feature).

(** What an installation order promises. *)
Record installs (Url_parse : str -> result str FeatureUrl) (requests : list FeatureRequest)
    (packages : Catalog) (resolved : list ResolvedFeature) : Prop := mkInstalls {
  in_once : NoDup (List.map rf_identity resolved);
  in_catalog f : f ∈ resolved -> exists package,
    packages !! rf_reference f = Some package /\ package_identity package = rf_identity f /\
    package_metadata package = rf_metadata f;
  in_needed f : f ∈ resolved ->
    rf_reference f ∈ List.map request_reference requests \/
    exists g options, g ∈ resolved /\ (rf_reference f, options) ∈ fm_depends_on (rf_metadata g);
  in_requests q : q ∈ requests -> exists g, g ∈ resolved /\
    provides packages g (request_reference q) (request_options q);
  in_depends pre f post reference options : resolved = pre ++ f :: post ->
    (reference, options) ∈ fm_depends_on (rf_metadata f) ->
    exists g, g ∈ pre /\ provides packages g reference options;
  in_soft pre f post hint g : resolved = pre ++ f :: post ->
    hint ∈ fm_installs_after (rf_metadata f) -> g ∈ resolved -> rf_identity g <> rf_identity f ->
    eq_ignore_ascii_case (resource_name (rf_reference g)) (hint_name Url_parse hint) = true ->
    g ∈ pre;
}.

Section order.
Context (U : str -> result str FeatureUrl) (packages : Catalog) (reqs : list FeatureRequest).

Definition root_request (request : FeatureRequest) : Pending :=
  mkPending (request_reference request) (request_options request) None [request_reference request].

Context (nodes : Nodes) (Hplan : planned U packages (List.map root_request reqs) nodes).
Context (order : list (FeatureInstallIdentity * Node)) (Horder : valid_order nodes ∅ order).

Lemma order_lookup i n : (i, n) ∈ order <-> nodes !! i = Some n.
Proof. rewrite (proj1 Horder). apply elem_of_map_to_list. Qed.

Lemma order_NoDup : NoDup order.*1.
Proof. rewrite (proj1 Horder). apply NoDup_fst_map_to_list. Qed.

Lemma resolved_identity : List.map rf_identity (List.map resolved_of order) = order.*1.
Proof. rewrite List.map_map. apply List.map_ext. by intros [i n]. Qed.

Lemma elem_of_resolved f :
  f ∈ List.map resolved_of order <-> exists i n, nodes !! i = Some n /\ f = resolved_of (i, n).
Proof.
  rewrite list_elem_of_fmap. split.
  - intros ([i n] & -> & Hin%order_lookup). by exists i, n.
  - intros (i & n & Hn%order_lookup & ->). by exists (i, n).
Qed.

Lemma resolved_split pre f post :
  List.map resolved_of order = pre ++ f :: post ->
  exists i n, nodes !! i = Some n /\ f = resolved_of (i, n) /\
    forall j m, j ∈ n_dependencies n -> nodes !! j = Some m -> resolved_of (j, m) ∈ pre.
Proof.
  intros (opre & orest & Ho & <- & Hrest)%List.map_eq_app.
  symmetry in Hrest. destruct orest as [|[i n] opost]; [done|]. injection Hrest as -> _.
  exists i, n. split_and!; [apply order_lookup; rewrite Ho; set_solver|done|].
  intros j m Hj Hm. assert (Hr := proj2 Horder). rewrite Ho in Hr. apply respects_split in Hr.
  apply Hr, elem_of_union in Hj as [Hj%elem_of_list_to_set|Hj]; [|set_solver].
  apply list_elem_of_fmap in Hj as ([j' m'] & -> & Hin). cbn in Hm.
  apply list_elem_of_fmap. exists (j', m'). split; [|done]. cbn.
  assert (Hm' : nodes !! j' = Some m') by (apply order_lookup; rewrite Ho; set_solver). congruence.
Qed.

Lemma satisfied_provides r : satisfied packages nodes r ->
  exists i n, nodes !! i = Some n /\ provides packages (resolved_of (i, n)) (p_reference r) (p_options r) /\
    forall parent pn, p_parent r = Some parent -> nodes !! parent = Some pn -> i ∈ n_dependencies pn.
Proof.
  intros (p & n & Hp & Hr & Hn & Hv & Hpar). exists (package_identity p), n. split_and!; [done| |].
  - by exists p, (p_path r).
  - intros parent pn Hparent Hpn. destruct (Hpar _ Hparent) as (pn' & Hpn' & Hin). congruence.
Qed.

Lemma planned_installs : installs U reqs packages (List.map resolved_of order).
Proof.
  destruct Hplan as [Hnodes Hreq Hsoft]. split.
  - rewrite resolved_identity. apply order_NoDup.
  - intros f (i & n & Hn & ->)%elem_of_resolved. destruct (Hnodes _ _ Hn) as (Hi & Hc & _).
    by exists (n_package n).
  - intros f (i & n & Hn & ->)%elem_of_resolved.
    destruct (Hnodes _ _ Hn) as (_ & _ & [Hw|(j & m & o & Hm & Hin)] & _); [left|right].
    + rewrite List.map_map in Hw. exact Hw.
    + exists (resolved_of (j, m)), o. split; [apply elem_of_resolved; by exists j, m|done].
  - intros q Hq. destruct (satisfied_provides (root_request q)) as (i & n & Hn & Hp & _).
    { apply Hreq. by apply list_elem_of_fmap_2. }
    exists (resolved_of (i, n)). split; [apply elem_of_resolved; by exists i, n|done].
  - intros pre f post reference options Hs Hin.
    destruct (resolved_split _ _ _ Hs) as (i & n & Hn & -> & Hpre).
    destruct (Hnodes _ _ Hn) as (Hi & _ & _ & _ & path & Hall).
    destruct (satisfied_provides (mkPending reference options (Some i) (path ++ [reference])))
      as (j & m & Hm & Hp & Hpar).
    { apply Hall, elem_of_dependency_requests. exists reference, options. by rewrite Hi. }
    exists (resolved_of (j, m)). split; [|done]. apply Hpre; [|done]. by eapply Hpar.
  - intros pre f post hint g Hs Hin (j & m & Hm & ->)%elem_of_resolved Hne He.
    destruct (resolved_split _ _ _ Hs) as (i & n & Hn & -> & Hpre).
    apply Hpre; [|done]. by eapply Hsoft.
Qed.
End order.

(** ** Correctness *)

Lemma unexpanded_empty l :
  unexpanded ∅ l = sum_list (List.map (fun '(_, p) => length (fm_depends_on (package_metadata p))) l).
Proof.
  induction l as [|[r p] l IH]; [done|]. unfold unexpanded in *. cbn. rewrite IH.
  rewrite bool_decide_eq_false_2; [done|]. rewrite dom_empty_L. set_solver.
Qed.

Lemma expand_all_total requests packages :
  exists r, expand_all (expansion_fuel requests packages) packages (List.map root_request requests) ∅
            = Some r.
Proof. apply expand_all_fuel. rewrite unexpanded_empty, List.length_map. unfold expansion_fuel. lia. Qed.

Lemma expanded_plan U requests packages overrides nodes nodes' :
  expand_all (expansion_fuel requests packages) packages (List.map root_request requests) ∅
    = Some (Ok nodes) ->
  apply_priorities (apply_soft_edges U nodes) overrides = Ok nodes' ->
  planned U packages (List.map root_request requests) nodes'.
Proof.
  intros He Ha. eapply planned_priorities; [|exact Ha]. apply planned_soft_edges.
  eapply expanding_all; [|exact He]. apply expanding_start.
  by intros r (q & -> & _)%list_elem_of_fmap.
Qed.

(** [round_sort] always returns.  An order it returns lists every node once, each after the
    nodes it depends on; when it fails, no such order exists, and the error names a closed path
    of dependencies between the nodes (the fallback that lists all nodes is never taken). *)
Theorem round_sort_correct (nodes : Nodes) :
  (forall i n, nodes !! i = Some n -> n_dependencies n ⊆ dom nodes) ->
  match round_sort nodes with
  | None => False
  | Some (Ok out) => exists order, out = List.map resolved_of order /\ valid_order nodes ∅ order
  | Some (Err e) =>
      (exists c, e = cycle_error c /\ closed_walk nodes c) /\ forall order, ~ valid_order nodes ∅ order
  end.
Proof.
  intros Hc. unfold round_sort. assert (Hs := rounds_spec (size nodes) nodes ∅ [] ltac:(lia)).
  destruct (rounds _ _ _ _) as [[out|e]|] eqn:Hr; [done| |done].
  split; [|done]. eapply rounds_cycle; [|exact Hr]. intros i n Hn. specialize (Hc _ _ Hn). set_solver.
Qed.

(** C9: [resolve_features] terminates, and the order it returns installs every Feature once, only
    Features that are requested or depended on, with the metadata of the catalog; every request
    and every [dependsOn] of an installed Feature is provided with the options it validates to,
    a dependency before its dependent; and every Feature an [installsAfter] hint matches comes
    before the Feature that gives the hint. *)
Theorem resolve_features_installs (Url_parse : str -> result str FeatureUrl)
    (requests : list FeatureRequest) (packages : Catalog) (overrides : list str) :
  exists r, resolve_features Url_parse requests packages overrides = Some r /\
    forall resolved, r = Ok resolved -> installs Url_parse requests packages resolved.
Proof.
  unfold resolve_features. fold root_request.
  change (List.map (fun request => _) requests) with (List.map root_request requests).
  destruct (expand_all_total requests packages) as [[nodes|e] He]; rewrite He; [|by eexists].
  destruct (apply_priorities _ _) as [nodes'|e] eqn:Ha; [|by eexists].
  assert (Hp := expanded_plan _ _ _ _ _ _ He Ha).
  assert (Hs := rounds_spec (size nodes') nodes' ∅ [] ltac:(lia)). unfold round_sort.
  destruct (rounds _ _ _ _) as [[out|e]|]; [|by eexists|done].
  eexists. split; [done|]. intros resolved [= <-]. destruct Hs as (order & -> & Ho).
  by eapply planned_installs.
Qed.

(** ** Examples *)

(** The fixtures of the tests: local Features, without a URL. *)
Definition sample_package (name : str) (depends installs_after : list str) : FeaturePackage :=
  let local n := Ref_Local ($"./features/" ++ n) in
  mkPackage (local name) (LocalSource ($"./features/" ++ name))
    (mkFeatureMetadata name ($"1") ∅ (List.map (fun d => (local d, ∅)) depends)
       (List.map (fun d => $"./features/" ++ d) installs_after)
       (mkContributions ∅ [] [] [] None (mkLifecycleCommands None None None None None None) ∅ None None))
    None None.

Definition sample_catalog (l : list FeaturePackage) : Catalog :=
  list_to_map (List.map (fun p => (package_reference p, p)) l).

Definition sample_request (name : str) : FeatureRequest :=
  mkFeatureRequest (Ref_Local ($"./features/" ++ name)) ∅.

Definition no_url : str -> result str FeatureUrl := fun _ => Err [].

Definition resolved_ids (r : option (result FeatureError (list ResolvedFeature))) :
    option (result FeatureError (list str)) :=
  result_map (List.map (fun f => fm_id (rf_metadata f))) <$> r.

(** The test [soft_hints_overrides_and_disconnected_nodes_use_deterministic_rounds]. *)
Example resolve_rounds_example :
  resolved_ids (resolve_features no_url
    [sample_request ($"top"); sample_request ($"free"); sample_request ($"after")]
    (sample_catalog [sample_package ($"top") [$"base"] []; sample_package ($"free") [] [];
                     sample_package ($"after") [] [$"base"]; sample_package ($"base") [] []])
    [$"./features/free"; $"./features/top"])
  = Some (Ok [$"free"; $"base"; $"top"; $"after"]).
Proof. vm_compute. reflexivity. Qed.

(** The test [cycle_error_is_actionable_and_each_contribution_occurs_once]. *)
Example resolve_cycle_example :
  resolved_ids (resolve_features no_url [sample_request ($"a")]
    (sample_catalog [sample_package ($"a") [$"b"] []; sample_package ($"b") [$"a"] []]) [])
  = Some (Err (Feature_DependencyCycle ($"./features/a -> ./features/b -> ./features/a"))).
Proof. vm_compute. reflexivity. Qed.

Definition sample_node (name : str) (deps : gset FeatureInstallIdentity) : Node :=
  mkNode (sample_package name [] []) ∅ ∅ deps [] 0.

Definition sample_nodes : Nodes :=
  {[ LocalSource ($"a") := sample_node ($"a") {[ LocalSource ($"b") ]};
     LocalSource ($"b") := sample_node ($"b") ∅ ]}.

Lemma round_sort_correct_witness :
  match round_sort sample_nodes with
  | None => False
  | Some (Ok out) => exists order, out = List.map resolved_of order /\ valid_order sample_nodes ∅ order
  | Some (Err e) =>
      (exists c, e = cycle_error c /\ closed_walk sample_nodes c) /\
      forall order, ~ valid_order sample_nodes ∅ order
  end.
Proof.
  apply (round_sort_correct sample_nodes). intros i n Hn.
  assert (Hall : map_Forall (fun _ n => n_dependencies n ⊆ dom sample_nodes) sample_nodes)
    by (apply (bool_decide_unpack _); vm_compute; exact I).
  exact (Hall i n Hn).
Defined.
