(* ===== verification/FeatureLock.v ===== *)
(** * FeatureLock: the frozen lock of a Feature resolution
    ([cdenv-devcontainer/src/feature/lock.rs])

    The maps of the lock are keyed by the text of a reference.  [parse] and [to_json_bytes] are
    the JSON codec around [validate_structure]. *)

From S2P Require Import Prelude Text Order Profile Net FeatureReference Feature Resolution.

(** @src cdenv-devcontainer/src/feature/lock.rs:17-17 FEATURE_LOCK_VERSION *)
Definition FEATURE_LOCK_VERSION : N := 1.

(** @src cdenv-devcontainer/src/feature/lock.rs:179-190 LockedFeature *)
Record LockedFeature : Type := mkLocked {
  lf_version : str;
  lf_resolved : str;
  lf_integrity : str;
  lf_options : strmap FeatureValue;
  lf_depends_on : strmap (strmap FeatureValue);
}.

(** @src cdenv-devcontainer/src/feature/lock.rs:22-29 FeatureLock *)
Record FeatureLock : Type := mkLock {
  lock_version : N;
  lock_requested : strmap (strmap FeatureValue);
  lock_features : strmap LockedFeature;
}.

#[export] Instance LockedFeature_eq_dec : EqDecision LockedFeature.
Proof. solve_decision. Defined.
#[export] Instance FeatureLock_eq_dec : EqDecision FeatureLock.
Proof. solve_decision. Defined.

(** @src cdenv-devcontainer/src/feature/lock.rs:32-38 FeatureLock::default *)
Definition default_lock : FeatureLock := mkLock FEATURE_LOCK_VERSION ∅ ∅.

(** @src cdenv-devcontainer/src/feature/lock.rs:197-217 LockedFeature::new *)
Definition LockedFeature_new (version resolved integrity : str) (options : strmap FeatureValue)
    (depends_on : strmap (strmap FeatureValue)) : result FeatureError LockedFeature :=
  fail_if bool_decide (version = []) || bool_decide (resolved = [])
    with Feature_InvalidLock ($"lock version and resolution cannot be empty") in
  let? _ := map_err Feature_InvalidLock (validate_sha256 integrity) in
  Ok (mkLocked version resolved integrity options depends_on).

(** [requests.iter().map(..).collect()]: a later request of a reference replaces an earlier one.
    @src cdenv-devcontainer/src/feature/lock.rs:51-54 FeatureLock::from_resolution *)
Definition requested_map (requests : list FeatureRequest) : strmap (strmap FeatureValue) :=
  fold_left (fun m request => <[reference_as_str (request_reference request) := request_options request]> m)
    requests ∅.

(** @src cdenv-devcontainer/src/feature/lock.rs:66-69 FeatureLock::from_resolution *)
Definition resolved_reference (package : FeaturePackage) : str :=
  match package_digest package with
  | None => reference_as_str (package_reference package)
  | Some digest => oci_resource_name (reference_as_str (package_reference package)) ++ $"@" ++ digest
  end.

(** @src cdenv-devcontainer/src/feature/lock.rs:70-75 FeatureLock::from_resolution *)
Definition locked_dependencies (package : FeaturePackage) : strmap (strmap FeatureValue) :=
  fold_left (fun m '(reference, options) => <[reference_as_str reference := options]> m)
    (fm_depends_on (package_metadata package)) ∅.

(** The record of one resolved Feature.
    @src cdenv-devcontainer/src/feature/lock.rs:57-85 FeatureLock::from_resolution *)
Definition locked_feature (packages : gmap FeatureReference FeaturePackage) (feature : ResolvedFeature) :
    result FeatureError LockedFeature :=
  let? package := ok_or (Feature_InvalidLock ($"resolved Feature is absent from its package catalog"))
                    (packages !! rf_reference feature) in
  let? integrity := ok_or (Feature_InvalidLock ($"resolved Feature has no content integrity"))
                      (package_integrity package) in
  let? _ := map_err Feature_InvalidLock (validate_sha256 integrity) in
  LockedFeature_new (fm_version (rf_metadata feature)) (resolved_reference package) integrity
    (rf_options feature) (locked_dependencies package).

(** @src cdenv-devcontainer/src/feature/lock.rs:46-92 FeatureLock::from_resolution *)
Definition from_resolution (requests : list FeatureRequest) (resolved : list ResolvedFeature)
    (packages : gmap FeatureReference FeaturePackage) : result FeatureError FeatureLock :=
  let? features := try_fold (fun features feature =>
    let? record := locked_feature packages feature in
    Ok (<[reference_as_str (rf_reference feature) := record]> features)) ∅ resolved in
  Ok (mkLock FEATURE_LOCK_VERSION (requested_map requests) features).

(** @src cdenv-devcontainer/src/feature/lock.rs:124-136 FeatureLock::validate_frozen *)
Definition validate_frozen_lock (lock : FeatureLock) (requests : list FeatureRequest)
    (resolved : list ResolvedFeature) (packages : gmap FeatureReference FeaturePackage) :
    result FeatureError unit :=
  let? current := from_resolution requests resolved packages in
  if bool_decide (lock = current) then Ok tt else Err Feature_StaleLock.

(** @src cdenv-devcontainer/src/feature/lock.rs:145-155 FeatureLock::validate_requested *)
Definition validate_requested (lock : FeatureLock) (requests : list FeatureRequest) :
    result FeatureError unit :=
  if bool_decide (requested_map requests = lock_requested lock) then Ok tt else Err Feature_StaleLock.

(** @src cdenv-devcontainer/src/feature/lock.rs:157-173 FeatureLock::validate_structure *)
Definition validate_structure (lock : FeatureLock) : result FeatureError unit :=
  fail_if negb (lock_version lock =? FEATURE_LOCK_VERSION)
    with Feature_InvalidLock ($"unsupported lockfile version") in
  try_fold (fun _ '(_, record) =>
    fail_if bool_decide (lf_version record = []) || bool_decide (lf_resolved record = [])
      with Feature_InvalidLock ($"lock record has an empty version or resolution") in
    map_err Feature_InvalidLock (validate_sha256 (lf_integrity record)))
    tt (sorted_entries (lock_features lock)).


(** ** Freezing a resolution *)

(** The record [record] says of [feature] what its package [package] has. *)
Definition locks (packages : gmap FeatureReference FeaturePackage) (feature : ResolvedFeature)
    (record : LockedFeature) : Prop :=
  exists package, packages !! rf_reference feature = Some package
    /\ lf_version record = fm_version (rf_metadata feature)
    /\ lf_options record = rf_options feature
    /\ Some (lf_integrity record) = package_integrity package
    /\ lf_resolved record = resolved_reference package
    /\ lf_depends_on record = locked_dependencies package.

Definition well_formed_record (record : LockedFeature) : Prop :=
  lf_version record <> [] /\ lf_resolved record <> [] /\ validate_sha256 (lf_integrity record) = Ok tt.

Lemma locked_feature_Ok packages feature record :
  locked_feature packages feature = Ok record -> locks packages feature record /\ well_formed_record record.
Proof.
  unfold locked_feature, LockedFeature_new. intros H.
  destruct (packages !! rf_reference feature) as [package|] eqn:Ep; [|done]. cbn [ok_or] in H.
  destruct (package_integrity package) as [integrity|] eqn:Ei; [|done]. cbn [ok_or] in H.
  destruct (validate_sha256 integrity) as [[]|] eqn:Es; [|done]. cbn [map_err] in H.
  repeat case_bool_decide; [done..|]. injection H as <-.
  split; [exists package|]; repeat split; done.
Qed.

Lemma locks_functional packages feature r1 r2 :
  locks packages feature r1 -> locks packages feature r2 -> r1 = r2.
Proof.
  intros (p1 & Hp1 & ? & ? & ? & ? & ?) (p2 & Hp2 & ? & ? & ? & ? & ?).
  rewrite Hp1 in Hp2. injection Hp2 as <-. destruct r1, r2; cbn in *. congruence.
Qed.

(** The keys of the records. *)
Definition texts (resolved : list ResolvedFeature) : list str :=
  List.map (fun feature => reference_as_str (rf_reference feature)) resolved.

(** The map of a lock holds exactly the records of the resolved Features. *)
Definition frozen (packages : gmap FeatureReference FeaturePackage) (resolved : list ResolvedFeature)
    (features : strmap LockedFeature) : Prop :=
  (forall text record, features !! text = Some record ->
     exists feature, feature ∈ resolved /\ reference_as_str (rf_reference feature) = text
       /\ locks packages feature record /\ well_formed_record record)
  /\ (forall feature, feature ∈ resolved ->
        is_Some (features !! reference_as_str (rf_reference feature))).

Lemma from_resolution_frozen requests resolved packages lock :
  from_resolution requests resolved packages = Ok lock ->
  lock_version lock = FEATURE_LOCK_VERSION /\ lock_requested lock = requested_map requests
  /\ frozen packages resolved (lock_features lock).
Proof.
  unfold from_resolution. intros H. destruct (try_fold _ _ resolved) as [features|] eqn:E; [|done].
  injection H as <-. cbn [lock_version lock_requested lock_features]. split_and!; [done..|].
  revert E. apply (try_fold_prefix (fun done features => frozen packages done features));
    [|split; [intros ? ? Hn; by rewrite lookup_empty in Hn|intros f Hf; by apply not_elem_of_nil in Hf]].
  intros pre a s s' [Hs Hall] Hstep. destruct (locked_feature packages a) as [record|] eqn:E; [|done].
  injection Hstep as <-. apply locked_feature_Ok in E as [Hl Hw]. split.
  - intros text record0 Ht. apply lookup_insert_Some in Ht as [[<- <-]|[_ Ht]].
    + exists a. set_solver.
    + destruct (Hs _ _ Ht) as (f & ? & ?). exists f. set_solver.
  - intros f Hf. apply lookup_insert_is_Some'. apply elem_of_app in Hf as [Hf| ->%list_elem_of_singleton];
      [right; by apply Hall|by left].
Qed.

Lemma well_formed_validates lock :
  lock_version lock = FEATURE_LOCK_VERSION ->
  (forall text record, lock_features lock !! text = Some record -> well_formed_record record) ->
  validate_structure lock = Ok tt.
Proof.
  intros Hv Hall. unfold validate_structure. rewrite Hv, N.eqb_refl. cbn [negb].
  assert (Hel : forall text record, (text, record) ∈ sorted_entries (lock_features lock) ->
    well_formed_record record) by (intros; eapply Hall, elem_of_sorted_entries; done).
  clear Hv Hall. revert Hel. generalize (sorted_entries (lock_features lock)) as l.
  induction l as [|[text record] l IH]; intros Hel; [done|]. cbn [try_fold].
  destruct (Hel text record) as (? & ? & ->); [set_solver|].
  rewrite !bool_decide_eq_false_2 by done. cbn [orb map_err].
  apply IH. intros t r Hin. eapply (Hel t). set_solver.
Qed.

Lemma text_unique resolved f g :
  NoDup (texts resolved) -> f ∈ resolved -> g ∈ resolved ->
  reference_as_str (rf_reference f) = reference_as_str (rf_reference g) -> f = g.
Proof.
  intros Hnd Hf Hg Ht. apply list_elem_of_lookup in Hf as [i Hi], Hg as [j Hj].
  assert (i = j); [|congruence].
  eapply (NoDup_lookup (texts resolved)); [done|..]; unfold texts;
    rewrite list_lookup_fmap; [rewrite Hi|rewrite Hj]; cbn; [by rewrite Ht|done].
Qed.

(** With distinct texts, the record of a resolved Feature is its own. *)
Lemma frozen_lookup packages resolved features text record :
  NoDup (texts resolved) -> frozen packages resolved features ->
  features !! text = Some record <->
  exists feature, feature ∈ resolved /\ reference_as_str (rf_reference feature) = text
    /\ locks packages feature record.
Proof.
  intros Hnd [Hs Hall]. split.
  - intros Hr. destruct (Hs _ _ Hr) as (f & ? & ? & ? & _). by exists f.
  - intros (f & Hf & <- & Hl). destruct (Hall _ Hf) as [r Hr]. rewrite Hr. f_equal.
    destruct (Hs _ _ Hr) as (g & Hg & Ht & Hl' & _).
    rewrite (text_unique resolved g f) in Hl' by done. by eapply locks_functional.
Qed.

Lemma frozen_texts packages resolved features text :
  frozen packages resolved features -> text ∈ texts resolved <-> is_Some (features !! text).
Proof.
  intros [Hs Hall]. unfold texts. rewrite list_elem_of_fmap. split.
  - intros (f & -> & Hf). by apply Hall.
  - intros [r Hr]. destruct (Hs _ _ Hr) as (f & ? & ? & _). by exists f.
Qed.

(** Two maps of records are equal exactly when their resolutions agree on every Feature. *)
Lemma frozen_same packages packages' resolved resolved' features features' :
  NoDup (texts resolved) -> NoDup (texts resolved') ->
  frozen packages resolved features -> frozen packages' resolved' features' ->
  features = features' <->
  (forall text, text ∈ texts resolved' <-> text ∈ texts resolved)
  /\ forall feature feature' record, feature ∈ resolved -> feature' ∈ resolved' ->
       reference_as_str (rf_reference feature) = reference_as_str (rf_reference feature') ->
       locks packages feature record <-> locks packages' feature' record.
Proof.
  intros Hn Hn' Hf Hf'. split.
  - intros <-. split.
    { intros text. rewrite (frozen_texts packages resolved features), (frozen_texts packages' resolved' features) by done. done. }
    intros f f' record Hin Hin' Ht.
    pose proof (frozen_lookup _ _ _ (reference_as_str (rf_reference f)) record Hn Hf) as E.
    pose proof (frozen_lookup _ _ _ (reference_as_str (rf_reference f)) record Hn' Hf') as E'.
    split; intros Hl.
    + destruct (proj1 E' (proj2 E (ex_intro _ f (conj Hin (conj eq_refl Hl))))) as (g & Hg & Hgt & Hgl).
      by rewrite (text_unique resolved' f' g) by congruence.
    + destruct (proj1 E (proj2 E' (ex_intro _ f' (conj Hin' (conj (eq_sym Ht) Hl))))) as (g & Hg & Hgt & Hgl).
      by rewrite (text_unique resolved f g) by congruence.
  - intros [Ht Hl]. apply map_eq. intros text. apply option_eq. intros record.
    rewrite (frozen_lookup packages resolved), (frozen_lookup packages' resolved') by done. split.
    + intros (f & Hin & <- & Hlk). assert (Hx : reference_as_str (rf_reference f) ∈ texts resolved')
        by (apply Ht, list_elem_of_fmap; eauto).
      apply list_elem_of_fmap in Hx as (g & Hg & Hin'). exists g. split_and!; [done..|]. by eapply Hl.
    + intros (f & Hin & <- & Hlk). assert (Hx : reference_as_str (rf_reference f) ∈ texts resolved)
        by (apply Ht, list_elem_of_fmap; eauto).
      apply list_elem_of_fmap in Hx as (g & Hg & Hin'). exists g. split_and!; [done..|]. by eapply Hl.
Qed.

(** A lock built from a resolution is structurally valid and accepts the requests it was built
    for; when the resolved references have distinct texts, it holds, for each resolved Feature and
    for nothing else, a record with that Feature's version, effective options, integrity, resolved
    reference and dependencies.  A later resolution is accepted against the lock exactly when it
    builds the same lock; an accepted one has the same root requests, the same set of references,
    and for each of them the same version, options, integrity, resolved reference (so the same
    digest) and dependencies; every other one that can be locked is stale. *)
Theorem lock_freezes_resolution requests resolved packages lock :
  from_resolution requests resolved packages = Ok lock -> NoDup (texts resolved) ->
  validate_structure lock = Ok tt
  /\ validate_requested lock requests = Ok tt
  /\ (forall text record, lock_features lock !! text = Some record <->
        exists feature, feature ∈ resolved /\ reference_as_str (rf_reference feature) = text
          /\ locks packages feature record)
  /\ forall requests' resolved' packages' lock',
       from_resolution requests' resolved' packages' = Ok lock' -> NoDup (texts resolved') ->
       (validate_frozen_lock lock requests' resolved' packages' = Err Feature_StaleLock <-> lock <> lock')
       /\ (validate_frozen_lock lock requests' resolved' packages' = Ok tt <->
             requested_map requests' = requested_map requests
             /\ (forall text, text ∈ texts resolved' <-> text ∈ texts resolved)
             /\ forall feature feature' record, feature ∈ resolved -> feature' ∈ resolved' ->
                  reference_as_str (rf_reference feature) = reference_as_str (rf_reference feature') ->
                  locks packages feature record <-> locks packages' feature' record).
Proof.
  intros H Hnd. pose proof (from_resolution_frozen _ _ _ _ H) as (Hv & Hq & Hfr).
  split_and!.
  - apply well_formed_validates; [done|]. intros t r Hr. by destruct Hfr as [Hs _]; destruct (Hs _ _ Hr) as (? & ? & ? & ? & ?).
  - unfold validate_requested. by rewrite Hq, bool_decide_eq_true_2.
  - intros text record. by apply frozen_lookup.
  - intros requests' resolved' packages' lock' H' Hnd'. unfold validate_frozen_lock. rewrite H'.
    pose proof (from_resolution_frozen _ _ _ _ H') as (Hv' & Hq' & Hfr'). split.
    + case_bool_decide; split; intros; congruence.
    + transitivity (lock = lock'); [case_bool_decide; split; congruence|].
      rewrite <- Hq, <- Hq'. transitivity
       (lock_requested lock' = lock_requested lock /\ lock_features lock = lock_features lock').
      { destruct lock, lock'; cbn in *; subst. split; [intros [= ]|intros [-> ->]]; done. }
      rewrite (frozen_same packages packages' resolved resolved') by done. tauto.
Qed.

(** ** A resolution with two Features *)

Definition sample_digest (c : N) : str := $"sha256:" ++ repeat c 64.

Definition locked_package (name version : str) (depends : list str) (integrity : N) : FeaturePackage :=
  mkPackage (Ref_Oci ($"ghcr.io/features/" ++ name ++ $":1")) (OciDigest (sample_digest 97))
    (mkFeatureMetadata name version ∅
       (List.map (fun d => (Ref_Oci ($"ghcr.io/features/" ++ d ++ $":1"), ∅)) depends) []
       (fm_contributions (package_metadata (sample_package name [] []))))
    (Some (sample_digest 97)) (Some (sample_digest integrity)).

Definition locked_request : FeatureRequest := mkFeatureRequest (Ref_Oci ($"ghcr.io/features/top:1")) ∅.

Definition locked_resolution (integrity : N) : list FeaturePackage :=
  [locked_package ($"base") ($"2.1.0") [] integrity; locked_package ($"top") ($"1.0.3") [$"base"] 98].

Definition resolved_package (p : FeaturePackage) : ResolvedFeature :=
  mkResolved (package_reference p) (package_identity p) (package_metadata p) ∅.

Definition lock_of (integrity : N) : result FeatureError FeatureLock :=
  from_resolution [locked_request] (List.map resolved_package (locked_resolution integrity))
    (sample_catalog (locked_resolution integrity)).

Lemma locked_texts integrity : NoDup (texts (List.map resolved_package (locked_resolution integrity))).
Proof. vm_compute. apply (bool_decide_unpack _). vm_compute. exact I. Qed.

(** The republished [base], whose content has another hash, is stale for the lock. *)
Lemma lock_freezes_resolution_witness : exists lock,
  lock_of 98 = Ok lock
  /\ (lf_resolved <$> lock_features lock !! ($"ghcr.io/features/top:1"))
       = Some ($"ghcr.io/features/top@" ++ sample_digest 97)
  /\ validate_structure lock = Ok tt
  /\ validate_frozen_lock lock [locked_request] (List.map resolved_package (locked_resolution 99))
       (sample_catalog (locked_resolution 99)) = Err Feature_StaleLock.
Proof.
  destruct (lock_of 98) as [lock|e] eqn:E; [|by vm_compute in E].
  destruct (lock_of 99) as [lock'|e] eqn:E'; [|by vm_compute in E'].
  exists lock. destruct (lock_freezes_resolution _ _ _ _ E (locked_texts 98)) as (Hs & _ & _ & Hf).
  split_and!; [done| |done|].
  - vm_compute in E. injection E as <-. vm_compute. reflexivity.
  - apply (Hf _ _ _ _ E' (locked_texts 99)). intros ->. rewrite <- E' in E. by vm_compute in E.
Defined.
