(* ===== verification/Ports.v ===== *)
(** * Ports: publications and declared forwards
    ([cdenv-devcontainer/src/ports.rs])

    The rendering of a JSON string in a property path is a parameter. *)

From S2P Require Import Prelude Text Order Utf8 Net Profile Metadata Feature.

(** ** Data *)

(** @src cdenv-devcontainer/src/ports.rs:16-16 PortNumber *)
Record PortNumber : Type := mkPort { port_get : N }.

#[export] Instance PortNumber_eq_dec : EqDecision PortNumber.
Proof. solve_decision. Defined.

(** @src cdenv-devcontainer/src/ports.rs:24-26 PortNumber::new *)
Definition PortNumber_new (value : N) : option PortNumber :=
  if value =? 0 then None else Some (mkPort value).

(** @src cdenv-devcontainer/src/ports.rs:43-48 PortRange *)
Record PortRange : Type := mkRange { range_start : PortNumber; range_end : PortNumber }.

(** @src cdenv-devcontainer/src/ports.rs:51-53 PortRange::overlaps *)
Definition overlaps (a b : PortRange) : bool :=
  (port_get (range_start a) <=? port_get (range_end b))
  && (port_get (range_start b) <=? port_get (range_end a)).

(** @src cdenv-devcontainer/src/ports.rs:55-57 PortRange::width *)
Definition width (a : PortRange) : N := port_get (range_end a) - port_get (range_start a).

(** @src cdenv-devcontainer/src/ports.rs:63-71 PublicationProtocol *)
Inductive PublicationProtocol : Type := Publish_Tcp | Publish_Udp | Publish_Sctp.

#[export] Instance PublicationProtocol_eq_dec : EqDecision PublicationProtocol.
Proof. solve_decision. Defined.

(** @src cdenv-devcontainer/src/ports.rs:76-83 PublicationBinding *)
Inductive PublicationBinding : Type :=
| Bind_Loopback (address : IpAddr)
| Bind_NonLoopback (address : IpAddr)
| Bind_AllInterfaces.

#[export] Instance PublicationBinding_eq_dec : EqDecision PublicationBinding.
Proof. solve_decision. Defined.

(** @src cdenv-devcontainer/src/ports.rs:86-88 PublicationBinding::may_expose_non_loopback *)
Definition may_expose_non_loopback (b : PublicationBinding) : bool :=
  match b with Bind_Loopback _ => false | _ => true end.

(** @src cdenv-devcontainer/src/ports.rs:90-95 PublicationBinding::address_family *)
Definition address_family (b : PublicationBinding) : option bool :=
  match b with
  | Bind_Loopback a | Bind_NonLoopback a => Some match a with IpAddr_V6 _ => true | IpAddr_V4 _ => false end
  | Bind_AllInterfaces => None
  end.

(** @src cdenv-devcontainer/src/ports.rs:100-111 PublicationRequest *)
Record PublicationRequest : Type := mkPublication {
  pub_argument : str;
  pub_binding : PublicationBinding;
  pub_host_ports : option PortRange;
  pub_container_ports : PortRange;
  pub_protocol : PublicationProtocol;
}.

(** @src cdenv-devcontainer/src/ports.rs:116-121 ForwardTargetHost *)
Inductive ForwardTargetHost : Type := Target_ContainerLoopback | Target_ComposeService (service : str).

(** @src cdenv-devcontainer/src/ports.rs:126-137 EffectivePortAttributes *)
Record EffectivePortAttributes : Type := mkPortAttrs {
  pa_on_auto_forward : AutoForwardAction;
  pa_elevate_if_needed : bool;
  pa_label : option str;
  pa_require_local_port : bool;
  pa_protocol : option PortProtocol;
}.

(** @src cdenv-devcontainer/src/ports.rs:142-153 ForwardRequest *)
Record ForwardRequest : Type := mkForward {
  fr_requested_local : PortNumber;
  fr_assigned_local : option PortNumber;
  fr_target_host : ForwardTargetHost;
  fr_target_port : PortNumber;
  fr_attributes : EffectivePortAttributes;
}.

(** @src cdenv-devcontainer/src/ports.rs:168-179 PortPlanningWarningKind *)
Inductive PortPlanningWarningKind : Type :=
| NonLoopbackPublication | DeferredDiscovery | ExplicitForwardOverridesIgnore
| BrowserLaunchSuppressed | EmbeddedPreviewUnsupported.

(** @src cdenv-devcontainer/src/ports.rs:158-163 PortPlanningWarning *)
Record PortPlanningWarning : Type := mkPortWarning {
  pw_property_path : str;
  pw_kind : PortPlanningWarningKind;
}.

(** @src cdenv-devcontainer/src/ports.rs:183-190 PortPlan *)
Record PortPlan : Type := mkPortPlan {
  pp_publications : list PublicationRequest;
  pp_forwards : list ForwardRequest;
  pp_warnings : list PortPlanningWarning;
}.

(** @src cdenv-devcontainer/src/ports.rs:593-604 PortPlanningErrorKind *)
Inductive PortPlanningErrorKind : Type :=
| Ports_InvalidPort | Ports_InvalidPublication | Ports_PublicationConflict | Ports_ForwardConflict
| Ports_ServiceTargetOutsideCompose.

(** @src cdenv-devcontainer/src/ports.rs:609-615 PortPlanningError *)
Record PortPlanningError : Type := mkPortError {
  pe_property_path : str;
  pe_kind : PortPlanningErrorKind;
  pe_message : str;
}.

(** @src cdenv-devcontainer/src/ports.rs:385-393 EffectivePortAttributes::default *)
Definition default_attributes : EffectivePortAttributes := mkPortAttrs Auto_Notify false None false None.

(** @src cdenv-devcontainer/src/ports.rs:397-405 EffectivePortAttributes::from *)
Definition attributes_from (value : PortAttributes) : EffectivePortAttributes :=
  mkPortAttrs (default Auto_Notify (on_auto_forward value)) (default false (elevate_if_needed value))
    (port_label value) (default false (require_local_port value)) (port_protocol value).

(** ** Publications *)

(** @src cdenv-devcontainer/src/ports.rs:408-414 app_port_path *)
Definition app_port_path (count index : N) : str :=
  if count =? 1 then $"$.appPort" else $"$.appPort[" ++ to_string index ++ $"]".

(** @src cdenv-devcontainer/src/ports.rs:583-589 invalid_publication *)
Definition invalid_publication (property : str) : PortPlanningError :=
  mkPortError property Ports_InvalidPublication
    ($"invalid Docker publication; use [host-address:]host-port:container-port[/protocol]").

(** @src cdenv-devcontainer/src/ports.rs:416-435 numeric_publication *)
Definition numeric_publication (port : N) (property : str) :
    result PortPlanningError PublicationRequest :=
  let? port := ok_or (mkPortError property Ports_InvalidPort
                        ($"publication port must be between 1 and 65535")) (PortNumber_new port) in
  let range := mkRange port port in
  let digits := to_string (port_get port) in
  Ok (mkPublication ($"127.0.0.1:" ++ digits ++ $":" ++ digits)
        (Bind_Loopback (IpAddr_V4 (mkIpv4 0x7f000001))) (Some range) range Publish_Tcp).

(** @src cdenv-devcontainer/src/ports.rs:506-517 parse_range *)
Definition parse_range (value : str) : option PortRange :=
  let '(start, end_) := default (value, value) (split_once ($"-") value) in
  let parse v := n ← parse_uint MAX_U16 v; PortNumber_new n in
  s ← parse start;
  e ← parse end_;
  if port_get s <=? port_get e then Some (mkRange s e) else None.

(** @src cdenv-devcontainer/src/ports.rs:519-525 binding *)
Definition binding (address : IpAddr) : PublicationBinding :=
  if is_loopback address then Bind_Loopback address else Bind_NonLoopback address.

(** The protocol suffix. @src cdenv-devcontainer/src/ports.rs:444-450 parse_publication *)
Definition split_protocol (argument : str) : option (str * PublicationProtocol) :=
  match rsplit_once 47 argument with
  | Some (value, suffix) =>
      if str_eqb suffix ($"tcp") then Some (value, Publish_Tcp)
      else if str_eqb suffix ($"udp") then Some (value, Publish_Udp)
      else if str_eqb suffix ($"sctp") then Some (value, Publish_Sctp)
      else None
  | None => Some (argument, Publish_Tcp)
  end.

(** The address, the host ports and the container ports.
    @src cdenv-devcontainer/src/ports.rs:451-486 parse_publication *)
Definition split_addresses (text : str) : option (PublicationBinding * str * str) :=
  match strip_prefix ($"[") text with
  | Some rest =>
      '(address, ports) ← split_once ($"]:") rest;
      address ← IpAddr_parse address;
      match address with
      | IpAddr_V4 _ => None
      | IpAddr_V6 _ =>
          let '(host, container) := default ([], ports) (split_once ($":") ports) in
          Some (binding address, host, container)
      end
  | None =>
      match split 58 text with
      | [container] => Some (Bind_AllInterfaces, [], container)
      | [address_or_host; container] =>
          match IpAddr_parse address_or_host with
          | Some address => Some (binding address, [], container)
          | None => Some (Bind_AllInterfaces, address_or_host, container)
          end
      | [address; host; container] =>
          if bool_decide (address = []) then Some (Bind_AllInterfaces, host, container)
          else address ← IpAddr_parse address; Some (binding address, host, container)
      | _ => None
      end
  end.

(** @src cdenv-devcontainer/src/ports.rs:437-504 parse_publication *)
Definition parse_publication (argument property : str) : result PortPlanningError PublicationRequest :=
  let invalid := invalid_publication property in
  fail_if bool_decide (argument = []) || existsb is_whitespace argument with invalid in
  let? (without_protocol, protocol) := ok_or invalid (split_protocol argument) in
  let? (bind, host, container) := ok_or invalid (split_addresses without_protocol) in
  let? container_ports := ok_or invalid (parse_range container) in
  let? host_ports :=
    (if bool_decide (host = []) then Ok None
     else let? ports := ok_or invalid (parse_range host) in Ok (Some ports)) in
  fail_if match host_ports with
          | Some ports => negb (width ports =? width container_ports)
          | None => false
          end with invalid in
  Ok (mkPublication argument bind host_ports container_ports protocol).

(** @src cdenv-devcontainer/src/ports.rs:537-546 bindings_overlap *)
Definition bindings_overlap (l r : PublicationBinding) : bool :=
  if match address_family l, address_family r with
     | Some l6, Some r6 => negb (Bool.eqb l6 r6)
     | _, _ => false
     end
  then false
  else bool_decide (l = Bind_AllInterfaces) || bool_decide (r = Bind_AllInterfaces) || bool_decide (l = r).

(** @src cdenv-devcontainer/src/ports.rs:527-535 publications_conflict *)
Definition publications_conflict (l r : PublicationRequest) : bool :=
  bool_decide (pub_protocol l = pub_protocol r)
  && match pub_host_ports l, pub_host_ports r with
     | Some lp, Some rp => overlaps lp rp && bindings_overlap (pub_binding l) (pub_binding r)
     | _, _ => false
     end.

(** The publication of one [appPort] entry.
    @src cdenv-devcontainer/src/ports.rs:258-261 plan_ports *)
Definition publication_of (count : N) (entry : N * AppPort) : result PortPlanningError PublicationRequest :=
  let '(index, app_port) := entry in
  match app_port with
  | AppPort_Number port => numeric_publication port (app_port_path count index)
  | AppPort_DockerArgument argument => parse_publication argument (app_port_path count index)
  end.

(** One round of the first loop. @src cdenv-devcontainer/src/ports.rs:256-279 plan_ports *)
Definition publish_step (count : N) (acc : list PublicationRequest * list PortPlanningWarning)
    (entry : N * AppPort) :
    result PortPlanningError (list PublicationRequest * list PortPlanningWarning) :=
  let '(publications, warnings) := acc in
  let property := app_port_path count (fst entry) in
  let? publication := publication_of count entry in
  let warnings := warnings ++ (if may_expose_non_loopback (pub_binding publication)
                               then [mkPortWarning property NonLoopbackPublication] else []) in
  fail_if existsb (fun existing => publications_conflict existing publication) publications
    with mkPortError property Ports_PublicationConflict
           ($"publication conflicts with an earlier fixed host binding") in
  Ok (publications ++ [publication], warnings).

(** ** Attribute keys *)

(** @src cdenv-devcontainer/src/ports.rs:549-553 AttributeKeyKind *)
Inductive AttributeKeyKind : Type := Key_Exact | Key_Deferred | Key_InvalidPort.

(** @src cdenv-devcontainer/src/ports.rs:576-581 valid_service_name *)
Definition valid_service_name (value : str) : bool :=
  negb (bool_decide (value = []))
  && forallb (fun b => is_ascii_lowercase b || is_ascii_digit b || (b =? 45)) (encode_utf8 value).

(** [value.parse::<u16>().is_ok_and(|port| port > 0)] *)
Definition positive_u16 (value : str) : bool :=
  match parse_uint MAX_U16 value with Some port => 0 <? port | None => false end.

(** @src cdenv-devcontainer/src/ports.rs:555-574 attribute_key_kind *)
Definition attribute_key_kind (key : str) : AttributeKeyKind :=
  if negb (bool_decide (key = [])) && forallb is_ascii_digit (encode_utf8 key)
  then (if positive_u16 key then Key_Exact else Key_InvalidPort)
  else match rsplit_once 58 key with
  | Some (service, port) =>
      if valid_service_name service && forallb is_ascii_digit (encode_utf8 port)
      then (if positive_u16 port then Key_Exact else Key_InvalidPort)
      else Key_Deferred
  | None => Key_Deferred
  end.

Section plan.
Context (json_string : str -> str).

(** One round of the second loop. @src cdenv-devcontainer/src/ports.rs:281-300 plan_ports *)
Definition key_step (warnings : list PortPlanningWarning) (key : str) :
    result PortPlanningError (list PortPlanningWarning) :=
  let property := $"$.portsAttributes[" ++ json_string key ++ $"]" in
  match attribute_key_kind key with
  | Key_Exact => Ok warnings
  | Key_Deferred => Ok (warnings ++ [mkPortWarning property DeferredDiscovery])
  | Key_InvalidPort => Err (mkPortError property Ports_InvalidPort
      ($"port attribute key contains a port outside 1 through 65535"))
  end.

(** ** Forwards *)

(** @src cdenv-devcontainer/src/ports.rs:311-311 plan_ports *)
Definition forward_path (index : N) : str := $"$.forwardPorts[" ++ to_string index ++ $"]".

(** The warnings of one action. @src cdenv-devcontainer/src/ports.rs:352-368 plan_ports *)
Definition action_warnings (property : str) (action : AutoForwardAction) : list PortPlanningWarning :=
  match action with
  | Auto_Ignore => [mkPortWarning property ExplicitForwardOverridesIgnore]
  | Auto_OpenBrowser | Auto_OpenBrowserOnce => [mkPortWarning property BrowserLaunchSuppressed]
  | Auto_OpenPreview => [mkPortWarning property EmbeddedPreviewUnsupported]
  | Auto_Notify | Auto_Silent => []
  end.

(** The attributes of a forward: those of its service key, then those of its port.
    @src cdenv-devcontainer/src/ports.rs:344-351 plan_ports *)
Definition forward_attributes (attributes : strmap PortAttributes) (service_key : option str)
    (port : PortNumber) : EffectivePortAttributes :=
  let by_service := key ← service_key; attributes !! key in
  match (match by_service with
         | Some a => Some a
         | None => attributes !! to_string (port_get port)
         end) with
  | Some a => attributes_from a
  | None => default_attributes
  end.

(** One round of the third loop. @src cdenv-devcontainer/src/ports.rs:310-376 plan_ports *)
Definition forward_step (compose : bool) (attributes : strmap PortAttributes)
    (acc : list ForwardRequest * list PortPlanningWarning) (entry : N * ForwardPort) :
    result PortPlanningError (list ForwardRequest * list PortPlanningWarning) :=
  let '(forwards, warnings) := acc in
  let '(index, forward) := entry in
  let property := forward_path index in
  let? (target_host, port, service_key) :=
    match forward with
    | ForwardPort_Container port => Ok (Target_ContainerLoopback, port, None)
    | ForwardPort_Service service port =>
        if compose
        then Ok (Target_ComposeService service, port, Some (service ++ $":" ++ to_string port))
        else Err (mkPortError property Ports_ServiceTargetOutsideCompose
                    ($"service forwarding targets require a Compose scenario"))
    end in
  let? port := ok_or (mkPortError property Ports_InvalidPort
                        ($"forward port must be between 1 and 65535")) (PortNumber_new port) in
  fail_if existsb (fun existing => bool_decide (fr_requested_local existing = port)) forwards
    with mkPortError property Ports_ForwardConflict
           ($"multiple forwards request the same local port") in
  let attrs := forward_attributes attributes service_key port in
  Ok (forwards ++ [mkForward port None target_host port attrs],
      warnings ++ action_warnings property (pa_on_auto_forward attrs)).

(** @src cdenv-devcontainer/src/ports.rs:249-382 plan_ports *)
Definition plan_ports (profile : RawProfile) (effective : EffectiveMetadata) :
    result PortPlanningError PortPlan :=
  let ports := app_ports (common profile) in
  let? (publications, warnings) :=
    try_fold (publish_step (N.of_nat (length ports))) ([], []) (enumerate 0 ports) in
  let? warnings := try_fold key_step warnings (sorted_entries (e_ports_attributes effective)).*1 in
  let warnings := warnings ++ match e_other_ports_attributes effective with
                              | Some _ => [mkPortWarning ($"$.otherPortsAttributes") DeferredDiscovery]
                              | None => []
                              end in
  let compose := match scenario profile with Scenario_Compose _ => true | _ => false end in
  let? (forwards, warnings) :=
    try_fold (forward_step compose (e_ports_attributes effective)) ([], warnings)
      (enumerate 0 (e_forward_ports effective)) in
  Ok (mkPortPlan publications forwards warnings).
End plan.

(** @src cdenv-devcontainer/src/ports.rs:222-237 ForwardingRenderInput *)
Record ForwardingRenderInput : Type := mkRenderInput {
  fri_requested_local : PortNumber;
  fri_assigned_local : option PortNumber;
  fri_target_host : ForwardTargetHost;
  fri_target_port : PortNumber;
  fri_label : option str;
  fri_protocol : option PortProtocol;
  fri_url : option str;
}.

(** @src cdenv-devcontainer/src/ports.rs:205-213 PortPlan::rendering_inputs *)
Definition forward_url (forward : ForwardRequest) : option str :=
  assigned ← fr_assigned_local forward;
  protocol ← pa_protocol (fr_attributes forward);
  let scheme := match protocol with Protocol_Http => $"http" | Protocol_Https => $"https" end in
  Some (scheme ++ $"://127.0.0.1:" ++ to_string (port_get assigned)).

(** @src cdenv-devcontainer/src/ports.rs:195-216 PortPlan::rendering_inputs *)
Definition rendering_inputs (plan : PortPlan) : list ForwardingRenderInput :=
  List.map (fun forward =>
    mkRenderInput (fr_requested_local forward) (fr_assigned_local forward) (fr_target_host forward)
      (fr_target_port forward) (pa_label (fr_attributes forward)) (pa_protocol (fr_attributes forward))
      (forward_url forward)) (pp_forwards plan).

(** ** Correctness *)

Definition range_ok (r : PortRange) : Prop :=
  0 < port_get (range_start r) /\ port_get (range_start r) <= port_get (range_end r).
Definition range_u16 (r : PortRange) : Prop := port_get (range_end r) <= MAX_U16.

(** What the publication of an entry is: a number is published on loopback under the same port;
    an argument keeps its text and its ports are ranges of the same width. *)
Definition publication_ok (app : AppPort) (p : PublicationRequest) : Prop :=
  range_ok (pub_container_ports p) /\
  (forall h, pub_host_ports p = Some h -> range_ok h /\ width h = width (pub_container_ports p)) /\
  match app with
  | AppPort_Number n =>
      may_expose_non_loopback (pub_binding p) = false /\ pub_protocol p = Publish_Tcp /\
      pub_container_ports p = mkRange (mkPort n) (mkPort n) /\
      pub_host_ports p = Some (mkRange (mkPort n) (mkPort n))
  | AppPort_DockerArgument a =>
      pub_argument p = a /\ range_u16 (pub_container_ports p) /\
      forall h, pub_host_ports p = Some h -> range_u16 h
  end.

Lemma parse_range_Some v r : parse_range v = Some r -> range_ok r /\ range_u16 r.
Proof.
  unfold parse_range. destruct (default (v, v) (split_once ($"-") v)) as [a b]. intros H.
  destruct (parse_uint MAX_U16 a) as [x|] eqn:Ha; [|done]. cbn in H. unfold PortNumber_new in H.
  destruct (N.eqb_spec x 0); [done|]. cbn in H.
  destruct (parse_uint MAX_U16 b) as [y|] eqn:Hb; [|done]. cbn in H.
  destruct (N.eqb_spec y 0); [done|]. cbn in H.
  destruct (N.leb_spec x y); [|done]. injection H as <-.
  apply parse_uint_bound in Hb. unfold range_ok, range_u16. cbn. split; [split; lia|done].
Qed.

Lemma publication_of_ok count entry p : publication_of count entry = Ok p -> publication_ok (snd entry) p.
Proof.
  destruct entry as [i [n|a]]; cbn [publication_of snd]; intros H.
  - unfold numeric_publication, PortNumber_new in H. destruct (N.eqb_spec n 0) as [|Hn]; [done|].
    cbn [ok_or] in H. injection H as <-. unfold publication_ok, range_ok. cbn.
    split_and!; [lia|lia| |done..]. intros h [= <-]. cbn. split; [lia|done].
  - unfold parse_publication in H. destruct (_ || _); [done|].
    destruct (split_protocol a) as [[text protocol]|]; [|done]. cbn [ok_or] in H.
    destruct (split_addresses text) as [[[bind host] container]|]; [|done]. cbn [ok_or] in H.
    destruct (parse_range container) as [cp|] eqn:Hc; [|done]. cbn [ok_or] in H.
    apply parse_range_Some in Hc as [Hc1 Hc2]. unfold publication_ok.
    case_bool_decide as Hh; [injection H as <-; cbn; split_and!; done|].
    destruct (parse_range host) as [hp|] eqn:Hp; [|done]. cbn [ok_or] in H.
    apply parse_range_Some in Hp as [Hp1 Hp2].
    destruct (N.eqb_spec (width hp) (width cp)) as [Hw|]; [|done]. cbn [negb] in H. injection H as <-. cbn.
    split_and!; try done; intros h [= <-]; done.
Qed.

(** What the first loop has built after [entries]. *)
Definition published (count : N) (entries : list (N * AppPort))
    (acc : list PublicationRequest * list PortPlanningWarning) : Prop :=
  Forall2 (fun entry p => publication_of count entry = Ok p) entries acc.1 /\
  (forall i j p q, (i < j)%nat -> acc.1 !! i = Some p -> acc.1 !! j = Some q ->
     publications_conflict p q = false) /\
  (forall w, w ∈ acc.2 <-> exists entry p, entry ∈ entries /\ publication_of count entry = Ok p /\
     may_expose_non_loopback (pub_binding p) = true /\
     w = mkPortWarning (app_port_path count (fst entry)) NonLoopbackPublication).

Lemma publish_step_published count pre entry acc acc' :
  published count pre acc -> publish_step count acc entry = Ok acc' ->
  published count (pre ++ [entry]) acc'.
Proof.
  destruct acc as [pubs warns]. intros (Hf & Hc & Hw) H. unfold publish_step in H.
  destruct (publication_of count entry) as [p|] eqn:Hp; [|done].
  destruct (existsb _ pubs) eqn:Hex; [done|]. injection H as <-. cbn [fst snd] in *.
  apply existsb_false_iff in Hex. unfold published. cbn [fst snd]. split_and!.
  - apply Forall2_app; [done|]. by constructor.
  - intros i j a b Hij Ha Hb. apply lookup_app_Some in Hb as [Hb|[Hlen Hb]].
    + rewrite lookup_app_l in Ha by (apply lookup_lt_Some in Hb; lia). by eapply Hc.
    + apply list_lookup_singleton_Some in Hb as [Hj <-].
      rewrite lookup_app_l in Ha by lia. rewrite Forall_forall in Hex.
      apply Hex. by eapply list_elem_of_lookup_2.
  - intros w. rewrite elem_of_app, Hw. split.
    + intros [(e & q & He & Hq & Hm & ->)|Hin].
      * exists e, q. split_and!; [set_solver|done..].
      * destruct (may_expose_non_loopback (pub_binding p)) eqn:Hm; [|by apply elem_of_nil in Hin].
        apply list_elem_of_singleton in Hin as ->. exists entry, p. split_and!; [set_solver|done..].
    + intros (e & q & He & Hq & Hm & ->). apply elem_of_app in He as [He|He]; [left; by exists e, q|right].
      apply list_elem_of_singleton in He as ->. rewrite Hp in Hq. injection Hq as <-. rewrite Hm. set_solver.
Qed.

(** The forward of an entry. *)
Definition forward_ok (compose : bool) (forward : ForwardPort) (f : ForwardRequest) : Prop :=
  0 < port_get (fr_requested_local f) /\ fr_target_port f = fr_requested_local f /\
  fr_assigned_local f = None /\
  match forward with
  | ForwardPort_Container n =>
      fr_requested_local f = mkPort n /\ fr_target_host f = Target_ContainerLoopback
  | ForwardPort_Service s n =>
      fr_requested_local f = mkPort n /\ fr_target_host f = Target_ComposeService s /\ compose = true
  end.

Definition forwarded (compose : bool) (start : list PortPlanningWarning)
    (entries : list (N * ForwardPort)) (acc : list ForwardRequest * list PortPlanningWarning) : Prop :=
  Forall2 (fun entry f => forward_ok compose (snd entry) f) entries acc.1 /\
  NoDup (List.map fr_requested_local acc.1) /\
  exists more, acc.2 = start ++ more /\ Forall (fun w => pw_kind w <> NonLoopbackPublication) more.

Lemma action_warnings_kind property action :
  Forall (fun w => pw_kind w <> NonLoopbackPublication) (action_warnings property action).
Proof. destruct action; cbn; repeat constructor; done. Qed.

Lemma forward_step_forwarded compose attributes start pre entry acc acc' :
  forwarded compose start pre acc -> forward_step compose attributes acc entry = Ok acc' ->
  forwarded compose start (pre ++ [entry]) acc'.
Proof.
  destruct acc as [fs ws], entry as [i fwd]. intros (Hf & Hn & more & Hw & Hk) H. unfold forward_step in H.
  cbn [fst snd] in *.
  assert (Hstep : exists port key host, acc' = (fs ++ [mkForward port None host port
      (forward_attributes attributes key port)], ws ++ action_warnings (forward_path i)
      (pa_on_auto_forward (forward_attributes attributes key port))) /\
      forward_ok compose fwd (mkForward port None host port (forward_attributes attributes key port)) /\
      port ∉ List.map fr_requested_local fs).
  { assert (Hport : forall n port, PortNumber_new n = Some port -> 0 < port_get port /\ port = mkPort n).
    { intros n port Hp. unfold PortNumber_new in Hp. destruct (N.eqb_spec n 0); [done|].
      injection Hp as <-. cbn. split; [lia|done]. }
    assert (Hfresh : forall port : PortNumber,
      existsb (fun existing => bool_decide (fr_requested_local existing = port)) fs = false ->
      port ∉ List.map fr_requested_local fs).
    { intros port Hex Hin. apply existsb_false_iff in Hex. rewrite Forall_forall in Hex.
      apply list_elem_of_fmap in Hin as (f & -> & Hin). specialize (Hex _ Hin).
      by apply bool_decide_eq_false in Hex. }
    destruct fwd as [n|s n]; [|destruct compose; [|done]];
      destruct (PortNumber_new n) as [port|] eqn:Hp; try done; cbn [ok_or] in H;
      destruct (existsb _ fs) eqn:Hex; try done; injection H as <-;
      destruct (Hport _ _ Hp) as [Hpos ->]; eexists _, _, _; (split; [reflexivity|]); (split; [|by apply Hfresh]);
      unfold forward_ok; cbn; by split_and!. }
  destruct Hstep as (port & key & host & -> & Hok & Hfresh). unfold forwarded. cbn [fst snd]. split_and!.
  - apply Forall2_app; [done|]. by constructor.
  - rewrite List.map_app. apply NoDup_app. split_and!; [done| |apply NoDup_singleton].
    intros x Hx Hin. cbn in Hin. apply list_elem_of_singleton in Hin as ->. done.
  - eexists. split; [rewrite Hw, <- app_assoc; reflexivity|]. apply Forall_app. split; [done|].
    apply action_warnings_kind.
Qed.

(** A plan, for a profile and its effective metadata. *)
Record sound_plan (profile : RawProfile) (effective : EffectiveMetadata) (plan : PortPlan) : Prop :=
  mkSoundPlan {
  sp_publications : Forall2 publication_ok (app_ports (common profile)) (pp_publications plan);
  sp_disjoint i j p q : (i < j)%nat -> pp_publications plan !! i = Some p ->
    pp_publications plan !! j = Some q -> publications_conflict p q = false;
  sp_exposed i p : pp_publications plan !! i = Some p ->
    may_expose_non_loopback (pub_binding p) = true ->
    mkPortWarning (app_port_path (N.of_nat (length (app_ports (common profile)))) (N.of_nat i))
      NonLoopbackPublication ∈ pp_warnings plan;
  sp_quiet : Forall (fun p => may_expose_non_loopback (pub_binding p) = false) (pp_publications plan) ->
    Forall (fun w => pw_kind w <> NonLoopbackPublication) (pp_warnings plan);
  sp_forwards : Forall2 (forward_ok match scenario profile with Scenario_Compose _ => true | _ => false end)
    (e_forward_ports effective) (pp_forwards plan);
  sp_distinct : NoDup (List.map fr_requested_local (pp_forwards plan));
}.

Lemma enumerate_lookup {A} i (l : list A) k a :
  l !! k = Some a -> enumerate i l !! k = Some (i + N.of_nat k, a).
Proof.
  revert i k. induction l as [|b l IH]; intros i k H; [done|]. destruct k as [|k].
  - injection H as ->. cbn. do 2 f_equal. lia.
  - change (enumerate (i + 1) l !! k = Some (i + N.of_nat (S k), a)).
    rewrite (IH (i + 1) k H). do 2 f_equal. lia.
Qed.

Lemma Forall2_enumerate {A B} (P : A -> B -> Prop) i l k :
  Forall2 (fun e b => P (snd e) b) (enumerate i l) k -> Forall2 P l k.
Proof.
  revert i k. induction l as [|a l IH]; intros i k H; cbn in H;
    [apply Forall2_nil_inv_l in H as ->; constructor|].
  apply Forall2_cons_inv_l in H as (b & k' & Hab & H & ->). constructor; [done|by eapply IH].
Qed.

Lemma key_step_warnings json_string keys w0 w1 :
  try_fold (key_step json_string) w0 keys = Ok w1 ->
  exists more, w1 = w0 ++ more /\ Forall (fun w => pw_kind w <> NonLoopbackPublication) more.
Proof.
  intros H. revert H. apply (try_fold_ind (fun w => exists more, w = w0 ++ more /\
    Forall (fun w => pw_kind w <> NonLoopbackPublication) more)); [|exists []; by rewrite app_nil_r].
  intros s a s' (more & -> & Hm) Hs. unfold key_step in Hs. destruct (attribute_key_kind a).
  - injection Hs as <-. by exists more.
  - injection Hs as <-. eexists. split; [by rewrite <- app_assoc|]. apply Forall_app. split; [done|].
    by repeat constructor.
  - done.
Qed.

(** a port plan is sound.  Every [appPort] entry has its publication, in order: a number is
    published on loopback under the same port, an argument with ranges of equal width between 1
    and 65535; no two publications conflict; every publication that may be reachable from
    outside has its warning, and without such a publication there is no such warning.  Every
    declared forward has its request, in order, unassigned, to the same nonzero port, a service
    target only in a Compose scenario; no two forwards request the same local port. *)
Theorem plan_ports_sound (json_string : str -> str) (profile : RawProfile)
    (effective : EffectiveMetadata) (plan : PortPlan) :
  plan_ports json_string profile effective = Ok plan -> sound_plan profile effective plan.
Proof.
  intros H. unfold plan_ports in H.
  set (count := N.of_nat (length (app_ports (common profile)))) in H.
  destruct (try_fold (publish_step count) _ _) as [[pubs w1]|] eqn:Hp; [|done].
  apply (try_fold_prefix (published count)) in Hp; [|intros; by eapply publish_step_published|].
  2:{ split_and!; cbn; [constructor|done|]. intros w. split; [by intros ?%elem_of_nil|].
      intros (e & ? & He & _). by apply elem_of_nil in He. }
  destruct Hp as (Hpubs & Hconf & Hwarn). cbn [fst snd] in Hpubs, Hconf, Hwarn.
  destruct (try_fold (key_step json_string) _ _) as [w2|] eqn:Hk; [|done].
  apply key_step_warnings in Hk as (more2 & -> & Hm2).
  set (compose := match scenario profile with Scenario_Compose _ => true | _ => false end) in H.
  set (w3 := (w1 ++ more2) ++ _) in H.
  destruct (try_fold (forward_step compose _) _ _) as [[fwds w4]|] eqn:Hf; [|done]. injection H as <-.
  apply (try_fold_prefix (forwarded compose w3)) in Hf; [|intros; by eapply forward_step_forwarded|].
  2:{ split_and!; cbn; [constructor|constructor|]. exists []. by rewrite app_nil_r. }
  unfold forwarded in Hf. cbn [fst snd] in Hf. destruct Hf as (Hfwd & Hnd & more4 & -> & Hm4).
  split; cbn [pp_publications pp_forwards pp_warnings].
  - eapply Forall2_enumerate. eapply Forall2_impl; [exact Hpubs|]. intros e p He.
    exact (publication_of_ok _ _ _ He).
  - exact Hconf.
  - intros i p Hi Hm. assert (Hlt := lookup_lt_Some _ _ _ Hi).
    destruct (Forall2_lookup_r _ _ _ _ _ Hpubs Hi) as (e & He & Hpe).
    assert (Hfst : fst e = N.of_nat i).
    { destruct (app_ports (common profile) !! i) as [a|] eqn:Ha.
      - apply (enumerate_lookup 0) in Ha. rewrite Ha in He. injection He as <-. done.
      - apply lookup_ge_None in Ha. apply lookup_lt_Some in He.
        assert (Hl := f_equal length (enumerate_snd 0 (app_ports (common profile)))).
        rewrite length_fmap in Hl. lia. }
    unfold w3. apply elem_of_app. left. apply elem_of_app. left. apply elem_of_app. left.
    apply Hwarn. exists e, p. rewrite Hfst. split_and!; [by eapply list_elem_of_lookup_2|done..].
  - intros Hq. unfold w3. rewrite !Forall_app. split_and!; [|done| |done].
    + apply Forall_forall. intros w Hw. apply Hwarn in Hw as (e & p & He & Hpe & Hm & ->).
      apply list_elem_of_lookup_1 in He as [i Hi].
      destruct (Forall2_lookup_l _ _ _ _ _ Hpubs Hi) as (p' & Hp' & Hpe').
      rewrite Hpe in Hpe'. injection Hpe' as <-. rewrite Forall_forall in Hq.
      rewrite (Hq p) in Hm; [done|]. by eapply list_elem_of_lookup_2.
    + destruct (e_other_ports_attributes effective); by repeat constructor.
  - by eapply Forall2_enumerate.
  - exact Hnd.
Qed.

(** ** Examples *)

Definition port_profile (ports : list AppPort) : RawProfile :=
  mkRawProfile None None
    (Scenario_Image (mkImageScenario ($"x") (mkNonComposeOptions None None [] None None)))
    (mkRawCommon ∅ [] ∅ ∅ None None None None None None [] [] [] ports [] ∅ None no_lifecycle None None ∅ ∅).

Definition port_metadata (forwards : list ForwardPort) : EffectiveMetadata :=
  mkEffective None None [] [] [] [] (mkEffectiveLifecycle [] [] [] [] [] []) None None None None None
    None None ∅ ∅ ∅ None forwards None [].

Lemma plan_ports_sound_witness :
  exists plan, plan_ports id (port_profile [AppPort_Number 3000; AppPort_DockerArgument ($"8000-8001:80-81/udp")])
                 (port_metadata [ForwardPort_Container 5000]) = Ok plan /\
    sound_plan (port_profile [AppPort_Number 3000; AppPort_DockerArgument ($"8000-8001:80-81/udp")])
      (port_metadata [ForwardPort_Container 5000]) plan.
Proof.
  eexists.
  split; [vm_compute; reflexivity|].
  apply (plan_ports_sound id). vm_compute. reflexivity.
Defined.

(** Two publications of one port, on the unspecified address and on loopback, are not reported
    as a conflict, although the first one covers every interface; without an address the same
    pair is. *)
Lemma unspecified_address_overlap :
  is_ok (plan_ports id (port_profile [AppPort_DockerArgument ($"0.0.0.0:80:80");
                                      AppPort_DockerArgument ($"127.0.0.1:80:80")]) (port_metadata [])) = true /\
  is_ok (plan_ports id (port_profile [AppPort_DockerArgument ($"80:80");
                                      AppPort_DockerArgument ($"127.0.0.1:80:80")]) (port_metadata [])) = false.
Proof. vm_compute. split; reflexivity. Qed.
