(* ===== verification/Planning.v ===== *)
(** * Planning: workspace, mounts, users and environment of a container
    ([cdenv-devcontainer/src/planning.rs])

    Paths are text that [normalize_absolute] brings to a normal form; [components] is the
    specification of that form, a list of names, on which containment is the prefix order.
    [substitute_host] is that of [Substitution], with its parameters. *)

From S2P Require Import Prelude Text Order Utf8 Substitution Profile Metadata Ports.

(** ** Paths *)

(** @src cdenv-devcontainer/src/planning.rs:62-75 PathValidationError *)
Inductive PathValidationError : Type :=
| Path_NotAbsolute | Path_Traversal | Path_ControlCharacter | Path_RootTarget.

(** The loop body. @src cdenv-devcontainer/src/planning.rs:935-941 normalize_absolute *)
Definition component_step (components : list str) (component : str) :
    result PathValidationError (list str) :=
  if str_eqb component [] || str_eqb component ($".") then Ok components
  else if str_eqb component ($"..") then Err Path_Traversal
  else Ok (components ++ [component]).

(** @src cdenv-devcontainer/src/planning.rs:927-946 normalize_absolute *)
Definition normalize_absolute (value : str) (allow_root : bool) : result PathValidationError str :=
  fail_if negb (starts_with ($"/") value) with Path_NotAbsolute in
  fail_if existsb is_control value with Path_ControlCharacter in
  let? components := try_fold component_step [] (split 47 value) in
  fail_if bool_decide (components = []) && negb allow_root with Path_RootTarget in
  Ok ($"/" ++ join ($"/") components).

(** [child.as_bytes().get(parent.len())] is the first byte after the prefix, and it is [/] exactly
    when the first character is.  @src cdenv-devcontainer/src/planning.rs:948-952 path_contains *)
Definition path_contains (parent child : str) : bool :=
  str_eqb parent child
  || match strip_prefix parent child with
     | Some rest => str_eqb parent ($"/") || bool_decide (head rest = Some 47)
     | None => false
     end.

(** @src cdenv-devcontainer/src/planning.rs:16-16 ContainerPath *)
Record ContainerPath : Type := mkContainerPath { cp_as_str : str }.
#[export] Instance ContainerPath_eq_dec : EqDecision ContainerPath.
Proof. solve_decision. Defined.

(** @src cdenv-devcontainer/src/planning.rs:24-26 ContainerPath::parse *)
Definition ContainerPath_parse (value : str) : result PathValidationError ContainerPath :=
  result_map mkContainerPath (normalize_absolute value false).

(** @src cdenv-devcontainer/src/planning.rs:34-36 ContainerPath::overlaps *)
Definition ContainerPath_overlaps (a b : ContainerPath) : bool :=
  path_contains (cp_as_str a) (cp_as_str b) || path_contains (cp_as_str b) (cp_as_str a).

(** @src cdenv-devcontainer/src/planning.rs:41-41 HostMountSource *)
Record HostMountSource : Type := mkHostSource { hs_as_str : str }.

(** @src cdenv-devcontainer/src/planning.rs:49-51 HostMountSource::parse *)
Definition HostMountSource_parse (value : str) : result PathValidationError HostMountSource :=
  result_map mkHostSource (normalize_absolute value true).

(** ** Users *)

(** @src cdenv-devcontainer/src/planning.rs:102-105 HostUserIdentity *)
Record HostUserIdentity : Type := mkHostUser { host_uid : N; host_gid : N }.

(** @src cdenv-devcontainer/src/planning.rs:135-135 ContainerUser *)
Record ContainerUser : Type := mkContainerUser { cu_as_str : str }.

(** @src cdenv-devcontainer/src/planning.rs:143-154 ContainerUser::parse *)
Definition ContainerUser_parse (value : str) : result unit ContainerUser :=
  if bool_decide (value = [])
     || existsb (fun c => is_control c || is_whitespace c || (c =? 44)) value
     || existsb (fun piece => str_eqb piece []) (split 58 value)
     || (1 <? lenN (List.filter (N.eqb 58) value))
  then Err tt
  else Ok (mkContainerUser value).

(** @src cdenv-devcontainer/src/planning.rs:162-164 ContainerUser::account *)
Definition account (u : ContainerUser) : str := default [] (head (split 58 (cu_as_str u))).

(** @src cdenv-devcontainer/src/planning.rs:166-168 ContainerUser::is_root *)
Definition is_root (u : ContainerUser) : bool :=
  str_eqb (account u) ($"root") || str_eqb (account u) ($"0").

(** @src cdenv-devcontainer/src/planning.rs:170-172 ContainerUser::is_numeric *)
Definition is_numeric (u : ContainerUser) : bool := forallb is_ascii_digit (account u).

(** @src cdenv-devcontainer/src/planning.rs:203-212 UidUpdateSkipReason *)
Inductive UidUpdateSkipReason : Type :=
| Skip_Disabled | Skip_HostIdentityUnknown | Skip_RootUser | Skip_NumericUser.

(** @src cdenv-devcontainer/src/planning.rs:188-198 UidUpdateIntent *)
Inductive UidUpdateIntent : Type :=
| Uid_None (reason : UidUpdateSkipReason)
| Uid_UpdateNamedUser (user : ContainerUser) (host : HostUserIdentity).

(** @src cdenv-devcontainer/src/planning.rs:645-664 uid_update_intent *)
Definition uid_update_intent (enabled : bool) (remote_user : ContainerUser)
    (host : option HostUserIdentity) : UidUpdateIntent :=
  if negb enabled then Uid_None Skip_Disabled
  else if is_root remote_user then Uid_None Skip_RootUser
  else if is_numeric remote_user then Uid_None Skip_NumericUser
  else match host with
  | Some host => Uid_UpdateNamedUser remote_user host
  | None => Uid_None Skip_HostIdentityUnknown
  end.

(** ** Plans and errors *)

(** @src cdenv-devcontainer/src/planning.rs:216-221 MountOption *)
Record MountOption : Type := mkMountOption { option_name : str; option_value : option str }.

(** @src cdenv-devcontainer/src/planning.rs:225-234 PlannedMount *)
Record PlannedMount : Type := mkPlannedMount {
  mount_kind : MountKind;
  mount_source : option str;
  pm_target : ContainerPath;
  mount_options : list MountOption;
}.

(** @src cdenv-devcontainer/src/planning.rs:238-243 WorkspacePlan *)
Record WorkspacePlan : Type := mkWorkspacePlan { ws_folder : ContainerPath; ws_mount : PlannedMount }.

(** @src cdenv-devcontainer/src/planning.rs:246-249 EnvironmentPlan *)
Record EnvironmentPlan : Type := mkEnvironmentPlan {
  env_container : strmap (list N);
  env_remote : strmap (option DeferredString);
}.

(** @src cdenv-devcontainer/src/planning.rs:290-297 EnvironmentSummary *)
Record EnvironmentSummary : Type := mkEnvironmentSummary {
  container_entries : N;
  remote_entries : N;
  runtime_container_environment_required : bool;
}.

(** @src cdenv-devcontainer/src/planning.rs:266-276 EnvironmentPlan::summary *)
Definition EnvironmentPlan_summary (p : EnvironmentPlan) : EnvironmentSummary :=
  mkEnvironmentSummary (N.of_nat (size (env_container p))) (N.of_nat (size (env_remote p)))
    (existsb (fun e => match snd e with Some d => requires_container_environment d | None => false end)
       (sorted_entries (env_remote p))).

(** @src cdenv-devcontainer/src/planning.rs:300-325 RuntimePlan *)
Record RuntimePlan : Type := mkRuntimePlan {
  rp_workspace : WorkspacePlan;
  rp_mounts : list PlannedMount;
  rp_container_user : ContainerUser;
  rp_remote_user : ContainerUser;
  rp_uid_update : UidUpdateIntent;
  rp_environment : EnvironmentPlan;
  rp_user_env_probe : UserEnvProbe;
  rp_override_command : bool;
  rp_init : bool;
  rp_privileged : bool;
  rp_cap_add : list str;
  rp_security_opt : list str;
}.

(** @src cdenv-devcontainer/src/planning.rs:383-388 UidUpdateSummary *)
Inductive UidUpdateSummary : Type :=
| UidSummary_Required | UidSummary_Skipped (reason : UidUpdateSkipReason).

(** @src cdenv-devcontainer/src/planning.rs:359-378 RuntimePlanSummary *)
Record RuntimePlanSummary : Type := mkRuntimeSummary {
  additional_mounts : N;
  summary_environment : EnvironmentSummary;
  summary_user_env_probe : UserEnvProbe;
  summary_uid_update : UidUpdateSummary;
  summary_override_command : bool;
  summary_init : bool;
  summary_privileged : bool;
  capabilities : N;
  security_options : N;
}.

(** @src cdenv-devcontainer/src/planning.rs:330-345 RuntimePlan::summary *)
Definition RuntimePlan_summary (p : RuntimePlan) : RuntimePlanSummary :=
  mkRuntimeSummary (lenN (rp_mounts p)) (EnvironmentPlan_summary (rp_environment p))
    (rp_user_env_probe p)
    match rp_uid_update p with
    | Uid_None reason => UidSummary_Skipped reason
    | Uid_UpdateNamedUser _ _ => UidSummary_Required
    end
    (rp_override_command p) (rp_init p) (rp_privileged p) (lenN (rp_cap_add p))
    (lenN (rp_security_opt p)).

(** @src cdenv-devcontainer/src/planning.rs:956-975 PlanningErrorKind *)
Inductive PlanningErrorKind : Type :=
| Planning_InvalidPath | Planning_InvalidMount | Planning_MountConflict
| Planning_WorkspaceContainment | Planning_OwnedTargetConflict | Planning_InvalidUser
| Planning_InvalidEnvironmentName | Planning_Substitution | Planning_InvalidRuntimeSetting.

(** @src cdenv-devcontainer/src/planning.rs:980-986 PlanningError *)
Record PlanningError : Type := mkPlanningError {
  planning_property_path : str;
  planning_kind : PlanningErrorKind;
  planning_message : str;
}.

(** @src cdenv-devcontainer/src/planning.rs:79-82 ScenarioMetadata *)
Record ScenarioMetadata : Type := mkScenarioMetadata { scenario_container_user : option str }.

(** @src cdenv-devcontainer/src/planning.rs:85-98 RuntimePlanningInputs *)
Record RuntimePlanningInputs : Type := mkPlanningInputs {
  in_local_workspace_folder : str;
  in_local_env : strmap (list N);
  in_identity_labels : strmap (list N);
  in_scenario_metadata : ScenarioMetadata;
  in_cdenv_owned_targets : list ContainerPath;
  in_host_user : option HostUserIdentity;
}.

(** ** Validation *)

(** @src cdenv-devcontainer/src/planning.rs:919-925 substitution_error *)
Definition substitution_error (property : str) (_ : SubstitutionError) : PlanningError :=
  mkPlanningError property Planning_Substitution ($"unsupported or malformed substitution").

(** @src cdenv-devcontainer/src/planning.rs:614-627 validate_environment_name *)
Definition validate_environment_name (name property : str) : result PlanningError unit :=
  let valid := forallb (fun '(index, byte) =>
    (byte =? 95) || is_ascii_alphabetic byte || ((0 <? index) && is_ascii_digit byte))
    (enumerate 0 (encode_utf8 name)) in
  if valid && negb (bool_decide (name = [])) then Ok tt
  else Err (mkPlanningError property Planning_InvalidEnvironmentName
    ($"environment name must match [A-Za-z_][A-Za-z0-9_]*")).

(** @src cdenv-devcontainer/src/planning.rs:629-643 validate_runtime_strings *)
Definition validate_runtime_strings (values : list str) (parent : str) : result PlanningError unit :=
  match position (fun value => bool_decide (value = []) || existsb is_control value) values with
  | Some index =>
      Err (mkPlanningError (parent ++ $"[" ++ to_string (N.of_nat index) ++ $"]")
        Planning_InvalidRuntimeSetting
        ($"runtime setting must not be empty or contain control characters"))
  | None => Ok tt
  end.

(** @src cdenv-devcontainer/src/planning.rs:666-702 validate_workspace_mount *)
Definition validate_workspace_mount (mount : PlannedMount) (folder : ContainerPath)
    (local_workspace : HostMountSource) : result PlanningError unit :=
  fail_if negb (path_contains (cp_as_str (pm_target mount)) (cp_as_str folder))
    with mkPlanningError ($"$.workspaceFolder") Planning_WorkspaceContainment
      ($"workspace folder must be the workspace mount target or a child of it") in
  if bool_decide (mount_kind mount = Mount_Bind) then
    let? source := ok_or (mkPlanningError ($"$.workspaceMount") Planning_InvalidMount
      ($"workspace bind mount requires a source")) (mount_source mount) in
    let? source := map_err (fun _ => mkPlanningError ($"$.workspaceMount") Planning_InvalidPath
      ($"workspace bind source must be an absolute traversal-free host path"))
      (HostMountSource_parse source) in
    fail_if negb (path_contains (hs_as_str local_workspace) (hs_as_str source))
      with mkPlanningError ($"$.workspaceMount") Planning_WorkspaceContainment
        ($"workspace bind source must remain within the canonical local workspace") in
    Ok tt
  else Ok tt.

(** @src cdenv-devcontainer/src/planning.rs:704-718 reject_owned_target *)
Definition reject_owned_target (target : ContainerPath) (owned : list ContainerPath) (property : str) :
    result PlanningError unit :=
  if existsb (ContainerPath_overlaps target) owned
  then Err (mkPlanningError property Planning_OwnedTargetConflict
    ($"mount target overlaps a cdenv-owned container target"))
  else Ok tt.

(** ** Mounts *)

(** The check of a volume name. @src cdenv-devcontainer/src/planning.rs:877-885 normalize_mount *)
Definition unsafe_volume_name (value : str) : bool :=
  negb match encode_utf8 value with byte :: _ => is_ascii_alphanumeric byte | [] => false end
  || negb (forallb (fun byte => is_ascii_alphanumeric byte || existsb (N.eqb byte) [95; 46; 45])
             (encode_utf8 value)).

(** @src cdenv-devcontainer/src/planning.rs:852-906 normalize_mount *)
Definition normalize_mount (kind : MountKind) (source : option str) (target : str)
    (options : list MountOption) (property : str) : result PlanningError PlannedMount :=
  let? source :=
    if bool_decide (kind = Mount_Bind) then
      let? value := ok_or (mkPlanningError property Planning_InvalidMount
        ($"bind mount requires a source")) source in
      let? normalized := map_err (fun _ => mkPlanningError property Planning_InvalidPath
        ($"bind source must be an absolute traversal-free host path")) (HostMountSource_parse value) in
      Ok (Some (hs_as_str normalized))
    else if match source with Some value => unsafe_volume_name value | None => false end then
      Err (mkPlanningError property Planning_InvalidMount
        ($"volume source must be a safe Docker volume name"))
    else Ok source in
  let? target := map_err (fun _ => mkPlanningError property Planning_InvalidPath
    ($"mount target must be an absolute traversal-free container path")) (ContainerPath_parse target) in
  Ok (mkPlannedMount kind source target options).

(** @src cdenv-devcontainer/src/planning.rs:828-850 set_once *)
Definition set_once (output value : option str) (property message : str) :
    result PlanningError (option str) :=
  let? value := ok_or (mkPlanningError property Planning_InvalidMount
    ($"mount field requires a value")) value in
  match output with
  | Some _ => Err (mkPlanningError property Planning_InvalidMount message)
  | None => Ok (Some value)
  end.

(** The locals of the loop. @src cdenv-devcontainer/src/planning.rs:755-758 parse_string_mount *)
Record MountFields : Type := mkMountFields {
  mf_kind : option MountKind;
  mf_source : option str;
  mf_target : option str;
  mf_options : list MountOption;
}.

(** The name and value of one field.
    @src cdenv-devcontainer/src/planning.rs:760-764 parse_string_mount *)
Definition field_of (field : str) : str * option str :=
  let '(name, option_value) :=
    match split_once ($"=") field with Some (name, value) => (name, Some value) | None => (field, None) end in
  (trim name, trim <$> option_value).

(** The loop body. @src cdenv-devcontainer/src/planning.rs:759-809 parse_string_mount *)
Definition mount_field (property : str) (f : MountFields) (field : str) :
    result PlanningError MountFields :=
  let '(name, option_value) := field_of field in
  fail_if bool_decide (name = []) || bool_decide (option_value = Some [])
    with mkPlanningError property Planning_InvalidMount ($"mount contains an empty option") in
  if str_eqb name ($"type") then
    fail_if is_Some_b (mf_kind f)
      with mkPlanningError property Planning_InvalidMount ($"mount type is duplicated") in
    let? kind :=
      if bool_decide (option_value = Some ($"bind")) then Ok Mount_Bind
      else if bool_decide (option_value = Some ($"volume")) then Ok Mount_Volume
      else Err (mkPlanningError property Planning_InvalidMount ($"mount type must be bind or volume")) in
    Ok (mkMountFields (Some kind) (mf_source f) (mf_target f) (mf_options f))
  else if bool_decide (name ∈ [$"source"; $"src"]) then
    let? source := set_once (mf_source f) option_value property ($"mount source is duplicated") in
    Ok (mkMountFields (mf_kind f) source (mf_target f) (mf_options f))
  else if bool_decide (name ∈ [$"target"; $"dst"; $"destination"]) then
    let? target := set_once (mf_target f) option_value property ($"mount target is duplicated") in
    Ok (mkMountFields (mf_kind f) (mf_source f) target (mf_options f))
  else
    Ok (mkMountFields (mf_kind f) (mf_source f) (mf_target f)
      (mf_options f ++ [mkMountOption name option_value])).

Section planning.
Context (to_vec : gmap (list N) (list N) -> option (list N)) (Sha256_digest : list N -> list N).

(** @src cdenv-devcontainer/src/planning.rs:908-917 immediate_substitution *)
Definition immediate_substitution (property_path : str) (property : SubstitutionProperty)
    (value : str) (context : HostSubstitutionInputs) : result PlanningError str :=
  map_err (substitution_error property_path)
    (result_map (fun d => resolve d ∅)
      (substitute_host to_vec Sha256_digest property value context)).

(** @src cdenv-devcontainer/src/planning.rs:748-826 parse_string_mount *)
Definition parse_string_mount (value property : str) (substitution_property : SubstitutionProperty)
    (context : HostSubstitutionInputs) : result PlanningError PlannedMount :=
  let? value := immediate_substitution property substitution_property value context in
  let? f := try_fold (mount_field property) (mkMountFields None None None []) (split 44 value) in
  let? kind := ok_or (mkPlanningError property Planning_InvalidMount ($"mount type is required"))
    (mf_kind f) in
  let? target := ok_or (mkPlanningError property Planning_InvalidMount ($"mount target is required"))
    (mf_target f) in
  normalize_mount kind (mf_source f) target (mf_options f) property.

(** @src cdenv-devcontainer/src/planning.rs:720-746 parse_mount *)
Definition parse_mount (mount : RawMount) (property : str) (context : HostSubstitutionInputs) :
    result PlanningError PlannedMount :=
  match mount with
  | RawMount_String value => parse_string_mount value property Prop_Mount context
  | RawMount_Object kind source target =>
      let? source :=
        match source with
        | Some value => result_map Some (immediate_substitution property Prop_Mount value context)
        | None => Ok None
        end in
      let? target := immediate_substitution property Prop_Mount target context in
      normalize_mount kind source target [] property
  end.

(** ** Environment *)

Definition container_env_path (name : str) : str := $"$.containerEnv[" ++ [34] ++ name ++ [34] ++ $"]".
Definition remote_env_path (name : str) : str := $"$.remoteEnv[" ++ [34] ++ name ++ [34] ++ $"]".

(** The first loop. @src cdenv-devcontainer/src/planning.rs:588-599 plan_environment *)
Definition container_env_step (context : HostSubstitutionInputs) (container : strmap (list N))
    (entry : str * list N) : result PlanningError (strmap (list N)) :=
  let '(name, value) := entry in
  let? _ := validate_environment_name name (container_env_path name) in
  let? value := immediate_substitution (container_env_path name) Prop_ContainerEnv value context in
  Ok (<[name := value]> container).

(** The second loop. @src cdenv-devcontainer/src/planning.rs:601-610 plan_environment *)
Definition remote_env_step (context : HostSubstitutionInputs) (remote : strmap (option DeferredString))
    (entry : str * option (list N)) : result PlanningError (strmap (option DeferredString)) :=
  let '(name, value) := entry in
  let? _ := validate_environment_name name (remote_env_path name) in
  let? value :=
    match value with
    | Some value =>
        map_err (substitution_error (remote_env_path name))
          (result_map Some (substitute_host to_vec Sha256_digest Prop_RemoteEnv value context))
    | None => Ok None
    end in
  Ok (<[name := value]> remote).

(** @src cdenv-devcontainer/src/planning.rs:583-612 plan_environment *)
Definition plan_environment (effective : EffectiveMetadata) (context : HostSubstitutionInputs) :
    result PlanningError EnvironmentPlan :=
  let? container := try_fold (container_env_step context) ∅ (sorted_entries (e_container_env effective)) in
  let? remote := try_fold (remote_env_step context) ∅ (sorted_entries (e_remote_env effective)) in
  Ok (mkEnvironmentPlan container remote).

(** ** The plan *)

Definition mount_path (index : N) : str := $"$.mounts[" ++ to_string index ++ $"]".

(** The loop over the mounts; [targets] holds the text of the targets so far.
    @src cdenv-devcontainer/src/planning.rs:494-514 plan_runtime *)
Definition additional_mount (context : HostSubstitutionInputs) (owned : list ContainerPath)
    (workspace_mount : PlannedMount) (acc : list PlannedMount * gset (list N)) (entry : N * RawMount) :
    result PlanningError (list PlannedMount * gset (list N)) :=
  let '(mounts, targets) := acc in
  let '(index, mount) := entry in
  let property := mount_path index in
  let? mount := parse_mount mount property context in
  fail_if bool_decide (pm_target mount = pm_target workspace_mount)
    with mkPlanningError property Planning_MountConflict
      ($"additional mount conflicts with the authoritative workspace target") in
  let? _ := reject_owned_target (pm_target mount) owned property in
  fail_if bool_decide (cp_as_str (pm_target mount) ∈ targets)
    with mkPlanningError property Planning_MountConflict ($"additional mount target is duplicated") in
  Ok (mounts ++ [mount], {[cp_as_str (pm_target mount)]} ∪ targets).

(** @src cdenv-devcontainer/src/planning.rs:426-438 plan_runtime *)
Definition raw_workspace_folder (s : RawScenario) (default_folder : str) : str :=
  match s with
  | Scenario_Image value => default default_folder (workspace_folder (image_options value))
  | Scenario_Dockerfile value => default default_folder (workspace_folder (dockerfile_options value))
  | Scenario_Compose value => compose_workspace_folder value
  end.

(** @src cdenv-devcontainer/src/planning.rs:465-469 plan_runtime *)
Definition raw_workspace_mount (s : RawScenario) : option str :=
  match s with
  | Scenario_Image value => workspace_mount (image_options value)
  | Scenario_Dockerfile value => workspace_mount (dockerfile_options value)
  | Scenario_Compose _ => None
  end.

(** The folder and the context of every other substitution.
    @src cdenv-devcontainer/src/planning.rs:405-463 plan_runtime *)
Definition plan_folder (profile : RawProfile) (inputs : RuntimePlanningInputs) :
    result PlanningError (HostMountSource * ContainerPath * HostSubstitutionInputs) :=
  let? local_source := map_err (fun _ => mkPlanningError ($"$") Planning_InvalidPath
    ($"local workspace path must be absolute and traversal-free"))
    (HostMountSource_parse (in_local_workspace_folder inputs)) in
  let base := last_piece 47 (trim_end_matches 47 (in_local_workspace_folder inputs)) in
  fail_if bool_decide (base = []) with mkPlanningError ($"$.workspaceFolder") Planning_InvalidPath
    ($"workspace basename must not be empty") in
  let default_folder := $"/workspaces/" ++ base in
  let raw_folder := raw_workspace_folder (scenario profile) default_folder in
  let provisional_context := mkInputs (hs_as_str local_source) default_folder (in_local_env inputs)
    (in_identity_labels inputs) in
  let? folder_value := immediate_substitution ($"$.workspaceFolder") Prop_WorkspaceFolder raw_folder
    provisional_context in
  let? folder := map_err (fun _ => mkPlanningError ($"$.workspaceFolder") Planning_InvalidPath
    ($"workspace folder must be an absolute traversal-free container path"))
    (ContainerPath_parse folder_value) in
  Ok (local_source, folder,
      mkInputs (hs_as_str local_source) (cp_as_str folder) (in_local_env inputs) (in_identity_labels inputs)).

(** @src cdenv-devcontainer/src/planning.rs:465-490 plan_runtime *)
Definition plan_workspace (profile : RawProfile) (inputs : RuntimePlanningInputs)
    (local_source : HostMountSource) (folder : ContainerPath) (context : HostSubstitutionInputs) :
    result PlanningError PlannedMount :=
  let? mount :=
    match raw_workspace_mount (scenario profile) with
    | Some value => parse_string_mount value ($"$.workspaceMount") Prop_WorkspaceMount context
    | None => Ok (mkPlannedMount Mount_Bind (Some (hs_as_str local_source)) folder [])
    end in
  let? _ := validate_workspace_mount mount folder local_source in
  let? _ := reject_owned_target (pm_target mount) (in_cdenv_owned_targets inputs) ($"$.workspaceMount") in
  Ok mount.

(** @src cdenv-devcontainer/src/planning.rs:517-554 plan_runtime *)
Definition plan_users (effective : EffectiveMetadata) (inputs : RuntimePlanningInputs)
    (context : HostSubstitutionInputs) : result PlanningError (ContainerUser * ContainerUser) :=
  let container_user :=
    match e_container_user effective with
    | Some user => Some user
    | None => scenario_container_user (in_scenario_metadata inputs)
    end in
  let container_user_raw :=
    match container_user with
    | Some user => if bool_decide (user = []) then $"root" else user
    | None => $"root"
    end in
  let? value := immediate_substitution ($"$.containerUser") Prop_ContainerUser container_user_raw context in
  let? container_user := map_err (fun _ => mkPlanningError ($"$.containerUser") Planning_InvalidUser
    ($"invalid effective container user")) (ContainerUser_parse value) in
  let remote_user_raw := default (cu_as_str container_user) (e_remote_user effective) in
  let? value := immediate_substitution ($"$.remoteUser") Prop_RemoteUser remote_user_raw context in
  let? remote_user := map_err (fun _ => mkPlanningError ($"$.remoteUser") Planning_InvalidUser
    ($"invalid effective remote user")) (ContainerUser_parse value) in
  Ok (container_user, remote_user).

(** @src cdenv-devcontainer/src/planning.rs:400-581 plan_runtime *)
Definition plan_runtime (profile : RawProfile) (effective : EffectiveMetadata)
    (inputs : RuntimePlanningInputs) : result PlanningError RuntimePlan :=
  let? (local_source, folder, context) := plan_folder profile inputs in
  let? mount := plan_workspace profile inputs local_source folder context in
  let? (mounts, _) := try_fold (additional_mount context (in_cdenv_owned_targets inputs) mount) ([], ∅)
    (enumerate 0 (e_mounts effective)) in
  let? (container_user, remote_user) := plan_users effective inputs context in
  let uid_update := uid_update_intent (default true (e_update_remote_user_uid effective)) remote_user
    (in_host_user inputs) in
  let? environment := plan_environment effective context in
  let? _ := validate_runtime_strings (e_cap_add effective) ($"$.capAdd") in
  let? _ := validate_runtime_strings (e_security_opt effective) ($"$.securityOpt") in
  let override_default := match scenario profile with Scenario_Compose _ => false | _ => true end in
  Ok (mkRuntimePlan (mkWorkspacePlan folder mount) mounts container_user remote_user uid_update
        environment (default Probe_LoginInteractiveShell (e_user_env_probe effective))
        (default override_default (e_override_command effective))
        (default false (e_init effective)) (default false (e_privileged effective))
        (e_cap_add effective) (e_security_opt effective)).

End planning.

(** ** Paths as lists of names *)

(** A name that can stand in a normal path. *)
Definition proper (name : str) : Prop :=
  name <> [] /\ name <> $"." /\ name <> $".." /\ (47 ∉ name) /\ existsb is_control name = false.

(** The names of a path, and the path of some names. *)
Definition components (path : str) : list str :=
  filter (fun name => name <> [] /\ name <> $".") (split 47 path).
Definition render (names : list str) : str := $"/" ++ join ($"/") names.

(** Splitting distributes over a separator. *)
Lemma split_sep c a b : split c (a ++ c :: b) = split c a ++ split c b.
Proof.
  induction a as [|x a IH]; cbn; [by rewrite N.eqb_refl|]. rewrite IH.
  destruct (c =? x); [done|]. destruct (split c a) eqn:E; [|done]. by destruct (split_not_nil c a).
Qed.

Lemma components_sep a b : components (a ++ 47 :: b) = components a ++ components b.
Proof. unfold components. by rewrite split_sep, filter_app. Qed.

Lemma proper_components names : Forall proper names -> components (join ($"/") names) = names.
Proof.
  intros Hn. destruct names as [|n names]; [done|]. unfold components. rewrite split_join; [|done|].
  - apply filter_every. eapply Forall_impl; [exact Hn|]. by intros x (? & ? & _).
  - eapply Forall_impl; [exact Hn|]. by intros x (_ & _ & _ & ? & _).
Qed.

Lemma components_render names : Forall proper names -> components (render names) = names.
Proof. intros Hn. etrans; [apply (components_sep [])|]. by apply proper_components. Qed.

Lemma component_fold names acc :
  try_fold component_step acc names =
  if bool_decide ($".." ∈ names) then Err Path_Traversal
  else Ok (acc ++ filter (fun name => name <> [] /\ name <> $".") names).
Proof.
  revert acc. induction names as [|n names IH]; intros acc.
  { by rewrite app_nil_r, bool_decide_eq_false_2 by apply not_elem_of_nil. }
  assert (Hb : n <> $".." -> bool_decide ($".." ∈ n :: names) = bool_decide ($".." ∈ names)).
  { intros Hn. apply bool_decide_ext. rewrite elem_of_cons. naive_solver. }
  cbn [try_fold]. unfold component_step at 1.
  destruct (decide (n = [])) as [->|H0]; [by rewrite Hb, filter_cons_False, <- IH by naive_solver|].
  destruct (decide (n = $".")) as [->|H1]; [by rewrite Hb, filter_cons_False, <- IH by naive_solver|].
  destruct (decide (n = $"..")) as [->|H2]; [by rewrite bool_decide_eq_true_2 by left|].
  unfold str_eqb. rewrite !bool_decide_eq_false_2 by done. cbn [orb].
  rewrite IH, filter_cons_True, Hb by done. by rewrite <- app_assoc.
Qed.

(** What [normalize_absolute] accepts, and the form it gives. *)
Lemma normalize_absolute_Ok value allow_root path :
  normalize_absolute value allow_root = Ok path ->
  Forall proper (components value) /\ path = render (components value) /\
  (allow_root = false -> components value <> []).
Proof.
  unfold normalize_absolute. intros H. destruct (starts_with _ _); [|done]. cbn [negb] in H.
  destruct (existsb is_control value) eqn:Hc; [done|]. rewrite component_fold in H.
  destruct (decide ($".." ∈ split 47 value)) as [|Hd]; [by rewrite bool_decide_eq_true_2 in H|].
  rewrite bool_decide_eq_false_2 in H by done. cbn [app] in H. fold (components value) in H.
  destruct (bool_decide (components value = []) && negb allow_root) eqn:Hr; [done|].
  injection H as <-. split; [|split; [done|intros ->; rewrite andb_true_r in Hr; by apply bool_decide_eq_false in Hr]].
  apply list.Forall_forall. intros n Hn. unfold components in Hn.
  apply list_elem_of_filter in Hn as [[? ?] Hn]. split; [done|]. split; [done|].
  split; [by intros ->|]. assert (Hp := split_pieces 47 value). rewrite list.Forall_forall in Hp.
  split; [by apply Hp|]. assert (Hf := split_Forall (fun c => is_control c = false) 47 value).
  apply existsb_false_iff in Hc. apply Hf in Hc. rewrite list.Forall_forall in Hc.
  apply existsb_false_iff. by apply Hc.
Qed.

Lemma render_app a b : a <> [] -> b <> [] -> render (a ++ b) = render a ++ 47 :: join ($"/") b.
Proof.
  intros Ha Hb. unfold render. rewrite <- app_assoc. f_equal. induction a as [|x a IH]; [done|].
  destruct a as [|y a].
  - cbn [app]. by rewrite join_cons.
  - change ((x :: y :: a) ++ b) with (x :: ((y :: a) ++ b)). rewrite !join_cons by done.
    rewrite IH by done. by rewrite <- !app_assoc.
Qed.

(** On normal paths containment is the prefix order of their names. *)
Lemma path_contains_render a b :
  Forall proper a -> Forall proper b ->
  path_contains (render a) (render b) = true <-> a `prefix_of` b.
Proof.
  intros Ha Hb. unfold path_contains. split.
  - intros [E|E]%orb_true_iff.
    + apply str_eqb_true in E. apply (f_equal components) in E. rewrite !components_render in E by done.
      by subst.
    + destruct (strip_prefix _ _) as [rest|] eqn:Hs; [|done]. apply strip_prefix_Some in Hs.
      apply orb_true_iff in E as [E|E].
      * apply str_eqb_true in E. apply (f_equal components) in E. rewrite components_render in E by done.
        subst a. apply prefix_nil.
      * apply bool_decide_eq_true in E. destruct rest as [|c rest]; [done|]. injection E as ->.
        apply (f_equal components) in Hs. rewrite components_sep, !components_render in Hs by done.
        rewrite Hs. by eexists.
  - intros [c ->]. destruct c as [|x c]; [by rewrite app_nil_r, str_eqb_refl|].
    apply orb_true_iff. right. destruct a as [|y a].
    + change (render ([] ++ x :: c)) with ($"/" ++ join ($"/") (x :: c)).
      change (render []) with ($"/"). by rewrite strip_prefix_app.
    + rewrite render_app by done. rewrite strip_prefix_app. apply orb_true_iff. by right.
Qed.

Lemma normalize_render names allow_root :
  Forall proper names -> (allow_root = false -> names <> []) ->
  normalize_absolute (render names) allow_root = Ok (render names).
Proof.
  intros Hn Hr. unfold normalize_absolute. cbn [render lit starts_with].
  replace (existsb is_control (render names)) with false.
  2: { symmetry. apply existsb_false_iff. unfold render. constructor; [done|]. clear Hr.
       induction Hn as [|n names (_ & _ & _ & _ & Hc) Hn IH]; [constructor|].
       apply existsb_false_iff in Hc. destruct names; [done|]. rewrite join_cons by done.
       apply Forall_app; split; [done|]. by constructor. }
  rewrite component_fold. fold (components (render names)). rewrite components_render by done.
  rewrite bool_decide_eq_false_2.
  2: { intros Hd. assert (Hin : $".." ∈ components (render names)).
       { apply list_elem_of_filter. by split. }
       rewrite components_render in Hin by done. rewrite list.Forall_forall in Hn.
       by destruct (Hn _ Hin) as (_ & _ & ? & _). }
  cbn [app]. destruct allow_root; [by rewrite andb_false_r|].
  rewrite bool_decide_eq_false_2 by auto. done.
Qed.

(** Normalised paths are lists of names.  A path that [normalize_absolute] accepts becomes
    [/] followed by its names joined with [/]: no empty name, no [.] or [..], no control
    character.  Two such paths are equal exactly when their names are, [path_contains] is the
    prefix order on names (so [/a] does not contain [/ab]), and normalising again changes
    nothing. *)
Theorem normalized_paths v1 r1 p1 v2 r2 p2 :
  normalize_absolute v1 r1 = Ok p1 -> normalize_absolute v2 r2 = Ok p2 ->
  (Forall proper (components v1) /\ p1 = render (components v1)) /\
  normalize_absolute p1 r1 = Ok p1 /\
  (p1 = p2 <-> components v1 = components v2) /\
  (path_contains p1 p2 = true <-> components v1 `prefix_of` components v2).
Proof.
  intros (H1 & -> & Hr)%normalize_absolute_Ok (H2 & -> & _)%normalize_absolute_Ok.
  split; [done|]. split; [by apply normalize_render|]. split.
  - split; [|congruence]. intros E%(f_equal components). by rewrite !components_render in E.
  - by apply path_contains_render.
Qed.

Lemma normalized_paths_witness :
  path_contains ($"/a/b") ($"/a/b/c") = true /\ ~ components ($"/a") `prefix_of` components ($"/ab").
Proof.
  assert (H1 := normalized_paths ($"//a/./b/") false ($"/a/b") ($"/a/b/c") true ($"/a/b/c")
    eq_refl eq_refl).
  assert (H2 := normalized_paths ($"/a") false ($"/a") ($"/ab") true ($"/ab") eq_refl eq_refl).
  split.
  - apply H1. exists [$"c"]. reflexivity.
  - intros Hp. apply H2 in Hp. vm_compute in Hp. discriminate.
Defined.

(** ** Names, users and mount strings *)

(** [[A-Za-z_][A-Za-z0-9_]*] *)
Definition environment_name (name : str) : Prop :=
  exists c rest, name = c :: rest /\ (c = 95 \/ is_ascii_alphabetic c = true) /\
    Forall (fun c => c = 95 \/ is_ascii_alphanumeric c = true) rest.

(** A string whose bytes are ASCII is its bytes. *)
Lemma encode_ascii_inv s : Forall (fun b => b < 128) (encode_utf8 s) -> encode_utf8 s = s.
Proof.
  intros H. apply encode_utf8_ascii. induction s as [|c s IH]; [done|]. cbn in H.
  apply Forall_app in H as [Hc Hs]. constructor; [|by apply IH]. unfold encode_char in Hc.
  destruct (N.ltb_spec c 128); [done|]. exfalso.
  destruct (c <? 2048), (c <? 65536); apply Forall_cons in Hc as [Hc _]; lia.
Qed.

Lemma word_byte b : b = 95 \/ is_ascii_alphanumeric b = true -> b < 128.
Proof. intros [->|H]; [lia|]. apply alphanumeric_range in H. lia. Qed.

Lemma enumerate_rest i (l : list N) :
  0 < i ->
  forallb (fun '(index, byte) =>
    (byte =? 95) || is_ascii_alphabetic byte || ((0 <? index) && is_ascii_digit byte)) (enumerate i l) = true <->
  Forall (fun c => c = 95 \/ is_ascii_alphanumeric c = true) l.
Proof.
  revert i. induction l as [|b l IH]; intros i Hi; cbn; [by split|].
  rewrite andb_true_iff, IH, Forall_cons by lia. assert ((0 <? i) = true) as -> by (apply N.ltb_lt; lia).
  unfold is_ascii_alphanumeric. rewrite !orb_true_iff, N.eqb_eq. cbn. naive_solver.
Qed.

Lemma validate_environment_name_Ok name property :
  validate_environment_name name property = Ok tt <-> environment_name name.
Proof.
  unfold validate_environment_name. split.
  - destruct (forallb _ _) eqn:Hf; [|done]. destruct (decide (name = [])) as [|Hn]; [by rewrite bool_decide_eq_true_2|].
    intros _. assert (He : encode_utf8 name = name).
    { apply encode_ascii_inv. destruct (encode_utf8 name) as [|b l]; [done|]. cbn in Hf.
      apply andb_true_iff in Hf as [Hb Hl]. apply enumerate_rest in Hl; [|lia].
      rewrite orb_false_r in Hb. constructor.
      - apply word_byte. unfold is_ascii_alphanumeric. apply orb_true_iff in Hb as [Hb%N.eqb_eq| ->]; auto.
      - eapply Forall_impl; [exact Hl|]. intros ? ?. by apply word_byte. }
    rewrite He in Hf. destruct name as [|c rest]; [done|]. cbn in Hf.
    apply andb_true_iff in Hf as [Hb Hl]. apply enumerate_rest in Hl; [|lia].
    rewrite orb_false_r, orb_true_iff, N.eqb_eq in Hb. by exists c, rest.
  - intros (c & rest & -> & Hc & Hr). rewrite bool_decide_eq_false_2 by done.
    rewrite encode_utf8_ascii.
    2: { constructor; [apply word_byte; unfold is_ascii_alphanumeric; destruct Hc as [->| ->]; auto|].
         eapply Forall_impl; [exact Hr|]. intros ? ?. by apply word_byte. }
    cbn [enumerate forallb]. change (0 + 1) with 1. rewrite (proj2 (enumerate_rest 1 rest ltac:(lia)) Hr).
    assert ((c =? 95) || is_ascii_alphabetic c = true) as -> by (destruct Hc as [->| ->]; [done|apply orb_true_r]).
    done.
Qed.

Definition user_char (c : char) : bool := negb (is_control c || is_whitespace c || (c =? 44) || (c =? 58)).
Definition user_part (s : str) : Prop := s <> [] /\ Forall (fun c => user_char c = true) s.

(** [user] or [user:group]. *)
Definition valid_user (value : str) : Prop :=
  user_part value \/ exists user group, value = user ++ 58 :: group /\ user_part user /\ user_part group.

Lemma count_colons s : lenN (List.filter (N.eqb 58) s) = 0 <-> 58 ∉ s.
Proof.
  induction s as [|c s IH]; cbn [List.filter]; [split; [intros _; apply not_elem_of_nil|done]|].
  rewrite not_elem_of_cons, <- IH. destruct (N.eqb_spec 58 c); [rewrite lenN_cons; split; lia|naive_solver].
Qed.

Lemma user_chars s :
  (58 ∉ s) -> existsb (fun c => is_control c || is_whitespace c || (c =? 44)) s = false <->
  Forall (fun c => user_char c = true) s.
Proof.
  intros Hs. rewrite existsb_false_iff, !list.Forall_forall. unfold user_char.
  split; intros H c Hc; specialize (H c Hc); cbn in H |- *.
  - rewrite H. destruct (N.eqb_spec c 58); [by subst|done].
  - by apply negb_true_iff, orb_false_iff in H as [H _].
Qed.

Lemma ContainerUser_parse_Ok value u :
  ContainerUser_parse value = Ok u -> u = mkContainerUser value /\ valid_user value.
Proof.
  unfold ContainerUser_parse. intros H. destruct (_ || _) eqn:Hv in H; [done|]. injection H as <-.
  split; [done|]. apply orb_false_iff in Hv as [[[He Hc]%orb_false_iff Hp]%orb_false_iff Hn].
  apply N.ltb_ge in Hn. apply bool_decide_eq_false in He.
  destruct (split_once [58] value) as [[a b]|] eqn:Hs.
  - apply split_once_char_Some in Hs as [-> Ha]. right. exists a, b. split; [done|].
    rewrite split_app in Hp by done. rewrite List.filter_app, lenN_app in Hn. cbn [List.filter N.eqb Pos.eqb] in Hn.
    rewrite existsb_app in Hc. cbn [existsb] in Hc, Hp. rewrite lenN_cons in Hn.
    assert (Hb : 58 ∉ b) by (apply count_colons; lia). rewrite split_nosep in Hp by done.
    cbn [existsb] in Hp. prop_of_bool.
    repeat match goal with H : str_eqb _ _ = false |- _ => apply bool_decide_eq_false in H end.
    split; (split; [done|]); by apply user_chars.
  - apply split_once_char_None_iff in Hs. left. split; [done|]. by apply user_chars.
Qed.

(** The values of the fields named by [keys], in order. *)
Definition values_of (keys : list str) (fields : list str) : list (option str) :=
  omap (fun field => if bool_decide (fst (field_of field) ∈ keys) then Some (snd (field_of field)) else None)
    fields.

Definition kind_text (kind : MountKind) : str :=
  match kind with Mount_Bind => $"bind" | Mount_Volume => $"volume" end.
Definition listed {A} (o : option A) : list (option A) := from_option (fun a => [Some a]) [] o.

Definition type_keys : list str := [$"type"].
Definition source_keys : list str := [$"source"; $"src"].
Definition target_keys : list str := [$"target"; $"dst"; $"destination"].

(** What the fields of a mount string say: at most one type, source and target under any of
    their names, every other field an option, and no empty name or value. *)
Record fields_say (fields : list str) (f : MountFields) : Prop := mkFieldsSay {
  say_nonempty : Forall (fun field => fst (field_of field) <> [] /\ snd (field_of field) <> Some []) fields;
  say_kind : values_of type_keys fields = listed (kind_text <$> mf_kind f);
  say_source : values_of source_keys fields = listed (mf_source f);
  say_target : values_of target_keys fields = listed (mf_target f);
  say_options : mf_options f =
    omap (fun field => if bool_decide (fst (field_of field) ∈ type_keys ++ source_keys ++ target_keys) then None
                       else Some (mkMountOption (fst (field_of field)) (snd (field_of field)))) fields;
}.

Lemma values_of_snoc keys pre field :
  values_of keys (pre ++ [field]) =
  values_of keys pre ++ if bool_decide (fst (field_of field) ∈ keys) then [snd (field_of field)] else [].
Proof. unfold values_of. rewrite omap_app. f_equal. cbn. by destruct (bool_decide _). Qed.

Lemma set_once_Ok output value property message o :
  set_once output value property message = Ok o -> output = None /\ is_Some value /\ o = value.
Proof. unfold set_once. destruct value, output; cbn; intros [= <-]; eauto. Qed.

Lemma mount_field_say property pre f field f' :
  fields_say pre f -> mount_field property f field = Ok f' -> fields_say (pre ++ [field]) f'.
Proof.
  intros [Hn Hk Hs Ht Ho] H. unfold mount_field in H.
  assert (Hsn := fun keys => values_of_snoc keys pre field).
  destruct (field_of field) as [name value] eqn:Hf. cbn [fst snd] in Hsn.
  destruct (_ || _) eqn:He in H; [done|]. apply orb_false_iff in He as [He1 He2]. prop_of_bool.
  assert (Hn' : Forall (fun field => fst (field_of field) <> [] /\ snd (field_of field) <> Some [])
    (pre ++ [field])).
  { apply Forall_app; split; [done|]. constructor; [by rewrite Hf|done]. }
  destruct (str_eqb name ($"type")) eqn:E1.
  - apply str_eqb_true in E1 as ->. destruct (mf_kind f) as [|] eqn:Ek; [done|]. cbn [is_Some_b] in H.
    assert (Hv : exists kind, value = Some (kind_text kind) /\ f' = mkMountFields (Some kind) (mf_source f) (mf_target f) (mf_options f)).
    { destruct (bool_decide (value = Some ($"bind"))) eqn:E; [|destruct (bool_decide (value = Some ($"volume"))) eqn:E'; [|done]];
        injection H as <-; prop_of_bool; [by exists Mount_Bind|by exists Mount_Volume]. }
    destruct Hv as (kind & -> & ->). split; cbn [mf_kind mf_source mf_target mf_options]; [done|..].
    + by rewrite Hsn, Hk.
    + by rewrite Hsn, app_nil_r.
    + by rewrite Hsn, app_nil_r.
    + rewrite omap_app, <- Ho. cbn. by rewrite Hf, app_nil_r.
  - destruct (bool_decide (name ∈ [$"source"; $"src"])) eqn:E2.
    + run H. apply set_once_Ok in Heqr as (Hs0 & [v ->] & ->). prop_of_bool.
      rewrite Hs0 in Hs.
      apply elem_of_cons in E2 as [->|E2%list_elem_of_singleton]; [|subst name];
      (split; cbn [mf_kind mf_source mf_target mf_options]; [done|..];
       [by rewrite Hsn, app_nil_r|by rewrite Hsn, Hs|by rewrite Hsn, app_nil_r|
        rewrite omap_app, <- Ho; cbn; by rewrite Hf, app_nil_r]).
    + destruct (bool_decide (name ∈ [$"target"; _; _])) eqn:E3.
      * run H. apply set_once_Ok in Heqr as (Hs0 & [v ->] & ->). prop_of_bool. rewrite Hs0 in Ht.
        repeat (apply elem_of_cons in E3 as [->|E3]); [..|by apply not_elem_of_nil in E3];
        (split; cbn [mf_kind mf_source mf_target mf_options]; [done|..];
         [by rewrite Hsn, app_nil_r|by rewrite Hsn, app_nil_r|by rewrite Hsn, Ht|
          rewrite omap_app, <- Ho; cbn; by rewrite Hf, app_nil_r]).
      * injection H as <-. apply bool_decide_eq_false in E1.
        assert (Ht0 : bool_decide (name ∈ type_keys) = false) by (apply bool_decide_eq_false; set_solver).
        split; cbn [mf_kind mf_source mf_target mf_options]; [done|..].
        -- by rewrite Hsn, Ht0, app_nil_r.
        -- unfold source_keys. by rewrite Hsn, E2, app_nil_r.
        -- unfold target_keys. by rewrite Hsn, E3, app_nil_r.
        -- rewrite omap_app, <- Ho. f_equal. cbn. rewrite Hf. cbn. rewrite bool_decide_eq_false_2; [done|].
           prop_of_bool. unfold type_keys, source_keys, target_keys. set_solver.
Qed.

(** ** What a plan promises *)

(** A container path in normal form, with its names. *)
Definition container_path (p : ContainerPath) (names : list str) : Prop :=
  Forall proper names /\ names <> [] /\ cp_as_str p = render names.

Lemma ContainerPath_parse_Ok value p :
  ContainerPath_parse value = Ok p -> container_path p (components value).
Proof.
  unfold ContainerPath_parse. destruct (normalize_absolute value false) as [path|] eqn:E; [|done].
  intros [= <-]. apply normalize_absolute_Ok in E as (? & -> & Hne). by split; [|split; [apply Hne|]].
Qed.

Lemma HostMountSource_parse_Ok value s :
  HostMountSource_parse value = Ok s ->
  Forall proper (components value) /\ hs_as_str s = render (components value).
Proof.
  unfold HostMountSource_parse. destruct (normalize_absolute value true) as [path|] eqn:E; [|done].
  intros [= <-]. by apply normalize_absolute_Ok in E as (? & -> & _).
Qed.

(** A mount in normal form. *)
Definition normal_mount (m : PlannedMount) : Prop :=
  (exists target, container_path (pm_target m) target) /\
  match mount_kind m with
  | Mount_Bind => exists source, Forall proper source /\ mount_source m = Some (render source)
  | Mount_Volume => forall name, mount_source m = Some name -> unsafe_volume_name name = false
  end.

Lemma normalize_mount_Ok kind source target options property m :
  normalize_mount kind source target options property = Ok m ->
  mount_kind m = kind /\ mount_options m = options /\ normal_mount m /\
  cp_as_str (pm_target m) = render (components target) /\
  mount_source m = match kind with Mount_Bind => (render ∘ components) <$> source | Mount_Volume => source end.
Proof.
  unfold normalize_mount. destruct kind; cbn [bool_decide decide_rel]; intros H.
  - destruct source as [s|]; [|done]. cbn [ok_or] in H.
    destruct (HostMountSource_parse s) as [h|] eqn:Hh; [|done]. cbn in H.
    destruct (ContainerPath_parse target) as [t|] eqn:Ht; [|done]. injection H as <-.
    apply HostMountSource_parse_Ok in Hh as [Hp Hh]. apply ContainerPath_parse_Ok in Ht.
    cbn. assert (Ht' := Ht). destruct Ht' as (_ & _ & ->). rewrite Hh.
    split; [done|]. split; [done|]. split; [|done]. split; [by eexists|]. by eexists.
  - cbn in H. destruct (match source with Some _ => _ | None => _ end) eqn:Hv; [done|].
    destruct (ContainerPath_parse target) as [t|] eqn:Ht; [|done]. injection H as <-.
    apply ContainerPath_parse_Ok in Ht. cbn. assert (Ht' := Ht). destruct Ht' as (_ & _ & ->).
    split; [done|]. split; [done|]. split; [|done]. split; [by eexists|]. intros n Hn. cbn in Hn. by subst source.
Qed.

Section sound.
Context (to_vec : gmap (list N) (list N) -> option (list N)) (Sha256_digest : list N -> list N).

(** [input] of [property] denotes [value], with no container environment. *)
Definition says (context : HostSubstitutionInputs) (property : SubstitutionProperty) (input value : str) : Prop :=
  denotes to_vec Sha256_digest property context ∅ input value.

Lemma immediate_substitution_Ok path property input context value :
  immediate_substitution to_vec Sha256_digest path property input context = Ok value ->
  says context property input value.
Proof.
  unfold immediate_substitution. destruct (substitute_host _ _ _ _ _) as [d|] eqn:E; [|done].
  intros [= <-]. by apply substitute_host_Ok.
Qed.

(** The mount that a string or an object describes. *)
Definition mount_described (context : HostSubstitutionInputs) (property : SubstitutionProperty)
    (text : str) (m : PlannedMount) : Prop :=
  exists value source target,
    says context property text value /\
    fields_say (split 44 value) (mkMountFields (Some (mount_kind m)) source (Some target) (mount_options m)) /\
    cp_as_str (pm_target m) = render (components target) /\
    mount_source m = match mount_kind m with
                     | Mount_Bind => (render ∘ components) <$> source
                     | Mount_Volume => source
                     end.

Lemma parse_string_mount_Ok text property substitution context m :
  parse_string_mount to_vec Sha256_digest text property substitution context = Ok m ->
  normal_mount m /\ mount_described context substitution text m.
Proof.
  unfold parse_string_mount. intros H.
  destruct (immediate_substitution _ _ _ _ _ _) as [value|] eqn:Hv; [|done].
  destruct (try_fold _ _ _) as [f|] eqn:Hf in H; [|done].
  apply (try_fold_prefix fields_say) in Hf; [|intros; by eapply mount_field_say|by constructor].
  destruct f as [[kind|] source [target|] options]; try done. cbn in H.
  apply normalize_mount_Ok in H as (<- & <- & Hm & Ht & Hs). split; [done|].
  exists value, source, target. split; [by eapply immediate_substitution_Ok|]. done.
Qed.

Definition mount_says (context : HostSubstitutionInputs) (raw : RawMount) (m : PlannedMount) : Prop :=
  normal_mount m /\
  match raw with
  | RawMount_String text => mount_described context Prop_Mount text m
  | RawMount_Object kind source target =>
      mount_kind m = kind /\ mount_options m = [] /\
      (exists t, says context Prop_Mount target t /\ cp_as_str (pm_target m) = render (components t)) /\
      match source with
      | None => mount_source m = None
      | Some s => exists v, says context Prop_Mount s v /\
          mount_source m = Some match kind with Mount_Bind => render (components v) | Mount_Volume => v end
      end
  end.

Lemma parse_mount_Ok raw property context m :
  parse_mount to_vec Sha256_digest raw property context = Ok m -> mount_says context raw m.
Proof.
  destruct raw as [text|kind source target]; cbn [parse_mount]; [apply parse_string_mount_Ok|].
  intros H. destruct source as [s|].
  - destruct (immediate_substitution _ _ _ _ s _) as [v|] eqn:Hs; [|done]. cbn in H.
    destruct (immediate_substitution _ _ _ _ target _) as [t|] eqn:Ht; [|done].
    apply immediate_substitution_Ok in Hs, Ht.
    apply normalize_mount_Ok in H as (Hk & Ho & Hm & Htt & Hss). split; [done|].
    split; [done|]. split; [done|]. split; [by eauto|]. exists v. split; [done|]. by rewrite Hss; destruct kind.
  - destruct (immediate_substitution _ _ _ _ target _) as [t|] eqn:Ht; [|done]. cbn in H.
    apply immediate_substitution_Ok in Ht.
    apply normalize_mount_Ok in H as (Hk & Ho & Hm & Htt & Hss). split; [done|].
    split; [done|]. split; [done|]. split; [by eauto|]. by rewrite Hss; destruct kind.
Qed.
(** The mounts accepted so far: what was asked for, in order, with distinct targets that differ
    from that of the workspace and stay clear of the targets cdenv owns. *)
Record mounts_sound (context : HostSubstitutionInputs) (owned : list ContainerPath) (ws : PlannedMount)
    (raws : list RawMount) (ms : list PlannedMount) : Prop := mkMountsSound {
  ms_said : Forall2 (mount_says context) raws ms;
  ms_distinct : NoDup (List.map pm_target (ms ++ [ws]));
  ms_clear : Forall (fun m => existsb (ContainerPath_overlaps (pm_target m)) owned = false) ms;
}.

Lemma additional_mount_step context owned ws pre entry acc acc' :
  mounts_sound context owned ws pre.*2 acc.1 /\ acc.2 = list_to_set (List.map (cp_as_str ∘ pm_target) acc.1) ->
  additional_mount to_vec Sha256_digest context owned ws acc entry = Ok acc' ->
  mounts_sound context owned ws (pre ++ [entry]).*2 acc'.1 /\
  acc'.2 = list_to_set (List.map (cp_as_str ∘ pm_target) acc'.1).
Proof.
  destruct acc as [ms targets], entry as [index raw]. cbn [fst snd]. intros [[Hs Hd Hc] ->] H.
  unfold additional_mount in H. destruct (parse_mount _ _ _ _ _) as [m|] eqn:Hm; [|done].
  destruct (bool_decide (pm_target m = _)) eqn:Hw; [done|]. unfold reject_owned_target in H.
  destruct (existsb _ _) eqn:Ho in H; [done|]. cbn beta iota in H.
  destruct (bool_decide (cp_as_str _ ∈ _)) eqn:Ht in H; [done|]. injection H as <-. prop_of_bool.
  apply parse_mount_Ok in Hm. cbn [fst snd]. split; [split|].
  - rewrite fmap_app. apply Forall2_app; [done|]. by apply Forall2_cons; split.
  - rewrite !List.map_app in *. cbn [List.map] in *. apply NoDup_app in Hd as (Hd & Hd' & _).
    rewrite <- app_assoc. apply NoDup_app. split; [done|]. split.
    + intros t Hin [->| ->%list_elem_of_singleton]%elem_of_cons.
      * apply Ht. apply elem_of_list_to_set. apply list_elem_of_fmap in Hin as (m' & He & Hin).
        apply list_elem_of_fmap. exists m'. cbn. by rewrite He.
      * apply (Hd' _ Hin). by left.
    + constructor; [|apply NoDup_singleton]. by rewrite list_elem_of_singleton.
  - apply Forall_app; split; [done|]. by repeat constructor.
  - rewrite List.map_app, list_to_set_app_L. cbn. set_solver.
Qed.


Lemma additional_mounts_Ok context owned ws raws ms targets :
  try_fold (additional_mount to_vec Sha256_digest context owned ws) ([], ∅) (enumerate 0 raws) = Ok (ms, targets) ->
  mounts_sound context owned ws raws ms.
Proof.
  intros H. apply (try_fold_prefix (fun pre acc => mounts_sound context owned ws pre.*2 acc.1 /\
    acc.2 = list_to_set (List.map (cp_as_str ∘ pm_target) acc.1))) in H.
  - destruct H as [H _]. cbn in H. by rewrite enumerate_snd in H.
  - intros. by eapply additional_mount_step.
  - split; [|done]. split; cbn; [constructor|apply NoDup_singleton|constructor].
Qed.

(** The plan of a profile: [root] names the checkout, [folder] the workspace folder, [ctx] is the
    context in which every other property is read. *)
Record runtime_sound (profile : RawProfile) (effective : EffectiveMetadata) (inputs : RuntimePlanningInputs)
    (plan : RuntimePlan) (root folder : list str) (ctx : HostSubstitutionInputs) : Prop := mkRuntimeSound {
  rs_context : ctx = mkInputs (render root) (render folder) (in_local_env inputs) (in_identity_labels inputs);
  rs_root : normalize_absolute (in_local_workspace_folder inputs) true = Ok (render root);
  rs_folder : container_path (ws_folder (rp_workspace plan)) folder;
  rs_folder_said : exists default_folder value,
    says (mkInputs (render root) default_folder (in_local_env inputs) (in_identity_labels inputs))
      Prop_WorkspaceFolder (raw_workspace_folder (scenario profile) default_folder) value /\
    components value = folder;
  rs_target : exists target, container_path (pm_target (ws_mount (rp_workspace plan))) target /\
    target `prefix_of` folder;
  rs_source : mount_kind (ws_mount (rp_workspace plan)) = Mount_Bind ->
    exists source, mount_source (ws_mount (rp_workspace plan)) = Some (render source) /\
      root `prefix_of` source;
  rs_mounts : mounts_sound ctx (in_cdenv_owned_targets inputs) (ws_mount (rp_workspace plan))
    (e_mounts effective) (rp_mounts plan);
  rs_clear : existsb (ContainerPath_overlaps (pm_target (ws_mount (rp_workspace plan))))
    (in_cdenv_owned_targets inputs) = false;
  rs_container_user : valid_user (cu_as_str (rp_container_user plan));
  rs_remote_user : valid_user (cu_as_str (rp_remote_user plan)) /\
    says ctx Prop_RemoteUser (default (cu_as_str (rp_container_user plan)) (e_remote_user effective))
      (cu_as_str (rp_remote_user plan));
  rs_uid : forall user host, rp_uid_update plan = Uid_UpdateNamedUser user host ->
    user = rp_remote_user plan /\ in_host_user inputs = Some host /\
    e_update_remote_user_uid effective <> Some false /\
    account user <> $"root" /\ ~ Forall (fun c => is_ascii_digit c = true) (account user);
  rs_container_env : map_Forall2 (fun name text value => environment_name name /\
    says ctx Prop_ContainerEnv text value) (e_container_env effective) (env_container (rp_environment plan));
  rs_remote_env : map_Forall2 (fun name text value => environment_name name /\
    match text, value with
    | Some text, Some d => forall env, denotes to_vec Sha256_digest Prop_RemoteEnv ctx env text (resolve d env)
    | None, None => True
    | _, _ => False
    end) (e_remote_env effective) (env_remote (rp_environment plan));
  rs_settings : Forall (fun s => s <> [] /\ existsb is_control s = false) (rp_cap_add plan ++ rp_security_opt plan);
}.

Lemma plan_folder_Ok profile inputs local folder ctx :
  plan_folder to_vec Sha256_digest profile inputs = Ok (local, folder, ctx) ->
  exists root names default_folder value,
    hs_as_str local = render root /\ Forall proper root /\
    normalize_absolute (in_local_workspace_folder inputs) true = Ok (render root) /\
    container_path folder names /\ components value = names /\
    says (mkInputs (render root) default_folder (in_local_env inputs) (in_identity_labels inputs))
      Prop_WorkspaceFolder (raw_workspace_folder (scenario profile) default_folder) value /\
    ctx = mkInputs (render root) (render names) (in_local_env inputs) (in_identity_labels inputs).
Proof.
  unfold plan_folder, HostMountSource_parse. intros H.
  destruct (normalize_absolute _ true) as [path|] eqn:Hn; [|done]. cbn [map_err result_map] in H.
  assert (Hn' := Hn). apply normalize_absolute_Ok in Hn' as (Hroot & -> & _).
  destruct (bool_decide _); [done|].
  destruct (immediate_substitution _ _ _ _ _ _) as [value|] eqn:Hv; [|done].
  destruct (ContainerPath_parse value) as [p|] eqn:Hp; [|done]. injection H as <- <- <-.
  apply immediate_substitution_Ok in Hv. apply ContainerPath_parse_Ok in Hp.
  assert (Hp' := Hp). destruct Hp' as (_ & _ & ->).
  exists (components (in_local_workspace_folder inputs)), (components value). do 2 eexists.
  by split_and!.
Qed.

Lemma validate_workspace_mount_Ok m folder local target names root :
  validate_workspace_mount m folder local = Ok tt -> normal_mount m ->
  container_path (pm_target m) target -> container_path folder names ->
  hs_as_str local = render root -> Forall proper root ->
  target `prefix_of` names /\
  (mount_kind m = Mount_Bind -> exists source, mount_source m = Some (render source) /\ root `prefix_of` source).
Proof.
  unfold validate_workspace_mount. intros H [_ Hm] (Ht & _ & Het) (Hf & _ & Hef) Hl Hr.
  rewrite Het, Hef, Hl in H. destruct (path_contains _ _) eqn:E in H; [|done]. cbn [negb] in H.
  split; [by apply path_contains_render|]. intros Hk. rewrite Hk in *. rewrite bool_decide_eq_true_2 in H by done.
  destruct Hm as (source & Hs & Hms). rewrite Hms in *. cbn [ok_or] in H.
  unfold HostMountSource_parse in H. rewrite normalize_render in H by done. cbn [result_map map_err hs_as_str] in H.
  exists source. split; [done|]. apply path_contains_render; [done|done|].
  by destruct (path_contains (render root) (render source)) in H |- *.
Qed.

Lemma plan_workspace_Ok profile inputs local folder ctx m names root :
  plan_workspace to_vec Sha256_digest profile inputs local folder ctx = Ok m ->
  container_path folder names -> hs_as_str local = render root -> Forall proper root ->
  (exists target, container_path (pm_target m) target /\ target `prefix_of` names) /\
  (mount_kind m = Mount_Bind -> exists source, mount_source m = Some (render source) /\ root `prefix_of` source) /\
  existsb (ContainerPath_overlaps (pm_target m)) (in_cdenv_owned_targets inputs) = false.
Proof.
  unfold plan_workspace. intros H Hf Hl Hr.
  destruct (match raw_workspace_mount _ with Some _ => _ | None => _ end) as [m'|] eqn:Hm in H; [|done].
  destruct (validate_workspace_mount m' folder local) as [[]|] eqn:Hv; [|done].
  unfold reject_owned_target in H. destruct (existsb _ _) eqn:Ho in H; [done|]. injection H as ->.
  assert (Hn : normal_mount m).
  { destruct (raw_workspace_mount _); [by apply parse_string_mount_Ok in Hm as [? _]|].
    injection Hm as <-. split; [by eexists|]. cbn. exists root. by rewrite Hl. }
  assert (Hn' := Hn). destruct Hn' as [[target Ht] _].
  destruct (validate_workspace_mount_Ok _ _ _ _ _ _ Hv Hn Ht Hf Hl Hr). eauto.
Qed.

Lemma validate_runtime_strings_Ok values parent :
  validate_runtime_strings values parent = Ok tt ->
  Forall (fun s => s <> [] /\ existsb is_control s = false) values.
Proof.
  unfold validate_runtime_strings. destruct (position _ _) eqn:E; [done|]. intros _.
  revert E. induction values as [|v values IH]; [constructor|]. cbn.
  destruct (_ || _) eqn:Hv; [done|]. prop_of_bool. intros E.
  constructor; [done|]. apply IH. by destruct (position _ _).
Qed.

Lemma uid_update_named enabled remote host user h :
  uid_update_intent enabled remote host = Uid_UpdateNamedUser user h ->
  user = remote /\ host = Some h /\ enabled = true /\ account user <> $"root" /\
  ~ Forall (fun c => is_ascii_digit c = true) (account user).
Proof.
  unfold uid_update_intent. destruct enabled; [|done]. cbn.
  destruct (is_root remote) eqn:Hr; [done|]. destruct (is_numeric remote) eqn:Hn; [done|].
  destruct host; [|done]. intros [= <- <-]. unfold is_root, is_numeric in *. prop_of_bool.
  repeat split; [intros Ha; by rewrite Ha in *|]. rewrite <- forallb_Forall. congruence.
Qed.

Lemma plan_users_Ok effective inputs ctx container remote :
  plan_users to_vec Sha256_digest effective inputs ctx = Ok (container, remote) ->
  valid_user (cu_as_str container) /\ valid_user (cu_as_str remote) /\
  says ctx Prop_RemoteUser (default (cu_as_str container) (e_remote_user effective)) (cu_as_str remote).
Proof.
  unfold plan_users. intros H.
  destruct (immediate_substitution _ _ _ Prop_ContainerUser _ _) as [v|] eqn:Hv; [|done].
  destruct (ContainerUser_parse v) as [u|] eqn:Hu; [|done]. cbn [map_err] in H.
  destruct (immediate_substitution _ _ _ Prop_RemoteUser _ _) as [w|] eqn:Hw; [|done].
  destruct (ContainerUser_parse w) as [x|] eqn:Hx; [|done]. injection H as <- <-.
  apply ContainerUser_parse_Ok in Hu as [-> Hu], Hx as [-> Hx]. by apply immediate_substitution_Ok in Hw.
Qed.

Lemma plan_environment_Ok effective ctx env :
  plan_environment to_vec Sha256_digest effective ctx = Ok env ->
  map_Forall2 (fun name text value => environment_name name /\ says ctx Prop_ContainerEnv text value)
    (e_container_env effective) (env_container env) /\
  map_Forall2 (fun name text value => environment_name name /\
    match text, value with
    | Some text, Some d => forall env, denotes to_vec Sha256_digest Prop_RemoteEnv ctx env text (resolve d env)
    | None, None => True
    | _, _ => False
    end) (e_remote_env effective) (env_remote env).
Proof.
  unfold plan_environment. intros H.
  destruct (try_fold _ _ (sorted_entries (e_container_env effective))) as [c|] eqn:Hc; [|done].
  destruct (try_fold _ _ (sorted_entries (e_remote_env effective))) as [r|] eqn:Hr; [|done].
  injection H as <-. split; (eapply try_fold_entries; [|done]); cbn; intros acc k a acc' H;
    destruct (validate_environment_name _ _) as [[]|] eqn:Hn; try done; apply validate_environment_name_Ok in Hn.
  - destruct (immediate_substitution _ _ _ _ _ _) as [v|] eqn:Hv; [|done]. injection H as <-.
    apply immediate_substitution_Ok in Hv. eauto.
  - destruct a as [text|]; [|injection H as <-; by exists None].
    destruct (substitute_host _ _ _ _ _) as [d|] eqn:Hd; [|done]. injection H as <-. exists (Some d).
    split; [|done]. split; [done|]. intros e. by apply substitute_host_Ok.
Qed.
End sound.

(** C35: a runtime plan is safe and says what was asked for.  Whatever profile, metadata and
    inputs, when [plan_runtime] succeeds: the workspace folder lies in the target of the
    workspace mount; a bind mounted workspace comes from the checkout or below it; the
    additional mounts are those asked for, in order, in normal form, with distinct targets that
    differ from that of the workspace, and no mount touches a target cdenv owns; the users are
    valid; only a named account other than root is renumbered, and only when that is enabled and
    the host identity is known; the environments have the keys asked for, with valid names and
    the values their texts denote; capabilities and security options have no empty or control
    text. *)
Theorem plan_runtime_sound to_vec Sha256_digest profile effective inputs plan :
  plan_runtime to_vec Sha256_digest profile effective inputs = Ok plan ->
  exists root folder ctx,
    runtime_sound to_vec Sha256_digest profile effective inputs plan root folder ctx.
Proof.
  unfold plan_runtime. intros H.
  destruct (plan_folder _ _ _ _) as [[[local folder] ctx]|] eqn:Hf; [|done].
  destruct (plan_workspace _ _ _ _ _ _ _) as [ws|] eqn:Hw; [|done].
  destruct (try_fold _ _ (enumerate 0 _)) as [[ms targets]|] eqn:Hm; [|done].
  destruct (plan_users _ _ _ _ _) as [[container remote]|] eqn:Hu; [|done].
  destruct (plan_environment _ _ _ _) as [env|] eqn:He; [|done].
  destruct (validate_runtime_strings _ ($"$.capAdd")) as [[]|] eqn:Hc; [|done].
  destruct (validate_runtime_strings _ ($"$.securityOpt")) as [[]|] eqn:Hs; [|done].
  injection H as <-.
  apply plan_folder_Ok in Hf as (root & names & df & value & Hl & Hr & Hroot & Hf & Hval & Hsay & ->).
  destruct (plan_workspace_Ok _ _ _ _ _ _ _ _ _ _ Hw Hf Hl Hr) as (Ht & Hsrc & Hclear).
  apply plan_users_Ok in Hu as (Hu & Hru & Hrs). apply plan_environment_Ok in He as [Hec Her].
  apply validate_runtime_strings_Ok in Hc, Hs.
  exists root, names. eexists. split; cbn; try done; [by eauto|..].
  - by eapply additional_mounts_Ok.
  - intros user host Hi. apply uid_update_named in Hi as (Hus & Hho & Hen & Hro & Hnu). split_and!; try done.
    by intros Hd; rewrite Hd in Hen.
  - by apply Forall_app.
Qed.

(** ** Examples *)

Definition planning_inputs : RuntimePlanningInputs :=
  mkPlanningInputs ($"/home/me/project") {[ $"HOME" := $"/home/me" ]} ∅ (mkScenarioMetadata None)
    [mkContainerPath ($"/opt/cdenv")] (Some (mkHostUser 1000 1000)).

Definition planning_metadata (ms : list RawMount) (user : option str) : EffectiveMetadata :=
  mkEffective None None [$"SYS_PTRACE"] [] [] ms (mkEffectiveLifecycle [] [] [] [] [] []) None user None None None
    None None {[ $"HOME_DIR" := $"${localEnv:HOME}" ]} {[ $"PATH" := Some ($"${containerEnv:PATH}:/x") ]} ∅ None [] None [].

Definition sample_mounts : list RawMount :=
  [RawMount_String ($"type=volume, src=cache, target=/cache//a/., readonly");
   RawMount_Object Mount_Bind (Some ($"${localEnv:HOME}/.ssh")) ($"/ssh")].

Definition sample_plan : result PlanningError RuntimePlan :=
  plan_runtime (fun _ => None) id (port_profile []) (planning_metadata sample_mounts (Some ($"dev"))) planning_inputs.

Lemma plan_runtime_sound_witness :
  exists plan root folder ctx, sample_plan = Ok plan /\
    runtime_sound (fun _ => None) id (port_profile []) (planning_metadata sample_mounts (Some ($"dev")))
      planning_inputs plan root folder ctx /\
    List.map pm_target (rp_mounts plan) = [mkContainerPath ($"/cache/a"); mkContainerPath ($"/ssh")].
Proof.
  assert (H : exists plan, sample_plan = Ok plan /\
    List.map pm_target (rp_mounts plan) = [mkContainerPath ($"/cache/a"); mkContainerPath ($"/ssh")]).
  { eexists. split; vm_compute; reflexivity. }
  destruct H as (plan & H & Ht).
  destruct (plan_runtime_sound _ _ _ _ _ _ H) as (root & folder & ctx & Hs).
  exists plan, root, folder, ctx. exact (conj H (conj Hs Ht)).
Defined.

Definition planning_error {T} (r : result PlanningError T) : option (str * PlanningErrorKind) :=
  match r with Ok _ => None | Err e => Some (planning_property_path e, planning_kind e) end.

(** Each kind of conflict is reported on its property. *)
Lemma plan_runtime_rejects :
  List.map (fun ms => planning_error (plan_runtime (fun _ => None) id (port_profile [])
     (planning_metadata ms None) planning_inputs))
    [ [RawMount_String ($"type=volume,target=/workspaces/project/")];
      [RawMount_String ($"type=volume,target=/opt")];
      [RawMount_String ($"type=volume,target=/a"); RawMount_String ($"type=volume,dst=/a/.")];
      [RawMount_String ($"type=bind,target=/a")];
      [RawMount_String ($"type=bind,src=../x,target=/a")];
      [RawMount_String ($"type=volume,target=/a,src=b,source=c")] ] =
    [ Some ($"$.mounts[0]", Planning_MountConflict);
      Some ($"$.mounts[0]", Planning_OwnedTargetConflict);
      Some ($"$.mounts[1]", Planning_MountConflict);
      Some ($"$.mounts[0]", Planning_InvalidMount);
      Some ($"$.mounts[0]", Planning_InvalidPath);
      Some ($"$.mounts[0]", Planning_InvalidMount) ].
Proof. vm_compute. reflexivity. Qed.
