(* ===== verification/DockerOptions.v ===== *)
(** * DockerOptions: build settings and pass-through Docker arguments
    ([cdenv-devcontainer/src/docker_options.rs])

    The repository may add arguments to [docker build] and [docker create]; this file models the
    checks that keep them away from what cdenv decides, and the resolution of the paths of a
    build inside the checkout. *)

From S2P Require Import Prelude Text Order Substitution Profile Metadata Ports Planning.

(** ** Errors *)

(** @src cdenv-devcontainer/src/docker_options.rs:614-641 DockerOptionErrorKind *)
Inductive DockerOptionErrorKind : Type :=
| Docker_PathOutsideCheckout | Docker_Substitution | Docker_BuildInvariant | Docker_BuildContext
| Docker_IdentityLabel | Docker_ContainerName | Docker_AutoRemove | Docker_ContainerUser
| Docker_WorkspaceFolder | Docker_Entrypoint | Docker_AttachmentMode | Docker_InvalidMountArgument
| Docker_MountTarget.

(** @src cdenv-devcontainer/src/docker_options.rs:646-654 DockerOptionError *)
Record DockerOptionError : Type := mkDockerError {
  docker_property_path : str;
  docker_argument : str;
  docker_kind : DockerOptionErrorKind;
  docker_message : str;
}.

(** @src cdenv-devcontainer/src/docker_options.rs:671-677 DockerOptionError::without_argument *)
Definition without_argument (property_path : str) (kind : DockerOptionErrorKind) (message : str) :
    DockerOptionError := mkDockerError property_path [] kind message.

(** ** Paths of the repository *)

(** @src cdenv-devcontainer/src/docker_options.rs:14-14 RepositoryPath *)
Record RepositoryPath : Type := mkRepositoryPath { repo_as_str : str }.

(** The loop body; the last component is the head of the list.
    @src cdenv-devcontainer/src/docker_options.rs:596-604 resolve_repository_path *)
Definition repository_step (stack : list str) (component : str) : result unit (list str) :=
  if str_eqb component [] || str_eqb component ($".") then Ok stack
  else if str_eqb component ($"..") then match stack with [] => Err tt | _ :: rest => Ok rest end
  else Ok (component :: stack).

(** @src cdenv-devcontainer/src/docker_options.rs:591-610 resolve_repository_path *)
Definition resolve_repository_path (base value : str) : result unit RepositoryPath :=
  fail_if starts_with ($"/") value || contains_char 92 value || existsb is_control value with tt in
  let? stack := try_fold repository_step [] (split 47 base ++ split 47 value) in
  Ok (mkRepositoryPath (if bool_decide (stack = []) then $"." else join ($"/") (rev stack))).

(** @src cdenv-devcontainer/src/docker_options.rs:22-24 RepositoryPath::parse *)
Definition RepositoryPath_parse (value : str) : result unit RepositoryPath := resolve_repository_path [] value.

(** ** Recognising options *)

(** @src cdenv-devcontainer/src/docker_options.rs:478-485 reserved_long *)
Definition reserved_long (argument : str) (names : list str) : bool :=
  existsb (fun name => str_eqb argument name
    || match strip_prefix name argument with Some suffix => starts_with ($"=") suffix | None => false end) names.

(** [argument.strip_prefix('-').filter(|value| !value.starts_with('-'))] *)
Definition short_flags (argument : str) : option str :=
  match strip_prefix ($"-") argument with
  | Some value => if starts_with ($"-") value then None else Some value
  | None => None
  end.

(** @src cdenv-devcontainer/src/docker_options.rs:487-493 reserved_short *)
Definition reserved_short (argument : str) (names : list char) : bool :=
  match short_flags argument with
  | Some (name :: _) => existsb (N.eqb name) names
  | _ => false
  end.

(** @src cdenv-devcontainer/src/docker_options.rs:495-515 reserved_create_setting *)
Definition reserved_create_setting (argument : str) : option DockerOptionErrorKind :=
  if str_eqb argument ($"--rm") || starts_with ($"--rm=") argument then Some Docker_AutoRemove
  else if str_eqb argument ($"--name") || starts_with ($"--name=") argument then Some Docker_ContainerName
  else if str_eqb argument ($"--entrypoint") || starts_with ($"--entrypoint=") argument then
    Some Docker_Entrypoint
  else if str_eqb argument ($"--workdir") || starts_with ($"--workdir=") argument
          || reserved_short argument ($"w") then Some Docker_WorkspaceFolder
  else if str_eqb argument ($"--user") || starts_with ($"--user=") argument
          || reserved_short argument ($"u") then Some Docker_ContainerUser
  else None.

(** @src cdenv-devcontainer/src/docker_options.rs:517-529 reserved_attach_short *)
Definition reserved_attach_short (argument : str) : bool :=
  match short_flags argument with
  | None => false
  | Some flags =>
      let flags := default [] (head (split 61 flags)) in
      negb (bool_decide (flags = [])) && forallb (fun flag => existsb (N.eqb flag) ($"adit")) flags
  end.

(** @src cdenv-devcontainer/src/docker_options.rs:531-547 option_value *)
Definition option_value (arguments : list str) (index : nat) (long : str) (short : option char) : option str :=
  match arguments !! index with
  | None => None
  | Some argument =>
      if str_eqb argument long
         || match short with Some short => str_eqb argument [45; short] | None => false end
      then arguments !! S index
      else match strip_prefix (long ++ $"=") argument with
      | Some value => Some value
      | None =>
          match short with
          | None => None
          | Some short =>
              match strip_prefix [45; short] argument with
              | Some value => if bool_decide (value = []) then None else Some value
              | None => None
              end
          end
      end
  end.

(** @src cdenv-devcontainer/src/docker_options.rs:549-554 cdenv_label *)
Definition cdenv_label (value : str) : bool :=
  starts_with ($"cdenv.") match split_once ($"=") value with Some (name, _) => name | None => value end.

(** [option_value(..).is_some_and(p)] *)
Definition is_some_and {A} (p : A -> bool) (o : option A) : bool :=
  match o with Some a => p a | None => false end.

(** The loop body: the target so far, or the early return.
    @src cdenv-devcontainer/src/docker_options.rs:558-568 mount_target *)
Definition target_step (target : option str) (field : str) : result unit (option str) :=
  match split_once ($"=") field with
  | None => Ok target
  | Some (name, value) =>
      if bool_decide (trim name ∈ target_keys) then
        match target with Some _ => Err tt | None => Ok (Some (trim value)) end
      else Ok target
  end.

(** @src cdenv-devcontainer/src/docker_options.rs:556-570 mount_target *)
Definition argument_mount_target (value : str) : option str :=
  match try_fold target_step None (split 44 value) with
  | Ok (Some target) => if bool_decide (target = []) then None else Some target
  | _ => None
  end.

(** @src cdenv-devcontainer/src/docker_options.rs:572-579 volume_target *)
Definition volume_target (value : str) : option str :=
  match rev (split 58 value) with
  | [] => None
  | last :: fields =>
      if starts_with ($"/") last then Some last
      else match fields with
      | target :: _ => if starts_with ($"/") target then Some target else None
      | [] => None
      end
  end.

(** ** Build options *)

(** @src cdenv-devcontainer/src/docker_options.rs:306-336 build_option_takes_value *)
Definition build_option_takes_value (argument : str) : bool :=
  bool_decide (argument ∈
    [$"--add-host"; $"--allow"; $"--annotation"; $"--attest"; $"--build-arg"; $"--build-context";
     $"--cache-from"; $"--cache-to"; $"--call"; $"--cgroup-parent"; $"--cpu-period"; $"--cpu-quota";
     $"--cpu-shares"; $"--cpuset-cpus"; $"--cpuset-mems"; $"--memory"; $"--network";
     $"--no-cache-filter"; $"--platform"; $"--progress"; $"--provenance"; $"--sbom"; $"--secret";
     $"--shm-size"; $"--ssh"; $"--ulimit"]).

Definition reserved_build_names : list str :=
  [$"--file"; $"--tag"; $"--target"; $"--output"; $"--iidfile"; $"--metadata-file"; $"--push"].

(** The checks of one argument. @src cdenv-devcontainer/src/docker_options.rs:259-298 validate_build_options *)
Definition check_build_option (arguments : list str) (index : nat) (argument : str) :
    result DockerOptionError unit :=
  let property := $"$.build.options[" ++ to_string (N.of_nat index) ++ $"]" in
  fail_if reserved_long argument reserved_build_names || reserved_short argument ($"fto")
    with mkDockerError property argument Docker_BuildInvariant
      ($"option conflicts with cdenv-owned Dockerfile, target, tag, or build output") in
  fail_if reserved_long argument [$"--label-file"]
          || is_some_and cdenv_label (option_value arguments index ($"--label") None)
    with mkDockerError property argument Docker_IdentityLabel
      ($"option conflicts with a cdenv identity label") in
  fail_if negb (starts_with ($"-") argument) || str_eqb argument ($"-") || str_eqb argument ($"--")
    with mkDockerError property argument Docker_BuildContext ($"positional build context is cdenv-owned") in
  Ok tt.

(** @src cdenv-devcontainer/src/docker_options.rs:299-300 validate_build_options *)
Definition consumes_next (argument : str) : bool :=
  negb (contains_char 61 argument) && (str_eqb argument ($"--label") || build_option_takes_value argument).

(** The loop; the fuel bounds the arguments left.
    @src cdenv-devcontainer/src/docker_options.rs:258-302 validate_build_options *)
Fixpoint build_options_loop (fuel : nat) (arguments : list str) (index : nat) :
    result DockerOptionError unit :=
  match arguments !! index, fuel with
  | None, _ | _, O => Ok tt
  | Some argument, S fuel' =>
      let? _ := check_build_option arguments index argument in
      build_options_loop fuel' arguments (index + if consumes_next argument then 2 else 1)
  end.

(** @src cdenv-devcontainer/src/docker_options.rs:256-304 validate_build_options *)
Definition validate_build_options (arguments : list str) : result DockerOptionError unit :=
  build_options_loop (length arguments) arguments 0.

(** ** Run arguments *)

(** @src cdenv-devcontainer/src/docker_options.rs:581-583 paths_overlap *)
Definition paths_overlap (left right : str) : bool := path_contains left right || path_contains right left.

(** Every target the plan or cdenv decides. *)
Definition owned_by_plan (runtime : RuntimePlan) (owned : list ContainerPath) : list ContainerPath :=
  pm_target (ws_mount (rp_workspace runtime)) :: List.map pm_target (rp_mounts runtime) ++ owned.

(** @src cdenv-devcontainer/src/docker_options.rs:447-476 reject_mount_target *)
Definition reject_mount_target (target property argument : str) (runtime : RuntimePlan)
    (owned : list ContainerPath) : result DockerOptionError unit :=
  let? target := map_err (fun _ => mkDockerError property argument Docker_InvalidMountArgument
    ($"run argument mount target must be an absolute container path")) (ContainerPath_parse target) in
  if existsb (fun owned => paths_overlap (cp_as_str target) (cp_as_str owned)) (owned_by_plan runtime owned)
  then Err (mkDockerError property argument Docker_MountTarget
    ($"run argument mount overlaps a workspace or cdenv-owned target"))
  else Ok tt.

(** The loop body. @src cdenv-devcontainer/src/docker_options.rs:358-443 validate_run_arguments *)
Definition check_run_argument (raw_arguments arguments : list str) (runtime : RuntimePlan)
    (owned : list ContainerPath) (index : nat) (argument : str) : result DockerOptionError unit :=
  let property := $"$.runArgs[" ++ to_string (N.of_nat index) ++ $"]" in
  let diagnostic := default [] (raw_arguments !! index) in
  let? _ := match reserved_create_setting argument with
    | Some kind => Err (mkDockerError property diagnostic kind
        ($"option conflicts with a cdenv-owned create setting"))
    | None => Ok tt
    end in
  fail_if str_eqb argument ($"--")
          || reserved_long argument [$"--attach"; $"--detach"; $"--interactive"; $"--tty"; $"--sig-proxy"]
          || reserved_attach_short argument
    with mkDockerError property diagnostic Docker_AttachmentMode
      ($"option conflicts with cdenv-owned attach, stdin, or TTY mode") in
  fail_if reserved_long argument [$"--label-file"]
          || is_some_and cdenv_label (option_value arguments index ($"--label") (Some 108))
    with mkDockerError property diagnostic Docker_IdentityLabel
      ($"option conflicts with a cdenv identity label") in
  let? _ := match option_value arguments index ($"--mount") None with
    | Some mount =>
        let? target := ok_or (mkDockerError property diagnostic Docker_InvalidMountArgument
          ($"--mount must contain one target, dst, or destination field")) (argument_mount_target mount) in
        reject_mount_target target property diagnostic runtime owned
    | None => Ok tt
    end in
  let? _ := match option_value arguments index ($"--volume") (Some 118) with
    | Some volume =>
        let? target := ok_or (mkDockerError property diagnostic Docker_InvalidMountArgument
          ($"--volume must contain an absolute container target")) (volume_target volume) in
        reject_mount_target target property diagnostic runtime owned
    | None => Ok tt
    end in
  match option_value arguments index ($"--tmpfs") None with
  | Some tmpfs =>
      reject_mount_target (default [] (head (split 58 tmpfs))) property diagnostic runtime owned
  | None => Ok tt
  end.

(** [raw_arguments[index]] is in bounds when there are as many raw arguments.
    @src cdenv-devcontainer/src/docker_options.rs:352-445 validate_run_arguments *)
Definition validate_run_arguments (raw_arguments arguments : list str) (runtime : RuntimePlan)
    (owned : list ContainerPath) : result DockerOptionError unit :=
  try_fold (fun _ '(index, argument) =>
    check_run_argument raw_arguments arguments runtime owned (N.to_nat index) argument)
    tt (enumerate 0 arguments).

(** @src cdenv-devcontainer/src/docker_options.rs:344-350 validate_create_options_at_boundary *)
Definition validate_create_options_at_boundary (arguments : list str) (runtime : RuntimePlan)
    (owned : list ContainerPath) : result DockerOptionError unit :=
  validate_run_arguments arguments arguments runtime owned.

(** @src cdenv-devcontainer/src/docker_options.rs:252-254 validate_build_options_at_boundary *)
Definition validate_build_options_at_boundary (arguments : list str) : result DockerOptionError unit :=
  validate_build_options arguments.

(** ** The plan *)

(** @src cdenv-devcontainer/src/docker_options.rs:39-46 DockerOptionPlanningInputs *)
Record DockerOptionPlanningInputs : Type := mkDockerInputs {
  config_directory : str;
  substitutions : HostSubstitutionInputs;
  docker_owned_targets : list ContainerPath;
}.

(** @src cdenv-devcontainer/src/docker_options.rs:72-85 DockerfileBuildPlan *)
Record DockerfileBuildPlan : Type := mkDockerfilePlan {
  plan_dockerfile : RepositoryPath;
  plan_context : RepositoryPath;
  plan_target : option str;
  plan_arguments : strmap (list N);
  plan_cache_from : list str;
  plan_options : list str;
}.

(** @src cdenv-devcontainer/src/docker_options.rs:49-59 BuildPlan *)
Inductive BuildPlan : Type :=
| Build_Image (image : str)
| Build_Dockerfile (plan : DockerfileBuildPlan)
| Build_Compose.

(** @src cdenv-devcontainer/src/docker_options.rs:119-124 DockerOptionsPlan *)
Record DockerOptionsPlan : Type := mkDockerPlan {
  docker_build : BuildPlan;
  create_run_arguments : list str;
}.

Section plan.
Context (to_vec : gmap (list N) (list N) -> option (list N)) (Sha256_digest : list N -> list N).
Context (json_string : str -> str).

(** @src cdenv-devcontainer/src/docker_options.rs:221-241 substitute_run_arguments *)
Definition substitute_run_arguments (arguments : list str) (s : HostSubstitutionInputs) :
    result DockerOptionError (list str) :=
  try_map (fun '(index, argument) =>
    map_err (fun _ => mkDockerError ($"$.runArgs[" ++ to_string index ++ $"]") argument Docker_Substitution
        ($"unsupported or malformed run argument substitution"))
      (result_map (fun d => resolve d ∅)
        (substitute_host to_vec Sha256_digest Prop_RunArgument argument s)))
    (enumerate 0 arguments).

(** @src cdenv-devcontainer/src/docker_options.rs:178-194 plan_docker_options *)
Definition build_argument_step (s : HostSubstitutionInputs) (arguments : strmap (list N))
    (entry : str * list N) : result DockerOptionError (strmap (list N)) :=
  let '(name, value) := entry in
  let? resolved := map_err (fun _ => without_argument ($"$.build.args[" ++ json_string name ++ $"]")
      Docker_Substitution ($"unsupported or malformed build argument substitution"))
    (result_map (fun d => resolve d ∅)
      (substitute_host to_vec Sha256_digest Prop_BuildArgument value s)) in
  Ok (<[name := resolved]> arguments).

(** @src cdenv-devcontainer/src/docker_options.rs:151-206 plan_docker_options *)
Definition plan_dockerfile_build (directory : RepositoryPath) (build : RawBuild)
    (s : HostSubstitutionInputs) : result DockerOptionError DockerfileBuildPlan :=
  let? _ := validate_build_options (build_options build) in
  let? dockerfile := map_err (fun _ => without_argument ($"$.build.dockerfile") Docker_PathOutsideCheckout
      ($"Dockerfile must remain in the repository checkout"))
    (resolve_repository_path (repo_as_str directory) (dockerfile build)) in
  let? context := map_err (fun _ => without_argument ($"$.build.context") Docker_PathOutsideCheckout
      ($"build context must remain in the repository checkout"))
    match build_context build with
    | None => Ok directory
    | Some context => resolve_repository_path (repo_as_str directory) context
    end in
  let? arguments := try_fold (build_argument_step s) ∅ (sorted_entries (build_args build)) in
  Ok (mkDockerfilePlan dockerfile context (build_target build) arguments (cache_from build)
        (build_options build)).

(** @src cdenv-devcontainer/src/docker_options.rs:132-219 plan_docker_options *)
Definition plan_docker_options (profile : RawProfile) (runtime : RuntimePlan)
    (inputs : DockerOptionPlanningInputs) : result DockerOptionError DockerOptionsPlan :=
  let? directory := map_err (fun _ => without_argument ($"$.build") Docker_PathOutsideCheckout
      ($"selected configuration directory must remain in the checkout"))
    (RepositoryPath_parse (config_directory inputs)) in
  let? (build, raw_run_arguments) :=
    match scenario profile with
    | Scenario_Image value => Ok (Build_Image (scenario_image value), run_args (image_options value))
    | Scenario_Dockerfile value =>
        let? plan := plan_dockerfile_build directory (scenario_build value) (substitutions inputs) in
        Ok (Build_Dockerfile plan, run_args (dockerfile_options value))
    | Scenario_Compose _ => Ok (Build_Compose, [])
    end in
  let? run_arguments := substitute_run_arguments raw_run_arguments (substitutions inputs) in
  let? _ := validate_run_arguments raw_run_arguments run_arguments runtime (docker_owned_targets inputs) in
  Ok (mkDockerPlan build run_arguments).

End plan.

(** ** Resolution inside the checkout *)

(** One step of lexical resolution: a name and the [..] after it cancel. *)
Inductive cancel : list str -> list str -> Prop :=
| cancel_pair a name b : name <> $".." -> cancel (a ++ name :: $".." :: b) (a ++ b).

Definition ups (l : list str) : nat := length (filter (fun n => n = $"..") l).
Definition downs (l : list str) : nat := length (filter (fun n => n <> $"..") l).

(** Walking down from the checkout, some prefix of the names climbs above it. *)
Definition escapes (names : list str) : Prop :=
  exists pre, pre `prefix_of` names /\ (downs pre < ups pre)%nat.

Lemma ups_cons n l : ups (n :: l) = if bool_decide (n = $"..") then S (ups l) else ups l.
Proof. unfold ups. rewrite filter_cons. by case_bool_decide; case_decide. Qed.
Lemma downs_cons n l : downs (n :: l) = if bool_decide (n = $"..") then downs l else S (downs l).
Proof. unfold downs. rewrite filter_cons. by case_bool_decide; case_decide. Qed.

Definition named (l : list str) : list str := filter (fun name => name <> [] /\ name <> $".") l.

Lemma named_cons w ws :
  named (w :: ws) = if bool_decide (w = [] \/ w = $".") then named ws else w :: named ws.
Proof.
  unfold named. rewrite filter_cons. case_bool_decide; case_decide; naive_solver.
Qed.

Lemma prefixes_cons {A} (P : list A -> Prop) (x : A) l :
  P [] -> (forall pre, pre `prefix_of` l -> P (x :: pre)) -> forall pre, pre `prefix_of` x :: l -> P pre.
Proof.
  intros H0 Hx [|y pre] Hp; [done|]. assert (y = x) as -> by (by apply prefix_cons_inv_1 in Hp).
  apply Hx. by eapply prefix_cons_inv_2.
Qed.

Lemma repository_step_up top stack : repository_step (top :: stack) ($"..") = Ok stack.
Proof. done. Qed.

Lemma repository_step_name stack w :
  w <> [] -> w <> $"." -> w <> $".." -> repository_step stack w = Ok (w :: stack).
Proof. intros. unfold repository_step, str_eqb. by rewrite !bool_decide_eq_false_2. Qed.

Lemma repository_fold ws stack :
  Forall (fun n => n <> $"..") stack ->
  match try_fold repository_step stack ws with
  | Ok stack' =>
      rtc cancel (rev stack ++ named ws) (rev stack') /\ Forall (fun n => n <> $"..") stack' /\
      (forall pre, pre `prefix_of` named ws -> (ups pre <= length stack + downs pre)%nat)
  | Err _ => exists pre, pre `prefix_of` named ws /\ (length stack + downs pre < ups pre)%nat
  end.
Proof.
  revert stack. induction ws as [|w ws IH]; intros stack Hst.
  { cbn [try_fold]. change (named []) with (@nil str). rewrite app_nil_r. split; [done|]. split; [done|].
    intros pre Hp. apply prefix_nil_inv in Hp as ->. change (0 <= length stack + 0)%nat. lia. }
  cbn [try_fold]. rewrite named_cons.
  destruct (decide (w = [])) as [->|H0]; [rewrite bool_decide_eq_true_2 by auto; by apply IH|].
  destruct (decide (w = $".")) as [->|H1]; [rewrite bool_decide_eq_true_2 by auto; by apply IH|].
  rewrite bool_decide_eq_false_2 by naive_solver. destruct (decide (w = $"..")) as [->|H2].
  - destruct stack as [|top stack].
    { exists [$".."]. split; [by exists (named ws)|]. rewrite ups_cons, downs_cons.
      rewrite !bool_decide_eq_true_2 by done. change (0 + 0 < 1)%nat. lia. }
    rewrite repository_step_up. apply Forall_cons in Hst as [Htop Hst]. specialize (IH stack Hst).
    destruct (try_fold _ stack ws) as [stack'|].
    + destruct IH as (Hc & Hf & Hp). split; [|split; [done|]].
      * eapply rtc_l; [|exact Hc]. cbn [rev]. rewrite <- app_assoc. by constructor.
      * apply prefixes_cons; [change (0 <= S (length stack) + 0)%nat; lia|]. intros pre Hpre.
        specialize (Hp pre Hpre). rewrite ups_cons, downs_cons, bool_decide_eq_true_2 by done. cbn [length]. lia.
    + destruct IH as (pre & Hpre & Hlt). exists ($".." :: pre). split; [by apply prefix_cons|].
      rewrite ups_cons, downs_cons, bool_decide_eq_true_2 by done. cbn [length]. lia.
  - rewrite repository_step_name by done. specialize (IH (w :: stack) ltac:(by constructor)).
    destruct (try_fold _ (w :: stack) ws) as [stack'|].
    + destruct IH as (Hc & Hf & Hp). split; [|split; [done|]].
      * cbn [rev] in Hc. by rewrite <- app_assoc in Hc.
      * apply prefixes_cons; [change (0 <= length stack + 0)%nat; lia|]. intros pre Hpre.
        specialize (Hp pre Hpre). rewrite ups_cons, downs_cons, bool_decide_eq_false_2 by done.
        cbn [length] in Hp. lia.
    + destruct IH as (pre & Hpre & Hlt). exists (w :: pre). split; [by apply prefix_cons|].
      rewrite ups_cons, downs_cons, bool_decide_eq_false_2 by done. cbn [length] in Hlt. lia.
Qed.

(** What the text of a path may not contain. *)
Definition relative_text (value : str) : Prop :=
  starts_with ($"/") value = false /\ (92 ∉ value) /\ existsb is_control value = false.

(** paths of a build stay in the checkout.  [resolve_repository_path] refuses exactly the
    texts that are absolute, contain a backslash or a control character, or climb above the
    checkout at some point of the walk from [base] along the names of [value].  Otherwise the
    result is the lexical normal form of the walk, obtained by cancelling a name with the [..]
    that follows it until no [..] is left, written with [/] between the names, or [.] when
    nothing is left. *)
Theorem repository_path_contained base value :
  match resolve_repository_path base value with
  | Ok p => relative_text value /\ ~ escapes (named (split 47 base ++ split 47 value)) /\
      exists names, rtc cancel (named (split 47 base ++ split 47 value)) names /\
        Forall (fun n => n <> $"..") names /\
        repo_as_str p = match names with [] => $"." | _ => join ($"/") names end
  | Err _ => ~ relative_text value \/ escapes (named (split 47 base ++ split 47 value))
  end.
Proof.
  unfold resolve_repository_path, relative_text.
  destruct (starts_with _ _); [left; naive_solver|].
  destruct (contains_char 92 value) eqn:Hb; [apply contains_char_true in Hb; left; naive_solver|].
  apply contains_char_false in Hb. destruct (existsb _ _); [left; naive_solver|]. cbn [orb].
  assert (H := repository_fold (split 47 base ++ split 47 value) [] (Forall_nil_2 _)).
  destruct (try_fold _ _ _) as [stack|]; [|by right]. destruct H as (Hc & Hf & Hp).
  split; [done|]. split; [intros (pre & Hpre & Hlt); specialize (Hp pre Hpre); cbn [length] in Hp; lia|].
  exists (rev stack). split; [done|]. split; [by apply Forall_rev|]. cbn [repo_as_str].
  destruct stack as [|s stack]; [done|]. rewrite bool_decide_eq_false_2 by done.
  cbn [rev]. by destruct (rev stack).
Qed.

(** ** Build options *)

(** An argument that stands for itself: an option, and none of those cdenv decides. *)
Definition free_build_option (argument : str) : Prop :=
  reserved_long argument reserved_build_names = false /\ reserved_short argument ($"fto") = false /\
  reserved_long argument [$"--label-file"] = false /\
  starts_with ($"-") argument = true /\ argument <> $"-" /\ argument <> $"--" /\
  (forall value, argument = $"--label=" ++ value -> cdenv_label value = false).

(** The sequences of options that are accepted: options, each followed by its value when it takes
    one. *)
Inductive build_grammar : list str -> Prop :=
| grammar_nil : build_grammar []
| grammar_flag argument rest :
    free_build_option argument -> consumes_next argument = false -> build_grammar rest ->
    build_grammar (argument :: rest)
| grammar_value argument value rest :
    free_build_option argument -> consumes_next argument = true ->
    (argument = $"--label" -> cdenv_label value = false) -> build_grammar rest ->
    build_grammar (argument :: value :: rest)
| grammar_last argument :
    free_build_option argument -> consumes_next argument = true -> build_grammar [argument].

Lemma label_value arguments index argument :
  arguments !! index = Some argument ->
  is_some_and cdenv_label (option_value arguments index ($"--label") None) = false <->
  (forall value, argument = $"--label=" ++ value -> cdenv_label value = false) /\
  (argument = $"--label" -> forall value, arguments !! S index = Some value -> cdenv_label value = false).
Proof.
  intros Ha. unfold option_value. rewrite Ha, orb_false_r.
  destruct (str_eqb argument ($"--label")) eqn:E.
  - apply str_eqb_true in E as ->. split.
    + intros H. split; [intros v Hv; vm_compute in Hv; discriminate Hv|]. intros _ v Hv. by rewrite Hv in H.
    + intros [_ H]. destruct (arguments !! S index) as [v|]; [|done]. by apply (H eq_refl v).
  - apply bool_decide_eq_false in E. change ($"--label" ++ $"=") with ($"--label=").
    destruct (strip_prefix ($"--label=") argument) as [v|] eqn:Hs.
    + apply strip_prefix_Some in Hs. split; [|intros [H _]; by apply H].
      intros H. split; [|done]. intros v' Hv'. rewrite Hs in Hv'. by apply app_inv_head in Hv' as ->.
    + split; [|done]. intros _. split; [|done]. intros v ->. by rewrite strip_prefix_app in Hs.
Qed.

Lemma check_build_option_Ok arguments index argument :
  arguments !! index = Some argument ->
  check_build_option arguments index argument = Ok tt <->
  free_build_option argument /\
  (argument = $"--label" -> forall value, arguments !! S index = Some value -> cdenv_label value = false).
Proof.
  intros Ha. unfold check_build_option, free_build_option. assert (Hl := label_value _ _ _ Ha).
  destruct (reserved_long argument reserved_build_names); [naive_solver|].
  destruct (reserved_short argument _); [naive_solver|]. cbn [orb].
  destruct (reserved_long argument [_]); [naive_solver|]. cbn [orb].
  destruct (is_some_and _ _).
  { split; [done|]. intros [Hf Hn]. assert (true = false) by (apply Hl; naive_solver). done. }
  destruct (proj1 Hl eq_refl). destruct (starts_with _ _); [|naive_solver]. cbn [negb orb].
  destruct (str_eqb argument ($"-")) eqn:E1; [apply str_eqb_true in E1; naive_solver|].
  destruct (str_eqb argument ($"--")) eqn:E2; [apply str_eqb_true in E2; naive_solver|].
  apply bool_decide_eq_false in E1, E2. naive_solver.
Qed.

Lemma build_options_loop_grammar fuel pre rest :
  (length rest <= fuel)%nat ->
  build_options_loop fuel (pre ++ rest) (length pre) = Ok tt <-> build_grammar rest.
Proof.
  revert pre rest. induction fuel as [|fuel IH]; intros pre rest Hl.
  { destruct rest; [|cbn in Hl; lia]. cbn. rewrite app_nil_r, lookup_ge_None_2 by lia. by split; [constructor|]. }
  destruct rest as [|a rest].
  { cbn. rewrite app_nil_r, lookup_ge_None_2 by lia. by split; [constructor|]. }
  assert (Ha : (pre ++ a :: rest) !! length pre = Some a) by by rewrite lookup_app_r, Nat.sub_diag by lia.
  assert (Hn : (pre ++ a :: rest) !! S (length pre) = head rest).
  { rewrite lookup_app_r by lia. rewrite Nat.sub_succ_l, Nat.sub_diag by lia. by destruct rest. }
  assert (Hc := check_build_option_Ok _ _ _ Ha). rewrite Hn in Hc. cbn [build_options_loop]. rewrite Ha.
  destruct (check_build_option _ _ a) as [[]|e].
  2: { split; [done|]. intros Hg. exfalso. assert (Err e = Ok tt); [|done]. apply Hc.
       inversion Hg; subst; split; try done; intros ?; cbn; naive_solver. }
  destruct (proj1 Hc eq_refl) as [Hf Hlab]. cbn in Hl. destruct (consumes_next a) eqn:Hcn.
  - destruct rest as [|v rest].
    + replace (build_options_loop _ _ _) with (@Ok DockerOptionError unit tt).
      * split; [by constructor|done].
      * destruct fuel; cbn; rewrite lookup_ge_None_2; try done; rewrite length_app; cbn; lia.
    + replace (pre ++ a :: v :: rest) with ((pre ++ [a; v]) ++ rest) by by rewrite <- app_assoc.
      replace (length pre + 2)%nat with (length (pre ++ [a; v])) by (rewrite length_app; cbn; lia).
      rewrite IH by (cbn in Hl; lia). split.
      * intros Hg. constructor; [done|done| |done]. intros ->. by apply Hlab.
      * intros Hg. inversion Hg; subst; [congruence|done].
  - replace (pre ++ a :: rest) with ((pre ++ [a]) ++ rest) by by rewrite <- app_assoc.
    replace (length pre + 1)%nat with (length (pre ++ [a])) by (rewrite length_app; cbn; lia).
    rewrite IH by lia. split; [by constructor|].
    intros Hg. inversion Hg; subst; [done|congruence|congruence].
Qed.

(** build options are accepted exactly when they are a sequence of options outside cdenv's
    own.  The scan of [validate_build_options] ends, and accepts an argument list exactly when it
    parses as options, each with its value when it takes one from the next argument, where no
    option is reserved (Dockerfile, tag, target, outputs, label files), none sets a label of
    cdenv, and there is no positional context. *)
Theorem build_options_accepted arguments :
  validate_build_options arguments = Ok tt <-> build_grammar arguments.
Proof. exact (build_options_loop_grammar (length arguments) [] arguments (le_n _)). Qed.

(** ** Run arguments *)

(** The option at [index] has [value], in one of the four forms of an option with a value. *)
Inductive option_with (arguments : list str) (index : nat) (long : str) (short : option char) (value : str) :
    Prop :=
| with_next : arguments !! index = Some long -> arguments !! S index = Some value ->
    option_with arguments index long short value
| with_equals : arguments !! index = Some (long ++ 61 :: value) ->
    option_with arguments index long short value
| with_short_next c : short = Some c -> arguments !! index = Some [45; c] ->
    arguments !! S index = Some value -> option_with arguments index long short value
| with_short_joined c : short = Some c -> value <> [] -> arguments !! index = Some (45 :: c :: value) ->
    option_with arguments index long short value.

Lemma option_value_with arguments index name short value :
  (61 ∉ name) -> name <> [] -> short <> Some 45 ->
  option_with arguments index (45 :: 45 :: name) short value ->
  option_value arguments index (45 :: 45 :: name) short = Some value.
Proof.
  intros Hn Hne Hs H. unfold option_value. destruct H as [Ha Hv|Ha|c -> Ha Hv|c -> Hv Ha]; rewrite Ha.
  - by rewrite str_eqb_refl.
  - assert (str_eqb ((45 :: 45 :: name) ++ 61 :: value) (45 :: 45 :: name) = false) as ->.
    { apply bool_decide_eq_false. intros E%(f_equal length). rewrite length_app in E. cbn in E. lia. }
    assert (match short with Some c => str_eqb ((45 :: 45 :: name) ++ 61 :: value) [45; c] | None => false end = false)
      as ->. { destruct short as [c|]; [|done]. apply bool_decide_eq_false. by destruct name. }
    cbn [orb]. replace ((45 :: 45 :: name) ++ 61 :: value) with (((45 :: 45 :: name) ++ $"=") ++ value)
      by by rewrite <- app_assoc. by rewrite strip_prefix_app.
  - rewrite str_eqb_refl, orb_true_r. done.
  - assert (str_eqb (45 :: c :: value) (45 :: 45 :: name) = false) as ->
      by (apply bool_decide_eq_false; congruence).
    assert (str_eqb (45 :: c :: value) [45; c] = false) as -> by (apply bool_decide_eq_false; congruence).
    cbn [orb]. destruct (strip_prefix _ _) eqn:E.
    { apply strip_prefix_Some in E. cbn in E. congruence. }
    assert (strip_prefix [45; c] (45 :: c :: value) = Some value) as -> by apply (strip_prefix_app [45; c]).
    by rewrite bool_decide_eq_false_2.
Qed.

(** The targets that the arguments at [index] mount. *)
Inductive mounts_target (arguments : list str) (index : nat) (target : str) : Prop :=
| target_mount value : option_with arguments index ($"--mount") None value ->
    argument_mount_target value = Some target -> mounts_target arguments index target
| target_volume value : option_with arguments index ($"--volume") (Some 118) value ->
    volume_target value = Some target -> mounts_target arguments index target
| target_tmpfs value : option_with arguments index ($"--tmpfs") None value ->
    target = first_piece 58 value -> mounts_target arguments index target.

(** Neither path lies in the other. *)
Definition apart (a b : list str) : Prop := ~ a `prefix_of` b /\ ~ b `prefix_of` a.

Lemma reject_mount_target_Ok target property argument runtime owned :
  Forall (fun p => exists names, container_path p names) (owned_by_plan runtime owned) ->
  reject_mount_target target property argument runtime owned = Ok tt ->
  exists p, ContainerPath_parse target = Ok p /\ container_path p (components target) /\
    Forall (fun o => apart (components target) (components (cp_as_str o))) (owned_by_plan runtime owned).
Proof.
  intros Ho H. unfold reject_mount_target in H. destruct (ContainerPath_parse target) as [p|] eqn:Hp; [|done].
  cbn [map_err] in H. destruct (existsb _ _) eqn:He in H; [done|]. exists p. split; [done|].
  assert (Hc := ContainerPath_parse_Ok _ _ Hp). split; [done|]. destruct Hc as (Hn & _ & Hr).
  apply existsb_false_iff in He. rewrite list.Forall_forall in He, Ho |- *. intros o Hin.
  destruct (Ho o Hin) as (names & Hns & _ & Hrn). specialize (He o Hin). unfold paths_overlap in He.
  rewrite Hr, Hrn in He. apply orb_false_iff in He as [H1 H2]. rewrite Hrn, components_render by done.
  split; intros Hpre; apply path_contains_render in Hpre; congruence.
Qed.

(** The long options that set what cdenv sets itself: removal, name, entry point, working
    directory, user, attachment, and labels read from a file. *)
Definition owned_options : list str :=
  [$"--rm"; $"--name"; $"--entrypoint"; $"--workdir"; $"--user";
   $"--attach"; $"--detach"; $"--interactive"; $"--tty"; $"--sig-proxy"; $"--label-file"].

(** What an accepted argument is not, and where it mounts: an owned option alone or with a value
    after [=]; [-w] or [-u], whatever is joined to it; the end of the options; one or more of the
    letters [a], [d], [i], [t] after a dash, alone or with a value after [=]; an option that sets
    a label of cdenv. *)
Record free_run_argument (arguments : list str) (runtime : RuntimePlan) (owned : list ContainerPath)
    (index : nat) (argument : str) : Prop := mkFreeRun {
  run_long : forall name, name ∈ owned_options ->
    argument <> name /\ forall value, argument <> name ++ $"=" ++ value;
  run_short : forall rest, argument <> $"-w" ++ rest /\ argument <> $"-u" ++ rest;
  run_attach : argument <> $"--" /\ forall letters, letters <> [] -> Forall (fun c => c ∈ $"adit") letters ->
    argument <> $"-" ++ letters /\ forall value, argument <> $"-" ++ letters ++ $"=" ++ value;
  run_label : forall value, option_with arguments index ($"--label") (Some 108) value ->
    forall rest, value <> $"cdenv." ++ rest;
  run_target : forall target, mounts_target arguments index target ->
    exists p, ContainerPath_parse target = Ok p /\ container_path p (components target) /\
      Forall (fun o => apart (components target) (components (cp_as_str o))) (owned_by_plan runtime owned);
}.

(** An option that [reserved_long] does not find is in neither of its forms. *)
Lemma reserved_long_false argument names : reserved_long argument names = false ->
  forall name, name ∈ names -> argument <> name /\ forall value, argument <> name ++ $"=" ++ value.
Proof.
  intros H name Hin. apply existsb_false_iff in H. rewrite list.Forall_forall in H. specialize (H _ Hin). cbn beta in H.
  apply orb_false_iff in H as [H1 H2]. apply bool_decide_eq_false in H1. split; [done|].
  intros value ->. by rewrite strip_prefix_app in H2.
Qed.

Lemma starts_with_form argument name value : str_eqb argument name || starts_with (name ++ $"=") argument = false ->
  argument <> name /\ argument <> name ++ $"=" ++ value.
Proof.
  intros [H1 H2]%orb_false_iff. apply bool_decide_eq_false in H1. split; [done|]. intros ->.
  rewrite app_assoc in H2. assert (starts_with (name ++ $"=") ((name ++ $"=") ++ value) = true) as E
    by (apply starts_with_true; by eexists). congruence.
Qed.

Lemma reserved_create_setting_None argument : reserved_create_setting argument = None ->
  (forall name, name ∈ [$"--rm"; $"--name"; $"--entrypoint"; $"--workdir"; $"--user"] ->
    argument <> name /\ forall value, argument <> name ++ $"=" ++ value) /\
  forall rest, argument <> $"-w" ++ rest /\ argument <> $"-u" ++ rest.
Proof.
  intros H. unfold reserved_create_setting in H.
  repeat match type of H with (if ?b then _ else _) = None => destruct b eqn:?; [done|] end.
  repeat match goal with E : ?a || ?b || ?c = false |- _ => apply orb_false_iff in E as [? ?] end. split.
  - intros name Hin. cut (forall value, argument <> name /\ argument <> name ++ $"=" ++ value).
    { intros Hv. split; [apply (Hv [])|apply Hv]. }
    intros value. apply starts_with_form. repeat (apply elem_of_cons in Hin as [->|Hin]; [by assumption|]).
    by apply not_elem_of_nil in Hin.
  - intros rest. split; intros ->; done.
Qed.

Lemma reserved_attach_short_false argument letters : reserved_attach_short argument = false -> letters <> [] ->
  Forall (fun c => c ∈ $"adit") letters ->
  argument <> $"-" ++ letters /\ forall value, argument <> $"-" ++ letters ++ $"=" ++ value.
Proof.
  intros H Hne Hl. assert (He : 61 ∉ letters).
  { intros Hin. rewrite Forall_forall in Hl. specialize (Hl _ Hin).
    repeat (apply elem_of_cons in Hl as [Hl|Hl]; [discriminate Hl|]). by apply not_elem_of_nil in Hl. }
  assert (Hflags : forall rest, short_flags ($"-" ++ letters ++ rest) = Some (letters ++ rest)).
  { intros rest. unfold short_flags. rewrite strip_prefix_app. destruct letters as [|c letters]; [done|].
    apply Forall_cons in Hl as [Hc _]. repeat (apply elem_of_cons in Hc as [->|Hc]; [done|]). by apply not_elem_of_nil in Hc. }
  assert (Hall : forallb (fun flag => existsb (N.eqb flag) ($"adit")) letters = true).
  { apply forallb_forall. intros c Hc%list_elem_of_In. rewrite Forall_forall in Hl. specialize (Hl _ Hc).
    repeat (apply elem_of_cons in Hl as [->|Hl]; [done|]). by apply not_elem_of_nil in Hl. }
  split; [|intros value]; intros ->; unfold reserved_attach_short in H.
  - specialize (Hflags []). rewrite app_nil_r in Hflags. rewrite Hflags, split_nosep in H by done. cbn [hd_error from_option id] in H.
    rewrite Hall, bool_decide_eq_false_2 in H by done. done.
  - rewrite Hflags in H. change ($"=" ++ value) with (61 :: value) in H. rewrite split_app in H by done. cbn [hd_error from_option id] in H.
    rewrite Hall, bool_decide_eq_false_2 in H by done. done.
Qed.

Lemma split_once_free c p s : c ∉ p ->
  split_once [c] (p ++ s) = option_map (fun '(a, b) => (p ++ a, b)) (split_once [c] s).
Proof.
  induction p as [|x p IH]; intros Hc; cbn [app]; [by destruct (split_once [c] s) as [[]|]|].
  apply not_elem_of_cons in Hc as [Hx Hp]. cbn. destruct (N.eqb_spec c x); [done|]. rewrite IH by done.
  by destruct (split_once [c] s) as [[]|].
Qed.

Lemma cdenv_label_false value : cdenv_label value = false -> forall rest, value <> $"cdenv." ++ rest.
Proof.
  intros H rest ->. unfold cdenv_label in H. change ($"=") with [61] in H.
  rewrite split_once_free in H by (apply contains_char_false; vm_compute; reflexivity).
  assert (E : forall r, starts_with ($"cdenv.") ($"cdenv." ++ r) = true) by (intros r; apply starts_with_true; by exists r).
  destruct (split_once [61] rest) as [[a b]|]; cbn [option_map] in H; by rewrite E in H.
Qed.

Ltac known_option long := apply (option_value_with _ _ (drop 2 long)); [apply contains_char_false; vm_compute; reflexivity|discriminate|discriminate|assumption].

Lemma check_run_argument_Ok raw arguments runtime owned index argument :
  Forall (fun p => exists names, container_path p names) (owned_by_plan runtime owned) ->
  check_run_argument raw arguments runtime owned index argument = Ok tt ->
  free_run_argument arguments runtime owned index argument.
Proof.
  intros Ho H. unfold check_run_argument in H.
  destruct (reserved_create_setting argument) eqn:Hs; [done|].
  destruct (str_eqb argument ($"--")) eqn:E1; [done|]. apply bool_decide_eq_false in E1.
  destruct (reserved_long argument [_; _; _; _; _]) eqn:E2; [done|].
  destruct (reserved_attach_short argument) eqn:E3; [done|]. cbn [orb] in H.
  destruct (reserved_long argument [_]) eqn:E4; [done|]. cbn [orb] in H.
  destruct (is_some_and _ _) eqn:E5; [done|].
  destruct (match option_value arguments index ($"--mount") None with Some _ => _ | None => _ end) as [[]|] eqn:Hm;
    [|done].
  destruct (match option_value arguments index ($"--volume") _ with Some _ => _ | None => _ end) as [[]|] eqn:Hv;
    [|done].
  apply reserved_create_setting_None in Hs as [Hlong Hshort].
  assert (Hall := reserved_long_false _ _ E2). assert (Hfile := reserved_long_false _ _ E4). split.
  - intros name Hin. unfold owned_options in Hin.
    change (name ∈ [$"--rm"; $"--name"; $"--entrypoint"; $"--workdir"; $"--user"]
      ++ [$"--attach"; $"--detach"; $"--interactive"; $"--tty"; $"--sig-proxy"] ++ [$"--label-file"]) in Hin.
    apply elem_of_app in Hin as [|[|]%elem_of_app]; auto.
  - exact Hshort.
  - split; [done|]. intros letters. by apply reserved_attach_short_false.
  - intros value Hw. assert (Hov : option_value arguments index ($"--label") (Some 108) = Some value) by known_option ($"--label").
    rewrite Hov in E5. by apply cdenv_label_false.
  - intros target [value Hw Ht|value Hw Ht|value Hw ->].
    + assert (Hov : option_value arguments index ($"--mount") None = Some value) by known_option ($"--mount").
      rewrite Hov, Ht in Hm. cbn [ok_or] in Hm. by eapply reject_mount_target_Ok.
    + assert (Hov : option_value arguments index ($"--volume") (Some 118) = Some value) by known_option ($"--volume").
      rewrite Hov, Ht in Hv. cbn [ok_or] in Hv. by eapply reject_mount_target_Ok.
    + assert (Hov : option_value arguments index ($"--tmpfs") None = Some value) by known_option ($"--tmpfs").
      rewrite Hov in H. by eapply reject_mount_target_Ok.
Qed.

(** C36: accepted run arguments leave cdenv's settings alone.  When [validate_run_arguments]
    accepts, no argument is one of the long options for removal, name, entry point, working
    directory, user, attachment or a label file, alone or with a value after the equals sign; none
    starts with the short option for the working directory or the user, or consists of the short
    options for attachment; no label option in any of its four forms (long or short, its value in
    the next argument, after the equals sign of the long option, or joined to the short one) sets a
    label whose name starts with that of cdenv; and every target of a mount, volume or tmpfs option
    in these forms is an absolute path that neither contains nor lies in the workspace, a planned
    mount or a target cdenv owns.  Short options combined with one another, and the short label
    option with an equals sign, are not among these forms: they are accepted
    ([combined_short_options_accepted]). *)
Theorem run_arguments_leave_settings raw arguments runtime owned :
  Forall (fun p => exists names, container_path p names) (owned_by_plan runtime owned) ->
  validate_run_arguments raw arguments runtime owned = Ok tt ->
  forall index argument, arguments !! index = Some argument ->
    free_run_argument arguments runtime owned index argument.
Proof.
  intros Ho H index argument Ha. apply check_run_argument_Ok with raw; [done|].
  assert (Hin := enumerate_lookup 0 arguments index argument Ha). apply list_elem_of_lookup_2 in Hin.
  revert H Hin. unfold validate_run_arguments. generalize (enumerate 0 arguments). intros l.
  induction l as [|[i a] l IH]; cbn [try_fold]; [by intros _ ?%not_elem_of_nil|].
  intros H [Hin|Hin]%elem_of_cons.
  - injection Hin as <- <-. rewrite N.add_0_l, Nat2N.id in H.
    by destruct (check_run_argument raw arguments runtime owned index argument) as [[]|].
  - destruct (check_run_argument raw arguments runtime owned (N.to_nat i) a) as [[]|]; [|done]. by apply IH.
Qed.

(** ** Examples *)

Definition run_plan : option RuntimePlan := ok sample_plan.
Definition owned_targets : list ContainerPath := [mkContainerPath ($"/opt/cdenv")].
Definition run_checked (arguments : list str) : option (option (str * DockerOptionErrorKind)) :=
  (fun plan => match validate_run_arguments arguments arguments plan owned_targets with
               | Ok _ => None
               | Err e => Some (docker_argument e, docker_kind e)
               end) <$> run_plan.

Lemma run_arguments_leave_settings_witness :
  exists plan, run_plan = Some plan /\
    forall index argument, [$"--network"; $"host"; $"-v"; $"/tmp:/data:ro"] !! index = Some argument ->
      free_run_argument [$"--network"; $"host"; $"-v"; $"/tmp:/data:ro"] plan owned_targets index argument.
Proof.
  assert (H : exists plan, run_plan = Some plan /\
    validate_run_arguments [$"--network"; $"host"; $"-v"; $"/tmp:/data:ro"]
      [$"--network"; $"host"; $"-v"; $"/tmp:/data:ro"] plan owned_targets = Ok tt /\
    List.map (fun p => normalize_absolute (cp_as_str p) false) (owned_by_plan plan owned_targets) =
      List.map (fun p => Ok (cp_as_str p)) (owned_by_plan plan owned_targets)).
  { eexists. split; [vm_compute; reflexivity|]. split; vm_compute; reflexivity. }
  destruct H as (plan & Hp & Hv & Hn). exists plan. split; [exact Hp|].
  apply (run_arguments_leave_settings [$"--network"; $"host"; $"-v"; $"/tmp:/data:ro"]); [|exact Hv].
  clear Hp Hv. induction (owned_by_plan plan owned_targets) as [|p l IH]; [constructor|].
  injection Hn as Hp Hl. constructor; [|by apply IH].
  apply normalize_absolute_Ok in Hp as (Hpr & Hr & Hne). eexists. split; [exact Hpr|]. split; [by apply Hne|exact Hr].
Defined.

(** The reserved options and conflicting targets that are recognised. *)
Lemma run_arguments_rejected :
  List.map run_checked
    [[$"--name=x"]; [$"-u"; $"root"]; [$"-it"]; [$"--label"; $"cdenv.workspace=x"];
     [$"--mount"; $"type=bind,src=/x,dst=/workspaces"]; [$"-v/x:/opt/cdenv/bin"]; [$"--tmpfs"; $"/cache/a:rw"]] =
    List.map (fun p => Some (Some p))
    [($"--name=x", Docker_ContainerName); ($"-u", Docker_ContainerUser); ($"-it", Docker_AttachmentMode);
     ($"--label", Docker_IdentityLabel); ($"--mount", Docker_MountTarget);
     ($"-v/x:/opt/cdenv/bin", Docker_MountTarget); ($"--tmpfs", Docker_MountTarget)].
Proof. vm_compute. reflexivity. Qed.

(** Short options may be combined: [-iv value] is [-i] and [-v value], [-iw /x] is [-i] and
    [-w /x], [-qfFile] is [-q] and [-fFile], and [-l=name=value] sets the label [name].  The checks
    look at the first letter of an argument only, and keep the [=] in the value, so these forms
    of reserved options are accepted. *)
Lemma combined_short_options_accepted :
  List.map run_checked
    [[$"-iv"; $"/tmp:/workspaces/project"]; [$"-iw"; $"/x"]; [$"-l=cdenv.workspace=x"]] =
    [Some None; Some None; Some None] /\
  validate_build_options [$"-qfDockerfile.other"] = Ok tt.
Proof. vm_compute. split; reflexivity. Qed.

Lemma build_options_examples :
  List.map (fun l => match validate_build_options l with Ok _ => None | Err e => Some (docker_property_path e, docker_kind e) end)
    [[$"--network"; $"host"; $"--pull"]; [$"--network"; $"host"; $"."]; [$"--file=x"]; [$"-tx"];
     [$"--label"; $"cdenv.profile=x"]; [$"--label=a=b"; $"--push"]] =
    [None; Some ($"$.build.options[2]", Docker_BuildContext); Some ($"$.build.options[0]", Docker_BuildInvariant);
     Some ($"$.build.options[0]", Docker_BuildInvariant); Some ($"$.build.options[0]", Docker_IdentityLabel);
     Some ($"$.build.options[1]", Docker_BuildInvariant)].
Proof. vm_compute. reflexivity. Qed.
