(* ===== verification/DockerCommands.v ===== *)
(** * DockerCommands: the argument vectors of [docker pull], [build] and [create]
    ([cdenv-cli/src/docker_cli.rs])

    An [OsString] is text.  The file also covers the claims that Docker reports back, image and
    container identifiers; running the processes is not modelled. *)

From S2P Require Import Prelude Text Order Utf8 Identity Workspace Substitution Profile HostRequirements Metadata Ports Planning DockerOptions.

(** ** Requests *)

(** @src cdenv-cli/src/docker_cli.rs:34-43 DockerResourceIdentity *)
Record DockerResourceIdentity : Type := mkResourceIdentity {
  di_installation : InstallationId;
  di_workspace : WorkspaceName;
  di_generation : GenerationId;
  di_profile : ProfileId;
}.

(** @src cdenv-cli/src/docker_cli.rs:46-53 DockerResourceIdentity::labels *)
Definition resource_labels (i : DockerResourceIdentity) : list str :=
  [$"cdenv.installation=" ++ installation_str (di_installation i);
   $"cdenv.workspace=" ++ name_str (di_workspace i);
   $"cdenv.generation=" ++ to_string (generation_get (di_generation i));
   $"cdenv.profile=" ++ profile_str (di_profile i)].

(** @src cdenv-cli/src/docker_cli.rs:55-64 DockerResourceIdentity::generated_image_labels *)
Definition generated_image_labels (i : DockerResourceIdentity) : list str :=
  resource_labels i ++ [$"cdenv.generated=true"].

(** @src cdenv-cli/src/docker_cli.rs:136-155 DockerCreateRequest *)
Record DockerCreateRequest : Type := mkCreateRequest {
  request_name : str;
  request_image : str;
  request_identity : DockerResourceIdentity;
  request_runtime : RuntimePlan;
  request_run_arguments : list str;
  request_ports : PortPlan;
  request_gpu_access : GpuAccessIntent;
  request_command : list str;
  request_owned_targets : list ContainerPath;
}.

(** The variants that the functions of this file return.
    @src cdenv-cli/src/docker_cli.rs:929-943 DockerCliError *)
Inductive DockerCliError : Type :=
| DockerCli_ReservedOption (e : DockerOptionError)
| DockerCli_InvalidOwnedValue (role value : str)
| DockerCli_InvalidImageId
| DockerCli_InvalidContainerId
| DockerCli_ContainerId (e : ContainerIdError).

(** ** Claims of Docker *)

(** @src cdenv-cli/src/docker_cli.rs:159-159 ImageId *)
Record ImageId : Type := mkImageId { image_str : str }.

(** @src cdenv-cli/src/docker_cli.rs:167-179 ImageId::parse *)
Definition ImageId_parse (value : str) : result DockerCliError ImageId :=
  match strip_prefix ($"sha256:") value with
  | None => Err DockerCli_InvalidImageId
  | Some digest =>
      if negb (str_len digest =? 64)
         || negb (forallb (fun byte => is_ascii_digit byte || in_range 97 102 byte) (encode_utf8 digest))
      then Err DockerCli_InvalidImageId
      else Ok (mkImageId value)
  end.

(** The claim of [docker create] in the bytes of its output.
    @src cdenv-cli/src/docker_cli.rs:442-444 DockerCliAdapter::create *)
Definition created_container (stdout : list N) : result DockerCliError ContainerId :=
  let? output := ok_or DockerCli_InvalidContainerId (from_utf8 stdout) in
  map_err DockerCli_ContainerId (ContainerId_parse (trim output)).

(** ** Arguments *)

(** @src cdenv-cli/src/docker_cli.rs:849-858 validate_docker_value *)
Definition validate_docker_value (role value : str) : result DockerCliError unit :=
  if bool_decide (value = []) || starts_with ($"-") value || existsb is_control value
  then Err (DockerCli_InvalidOwnedValue role value)
  else Ok tt.

(** @src cdenv-cli/src/docker_cli.rs:504-507 pull_arguments *)
Definition pull_arguments (image : str) : result DockerCliError (list str) :=
  let? _ := validate_docker_value ($"image") image in
  Ok [$"pull"; image].

(** The flag and each of the values. *)
Definition each (flag : str) (values : list str) : list str := concat (List.map (fun v => [flag; v]) values).

(** [name=value] for the entries of a map, in key order. *)
Definition assignments (m : strmap (list N)) : list str :=
  List.map (fun '(name, value) => name ++ $"=" ++ value) (sorted_entries m).

(** @src cdenv-cli/src/docker_cli.rs:514-555 build_arguments *)
Definition build_arguments (plan : DockerfileBuildPlan) (dockerfile context tag iid_file : str)
    (identity : DockerResourceIdentity) (no_cache : bool) : result DockerCliError (list str) :=
  let? _ := map_err DockerCli_ReservedOption (validate_build_options_at_boundary (plan_options plan)) in
  let? _ := validate_docker_value ($"image tag") tag in
  Ok ([$"build"] ++ plan_options plan
      ++ (if no_cache then [$"--no-cache"] else [])
      ++ [$"--file"; dockerfile]
      ++ (match plan_target plan with Some target => [$"--target"; target] | None => [] end)
      ++ each ($"--build-arg") (assignments (plan_arguments plan))
      ++ each ($"--cache-from") (plan_cache_from plan)
      ++ each ($"--label") (generated_image_labels identity)
      ++ [$"--tag"; tag; $"--iidfile"; iid_file; context]).

(** @src cdenv-cli/src/docker_cli.rs:624-645 mount_argument *)
Definition mount_argument (mount : PlannedMount) : str :=
  $"type=" ++ match mount_kind mount with Mount_Bind => $"bind" | Mount_Volume => $"volume" end
  ++ (match mount_source mount with Some source => $",source=" ++ source | None => [] end)
  ++ $",target=" ++ cp_as_str (pm_target mount)
  ++ concat (List.map (fun o => $"," ++ option_name o
       ++ match Planning.option_value o with Some value => $"=" ++ value | None => [] end) (mount_options mount)).

(** @src cdenv-cli/src/docker_cli.rs:562-619 create_arguments *)
Definition create_arguments (request : DockerCreateRequest) : result DockerCliError (list str) :=
  let runtime := request_runtime request in
  let? _ := map_err DockerCli_ReservedOption
    (validate_create_options_at_boundary (request_run_arguments request) runtime (request_owned_targets request)) in
  let? _ := validate_docker_value ($"container name") (request_name request) in
  let? _ := validate_docker_value ($"image") (request_image request) in
  Ok ([$"create"] ++ request_run_arguments request
      ++ [$"--name"; request_name request]
      ++ each ($"--label") (resource_labels (request_identity request))
      ++ each ($"--publish") (List.map pub_argument (pp_publications (request_ports request)))
      ++ (match request_gpu_access request with GpuAccess_Requested => [$"--gpus"; $"all"] | GpuAccess_None => [] end)
      ++ [$"--mount"; mount_argument (ws_mount (rp_workspace runtime))]
      ++ each ($"--mount") (List.map mount_argument (rp_mounts runtime))
      ++ each ($"--env") (assignments (env_container (rp_environment runtime)))
      ++ [$"--user"; cu_as_str (rp_container_user runtime)]
      ++ [$"--workdir"; cp_as_str (ws_folder (rp_workspace runtime))]
      ++ (if rp_init runtime then [$"--init"] else [])
      ++ (if rp_privileged runtime then [$"--privileged"] else [])
      ++ each ($"--cap-add") (rp_cap_add runtime)
      ++ each ($"--security-opt") (rp_security_opt runtime)
      ++ [request_image request] ++ request_command request).

(** ** Mount arguments *)

(** The fields that describe a mount. *)
Definition option_field (o : MountOption) : str :=
  option_name o ++ match Planning.option_value o with Some value => $"=" ++ value | None => [] end.
Definition mount_fields (m : PlannedMount) : list str :=
  [$"type=" ++ kind_text (mount_kind m)]
  ++ (match mount_source m with Some source => [$"source=" ++ source] | None => [] end)
  ++ [$"target=" ++ cp_as_str (pm_target m)] ++ List.map option_field (mount_options m).

Lemma mount_argument_join m : mount_argument m = join ($",") (mount_fields m).
Proof.
  assert (Hc : forall (w : str) fs, join ($",") (w :: List.map option_field fs) =
    w ++ concat (List.map (fun o => $"," ++ option_field o) fs)).
  { intros w fs. revert w. induction fs as [|o fs IH]; intros w; [by rewrite app_nil_r|].
    cbn [List.map]. rewrite join_cons by done. rewrite IH. cbn [concat List.map]. by rewrite <- !app_assoc. }
  unfold mount_argument, mount_fields.
  destruct (mount_source m) as [s|]; cbn [app].
  - rewrite !join_cons by done. rewrite Hc.
    unfold option_field, kind_text. destruct (mount_kind m); by rewrite <- !app_assoc.
  - rewrite join_cons by done. rewrite Hc.
    unfold option_field, kind_text. destruct (mount_kind m); by rewrite <- !app_assoc.
Qed.

Definition no_comma (s : str) : Prop := Forall (fun c => c <> 44) s.

Lemma no_comma_out s : no_comma s -> 44 ∉ s.
Proof. intros H Hin. unfold no_comma in H. rewrite list.Forall_forall in H. by apply (H 44). Qed.

Lemma no_comma_prefix p s : contains_char 44 p = false -> no_comma s -> 44 ∉ p ++ s.
Proof. intros Hp Hs. rewrite not_elem_of_app. by split; [apply contains_char_false|apply no_comma_out]. Qed.

Lemma drop_while_Forall {A} (P : A -> Prop) p l : Forall P l -> Forall P (drop_while p l).
Proof. induction 1; cbn; [done|]. case_match; [done|]. by constructor. Qed.

Lemma trim_Forall (P : char -> Prop) s : Forall P s -> Forall P (trim s).
Proof. intros H. unfold trim. by apply Forall_rev, drop_while_Forall, Forall_rev, drop_while_Forall. Qed.

Lemma field_of_Forall (P : char -> Prop) field :
  Forall P field -> Forall P (fst (field_of field)) /\ forall v, snd (field_of field) = Some v -> Forall P v.
Proof.
  intros H. unfold field_of. destruct (split_once ($"=") field) as [[a b]|] eqn:E; cbn.
  - apply split_once_app in E. subst field. apply Forall_app in H as [Ha H]. apply Forall_app in H as [_ Hb].
    split; [by apply trim_Forall|]. intros v [= <-]. by apply trim_Forall.
  - split; [by apply trim_Forall|done].
Qed.

Lemma render_components_no_comma s : no_comma s -> no_comma (render (components s)).
Proof.
  intros H. unfold render. constructor; [done|].
  assert (Hc : Forall no_comma (components s)).
  { assert (Hsp := split_Forall _ 47 s H). rewrite list.Forall_forall in Hsp |- *.
    intros n [_ Hn]%list_elem_of_filter. by apply Hsp. }
  induction Hc as [|n ns Hn Hns IH]; [constructor|]. destruct ns; [done|].
  rewrite join_cons by done. apply Forall_app; split; [done|]. by constructor.
Qed.

Lemma values_of_elem keys fields (v : str) :
  values_of keys fields = [Some v] -> exists field, field ∈ fields /\ snd (field_of field) = Some v.
Proof.
  intros H. assert (Hin : Some v ∈ values_of keys fields) by (rewrite H; by left).
  apply list_elem_of_omap in Hin as (field & Hf & Hs). exists field. split; [done|].
  case_bool_decide; [by injection Hs|done].
Qed.

Lemma fields_no_comma value f :
  fields_say (split 44 value) f ->
  (forall s, mf_source f = Some s -> no_comma s) /\ (forall t, mf_target f = Some t -> no_comma t) /\
  Forall (fun o => no_comma (option_field o)) (mf_options f).
Proof.
  intros [_ _ Hs Ht Ho].
  assert (Hall : forall field, field ∈ split 44 value -> no_comma field).
  { intros field Hin. assert (Hp := split_pieces 44 value). rewrite list.Forall_forall in Hp.
    apply list.Forall_forall. intros c Hc ->. by apply (Hp field). }
  assert (Hv : forall keys v, values_of keys (split 44 value) = [Some v] -> no_comma v).
  { intros keys v (field & Hin & Hf)%values_of_elem. by eapply field_of_Forall; [apply Hall|]. }
  split; [|split].
  - intros s E. rewrite E in Hs. by eapply Hv.
  - intros t E. rewrite E in Ht. by eapply Hv.
  - rewrite Ho. apply list.Forall_forall. intros o (field & Hin & Hf)%list_elem_of_omap.
    case_bool_decide; [done|]. injection Hf as <-. destruct (field_of_Forall _ field (Hall _ Hin)) as [Hn Hvv].
    unfold option_field. cbn. apply Forall_app; split; [done|].
    destruct (snd (field_of field)); [|constructor]. constructor; [done|]. by apply Hvv.
Qed.

(** a mount string is handed to Docker field by field.  For a mount that [parse_string_mount]
    accepts, the argument [mount_argument] builds splits at its commas into exactly the type, the
    source if any, the target and the options of the mount, in that order: no value of the
    profile becomes a field of its own. *)
Theorem mount_argument_fields to_vec Sha256_digest text property substitution context m :
  parse_string_mount to_vec Sha256_digest text property substitution context = Ok m ->
  split 44 (mount_argument m) = mount_fields m.
Proof.
  intros H. apply parse_string_mount_Ok in H as (_ & value & source & target & _ & Hf & Ht & Hs).
  apply fields_no_comma in Hf as (Hsrc & Htgt & Hopt). cbn [mf_source mf_target mf_options] in Hsrc, Htgt, Hopt. rewrite mount_argument_join.
  apply split_join; [done|]. unfold mount_fields.
  apply Forall_app; split; [constructor; [|done]; by destruct (mount_kind m); apply contains_char_false|].
  apply Forall_app; split.
  { rewrite Hs. destruct source as [s|]; [|by destruct (mount_kind m)]. specialize (Hsrc s eq_refl).
    destruct (mount_kind m); (constructor; [|done]); (apply no_comma_prefix; [done|]); [|done].
    by apply render_components_no_comma. }
  constructor.
  - apply no_comma_prefix; [done|]. rewrite Ht. apply render_components_no_comma. by apply Htgt.
  - apply Forall_map. eapply Forall_impl; [exact Hopt|]. intros o Ho. by apply no_comma_out.
Qed.

(** ** Examples *)

Definition no_context : HostSubstitutionInputs := mkInputs ($"/src") ($"/workspaces/src") ∅ ∅.

Lemma mount_argument_fields_witness :
  exists m, parse_string_mount (fun _ => None) id ($"type=bind, src=/a/./b ,target=/x,ro,bind-propagation=shared")
      ($"$") Prop_Mount no_context = Ok m /\
    mount_argument m = $"type=bind,source=/a/b,target=/x,ro,bind-propagation=shared" /\
    split 44 (mount_argument m) = mount_fields m.
Proof.
  assert (H : exists m, parse_string_mount (fun _ => None) id
      ($"type=bind, src=/a/./b ,target=/x,ro,bind-propagation=shared") ($"$") Prop_Mount no_context = Ok m /\
      mount_argument m = $"type=bind,source=/a/b,target=/x,ro,bind-propagation=shared").
  { eexists. split; vm_compute; reflexivity. }
  destruct H as (m & H & Ha). exists m. split; [exact H|]. split; [exact Ha|].
  exact (mount_argument_fields _ _ _ _ _ _ _ H).
Defined.

(** A mount given as an object may have commas in its paths, which [mount_argument] does not
    escape: this volume is planned on a target that overlaps nothing cdenv owns, and is handed to
    Docker with a second target inside what cdenv owns. *)
Lemma object_mount_injects_fields :
  exists plan m,
    plan_runtime (fun _ => None) id (port_profile [])
      (planning_metadata [RawMount_Object Mount_Volume None ($"/x,target=/opt/cdenv/bin")] None) planning_inputs
      = Ok plan /\
    rp_mounts plan = [m] /\
    in_cdenv_owned_targets planning_inputs = [mkContainerPath ($"/opt/cdenv")] /\
    mount_argument m = $"type=volume,target=/x,target=/opt/cdenv/bin" /\
    split 44 (mount_argument m) <> mount_fields m.
Proof.
  eexists _, _. split; [vm_compute; reflexivity|]. split; [reflexivity|]. split; [reflexivity|].
  split; [vm_compute; reflexivity|]. vm_compute. discriminate.
Qed.

Definition sample_identity : DockerResourceIdentity :=
  mkResourceIdentity (mkInstallationId ($"i")) (mkWorkspaceName ($"w")) (mkGenerationId 1) (mkProfileId ($"p")).

(** An accepted list of build options may end with an option that takes a value; in the command it
    takes cdenv's own [--file] as that value, and the Dockerfile becomes the positional context. *)
Lemma trailing_option_takes_file :
  build_arguments (mkDockerfilePlan (mkRepositoryPath ($"Dockerfile")) (mkRepositoryPath ($".")) None ∅ []
      [$"--network"]) ($"/c/Dockerfile") ($"/c") ($"t") ($"/iid") sample_identity false =
  Ok [$"build"; $"--network"; $"--file"; $"/c/Dockerfile"; $"--label"; $"cdenv.installation=i";
      $"--label"; $"cdenv.workspace=w"; $"--label"; $"cdenv.generation=1"; $"--label"; $"cdenv.profile=p";
      $"--label"; $"cdenv.generated=true"; $"--tag"; $"t"; $"--iidfile"; $"/iid"; $"/c"].
Proof. vm_compute. reflexivity. Qed.

Lemma image_id_examples :
  List.map (fun s => is_ok (ImageId_parse s))
    [$"sha256:" ++ replicate 64 97; $"sha256:" ++ replicate 63 97; $"sha256:" ++ replicate 64 65; replicate 64 97] =
    [true; false; false; false].
Proof. vm_compute. reflexivity. Qed.
