(* ===== verification/DockerInspection.v ===== *)
(** * DockerInspection: the adapter for the Docker daemon
    ([cdenv-cli/src/bollard.rs], [bollard/inspection.rs], [bollard/mutation.rs])

    The client library is the class [BollardApi]: a request is answered, fails or times out, in an
    arbitrary world.  An action logs its requests with the answers.  The adapter maps answers to
    typed values, and mutates only what it has verified.  The time-out of a call is an answer; the
    attached [exec] streams are not modelled. *)

From S2P Require Import Prelude Text Order Effects Utf8 Net Identity Workspace Substitution Profile HostRequirements Metadata Ports Planning DockerOptions DockerCommands.

(** ** Requests and answers *)

(** @src cdenv-cli/src/bollard.rs:40-40 INSTALLATION_LABEL *)
Definition INSTALLATION_LABEL : str := $"cdenv.installation".
(** @src cdenv-cli/src/bollard.rs:41-41 WORKSPACE_LABEL *)
Definition WORKSPACE_LABEL : str := $"cdenv.workspace".
(** @src cdenv-cli/src/bollard.rs:42-42 GENERATION_LABEL *)
Definition GENERATION_LABEL : str := $"cdenv.generation".
(** @src cdenv-cli/src/bollard.rs:43-43 PROFILE_LABEL *)
Definition PROFILE_LABEL : str := $"cdenv.profile".
(** @src cdenv-cli/src/bollard.rs:44-44 GENERATED_IMAGE_LABEL *)
Definition GENERATED_IMAGE_LABEL : str := $"cdenv.generated".
(** @src cdenv-cli/src/bollard.rs:45-45 COMPOSE_PROJECT_LABEL *)
Definition COMPOSE_PROJECT_LABEL : str := $"com.docker.compose.project".
(** @src cdenv-cli/src/bollard.rs:46-46 COMPOSE_SERVICE_LABEL *)
Definition COMPOSE_SERVICE_LABEL : str := $"com.docker.compose.service".

(** The requests of this file; those of [exec] are not modelled.
    @src cdenv-cli/src/bollard.rs:51-92 BollardApiRequest *)
Inductive BollardApiRequest : Type :=
| Request_Ping
| Request_ListContainers (all : bool) (labels : list str)
| Request_InspectContainer (id : str)
| Request_InspectImage (id : str)
| Request_StartContainer (id : str)
| Request_StopContainer (id : str) (seconds : Z)
| Request_RenameContainer (id name : str)
| Request_UploadArchive (id path : str) (archive : list N)
| Request_RemoveContainer (id : str)
| Request_RemoveImage (id : str).

(** The models of the [bollard] crate, as far as the code reads them. *)
Record ContainerSummary : Type := mkSummary {
  sm_id : option str;
  sm_names : option (list str);
  sm_image_id : option str;
  sm_labels : option (strmap str);
  sm_state : option str;
}.
Record MountPoint : Type := mkMountPoint {
  mp_typ : option str; mp_name : option str; mp_source : option str; mp_destination : option str; mp_mode : option str }.
Inductive HealthStatus : Type := Health_NONE | Health_HEALTHY | Health_UNHEALTHY | Health_EMPTY | Health_STARTING.
Record ContainerConfig : Type := mkConfig {
  cf_image : option str; cf_labels : option (strmap str); cf_user : option str; cf_working_dir : option str }.
Record ContainerState : Type := mkContainerState { cs_running : option bool; cs_health : option HealthStatus }.
Record ContainerInspectResponse : Type := mkInspectResponse {
  ci_id : option str;
  ci_name : option str;
  ci_image : option str;
  ci_config : option ContainerConfig;
  ci_state : option ContainerState;
  ci_mounts : option (list MountPoint);
  ci_port_bindings : option (list (str * option (list (option str * option str))));
}.
Record ImageInspect : Type := mkImageInspect {
  ii_id : option str; ii_architecture : option str; ii_labels : option (strmap str) }.

(** @src cdenv-cli/src/bollard.rs:97-112 BollardApiResponse *)
Inductive BollardApiResponse : Type :=
| Response_Ping (value : str)
| Response_Containers (containers : list ContainerSummary)
| Response_Container (container : ContainerInspectResponse)
| Response_Image (image : ImageInspect)
| Response_ExecCreated (id : str)
| Response_ExecInspect
| Response_Unit.

(** What a call that does not answer does. @src cdenv-cli/src/bollard.rs:141-143 BollardApiError *)
Inductive CallFailure : Type := Call_TimedOut | Call_Failed (message : str).

(** @src cdenv-cli/src/bollard.rs:116-135 BollardApi *)
Class BollardApi (A : Type) : Type := {
  execute : BollardApiRequest -> A -> A * result CallFailure BollardApiResponse;
}.

(** ** Typed values *)

(** @src cdenv-cli/src/bollard/inspection.rs:71-78 ContainerDiscoveryScope *)
Record ContainerDiscoveryScope : Type := mkScope {
  sc_installation : InstallationId;
  sc_workspace : option WorkspaceName;
  sc_generation : option GenerationId;
}.

(** @src cdenv-cli/src/bollard/inspection.rs:81-90 ContainerDiscoveryScope::filters *)
Definition scope_filters (scope : ContainerDiscoveryScope) : list str :=
  [INSTALLATION_LABEL ++ $"=" ++ installation_str (sc_installation scope)]
  ++ match sc_workspace scope with Some workspace => [WORKSPACE_LABEL ++ $"=" ++ name_str workspace] | None => [] end
  ++ match sc_generation scope with
     | Some generation => [GENERATION_LABEL ++ $"=" ++ to_string (generation_get generation)]
     | None => []
     end.

(** @src cdenv-cli/src/bollard/inspection.rs:95-106 DiscoveredContainer *)
Record DiscoveredContainer : Type := mkDiscovered {
  dc_id : ContainerId;
  dc_names : list str;
  dc_image_id : option ImageId;
  dc_labels : strmap str;
  dc_state : option str;
}.

(** @src cdenv-cli/src/bollard/inspection.rs:111-113 DiscoveredContainer::is_running *)
Definition is_running (c : DiscoveredContainer) : bool := bool_decide (dc_state c = Some ($"running")).

(** @src cdenv-cli/src/bollard/inspection.rs:118-125 WorkspaceCorrelation *)
Record WorkspaceCorrelation : Type := mkCorrelation {
  wc_workspace : WorkspaceName; wc_generation : GenerationId; wc_recorded : option ContainerId }.

(** @src cdenv-cli/src/bollard/inspection.rs:129-140 CorrelatedContainers *)
Record CorrelatedContainers : Type := mkCorrelated {
  cc_workspace : WorkspaceName;
  cc_current : list DiscoveredContainer;
  cc_stale : list DiscoveredContainer;
  cc_recorded_current : bool;
  cc_external : list DiscoveredContainer;
}.

(** @src cdenv-cli/src/bollard/inspection.rs:237-246 InspectedMount *)
Record InspectedMount : Type := mkInspectedMount { im_kind : str; im_source : option str; im_target : str; im_mode : option str }.
(** @src cdenv-cli/src/bollard/inspection.rs:250-257 InspectedPortBinding *)
Record InspectedPortBinding : Type := mkInspectedPort { ib_container : str; ib_host_ip : option str; ib_host_port : option str }.

(** @src cdenv-cli/src/bollard/inspection.rs:261-285 ContainerInspection *)
Record ContainerInspection : Type := mkInspection {
  in_id : ContainerId;
  in_name : str;
  in_image_id : ImageId;
  in_image_reference : option str;
  in_labels : strmap str;
  in_user : str;
  in_working_directory : str;
  in_mounts : list InspectedMount;
  in_ports : list InspectedPortBinding;
  in_running : bool;
  in_healthy : option bool;
}.

(** @src cdenv-cli/src/bollard/inspection.rs:289-296 ImageInspection *)
Record ImageInspection : Type := mkImageInspection {
  ig_id : ImageId; ig_labels : strmap str; ig_architecture : ContainerArchitecture }.

(** @src cdenv-cli/src/bollard/inspection.rs:300-321 ContainerExpectation *)
Record ContainerExpectation : Type := mkExpectation {
  ex_id : ContainerId;
  ex_name : str;
  ex_image_id : ImageId;
  ex_identity : DockerResourceIdentity;
  ex_project : option str;
  ex_service : option str;
  ex_running : option bool;
}.

(** @src cdenv-cli/src/bollard/inspection.rs:325-344 ComposePrimaryExpectation *)
Record ComposePrimaryExpectation : Type := mkPrimaryExpectation {
  pe_id : ContainerId;
  pe_image_id : ImageId;
  pe_identity : DockerResourceIdentity;
  pe_project : str;
  pe_service : str;
  pe_running : bool;
}.

(** @src cdenv-cli/src/bollard/mutation.rs:103-114 ImageCleanupExpectation *)
Record ImageCleanupExpectation : Type := mkImageExpectation { ie_id : ImageId; ie_identity : DockerResourceIdentity }.

(** @src cdenv-cli/src/bollard.rs:352-453 BollardAdapterError *)
Inductive BollardAdapterError : Type :=
| Bollard_TimedOut (operation : str)
| Bollard_Api (operation message : str)
| Bollard_UnexpectedPing (value : str)
| Bollard_UnexpectedResponse (operation : str)
| Bollard_MissingField (resource field : str)
| Bollard_InvalidContainerId (value : str) (source : ContainerIdError)
| Bollard_InvalidImageId (resource value : str)
| Bollard_UnsupportedArchitecture (error : UnsupportedContainerArchitecture)
| Bollard_VerificationMismatch (field expected : str) (actual : option str)
| Bollard_PortBindingMismatch (expected : list str) (actual : list InspectedPortBinding)
| Bollard_AmbiguousComposePrimary (project service : str) (matches : N)
| Bollard_InvalidStopTimeout
| Bollard_InvalidContainerName
| Bollard_InvalidArchivePath
| Bollard_CleanupRunningContainer (id : ContainerId).

(** ** Mapping of answers *)

(** @src cdenv-cli/src/bollard/inspection.rs:692-698 required *)
Definition required {T} (value : option T) (resource field : str) : result BollardAdapterError T :=
  ok_or (Bollard_MissingField resource field) value.

(** @src cdenv-cli/src/bollard/inspection.rs:688-690 parse_image_id *)
Definition parse_image_id (value resource : str) : result BollardAdapterError ImageId :=
  map_err (fun _ => Bollard_InvalidImageId resource value) (ImageId_parse value).

Definition parse_container_id (id : str) : result BollardAdapterError ContainerId :=
  map_err (fun source => Bollard_InvalidContainerId id source) (ContainerId_parse id).

(** [str::trim_start_matches('/')] *)
Fixpoint trim_slashes (name : str) : str :=
  match name with 47 :: rest => trim_slashes rest | _ => name end.

(** @src cdenv-cli/src/bollard/inspection.rs:577-596 map_summary *)
Definition map_summary (summary : ContainerSummary) : result BollardAdapterError DiscoveredContainer :=
  let? id := required (sm_id summary) ($"container list") ($"Id") in
  let? id := parse_container_id id in
  let? image_id := match sm_image_id summary with
    | Some value => result_map Some (parse_image_id value ($"container list"))
    | None => Ok None
    end in
  Ok (mkDiscovered id (List.map trim_slashes (default [] (sm_names summary))) image_id (default ∅ (sm_labels summary))
        (sm_state summary)).

(** [Option::cmp] *)
Definition option_cmp {A} (cmp : A -> A -> comparison) (a b : option A) : comparison :=
  match a, b with
  | None, None => Eq
  | None, Some _ => Lt
  | Some _, None => Gt
  | Some a, Some b => cmp a b
  end.
Definition mount_cmp (a b : InspectedMount) : comparison :=
  then_with (str_cmp (im_kind a) (im_kind b)) (then_with (option_cmp str_cmp (im_source a) (im_source b))
    (then_with (str_cmp (im_target a) (im_target b)) (option_cmp str_cmp (im_mode a) (im_mode b)))).
Definition port_cmp (a b : InspectedPortBinding) : comparison :=
  then_with (str_cmp (ib_container a) (ib_container b)) (then_with (option_cmp str_cmp (ib_host_ip a) (ib_host_ip b))
    (option_cmp str_cmp (ib_host_port a) (ib_host_port b))).
Definition mount_le (a b : InspectedMount) : Prop := mount_cmp a b <> Gt.
Definition port_le (a b : InspectedPortBinding) : Prop := port_cmp a b <> Gt.
#[export] Instance mount_le_dec a b : Decision (mount_le a b).
Proof. unfold mount_le. destruct (mount_cmp a b); [left|left|right]; congruence. Defined.
#[export] Instance port_le_dec a b : Decision (port_le a b).
Proof. unfold port_le. destruct (port_cmp a b); [left|left|right]; congruence. Defined.

(** @src cdenv-cli/src/bollard/inspection.rs:610-623 map_container *)
Definition map_mount (mount : MountPoint) : result BollardAdapterError InspectedMount :=
  let? kind := required (mp_typ mount) ($"container inspect mount") ($"Type") in
  let source := if str_eqb kind ($"volume") then mp_name mount else mp_source mount in
  let? target := required (mp_destination mount) ($"container inspect mount") ($"Destination") in
  Ok (mkInspectedMount kind source target (mp_mode mount)).

(** @src cdenv-cli/src/bollard/inspection.rs:659-671 map_container *)
Definition map_health (status : option HealthStatus) : option bool :=
  match status with
  | None | Some Health_NONE | Some Health_HEALTHY => Some true
  | Some Health_UNHEALTHY => Some false
  | Some Health_EMPTY | Some Health_STARTING => None
  end.

(** @src cdenv-cli/src/bollard/inspection.rs:598-672 map_container *)
Definition map_container (container : ContainerInspectResponse) : result BollardAdapterError ContainerInspection :=
  let inspect := $"container inspect" in
  let? id := required (ci_id container) inspect ($"Id") in
  let? id := parse_container_id id in
  let? config := required (ci_config container) inspect ($"Config") in
  let? state := required (ci_state container) inspect ($"State") in
  let? mounts := try_map map_mount (default [] (ci_mounts container)) in
  let ports := concat (List.map (fun '(port, bindings) =>
    List.map (fun '(ip, host) => mkInspectedPort port ip host) (default [] bindings)) (default [] (ci_port_bindings container))) in
  let? name := required (ci_name container) inspect ($"Name") in
  let? image := required (ci_image container) inspect ($"Image") in
  let? image_id := parse_image_id image inspect in
  Ok (mkInspection id (trim_slashes name) image_id (cf_image config) (default ∅ (cf_labels config))
        (default [] (cf_user config)) (default [] (cf_working_dir config)) (merge_sort mount_le mounts)
        (merge_sort port_le ports) (default false (cs_running state)) (map_health (cs_health state))).

(** @src cdenv-cli/src/bollard/inspection.rs:674-686 map_image *)
Definition map_image (image : ImageInspect) : result BollardAdapterError ImageInspection :=
  let? architecture := required (ii_architecture image) ($"image inspect") ($"Architecture") in
  let? id := required (ii_id image) ($"image inspect") ($"Id") in
  let? id := parse_image_id id ($"image inspect") in
  let? architecture := map_err Bollard_UnsupportedArchitecture (ContainerArchitecture_parse architecture) in
  Ok (mkImageInspection id (default ∅ (ii_labels image)) architecture).

(** ** Verification *)

(** @src cdenv-cli/src/bollard/inspection.rs:700-714 verify_value *)
Definition verify_value (field expected actual : str) : result BollardAdapterError unit :=
  if str_eqb expected actual then Ok tt else Err (Bollard_VerificationMismatch field expected (Some actual)).

(** @src cdenv-cli/src/bollard/inspection.rs:716-729 verify_label *)
Definition verify_label (labels : strmap str) (key expected : str) : result BollardAdapterError unit :=
  if bool_decide (labels !! key = Some expected) then Ok tt
  else Err (Bollard_VerificationMismatch key expected (labels !! key)).

(** @src cdenv-cli/src/bollard/inspection.rs:731-745 verify_optional_label *)
Definition verify_optional_label (labels : strmap str) (key : str) (expected : option str) : result BollardAdapterError unit :=
  match expected with
  | Some expected => verify_label labels key expected
  | None => if is_Some_b (labels !! key) then Err (Bollard_VerificationMismatch key ($"<absent>") (labels !! key)) else Ok tt
  end.

(** [bool::to_string] *)
Definition bool_str (b : bool) : str := if b then $"true" else $"false".

(** The labels of an identity, in the order in which every verification checks them.
    @src cdenv-cli/src/bollard/inspection.rs:207-222 verify_container *)
Definition verify_identity_labels (labels : strmap str) (identity : DockerResourceIdentity) : result BollardAdapterError unit :=
  let? _ := verify_label labels INSTALLATION_LABEL (installation_str (di_installation identity)) in
  let? _ := verify_label labels WORKSPACE_LABEL (name_str (di_workspace identity)) in
  let? _ := verify_label labels GENERATION_LABEL (to_string (generation_get (di_generation identity))) in
  verify_label labels PROFILE_LABEL (profile_str (di_profile identity)).

(** @src cdenv-cli/src/bollard/inspection.rs:196-233 verify_container *)
Definition verify_container (inspection : ContainerInspection) (expected : ContainerExpectation) : result BollardAdapterError unit :=
  let? _ := verify_value ($"container ID") (container_str (ex_id expected)) (container_str (in_id inspection)) in
  let? _ := verify_value ($"container name") (ex_name expected) (in_name inspection) in
  let? _ := verify_value ($"image ID") (image_str (ex_image_id expected)) (image_str (in_image_id inspection)) in
  let? _ := verify_identity_labels (in_labels inspection) (ex_identity expected) in
  let? _ := verify_optional_label (in_labels inspection) COMPOSE_PROJECT_LABEL (ex_project expected) in
  let? _ := verify_optional_label (in_labels inspection) COMPOSE_SERVICE_LABEL (ex_service expected) in
  match ex_running expected with
  | Some running => verify_value ($"running state") (bool_str running) (bool_str (in_running inspection))
  | None => Ok tt
  end.

(** The claim of a Compose primary before other matches are looked for.
    @src cdenv-cli/src/bollard/inspection.rs:451-479 BollardAdapter::verify_compose_primary *)
Definition verify_primary_claim (inspection : ContainerInspection) (expected : ComposePrimaryExpectation) :
    result BollardAdapterError unit :=
  let? _ := verify_value ($"container ID") (container_str (pe_id expected)) (container_str (in_id inspection)) in
  let? _ := verify_value ($"image ID") (image_str (pe_image_id expected)) (image_str (in_image_id inspection)) in
  let? _ := verify_identity_labels (in_labels inspection) (pe_identity expected) in
  let? _ := verify_label (in_labels inspection) COMPOSE_PROJECT_LABEL (pe_project expected) in
  let? _ := verify_label (in_labels inspection) COMPOSE_SERVICE_LABEL (pe_service expected) in
  verify_value ($"running state") (bool_str (pe_running expected)) (bool_str (in_running inspection)).

(** [Display for IpAddr] *)
Definition IpAddr_to_string (a : IpAddr) : str :=
  match a with IpAddr_V4 a => Ipv4_to_string a | IpAddr_V6 a => Ipv6_to_string a end.

(** @src cdenv-cli/src/bollard/inspection.rs:566-575 binding_ip_matches *)
Definition binding_ip_matches (actual : option str) (expected : PublicationBinding) : bool :=
  match expected with
  | Bind_Loopback address | Bind_NonLoopback address => bool_decide (actual = Some (IpAddr_to_string address))
  | Bind_AllInterfaces => bool_decide (actual ∈ [None; Some []; Some ($"0.0.0.0"); Some ($"::")])
  end.

(** @src cdenv-cli/src/bollard/inspection.rs:538-542 port_bindings_match *)
Definition protocol_str (protocol : PublicationProtocol) : str :=
  match protocol with Publish_Tcp => $"tcp" | Publish_Udp => $"udp" | Publish_Sctp => $"sctp" end.

(** One port of a publication. The sum stays below 65536: both ranges have one width.
    @src cdenv-cli/src/bollard/inspection.rs:544-561 port_bindings_match *)
Definition port_bound (actual : list InspectedPortBinding) (publication : PublicationRequest) (port : N) : bool :=
  let key := to_string port ++ $"/" ++ protocol_str (pub_protocol publication) in
  let first := port_get (range_start (pub_container_ports publication)) in
  let host_port := (fun range => port_get (range_start range) + (port - first)) <$> pub_host_ports publication in
  existsb (fun binding =>
    str_eqb (ib_container binding) key && binding_ip_matches (ib_host_ip binding) (pub_binding publication)
    && match host_port with
       | None => match ib_host_port binding with
                 | Some value => match parse_uint MAX_U16 value with Some n => 0 <? n | None => false end
                 | None => false
                 end
       | Some port => bool_decide (ib_host_port binding = Some (to_string port))
       end) actual.

(** [(start..=end)] *)
Definition range_ports (range : PortRange) : list N :=
  List.map (fun i => port_get (range_start range) + N.of_nat i) (seq 0 (S (N.to_nat (width range)))).

(** @src cdenv-cli/src/bollard/inspection.rs:536-564 port_bindings_match *)
Definition port_bindings_match (actual : list InspectedPortBinding) (expected : PortPlan) : bool :=
  forallb (fun publication => forallb (port_bound actual publication) (range_ports (pub_container_ports publication)))
    (pp_publications expected).

(** @src cdenv-cli/src/bollard/inspection.rs:518-534 verify_port_bindings *)
Definition verify_port_bindings (inspection : ContainerInspection) (expected : PortPlan) : result BollardAdapterError unit :=
  if port_bindings_match (in_ports inspection) expected then Ok tt
  else Err (Bollard_PortBindingMismatch (List.map pub_argument (pp_publications expected)) (in_ports inspection)).

(** @src cdenv-cli/src/bollard/inspection.rs:150-187 correlate_containers *)
Definition correlate_one (containers : list DiscoveredContainer) (input : WorkspaceCorrelation) : CorrelatedContainers :=
  let expected := to_string (generation_get (wc_generation input)) in
  let mine := List.filter (fun c => bool_decide (dc_labels c !! WORKSPACE_LABEL = Some (name_str (wc_workspace input)))) containers in
  let is_current c := bool_decide (dc_labels c !! GENERATION_LABEL = Some expected) in
  let current := List.filter is_current mine in
  let stale := List.filter (fun c => negb (is_current c)) mine in
  let is_recorded c := bool_decide (wc_recorded input = Some (dc_id c)) in
  mkCorrelated (wc_workspace input) current stale (existsb is_recorded current)
    (List.filter (fun c => negb (is_recorded c)) current).

(** @src cdenv-cli/src/bollard/inspection.rs:144-189 correlate_containers *)
Definition correlate_containers (containers : list DiscoveredContainer) (inputs : list WorkspaceCorrelation) :
    list CorrelatedContainers := List.map (correlate_one containers) inputs.

(** ** The adapter *)

(** A request and its answer. *)
Record DockerCall : Type := mkCall { dc_request : BollardApiRequest; dc_answer : result CallFailure BollardApiResponse }.

Section adapter.
Context {A : Type} `{!BollardApi A}.

Abbreviation docker := (act A DockerCall BollardAdapterError).
Definition check {X} (r : result BollardAdapterError X) : docker X := match r with Ok x => done x | Err e => raise e end.

(** @src cdenv-cli/src/bollard.rs:334-346 BollardAdapter::call *)
Definition call (operation : str) (request : BollardApiRequest) : docker BollardApiResponse :=
  do? response := invoke (mkCall request) (execute request)
    or (fun e => match e with Call_TimedOut => Bollard_TimedOut operation | Call_Failed message => Bollard_Api operation message end) in
  done response.

(** @src cdenv-cli/src/bollard.rs:323-332 BollardAdapter::unit *)
Definition unit_call (operation : str) (request : BollardApiRequest) : docker unit :=
  do? response := call operation request else raise in
  match response with Response_Unit => done tt | _ => raise (Bollard_UnexpectedResponse operation) end.

(** @src cdenv-cli/src/bollard/inspection.rs:352-358 BollardAdapter::ping *)
Definition ping : docker unit :=
  do? response := call ($"ping") Request_Ping else raise in
  match response with
  | Response_Ping value => if str_eqb value ($"OK") then done tt else raise (Bollard_UnexpectedPing value)
  | _ => raise (Bollard_UnexpectedResponse ($"ping"))
  end.

(** @src cdenv-cli/src/bollard/inspection.rs:365-384 BollardAdapter::discover *)
Definition discover_containers (scope : ContainerDiscoveryScope) : docker (list DiscoveredContainer) :=
  do? response := call ($"list containers") (Request_ListContainers true (scope_filters scope)) else raise in
  match response with
  | Response_Containers containers => check (try_map map_summary containers)
  | _ => raise (Bollard_UnexpectedResponse ($"list containers"))
  end.

(** @src cdenv-cli/src/bollard/inspection.rs:391-407 BollardAdapter::inspect_container *)
Definition inspect_container (id : ContainerId) : docker ContainerInspection :=
  do? response := call ($"inspect container") (Request_InspectContainer (container_str id)) else raise in
  match response with
  | Response_Container container => check (map_container container)
  | _ => raise (Bollard_UnexpectedResponse ($"inspect container"))
  end.

(** @src cdenv-cli/src/bollard/inspection.rs:414-427 BollardAdapter::inspect_image *)
Definition inspect_image (id : str) : docker ImageInspection :=
  do? response := call ($"inspect image") (Request_InspectImage id) else raise in
  match response with
  | Response_Image image => check (map_image image)
  | _ => raise (Bollard_UnexpectedResponse ($"inspect image"))
  end.

(** The containers of one Compose service.
    @src cdenv-cli/src/bollard/inspection.rs:489-500 BollardAdapter::verify_compose_primary *)
Definition is_service (project service : str) (c : DiscoveredContainer) : bool :=
  bool_decide (dc_labels c !! COMPOSE_PROJECT_LABEL = Some project)
  && bool_decide (dc_labels c !! COMPOSE_SERVICE_LABEL = Some service).

(** @src cdenv-cli/src/bollard/inspection.rs:446-510 BollardAdapter::verify_compose_primary *)
Definition verify_compose_primary (expected : ComposePrimaryExpectation) : docker ContainerInspection :=
  let identity := pe_identity expected in
  do? inspection := inspect_container (pe_id expected) else raise in
  do? _ := check (verify_primary_claim inspection expected) else raise in
  do? found := discover_containers
    (mkScope (di_installation identity) (Some (di_workspace identity)) (Some (di_generation identity))) else raise in
  let matches := List.filter (is_service (pe_project expected) (pe_service expected)) found in
  match matches with
  | [only] => if bool_decide (dc_id only = pe_id expected) then done inspection
              else raise (Bollard_AmbiguousComposePrimary (pe_project expected) (pe_service expected) (lenN matches))
  | _ => raise (Bollard_AmbiguousComposePrimary (pe_project expected) (pe_service expected) (lenN matches))
  end.

(** @src cdenv-cli/src/bollard/mutation.rs:122-128 BollardAdapter::start *)
Definition start_container (id : ContainerId) : docker unit :=
  unit_call ($"start container") (Request_StartContainer (container_str id)).

(** [grace] is a number of seconds. @src cdenv-cli/src/bollard/mutation.rs:135-146 BollardAdapter::stop *)
Definition stop_container (id : ContainerId) (grace : N) : docker unit :=
  if 2147483647 <? grace then raise Bollard_InvalidStopTimeout else
  unit_call ($"stop container") (Request_StopContainer (container_str id) (Z.of_N grace)).

(** @src cdenv-cli/src/bollard/mutation.rs:153-165 BollardAdapter::rename *)
Definition rename_container (id : ContainerId) (name : str) : docker unit :=
  if bool_decide (name = []) || starts_with [45] name || existsb is_control name then raise Bollard_InvalidContainerName else
  unit_call ($"rename container") (Request_RenameContainer (container_str id) name).

(** @src cdenv-cli/src/bollard/mutation.rs:172-190 BollardAdapter::upload_archive *)
Definition upload_archive (id : ContainerId) (path : str) (archive : list N) : docker unit :=
  if negb (starts_with [47] path) || contains_char 0 path then raise Bollard_InvalidArchivePath else
  unit_call ($"upload archive") (Request_UploadArchive (container_str id) path archive).

(** @src cdenv-cli/src/bollard/mutation.rs:197-213 BollardAdapter::cleanup_container *)
Definition cleanup_container (expected : ContainerExpectation) : docker unit :=
  do? inspection := inspect_container (ex_id expected) else raise in
  do? _ := check (verify_container inspection expected) else raise in
  if in_running inspection then raise (Bollard_CleanupRunningContainer (in_id inspection)) else
  unit_call ($"remove container") (Request_RemoveContainer (container_str (in_id inspection))).

(** @src cdenv-cli/src/bollard/mutation.rs:220-250 BollardAdapter::cleanup_image *)
Definition cleanup_image (expected : ImageCleanupExpectation) : docker unit :=
  do? inspection := inspect_image (image_str (ie_id expected)) else raise in
  do? _ := check (verify_value ($"image ID") (image_str (ie_id expected)) (image_str (ig_id inspection))) else raise in
  do? _ := check (verify_identity_labels (ig_labels inspection) (ie_identity expected)) else raise in
  do? _ := check (verify_label (ig_labels inspection) GENERATED_IMAGE_LABEL ($"true")) else raise in
  unit_call ($"remove image") (Request_RemoveImage (image_str (ig_id inspection))).
End adapter.

(** ** Verification is exact *)

(** The labels that cdenv puts on what it creates. *)
Definition labelled (labels : strmap str) (identity : DockerResourceIdentity) : Prop :=
  labels !! INSTALLATION_LABEL = Some (installation_str (di_installation identity)) /\
  labels !! WORKSPACE_LABEL = Some (name_str (di_workspace identity)) /\
  labels !! GENERATION_LABEL = Some (to_string (generation_get (di_generation identity))) /\
  labels !! PROFILE_LABEL = Some (profile_str (di_profile identity)).

Lemma verify_value_Ok field expected actual : verify_value field expected actual = Ok tt <-> expected = actual.
Proof. unfold verify_value. destruct (str_eqb _ _) eqn:E; [by apply str_eqb_true in E|]. split; [done|]. intros <-. by rewrite str_eqb_refl in E. Qed.

Lemma verify_label_Ok labels key expected : verify_label labels key expected = Ok tt <-> labels !! key = Some expected.
Proof. unfold verify_label. by case_bool_decide. Qed.

Lemma verify_optional_label_Ok labels key expected : verify_optional_label labels key expected = Ok tt <-> labels !! key = expected.
Proof.
  unfold verify_optional_label. destruct expected; [apply verify_label_Ok|]. by destruct (labels !! key).
Qed.

(** Checks in sequence succeed when each does. *)
Lemma then_Ok {E} (m k : result E unit) : (let? _ := m in k) = Ok tt <-> m = Ok tt /\ k = Ok tt.
Proof. destruct m as [[]|]; naive_solver. Qed.

Lemma verify_identity_labels_Ok labels identity : verify_identity_labels labels identity = Ok tt <-> labelled labels identity.
Proof. unfold verify_identity_labels. by rewrite !then_Ok, !verify_label_Ok. Qed.

Lemma bool_str_inj a b : bool_str a = bool_str b <-> a = b.
Proof. by destruct a, b. Qed.

(** A container that an expectation describes. *)
Record expected_container (i : ContainerInspection) (x : ContainerExpectation) : Prop := mk_expected {
  xc_id : in_id i = ex_id x;
  xc_name : in_name i = ex_name x;
  xc_image : in_image_id i = ex_image_id x;
  xc_labels : labelled (in_labels i) (ex_identity x);
  xc_project : in_labels i !! COMPOSE_PROJECT_LABEL = ex_project x;
  xc_service : in_labels i !! COMPOSE_SERVICE_LABEL = ex_service x;
  xc_running : forall running, ex_running x = Some running -> in_running i = running;
}.

Lemma verify_container_spec i x : verify_container i x = Ok tt <-> expected_container i x.
Proof.
  unfold verify_container. rewrite !then_Ok, !verify_value_Ok, !verify_optional_label_Ok, verify_identity_labels_Ok.
  assert (Hrun : match ex_running x with Some running => verify_value ($"running state") (bool_str running) (bool_str (in_running i)) | None => Ok tt end = Ok tt
    <-> forall running, ex_running x = Some running -> in_running i = running).
  { destruct (ex_running x) as [running|]; [|naive_solver]. rewrite verify_value_Ok, bool_str_inj. naive_solver. }
  rewrite Hrun. assert (Hid : container_str (ex_id x) = container_str (in_id i) <-> in_id i = ex_id x)
    by (destruct (ex_id x), (in_id i); cbn; naive_solver).
  assert (Him : image_str (ex_image_id x) = image_str (in_image_id i) <-> in_image_id i = ex_image_id x)
    by (destruct (ex_image_id x), (in_image_id i); cbn; naive_solver).
  rewrite Hid, Him. split; [intros (? & ? & ? & ? & ? & ? & ?); by constructor|intros []; naive_solver].
Qed.

(** ** What is removed *)

Section safety.
Context {A : Type} `{!BollardApi A}.

(** The requests of an inspection, and what its success says. *)
Lemma emits_call_docker operation request Q :
  (forall response, Q [mkCall request (Ok response)] (Ok response)) ->
  (forall failure e, Q [mkCall request (Err failure)] (Err e)) ->
  emits (A := A) (call operation request) Q.
Proof. intros Hok Herr. unfold call. apply emits_call; [intros x; by apply emits_done|intros e; apply emits_raise, Herr]. Qed.

Definition inspected (id : ContainerId) (t : list DockerCall) (i : ContainerInspection) : Prop :=
  exists response, t = [mkCall (Request_InspectContainer (container_str id)) (Ok (Response_Container response))] /\
    map_container response = Ok i.

Lemma inspect_container_spec id :
  emits (A := A) (inspect_container id) (fun t r =>
    (exists answer, t = [mkCall (Request_InspectContainer (container_str id)) answer]) /\ forall i, r = Ok i -> inspected id t i).
Proof.
  unfold inspect_container. eapply emits_handle; [apply (emits_call_docker _ _ (fun t r => exists answer,
    t = [mkCall (Request_InspectContainer (container_str id)) answer] /\ (forall x, r = Ok x -> answer = Ok x)))|..].
  - intros response. eexists. split; [done|]. by intros ? [= <-].
  - intros failure e. by eexists.
  - intros t response (answer & -> & Ha). specialize (Ha _ eq_refl) as ->.
    destruct response; try (apply emits_raise; split; [by eexists|done]).
    destruct (map_container container) as [i|e] eqn:E; cbn [check]; [apply emits_done|apply emits_raise];
      (split; [by eexists|]); [|done]. intros ? [= <-]. by exists container.
  - intros t e (answer & -> & _). apply emits_raise. split; [by eexists|done].
Qed.

Lemma inspect_image_spec id :
  emits (A := A) (inspect_image id) (fun t r =>
    (exists answer, t = [mkCall (Request_InspectImage id) answer]) /\
    forall i, r = Ok i -> exists response, t = [mkCall (Request_InspectImage id) (Ok (Response_Image response))] /\ map_image response = Ok i).
Proof.
  unfold inspect_image. eapply emits_handle; [apply (emits_call_docker _ _ (fun t r => exists answer,
    t = [mkCall (Request_InspectImage id) answer] /\ (forall x, r = Ok x -> answer = Ok x)))|..].
  - intros response. eexists. split; [done|]. by intros ? [= <-].
  - intros failure e. by eexists.
  - intros t response (answer & -> & Ha). specialize (Ha _ eq_refl) as ->.
    destruct response; try (apply emits_raise; split; [by eexists|done]).
    destruct (map_image image) as [i|e] eqn:E; cbn [check]; [apply emits_done|apply emits_raise];
      (split; [by eexists|]); [|done]. intros ? [= <-]. by exists image.
  - intros t e (answer & -> & _). apply emits_raise. split; [by eexists|done].
Qed.

Lemma unit_call_spec operation request :
  emits (A := A) (unit_call operation request) (fun t r => exists answer, t = [mkCall request answer] /\
    (r = Ok tt <-> answer = Ok Response_Unit)).
Proof.
  unfold unit_call. eapply emits_handle; [apply (emits_call_docker _ _ (fun t r => exists answer,
    t = [mkCall request answer] /\ match r with Ok x => answer = Ok x | Err _ => is_ok answer = false end))|..].
  - intros response. by eexists.
  - intros failure e. by eexists.
  - intros t response (answer & -> & ->). destruct response; try (apply emits_raise; by eexists; split; [done|]).
    apply emits_done. by eexists.
  - intros t e (answer & -> & Ha). apply emits_raise. eexists. split; [done|]. split; [done|]. by intros ->.
Qed.

(** A check that cannot call the daemon. *)
Lemma emits_check {X Y} (r : result BollardAdapterError X) (k : X -> act A DockerCall BollardAdapterError Y) Q :
  (forall x, r = Ok x -> emits (k x) Q) -> (forall e, r = Err e -> Q [] (Err e)) ->
  emits (handle (check r) raise k) Q.
Proof.
  intros Hk He a. unfold handle, check, done, raise. destruct r as [x|e]; [|by apply He].
  specialize (Hk x eq_refl a). by destruct (k x a) as [[a' t] r].
Qed.

(** What one removal looks like: an inspection, and then perhaps one removal of what it verified. *)
Definition removal (inspection request : BollardApiRequest) (verified : BollardApiResponse -> Prop)
    (t : list DockerCall) (r : result BollardAdapterError unit) : Prop :=
  exists answer rest, t = mkCall inspection answer :: rest /\
    (rest = [] /\ is_ok r = false \/
     exists response removed, answer = Ok response /\ verified response /\ rest = [mkCall request removed] /\
       (r = Ok tt <-> removed = Ok Response_Unit)).

(** C24: nothing is removed that was not just verified.  Removing a container or an image makes one
    inspection of the expected identifier; only when the daemon's answer has that identifier, the
    expected name and image, every label of the identity (for a container also the Compose labels,
    for an image the mark of a generated one), and the container does not run, one removal of that
    identifier follows, and the operation succeeds exactly when the daemon confirms it. *)
Theorem cleanup_removes_verified (container : ContainerExpectation) (image : ImageCleanupExpectation) :
  emits (A := A) (cleanup_container container) (removal
    (Request_InspectContainer (container_str (ex_id container))) (Request_RemoveContainer (container_str (ex_id container)))
    (fun response => exists c i, response = Response_Container c /\ map_container c = Ok i /\
       expected_container i container /\ in_running i = false)) /\
  emits (A := A) (cleanup_image image) (removal
    (Request_InspectImage (image_str (ie_id image))) (Request_RemoveImage (image_str (ie_id image)))
    (fun response => exists c i, response = Response_Image c /\ map_image c = Ok i /\ ig_id i = ie_id image /\
       labelled (ig_labels i) (ie_identity image) /\ ig_labels i !! GENERATED_IMAGE_LABEL = Some ($"true"))).
Proof.
  split.
  - unfold cleanup_container. eapply emits_handle; [apply inspect_container_spec|..].
    2:{ intros t e [[answer ->] _]. apply emits_raise. exists answer, []. split; [done|by left]. }
    intros t i [_ Hi]. destruct (Hi i eq_refl) as (response & -> & Hm). apply emits_check.
    2:{ intros e He. eexists _, []. split; [done|by left]. }
    intros [] Hv%verify_container_spec. destruct (in_running i) eqn:Hrun.
    { apply emits_raise. eexists _, []. split; [done|by left]. }
    eapply emits_impl; [apply unit_call_spec|]. intros t r (removed & -> & Hr). eexists _, _. split; [done|]. right.
    rewrite (xc_id _ _ Hv). exists (Response_Container response), removed. split_and!; try done. by exists response, i.
  - unfold cleanup_image. eapply emits_handle; [apply inspect_image_spec|..].
    2:{ intros t e [[answer ->] _]. apply emits_raise. exists answer, []. split; [done|by left]. }
    intros t i [_ Hi]. destruct (Hi i eq_refl) as (response & -> & Hm).
    apply emits_check; [|intros e He; eexists _, []; split; [done|by left]]. intros [] Hid%verify_value_Ok.
    apply emits_check; [|intros e He; eexists _, []; split; [done|by left]]. intros [] Hl%verify_identity_labels_Ok.
    apply emits_check; [|intros e He; eexists _, []; split; [done|by left]]. intros [] Hg%verify_label_Ok.
    assert (Him : ig_id i = ie_id image) by (destruct (ig_id i), (ie_id image); cbn in Hid; congruence).
    eapply emits_impl; [apply unit_call_spec|]. intros t r (removed & -> & Hr). eexists _, _. split; [done|]. right.
    rewrite Him. exists (Response_Image response), removed. split_and!; try done. by exists response, i.
Qed.

(** A Compose primary that is verified is the only container of its service. *)
Record primary_verified (x : ComposePrimaryExpectation) (i : ContainerInspection) (found : list DiscoveredContainer) : Prop := mk_primary {
  pv_id : in_id i = pe_id x;
  pv_image : in_image_id i = pe_image_id x;
  pv_labels : labelled (in_labels i) (pe_identity x);
  pv_project : in_labels i !! COMPOSE_PROJECT_LABEL = Some (pe_project x);
  pv_service : in_labels i !! COMPOSE_SERVICE_LABEL = Some (pe_service x);
  pv_running : in_running i = pe_running x;
  pv_only : exists c, List.filter (is_service (pe_project x) (pe_service x)) found = [c] /\ dc_id c = pe_id x;
}.

Lemma discover_containers_spec scope :
  emits (A := A) (discover_containers scope) (fun t r =>
    exists answer, t = [mkCall (Request_ListContainers true (scope_filters scope)) answer] /\
    forall found, r = Ok found -> exists summaries, answer = Ok (Response_Containers summaries) /\ try_map map_summary summaries = Ok found).
Proof.
  unfold discover_containers. eapply emits_handle; [apply (emits_call_docker _ _ (fun t r => exists answer,
    t = [mkCall (Request_ListContainers true (scope_filters scope)) answer] /\ (forall x, r = Ok x -> answer = Ok x)))|..].
  - intros response. eexists. split; [done|]. by intros ? [= <-].
  - intros failure e. by eexists.
  - intros t response (answer & -> & Ha). specialize (Ha _ eq_refl) as ->.
    destruct response; try (apply emits_raise; by eexists; split; [done|]).
    destruct (try_map map_summary containers) as [found|e] eqn:E; cbn [check]; [apply emits_done|apply emits_raise];
      (eexists; split; [done|]); [|done]. intros ? [= <-]. by exists containers.
  - intros t e (answer & -> & _). apply emits_raise. by eexists; split; [done|].
Qed.

(** The claim of Compose is accepted only for the one container of the service with the expected
    identity, in two requests. *)
Theorem compose_primary_is_unique x :
  emits (A := A) (verify_compose_primary x) (fun t r => (length t <= 2)%nat /\
    forall i, r = Ok i -> exists summaries found, try_map map_summary summaries = Ok found /\ primary_verified x i found /\
      t !! 1%nat = Some (mkCall (Request_ListContainers true (scope_filters (mkScope (di_installation (pe_identity x))
        (Some (di_workspace (pe_identity x))) (Some (di_generation (pe_identity x)))))) (Ok (Response_Containers summaries)))).
Proof.
  unfold verify_compose_primary. cbn zeta. eapply emits_handle; [apply inspect_container_spec|..].
  2:{ intros t e [[answer ->] _]. apply emits_raise. split; [cbn; lia|done]. }
  intros t i [_ Hi]. destruct (Hi i eq_refl) as (response & -> & Hm). apply emits_check.
  2:{ intros e He. split; [cbn; lia|done]. }
  intros [] Hv. unfold verify_primary_claim in Hv.
  rewrite !then_Ok, !verify_value_Ok, !verify_label_Ok, verify_identity_labels_Ok, bool_str_inj in Hv.
  destruct Hv as (Hid & Him & Hl & Hp & Hs & Hrun).
  eapply emits_handle; [apply discover_containers_spec|..]; cbn beta.
  2:{ intros t e (answer & -> & _). apply emits_raise. split; [cbn; lia|done]. }
  intros t found (answer & -> & Ha). destruct (Ha found eq_refl) as (summaries & -> & Hfound).
  destruct (List.filter _ found) as [|only [|]] eqn:Ef; try (apply emits_raise; split; [cbn; lia|done]).
  destruct (bool_decide (dc_id only = pe_id x)) eqn:Eo; [|apply emits_raise; split; [cbn; lia|done]].
  apply bool_decide_eq_true in Eo. apply emits_done. split; [cbn; lia|]. intros ? [= <-]. exists summaries, found.
  split; [done|]. split; [|done].
  constructor; [destruct (in_id i), (pe_id x); cbn in *; congruence|destruct (in_image_id i), (pe_image_id x); cbn in *; congruence|done..|].
  by exists only.
Qed.
End safety.

(** ** Correlation *)

Lemma filter_partition {X : Type} (f : X -> bool) l : List.filter f l ++ List.filter (fun x => negb (f x)) l ≡ₚ l.
Proof. induction l as [|x l IH]; cbn; [done|]. destruct (f x); cbn; [by rewrite IH|]. by rewrite <- Permutation_middle, IH. Qed.

(** No match is dropped or chosen: the containers of the workspace are the current and the stale
    ones, and the current ones are the recorded one, if it is there, and the replacements. *)
Theorem correlation_is_complete containers input :
  let c := correlate_one containers input in
  cc_current c ++ cc_stale c ≡ₚ
    List.filter (fun x => bool_decide (dc_labels x !! WORKSPACE_LABEL = Some (name_str (wc_workspace input)))) containers /\
  (forall x, x ∈ cc_external c <-> x ∈ cc_current c /\ wc_recorded input <> Some (dc_id x)) /\
  (cc_recorded_current c = true <-> exists x, x ∈ cc_current c /\ wc_recorded input = Some (dc_id x)).
Proof.
  unfold correlate_one. cbn. split; [apply filter_partition|]. split.
  - intros x. rewrite !list_elem_of_In, !filter_In, negb_true_iff, bool_decide_eq_false. done.
  - rewrite existsb_exists. split; intros (x & Hx & Hr); exists x; rewrite ?list_elem_of_In in *; split;
      try done; [by apply bool_decide_eq_true in Hr|by apply bool_decide_eq_true].
Qed.

Lemma elem_of_range_ports range port :
  port_get (range_start range) <= port_get (range_end range) ->
  port ∈ range_ports range <-> port_get (range_start range) <= port <= port_get (range_end range).
Proof.
  intros Hle. unfold range_ports, width. rewrite list_elem_of_In, in_map_iff. split.
  - intros (i & <- & Hi%in_seq). lia.
  - intros Hp. exists (N.to_nat (port - port_get (range_start range))). split; [lia|]. apply in_seq. lia.
Qed.

(** The bindings of the daemon cover the plan. *)
Lemma port_bindings_match_spec actual plan :
  Forall (fun p => port_get (range_start (pub_container_ports p)) <= port_get (range_end (pub_container_ports p))) (pp_publications plan) ->
  port_bindings_match actual plan = true <->
  Forall (fun p => forall port,
    port_get (range_start (pub_container_ports p)) <= port <= port_get (range_end (pub_container_ports p)) ->
    port_bound actual p port = true) (pp_publications plan).
Proof.
  intros Hwf. unfold port_bindings_match. rewrite forallb_forall, Forall_forall. rewrite Forall_forall in Hwf.
  split; intros H p Hp.
  - apply list_elem_of_In in Hp as Hp'. specialize (H p Hp'). rewrite forallb_forall in H. intros port Hport.
    apply H. apply list_elem_of_In, elem_of_range_ports; [by apply Hwf|done].
  - apply list_elem_of_In in Hp. apply forallb_forall. intros port Hport. apply H; [done|].
    apply elem_of_range_ports; [by apply Hwf|by apply list_elem_of_In].
Qed.
