(* ===== verification/JsonValue.v ===== *)
(** * JsonValue: reading JSON objects and arrays

    What the parsers of profiles and of Feature metadata share: lookups, loops over entries and
    items that stop at the first error, and the canonical form of a value, with the lemmas that
    relate the two. *)

From S2P Require Import Prelude Text Order Profile.

(** [Map::get] *)
Fixpoint get (key : str) (entries : list (str * Json)) : option Json :=
  match entries with
  | [] => None
  | (k, v) :: rest => if str_eqb k key then Some v else get key rest
  end.

(** [Value::as_u64]: the number is written with digits only and fits. *)
Definition as_u64 (value : Json) : option N :=
  match value with
  | Json_Number text => if forallb is_ascii_digit text then parse_uint MAX_U64 text else None
  | _ => None
  end.

(** [value.map(f).transpose()] *)
Definition transpose_map {E A B} (f : A -> result E B) (value : option A) : result E (option B) :=
  match value with Some a => result_map Some (f a) | None => Ok None end.

(** [object.iter().map(f).collect()] into a map *)
Definition collect_map {E B} (f : str -> Json -> result E B) (entries : list (str * Json)) :
    result E (strmap B) :=
  try_fold (fun m '(key, value) => let? b := f key value in Ok (<[key := b]> m)) ∅ entries.

(** [items.iter().enumerate().map(f).collect()] *)
Definition collect_list {E B} (f : N -> Json -> result E B) (items : list Json) :
    result E (list B) :=
  try_map (fun '(index, value) => f index value) (enumerate 0 items).

Definition optionally {A} (P : A -> Prop) (o : option A) : Prop := match o with Some a => P a | None => True end.

(** ** What a successful reading gives *)

(** Runs a chain of [?] and early returns in [H], without unfolding the steps. *)
Ltac binds H :=
  cbn zeta in H;
  repeat (match type of H with
  | match ?m with Ok _ => _ | Err _ => _ end = Ok _ => destruct m eqn:?; [|discriminate H]
  | (if ?b then Err _ else _) = Ok _ => destruct b eqn:?; [discriminate H|]
  end; cbn zeta in H).

Lemma result_map_Ok {E T U} (f : T -> U) (r : result E T) u : result_map f r = Ok u -> exists t, r = Ok t /\ u = f t.
Proof. destruct r; cbn; [|done]. intros [= <-]. eauto. Qed.

Lemma transpose_map_Ok {E A B} (f : A -> result E B) o r :
  transpose_map f o = Ok r -> (o = None /\ r = None) \/ exists a b, o = Some a /\ f a = Ok b /\ r = Some b.
Proof. destruct o as [a|]; cbn; [intros (b & ? & ->)%result_map_Ok; eauto 6|intros [= <-]; auto]. Qed.

Lemma transpose_map_Forall {E A B} (P : B -> Prop) (f : A -> result E B) o r :
  (forall a b, f a = Ok b -> P b) -> transpose_map f o = Ok r -> optionally P r.
Proof.
  intros Hf [[_ ->]|(a & b & _ & H & ->)]%transpose_map_Ok; cbn; eauto.
Qed.

Lemma collect_map_Forall {E B} (P : str -> B -> Prop) (f : str -> Json -> result E B)
    (entries : list (str * Json)) (m : gmap (list N) B) :
  (forall k v b, f k v = Ok b -> P k b) -> collect_map f entries = Ok m -> map_Forall P m.
Proof.
  intros Hf. apply (try_fold_ind (fun m : gmap (list N) B => map_Forall P m)); [|apply map_Forall_empty].
  intros m' [k v] m'' Hm H. run H. apply map_Forall_insert_2; eauto.
Qed.

Lemma collect_list_Forall {E B} (P : B -> Prop) (f : N -> Json -> result E B) (items : list Json) (l : list B) :
  (forall i v b, f i v = Ok b -> P b) -> collect_list f items = Ok l -> Forall P l.
Proof.
  unfold collect_list. rewrite try_map_Forall2. intros Hf. induction 1 as [|[i v] b ? ? H]; constructor; eauto.
Qed.

Lemma collect_list_length {E B} (f : N -> Json -> result E B) (items : list Json) (l : list B) :
  collect_list f items = Ok l -> length l = length items.
Proof.
  intros H%try_map_length. rewrite H. clear. revert items.
  enough (forall i (items : list Json), length (enumerate i items) = length items) by auto.
  intros i items. revert i. induction items; intros i; cbn [enumerate length]; auto.
Qed.

Lemma as_u64_bound value n : as_u64 value = Some n -> n <= MAX_U64.
Proof. unfold as_u64. intros H. run H. by eapply parse_uint_bound. Qed.

(** A loop that only checks its elements checks each of them. *)
Lemma try_fold_checks {E A} (check : A -> result E unit) l u :
  try_fold (fun _ a => check a) u l = Ok tt <-> Forall (fun a => check a = Ok tt) l.
Proof.
  revert u. induction l as [|a l IH]; intros []; cbn [try_fold]; [split; constructor|].
  rewrite Forall_cons. destruct (check a) as [[]|e]; [rewrite IH|]; naive_solver.
Qed.

(** ** Canonical values *)

Definition json_number (n : N) : Json := Json_Number (to_string n).

Definition json_strings (l : list str) : Json := Json_Array (List.map Json_String l).

Definition json_map {B} (r : B -> Json) (m : strmap B) : Json :=
  Json_Object (List.map (fun entry => (fst entry, r (snd entry))) (sorted_entries m)).

(** The object of the fields that have a value. *)
Fixpoint fields_map (fields : list (str * option Json)) : strmap Json :=
  match fields with
  | [] => ∅
  | (key, Some value) :: rest => <[key := value]> (fields_map rest)
  | (_, None) :: rest => fields_map rest
  end.

Definition json_fields (fields : list (str * option Json)) : list (str * Json) := sorted_entries (fields_map fields).

Lemma fields_map_None key fields : key ∉ fields.*1 -> fields_map fields !! key = None.
Proof.
  induction fields as [|[k [v|]] fields IH]; cbn; intros Hk; [apply lookup_empty|..].
  - rewrite lookup_insert_ne by set_solver. set_solver.
  - set_solver.
Qed.

Lemma fields_map_at fields i key value :
  NoDup fields.*1 -> fields !! i = Some (key, value) -> fields_map fields !! key = value.
Proof.
  revert i. induction fields as [|[k v] fields IH]; intros i Hnd Hi; [done|].
  apply NoDup_cons in Hnd as [Hk Hnd]. destruct i as [|i]; cbn in Hi.
  - injection Hi as -> ->. cbn. destruct value; [apply lookup_insert_eq|by apply fields_map_None].
  - assert (key <> k).
    { intros ->. apply Hk, list_elem_of_fmap. exists (k, value). split; [done|]. by eapply list_elem_of_lookup_2. }
    destruct v; cbn; [rewrite lookup_insert_ne by done|]; eauto.
Qed.

Lemma get_NoDup key value (entries : list (str * Json)) :
  NoDup entries.*1 -> (key, value) ∈ entries -> get key entries = Some value.
Proof.
  induction entries as [|[k v] entries IH]; intros Hnd Hin; [by apply not_elem_of_nil in Hin|].
  apply NoDup_cons in Hnd as [Hk Hnd]. cbn. apply elem_of_cons in Hin as [[= <- <-]|Hin]; [by rewrite str_eqb_refl|].
  destruct (str_eqb k key) eqn:He; [|by apply IH]. apply str_eqb_true in He as ->. exfalso.
  apply Hk, list_elem_of_fmap. by exists (key, value).
Qed.

Lemma get_Some_elem key value (entries : list (str * Json)) : get key entries = Some value -> (key, value) ∈ entries.
Proof.
  induction entries as [|[k v] entries IH]; cbn; [done|].
  destruct (str_eqb k key) eqn:He; [|intros ?; right; auto].
  apply str_eqb_true in He as ->. intros [= ->]. by left.
Qed.

Lemma get_sorted_entries (key : str) (m : gmap (list N) Json) : get key (sorted_entries m) = m !! key.
Proof.
  destruct (m !! key) as [v|] eqn:Hm.
  - apply get_NoDup; [apply NoDup_sorted_entries|by apply elem_of_sorted_entries].
  - destruct (get key (sorted_entries m)) as [v|] eqn:Hg; [|done].
    apply get_Some_elem, elem_of_sorted_entries in Hg. by rewrite Hm in Hg.
Qed.

(** The value of a field by its place. *)
Lemma get_at fields i key value :
  NoDup fields.*1 -> fields !! i = Some (key, value) -> get key (json_fields fields) = value.
Proof. intros. unfold json_fields. rewrite get_sorted_entries. by eapply fields_map_at. Qed.

Lemma json_fields_keys fields : Forall (fun entry => fst entry ∈ fields.*1) (json_fields fields).
Proof.
  apply Forall_forall. intros [k v] Hin%elem_of_sorted_entries. cbn.
  destruct (decide (k ∈ fields.*1)) as [|Hn]; [done|]. by rewrite (fields_map_None _ _ Hn) in Hin.
Qed.

Lemma transpose_map_render {E A} (f : Json -> result E A) (r : A -> Json) (o : option A) :
  (forall a, o = Some a -> f (r a) = Ok a) -> transpose_map f (r <$> o) = Ok o.
Proof. intros Hf. destruct o as [a|]; cbn; [|done]. by rewrite Hf. Qed.

Lemma collect_list_render {E B} (f : N -> Json -> result E B) (r : B -> Json) (l : list B) :
  (forall i b, b ∈ l -> f i (r b) = Ok b) -> collect_list f (List.map r l) = Ok l.
Proof.
  intros Hf. unfold collect_list. apply try_map_Forall2. generalize 0.
  induction l as [|b l IH]; intros i; cbn; constructor; [apply Hf; by left|].
  apply IH. intros j b' Hb. apply Hf. by right.
Qed.

Lemma try_fold_map {E A B S} (f : S -> B -> result E S) (g : A -> B) s l :
  try_fold f s (List.map g l) = try_fold (fun s a => f s (g a)) s l.
Proof. revert s. induction l as [|a l IH]; intros s; cbn; [done|]. by destruct (f s (g a)). Qed.

Lemma try_fold_total {E A S} (f : S -> A -> result E S) s l :
  (forall s a, a ∈ l -> exists s', f s a = Ok s') -> exists s', try_fold f s l = Ok s'.
Proof.
  revert s. induction l as [|a l IH]; intros s Hf; cbn; [eauto|].
  destruct (Hf s a) as [s' ->]; [by left|]. apply IH. intros s'' b Hb. apply Hf. by right.
Qed.

(** Reading back the entries of a map gives the map. *)
Lemma collect_map_render {E B} (f : str -> Json -> result E B) (r : B -> Json) (m : gmap (list N) B) :
  map_Forall (fun k b => f k (r b) = Ok b) m ->
  collect_map f (List.map (fun entry => (fst entry, r (snd entry))) (sorted_entries m)) = Ok m.
Proof.
  intros Hf. unfold collect_map. rewrite try_fold_map.
  destruct (try_fold_total (fun (s : gmap (list N) B) (a : str * B) =>
    let? b := f (fst a) (r (snd a)) in Ok (<[fst a := b]> s)) ∅ (sorted_entries m)) as [m' Hm'].
  { intros s [k b] Hin%elem_of_sorted_entries. cbn. rewrite (Hf k b Hin). eauto. }
  cbn. rewrite Hm'. f_equal.
  apply (try_fold_entries _ (fun k a b => f k (r a) = Ok b)) in Hm'.
  - apply map_eq. intros k. specialize (Hm' k). inversion Hm' as [a b Hab Ha Hb|Ha Hb]; [|done].
    symmetry in Ha. rewrite (Hf k a Ha) in Hab. by injection Hab as ->.
  - intros acc k a acc' H. cbn in H. destruct (f k (r a)) as [b|]; [|done]. injection H as <-. eauto.
Qed.

Lemma as_u64_render n : n <= MAX_U64 -> as_u64 (json_number n) = Some n.
Proof.
  intros Hn. unfold as_u64, json_number. destruct (to_string_spec n) as (_ & Hd & _).
  rewrite (proj2 (forallb_Forall _ _) Hd). by apply parse_to_string.
Qed.

Lemma position_all_false {A} (f : A -> bool) l : Forall (fun a => f a = false) l -> position f l = None.
Proof. induction 1 as [|a l Ha _ IH]; cbn; [done|]. by rewrite Ha, IH. Qed.

(** Discharges the lookup of a field of a written object. *)
Ltac decide_here := apply (bool_decide_unpack _); vm_compute; exact I.
Ltac field_at i := apply (get_at _ i); [decide_here|reflexivity].
