(* ===== verification/ProfileValidator.v ===== *)
(** * ProfileValidator: from a JSON document to a profile
    ([cdenv-devcontainer/src/profile.rs])

    The entries of an object are in the order in which [serde_json::Map] iterates, by key.  The
    rendering of a JSON string in a property path and the URL parser of Feature references are
    parameters. *)

From S2P Require Import Prelude Text Order FeatureReference Profile Jsonc JsonValue.

(** ** Errors *)

(** @src cdenv-devcontainer/src/profile.rs:461-474 ProfileErrorKind *)
Inductive ProfileErrorKind : Type :=
| Profile_InvalidType | Profile_MissingProperty | Profile_UnknownProperty | Profile_UnsupportedValue
| Profile_InvalidValue | Profile_ScenarioConflict.

(** @src cdenv-devcontainer/src/profile.rs:479-487 ProfileError *)
Record ProfileError : Type := mkProfileError {
  profile_error_kind : ProfileErrorKind;
  profile_diagnostic : Diagnostic;
  profile_value : option Json;
}.

(** ** Supported properties *)

(** @src cdenv-devcontainer/src/profile.rs:11-82 PROPERTY_FAMILIES *)
Definition PROPERTY_FAMILIES : list (str * list str) :=
  [($"authoring", [$"$schema"; $"name"; $"customizations"; $"secrets"]);
   ($"scenarios", [$"image"; $"build"; $"dockerComposeFile"; $"service"; $"runServices"]);
   ($"workspace", [$"workspaceFolder"; $"workspaceMount"; $"mounts"]);
   ($"features", [$"features"; $"overrideFeatureInstallOrder"]);
   ($"environment-and-users", [$"containerEnv"; $"remoteEnv"; $"containerUser"; $"remoteUser";
      $"updateRemoteUserUID"; $"userEnvProbe"]);
   ($"container-runtime", [$"overrideCommand"; $"init"; $"privileged"; $"capAdd"; $"securityOpt"; $"runArgs"]);
   ($"ports", [$"appPort"; $"forwardPorts"; $"portsAttributes"; $"otherPortsAttributes"]);
   ($"lifecycle", [$"initializeCommand"; $"onCreateCommand"; $"updateContentCommand"; $"postCreateCommand";
      $"postStartCommand"; $"postAttachCommand"; $"waitFor"; $"shutdownAction"]);
   ($"host-requirements", [$"hostRequirements"])].

(** The properties of every family. *)
Definition supported_properties : list str := concat (List.map snd PROPERTY_FAMILIES).

(** ** JSON values *)

(** @src cdenv-devcontainer/src/profile.rs:1524-1530 valid_env_name *)
Definition valid_env_name (name : str) : bool :=
  match name with
  | c :: rest =>
      ((c =? 95) || is_ascii_alphabetic c) && forallb (fun c => (c =? 95) || is_ascii_alphanumeric c) rest
  | [] => false
  end.

(** @src cdenv-devcontainer/src/profile.rs:1521-1523 index_path *)
Definition index_path (parent : str) (index : N) : str := parent ++ $"[" ++ to_string index ++ $"]".

Section validator.
Context (json_string : str -> str) (Url_parse : str -> result str FeatureUrl) (document : RawDocument).

(** @src cdenv-devcontainer/src/profile.rs:1518-1520 keyed *)
Definition keyed (parent key : str) : str := parent ++ $"[" ++ json_string key ++ $"]".

(** @src cdenv-devcontainer/src/profile.rs:1511-1517 path *)
Definition path (parent key : str) : str :=
  if forallb (fun c => (c =? 95) || is_ascii_alphanumeric c) key && negb (bool_decide (key = []))
  then parent ++ $"." ++ key else keyed parent key.

(** @src cdenv-devcontainer/src/profile.rs:1484-1508 Validator::error *)
Definition error (kind : ProfileErrorKind) (p : str) (value : option Json) (message : str) : ProfileError :=
  let span (q : str) := doc_property_spans document !! q in
  mkProfileError kind
    (mkDiagnostic (doc_path document) p
       match span p with
       | Some s => s
       | None => default (mkSpan 0 0 1 1) (span ($"$"))
       end message) value.

(** @src cdenv-devcontainer/src/profile.rs:1475-1477 Validator::type_error *)
Definition type_error (p : str) (value : Json) (message : str) : ProfileError :=
  error Profile_InvalidType p (Some value) message.
(** @src cdenv-devcontainer/src/profile.rs:1478-1480 Validator::invalid *)
Definition invalid (p : str) (value : Json) (message : str) : ProfileError :=
  error Profile_InvalidValue p (Some value) message.
(** @src cdenv-devcontainer/src/profile.rs:1481-1483 Validator::unsupported *)
Definition unsupported_value (p : str) (value : Json) (message : str) : ProfileError :=
  error Profile_UnsupportedValue p (Some value) message.

(** @src cdenv-devcontainer/src/profile.rs:1244-1252 Validator::object *)
Definition object (value : Json) (p : str) : result ProfileError (list (str * Json)) :=
  match value with Json_Object entries => Ok entries | _ => Err (type_error p value ($"expected an object")) end.
(** @src cdenv-devcontainer/src/profile.rs:1253-1257 Validator::array *)
Definition array (value : Json) (p : str) : result ProfileError (list Json) :=
  match value with Json_Array items => Ok items | _ => Err (type_error p value ($"expected an array")) end.
(** @src cdenv-devcontainer/src/profile.rs:1258-1263 Validator::string *)
Definition string (value : Json) (p : str) : result ProfileError str :=
  match value with Json_String s => Ok s | _ => Err (type_error p value ($"expected a string")) end.

(** @src cdenv-devcontainer/src/profile.rs:1208-1225 Validator::reject_unknown *)
Definition reject_unknown (entries : list (str * Json)) (parent : str) (allowed : list str) :
    result ProfileError unit :=
  try_fold (fun _ '(key, value) =>
    if bool_decide (key ∈ allowed) then Ok tt
    else Err (error Profile_UnknownProperty (path parent key) (Some value) ($"unknown behavioral property"))) tt entries.

(** @src cdenv-devcontainer/src/profile.rs:1226-1243 Validator::reject_present *)
Definition reject_present (root : list (str * Json)) (names : list str) (message : str) : result ProfileError unit :=
  try_fold (fun _ name =>
    match get name root with
    | Some value => Err (error Profile_UnsupportedValue (path ($"$") name) (Some value) message)
    | None => Ok tt
    end) tt names.

(** @src cdenv-devcontainer/src/profile.rs:1271-1281 Validator::optional_string_at *)
Definition optional_string_at (entries : list (str * Json)) (parent key : str) : result ProfileError (option str) :=
  transpose_map (fun value => string value (path parent key)) (get key entries).
(** @src cdenv-devcontainer/src/profile.rs:1264-1270 Validator::optional_string *)
Definition optional_string (entries : list (str * Json)) (key : str) : result ProfileError (option str) :=
  optional_string_at entries ($"$") key.

(** @src cdenv-devcontainer/src/profile.rs:1282-1310 Validator::required_string *)
Definition required_string (entries : list (str * Json)) (parent key : str) : result ProfileError str :=
  let? value := ok_or (error Profile_MissingProperty (path parent key) None ($"required property is missing"))
    (get key entries) in
  let? value := string value (path parent key) in
  if bool_decide (value = []) then Err (invalid (path parent key) (Json_String value) ($"value must not be empty"))
  else Ok value.

(** @src cdenv-devcontainer/src/profile.rs:1318-1332 Validator::optional_bool_at *)
Definition optional_bool_at (entries : list (str * Json)) (parent key : str) : result ProfileError (option bool) :=
  transpose_map (fun value => match value with
    | Json_Bool b => Ok b
    | _ => Err (type_error (path parent key) value ($"expected a boolean"))
    end) (get key entries).
(** @src cdenv-devcontainer/src/profile.rs:1311-1317 Validator::optional_bool *)
Definition optional_bool (entries : list (str * Json)) (key : str) : result ProfileError (option bool) :=
  optional_bool_at entries ($"$") key.

(** @src cdenv-devcontainer/src/profile.rs:1333-1347 Validator::string_array *)
Definition string_array (value : option Json) (p : str) : result ProfileError (option (list str)) :=
  transpose_map (fun value =>
    let? items := array value p in
    collect_list (fun i value => string value (index_path p i)) items) value.

(** @src cdenv-devcontainer/src/profile.rs:1348-1358 Validator::one_or_many_strings *)
Definition one_or_many_strings (value : Json) (p : str) : result ProfileError (list str) :=
  match value with
  | Json_String s => Ok [s]
  | Json_Array items => collect_list (fun index value => string value (index_path p index)) items
  | _ => Err (type_error p value ($"expected a string or string array"))
  end.

(** @src cdenv-devcontainer/src/profile.rs:1359-1364 Validator::string_or_array *)
Definition string_or_array (value : option Json) (p : str) : result ProfileError (list str) :=
  result_map (default []) (transpose_map (fun value => one_or_many_strings value p) value).

(** @src cdenv-devcontainer/src/profile.rs:1365-1378 Validator::string_map *)
Definition string_map (value : option Json) (p : str) : result ProfileError (strmap (list N)) :=
  match value with
  | None => Ok ∅
  | Some value =>
      let? entries := object value p in
      collect_map (fun key value => string value (keyed p key)) entries
  end.

(** @src cdenv-devcontainer/src/profile.rs:1379-1397 Validator::nullable_string_map *)
Definition nullable_string_map (value : option Json) (p : str) : result ProfileError (strmap (option (list N))) :=
  match value with
  | None => Ok ∅
  | Some value =>
      let? entries := object value p in
      collect_map (fun key value => match value with
        | Json_Null => Ok None
        | _ => result_map Some (string value (keyed p key))
        end) entries
  end.

(** @src cdenv-devcontainer/src/profile.rs:1407-1430 Validator::enum_optional_at *)
Definition enum_optional_at {T} (entries : list (str * Json)) (parent key : str) (allowed : list str)
    (map : str -> T) : result ProfileError (option T) :=
  match get key entries with
  | None => Ok None
  | Some value =>
      let p := path parent key in
      let? text := match value with Json_String s => Ok s | _ => Err (type_error p value ($"expected a string")) end in
      if bool_decide (text ∈ allowed) then Ok (Some (map text))
      else Err (unsupported_value p value ($"supported values are " ++ join ($", ") allowed))
  end.
(** @src cdenv-devcontainer/src/profile.rs:1398-1406 Validator::enum_optional *)
Definition enum_optional {T} (entries : list (str * Json)) (key : str) (allowed : list str) (map : str -> T) :
    result ProfileError (option T) := enum_optional_at entries ($"$") key allowed map.

(** @src cdenv-devcontainer/src/profile.rs:1431-1437 Validator::port_number *)
Definition port_number (value : Json) (p : str) : result ProfileError N :=
  match as_u64 value with
  | Some v => if (v <=? MAX_U16) && (0 <? v) then Ok v
              else Err (invalid p value ($"port must be an integer between 1 and 65535"))
  | None => Err (invalid p value ($"port must be an integer between 1 and 65535"))
  end.

(** @src cdenv-devcontainer/src/profile.rs:1438-1451 Validator::positive_integer *)
Definition positive_integer (value : option Json) (p : str) : result ProfileError (option N) :=
  transpose_map (fun value => match as_u64 value with
    | Some v => if 0 <? v then Ok v else Err (invalid p value ($"value must be a positive integer"))
    | None => Err (invalid p value ($"value must be a positive integer"))
    end) value.

(** [digits] counts the leading bytes that are digits, which are its leading characters.
    @src cdenv-devcontainer/src/profile.rs:1452-1474 Validator::byte_requirement *)
Definition byte_requirement (value : option Json) (p : str) : result ProfileError (option str) :=
  transpose_map (fun value =>
    let? text := match value with
      | Json_String s => Ok s
      | _ => Err (type_error p value ($"expected a byte-size string"))
      end in
    let digits := take_while is_ascii_digit text in
    let suffix := drop_while is_ascii_digit text in
    if bool_decide (digits = []) || negb (bool_decide (suffix ∈ [[]; $"kb"; $"mb"; $"gb"; $"tb"]))
    then Err (invalid p value ($"byte size must match digits followed by optional kb, mb, gb, or tb"))
    else Ok text) value.

(** ** Parts of a profile *)

(** @src cdenv-devcontainer/src/profile.rs:865-878 Validator::feature_source *)
Definition feature_source_of (reference property_path : str) (value : Json) : result ProfileError FeatureSource :=
  match FeatureReference_parse Url_parse reference with
  | Ok (Ref_Oci value) => Ok (Source_Oci value)
  | Ok (Ref_Https value) => Ok (Source_Https value)
  | Ok (Ref_Local value) => Ok (Source_Local value)
  | Err e => Err (unsupported_value property_path value
      ($"unsupported Feature reference `" ++ unsupported_reference e ++ $"`: " ++ unsupported_reason e))
  end.

(** @src cdenv-devcontainer/src/profile.rs:840-852 Validator::features *)
Definition feature_option (feature_path name : str) (value : Json) : result ProfileError FeatureOptionValue :=
  match value with
  | Json_Bool b => Ok (Option_Boolean b)
  | Json_String s => Ok (Option_String s)
  | _ => Err (type_error (path feature_path name) value ($"Feature option must be a boolean or string"))
  end.

(** @src cdenv-devcontainer/src/profile.rs:825-863 Validator::features *)
Definition features_of (value : option Json) : result ProfileError (strmap RawFeature) :=
  match value with
  | None => Ok ∅
  | Some value =>
      let? entries := object value ($"$.features") in
      collect_map (fun reference options =>
        let feature_path := keyed ($"$.features") reference in
        let? source := feature_source_of reference feature_path options in
        let? options_object := object options feature_path in
        let? typed := collect_map (feature_option feature_path) options_object in
        Ok (mkRawFeature source typed)) entries
  end.

(** One mount. @src cdenv-devcontainer/src/profile.rs:886-921 Validator::mounts *)
Definition mount_of (index : N) (item : Json) : result ProfileError RawMount :=
  let p := index_path ($"$.mounts") index in
  match item with
  | Json_String value => Ok (RawMount_String value)
  | Json_Object entries =>
      let? _ := reject_unknown entries p [$"type"; $"source"; $"target"] in
      let? kind_value := ok_or (error Profile_MissingProperty (path p ($"type")) None
        ($"required property is missing")) (get ($"type") entries) in
      let? text := string kind_value (path p ($"type")) in
      let? kind := if str_eqb text ($"bind") then Ok Mount_Bind
        else if str_eqb text ($"volume") then Ok Mount_Volume
        else Err (unsupported_value (path p ($"type")) kind_value ($"supported mount types are `bind` and `volume`")) in
      let? source := optional_string_at entries p ($"source") in
      let? target := required_string entries p ($"target") in
      Ok (RawMount_Object kind source target)
  | _ => Err (type_error p item ($"mount must be a string or object"))
  end.

(** @src cdenv-devcontainer/src/profile.rs:880-923 Validator::mounts *)
Definition mounts_of (value : option Json) : result ProfileError (list RawMount) :=
  match value with
  | None => Ok []
  | Some value => let? items := array value ($"$.mounts") in collect_list mount_of items
  end.

(** @src cdenv-devcontainer/src/profile.rs:925-948 Validator::app_ports *)
Definition app_ports_of (value : option Json) : result ProfileError (list AppPort) :=
  match value with
  | None => Ok []
  | Some value =>
      let values := match value with Json_Array values => values | _ => [value] end in
      let many := match doc_value document with
        | Json_Object root => match get ($"appPort") root with Some (Json_Array _) => true | _ => false end
        | _ => false
        end in
      collect_list (fun i value =>
        let p := if many then index_path ($"$.appPort") i else $"$.appPort" in
        match value with
        | Json_String s => Ok (AppPort_DockerArgument s)
        | _ => result_map AppPort_Number (port_number value p)
        end) values
  end.

(** @src cdenv-devcontainer/src/profile.rs:958-981 Validator::forward_ports *)
Definition forward_port_of (p : str) (value : Json) : result ProfileError ForwardPort :=
  match value with
  | Json_String text =>
      let? (service, port) := ok_or (invalid p value ($"forward port must use `service:port`")) (rsplit_once 58 text) in
      fail_if bool_decide (service = [])
              || negb (forallb (fun c => is_ascii_lowercase c || is_ascii_digit c || (c =? 45)) service)
        with invalid p value ($"invalid Compose service port reference") in
      match parse_uint MAX_U16 port with
      | Some port =>
          if 0 <? port then Ok (ForwardPort_Service service port)
          else Err (invalid p value ($"port must be between 1 and 65535"))
      | None => Err (invalid p value ($"port must be between 1 and 65535"))
      end
  | _ => result_map ForwardPort_Container (port_number value p)
  end.

Definition forward_port_number (f : ForwardPort) : N :=
  match f with ForwardPort_Container port | ForwardPort_Service _ port => port end.

(** The loop body. @src cdenv-devcontainer/src/profile.rs:956-993 Validator::forward_ports *)
Definition forward_ports_step (acc : list ForwardPort * gset N) (entry : N * Json) :
    result ProfileError (list ForwardPort * gset N) :=
  let '(result, requested_ports) := acc in
  let '(i, value) := entry in
  let p := index_path ($"$.forwardPorts") i in
  let? forward := forward_port_of p value in
  fail_if bool_decide (forward_port_number forward ∈ requested_ports)
    with invalid p value ($"multiple forwards cannot request the same local port") in
  Ok (result ++ [forward], {[forward_port_number forward]} ∪ requested_ports).

(** @src cdenv-devcontainer/src/profile.rs:950-994 Validator::forward_ports *)
Definition forward_ports_of (value : option Json) : result ProfileError (list ForwardPort) :=
  match value with
  | None => Ok []
  | Some value =>
      let? items := array value ($"$.forwardPorts") in
      result_map fst (try_fold forward_ports_step ([], ∅) (enumerate 0 items))
  end.

(** @src cdenv-devcontainer/src/profile.rs:1046-1053 Validator::port_attributes *)
Definition action_of (value : str) : AutoForwardAction :=
  if str_eqb value ($"notify") then Auto_Notify
  else if str_eqb value ($"openBrowser") then Auto_OpenBrowser
  else if str_eqb value ($"openBrowserOnce") then Auto_OpenBrowserOnce
  else if str_eqb value ($"openPreview") then Auto_OpenPreview
  else if str_eqb value ($"silent") then Auto_Silent
  else Auto_Ignore.

(** @src cdenv-devcontainer/src/profile.rs:1014-1070 Validator::port_attributes *)
Definition port_attributes_of (value : Json) (p : str) (allow_once : bool) : result ProfileError PortAttributes :=
  let? entries := object value p in
  let? _ := reject_unknown entries p
    [$"onAutoForward"; $"elevateIfNeeded"; $"label"; $"requireLocalPort"; $"protocol"] in
  let action_values :=
    if allow_once
    then [$"notify"; $"openBrowser"; $"openBrowserOnce"; $"openPreview"; $"silent"; $"ignore"]
    else [$"notify"; $"openBrowser"; $"openPreview"; $"silent"; $"ignore"] in
  let? on_auto_forward := enum_optional_at entries p ($"onAutoForward") action_values action_of in
  let? elevate_if_needed := optional_bool_at entries p ($"elevateIfNeeded") in
  let? label := optional_string_at entries p ($"label") in
  let? require_local_port := optional_bool_at entries p ($"requireLocalPort") in
  let? protocol := enum_optional_at entries p ($"protocol") [$"http"; $"https"]
    (fun v => if str_eqb v ($"http") then Protocol_Http else Protocol_Https) in
  Ok (mkPortAttributes on_auto_forward elevate_if_needed label require_local_port protocol).

(** @src cdenv-devcontainer/src/profile.rs:996-1013 Validator::port_attributes_map *)
Definition port_attributes_map (value : option Json) (p : str) : result ProfileError (strmap PortAttributes) :=
  match value with
  | None => Ok ∅
  | Some value =>
      let? entries := object value p in
      collect_map (fun key value => port_attributes_of value (keyed p key) true) entries
  end.

(** @src cdenv-devcontainer/src/profile.rs:1106-1116 Validator::command_array *)
Definition command_array (value : Json) (p : str) : result ProfileError (list str) :=
  let? values := array value p in
  fail_if bool_decide (values = []) with invalid p value ($"direct command must not be empty") in
  collect_list (fun i value => string value (index_path p i)) values.

(** One command of a group. @src cdenv-devcontainer/src/profile.rs:1079-1095 Validator::command *)
Definition parallel_step (p : str) (commands : list (str * CommandValue)) (entry : str * Json) :
    result ProfileError (list (str * CommandValue)) :=
  let '(key, value) := entry in
  let child := keyed p key in
  let? command := match value with
    | Json_String s => Ok (Command_Shell s)
    | Json_Array _ => result_map Command_Exec (command_array value child)
    | _ => Err (type_error child value ($"parallel command must be a string or string array"))
    end in
  Ok (commands ++ [(key, command)]).

(** @src cdenv-devcontainer/src/profile.rs:1072-1105 Validator::command *)
Definition command_of (value : option Json) (p : str) : result ProfileError (option RawCommand) :=
  transpose_map (fun value => match value with
    | Json_String s => Ok (RawCommand_Shell s)
    | Json_Array _ => result_map RawCommand_Exec (command_array value p)
    | Json_Object entries => result_map RawCommand_Parallel (try_fold (parallel_step p) [] entries)
    | _ => Err (type_error p value ($"command must be a string, string array, or object"))
    end) value.

(** @src cdenv-devcontainer/src/profile.rs:1133-1153 Validator::gpu *)
Definition gpu_of (value : Json) : result ProfileError GpuRequirement :=
  let otherwise := Err (unsupported_value ($"$.hostRequirements.gpu") value
    ($"GPU must be true, false, `optional`, or a detailed requirement")) in
  match value with
  | Json_Bool true => Ok Gpu_Required
  | Json_Bool false => Ok Gpu_NotRequired
  | Json_String v => if str_eqb v ($"optional") then Ok Gpu_Optional else otherwise
  | Json_Object entries =>
      let? _ := reject_unknown entries ($"$.hostRequirements.gpu") [$"cores"; $"memory"] in
      let? cores := positive_integer (get ($"cores") entries) ($"$.hostRequirements.gpu.cores") in
      let? memory := byte_requirement (get ($"memory") entries) ($"$.hostRequirements.gpu.memory") in
      Ok (Gpu_Detailed cores memory)
  | _ => otherwise
  end.

(** @src cdenv-devcontainer/src/profile.rs:1118-1132 Validator::host_requirements *)
Definition host_requirements_of (value : Json) : result ProfileError HostRequirements :=
  let p := $"$.hostRequirements" in
  let? entries := object value p in
  let? _ := reject_unknown entries p [$"cpus"; $"memory"; $"storage"; $"gpu"] in
  let? cpus := positive_integer (get ($"cpus") entries) ($"$.hostRequirements.cpus") in
  let? memory := byte_requirement (get ($"memory") entries) ($"$.hostRequirements.memory") in
  let? storage := byte_requirement (get ($"storage") entries) ($"$.hostRequirements.storage") in
  let? gpu := transpose_map gpu_of (get ($"gpu") entries) in
  Ok (mkHostRequirements cpus memory storage gpu).

(** @src cdenv-devcontainer/src/profile.rs:1155-1176 Validator::customizations *)
Definition customizations_of (value : option Json) : result ProfileError (strmap Json) :=
  match value with
  | None => Ok ∅
  | Some value =>
      let? entries := object value ($"$.customizations") in
      collect_map (fun tool value => match value with
        | Json_Object _ => Ok value
        | _ => Err (type_error (keyed ($"$.customizations") tool) value ($"tool customization must be an object"))
        end) entries
  end.

(** @src cdenv-devcontainer/src/profile.rs:1186-1203 Validator::secrets *)
Definition secret_of (name : str) (value : Json) : result ProfileError SecretMetadata :=
  let p := keyed ($"$.secrets") name in
  fail_if negb (valid_env_name name)
    with invalid p (Json_String name) ($"secret name must be an environment variable name") in
  let? metadata := object value p in
  let? _ := reject_unknown metadata p [$"description"; $"documentationUrl"] in
  let? description := optional_string_at metadata p ($"description") in
  let? documentation_url := optional_string_at metadata p ($"documentationUrl") in
  Ok (mkSecretMetadata description documentation_url).

(** @src cdenv-devcontainer/src/profile.rs:1177-1206 Validator::secrets *)
Definition secrets_of (value : option Json) : result ProfileError (strmap SecretMetadata) :=
  match value with
  | None => Ok ∅
  | Some value => let? entries := object value ($"$.secrets") in collect_map secret_of entries
  end.

(** ** Scenarios *)

(** @src cdenv-devcontainer/src/profile.rs:709-734 Validator::build *)
Definition build_of (value : Json) : result ProfileError RawBuild :=
  let? entries := object value ($"$.build") in
  let? _ := reject_unknown entries ($"$.build")
    [$"dockerfile"; $"context"; $"target"; $"args"; $"cacheFrom"; $"options"] in
  let? dockerfile := required_string entries ($"$.build") ($"dockerfile") in
  let? context := optional_string_at entries ($"$.build") ($"context") in
  let? target := optional_string_at entries ($"$.build") ($"target") in
  let? args := string_map (get ($"args") entries) ($"$.build.args") in
  let? cache_from := string_or_array (get ($"cacheFrom") entries) ($"$.build.cacheFrom") in
  let? options := string_array (get ($"options") entries) ($"$.build.options") in
  Ok (mkRawBuild dockerfile context target args cache_from (default [] options)).

(** @src cdenv-devcontainer/src/profile.rs:736-758 Validator::non_compose *)
Definition non_compose (root : list (str * Json)) : result ProfileError NonComposeOptions :=
  let? shutdown := enum_optional root ($"shutdownAction") [$"none"; $"stopContainer"]
    (fun value => if str_eqb value ($"none") then Shutdown_None else Shutdown_StopContainer) in
  let? folder := optional_string root ($"workspaceFolder") in
  let? mount := optional_string root ($"workspaceMount") in
  let? args := string_array (get ($"runArgs") root) ($"$.runArgs") in
  let? override := optional_bool root ($"overrideCommand") in
  Ok (mkNonComposeOptions folder mount (default [] args) shutdown override).

(** @src cdenv-devcontainer/src/profile.rs:760-808 Validator::compose *)
Definition compose_of (root : list (str * Json)) (files : Json) : result ProfileError ComposeScenario :=
  let? files := one_or_many_strings files ($"$.dockerComposeFile") in
  fail_if bool_decide (files = [])
    with invalid ($"$.dockerComposeFile") (Json_Array []) ($"at least one Compose file is required") in
  let? _ := match position (fun file => bool_decide (file = [])) files with
    | Some index => Err (invalid (index_path ($"$.dockerComposeFile") (N.of_nat index)) (Json_String [])
        ($"Compose file must not be empty"))
    | None => Ok tt
    end in
  let? service := required_string root ($"$") ($"service") in
  let? workspace_folder := required_string root ($"$") ($"workspaceFolder") in
  let? run_services := string_array (get ($"runServices") root) ($"$.runServices") in
  fail_if bool_decide (run_services = Some [])
    with invalid ($"$.runServices") (Json_Array []) ($"at least one run service is required when present") in
  let? shutdown := enum_optional root ($"shutdownAction") [$"none"; $"stopCompose"]
    (fun value => if str_eqb value ($"none") then Shutdown_None else Shutdown_StopCompose) in
  let? override := optional_bool root ($"overrideCommand") in
  Ok (mkComposeScenario files service run_services workspace_folder shutdown override).

(** @src cdenv-devcontainer/src/profile.rs:810-816 Validator::reject_compose_only *)
Definition reject_compose_only (root : list (str * Json)) : result ProfileError unit :=
  reject_present root [$"service"; $"runServices"] ($"property is only valid for a Compose scenario").
(** @src cdenv-devcontainer/src/profile.rs:817-823 Validator::reject_non_compose_only *)
Definition reject_non_compose_only (root : list (str * Json)) : result ProfileError unit :=
  reject_present root [$"workspaceMount"; $"runArgs"] ($"property is not supported for a Compose scenario").

(** @src cdenv-devcontainer/src/profile.rs:640-651 Validator::common *)
Definition probe_of (value : str) : UserEnvProbe :=
  if str_eqb value ($"none") then Probe_None
  else if str_eqb value ($"loginShell") then Probe_LoginShell
  else if str_eqb value ($"loginInteractiveShell") then Probe_LoginInteractiveShell
  else Probe_InteractiveShell.

(** @src cdenv-devcontainer/src/profile.rs:693-699 Validator::common *)
Definition wait_for_of (value : str) : WaitFor :=
  if str_eqb value ($"initializeCommand") then WaitFor_Initialize
  else if str_eqb value ($"onCreateCommand") then WaitFor_OnCreate
  else if str_eqb value ($"updateContentCommand") then WaitFor_UpdateContent
  else if str_eqb value ($"postCreateCommand") then WaitFor_PostCreate
  else WaitFor_PostStart.

(** @src cdenv-devcontainer/src/profile.rs:676-684 Validator::common *)
Definition lifecycle_of (root : list (str * Json)) : result ProfileError LifecycleCommands :=
  let? initialize := command_of (get ($"initializeCommand") root) ($"$.initializeCommand") in
  let? on_create := command_of (get ($"onCreateCommand") root) ($"$.onCreateCommand") in
  let? update_content := command_of (get ($"updateContentCommand") root) ($"$.updateContentCommand") in
  let? post_create := command_of (get ($"postCreateCommand") root) ($"$.postCreateCommand") in
  let? post_start := command_of (get ($"postStartCommand") root) ($"$.postStartCommand") in
  let? post_attach := command_of (get ($"postAttachCommand") root) ($"$.postAttachCommand") in
  Ok (mkLifecycleCommands initialize on_create update_content post_create post_start post_attach).

(** @src cdenv-devcontainer/src/profile.rs:626-707 Validator::common *)
Definition common_of (root : list (str * Json)) : result ProfileError RawCommon :=
  let? features := features_of (get ($"features") root) in
  let? order := string_array (get ($"overrideFeatureInstallOrder") root) ($"$.overrideFeatureInstallOrder") in
  let? container_env := string_map (get ($"containerEnv") root) ($"$.containerEnv") in
  let? remote_env := nullable_string_map (get ($"remoteEnv") root) ($"$.remoteEnv") in
  let? container_user := optional_string root ($"containerUser") in
  let? remote_user := optional_string root ($"remoteUser") in
  let? update_uid := optional_bool root ($"updateRemoteUserUID") in
  let? probe := enum_optional root ($"userEnvProbe")
    [$"none"; $"loginShell"; $"loginInteractiveShell"; $"interactiveShell"] probe_of in
  let? init := optional_bool root ($"init") in
  let? privileged := optional_bool root ($"privileged") in
  let? cap_add := string_array (get ($"capAdd") root) ($"$.capAdd") in
  let? security_opt := string_array (get ($"securityOpt") root) ($"$.securityOpt") in
  let? mounts := mounts_of (get ($"mounts") root) in
  let? app_ports := app_ports_of (get ($"appPort") root) in
  let? forward_ports := forward_ports_of (get ($"forwardPorts") root) in
  let? attributes := port_attributes_map (get ($"portsAttributes") root) ($"$.portsAttributes") in
  let? other := transpose_map (fun value => port_attributes_of value ($"$.otherPortsAttributes") false)
    (get ($"otherPortsAttributes") root) in
  let? lifecycle := lifecycle_of root in
  let? wait_for := enum_optional root ($"waitFor")
    [$"initializeCommand"; $"onCreateCommand"; $"updateContentCommand"; $"postCreateCommand"; $"postStartCommand"]
    wait_for_of in
  let? requirements := transpose_map host_requirements_of (get ($"hostRequirements") root) in
  let? customizations := customizations_of (get ($"customizations") root) in
  let? secrets := secrets_of (get ($"secrets") root) in
  Ok (mkRawCommon features (default [] order) container_env remote_env container_user remote_user update_uid probe
        init privileged (default [] cap_add) (default [] security_opt) mounts app_ports forward_ports attributes other
        lifecycle wait_for requirements customizations secrets).

(** ** The validator *)

(** One key of the first loop. @src cdenv-devcontainer/src/profile.rs:562-575 Validator::validate *)
Definition check_property (entry : str * Json) : result ProfileError unit :=
  let '(key, value) := entry in
  if existsb (fun family => bool_decide (key ∈ snd family)) PROPERTY_FAMILIES then Ok tt
  else if bool_decide (key ∈ [$"dockerFile"; $"context"]) then
    Err (error Profile_UnsupportedValue (path ($"$") key) (Some value)
      ($"deprecated top-level Dockerfile form is unsupported; use `build.dockerfile`"))
  else Err (error Profile_UnknownProperty (path ($"$") key) (Some value)
      ($"unknown top-level behavioral property")).

(** The first loop. @src cdenv-devcontainer/src/profile.rs:562-575 Validator::validate *)
Definition check_properties_supported (root : list (str * Json)) : result ProfileError unit :=
  try_fold (fun _ => check_property) tt root.

(** The scenario. @src cdenv-devcontainer/src/profile.rs:593-617 Validator::validate *)
Definition scenario_of (root : list (str * Json)) : result ProfileError RawScenario :=
  let image := get ($"image") root in
  let build := get ($"build") root in
  let compose := get ($"dockerComposeFile") root in
  if is_Some_b image then
    let? _ := reject_compose_only root in
    let? image := required_string root ($"$") ($"image") in
    let? options := non_compose root in
    Ok (Scenario_Image (mkImageScenario image options))
  else match build with
  | Some value =>
      let? _ := reject_compose_only root in
      let? build := build_of value in
      let? options := non_compose root in
      Ok (Scenario_Dockerfile (mkDockerfileScenario build options))
  | None =>
      let? _ := reject_non_compose_only root in
      let? compose := ok_or (error Profile_ScenarioConflict ($"$.dockerComposeFile") None
        ($"Compose scenario selection is missing")) compose in
      let? compose := compose_of root compose in
      Ok (Scenario_Compose compose)
  end.

(** @src cdenv-devcontainer/src/profile.rs:560-624 Validator::validate *)
Definition validate : result ProfileError RawProfile :=
  let? root := object (doc_value document) ($"$") in
  let? _ := check_properties_supported root in
  let image := get ($"image") root in
  let build := get ($"build") root in
  let compose := get ($"dockerComposeFile") root in
  let selected := (if is_Some_b image then 1 else 0) + (if is_Some_b build then 1 else 0)
                  + (if is_Some_b compose then 1 else 0) in
  fail_if negb (selected =? 1)
    with error Profile_ScenarioConflict ($"$") (Some (doc_value document))
      ($"exactly one of `image`, `build`, or `dockerComposeFile` is required") in
  let? schema_uri := optional_string root ($"$schema") in
  let? name := optional_string root ($"name") in
  let? common := common_of root in
  let? scenario := scenario_of root in
  Ok (mkRawProfile schema_uri name scenario common).

(** @src cdenv-devcontainer/src/profile.rs:551-553 validate_profile *)
Definition validate_profile : result ProfileError RawProfile := validate.

(** ** Well-formed profiles

    What every consumer of a profile may rely on: the conditions the validator enforces, stated on
    the data. *)

Definition wf_port (port : N) : Prop := 0 < port <= MAX_U16.

Definition wf_byte_size (text : str) : Prop :=
  take_while is_ascii_digit text <> [] /\
  drop_while is_ascii_digit text ∈ [[]; $"kb"; $"mb"; $"gb"; $"tb"].

Definition source_of (reference : FeatureReference) : FeatureSource :=
  match reference with
  | Ref_Oci value => Source_Oci value
  | Ref_Https value => Source_Https value
  | Ref_Local value => Source_Local value
  end.

Definition wf_feature (reference : str) (feature : RawFeature) : Prop :=
  exists parsed, FeatureReference_parse Url_parse reference = Ok parsed /\ feature_source feature = source_of parsed.

Definition wf_mount (mount : RawMount) : Prop :=
  match mount with RawMount_String _ => True | RawMount_Object _ _ target => target <> [] end.

Definition wf_app_port (port : AppPort) : Prop :=
  match port with AppPort_Number port => wf_port port | AppPort_DockerArgument _ => True end.

Definition service_char (c : char) : bool := is_ascii_lowercase c || is_ascii_digit c || (c =? 45).

Definition wf_forward (forward : ForwardPort) : Prop :=
  wf_port (forward_port_number forward) /\
  match forward with
  | ForwardPort_Container _ => True
  | ForwardPort_Service service _ => service <> [] /\ forallb service_char service = true
  end.

Definition wf_command_value (command : CommandValue) : Prop :=
  match command with Command_Shell _ => True | Command_Exec args => args <> [] end.

Definition wf_command (command : RawCommand) : Prop :=
  match command with
  | RawCommand_Shell _ => True
  | RawCommand_Exec args => args <> []
  | RawCommand_Parallel commands => Forall (fun entry => wf_command_value (snd entry)) commands
  end.

Definition wf_positive (value : N) : Prop := 0 < value <= MAX_U64.

Definition wf_gpu (gpu : GpuRequirement) : Prop :=
  match gpu with
  | Gpu_Detailed cores memory => optionally wf_positive cores /\ optionally wf_byte_size memory
  | _ => True
  end.

Definition wf_requirements (r : HostRequirements) : Prop :=
  optionally wf_positive (cpus r) /\ optionally wf_byte_size (memory r) /\
  optionally wf_byte_size (storage r) /\ optionally wf_gpu (gpu r).

Definition wf_customization (value : Json) : Prop :=
  match value with Json_Object _ => True | _ => False end.

Definition wf_lifecycle (l : LifecycleCommands) : Prop :=
  Forall (optionally wf_command)
    [lc_initialize l; lc_on_create l; lc_update_content l; lc_post_create l; lc_post_start l; lc_post_attach l].

Record wf_common (c : RawCommon) : Prop := mk_wf_common {
  wf_features : map_Forall wf_feature (features c);
  wf_mounts : Forall wf_mount (mounts c);
  wf_app_ports : Forall wf_app_port (app_ports c);
  wf_forward_ports : Forall wf_forward (forward_ports c);
  wf_forward_distinct : NoDup (List.map forward_port_number (forward_ports c));
  wf_other_action : forall attributes, other_ports_attributes c = Some attributes ->
    on_auto_forward attributes <> Some Auto_OpenBrowserOnce;
  wf_stages : wf_lifecycle (lifecycle c);
  wf_host : optionally wf_requirements (host_requirements c);
  wf_tools : map_Forall (fun _ => wf_customization) (customizations c);
  wf_secrets : map_Forall (fun name _ => valid_env_name name = true) (secrets c);
}.

Definition wf_options (o : NonComposeOptions) : Prop := shutdown_action o <> Some Shutdown_StopCompose.

Definition wf_scenario (s : RawScenario) : Prop :=
  match s with
  | Scenario_Image image => scenario_image image <> [] /\ wf_options (image_options image)
  | Scenario_Dockerfile d => dockerfile (scenario_build d) <> [] /\ wf_options (dockerfile_options d)
  | Scenario_Compose c =>
      compose_files c <> [] /\ Forall (fun file => file <> []) (compose_files c) /\ compose_service c <> [] /\
      compose_workspace_folder c <> [] /\ run_services c <> Some [] /\
      compose_shutdown_action c <> Some Shutdown_StopContainer
  end.

Definition wf_profile (p : RawProfile) : Prop := wf_common (common p) /\ wf_scenario (scenario p).

(** The property that selects a scenario. *)
Definition scenario_key (s : RawScenario) : str :=
  match s with
  | Scenario_Image _ => $"image"
  | Scenario_Dockerfile _ => $"build"
  | Scenario_Compose _ => $"dockerComposeFile"
  end.


(** ** Soundness: an accepted profile is well formed *)

Lemma port_number_wf value p port : port_number value p = Ok port -> wf_port port.
Proof. unfold port_number. intros H. run H. prop_of_bool. split; lia. Qed.

Lemma positive_integer_wf value p r : positive_integer value p = Ok r -> optionally wf_positive r.
Proof.
  apply transpose_map_Forall. intros j n H. run H. prop_of_bool. split; [done|]. by eapply as_u64_bound.
Qed.

Lemma byte_requirement_wf value p r : byte_requirement value p = Ok r -> optionally wf_byte_size r.
Proof.
  apply transpose_map_Forall. intros j s H. binds H. prop_of_bool. injection H as <-. by split.
Qed.

Lemma required_string_wf entries parent key s : required_string entries parent key = Ok s -> s <> [].
Proof. unfold required_string. intros H. binds H. injection H as <-. by prop_of_bool. Qed.

Lemma enum_optional_wf {T} entries parent key allowed (map : str -> T) (P : T -> Prop) r :
  Forall (fun text => P (map text)) allowed ->
  enum_optional_at entries parent key allowed map = Ok r -> optionally P r.
Proof.
  unfold enum_optional_at. intros Hall H. destruct (get key entries) as [value|]; [|by injection H as <-].
  cbn zeta in H. binds H. destruct (bool_decide_reflect (t ∈ allowed)) as [Hin|]; [|done]. injection H as <-.
  rewrite Forall_forall in Hall. by apply Hall.
Qed.

Lemma features_of_wf value m : features_of value = Ok m -> map_Forall wf_feature m.
Proof.
  unfold features_of. destruct value as [value|]; [|intros [= <-]; apply map_Forall_empty].
  intros H. binds H. revert H. apply collect_map_Forall. intros reference options feature H.
  cbn zeta in H. binds H. injection H as <-. unfold feature_source_of in Heqr0.
  destruct (FeatureReference_parse Url_parse reference) as [parsed|] eqn:Hp; [|done].
  exists parsed. split; [done|]. cbn. destruct parsed; by injection Heqr0 as <-.
Qed.

Lemma mounts_of_wf value l : mounts_of value = Ok l -> Forall wf_mount l.
Proof.
  unfold mounts_of. destruct value as [value|]; [|intros [= <-]; constructor].
  intros H. binds H. revert H. apply collect_list_Forall. intros i item mount H.
  unfold mount_of in H. destruct item; try done; [by injection H as <-|].
  binds H. injection H as <-. cbn. by eapply required_string_wf.
Qed.

Lemma app_ports_of_wf value l : app_ports_of value = Ok l -> Forall wf_app_port l.
Proof.
  unfold app_ports_of. destruct value as [value|]; [|intros [= <-]; constructor].
  apply collect_list_Forall. intros i item port H. cbn zeta in H.
  destruct item; try (by injection H as <-);
    apply result_map_Ok in H as (n & Hn & ->); cbn; by eapply port_number_wf.
Qed.

Lemma forward_port_of_wf p value forward : forward_port_of p value = Ok forward -> wf_forward forward.
Proof.
  unfold forward_port_of. intros H.
  destruct value; try (apply result_map_Ok in H as (n & Hn & ->); split; [by eapply port_number_wf|done]).
  binds H. destruct t as [service port]. binds H. prop_of_bool.
  destruct (parse_uint MAX_U16 port) as [n|] eqn:Hn; [|done]. destruct (N.ltb_spec 0 n); [|done].
  injection H as <-. apply parse_uint_bound in Hn. by repeat split.
Qed.

Lemma forward_ports_of_wf value l :
  forward_ports_of value = Ok l -> Forall wf_forward l /\ NoDup (List.map forward_port_number l).
Proof.
  unfold forward_ports_of. destruct value as [value|]; [|intros [= <-]; by repeat constructor].
  intros H. binds H. apply result_map_Ok in H as ([l' seen] & H & ->). cbn [fst].
  enough (Forall wf_forward l' /\ NoDup (List.map forward_port_number l') /\
    forall n, n ∈ List.map forward_port_number l' -> n ∈ seen) by tauto.
  revert H. apply (try_fold_ind (fun s : list ForwardPort * gset N => Forall wf_forward s.1 /\
    NoDup (List.map forward_port_number s.1) /\ forall n, n ∈ List.map forward_port_number s.1 -> n ∈ s.2));
    [|cbn; split; [constructor|split; [constructor|by intros n ?%not_elem_of_nil]]].
  intros [done' seen'] [i v] [l'' s''] (Hwf & Hnd & Hseen) H. cbn in *. binds H. prop_of_bool.
  injection H as <- <-. rewrite map_app. cbn. split; [|split].
  - apply Forall_app. split; [done|]. constructor; [by eapply forward_port_of_wf|constructor].
  - apply NoDup_app. split; [done|]. split; [|apply NoDup_singleton].
    intros n Hn ->%list_elem_of_singleton. by apply Hseen in Hn.
  - intros n [?%Hseen | ->%list_elem_of_singleton]%elem_of_app; set_solver.
Qed.

Lemma port_attributes_of_wf value p a :
  port_attributes_of value p false = Ok a -> on_auto_forward a <> Some Auto_OpenBrowserOnce.
Proof.
  unfold port_attributes_of. intros H. binds H. injection H as <-. cbn [on_auto_forward].
  apply (enum_optional_wf _ _ _ _ _ (fun action => action <> Auto_OpenBrowserOnce)) in Heqr1.
  - intros ->. by apply Heqr1.
  - by repeat constructor.
Qed.

Lemma command_array_wf value p args : command_array value p = Ok args -> args <> [].
Proof.
  unfold command_array. intros H. binds H. prop_of_bool. apply collect_list_length in H.
  intros ->. by destruct t.
Qed.

Lemma command_of_wf value p r : command_of value p = Ok r -> optionally wf_command r.
Proof.
  apply transpose_map_Forall. intros j command H. destruct j; try done.
  - by injection H as <-.
  - apply result_map_Ok in H as (args & H & ->). by eapply command_array_wf.
  - apply result_map_Ok in H as (commands & H & ->). cbn [wf_command]. revert H.
    apply (try_fold_ind (Forall (fun entry => wf_command_value (snd entry)))); [|constructor].
    intros acc [k v] acc' Hacc H. unfold parallel_step in H. binds H. injection H as <-.
    apply Forall_app. split; [done|]. constructor; [|constructor]. cbn [snd].
    destruct v; try done; [by injection Heqr0 as <-|].
    apply result_map_Ok in Heqr0 as (args & Heqr0 & ->). by eapply command_array_wf.
Qed.

Lemma gpu_of_wf value g : gpu_of value = Ok g -> wf_gpu g.
Proof.
  unfold gpu_of. cbn zeta. intros H. destruct value as [|[]| |s| |entries]; try done; try (by injection H as <-).
  - destruct (str_eqb s _); [by injection H as <-|done].
  - binds H. injection H as <-. split; [by eapply positive_integer_wf|by eapply byte_requirement_wf].
Qed.

Lemma host_requirements_of_wf value h : host_requirements_of value = Ok h -> wf_requirements h.
Proof.
  unfold host_requirements_of. intros H. binds H. injection H as <-. unfold wf_requirements. cbn.
  split; [by eapply positive_integer_wf|]. split; [by eapply byte_requirement_wf|].
  split; [by eapply byte_requirement_wf|]. eapply transpose_map_Forall; [apply gpu_of_wf|done].
Qed.

Lemma customizations_of_wf value m : customizations_of value = Ok m -> map_Forall (fun _ => wf_customization) m.
Proof.
  unfold customizations_of. destruct value as [value|]; [|intros [= <-]; apply map_Forall_empty].
  intros H. binds H. revert H. apply collect_map_Forall. intros k v b H. destruct v; try done. by injection H as <-.
Qed.

Lemma secrets_of_wf value m : secrets_of value = Ok m -> map_Forall (fun name _ => valid_env_name name = true) m.
Proof.
  unfold secrets_of. destruct value as [value|]; [|intros [= <-]; apply map_Forall_empty].
  intros H. binds H. revert H. apply collect_map_Forall. intros k v b H. unfold secret_of in H.
  binds H. by prop_of_bool.
Qed.

Lemma lifecycle_of_wf root l : lifecycle_of root = Ok l -> wf_lifecycle l.
Proof.
  unfold lifecycle_of. intros H. binds H. injection H as <-.
  repeat (constructor; [by eapply command_of_wf|]). constructor.
Qed.

Lemma common_of_wf root c : common_of root = Ok c -> wf_common c.
Proof.
  unfold common_of. intros H. binds H. injection H as <-.
  destruct (forward_ports_of_wf _ _ ltac:(eassumption)) as [Hf Hd].
  constructor; cbn [features mounts app_ports forward_ports other_ports_attributes lifecycle host_requirements
    customizations secrets]; try done.
  - by eapply features_of_wf.
  - by eapply mounts_of_wf.
  - by eapply app_ports_of_wf.
  - intros a ->. match goal with H : transpose_map _ _ = Ok (Some a) |- _ =>
      apply transpose_map_Ok in H as [[_ ?]|(j & b & _ & H & [= <-])]; [done|] end.
    by eapply port_attributes_of_wf.
  - by eapply lifecycle_of_wf.
  - eapply transpose_map_Forall; [apply host_requirements_of_wf|eassumption].
  - by eapply customizations_of_wf.
  - by eapply secrets_of_wf.
Qed.

Lemma optionally_neq {A} (a : A) o : optionally (fun b => b <> a) o -> o <> Some a.
Proof. intros H ->. by apply H. Qed.

Lemma non_compose_wf root o : non_compose root = Ok o -> wf_options o.
Proof.
  unfold non_compose. intros H. binds H. injection H as <-. apply optionally_neq. cbn.
  revert Heqr. apply enum_optional_wf. by repeat constructor.
Qed.

Lemma compose_of_wf root files c : compose_of root files = Ok c -> wf_scenario (Scenario_Compose c).
Proof.
  unfold compose_of. intros H. binds H. injection H as <-. prop_of_bool. cbn.
  split; [done|]. split; [|split; [by eapply required_string_wf|split; [by eapply required_string_wf|split; [done|]]]].
  - destruct (position _ t) as [i|] eqn:Hp; [done|]. apply position_none in Hp.
    eapply Forall_impl; [exact Hp|]. intros file Hf. cbn in Hf. by apply bool_decide_eq_false in Hf.
  - apply optionally_neq.
    revert Heqr4. apply enum_optional_wf. by repeat constructor.
Qed.

Lemma supported_family key :
  existsb (fun family : str * list str => bool_decide (key ∈ snd family)) PROPERTY_FAMILIES = true <->
  key ∈ supported_properties.
Proof.
  unfold supported_properties. rewrite list_elem_of_In, in_concat, existsb_exists. split.
  - intros (family & Hin & Hk). prop_of_bool. exists (snd family).
    split; [by apply in_map|by apply list_elem_of_In].
  - intros (names & (family & <- & Hin)%in_map_iff & Hk). exists family. split; [done|].
    by apply bool_decide_eq_true, list_elem_of_In.
Qed.

Lemma check_properties_Ok root :
  check_properties_supported root = Ok tt <-> Forall (fun entry => fst entry ∈ supported_properties) root.
Proof.
  unfold check_properties_supported. rewrite try_fold_checks.
  apply Forall_iff. intros [key value]. cbn [fst]. rewrite <- supported_family. unfold check_property.
  destruct (existsb _ _); [done|]. split; [by case_match|done].
Qed.

Lemma scenario_of_spec root s :
  (if is_Some_b (get ($"image") root) then 1 else 0) + (if is_Some_b (get ($"build") root) then 1 else 0)
    + (if is_Some_b (get ($"dockerComposeFile") root) then 1 else 0) = 1 ->
  scenario_of root = Ok s ->
  wf_scenario s /\ forall key, key ∈ [$"image"; $"build"; $"dockerComposeFile"] ->
    is_Some (get key root) <-> key = scenario_key s.
Proof.
  unfold scenario_of. cbn zeta. intros Hone H.
  enough (wf_scenario s /\
    is_Some_b (get ($"image") root) = str_eqb ($"image") (scenario_key s) /\
    is_Some_b (get ($"build") root) = str_eqb ($"build") (scenario_key s) /\
    is_Some_b (get ($"dockerComposeFile") root) = str_eqb ($"dockerComposeFile") (scenario_key s))
    as (Hwf & Hi & Hb & Hc).
  { split; [done|]. assert (Hb' : forall key, is_Some_b (get key root) = str_eqb key (scenario_key s) ->
      is_Some (get key root) <-> key = scenario_key s).
    { intros key Hk. rewrite <- str_eqb_true, <- Hk. destruct (get key root); cbn; split; try done; by intros []. }
    intros key Hk. apply Hb'. apply list_elem_of_In in Hk as [<-|[<-|[<-|[]]]]; [exact Hi|exact Hb|exact Hc]. }
  destruct (is_Some_b (get ($"image") root)) eqn:Hi.
  - binds H. injection H as <-. split; [split; [by eapply required_string_wf|by eapply non_compose_wf]|].
    cbn [scenario_key]. destruct (is_Some_b (get ($"build") root)), (is_Some_b (get ($"dockerComposeFile") root)); done.
  - destruct (get ($"build") root) as [value|] eqn:Hb; binds H; injection H as <-.
    + split; [split; [|by eapply non_compose_wf]|].
      * cbn. unfold build_of in Heqr0. binds Heqr0. injection Heqr0 as <-. by eapply required_string_wf.
      * cbn [is_Some_b scenario_key] in Hone |- *. by destruct (is_Some_b (get ($"dockerComposeFile") root)).
    + split; [by eapply compose_of_wf|].
      cbn [is_Some_b scenario_key] in Hone |- *. by destruct (is_Some_b (get ($"dockerComposeFile") root)).
Qed.


(** C22: Every profile the validator returns is well formed, and comes from an object of supported
    properties in which exactly the property of the profile's scenario selects it: ports and
    resource requirements are in range, forwards distinct, commands and Compose files not empty,
    Features named by parsable references, the shutdown action one of the scenario's. *)
Theorem validated_profile_wf p :
  validate_profile = Ok p ->
  exists root, doc_value document = Json_Object root /\
    Forall (fun entry => fst entry ∈ supported_properties) root /\
    (forall key, key ∈ [$"image"; $"build"; $"dockerComposeFile"] ->
       is_Some (get key root) <-> key = scenario_key (scenario p)) /\
    wf_profile p.
Proof.
  unfold validate_profile, validate. intros H. binds H.
  unfold object in Heqr. destruct (doc_value document) as [| | | | |root]; try done. injection Heqr as <-.
  exists root. split; [done|]. destruct t0. apply check_properties_Ok in Heqr0. split; [done|].
  injection H as <-. cbn [scenario]. apply common_of_wf in Heqr3. prop_of_bool.
  enough (wf_scenario t4 /\ forall key, key ∈ [$"image"; $"build"; $"dockerComposeFile"] ->
    is_Some (get key root) <-> key = scenario_key t4) by (unfold wf_profile; tauto).
  by apply scenario_of_spec.
Qed.

(** ** Completeness: every well-formed profile has a document

    The document written from a profile has every property the profile can hold, in the canonical
    form of its value. *)

Definition option_json (value : FeatureOptionValue) : Json :=
  match value with Option_Boolean b => Json_Bool b | Option_String s => Json_String s end.
Definition feature_json (feature : RawFeature) : Json := json_map option_json (feature_options feature).
Definition kind_name (kind : MountKind) : str := match kind with Mount_Bind => $"bind" | Mount_Volume => $"volume" end.
Definition mount_json (mount : RawMount) : Json :=
  match mount with
  | RawMount_String value => Json_String value
  | RawMount_Object kind source target => Json_Object (json_fields
      [($"type", Some (Json_String (kind_name kind))); ($"source", Json_String <$> source);
       ($"target", Some (Json_String target))])
  end.
Definition app_port_json (port : AppPort) : Json :=
  match port with AppPort_Number port => json_number port | AppPort_DockerArgument value => Json_String value end.
Definition forward_port_json (forward : ForwardPort) : Json :=
  match forward with
  | ForwardPort_Container port => json_number port
  | ForwardPort_Service service port => Json_String (service ++ 58 :: to_string port)
  end.
Definition action_name (action : AutoForwardAction) : str :=
  match action with
  | Auto_Notify => $"notify" | Auto_OpenBrowser => $"openBrowser" | Auto_OpenBrowserOnce => $"openBrowserOnce"
  | Auto_OpenPreview => $"openPreview" | Auto_Silent => $"silent" | Auto_Ignore => $"ignore"
  end.
Definition protocol_name (protocol : PortProtocol) : str :=
  match protocol with Protocol_Http => $"http" | Protocol_Https => $"https" end.
Definition port_attributes_json (a : PortAttributes) : Json :=
  Json_Object (json_fields
    [($"onAutoForward", (fun action => Json_String (action_name action)) <$> on_auto_forward a);
     ($"elevateIfNeeded", Json_Bool <$> elevate_if_needed a);
     ($"label", Json_String <$> port_label a);
     ($"requireLocalPort", Json_Bool <$> require_local_port a);
     ($"protocol", (fun protocol => Json_String (protocol_name protocol)) <$> port_protocol a)]).
Definition command_value_json (command : CommandValue) : Json :=
  match command with Command_Shell s => Json_String s | Command_Exec args => json_strings args end.
Definition command_json (command : RawCommand) : Json :=
  match command with
  | RawCommand_Shell s => Json_String s
  | RawCommand_Exec args => json_strings args
  | RawCommand_Parallel commands =>
      Json_Object (List.map (fun entry => (fst entry, command_value_json (snd entry))) commands)
  end.
Definition gpu_json (gpu : GpuRequirement) : Json :=
  match gpu with
  | Gpu_Required => Json_Bool true
  | Gpu_NotRequired => Json_Bool false
  | Gpu_Optional => Json_String ($"optional")
  | Gpu_Detailed cores memory => Json_Object (json_fields
      [($"cores", json_number <$> cores); ($"memory", Json_String <$> memory)])
  end.
Definition requirements_json (r : HostRequirements) : Json :=
  Json_Object (json_fields
    [($"cpus", json_number <$> cpus r); ($"memory", Json_String <$> memory r);
     ($"storage", Json_String <$> storage r); ($"gpu", gpu_json <$> gpu r)]).
Definition secret_json (s : SecretMetadata) : Json :=
  Json_Object (json_fields
    [($"description", Json_String <$> secret_description s);
     ($"documentationUrl", Json_String <$> documentation_url s)]).
Definition nullable_json (value : option (list N)) : Json :=
  match value with Some s => Json_String s | None => Json_Null end.
Definition build_json (b : RawBuild) : Json :=
  Json_Object (json_fields
    [($"dockerfile", Some (Json_String (dockerfile b))); ($"context", Json_String <$> build_context b);
     ($"target", Json_String <$> build_target b); ($"args", Some (json_map Json_String (build_args b)));
     ($"cacheFrom", Some (json_strings (cache_from b))); ($"options", Some (json_strings (build_options b)))]).
Definition probe_name (probe : UserEnvProbe) : str :=
  match probe with
  | Probe_None => $"none" | Probe_LoginShell => $"loginShell"
  | Probe_LoginInteractiveShell => $"loginInteractiveShell" | Probe_InteractiveShell => $"interactiveShell"
  end.
Definition wait_for_name (w : WaitFor) : str :=
  match w with
  | WaitFor_Initialize => $"initializeCommand" | WaitFor_OnCreate => $"onCreateCommand"
  | WaitFor_UpdateContent => $"updateContentCommand" | WaitFor_PostCreate => $"postCreateCommand"
  | WaitFor_PostStart => $"postStartCommand"
  end.
Definition shutdown_name (a : ShutdownAction) : str :=
  match a with
  | Shutdown_None => $"none" | Shutdown_StopContainer => $"stopContainer" | Shutdown_StopCompose => $"stopCompose"
  end.

(** A value of each scenario. *)
Definition of_image {A} (s : RawScenario) (f : ImageScenario -> option A) : option A :=
  match s with Scenario_Image i => f i | _ => None end.
Definition of_dockerfile {A} (s : RawScenario) (f : DockerfileScenario -> option A) : option A :=
  match s with Scenario_Dockerfile d => f d | _ => None end.
Definition of_compose {A} (s : RawScenario) (f : ComposeScenario -> option A) : option A :=
  match s with Scenario_Compose c => f c | _ => None end.
Definition of_options {A} (s : RawScenario) (f : NonComposeOptions -> option A) (g : ComposeScenario -> option A) :
    option A :=
  match s with
  | Scenario_Image i => f (image_options i)
  | Scenario_Dockerfile d => f (dockerfile_options d)
  | Scenario_Compose c => g c
  end.

Definition root_fields (p : RawProfile) : list (str * option Json) :=
  let c := common p in
  let s := scenario p in
  let l := lifecycle c in
  [($"$schema", Json_String <$> schema_uri p);
   ($"name", Json_String <$> profile_name p);
   ($"customizations", Some (json_map id (customizations c)));
   ($"secrets", Some (json_map secret_json (secrets c)));
   ($"image", of_image s (fun i => Some (Json_String (scenario_image i))));
   ($"build", of_dockerfile s (fun d => Some (build_json (scenario_build d))));
   ($"dockerComposeFile", of_compose s (fun c => Some (json_strings (compose_files c))));
   ($"service", of_compose s (fun c => Some (Json_String (compose_service c))));
   ($"runServices", of_compose s (fun c => json_strings <$> run_services c));
   ($"workspaceFolder", of_options s (fun o => Json_String <$> workspace_folder o)
      (fun c => Some (Json_String (compose_workspace_folder c))));
   ($"workspaceMount", of_options s (fun o => Json_String <$> workspace_mount o) (fun _ => None));
   ($"mounts", Some (Json_Array (List.map mount_json (mounts c))));
   ($"features", Some (json_map feature_json (features c)));
   ($"overrideFeatureInstallOrder", Some (json_strings (override_feature_install_order c)));
   ($"containerEnv", Some (json_map Json_String (container_env c)));
   ($"remoteEnv", Some (json_map nullable_json (remote_env c)));
   ($"containerUser", Json_String <$> container_user c);
   ($"remoteUser", Json_String <$> remote_user c);
   ($"updateRemoteUserUID", Json_Bool <$> update_remote_user_uid c);
   ($"userEnvProbe", (fun probe => Json_String (probe_name probe)) <$> user_env_probe c);
   ($"overrideCommand", Json_Bool <$> of_options s override_command compose_override_command);
   ($"init", Json_Bool <$> init c);
   ($"privileged", Json_Bool <$> privileged c);
   ($"capAdd", Some (json_strings (cap_add c)));
   ($"securityOpt", Some (json_strings (security_opt c)));
   ($"runArgs", of_options s (fun o => Some (json_strings (run_args o))) (fun _ => None));
   ($"appPort", Some (Json_Array (List.map app_port_json (app_ports c))));
   ($"forwardPorts", Some (Json_Array (List.map forward_port_json (forward_ports c))));
   ($"portsAttributes", Some (json_map port_attributes_json (ports_attributes c)));
   ($"otherPortsAttributes", port_attributes_json <$> other_ports_attributes c);
   ($"initializeCommand", command_json <$> lc_initialize l);
   ($"onCreateCommand", command_json <$> lc_on_create l);
   ($"updateContentCommand", command_json <$> lc_update_content l);
   ($"postCreateCommand", command_json <$> lc_post_create l);
   ($"postStartCommand", command_json <$> lc_post_start l);
   ($"postAttachCommand", command_json <$> lc_post_attach l);
   ($"waitFor", (fun w => Json_String (wait_for_name w)) <$> wait_for c);
   ($"shutdownAction", (fun a => Json_String (shutdown_name a)) <$>
      of_options s shutdown_action compose_shutdown_action);
   ($"hostRequirements", requirements_json <$> host_requirements c)].

Definition profile_json (p : RawProfile) : Json := Json_Object (json_fields (root_fields p)).

Lemma reject_unknown_fields fields parent allowed :
  fields.*1 = allowed -> reject_unknown (json_fields fields) parent allowed = Ok tt.
Proof.
  intros <-. unfold reject_unknown. apply try_fold_checks.
  eapply Forall_impl; [apply json_fields_keys|]. intros [k v] Hk. by rewrite bool_decide_eq_true_2.
Qed.

Lemma reject_present_none (root : list (str * Json)) names message :
  Forall (fun name => get name root = None) names -> reject_present root names message = Ok tt.
Proof.
  intros H. unfold reject_present. apply try_fold_checks. eapply Forall_impl; [exact H|].
  cbn. by intros name ->.
Qed.

Lemma port_number_render n p : wf_port n -> port_number (json_number n) p = Ok n.
Proof.
  intros [Hpos Hmax]. unfold port_number. rewrite as_u64_render by (unfold MAX_U16, MAX_U64 in *; lia).
  by rewrite (proj2 (N.leb_le _ _) Hmax), (proj2 (N.ltb_lt _ _) Hpos).
Qed.

Lemma positive_integer_render o p : optionally wf_positive o -> positive_integer (json_number <$> o) p = Ok o.
Proof.
  intros H. apply transpose_map_render. intros n ->. destruct H as [Hpos Hmax].
  rewrite as_u64_render by done. by rewrite (proj2 (N.ltb_lt _ _) Hpos).
Qed.

Lemma byte_requirement_render o p : optionally wf_byte_size o -> byte_requirement (Json_String <$> o) p = Ok o.
Proof.
  intros H. apply transpose_map_render. intros s ->. destruct H as [Hd Hs]. cbn zeta.
  by rewrite (bool_decide_eq_false_2 _ Hd), (bool_decide_eq_true_2 _ Hs).
Qed.

Lemma string_array_render l p : string_array (Some (json_strings l)) p = Ok (Some l).
Proof. unfold string_array. cbn. by rewrite collect_list_render. Qed.

Lemma one_or_many_render l p : one_or_many_strings (json_strings l) p = Ok l.
Proof. by apply collect_list_render. Qed.

Lemma string_map_render (m : gmap (list N) (list N)) p : string_map (Some (json_map Json_String m)) p = Ok m.
Proof. apply collect_map_render. by intros k s _. Qed.

Lemma nullable_string_map_render (m : gmap (list N) (option (list N))) p :
  nullable_string_map (Some (json_map nullable_json m)) p = Ok m.
Proof. apply collect_map_render. by intros k [s|] _. Qed.

Lemma optional_string_render entries parent key o :
  get key entries = Json_String <$> o -> optional_string_at entries parent key = Ok o.
Proof. unfold optional_string_at. intros ->. by apply transpose_map_render. Qed.

Lemma optional_bool_render entries parent key o :
  get key entries = Json_Bool <$> o -> optional_bool_at entries parent key = Ok o.
Proof. unfold optional_bool_at. intros ->. by apply transpose_map_render. Qed.

Lemma required_string_render entries parent key s :
  get key entries = Some (Json_String s) -> s <> [] -> required_string entries parent key = Ok s.
Proof. unfold required_string. intros -> Hs. cbn. by rewrite (bool_decide_eq_false_2 _ Hs). Qed.

Lemma enum_render {T} entries parent key allowed (map : str -> T) (name : T -> str) o :
  get key entries = (fun t => Json_String (name t)) <$> o ->
  optionally (fun t => name t ∈ allowed /\ map (name t) = t) o ->
  enum_optional_at entries parent key allowed map = Ok o.
Proof.
  unfold enum_optional_at. intros -> H. destruct o as [t|]; [|done]. destruct H as [Hin Hmap]. cbn.
  by rewrite (bool_decide_eq_true_2 _ Hin), Hmap.
Qed.

Lemma features_render (m : gmap (list N) RawFeature) :
  map_Forall wf_feature m -> features_of (Some (json_map feature_json m)) = Ok m.
Proof.
  intros Hwf. apply collect_map_render. intros k feature Hk. destruct (Hwf k feature Hk) as (parsed & Hp & Hs).
  unfold feature_source_of. rewrite Hp. destruct feature as [source options]. cbn in Hs. subst source.
  unfold feature_json, json_map. cbn [object feature_options].
  rewrite collect_map_render by (by intros ? [] _). by destruct parsed.
Qed.

Lemma mounts_render l : Forall wf_mount l -> mounts_of (Some (Json_Array (List.map mount_json l))) = Ok l.
Proof.
  intros Hwf. apply collect_list_render. intros i mount Hin. rewrite Forall_forall in Hwf. specialize (Hwf _ Hin).
  destruct mount as [value|kind source target]; [done|]. cbn [mount_json mount_of].
  rewrite reject_unknown_fields by done.
  rewrite (get_at _ 0 ($"type") (Some (Json_String (kind_name kind)))); [|decide_here|done].
  cbn [ok_or string].
  rewrite (optional_string_render _ _ _ source) by field_at 1%nat.
  rewrite (required_string_render _ _ _ target) by (done || field_at 2%nat).
  by destruct kind.
Qed.

Lemma app_ports_render l : Forall wf_app_port l -> app_ports_of (Some (Json_Array (List.map app_port_json l))) = Ok l.
Proof.
  intros Hwf. unfold app_ports_of. apply collect_list_render. intros i port Hin. rewrite Forall_forall in Hwf.
  specialize (Hwf _ Hin). destruct port as [n|value]; [|done]. cbn [app_port_json]. unfold json_number.
  fold (json_number n). by rewrite port_number_render.
Qed.

Lemma forward_port_render p forward : wf_forward forward -> forward_port_of p (forward_port_json forward) = Ok forward.
Proof.
  intros [Hport Hs]. destruct forward as [n|service n]; cbn [forward_port_json forward_port_number] in *.
  - unfold forward_port_of, json_number. fold (json_number n). by rewrite port_number_render.
  - destruct Hs as [Hne Hall], Hport as [Hpos Hmax]. unfold forward_port_of.
    rewrite (proj2 (rsplit_once_Some 58 _ service (to_string n))).
    + cbn [ok_or]. rewrite (bool_decide_eq_false_2 _ Hne). change (forallb _ service) with (forallb service_char service).
      rewrite Hall. cbn [negb orb]. rewrite parse_to_string by done. by rewrite (proj2 (N.ltb_lt _ _) Hpos).
    + split; [done|]. destruct (to_string_spec n) as (_ & Hd & _). intros Hin.
      rewrite Forall_forall in Hd. apply Hd, digit_range in Hin. lia.
Qed.

Lemma forward_ports_render l :
  Forall wf_forward l -> NoDup (List.map forward_port_number l) ->
  forward_ports_of (Some (Json_Array (List.map forward_port_json l))) = Ok l.
Proof.
  intros Hwf Hnd. unfold forward_ports_of. cbn [array].
  assert (Hgen : forall done seen i, (forall n, n ∈ seen -> n ∉ List.map forward_port_number l) ->
    exists seen', try_fold forward_ports_step (done, seen) (enumerate i (List.map forward_port_json l)) = Ok (done ++ l, seen')).
  { revert Hwf Hnd. induction l as [|forward l IH]; intros Hwf Hnd before seen i Hseen; cbn.
    - exists seen. by rewrite app_nil_r.
    - apply Forall_cons in Hwf as [Hf Hwf]. apply NoDup_cons in Hnd as [Hn Hnd]. rewrite forward_port_render by done.
      rewrite bool_decide_eq_false_2 by (intros Hin; apply (Hseen _ Hin); by left).
      destruct (IH Hwf Hnd (before ++ [forward]) ({[forward_port_number forward]} ∪ seen) (i + 1)) as [seen' Heq].
      + intros n [->%elem_of_singleton|Hs]%elem_of_union; [done|]. intros Hin. apply (Hseen _ Hs). by right.
      + exists seen'. by rewrite Heq, <- app_assoc. }
  destruct (Hgen [] ∅ 0) as [seen' ->]; [set_solver|done].
Qed.

Lemma port_attributes_render a p allow_once :
  (allow_once = false -> on_auto_forward a <> Some Auto_OpenBrowserOnce) ->
  port_attributes_of (port_attributes_json a) p allow_once = Ok a.
Proof.
  intros Honce. unfold port_attributes_of, port_attributes_json. cbn [object].
  rewrite reject_unknown_fields by done.
  rewrite (enum_render _ _ _ _ _ action_name (on_auto_forward a));
    [|field_at 0%nat|destruct (on_auto_forward a) as [[]|], allow_once; try done;
      try (split; [decide_here|reflexivity]); by destruct Honce].
  rewrite (optional_bool_render _ _ _ (elevate_if_needed a)) by field_at 1%nat.
  rewrite (optional_string_render _ _ _ (port_label a)) by field_at 2%nat.
  rewrite (optional_bool_render _ _ _ (require_local_port a)) by field_at 3%nat.
  rewrite (enum_render _ _ _ _ _ protocol_name (port_protocol a));
    [|field_at 4%nat|destruct (port_protocol a) as [[]|]; try done; (split; [decide_here|reflexivity])].
  by destruct a.
Qed.

Lemma port_attributes_map_render (m : gmap (list N) PortAttributes) p :
  port_attributes_map (Some (json_map port_attributes_json m)) p = Ok m.
Proof. apply collect_map_render. intros k a _. by apply port_attributes_render. Qed.

Lemma command_array_render args p : args <> [] -> command_array (json_strings args) p = Ok args.
Proof.
  intros Hne. unfold command_array, json_strings. cbn [array].
  rewrite bool_decide_eq_false_2 by (by destruct args). by apply collect_list_render.
Qed.

Lemma command_render o p : optionally wf_command o -> command_of (command_json <$> o) p = Ok o.
Proof.
  intros Hwf. apply transpose_map_render. intros command ->. cbn in Hwf.
  destruct command as [s|args|commands]; cbn [command_json wf_command] in *; [done|..].
  - change (result_map RawCommand_Exec (command_array (json_strings args) p) = Ok (RawCommand_Exec args)).
    by rewrite command_array_render.
  - rewrite try_fold_map. enough (Hgen : forall acc,
      try_fold (fun acc entry => parallel_step p acc (fst entry, command_value_json (snd entry))) acc commands =
      Ok (acc ++ commands)) by (by rewrite Hgen).
    induction Hwf as [|[k v] commands Hv _ IH]; intros acc; cbn [try_fold]; [by rewrite app_nil_r|].
    assert (Hs : parallel_step p acc (k, command_value_json v) = Ok (acc ++ [(k, v)])).
    { unfold parallel_step. destruct v as [s|args]; [done|]. cbn [command_value_json].
      change (match json_strings args with Json_Array _ => _ | _ => _ end)
        with (result_map Command_Exec (command_array (json_strings args) (keyed p k))).
      by rewrite command_array_render. }
    cbn [fst snd]. rewrite Hs, IH. by rewrite <- app_assoc.
Qed.

Lemma gpu_render g : wf_gpu g -> gpu_of (gpu_json g) = Ok g.
Proof.
  intros Hwf. destruct g as [| | |cores memory]; try done. destruct Hwf as [Hc Hm]. unfold gpu_of, gpu_json.
  rewrite reject_unknown_fields by done.
  rewrite (get_at _ 0 ($"cores") (json_number <$> cores)) by (done || decide_here).
  rewrite (get_at _ 1 ($"memory") (Json_String <$> memory)) by (done || decide_here).
  by rewrite positive_integer_render, byte_requirement_render.
Qed.

Lemma requirements_render r : wf_requirements r -> host_requirements_of (requirements_json r) = Ok r.
Proof.
  intros (Hc & Hm & Hs & Hg). unfold host_requirements_of, requirements_json. cbn [object].
  rewrite reject_unknown_fields by done.
  rewrite (get_at _ 0 ($"cpus") (json_number <$> cpus r)) by (done || decide_here).
  rewrite (get_at _ 1 ($"memory") (Json_String <$> memory r)) by (done || decide_here).
  rewrite (get_at _ 2 ($"storage") (Json_String <$> storage r)) by (done || decide_here).
  rewrite (get_at _ 3 ($"gpu") (gpu_json <$> gpu r)) by (done || decide_here).
  rewrite positive_integer_render by done. rewrite !byte_requirement_render by done.
  rewrite transpose_map_render; [by destruct r|]. intros g Hg'. rewrite Hg' in Hg. by apply gpu_render.
Qed.

Lemma customizations_render (m : gmap (list N) Json) :
  map_Forall (fun _ => wf_customization) m -> customizations_of (Some (json_map id m)) = Ok m.
Proof.
  intros Hwf. apply collect_map_render. intros k v Hk. specialize (Hwf k v Hk). by destruct v.
Qed.

Lemma secrets_render (m : gmap (list N) SecretMetadata) :
  map_Forall (fun name _ => valid_env_name name = true) m -> secrets_of (Some (json_map secret_json m)) = Ok m.
Proof.
  intros Hwf. apply collect_map_render. intros k s Hk. unfold secret_of. cbn zeta. rewrite (Hwf k s Hk).
  cbn [negb]. unfold secret_json. cbn [object]. rewrite reject_unknown_fields by done.
  rewrite (optional_string_render _ _ _ (secret_description s)) by field_at 0%nat.
  rewrite (optional_string_render _ _ _ (documentation_url s)) by field_at 1%nat. by destruct s.
Qed.

Lemma build_render b : dockerfile b <> [] -> build_of (build_json b) = Ok b.
Proof.
  intros Hne. unfold build_of, build_json. cbn [object]. rewrite reject_unknown_fields by done.
  rewrite (required_string_render _ _ _ (dockerfile b)) by (done || field_at 0%nat).
  rewrite (optional_string_render _ _ _ (build_context b)) by field_at 1%nat.
  rewrite (optional_string_render _ _ _ (build_target b)) by field_at 2%nat.
  rewrite (get_at _ 3 ($"args") (Some (json_map Json_String (build_args b)))) by (done || decide_here).
  rewrite (get_at _ 4 ($"cacheFrom") (Some (json_strings (cache_from b)))) by (done || decide_here).
  rewrite (get_at _ 5 ($"options") (Some (json_strings (build_options b)))) by (done || decide_here).
  rewrite string_map_render, string_array_render. unfold string_or_array. cbn [transpose_map].
  rewrite one_or_many_render. by destruct b.
Qed.

Lemma root_fields_keys p : (root_fields p).*1 = supported_properties.
Proof. reflexivity. Qed.

Lemma supported_properties_NoDup : NoDup supported_properties.
Proof. decide_here. Qed.

Lemma get_root p i key value :
  root_fields p !! i = Some (key, value) -> get key (json_fields (root_fields p)) = value.
Proof. apply get_at. rewrite root_fields_keys. apply supported_properties_NoDup. Qed.

(** The value of the root's field at place [i]. *)
Ltac root_at i := apply (get_root _ i); reflexivity.

Lemma lifecycle_render p :
  wf_lifecycle (lifecycle (common p)) -> lifecycle_of (json_fields (root_fields p)) = Ok (lifecycle (common p)).
Proof.
  intros Hwf. unfold lifecycle_of.
  repeat apply Forall_cons in Hwf as [? Hwf].
  rewrite (get_root p 30 _ _ eq_refl), (get_root p 31 _ _ eq_refl), (get_root p 32 _ _ eq_refl),
    (get_root p 33 _ _ eq_refl), (get_root p 34 _ _ eq_refl), (get_root p 35 _ _ eq_refl).
  rewrite !command_render by done. by destruct (lifecycle (common p)).
Qed.

Lemma common_render p : wf_common (common p) -> common_of (json_fields (root_fields p)) = Ok (common p).
Proof.
  intros Hwf. unfold common_of, optional_string, optional_bool, enum_optional.
  rewrite (get_root p 12 _ _ eq_refl), (features_render _ (wf_features _ Hwf)).
  rewrite (get_root p 13 _ _ eq_refl), string_array_render.
  rewrite (get_root p 14 _ _ eq_refl), string_map_render.
  rewrite (get_root p 15 _ _ eq_refl), nullable_string_map_render.
  rewrite (optional_string_render _ _ _ (container_user (common p))) by root_at 16%nat.
  rewrite (optional_string_render _ _ _ (remote_user (common p))) by root_at 17%nat.
  rewrite (optional_bool_render _ _ _ (update_remote_user_uid (common p))) by root_at 18%nat.
  rewrite (enum_render _ _ _ _ _ probe_name (user_env_probe (common p)));
    [|root_at 19%nat|destruct (user_env_probe (common p)) as [[]|]; try done; (split; [decide_here|reflexivity])].
  rewrite (optional_bool_render _ _ _ (init (common p))) by root_at 21%nat.
  rewrite (optional_bool_render _ _ _ (privileged (common p))) by root_at 22%nat.
  rewrite (get_root p 23 _ _ eq_refl), string_array_render.
  rewrite (get_root p 24 _ _ eq_refl), string_array_render.
  rewrite (get_root p 11 _ _ eq_refl), (mounts_render _ (wf_mounts _ Hwf)).
  rewrite (get_root p 26 _ _ eq_refl), (app_ports_render _ (wf_app_ports _ Hwf)).
  rewrite (get_root p 27 _ _ eq_refl), (forward_ports_render _ (wf_forward_ports _ Hwf) (wf_forward_distinct _ Hwf)).
  rewrite (get_root p 28 _ _ eq_refl), port_attributes_map_render.
  rewrite (get_root p 29 _ _ eq_refl), transpose_map_render by
    (intros a Ha; apply port_attributes_render; intros _; by apply (wf_other_action _ Hwf)).
  rewrite (lifecycle_render p (wf_stages _ Hwf)).
  rewrite (enum_render _ _ _ _ _ wait_for_name (wait_for (common p)));
    [|root_at 36%nat|destruct (wait_for (common p)) as [[]|]; try done; (split; [decide_here|reflexivity])].
  rewrite (get_root p 38 _ _ eq_refl), transpose_map_render by
    (intros r Hr; apply requirements_render; pose proof (wf_host _ Hwf) as Hh; by rewrite Hr in Hh).
  rewrite (get_root p 2 _ _ eq_refl), (customizations_render _ (wf_tools _ Hwf)).
  rewrite (get_root p 3 _ _ eq_refl), (secrets_render _ (wf_secrets _ Hwf)).
  by destruct (common p).
Qed.

Lemma non_compose_render p o :
  wf_options o ->
  (forall (A : Type) (f : NonComposeOptions -> option A) g, of_options (scenario p) f g = f o) ->
  non_compose (json_fields (root_fields p)) = Ok o.
Proof.
  intros Hwf Ho. unfold non_compose, optional_string, optional_bool, enum_optional.
  rewrite (enum_render _ _ _ _ _ shutdown_name (shutdown_action o));
    [|rewrite (get_root p 37 _ _ eq_refl); cbn zeta; by rewrite Ho
     |unfold wf_options in Hwf; destruct (shutdown_action o) as [[]|]; try done; (split; [decide_here|reflexivity])].
  rewrite (optional_string_render _ _ _ (workspace_folder o)) by (rewrite (get_root p 9 _ _ eq_refl); apply Ho).
  rewrite (optional_string_render _ _ _ (workspace_mount o)) by (rewrite (get_root p 10 _ _ eq_refl); apply Ho).
  rewrite (get_root p 25 _ _ eq_refl), Ho, string_array_render.
  rewrite (optional_bool_render _ _ _ (override_command o)) by (rewrite (get_root p 20 _ _ eq_refl); by rewrite Ho).
  by destruct o.
Qed.

Lemma compose_render p c :
  scenario p = Scenario_Compose c -> wf_scenario (Scenario_Compose c) ->
  compose_of (json_fields (root_fields p)) (json_strings (compose_files c)) = Ok c.
Proof.
  intros Hs (Hf & Hfs & Hservice & Hfolder & Hrun & Hshut).
  unfold compose_of, optional_bool, enum_optional. rewrite one_or_many_render, (bool_decide_eq_false_2 _ Hf).
  rewrite position_all_false by
    (eapply Forall_impl; [exact Hfs|]; intros file Hne; by apply bool_decide_eq_false_2).
  rewrite (required_string_render _ _ _ (compose_service c)) by
    (done || (rewrite (get_root p 7 _ _ eq_refl); by rewrite Hs)).
  rewrite (required_string_render _ _ _ (compose_workspace_folder c)) by
    (done || (rewrite (get_root p 9 _ _ eq_refl); by rewrite Hs)).
  rewrite (get_root p 8 _ _ eq_refl), Hs. cbn [of_compose].
  assert (Hruns : string_array (json_strings <$> run_services c) ($"$.runServices") = Ok (run_services c)).
  { destruct (run_services c); [apply string_array_render|done]. }
  rewrite Hruns, (bool_decide_eq_false_2 _ Hrun).
  rewrite (enum_render _ _ _ _ _ shutdown_name (compose_shutdown_action c));
    [|rewrite (get_root p 37 _ _ eq_refl); cbn zeta; by rewrite Hs
     |destruct (compose_shutdown_action c) as [[]|]; try done; (split; [decide_here|reflexivity])].
  rewrite (optional_bool_render _ _ _ (compose_override_command c)) by (rewrite (get_root p 20 _ _ eq_refl); by rewrite Hs).
  by destruct c.
Qed.

Lemma scenario_render p : wf_scenario (scenario p) -> scenario_of (json_fields (root_fields p)) = Ok (scenario p).
Proof.
  intros Hwf. unfold scenario_of. cbn zeta.
  rewrite (get_root p 4 _ _ eq_refl), (get_root p 5 _ _ eq_refl), (get_root p 6 _ _ eq_refl).
  destruct (scenario p) as [i|d|c] eqn:Hs; cbn [of_image of_dockerfile of_compose is_Some_b ok_or].
  - destruct Hwf as [Hi Ho]. unfold reject_compose_only. rewrite reject_present_none by
      (repeat constructor; [rewrite (get_root p 7 _ _ eq_refl)|rewrite (get_root p 8 _ _ eq_refl)]; by rewrite Hs).
    rewrite (required_string_render _ _ _ (scenario_image i)) by
      (done || (rewrite (get_root p 4 _ _ eq_refl); by rewrite Hs)).
    rewrite (non_compose_render p (image_options i) Ho) by (intros; by rewrite Hs). by destruct i.
  - destruct Hwf as [Hd Ho]. unfold reject_compose_only. rewrite reject_present_none by
      (repeat constructor; [rewrite (get_root p 7 _ _ eq_refl)|rewrite (get_root p 8 _ _ eq_refl)]; by rewrite Hs).
    rewrite (build_render _ Hd), (non_compose_render p (dockerfile_options d) Ho) by (intros; by rewrite Hs).
    by destruct d.
  - unfold reject_non_compose_only. rewrite reject_present_none by
      (repeat constructor; [rewrite (get_root p 10 _ _ eq_refl)|rewrite (get_root p 25 _ _ eq_refl)]; by rewrite Hs).
    by rewrite (compose_render p c Hs Hwf).
Qed.

(** C23: Every well-formed profile can be written: the validator reads the document written from it
    back to the same profile, whatever the document's path, spans and diagnostics are.  With the
    soundness theorem, the well-formed profiles are exactly the ones the validator returns. *)
Theorem profile_document_roundtrip p :
  wf_profile p -> doc_value document = profile_json p -> validate_profile = Ok p.
Proof.
  intros [Hc Hs] Hdoc. unfold validate_profile, validate. rewrite Hdoc. unfold profile_json. cbn [object].
  rewrite (proj2 (check_properties_Ok _)) by (rewrite <- (root_fields_keys p); apply json_fields_keys).
  cbn zeta. unfold optional_string.
  rewrite (optional_string_render _ _ _ (schema_uri p)) by root_at 0%nat.
  rewrite (optional_string_render _ _ _ (profile_name p)) by root_at 1%nat.
  rewrite (common_render p Hc), (scenario_render p Hs).
  rewrite (get_root p 4 _ _ eq_refl), (get_root p 5 _ _ eq_refl), (get_root p 6 _ _ eq_refl).
  destruct p as [schema name [i|d|c] common]; done.
Qed.
End validator.

(** ** A concrete document *)

Definition no_urls (_ : str) : result str FeatureUrl := Err [].

(** [{"dockerComposeFile": ["compose.yaml"], "service": "app", "workspaceFolder": "/w",
    "shutdownAction": "stopCompose", "forwardPorts": [8000, "db:5432"],
    "postCreateCommand": {"a": "make", "b": ["npm", "ci"]}, "hostRequirements": {"cpus": 4, "memory": "8gb"}}] *)
Definition sample_document : RawDocument :=
  mkDocument ($"devcontainer.json") (Json_Object
    [($"dockerComposeFile", Json_Array [Json_String ($"compose.yaml")]);
     ($"forwardPorts", Json_Array [Json_Number ($"8000"); Json_String ($"db:5432")]);
     ($"hostRequirements", Json_Object [($"cpus", Json_Number ($"4")); ($"memory", Json_String ($"8gb"))]);
     ($"postCreateCommand", Json_Object [($"a", Json_String ($"make"));
        ($"b", Json_Array [Json_String ($"npm"); Json_String ($"ci")])]);
     ($"service", Json_String ($"app"));
     ($"shutdownAction", Json_String ($"stopCompose"));
     ($"workspaceFolder", Json_String ($"/w"))]) ∅ [].

Definition sample_profile : RawProfile :=
  mkRawProfile None None
    (Scenario_Compose (mkComposeScenario [$"compose.yaml"] ($"app") None ($"/w") (Some Shutdown_StopCompose) None))
    (mkRawCommon ∅ [] ∅ ∅ None None None None None None [] [] [] []
       [ForwardPort_Container 8000; ForwardPort_Service ($"db") 5432] ∅ None
       (mkLifecycleCommands None None None
          (Some (RawCommand_Parallel [($"a", Command_Shell ($"make")); ($"b", Command_Exec [$"npm"; $"ci"])])) None None)
       None (Some (mkHostRequirements (Some 4) (Some ($"8gb")) None None)) ∅ ∅).

Lemma sample_profile_wf : wf_profile no_urls sample_profile.
Proof.
  split; [constructor; cbn; try apply map_Forall_empty; try done|by repeat split; repeat constructor].
  - by repeat constructor.
  - decide_here.
  - by repeat constructor.
  - split; [done|]. split; [|done]. split; [done|]. decide_here.
Qed.

Lemma validated_profile_wf_witness : wf_profile no_urls sample_profile.
Proof.
  destruct (validated_profile_wf id no_urls sample_document sample_profile) as (root & _ & _ & _ & H);
    [vm_compute; reflexivity|exact H].
Defined.

Lemma profile_document_roundtrip_witness :
  validate_profile id no_urls (mkDocument [] (profile_json sample_profile) ∅ []) = Ok sample_profile.
Proof.
  apply profile_document_roundtrip; [apply sample_profile_wf|reflexivity].
Defined.

(** Rejections: two scenarios, a deprecated property, a duplicate forward, a zero port, a shutdown
    action of the other scenario. *)
Example validator_rejections :
  let kind entries := match validate_profile id no_urls (mkDocument [] (Json_Object entries) ∅ []) with
    | Err e => Some (profile_error_kind e, d_property_path (profile_diagnostic e)) | Ok _ => None end in
  let image := ($"image", Json_String ($"i")) in
  kind [($"build", Json_Object []); image] = Some (Profile_ScenarioConflict, $"$") /\
  kind [($"dockerFile", Json_Null); image] = Some (Profile_UnsupportedValue, $"$.dockerFile") /\
  kind [($"forwardPorts", Json_Array [Json_Number ($"80"); Json_String ($"db:80")]); image] =
    Some (Profile_InvalidValue, $"$.forwardPorts[1]") /\
  kind [($"appPort", Json_Number ($"0")); image] = Some (Profile_InvalidValue, $"$.appPort") /\
  kind [image; ($"shutdownAction", Json_String ($"stopCompose"))] =
    Some (Profile_UnsupportedValue, $"$.shutdownAction").
Proof. vm_compute. auto 6. Qed.
