(* ===== verification/Discovery.v ===== *)
(** * Discovery: which configuration file of a checkout is used
    ([cdenv-devcontainer/src/discovery.rs]) *)

From S2P Require Import Prelude Text Order.

(** @src cdenv-devcontainer/src/discovery.rs:9-9 ConfigPath *)
Record ConfigPath : Type := mkRepositoryPath { config_path_str : str }.

#[export] Instance ConfigPath_eq_dec : EqDecision ConfigPath.
Proof. solve_decision. Defined.

(** @src cdenv-devcontainer/src/discovery.rs:53-66 ConfigPathError *)
Inductive ConfigPathError : Type := RepositoryPath_Empty | RepositoryPath_Absolute | RepositoryPath_Backslash | RepositoryPath_InvalidComponent.

(** @src cdenv-devcontainer/src/discovery.rs:89-104 DiscoveryError *)
Inductive DiscoveryError : Type :=
| Discovery_ExplicitNotFound (path : ConfigPath)
| Discovery_AmbiguousFolder (matches : list ConfigPath).

(** @src cdenv-devcontainer/src/discovery.rs:28-33 ConfigPath::parse *)
Definition invalid_component (component : str) : bool :=
  bool_decide (component = []) || str_eqb component ($".") || str_eqb component ($"..").

(** @src cdenv-devcontainer/src/discovery.rs:18-35 ConfigPath::parse *)
Definition ConfigPath_parse (value : str) : result ConfigPathError ConfigPath :=
  fail_if bool_decide (value = []) with RepositoryPath_Empty in
  fail_if starts_with [47] value with RepositoryPath_Absolute in
  fail_if contains_char 92 value with RepositoryPath_Backslash in
  fail_if existsb invalid_component (split 47 value) with RepositoryPath_InvalidComponent in
  Ok (mkRepositoryPath value).

(** @src cdenv-devcontainer/src/discovery.rs:151-159 is_folder_form *)
Definition is_folder_form (path : str) : bool :=
  match strip_prefix ($".devcontainer/") path with
  | None => false
  | Some rest =>
      match strip_suffix ($"/devcontainer.json") rest with
      | None => false
      | Some folder => negb (bool_decide (folder = [])) && negb (contains_char 47 folder)
      end
  end.

Definition path_le (a b : ConfigPath) : Prop := str_le (config_path_str a) (config_path_str b).

#[export] Instance path_le_dec a b : Decision (path_le a b).
Proof. unfold path_le. apply _. Defined.
#[export] Instance path_le_total : Total path_le.
Proof. intros a b. unfold path_le. apply (total str_le). Qed.
#[export] Instance path_le_trans : Transitive path_le.
Proof. intros a b c. unfold path_le. apply (transitivity (R := str_le)). Qed.

(** [Vec::dedup]: of equal neighbours the first is kept. *)
Fixpoint dedup {A} `{EqDecision A} (l : list A) : list A :=
  match l with
  | a :: ((b :: _) as rest) => if decide (a = b) then dedup rest else a :: dedup rest
  | _ => l
  end.

(** @src cdenv-devcontainer/src/discovery.rs:123-128 discover_config *)
Definition CONVENTIONAL : list str := [$".devcontainer/devcontainer.json"; $".devcontainer.json"].

(** @src cdenv-devcontainer/src/discovery.rs:130-137 discover_config *)
Definition folder_matches (files : list ConfigPath) : list ConfigPath :=
  dedup (merge_sort path_le (List.filter (fun path => is_folder_form (config_path_str path)) files)).

(** @src cdenv-devcontainer/src/discovery.rs:116-149 discover_config *)
Definition discover_config (files : list ConfigPath) (explicit : option ConfigPath) :
    result DiscoveryError (option ConfigPath) :=
  match explicit with
  | Some path => if bool_decide (path ∈ files) then Ok (Some path) else Err (Discovery_ExplicitNotFound path)
  | None =>
      match List.find (fun path => bool_decide (path ∈ files)) (List.map mkRepositoryPath CONVENTIONAL) with
      | Some path => Ok (Some path)
      | None =>
          match folder_matches files with
          | [] => Ok None
          | [path] => Ok (Some path)
          | matches => Err (Discovery_AmbiguousFolder matches)
          end
      end
  end.

(** ** Properties *)

(** The components of an accepted path name entries below the checkout. *)
Lemma config_path_components value path :
  ConfigPath_parse value = Ok path ->
  config_path_str path = value /\ value <> [] /\
  Forall (fun component => component <> [] /\ component <> $"." /\ component <> $".." /\ 92 ∉ component) (split 47 value).
Proof.
  unfold ConfigPath_parse. intros H. run H. prop_of_bool. split; [done|]. split; [done|].
  rewrite existsb_false_iff in Heqb2. apply contains_char_false in Heqb1.
  assert (Hb : Forall (fun w => 92 ∉ w) (split 47 value)).
  { eapply Forall_impl; [apply (split_Forall (fun c => c <> 92)); apply Forall_forall; intros c Hc ->; done|].
    cbn. intros w Hw Hin. rewrite Forall_forall in Hw. by apply (Hw 92). }
  eapply Forall_impl; [apply Forall_and; exact (conj Heqb2 Hb)|].
  intros w [Hw Hn]. unfold invalid_component in Hw. prop_of_bool. unfold str_eqb in *. by prop_of_bool.
Qed.

Lemma elem_of_dedup {A} `{EqDecision A} (l : list A) x : x ∈ dedup l <-> x ∈ l.
Proof.
  induction l as [|a [|b l] IH]; [done|done|]. change (x ∈ (if decide (a = b) then dedup (b :: l) else a :: dedup (b :: l)) <-> x ∈ a :: b :: l).
  destruct (decide (a = b)) as [<-|]; rewrite ?elem_of_cons, IH, ?elem_of_cons; tauto.
Qed.

Lemma dedup_sorted {A} `{EqDecision A} (R : A -> A -> Prop) (l : list A) :
  StronglySorted R l -> StronglySorted R (dedup l).
Proof.
  induction 1 as [|a l Hl IH Ha]; [constructor|]. destruct l as [|b l]; [by repeat constructor|].
  change (StronglySorted R (if decide (a = b) then dedup (b :: l) else a :: dedup (b :: l))).
  destruct (decide (a = b)); [done|]. constructor; [done|].
  apply Forall_forall. intros x Hx. apply (proj1 (elem_of_dedup _ _)) in Hx. rewrite Forall_forall in Ha. by apply Ha.
Qed.

Lemma path_le_antisym a b : path_le a b -> path_le b a -> a = b.
Proof. destruct a as [a], b as [b]. intros H1 H2. f_equal. by apply (anti_symm str_le). Qed.

Lemma NoDup_dedup (l : list ConfigPath) : StronglySorted path_le l -> NoDup (dedup l).
Proof.
  induction 1 as [|a l Hl IH Ha]; [constructor|]. destruct l as [|b l]; [apply NoDup_singleton|].
  change (NoDup (if decide (a = b) then dedup (b :: l) else a :: dedup (b :: l))).
  destruct (decide (a = b)) as [|Hne]; [done|]. constructor; [|done].
  intros Hx. apply (proj1 (elem_of_dedup _ _)) in Hx. apply elem_of_cons in Hx as [->|Hx]; [done|].
  apply Hne, path_le_antisym; [rewrite Forall_forall in Ha; apply Ha; by left|].
  apply StronglySorted_inv in Hl as [_ Hb]. rewrite Forall_forall in Hb. by apply Hb.
Qed.

Definition conventional_nested : ConfigPath := mkRepositoryPath ($".devcontainer/devcontainer.json").
Definition conventional_root : ConfigPath := mkRepositoryPath ($".devcontainer.json").
Definition folder_form (p : ConfigPath) : Prop := is_folder_form (config_path_str p) = true.

Lemma elem_of_folder_matches files p : p ∈ folder_matches files <-> p ∈ files /\ folder_form p.
Proof.
  unfold folder_matches. rewrite elem_of_dedup, merge_sort_Permutation, !list_elem_of_In, filter_In. done.
Qed.

Lemma folder_matches_sorted files : StronglySorted path_le (folder_matches files) /\ NoDup (folder_matches files).
Proof.
  assert (Hs := StronglySorted_merge_sort path_le (List.filter (fun path => is_folder_form (config_path_str path)) files)).
  split; [by apply dedup_sorted|by apply NoDup_dedup].
Qed.

(** The selection is the documented one.  An explicit path is used or reported missing; else the
    conventional paths in their order; else the folder form, if one file has it, and several are
    reported once each in order.  What is selected is a file of the checkout. *)
Theorem discover_config_spec files explicit :
  match discover_config files explicit with
  | Ok (Some p) => p ∈ files /\
      (explicit = Some p \/ explicit = None /\
        (p = conventional_nested \/
         (conventional_nested ∉ files) /\ (p = conventional_root \/
           (conventional_root ∉ files) /\ folder_form p /\ forall q, q ∈ files -> folder_form q -> q = p)))
  | Ok None => explicit = None /\ (conventional_nested ∉ files) /\ (conventional_root ∉ files) /\
      forall q, q ∈ files -> ~ folder_form q
  | Err (Discovery_ExplicitNotFound p) => explicit = Some p /\ p ∉ files
  | Err (Discovery_AmbiguousFolder matches) =>
      explicit = None /\ (conventional_nested ∉ files) /\ (conventional_root ∉ files) /\ (2 <= length matches)%nat /\
      NoDup matches /\ StronglySorted path_le matches /\ forall q, q ∈ matches <-> q ∈ files /\ folder_form q
  end.
Proof.
  unfold discover_config. destruct explicit as [path|]; [case_bool_decide; auto|].
  unfold CONVENTIONAL. cbn [List.map List.find].
  unfold conventional_nested, conventional_root.
  case_bool_decide as Hn; [auto|]. case_bool_decide as Hr; [split; [done|]; right; auto 10|].
  assert (Hm := elem_of_folder_matches files). destruct (folder_matches_sorted files) as [Hs Hd].
  destruct (folder_matches files) as [|p [|q l]].
  - split_and!; try done. intros q Hq Hf. by destruct (not_elem_of_nil q (proj2 (Hm q) (conj Hq Hf))).
  - destruct (proj1 (Hm p)) as [Hp Hf]; [by left|]. split; [done|]. right. split; [done|]. right. split; [done|].
    right. split_and!; try done. intros q Hq Hfq. by apply list_elem_of_singleton, Hm.
  - split_and!; try done. cbn. lia.
Qed.

Example discovery_examples :
  let paths := List.map (fun s => mkRepositoryPath (lit s)) in
  discover_config (paths [".devcontainer/b/devcontainer.json"; "README.md"]%string) None =
    Ok (Some (mkRepositoryPath ($".devcontainer/b/devcontainer.json"))) /\
  discover_config (paths [".devcontainer/z/devcontainer.json"; ".devcontainer/a/devcontainer.json"]%string) None =
    Err (Discovery_AmbiguousFolder (paths [".devcontainer/a/devcontainer.json"; ".devcontainer/z/devcontainer.json"]%string)) /\
  ConfigPath_parse ($".devcontainer/../x") = Err RepositoryPath_InvalidComponent.
Proof. vm_compute. auto. Qed.
