(* ===== verification/FeatureParser.v ===== *)
(** * FeatureParser: the strict parser of Feature metadata
    ([cdenv-devcontainer/src/feature/metadata.rs])

    The rendering [{:?}] of a name in a property path and the URL parser of Feature references are
    parameters. *)

From S2P Require Import Prelude Text Order FeatureReference Profile Feature JsonValue.

(** @src cdenv-devcontainer/src/feature/metadata.rs:14-40 FEATURE_METADATA_PROPERTIES *)
Definition FEATURE_METADATA_PROPERTIES : list str :=
  [$"id"; $"version"; $"name"; $"description"; $"documentationURL"; $"licenseURL"; $"keywords"; $"legacyIds";
   $"deprecated"; $"options"; $"dependsOn"; $"installsAfter"; $"containerEnv"; $"mounts"; $"capAdd"; $"securityOpt";
   $"entrypoint"; $"customizations"; $"init"; $"privileged"; $"onCreateCommand"; $"updateContentCommand";
   $"postCreateCommand"; $"postStartCommand"; $"postAttachCommand"].

(** ** JSON values *)

(** [Value::as_str], [as_bool], [as_array], [as_object] *)
Definition as_str (value : Json) : option str := match value with Json_String s => Some s | _ => None end.
Definition as_bool (value : Json) : option bool := match value with Json_Bool b => Some b | _ => None end.
Definition as_array (value : Json) : option (list Json) := match value with Json_Array l => Some l | _ => None end.
Definition as_object (value : Json) : option (list (str * Json)) :=
  match value with Json_Object entries => Some entries | _ => None end.

(** @src cdenv-devcontainer/src/feature/metadata.rs:482-487 metadata *)
Definition metadata (path message : str) : FeatureError := Feature_InvalidMetadata path message.

(** @src cdenv-devcontainer/src/feature/metadata.rs:394-400 required_string *)
Definition required_string (object : list (str * Json)) (name : str) : result FeatureError str :=
  ok_or (metadata ($"$." ++ name) (name ++ $" must be a string")) (mbind as_str (get name object)).

(** @src cdenv-devcontainer/src/feature/metadata.rs:401-414 optional_string *)
Definition optional_string (object : list (str * Json)) (name : str) : result FeatureError (option str) :=
  transpose_map (fun value => ok_or (metadata ($"$." ++ name) (name ++ $" must be a string")) (as_str value))
    (get name object).

(** @src cdenv-devcontainer/src/feature/metadata.rs:415-424 optional_bool *)
Definition optional_bool (object : list (str * Json)) (name : str) : result FeatureError (option bool) :=
  transpose_map (fun value => ok_or (metadata ($"$." ++ name) (name ++ $" must be a boolean")) (as_bool value))
    (get name object).

(** [format!("{path}[{index}]")] *)
Definition indexed (path : str) (index : N) : str := path ++ $"[" ++ to_string index ++ $"]".

(** @src cdenv-devcontainer/src/feature/metadata.rs:425-440 string_array *)
Definition string_array (value : option Json) (path : str) : result FeatureError (list str) :=
  match value with
  | None => Ok []
  | Some value =>
      let? items := ok_or (metadata path ($"value must be an array")) (as_array value) in
      collect_list (fun index item =>
        ok_or (metadata (indexed path index) ($"array item must be a string")) (as_str item)) items
  end.

(** @src cdenv-devcontainer/src/feature/metadata.rs:459-473 object_map *)
Definition object_map (value : option Json) (path : str) : result FeatureError (strmap Json) :=
  match value with
  | None => Ok ∅
  | Some value =>
      let? entries := ok_or (metadata path ($"value must be an object")) (as_object value) in
      collect_map (fun _ value => Ok value) entries
  end.

(** @src cdenv-devcontainer/src/feature/metadata.rs:474-481 parse_feature_value *)
Definition parse_feature_value (value : Json) : option FeatureValue :=
  match as_bool value with
  | Some b => Some (Value_Boolean b)
  | None => Value_String <$> as_str value
  end.

(** The derived order of references. @src cdenv-devcontainer/src/feature/reference.rs:11-11 Ord *)
Definition reference_cmp (a b : FeatureReference) : comparison :=
  match a, b with
  | Ref_Oci x, Ref_Oci y | Ref_Https x, Ref_Https y | Ref_Local x, Ref_Local y => str_cmp x y
  | Ref_Oci _, _ | Ref_Https _, Ref_Local _ => Lt
  | _, _ => Gt
  end.

(** [BTreeMap::insert] on the entries in key order *)
Fixpoint insert_reference {V} (key : FeatureReference) (value : V) (entries : list (FeatureReference * V)) :
    list (FeatureReference * V) :=
  match entries with
  | [] => [(key, value)]
  | (k, v) :: rest =>
      match reference_cmp key k with
      | Lt => (key, value) :: entries
      | Eq => (key, value) :: rest
      | Gt => (k, v) :: insert_reference key value rest
      end
  end.

Section parser.
Context (debug : str -> str) (Url_parse : str -> result str FeatureUrl).

(** [format!("{path}[{name:?}]")] *)
Definition named (path name : str) : str := path ++ $"[" ++ debug name ++ $"]".

(** @src cdenv-devcontainer/src/feature/metadata.rs:441-458 string_map *)
Definition string_map (value : option Json) (path : str) : result FeatureError (strmap (list N)) :=
  match value with
  | None => Ok ∅
  | Some value =>
      let? entries := ok_or (metadata path ($"value must be an object")) (as_object value) in
      collect_map (fun name value => ok_or (metadata (named path name) ($"value must be a string")) (as_str value)) entries
  end.

(** A string option. @src cdenv-devcontainer/src/feature/metadata.rs:209-244 parse_option_definitions *)
Definition string_option (path : str) (definition : list (str * Json)) (dflt : Json) : result FeatureError FeatureOption :=
  let? dflt := ok_or (metadata (path ++ $".default") ($"string option requires a string default")) (as_str dflt) in
  let? allowed_values := string_array (get ($"enum") definition) (path ++ $".enum") in
  let? proposals := string_array (get ($"proposals") definition) (path ++ $".proposals") in
  let allowed : option (gset (list N)) :=
    if bool_decide (allowed_values = []) then None else Some (list_to_set allowed_values) in
  fail_if match allowed with Some values => negb (bool_decide (dflt ∈ values)) | None => false end
    with metadata (path ++ $".default") ($"default is not in the option enum") in
  Ok (FeatureOption_String dflt allowed (list_to_set proposals)).

(** @src cdenv-devcontainer/src/feature/metadata.rs:189-254 parse_option_definitions *)
Definition option_definition (name : str) (value : Json) : result FeatureError FeatureOption :=
  let path := named ($"$.options") name in
  let? definition := ok_or (metadata path ($"option definition must be an object")) (as_object value) in
  let? kind := map_err (fun _ => metadata (path ++ $".type") ($"option type is required"))
    (required_string definition ($"type")) in
  let? dflt := ok_or (metadata (path ++ $".default") ($"option default is required")) (get ($"default") definition) in
  if str_eqb kind ($"boolean") then
    let? dflt := ok_or (metadata (path ++ $".default") ($"boolean option requires a boolean default")) (as_bool dflt) in
    Ok (FeatureOption_Boolean dflt)
  else if str_eqb kind ($"string") then string_option path definition dflt
  else Err (metadata (path ++ $".type") ($"option type must be boolean or string")).

(** @src cdenv-devcontainer/src/feature/metadata.rs:178-256 parse_option_definitions *)
Definition parse_option_definitions (value : option Json) : result FeatureError (strmap FeatureOption) :=
  match value with
  | None => Ok ∅
  | Some value =>
      let? object := ok_or (metadata ($"$.options") ($"options must be an object")) (as_object value) in
      collect_map option_definition object
  end.

(** [FeatureReference::parse] with its error as a [FeatureError]. *)
Definition parse_reference (reference : str) : result FeatureError FeatureReference :=
  map_err (fun e => Feature_UnsupportedReference (unsupported_reference e) (unsupported_reason e))
    (FeatureReference_parse Url_parse reference).

(** One dependency. @src cdenv-devcontainer/src/feature/metadata.rs:269-291 parse_dependencies *)
Definition dependency_entry (entries : list (FeatureReference * strmap FeatureValue)) (entry : str * Json) :
    result FeatureError (list (FeatureReference * strmap FeatureValue)) :=
  let '(reference, options) := entry in
  let? reference_value := parse_reference reference in
  let? options := ok_or (metadata (named ($"$.dependsOn") reference) ($"dependency options must be an object"))
    (as_object options) in
  let? values := collect_map (fun name value =>
    ok_or (metadata (named (named ($"$.dependsOn") reference) name) ($"option must be boolean or string"))
      (parse_feature_value value)) options in
  Ok (insert_reference reference_value values entries).

(** @src cdenv-devcontainer/src/feature/metadata.rs:258-293 parse_dependencies *)
Definition parse_dependencies (value : option Json) :
    result FeatureError (list (FeatureReference * strmap FeatureValue)) :=
  match value with
  | None => Ok []
  | Some value =>
      let? object := ok_or (metadata ($"$.dependsOn") ($"dependsOn must be an object")) (as_object value) in
      try_fold dependency_entry [] object
  end.

(** @src cdenv-devcontainer/src/feature/metadata.rs:305-332 parse_mounts *)
Definition parse_mount_entry (index : N) (value : Json) : result FeatureError RawMount :=
  match as_str value with
  | Some value => Ok (RawMount_String value)
  | None =>
      let? object := ok_or (metadata (indexed ($"$.mounts") index) ($"mount must be a string or object")) (as_object value) in
      let? kind := required_string object ($"type") in
      let? target := required_string object ($"target") in
      let? source := optional_string object ($"source") in
      let? kind := if str_eqb kind ($"bind") then Ok Mount_Bind
        else if str_eqb kind ($"volume") then Ok Mount_Volume
        else Err (metadata (indexed ($"$.mounts") index ++ $".type") ($"mount type must be bind or volume")) in
      Ok (RawMount_Object kind source target)
  end.

(** @src cdenv-devcontainer/src/feature/metadata.rs:295-334 parse_mounts *)
Definition parse_mounts (value : option Json) : result FeatureError (list RawMount) :=
  match value with
  | None => Ok []
  | Some value =>
      let? items := ok_or (metadata ($"$.mounts") ($"mounts must be an array")) (as_array value) in
      collect_list parse_mount_entry items
  end.

(** The arguments of a direct command. *)
Definition command_arguments (path : str) (items : list Json) : result FeatureError (list str) :=
  collect_list (fun index item =>
    ok_or (metadata (indexed path index) ($"command argument must be a string")) (as_str item)) items.

(** A named command. @src cdenv-devcontainer/src/feature/metadata.rs:360-389 parse_command *)
Definition parallel_command (path : str) (entry : str * Json) : result FeatureError (str * CommandValue) :=
  let '(name, value) := entry in
  match as_str value with
  | Some value => Ok (name, Command_Shell value)
  | None =>
      let? items := ok_or (metadata (named path name) ($"parallel command must be a string or array")) (as_array value) in
      let? arguments := command_arguments (named path name) items in
      Ok (name, Command_Exec arguments)
  end.

(** @src cdenv-devcontainer/src/feature/metadata.rs:336-392 parse_command *)
Definition parse_command (value : option Json) (path : str) : result FeatureError (option RawCommand) :=
  match value with
  | None => Ok None
  | Some value =>
      match as_str value, as_array value with
      | Some command, _ => Ok (Some (RawCommand_Shell command))
      | None, Some items => result_map (fun arguments => Some (RawCommand_Exec arguments)) (command_arguments path items)
      | None, None =>
          let? object := ok_or (metadata path ($"command must be a string, array, or object")) (as_object value) in
          result_map (fun commands => Some (RawCommand_Parallel commands)) (try_map (parallel_command path) object)
      end
  end.

(** The contributions. @src cdenv-devcontainer/src/feature/metadata.rs:146-167 FeatureMetadata::from_value *)
Definition parse_contributions (object : list (str * Json)) : result FeatureError FeatureContributions :=
  let? container_env := string_map (get ($"containerEnv") object) ($"$.containerEnv") in
  let? mounts := parse_mounts (get ($"mounts") object) in
  let? cap_add := string_array (get ($"capAdd") object) ($"$.capAdd") in
  let? security_opt := string_array (get ($"securityOpt") object) ($"$.securityOpt") in
  let? entrypoint := optional_string object ($"entrypoint") in
  let? on_create := parse_command (get ($"onCreateCommand") object) ($"$.onCreateCommand") in
  let? update_content := parse_command (get ($"updateContentCommand") object) ($"$.updateContentCommand") in
  let? post_create := parse_command (get ($"postCreateCommand") object) ($"$.postCreateCommand") in
  let? post_start := parse_command (get ($"postStartCommand") object) ($"$.postStartCommand") in
  let? post_attach := parse_command (get ($"postAttachCommand") object) ($"$.postAttachCommand") in
  let? customizations := object_map (get ($"customizations") object) ($"$.customizations") in
  let? init := optional_bool object ($"init") in
  let? privileged := optional_bool object ($"privileged") in
  Ok (mkContributions container_env mounts cap_add security_opt entrypoint
        (mkLifecycleCommands None on_create update_content post_create post_start post_attach)
        customizations init privileged).

(** @src cdenv-devcontainer/src/feature/metadata.rs:121-176 FeatureMetadata::from_value *)
Definition from_value (value : Json) : result FeatureError FeatureMetadata :=
  let? object := ok_or (metadata ($"$") ($"Feature metadata must be an object")) (as_object value) in
  let? _ := match List.find (fun '(name, _) => negb (bool_decide (name ∈ FEATURE_METADATA_PROPERTIES))) object with
    | Some (name, _) => Err (metadata ($"$." ++ name) ($"unknown Feature metadata property"))
    | None => Ok tt
    end in
  let? id := required_string object ($"id") in
  fail_if bool_decide (id = []) || contains_char 47 id || existsb is_whitespace id
    with metadata ($"$.id") ($"Feature id must be a non-empty local identifier") in
  let? version := required_string object ($"version") in
  fail_if bool_decide (version = []) with metadata ($"$.version") ($"Feature version cannot be empty") in
  let? options := parse_option_definitions (get ($"options") object) in
  let? depends_on := parse_dependencies (get ($"dependsOn") object) in
  let? installs_after := string_array (get ($"installsAfter") object) ($"$.installsAfter") in
  let? contributions := parse_contributions object in
  Ok (mkFeatureMetadata id version options depends_on installs_after contributions).


(** ** Dependencies in reference order *)

Definition reference_lt (a b : FeatureReference) : Prop := reference_cmp a b = Lt.

Lemma str_lt_trans a b c : str_cmp a b = Lt -> str_cmp b c = Lt -> str_cmp a c = Lt.
Proof.
  intros Hab Hbc. assert (Hac : str_le a c).
  { transitivity b; unfold str_le; congruence. }
  unfold str_le in Hac. destruct (str_cmp a c) eqn:E; [|done|done]. apply str_cmp_eq in E as ->.
  rewrite str_cmp_antisym, Hab in Hbc. done.
Qed.

#[local] Instance reference_lt_trans : Transitive reference_lt.
Proof.
  intros [a|a|a] [b|b|b] [c|c|c]; unfold reference_lt; cbn; intros H1 H2; try done; by eapply str_lt_trans.
Qed.

Lemma reference_cmp_eq a b : reference_cmp a b = Eq -> a = b.
Proof. destruct a, b; cbn; try done; by intros ->%str_cmp_eq. Qed.

Lemma reference_cmp_gt a b : reference_cmp a b = Gt -> reference_lt b a.
Proof. destruct a, b; unfold reference_lt; cbn; try done; rewrite str_cmp_antisym; by destruct (str_cmp _ _). Qed.

Lemma reference_lt_irrefl a : ~ reference_lt a a.
Proof. destruct a; unfold reference_lt; cbn; by rewrite str_cmp_refl. Qed.

Lemma insert_reference_keys {V} key (v : V) entries k :
  k ∈ (insert_reference key v entries).*1 -> k = key \/ k ∈ entries.*1.
Proof.
  induction entries as [|[k' v'] entries IH]; cbn; [set_solver|].
  destruct (reference_cmp key k') eqn:E; cbn; rewrite ?elem_of_cons; [|tauto|].
  - apply reference_cmp_eq in E as <-. tauto.
  - intros [->|Hk]; [tauto|]. destruct (IH Hk); tauto.
Qed.

Lemma insert_reference_sorted {V} key (v : V) entries :
  StronglySorted reference_lt entries.*1 -> StronglySorted reference_lt (insert_reference key v entries).*1.
Proof.
  induction entries as [|[k' v'] entries IH]; cbn; intros Hs; [by repeat constructor|].
  apply StronglySorted_inv in Hs as [Hs Hk]. destruct (reference_cmp key k') eqn:E; cbn.
  - apply reference_cmp_eq in E as <-. by constructor.
  - constructor; [by constructor|]. constructor; [done|]. eapply Forall_impl; [exact Hk|].
    intros k Hk'. by transitivity k'.
  - apply reference_cmp_gt in E. constructor; [by apply IH|]. apply Forall_forall.
    intros k [->|Hin]%insert_reference_keys; [done|]. rewrite Forall_forall in Hk. by apply Hk.
Qed.

(** ** Soundness *)

Record wf_feature_metadata (m : FeatureMetadata) : Prop := mk_wf_metadata {
  wfm_id : fm_id m <> [] /\ (47 ∉ fm_id m) /\ Forall (fun c => is_whitespace c = false) (fm_id m);
  wfm_version : fm_version m <> [];
  wfm_options : map_Forall (fun _ d => option_valid d (option_default d) = true) (fm_options m);
  wfm_dependencies : Forall (fun r => exists text, FeatureReference_parse Url_parse text = Ok r) (fm_depends_on m).*1;
  wfm_order : StronglySorted reference_lt (fm_depends_on m).*1;
  wfm_initialize : lc_initialize (fc_lifecycle (fm_contributions m)) = None;
}.

Lemma option_definition_valid name value d :
  option_definition name value = Ok d -> option_valid d (option_default d) = true.
Proof.
  unfold option_definition. intros H. binds H. destruct (str_eqb _ ($"boolean")).
  - binds H. by injection H as <-.
  - destruct (str_eqb _ ($"string")); [|done]. unfold string_option in H. binds H. injection H as <-. cbn.
    destruct (bool_decide (_ = [])); [done|]. by apply negb_false_iff in Heqb.
Qed.

Lemma parse_options_valid value m :
  parse_option_definitions value = Ok m -> map_Forall (fun _ d => option_valid d (option_default d) = true) m.
Proof.
  unfold parse_option_definitions. destruct value as [value|]; [|intros [= <-]; apply map_Forall_empty].
  intros H. binds H. revert H. apply collect_map_Forall. apply option_definition_valid.
Qed.

Lemma parse_dependencies_wf value l :
  parse_dependencies value = Ok l ->
  Forall (fun r => exists text, FeatureReference_parse Url_parse text = Ok r) l.*1 /\ StronglySorted reference_lt l.*1.
Proof.
  unfold parse_dependencies. destruct value as [value|]; [|intros [= <-]; by repeat constructor].
  intros H. binds H. revert H. apply (try_fold_ind (fun l : list (FeatureReference * strmap FeatureValue) =>
    Forall (fun r => exists text, FeatureReference_parse Url_parse text = Ok r) l.*1 /\ StronglySorted reference_lt l.*1));
    [|by repeat constructor].
  intros acc [reference options] acc' [Hp Hs] H. unfold dependency_entry in H. binds H. injection H as <-.
  split; [|by apply insert_reference_sorted]. apply Forall_forall.
  intros r [->|Hr]%insert_reference_keys; [|rewrite Forall_forall in Hp; by apply Hp].
  unfold parse_reference in Heqr0. destruct (FeatureReference_parse Url_parse reference) eqn:E; [|done].
  injection Heqr0 as <-. eauto.
Qed.

Lemma parse_contributions_initialize object c :
  parse_contributions object = Ok c -> lc_initialize (fc_lifecycle c) = None.
Proof. unfold parse_contributions. intros H. binds H. by injection H as <-. Qed.

Lemma from_value_wf value m : from_value value = Ok m -> wf_feature_metadata m.
Proof.
  unfold from_value. intros H. binds H. injection H as <-. prop_of_bool.
  destruct (parse_dependencies_wf _ _ ltac:(eassumption)) as [Hd Hs].
  constructor; cbn [fm_id fm_version fm_options fm_depends_on fm_contributions]; try done.
  - split; [done|]. split; [by apply contains_char_false|by apply existsb_false_iff].
  - by eapply parse_options_valid.
  - by eapply parse_contributions_initialize.
Qed.

(** parsed Feature metadata is usable.  Its identifier and version are not empty, the
    dependencies are parsed references in order without duplicates, the Feature contributes no
    command that runs on the host, and every option has a default of its own type and enumeration,
    so that a request without options is validated to exactly the defaults. *)
Theorem parsed_feature_usable value m path :
  from_value value = Ok m ->
  wf_feature_metadata m /\
  exists effective, validate_options m ∅ path = Ok effective /\
    forall k, effective !! k = option_default <$> fm_options m !! k.
Proof.
  intros Hwf%from_value_wf. split; [done|]. assert (Hv := validate_options_spec m ∅ path).
  destruct (validate_options m ∅ path) as [effective|e].
  - destruct Hv as (_ & Hv & _). exists effective. split; [done|]. intros k. rewrite Hv.
    by destruct (fm_options m !! k).
  - exfalso. destruct Hv as [(k & [v Hk] & _)|(k & d & Hd & Hv)]; [done|].
    rewrite lookup_empty in Hv. cbn in Hv. by rewrite (wfm_options _ Hwf k d Hd) in Hv.
Qed.

End parser.

Definition sample_feature_value : Json := Json_Object
  [($"dependsOn", Json_Object [($"./base", Json_Object [($"version", Json_String ($"1"))])]);
   ($"id", Json_String ($"tool"));
   ($"options", Json_Object [($"flavor", Json_Object
      [($"default", Json_String ($"a")); ($"enum", Json_Array [Json_String ($"a"); Json_String ($"b")]);
       ($"type", Json_String ($"string"))])]);
   ($"version", Json_String ($"1.0.0"))].

Lemma parsed_feature_usable_witness :
  exists m, from_value id (fun _ => Err []) sample_feature_value = Ok m /\
    exists effective, validate_options m ∅ [] = Ok effective /\ effective !! ($"flavor") = Some (Value_String ($"a")).
Proof.
  destruct (from_value id (fun _ => Err []) sample_feature_value) as [m|] eqn:E; [|by vm_compute in E].
  exists m. split; [done|]. destruct (parsed_feature_usable _ _ _ _ [] E) as (_ & eff & Hv & Hk).
  exists eff. split; [done|]. rewrite Hk. vm_compute in E. injection E as <-. vm_compute. reflexivity.
Defined.
