(* ===== verification/MetadataSources.v ===== *)
(** * MetadataSources: where the contributions of image metadata come from
    ([cdenv-devcontainer/src/metadata.rs], [ImageMetadata::from_feature] and [from_value])

    An inspected metadata object is written as a synthetic profile and read back with the JSONC
    reader and the profile validator.  [serde_json::to_vec], the JSONC parser and the text of its
    errors are parameters; the law used of them is that the text written for a value is parsed to
    that value. *)

From S2P Require Import Prelude Text Order Utf8 FeatureReference Profile Jsonc JsonValue ProfileValidator HostRequirements Metadata Feature FeatureParser Discovery.

(** @src cdenv-devcontainer/src/metadata.rs:12-39 METADATA_PROPERTIES *)
Definition METADATA_PROPERTIES : list str :=
  [$"id"; $"init"; $"privileged"; $"capAdd"; $"securityOpt"; $"entrypoint"; $"mounts"; $"onCreateCommand";
   $"updateContentCommand"; $"postCreateCommand"; $"postStartCommand"; $"postAttachCommand"; $"waitFor";
   $"customizations"; $"containerUser"; $"remoteUser"; $"userEnvProbe"; $"remoteEnv"; $"containerEnv";
   $"overrideCommand"; $"portsAttributes"; $"otherPortsAttributes"; $"forwardPorts"; $"shutdownAction";
   $"updateRemoteUserUID"; $"hostRequirements"].

(** [RawCommon::default()] *)
Definition default_common : RawCommon :=
  mkRawCommon ∅ [] ∅ ∅ None None None None None None [] [] [] [] [] ∅ None
    (mkLifecycleCommands None None None None None None) None None ∅ ∅.

(** @src cdenv-devcontainer/src/metadata.rs:71-91 ImageMetadata::from_feature *)
Definition from_feature (feature : ResolvedFeature) : ImageMetadata :=
  let contributions := fm_contributions (rf_metadata feature) in
  let d := default_common in
  mkImageMetadata (reference_as_str (rf_reference feature))
    (mkRawCommon (features d) (override_feature_install_order d) (fc_container_env contributions) (remote_env d)
       (container_user d) (remote_user d) (update_remote_user_uid d) (user_env_probe d) (fc_init contributions)
       (fc_privileged contributions) (fc_cap_add contributions) (fc_security_opt contributions)
       (fc_mounts contributions) (app_ports d) (forward_ports d) (ports_attributes d) (other_ports_attributes d)
       (fc_lifecycle contributions) (wait_for d) (host_requirements d) (fc_customizations contributions) (secrets d))
    (fc_entrypoint contributions) None None.

(** [Map::remove] and [Map::insert] on the entries in key order *)
Definition map_remove (key : str) (entries : list (str * Json)) : list (str * Json) :=
  List.filter (fun '(k, _) => negb (str_eqb k key)) entries.
Fixpoint map_insert (key : str) (value : Json) (entries : list (str * Json)) : list (str * Json) :=
  match entries with
  | [] => [(key, value)]
  | (k, v) :: rest =>
      match str_cmp key k with
      | Lt => (key, value) :: entries
      | Eq => (key, value) :: rest
      | Gt => (k, v) :: map_insert key value rest
      end
  end.

Section sources.
Context (to_vec : Json -> option (list N)) (parse_to_ast : str -> result (Range * str) (option AstValue))
  (to_value : AstValue -> Json) (json_string : str -> str) (jsonc_display : JsoncStop -> str)
  (Url_parse : str -> result str FeatureUrl).

(** @src cdenv-devcontainer/src/metadata.rs:128-134 ImageMetadata::from_value *)
Definition synthetic (object : list (str * Json)) : Json :=
  Json_Object (map_insert ($"image") (Json_String ($"metadata-validation.invalid"))
    (map_remove ($"entrypoint") (map_remove ($"id") object))).

(** @src cdenv-devcontainer/src/metadata.rs:100-168 ImageMetadata::from_value *)
Definition image_metadata_from_value (source : str) (value : Json) : result MetadataError ImageMetadata :=
  let? object := ok_or (Metadata_InvalidType source ($"$") ($"metadata contribution must be an object")) (as_object value) in
  let? _ := match List.find (fun '(key, _) => negb (bool_decide (key ∈ METADATA_PROPERTIES))) object with
    | Some (property, _) => Err (Metadata_UnknownProperty source ($"$." ++ property))
    | None => Ok tt
    end in
  let? entrypoint := transpose_map (fun value =>
    ok_or (Metadata_InvalidType source ($"$.entrypoint") ($"entrypoint must be a string")) (as_str value))
    (get ($"entrypoint") object) in
  let? bytes := ok_or (Metadata_Normalize source) (to_vec (synthetic object)) in
  let? path := map_err (fun _ => Metadata_Normalize source) (ConfigPath_parse ($".devcontainer/image-metadata.json")) in
  let? document := map_err (fun e => Metadata_Parse source (jsonc_display e))
    (parse_jsonc parse_to_ast to_value json_string (config_path_str path) bytes default_limits) in
  let? profile := map_err (fun e => Metadata_Validation source (d_property_path (profile_diagnostic e))
      (d_message (profile_diagnostic e))) (validate_profile json_string Url_parse document) in
  let '(override_command, shutdown_action) := scenario_scalars (scenario profile) in
  Ok (mkImageMetadata source (common profile) entrypoint override_command shutdown_action).


(** ** Commands of the host come from the repository *)

(** The documented behaviour of the JSON writer and the JSONC parser together. *)
Class Reparses : Prop := {
  written_is_parsed : forall v bytes text ast,
    to_vec v = Some bytes -> from_utf8 bytes = Some text -> parse_to_ast text = Ok (Some ast) -> to_value ast = v;
}.

Lemma parse_jsonc_value path bytes limits doc :
  parse_jsonc parse_to_ast to_value json_string path bytes limits = Ok doc ->
  exists text ast, from_utf8 bytes = Some text /\ parse_to_ast text = Ok (Some ast) /\ doc_value doc = to_value ast.
Proof.
  unfold parse_jsonc. destruct (_ <? _); [done|]. destruct (from_utf8 bytes) as [text|]; [|by destruct (utf8_error _ _ _)].
  cbn zeta. destruct (parse_to_ast text) as [[ast|]|[range message]] eqn:Hp.
  - destruct (check_value _ _ _ _ _ _ _ _); [|done]. intros [= <-]. eauto.
  - by destruct (line_span _ _).
  - by destruct (line_span _ _).
Qed.

Lemma get_absent key (entries : list (str * Json)) : key ∉ entries.*1 -> get key entries = None.
Proof.
  intros Hk. destruct (get key entries) as [v|] eqn:E; [|done]. apply get_Some_elem in E. exfalso.
  apply Hk, list_elem_of_fmap. by exists (key, v).
Qed.

Lemma map_insert_keys key value entries k : k ∈ (map_insert key value entries).*1 -> k = key \/ k ∈ entries.*1.
Proof.
  induction entries as [|[k' v'] entries IH]; cbn; [set_solver|].
  destruct (str_cmp key k') eqn:E; cbn; rewrite ?elem_of_cons; [tauto|tauto|].
  intros [->|Hk]; [tauto|]. destruct (IH Hk); tauto.
Qed.

Lemma map_remove_keys key entries k : k ∈ (map_remove key entries).*1 -> k ∈ entries.*1.
Proof.
  unfold map_remove. intros ([k' v'] & -> & Hin)%list_elem_of_fmap. apply list_elem_of_In, filter_In in Hin as [Hin _].
  apply list_elem_of_fmap. exists (k', v'). split; [done|]. by apply list_elem_of_In.
Qed.

Lemma common_of_absent (document : RawDocument) root c :
  common_of json_string Url_parse document root = Ok c ->
  get ($"initializeCommand") root = None -> lc_initialize (lifecycle c) = None.
Proof.
  unfold common_of. intros H Hi. binds H. injection H as <-. cbn [lifecycle].
  match goal with H : lifecycle_of _ _ root = Ok ?l |- lc_initialize ?l = None => revert H; unfold lifecycle_of end.
  rewrite Hi. cbn [command_of transpose_map]. intros H. binds H. by injection H as <-.
Qed.

Lemma validated_common (document : RawDocument) root p :
  validate_profile json_string Url_parse document = Ok p -> doc_value document = Json_Object root ->
  common_of json_string Url_parse document root = Ok (common p).
Proof.
  unfold validate_profile, ProfileValidator.validate. intros H Hd. rewrite Hd in H. cbn [object] in H. binds H.
  by injection H as <-.
Qed.

Lemma image_metadata_initialize `{HR : !Reparses} source value im :
  image_metadata_from_value source value = Ok im ->
  lc_initialize (lifecycle (im_common im)) = None.
Proof.
  unfold image_metadata_from_value. intros H. binds H.
  destruct (List.find _ _) as [[k v]|] eqn:Hf; [done|].
  destruct (to_vec (synthetic t)) as [b|] eqn:Hv; [|done]. injection Heqr2 as <-.
  destruct (parse_jsonc _ _ _ _ _ _) as [doc|] eqn:Hp; [|done]. injection Heqr4 as ->.
  destruct (validate_profile _ _ _) as [p|] eqn:Hval; [|done]. injection Heqr5 as ->.
  destruct (scenario_scalars _) as [ov sh]. injection H as <-. cbn [im_common].
  apply parse_jsonc_value in Hp as (text & ast & Hu & Hast & Hdoc).
  rewrite (written_is_parsed _ _ _ _ Hv Hu Hast) in Hdoc.
  apply (validated_common _ _ _ Hval) in Hdoc. eapply common_of_absent; [exact Hdoc|]. apply get_absent.
  intros [Hk|Hk%map_remove_keys%map_remove_keys]%map_insert_keys; [by vm_compute in Hk|].
  apply list_elem_of_fmap in Hk as ([k v] & Hkey & Hin). cbn in Hkey. subst k.
  apply list_elem_of_In, (find_none _ _ Hf) in Hin. by vm_compute in Hin.
Qed.

(** A contribution is the metadata of a resolved Feature that was parsed, or an object of an image
    label. *)
Inductive contributed (debug : str -> str) : ImageMetadata -> Prop :=
| contributed_feature feature value :
    from_value debug Url_parse value = Ok (rf_metadata feature) -> contributed debug (from_feature feature)
| contributed_label source value im :
    image_metadata_from_value source value = Ok im ->
    contributed debug im.

(** the commands that run on the host come from the repository only.  Whatever the labels of
    the base image and the metadata of the Features contain, the merged [initializeCommand]s are
    those of the repository's profile. *)
Theorem host_commands_from_repository `{HR : !Reparses} debug metadata repository e :
  Forall (contributed debug) metadata ->
  merge_image_metadata metadata repository = Ok e ->
  el_initialize (e_lifecycle e) = option_list (lc_initialize (lifecycle (common repository))).
Proof.
  intros Hall H. rewrite (merged_initialize _ _ _ H), omap_app.
  assert (Hnone : omap (fun c => lc_initialize (lifecycle c)) (List.map im_common metadata) = []).
  { clear H. induction Hall as [|im metadata Him _ IH]; [done|]. cbn. rewrite IH.
    destruct Him as [feature value Hf|source value im Him]; [|by rewrite (image_metadata_initialize _ _ _ Him)].
    apply from_value_wf, wfm_initialize in Hf. cbn. by rewrite Hf. }
  rewrite Hnone. cbn. by destruct (lc_initialize _).
Qed.
End sources.

(** ** An empty label

    A writer and a parser that know one value: the synthetic profile of an empty label. *)

Definition label_text : str := $"{'image':'metadata-validation.invalid'}".
Definition label_tree : AstValue :=
  Ast_Object [($"image", mkByteRange 1 8, Ast_String ($"metadata-validation.invalid") (mkByteRange 9 38))] (mkByteRange 0 39).
Definition label_to_vec (v : Json) : option (list N) :=
  match v with
  | Json_Object [(k, Json_String s)] =>
      if bool_decide (k = $"image" /\ s = $"metadata-validation.invalid") then Some label_text else None
  | _ => None
  end.
Definition label_parse (text : str) : result (Range * str) (option AstValue) :=
  if bool_decide (text = label_text) then Ok (Some label_tree) else Err (mkByteRange 0 0, []).
Definition label_value (_ : AstValue) : Json := synthetic [].

Lemma label_reparses : Reparses label_to_vec label_parse label_value.
Proof.
  split. intros v bytes text ast Hv _ _. unfold label_to_vec in Hv.
  destruct v as [| | | | |[|[k [| | |s| |]] [|]]]; try done. case_bool_decide as Hks; [|done].
  by destruct Hks as [-> ->].
Qed.

Definition label_contribution : result MetadataError ImageMetadata :=
  image_metadata_from_value label_to_vec label_parse label_value id (fun _ => []) (fun _ => Err []) ($"label")
    (Json_Object []).

Definition making_profile : RawProfile :=
  mkRawProfile None None (Scenario_Image (mkImageScenario ($"x") (mkNonComposeOptions None None [] None None)))
    (mkRawCommon ∅ [] ∅ ∅ None None None None None None [] [] [] [] [] ∅ None
       (mkLifecycleCommands (Some (RawCommand_Shell ($"make"))) None None None None None) None None ∅ ∅).

Lemma host_commands_from_repository_witness :
  exists im e, label_contribution = Ok im /\ merge_image_metadata [im] making_profile = Ok e /\
    el_initialize (e_lifecycle e) = [RawCommand_Shell ($"make")].
Proof.
  destruct label_contribution as [im|] eqn:Hl; [|by vm_compute in Hl].
  destruct (merge_image_metadata [im] making_profile) as [e|] eqn:He.
  - exists im, e. split; [done|]. split; [done|].
    apply (@host_commands_from_repository _ _ _ id (fun _ => []) (fun _ => Err []) label_reparses id [im] making_profile e);
      [|done].
    constructor; [|constructor]. by apply (contributed_label _ _ _ _ _ _ _ ($"label") (Json_Object [])).
  - vm_compute in Hl. injection Hl as <-. by vm_compute in He.
Defined.
