(* ===== verification/Compose.v ===== *)
(** * Compose: project names, service sets and the override document
    ([cdenv-devcontainer/src/compose.rs])

    SHA-256 and the JSON encoding of the override document are parameters. *)

From S2P Require Import Prelude Text Order Identity Workspace Profile Ports Planning.

(** ** Data *)

(** @src cdenv-devcontainer/src/compose.rs:17-26 ComposeIdentity *)
Record ComposeIdentity : Type := mkComposeIdentity {
  ci_installation : str;
  ci_workspace : str;
  ci_generation : str;
  ci_profile : str;
}.

(** @src cdenv-devcontainer/src/compose.rs:30-39 ComposeServiceModel *)
Record ComposeServiceModel : Type := mkServiceModel {
  service_image : option str;
  has_build : bool;
  dependencies : gset (list N);
  service_user : option str;
}.

(** @src cdenv-devcontainer/src/compose.rs:43-46 ComposeModel *)
Record ComposeModel : Type := mkComposeModel { services : strmap ComposeServiceModel }.

(** @src cdenv-devcontainer/src/compose.rs:71-78 ComposePrimaryOverride *)
Record ComposePrimaryOverride : Type := mkPrimaryOverride {
  po_image : option str;
  po_entrypoint : option (list str);
  po_command : option (list str);
}.

(** @src cdenv-devcontainer/src/compose.rs:81-90 ComposePlanningInputs *)
Record ComposePlanningInputs : Type := mkComposeInputs {
  cp_identity : ComposeIdentity;
  cp_runtime : RuntimePlan;
  cp_ports : PortPlan;
  cp_primary_override : ComposePrimaryOverride;
}.

(** @src cdenv-devcontainer/src/compose.rs:93-99 ComposePlan *)
Record ComposePlan : Type := mkComposePlan {
  project_name : str;
  primary_service : str;
  requested_services : list str;
  managed_services : list str;
  override_json : list N;
}.

(** @src cdenv-devcontainer/src/compose.rs:149-179 ComposePlanningError *)
Inductive ComposePlanningError : Type :=
| Compose_MissingPrimary (service : str)
| Compose_MissingRunService (service : str)
| Compose_MissingDependency (service dependency : str)
| Compose_InvalidIdentity (field : str)
| Compose_Encoding.

(** @src cdenv-devcontainer/src/compose.rs:308-316 MountOverride *)
Record MountOverride : Type := mkMountOverride {
  mo_kind : str;
  mo_source : option str;
  mo_target : str;
  mo_read_only : bool;
}.

(** @src cdenv-devcontainer/src/compose.rs:275-305 ServiceOverride *)
Record ServiceOverride : Type := mkServiceOverride {
  so_labels : strmap (list N);
  so_image : option str;
  so_build : option Json;
  so_pull_policy : option str;
  so_working_dir : option str;
  so_volumes : list MountOverride;
  so_environment : strmap (list N);
  so_ports : list str;
  so_user : option str;
  so_init : option bool;
  so_privileged : option bool;
  so_cap_add : list str;
  so_security_opt : list str;
  so_entrypoint : option (list str);
  so_command : option (list str);
}.

(** ** Project names *)

Definition MAXIMUM_COMPOSE_PROJECT_NAME_LENGTH : N := 63.
Definition PROJECT_HASH_LENGTH : N := 12.

(** [char::to_lowercase] as far as ASCII results tell: U+0130 and U+212A are the two characters
    outside ASCII whose lower case has an ASCII letter; the lower case of any other one has none. *)
Definition to_lowercase (c : char) : list char :=
  if c <? 128 then [to_ascii_lowercase c]
  else if c =? 304 then [105; 775]
  else if c =? 8490 then [107]
  else [c].

(** The loop body. @src cdenv-devcontainer/src/compose.rs:429-437 safe_project_component *)
Definition component_char (acc : str * bool) (character : char) : str * bool :=
  let '(output, separator) := acc in
  if is_ascii_alphanumeric character then (output ++ [character], false)
  else if negb separator && negb (bool_decide (output = [])) then (output ++ [45], true)
  else (output, separator).

(** @src cdenv-devcontainer/src/compose.rs:426-445 safe_project_component *)
Definition safe_project_component (value : str) : str :=
  let '(output, _) := fold_left component_char (concat (List.map to_lowercase value)) ([], false) in
  let output := trim_end_matches 45 output in
  if bool_decide (output = []) then $"x" else output.

Section project.
Context (Sha256_digest : list N -> list N).

(** [canonical] is ASCII, so its bytes are its characters.
    @src cdenv-devcontainer/src/compose.rs:185-202 compose_project_name *)
Definition compose_project_name (installation workspace : str) : str :=
  let canonical := $"cdenv-" ++ safe_project_component installation ++ $"-" ++ safe_project_component workspace in
  if lenN canonical <=? MAXIMUM_COMPOSE_PROJECT_NAME_LENGTH then canonical
  else
    let digest := hex_encode (Sha256_digest canonical) in
    let prefix_length := MAXIMUM_COMPOSE_PROJECT_NAME_LENGTH - PROJECT_HASH_LENGTH - 1 in
    let prefix := rev (drop_while (fun c => (c =? 45) || (c =? 95))
      (rev (take (N.to_nat prefix_length) canonical))) in
    prefix ++ $"-" ++ take (N.to_nat PROJECT_HASH_LENGTH) digest.

End project.

(** ** Services *)

(** One dependency. @src cdenv-devcontainer/src/compose.rs:254-264 dependency_closure *)
Definition dependency_step (model : ComposeModel) (service : str) (acc : gset (list N) * list str)
    (dependency : str) : result ComposePlanningError (gset (list N) * list str) :=
  let '(managed, pending) := acc in
  fail_if negb (is_Some_b (services model !! dependency))
    with Compose_MissingDependency service dependency in
  if bool_decide (dependency ∈ managed) then Ok (managed, pending)
  else Ok ({[dependency]} ∪ managed, dependency :: pending).

(** The dependencies of a service; [model.services[&service]] of a service of the model. *)
Definition dependencies_of (model : ComposeModel) (service : str) : gset (list N) :=
  match services model !! service with Some definition => dependencies definition | None => ∅ end.

(** The loop; the head of [pending] is the end of the vector, and the fuel bounds the services that
    are still to be popped.  @src cdenv-devcontainer/src/compose.rs:252-266 dependency_closure *)
Fixpoint closure_loop (fuel : nat) (model : ComposeModel) (managed : gset (list N)) (pending : list str) :
    result ComposePlanningError (gset (list N)) :=
  match pending, fuel with
  | [], _ | _, O => Ok managed
  | service :: pending, S fuel' =>
      let? (managed, pending) := try_fold (dependency_step model service) (managed, pending)
        (sorted_elements (dependencies_of model service)) in
      closure_loop fuel' model managed pending
  end.

(** @src cdenv-devcontainer/src/compose.rs:246-267 dependency_closure *)
Definition dependency_closure (model : ComposeModel) (requested : gset (list N)) :
    result ComposePlanningError (gset (list N)) :=
  closure_loop (size (services model)) model requested (rev (sorted_elements requested)).

(** ** The override document *)

(** @src cdenv-devcontainer/src/compose.rs:397-410 mount_override *)
Definition mount_override (mount : PlannedMount) : MountOverride :=
  mkMountOverride (match mount_kind mount with Mount_Bind => $"bind" | Mount_Volume => $"volume" end)
    (mount_source mount) (cp_as_str (pm_target mount))
    (existsb (fun o => str_eqb (option_name o) ($"readonly") || str_eqb (option_name o) ($"ro"))
       (mount_options mount)).

(** @src cdenv-devcontainer/src/compose.rs:323-340 render_override *)
Definition identity_labels_of (identity : ComposeIdentity) : strmap (list N) :=
  list_to_map [($"cdenv.generation", ci_generation identity); ($"cdenv.installation", ci_installation identity);
               ($"cdenv.profile", ci_profile identity); ($"cdenv.workspace", ci_workspace identity)].

Definition labelled (labels : strmap (list N)) : ServiceOverride :=
  mkServiceOverride labels None None None None [] ∅ [] None None None [] [] None None.

(** [then_some(true)] *)
Definition then_some_true (b : bool) : option bool := if b then Some true else None.

(** The settings of the primary service. @src cdenv-devcontainer/src/compose.rs:359-393 render_override *)
Definition primary_settings (inputs : ComposePlanningInputs) (service : ServiceOverride) : ServiceOverride :=
  let runtime := cp_runtime inputs in
  let replacement := cp_primary_override inputs in
  mkServiceOverride (so_labels service)
    (match po_image replacement with Some image => Some image | None => so_image service end)
    (match po_image replacement with Some _ => Some Json_Null | None => so_build service end)
    (match po_image replacement with Some _ => Some ($"never") | None => so_pull_policy service end)
    (Some (cp_as_str (ws_folder (rp_workspace runtime))))
    (so_volumes service ++ mount_override (ws_mount (rp_workspace runtime)) :: List.map mount_override (rp_mounts runtime))
    (env_container (rp_environment runtime))
    (List.map pub_argument (pp_publications (cp_ports inputs)))
    (Some (cu_as_str (rp_container_user runtime)))
    (then_some_true (rp_init runtime)) (then_some_true (rp_privileged runtime))
    (rp_cap_add runtime) (rp_security_opt runtime)
    (po_entrypoint replacement) (po_command replacement).

Section override.
Context (to_vec : strmap ServiceOverride -> option (list N)).
Context (Sha256_digest : list N -> list N).

(** The document, before its encoding. @src cdenv-devcontainer/src/compose.rs:341-393 render_override *)
Definition override_services (model : ComposeModel) (primary : str) (inputs : ComposePlanningInputs) :
    result ComposePlanningError (strmap ServiceOverride) :=
  let labels := identity_labels_of (cp_identity inputs) in
  let services := (fun _ => labelled labels) <$> services model in
  let? service := ok_or (Compose_MissingPrimary primary) (services !! primary) in
  Ok (<[primary := primary_settings inputs service]> services).

(** @src cdenv-devcontainer/src/compose.rs:318-395 render_override *)
Definition render_override (model : ComposeModel) (primary : str) (inputs : ComposePlanningInputs) :
    result ComposePlanningError (list N) :=
  let? services := override_services model primary inputs in
  ok_or Compose_Encoding (to_vec services).

(** @src cdenv-devcontainer/src/compose.rs:412-424 validate_identity *)
Definition validate_identity (identity : ComposeIdentity) : result ComposePlanningError unit :=
  try_fold (fun _ '(field, value) =>
    if bool_decide (value = []) || existsb is_control value then Err (Compose_InvalidIdentity field) else Ok tt)
    tt [($"installation", ci_installation identity); ($"workspace", ci_workspace identity);
        ($"generation", ci_generation identity); ($"profile", ci_profile identity)].

(** @src cdenv-devcontainer/src/compose.rs:209-244 plan_compose *)
Definition plan_compose (scenario : ComposeScenario) (model : ComposeModel) (inputs : ComposePlanningInputs) :
    result ComposePlanningError ComposePlan :=
  let? _ := validate_identity (cp_identity inputs) in
  fail_if negb (is_Some_b (services model !! compose_service scenario))
    with Compose_MissingPrimary (compose_service scenario) in
  let requested := match run_services scenario with
    | Some services => services
    | None => (sorted_entries (services model)).*1
    end in
  let? _ := try_fold (fun _ service =>
      if is_Some_b (services model !! service) then Ok tt else Err (Compose_MissingRunService service)) tt requested in
  let requested_services := {[compose_service scenario]} ∪ list_to_set requested in
  let? managed_services := dependency_closure model requested_services in
  let? override_json := render_override model (compose_service scenario) inputs in
  Ok (mkComposePlan
        (compose_project_name Sha256_digest (ci_installation (cp_identity inputs)) (ci_workspace (cp_identity inputs)))
        (compose_service scenario) (sorted_elements requested_services) (sorted_elements managed_services)
        override_json).

End override.

(** ** The managed services *)

(** [service] needs [dependency]. *)
Definition depends (model : ComposeModel) (service dependency : str) : Prop :=
  dependency ∈ dependencies_of model service.

Definition reachable (model : ComposeModel) (requested : gset (list N)) (service : str) : Prop :=
  exists r, r ∈ requested /\ rtc (depends model) r service.

Lemma dependency_fold model s ds managed pending :
  match try_fold (dependency_step model s) (managed, pending) ds with
  | Ok (managed', pending') => exists new, pending' = new ++ pending /\ managed' = list_to_set new ∪ managed /\
      NoDup new /\ (forall d, d ∈ new -> d ∈ ds /\ d ∉ managed) /\
      (forall d, d ∈ ds -> is_Some (services model !! d) /\ d ∈ managed')
  | Err e => exists d, d ∈ ds /\ e = Compose_MissingDependency s d /\ services model !! d = None
  end.
Proof.
  revert managed pending. induction ds as [|d ds IH]; intros managed pending; cbn [try_fold].
  { exists []. split; [done|]. split; [set_solver|]. split; [constructor|]. split; by intros ? ?%not_elem_of_nil. }
  unfold dependency_step at 1. destruct (services model !! d) as [def|] eqn:Hd; cbn [is_Some_b negb].
  2: { exists d. split; [by left|]. done. }
  assert (Hds : forall managed' : gset (list N), managed ⊆ managed' -> d ∈ managed' ->
    (forall x, x ∈ ds -> is_Some (services model !! x) /\ x ∈ managed') ->
    forall x, x ∈ d :: ds -> is_Some (services model !! x) /\ x ∈ managed').
  { intros m Hm Hdm Hx x [->|Hin]%elem_of_cons; [|by apply Hx]. split; [by rewrite Hd|done]. }
  case_bool_decide as Hin.
  - specialize (IH managed pending). destruct (try_fold _ _ ds) as [[m p]|].
    + destruct IH as (new & -> & -> & Hnd & Hnew & Hall). exists new. do 3 (split; [done|]). split.
      * intros x Hx. destruct (Hnew x Hx). split; [by right|done].
      * apply Hds; [set_solver|set_solver|done].
    + destruct IH as (x & Hx & ? & ?). exists x. split; [by right|done].
  - specialize (IH ({[d]} ∪ managed) (d :: pending)). destruct (try_fold _ _ ds) as [[m p]|].
    + destruct IH as (new & -> & -> & Hnd & Hnew & Hall). exists (new ++ [d]).
      split; [by rewrite <- app_assoc|]. split; [rewrite list_to_set_app_L; set_solver|]. split.
      { apply NoDup_app. split; [done|]. split; [|apply NoDup_singleton].
        intros x Hx ->%list_elem_of_singleton. destruct (Hnew d Hx). set_solver. }
      split; [|apply Hds; [set_solver|set_solver|done]].
      intros x [Hx| ->%list_elem_of_singleton]%elem_of_app; [|split; [by left|done]].
      destruct (Hnew x Hx). split; [by right|set_solver].
    + destruct IH as (x & Hx & ? & ?). exists x. split; [by right|done].
Qed.

(** The state of the search. *)
Record closure_inv (model : ComposeModel) (requested managed : gset (list N)) (pending : list str) : Prop :=
  mkClosureInv {
  inv_requested : requested ⊆ managed;
  inv_pending : forall s, s ∈ pending -> s ∈ managed;
  inv_nodup : NoDup pending;
  inv_model : forall s, s ∈ managed -> is_Some (services model !! s);
  inv_reach : forall s, s ∈ managed -> reachable model requested s;
  inv_done : forall s d, s ∈ managed -> (s ∉ pending) -> depends model s d -> d ∈ managed;
}.

Definition remaining (model : ComposeModel) (managed : gset (list N)) (pending : list str) : nat :=
  size (dom (services model) ∖ managed) + length pending.

Lemma closure_step model requested managed s pending managed' pending' :
  closure_inv model requested managed (s :: pending) ->
  try_fold (dependency_step model s) (managed, pending) (sorted_elements (dependencies_of model s)) =
    Ok (managed', pending') ->
  closure_inv model requested managed' pending' /\
  remaining model managed (s :: pending) = S (remaining model managed' pending').
Proof.
  intros [Hreq Hpend Hnd Hmod Hreach Hdone] H.
  assert (Hf := dependency_fold model s (sorted_elements (dependencies_of model s)) managed pending).
  rewrite H in Hf. destruct Hf as (new & -> & -> & Hndn & Hnew & Hall).
  apply NoDup_cons in Hnd as [Hs Hnd].
  assert (Hsm : s ∈ managed) by (apply Hpend; by left). split.
  - split.
    + set_solver.
    + intros x [Hx|Hx]%elem_of_app; [set_solver|]. apply elem_of_union_r, Hpend. by right.
    + apply NoDup_app. split; [done|]. split; [|done]. intros x Hx Hp.
      destruct (Hnew x Hx) as [_ Hout]. apply Hout, Hpend. by right.
    + intros x [Hx|Hx]%elem_of_union; [|by apply Hmod]. apply elem_of_list_to_set in Hx.
      apply Hall. by apply Hnew.
    + intros x [Hx|Hx]%elem_of_union; [|by apply Hreach]. apply elem_of_list_to_set in Hx.
      destruct (Hreach s Hsm) as (r & Hr & Hrs). exists r. split; [done|]. eapply rtc_r; [exact Hrs|].
      unfold depends. apply elem_of_sorted_elements. by apply Hnew.
    + intros x d Hx Hxp Hd. rewrite not_elem_of_app in Hxp. destruct Hxp as [Hxn Hxp].
      destruct (decide (x = s)) as [->|Hne]; [apply Hall; by apply elem_of_sorted_elements|].
      apply elem_of_union in Hx as [Hx%elem_of_list_to_set|Hx]; [done|].
      apply elem_of_union_r, (Hdone x); [done| |done]. by intros [->|?]%elem_of_cons.
  - unfold remaining. rewrite length_app. cbn [length].
    assert (Hsz : size (dom (services model) ∖ managed) =
      (length new + size (dom (services model) ∖ (list_to_set new ∪ managed)))%nat).
    { rewrite <- (size_list_to_set (C := gset (list N)) new Hndn), <- size_union by set_solver.
      f_equal. apply set_eq. intros x. split; [|].
      - intros Hx. destruct (decide (x ∈ new)); set_solver.
      - intros [Hx%elem_of_list_to_set|Hx]%elem_of_union; [|set_solver].
        apply elem_of_difference. split; [|by apply Hnew]. apply elem_of_dom. apply Hall. by apply Hnew. }
    lia.
Qed.

Lemma closure_loop_spec fuel model requested managed pending :
  closure_inv model requested managed pending -> (remaining model managed pending <= fuel)%nat ->
  match closure_loop fuel model managed pending with
  | Ok closed => forall s, s ∈ closed <-> reachable model requested s
  | Err e => exists s d, e = Compose_MissingDependency s d /\ reachable model requested s /\
      depends model s d /\ services model !! d = None
  end.
Proof.
  revert managed pending. induction fuel as [|fuel IH]; intros managed pending Hinv Hfuel.
  all: destruct pending as [|s pending]; [|unfold remaining in Hfuel; cbn [length] in Hfuel; try lia].
  1,2: cbn; intros x; split; [apply (inv_reach _ _ _ _ Hinv)|]; intros (r & Hr & Hrx);
    apply (inv_requested _ _ _ _ Hinv) in Hr; induction Hrx as [|x y z Hxy _ IHr]; [done|];
    apply IHr, (inv_done _ _ _ _ Hinv x); [done|apply not_elem_of_nil|done].
  cbn [closure_loop].
  destruct (try_fold _ _ _) as [[m p]|e] eqn:E.
  - destruct (closure_step _ _ _ _ _ _ _ Hinv E) as [Hinv' Hrem]. apply IH; [done|].
    unfold remaining in *. cbn [length] in *. lia.
  - assert (Hf := dependency_fold model s (sorted_elements (dependencies_of model s)) managed pending).
    rewrite E in Hf. destruct Hf as (d & Hd & -> & Hn). exists s, d. split; [done|].
    split; [|by apply elem_of_sorted_elements in Hd].
    apply (inv_reach _ _ _ _ Hinv), (inv_pending _ _ _ _ Hinv). by left.
Qed.

Lemma dependency_closure_spec model requested :
  (forall s, s ∈ requested -> is_Some (services model !! s)) ->
  match dependency_closure model requested with
  | Ok closed => forall s, s ∈ closed <-> reachable model requested s
  | Err e => exists s d, e = Compose_MissingDependency s d /\ reachable model requested s /\
      depends model s d /\ services model !! d = None
  end.
Proof.
  intros Hdom. apply closure_loop_spec.
  - split; [done| | |done| |].
    + intros s. by rewrite list_elem_of_In, <- in_rev, <- list_elem_of_In, elem_of_sorted_elements.
    + rewrite <- Permutation_rev. apply NoDup_sorted_elements.
    + intros s Hs. by exists s.
    + intros s d Hs Hp. exfalso. apply Hp.
      by rewrite list_elem_of_In, <- in_rev, <- list_elem_of_In, elem_of_sorted_elements.
  - unfold remaining. rewrite length_rev, length_sorted_elements.
    assert (Hsub : requested ⊆ dom (services model)) by (intros s Hs; by apply elem_of_dom, Hdom).
    rewrite size_difference by done. assert (Hle := subseteq_size _ _ Hsub). rewrite size_dom in *. lia.
Qed.

(** The services a scenario asks for. *)
Definition asked_services (scenario : ComposeScenario) (model : ComposeModel) : list str :=
  match run_services scenario with Some services => services | None => (sorted_entries (services model)).*1 end.

Lemma run_services_checked model l :
  match try_fold (fun (_ : unit) service =>
    if is_Some_b (services model !! service) then Ok tt else Err (Compose_MissingRunService service)) tt l with
  | Ok _ => forall s, s ∈ l -> is_Some (services model !! s)
  | Err e => exists s, e = Compose_MissingRunService s /\ s ∈ l /\ services model !! s = None
  end.
Proof.
  induction l as [|s l IH]; cbn [try_fold]; [by intros ? ?%not_elem_of_nil|].
  destruct (services model !! s) as [def|] eqn:Hs; cbn [is_Some_b].
  - destruct (try_fold _ _ l) as [[]|].
    + intros x [->|Hx]%elem_of_cons; [by rewrite Hs|by apply IH].
    + destruct IH as (x & ? & ? & ?). exists x. split; [done|]. by split; [right|].
  - exists s. split; [done|]. by split; [left|].
Qed.

Lemma override_services_Ok model primary inputs doc :
  override_services model primary inputs = Ok doc ->
  dom doc = dom (services model) /\
  (forall s o, doc !! s = Some o -> so_labels o = identity_labels_of (cp_identity inputs) /\
    (s <> primary -> o = labelled (identity_labels_of (cp_identity inputs)))).
Proof.
  unfold override_services. rewrite lookup_fmap. destruct (services model !! primary) eqn:Hp; [|done].
  cbn. intros [= <-]. split.
  - rewrite dom_insert_L, dom_fmap_L. assert (primary ∈ dom (services model)) by by apply elem_of_dom. set_solver.
  - intros s o Ho. destruct (decide (s = primary)) as [->|Hne].
    + rewrite lookup_insert_eq in Ho. injection Ho as <-. done.
    + rewrite lookup_insert_ne, lookup_fmap in Ho by done. destruct (services model !! s); [|done].
      injection Ho as <-. done.
Qed.

(** C32: a Compose plan manages exactly what it must.  The requested services are the primary one
    and those asked for (all of them when the profile does not say); the managed services are
    exactly the requested ones and what they depend on, directly or not; every service of the
    project carries the four labels of cdenv, and only the primary one has other settings.  A
    service or dependency is reported missing only when it is absent from the model, and for a
    dependency only when a managed service needs it.  The search always ends. *)
Theorem compose_plan_services to_vec Sha256_digest scenario model inputs :
  match plan_compose to_vec Sha256_digest scenario model inputs with
  | Ok plan =>
      primary_service plan = compose_service scenario /\
      (forall s, s ∈ requested_services plan <-> s = compose_service scenario \/ s ∈ asked_services scenario model) /\
      (forall s, s ∈ managed_services plan <-> reachable model (list_to_set (requested_services plan)) s) /\
      NoDup (requested_services plan) /\ NoDup (managed_services plan) /\
      exists doc, to_vec doc = Some (override_json plan) /\ dom doc = dom (services model) /\
        forall s o, doc !! s = Some o -> so_labels o = identity_labels_of (cp_identity inputs) /\
          (s <> compose_service scenario -> o = labelled (identity_labels_of (cp_identity inputs)))
  | Err (Compose_MissingPrimary s) => s = compose_service scenario /\ services model !! s = None
  | Err (Compose_MissingRunService s) => s ∈ asked_services scenario model /\ services model !! s = None
  | Err (Compose_MissingDependency s d) =>
      reachable model ({[compose_service scenario]} ∪ list_to_set (asked_services scenario model)) s /\
      depends model s d /\ services model !! d = None
  | Err (Compose_InvalidIdentity _) | Err Compose_Encoding => True
  end.
Proof.
  unfold plan_compose. destruct (validate_identity _) as [[]|e] eqn:Hi.
  2: { unfold validate_identity in Hi. by run Hi. }
  destruct (services model !! compose_service scenario) eqn:Hp; cbn [is_Some_b negb]; [|done].
  fold (asked_services scenario model). assert (Hr := run_services_checked model (asked_services scenario model)).
  destruct (try_fold _ tt (asked_services scenario model)) as [[]|e].
  2: { by destruct Hr as (s & -> & ? & ?). }
  assert (Hc := dependency_closure_spec model ({[compose_service scenario]} ∪ list_to_set (asked_services scenario model))).
  destruct (dependency_closure _ _) as [closed|e].
  2: { destruct Hc as (s & d & -> & ?); [|done]. intros s [->%elem_of_singleton|Hs%elem_of_list_to_set]%elem_of_union;
       [by rewrite Hp|by apply Hr]. }
  assert (Hcl : forall s, s ∈ closed <-> reachable model ({[compose_service scenario]} ∪ list_to_set (asked_services scenario model)) s).
  { apply Hc. intros s [->%elem_of_singleton|Hs%elem_of_list_to_set]%elem_of_union; [by rewrite Hp|by apply Hr]. }
  unfold render_override. destruct (override_services _ _ _) as [doc|e] eqn:Hd.
  2: { unfold override_services in Hd. rewrite lookup_fmap, Hp in Hd. done. }
  destruct (to_vec doc) as [bytes|] eqn:Hb; [|done]. cbn.
  split; [done|]. split; [|split; [|split; [apply NoDup_sorted_elements|split; [apply NoDup_sorted_elements|]]]].
  - intros s. rewrite elem_of_sorted_elements, elem_of_union, elem_of_singleton, elem_of_list_to_set. done.
  - intros s. rewrite elem_of_sorted_elements, Hcl. unfold reachable. apply exist_proper. intros r.
    by rewrite elem_of_list_to_set, elem_of_sorted_elements.
  - exists doc. split; [done|]. by apply override_services_Ok.
Qed.

(** ** Project names *)

Definition project_char (c : char) : bool := is_ascii_lowercase c || is_ascii_digit c || (c =? 45).

Lemma to_lowercase_alphanumeric c x :
  x ∈ to_lowercase c -> is_ascii_alphanumeric x = true -> project_char x = true /\ x <> 45.
Proof.
  assert (Hx : forall x, is_ascii_alphanumeric x = true -> is_ascii_uppercase x = false -> project_char x = true /\ x <> 45).
  { clear. intros x H Hu. unfold project_char, is_ascii_alphanumeric, is_ascii_alphabetic in *. rewrite Hu, orb_false_r in H.
    split; [by rewrite H|]. intros ->. done. }
  intros Hin Ha. apply Hx; [done|]. unfold to_lowercase in Hin.
  destruct (N.ltb_spec c 128) as [Hc|Hc].
  - apply list_elem_of_singleton in Hin as ->. unfold to_ascii_lowercase.
    destruct (is_ascii_uppercase c) eqn:Hu; [|done]. unfold is_ascii_uppercase in *.
    apply in_range_true in Hu. apply in_range_false. lia.
  - assert (Hbig : is_ascii_uppercase x = true -> 65 <= x <= 90) by (intros H; by apply in_range_true in H).
    destruct (is_ascii_uppercase x); [|done]. specialize (Hbig eq_refl). exfalso.
    destruct (c =? 304); [|destruct (c =? 8490)]; set_unfold in Hin; lia.
Qed.

(** A component that has been built so far. *)
Definition component_ok (output : str) : Prop :=
  Forall (fun c => project_char c = true) output /\ head output <> Some 45.

Lemma component_fold_ok chars acc :
  component_ok (fst acc) ->
  (forall x, x ∈ chars -> is_ascii_alphanumeric x = true -> project_char x = true /\ x <> 45) ->
  component_ok (fst (fold_left component_char chars acc)).
Proof.
  revert acc. induction chars as [|c chars IH]; intros [output separator] Hok Hchars; [done|].
  cbn [fold_left]. apply IH; [|intros x Hx; apply Hchars; by right]. destruct Hok as [Hall Hhead]. cbn in Hall, Hhead.
  unfold component_char. destruct (is_ascii_alphanumeric c) eqn:Ha.
  - destruct (Hchars c ltac:(by left) Ha) as [Hp Hne]. split; cbn.
    + apply Forall_app; split; [done|]. by repeat constructor.
    + destruct output; cbn; [congruence|done].
  - destruct separator; [done|]. case_bool_decide; [done|]. cbn. split; cbn.
    + apply Forall_app; split; [done|]. by repeat constructor.
    + by destruct output.
Qed.

Lemma safe_project_component_ok value :
  let s := safe_project_component value in
  s <> [] /\ Forall (fun c => project_char c = true) s /\ head s <> Some 45 /\ last s <> Some 45.
Proof.
  cbn zeta. unfold safe_project_component.
  assert (H : component_ok (fst (fold_left component_char (concat (List.map to_lowercase value)) ([], false)))).
  { apply component_fold_ok; [by split|]. intros x Hx. apply list_elem_of_In, in_concat in Hx as (l & Hl & Hx).
    apply in_map_iff in Hl as (c & <- & _). apply list_elem_of_In in Hx. by apply (to_lowercase_alphanumeric c). }
  destruct (fold_left _ _ _) as [output sep]. cbn [fst] in H. destruct H as [Hall Hhead].
  destruct (trim_end_matches_spec 45 output) as [[k Hk] Hlast]. case_bool_decide as He.
  { split; [done|]. split; [by repeat constructor|]. done. }
  split; [done|]. rewrite Hk in Hall, Hhead. apply Forall_app in Hall as [Hall _]. split; [done|]. split; [|done].
  by destruct (trim_end_matches 45 output).
Qed.

Lemma lower_hex_project c : lower_hex c = true -> project_char c = true.
Proof.
  unfold lower_hex, project_char, is_ascii_lowercase. intros [H|H]%orb_true_iff; [by rewrite H, orb_true_r|].
  apply in_range_true in H. apply orb_true_iff. left. apply orb_true_iff. left. apply in_range_true. lia.
Qed.

Lemma drop_while_stop {A} (p : A -> bool) a x b :
  p x = false -> drop_while p (a ++ x :: b) = drop_while p a ++ x :: b.
Proof. intros Hx. induction a as [|y a IH]; cbn; [by rewrite Hx|]. by destruct (p y). Qed.

(** A project name is one Compose accepts: at most 63 lower case letters, digits and hyphens, after
    the letters [cdenv]. *)
Theorem compose_project_name_valid (Sha256_digest : list N -> list N) installation workspace :
  (forall m, lenN (Sha256_digest m) = 32 /\ Forall (fun b => b < 256) (Sha256_digest m)) ->
  let name := compose_project_name Sha256_digest installation workspace in
  lenN name <= 63 /\ Forall (fun c => project_char c = true) name /\ starts_with ($"cdenv") name = true.
Proof.
  intros Hsha. cbn zeta. unfold compose_project_name.
  destruct (safe_project_component_ok installation) as (_ & Hi & _ & _).
  destruct (safe_project_component_ok workspace) as (_ & Hw & _ & _).
  set (canonical := $"cdenv-" ++ safe_project_component installation ++ $"-" ++ safe_project_component workspace).
  assert (Hc : Forall (fun c => project_char c = true) canonical).
  { unfold canonical. apply Forall_app; split; [by repeat constructor|]. apply Forall_app; split; [done|].
    by constructor. }
  destruct (N.leb_spec (lenN canonical) MAXIMUM_COMPOSE_PROJECT_NAME_LENGTH) as [Hle|Hgt].
  { split; [done|]. split; [done|]. apply starts_with_true. by eexists. }
  destruct (Hsha canonical) as [Hlen Hb]. destruct (hex_encode_spec _ Hb) as [_ Hhex].
  set (trimmed := rev (drop_while _ _)). 
  assert (Hpre : exists tail, take 50 canonical = trimmed ++ tail).
  { exists (rev (take_while (fun c => (c =? 45) || (c =? 95)) (rev (take 50 canonical)))).
    unfold trimmed. rewrite <- rev_app_distr, take_while_app_drop, rev_involutive. done. }
  destruct Hpre as [tail Htail]. split; [|split].
  - rewrite !lenN_app. assert (lenN trimmed <= 50).
    { apply (f_equal lenN) in Htail. rewrite lenN_app in Htail. unfold lenN in Htail |- *.
      rewrite length_take in Htail. lia. }
    assert (lenN (take (N.to_nat PROJECT_HASH_LENGTH) (hex_encode (Sha256_digest canonical))) <= 12).
    { rewrite lenN_take. unfold PROJECT_HASH_LENGTH. lia. }
    change (lenN ($"-")) with 1. lia.
  - apply Forall_app; split.
    + apply (Forall_take _ 50%nat) in Hc. rewrite Htail in Hc. by apply Forall_app in Hc as [? _].
    + constructor; [done|]. apply Forall_take. eapply Forall_impl; [exact Hhex|]. intros c. apply lower_hex_project.
  - apply starts_with_true. unfold trimmed.
    assert (Hcut : take 50 canonical = $"cdenv" ++ 45 :: take 44 (safe_project_component installation ++ $"-" ++
      safe_project_component workspace)) by done.
    change (N.to_nat (MAXIMUM_COMPOSE_PROJECT_NAME_LENGTH - PROJECT_HASH_LENGTH - 1)) with 50%nat.
    rewrite Hcut, rev_app_distr. change (rev ($"cdenv")) with (118 :: [110; 101; 100; 99]).
    rewrite drop_while_stop by done. rewrite rev_app_distr. cbn [rev app]. by eexists.
Qed.

(** ** Examples *)

(** Runs of separators are collapsed, so two valid workspace names of one installation may have the
    same project: the workspaces [a-b] and [a--b] would share their containers. *)
Lemma project_names_collide Sha256_digest :
  is_ok (validate_workspace_name ($"a-b")) = true /\ is_ok (validate_workspace_name ($"a--b")) = true /\
  compose_project_name Sha256_digest ($"main") ($"a-b") = compose_project_name Sha256_digest ($"main") ($"a--b").
Proof. split; [reflexivity|]. split; reflexivity. Qed.

(** Any option named [ro] or [readonly] makes the mount read-only in the override, also
    [readonly=false]. *)
Lemma readonly_false_is_read_only :
  mo_read_only (mount_override (mkPlannedMount Mount_Volume (Some ($"v")) (mkContainerPath ($"/x"))
    [mkMountOption ($"readonly") (Some ($"false"))])) = true.
Proof. reflexivity. Qed.

Definition service_needing (ds : list str) : ComposeServiceModel := mkServiceModel None false (list_to_set ds) None.
Definition compose_sample : ComposeModel :=
  mkComposeModel {[ $"app" := service_needing [$"db"; $"cache"]; $"db" := service_needing [$"disk"];
                    $"cache" := service_needing [$"db"]; $"disk" := service_needing []; $"docs" := service_needing [] ]}.
Definition planned_services (scenario : ComposeScenario) (model : ComposeModel) :
    option (result ComposePlanningError (list str * list str)) :=
  (fun runtime => result_map (fun p => (requested_services p, managed_services p))
     (plan_compose (fun _ => Some []) id scenario model
       (mkComposeInputs (mkComposeIdentity ($"i") ($"w") ($"1") ($"p")) runtime (mkPortPlan [] [] [])
         (mkPrimaryOverride None None None)))) <$> ok sample_plan.

Lemma compose_plan_examples :
  planned_services (mkComposeScenario [] ($"app") (Some []) ($"/w") None None) compose_sample =
    Some (Ok ([$"app"], [$"app"; $"cache"; $"db"; $"disk"])) /\
  planned_services (mkComposeScenario [] ($"app") (Some [$"mail"]) ($"/w") None None) compose_sample =
    Some (Err (Compose_MissingRunService ($"mail"))) /\
  planned_services (mkComposeScenario [] ($"app") (Some []) ($"/w") None None)
    (mkComposeModel {[ $"app" := service_needing [$"gone"] ]}) =
    Some (Err (Compose_MissingDependency ($"app") ($"gone"))).
Proof. vm_compute. split_and!; reflexivity. Qed.
