(* ===== verification/ImmutablePlan.v ===== *)
(** * ImmutablePlan: the material of the category fingerprints, and drift
    ([cdenv-devcontainer/src/immutable_plan.rs])

    The four categories of a plan are JSON values; [serde_json::to_vec] and the keyed digest are
    parameters.  An object is the list of its entries in the order of the source. *)

From S2P Require Import Prelude Text Order Substitution Profile FeatureReference Feature Ports Lifecycle Planning DockerOptions.

(** ** Data *)

(** @src cdenv-devcontainer/src/immutable_plan.rs:16-25 PlanCategory *)
Inductive PlanCategory : Type := Plan_Build | Plan_Create | Plan_Runtime | Plan_Lifecycle.

(** @src cdenv-devcontainer/src/immutable_plan.rs:28-43 ImmutablePlanInputs *)
Record ImmutablePlanInputs : Type := mkImmutableInputs {
  ip_build : BuildPlan;
  ip_run_arguments : list str;
  ip_runtime : RuntimePlan;
  ip_ports : PortPlan;
  ip_features : list ResolvedFeature;
  ip_lifecycle : LifecyclePlan;
  ip_entrypoints : list str;
}.

(** @src cdenv-devcontainer/src/immutable_plan.rs:48-65 ImmutablePlanSummary *)
Record ImmutablePlanSummary : Type := mkImmutableSummary {
  summary_scenario : str;
  feature_layers : N;
  summary_additional_mounts : N;
  summary_publications : N;
  summary_forwards : N;
  lifecycle_groups : N;
  summary_readiness : str;
  runtime_environment_required : bool;
}.

(** @src cdenv-devcontainer/src/immutable_plan.rs:68-74 ImmutablePlan *)
Record ImmutablePlan : Type := mkImmutablePlan {
  im_build : list N;
  im_create : list N;
  im_runtime : list N;
  im_lifecycle : list N;
  im_summary : ImmutablePlanSummary;
}.

(** @src cdenv-devcontainer/src/immutable_plan.rs:111-120 CategoryFingerprints *)
Record CategoryFingerprints (F : Type) : Type := mkFingerprints {
  fp_build : F;
  fp_create : F;
  fp_runtime : F;
  fp_lifecycle : F;
}.
Arguments mkFingerprints {F}.
Arguments fp_build {F}.
Arguments fp_create {F}.
Arguments fp_runtime {F}.
Arguments fp_lifecycle {F}.

(** @src cdenv-devcontainer/src/immutable_plan.rs:307-312 DesiredPlan *)
Inductive DesiredPlan (F : Type) : Type :=
| Desired_Valid (fingerprints : CategoryFingerprints F)
| Desired_Invalid.
Arguments Desired_Valid {F}.
Arguments Desired_Invalid {F}.

(** @src cdenv-devcontainer/src/immutable_plan.rs:316-341 DriftClassification *)
Inductive DriftClassification : Type :=
| Drift_Current
| Drift_RuntimeApplicable (build_warning create_warning lifecycle_next_generation : bool)
| Drift_BuildCreateWarning (build create lifecycle_next_generation : bool)
| Drift_LifecycleNextGeneration
| Drift_InvalidDesired.

(** ** Values *)

Definition strings (l : list str) : Json := Json_Array (List.map Json_String l).
Definition optional (o : option str) : Json := from_option Json_String Json_Null o.
Definition number (n : N) : Json := Json_Number (to_string n).
Definition entries_of {A} (f : A -> Json) (m : strmap A) : Json :=
  Json_Object (List.map (fun '(name, value) => (name, f value)) (sorted_entries m)).

(** @src cdenv-devcontainer/src/substitution.rs:167-179 DeferredString::fingerprint_value *)
Definition fingerprint_value (d : DeferredString) : Json :=
  Json_Array (List.map (fun segment => match segment with
    | Segment_Literal value => Json_Object [($"literal", Json_String value)]
    | Segment_ContainerEnv name dflt =>
        Json_Object [($"containerEnv", Json_String name); ($"default", Json_String dflt)]
    end) (segments_of d)).

(** @src cdenv-devcontainer/src/immutable_plan.rs:187-198 build_value *)
Definition build_value (plan : BuildPlan) : Json :=
  match plan with
  | Build_Image image => Json_Object [($"kind", Json_String ($"image")); ($"image", Json_String image)]
  | Build_Dockerfile plan =>
      Json_Object [($"kind", Json_String ($"dockerfile"));
        ($"dockerfile", Json_String (repo_as_str (plan_dockerfile plan)));
        ($"context", Json_String (repo_as_str (plan_context plan)));
        ($"target", optional (plan_target plan));
        ($"arguments", entries_of Json_String (plan_arguments plan));
        ($"cacheFrom", strings (plan_cache_from plan)); ($"options", strings (plan_options plan))]
  | Build_Compose => Json_Object [($"kind", Json_String ($"compose"))]
  end.

(** @src cdenv-devcontainer/src/immutable_plan.rs:210-216 identity_value *)
Definition identity_value (identity : FeatureInstallIdentity) : str :=
  match identity with OciDigest value | HttpsIntegrity value | LocalSource value => value end.

(** @src cdenv-devcontainer/src/immutable_plan.rs:218-223 option_value *)
Definition feature_option_value (value : FeatureValue) : Json :=
  match value with Value_Boolean value => Json_Bool value | Value_String value => Json_String value end.

(** @src cdenv-devcontainer/src/immutable_plan.rs:200-208 feature_value *)
Definition feature_value (feature : ResolvedFeature) : Json :=
  Json_Object [($"reference", Json_String (reference_as_str (rf_reference feature)));
    ($"identity", Json_String (identity_value (rf_identity feature)));
    ($"id", Json_String (fm_id (rf_metadata feature)));
    ($"version", Json_String (fm_version (rf_metadata feature)));
    ($"options", entries_of feature_option_value (rf_options feature))].

(** [format!("{reason:?}")] *)
Definition skip_reason_debug (r : UidUpdateSkipReason) : str :=
  match r with
  | Skip_Disabled => $"Disabled" | Skip_HostIdentityUnknown => $"HostIdentityUnknown"
  | Skip_RootUser => $"RootUser" | Skip_NumericUser => $"NumericUser"
  end.
Definition probe_debug (p : UserEnvProbe) : str :=
  match p with
  | Probe_None => $"None" | Probe_LoginShell => $"LoginShell"
  | Probe_LoginInteractiveShell => $"LoginInteractiveShell" | Probe_InteractiveShell => $"InteractiveShell"
  end.
Definition stage_debug (s : LifecycleStage) : str :=
  match s with
  | Initialize => $"Initialize" | OnCreate => $"OnCreate" | UpdateContent => $"UpdateContent"
  | PostCreate => $"PostCreate" | PostStart => $"PostStart" | PostAttach => $"PostAttach"
  end.

(** @src cdenv-devcontainer/src/immutable_plan.rs:225-232 uid_value *)
Definition uid_value (intent : UidUpdateIntent) : Json :=
  match intent with
  | Uid_None reason =>
      Json_Object [($"kind", Json_String ($"none")); ($"reason", Json_String (skip_reason_debug reason))]
  | Uid_UpdateNamedUser user host =>
      Json_Object [($"kind", Json_String ($"update")); ($"user", Json_String (cu_as_str user));
        ($"uid", number (host_uid host)); ($"gid", number (host_gid host))]
  end.

(** @src cdenv-devcontainer/src/immutable_plan.rs:234-241 mount_value *)
Definition mount_value (mount : PlannedMount) : Json :=
  Json_Object [($"type", Json_String (kind_text (mount_kind mount)));
    ($"source", optional (mount_source mount));
    ($"target", Json_String (cp_as_str (pm_target mount)));
    ($"options", Json_Array (List.map (fun o =>
       Json_Object [($"name", Json_String (option_name o)); ($"value", optional (Planning.option_value o))])
       (mount_options mount)))].

(** @src cdenv-devcontainer/src/immutable_plan.rs:264-271 process_value *)
Definition process_value (process : LifecycleProcess) : Json :=
  match process with
  | Process_Shell value => Json_Object [($"shell", fingerprint_value value)]
  | Process_Exec values => Json_Object [($"exec", Json_Array (List.map fingerprint_value values))]
  end.

(** @src cdenv-devcontainer/src/immutable_plan.rs:255-262 command_value *)
Definition command_value (command : LifecycleCommand) : Json :=
  match command with
  | Lifecycle_Process process => process_value process
  | Lifecycle_Parallel processes =>
      Json_Object [($"parallel", Json_Object (List.map (fun '(key, process) => (key, process_value process)) processes))]
  end.

(** @src cdenv-devcontainer/src/immutable_plan.rs:243-253 lifecycle_value *)
Definition lifecycle_value (plan : LifecyclePlan) : Json :=
  let stage (s : LifecycleStagePlan) := Json_Array (List.map command_value (plan_commands s)) in
  Json_Object [($"initialize", stage (p_initialize plan)); ($"onCreate", stage (p_on_create plan));
    ($"updateContent", stage (p_update_content plan)); ($"postCreate", stage (p_post_create plan));
    ($"postStart", stage (p_post_start plan)); ($"postAttach", stage (p_post_attach plan));
    ($"readiness", Json_String (stage_debug (readiness plan)))].

(** The derived serialisations of the parts of a forward. *)
Definition action_json (a : AutoForwardAction) : Json :=
  Json_String match a with
  | Auto_Notify => $"notify" | Auto_OpenBrowser => $"openBrowser" | Auto_OpenBrowserOnce => $"openBrowserOnce"
  | Auto_OpenPreview => $"openPreview" | Auto_Silent => $"silent" | Auto_Ignore => $"ignore"
  end.
Definition protocol_json (p : PortProtocol) : Json :=
  Json_String match p with Protocol_Http => $"http" | Protocol_Https => $"https" end.
Definition target_json (t : ForwardTargetHost) : Json :=
  match t with
  | Target_ContainerLoopback => Json_Object [($"kind", Json_String ($"containerLoopback"))]
  | Target_ComposeService service =>
      Json_Object [($"kind", Json_String ($"composeService")); ($"service", Json_String service)]
  end.
Definition port_json (p : PortNumber) : Json := number (port_get p).
Definition attributes_json (a : EffectivePortAttributes) : Json :=
  Json_Object [($"onAutoForward", action_json (pa_on_auto_forward a));
    ($"elevateIfNeeded", Json_Bool (pa_elevate_if_needed a)); ($"label", optional (pa_label a));
    ($"requireLocalPort", Json_Bool (pa_require_local_port a));
    ($"protocol", from_option protocol_json Json_Null (pa_protocol a))].
Definition forward_json (f : ForwardRequest) : Json :=
  Json_Object [($"requestedLocal", port_json (fr_requested_local f));
    ($"assignedLocal", from_option port_json Json_Null (fr_assigned_local f));
    ($"targetHost", target_json (fr_target_host f)); ($"targetPort", port_json (fr_target_port f));
    ($"attributes", attributes_json (fr_attributes f))].

(** @src cdenv-devcontainer/src/immutable_plan.rs:125-129 plan_immutable *)
Definition build_category (i : ImmutablePlanInputs) : Json :=
  Json_Object [($"source", build_value (ip_build i));
    ($"features", Json_Array (List.map feature_value (ip_features i)));
    ($"uidUpdate", uid_value (rp_uid_update (ip_runtime i)))].

(** @src cdenv-devcontainer/src/immutable_plan.rs:130-148 plan_immutable *)
Definition create_category (i : ImmutablePlanInputs) : Json :=
  let runtime := ip_runtime i in
  Json_Object [
    ($"workspace", Json_Object [($"folder", Json_String (cp_as_str (ws_folder (rp_workspace runtime))));
                                ($"mount", mount_value (ws_mount (rp_workspace runtime)))]);
    ($"mounts", Json_Array (List.map mount_value (rp_mounts runtime)));
    ($"containerUser", Json_String (cu_as_str (rp_container_user runtime)));
    ($"containerEnvironment", entries_of Json_String (env_container (rp_environment runtime)));
    ($"publications", strings (List.map pub_argument (pp_publications (ip_ports i))));
    ($"overrideCommand", Json_Bool (rp_override_command runtime));
    ($"init", Json_Bool (rp_init runtime)); ($"privileged", Json_Bool (rp_privileged runtime));
    ($"capAdd", strings (rp_cap_add runtime)); ($"securityOpt", strings (rp_security_opt runtime));
    ($"runArguments", strings (ip_run_arguments i)); ($"entrypoints", strings (ip_entrypoints i))].

(** @src cdenv-devcontainer/src/immutable_plan.rs:149-156 plan_immutable *)
Definition runtime_category (i : ImmutablePlanInputs) : Json :=
  let runtime := ip_runtime i in
  Json_Object [
    ($"remoteUser", Json_String (cu_as_str (rp_remote_user runtime)));
    ($"remoteEnvironment", entries_of (from_option fingerprint_value Json_Null) (env_remote (rp_environment runtime)));
    ($"userEnvProbe", Json_String (probe_debug (rp_user_env_probe runtime)));
    ($"forwards", Json_Array (List.map forward_json (pp_forwards (ip_ports i))))].

(** The stages of a plan, in order. *)
Definition stages (plan : LifecyclePlan) : list LifecycleStagePlan :=
  [p_initialize plan; p_on_create plan; p_update_content plan; p_post_create plan; p_post_start plan;
   p_post_attach plan].

(** @src cdenv-devcontainer/src/immutable_plan.rs:273-285 lifecycle_group_count *)
Definition lifecycle_group_count (plan : LifecyclePlan) : N :=
  fold_left N.add (List.map (fun s => lenN (plan_commands s)) (stages plan)) 0.

(** @src cdenv-devcontainer/src/immutable_plan.rs:287-299 lifecycle_requires_container_environment *)
Definition lifecycle_requires_container_environment (plan : LifecyclePlan) : bool :=
  existsb command_requires_container_environment (concat (List.map plan_commands (stages plan))).

Section plan.
Context (to_vec : Json -> option (list N)).

(** @src cdenv-devcontainer/src/immutable_plan.rs:301-303 canonical *)
Definition canonical (value : Json) : list N := default [] (to_vec value).

(** @src cdenv-devcontainer/src/immutable_plan.rs:124-185 plan_immutable *)
Definition plan_immutable (i : ImmutablePlanInputs) : ImmutablePlan :=
  mkImmutablePlan (canonical (build_category i)) (canonical (create_category i))
    (canonical (runtime_category i)) (canonical (lifecycle_value (ip_lifecycle i)))
    (mkImmutableSummary
      match ip_build i with
      | Build_Image _ => $"image" | Build_Dockerfile _ => $"dockerfile" | Build_Compose => $"compose"
      end
      (lenN (ip_features i)) (lenN (rp_mounts (ip_runtime i))) (lenN (pp_publications (ip_ports i)))
      (lenN (pp_forwards (ip_ports i))) (lifecycle_group_count (ip_lifecycle i))
      (stage_debug (readiness (ip_lifecycle i)))
      (runtime_container_environment_required (EnvironmentPlan_summary (rp_environment (ip_runtime i)))
       || lifecycle_requires_container_environment (ip_lifecycle i))).

End plan.

(** @src cdenv-devcontainer/src/immutable_plan.rs:96-106 ImmutablePlan::fingerprint_with *)
Definition fingerprint_with {F} (digest : PlanCategory -> list N -> F) (p : ImmutablePlan) : CategoryFingerprints F :=
  mkFingerprints (digest Plan_Build (im_build p)) (digest Plan_Create (im_create p))
    (digest Plan_Runtime (im_runtime p)) (digest Plan_Lifecycle (im_lifecycle p)).

(** @src cdenv-devcontainer/src/immutable_plan.rs:345-373 classify_drift *)
Definition classify_drift {F} `{EqDecision F} (desired : DesiredPlan F) (active : CategoryFingerprints F) :
    DriftClassification :=
  match desired with
  | Desired_Invalid => Drift_InvalidDesired
  | Desired_Valid desired =>
      let build := bool_decide (fp_build desired <> fp_build active) in
      let create := bool_decide (fp_create desired <> fp_create active) in
      let runtime := bool_decide (fp_runtime desired <> fp_runtime active) in
      let lifecycle := bool_decide (fp_lifecycle desired <> fp_lifecycle active) in
      if runtime then Drift_RuntimeApplicable build create lifecycle
      else if build || create then Drift_BuildCreateWarning build create lifecycle
      else if lifecycle then Drift_LifecycleNextGeneration
      else Drift_Current
  end.

(** ** What a category determines *)

#[local] Instance map_inj {A B} (f : A -> B) : Inj (=) (=) f -> Inj (=) (=) (List.map f).
Proof.
  intros Hf l. induction l as [|a l IH]; intros [|b k] H; try done. injection H as Ha Hl. f_equal; [by apply Hf|by apply IH].
Qed.

#[local] Instance to_string_inj : Inj (=) (=) to_string.
Proof.
  intros a b H. assert (Ha := parse_to_string (N.max a b) a ltac:(lia)).
  assert (Hb := parse_to_string (N.max a b) b ltac:(lia)). rewrite H in Ha. congruence.
Qed.

#[local] Instance strings_inj : Inj (=) (=) strings.
Proof. intros l k [= H]. revert H. apply map_inj. by intros ? ? [= ->]. Qed.

#[local] Instance optional_inj : Inj (=) (=) optional.
Proof. intros [a|] [b|]; cbn; congruence. Qed.

#[local] Instance number_inj : Inj (=) (=) number.
Proof. intros a b [= H]. by apply (inj to_string). Qed.

#[local] Instance port_json_inj : Inj (=) (=) port_json.
Proof. intros [a] [b] H. apply (inj number) in H. cbn in H. by subst. Qed.

Lemma sorted_entries_inj {A} (m m' : strmap A) : sorted_entries m = sorted_entries m' -> m = m'.
Proof.
  intros H. apply map_eq. intros k. destruct (m !! k) as [v|] eqn:E.
  - apply elem_of_sorted_entries in E. rewrite H in E. by apply elem_of_sorted_entries in E.
  - destruct (m' !! k) as [v|] eqn:E'; [|done]. apply elem_of_sorted_entries in E'. rewrite <- H in E'.
    apply elem_of_sorted_entries in E'. congruence.
Qed.

#[local] Instance entries_of_inj {A} (f : A -> Json) : Inj (=) (=) f -> Inj (=) (=) (entries_of f).
Proof.
  intros Hf m m' [= H]. apply sorted_entries_inj. revert H. apply map_inj.
  intros [k v] [k' v'] [= -> Hv]. f_equal. by apply Hf.
Qed.

#[local] Instance option_json_inj {A} (f : A -> Json) :
  Inj (=) (=) f -> (forall a, f a <> Json_Null) -> Inj (=) (=) (from_option f Json_Null).
Proof.
  intros Hf Hn [a|] [b|]; cbn; intros H; [by apply Hf in H; subst|by destruct (Hn a)|by destruct (Hn b)|done].
Qed.

#[local] Instance fingerprint_value_inj : Inj (=) (=) fingerprint_value.
Proof.
  intros [a] [b] [= H]. f_equal. revert H. apply map_inj. intros [] [] [=]; congruence.
Qed.

#[local] Instance Json_String_inj : Inj (=) (=) Json_String.
Proof. by intros ? ? [= ->]. Qed.

Lemma object_inj l k : Json_Object l = Json_Object k -> l = k.
Proof. by intros [= ->]. Qed.
Lemma array_inj l k : Json_Array l = Json_Array k -> l = k.
Proof. by intros [= ->]. Qed.
Lemma bool_inj a b : Json_Bool a = Json_Bool b -> a = b.
Proof. by intros [= ->]. Qed.
Lemma entries_cons (a b : str * Json) l k : a :: l = b :: k -> a = b /\ l = k.
Proof. by intros [= -> ->]. Qed.

(** Takes equations between JSON values apart, one constructor at a time, down to the injective
    functions of this file. *)
Ltac json_inj :=
  repeat match goal with
  | H : Json_Object _ = Json_Object _ |- _ => apply object_inj in H
  | H : Json_Array _ = Json_Array _ |- _ => apply array_inj in H
  | H : Json_Bool _ = Json_Bool _ |- _ => apply bool_inj in H
  | H : @eq (list (str * Json)) (_ :: _) (_ :: _) |- _ => apply entries_cons in H as [? H]
  | H : @eq (str * Json) (_, _) (_, _) |- _ => apply pair_equal_spec in H as [_ H]
  | H : @eq (list (str * Json)) [] [] |- _ => clear H
  | H : ?f _ = ?f _ |- _ => apply (inj f) in H
  end.

#[local] Instance kind_text_inj : Inj (=) (=) kind_text.
Proof. by intros [] []. Qed.

#[local] Instance option_value_inj :
  Inj (=) (=) (fun o => Json_Object [($"name", Json_String (option_name o)); ($"value", optional (Planning.option_value o))]).
Proof. intros [n v] [n' v'] H. cbn [option_name Planning.option_value] in H. json_inj. by subst. Qed.

#[local] Instance mount_value_inj : Inj (=) (=) mount_value.
Proof.
  intros [k s [t] o] [k' s' [t'] o'] H. unfold mount_value in H.
  cbn [mount_kind mount_source pm_target mount_options cp_as_str] in H. json_inj. by subst.
Qed.

#[local] Instance process_value_inj : Inj (=) (=) process_value.
Proof. intros [a|a] [b|b] H; try done; cbn [process_value] in H; json_inj; by subst. Qed.

#[local] Instance named_process_inj :
  Inj (=) (=) (fun '(key, process) => (key, process_value process) : str * Json).
Proof.
  intros [a p] [b q] H. apply pair_equal_spec in H as [-> H]. by apply (inj process_value) in H as ->.
Qed.

#[local] Instance command_value_inj : Inj (=) (=) command_value.
Proof.
  intros [p|l] [q|k] H; cbn [command_value] in H; [by json_inj; subst|by destruct p|by destruct q|].
  apply object_inj, entries_cons in H as [H _]. apply pair_equal_spec in H as [_ H]. apply object_inj in H.
  apply (inj (List.map _)) in H. by subst.
Qed.

#[local] Instance action_json_inj : Inj (=) (=) action_json.
Proof. by intros [] []. Qed.
#[local] Instance protocol_json_inj : Inj (=) (=) (from_option protocol_json Json_Null).
Proof. by intros [[]|] [[]|]. Qed.
#[local] Instance assigned_json_inj : Inj (=) (=) (from_option port_json Json_Null).
Proof. apply option_json_inj; [apply _|done]. Qed.
#[local] Instance target_json_inj : Inj (=) (=) target_json.
Proof. intros [|a] [|b] H; try done. cbn [target_json] in H. json_inj. by subst. Qed.
#[local] Instance remote_json_inj : Inj (=) (=) (from_option fingerprint_value Json_Null).
Proof. apply option_json_inj; [apply _|done]. Qed.

#[local] Instance attributes_json_inj : Inj (=) (=) attributes_json.
Proof.
  intros [a b c d e] [a' b' c' d' e'] H. unfold attributes_json in H.
  cbn [pa_on_auto_forward pa_elevate_if_needed pa_label pa_require_local_port pa_protocol] in H. json_inj. by subst.
Qed.

#[local] Instance forward_json_inj : Inj (=) (=) forward_json.
Proof.
  intros [a b c d e] [a' b' c' d' e'] H. unfold forward_json in H.
  cbn [fr_requested_local fr_assigned_local fr_target_host fr_target_port fr_attributes] in H. json_inj. by subst.
Qed.

#[local] Instance skip_reason_inj : Inj (=) (=) skip_reason_debug.
Proof. by intros [] []. Qed.
#[local] Instance probe_inj : Inj (=) (=) probe_debug.
Proof. by intros [] []. Qed.
#[local] Instance stage_debug_inj : Inj (=) (=) stage_debug.
Proof. by intros [] []. Qed.

#[local] Instance uid_value_inj : Inj (=) (=) uid_value.
Proof.
  intros [r|[u] [a b]] [r'|[u'] [a' b']] H; try done; unfold uid_value in H;
    cbn [cu_as_str host_uid host_gid] in H; json_inj; by subst.
Qed.

#[local] Instance build_value_inj : Inj (=) (=) build_value.
Proof.
  intros [a|[[d] [c] t args cf o]|] [b|[[d'] [c'] t' args' cf' o']|] H; try done; unfold build_value in H;
    cbn [plan_dockerfile plan_context plan_target plan_arguments plan_cache_from plan_options repo_as_str] in H;
    json_inj; by subst.
Qed.

(** What the fingerprint of a Feature shows: the kind of its reference and identity is not part of
    it. *)
Definition feature_view (f : ResolvedFeature) : str * str * str * str * strmap FeatureValue :=
  (reference_as_str (rf_reference f), identity_value (rf_identity f), fm_id (rf_metadata f),
   fm_version (rf_metadata f), rf_options f).

Definition stage_commands (plan : LifecyclePlan) : list (list LifecycleCommand) := List.map plan_commands (stages plan).

(** The settings of each category. *)
Definition same_build (i j : ImmutablePlanInputs) : Prop :=
  ip_build i = ip_build j /\ List.map feature_view (ip_features i) = List.map feature_view (ip_features j) /\
  rp_uid_update (ip_runtime i) = rp_uid_update (ip_runtime j).
Definition same_create (i j : ImmutablePlanInputs) : Prop :=
  rp_workspace (ip_runtime i) = rp_workspace (ip_runtime j) /\ rp_mounts (ip_runtime i) = rp_mounts (ip_runtime j) /\
  rp_container_user (ip_runtime i) = rp_container_user (ip_runtime j) /\
  env_container (rp_environment (ip_runtime i)) = env_container (rp_environment (ip_runtime j)) /\
  List.map pub_argument (pp_publications (ip_ports i)) = List.map pub_argument (pp_publications (ip_ports j)) /\
  (rp_override_command (ip_runtime i), rp_init (ip_runtime i), rp_privileged (ip_runtime i)) =
    (rp_override_command (ip_runtime j), rp_init (ip_runtime j), rp_privileged (ip_runtime j)) /\
  (rp_cap_add (ip_runtime i), rp_security_opt (ip_runtime i)) =
    (rp_cap_add (ip_runtime j), rp_security_opt (ip_runtime j)) /\
  ip_run_arguments i = ip_run_arguments j /\ ip_entrypoints i = ip_entrypoints j.
Definition same_runtime (i j : ImmutablePlanInputs) : Prop :=
  rp_remote_user (ip_runtime i) = rp_remote_user (ip_runtime j) /\
  env_remote (rp_environment (ip_runtime i)) = env_remote (rp_environment (ip_runtime j)) /\
  rp_user_env_probe (ip_runtime i) = rp_user_env_probe (ip_runtime j) /\
  pp_forwards (ip_ports i) = pp_forwards (ip_ports j).
Definition same_lifecycle (i j : ImmutablePlanInputs) : Prop :=
  stage_commands (ip_lifecycle i) = stage_commands (ip_lifecycle j) /\
  readiness (ip_lifecycle i) = readiness (ip_lifecycle j).

#[local] Instance feature_option_value_inj : Inj (=) (=) feature_option_value.
Proof. intros [a|a] [b|b] H; try done; by injection H as ->. Qed.

Lemma feature_value_view f g : feature_value f = feature_value g <-> feature_view f = feature_view g.
Proof.
  unfold feature_value, feature_view. split.
  - intros H. json_inj. congruence.
  - intros H. injection H as -> -> -> -> ->. done.
Qed.

Lemma feature_values_view l k :
  List.map feature_value l = List.map feature_value k <-> List.map feature_view l = List.map feature_view k.
Proof.
  revert k. induction l as [|f l IH]; intros [|g k]; try done. cbn [List.map]. split; intros H.
  - assert (Hf : feature_value f = feature_value g) by congruence. apply feature_value_view in Hf.
    f_equal; [done|]. apply IH. congruence.
  - injection H as H1 H2 H3 H4 H5 H6. f_equal; [|by apply IH]. apply feature_value_view. unfold feature_view. congruence.
Qed.

Lemma build_category_same i j : build_category i = build_category j <-> same_build i j.
Proof.
  unfold build_category, same_build. split.
  - intros H. apply object_inj in H. apply entries_cons in H as [Hb H]. apply entries_cons in H as [Hf H].
    apply pair_equal_spec in Hf as [_ Hf]. apply array_inj, feature_values_view in Hf. json_inj. done.
  - intros (-> & Hf & ->). apply feature_values_view in Hf. by rewrite Hf.
Qed.

Lemma create_category_same i j : create_category i = create_category j <-> same_create i j.
Proof.
  unfold create_category, same_create. split.
  - intros H. json_inj. destruct (rp_workspace (ip_runtime i)) as [[w] m], (rp_workspace (ip_runtime j)) as [[w'] m'].
    destruct (rp_container_user (ip_runtime i)) as [u], (rp_container_user (ip_runtime j)) as [u'].
    cbn [ws_folder ws_mount cp_as_str cu_as_str] in *. split_and!; congruence.
  - intros (-> & -> & -> & -> & -> & H1 & H2 & -> & ->). injection H1 as -> -> ->. by injection H2 as -> ->.
Qed.

Lemma runtime_category_same i j : runtime_category i = runtime_category j <-> same_runtime i j.
Proof.
  unfold runtime_category, same_runtime. split; [|by intros (-> & -> & -> & ->)].
  intros H. json_inj. destruct (rp_remote_user (ip_runtime i)) as [u], (rp_remote_user (ip_runtime j)) as [u'].
  cbn [cu_as_str] in *. split_and!; congruence.
Qed.

Lemma lifecycle_value_same i j :
  lifecycle_value (ip_lifecycle i) = lifecycle_value (ip_lifecycle j) <-> same_lifecycle i j.
Proof.
  unfold lifecycle_value, same_lifecycle, stage_commands, stages. cbn [List.map]. split.
  - intros H. json_inj. split; congruence.
  - intros [H ->]. injection H as -> -> -> -> -> ->. done.
Qed.

(** C33: drift is reported exactly where settings differ.  When the encoding and the digest do not
    collide, the classification of a desired plan against the active one says for each category
    whether any of its settings differ, no matter how the plans were obtained: build (source,
    Features with their options, user renumbering), create (workspace, mounts, user, container
    environment, publications, switches, capabilities, arguments, entry points), runtime (remote
    user and environment, probe, forwards) and lifecycle (the commands of every stage and the
    readiness stage).  Runtime drift takes precedence, then build and create, then lifecycle. *)
Theorem drift_reports_differences {F} `{EqDecision F} (to_vec : Json -> option (list N))
    (digest : PlanCategory -> list N -> F) i j :
  (forall v w, to_vec v = to_vec w -> v = w) -> (forall v, is_Some (to_vec v)) ->
  (forall c a b, digest c a = digest c b -> a = b) ->
  match classify_drift (Desired_Valid (fingerprint_with digest (plan_immutable to_vec i)))
          (fingerprint_with digest (plan_immutable to_vec j)) with
  | Drift_Current => same_build i j /\ same_create i j /\ same_runtime i j /\ same_lifecycle i j
  | Drift_RuntimeApplicable build create lifecycle =>
      ~ same_runtime i j /\ (build = false <-> same_build i j) /\ (create = false <-> same_create i j) /\
      (lifecycle = false <-> same_lifecycle i j)
  | Drift_BuildCreateWarning build create lifecycle =>
      same_runtime i j /\ (build = true \/ create = true) /\ (build = false <-> same_build i j) /\
      (create = false <-> same_create i j) /\ (lifecycle = false <-> same_lifecycle i j)
  | Drift_LifecycleNextGeneration =>
      same_build i j /\ same_create i j /\ same_runtime i j /\ ~ same_lifecycle i j
  | Drift_InvalidDesired => False
  end.
Proof.
  intros Hv Hs Hd.
  assert (Hc : forall v w, canonical to_vec v = canonical to_vec w <-> v = w).
  { intros v w. split; [|by intros ->]. unfold canonical. destruct (Hs v) as [x Hx], (Hs w) as [y Hy].
    rewrite Hx, Hy. cbn. intros ->. apply Hv. congruence. }
  assert (Hb : forall c v w, bool_decide (digest c (canonical to_vec v) <> digest c (canonical to_vec w)) = false <-> v = w).
  { intros c v w. rewrite bool_decide_eq_false, <- (Hc v w). split; [|by intros Heq Hne; apply Hne; rewrite Heq].
    intros Hn. apply (Hd c). by apply dec_stable. }
  assert (H1 := Hb Plan_Build (build_category i) (build_category j)). rewrite build_category_same in H1.
  assert (H2 := Hb Plan_Create (create_category i) (create_category j)). rewrite create_category_same in H2.
  assert (H3 := Hb Plan_Runtime (runtime_category i) (runtime_category j)). rewrite runtime_category_same in H3.
  assert (H4 := Hb Plan_Lifecycle (lifecycle_value (ip_lifecycle i)) (lifecycle_value (ip_lifecycle j))).
  rewrite lifecycle_value_same in H4. clear Hb. unfold classify_drift, fingerprint_with, plan_immutable.
  cbn [fp_build fp_create fp_runtime fp_lifecycle im_build im_create im_runtime im_lifecycle].
  assert (Hn : forall P, (true = false <-> P) -> ~ P) by (intros P HP Hp; by apply HP in Hp).
  assert (Hy : forall P, (false = false <-> P) -> P) by (intros P HP; by apply HP).
  revert H1 H2 H3 H4. destruct (bool_decide (digest Plan_Runtime _ <> _)).
  { intros H1 H2 H3 H4. split; [by apply Hn|]. done. }
  destruct (bool_decide (digest Plan_Build _ <> _)), (bool_decide (digest Plan_Create _ <> _)); cbn [orb];
    intros H1 H2 H3 H4.
  1-3: split; [by apply Hy|]; split; [by auto|]; done.
  apply Hy in H1, H2, H3. destruct (bool_decide (digest Plan_Lifecycle _ <> _)).
  - apply Hn in H4. done.
  - apply Hy in H4. done.
Qed.

(** ** Examples *)

Definition no_stage (s : LifecycleStage) : LifecycleStagePlan := mkStagePlan s [].
Definition no_lifecycle_plan : LifecyclePlan :=
  mkPlan (no_stage Initialize) (no_stage OnCreate) (no_stage UpdateContent) (no_stage PostCreate) (no_stage PostStart)
    (no_stage PostAttach) UpdateContent.
Definition immutable_inputs (image : str) (runtime : RuntimePlan) : ImmutablePlanInputs :=
  mkImmutableInputs (Build_Image image) [] runtime (mkPortPlan [] [] []) [] no_lifecycle_plan [].

(** An encoding of JSON that does not collide: every value is written with its kind and its lengths
    in unary, so that no encoding is a prefix of another. *)
Definition unary (n : nat) : list N := replicate n 1 ++ [0].
Definition framed (s : str) : list N := unary (length s) ++ s.
Fixpoint encode_json (v : Json) : list N :=
  match v with
  | Json_Null => [2]
  | Json_Bool b => [3; if b then 1 else 0]
  | Json_Number s => 4 :: framed s
  | Json_String s => 5 :: framed s
  | Json_Array l => 6 :: unary (length l) ++ concat (List.map encode_json l)
  | Json_Object l => 7 :: unary (length l) ++ concat (List.map (fun '(k, x) => framed k ++ encode_json x) l)
  end.

(** No encoding of [enc] is a proper prefix of another. *)
Definition prefix_free {A} (enc : A -> list N) (a : A) : Prop :=
  forall b x y, enc a ++ x = enc b ++ y -> a = b /\ x = y.

Lemma unary_prefix_free n : prefix_free unary n.
Proof.
  induction n as [|n IH]; intros [|m] x y H; unfold unary in H; cbn in H; try done; [by injection H as ->|].
  injection H as H. by destruct (IH m x y H) as [-> ->].
Qed.

Lemma framed_prefix_free s : prefix_free framed s.
Proof.
  intros k x y H. unfold framed in H. rewrite <- !app_assoc in H.
  apply unary_prefix_free in H as [Hl H]. by apply app_inj_1 in H.
Qed.

Lemma items_prefix_free {A} (enc : A -> list N) l :
  Forall (prefix_free enc) l ->
  forall k x y, length l = length k -> concat (List.map enc l) ++ x = concat (List.map enc k) ++ y -> l = k /\ x = y.
Proof.
  induction 1 as [|a l Ha _ IH]; intros [|b k] x y Hl H; try done. cbn in H. rewrite <- !app_assoc in H.
  apply Ha in H as [-> H]. injection Hl as Hl. by destruct (IH k x y Hl H) as [-> ->].
Qed.

Lemma encode_json_prefix_free : forall v, prefix_free encode_json v.
Proof.
  fix IH 1. intros [|b|s|s|l|l] [|b'|s'|s'|k|k] x y H; try discriminate H; injection H as H.
  - done.
  - by destruct b, b'; simplify_eq.
  - by apply framed_prefix_free in H as [-> ->].
  - by apply framed_prefix_free in H as [-> ->].
  - rewrite <- !app_assoc in H. apply unary_prefix_free in H as [Hl H].
    apply (items_prefix_free encode_json l) in H as [-> ->]; [done| |done]. clear H Hl.
    induction l as [|v l IHl]; constructor; [apply IH|apply IHl].
  - rewrite <- !app_assoc in H. apply unary_prefix_free in H as [Hl H].
    apply (items_prefix_free (fun '(k, x) => framed k ++ encode_json x) l) in H as [-> ->]; [done| |done]. clear H Hl.
    induction l as [|[n v] l IHl]; constructor; [|apply IHl].
    intros [m w] a b H. rewrite <- !app_assoc in H. apply framed_prefix_free in H as [-> H].
    by apply IH in H as [-> ->].
Qed.

Definition sample_drift (i j : ImmutablePlanInputs) : DriftClassification :=
  classify_drift (Desired_Valid (fingerprint_with (fun _ x => x) (plan_immutable (fun v => Some (encode_json v)) i)))
    (fingerprint_with (fun _ x => x) (plan_immutable (fun v => Some (encode_json v)) j)).

Definition small_runtime : RuntimePlan :=
  mkRuntimePlan (mkWorkspacePlan (mkContainerPath ($"/w")) (mkPlannedMount Mount_Bind (Some ($"/s")) (mkContainerPath ($"/w")) []))
    [] (mkContainerUser ($"u")) (mkContainerUser ($"u")) (Uid_None Skip_Disabled) (mkEnvironmentPlan ∅ ∅) Probe_None
    true false false [] [].

Lemma drift_reports_differences_witness :
  sample_drift (immutable_inputs ($"a") small_runtime) (immutable_inputs ($"b") small_runtime) =
    Drift_BuildCreateWarning true false false /\
  ~ same_build (immutable_inputs ($"a") small_runtime) (immutable_inputs ($"b") small_runtime) /\
  same_runtime (immutable_inputs ($"a") small_runtime) (immutable_inputs ($"b") small_runtime).
Proof.
  assert (Hd : sample_drift (immutable_inputs ($"a") small_runtime) (immutable_inputs ($"b") small_runtime) =
    Drift_BuildCreateWarning true false false) by (vm_compute; reflexivity).
  split; [exact Hd|].
  assert (H := drift_reports_differences (fun v => Some (encode_json v)) (fun _ x => x)
    (immutable_inputs ($"a") small_runtime) (immutable_inputs ($"b") small_runtime)).
  unfold sample_drift in Hd. rewrite Hd in H. destruct H as (Hr & _ & Hb & _).
  - intros v w Hv. injection Hv as Hv. apply (encode_json_prefix_free v w [] []). by rewrite !app_nil_r.
  - by eauto.
  - by auto.
  - split; [|exact Hr]. intros Hs. by apply Hb in Hs.
Defined.
