(* ===== verification/Status.v ===== *)
(** * Status: foreground operations and forwarding endpoints
    ([cdenv-core/src/status.rs]) *)

From S2P Require Import Prelude Text Net.

(** @src cdenv-core/src/status.rs:47-60 ForegroundOperation *)
Inductive ForegroundOperation : Type :=
| Op_Idle | Op_Creating | Op_Starting | Op_Rebuilding | Op_Stopping | Op_Locking.

#[export] Instance ForegroundOperation_eq_dec : EqDecision ForegroundOperation.
Proof. solve_decision. Defined.

(** @src cdenv-core/src/status.rs:300-300 TcpPort *)
Record TcpPort : Type := mkTcpPort { tcp_port : N }.

(** @src cdenv-core/src/status.rs:305-315 TcpPortError *)
Inductive TcpPortError : Type := TcpPort_Zero | TcpPort_TooLarge (value : N).

(** @src cdenv-core/src/status.rs:323-328 TcpPort::new *)
Definition TcpPort_new (value : N) : result TcpPortError TcpPort :=
  if value =? 0 then Err TcpPort_Zero else Ok (mkTcpPort value).

(** [u16::try_from] fails above its maximum.
    @src cdenv-core/src/status.rs:336-342 TcpPort::from_u32 *)
Definition TcpPort_from_u32 (value : N) : result TcpPortError TcpPort :=
  fail_if MAX_U16 <? value with TcpPort_TooLarge value in
  TcpPort_new value.

(** @src cdenv-core/src/status.rs:404-407 ForwardingEndpoint *)
Record ForwardingEndpoint : Type := mkEndpoint {
  endpoint_address : IpAddr;
  endpoint_port : TcpPort;
}.

(** @src cdenv-core/src/status.rs:412-422 ForwardingEndpointError *)
Inductive ForwardingEndpointError : Type :=
| Endpoint_InvalidPort (error : TcpPortError)
| Endpoint_NonLoopbackAddress (address : IpAddr).

(** @src cdenv-core/src/status.rs:431-437 ForwardingEndpoint::new *)
Definition ForwardingEndpoint_new (address : IpAddr) (port : TcpPort) :
    result ForwardingEndpointError ForwardingEndpoint :=
  fail_if negb (is_loopback address) with Endpoint_NonLoopbackAddress address in
  Ok (mkEndpoint address port).

(** @src cdenv-core/src/status.rs:446-448 ForwardingEndpoint::try_from_parts *)
Definition try_from_parts (address : IpAddr) (port : N) :
    result ForwardingEndpointError ForwardingEndpoint :=
  let? port := map_err Endpoint_InvalidPort (TcpPort_from_u32 port) in
  ForwardingEndpoint_new address port.

(** @src cdenv-core/src/status.rs:452-457 ForwardingEndpoint::loopback *)
Definition loopback_endpoint (port : TcpPort) : ForwardingEndpoint :=
  mkEndpoint (IpAddr_V4 (mkIpv4 0x7f000001)) port.

(** @src cdenv-core/src/status.rs:496-499 ForwardingEndpointAssignment *)
Record ForwardingEndpointAssignment : Type := mkAssignment {
  requested_endpoint : ForwardingEndpoint;
  assigned_endpoint : option ForwardingEndpoint;
}.

(** A listener endpoint is on loopback and its port is a nonzero 16-bit number. *)
Definition endpoint_ok (e : ForwardingEndpoint) : Prop :=
  is_loopback (endpoint_address e) = true /\ 0 < tcp_port (endpoint_port e) <= MAX_U16.

Lemma try_from_parts_spec address port e :
  try_from_parts address port = Ok e <->
  endpoint_ok e /\ e = mkEndpoint address (mkTcpPort port).
Proof.
  unfold try_from_parts, TcpPort_from_u32, TcpPort_new, ForwardingEndpoint_new, endpoint_ok, map_err.
  split.
  - intros H. destruct (N.ltb_spec MAX_U16 port); [done|]. destruct (N.eqb_spec port 0); [done|].
    destruct (is_loopback address) eqn:Hl; [|done]. injection H as <-. cbn. split_and!; [done|lia..|done].
  - intros [[Hl [Hp Hm]] ->]. cbn in *. destruct (N.ltb_spec MAX_U16 port); [lia|].
    destruct (N.eqb_spec port 0); [lia|]. by rewrite Hl.
Qed.

Lemma loopback_endpoint_ok port : 0 < tcp_port port <= MAX_U16 -> endpoint_ok (loopback_endpoint port).
Proof. by split. Qed.
