(* ===== verification/Storage.v ===== *)
(** * Storage: atomic replacement of managed files
    ([cdenv-cli/src/storage.rs], [cdenv-cli/src/paths.rs])

    A directory is a map from file names to entries; the bytes of a file are of an arbitrary
    type.  What the operating system does during one call is a script ([OsScript]): which of the
    durability steps fail, the random names, whether the inspection of the ancestors succeeds and
    whether the removal of the temporary file fails. *)

From S2P Require Import Prelude Text Identity.

(** ** Directory entries *)

(** [fs::FileType] *)
Inductive FileKind : Type := Kind_File | Kind_Directory | Kind_Socket | Kind_Symlink | Kind_Other.

Record Entry (C : Type) : Type := mkEntry {
  e_kind : FileKind;
  e_uid : N;
  e_mode : N;
  e_content : C;
}.
Arguments mkEntry {C} _ _ _ _.
Arguments e_kind {C} _.
Arguments e_uid {C} _.
Arguments e_mode {C} _.
Arguments e_content {C} _.

#[export] Instance FileKind_eq_dec : EqDecision FileKind.
Proof. solve_decision. Defined.

(** @src cdenv-cli/src/paths.rs:468-475 ManagedPathKind *)
Inductive ManagedPathKind : Type := Managed_Directory | Managed_File | Managed_Socket.

(** @src cdenv-cli/src/paths.rs:479-484 ManagedPathState *)
Inductive ManagedPathState : Type := Path_Missing | Path_Valid.

(** The path is that of the call. @src cdenv-cli/src/paths.rs:489-523 ManagedPathError *)
Inductive ManagedPathError : Type :=
| Managed_Inspect
| Managed_Symlink
| Managed_WrongKind (expected : ManagedPathKind)
| Managed_OwnershipMismatch (expected actual : N).

(** @src cdenv-cli/src/paths.rs:588-606 inspect_owner *)
Definition inspect_owner (actual : N) (expected_owner : option N) : result ManagedPathError unit :=
  match expected_owner with
  | Some expected =>
      fail_if negb (actual =? expected) with Managed_OwnershipMismatch expected actual in Ok tt
  | None => Ok tt
  end.

(** [fs::symlink_metadata] gives the entry, an error other than absence, or nothing.
    @src cdenv-cli/src/paths.rs:535-573 inspect_managed_path *)
Definition inspect_managed_path {C} (metadata : result unit (option (Entry C)))
    (expected_kind : ManagedPathKind) (expected_owner : option N) :
    result ManagedPathError ManagedPathState :=
  match metadata with
  | Err _ => Err Managed_Inspect
  | Ok None => Ok Path_Missing
  | Ok (Some entry) =>
      fail_if bool_decide (e_kind entry = Kind_Symlink) with Managed_Symlink in
      let kind_matches :=
        match expected_kind with
        | Managed_Directory => bool_decide (e_kind entry = Kind_Directory)
        | Managed_File => bool_decide (e_kind entry = Kind_File)
        | Managed_Socket => bool_decide (e_kind entry = Kind_Socket)
        end in
      fail_if negb kind_matches with Managed_WrongKind expected_kind in
      let? _ := inspect_owner (e_uid entry) expected_owner in
      Ok Path_Valid
  end.

(** ** Modes, stages, errors *)

(** @src cdenv-cli/src/storage.rs:14-21 ManagedMode *)
Inductive ManagedMode : Type := PrivateDirectory | PrivateFile | PublicFile.

(** @src cdenv-cli/src/storage.rs:26-32 ManagedMode::unix_bits *)
Definition unix_bits (mode : ManagedMode) : N :=
  match mode with
  | PrivateDirectory => 448
  | PrivateFile => 384
  | PublicFile => 420
  end.

(** @src cdenv-cli/src/storage.rs:37-52 AtomicWriteStage *)
Inductive AtomicWriteStage : Type :=
| CreateTemporary | SetPermissions | Write | Flush | SyncFile | Rename | SyncParent.

#[export] Instance AtomicWriteStage_eq_dec : EqDecision AtomicWriteStage.
Proof. solve_decision. Defined.

(** @src cdenv-cli/src/storage.rs:71-114 StorageError *)
Inductive StorageError : Type :=
| Storage_ManagedPath (error : ManagedPathError)
| Storage_InvalidDestination
| Storage_ParentSymlink
| Storage_ParentNotDirectory
| Storage_Random
| Storage_TemporaryNameExhausted
| Storage_Io (stage : AtomicWriteStage).

(** ** The operating system during one call *)

(** One attempt to create a temporary file: no randomness, or sixteen random bytes and an
    [open] that succeeds when the name is free, or fails for another reason. *)
Inductive Attempt : Type :=
| Attempt_NoRandom
| Attempt_Open (random : list N) (denied : bool).

Record OsScript (C : Type) : Type := mkOsScript {
  os_ancestors : result StorageError unit;
  os_parent : result unit (option (Entry C));
  os_target_unreadable : bool;
  os_attempts : list Attempt;
  os_fails : AtomicWriteStage -> bool;
  os_partial : C;
  os_remove_fails : bool;
}.
Arguments mkOsScript {C} _ _ _ _ _ _ _.
Arguments os_ancestors {C} _.
Arguments os_parent {C} _.
Arguments os_target_unreadable {C} _.
Arguments os_attempts {C} _.
Arguments os_fails {C} _ _.
Arguments os_partial {C} _.
Arguments os_remove_fails {C} _.

Section storage.
Context {C : Type} (user umask : N) (empty_content : C).

Abbreviation Directory := (gmap (list N) (Entry C)) (only parsing).

(** @src cdenv-cli/src/storage.rs:288-292 create_unique_temporary *)
Definition temporary_name (filename : str) (random : list N) : str :=
  $"." ++ filename ++ $".cdenv-tmp-" ++ hex_encode random.

Definition MAX_ATTEMPTS : nat := 128.

(** The bounded loop: an existing name is tried again with other random bytes.
    @src cdenv-cli/src/storage.rs:269-312 create_unique_temporary *)
Fixpoint create_unique_temporary (attempts_left : nat) (dir : Directory) (filename : str)
    (mode : ManagedMode) (attempts : list Attempt) : result StorageError (str * Directory) :=
  match attempts_left, attempts with
  | O, _ => Err Storage_TemporaryNameExhausted
  | S _, [] | S _, Attempt_NoRandom :: _ => Err Storage_Random
  | S remaining, Attempt_Open random denied :: rest =>
      let candidate := temporary_name filename random in
      match dir !! candidate with
      | Some _ => create_unique_temporary remaining dir filename mode rest
      | None =>
          fail_if denied with Storage_Io CreateTemporary in
          Ok (candidate, <[candidate :=
            mkEntry Kind_File user (N.ldiff (unix_bits mode) umask) empty_content]> dir)
      end
  end.

(** The drop of the temporary file on an exit before the rename.
    @src cdenv-cli/src/storage.rs:337-341 TemporaryFile::drop *)
Definition drop_temporary (os : OsScript C) (temporary : str) (dir : Directory) : Directory :=
  if os_remove_fails os then dir else delete temporary dir.

(** The steps after the temporary file is created.
    @src cdenv-cli/src/storage.rs:222-250 atomic_write_with_hook *)
Definition write_and_rename (os : OsScript C) (dir : Directory) (temporary filename : str)
    (content : C) (mode : ManagedMode) : Directory * result StorageError unit :=
  let fail dir stage := (drop_temporary os temporary dir, Err (Storage_Io stage)) in
  if os_fails os SetPermissions then fail dir SetPermissions else
  let dir := <[temporary := mkEntry Kind_File user (unix_bits mode) empty_content]> dir in
  if os_fails os Write
  then fail (<[temporary := mkEntry Kind_File user (unix_bits mode) (os_partial os)]> dir) Write else
  let complete := mkEntry Kind_File user (unix_bits mode) content in
  let dir := <[temporary := complete]> dir in
  if os_fails os Flush then fail dir Flush else
  if os_fails os SyncFile then fail dir SyncFile else
  if os_fails os Rename then fail dir Rename else
  let dir := <[filename := complete]> (delete temporary dir) in
  if os_fails os SyncParent then (dir, Err (Storage_Io SyncParent)) else (dir, Ok tt).

(** An empty file name stands for a path without one.
    @src cdenv-cli/src/storage.rs:193-250 atomic_write_with_hook *)
Definition atomic_write (os : OsScript C) (dir : Directory) (filename : str) (content : C)
    (mode : ManagedMode) : Directory * result StorageError unit :=
  let stop e := (dir, Err e) in
  if bool_decide (filename = []) then stop Storage_InvalidDestination else
  match os_ancestors os with
  | Err e => stop e
  | Ok _ =>
  match inspect_managed_path (os_parent os) Managed_Directory (Some user) with
  | Err e => stop (Storage_ManagedPath e)
  | Ok _ =>
  match inspect_managed_path (if os_target_unreadable os then Err tt else Ok (dir !! filename))
          Managed_File (Some user) with
  | Err e => stop (Storage_ManagedPath e)
  | Ok _ =>
  match create_unique_temporary MAX_ATTEMPTS dir filename mode (os_attempts os) with
  | Err e => stop e
  | Ok (temporary, dir) => write_and_rename os dir temporary filename content mode
  end end end end.

(** ** Atomicity *)

Lemma temporary_name_longer filename random : temporary_name filename random <> filename.
Proof.
  intros H. apply (f_equal length) in H. unfold temporary_name in H.
  rewrite !length_app in H. cbn in H. lia.
Qed.

Lemma create_unique_temporary_Ok n dir filename mode attempts temporary dir' :
  create_unique_temporary n dir filename mode attempts = Ok (temporary, dir') ->
  dir !! temporary = None /\ temporary <> filename /\
  (exists random, temporary = temporary_name filename random) /\
  exists e, dir' = <[temporary := e]> dir.
Proof.
  revert attempts. induction n as [|n IH]; intros attempts H; [done|].
  destruct attempts as [|[|random denied] rest]; [done..|]. cbn [create_unique_temporary] in H.
  destruct (dir !! temporary_name filename random) eqn:Hd; [by eapply IH|].
  destruct denied; [done|]. injection H as <- <-.
  split_and!; [done|apply temporary_name_longer|by eexists|by eexists].
Qed.

(** The file as a successful replacement leaves it. *)
Definition replaced (mode : ManagedMode) (content : C) : Entry C :=
  mkEntry Kind_File user (unix_bits mode) content.

(** What one call may do to the directory.  [leftover] is a temporary file whose removal
    failed. *)
Definition atomic_effect (os : OsScript C) (filename : str) (content : C) (mode : ManagedMode)
    (dir dir' : Directory) (r : result StorageError unit) : Prop :=
  match r with
  | Ok _ => dir' = <[filename := replaced mode content]> dir
  | Err e =>
      dir' = dir \/
      (e = Storage_Io SyncParent /\ dir' = <[filename := replaced mode content]> dir) \/
      (e <> Storage_Io SyncParent /\ os_remove_fails os = true /\ exists random leftover,
         dir !! temporary_name filename random = None /\
         dir' = <[temporary_name filename random := leftover]> dir)
  end.

Lemma drop_temporary_effect os temporary e dir :
  dir !! temporary = None ->
  drop_temporary os temporary (<[temporary := e]> dir) =
    if os_remove_fails os then <[temporary := e]> dir else dir.
Proof.
  intros H. unfold drop_temporary. destruct (os_remove_fails os); [done|]. by apply delete_insert_id.
Qed.

Lemma write_and_rename_effect os dir random filename e0 content mode dir' r :
  dir !! temporary_name filename random = None ->
  write_and_rename os (<[temporary_name filename random := e0]> dir)
    (temporary_name filename random) filename content mode = (dir', r) ->
  atomic_effect os filename content mode dir dir' r.
Proof.
  intros Hfree H. unfold write_and_rename in H. rewrite !insert_insert_eq in H.
  assert (Hleft : forall e stage, stage <> SyncParent -> (drop_temporary os (temporary_name filename random)
      (<[temporary_name filename random := e]> dir), Err (Storage_Io stage)) = (dir', r) ->
      atomic_effect os filename content mode dir dir' r).
  { intros e stage Hs Heq. rewrite drop_temporary_effect in Heq by done.
    destruct (os_remove_fails os) eqn:Hr; injection Heq as <- <-; cbn; [|by left].
    right. right. split_and!; [congruence|done|]. by exists random, e. }
  destruct (os_fails os SetPermissions); [by eapply Hleft in H|].
  destruct (os_fails os Write); [by eapply Hleft in H|].
  destruct (os_fails os Flush); [by eapply Hleft in H|].
  destruct (os_fails os SyncFile); [by eapply Hleft in H|].
  destruct (os_fails os Rename); [by eapply Hleft in H|].
  rewrite delete_insert_id in H by done.
  destruct (os_fails os SyncParent); injection H as <- <-; cbn; auto.
Qed.

Lemma atomic_write_effect os dir filename content mode dir' r :
  atomic_write os dir filename content mode = (dir', r) ->
  atomic_effect os filename content mode dir dir' r.
Proof.
  intros H. unfold atomic_write in H. case_bool_decide; [injection H as <- <-; by left|].
  destruct (os_ancestors os); [|injection H as <- <-; by left].
  destruct (inspect_managed_path (os_parent os) _ _); [|injection H as <- <-; by left].
  destruct (inspect_managed_path (if os_target_unreadable os then _ else _) _ _); [|injection H as <- <-; by left].
  destruct (create_unique_temporary _ _ _ _ _) as [[temporary d]|] eqn:Hc;
    [|injection H as <- <-; by left].
  apply create_unique_temporary_Ok in Hc as (Hf & _ & [random ->] & e & ->).
  by eapply write_and_rename_effect.
Qed.

(** C12: replacing a managed file is atomic, whatever step fails: afterwards the destination is
    as before, or it is a regular file of the calling user with the requested mode and the
    complete content; it is the latter when the call succeeds, and when only the final
    synchronisation of the directory failed.  No other file changes: a temporary file is left
    behind only when its removal failed too. *)
Theorem atomic_write_is_atomic os dir filename content mode :
  let '(dir', r) := atomic_write os dir filename content mode in
  (dir' !! filename = dir !! filename \/
   dir' !! filename = Some (mkEntry Kind_File user (unix_bits mode) content)) /\
  (r = Ok tt \/ r = Err (Storage_Io SyncParent) /\ dir' <> dir ->
   dir' !! filename = Some (mkEntry Kind_File user (unix_bits mode) content)) /\
  (forall other, other <> filename -> dir' !! other <> dir !! other ->
   os_remove_fails os = true /\ (exists random, other = temporary_name filename random) /\
   dir !! other = None /\ is_ok r = false /\ dir' !! filename = dir !! filename).
Proof.
  destruct (atomic_write os dir filename content mode) as [dir' r] eqn:H.
  apply atomic_write_effect in H.
  destruct r as [[]|e]; cbn in H; [subst|destruct H as [->|[[-> ->]|(He & Hr & random & leftover & Hfree & ->)]]].
  - rewrite lookup_insert_eq. split_and!; [by right|done|]. intros other Hne.
    by rewrite lookup_insert_ne.
  - split_and!; [by left| |done]. by intros [|[_ ?]].
  - rewrite lookup_insert_eq. split_and!; [by right|done|]. intros other Hne.
    by rewrite lookup_insert_ne.
  - assert (Hne := temporary_name_longer filename random). rewrite lookup_insert_ne by done.
    split_and!; [by left| |].
    + intros [?|[[= ->] _]]; done.
    + intros other Hof Hoc. destruct (decide (other = temporary_name filename random)) as [->|Hot].
      * split_and!; [done|by exists random|done|done|done].
      * by rewrite lookup_insert_ne in Hoc by done.
Qed.
End storage.
