(* ===== verification/WorkspaceState.v ===== *)
(** * WorkspaceState: the durable state of a workspace
    ([cdenv-cli/src/state.rs], with the records it stores from [installation.rs] and
    [compose_rebuild.rs])

    The JSON codec is a parameter ([StateSerde]) with the round trip its derived
    implementations give.  [StateStore] is what the transactions need of the store: an
    abstract view of the stored state that a successful [persist] replaces and a failed one
    replaces or keeps; [managed_store_laws] discharges it for a managed directory. *)

From S2P Require Import Prelude Text Utf8 Net Identity Workspace Status Storage.

(** @src cdenv-cli/src/state.rs:24-24 WORKSPACE_STATE_SCHEMA_VERSION *)
Definition WORKSPACE_STATE_SCHEMA_VERSION : N := 1.
(** @src cdenv-cli/src/state.rs:25-25 LEGACY_SCHEMA_VERSION *)
Definition LEGACY_SCHEMA_VERSION : N := 0.
(** @src cdenv-cli/src/state.rs:26-26 MAX_SUMMARY_BYTES *)
Definition MAX_SUMMARY_BYTES : nat := 1024.

(** ** Validated fields *)

(** @src cdenv-cli/src/installation.rs:194-194 KeyedDigest *)
Record KeyedDigest : Type := mkKeyedDigest { digest_str : str }.

#[export] Instance KeyedDigest_eq_dec : EqDecision KeyedDigest.
Proof. solve_decision. Defined.

(** @src cdenv-cli/src/installation.rs:203-215 KeyedDigest::parse *)
Definition KeyedDigest_parse (value : str) : option KeyedDigest :=
  match strip_prefix ($"keyed:") value with
  | None => None
  | Some hex =>
      if negb (str_len hex =? 64) || negb (forallb lower_hex (encode_utf8 hex)) then None
      else Some (mkKeyedDigest value)
  end.

(** @src cdenv-cli/src/state.rs:31-35 PlanFingerprints *)
Record PlanFingerprints : Type := mkFingerprints {
  fp_build : KeyedDigest;
  fp_create : KeyedDigest;
  fp_runtime : KeyedDigest;
}.

#[export] Instance PlanFingerprints_eq_dec : EqDecision PlanFingerprints.
Proof. solve_decision. Defined.

(** @src cdenv-cli/src/state.rs:70-70 SanitizedRepositorySource *)
Record SanitizedRepositorySource : Type := mkRepositorySource { source_str : str }.

(** @src cdenv-cli/src/state.rs:119-119 SanitizedSummary *)
Record SanitizedSummary : Type := mkSummary { summary_str : str }.

(** [s.split_at(n)] when [n] is a character boundary, as [is_char_boundary] tells. *)
Fixpoint split_at_byte (n : N) (s : str) : option (str * str) :=
  if n =? 0 then Some ([], s) else
  match s with
  | [] => None
  | c :: s' =>
      if len_utf8 c <=? n then
        match split_at_byte (n - len_utf8 c) s' with
        | Some (a, b) => Some (c :: a, b)
        | None => None
        end
      else None
  end.

(** [s.replace(from, to)] for a nonempty [from]; every match consumes a character. *)
Fixpoint replace_go (fuel : nat) (from to s : str) : str :=
  match fuel with
  | O => s
  | S fuel' =>
      match split_once from s with
      | Some (a, b) => a ++ to ++ replace_go fuel' from to b
      | None => s
      end
  end.
Definition replace (from to s : str) : str := replace_go (length s) from to s.

(** The [while] that looks for a character boundary, and [truncate].
    @src cdenv-cli/src/state.rs:131-137 SanitizedSummary::redact *)
Fixpoint truncate_at_boundary (boundary : nat) (s : str) : str :=
  match split_at_byte (N.of_nat boundary) s with
  | Some (a, _) => a
  | None => match boundary with O => [] | S b => truncate_at_boundary b s end
  end.

(** @src cdenv-cli/src/state.rs:124-139 SanitizedSummary::redact *)
Definition redact (summary : str) (secrets : list str) : SanitizedSummary :=
  let sanitized := List.map (fun c => if is_control c then 32 else c) summary in
  let sanitized := fold_left (fun s secret =>
    if bool_decide (secret = []) then s else replace secret ($"[REDACTED]") s) secrets sanitized in
  mkSummary (if N.of_nat MAX_SUMMARY_BYTES <? str_len sanitized
             then truncate_at_boundary MAX_SUMMARY_BYTES sanitized else sanitized).

(** What the deserializer accepts. @src cdenv-cli/src/state.rs:149-160 SanitizedSummary::deserialize *)
Definition summary_deserialize (value : str) : option SanitizedSummary :=
  if (N.of_nat MAX_SUMMARY_BYTES <? str_len value) || existsb is_control value then None
  else Some (mkSummary value).

(** @src cdenv-cli/src/state.rs:166-166 StateTimestamp *)
Record StateTimestamp : Type := mkTimestamp { timestamp_str : str }.

(** @src cdenv-cli/src/state.rs:178-193 StateTimestamp::parse *)
Definition StateTimestamp_parse (value : str) : option StateTimestamp :=
  let has_zone := ends_with ($"Z") value
    || match split_at_byte 10 value with
       | Some (_, suffix) => contains_char 43 suffix || contains_char 45 suffix
       | None => false
       end in
  let byte i := encode_utf8 value !! i in
  if (str_len value <? 20)
     || negb (bool_decide (byte 4%nat = Some 45))
     || negb (bool_decide (byte 7%nat = Some 45))
     || negb (bool_decide (byte 10%nat = Some 84))
     || existsb is_control value
     || negb has_zone
  then None else Some (mkTimestamp value).

(** @src cdenv-cli/src/state.rs:220-220 DesiredConfigPath *)
Record DesiredConfigPath : Type := mkConfigPath { config_str : str }.

(** @src cdenv-cli/src/state.rs:268-281 DesiredConfigPathError *)
Inductive DesiredConfigPathError : Type :=
| ConfigPath_Empty | ConfigPath_Absolute | ConfigPath_ParentTraversal | ConfigPath_Control.

(** On Unix a relative path has no prefix and no root; its components are its pieces between
    slashes, less the empty ones and [.].
    @src cdenv-cli/src/state.rs:229-256 DesiredConfigPath::parse *)
Definition DesiredConfigPath_parse (value : str) : result DesiredConfigPathError DesiredConfigPath :=
  fail_if bool_decide (value = []) with ConfigPath_Empty in
  fail_if existsb is_control value with ConfigPath_Control in
  fail_if starts_with ($"/") value with ConfigPath_Absolute in
  let components := List.filter (fun p => negb (str_eqb p [] || str_eqb p ($"."))) (split 47 value) in
  fail_if existsb (str_eqb ($"..")) components with ConfigPath_ParentTraversal in
  fail_if bool_decide (components = []) with ConfigPath_Empty in
  Ok (mkConfigPath value).

(** ** Operations *)

(** @src cdenv-cli/src/state.rs:296-300 OperationState *)
Record OperationState : Type := mkOperation {
  op_kind : ForegroundOperation;
  op_id : option str;
  op_started_at : option StateTimestamp;
}.

(** @src cdenv-cli/src/state.rs:305-311 OperationState::idle *)
Definition idle : OperationState := mkOperation Op_Idle None None.

(** @src cdenv-cli/src/state.rs:346-356 OperationStateError *)
Inductive OperationStateError : Type :=
| Operation_IdleHasDetails | Operation_ActiveMissingDetails | Operation_InvalidId.

(** @src cdenv-cli/src/state.rs:318-334 OperationState::active *)
Definition active_operation (kind : ForegroundOperation) (id : str) (started_at : StateTimestamp) :
    result OperationStateError OperationState :=
  fail_if bool_decide (kind = Op_Idle) with Operation_IdleHasDetails in
  fail_if bool_decide (id = []) || existsb is_control id with Operation_InvalidId in
  Ok (mkOperation kind (Some id) (Some started_at)).

(** @src cdenv-cli/src/state.rs:371-383 OperationState::deserialize *)
Definition operation_deserialize (kind : ForegroundOperation) (id : option str)
    (started_at : option StateTimestamp) : result OperationStateError OperationState :=
  match kind, id, started_at with
  | Op_Idle, None, None => Ok idle
  | Op_Idle, _, _ => Err Operation_IdleHasDetails
  | kind, Some id, Some started_at => active_operation kind id started_at
  | _, _, _ => Err Operation_ActiveMissingDetails
  end.

(** ** The active generation *)

(** @src cdenv-cli/src/state.rs:390-403 ActiveScenario *)
Inductive ActiveScenario : Type :=
| Scenario_Image
| Scenario_Dockerfile
| Scenario_Compose (project : str) (managed_services : list str).

(** @src cdenv-cli/src/state.rs:422-435 LifecycleStage *)
Inductive PersistedStage : Type :=
| InitializeCommand | OnCreateCommand | UpdateContentCommand
| PostCreateCommand | PostStartCommand | PostAttachCommand.

(** @src cdenv-cli/src/state.rs:440-444 LifecycleCheckpoint *)
Record PersistedCheckpoint : Type := mkPersistedCheckpoint {
  pc_completed_through : option PersistedStage;
  pc_running : option PersistedStage;
  pc_indeterminate : bool;
}.

(** @src cdenv-cli/src/state.rs:480-483 LifecycleCheckpoint::record_runner_stopped *)
Definition record_runner_stopped (c : PersistedCheckpoint) (indeterminate : bool) : PersistedCheckpoint :=
  mkPersistedCheckpoint (pc_completed_through c) None (pc_indeterminate c || indeterminate).

(** @src cdenv-cli/src/state.rs:489-496 ForwardProtocol *)
Inductive ForwardProtocol : Type := Forward_Tcp | Forward_Http | Forward_Https.

(** @src cdenv-cli/src/state.rs:501-508 DeclaredForward *)
Record DeclaredForward : Type := mkDeclaredForward {
  df_requested : ForwardingEndpoint;
  df_target_host : str;
  df_target_port : TcpPort;
  df_require_local_port : bool;
  df_label : option str;
  df_protocol : ForwardProtocol;
}.

(** @src cdenv-cli/src/state.rs:571-575 ActiveForwarding *)
Record ActiveForwarding : Type := mkActiveForwarding {
  af_supervisor_build_id : option AgentBuildId;
  af_requested : list DeclaredForward;
  af_assigned : list ForwardingEndpointAssignment;
}.

(** @src cdenv-cli/src/state.rs:614-622 ProvisionedState *)
Record ProvisionedState : Type := mkProvisioned {
  ps_remote_user : str;
  ps_remote_workspace_folder : str;
  ps_container_architecture : ContainerArchitecture;
  ps_agent_path : str;
  ps_agent_build_id : AgentBuildId;
  ps_protocol_version : ProtocolVersion;
  ps_environment_path : str;
}.

(** @src cdenv-cli/src/state.rs:693-703 ActiveGeneration *)
Record ActiveGeneration : Type := mkActive {
  ag_generation : GenerationId;
  ag_scenario : ActiveScenario;
  ag_container_id : ContainerId;
  ag_image_id : str;
  ag_fingerprints : PlanFingerprints;
  ag_feature_digests : gmap (list N) (list N);
  ag_lifecycle : PersistedCheckpoint;
  ag_forwarding : ActiveForwarding;
  ag_provisioned : ProvisionedState;
}.

(** @src cdenv-cli/src/state.rs:761-763 ActiveGeneration::commit_runtime_fingerprint *)
Definition commit_runtime_fingerprint (a : ActiveGeneration) (runtime : KeyedDigest) : ActiveGeneration :=
  mkActive (ag_generation a) (ag_scenario a) (ag_container_id a) (ag_image_id a)
    (mkFingerprints (fp_build (ag_fingerprints a)) (fp_create (ag_fingerprints a)) runtime)
    (ag_feature_digests a) (ag_lifecycle a) (ag_forwarding a) (ag_provisioned a).

(** @src cdenv-cli/src/state.rs:766-768 ActiveGeneration::record_lifecycle_stopped *)
Definition record_lifecycle_stopped (a : ActiveGeneration) (indeterminate : bool) : ActiveGeneration :=
  mkActive (ag_generation a) (ag_scenario a) (ag_container_id a) (ag_image_id a)
    (ag_fingerprints a) (ag_feature_digests a) (record_runner_stopped (ag_lifecycle a) indeterminate)
    (ag_forwarding a) (ag_provisioned a).

(** ** Evidence of an interrupted Compose rebuild *)

(** @src cdenv-cli/src/compose_rebuild.rs:16-23 ComposeServiceHealth *)
Inductive ComposeServiceHealth : Type := Health_Unknown | Health_Healthy | Health_Unhealthy.

(** @src cdenv-cli/src/compose_rebuild.rs:41-58 ComposePartialService *)
Inductive ComposePartialService : Type :=
| Service_Missing
| Service_Present (container : ContainerId) (running : bool) (health : ComposeServiceHealth)
| Service_Ambiguous (containers : list ContainerId).

(** @src cdenv-cli/src/compose_rebuild.rs:63-68 ComposePartialState *)
Record ComposePartialState : Type := mkPartialState {
  partial_generation : GenerationId;
  partial_services : gmap (list N) ComposePartialService;
}.

(** @src cdenv-cli/src/compose_rebuild.rs:147-160 ComposeRebuildPhase *)
Inductive ComposeRebuildPhase : Type :=
| Compose_BuildFirst | Compose_Recreation | Compose_ManagedSet
| Compose_Readiness | Compose_Forwarding | Compose_ActiveCommit.

(** @src cdenv-cli/src/compose_rebuild.rs:165-172 ComposeRebuildRecovery *)
Record ComposeRebuildRecovery : Type := mkRecovery {
  recovery_generation : GenerationId;
  recovery_phase : ComposeRebuildPhase;
  recovery_partial : option ComposePartialState;
}.

(** ** The workspace state *)

(** @src cdenv-cli/src/state.rs:804-819 WorkspaceState *)
Record WorkspaceState : Type := mkState {
  ws_schema_version : N;
  ws_installation_id : InstallationId;
  ws_name : WorkspaceName;
  ws_repository_source : SanitizedRepositorySource;
  ws_devcontainer_profile : ProfileId;
  ws_desired_config : DesiredConfigPath;
  ws_desired_fingerprints : PlanFingerprints;
  ws_created_at : StateTimestamp;
  ws_last_up_at : option StateTimestamp;
  ws_operation : OperationState;
  ws_last_error : option SanitizedSummary;
  ws_interrupted_compose_rebuild : option ComposeRebuildRecovery;
  ws_active : option ActiveGeneration;
}.

(** @src cdenv-cli/src/state.rs:824-848 WorkspaceState::new *)
Definition WorkspaceState_new (installation_id : InstallationId) (name : WorkspaceName)
    (source : SanitizedRepositorySource) (profile : ProfileId) (config : DesiredConfigPath)
    (fingerprints : PlanFingerprints) (created_at : StateTimestamp) : WorkspaceState :=
  mkState WORKSPACE_STATE_SCHEMA_VERSION installation_id name source profile config fingerprints
    created_at None idle None None None.

(** @src cdenv-cli/src/state.rs:938-947 WorkspaceState::update_desired *)
Definition update_desired (s : WorkspaceState) (profile : ProfileId) (config : DesiredConfigPath)
    (fingerprints : PlanFingerprints) : WorkspaceState :=
  mkState (ws_schema_version s) (ws_installation_id s) (ws_name s) (ws_repository_source s)
    profile config fingerprints (ws_created_at s) (ws_last_up_at s) (ws_operation s)
    (ws_last_error s) (ws_interrupted_compose_rebuild s) (ws_active s).

(** @src cdenv-cli/src/state.rs:950-952 WorkspaceState::set_operation *)
Definition set_operation (s : WorkspaceState) (operation : OperationState) : WorkspaceState :=
  mkState (ws_schema_version s) (ws_installation_id s) (ws_name s) (ws_repository_source s)
    (ws_devcontainer_profile s) (ws_desired_config s) (ws_desired_fingerprints s) (ws_created_at s)
    (ws_last_up_at s) operation (ws_last_error s) (ws_interrupted_compose_rebuild s) (ws_active s).

(** @src cdenv-cli/src/state.rs:955-957 WorkspaceState::set_last_error *)
Definition set_last_error (s : WorkspaceState) (error : option SanitizedSummary) : WorkspaceState :=
  mkState (ws_schema_version s) (ws_installation_id s) (ws_name s) (ws_repository_source s)
    (ws_devcontainer_profile s) (ws_desired_config s) (ws_desired_fingerprints s) (ws_created_at s)
    (ws_last_up_at s) (ws_operation s) error (ws_interrupted_compose_rebuild s) (ws_active s).

(** [*state.active_mut() = ..]
    @src cdenv-cli/src/state.rs:933-935 WorkspaceState::active_mut *)
Definition set_active (s : WorkspaceState) (active : option ActiveGeneration) : WorkspaceState :=
  mkState (ws_schema_version s) (ws_installation_id s) (ws_name s) (ws_repository_source s)
    (ws_devcontainer_profile s) (ws_desired_config s) (ws_desired_fingerprints s) (ws_created_at s)
    (ws_last_up_at s) (ws_operation s) (ws_last_error s) (ws_interrupted_compose_rebuild s) active.

(** @src cdenv-cli/src/state.rs:960-966 WorkspaceState::commit_active *)
Definition commit_active (s : WorkspaceState) (active : ActiveGeneration)
    (completed_at : StateTimestamp) : WorkspaceState :=
  mkState (ws_schema_version s) (ws_installation_id s) (ws_name s) (ws_repository_source s)
    (ws_devcontainer_profile s) (ws_desired_config s) (ws_desired_fingerprints s) (ws_created_at s)
    (Some completed_at) idle None None (Some active).

(** ** Schemas *)

(** @src cdenv-cli/src/state.rs:1194-1205 WorkspaceStateV0 *)
Record WorkspaceStateV0 : Type := mkStateV0 {
  v0_installation_id : InstallationId;
  v0_name : WorkspaceName;
  v0_repository_source : SanitizedRepositorySource;
  v0_devcontainer_config : DesiredConfigPath;
  v0_desired_fingerprints : PlanFingerprints;
  v0_created_at : StateTimestamp;
  v0_operation : OperationState;
  v0_last_error : option SanitizedSummary;
  v0_active : option ActiveGeneration;
}.

(** The profile identifier is a literal that parses ([pinned_profile_parses]).
    @src cdenv-cli/src/state.rs:1208-1228 WorkspaceStateV0::migrate *)
Definition migrate (v : WorkspaceStateV0) : WorkspaceState :=
  mkState WORKSPACE_STATE_SCHEMA_VERSION (v0_installation_id v) (v0_name v) (v0_repository_source v)
    (mkProfileId ($"cdenv-devcontainer-v1")) (v0_devcontainer_config v) (v0_desired_fingerprints v)
    (v0_created_at v) None (v0_operation v) (v0_last_error v) None (v0_active v).

Lemma pinned_profile_parses :
  token_parse mkProfileId ($"cdenv-devcontainer-v1") = Ok (mkProfileId ($"cdenv-devcontainer-v1")).
Proof. vm_compute. reflexivity. Qed.

(** @src cdenv-cli/src/state.rs:971-979 MigrationStatus *)
Inductive MigrationStatus : Type := Migration_Current | Migration_Migrated (from : N).

(** @src cdenv-cli/src/state.rs:983-986 LoadedWorkspaceState *)
Record LoadedWorkspaceState : Type := mkLoaded {
  loaded_state : WorkspaceState;
  loaded_migration : MigrationStatus;
}.

(** @src cdenv-cli/src/state.rs:1017-1083 WorkspaceStateError *)
Inductive WorkspaceStateError : Type :=
| State_ManagedPath (error : ManagedPathError)
| State_Read
| State_Missing
| State_Corrupt
| State_NewerSchema (found supported : N)
| State_UnsupportedOlderSchema (found : N)
| State_InvalidInMemorySchema (found expected : N)
| State_Serialize
| State_Storage (error : StorageError).

(** What the derived [Serialize] and [Deserialize] provide, over byte strings [B]. *)
Class StateSerde (B : Type) : Type := {
  header_from_slice : B -> option N;
  state_from_slice : B -> option WorkspaceState;
  legacy_from_slice : B -> option WorkspaceStateV0;
  to_vec_pretty : WorkspaceState -> option B;
  push_newline : B -> B;
}.

(** Deserializing what was serialized gives the value back; the header is its first field. *)
Class StateSerdeLaws (B : Type) `{!StateSerde B} : Prop := {
  serde_header s b : to_vec_pretty s = Some b ->
    header_from_slice (push_newline b) = Some (ws_schema_version s);
  serde_roundtrip s b : to_vec_pretty s = Some b -> state_from_slice (push_newline b) = Some s;
}.

(** @src cdenv-cli/src/state.rs:1112-1157 decode_workspace_state *)
Definition decode_workspace_state {B} `{!StateSerde B} (bytes : B) :
    result WorkspaceStateError LoadedWorkspaceState :=
  let? schema_version := ok_or State_Corrupt (header_from_slice bytes) in
  fail_if WORKSPACE_STATE_SCHEMA_VERSION <? schema_version
    with State_NewerSchema schema_version WORKSPACE_STATE_SCHEMA_VERSION in
  if schema_version =? WORKSPACE_STATE_SCHEMA_VERSION then
    let? state := ok_or State_Corrupt (state_from_slice bytes) in
    Ok (mkLoaded state Migration_Current)
  else if schema_version =? LEGACY_SCHEMA_VERSION then
    let? legacy := ok_or State_Corrupt (legacy_from_slice bytes) in
    Ok (mkLoaded (migrate legacy) (Migration_Migrated LEGACY_SCHEMA_VERSION))
  else Err (State_UnsupportedOlderSchema schema_version).

(** ** The store *)

(** What the transactions call. *)
Class StateStore (S : Type) : Type := {
  load : S -> result WorkspaceStateError LoadedWorkspaceState;
  persist : S -> WorkspaceState -> S * result WorkspaceStateError unit;
  stored : S -> option WorkspaceState;
}.

(** What they rely on. *)
Class StateStoreLaws (S : Type) `{!StateStore S} : Prop := {
  load_stored s l : load s = Ok l -> stored s = Some (loaded_state l);
  persist_ok s x s' : persist s x = (s', Ok tt) -> stored s' = Some x;
  persist_err s x s' e : persist s x = (s', Err e) -> stored s' = stored s \/ stored s' = Some x;
}.

(** The workspace directory, what the operating system does at each write, and whether the
    state file can be inspected and read. *)
Record ManagedStore (B : Type) : Type := mkManagedStore {
  ms_dir : gmap (list N) (Entry B);
  ms_os : nat -> OsScript B;
  ms_writes : nat;
  ms_stat_fails : bool;
  ms_read_fails : bool;
}.
Arguments mkManagedStore {B} _ _ _ _ _.
Arguments ms_dir {B} _.
Arguments ms_os {B} _ _.
Arguments ms_writes {B} _.
Arguments ms_stat_fails {B} _.
Arguments ms_read_fails {B} _.

Definition state_file : str := $"state.json".

Section managed.
Context {B : Type} `{!StateSerde B} (user umask : N) (no_bytes : B).

(** @src cdenv-cli/src/state.rs:1091-1105 load_workspace_state *)
Definition load_workspace_state (s : ManagedStore B) : result WorkspaceStateError LoadedWorkspaceState :=
  let? found := map_err State_ManagedPath
    (inspect_managed_path (if ms_stat_fails s then Err tt else Ok (ms_dir s !! state_file))
       Managed_File (Some user)) in
  match found with
  | Path_Missing => Err State_Missing
  | Path_Valid =>
      fail_if ms_read_fails s with State_Read in
      match ms_dir s !! state_file with
      | Some entry => decode_workspace_state (e_content entry)
      | None => Err State_Read
      end
  end.

(** @src cdenv-cli/src/state.rs:1165-1180 persist_workspace_state *)
Definition persist_workspace_state (s : ManagedStore B) (state : WorkspaceState) :
    ManagedStore B * result WorkspaceStateError unit :=
  if negb (ws_schema_version state =? WORKSPACE_STATE_SCHEMA_VERSION)
  then (s, Err (State_InvalidInMemorySchema (ws_schema_version state) WORKSPACE_STATE_SCHEMA_VERSION))
  else match to_vec_pretty state with
  | None => (s, Err State_Serialize)
  | Some bytes =>
      let '(dir, r) := atomic_write user umask no_bytes (ms_os s (ms_writes s)) (ms_dir s) state_file
                         (push_newline bytes) PrivateFile in
      (mkManagedStore dir (ms_os s) (S (ms_writes s)) (ms_stat_fails s) (ms_read_fails s),
       map_err State_Storage r)
  end.

Definition stored_in (dir : gmap (list N) (Entry B)) : option WorkspaceState :=
  entry ← dir !! state_file; loaded_state <$> ok (decode_workspace_state (e_content entry)).

#[export] Instance managed_store : StateStore (ManagedStore B) := {
  load := load_workspace_state;
  persist := persist_workspace_state;
  stored s := stored_in (ms_dir s);
}.

Context `{!StateSerdeLaws B}.

Lemma decode_encoded s bytes :
  ws_schema_version s = WORKSPACE_STATE_SCHEMA_VERSION -> to_vec_pretty s = Some bytes ->
  decode_workspace_state (push_newline bytes) = Ok (mkLoaded s Migration_Current).
Proof.
  intros Hv Hb. unfold decode_workspace_state. rewrite (serde_header _ _ Hb), Hv. cbn.
  by rewrite (serde_roundtrip _ _ Hb).
Qed.

(** The file after one write, whatever failed. *)
Lemma stored_after_effect os dir dir' s bytes r :
  ws_schema_version s = WORKSPACE_STATE_SCHEMA_VERSION -> to_vec_pretty s = Some bytes ->
  atomic_effect user os state_file (push_newline bytes) PrivateFile dir dir' r ->
  match r with
  | Ok _ => stored_in dir' = Some s
  | Err _ => stored_in dir' = stored_in dir \/ stored_in dir' = Some s
  end.
Proof.
  intros Hv Hb Heff.
  assert (Hnew : stored_in (<[state_file := replaced user PrivateFile (push_newline bytes)]> dir) = Some s).
  { unfold stored_in. rewrite lookup_insert_eq. cbn. by rewrite (decode_encoded _ _ Hv Hb). }
  destruct r as [[]|e]; unfold atomic_effect in Heff; [by subst|].
  destruct Heff as [->|[[_ ->]|(_ & _ & random & left0 & Hfree & ->)]]; [by left|by right|left].
  unfold stored_in. rewrite lookup_insert_ne; [done|]. apply temporary_name_longer.
Qed.

#[export] Instance managed_store_laws : StateStoreLaws (ManagedStore B).
Proof.
  split.
  - intros s l H. change (load_workspace_state s = Ok l) in H.
    change (stored_in (ms_dir s) = Some (loaded_state l)).
    unfold load_workspace_state, map_err in H. unfold stored_in.
    destruct (inspect_managed_path _ _ _) as [[]|]; [done| |done].
    destruct (ms_read_fails s); [done|]. destruct (ms_dir s !! state_file) as [e|]; [|done].
    unfold mbind, option_bind. by rewrite H.
  - intros s x s' H. change (persist_workspace_state s x = (s', Ok tt)) in H.
    change (stored_in (ms_dir s') = Some x). unfold persist_workspace_state in H.
    destruct (N.eqb_spec (ws_schema_version x) WORKSPACE_STATE_SCHEMA_VERSION) as [Hv|]; [|done].
    cbn [negb] in H. destruct (to_vec_pretty x) as [bytes|] eqn:Hb; [|done].
    destruct (atomic_write _ _ _ _ _ _ _ _) as [dir r] eqn:Hw. apply atomic_write_effect in Hw.
    destruct r as [[]|]; [|done]. injection H as <-. cbn [ms_dir].
    by apply (stored_after_effect _ _ _ _ _ _ Hv Hb Hw).
  - intros s x s' e H. change (persist_workspace_state s x = (s', Err e)) in H.
    change (stored_in (ms_dir s') = stored_in (ms_dir s) \/ stored_in (ms_dir s') = Some x).
    unfold persist_workspace_state in H.
    destruct (N.eqb_spec (ws_schema_version x) WORKSPACE_STATE_SCHEMA_VERSION) as [Hv|];
      [|injection H as <- _; by left].
    cbn [negb] in H. destruct (to_vec_pretty x) as [bytes|] eqn:Hb; [|injection H as <- _; by left].
    destruct (atomic_write _ _ _ _ _ _ _ _) as [dir r] eqn:Hw. apply atomic_write_effect in Hw.
    destruct r as [[]|]; [done|]. injection H as <- _. cbn [ms_dir].
    by apply (stored_after_effect _ _ _ _ _ _ Hv Hb Hw).
Qed.
End managed.

(** ** Summaries *)

Lemma split_at_byte_Some n s a b : split_at_byte n s = Some (a, b) -> s = a ++ b /\ str_len a = n.
Proof.
  revert n a b. induction s as [|c s IH]; intros n a b H; cbn [split_at_byte] in H;
    destruct (N.eqb_spec n 0) as [->|Hn]; try (injection H as <- <-; done); [done|].
  destruct (N.leb_spec (len_utf8 c) n); [|done].
  destruct (split_at_byte (n - len_utf8 c) s) as [[a' b']|] eqn:E; [|done]. injection H as <- <-.
  apply IH in E as [-> E]. split; [done|]. cbn [str_len]. lia.
Qed.

Lemma truncate_at_boundary_spec n s :
  exists b, s = truncate_at_boundary n s ++ b /\ str_len (truncate_at_boundary n s) <= N.of_nat n.
Proof.
  induction n as [|n IH]; cbn [truncate_at_boundary];
    destruct (split_at_byte _ s) as [[a b]|] eqn:E.
  - apply split_at_byte_Some in E as [-> E]. exists b. split; [done|]. rewrite E. done.
  - by exists s.
  - apply split_at_byte_Some in E as [-> E]. exists b. split; [done|]. rewrite E. done.
  - destruct IH as (b & Hb & Hl). exists b. split; [done|]. lia.
Qed.

(** The search for a boundary gives up at most three bytes. *)
Lemma split_at_byte_near n s :
  n <= str_len s -> exists m a b, m <= n /\ n < m + 4 /\ split_at_byte m s = Some (a, b).
Proof.
  revert n. induction s as [|c s IH]; intros n Hn; cbn [str_len] in Hn.
  { exists 0, [], []. split_and!; [lia|lia|done]. }
  assert (Hc := len_utf8_pos c).
  destruct (N.leb_spec (len_utf8 c) n) as [Hle|Hlt].
  - destruct (IH (n - len_utf8 c)) as (m & a & b & Hm1 & Hm2 & Hs); [lia|].
    exists (m + len_utf8 c), (c :: a), b. split_and!; [lia|lia|]. cbn [split_at_byte].
    destruct (N.eqb_spec (m + len_utf8 c) 0); [lia|].
    destruct (N.leb_spec (len_utf8 c) (m + len_utf8 c)); [|lia].
    by replace (m + len_utf8 c - len_utf8 c) with m by lia; rewrite Hs.
  - exists 0, [], (c :: s). split_and!; [lia|lia|done].
Qed.

Lemma replace_go_Forall (P : char -> Prop) fuel from to s :
  Forall P to -> Forall P s -> Forall P (replace_go fuel from to s).
Proof.
  intros Hto. revert s. induction fuel as [|fuel IH]; intros s Hs; cbn [replace_go]; [done|].
  destruct (split_once from s) as [[a b]|] eqn:E; [|done]. apply split_once_app in E. subst s.
  rewrite !Forall_app in Hs. destruct Hs as (Ha & _ & Hb). rewrite !Forall_app. auto.
Qed.

(** One unit of fuel per character is enough to replace every match. *)
Lemma replace_go_fuel from to s f1 f2 :
  from <> [] -> (length s <= f1)%nat -> (length s <= f2)%nat ->
  replace_go f1 from to s = replace_go f2 from to s.
Proof.
  intros Hf. revert s f2. induction f1 as [|f1 IH]; intros s f2 H1 H2.
  - destruct s as [|c s]; [|cbn in H1; lia]. destruct f2 as [|f2]; [done|]. cbn [replace_go].
    destruct (split_once from []) as [[a b]|] eqn:E; [|done].
    apply split_once_app in E. destruct a, from; done.
  - destruct f2 as [|f2].
    + destruct s as [|c s]; [|cbn in H2; lia]. cbn [replace_go].
      destruct (split_once from []) as [[a b]|] eqn:E; [|done].
      apply split_once_app in E. destruct a, from; done.
    + cbn [replace_go]. destruct (split_once from s) as [[a b]|] eqn:E; [|done].
      apply split_once_app in E. subst s. rewrite !length_app in H1, H2.
      assert (0 < length from)%nat by (destruct from; [done|cbn; lia]).
      rewrite (IH b f2) by lia. done.
Qed.

Definition no_control (c : char) : Prop := is_control c = false.

Lemma redact_no_control summary secrets : Forall no_control (summary_str (redact summary secrets)).
Proof.
  unfold redact. cbn [summary_str].
  set (start := List.map _ summary).
  assert (Hstart : Forall no_control start).
  { apply Forall_map. apply Forall_true. intros c. unfold compose, no_control.
    destruct (is_control c) eqn:E; done. }
  assert (Hfold : Forall no_control (fold_left (fun s secret =>
    if bool_decide (secret = []) then s else replace secret ($"[REDACTED]") s) secrets start)).
  { revert Hstart. generalize start. induction secrets as [|x xs IH]; intros s Hs; cbn [fold_left]; [done|].
    apply IH. case_bool_decide; [done|]. apply replace_go_Forall; [|done].
    apply (bool_decide_unpack _). vm_compute. exact I. }
  destruct (_ <? _); [|done].
  destruct (truncate_at_boundary_spec MAX_SUMMARY_BYTES
    (fold_left (fun s secret => if bool_decide (secret = []) then s
       else replace secret ($"[REDACTED]") s) secrets start)) as (b & Hb & _).
  rewrite Hb in Hfold. by apply Forall_app in Hfold as [? _].
Qed.

Lemma redact_bounded summary secrets :
  str_len (summary_str (redact summary secrets)) <= N.of_nat MAX_SUMMARY_BYTES.
Proof.
  unfold redact. cbn [summary_str]. destruct (N.ltb_spec (N.of_nat MAX_SUMMARY_BYTES) (str_len
    (fold_left (fun s secret => if bool_decide (secret = []) then s
       else replace secret ($"[REDACTED]") s) secrets
       (List.map (fun c => if is_control c then 32 else c) summary)))) as [Hlt|Hle]; [|done].
  by destruct (truncate_at_boundary_spec MAX_SUMMARY_BYTES
    (fold_left (fun s secret => if bool_decide (secret = []) then s
       else replace secret ($"[REDACTED]") s) secrets
       (List.map (fun c => if is_control c then 32 else c) summary))) as (b & _ & Hl).
Qed.

(** whatever text a failure produces, the summary recorded for it is one the state
    deserializer accepts, unchanged: a state with a recorded failure can always be loaded
    again. *)
Theorem redacted_summary_reloads summary secrets :
  summary_deserialize (summary_str (redact summary secrets)) = Some (redact summary secrets).
Proof.
  unfold summary_deserialize. assert (Hb := redact_bounded summary secrets).
  assert (Hc := redact_no_control summary secrets).
  destruct (N.ltb_spec (N.of_nat MAX_SUMMARY_BYTES) (str_len (summary_str (redact summary secrets)))); [lia|].
  rewrite (proj2 (existsb_false_iff _ _)); [|exact Hc]. cbn [orb]. by destruct (redact summary secrets).
Qed.

Lemma operation_reloads kind id t o :
  active_operation kind id t = Ok o -> operation_deserialize (op_kind o) (op_id o) (op_started_at o) = Ok o.
Proof.
  intros H. assert (H0 := H). unfold active_operation in H. case_bool_decide as Hk; [done|].
  destruct (_ || _); [done|]. injection H as <-. cbn. by destruct kind.
Qed.

(** ** Loading what was persisted *)

(** A document as the deserializers see it. *)
Inductive Document : Type :=
| Doc_State (s : WorkspaceState)
| Doc_Legacy (v : WorkspaceStateV0)
| Doc_Other (version : option N).

#[export] Instance document_serde : StateSerde Document := {
  header_from_slice d :=
    match d with
    | Doc_State s => Some (ws_schema_version s)
    | Doc_Legacy _ => Some LEGACY_SCHEMA_VERSION
    | Doc_Other v => v
    end;
  state_from_slice d := match d with Doc_State s => Some s | _ => None end;
  legacy_from_slice d := match d with Doc_Legacy v => Some v | _ => None end;
  to_vec_pretty s := Some (Doc_State s);
  push_newline d := d;
}.

#[export] Instance document_serde_laws : StateSerdeLaws Document.
Proof. split; intros s b [= <-]; done. Qed.

Section reload.
Context {B : Type} `{!StateSerde B, !StateSerdeLaws B} (user umask : N) (no_bytes : B).

Lemma load_entry (s : ManagedStore B) bytes :
  ms_stat_fails s = false -> ms_read_fails s = false ->
  ms_dir s !! state_file = Some (replaced user PrivateFile bytes) ->
  load_workspace_state user s = decode_workspace_state bytes.
Proof.
  intros Hst Hrd Hd. unfold load_workspace_state. rewrite Hst, Hrd, Hd.
  unfold inspect_managed_path, inspect_owner, replaced. cbn [e_kind e_uid e_content].
  rewrite bool_decide_eq_false_2 by done. rewrite bool_decide_eq_true_2 by done. cbn [negb].
  by rewrite N.eqb_refl.
Qed.

(** C17: a state that is persisted is the state that is loaded next, whatever was in the file;
    and after a failed write, whichever step failed, the file still loads as before or already
    loads as the new state, never as anything else. *)
Theorem persisted_state_reloads (s : ManagedStore B) (x : WorkspaceState) :
  ms_stat_fails s = false -> ms_read_fails s = false ->
  let '(s', r) := persist_workspace_state user umask no_bytes s x in
  match r with
  | Ok _ => load_workspace_state user s' = Ok (mkLoaded x Migration_Current)
  | Err _ => load_workspace_state user s' = load_workspace_state user s \/
             load_workspace_state user s' = Ok (mkLoaded x Migration_Current)
  end.
Proof.
  intros Hst Hrd. unfold persist_workspace_state.
  destruct (N.eqb_spec (ws_schema_version x) WORKSPACE_STATE_SCHEMA_VERSION) as [Hv|]; [|by left].
  cbn [negb]. destruct (to_vec_pretty x) as [bytes|] eqn:Hb; [|by left].
  destruct (atomic_write _ _ _ _ _ _ _ _) as [dir r] eqn:Hw. apply atomic_write_effect in Hw.
  set (s' := mkManagedStore dir _ _ _ _).
  assert (Hnew : dir = <[state_file := replaced user PrivateFile (push_newline bytes)]> (ms_dir s) ->
    load_workspace_state user s' = Ok (mkLoaded x Migration_Current)).
  { intros ->. rewrite <- (decode_encoded x bytes Hv Hb). apply load_entry; [done|done|].
    apply lookup_insert_eq. }
  destruct r as [[]|e]; unfold atomic_effect in Hw; unfold map_err; [by apply Hnew|].
  destruct Hw as [->|[[_ ?]|(_ & _ & random & leftover & Hfree & ->)]]; [by left|right; by apply Hnew|left].
  unfold load_workspace_state, s'. cbn [ms_dir ms_stat_fails ms_read_fails].
  by rewrite !lookup_insert_ne by apply temporary_name_longer.
Qed.
End reload.

(** ** A concrete store *)

Definition sample_digest : KeyedDigest :=
  mkKeyedDigest ($"keyed:" ++ List.repeat 97 64).
Definition sample_fingerprints : PlanFingerprints :=
  mkFingerprints sample_digest sample_digest sample_digest.
Definition sample_state : WorkspaceState :=
  WorkspaceState_new (mkInstallationId ($"host-1")) (mkWorkspaceName ($"demo"))
    (mkRepositorySource ($"https://example.com/demo.git")) (mkProfileId ($"cdenv-devcontainer-v1"))
    (mkConfigPath ($".devcontainer/devcontainer.json")) sample_fingerprints
    (mkTimestamp ($"2026-01-01T00:00:00Z")).

Example sample_digest_parses : KeyedDigest_parse (digest_str sample_digest) = Some sample_digest.
Proof. vm_compute. reflexivity. Qed.
Example sample_timestamp_parses :
  StateTimestamp_parse (timestamp_str (ws_created_at sample_state)) = Some (ws_created_at sample_state).
Proof. vm_compute. reflexivity. Qed.
Example sample_config_parses :
  DesiredConfigPath_parse (config_str (ws_desired_config sample_state)) = Ok (ws_desired_config sample_state).
Proof. vm_compute. reflexivity. Qed.

(** A store where the step [fails] fails at every write. *)
Definition sample_store (dir : gmap (list N) (Entry Document)) (fails : option AtomicWriteStage) :
    ManagedStore Document :=
  mkManagedStore dir
    (fun _ => mkOsScript (Ok tt) (Ok (Some (mkEntry Kind_Directory 1000 448 (Doc_Other None)))) false
                [Attempt_Open [1; 2; 3] false] (fun stage => bool_decide (fails = Some stage))
                (Doc_Other None) false)
    0 false false.

Lemma persisted_state_reloads_witness :
  load_workspace_state 1000
    (fst (persist_workspace_state 1000 18 (Doc_Other None) (sample_store ∅ None) sample_state))
  = Ok (mkLoaded sample_state Migration_Current).
Proof.
  assert (H := persisted_state_reloads 1000 18 (Doc_Other None) (sample_store ∅ None) sample_state
    eq_refl eq_refl).
  assert (Hr : snd (persist_workspace_state 1000 18 (Doc_Other None) (sample_store ∅ None) sample_state)
               = Ok tt) by (vm_compute; reflexivity).
  destruct (persist_workspace_state 1000 18 (Doc_Other None) (sample_store ∅ None) sample_state) as [s' r].
  cbn [fst snd] in *. subst r. exact H.
Defined.
