(* ===== verification/Transaction.v ===== *)
(** * Transaction: what the workspace transactions share

    A transaction runs over a store of type [S], which it uses through [StateStore], and over
    the world of its adapters (Docker, Git, the agent, the forwarding supervisor), an arbitrary
    type [A]: an adapter method is a function of [A] that returns the new [A] and its result, so
    it cannot write the workspace state.  The lifecycle lock of [locking.rs] is held from
    [acquire] to the return; whether it is acquired is the lock's to say. *)

From S2P Require Import Prelude Text Identity Workspace Status Storage WorkspaceState.

(** @src cdenv-cli/src/locking.rs:37-91 LockError *)
Inductive LockError : Type :=
| Lock_ManagedPath (error : ManagedPathError)
| Lock_Prepare (error : StorageError)
| Lock_Missing
| Lock_Open
| Lock_Contended
| Lock_Acquire
| Lock_Release.

Record World (S A : Type) : Type := mkWorld { w_store : S; w_env : A }.
Arguments mkWorld {S A} _ _.
Arguments w_store {S A} _.
Arguments w_env {S A} _.

(** What no transaction on an existing workspace changes. *)
Definition same_workspace (s0 s1 : WorkspaceState) : Prop :=
  ws_installation_id s1 = ws_installation_id s0 /\ ws_name s1 = ws_name s0 /\
  ws_repository_source s1 = ws_repository_source s0 /\ ws_created_at s1 = ws_created_at s0.

#[export] Instance same_workspace_preorder : PreOrder same_workspace.
Proof.
  split; [intros s; by split_and!|]. intros s1 s2 s3 (H1 & H2 & H3 & H4) (H5 & H6 & H7 & H8).
  unfold same_workspace. split_and!; congruence.
Qed.

Section updates.
Context (s : WorkspaceState).

Lemma same_update_desired p c f : same_workspace s (update_desired s p c f).
Proof. by split_and!. Qed.
Lemma same_set_operation o : same_workspace s (set_operation s o).
Proof. by split_and!. Qed.
Lemma same_set_last_error e : same_workspace s (set_last_error s e).
Proof. by split_and!. Qed.
Lemma same_set_active a : same_workspace s (set_active s a).
Proof. by split_and!. Qed.
Lemma same_commit_active a t : same_workspace s (commit_active s a t).
Proof. by split_and!. Qed.
End updates.

Create HintDb workspace.
#[export] Hint Resolve same_update_desired same_set_operation same_set_last_error same_set_active
  same_commit_active : workspace.

Section store.
Context {S : Type} `{!StateStore S, !StateStoreLaws S}.

(** After a write the stored state is the new one, or the write failed and it is the old one. *)
Lemma stored_after_persist st x st' r s0 :
  stored st = Some s0 -> persist st x = (st', r) ->
  stored st' = Some x \/ (is_ok r = false /\ stored st' = Some s0).
Proof.
  intros H0 Hp. destruct r as [[]|e]; [left; by eapply persist_ok|].
  destruct (persist_err _ _ _ _ Hp) as [H|H]; [right|by left]. by rewrite H.
Qed.

Lemma stored_persist_ok st x st' : persist st x = (st', Ok tt) -> stored st' = Some x.
Proof. apply persist_ok. Qed.
End store.
