(* ===== verification/Calendar.v ===== *)
(** * Calendar: the timestamps of the state
    ([cdenv-cli/src/create.rs], from [current_timestamp])

    Days and seconds are [i64] values; a count of seconds that fits has a count of days far from
    the bounds, so the arithmetic on [Z] is the arithmetic of the code. *)

From S2P Require Import Prelude Text Utf8 Net Identity Workspace Status Storage WorkspaceState.

Local Open Scope Z_scope.

(** ** Dates *)

(** [x.div_euclid(n)] and [x / n] agree with [Z.div] where they are used: the divisors are positive
    and the plain divisions have nonnegative dividends.
    @src cdenv-cli/src/create.rs:658-671 civil_date_from_days *)
Definition civil_date_from_days (days_since_epoch : Z) : Z * Z * Z :=
  let shifted := days_since_epoch + 719468 in
  let era := shifted / 146097 in
  let day_of_era := shifted - era * 146097 in
  let year_of_era :=
    (day_of_era - day_of_era / 1460 + day_of_era / 36524 - day_of_era / 146096) / 365 in
  let year := year_of_era + era * 400 in
  let day_of_year := day_of_era - (365 * year_of_era + year_of_era / 4 - year_of_era / 100) in
  let month_prime := (5 * day_of_year + 2) / 153 in
  let day := day_of_year - (153 * month_prime + 2) / 5 + 1 in
  let month := month_prime + (if month_prime <? 10 then 3 else -9) in
  (year + (if month <=? 2 then 1 else 0), month, day).

(** [{value:0width$}] of a nonnegative value. *)
Definition zero_padded (width : nat) (value : Z) : str :=
  let digits := to_string (Z.to_N value) in
  replicate (width - length digits) 48%N ++ digits.

(** @src cdenv-cli/src/create.rs:648-656 format_unix_timestamp *)
Definition format_unix_timestamp (seconds : Z) : str :=
  let days := seconds / 86400 in
  let seconds_of_day := seconds mod 86400 in
  let '(year, month, day) := civil_date_from_days days in
  let hour := seconds_of_day / 3600 in
  let minute := seconds_of_day mod 3600 / 60 in
  let second := seconds_of_day mod 60 in
  zero_padded 4 year ++ $"-" ++ zero_padded 2 month ++ $"-" ++ zero_padded 2 day ++ $"T"
  ++ zero_padded 2 hour ++ $":" ++ zero_padded 2 minute ++ $":" ++ zero_padded 2 second ++ $"Z".

(** [SystemTime::now().duration_since(UNIX_EPOCH)]: the seconds since the epoch, or [None] when the
    clock is before it.
    @src cdenv-cli/src/create.rs:637-646 current_timestamp *)
Definition current_timestamp (clock : option N) : option StateTimestamp :=
  match clock with
  | None => None
  | Some seconds =>
      if (seconds <=? 2 ^ 63 - 1)%N then StateTimestamp_parse (format_unix_timestamp (Z.of_N seconds)) else None
  end.

(** ** The Gregorian calendar *)

Definition is_leap (year : Z) : bool :=
  (year mod 4 =? 0) && negb (year mod 100 =? 0) || (year mod 400 =? 0).

Definition days_in_month (year month : Z) : Z :=
  if month =? 2 then (if is_leap year then 29 else 28)
  else if (month =? 4) || (month =? 6) || (month =? 9) || (month =? 11) then 30 else 31.

Definition valid_date (date : Z * Z * Z) : Prop :=
  let '(year, month, day) := date in 1 <= month <= 12 /\ 1 <= day <= days_in_month year month.

(** The day after. *)
Definition next_day (date : Z * Z * Z) : Z * Z * Z :=
  let '(year, month, day) := date in
  if day <? days_in_month year month then (year, month, day + 1)
  else if month <? 12 then (year, month + 1, 1) else (year + 1, 1, 1).

(** ** Years that start in March *)

(** The number of the first day of a year, from 0000-03-01. *)
Definition year_start (year : Z) : Z := 365 * year + year / 4 - year / 100 + year / 400.

Definition year_of_era (day : Z) : Z := (day - day / 1460 + day / 36524 - day / 146096) / 365.
Definition march_year (shifted : Z) : Z :=
  year_of_era (shifted - shifted / 146097 * 146097) + shifted / 146097 * 400.

Lemma year_of_era_bounds day : 0 <= day < 146097 ->
  0 <= year_of_era day < 400 /\ 365 * year_of_era day + year_of_era day / 4 - year_of_era day / 100 <= day.
Proof. unfold year_of_era. intros. lia. Qed.

Lemma year_of_era_next day : 0 <= day < 146096 ->
  day < 365 * (year_of_era day + 1) + (year_of_era day + 1) / 4 - (year_of_era day + 1) / 100.
Proof. unfold year_of_era. intros. lia. Qed.

Lemma year_start_era era k : 0 <= k < 400 ->
  year_start (k + era * 400) = era * 146097 + (365 * k + k / 4 - k / 100).
Proof. unfold year_start. intros. lia. Qed.

Lemma march_year_bounds shifted :
  year_start (march_year shifted) <= shifted < year_start (march_year shifted + 1).
Proof.
  unfold march_year. set (era := shifted / 146097). set (day := shifted - era * 146097).
  assert (Hday : 0 <= day < 146097) by (unfold day, era; lia).
  destruct (year_of_era_bounds day Hday) as [Hk Hlo]. rewrite year_start_era by done. split; [unfold day in *; lia|].
  destruct (Z.eq_dec day 146096) as [Heq|Hne].
  - assert (Hk' : year_of_era day = 399) by (rewrite Heq; reflexivity). rewrite Hk'. unfold year_start, day in *. lia.
  - assert (Hhi := year_of_era_next day ltac:(lia)). destruct (Z.eq_dec (year_of_era day) 399) as [H9|H9].
    + rewrite H9 in *. unfold year_start, day in *. lia.
    + replace (year_of_era day + era * 400 + 1) with (year_of_era day + 1 + era * 400) by lia.
      rewrite year_start_era by lia. unfold day in *. lia.
Qed.

Lemma year_length year : year_start (year + 1) - year_start year = if is_leap (year + 1) then 366 else 365.
Proof. unfold year_start, is_leap. repeat case_match; prop_of_bool; lia. Qed.

Lemma year_start_mono a b : a <= b -> year_start a <= year_start b.
Proof.
  intros H. replace b with (a + Z.of_nat (Z.to_nat (b - a))) by lia. generalize (Z.to_nat (b - a)). clear.
  induction n as [|n IH]; [rewrite Z.add_0_r; lia|]. assert (Hl := year_length (a + Z.of_nat n)).
  replace (a + Z.of_nat (Datatypes.S n)) with (a + Z.of_nat n + 1) by lia. case_match; lia.
Qed.

Lemma march_year_unique shifted year :
  year_start year <= shifted < year_start (year + 1) -> march_year shifted = year.
Proof.
  intros H. assert (Hb := march_year_bounds shifted).
  assert (H1 := year_start_mono (march_year shifted + 1) year).
  assert (H2 := year_start_mono (year + 1) (march_year shifted)). lia.
Qed.

(** The date of the day [day] of a year that starts in March. *)
Definition march_date (year day : Z) : Z * Z * Z :=
  let month_prime := (5 * day + 2) / 153 in
  let month := month_prime + (if month_prime <? 10 then 3 else -9) in
  (year + (if month <=? 2 then 1 else 0), month, day - (153 * month_prime + 2) / 5 + 1).

Lemma civil_date_march days :
  civil_date_from_days days =
  march_date (march_year (days + 719468)) (days + 719468 - year_start (march_year (days + 719468))).
Proof.
  unfold civil_date_from_days. set (z := days + 719468).
  assert (Hd : 0 <= z - z / 146097 * 146097 < 146097) by lia.
  assert (Hs : z - year_start (march_year z) = z - z / 146097 * 146097 -
    (365 * year_of_era (z - z / 146097 * 146097) + year_of_era (z - z / 146097 * 146097) / 4
     - year_of_era (z - z / 146097 * 146097) / 100)).
  { unfold march_year. rewrite year_start_era by (apply year_of_era_bounds, Hd). lia. }
  rewrite Hs. reflexivity.
Qed.

(** Within a year of that kind, the next day is the next date, and the first of March follows the
    last day. *)
Lemma march_date_next year day :
  0 <= day -> day + 1 < (if is_leap (year + 1) then 366 else 365) ->
  march_date year (day + 1) = next_day (march_date year day) /\ valid_date (march_date year day).
Proof.
  intros H0 H1. unfold march_date. set (mp := (5 * day + 2) / 153). set (mp' := (5 * (day + 1) + 2) / 153).
  assert (Hmp : 0 <= mp <= 11) by (unfold mp; case_match; lia).
  assert (Hb : (153 * mp + 2) / 5 <= day < (153 * (mp + 1) + 2) / 5) by (unfold mp; lia).
  assert (Hs : mp' = mp /\ day + 1 < (153 * (mp + 1) + 2) / 5 \/ mp' = mp + 1 /\ day + 1 = (153 * (mp + 1) + 2) / 5)
    by (unfold mp, mp' in *; lia).
  clearbody mp mp'.
  assert (Hcase : mp = 0 \/ mp = 1 \/ mp = 2 \/ mp = 3 \/ mp = 4 \/ mp = 5 \/ mp = 6 \/ mp = 7 \/ mp = 8
    \/ mp = 9 \/ mp = 10 \/ mp = 11) by lia.
  repeat destruct Hcase as [->|Hcase]; [..|rewrite Hcase in *; clear Hcase].
  all: destruct Hs as [[-> ?]|[-> ?]]; cbn in *; unfold next_day, valid_date, days_in_month; cbn;
    repeat case_match; prop_of_bool; split; try lia; try (repeat f_equal; lia).
Qed.

Lemma march_date_last year day :
  day + 1 = (if is_leap (year + 1) then 366 else 365) ->
  march_date (year + 1) 0 = next_day (march_date year day) /\ valid_date (march_date year day).
Proof.
  intros H.
  assert (Hm : march_date year day = (year + 1, 2, if is_leap (year + 1) then 29 else 28)).
  { destruct (is_leap (year + 1)); [replace day with 365 by lia|replace day with 364 by lia]; reflexivity. }
  rewrite Hm. unfold valid_date, next_day. change (march_date (year + 1) 0) with (year + 1 + 0, 3, 1).
  unfold days_in_month. rewrite Z.add_0_r. cbn -[is_leap]. by destruct (is_leap (year + 1)).
Qed.

Lemma civil_date_step days :
  civil_date_from_days (days + 1) = next_day (civil_date_from_days days)
  /\ valid_date (civil_date_from_days days).
Proof.
  rewrite !civil_date_march. replace (days + 1 + 719468) with (days + 719468 + 1) by lia.
  set (z := days + 719468). clearbody z. clear days.
  assert (Hb := march_year_bounds z). set (year := march_year z) in *. assert (Hl := year_length year).
  destruct (decide (z + 1 < year_start (year + 1))) as [Hin|Hout].
  - rewrite (march_year_unique (z + 1) year) by lia.
    replace (z + 1 - year_start year) with (z - year_start year + 1) by lia. apply march_date_next; lia.
  - assert (Heq : z + 1 = year_start (year + 1)) by lia.
    assert (Hl' := year_length (year + 1)).
    rewrite (march_year_unique (z + 1) (year + 1)) by (case_match; case_match; lia).
    rewrite Heq, Z.sub_diag. apply march_date_last. lia.
Qed.

(** ** The text *)

Lemma zero_padded_spec width value :
  0 <= value < 10 ^ Z.of_nat width -> (1 <= width)%nat ->
  length (zero_padded width value) = width
  /\ Forall (fun c => is_ascii_digit c = true) (zero_padded width value)
  /\ dec_value 0 (zero_padded width value) = Z.to_N value.
Proof.
  intros Hv Hw. unfold zero_padded. destruct (to_string_spec (Z.to_N value)) as (_ & Hd & Hval).
  assert (Hl := to_string_len (N.of_nat width) (Z.to_N value)). unfold lenN in Hl.
  rewrite length_app, length_replicate.
  assert (Hlt : (Z.to_N value < 10 ^ N.of_nat width)%N).
  { apply N2Z.inj_lt. rewrite N2Z.inj_pow, Z2N.id, nat_N_Z by lia. apply Hv. }
  specialize (Hl Hlt ltac:(lia)). split_and!; [lia| |].
  - apply Forall_app. split; [|done]. by apply Forall_replicate.
  - etransitivity; [|exact Hval]. generalize (width - length (to_string (Z.to_N value)))%nat. intros n.
    induction n as [|n IH]; [done|]. cbn [replicate app dec_value]. exact IH.
Qed.

Lemma march_year_range z a b : year_start a <= z < year_start (b + 1) -> a <= march_year z <= b.
Proof.
  intros H. assert (Hb := march_year_bounds z).
  assert (H1 := year_start_mono (march_year z + 1) a). assert (H2 := year_start_mono (b + 1) (march_year z)). lia.
Qed.

(** The last second of the year 9999. *)
Definition LAST_SECOND : Z := 253402300799.

Lemma civil_year_range days : 0 <= days <= LAST_SECOND / 86400 ->
  let '(year, _, _) := civil_date_from_days days in 1969 <= year <= 9999.
Proof.
  intros H. change (LAST_SECOND / 86400) with 2932896 in H. rewrite civil_date_march. set (z := days + 719468).
  assert (Hb := march_year_bounds z).
  assert (Hr : 1969 <= march_year z <= 9999) by (apply march_year_range; unfold year_start; lia).
  destruct (Z.eq_dec (march_year z) 9999) as [H9|]; [|unfold march_date; case_match; lia].
  rewrite H9 in *. unfold march_date. change (year_start 9999) with 3652059 in *.
  assert (Hmp : (5 * (z - 3652059) + 2) / 153 < 10) by (unfold z in *; lia).
  rewrite (proj2 (Z.ltb_lt _ _) Hmp). case_match; unfold z in *; lia.
Qed.

(** The six fields of a second, as numbers. *)
Definition second_fields (seconds : Z) : list Z :=
  let '(year, month, day) := civil_date_from_days (seconds / 86400) in
  [year; month; day; seconds mod 86400 / 3600; seconds mod 3600 / 60; seconds mod 60].

Lemma format_shape seconds : 0 <= seconds <= LAST_SECOND ->
  exists a b c d e f, [a; b; c; d; e; f] = zip_with zero_padded [4; 2; 2; 2; 2; 2]%nat (second_fields seconds)
  /\ format_unix_timestamp seconds =
     a ++ $"-" ++ b ++ $"-" ++ c ++ $"T" ++ d ++ $":" ++ e ++ $":" ++ f ++ $"Z"
  /\ length a = 4%nat /\ Forall (fun s => length s = 2%nat) [b; c; d; e; f]
  /\ Forall (Forall (fun c => is_ascii_digit c = true)) [a; b; c; d; e; f]
  /\ List.map (dec_value 0) [a; b; c; d; e; f] = List.map Z.to_N (second_fields seconds).
Proof.
  intros H. unfold format_unix_timestamp, second_fields.
  assert (Hy := civil_year_range (seconds / 86400) ltac:(unfold LAST_SECOND in *; lia)).
  assert (Hv := proj2 (civil_date_step (seconds / 86400))).
  destruct (civil_date_from_days (seconds / 86400)) as [[year month] day]. cbn in Hv.
  assert (Hd : day <= 31) by (unfold days_in_month in Hv; repeat case_match; lia).
  replace (seconds mod 86400 mod 3600) with (seconds mod 3600) by lia.
  replace (seconds mod 86400 mod 60) with (seconds mod 60) by lia.
  destruct (zero_padded_spec 4 year) as (L1 & D1 & V1); [lia..|].
  destruct (zero_padded_spec 2 month) as (L2 & D2 & V2); [lia..|].
  destruct (zero_padded_spec 2 day) as (L3 & D3 & V3); [lia..|].
  destruct (zero_padded_spec 2 (seconds mod 86400 / 3600)) as (L4 & D4 & V4); [lia..|].
  destruct (zero_padded_spec 2 (seconds mod 3600 / 60)) as (L5 & D5 & V5); [lia..|].
  destruct (zero_padded_spec 2 (seconds mod 60)) as (L6 & D6 & V6); [lia..|].
  eexists _, _, _, _, _, _. split; [reflexivity|]. split; [reflexivity|].
  split; [done|]. split; [by repeat constructor|]. split; [by repeat constructor|].
  cbn [List.map]. congruence.
Qed.

Lemma digit_char c : is_ascii_digit c = true -> (48 <= c <= 57)%N.
Proof. unfold is_ascii_digit, in_range. intros. prop_of_bool. lia. Qed.

Lemma format_accepted seconds : 0 <= seconds <= LAST_SECOND ->
  StateTimestamp_parse (format_unix_timestamp seconds) = Some (mkTimestamp (format_unix_timestamp seconds)).
Proof.
  intros H. destruct (format_shape seconds H) as (a & b & c & d & e & f & _ & -> & La & Ls & Hd & _).
  assert (Hlen : forall s : list N, length s = 2%nat -> exists x y, s = [x; y]).
  { intros [|x [|y [|]]] Hs; try done. by exists x, y. }
  destruct a as [|a1 [|a2 [|a3 [|a4 [|]]]]]; try done.
  repeat (apply Forall_cons in Ls as [Hl Ls]; destruct (Hlen _ Hl) as (? & ? & ->); clear Hl).
  repeat (apply Forall_cons in Hd as [Hc Hd]; repeat (apply Forall_cons in Hc as [?%digit_char Hc]); clear Hc).
  match goal with |- context [StateTimestamp_parse ?l] => set (text := l) end.
  assert (Hr : Forall (fun c => (45 <= c <= 90)%N) text) by (subst text; cbn; repeat (constructor; [lia|]); constructor).
  unfold StateTimestamp_parse. rewrite (encode_utf8_ascii text), str_len_ascii
    by (eapply Forall_impl; [exact Hr|cbn; lia]).
  assert (Hc : existsb is_control text = false).
  { apply not_true_iff_false. intros (k & Hk & E)%existsb_exists. rewrite Forall_forall in Hr.
    specialize (Hr k (proj2 (list_elem_of_In _ _) Hk)). unfold is_control, in_range in E. cbn in Hr.
    destruct (N.leb_spec k 31), (N.leb_spec 127 k); cbn in E; lia. }
  rewrite Hc. reflexivity.
Qed.

(** the timestamps of the state are those of the Gregorian calendar.  Day 0 is the first of January
    1970, each day follows the day before it in the calendar (lengths of the months, leap years and
    centuries included) and is a date of its year; and up to the end of the year 9999 the text of a
    second has six decimal fields with the date and the time of day, and is accepted as a
    [StateTimestamp], so that [current_timestamp] returns it. *)
Theorem timestamps_are_gregorian :
  civil_date_from_days 0 = (1970, 1, 1)
  /\ (forall days, civil_date_from_days (days + 1) = next_day (civil_date_from_days days)
     /\ valid_date (civil_date_from_days days))
  /\ forall seconds, 0 <= seconds <= LAST_SECOND ->
     (exists a b c d e f,
        format_unix_timestamp seconds = a ++ $"-" ++ b ++ $"-" ++ c ++ $"T" ++ d ++ $":" ++ e ++ $":" ++ f ++ $"Z"
        /\ List.map length [a; b; c; d; e; f] = [4; 2; 2; 2; 2; 2]%nat
        /\ Forall (Forall (fun c => is_ascii_digit c = true)) [a; b; c; d; e; f]
        /\ List.map (dec_value 0) [a; b; c; d; e; f] = List.map Z.to_N (second_fields seconds))
     /\ current_timestamp (Some (Z.to_N seconds)) = Some (mkTimestamp (format_unix_timestamp seconds)).
Proof.
  split; [reflexivity|]. split; [exact civil_date_step|]. intros seconds H. split.
  - destruct (format_shape seconds H) as (a & b & c & d & e & f & _ & Hf & Ha & Hl & Hd & Hv).
    exists a, b, c, d, e, f. split_and!; try done. cbn [List.map]. rewrite Ha.
    repeat (apply Forall_cons in Hl as [-> Hl]). reflexivity.
  - unfold current_timestamp. rewrite (proj2 (N.leb_le _ _)), Z2N.id by (unfold LAST_SECOND in *; lia).
    by apply format_accepted.
Qed.

Lemma timestamps_are_gregorian_witness :
  current_timestamp (Some 951782399%N) = Some (mkTimestamp ($"2000-02-28T23:59:59Z"))
  /\ next_day (2000, 2, 28) = (2000, 2, 29).
Proof.
  split; [|reflexivity].
  destruct (proj2 (proj2 timestamps_are_gregorian) 951782399 ltac:(unfold LAST_SECOND; lia)) as [_ H].
  exact H.
Defined.
