(* ===== verification/FileTree.v ===== *)
(** * FileTree: managed directories and lock files
    ([cdenv-cli/src/storage.rs], [cdenv-cli/src/locking.rs], the layout of [cdenv-cli/src/paths.rs])

    The file system is a map from absolute paths to entries.  A path is the list of its components
    from the last to the first, so the parent of [name :: parent] is [parent] and the paths below
    [p] are those [p] is a suffix of.  Each system call takes one step of the script of the
    operating system, which says whether it fails for a reason of its own; the script is arbitrary,
    so what is proved holds under every failure.  Links are not followed: the code inspects the
    ancestors of what it writes and refuses links, and a path below a link has no entry. *)

From S2P Require Import Prelude Text Effects Utf8 Identity Workspace Status Storage WorkspaceState Transaction.

(** ** The disk *)

Abbreviation Path := (list (list N)).

(** [io::ErrorKind], as far as the code looks at it. *)
Inductive IoError : Type := Io_NotFound | Io_AlreadyExists | Io_Other.

(** @src cdenv-cli/src/locking.rs:18-23 LockMode *)
Inductive LockMode : Type := Lock_Shared | Lock_Exclusive.

(** What the operating system does at one call: whether it fails, what a removal that fails leaves,
    how each lock file is locked by other holders at that moment, whether a link leads nowhere, and
    the steps of an atomic replacement. *)
Record OsStep (B : Type) : Type := mkOsStep {
  step_fails : bool;
  step_keeps : Path -> bool;
  step_held : Path -> option LockMode;
  step_dangling : Path -> bool;
  step_write : OsScript B;
}.
Arguments mkOsStep {B} _ _ _ _ _.
Arguments step_dangling {B} _ _.
Arguments step_fails {B} _.
Arguments step_keeps {B} _ _.
Arguments step_held {B} _ _.
Arguments step_write {B} _.

Record Disk (B : Type) : Type := mkDisk {
  tree : gmap Path (Entry B);
  script : nat -> OsStep B;
  ticks : nat;
}.
Arguments mkDisk {B} _ _ _.
Arguments tree {B} _.
Arguments script {B} _ _.
Arguments ticks {B} _.

(** Code that uses the disk; it logs nothing, its effect is the tree. *)
Abbreviation disk_io B := (act (Disk B) Empty_set).

(** The name of an entry directly in a directory. *)
Definition child_name (dir q : Path) : option (list N) :=
  match q with
  | n :: parent => if bool_decide (parent = dir) then Some n else None
  | [] => None
  end.

Section system.
Context {B : Type} (user umask : N) (no_bytes : B).

(** One system call: at its step it fails, or has an effect on the tree and an answer. *)
Definition system_call {X : Type} (on_failure : OsStep B -> gmap Path (Entry B) -> gmap Path (Entry B))
    (f : OsStep B -> gmap Path (Entry B) -> gmap Path (Entry B) * result IoError X) : disk_io B IoError X :=
  fun d =>
    let step := script d (ticks d) in
    let '(t, r) := if step_fails step then (on_failure step (tree d), Err Io_Other) else f step (tree d) in
    (mkDisk t (script d) (S (ticks d)), [], r).

Definition untouched (_ : OsStep B) (t : gmap Path (Entry B)) : gmap Path (Entry B) := t.

(** [fs::symlink_metadata] *)
Definition symlink_metadata (p : Path) : disk_io B IoError (Entry B) :=
  system_call untouched (fun _ t => (t, ok_or Io_NotFound (t !! p))).

(** Whether an object can be created at a path. *)
Definition creatable (t : gmap Path (Entry B)) (p : Path) : result IoError unit :=
  match t !! p with
  | Some _ => Err Io_AlreadyExists
  | None =>
      match p with
      | [] => Err Io_Other
      | _ :: parent =>
          let? entry := ok_or Io_NotFound (t !! parent) in
          fail_if negb (bool_decide (e_kind entry = Kind_Directory)) with Io_Other in Ok tt
      end
  end.

Definition create (kind : FileKind) (mode : N) (p : Path) : disk_io B IoError unit :=
  system_call untouched (fun _ t =>
    match creatable t p with
    | Ok _ => (<[p := mkEntry kind user (N.ldiff mode umask) no_bytes]> t, Ok tt)
    | Err e => (t, Err e)
    end).

(** [fs::create_dir], with mode 0777 before the mask. *)
Definition create_dir : Path -> disk_io B IoError unit := create Kind_Directory 511.
(** [OpenOptions] with [create_new] and a mode. *)
Definition open_new (mode : N) : Path -> disk_io B IoError unit := create Kind_File mode.

(** [OpenOptions] with [read] and [write]. *)
Definition open_existing (p : Path) : disk_io B IoError unit :=
  system_call untouched (fun _ t =>
    (t, let? entry := ok_or Io_NotFound (t !! p) in
        fail_if negb (bool_decide (e_kind entry = Kind_File)) with Io_Other in Ok tt)).

(** [fs::set_permissions] *)
Definition set_mode (p : Path) (mode : ManagedMode) : disk_io B IoError unit :=
  system_call untouched (fun _ t =>
    match t !! p with
    | Some entry => (<[p := mkEntry (e_kind entry) (e_uid entry) (unix_bits mode) (e_content entry)]> t, Ok tt)
    | None => (t, Err Io_NotFound)
    end).

Definition strictly_below (p q : Path) : Prop := q <> p /\ p `suffix_of` q.
#[export] Instance strictly_below_dec p q : Decision (strictly_below p q) := _.

(** Whether a directory has no entry. *)
Definition is_empty_dir (t : gmap Path (Entry B)) (p : Path) : bool :=
  forallb (fun '(q, _) => negb (bool_decide (strictly_below p q))) (map_to_list t).

(** [fs::remove_dir] *)
Definition remove_dir (p : Path) : disk_io B IoError unit :=
  system_call untouched (fun _ t =>
    match t !! p with
    | None => (t, Err Io_NotFound)
    | Some entry =>
        if bool_decide (e_kind entry = Kind_Directory) && is_empty_dir t p
        then (delete p t, Ok tt) else (t, Err Io_Other)
    end).

(** [fs::remove_file] *)
Definition remove_file (p : Path) : disk_io B IoError unit :=
  system_call untouched (fun _ t =>
    match t !! p with
    | None => (t, Err Io_NotFound)
    | Some entry =>
        if bool_decide (e_kind entry = Kind_Directory) then (t, Err Io_Other) else (delete p t, Ok tt)
    end).

(** [fs::remove_dir_all]: a failure may leave any part of the subtree. *)
Definition remove_dir_all (p : Path) : disk_io B IoError unit :=
  system_call (fun step t => filter (fun '(q, _) => ~ p `suffix_of` q \/ step_keeps step q = true) t)
    (fun _ t => (filter (fun '(q, _) => ~ p `suffix_of` q) t, Ok tt)).

(** [fs::read] *)
Definition read_file (p : Path) : disk_io B IoError B :=
  system_call untouched (fun _ t =>
    (t, let? entry := ok_or Io_NotFound (t !! p) in
        fail_if bool_decide (e_kind entry = Kind_Directory) with Io_Other in Ok (e_content entry))).

(** [fs::read_dir]: the names in some order; each [next] is a call of its own. *)
Definition read_dir (dir : Path) : disk_io B IoError (list (list N)) :=
  system_call untouched (fun _ t => (t, Ok (omap (child_name dir) (map_to_list t).*1))).
Definition next_entry : disk_io B IoError unit := system_call untouched (fun _ t => (t, Ok tt)).

(** Whether a lock can be given beside the one that others hold: any number share it, and an
    exclusive holder is alone. *)
Definition compatible (mode : LockMode) (held : option LockMode) : bool :=
  match held, mode with
  | None, _ | Some Lock_Shared, Lock_Shared => true
  | _, _ => false
  end.

(** [File::try_lock] and [File::try_lock_shared] of the file at a path: [false] for [WouldBlock]. *)
Definition try_lock (p : Path) (mode : LockMode) : disk_io B IoError bool :=
  system_call untouched (fun step t => (t, Ok (compatible mode (step_held step p)))).
(** [File::lock] and [File::lock_shared] return when the lock is given. *)
Definition wait_lock (p : Path) (mode : LockMode) : disk_io B IoError unit := system_call untouched (fun _ t => (t, Ok tt)).
(** [File::unlock] *)
Definition unlock (p : Path) : disk_io B IoError unit := system_call untouched (fun _ t => (t, Ok tt)).

(** ** Managed storage *)

(** [inspect_managed_path] of [paths.rs] with the metadata of the path.
    @src cdenv-cli/src/paths.rs:535-573 inspect_managed_path *)
Definition inspect (p : Path) (kind : ManagedPathKind) : disk_io B ManagedPathError ManagedPathState :=
  let answer metadata :=
    match inspect_managed_path metadata kind (Some user) with Ok s => done s | Err e => raise e end in
  do? entry := symlink_metadata p
    else (fun e => match e with Io_NotFound => answer (Ok None) | _ => answer (Err tt) end) in
  answer (Ok (Some entry)).

(** The ancestors of a path, itself first. *)
Fixpoint ancestors (p : Path) : list Path :=
  match p with [] => [[]] | _ :: parent => p :: ancestors parent end.

(** @src cdenv-cli/src/storage.rs:348-370 inspect_parent_components *)
Definition inspect_component (ancestor : Path) : disk_io B StorageError unit :=
  do? entry := symlink_metadata ancestor
    else (fun e => match e with Io_NotFound => done tt | _ => raise (Storage_Io CreateTemporary) end) in
  if bool_decide (e_kind entry = Kind_Symlink) then raise Storage_ParentSymlink else
  if negb (bool_decide (e_kind entry = Kind_Directory)) then raise Storage_ParentNotDirectory else done tt.

(** @src cdenv-cli/src/storage.rs:344-372 inspect_parent_components *)
Definition inspect_parent_components (p : Path) : disk_io B StorageError unit :=
  match p with [] => done tt | _ :: parent => each inspect_component (ancestors parent) end.

(** @src cdenv-cli/src/storage.rs:128-147 ensure_private_directory *)
Definition ensure_private_directory (p : Path) : disk_io B StorageError unit :=
  do? _ := inspect_parent_components p else raise in
  let created :=
    do? _ := inspect p Managed_Directory or Storage_ManagedPath in
    do? _ := set_mode p PrivateDirectory or (fun _ => Storage_Io SetPermissions) in done tt in
  do? _ := create_dir p
    else (fun e => match e with Io_AlreadyExists => created | _ => raise (Storage_Io CreateTemporary) end) in
  created.

(** @src cdenv-cli/src/storage.rs:155-169 tighten_managed_file *)
Definition tighten_managed_file (p : Path) (mode : ManagedMode) : disk_io B StorageError unit :=
  do? _ := inspect_parent_components p else raise in
  do? found := inspect p Managed_File or Storage_ManagedPath in
  match found with
  | Path_Valid => do? _ := set_mode p mode or (fun _ => Storage_Io SetPermissions) in done tt
  | Path_Missing => raise (Storage_Io SetPermissions)
  end.

(** ** Lock files *)

(** @src cdenv-cli/src/locking.rs:27-32 LockBehavior *)
Inductive LockBehavior : Type := Lock_Wait | Lock_FailFast.

(** One round of the loop: [None] when the file appeared after the inspection.
    @src cdenv-cli/src/locking.rs:107-137 ensure_lock_file *)
Definition lock_file_round (p : Path) : disk_io B LockError (option unit) :=
  let tighten := do? _ := tighten_managed_file p PrivateFile or Lock_Prepare in done (Some tt) in
  do? found := inspect p Managed_File or Lock_ManagedPath in
  match found with
  | Path_Valid => tighten
  | Path_Missing =>
      do? _ := open_new 384 p
        else (fun e => match e with Io_AlreadyExists => done None | _ => raise Lock_Open end) in
      tighten
  end.

Fixpoint lock_file_loop (fuel : nat) (p : Path) : disk_io B LockError unit :=
  match fuel with
  | O => raise Lock_Open
  | S fuel' =>
      do? round := lock_file_round p else raise in
      match round with Some _ => done tt | None => lock_file_loop fuel' p end
  end.

(** The second round sees the file that the first one found in its place; nothing else creates it
    between the two calls of one round, so one round is enough ([lock_file_loop_once]).
    @src cdenv-cli/src/locking.rs:100-138 ensure_lock_file *)
Definition ensure_lock_file (p : Path) : disk_io B LockError unit :=
  match p with
  | [] => raise Lock_Open
  | _ :: parent =>
      do? _ := inspect parent Managed_Directory or Lock_ManagedPath in
      lock_file_loop 2 p
  end.

(** A guard is the right to go on; it is released by leaving the scope.
    @src cdenv-cli/src/locking.rs:172-228 LockGuard::acquire *)
Definition acquire_lock (p : Path) (mode : LockMode) (behavior : LockBehavior) : disk_io B LockError unit :=
  do? found := inspect p Managed_File or Lock_ManagedPath in
  match found with
  | Path_Missing => raise Lock_Missing
  | Path_Valid =>
      do? _ := open_existing p or (fun _ => Lock_Open) in
      match behavior with
      | Lock_Wait => do? _ := wait_lock p mode or (fun _ => Lock_Acquire) in done tt
      | Lock_FailFast =>
          do? free := try_lock p mode or (fun _ => Lock_Acquire) in
          if free : bool then done tt else raise Lock_Contended
      end
  end.

(** [LockGuard::release] reports a failure to unlock.
    @src cdenv-cli/src/locking.rs:238-246 LockGuard::release *)
Definition release_lock (p : Path) : disk_io B LockError unit := do? _ := unlock p or (fun _ => Lock_Release) in done tt.

(** @src cdenv-cli/src/locking.rs:259-269 AttachSetupError *)
Inductive AttachSetupError (E : Type) : Type := Attach_Lock (error : LockError) | Attach_Setup (error : E).

(** On an error of the setup the guard is dropped.
    @src cdenv-cli/src/locking.rs:278-290 with_shared_lock_for_attach *)
Definition with_shared_lock_for_attach {E T : Type} (p : Path) (behavior : LockBehavior) (setup : disk_io B E T) :
    disk_io B (AttachSetupError E) T :=
  do? _ := acquire_lock p Lock_Shared behavior or Attach_Lock E in
  do? attached := setup or Attach_Setup E in
  do? _ := release_lock p or Attach_Lock E in
  done attached.
End system.

(** ** The layout *)

(** @src cdenv-cli/src/paths.rs:198-200 CdenvRoot::workspaces_dir *)
Definition workspaces_dir (root : Path) : Path := $"workspaces" :: root.
(** @src cdenv-cli/src/paths.rs:204-206 CdenvRoot::workspace_namespace_lock *)
Definition workspace_namespace_lock (root : Path) : Path := $".namespace.lock" :: workspaces_dir root.
(** @src cdenv-cli/src/paths.rs:228-230 CdenvRoot::logs_dir *)
Definition root_logs_dir (root : Path) : Path := $"logs" :: root.

Section paths.
Context (root : Path) (name : WorkspaceName).
Let component : list N := encode_utf8 (name_str name).
(** @src cdenv-cli/src/paths.rs:261-263 WorkspacePaths::root *)
Definition workspace_root : Path := component :: workspaces_dir root.
(** @src cdenv-cli/src/paths.rs:267-269 WorkspacePaths::checkout_dir *)
Definition checkout_dir : Path := $"checkout" :: workspace_root.
(** @src cdenv-cli/src/paths.rs:273-275 WorkspacePaths::checkout *)
Definition checkout : Path := component :: checkout_dir.
(** @src cdenv-cli/src/paths.rs:279-281 WorkspacePaths::state_file *)
Definition state_path : Path := state_file :: workspace_root.
(** @src cdenv-cli/src/paths.rs:291-293 WorkspacePaths::lock_file *)
Definition lock_file : Path := $".lock" :: workspace_root.
(** @src cdenv-cli/src/paths.rs:297-299 WorkspacePaths::runtime_dir *)
Definition runtime_dir : Path := $"runtime" :: workspace_root.
(** @src cdenv-cli/src/paths.rs:303-305 WorkspacePaths::supervisor_socket *)
Definition supervisor_socket : Path := $"supervisor.sock" :: runtime_dir.
(** @src cdenv-cli/src/paths.rs:309-311 WorkspacePaths::supervisor_state_file *)
Definition supervisor_state_file : Path := $"supervisor.json" :: runtime_dir.
(** @src cdenv-cli/src/paths.rs:315-317 WorkspacePaths::supervisor_lifetime_lock *)
Definition supervisor_lifetime_lock : Path := $".supervisor.lock" :: runtime_dir.
(** @src cdenv-cli/src/paths.rs:321-323 WorkspacePaths::logs_dir *)
Definition logs_dir : Path := $"logs" :: workspace_root.
End paths.

(** ** Reasoning: the tree before and after, and the number of calls that failed *)

Section logic.
Context {B : Type}.
Implicit Types (t : gmap Path (Entry B)) (d : Disk B).

(** The calls between two moments that failed. *)
Definition fault_count d d' : nat :=
  length (List.filter (fun n => step_fails (script d n)) (seq (ticks d) (ticks d' - ticks d))).

(** From the tree [t] the code ends in [Q]: the tree, the result, the number of failed calls. *)
Definition post {E X} (m : disk_io B E X) t (Q : gmap Path (Entry B) -> result E X -> nat -> Prop) : Prop :=
  forall d, tree d = t ->
    let '(d', _, r) := m d in
    script d' = script d /\ (ticks d <= ticks d')%nat /\ Q (tree d') r (fault_count d d').

Lemma fault_count_same d : fault_count d d = 0%nat.
Proof. unfold fault_count. by rewrite Nat.sub_diag. Qed.

Lemma fault_count_add d d1 d2 :
  script d1 = script d -> (ticks d <= ticks d1)%nat -> (ticks d1 <= ticks d2)%nat ->
  fault_count d d2 = (fault_count d d1 + fault_count d1 d2)%nat.
Proof.
  intros Hs H1 H2. unfold fault_count. rewrite Hs.
  replace (ticks d2 - ticks d)%nat with ((ticks d1 - ticks d) + (ticks d2 - ticks d1))%nat by lia.
  rewrite seq_app, List.filter_app, length_app. do 4 f_equal. lia.
Qed.

Lemma post_done {E X} (x : X) t (Q : _ -> result E X -> nat -> Prop) : Q t (Ok x) 0%nat -> post (done x) t Q.
Proof. intros H d <-. cbn. rewrite fault_count_same. by split_and!. Qed.

Lemma post_raise {E X} (e : E) t (Q : _ -> result E X -> nat -> Prop) : Q t (Err e) 0%nat -> post (raise e) t Q.
Proof. intros H d <-. cbn. rewrite fault_count_same. by split_and!. Qed.

Lemma post_impl {E X} (m : disk_io B E X) t (Q Q' : _ -> result E X -> nat -> Prop) :
  post m t Q -> (forall t' r n, Q t' r n -> Q' t' r n) -> post m t Q'.
Proof. intros H HQ d Hd. specialize (H d Hd). destruct (m d) as [[d' l] r]. naive_solver. Qed.

Lemma post_handle {E F X Y} (m : disk_io B E X) (h : E -> disk_io B F Y) k t (Q : _ -> result F Y -> nat -> Prop) :
  post m t (fun t' r n =>
    match r with
    | Ok x => post (k x) t' (fun t2 r2 n2 => Q t2 r2 (n + n2)%nat)
    | Err e => post (h e) t' (fun t2 r2 n2 => Q t2 r2 (n + n2)%nat)
    end) ->
  post (handle m h k) t Q.
Proof.
  intros H d Hd. unfold handle. specialize (H d Hd). destruct (m d) as [[d1 l1] r1].
  destruct H as (Hs & Ht & H).
  assert (Hk : forall m2 : disk_io B F Y, post m2 (tree d1) (fun t2 r2 n2 => Q t2 r2 (fault_count d d1 + n2)%nat) ->
    let '(a2, t2, r2) := m2 d1 in let '(d', _, r) := (a2, l1 ++ t2, r2) in
    script d' = script d /\ (ticks d <= ticks d')%nat /\ Q (tree d') r (fault_count d d')).
  { intros m2 Hm2. specialize (Hm2 d1 eq_refl). destruct (m2 d1) as [[d2 l2] r2].
    destruct Hm2 as (Hs2 & Ht2 & HQ). split_and!; [congruence|lia|].
    by rewrite (fault_count_add d d1 d2) by done. }
  destruct r1 as [x|e]; specialize (Hk _ H); [destruct (k x d1) as [[??]?]|destruct (h e d1) as [[??]?]]; exact Hk.
Qed.

Lemma post_call {X : Type} on_failure f t (Q : _ -> result IoError X -> nat -> Prop) :
  (forall step, Q (on_failure step t) (Err Io_Other) 1%nat) ->
  (forall step, let '(t', r) := f step t in Q t' r 0%nat) ->
  post (system_call on_failure f) t Q.
Proof.
  intros Hf Hk d <-. unfold system_call. specialize (Hf (script d (ticks d))). specialize (Hk (script d (ticks d))).
  assert (Hc : forall t', fault_count d (mkDisk t' (script d) (S (ticks d))) =
    if step_fails (script d (ticks d)) then 1%nat else 0%nat).
  { intros t'. unfold fault_count. cbn [ticks script]. rewrite Nat.sub_succ_l, Nat.sub_diag by done. cbn.
    by destruct (step_fails _). }
  destruct (step_fails (script d (ticks d))) eqn:E.
  - split_and!; [done|cbn; lia|]. rewrite Hc. exact Hf.
  - destruct (f _ _) as [t' r]. split_and!; [done|cbn; lia|]. rewrite Hc. exact Hk.
Qed.

Lemma post_observe {E X Y} (f : Disk B -> Y) (k : Y -> disk_io B E X) t (Q : _ -> result E X -> nat -> Prop) :
  (forall y, post (k y) t Q) -> post (observe f k) t Q.
Proof. intros H d Hd. exact (H (f d) d Hd). Qed.

(** A loop keeps an invariant of the tree, the elements done and the failures. *)
Lemma post_each {E X} (body : X -> disk_io B E unit) (l : list X) t (I : list X -> gmap Path (Entry B) -> nat -> Prop)
    (Q : _ -> result E unit -> nat -> Prop) :
  I l t 0%nat ->
  (forall x l' t' n, I (x :: l') t' n ->
     post (body x) t' (fun t2 r n2 =>
       match r with Ok _ => I l' t2 (n + n2)%nat | Err e => Q t2 (Err e) (n + n2)%nat end)) ->
  (forall t' n, I [] t' n -> Q t' (Ok tt) n) ->
  post (each body l) t Q.
Proof.
  intros HI Hb Hend.
  assert (Hall : forall (l : list X) t m, I l t m -> post (each body l) t (fun t r n => Q t r (m + n)%nat)).
  { clear l t HI. intros l. induction l as [|x l IH]; intros t m HI; cbn [each].
    - apply post_done. rewrite Nat.add_0_r. by apply Hend.
    - apply post_handle. eapply post_impl; [by apply Hb|]. intros t2 [[]|e] n2 H; cbn beta iota.
      + eapply post_impl; [apply (IH t2 (m + n2)%nat H)|]. intros t3 r3 n3 H3. cbn beta in *.
        by rewrite Nat.add_assoc.
      + apply post_raise. by rewrite Nat.add_0_r. }
  exact (Hall l t 0%nat HI).
Qed.

Lemma post_each_app {E X} (body : X -> disk_io B E unit) (l1 l2 : list X) t (Q : _ -> result E unit -> nat -> Prop) :
  post (each body l1) t (fun t1 r n =>
    match r with
    | Ok _ => post (each body l2) t1 (fun t2 r2 n2 => Q t2 r2 (n + n2)%nat)
    | Err e => Q t1 (Err e) n
    end) ->
  post (each body (l1 ++ l2)) t Q.
Proof.
  intros H d Hd. rewrite each_app. revert d Hd. apply post_handle. eapply post_impl; [exact H|].
  intros t1 [[]|e] n Hn; cbn beta iota; [exact Hn|]. apply post_raise. by rewrite Nat.add_0_r.
Qed.
End logic.

(** The rules in the order the code needs them; a failed call is a case of its own. *)
Ltac disk_step :=
  match goal with
  | |- post (handle _ _ _) _ _ => apply post_handle
  | |- post (done _) _ _ => apply post_done
  | |- post (raise _) _ _ => apply post_raise
  | |- post (system_call _ _) _ _ => apply post_call; intros ?; cbn beta iota
  | |- post (match ?x with _ => _ end) _ _ => destruct x eqn:?
  | |- context [match ok_or _ ?o with _ => _ end] => destruct o eqn:?; cbn [ok_or]
  end.
Ltac disk := repeat (disk_step; cbn beta iota zeta).

Section operations.
Context {B : Type} (user umask : N) (no_bytes : B).
Implicit Types (t : gmap Path (Entry B)) (p q : Path).

Lemma inspect_spec p kind t :
  post (inspect user p kind) t (fun t' r n =>
    t' = t /\ (n = 0%nat -> r = inspect_managed_path (Ok (t !! p)) kind (Some user))
    /\ (is_ok r = true -> n = 0%nat)).
Proof.
  unfold inspect, symlink_metadata. disk; try done; by split_and!.
Qed.

Lemma suffix_cons_cases q c p : q `suffix_of` c :: p <-> q = c :: p \/ q `suffix_of` p.
Proof.
  split; [|intros [->|H]; [done|by apply suffix_cons_r]].
  intros [[|x k] Hk]; cbn in Hk; [by left|]. injection Hk as -> ->. right. by exists k.
Qed.

(** Every ancestor that exists is a directory. *)
Definition clear_path t p : Prop :=
  forall q e, strictly_below q p -> t !! q = Some e -> e_kind e = Kind_Directory.

Lemma ancestors_below p q : q ∈ ancestors p <-> q `suffix_of` p.
Proof.
  induction p as [|c p IH]; cbn [ancestors].
  - rewrite list_elem_of_singleton. split; [by intros ->|]. intros [k Hk]. symmetry in Hk. by apply app_nil in Hk as [_ ?].
  - by rewrite elem_of_cons, IH, suffix_cons_cases.
Qed.

Lemma strictly_below_cons q c p : strictly_below q (c :: p) <-> q `suffix_of` p.
Proof.
  unfold strictly_below. rewrite suffix_cons_cases. split; [naive_solver|]. intros H. split; [|by right].
  intros <-. apply suffix_length in H. cbn in H. lia.
Qed.

Lemma inspect_component_spec q t :
  post (inspect_component q) t (fun t' r n =>
    t' = t /\ (is_ok r = true -> n = 0%nat /\ forall e, t !! q = Some e -> e_kind e = Kind_Directory)
    /\ (n = 0%nat -> (forall e, t !! q = Some e -> e_kind e = Kind_Directory) -> r = Ok tt)).
Proof.
  unfold inspect_component, symlink_metadata. disk; try done; split_and!; try done.
  all: repeat case_match; prop_of_bool; simplify_eq; try done.
  1-2: intros _ H; specialize (H _ eq_refl); congruence.
  intros _. split; [done|]. by intros e0 [= <-].
Qed.

Lemma inspect_parent_components_spec p t :
  post (inspect_parent_components p) t (fun t' r n =>
    t' = t /\ (is_ok r = true -> n = 0%nat /\ clear_path t p) /\ (n = 0%nat -> clear_path t p -> r = Ok tt)).
Proof.
  destruct p as [|c p]; cbn [inspect_parent_components].
  - apply post_done. split_and!; try done. intros _. split; [done|]. intros q e [Hne [k Hk]].
    symmetry in Hk. apply app_nil in Hk as [_ ->]. done.
  - apply (post_each _ _ _ (fun rest t' n => t' = t /\ n = 0%nat
      /\ (forall q, q `suffix_of` p -> q ∈ rest \/ forall e, t !! q = Some e -> e_kind e = Kind_Directory)
      /\ forall q, q ∈ rest -> q `suffix_of` p)).
    + split_and!; [done|done| |]; intros q; rewrite ancestors_below; auto.
    + intros q rest t' n (-> & -> & Hdone & Hin). eapply post_impl; [apply inspect_component_spec|].
      intros t2 [[]|e] n2 (-> & Hok & Herr); cbn beta iota.
      * destruct (Hok eq_refl) as [-> Hq]. split_and!; [done|done| |].
        -- intros q' [[->|?]%elem_of_cons|?]%Hdone; auto.
        -- intros q' Hq'. apply Hin. by apply elem_of_cons; right.
      * split_and!; [done|done|]. intros Hn Hclear. cbn in Hn. subst n2.
        specialize (Herr eq_refl). discriminate Herr. intros e0. apply Hclear.
        apply strictly_below_cons, Hin. apply elem_of_cons. by left.
    + intros t' n (-> & -> & Hdone & _). split_and!; [done| |done]. intros _. split; [done|].
      intros q e Hq. apply strictly_below_cons in Hq. destruct (Hdone q Hq) as [?%elem_of_nil|H]; [done|apply H].
Qed.

(** What ensuring an object may do: nothing elsewhere; an existing object keeps its kind, owner and
    content; a missing one may be created. *)
Definition ensured (kind : FileKind) p t t' : Prop :=
  (forall q, q <> p -> t' !! q = t !! q) /\
  match t !! p with
  | Some e => exists mode, t' !! p = Some (mkEntry (e_kind e) (e_uid e) mode (e_content e))
  | None => t' !! p = None \/ exists mode, t' !! p = Some (mkEntry kind user mode no_bytes)
  end.

(** An object of the user with the mode of the policy. *)
Definition private (kind : FileKind) (mode : ManagedMode) t p : Prop :=
  exists content, t !! p = Some (mkEntry kind user (unix_bits mode) content).

Lemma ensured_refl kind p t : ensured kind p t t.
Proof. split; [done|]. destruct (t !! p) as [[]|]; [by eexists|by left]. Qed.

Lemma inspect_valid t p kind :
  inspect_managed_path (Ok (t !! p)) kind (Some user) = Ok Path_Valid <->
  exists e, t !! p = Some e /\ e_uid e = user /\
    e_kind e = match kind with Managed_Directory => Kind_Directory | Managed_File => Kind_File | Managed_Socket => Kind_Socket end.
Proof.
  unfold inspect_managed_path, inspect_owner. destruct (t !! p) as [e|]; [|naive_solver].
  split.
  - intros H. exists e. destruct kind; repeat case_match; prop_of_bool; simplify_eq; by split_and!.
  - intros (e' & [= <-] & Hu & Hk). rewrite Hk, Hu, N.eqb_refl. by destruct kind.
Qed.

Lemma inspect_missing t p kind :
  inspect_managed_path (Ok (t !! p)) kind (Some user) = Ok Path_Missing <-> t !! p = None.
Proof.
  unfold inspect_managed_path, inspect_owner. destruct (t !! p) as [e|]; [|done].
  split; [|done]. intros H. destruct kind; repeat case_match; simplify_eq.
Qed.

(** The parent is a directory. *)
Definition parent_is_dir t p : Prop :=
  match p with [] => False | _ :: parent => exists e, t !! parent = Some e /\ e_kind e = Kind_Directory end.

Lemma creatable_Ok t p : t !! p = None -> parent_is_dir t p -> creatable t p = Ok tt.
Proof.
  unfold creatable, parent_is_dir. intros ->. destruct p as [|c p]; [done|]. intros (e & -> & Hk). cbn.
  by rewrite bool_decide_eq_true_2.
Qed.

Lemma creatable_free t p r : creatable t p = Ok r -> t !! p = None.
Proof. unfold creatable. by destruct (t !! p). Qed.

Lemma create_spec kind mode p t :
  post (create user umask no_bytes kind mode p) t (fun t' r n =>
    match r with
    | Ok _ => n = 0%nat /\ t !! p = None /\ t' = <[p := mkEntry kind user (N.ldiff mode umask) no_bytes]> t
    | Err e => t' = t /\ (n = 0%nat -> creatable t p = Err e) /\ (e = Io_AlreadyExists -> t !! p <> None)
    end).
Proof.
  unfold create. disk; [by split_and!|]. destruct (creatable t p) as [[]|e] eqn:E.
  2:{ split_and!; [done..|]. intros -> Hp. unfold creatable in E. rewrite Hp in E.
      destruct p as [|c p]; [done|]. destruct (t !! p); cbn in E; [by case_match|done]. }
  split_and!; [done| |done]. by eapply creatable_free.
Qed.

Lemma set_mode_spec p mode t :
  post (set_mode p mode) t (fun t' r n =>
    match r with
    | Ok _ => n = 0%nat /\ exists e, t !! p = Some e /\
        t' = <[p := mkEntry (e_kind e) (e_uid e) (unix_bits mode) (e_content e)]> t
    | Err e => t' = t /\ (n = 0%nat -> t !! p = None)
    end).
Proof. unfold set_mode. disk; [by split|]. destruct (t !! p) as [e|]; [|by split]. split; [done|]. by exists e. Qed.

(** The path is free, or holds an object of the user of the right kind. *)
Definition adoptable (kind : FileKind) t p : Prop :=
  match t !! p with None => True | Some e => e_kind e = kind /\ e_uid e = user end.

(** Ensuring after the object may have been created: [t] is the tree before, [t1] the one now. *)
Lemma ensured_set_mode kind p t t1 mode t' e :
  ensured kind p t t1 -> t1 !! p = Some e ->
  t' = <[p := mkEntry (e_kind e) (e_uid e) mode (e_content e)]> t1 -> ensured kind p t t'.
Proof.
  intros [Hne Hp] He ->. split; [intros q Hq; rewrite lookup_insert_ne by done; by apply Hne|].
  rewrite lookup_insert_eq. rewrite He in Hp. destruct (t !! p) as [e0|].
  - destruct Hp as [m [= ->]]. by eexists.
  - destruct Hp as [?|[m [= ->]]]; [done|right; by eexists].
Qed.

Lemma directory_tightened p t t1 :
  ensured Kind_Directory p t t1 ->
  post (do? _ := inspect user p Managed_Directory or Storage_ManagedPath in
        do? _ := set_mode p PrivateDirectory or (fun _ => Storage_Io SetPermissions) in done tt) t1
    (fun t' r n =>
       ensured Kind_Directory p t t' /\ (is_ok r = true -> private Kind_Directory PrivateDirectory t' p)
       /\ (n = 0%nat -> t1 !! p <> None -> adoptable Kind_Directory t1 p -> r = Ok tt)).
Proof.
  intros Hens. apply post_handle. eapply post_impl; [apply inspect_spec|].
  intros t2 r n (-> & Hr & Hz). destruct r as [found|e]; cbn beta iota.
  2:{ apply post_raise. split_and!; [done..|]. rewrite Nat.add_0_r. intros -> Hp Ha. specialize (Hr eq_refl).
      unfold adoptable in Ha. destruct (t1 !! p) as [e0|] eqn:E; [|done].
      rewrite <- E, (proj2 (inspect_valid t1 p Managed_Directory)) in Hr; [done|]. exists e0. by split_and!; apply Ha || done. }
  specialize (Hz eq_refl). subst n. specialize (Hr eq_refl).
  apply post_handle. eapply post_impl; [apply set_mode_spec|]. intros t2 [[]|e] n; cbn beta iota.
  - intros (-> & e & He & ->). apply post_done. split_and!; [by eapply ensured_set_mode| |done].
    intros _. symmetry in Hr. destruct found; [by apply inspect_missing in Hr; congruence|]. apply inspect_valid in Hr as (e' & He' & Hu & Hk). assert (e' = e) as -> by congruence.
    exists (e_content e). rewrite lookup_insert_eq. by rewrite Hu, Hk.
  - intros [-> H0]. apply post_raise. split_and!; [done..|]. cbn. rewrite Nat.add_0_r. intros Hn Hp. by apply H0 in Hn.
Qed.

Lemma ensure_private_directory_spec p t :
  post (ensure_private_directory user umask no_bytes p) t (fun t' r n =>
    ensured Kind_Directory p t t'
    /\ (is_ok r = true -> private Kind_Directory PrivateDirectory t' p /\ clear_path t p)
    /\ (n = 0%nat -> clear_path t p -> parent_is_dir t p -> adoptable Kind_Directory t p -> r = Ok tt)).
Proof.
  unfold ensure_private_directory. apply post_handle. eapply post_impl; [apply inspect_parent_components_spec|].
  intros t0 [[]|e] n0 (-> & Hok & Herr); cbn beta iota.
  2:{ apply post_raise. rewrite Nat.add_0_r. split_and!; [apply ensured_refl|done|]. intros H1 H2. by specialize (Herr H1 H2). }
  destruct (Hok eq_refl) as [-> Hclear]. apply post_handle. eapply post_impl; [apply create_spec|].
  intros t1 [[]|e] n1; cbn beta iota.
  - intros (-> & Hp & ->). eapply post_impl; [apply (directory_tightened p t)|].
    + split; [intros q Hq; by apply lookup_insert_ne|]. rewrite Hp, lookup_insert_eq. right. by eexists.
    + intros t' r n (He & Hpr & Hz). split_and!; [done|by split; [apply Hpr|]|].
      intros Hn _ _ _. apply Hz; [done|by rewrite lookup_insert_eq|]. unfold adoptable. by rewrite lookup_insert_eq.
  - intros (-> & Hcr & _).
    assert (Hfail : forall e', e <> Io_AlreadyExists -> (0 + (n1 + 0))%nat = 0%nat -> parent_is_dir t p ->
      adoptable Kind_Directory t p -> (Err e' : result StorageError unit) = Ok tt).
    { intros e' He Hn Hpar _. specialize (Hcr ltac:(lia)). destruct (t !! p) eqn:E.
      - unfold creatable in Hcr. rewrite E in Hcr. congruence.
      - by rewrite (creatable_Ok t p E Hpar) in Hcr. }
    destruct e; [apply post_raise; split_and!; [apply ensured_refl|done|intros; by eapply Hfail]| |
                 apply post_raise; split_and!; [apply ensured_refl|done|intros; by eapply Hfail]].
    eapply post_impl; [apply (directory_tightened p t), ensured_refl|].
    intros t' r n (He & Hpr & Hz). split_and!; [done|by split; [apply Hpr|]|].
    intros Hn _ Hpar Had. apply Hz; [lia| |done]. intros E. specialize (Hcr ltac:(lia)).
    by rewrite (creatable_Ok t p E Hpar) in Hcr.
Qed.

Lemma file_tightened p t t1 :
  ensured Kind_File p t t1 ->
  post (tighten_managed_file user p PrivateFile) t1 (fun t' r n =>
    ensured Kind_File p t t' /\ (is_ok r = true -> private Kind_File PrivateFile t' p)
    /\ (n = 0%nat -> clear_path t1 p -> t1 !! p <> None -> adoptable Kind_File t1 p -> r = Ok tt)).
Proof.
  intros Hens. unfold tighten_managed_file. apply post_handle. eapply post_impl; [apply inspect_parent_components_spec|].
  intros t0 [[]|e] n0 (-> & Hok & Herr); cbn beta iota.
  2:{ apply post_raise. rewrite Nat.add_0_r. split_and!; [done|done|]. intros H1 H2. by specialize (Herr H1 H2). }
  destruct (Hok eq_refl) as [-> Hclear]. apply post_handle. eapply post_impl; [apply inspect_spec|].
  intros t2 r n (-> & Hr & Hz). destruct r as [found|e]; cbn beta iota.
  2:{ apply post_raise. split_and!; [done..|]. cbn [Nat.add]. rewrite Nat.add_0_r. intros -> _ Hp Ha. specialize (Hr eq_refl).
      unfold adoptable in Ha. destruct (t1 !! p) as [e0|] eqn:E; [|done].
      rewrite <- E, (proj2 (inspect_valid t1 p Managed_File)) in Hr; [done|]. exists e0. by split_and!; apply Ha || done. }
  specialize (Hz eq_refl). subst n. specialize (Hr eq_refl). symmetry in Hr. destruct found.
  - apply inspect_missing in Hr. apply post_raise. by split_and!.
  - apply inspect_valid in Hr as (e & He & Hu & Hk). apply post_handle. eapply post_impl; [apply set_mode_spec|].
    intros t2 [[]|e'] n; cbn beta iota.
    + intros (-> & e' & He' & ->). assert (e' = e) as -> by congruence. apply post_done.
      split_and!; [by eapply ensured_set_mode| |done]. intros _. exists (e_content e).
      rewrite lookup_insert_eq. by rewrite Hu, Hk.
    + intros [-> H0]. apply post_raise. split_and!; [done..|]. cbn. rewrite Nat.add_0_r. intros Hn. by rewrite H0 in He.
Qed.

Lemma lock_file_round_spec p t :
  post (lock_file_round user umask no_bytes p) t (fun t' r n =>
    ensured Kind_File p t t'
    /\ (is_ok r = true -> r = Ok (Some tt) /\ private Kind_File PrivateFile t' p)
    /\ (n = 0%nat -> clear_path t p -> parent_is_dir t p -> adoptable Kind_File t p -> r = Ok (Some tt))).
Proof.
  unfold lock_file_round. apply post_handle. eapply post_impl; [apply inspect_spec|].
  intros t0 r n (-> & Hr & Hz). destruct r as [found|e]; cbn beta iota.
  2:{ apply post_raise. rewrite Nat.add_0_r. split_and!; [apply ensured_refl|done|]. intros -> _ _ Ha.
      specialize (Hr eq_refl). unfold adoptable in Ha. destruct (t !! p) as [e0|] eqn:E; [|done].
      rewrite <- E, (proj2 (inspect_valid t p Managed_File)) in Hr; [done|]. exists e0. by split_and!; apply Ha || done. }
  specialize (Hz eq_refl). subst n. specialize (Hr eq_refl). symmetry in Hr.
  assert (Htighten : forall t1, ensured Kind_File p t t1 -> t1 !! p <> None ->
    (clear_path t p -> clear_path t1 p) -> (adoptable Kind_File t p -> adoptable Kind_File t1 p) ->
    post (do? _ := tighten_managed_file user p PrivateFile or Lock_Prepare in done (Some tt)) t1
      (fun t' r n => ensured Kind_File p t t'
         /\ (is_ok r = true -> r = Ok (Some tt) /\ private Kind_File PrivateFile t' p)
         /\ (n = 0%nat -> clear_path t p -> parent_is_dir t p -> adoptable Kind_File t p -> r = Ok (Some tt)))).
  { intros t1 He Hp Hc Ha. apply post_handle. eapply post_impl; [by apply (file_tightened p t)|].
    intros t2 [[]|e] n (He2 & Hok & Hn); cbn beta iota.
    - apply post_done. split_and!; [done|by split; [|apply Hok]|done].
    - apply post_raise. rewrite Nat.add_0_r. split_and!; [done|done|]. intros H0 H1 _ H2.
      specialize (Hn H0 (Hc H1) Hp (Ha H2)). done. }
  destruct found.
  - apply inspect_missing in Hr. apply post_handle. eapply post_impl; [apply create_spec|].
    intros t1 [[]|e] n; cbn beta iota.
    + intros (-> & _ & ->). eapply post_impl; [apply Htighten|done].
      * split; [intros q Hq; by apply lookup_insert_ne|]. rewrite Hr, lookup_insert_eq. right. by eexists.
      * by rewrite lookup_insert_eq.
      * intros Hc q e Hq. rewrite lookup_insert_ne; [by apply Hc|]. by intros ->; destruct Hq.
      * intros _. unfold adoptable. by rewrite lookup_insert_eq.
    + intros (-> & Hcr & Hex).
      assert (Hfail : (0 + (n + 0))%nat = 0%nat -> parent_is_dir t p -> False).
      { intros Hn Hpar. specialize (Hcr ltac:(lia)). by rewrite (creatable_Ok t p Hr Hpar) in Hcr. }
      destruct e; [|by destruct (Hex eq_refl)|]; apply post_raise; split_and!;
        [apply ensured_refl|done|intros; by exfalso; apply Hfail|apply ensured_refl|done|intros; by exfalso; apply Hfail].
  - apply inspect_valid in Hr as (e & He & _). apply Htighten; [apply ensured_refl|by rewrite He|done|done].
Qed.

Lemma ensure_lock_file_spec p t :
  post (ensure_lock_file user umask no_bytes p) t (fun t' r n =>
    ensured Kind_File p t t' /\ (is_ok r = true -> private Kind_File PrivateFile t' p)
    /\ (n = 0%nat -> clear_path t p ->
        (exists c parent, p = c :: parent /\ exists e, t !! parent = Some e /\ e_kind e = Kind_Directory /\ e_uid e = user) ->
        adoptable Kind_File t p -> r = Ok tt)).
Proof.
  unfold ensure_lock_file. destruct p as [|c parent].
  { apply post_raise. split_and!; [apply ensured_refl|done|]. intros _ _ (? & ? & ? & _). done. }
  apply post_handle. eapply post_impl; [apply inspect_spec|].
  intros t0 r n (-> & Hr & Hz). destruct r as [found|e]; cbn beta iota.
  2:{ apply post_raise. rewrite Nat.add_0_r. split_and!; [apply ensured_refl|done|].
      intros -> _ (? & ? & [= <- <-] & e0 & H0 & Hk & Hu) _. specialize (Hr eq_refl).
      rewrite (proj2 (inspect_valid t parent Managed_Directory)) in Hr; [done|]. exists e0. by split_and!. }
  specialize (Hz eq_refl). subst n. cbn [lock_file_loop]. apply post_handle.
  eapply post_impl; [apply lock_file_round_spec|]. intros t1 [o|e] n (He & Hok & Hn); cbn beta iota.
  - destruct (Hok eq_refl) as [[= ->] Hp]. apply post_done. by split_and!.
  - apply post_raise. split_and!; [done..|]. cbn [Nat.add]. rewrite Nat.add_0_r.
    intros H0 Hc (? & ? & [= <- <-] & e0 & He0 & Hk & _) Ha. specialize (Hn H0 Hc). discriminate Hn; [|done].
    by exists e0.
Qed.

Lemma acquire_lock_spec p mode behavior t :
  post (acquire_lock user p mode behavior) t (fun t' r n =>
    t' = t /\ (n = 0%nat -> (exists e, t !! p = Some e /\ e_kind e = Kind_File /\ e_uid e = user) ->
               r = Ok tt \/ behavior = Lock_FailFast /\ r = Err Lock_Contended)).
Proof.
  unfold acquire_lock. apply post_handle. eapply post_impl; [apply inspect_spec|].
  intros t0 r n (-> & Hr & Hz).
  assert (Hv : (exists e, t !! p = Some e /\ e_kind e = Kind_File /\ e_uid e = user) -> n = 0%nat -> r = Ok Path_Valid).
  { intros (e & He & Hk & Hu) Hn. rewrite (Hr Hn). apply inspect_valid. by exists e. }
  destruct r as [found|e]; cbn beta iota.
  2:{ apply post_raise. split; [done|]. rewrite Nat.add_0_r. intros Hn Hp. by specialize (Hv Hp Hn). }
  specialize (Hz eq_refl). subst n.
  destruct found; [apply post_raise; split; [done|]; intros _ Hp; by specialize (Hv Hp eq_refl)|].
  specialize (Hr eq_refl). symmetry in Hr. apply inspect_valid in Hr as (e & He & _ & Hk).
  unfold open_existing, wait_lock, try_lock. apply post_handle, post_call; intros step; cbn beta iota; [by apply post_raise|].
  rewrite He. cbn [ok_or]. rewrite bool_decide_eq_true_2 by done. cbn [negb].
  destruct behavior; disk; (split; [done|]); auto; done.
Qed.
End operations.

(** ** Replacing a file *)

Section replacing.
Context {B : Type}.
Implicit Types (t : gmap Path (Entry B)).

#[export] Instance child_inj (dir : Path) : Inj (=) (=) (fun n : list N => n :: dir).
Proof. by intros a b [= ->]. Qed.

(** The directory as [Storage] sees it, and the tree with another content of it. *)
Definition slice t (dir : Path) : gmap (list N) (Entry B) :=
  list_to_map (omap (fun '(q, e) => (fun n => (n, e)) <$> child_name dir q) (map_to_list t)).
Definition splice t (dir : Path) (m : gmap (list N) (Entry B)) : gmap Path (Entry B) :=
  kmap (fun n => n :: dir) m ∪ filter (fun '(q, _) => child_name dir q = None) t.

Lemma child_name_Some dir q n : child_name dir q = Some n <-> q = n :: dir.
Proof. destruct q as [|c p]; cbn; [done|]. case_bool_decide; naive_solver. Qed.

Lemma lookup_slice t dir n : slice t dir !! n = t !! (n :: dir).
Proof.
  unfold slice. apply option_eq. intros e.
  set (f := fun '(q, e) => (fun n => (n, e)) <$> child_name dir q).
  assert (Hf : forall n' e', (n', e') ∈ omap f (map_to_list t) <-> t !! (n' :: dir) = Some e').
  { intros n' e'. rewrite list_elem_of_omap. split.
    - intros ([q e0] & Hq%elem_of_map_to_list & Hc). cbn in Hc. destruct (child_name dir q) eqn:E; [|done].
      apply child_name_Some in E as ->. by injection Hc as -> ->.
    - intros H. exists (n' :: dir, e'). split; [by apply elem_of_map_to_list|]. cbn. by rewrite bool_decide_eq_true_2. }
  split.
  - intros H%elem_of_list_to_map_2. by apply Hf.
  - intros H. apply elem_of_list_to_map_1'; [|by apply Hf]. intros e' He'%Hf. congruence.
Qed.

Lemma lookup_splice t dir m q :
  splice t dir m !! q = match child_name dir q with Some n => m !! n | None => t !! q end.
Proof.
  unfold splice. destruct (child_name dir q) as [n|] eqn:E.
  - apply child_name_Some in E as ->. assert (Hk := lookup_kmap (fun n : list N => n :: dir) m n).
    cbn beta in Hk. rewrite lookup_union, Hk, map_lookup_filter_None_2; [by destruct (m !! n)|].
    right. intros e _. cbn. rewrite bool_decide_eq_true_2 by done. discriminate.
  - rewrite lookup_union_r.
    + apply option_eq. intros e. rewrite map_lookup_filter_Some. naive_solver.
    + apply lookup_kmap_None; [apply _|]. intros n ->. cbn in E. by rewrite bool_decide_eq_true_2 in E.
Qed.

Lemma splice_slice t dir : splice t dir (slice t dir) = t.
Proof.
  apply map_eq. intros q. rewrite lookup_splice. destruct (child_name dir q) as [n|] eqn:E; [|done].
  apply child_name_Some in E as ->. apply lookup_slice.
Qed.

Lemma splice_insert t dir n e : splice t dir (<[n := e]> (slice t dir)) = <[n :: dir := e]> t.
Proof.
  apply map_eq. intros q. rewrite lookup_splice. destruct (child_name dir q) as [n'|] eqn:E.
  - apply child_name_Some in E as ->. destruct (decide (n' = n)) as [->|Hne]; [by rewrite !lookup_insert_eq|].
    rewrite !lookup_insert_ne by congruence. apply lookup_slice.
  - rewrite lookup_insert_ne; [done|]. intros <-. cbn in E. by rewrite bool_decide_eq_true_2 in E.
Qed.

Context (user umask : N) (no_bytes : B).

(** [Storage.atomic_write] on the directory of the file.
    @src cdenv-cli/src/storage.rs:180-182 atomic_write *)
Definition write_managed (dir : Path) (filename : str) (content : B) (mode : ManagedMode) : disk_io B StorageError unit :=
  fun d =>
    let '(m, r) := atomic_write user umask no_bytes (step_write (script d (ticks d))) (slice (tree d) dir)
                     filename content mode in
    (mkDisk (splice (tree d) dir m) (script d) (S (ticks d)), [], r).

(** A write replaces the file, or leaves it; a failed one may also leave a temporary file. *)
Lemma write_managed_spec dir filename content mode t :
  post (write_managed dir filename content mode) t (fun t' r n =>
    let new := <[filename :: dir := replaced user mode content]> t in
    match r with
    | Ok _ => t' = new
    | Err _ => t' = t \/ t' = new
               \/ exists random e, t !! (temporary_name filename random :: dir) = None
                                   /\ t' = <[temporary_name filename random :: dir := e]> t
    end).
Proof.
  intros d <-. unfold write_managed. destruct (atomic_write _ _ _ _ _ _ _ _) as [m r] eqn:Hw.
  apply atomic_write_effect in Hw. split_and!; [done|cbn; lia|]. cbn [tree]. destruct r as [[]|e]; cbn in Hw |- *.
  - rewrite Hw. apply splice_insert.
  - destruct Hw as [->|[[_ ->]|(_ & _ & random & left0 & Hfree & ->)]].
    + left. apply splice_slice.
    + right; left. apply splice_insert.
    + right; right. exists random, left0. rewrite lookup_slice in Hfree. split; [done|]. apply splice_insert.
Qed.
End replacing.
