(* ===== verification/Supervisor.v ===== *)
(** * Supervisor: the forwarding supervisor's manifest and its control channel
    ([cdenv-cli/src/forwarding.rs])

    A detached process per workspace owns the listeners and the credential transport.  Commands
    reach it over a private socket: one line of JSON with every identity and the token, one line
    back.  A connection is what its client sends until it stops, and whether the answer can be
    written; the loop serves connections one after another.  [serde_json] is the class
    [ControlCodec].  The Docker transport, the listeners' accept tasks and the detached process
    are not modelled. *)

From S2P Require Import Prelude Text Utf8 Net Identity Workspace Substitution Profile Ports DockerCommands DockerInspection Storage FileTree Credentials CredentialProtocol BrokerFrame Leases LivePolicy.

(** @src cdenv-cli/src/forwarding.rs:41-41 FORWARDING_SUPERVISOR_PROTOCOL *)
Definition FORWARDING_SUPERVISOR_PROTOCOL : N := 1.
(** @src cdenv-cli/src/forwarding.rs:43-43 MAXIMUM_CONTROL_MESSAGE_BYTES *)
Definition MAXIMUM_CONTROL_MESSAGE_BYTES : N := 8 * 1024.
(** @src cdenv-cli/src/forwarding.rs:46-46 MAXIMUM_DIAGNOSTIC_BYTES *)
Definition MAXIMUM_DIAGNOSTIC_BYTES : N := 4 * 1024.

(** @src cdenv-cli/src/forwarding.rs:51-60 SupervisorForward *)
Record SupervisorForward : Type := mkSupervisorForward {
  sf_requested_port : N;
  sf_require_local_port : bool;
  sf_target_host : str;
  sf_target_port : N;
}.

(** @src cdenv-cli/src/forwarding.rs:65-77 SupervisorCredentialLease *)
Record SupervisorCredentialLease : Type := mkSupervisorLease {
  sl_workspace_receipt : str;
  sl_user : CredentialUserIdentity;
  sl_grant_revision : N;
  sl_grants : CredentialGrants;
  sl_runtime_directory : str;
}.

(** @src cdenv-cli/src/forwarding.rs:82-114 SupervisorManifest *)
Record SupervisorManifest : Type := mkManifest {
  sm_installation : InstallationId;
  sm_workspace : WorkspaceName;
  sm_generation : GenerationId;
  sm_host_build_id : AgentBuildId;
  sm_agent_build_id : AgentBuildId;
  sm_agent_protocol : ProtocolVersion;
  sm_container : ContainerId;
  sm_agent_path : str;
  sm_docker_socket : str;
  sm_control_socket : Path;
  sm_state_file : Path;
  sm_lifetime_lock : Path;
  sm_token : str;
  sm_forwards : list SupervisorForward;
  sm_credential_lease : option SupervisorCredentialLease;
}.

(** @src cdenv-cli/src/forwarding.rs:119-143 SupervisorState *)
Record SupervisorState : Type := mkSupervisorState {
  sv_installation : InstallationId;
  sv_workspace : WorkspaceName;
  sv_generation : GenerationId;
  sv_host_build_id : AgentBuildId;
  sv_agent_build_id : AgentBuildId;
  sv_agent_protocol : ProtocolVersion;
  sv_supervisor_protocol : N;
  sv_pid : N;
  sv_listeners : list (IpAddr * N);
  sv_credential_lease : option CredentialLeaseIdentity;
  sv_token : str;
}.

(** @src cdenv-cli/src/forwarding.rs:147-160 SupervisorClaim *)
Record SupervisorClaim : Type := mkSupervisorClaim {
  sc_installation : InstallationId;
  sc_workspace : WorkspaceName;
  sc_generation : GenerationId;
  sc_host_build_id : AgentBuildId;
  sc_agent_build_id : AgentBuildId;
  sc_agent_protocol : ProtocolVersion;
}.

(** @src cdenv-cli/src/forwarding.rs:164-171 ControlCommand *)
Inductive ControlCommand : Type :=
| Control_Status | Control_Down | Control_Reconcile (revision : N) (grants : CredentialGrants).

(** @src cdenv-cli/src/forwarding.rs:175-185 ControlRequest *)
Record ControlRequest : Type := mkControlRequest {
  cq_command : ControlCommand;
  cq_installation : InstallationId;
  cq_workspace : WorkspaceName;
  cq_generation : GenerationId;
  cq_host_build_id : AgentBuildId;
  cq_agent_build_id : AgentBuildId;
  cq_agent_protocol : ProtocolVersion;
  cq_supervisor_protocol : N;
  cq_token : str;
}.

(** @src cdenv-cli/src/forwarding.rs:189-194 ControlResponse *)
Record ControlResponse : Type := mkControlResponse {
  cp_accepted : bool;
  cp_state : option SupervisorState;
  cp_credential_revision : option N;
  cp_error : option str;
}.

(** @src cdenv-cli/src/forwarding.rs:199-252 ForwardingSupervisorError *)
Inductive ForwardingSupervisorError : Type :=
| Supervisor_InvalidTarget (host : str) (port : N)
| Supervisor_RequiredListener (port : N)
| Supervisor_Listener (port : N)
| Supervisor_Runtime (message : str)
| Supervisor_Identity (field : str)
| Supervisor_Rejected (operation reason : str)
| Supervisor_Control (message : str)
| Supervisor_Start
| Supervisor_Transport (message : str).

(** ** Validation *)

(** A label of a host name.
    @src cdenv-cli/src/forwarding.rs:1266-1275 validate_target *)
Definition target_label (label : str) : bool :=
  negb (bool_decide (label = [])) && (str_len label <=? 63) && negb (starts_with [45] label) && negb (ends_with [45] label)
  && forallb (fun b => is_ascii_alphanumeric b || (b =? 45)) (encode_utf8 label).

(** @src cdenv-cli/src/forwarding.rs:1260-1283 validate_target *)
Definition validate_target (host : str) (port : N) : result ForwardingSupervisorError unit :=
  let valid := negb (port =? 0)
    && (str_eqb host ($"localhost")
        || ((str_len host <=? 253) && negb (bool_decide (host = [])) && negb (is_Some_b (IpAddr_parse host))
            && forallb target_label (split 46 host))) in
  if valid then Ok tt else Err (Supervisor_InvalidTarget host port).

Definition path_parent (p : Path) : option Path := match p with [] => None | _ :: parent => Some parent end.
Definition path_file_name (p : Path) : option (list N) := match p with [] => None | name :: _ => Some name end.

(** @src cdenv-cli/src/forwarding.rs:1221-1247 validate_runtime_paths *)
Definition validate_runtime_paths (workspace : WorkspaceName) (control_socket state_file lifetime_lock : Path) :
    result ForwardingSupervisorError unit :=
  let runtime := path_parent state_file in
  let valid := is_Some_b runtime && bool_decide (path_parent control_socket = runtime) && bool_decide (path_parent lifetime_lock = runtime)
    && bool_decide (mbind path_file_name runtime = Some ($"runtime"))
    && bool_decide (mbind path_file_name (mbind path_parent runtime) = Some (encode_utf8 (name_str workspace))) in
  if valid then Ok tt else Err (Supervisor_Identity ($"workspace root")).

(** [fields] are the manifest without its token; [random] is what [getrandom] fills.
    @src cdenv-cli/src/forwarding.rs:264-314 SupervisorManifest::new *)
Definition manifest_new (fields : SupervisorManifest) (random : option (list N)) : result ForwardingSupervisorError SupervisorManifest :=
  let? _ := try_fold (fun _ forward => validate_target (sf_target_host forward) (sf_target_port forward)) tt (sm_forwards fields) in
  let? _ := validate_runtime_paths (sm_workspace fields) (sm_control_socket fields) (sm_state_file fields) (sm_lifetime_lock fields) in
  fail_if negb (starts_with [47] (sm_docker_socket fields)) with Supervisor_Identity ($"Docker endpoint") in
  fail_if negb (starts_with [47] (sm_agent_path fields)) || contains_char 0 (sm_agent_path fields) with Supervisor_Identity ($"agent path") in
  let? token := ok_or (Supervisor_Runtime ($"cannot generate control token")) random in
  Ok (mkManifest (sm_installation fields) (sm_workspace fields) (sm_generation fields) (sm_host_build_id fields) (sm_agent_build_id fields)
        (sm_agent_protocol fields) (sm_container fields) (sm_agent_path fields) (sm_docker_socket fields) (sm_control_socket fields)
        (sm_state_file fields) (sm_lifetime_lock fields) (hex_encode token) (sm_forwards fields) None).

(** @src cdenv-cli/src/forwarding.rs:567-595 credential_identity *)
Definition credential_identity (manifest : SupervisorManifest) (lease : SupervisorCredentialLease) :
    result ForwardingSupervisorError CredentialLeaseIdentity :=
  fail_if negb (starts_with [47] (sl_runtime_directory lease)) || contains_char 0 (sl_runtime_directory lease)
    with Supervisor_Identity ($"credential runtime path") in
  let identity := mkLeaseIdentity (sm_installation manifest) (sm_workspace manifest) (sl_workspace_receipt lease) (sm_container manifest)
    (sm_generation manifest) (sl_user lease) (sm_host_build_id manifest) (sm_agent_build_id manifest) (sm_agent_protocol manifest)
    CREDENTIAL_BROKER_PROTOCOL (sl_grant_revision lease) in
  let? _ := map_err (fun _ => Supervisor_Identity ($"credential lease")) (validate identity) in
  Ok identity.

(** [host] is the embedded identity of this build.
    @src cdenv-cli/src/forwarding.rs:1183-1219 validate_manifest_identity *)
Definition validate_manifest_identity (host : option AgentBuildId) (manifest : SupervisorManifest) : result ForwardingSupervisorError unit :=
  let? host := ok_or (Supervisor_Identity ($"host build")) host in
  fail_if negb (bool_decide (host = sm_host_build_id manifest)) with Supervisor_Identity ($"host build") in
  fail_if negb (bool_decide (sm_host_build_id manifest = sm_agent_build_id manifest)) with Supervisor_Identity ($"agent build") in
  fail_if negb (protocol_get (sm_agent_protocol manifest) =? 1) with Supervisor_Identity ($"agent protocol") in
  let? _ := validate_runtime_paths (sm_workspace manifest) (sm_control_socket manifest) (sm_state_file manifest) (sm_lifetime_lock manifest) in
  let? _ := try_fold (fun _ forward => validate_target (sf_target_host forward) (sf_target_port forward)) tt (sm_forwards manifest) in
  match sm_credential_lease manifest with
  | None => Ok tt
  | Some lease => let? _ := credential_identity manifest lease in Ok tt
  end.

(** @src cdenv-cli/src/forwarding.rs:891-912 verify_container *)
Definition verify_forward_container (inspection : ContainerInspection) (manifest : SupervisorManifest) : result ForwardingSupervisorError unit :=
  let found name := in_labels inspection !! name in
  if in_running inspection
     && bool_decide (found INSTALLATION_LABEL = Some (installation_str (sm_installation manifest)))
     && bool_decide (found WORKSPACE_LABEL = Some (name_str (sm_workspace manifest)))
     && bool_decide (found GENERATION_LABEL = Some (to_string (generation_get (sm_generation manifest))))
  then Ok tt else Err (Supervisor_Identity ($"active container")).

(** The writer that keeps the first bytes of the diagnostics and reports all as written.
    @src cdenv-cli/src/forwarding.rs:1309-1318 BoundedDiagnostics::poll_write *)
Definition diagnostics_write (bytes buffer : list N) : list N * N :=
  let available := saturating_sub MAXIMUM_DIAGNOSTIC_BYTES (lenN bytes) in
  (bytes ++ take (N.to_nat (N.min (lenN buffer) available)) buffer, lenN buffer).

(** ** Listeners *)

(** [TcpListener::bind]: the address that was bound, or a failure; the world is the host's. *)
Section listeners.
Context {A : Type} (bind : IpAddr * N -> A -> A * option (IpAddr * N)).
Definition LOCALHOST : IpAddr := IpAddr_V4 (mkIpv4 0x7f000001).

(** One listener per forward, in order; the first that cannot be had ends the loop, and those
    bound before are dropped with the vector.
    @src cdenv-cli/src/forwarding.rs:914-937 bind_listeners *)
Fixpoint bind_listeners (forwards : list SupervisorForward) (a : A) : A * result ForwardingSupervisorError (list (IpAddr * N)) :=
  match forwards with
  | [] => (a, Ok [])
  | forward :: rest =>
      let next a listener := let '(a, r) := bind_listeners rest a in (a, let? listeners := r in Ok (listener :: listeners)) in
      match bind (LOCALHOST, sf_requested_port forward) a with
      | (a, Some listener) => next a listener
      | (a, None) =>
          if sf_require_local_port forward then (a, Err (Supervisor_RequiredListener (sf_requested_port forward))) else
          match bind (LOCALHOST, 0) a with
          | (a, Some listener) => next a listener
          | (a, None) => (a, Err (Supervisor_Listener (sf_requested_port forward)))
          end
      end
  end.
End listeners.

(** ** The control channel *)

(** [serde_json] for requests and responses: encodings decode, also with the newline that ends
    them, and have no newline of their own. *)
Class ControlCodec : Type := {
  request_to_vec : ControlRequest -> list N;
  request_from_slice : list N -> option ControlRequest;
  response_to_vec : ControlResponse -> list N;
  response_from_slice : list N -> option ControlResponse;
}.
Class ControlCodecLaws `{ControlCodec} : Prop := {
  request_decodes : forall r, request_from_slice (request_to_vec r ++ [10]) = Some r;
  response_decodes : forall r, response_from_slice (response_to_vec r ++ [10]) = Some r;
  request_one_line : forall r, 10 ∉ request_to_vec r;
  response_one_line : forall r, 10 ∉ response_to_vec r;
}.

(** [read_until(b'\n')] *)
Fixpoint until_newline (bytes : list N) : list N :=
  match bytes with
  | [] => []
  | b :: rest => if b =? 10 then [b] else b :: until_newline rest
  end.

(** The bounded line of a peer, [None] where it is too long or not ended.
    @src cdenv-cli/src/forwarding.rs:963-972 handle_control *)
Definition bounded_line (input : list N) : option (list N) :=
  let bytes := until_newline (take (N.to_nat (MAXIMUM_CONTROL_MESSAGE_BYTES + 1)) input) in
  if (MAXIMUM_CONTROL_MESSAGE_BYTES <? lenN bytes) || negb (ends_with [10] bytes) then None else Some bytes.

(** @src cdenv-cli/src/forwarding.rs:1249-1258 request_matches *)
Definition request_matches (request : ControlRequest) (state : SupervisorState) : bool :=
  bool_decide (cq_installation request = sv_installation state) && bool_decide (cq_workspace request = sv_workspace state)
  && bool_decide (cq_generation request = sv_generation state) && bool_decide (cq_host_build_id request = sv_host_build_id state)
  && bool_decide (cq_agent_build_id request = sv_agent_build_id state) && bool_decide (cq_agent_protocol request = sv_agent_protocol state)
  && (cq_supervisor_protocol request =? sv_supervisor_protocol state) && str_eqb (cq_token request) (sv_token state).

(** What the client sends before it stops, and whether the answer reaches it. *)
Record Connection : Type := mkConnection { cn_input : result unit (list N); cn_answer : bool }.

(** The outcome of a parsed request: accepted, down, revision, error; and the backend.
    @src cdenv-cli/src/forwarding.rs:977-1007 handle_control *)
Definition control_outcome (parsed : option ControlRequest) (state : SupervisorState) (backend : option LiveCredentialBackend) :
    option LiveCredentialBackend * (bool * bool * option N * option str) :=
  let mismatch := (backend, (false, false, None, Some ($"identity or authentication mismatch"))) in
  match parsed with
  | None => mismatch
  | Some request =>
      if negb (request_matches request state) then mismatch else
      match cq_command request with
      | Control_Status => (backend, (true, false, backend_revision <$> backend, None))
      | Control_Down => (backend, (true, true, None, None))
      | Control_Reconcile revision grants =>
          match backend with
          | Some b =>
              match reconcile (lb_policy b) revision grants with
              | Ok (policy, acknowledged) => (Some (with_policy b policy), (true, false, Some acknowledged, None))
              | Err reason => (backend, (false, false, None, Some reason))
              end
          | None =>
              if grants_is_empty grants then (backend, (true, false, Some revision, None))
              else (backend, (false, false, None, Some ($"credential transport is not enrolled; run cdenv up")))
          end
      end
  end.

Section control.
Context `{ControlCodec}.

(** The backend, the response if it was written, and whether the supervisor stops.
    @src cdenv-cli/src/forwarding.rs:955-1017 handle_control *)
Definition handle_control (connection : Connection) (state : SupervisorState) (backend : option LiveCredentialBackend) :
    option LiveCredentialBackend * option ControlResponse * result ForwardingSupervisorError bool :=
  match cn_input connection with
  | Err _ => (backend, None, Err (Supervisor_Control ($"read")))
  | Ok input =>
      let parsed := line ← bounded_line input; request_from_slice line in
      let '(backend, (accepted, down, credential_revision, error)) := control_outcome parsed state backend in
      let response := mkControlResponse accepted (if accepted : bool then Some state else None) credential_revision error in
      if cn_answer connection then (backend, Some response, Ok down) else (backend, None, Err (Supervisor_Control ($"write")))
  end.

(** The responses, and how the loop ended, [None] while it waits for a connection.
    @src cdenv-cli/src/forwarding.rs:939-953 control_loop *)
Fixpoint control_loop (connections : list Connection) (state : SupervisorState) (backend : option LiveCredentialBackend) :
    option LiveCredentialBackend * list ControlResponse * option (result ForwardingSupervisorError unit) :=
  match connections with
  | [] => (backend, [], None)
  | connection :: rest =>
      let '(backend, response, r) := handle_control connection state backend in
      match r with
      | Err e => (backend, option_list response, Some (Err e))
      | Ok true => (backend, option_list response, Some (Ok tt))
      | Ok false => let '(backend, responses, r) := control_loop rest state backend in (backend, option_list response ++ responses, r)
      end
  end.

(** ** The client *)

(** [exchange] sends the bytes to the socket and reads the answer, within the time. *)
Context (exchange : list N -> result str (list N)).

(** @src cdenv-cli/src/forwarding.rs:1105-1156 control_exchange *)
Definition control_exchange (token : str) (claim : SupervisorClaim) (command : ControlCommand) (operation : str) :
    result ForwardingSupervisorError ControlResponse :=
  let request := mkControlRequest command (sc_installation claim) (sc_workspace claim) (sc_generation claim) (sc_host_build_id claim)
    (sc_agent_build_id claim) (sc_agent_protocol claim) FORWARDING_SUPERVISOR_PROTOCOL token in
  let? answer := map_err Supervisor_Control (exchange (request_to_vec request ++ [10])) in
  let? line := ok_or (Supervisor_Control ($"invalid bounded response")) (bounded_line answer) in
  let? response := ok_or (Supervisor_Control ($"malformed response")) (response_from_slice line) in
  if cp_accepted response then Ok response
  else Err (Supervisor_Rejected operation (default ($"request denied") (cp_error response))).

(** @src cdenv-cli/src/forwarding.rs:1092-1103 control_request *)
Definition control_request (token : str) (claim : SupervisorClaim) (command : ControlCommand) (operation : str) :
    result ForwardingSupervisorError SupervisorState :=
  let? response := control_exchange token claim command operation in
  ok_or (Supervisor_Control ($"accepted response omitted state")) (cp_state response).

(** @src cdenv-cli/src/forwarding.rs:1024-1030 supervisor_status *)
Definition supervisor_status (token : str) (claim : SupervisorClaim) : result ForwardingSupervisorError SupervisorState :=
  control_request token claim Control_Status ($"status").

(** @src cdenv-cli/src/forwarding.rs:1038-1048 supervisor_credential_status *)
Definition supervisor_credential_status (token : str) (claim : SupervisorClaim) :
    result ForwardingSupervisorError (SupervisorState * option N) :=
  let? response := control_exchange token claim Control_Status ($"status") in
  let? state := ok_or (Supervisor_Control ($"accepted response omitted state")) (cp_state response) in
  Ok (state, cp_credential_revision response).

(** @src cdenv-cli/src/forwarding.rs:1057-1077 reconcile_supervisor_credentials *)
Definition reconcile_supervisor_credentials (token : str) (claim : SupervisorClaim) (revision : N) (grants : CredentialGrants) :
    result ForwardingSupervisorError SupervisorState :=
  let? response := control_exchange token claim (Control_Reconcile revision grants) ($"credential reconcile") in
  fail_if negb (bool_decide (cp_credential_revision response = Some revision))
    with Supervisor_Control ($"credential revision acknowledgement mismatch") in
  ok_or (Supervisor_Control ($"accepted response omitted state")) (cp_state response).

(** @src cdenv-cli/src/forwarding.rs:1084-1090 stop_supervisor *)
Definition stop_supervisor (token : str) (claim : SupervisorClaim) : result ForwardingSupervisorError SupervisorState :=
  control_request token claim Control_Down ($"down").
End control.

(** ** What the channel promises *)

(** The command of a connection, if it names every identity and the token of the supervisor. *)
Definition authentic `{ControlCodec} (state : SupervisorState) (connection : Connection) : option ControlCommand :=
  match cn_input connection with
  | Err _ => None
  | Ok input =>
      request ← (line ← bounded_line input; request_from_slice line);
      if request_matches request state then Some (cq_command request) else None
  end.

Definition reconcile_call (command : ControlCommand) : option (N * CredentialGrants) :=
  match command with Control_Reconcile revision grants => Some (revision, grants) | _ => None end.

(** The calls that change the policy, in order. *)
Definition authentic_calls `{ControlCodec} (state : SupervisorState) (connections : list Connection) : list (N * CredentialGrants) :=
  omap (fun connection => command ← authentic state connection; reconcile_call command) connections.

(** The backend after a sequence of calls: only the policy moves. *)
Definition backend_after (backend : option LiveCredentialBackend) (calls : list (N * CredentialGrants)) : option LiveCredentialBackend :=
  (fun b => with_policy b (policy_after (lb_policy b) calls)) <$> backend.

Lemma backend_after_nil backend : backend_after backend [] = backend.
Proof. by destruct backend as [[]|]. Qed.

Lemma backend_after_app backend l1 l2 : backend_after (backend_after backend l1) l2 = backend_after backend (l1 ++ l2).
Proof. destruct backend as [[]|]; [|done]. unfold backend_after. cbn. by rewrite policy_after_app. Qed.

Lemma request_matches_true request state : request_matches request state = true <->
  cq_installation request = sv_installation state /\ cq_workspace request = sv_workspace state
  /\ cq_generation request = sv_generation state /\ cq_host_build_id request = sv_host_build_id state
  /\ cq_agent_build_id request = sv_agent_build_id state /\ cq_agent_protocol request = sv_agent_protocol state
  /\ cq_supervisor_protocol request = sv_supervisor_protocol state /\ cq_token request = sv_token state.
Proof.
  unfold request_matches. rewrite !andb_true_iff, !bool_decide_eq_true, N.eqb_eq. unfold str_eqb. rewrite ?bool_decide_eq_true. tauto.
Qed.

Section promises.
Context `{ControlCodec} (state : SupervisorState).

(** A connection that is read and answered. *)
Definition answered (connection : Connection) : bool :=
  match cn_input connection with Ok _ => cn_answer connection | Err _ => false end.

(** A response to a connection: accepted only if it is authentic, the state only if accepted. *)
Definition faithful_answer (connection : Connection) (response : ControlResponse) : Prop :=
  (cp_accepted response = true -> is_Some (authentic state connection))
  /\ cp_state response = (if cp_accepted response then Some state else None).

Ltac rewrite_hyps := repeat match goal with H : _ = Ok _ |- _ => rewrite H | H : _ = Some _ |- _ => rewrite H; cbn | H : _ = true |- _ => rewrite H end.
Ltac settle := refine (conj _ (conj _ _));
  [first [done | symmetry; assumption]
  |intros ? Hr; first [discriminate Hr | injection Hr as <-; split; [done|split; first [congruence | done]]]
  |cbn; first [by apply Forall2_nil | apply Forall2_cons; split; [|by apply Forall2_nil]; split; [cbn; intros; first [done | rewrite_hyps; eauto]|done]]].

(** What one connection does, by whether it is authentic. *)
Lemma handle_control_spec connection backend backend' response r :
  handle_control connection state backend = (backend', response, r) ->
  backend' = backend_after backend (authentic_calls state [connection])
  /\ (forall down, r = Ok down -> answered connection = true /\ (down = true <-> authentic state connection = Some Control_Down))
  /\ Forall2 faithful_answer (List.filter answered [connection]) (option_list response).
Proof.
  unfold handle_control, authentic_calls, faithful_answer, answered.
  assert (Hnil := backend_after_nil backend). cbn [omap list_omap List.filter].
  unfold authentic. destruct (cn_input connection) as [input|e] eqn:Hin; cbn [mbind option_bind].
  2:{ intros [= <- <- <-]. split_and!; [done..|constructor]. }
  destruct (line ← bounded_line input; request_from_slice line) as [request|] eqn:Hp; cbn [control_outcome mbind option_bind].
  2:{ destruct (cn_answer connection); intros [= <- <- <-]; settle. }
  destruct (request_matches request state) eqn:Hm; cbn.
  2:{ destruct (cn_answer connection); intros [= <- <- <-]; settle. }
  destruct (cq_command request) as [| |revision grants] eqn:Hq; cbn [reconcile_call].
  1,2: destruct (cn_answer connection); intros [= <- <- <-]; settle.
  destruct backend as [b|]; cbn.
  2:{ destruct (grants_is_empty grants), (cn_answer connection); intros [= <- <- <-]; settle. }
  unfold policy_step; cbn [fst snd].
  destruct (reconcile (lb_policy b) revision grants) as [[policy acknowledged]|reason]; cbn;
    destruct (cn_answer connection); intros [= <- <- <-]; settle.
Qed.

Lemma authentic_calls_app l1 l2 : authentic_calls state (l1 ++ l2) = authentic_calls state l1 ++ authentic_calls state l2.
Proof. apply omap_app. Qed.

(** Whatever connects to the control socket, in whatever order: the loop ends without an
    error exactly at the first authentic Down, and not before; every connection served and
    answered has one response, accepted only if the connection is authentic, and only accepted
    responses carry the state, whose token is the authority of the channel; and the credential
    backend is the one that the authentic Reconcile commands of the served connections leave, in
    order, nothing else having changed it. *)
Theorem control_loop_authentic connections backend backend' responses ended :
  control_loop connections state backend = (backend', responses, ended) ->
  exists served rest, connections = served ++ rest
    /\ backend' = backend_after backend (authentic_calls state served)
    /\ Forall2 faithful_answer (List.filter answered served) responses
    /\ match ended with
       | None => rest = [] /\ Forall (fun c => answered c = true /\ authentic state c <> Some Control_Down) served
       | Some r => exists before connection, served = before ++ [connection]
           /\ Forall (fun c => answered c = true /\ authentic state c <> Some Control_Down) before
           /\ (r = Ok tt -> answered connection = true /\ authentic state connection = Some Control_Down)
       end.
Proof.
  revert backend backend' responses ended.
  induction connections as [|connection connections IH]; intros backend backend' responses ended Hloop; cbn in Hloop.
  { injection Hloop as <- <- <-. exists [], []. rewrite backend_after_nil. split_and!; done. }
  destruct (handle_control connection state backend) as [[b1 response] r] eqn:Hc.
  destruct (handle_control_spec _ _ _ _ _ Hc) as (Hb & Hdown & Hresponse).
  destruct r as [[|]|e].
  - injection Hloop as <- <- <-. exists [connection], connections. split_and!; try done.
    exists [], connection. destruct (Hdown _ eq_refl) as [? [Hd _]]. auto.
  - destruct (control_loop connections state b1) as [[b2 more] r2] eqn:Hrest. injection Hloop as <- <- <-.
    destruct (IH _ _ _ _ Hrest) as (served & rest & -> & -> & Hanswers & Hended).
    assert (Hfirst : answered connection = true /\ authentic state connection <> Some Control_Down) by naive_solver.
    exists (connection :: served), rest. split_and!; [done| | |].
    + rewrite Hb, backend_after_app, <- authentic_calls_app. done.
    + change (connection :: served) with ([connection] ++ served). rewrite List.filter_app. by apply Forall2_app.
    + destruct r2 as [r2|].
      * destruct Hended as (before & last & -> & Hbefore & Hl). exists (connection :: before), last. split_and!; auto.
      * destruct Hended as [-> Hall]. auto.
  - injection Hloop as <- <- <-. exists [connection], connections. split_and!; try done.
    exists [], connection. split_and!; done.
Qed.
End promises.

(** ** The client against the server *)

Lemma until_newline_line (l rest : list N) : 10 ∉ l -> until_newline (l ++ 10 :: rest) = l ++ [10].
Proof.
  induction l as [|b l IH]; intros Hl; [done|]. apply not_elem_of_cons in Hl as [Hb Hl]. cbn.
  destruct (N.eqb_spec b 10); [congruence|]. by rewrite IH.
Qed.

Lemma until_newline_none (l : list N) : 10 ∉ l -> until_newline l = l.
Proof.
  induction l as [|b l IH]; intros Hl; [done|]. apply not_elem_of_cons in Hl as [Hb Hl]. cbn.
  destruct (N.eqb_spec b 10); [congruence|]. by rewrite IH.
Qed.

Lemma ends_with_last (c : N) (l : list N) : ends_with [c] (l ++ [c]) = true.
Proof.
  unfold ends_with. by rewrite strip_suffix_snoc, N.eqb_refl.
Qed.

(** A line is read if it fits with its newline, and is refused otherwise. *)
Lemma bounded_line_line (l : list N) : 10 ∉ l ->
  bounded_line (l ++ [10]) = if lenN l <? MAXIMUM_CONTROL_MESSAGE_BYTES then Some (l ++ [10]) else None.
Proof.
  intros Hl. unfold bounded_line. destruct (N.ltb_spec (lenN l) MAXIMUM_CONTROL_MESSAGE_BYTES) as [Hs|Hs].
  - rewrite take_ge by (rewrite length_app; cbn [length]; unfold lenN in *; lia).
    rewrite until_newline_line, ends_with_last by done.
    destruct (N.ltb_spec MAXIMUM_CONTROL_MESSAGE_BYTES (lenN (l ++ [10]))) as [H|]; [|done].
    exfalso. unfold lenN in *. rewrite length_app in H. cbn [length] in H. lia.
  - destruct (decide (lenN l = MAXIMUM_CONTROL_MESSAGE_BYTES)) as [E|E].
    + rewrite take_ge by (rewrite length_app; cbn [length]; unfold lenN in *; lia).
      rewrite until_newline_line by done.
      destruct (N.ltb_spec MAXIMUM_CONTROL_MESSAGE_BYTES (lenN (l ++ [10]))) as [H|H]; [done|].
      exfalso. unfold lenN in *. rewrite length_app in H. cbn [length] in H. lia.
    + rewrite take_app_le by (unfold lenN in *; lia).
      rewrite until_newline_none by (intros Hin; apply Hl; rewrite <- (take_drop (N.to_nat (MAXIMUM_CONTROL_MESSAGE_BYTES + 1)) l); apply elem_of_app; by left).
      destruct (N.ltb_spec MAXIMUM_CONTROL_MESSAGE_BYTES (lenN (take (N.to_nat (MAXIMUM_CONTROL_MESSAGE_BYTES + 1)) l))) as [H|H]; [done|].
      exfalso. unfold lenN in *. rewrite length_take in H. lia.
Qed.

(** The exchange with a server that is up and serves this connection. *)
Definition server_exchange `{ControlCodec} (state : SupervisorState) (backend : option LiveCredentialBackend) (bytes : list N) : result str (list N) :=
  match handle_control (mkConnection (Ok bytes) true) state backend with
  | (_, Some response, _) => Ok (response_to_vec response ++ [10])
  | _ => Err ($"closed")
  end.

Definition claim_request (token : str) (claim : SupervisorClaim) (command : ControlCommand) : ControlRequest :=
  mkControlRequest command (sc_installation claim) (sc_workspace claim) (sc_generation claim) (sc_host_build_id claim)
    (sc_agent_build_id claim) (sc_agent_protocol claim) FORWARDING_SUPERVISOR_PROTOCOL token.

(** The command reached the server, was authentic, and its acceptance reached the client. *)
Definition delivered `{ControlCodec} (state : SupervisorState) (request : ControlRequest) (response : ControlResponse) : Prop :=
  lenN (request_to_vec request) < MAXIMUM_CONTROL_MESSAGE_BYTES /\ lenN (response_to_vec response) < MAXIMUM_CONTROL_MESSAGE_BYTES
  /\ request_matches request state = true.

Section client.
Context `{ControlCodecLaws} (state : SupervisorState).

(** The client's result, from the outcome of the command at the server. *)
Lemma control_exchange_Ok backend token claim command operation response :
  control_exchange (server_exchange state backend) token claim command operation = Ok response <->
  let request := claim_request token claim command in
  delivered state request response
  /\ exists backend' down revision error,
       control_outcome (Some request) state backend = (backend', (true, down, revision, error))
       /\ response = mkControlResponse true (Some state) revision error.
Proof.
  cbn zeta. unfold control_exchange, server_exchange, handle_control. cbn [cn_input cn_answer]. fold (claim_request token claim command).
  set (request := claim_request token claim command).
  rewrite bounded_line_line by apply request_one_line.
  destruct (N.ltb_spec (lenN (request_to_vec request)) MAXIMUM_CONTROL_MESSAGE_BYTES) as [Hq|Hq]; cbn [mbind option_bind].
  2:{ split; [|unfold delivered; intros ((? & _) & _); lia]. cbn. rewrite bounded_line_line by apply response_one_line.
      destruct (_ <? _); cbn; [|done]. by rewrite response_decodes. }
  rewrite request_decodes.
  destruct (control_outcome (Some request) state backend) as [b' [[[accepted down] revision] error]] eqn:Hout; cbn [map_err].
  rewrite bounded_line_line by apply response_one_line. unfold delivered.
  set (answer := mkControlResponse accepted (if accepted then Some state else None) revision error).
  destruct (N.ltb_spec (lenN (response_to_vec answer)) MAXIMUM_CONTROL_MESSAGE_BYTES) as [Ha|Ha]; cbn [ok_or].
  - rewrite response_decodes; cbn [ok_or]. subst answer. destruct accepted; cbn [cp_accepted].
    + split; [|naive_solver]. intros [= <-]. split_and!; try done; [|naive_solver].
      cbn in Hout. destruct (request_matches request state); [done|naive_solver].
    + naive_solver.
  - split; [done|]. intros ((_ & Hr & _) & ? & ? & ? & ? & [= -> -> -> -> ->] & ->). unfold answer in Ha. lia.
Qed.

(** The server's answer to an accepted reconciliation. *)
Definition reconciled (revision : N) : ControlResponse := mkControlResponse true (Some state) (Some revision) None.

(** The policy that the grants of a revision leave, where they are accepted. *)
Definition accepts (backend backend' : option LiveCredentialBackend) (revision : N) (grants : CredentialGrants) : Prop :=
  match backend with
  | None => grants_is_empty grants = true /\ backend' = None
  | Some b => exists policy, reconcile (lb_policy b) revision grants = Ok (policy, revision) /\ backend' = Some (with_policy b policy)
  end.

Lemma outcome_reconcile backend token claim revision grants backend' down acknowledged error :
  request_matches (claim_request token claim (Control_Reconcile revision grants)) state = true ->
  control_outcome (Some (claim_request token claim (Control_Reconcile revision grants))) state backend
    = (backend', (true, down, acknowledged, error)) <->
  accepts backend backend' revision grants /\ down = false /\ acknowledged = Some revision /\ error = None.
Proof.
  intros Hm. cbn [control_outcome]. rewrite Hm. cbn [negb cq_command claim_request]. unfold accepts. destruct backend as [b|].
  - destruct (reconcile (lb_policy b) revision grants) as [[policy a]|] eqn:E; [|naive_solver].
    apply reconcile_Ok in E as [-> _]. naive_solver.
  - destruct (grants_is_empty grants); naive_solver.
Qed.

(** C29: the client's reconciliation of the credential grants, composed with the supervisor that
    serves it: the client reports success exactly if the claim names every identity and the
    token of the supervisor, both messages fit their bound, and the live policy accepts the
    grants under that revision.  Then the supervisor, after this connection, holds exactly that
    revision and those grants (or has no credential transport, and the grants are empty). *)
Theorem reconcile_acknowledged backend token claim revision grants s :
  reconcile_supervisor_credentials (server_exchange state backend) token claim revision grants = Ok s <->
  s = state /\ delivered state (claim_request token claim (Control_Reconcile revision grants)) (reconciled revision)
  /\ exists backend',
       control_loop [mkConnection (Ok (request_to_vec (claim_request token claim (Control_Reconcile revision grants)) ++ [10])) true] state backend
         = (backend', [reconciled revision], None)
       /\ accepts backend backend' revision grants
       /\ forall b', backend' = Some b' -> backend_revision b' = revision /\ lp_grants (lb_policy b') = grants.
Proof.
  set (request := claim_request token claim (Control_Reconcile revision grants)).
  unfold reconcile_supervisor_credentials. split.
  - destruct (control_exchange _ _ _ _ _) as [response|] eqn:E; [|done].
    apply control_exchange_Ok in E as (Hd & b' & down & acknowledged & error & Hout & ->). fold request in Hd, Hout.
    pose proof Hd as (Hq & _ & Hm). apply outcome_reconcile in Hout as (Ha & -> & -> & ->); [|done].
    cbn. rewrite bool_decide_eq_true_2 by done. intros [= <-]. split_and!; [done..|]. exists b'. split_and!; [|done|].
    + cbn [control_loop handle_control cn_input cn_answer]. rewrite bounded_line_line by apply request_one_line.
      apply N.ltb_lt in Hq. rewrite Hq. cbn [mbind option_bind]. rewrite request_decodes.
      assert (control_outcome (Some request) state backend = (b', (true, false, Some revision, None))) as -> by (apply outcome_reconcile; done).
      done.
    + intros b1 ->. unfold accepts in Ha. destruct backend as [b|]; [|naive_solver]. destruct Ha as (policy & Hr & [= ->]).
      apply reconcile_Ok in Hr as (_ & Hrev & Hg & _). done.
  - intros (-> & Hd & b' & _ & Ha & _).
    assert (control_exchange (server_exchange state backend) token claim (Control_Reconcile revision grants) ($"credential reconcile")
      = Ok (reconciled revision)) as ->.
    { apply control_exchange_Ok. split; [done|]. exists b', false, (Some revision), None. split; [|done].
      apply outcome_reconcile; [apply Hd|done]. }
    cbn. by rewrite bool_decide_eq_true_2.
Qed.

(** A stop that the client reports ends the loop, and the other way round where both messages
    fit and the claim matches. *)
Theorem stop_acknowledged backend token claim s :
  stop_supervisor (server_exchange state backend) token claim = Ok s <->
  s = state /\ delivered state (claim_request token claim Control_Down) (mkControlResponse true (Some state) None None)
  /\ control_loop [mkConnection (Ok (request_to_vec (claim_request token claim Control_Down) ++ [10])) true] state backend
       = (backend, [mkControlResponse true (Some state) None None], Some (Ok tt)).
Proof.
  set (request := claim_request token claim Control_Down). unfold stop_supervisor, control_request. split.
  - destruct (control_exchange _ _ _ _ _) as [response|] eqn:E; [|done].
    apply control_exchange_Ok in E as (Hd & b' & down & acknowledged & error & Hout & ->). fold request in Hd, Hout.
    pose proof Hd as (Hq & _ & Hm). cbn [control_outcome] in Hout. rewrite Hm in Hout. cbn in Hout. injection Hout as <- <- <- <-.
    cbn. intros [= <-]. split_and!; [done..|]. cbn [control_loop handle_control cn_input cn_answer].
    rewrite bounded_line_line by apply request_one_line. apply N.ltb_lt in Hq. rewrite Hq. cbn [mbind option_bind].
    rewrite request_decodes. cbn [control_outcome]. rewrite Hm. done.
  - intros (-> & Hd & _).
    assert (control_exchange (server_exchange state backend) token claim Control_Down ($"down")
      = Ok (mkControlResponse true (Some state) None None)) as ->; [|done].
    apply control_exchange_Ok. split; [done|]. exists backend, true, None, None. split; [|done].
    destruct Hd as (_ & _ & Hm). fold request. cbn [control_outcome]. rewrite Hm. done.
Qed.

(** A request that is too long for the channel is answered as one that is not authentic. *)
Theorem oversized_request_refused backend token claim command operation :
  MAXIMUM_CONTROL_MESSAGE_BYTES <= lenN (request_to_vec (claim_request token claim command)) ->
  exists e, control_exchange (server_exchange state backend) token claim command operation = Err e
    /\ handle_control (mkConnection (Ok (request_to_vec (claim_request token claim command) ++ [10])) true) state backend
       = (backend, Some (mkControlResponse false None None (Some ($"identity or authentication mismatch"))), Ok false).
Proof.
  intros Hlen. destruct (control_exchange _ _ _ _ _) as [response|e] eqn:E.
  - apply control_exchange_Ok in E as ((Hq & _) & _). lia.
  - exists e. split; [done|]. unfold handle_control. cbn [cn_input cn_answer]. rewrite bounded_line_line by apply request_one_line.
    apply N.ltb_ge in Hlen. rewrite Hlen. done.
Qed.
End client.

(** ** The life of the supervisor *)

(** @src cdenv-cli/src/forwarding.rs:1292-1301 claim_from_manifest *)
Definition claim_from_manifest (manifest : SupervisorManifest) : SupervisorClaim :=
  mkSupervisorClaim (sm_installation manifest) (sm_workspace manifest) (sm_generation manifest) (sm_host_build_id manifest)
    (sm_agent_build_id manifest) (sm_agent_protocol manifest).

(** @src cdenv-cli/src/forwarding.rs:318-321 with_credential_lease *)
Definition with_credential_lease (m : SupervisorManifest) (lease : SupervisorCredentialLease) : SupervisorManifest :=
  mkManifest (sm_installation m) (sm_workspace m) (sm_generation m) (sm_host_build_id m) (sm_agent_build_id m) (sm_agent_protocol m)
    (sm_container m) (sm_agent_path m) (sm_docker_socket m) (sm_control_socket m) (sm_state_file m) (sm_lifetime_lock m) (sm_token m)
    (sm_forwards m) (Some lease).

(** What the state file holds, and whether the socket exists and another process has the lock. *)
Inductive StateFile : Type := File_Absent | File_Manifest (m : SupervisorManifest) | File_State (s : SupervisorState).
Record RuntimeDirectory : Type := mkRuntime { rt_locked : bool; rt_socket : bool; rt_state : StateFile }.

(** How the wait for the credential transport ended. *)
Inductive Readiness : Type := Transport_Ready | Transport_Stopped (reason : str) | Transport_TimedOut.

(** What the host answers to the supervisor's calls. *)
Record SupervisorHost {A : Type} : Type := mkSupervisorHost {
  hs_build : option AgentBuildId;
  hs_bind : IpAddr * N -> A -> A * option (IpAddr * N);
  hs_bind_control : bool;
  hs_set_mode : bool;
  hs_pid : N;
  hs_docker : bool;
  hs_environment : option str;
  hs_ready : Readiness;
  hs_persist : bool;
  hs_remove_socket : bool;
  hs_remove_state : bool;
}.
Arguments SupervisorHost : clear implicits.

(** The guard removes the socket and the state file, and ignores the failure of either call.
    @src cdenv-cli/src/forwarding.rs:509-519 SupervisorRuntimeCleanup::drop *)
Definition runtime_cleanup {A} (host : SupervisorHost A) (rt : RuntimeDirectory) : RuntimeDirectory :=
  mkRuntime (rt_locked rt) (if hs_remove_socket host then false else rt_socket rt)
    (if hs_remove_state host then File_Absent else rt_state rt).

(** @src cdenv-cli/src/forwarding.rs:414-434 run_supervisor *)
Definition supervisor_state (host_pid : N) (manifest : SupervisorManifest) (listeners : list (IpAddr * N)) :
    result ForwardingSupervisorError SupervisorState :=
  let? lease := match sm_credential_lease manifest with
    | None => Ok None
    | Some lease => let? identity := credential_identity manifest lease in Ok (Some identity)
    end in
  Ok (mkSupervisorState (sm_installation manifest) (sm_workspace manifest) (sm_generation manifest) (sm_host_build_id manifest)
        (sm_agent_build_id manifest) (sm_agent_protocol manifest) FORWARDING_SUPERVISOR_PROTOCOL host_pid listeners lease (sm_token manifest)).

Section life.
Context `{ControlCodec} {A : Type} (host : SupervisorHost A).

(** The supervisor between its cleanup guard and its end: the listeners' world, whether it made the
    control socket, what it published, its responses, and how it ended.
    @src cdenv-cli/src/forwarding.rs:408-506 run_supervisor *)
Definition supervisor_body (manifest : SupervisorManifest) (connections : list Connection) (a : A) :
    A * bool * option SupervisorState * list ControlResponse * option (result ForwardingSupervisorError unit) :=
  let stop a e := (a, hs_bind_control host, None, [], Some (Err e)) in
  let '(a, listeners) := bind_listeners (hs_bind host) (sm_forwards manifest) a in
  match listeners with
  | Err e => (a, false, None, [], Some (Err e))
  | Ok listeners =>
      if negb (hs_bind_control host) || negb (hs_set_mode host) then stop a (Supervisor_Runtime ($"control socket")) else
      match supervisor_state (hs_pid host) manifest listeners with
      | Err e => stop a e
      | Ok state =>
          if negb (hs_docker host) then stop a (Supervisor_Transport ($"endpoint")) else
          let backend := match sv_credential_lease state, sm_credential_lease manifest with
            | Some identity, Some lease => Some (backend_new identity (sl_grants lease) (hs_environment host))
            | _, _ => None
            end in
          let serve backend :=
            if negb (hs_persist host) then stop a (Supervisor_Runtime ($"state")) else
            let '(_, responses, ended) := control_loop connections state backend in (a, true, Some state, responses, ended) in
          match backend with
          | None => serve None
          | Some b =>
              match hs_ready host with
              | Transport_Ready => serve (Some (transport_ready b))
              | Transport_Stopped reason => stop a (Supervisor_Transport reason)
              | Transport_TimedOut => stop a (Supervisor_Control ($"credential transport readiness timed out"))
              end
          end
      end
  end.

(** The runtime directory while the supervisor serves, [ended = None], or after it.
    @src cdenv-cli/src/forwarding.rs:391-507 run_supervisor *)
Definition run_supervisor (manifest : SupervisorManifest) (connections : list Connection) (rt : RuntimeDirectory) (a : A) :
    RuntimeDirectory * A * option SupervisorState * list ControlResponse * option (result ForwardingSupervisorError unit) :=
  let refuse e := (rt, a, None, [], Some (Err e)) in
  match validate_manifest_identity (hs_build host) manifest with
  | Err e => refuse e
  | Ok _ =>
      if rt_locked rt then refuse (Supervisor_Runtime ($"lock")) else
      if rt_socket rt then refuse (Supervisor_Runtime ($"control socket already exists; refusing unverified replacement")) else
      let '(a, socket, published, responses, ended) := supervisor_body manifest connections a in
      let rt := mkRuntime (rt_locked rt) socket (match published with Some state => File_State state | None => rt_state rt end) in
      (match ended with Some _ => runtime_cleanup host rt | None => rt end, a, published, responses, ended)
  end.

(** @src cdenv-cli/src/forwarding.rs:374-385 run_private_supervisor_manifest *)
Definition run_private_supervisor_manifest (path : Path) (connections : list Connection) (rt : RuntimeDirectory) (a : A) :
    RuntimeDirectory * A * option SupervisorState * list ControlResponse * option (result ForwardingSupervisorError unit) :=
  match rt_state rt with
  | File_Manifest manifest =>
      if bool_decide (path = sm_state_file manifest) then run_supervisor manifest connections rt a
      else (rt, a, None, [], Some (Err (Supervisor_Identity ($"workspace root"))))
  | _ => (rt, a, None, [], Some (Err (Supervisor_Runtime ($"manifest"))))
  end.

(** [bind] answers the address it was asked for, with a free port for port 0. *)
Definition binds_requested : Prop :=
  forall address a a' bound, hs_bind host address a = (a', Some bound) -> bound.1 = address.1 /\ (address.2 <> 0 -> bound.2 = address.2).

(** A listener serves a forward: on loopback, and on the port where that is required. *)
Definition listens_for (forward : SupervisorForward) (bound : IpAddr * N) : Prop :=
  bound.1 = LOCALHOST /\ (sf_require_local_port forward = true -> sf_requested_port forward <> 0 -> bound.2 = sf_requested_port forward).

Lemma bind_listeners_Ok : binds_requested -> forall forwards a a' listeners,
  bind_listeners (hs_bind host) forwards a = (a', Ok listeners) -> Forall2 listens_for forwards listeners.
Proof.
  intros Hbind. induction forwards as [|forward forwards IH]; intros a a' listeners Hr; cbn in Hr.
  { injection Hr as <- <-. constructor. }
  destruct (hs_bind host (LOCALHOST, sf_requested_port forward) a) as [a1 [bound|]] eqn:E1.
  - destruct (bind_listeners (hs_bind host) forwards a1) as [a2 [rest|]] eqn:E2; [|done]. injection Hr as <- <-.
    constructor; [|by eapply IH]. apply Hbind in E1 as [? ?]. split; auto.
  - destruct (sf_require_local_port forward) eqn:Hreq; [done|].
    destruct (hs_bind host (LOCALHOST, 0) a1) as [a2 [bound|]] eqn:E2; [|done].
    destruct (bind_listeners (hs_bind host) forwards a2) as [a3 [rest|]] eqn:E3; [|done]. injection Hr as <- <-.
    constructor; [|by eapply IH]. apply Hbind in E2 as [? _]. split; [done|]. congruence.
Qed.

(** What a supervisor publishes is for its manifest. *)
Definition published_for (manifest : SupervisorManifest) (state : SupervisorState) : Prop :=
  Forall2 listens_for (sm_forwards manifest) (sv_listeners state)
  /\ (forall command, request_matches (claim_request (sm_token manifest) (claim_from_manifest manifest) command) state = true)
  /\ match sm_credential_lease manifest with
     | None => sv_credential_lease state = None
     | Some lease => hs_ready host = Transport_Ready
         /\ exists identity, credential_identity manifest lease = Ok identity /\ sv_credential_lease state = Some identity
     end.

Lemma supervisor_state_for pid manifest listeners state : supervisor_state pid manifest listeners = Ok state ->
  sv_listeners state = listeners
  /\ (forall command, request_matches (claim_request (sm_token manifest) (claim_from_manifest manifest) command) state = true)
  /\ match sm_credential_lease manifest with
     | None => sv_credential_lease state = None
     | Some lease => exists identity, credential_identity manifest lease = Ok identity /\ sv_credential_lease state = Some identity
     end.
Proof.
  unfold supervisor_state. destruct (sm_credential_lease manifest) as [lease|].
  - destruct (credential_identity manifest lease) as [identity|]; cbn; [|done]. intros [= <-].
    split_and!; [done| |eauto]. intros command. by apply request_matches_true.
  - intros [= <-]. split_and!; [done| |done]. intros command. by apply request_matches_true.
Qed.

Lemma supervisor_body_spec manifest connections a a' socket published responses ended : binds_requested ->
  supervisor_body manifest connections a = (a', socket, published, responses, ended) ->
  match published with
  | None => responses = [] /\ exists e, ended = Some (Err e)
  | Some state => published_for manifest state /\ socket = true
      /\ exists backend backend', control_loop connections state backend = (backend', responses, ended)
  end.
Proof.
  intros Hbind. unfold supervisor_body.
  destruct (bind_listeners (hs_bind host) (sm_forwards manifest) a) as [a1 [listeners|e]] eqn:Hl; [|intros [= <- <- <- <- <-]; eauto].
  destruct (negb (hs_bind_control host) || negb (hs_set_mode host)); [intros [= <- <- <- <- <-]; eauto|].
  destruct (supervisor_state (hs_pid host) manifest listeners) as [state|e] eqn:Hs; [|intros [= <- <- <- <- <-]; eauto].
  destruct (hs_docker host); [|intros [= <- <- <- <- <-]; eauto]. cbn [negb].
  apply (bind_listeners_Ok Hbind) in Hl. apply supervisor_state_for in Hs as (<- & Hclaim & Hlease).
  assert (Hserve : forall backend, (hs_ready host = Transport_Ready \/ sm_credential_lease manifest = None) ->
    (if negb (hs_persist host) then (a1, hs_bind_control host, None, [], Some (Err (Supervisor_Runtime ($"state")))) else
     let '(_, responses, ended) := control_loop connections state backend in (a1, true, Some state, responses, ended))
      = (a', socket, published, responses, ended) ->
    match published with
    | None => responses = [] /\ exists e, ended = Some (Err e)
    | Some state => published_for manifest state /\ socket = true /\ exists backend backend', control_loop connections state backend = (backend', responses, ended)
    end).
  { intros backend Hready. destruct (hs_persist host); cbn [negb]; [|intros [= <- <- <- <- <-]; eauto].
    destruct (control_loop connections state backend) as [[b2 rs] en] eqn:Hc. intros [= <- <- <- <- <-]. split; [|eauto].
    split_and!; [done..|]. destruct (sm_credential_lease manifest); [|done]. destruct Hready as [Hready|]; [|done]. eauto. }
  destruct (sm_credential_lease manifest) as [lease|]; destruct (sv_credential_lease state) as [identity|] eqn:Hi.
  - destruct (hs_ready host); [apply Hserve; auto|intros [= <- <- <- <- <-]; eauto..].
  - destruct Hlease as (? & _ & ?). done.
  - done.
  - apply Hserve. auto.
Qed.

(** C5: the life of a supervisor, from its manifest to its end, whatever the host answers and
    whoever connects.  If the manifest is not valid for this build, another process holds the
    lifetime lock or a control socket exists, nothing is touched.  Otherwise: the state is
    published only with one loopback listener per forward (on its port where required), with
    the identities of the manifest so that the claim of the manifest with its token is
    authentic, and, with credentials, only after their transport was ready; the supervisor ends
    without an error only for an authentic Down, and answers no other connection with the
    state; and however it ends, the socket and the state file are gone, each unless its removal
    failed, and then the state file is the published one or the manifest as it was. *)
Theorem supervisor_life manifest connections rt rt' a a' published responses ended : binds_requested ->
  run_supervisor manifest connections rt a = (rt', a', published, responses, ended) ->
  match published with
  | None => responses = [] /\ (exists e, ended = Some (Err e))
  | Some state =>
      published_for manifest state
      /\ (exists served rest, connections = served ++ rest /\ Forall2 (faithful_answer state) (List.filter answered served) responses)
      /\ (ended = Some (Ok tt) -> exists connection, connection ∈ connections /\ authentic state connection = Some Control_Down)
      /\ (ended = None -> rt_socket rt' = true /\ rt_state rt' = File_State state)
  end
  /\ (if is_ok (validate_manifest_identity (hs_build host) manifest) && negb (rt_locked rt) && negb (rt_socket rt)
      then ended <> None ->
        (hs_remove_socket host = true -> rt_socket rt' = false)
        /\ rt_state rt' = (if hs_remove_state host then File_Absent
                           else match published with Some state => File_State state | None => rt_state rt end)
      else rt' = rt /\ published = None).
Proof.
  intros Hbind. unfold run_supervisor.
  destruct (validate_manifest_identity (hs_build host) manifest) as [[]|e]; cbn [is_ok andb]; [|intros [= <- <- <- <- <-]; eauto 6].
  destruct (rt_locked rt); cbn [negb andb]; [intros [= <- <- <- <- <-]; eauto 6|].
  destruct (rt_socket rt); cbn [negb andb]; [intros [= <- <- <- <- <-]; eauto 6|].
  destruct (supervisor_body manifest connections a) as [[[[a1 socket] p] rs] en] eqn:Hbody. intros [= <- <- <- <- <-].
  apply (supervisor_body_spec _ _ _ _ _ _ _ _ Hbind) in Hbody.
  split.
  2:{ destruct en; [|done]. intros _. cbn. split; [by intros ->|done]. }
  destruct p as [state|]; [|done]. destruct Hbody as (Hpub & -> & backend & backend' & Hloop).
  apply control_loop_authentic in Hloop as (served & rest & -> & _ & Hanswers & Hended). split_and!; [done|eauto| |].
  - intros ->. destruct Hended as (before & connection & -> & _ & Hdown). exists connection. split; [set_solver|]. by apply Hdown.
  - intros ->. done.
Qed.
End life.

(** ** The wait for the credential transport *)

(** [wait_ready] loads the flag, then makes the [Notified] future, and only then is woken by
    [notify_waiters]; [transport_ready] stores the flag, then notifies.  The runtime has several
    threads, so their steps interleave. *)
Inductive Waiter : Type := Waiter_Start | Waiter_Checked | Waiter_Registered | Waiter_Done.
Inductive Signaller : Type := Signaller_Start | Signaller_Stored | Signaller_Done.
Record Handshake : Type := mkHandshake { hk_waiter : Waiter; hk_signaller : Signaller }.

(** @src cdenv-cli/src/forwarding.rs:654-659 wait_ready *)
Definition wait_step (h : Handshake) : Handshake :=
  match hk_waiter h with
  | Waiter_Start =>
      mkHandshake (match hk_signaller h with Signaller_Start => Waiter_Checked | _ => Waiter_Done end) (hk_signaller h)
  | Waiter_Checked => mkHandshake Waiter_Registered (hk_signaller h)
  | _ => h
  end.

(** @src cdenv-cli/src/forwarding.rs:710-713 transport_ready *)
Definition signal_step (h : Handshake) : Handshake :=
  match hk_signaller h with
  | Signaller_Start => mkHandshake (hk_waiter h) Signaller_Stored
  | Signaller_Stored => mkHandshake (match hk_waiter h with Waiter_Registered => Waiter_Done | w => w end) Signaller_Done
  | Signaller_Done => h
  end.

(** A schedule: [true] for a step of the waiter. *)
Definition interleave (schedule : list bool) (h : Handshake) : Handshake :=
  fold_left (fun h waiter => if waiter : bool then wait_step h else signal_step h) schedule h.

(** Unless the signaller is done while the waiter is between its steps or registered, the
    remaining steps of both let the waiter go on. *)
Lemma interleave_completes h :
  hk_signaller h <> Signaller_Done \/ (hk_waiter h <> Waiter_Checked /\ hk_waiter h <> Waiter_Registered) ->
  hk_waiter (interleave [true; true; false; false] h) = Waiter_Done.
Proof. destruct h as [[] []]; cbn; naive_solver. Qed.

(** The wakeup is lost if the transport becomes ready between the two steps of the waiter:
    whatever is scheduled after it, the waiter does not go on. *)
Theorem lost_wakeup schedule :
  hk_waiter (interleave ([true; false; false; true] ++ schedule) (mkHandshake Waiter_Start Signaller_Start)) = Waiter_Registered.
Proof. cbn. induction schedule as [|[] schedule IH]; cbn; auto. Qed.

(** ** Witnesses *)

#[export] Instance InstallationId_countable : Countable InstallationId.
Proof. apply (inj_countable' installation_str mkInstallationId). by intros []. Defined.
#[export] Instance AgentBuildId_countable : Countable AgentBuildId.
Proof. apply (inj_countable' build_str mkAgentBuildId). by intros []. Defined.
#[export] Instance ContainerId_countable : Countable ContainerId.
Proof. apply (inj_countable' container_str mkContainerId). by intros []. Defined.
#[export] Instance ProtocolVersion_countable : Countable ProtocolVersion.
Proof. apply (inj_countable' protocol_get mkProtocolVersion). by intros []. Defined.
#[export] Instance SshAgentSelector_countable : Countable SshAgentSelector.
Proof. apply (inj_countable' selector_str mkSelector). by intros []. Defined.
#[export] Instance CredentialUserIdentity_countable : Countable CredentialUserIdentity.
Proof. apply (inj_countable' (fun u => (uid u, gid u)) (fun p => mkUser p.1 p.2)). by intros []. Defined.
#[export] Instance CredentialGrants_countable : Countable CredentialGrants.
Proof.
  apply (inj_countable' (fun g => (git_https g, ssh_agent g, git_identity g)) (fun '(a, b, c) => mkGrants a b c)). by intros [].
Defined.
#[export] Instance CredentialLeaseIdentity_countable : Countable CredentialLeaseIdentity.
Proof.
  apply (inj_countable'
    (fun l => (installation l, workspace l, workspace_receipt l, container l, generation l, user l, host_build l, agent_build l,
               agent_protocol l, broker_protocol l, grant_revision l))
    (fun '(a, b, c, d, e, f, g, h, i, j, k) => mkLeaseIdentity a b c d e f g h i j k)). by intros [].
Defined.
#[export] Instance Control_eq_dec : EqDecision ControlCommand.
Proof. solve_decision. Defined.
#[export] Instance ControlCommand_countable : Countable ControlCommand.
Proof.
  apply (inj_countable'
    (fun c => match c with Control_Status => inl false | Control_Down => inl true | Control_Reconcile r g => inr (r, g) end)
    (fun s => match s with inl false => Control_Status | inl true => Control_Down | inr (r, g) => Control_Reconcile r g end)).
  by intros [].
Defined.
#[export] Instance ControlRequest_eq_dec : EqDecision ControlRequest.
Proof. solve_decision. Defined.
#[export] Instance ControlRequest_countable : Countable ControlRequest.
Proof.
  apply (inj_countable'
    (fun q => (cq_command q, cq_installation q, cq_workspace q, cq_generation q, cq_host_build_id q, cq_agent_build_id q,
               cq_agent_protocol q, cq_supervisor_protocol q, cq_token q))
    (fun '(a, b, c, d, e, f, g, h, i) => mkControlRequest a b c d e f g h i)). by intros [].
Defined.
#[export] Instance IpAddr_countable : Countable IpAddr.
Proof.
  apply (inj_countable' (fun a => match a with IpAddr_V4 b => inl (ipv4_bits b) | IpAddr_V6 b => inr (ipv6_bits b) end)
    (fun s => match s with inl b => IpAddr_V4 (mkIpv4 b) | inr b => IpAddr_V6 (mkIpv6 b) end)).
  by intros [[]|[]].
Defined.
#[export] Instance SupervisorState_eq_dec : EqDecision SupervisorState.
Proof. solve_decision. Defined.
#[export] Instance SupervisorState_countable : Countable SupervisorState.
Proof.
  apply (inj_countable'
    (fun s => (((sv_installation s, sv_workspace s), (sv_generation s, sv_host_build_id s),
                ((sv_agent_build_id s, sv_agent_protocol s), (sv_supervisor_protocol s, sv_pid s))),
               (sv_listeners s, (sv_credential_lease s, sv_token s))))
    (fun '((((a, b), (c, d)), ((e, f), (g, h))), (i, (j, k))) => mkSupervisorState a b c d e f g h i j k)). by intros [].
Defined.
#[export] Instance ControlResponse_eq_dec : EqDecision ControlResponse.
Proof. solve_decision. Defined.
#[export] Instance ControlResponse_countable : Countable ControlResponse.
Proof.
  apply (inj_countable' (fun p => (cp_accepted p, cp_state p, cp_credential_revision p, cp_error p))
    (fun '(a, b, c, d) => mkControlResponse a b c d)). by intros [].
Defined.

(** Binary text of a number: a digit per bit, none of them a newline. *)
Fixpoint bits_text (p : positive) : list N :=
  match p with xH => [] | xO p => 48 :: bits_text p | xI p => 49 :: bits_text p end.
Fixpoint bits_value (l : list N) : positive :=
  match l with
  | 48 :: l => xO (bits_value l)
  | 49 :: l => xI (bits_value l)
  | _ => xH
  end.
Lemma bits_value_text p : bits_value (bits_text p ++ [10]) = p.
Proof. induction p as [p IH|p IH|]; cbn; by rewrite ?IH. Qed.
Lemma bits_text_line p : 10 ∉ bits_text p.
Proof. induction p as [p IH|p IH|]; cbn; rewrite ?not_elem_of_cons; [done..|apply not_elem_of_nil]. Qed.

(** A codec for which the laws hold. *)
Definition sample_control_codec : ControlCodec := {|
  request_to_vec r := bits_text (countable.encode r); request_from_slice l := countable.decode (bits_value l);
  response_to_vec r := bits_text (countable.encode r); response_from_slice l := countable.decode (bits_value l) |}.
Lemma sample_control_laws : @ControlCodecLaws sample_control_codec.
Proof. split; intros; cbn; rewrite ?bits_value_text, ?countable.decode_encode; auto using bits_text_line. Qed.

Definition sample_runtime : Path := [$"runtime"; $"w"; $"workspaces"].
Definition sample_forward : SupervisorForward := mkSupervisorForward 3000 true ($"localhost") 8080.
Definition sample_build : AgentBuildId := mkAgentBuildId ($"b").
Definition sample_manifest : SupervisorManifest :=
  mkManifest (mkInstallationId ($"i")) (mkWorkspaceName ($"w")) (mkGenerationId 1) sample_build sample_build (mkProtocolVersion 1)
    (mkContainerId ($"c")) ($"/agent") ($"/docker.sock") ($"control" :: sample_runtime) ($"state" :: sample_runtime) ($"lock" :: sample_runtime)
    ($"t") [sample_forward] None.
Definition sample_host : SupervisorHost unit :=
  mkSupervisorHost unit (Some sample_build) (fun address _ => (tt, Some address)) true true 7 true None Transport_Ready true true true.
Definition sample_supervisor : SupervisorState :=
  mkSupervisorState (mkInstallationId ($"i")) (mkWorkspaceName ($"w")) (mkGenerationId 1) sample_build sample_build (mkProtocolVersion 1)
    FORWARDING_SUPERVISOR_PROTOCOL 7 [(LOCALHOST, 3000)] None ($"t").

Lemma reconcile_acknowledged_witness :
  @reconcile_supervisor_credentials sample_control_codec (@server_exchange sample_control_codec sample_supervisor None) ($"t")
    (claim_from_manifest sample_manifest) 3 default_grants = Ok sample_supervisor
  /\ exists backend',
    @control_loop sample_control_codec
      [mkConnection (Ok (@request_to_vec sample_control_codec
         (claim_request ($"t") (claim_from_manifest sample_manifest) (Control_Reconcile 3 default_grants)) ++ [10])) true] sample_supervisor None
    = (backend', [reconciled sample_supervisor 3], None).
Proof.
  assert (E : @reconcile_supervisor_credentials sample_control_codec (@server_exchange sample_control_codec sample_supervisor None) ($"t")
    (claim_from_manifest sample_manifest) 3 default_grants = Ok sample_supervisor) by (vm_compute; reflexivity).
  split; [exact E|].
  destruct (proj1 (@reconcile_acknowledged sample_control_codec sample_control_laws sample_supervisor None ($"t")
    (claim_from_manifest sample_manifest) 3 default_grants sample_supervisor) E) as (_ & _ & backend' & Hl & _).
  exists backend'. exact Hl.
Defined.

Definition sample_down : Connection :=
  mkConnection (Ok (@request_to_vec sample_control_codec (claim_request ($"t") (claim_from_manifest sample_manifest) Control_Down) ++ [10])) true.

Lemma supervisor_life_witness :
  @run_supervisor sample_control_codec unit sample_host sample_manifest [mkConnection (Ok ($"noise")) true; sample_down]
    (mkRuntime false false (File_Manifest sample_manifest)) tt
  = (mkRuntime false false File_Absent, tt, Some sample_supervisor,
     [mkControlResponse false None None (Some ($"identity or authentication mismatch")); mkControlResponse true (Some sample_supervisor) None None],
     Some (Ok tt))
  /\ @published_for unit sample_host sample_manifest sample_supervisor.
Proof.
  assert (E : @run_supervisor sample_control_codec unit sample_host sample_manifest [mkConnection (Ok ($"noise")) true; sample_down]
    (mkRuntime false false (File_Manifest sample_manifest)) tt
  = (mkRuntime false false File_Absent, tt, Some sample_supervisor,
     [mkControlResponse false None None (Some ($"identity or authentication mismatch")); mkControlResponse true (Some sample_supervisor) None None],
     Some (Ok tt))) by (vm_compute; reflexivity).
  split; [exact E|].
  assert (Hb : binds_requested sample_host) by (intros address a a' bound [= <- <-]; auto).
  destruct (@supervisor_life sample_control_codec unit sample_host _ _ _ _ _ _ _ _ _ Hb E) as [(Hp & _) _]. exact Hp.
Defined.
