(* ===== verification/Registry.v ===== *)
(** * Registry: the reservation of workspace names
    ([cdenv-cli/src/workspace_registry.rs])

    A reservation creates the skeleton of a workspace under the lock of the name space and owns it
    until it is committed: dropping it, as every early return does, removes what it owns, object by
    object and never a tree. *)

From S2P Require Import Prelude Text Order Effects Utf8 Identity Workspace Status Storage WorkspaceState.
From S2P Require Import Transaction FileTree.

(** ** Data *)

(** @src cdenv-cli/src/workspace_registry.rs:129-163 ReservationError *)
Inductive ReservationError : Type :=
| Reservation_Storage (error : StorageError)
| Reservation_Lock (error : LockError)
| Reservation_ManagedPath (error : ManagedPathError)
| Reservation_AlreadyReserved (name : WorkspaceName)
| Reservation_Create (path : Path)
| Reservation_Rollback (path : Path).

(** [committed] is where the reservation goes: [commit] forgets it, and dropping it otherwise runs
    the cleanup.
    @src cdenv-cli/src/workspace_registry.rs:63-67 WorkspaceReservation *)
Record WorkspaceReservation : Type := mkReservation { reserved_root : Path; owned_paths : list Path }.

Section registry.
Context {B : Type} (user umask : N) (no_bytes : B).

(** ** Rollback *)

(** @src cdenv-cli/src/workspace_registry.rs:93-110 WorkspaceReservation::cleanup *)
Definition remove_owned (p : Path) : disk_io B ReservationError unit :=
  let stop := raise (Reservation_Rollback p) in
  do? entry := symlink_metadata p
    else (fun e => match e with Io_NotFound => done tt | _ => stop end) in
  match e_kind entry with
  | Kind_Directory => do? _ := remove_dir p else (fun _ => stop) in done tt
  | Kind_File => do? _ := remove_file p else (fun _ => stop) in done tt
  | _ => stop
  end.

(** @src cdenv-cli/src/workspace_registry.rs:93-115 WorkspaceReservation::cleanup *)
Definition reservation_cleanup (r : WorkspaceReservation) : disk_io B ReservationError unit :=
  each remove_owned (rev (owned_paths r)).

(** After a failure nothing of the reservation is left to drop but what it could not remove.
    @src cdenv-cli/src/workspace_registry.rs:87-91 WorkspaceReservation::rollback *)
Definition rollback (r : WorkspaceReservation) : disk_io B ReservationError unit :=
  do? _ := reservation_cleanup r
    else (fun e => do? _ := reservation_cleanup r else (fun _ => raise e) in raise e) in
  done tt.

(** The drop of an uncommitted reservation on the way out with an error.
    @src cdenv-cli/src/workspace_registry.rs:119-123 WorkspaceReservation::drop *)
Definition drop_with {X : Type} {E} (r : WorkspaceReservation) (e : E) : disk_io B E X :=
  do? _ := reservation_cleanup r else (fun _ => raise e) in raise e.

(** ** Reservation *)

(** The objects of the skeleton, in the order of their creation.
    @src cdenv-cli/src/workspace_registry.rs:210-219 reserve_workspace *)
Fixpoint create_skeleton (root : Path) (owned : list Path) (rest : list Path) (lock : Path) :
    disk_io B ReservationError WorkspaceReservation :=
  match rest with
  | dir :: rest' =>
      let owned := owned ++ [dir] in
      do? _ := ensure_private_directory user umask no_bytes dir
        else (fun e => drop_with (mkReservation root owned) (Reservation_Storage e)) in
      create_skeleton root owned rest' lock
  | [] =>
      let owned := owned ++ [lock] in
      do? _ := ensure_lock_file user umask no_bytes lock
        else (fun e => drop_with (mkReservation root owned) (Reservation_Lock e)) in
      done (mkReservation root owned)
  end.

(** @src cdenv-cli/src/workspace_registry.rs:175-224 reserve_workspace *)
Definition reserve_workspace (root : Path) (name : WorkspaceName) :
    disk_io B ReservationError WorkspaceReservation :=
  do? _ := ensure_private_directory user umask no_bytes root or Reservation_Storage in
  do? _ := ensure_private_directory user umask no_bytes (workspaces_dir root) or Reservation_Storage in
  do? _ := ensure_lock_file user umask no_bytes (workspace_namespace_lock root) or Reservation_Lock in
  do? _ := acquire_lock user (workspace_namespace_lock root) Lock_Exclusive Lock_Wait or Reservation_Lock in
  let path := workspace_root root name in
  do? found := inspect user path Managed_Directory or Reservation_ManagedPath in
  match found with
  | Path_Valid => raise (Reservation_AlreadyReserved name)
  | Path_Missing =>
      do? _ := create_dir user umask no_bytes path
        else (fun e => raise (match e with
                              | Io_AlreadyExists => Reservation_AlreadyReserved name
                              | _ => Reservation_Create path
                              end)) in
      let reservation := mkReservation path [path] in
      do? _ := ensure_private_directory user umask no_bytes path
        else (fun e => drop_with reservation (Reservation_Storage e)) in
      create_skeleton path [path] [checkout_dir root name; runtime_dir root name; logs_dir root name]
        (lock_file root name)
  end.
End registry.

(** ** What a rollback removes *)

Section rollback.
Context {B : Type}.
Implicit Types (t : gmap Path (Entry B)) (p q : Path).

Lemma is_empty_dir_true t p : is_empty_dir t p = true <-> forall q, strictly_below p q -> t !! q = None.
Proof.
  unfold is_empty_dir. rewrite forallb_forall. split.
  - intros H q Hq. destruct (t !! q) as [e|] eqn:E; [|done]. specialize (H (q, e)). cbn in H.
    rewrite bool_decide_eq_true_2 in H by done. discriminate H. by apply list_elem_of_In, elem_of_map_to_list.
  - intros H [q e] Hq%list_elem_of_In%elem_of_map_to_list. apply negb_true_iff, bool_decide_eq_false_2.
    intros Hb. specialize (H q Hb). congruence.
Qed.

(** A path the cleanup can remove. *)
Definition removable_now t p : Prop :=
  match t !! p with
  | None => True
  | Some e => e_kind e = Kind_File \/ e_kind e = Kind_Directory /\ forall q, strictly_below p q -> t !! q = None
  end.

Lemma remove_owned_spec p t :
  post (remove_owned p) t (fun t' r n =>
    match r with
    | Ok _ => t' = delete p t /\ removable_now t p
    | Err e => t' = t /\ e = Reservation_Rollback p /\ (n = 0%nat -> ~ removable_now t p)
    end).
Proof.
  unfold remove_owned, symlink_metadata, removable_now.
  apply post_handle, post_call; intros step; cbn beta iota; [by apply post_raise|].
  destruct (t !! p) as [e|] eqn:E; cbn [ok_or].
  2:{ apply post_done. by rewrite delete_id. }
  destruct (e_kind e) eqn:Hk; try (apply post_raise; split_and!; [done..|]; intros _ [?|[? _]]; congruence).
  - unfold remove_file. apply post_handle, post_call; intros step2; cbn beta iota; [by apply post_raise|].
    rewrite E, Hk. cbn. apply post_done. auto.
  - unfold remove_dir. apply post_handle, post_call; intros step2; cbn beta iota; [by apply post_raise|].
    rewrite E, Hk. cbn. destruct (is_empty_dir t p) eqn:Hd.
    + apply post_done. rewrite is_empty_dir_true in Hd. auto.
    + apply post_raise. split_and!; [done..|]. intros _ [?|[_ H]]; [congruence|].
      apply is_empty_dir_true in H. congruence.
Qed.

(** The paths can be removed one after the other. *)
Fixpoint removable t (l : list Path) : Prop :=
  match l with [] => True | p :: l' => removable_now t p /\ removable (delete p t) l' end.

(** The cleanup touches only what it is given; it removes all of it, or stops at an object that could
    not be removed; without failures it stops only where something foreign is in the way. *)
Lemma remove_all_spec (l : list Path) t :
  post (each remove_owned l) t (fun t' r n =>
    (forall q, q ∉ l -> t' !! q = t !! q) /\ t' ⊆ t
    /\ (is_ok r = true -> forall q, q ∈ l -> t' !! q = None)
    /\ (n = 0%nat -> removable t l -> r = Ok tt)).
Proof.
  apply (post_each _ _ _ (fun rest t' n =>
    (forall q, q ∉ l -> t' !! q = t !! q) /\ t' ⊆ t /\ rest ⊆ l
    /\ (forall q, q ∈ l -> q ∈ rest \/ t' !! q = None)
    /\ (n = 0%nat -> removable t l -> removable t' rest))).
  - by split_and!; auto.
  - intros p rest t' n (Hout & Hsub & Hin & Hdone & Hrem). eapply post_impl; [apply remove_owned_spec|].
    intros t2 [[]|e] n2; cbn beta iota.
    + intros [-> _]. split_and!.
      * intros q Hq. rewrite lookup_delete_ne; [by apply Hout|]. intros ->. apply Hq, Hin, list_elem_of_here.
      * etransitivity; [apply delete_subseteq|exact Hsub].
      * set_solver.
      * intros q Hq. destruct (decide (q = p)) as [->|Hne]; [right; by apply lookup_delete_eq|].
        rewrite lookup_delete_ne by done. destruct (Hdone q Hq) as [[?|?]%elem_of_cons|?]; [done|by left|by right].
      * intros Hn Hr. apply Hrem; [lia|done].
    + intros (-> & -> & Hno). split_and!; [done..|]. intros Hn Hr. exfalso.
      apply Hno; [lia|]. by apply Hrem; [lia|].
  - intros t' n (Hout & Hsub & Hin & Hdone & Hrem). split_and!; try done.
    intros _ q Hq. destruct (Hdone q Hq) as [?%elem_of_nil|?]; done.
Qed.

(** A directory and files and directories directly in it, with nothing else below, can be removed. *)
Lemma removable_skeleton t (dir : Path) (names : list (list N)) :
  (forall q, strictly_below dir q -> q ∉ List.map (fun n => n :: dir) names -> t !! q = None) ->
  Forall (fun p => match t !! p with None => True | Some e => e_kind e = Kind_File \/ e_kind e = Kind_Directory end)
    (dir :: List.map (fun n => n :: dir) names) ->
  match t !! dir with Some e => e_kind e <> Kind_File | None => True end ->
  removable t (List.map (fun n => n :: dir) names ++ [dir]).
Proof.
  revert t. induction names as [|n names IH]; intros t Hbelow Hk Hdir; cbn [List.map app removable].
  - apply Forall_cons in Hk as [Hk _]. split; [|done]. unfold removable_now. destruct (t !! dir); [|done].
    destruct Hk as [?|Hk]; [done|]. right. split; [done|]. intros q Hq. apply Hbelow; [done|]. apply not_elem_of_nil.
  - apply Forall_cons in Hk as [Hkd [Hkn Hk]%Forall_cons].
    assert (Hnd : n :: dir <> dir) by (intros H; apply (f_equal length) in H; cbn in H; lia). split.
    + unfold removable_now. destruct (t !! (n :: dir)) as [e|] eqn:E; [|done].
      destruct Hkn as [?|Hkn]; [by left|right; split; [done|]]. intros q [Hne Hq]. apply Hbelow.
      * split; [|by etransitivity; [|exact Hq]; apply suffix_cons_r]. intros ->. apply suffix_length in Hq. cbn in Hq. lia.
      * intros (m & -> & _)%list_elem_of_fmap. apply suffix_cons_cases in Hq as [Hq|Hq]; [congruence|].
        apply suffix_length in Hq. cbn in Hq. lia.
    + apply IH.
      * intros q Hq Hnin. destruct (decide (q = n :: dir)) as [->|Hne]; [apply lookup_delete_eq|].
        rewrite lookup_delete_ne by done. apply Hbelow; [done|]. intros [?|?]%elem_of_cons; done.
      * apply Forall_cons. split; [by rewrite lookup_delete_ne|].
        eapply Forall_impl; [exact Hk|]. intros p Hp. cbn in Hp |- *.
        destruct (decide (p = n :: dir)) as [->|?]; [by rewrite lookup_delete_eq|by rewrite lookup_delete_ne].
      * by rewrite lookup_delete_ne.
Qed.
End rollback.

(** ** The skeleton *)

Section skeleton.
Context {B : Type} (user umask : N) (no_bytes : B).
Context (t0 : gmap Path (Entry B)) (dir : Path).
Context (Hfresh : t0 !! dir = None) (Hbelow : forall q, strictly_below dir q -> t0 !! q = None).
Context (Hclear : clear_path t0 dir).
Implicit Types (t : gmap Path (Entry B)) (names : list (list N)).

Abbreviation owned names := (dir :: List.map (fun n => n :: dir) names).

(** The tree is that of before, and of the reservation's. *)
Definition building t names : Prop :=
  (forall q, q ∉ owned names -> t !! q = t0 !! q)
  /\ Forall (fun p => match t !! p with None => True | Some e => e_kind e = Kind_File \/ e_kind e = Kind_Directory end)
       (owned names)
  /\ exists e, t !! dir = Some e /\ e_kind e = Kind_Directory /\ e_uid e = user.

Lemma child_ne (c : list N) : c :: dir <> dir.
Proof. intros H. apply (f_equal length) in H. cbn in H. lia. Qed.

Lemma building_free t names c : building t names -> c ∉ names -> t !! (c :: dir) = None.
Proof.
  intros (Hq & _) Hc. rewrite Hq.
  - apply Hbelow. by apply strictly_below_cons.
  - intros [H|(n & [= <-] & Hn)%list_elem_of_fmap]%elem_of_cons; [by apply child_ne in H|done].
Qed.

Lemma building_clear t names c : building t names -> clear_path t (c :: dir).
Proof.
  intros (Hq & _ & x & Hd & Hk & _) q e Hb%strictly_below_cons He. destruct (decide (q = dir)) as [->|Hne].
  - congruence.
  - apply (Hclear q e); [by split; [intros ->|]|]. rewrite <- Hq; [done|].
    intros [?|(n & -> & _)%list_elem_of_fmap]%elem_of_cons; [done|]. apply suffix_length in Hb. cbn in Hb. lia.
Qed.

Lemma building_ensured kind t t' names c :
  building t names -> c ∉ names -> kind = Kind_File \/ kind = Kind_Directory ->
  ensured user no_bytes kind (c :: dir) t t' -> building t' (names ++ [c]).
Proof.
  intros Hb Hc Hkind [Hq Hp]. assert (Hfree := building_free t names c Hb Hc). rewrite Hfree in Hp.
  destruct Hb as (Hout & Hk & Hd). unfold building. rewrite map_app. cbn [List.map].
  assert (Hdir : t' !! dir = t !! dir) by (apply Hq; intros H; symmetry in H; by apply child_ne in H).
  split_and!.
  - intros q Hn. rewrite Hq; [apply Hout|]; intros ?; apply Hn; set_solver.
  - rewrite app_comm_cons. apply Forall_app. split.
    + rewrite Forall_forall in Hk |- *. intros p Hp'. destruct (decide (p = c :: dir)) as [->|Hne].
      * destruct Hp as [->|[m ->]]; [done|exact Hkind].
      * rewrite Hq by done. by apply Hk.
    + apply Forall_singleton. destruct Hp as [->|[m ->]]; [done|exact Hkind].
  - by rewrite Hdir.
Qed.

Lemma drop_with_spec {X : Type} {E} t names (e : E) :
  building t names ->
  post (drop_with (X := X) (mkReservation dir (owned names)) e) t (fun t' r n =>
    r = Err e /\ (forall q, q ∉ owned names -> t' !! q = t0 !! q)
    /\ (n = 0%nat -> forall q, dir `suffix_of` q -> t' !! q = None)).
Proof.
  intros (Hout & Hk & x & Hd & Hkd & _). unfold drop_with, reservation_cleanup. cbn [owned_paths rev].
  rewrite <- map_rev. apply post_handle. eapply post_impl; [apply remove_all_spec|].
  assert (Hin : forall q, q ∈ List.map (fun n => n :: dir) (rev names) ++ [dir] <-> q ∈ owned names).
  { intros q. rewrite !list_elem_of_In, in_app_iff, map_rev, <- in_rev. cbn. intuition congruence. }
  intros t' r n (Hfr & _ & Hok & Hn).
  assert (Hr : n = 0%nat -> r = Ok tt).
  { intros H0. apply Hn; [done|]. apply removable_skeleton.
    - intros q Hq Hnin. rewrite Hout; [by apply Hbelow|]. intros [->|Hq']%elem_of_cons; [by destruct Hq|].
      apply Hnin. rewrite list_elem_of_In, map_rev, <- in_rev. by apply list_elem_of_In.
    - rewrite Forall_forall in Hk |- *. intros p Hp. apply Hk. rewrite <- Hin. set_solver.
    - rewrite Hd. by rewrite Hkd. }
  assert (Hout' : forall q, q ∉ owned names -> t' !! q = t0 !! q).
  { intros q Hq. rewrite Hfr; [by apply Hout|]. by rewrite Hin. }
  destruct r as [[]|e']; cbn beta iota; apply post_raise; rewrite Nat.add_0_r; split_and!; try done.
  - intros _ q Hq. destruct (decide (q ∈ owned names)) as [Hi|Hi]; [apply Hok; [done|]; by apply Hin|].
    rewrite Hout' by done. destruct (decide (q = dir)) as [->|Hne]; [done|]. by apply Hbelow.
  - intros H0. by specialize (Hr H0).
Qed.

Definition skeleton_of names (lock : list N) t : Prop :=
  Forall (private user Kind_Directory PrivateDirectory t) (owned names)
  /\ private user Kind_File PrivateFile t (lock :: dir).

Lemma owned_snoc names c : owned names ++ [c :: dir] = owned (names ++ [c]).
Proof. by rewrite map_app. Qed.

(** What is private stays so while another object is made. *)
Lemma private_kept t t' names c :
  building t names -> c ∉ names -> (forall q, q <> c :: dir -> t' !! q = t !! q) ->
  Forall (private user Kind_Directory PrivateDirectory t) (owned names) ->
  Forall (private user Kind_Directory PrivateDirectory t') (owned names).
Proof.
  intros Hb Hc Hq H. eapply Forall_impl; [exact H|]. intros p [x Hx]. exists x. rewrite Hq; [done|]. intros ->.
  by rewrite (building_free t names c) in Hx.
Qed.

(** From a directory that is private on: all objects, or an error that a failed call caused and that
    leaves nothing behind unless another one fails. *)
Lemma create_skeleton_spec (lock : list N) rest names t :
  NoDup (names ++ rest ++ [lock]) -> building t names ->
  Forall (private user Kind_Directory PrivateDirectory t) (owned names) ->
  post (create_skeleton user umask no_bytes dir (owned names) (List.map (fun n => n :: dir) rest) (lock :: dir)) t
    (fun t' r n =>
       (forall q, q ∉ owned (names ++ rest ++ [lock]) -> t' !! q = t0 !! q)
       /\ match r with
          | Ok res => res = mkReservation dir (owned (names ++ rest ++ [lock]))
                      /\ skeleton_of (names ++ rest) lock t'
          | Err _ => (1 <= n)%nat /\ ((n <= 1)%nat -> forall q, dir `suffix_of` q -> t' !! q = None)
          end).
Proof.
  revert names t. induction rest as [|c rest IH]; intros names t Hnd Hb Hpr; cbn [List.map create_skeleton].
  - rewrite app_nil_l in *. rewrite app_nil_r. apply NoDup_app in Hnd as (_ & Hnd & _).
    assert (Hl : lock ∉ names) by (intros H; apply (Hnd _ H); by apply list_elem_of_singleton).
    rewrite owned_snoc. apply post_handle. eapply post_impl; [apply ensure_lock_file_spec|].
    intros t' r n (He & Hok & Hz).
    assert (Hb' : building t' (names ++ [lock])) by (by eapply (building_ensured Kind_File); [exact Hb|exact Hl|left|exact He]).
    destruct r as [[]|e]; cbn beta iota.
    + apply post_done. split; [apply Hb'|]. split; [done|]. split; [|by apply Hok].
      eapply private_kept; [exact Hb|exact Hl|apply He|exact Hpr].
    + eapply post_impl; [by apply drop_with_spec|]. intros t2 r2 n2 (-> & Hfr & Hclean).
      assert (1 <= n)%nat by (destruct n; [|lia]; specialize (Hz eq_refl (building_clear t names lock Hb)); discriminate Hz;
        [eexists _, _; split; [done|apply Hb]|
         unfold adoptable; by rewrite (building_free t names lock)]).
      split; [done|]. split; [lia|]. intros Hn. apply Hclean. lia.
  - assert (Hc : c ∉ names).
    { apply NoDup_app in Hnd as (_ & Hnd & _). intros H. apply (Hnd _ H). by apply list_elem_of_here. }
    rewrite owned_snoc. apply post_handle. eapply post_impl; [apply ensure_private_directory_spec|].
    intros t' r n (He & Hok & Hz).
    assert (Hb' : building t' (names ++ [c])) by (by eapply (building_ensured Kind_Directory); [exact Hb|exact Hc|right|exact He]).
    destruct r as [[]|e]; cbn beta iota.
    + replace (names ++ (c :: rest) ++ [lock]) with ((names ++ [c]) ++ rest ++ [lock]) in * by (by rewrite <- app_assoc).
      replace (names ++ c :: rest) with ((names ++ [c]) ++ rest) by (by rewrite <- app_assoc).
      eapply post_impl; [apply IH; [done|done|]|].
      * rewrite <- owned_snoc. apply Forall_app. split; [|apply Forall_singleton; by apply Hok].
        eapply private_kept; [exact Hb|exact Hc|apply He|exact Hpr].
      * intros t2 [res|e] n2; cbn beta iota; [done|]. intros (Hfr & H1 & Hcl). split; [done|]. split; [lia|].
        intros Hn. apply Hcl. lia.
    + eapply post_impl; [by apply drop_with_spec|]. intros t2 r2 n2 (-> & Hfr & Hclean).
      assert (1 <= n)%nat by (destruct n; [|lia]; specialize (Hz eq_refl (building_clear t names c Hb)); discriminate Hz;
        [destruct Hb as (_ & _ & x & Hx & Hk & _); by exists x|
         unfold adoptable; by rewrite (building_free t names c)]).
      split; [|split; [lia|intros Hn; apply Hclean; lia]].
      intros q Hq. apply Hfr. intros Hin. apply Hq. rewrite !map_app in *. cbn [List.map] in *. set_solver.
Qed.
End skeleton.

(** ** Reservations *)

Section reservation.
Context {B : Type} (user umask : N) (no_bytes : B) (root : Path) (name : WorkspaceName).
Context (Hname : name_ok (name_str name)).
Implicit Types (t : gmap Path (Entry B)).

(** What a reservation may tighten or create besides the workspace. *)
Definition shared_paths : list Path := [root; workspaces_dir root; workspace_namespace_lock root].

(** A file system without entries below a missing directory. *)
Definition no_orphans t (dir : Path) : Prop :=
  t !! dir = None -> forall q, strictly_below dir q -> t !! q = None.

(** A root that the user can use. *)
Definition usable t : Prop :=
  clear_path t root /\ parent_is_dir t root /\ adoptable user Kind_Directory t root
  /\ adoptable user Kind_Directory t (workspaces_dir root)
  /\ adoptable user Kind_File t (workspace_namespace_lock root).

Lemma component_dot : encode_utf8 (name_str name) <> $".namespace.lock".
Proof.
  destruct Hname as (_ & Hc & _). rewrite encode_utf8_ascii.
  - intros H. rewrite H in Hc. apply Forall_cons in Hc as [Hc _]. discriminate Hc.
  - eapply Forall_impl; [exact Hc|]. intros c Hr%name_char_range. cbn. lia.
Qed.

Lemma shared_not_below q : q ∈ shared_paths -> ~ workspace_root root name `suffix_of` q.
Proof.
  unfold shared_paths, workspace_root, workspace_namespace_lock. intros Hq Hs. assert (Hl := suffix_length _ _ Hs).
  rewrite !elem_of_cons in Hq. destruct Hq as [->|[->|[->|?%elem_of_nil]]]; [cbn in Hl; lia|cbn in Hl; lia| |done].
  apply suffix_cons_cases in Hs as [[= Hs]|Hs]; [by apply component_dot in Hs|].
  apply suffix_length in Hs. cbn in Hs. lia.
Qed.

(** The shared part: after it the collection is private and the lock file exists. *)
Definition prepared_root t t' : Prop :=
  (forall q, q ∉ shared_paths -> t' !! q = t !! q)
  /\ clear_path t' (workspace_root root name) /\ parent_is_dir t' (workspace_root root name).

Lemma prepared_step kind p t1 t2 t :
  (forall q, q ∉ shared_paths -> t1 !! q = t !! q) -> p ∈ shared_paths ->
  ensured user no_bytes kind p t1 t2 -> forall q, q ∉ shared_paths -> t2 !! q = t !! q.
Proof. intros H Hp [He _] q Hq. rewrite He by (intros ->; done). by apply H. Qed.

Lemma clear_path_child t p c e : clear_path t p -> t !! p = Some e -> e_kind e = Kind_Directory -> clear_path t (c :: p).
Proof.
  intros Hc He Hk q e' Hq%strictly_below_cons Hq'. destruct (decide (q = p)) as [->|Hne]; [congruence|].
  apply (Hc q); [by split|done].
Qed.

Lemma clear_path_ensured kind p t t' : clear_path t p -> ensured user no_bytes kind p t t' -> clear_path t' p.
Proof.
  intros Hc [He _] q e Hq Hq'. apply (Hc q); [done|]. rewrite <- He; [done|]. intros ->. by destruct Hq.
Qed.

Lemma open_namespace_spec {X : Type} t (k : disk_io B ReservationError X) (Q : _ -> result ReservationError X -> nat -> Prop) :
  (forall t' e n, (forall q, q ∉ shared_paths -> t' !! q = t !! q) -> (n = 0%nat -> ~ usable t) -> Q t' (Err e) n) ->
  (forall t' n, prepared_root t t' -> post k t' (fun t2 r n2 => Q t2 r (n + n2)%nat)) ->
  post (do? _ := ensure_private_directory user umask no_bytes root or Reservation_Storage in
        do? _ := ensure_private_directory user umask no_bytes (workspaces_dir root) or Reservation_Storage in
        do? _ := ensure_lock_file user umask no_bytes (workspace_namespace_lock root) or Reservation_Lock in
        do? _ := acquire_lock user (workspace_namespace_lock root) Lock_Exclusive Lock_Wait or Reservation_Lock in k) t Q.
Proof.
  intros Herr Hk.
  assert (H1 : root ∈ shared_paths) by apply list_elem_of_here.
  assert (H2 : workspaces_dir root ∈ shared_paths) by (apply list_elem_of_further, list_elem_of_here).
  assert (H3 : workspace_namespace_lock root ∈ shared_paths) by (do 2 apply list_elem_of_further; apply list_elem_of_here).
  assert (Hne1 : workspaces_dir root <> root) by (intros H; apply (f_equal length) in H; cbn in H; lia).
  assert (Hne2 : workspace_namespace_lock root <> workspaces_dir root) by (intros H; apply (f_equal length) in H; cbn in H; lia).
  assert (Hne3 : workspace_namespace_lock root <> root) by (intros H; apply (f_equal length) in H; cbn in H; lia).
  apply post_handle. eapply post_impl; [apply ensure_private_directory_spec|].
  intros t1 r1 n1 (He1 & Hok1 & Hn1). assert (Hq1 := prepared_step _ _ t t1 t (fun q _ => eq_refl) H1 He1).
  destruct r1 as [[]|e]; cbn beta iota.
  2:{ apply post_raise, Herr; [done|]. rewrite Nat.add_0_r. intros -> (Hc & Hp & Ha & _). by specialize (Hn1 eq_refl Hc Hp Ha). }
  destruct (Hok1 eq_refl) as [[c1 Hp1] Hc1].
  assert (Hcl1 : clear_path t1 (workspaces_dir root)).
  { eapply clear_path_child; [by eapply clear_path_ensured|exact Hp1|done]. }
  apply post_handle. eapply post_impl; [apply ensure_private_directory_spec|].
  intros t2 r2 n2 (He2 & Hok2 & Hn2). assert (Hq2 := prepared_step _ _ t1 t2 t Hq1 H2 He2).
  destruct r2 as [[]|e]; cbn beta iota.
  2:{ apply post_raise, Herr; [done|]. intros Hn (_ & _ & _ & Ha & _). specialize (Hn2 ltac:(lia) Hcl1).
      discriminate Hn2; [by eexists|]. unfold adoptable in *. by rewrite (proj1 He1) by done. }
  destruct (Hok2 eq_refl) as [[c2 Hp2] _].
  assert (Hcl2 : clear_path t2 (workspace_namespace_lock root)).
  { eapply clear_path_child; [by eapply clear_path_ensured|exact Hp2|done]. }
  apply post_handle. eapply post_impl; [apply ensure_lock_file_spec|].
  intros t3 r3 n3 (He3 & Hok3 & Hn3). assert (Hq3 := prepared_step _ _ t2 t3 t Hq2 H3 He3).
  destruct r3 as [[]|e]; cbn beta iota.
  2:{ apply post_raise, Herr; [done|]. intros Hn (_ & _ & _ & _ & Ha). specialize (Hn3 ltac:(lia) Hcl2).
      discriminate Hn3; [by eexists _, _; split; [reflexivity|]; eexists|]. unfold adoptable in *.
      rewrite (proj1 He2) by done. by rewrite (proj1 He1) by done. }
  apply post_handle. eapply post_impl; [apply acquire_lock_spec|]. intros t4 r4 n4 [-> Hn4].
  destruct r4 as [[]|e]; cbn beta iota.
  2:{ apply post_raise, Herr; [done|]. intros Hn _. destruct (Hok3 eq_refl) as [c3 Hp3].
      destruct (Hn4 ltac:(lia) (ex_intro _ _ (conj Hp3 (conj eq_refl eq_refl)))) as [?|[? _]]; done. }
  eapply post_impl; [apply (Hk t3 (n1 + (n2 + (n3 + n4)))%nat)|].
  - split_and!; [done| |].
    + intros q e Hq%strictly_below_cons. destruct (decide (q = workspaces_dir root)) as [->|Hne].
      * rewrite (proj1 He3), Hp2 by done. by intros [= <-].
      * intros Hq'. apply (Hcl2 q); [by apply strictly_below_cons|]. rewrite <- (proj1 He3); [done|].
        intros ->. apply suffix_length in Hq. cbn in Hq. lia.
    + eexists. rewrite (proj1 He3), Hp2 by done. done.
  - intros t5 r5 n5 H. cbn beta in H |- *. by rewrite <- !Nat.add_assoc in H.
Qed.

Abbreviation ws := (workspace_root root name).
Definition skeleton_names : list (list N) := [$"checkout"; $"runtime"; $"logs"].
Definition skeleton_paths : list Path := ws :: List.map (fun n => n :: ws) (skeleton_names ++ [$".lock"]).

(** The end of a reservation that began in the tree [t]. *)
Definition reservation_end t t' (r : result ReservationError WorkspaceReservation) (n : nat) : Prop :=
  (forall q, q ∉ shared_paths -> ~ ws `suffix_of` q -> t' !! q = t !! q)
  /\ match r with
     | Ok res =>
         t !! ws = None /\ res = mkReservation ws skeleton_paths
         /\ Forall (private user Kind_Directory PrivateDirectory t')
              [ws; checkout_dir root name; runtime_dir root name; logs_dir root name]
         /\ private user Kind_File PrivateFile t' (lock_file root name)
         /\ forall q, strictly_below ws q -> q ∉ skeleton_paths -> t' !! q = None
     | Err e =>
         (t !! ws <> None \/ (n <= 1)%nat -> forall q, ws `suffix_of` q -> t' !! q = t !! q)
         /\ (n = 0%nat -> usable t -> t !! ws <> None)
     end.

Lemma reserve_workspace_spec t :
  no_orphans t ws ->
  post (reserve_workspace user umask no_bytes root name) t (reservation_end t).
Proof.
  intros Horphan. unfold reserve_workspace. apply open_namespace_spec.
  { intros t' e n Hq Hu. split; [intros q Hq' _; by apply Hq|]. split; [|intros H0 H1; by destruct (Hu H0)].
    intros _ q Hs. apply Hq. intros Hin. by apply (shared_not_below q). }
  intros t1 n1 (Hq1 & Hclear & Hparent).
  assert (Hws : forall q, ws `suffix_of` q -> t1 !! q = t !! q).
  { intros q Hs. apply Hq1. intros Hin. by apply (shared_not_below q). }
  assert (Hkeep : forall t' e n, t' = t1 -> (n = 0%nat -> t !! ws <> None) -> reservation_end t t' (Err e) n).
  { intros t' e n -> Hn. split; [intros q Hq' _; by apply Hq1|]. split; [|by intros H0 _; apply Hn]. intros _. apply Hws. }
  apply post_handle. eapply post_impl; [apply inspect_spec|].
  intros t2 r2 n2 (-> & Hr2 & Hz2). destruct r2 as [found|e]; cbn beta iota.
  2:{ apply post_raise, Hkeep; [done|]. intros Hn Hnone. rewrite (proj2 (inspect_missing user t1 ws Managed_Directory)) in Hr2;
      [by specialize (Hr2 ltac:(lia))|]. by rewrite Hws. }
  specialize (Hz2 eq_refl). subst n2. specialize (Hr2 eq_refl). symmetry in Hr2. destruct found.
  2:{ apply inspect_valid in Hr2 as (e & He & _). rewrite Hws in He by done.
      apply post_raise, Hkeep; [done|]. intros _. by rewrite He. }
  apply inspect_missing in Hr2. rewrite Hws in Hr2 by done.
  apply post_handle. eapply post_impl; [apply create_spec|]. intros t3 [[]|e] n3; cbn beta iota.
  2:{ intros (-> & Hcr & _). apply post_raise, Hkeep; [done|]. intros Hn _.
      rewrite (creatable_Ok t1 ws) in Hcr; [by specialize (Hcr ltac:(lia))|by rewrite Hws|done]. }
  intros (-> & Hf & ->).
  set (e0 := mkEntry Kind_Directory user (N.ldiff 511 umask) no_bytes).
  assert (Hbelow : forall q, strictly_below ws q -> t1 !! q = None).
  { intros q Hq. rewrite Hws by apply Hq. by apply Horphan. }
  assert (Hclear' : clear_path (<[ws := e0]> t1) ws).
  { intros q e Hq. rewrite lookup_insert_ne; [by apply Hclear|]. intros <-. by destruct Hq. }
  apply post_handle. eapply post_impl; [apply ensure_private_directory_spec|].
  intros t4 r4 n4 ([Hq4 He4] & Hok4 & Hn4). rewrite lookup_insert_eq in He4. destruct He4 as [mode He4].
  assert (Hb4 : building user t1 ws t4 []).
  { split_and!.
    - intros q Hq. assert (q <> ws) by (intros ->; by apply Hq, list_elem_of_here). rewrite Hq4 by done.
      by apply lookup_insert_ne.
    - apply Forall_singleton. rewrite He4. by right.
    - by eexists. }
  assert (Hout : forall t', (forall q, q ∉ skeleton_paths -> t' !! q = t1 !! q) ->
    forall q, q ∉ shared_paths -> ~ ws `suffix_of` q -> t' !! q = t !! q).
  { intros t' Hq q Hs Hw. rewrite Hq; [by apply Hq1|]. intros [->|(c & -> & _)%list_elem_of_fmap]%elem_of_cons; [done|].
    apply Hw. by apply suffix_cons_r. }
  assert (Hend : forall t' e n, (forall q, q ∉ skeleton_paths -> t' !! q = t1 !! q) -> (1 <= n)%nat ->
    ((n <= 1)%nat -> forall q, ws `suffix_of` q -> t' !! q = None) -> reservation_end t t' (Err e) n).
  { intros t' e n Hq Hn Hnone. split; [by apply Hout|]. split; [|lia]. intros [?|Hn1]; [done|]. intros q Hs.
    rewrite (Hnone Hn1 q Hs). destruct (decide (q = ws)) as [->|Hne]; [done|]. symmetry. by apply Horphan. }
  destruct r4 as [[]|e]; cbn beta iota.
  - eapply post_impl; [apply (create_skeleton_spec user umask no_bytes t1 ws Hf Hbelow Hclear ($".lock") skeleton_names [])|].
    + apply (bool_decide_unpack _). vm_compute. exact I.
    + exact Hb4.
    + apply Forall_singleton, Hok4. done.
    + intros t5 [res|e] n5 (Hq5 & H5); cbn beta iota in *.
      * destruct H5 as (-> & Hdirs & Hlock). split; [by apply Hout|]. split_and!; [done..|].
        intros q Hq Hnin. rewrite Hq5 by done. by apply Hbelow.
      * destruct H5 as [H5 Hnone]. apply Hend; [done|lia|]. intros Hn. apply Hnone. lia.
  - eapply post_impl; [exact (drop_with_spec user t1 ws Hf Hbelow Hclear t4 [] (Reservation_Storage e) Hb4)|].
    intros t5 r5 n5 (-> & Hq5 & Hnone).
    assert (1 <= n4)%nat.
    { destruct n4; [|lia]. specialize (Hn4 eq_refl Hclear'). discriminate Hn4.
      - destruct Hparent as (x & Hx & Hk). exists x. split; [|done]. rewrite lookup_insert_ne; [done|].
        apply child_ne.
      - unfold adoptable. by rewrite lookup_insert_eq. }
    apply Hend; [|lia|intros Hn; apply Hnone; lia].
    intros q Hq. apply Hq5. intros Hin. apply Hq. cbn [List.map] in Hin. apply list_elem_of_singleton in Hin as ->.
    apply list_elem_of_here.
Qed.

(** C15: a reservation takes a free name whole, or not at all.  It touches the root, the collection,
    the lock of the name space and the workspace it reserves, nothing else.  It succeeds only for a
    name without a workspace, and then the skeleton is private to the user and empty; a workspace
    that exists is never changed.  An error with at most one failed system call leaves nothing of the
    workspace behind, the rollback included; and in a usable root an error without a failed call
    means that the name was taken. *)
Theorem reservation_all_or_nothing (d : Disk B) :
  no_orphans (tree d) ws ->
  let '(d', _, r) := reserve_workspace user umask no_bytes root name d in
  reservation_end (tree d) (tree d') r (fault_count d d').
Proof.
  intros H. assert (Hp := reserve_workspace_spec (tree d) H d eq_refl).
  destruct (reserve_workspace user umask no_bytes root name d) as [[d' l] r]. apply Hp.
Qed.
End reservation.

(** ** An example *)

Definition sample_root : Path := [$"cdenv"; $"home"].
Definition sample_os : OsScript Document :=
  mkOsScript (Ok tt) (Ok (Some (mkEntry Kind_Directory 1000 448 (Doc_Other None)))) false
    [Attempt_Open [1; 2; 3] false] (fun _ => false) (Doc_Other None) false.

(** A home directory, where the calls that [fails] selects fail. *)
Definition sample_disk (fails : nat -> bool) : Disk Document :=
  mkDisk (<[[] := mkEntry Kind_Directory 0 493 (Doc_Other None)]>
            {[ [$"home"] := mkEntry Kind_Directory 1000 493 (Doc_Other None) ]})
    (fun n => mkOsStep (fails n) (fun _ => true) (fun _ => None) (fun _ => false) sample_os) 0.

Lemma sample_disk_below fails (p q : Path) : (2 <= length p)%nat -> p `suffix_of` q -> tree (sample_disk fails) !! q = None.
Proof.
  intros Hp Hs%suffix_length. cbn [sample_disk tree]. rewrite lookup_insert_ne, lookup_singleton_ne; [done|..];
    intros <-; cbn in Hs; lia.
Qed.

Lemma reservation_all_or_nothing_witness :
  let '(d', _, r) := reserve_workspace 1000 18 (Doc_Other None) sample_root (mkWorkspaceName ($"demo"))
                       (sample_disk (fun _ => false)) in
  is_ok r = true /\ reservation_end 1000 sample_root (mkWorkspaceName ($"demo"))
    (tree (sample_disk (fun _ => false))) (tree d') r (fault_count (sample_disk (fun _ => false)) d').
Proof.
  assert (Hn : name_ok (name_str (mkWorkspaceName ($"demo")))) by (apply validate_workspace_name_ok; reflexivity).
  assert (H := reservation_all_or_nothing 1000 18 (Doc_Other None) sample_root (mkWorkspaceName ($"demo")) Hn
    (sample_disk (fun _ => false))).
  assert (Hok : is_ok (snd (reserve_workspace 1000 18 (Doc_Other None) sample_root (mkWorkspaceName ($"demo"))
                       (sample_disk (fun _ => false)))) = true) by (vm_compute; reflexivity).
  destruct (reserve_workspace _ _ _ _ _ _) as [[d' l] r]. split; [exact Hok|]. apply H.
  intros _ q [_ Hq]. revert Hq. apply sample_disk_below. cbn. lia.
Defined.

(** A call that fails while the skeleton is made: the error is returned and the name is free again. *)
Example failed_reservation_leaves_nothing :
  let '(d', _, r) := reserve_workspace 1000 18 (Doc_Other None) sample_root (mkWorkspaceName ($"demo"))
                       (sample_disk (Nat.eqb 38)) in
  r = Err (Reservation_Storage (Storage_ManagedPath Managed_Inspect))
  /\ tree d' !! workspace_root sample_root (mkWorkspaceName ($"demo")) = None.
Proof. vm_compute. by split. Qed.
