(* ===== verification/Enumeration.v ===== *)
(** * Enumeration: the listing of workspaces and the state files of the tree
    ([cdenv-cli/src/workspace_registry.rs], with the loading of [cdenv-cli/src/state.rs])

    The texts of the statuses are the errors they render. *)

From S2P Require Import Prelude Text Order Effects Utf8 Identity Workspace Status Storage WorkspaceState.
From S2P Require Import Transaction FileTree Registry.

(** ** Data *)

(** @src cdenv-cli/src/workspace_registry.rs:19-26 PersistedOperationStatus *)
Inductive PersistedOperationStatus : Type :=
| Persisted_Idle
| Persisted_Active (operation : ForegroundOperation)
| Persisted_Interrupted (operation : ForegroundOperation).

(** What the text of an unsafe entry says. *)
Inductive UnsafeReason : Type :=
| Unsafe_Link
| Unsafe_Disappeared
| Unsafe_Path (error : ManagedPathError)
| Unsafe_State (error : WorkspaceStateError)
| Unsafe_Lock (error : LockError).

(** What the text of a corrupt entry says. *)
Inductive CorruptReason : Type := Corrupt_State | Corrupt_NameMismatch (found : WorkspaceName).

(** @src cdenv-cli/src/workspace_registry.rs:228-262 WorkspaceEntryStatus *)
Inductive WorkspaceEntryStatus : Type :=
| Entry_Valid (loaded : LoadedWorkspaceState) (operation : PersistedOperationStatus)
| Entry_InvalidName
| Entry_MissingState
| Entry_Corrupt (reason : CorruptReason)
| Entry_NewerSchema (found supported : N)
| Entry_UnsupportedOlderSchema (found : N)
| Entry_Unsafe (reason : UnsafeReason).

(** @src cdenv-cli/src/workspace_registry.rs:266-269 EnumeratedWorkspace *)
Record EnumeratedWorkspace : Type := mkEnumerated { en_name : str; en_status : WorkspaceEntryStatus }.

(** @src cdenv-cli/src/workspace_registry.rs:288-307 EnumerationError *)
Inductive EnumerationError : Type :=
| Enumeration_ManagedPath (error : ManagedPathError)
| Enumeration_ReadDirectory
| Enumeration_NonUtf8Entry (path : Path).

(** @src cdenv-cli/src/workspace_registry.rs:431-440 SupervisorRuntimeInspection *)
Record SupervisorRuntimeInspection : Type := mkRuntimeInspection {
  ri_directory : ManagedPathState;
  ri_socket : ManagedPathState;
  ri_state_file : ManagedPathState;
  ri_lifetime_lock : ManagedPathState;
}.

Definition by_name (a b : EnumeratedWorkspace) : Prop := str_le (en_name a) (en_name b).
#[export] Instance by_name_dec a b : Decision (by_name a b) := str_le_dec _ _.
#[export] Instance by_name_trans : Transitive by_name.
Proof. intros a b c. apply str_le_trans. Qed.
#[export] Instance by_name_total : Total by_name.
Proof. intros a b. apply str_le_total. Qed.

Section enumeration.
Context {B : Type} `{!StateSerde B} (user : N).

(** @src cdenv-cli/src/state.rs:1091-1105 load_workspace_state *)
Definition load_state (p : Path) : disk_io B WorkspaceStateError LoadedWorkspaceState :=
  do? found := inspect user p Managed_File or State_ManagedPath in
  match found with
  | Path_Missing => raise State_Missing
  | Path_Valid =>
      do? bytes := read_file p or (fun _ => State_Read) in
      match decode_workspace_state bytes with Ok loaded => done loaded | Err e => raise e end
  end.

(** @src cdenv-cli/src/workspace_registry.rs:36-56 classify_persisted_operation *)
Definition classify_persisted_operation (operation : ForegroundOperation) (lock_path : Path) :
    disk_io B LockError PersistedOperationStatus :=
  if bool_decide (operation = Op_Idle) then
    do? found := inspect user lock_path Managed_File or Lock_ManagedPath in
    match found with Path_Valid => done Persisted_Idle | Path_Missing => raise Lock_Missing end
  else
    do? _ := acquire_lock user lock_path Lock_Exclusive Lock_FailFast
      else (fun e => match e with
                     | Lock_Contended => done (Persisted_Active operation)
                     | _ => raise e
                     end) in
    done (Persisted_Interrupted operation).

(** It has no error of its own.
    @src cdenv-cli/src/workspace_registry.rs:383-427 enumerate_one *)
Definition enumerate_one (root : Path) (expected_name : WorkspaceName) : disk_io B Empty_set WorkspaceEntryStatus :=
  do? loaded := load_state (state_path root expected_name)
    else (fun e => done match e with
                        | State_Missing => Entry_MissingState
                        | State_NewerSchema found supported => Entry_NewerSchema found supported
                        | State_UnsupportedOlderSchema found => Entry_UnsupportedOlderSchema found
                        | State_Corrupt => Entry_Corrupt Corrupt_State
                        | _ => Entry_Unsafe (Unsafe_State e)
                        end) in
  if negb (bool_decide (ws_name (loaded_state loaded) = expected_name))
  then done (Entry_Corrupt (Corrupt_NameMismatch (ws_name (loaded_state loaded)))) else
  do? operation := classify_persisted_operation (op_kind (ws_operation (loaded_state loaded)))
                     (lock_file root expected_name)
    else (fun e => done (Entry_Unsafe (Unsafe_Lock e))) in
  done (Entry_Valid loaded operation).

(** The status of an entry that is a directory or a link.
    @src cdenv-cli/src/workspace_registry.rs:354-377 enumerate_workspaces *)
Definition entry_status (root : Path) (kind : FileKind) (path : Path) (name : str) :
    disk_io B Empty_set WorkspaceEntryStatus :=
  if bool_decide (kind = Kind_Symlink) then done (Entry_Unsafe Unsafe_Link) else
  do? found := inspect user path Managed_Directory else (fun e => done (Entry_Unsafe (Unsafe_Path e))) in
  match found with
  | Path_Valid =>
      match WorkspaceName_parse name with
      | Ok workspace_name => enumerate_one root workspace_name
      | Err _ => done Entry_InvalidName
      end
  | Path_Missing => done (Entry_Unsafe Unsafe_Disappeared)
  end.

(** @src cdenv-cli/src/workspace_registry.rs:336-378 enumerate_workspaces *)
Fixpoint enumerate_entries (root : Path) (names : list (list N)) (workspaces : list EnumeratedWorkspace) :
    disk_io B EnumerationError (list EnumeratedWorkspace) :=
  match names with
  | [] => done workspaces
  | file_name :: rest =>
      do? _ := next_entry or (fun _ => Enumeration_ReadDirectory) in
      let path := file_name :: workspaces_dir root in
      do? entry := symlink_metadata path or (fun _ => Enumeration_ReadDirectory) in
      if negb (bool_decide (e_kind entry = Kind_Directory)) && negb (bool_decide (e_kind entry = Kind_Symlink))
      then enumerate_entries root rest workspaces
      else match from_utf8 file_name with
      | None => raise (Enumeration_NonUtf8Entry path)
      | Some name =>
          do? status := entry_status root (e_kind entry) path name
            else (fun e => match e : Empty_set with end) in
          enumerate_entries root rest (workspaces ++ [mkEnumerated name status])
      end
  end.

(** @src cdenv-cli/src/workspace_registry.rs:318-381 enumerate_workspaces *)
Definition enumerate_workspaces (root : Path) : disk_io B EnumerationError (list EnumeratedWorkspace) :=
  do? found := inspect user (workspaces_dir root) Managed_Directory or Enumeration_ManagedPath in
  match found with
  | Path_Missing => done []
  | Path_Valid =>
      do? names := read_dir (workspaces_dir root) or (fun _ => Enumeration_ReadDirectory) in
      do? workspaces := enumerate_entries root names [] else raise in
      done (merge_sort by_name workspaces)
  end.

(** @src cdenv-cli/src/workspace_registry.rs:448-473 inspect_supervisor_runtime *)
Definition inspect_supervisor_runtime (root : Path) (name : WorkspaceName) :
    disk_io B ManagedPathError SupervisorRuntimeInspection :=
  do? directory := inspect user (runtime_dir root name) Managed_Directory else raise in
  do? socket := inspect user (supervisor_socket root name) Managed_Socket else raise in
  do? file := inspect user (supervisor_state_file root name) Managed_File else raise in
  do? lock := inspect user (supervisor_lifetime_lock root name) Managed_File else raise in
  done (mkRuntimeInspection directory socket file lock).
End enumeration.

(** ** What the listing says *)

Section listing.
Context {B : Type} `{!StateSerde B} (user : N) (root : Path).
Implicit Types (t : gmap Path (Entry B)) (name : str).

(** The state file of a name, as its bytes decode. *)
Definition state_decodes t (wn : WorkspaceName) (r : result WorkspaceStateError LoadedWorkspaceState) : Prop :=
  exists e, t !! state_path root wn = Some e /\ e_kind e = Kind_File /\ e_uid e = user
            /\ decode_workspace_state (e_content e) = r.

Definition regular t (p : Path) (kind : FileKind) : Prop :=
  exists e, t !! p = Some e /\ e_kind e = kind /\ e_uid e = user.

(** What each status says of the tree. *)
Definition status_sound t name (st : WorkspaceEntryStatus) : Prop :=
  match st with
  | Entry_Valid loaded op =>
      exists wn, WorkspaceName_parse name = Ok wn /\ state_decodes t wn (Ok loaded)
        /\ ws_name (loaded_state loaded) = wn
        /\ match op with
           | Persisted_Idle => op_kind (ws_operation (loaded_state loaded)) = Op_Idle
           | Persisted_Active o | Persisted_Interrupted o =>
               op_kind (ws_operation (loaded_state loaded)) = o /\ o <> Op_Idle
           end
  | Entry_InvalidName => is_ok (WorkspaceName_parse name) = false
  | Entry_MissingState => exists wn, WorkspaceName_parse name = Ok wn /\ t !! state_path root wn = None
  | Entry_Corrupt Corrupt_State =>
      exists wn, WorkspaceName_parse name = Ok wn /\ state_decodes t wn (Err State_Corrupt)
  | Entry_Corrupt (Corrupt_NameMismatch found) =>
      exists wn loaded, WorkspaceName_parse name = Ok wn /\ state_decodes t wn (Ok loaded)
        /\ ws_name (loaded_state loaded) = found /\ found <> wn
  | Entry_NewerSchema found supported =>
      exists wn, WorkspaceName_parse name = Ok wn /\ state_decodes t wn (Err (State_NewerSchema found supported))
  | Entry_UnsupportedOlderSchema found =>
      exists wn, WorkspaceName_parse name = Ok wn /\ state_decodes t wn (Err (State_UnsupportedOlderSchema found))
  | Entry_Unsafe _ => True
  end.

(** A workspace whose directory, state file and lock file are regular objects of the user. *)
Definition in_order t name : Prop :=
  exists wn, WorkspaceName_parse name = Ok wn
    /\ regular t (workspace_root root wn) Kind_Directory
    /\ (t !! state_path root wn = None \/ regular t (state_path root wn) Kind_File)
    /\ regular t (lock_file root wn) Kind_File.

Definition is_unsafe (st : WorkspaceEntryStatus) : bool := match st with Entry_Unsafe _ => true | _ => false end.

Lemma decode_cases (bytes : B) e : decode_workspace_state bytes = Err e ->
  e = State_Corrupt \/ (exists f s, e = State_NewerSchema f s) \/ exists f, e = State_UnsupportedOlderSchema f.
Proof.
  unfold decode_workspace_state. intros H. destruct (header_from_slice bytes); cbn in H; [|injection H as <-; by left].
  repeat case_match; simplify_eq; eauto; unfold ok_or in *; repeat case_match; simplify_eq; eauto.
Qed.

Lemma regular_inspect t p managed kind :
  kind = match managed with Managed_Directory => Kind_Directory | Managed_File => Kind_File | Managed_Socket => Kind_Socket end ->
  inspect_managed_path (Ok (t !! p)) managed (Some user) = Ok Path_Valid <-> regular t p kind.
Proof. intros ->. rewrite inspect_valid. unfold regular. naive_solver. Qed.

Lemma load_state_spec wn t :
  post (load_state user (state_path root wn)) t (fun t' r n =>
    t' = t /\ match r with
              | Ok loaded => state_decodes t wn (Ok loaded)
              | Err State_Missing => t !! state_path root wn = None
              | Err (State_ManagedPath _) | Err State_Read =>
                  n = 0%nat -> ~ (t !! state_path root wn = None \/ regular t (state_path root wn) Kind_File)
              | Err e => state_decodes t wn (Err e)
              end).
Proof.
  unfold load_state. apply post_handle. eapply post_impl; [apply inspect_spec|].
  intros t0 r n (-> & Hr & Hz). destruct r as [found|e]; cbn beta iota.
  2:{ apply post_raise. split; [done|]. rewrite Nat.add_0_r. intros Hn [Hc|Hc].
      - by rewrite (proj2 (inspect_missing user t _ Managed_File) Hc) in Hr; specialize (Hr Hn).
      - by rewrite (proj2 (regular_inspect t _ Managed_File Kind_File eq_refl) Hc) in Hr; specialize (Hr Hn). }
  specialize (Hz eq_refl). subst n. specialize (Hr eq_refl). symmetry in Hr. destruct found.
  - apply inspect_missing in Hr. by apply post_raise.
  - apply inspect_valid in Hr as (e & He & Hu & Hk). unfold read_file.
    apply post_handle, post_call; intros step; cbn beta iota; [by apply post_raise|].
    rewrite He. cbn. rewrite bool_decide_eq_false_2 by congruence.
    assert (Hd : forall r, decode_workspace_state (e_content e) = r -> state_decodes t wn r) by (intros r Hr; by exists e).
    destruct (decode_workspace_state (e_content e)) as [loaded|err] eqn:E.
    + apply post_done. auto.
    + apply post_raise. split; [done|].
      destruct (decode_cases _ _ E) as [->|[(f & s & ->)|[f ->]]]; by apply Hd.
Qed.

Lemma classify_persisted_operation_spec o p t :
  post (classify_persisted_operation user o p) t (fun t' r n =>
    t' = t /\ match r with
              | Ok Persisted_Idle => o = Op_Idle
              | Ok (Persisted_Active o') | Ok (Persisted_Interrupted o') => o' = o /\ o <> Op_Idle
              | Err _ => n = 0%nat -> ~ regular t p Kind_File
              end).
Proof.
  unfold classify_persisted_operation. case_bool_decide as Ho.
  - apply post_handle. eapply post_impl; [apply inspect_spec|]. intros t0 r n (-> & Hr & Hz).
    assert (Hv : regular t p Kind_File -> n = 0%nat -> r = Ok Path_Valid).
    { intros H Hn. rewrite (Hr Hn). by apply (regular_inspect t p Managed_File Kind_File). }
    destruct r as [[]|e]; cbn beta iota.
    + apply post_raise. split; [done|]. rewrite Nat.add_0_r. intros Hn H. by specialize (Hv H Hn).
    + by apply post_done.
    + apply post_raise. split; [done|]. rewrite Nat.add_0_r. intros Hn H. by specialize (Hv H Hn).
  - apply post_handle. eapply post_impl; [apply acquire_lock_spec|]. intros t0 r n [-> Hr].
    destruct r as [[]|e]; cbn beta iota; [by apply post_done|].
    assert (He : e = Lock_Contended \/ (n = 0%nat -> ~ regular t p Kind_File)).
    { destruct e; try (right; intros Hn Hp; destruct (Hr Hn Hp) as [?|[_ ?]]; done). by left. }
    destruct He as [->|He]; [by apply post_done|].
    destruct e; try (apply post_raise; rewrite Nat.add_0_r; done). by apply post_done.
Qed.

Lemma enumerate_one_spec name wn t :
  WorkspaceName_parse name = Ok wn ->
  post (enumerate_one user root wn) t (fun t' r n =>
    t' = t /\ exists st, r = Ok st /\ status_sound t name st /\ (n = 0%nat -> in_order t name -> is_unsafe st = false)).
Proof.
  intros Hwn. unfold enumerate_one. apply post_handle. eapply post_impl; [apply load_state_spec|].
  intros t0 r n [-> Hr]. destruct r as [loaded|e]; cbn beta iota.
  2:{ apply post_done. split; [done|]. eexists. split; [reflexivity|]. rewrite Nat.add_0_r.
      assert (Hbad : (n = 0%nat -> ~ (t !! state_path root wn = None \/ regular t (state_path root wn) Kind_File)) ->
        n = 0%nat -> in_order t name -> true = false).
      { intros H Hn (wn' & Hwn' & _ & Ho & _). exfalso. assert (wn' = wn) as -> by congruence. by apply (H Hn). }
      destruct e; cbn; split; try done; eauto;
        exfalso; destruct Hr as (? & _ & _ & _ & Hd); by destruct (decode_cases _ _ Hd) as [?|[(? & ? & ?)|[? ?]]]. }
  case_bool_decide as Hn; cbn [negb].
  2:{ apply post_done. split; [done|]. eexists. split; [reflexivity|]. split; [|done]. by exists wn, loaded. }
  apply post_handle. eapply post_impl; [apply classify_persisted_operation_spec|].
  intros t1 r1 n1 [-> Hr1]. destruct r1 as [op|e]; cbn beta iota; apply post_done; (split; [done|]); eexists;
    (split; [reflexivity|]); cbn.
  - split; [|done]. exists wn. split_and!; [done..|]. destruct op; naive_solver.
  - split; [done|]. intros H0 (wn' & Hwn' & _ & _ & Ho). exfalso. assert (wn' = wn) as -> by congruence. by apply (Hr1 ltac:(lia)).
Qed.

(** An entry of the collection that is listed. *)
Definition is_listed t (file_name : list N) : bool :=
  match t !! (file_name :: workspaces_dir root) with
  | Some e => bool_decide (e_kind e = Kind_Directory) || bool_decide (e_kind e = Kind_Symlink)
  | None => false
  end.

Definition listed_name t (file_name : list N) : option str := if is_listed t file_name then from_utf8 file_name else None.

Definition entry_sound t n (w : EnumeratedWorkspace) : Prop :=
  status_sound t (en_name w) (en_status w) /\ (n = 0%nat -> in_order t (en_name w) -> is_unsafe (en_status w) = false).

Lemma entry_status_spec kind file_name name t e :
  t !! (file_name :: workspaces_dir root) = Some e -> e_kind e = kind -> from_utf8 file_name = Some name ->
  post (entry_status user root kind (file_name :: workspaces_dir root) name) t (fun t' r n =>
    t' = t /\ exists st, r = Ok st /\ entry_sound t n (mkEnumerated name st)).
Proof.
  intros He Hk Hu. unfold entry_status, entry_sound. cbn [en_name en_status].
  assert (Hpath : forall wn, WorkspaceName_parse name = Ok wn -> workspace_root root wn = file_name :: workspaces_dir root).
  { intros wn [_ ->]%WorkspaceName_parse_ok. unfold workspace_root. cbn [name_str]. f_equal. by apply from_utf8_Some. }
  assert (Hord : in_order t name -> regular t (file_name :: workspaces_dir root) Kind_Directory).
  { intros (wn & Hwn & Hd & _). by rewrite <- (Hpath wn Hwn). }
  case_bool_decide as Hl.
  { apply post_done. split; [done|]. eexists. split; [done|]. split; [done|]. intros _ (e' & He' & Hk' & _)%Hord. congruence. }
  apply post_handle. eapply post_impl; [apply inspect_spec|]. intros t0 r n (-> & Hr & Hz).
  destruct r as [found|er]; cbn beta iota.
  2:{ apply post_done. split; [done|]. eexists. split; [done|]. split; [done|]. rewrite Nat.add_0_r. intros Hn Ho%Hord.
      apply (regular_inspect t _ Managed_Directory Kind_Directory eq_refl) in Ho. specialize (Hr Hn). congruence. }
  specialize (Hz eq_refl). subst n. specialize (Hr eq_refl). symmetry in Hr. destruct found.
  { apply inspect_missing in Hr. congruence. }
  destruct (WorkspaceName_parse name) as [wn|er] eqn:Hwn.
  - eapply post_impl; [by apply (enumerate_one_spec name)|]. intros t1 r n (-> & st & -> & Hs & Hn). split; [done|]. by exists st.
  - apply post_done. split; [done|]. eexists. split; [done|]. cbn. by rewrite Hwn.
Qed.

Lemma entry_sound_mono t n m w : entry_sound t n w -> (n <= m)%nat -> entry_sound t m w.
Proof. intros [H1 H2] Hm. split; [done|]. intros H0. apply H2. lia. Qed.

Lemma enumerate_entries_spec (names : list (list N)) acc t :
  Forall (fun f => t !! (f :: workspaces_dir root) <> None) names ->
  post (enumerate_entries user root names acc) t (fun t' r n =>
    t' = t /\ match r with
              | Ok l => exists new, l = acc ++ new /\ List.map en_name new = omap (listed_name t) names
                        /\ (forall f, f ∈ names -> is_listed t f = true -> from_utf8 f <> None)
                        /\ Forall (entry_sound t n) new
              | Err e => n = 0%nat -> exists f, f ∈ names /\ is_listed t f = true /\ from_utf8 f = None
              end).
Proof.
  revert acc. induction names as [|f names IH]; intros acc Hall; cbn [enumerate_entries].
  { apply post_done. split; [done|]. exists []. rewrite app_nil_r. split_and!; try done. by intros f ?%elem_of_nil. }
  apply Forall_cons in Hall as [Hf Hall]. destruct (t !! (f :: workspaces_dir root)) as [e|] eqn:He; [|done].
  unfold next_entry, symlink_metadata.
  apply post_handle, post_call; intros step; cbn beta iota; [by apply post_raise|].
  apply post_handle, post_call; intros step2; cbn beta iota; [by apply post_raise|]. rewrite He. cbn [ok_or].
  assert (Hlist : is_listed t f = bool_decide (e_kind e = Kind_Directory) || bool_decide (e_kind e = Kind_Symlink))
    by (unfold is_listed; by rewrite He).
  destruct (negb _ && negb _) eqn:Hskip.
  - assert (Hno : is_listed t f = false) by (rewrite Hlist; by apply negb_true_iff; rewrite negb_orb).
    eapply post_impl; [by apply IH|]. intros t1 r n [-> Hr]. split; [done|]. destruct r as [l|er].
    + destruct Hr as (new & -> & Hn & Hu & Hs). exists new. cbn. unfold listed_name at 1. rewrite Hno. split_and!; try done.
      intros f' [->|?]%elem_of_cons; [congruence|by apply Hu].
    + intros Hn. destruct (Hr Hn) as (f' & Hf' & ?). exists f'. by split; [apply list_elem_of_further|].
  - assert (Hyes : is_listed t f = true).
    { rewrite Hlist. apply negb_false_iff. by rewrite negb_orb. }
    destruct (from_utf8 f) as [name|] eqn:Hu.
    2:{ apply post_raise. split; [done|]. intros _. exists f. by split; [apply list_elem_of_here|]. }
    apply post_handle. eapply post_impl; [by eapply entry_status_spec|]. intros t1 r n (-> & st & -> & Hs). cbn beta iota.
    eapply post_impl; [by apply IH|]. intros t2 r2 n2 [-> Hr]. split; [done|]. destruct r2 as [l|er].
    + destruct Hr as (new & -> & Hn & Hut & Hsn). exists (mkEnumerated name st :: new).
      cbn. unfold listed_name at 1. rewrite Hyes, Hu. split_and!.
      * by rewrite <- app_assoc.
      * by rewrite Hn.
      * intros f' [->|?]%elem_of_cons; [congruence|by apply Hut].
      * apply Forall_cons. split; [eapply entry_sound_mono; [exact Hs|lia]|]. eapply Forall_impl; [exact Hsn|].
        intros w Hw. eapply entry_sound_mono; [exact Hw|lia].
    + intros Hn. destruct (Hr ltac:(lia)) as (f' & Hf' & ?). exists f'. by split; [apply list_elem_of_further|].
Qed.

Lemma child_names_spec t dir f :
  f ∈ omap (child_name dir) (map_to_list t).*1 <-> t !! (f :: dir) <> None.
Proof.
  rewrite list_elem_of_omap. split.
  - intros (q & Hq & Hc). apply list_elem_of_fmap in Hq as ([q' e] & -> & Hq%elem_of_map_to_list). cbn in Hc.
    destruct q' as [|n parent]; [done|]. cbn in Hc. case_bool_decide; [|done]. simplify_eq. by rewrite Hq.
  - intros H. destruct (t !! (f :: dir)) as [e|] eqn:E; [|done]. exists (f :: dir). split.
    + apply list_elem_of_fmap. exists (f :: dir, e). split; [done|]. by apply elem_of_map_to_list.
    + cbn. by rewrite bool_decide_eq_true_2.
Qed.

(** The collection and its directories and links, with the names that are text. *)
Definition listing t : list str :=
  if bool_decide (t !! workspaces_dir root = None) then []
  else omap (listed_name t) (omap (child_name (workspaces_dir root)) (map_to_list t).*1).

Lemma enumerate_workspaces_spec t :
  post (enumerate_workspaces user root) t (fun t' r n =>
    t' = t /\ match r with
              | Ok l => StronglySorted by_name l /\ List.map en_name l ≡ₚ listing t /\ Forall (entry_sound t n) l
              | Err e => n = 0%nat -> ~ regular t (workspaces_dir root) Kind_Directory
                         \/ exists f, is_listed t f = true /\ from_utf8 f = None
              end).
Proof.
  unfold enumerate_workspaces. apply post_handle. eapply post_impl; [apply inspect_spec|].
  intros t0 r n (-> & Hr & Hz). destruct r as [found|e]; cbn beta iota.
  2:{ apply post_raise. split; [done|]. rewrite Nat.add_0_r. intros Hn. left. intros Hreg.
      apply (regular_inspect t _ Managed_Directory Kind_Directory eq_refl) in Hreg. specialize (Hr Hn). congruence. }
  specialize (Hz eq_refl). subst n. specialize (Hr eq_refl). symmetry in Hr. destruct found.
  { apply inspect_missing in Hr. apply post_done. split; [done|]. unfold listing. rewrite bool_decide_eq_true_2 by done.
    split_and!; constructor. }
  apply inspect_valid in Hr as (e & He & _). unfold read_dir.
  apply post_handle, post_call; intros step; cbn beta iota; [by apply post_raise|].
  apply post_handle. eapply post_impl; [apply enumerate_entries_spec|].
  { apply Forall_forall. intros f Hf. by apply child_names_spec in Hf. }
  intros t1 r n [-> Hres]. destruct r as [l|er]; cbn beta iota.
  - apply post_done. split; [done|]. destruct Hres as (new & -> & Hn & _ & Hs). cbn [app].
    assert (Hp := merge_sort_Permutation by_name new). split_and!.
    + apply (StronglySorted_merge_sort by_name).
    + rewrite Hp. unfold listing. rewrite bool_decide_eq_false_2 by congruence. by rewrite Hn.
    + rewrite Hp. eapply Forall_impl; [exact Hs|]. intros w Hw. eapply entry_sound_mono; [exact Hw|lia].
  - apply post_raise. split; [done|]. cbn [Nat.add]. rewrite Nat.add_0_r. intros Hn.
    right. destruct (Hres Hn) as (f & _ & ?). by exists f.
Qed.

(** the listing of workspaces reads and never writes, and hides nothing.  The tree is unchanged
    whatever fails.  The entries of a listing are in the order of their names and are exactly the
    directories and links of the collection; a status says what it says of the state file (a valid
    entry decodes, carries the name of its directory, and its operation is the persisted one), and
    without failed calls a workspace whose objects are regular files of the user is never reported
    unsafe.  Without failed calls the listing itself fails only for a collection that is not a
    directory of the user or for a name that is not text. *)
Theorem enumeration_reads_only (d : Disk B) :
  let '(d', _, r) := enumerate_workspaces user root d in
  tree d' = tree d
  /\ match r with
     | Ok l => StronglySorted by_name l /\ List.map en_name l ≡ₚ listing (tree d)
               /\ Forall (entry_sound (tree d) (fault_count d d')) l
     | Err e => fault_count d d' = 0%nat -> ~ regular (tree d) (workspaces_dir root) Kind_Directory
                \/ exists f, is_listed (tree d) f = true /\ from_utf8 f = None
     end.
Proof.
  assert (Hp := enumerate_workspaces_spec (tree d) d eq_refl).
  destruct (enumerate_workspaces user root d) as [[d' l] r]. by destruct Hp as (_ & _ & Hp).
Qed.
End listing.

(** A valid workspace, a directory without state, a link and a file. *)
Example sample_listing :
  let file c := mkEntry Kind_File 1000 384 c in
  let dir := mkEntry Kind_Directory 1000 448 (Doc_Other None) in
  let ws := workspaces_dir sample_root in
  let name := ws_name sample_state in
  let d := mkDisk (<[ws := dir]> (<[workspace_root sample_root name := dir]>
             (<[state_path sample_root name := file (Doc_State sample_state)]>
             (<[lock_file sample_root name := file (Doc_Other None)]>
             (<[($"a-new" : list N) :: ws := dir]> (<[($"zlink" : list N) :: ws := mkEntry Kind_Symlink 0 511 (Doc_Other None)]>
             {[ ($"note.txt" : list N) :: ws := file (Doc_Other None) ]}))))))
             (script (sample_disk (fun _ => false))) 0 in
  let '(_, _, r) := enumerate_workspaces 1000 sample_root d in
  exists operation,
  r = Ok [mkEnumerated ($"a-new") Entry_MissingState;
          mkEnumerated (name_str name) (Entry_Valid (mkLoaded sample_state Migration_Current) operation);
          mkEnumerated ($"zlink") (Entry_Unsafe Unsafe_Link)].
Proof. vm_compute. eexists. reflexivity. Qed.

(** ** Writing a state file *)

Section writing.
Context {B : Type} `{!StateSerde B} (user umask : N) (no_bytes : B).
Implicit Types (t : gmap Path (Entry B)).

(** @src cdenv-cli/src/state.rs:1165-1180 persist_workspace_state *)
Definition persist_state (dir : Path) (state : WorkspaceState) : disk_io B WorkspaceStateError unit :=
  if negb (ws_schema_version state =? WORKSPACE_STATE_SCHEMA_VERSION)
  then raise (State_InvalidInMemorySchema (ws_schema_version state) WORKSPACE_STATE_SCHEMA_VERSION)
  else match to_vec_pretty state with
  | None => raise State_Serialize
  | Some bytes =>
      do? _ := write_managed user umask no_bytes dir state_file (push_newline bytes) PrivateFile or State_Storage in
      done tt
  end.

(** The file as a write leaves it. *)
Definition written (state : WorkspaceState) (e : Entry B) : Prop :=
  exists bytes, to_vec_pretty state = Some bytes /\ ws_schema_version state = WORKSPACE_STATE_SCHEMA_VERSION
    /\ e = replaced user PrivateFile (push_newline bytes).

Lemma persist_state_spec dir state t :
  post (persist_state dir state) t (fun t' r n =>
    match r with
    | Ok _ => exists e, written state e /\ t' = <[state_file :: dir := e]> t
    | Err _ => t' = t \/ (exists e, written state e /\ t' = <[state_file :: dir := e]> t)
               \/ exists random e, t !! (temporary_name state_file random :: dir) = None
                                   /\ t' = <[temporary_name state_file random :: dir := e]> t
    end).
Proof.
  unfold persist_state.
  destruct (N.eqb_spec (ws_schema_version state) WORKSPACE_STATE_SCHEMA_VERSION) as [Hv|]; cbn [negb];
    [|apply post_raise; by left].
  destruct (to_vec_pretty state) as [bytes|] eqn:Hb; [|apply post_raise; by left].
  assert (He : written state (replaced user PrivateFile (push_newline bytes))) by (by exists bytes).
  apply post_handle. eapply post_impl; [apply write_managed_spec|]. intros t' [[]|e] n Hr; cbn beta iota zeta in *.
  - apply post_done. by eexists.
  - apply post_raise. destruct Hr as [?|[?|?]]; [by left|right; left; by eexists|by right; right].
Qed.
End writing.
