(* ===== verification/Installation.v ===== *)
(** * Installation: the identity of a root and its fingerprint key
    ([cdenv-cli/src/installation.rs])

    The files of the tree hold bytes here.  SHA-256, HMAC-SHA-256 and the JSON codec of the record are
    parameters; the random bytes are arguments. *)

From S2P Require Import Prelude Text Effects Utf8 Identity Workspace Status Storage WorkspaceState.
From S2P Require Import Transaction FileTree.

(** ** Data *)

(** @src cdenv-cli/src/installation.rs:20-20 INSTALLATION_SCHEMA_VERSION *)
Definition INSTALLATION_SCHEMA_VERSION : N := 1.
(** @src cdenv-cli/src/installation.rs:21-21 FINGERPRINT_KEY_LENGTH *)
Definition FINGERPRINT_KEY_LENGTH : N := 32.

(** @src cdenv-cli/src/installation.rs:26-34 SshIncludeConsent *)
Inductive SshIncludeConsent : Type := Consent_Unknown | Consent_Accepted | Consent_Declined.

(** @src cdenv-cli/src/installation.rs:39-44 InstallationRecord *)
Record InstallationRecord : Type := mkInstallationRecord {
  ir_schema_version : N;
  ir_installation_id : InstallationId;
  ir_ssh_include_consent : SshIncludeConsent;
  ir_fingerprint_key_id : str;
}.

(** @src cdenv-cli/src/installation.rs:68-73 FingerprintKeyUnknownReason *)
Inductive FingerprintKeyUnknownReason : Type := Key_Missing | Key_Replaced.

(** A key is its bytes. @src cdenv-cli/src/installation.rs:76-81 FingerprintKeyState *)
Inductive FingerprintKeyState : Type :=
| Key_Available (key : list N)
| Key_Unknown (reason : FingerprintKeyUnknownReason).

(** @src cdenv-cli/src/installation.rs:242-245 Installation *)
Record Installation : Type := mkInstallation { in_record : InstallationRecord; in_key : FingerprintKeyState }.

(** @src cdenv-cli/src/installation.rs:385-446 InstallationError *)
Inductive InstallationError : Type :=
| Installation_Storage (error : StorageError)
| Installation_ManagedPath (error : ManagedPathError)
| Installation_Read
| Installation_Parse
| Installation_Serialize
| Installation_MissingRecord
| Installation_UnsupportedSchema (found supported : N)
| Installation_Random
| Installation_GeneratedIdentity (error : IdentityTokenError).

(** @src cdenv-cli/src/installation.rs:161-172 PlanFingerprintCategory *)
Inductive PlanFingerprintCategory : Type :=
| Plan_Uncategorized | Plan_Build | Plan_Create | Plan_Runtime | Plan_Lifecycle.

(** The derived [Serialize] and [Deserialize] of the record. *)
Class RecordSerde : Type := {
  record_to_vec_pretty : InstallationRecord -> option (list N);
  record_from_slice : list N -> option InstallationRecord;
}.
Class RecordSerdeLaws `{!RecordSerde} : Prop :=
  record_roundtrip r bytes : record_to_vec_pretty r = Some bytes -> record_from_slice (bytes ++ [10]) = Some r.

(** ** Keyed digests *)

(** @src cdenv-cli/src/installation.rs:175-183 PlanFingerprintCategory::domain *)
Definition category_domain (category : PlanFingerprintCategory) : list N :=
  match category with
  | Plan_Uncategorized => $"uncategorized" ++ [0]
  | Plan_Build => $"build" ++ [0]
  | Plan_Create => $"create" ++ [0]
  | Plan_Runtime => $"runtime" ++ [0]
  | Plan_Lifecycle => $"lifecycle" ++ [0]
  end.

(** [u64::to_be_bytes] *)
Fixpoint be_bytes (width : nat) (n : N) : list N :=
  match width with O => [] | S width' => be_bytes width' (n / 256) ++ [n mod 256] end.

(** What is authenticated: the domain, the category, and the inputs behind their lengths.
    @src cdenv-cli/src/installation.rs:129-134 FingerprintKey::digest_plan *)
Definition plan_message (category : PlanFingerprintCategory) (inputs : list (list N)) : list N :=
  $"cdenv-plan-fingerprint-v1" ++ [0] ++ category_domain category
  ++ concat (List.map (fun input => be_bytes 8 (lenN input) ++ input) inputs).

Section installation.
Context (sha256 : list N -> list N) (hmac_sha256 : list N -> list N -> list N) `{!RecordSerde}.
Context (user umask : N).

Abbreviation Disk := (Disk (list N)).
Abbreviation installing := (disk_io (list N) InstallationError).

(** @src cdenv-cli/src/installation.rs:120-139 FingerprintKey::digest_plan *)
Definition digest_plan (key : list N) (category : PlanFingerprintCategory) (inputs : list (list N)) : KeyedDigest :=
  mkKeyedDigest ($"keyed:" ++ hex_encode (hmac_sha256 key (plan_message category inputs))).

(** @src cdenv-cli/src/installation.rs:110-112 FingerprintKey::digest *)
Definition digest (key canonical_plan : list N) : KeyedDigest := digest_plan key Plan_Uncategorized [canonical_plan].

(** @src cdenv-cli/src/installation.rs:483-485 key_id *)
Definition key_id (bytes : list N) : str := $"sha256:" ++ hex_encode (sha256 bytes).

(** ** Files *)

Definition installation_name : str := $"installation.json".
Definition key_name : str := $"fingerprint.key".
(** @src cdenv-cli/src/paths.rs:167-169 CdenvRoot::installation_file *)
Definition installation_file (root : Path) : Path := installation_name :: root.
(** @src cdenv-cli/src/paths.rs:173-175 CdenvRoot::fingerprint_key *)
Definition fingerprint_key (root : Path) : Path := key_name :: root.

(** @src cdenv-cli/src/installation.rs:456-468 read_managed_file *)
Definition read_managed_file (p : Path) : installing (option (list N)) :=
  do? found := inspect user p Managed_File or Installation_ManagedPath in
  match found with
  | Path_Missing => done None
  | Path_Valid => do? bytes := read_file p or (fun _ => Installation_Read) in done (Some bytes)
  end.

(** @src cdenv-cli/src/installation.rs:448-454 write_record *)
Definition write_record (root : Path) (record : InstallationRecord) : installing unit :=
  match record_to_vec_pretty record with
  | None => raise Installation_Serialize
  | Some bytes =>
      do? _ := write_managed user umask [] root installation_name (bytes ++ [10]) PrivateFile
        or Installation_Storage in done tt
  end.

(** The record of a root, which must be of the schema of this build.
    @src cdenv-cli/src/installation.rs:256-275 Installation::load_record_read_only *)
Definition load_record_read_only (root : Path) : installing InstallationRecord :=
  do? bytes := read_managed_file (installation_file root) else raise in
  match bytes with
  | None => raise Installation_MissingRecord
  | Some bytes =>
      match record_from_slice bytes with
      | None => raise Installation_Parse
      | Some record =>
          if negb (ir_schema_version record =? INSTALLATION_SCHEMA_VERSION)
          then raise (Installation_UnsupportedSchema (ir_schema_version record) INSTALLATION_SCHEMA_VERSION)
          else done record
      end
  end.

(** @src cdenv-cli/src/installation.rs:364-372 Installation::load *)
Definition checked_key (record : InstallationRecord) (bytes : list N) : FingerprintKeyState :=
  if negb (lenN bytes =? FINGERPRINT_KEY_LENGTH) || negb (str_eqb (key_id bytes) (ir_fingerprint_key_id record))
  then Key_Unknown Key_Replaced else Key_Available bytes.

(** The first lines are those of [load_record_read_only].
    @src cdenv-cli/src/installation.rs:342-379 Installation::load *)
Definition load_installation (root : Path) : installing Installation :=
  do? record := load_record_read_only root else raise in
  do? _ := tighten_managed_file user (installation_file root) PrivateFile or Installation_Storage in
  do? key := read_managed_file (fingerprint_key root) else raise in
  match key with
  | None => done (mkInstallation record (Key_Unknown Key_Missing))
  | Some bytes =>
      do? _ := tighten_managed_file user (fingerprint_key root) PrivateFile or Installation_Storage in
      done (mkInstallation record (checked_key record bytes))
  end.

(** [getrandom::fill] gives the bytes or fails.
    @src cdenv-cli/src/installation.rs:326-333 Installation::create *)
Definition new_record (key_bytes id_bytes : option (list N)) : result InstallationError (list N * InstallationRecord) :=
  let? key := ok_or Installation_Random key_bytes in
  let? id := ok_or Installation_Random id_bytes in
  let? installation_id := map_err Installation_GeneratedIdentity (token_parse mkInstallationId (hex_encode id)) in
  Ok (key, mkInstallationRecord INSTALLATION_SCHEMA_VERSION installation_id Consent_Unknown (key_id key)).

(** @src cdenv-cli/src/installation.rs:326-340 Installation::create *)
Definition create_installation (root : Path) (key_bytes id_bytes : option (list N)) : installing Installation :=
  match new_record key_bytes id_bytes with
  | Err e => raise e
  | Ok (key, record) =>
      do? _ := write_managed user umask [] root key_name key PrivateFile or Installation_Storage in
      do? _ := write_record root record else raise in
      done (mkInstallation record (Key_Available key))
  end.

(** @src cdenv-cli/src/installation.rs:287-294 Installation::open_or_create *)
Definition open_or_create (root : Path) (key_bytes id_bytes : option (list N)) : installing Installation :=
  do? _ := ensure_private_directory user umask [] root or Installation_Storage in
  do? found := inspect user (installation_file root) Managed_File or Installation_ManagedPath in
  match found with
  | Path_Missing => create_installation root key_bytes id_bytes
  | Path_Valid => load_installation root
  end.

(** The record in memory changes only when the write succeeded.
    @src cdenv-cli/src/installation.rs:314-324 Installation::set_ssh_include_consent *)
Definition set_ssh_include_consent (root : Path) (installation : Installation) (consent : SshIncludeConsent) :
    installing Installation :=
  let record := in_record installation in
  let replacement := mkInstallationRecord (ir_schema_version record) (ir_installation_id record) consent
                       (ir_fingerprint_key_id record) in
  do? _ := write_record root replacement else raise in
  done (mkInstallation replacement (in_key installation)).
End installation.

(** ** Framing *)

Lemma be_bytes_length width n : length (be_bytes width n) = width.
Proof. revert n. induction width as [|w IH]; intros n; cbn; [done|]. rewrite length_app, IH. cbn. lia. Qed.

Lemma be_bytes_inj width n m : n < 256 ^ N.of_nat width -> m < 256 ^ N.of_nat width -> be_bytes width n = be_bytes width m -> n = m.
Proof.
  revert n m. induction width as [|w IH]; intros n m Hn Hm H; cbn [be_bytes] in H; [cbn in Hn, Hm; lia|].
  apply app_inj_tail in H as [H1 H2]. rewrite Nnat.Nat2N.inj_succ, N.pow_succ_r' in Hn, Hm.
  assert (n / 256 = m / 256) by (apply IH; [apply N.Div0.div_lt_upper_bound; lia..|done]).
  rewrite (N.div_mod n 256), (N.div_mod m 256) by lia. congruence.
Qed.

Lemma category_domain_inj c c' x y : category_domain c ++ x = category_domain c' ++ y -> c = c' /\ x = y.
Proof.
  intros H. destruct c, c'; cbn in H; try discriminate H; (split; [reflexivity|]); repeat (injection H as H); done.
Qed.

Lemma framed_inputs_inj (inputs inputs' : list (list N)) :
  Forall (fun i => lenN i < 2 ^ 64) inputs -> Forall (fun i => lenN i < 2 ^ 64) inputs' ->
  concat (List.map (fun input => be_bytes 8 (lenN input) ++ input) inputs) =
  concat (List.map (fun input => be_bytes 8 (lenN input) ++ input) inputs') -> inputs = inputs'.
Proof.
  revert inputs'. induction inputs as [|i inputs IH]; intros [|i' inputs'] H H' Heq; cbn [List.map concat] in Heq.
  - done.
  - apply (f_equal length) in Heq. rewrite !length_app, be_bytes_length in Heq. cbn in Heq. lia.
  - apply (f_equal length) in Heq. rewrite !length_app, be_bytes_length in Heq. cbn in Heq. lia.
  - apply Forall_cons in H as [Hi H], H' as [Hi' H']. rewrite <- !app_assoc in Heq.
    apply app_inj_1 in Heq as [Hl Heq]; [|by rewrite !be_bytes_length].
    apply be_bytes_inj in Hl; [|done|done]. apply app_inj_1 in Heq as [-> Heq]; [|unfold lenN in Hl; lia].
    f_equal. by apply IH.
Qed.

Lemma plan_message_inj c c' inputs inputs' :
  Forall (fun i => lenN i < 2 ^ 64) inputs -> Forall (fun i => lenN i < 2 ^ 64) inputs' ->
  plan_message c inputs = plan_message c' inputs' -> c = c' /\ inputs = inputs'.
Proof.
  intros H H' Heq. unfold plan_message in Heq. apply app_inv_head, app_inv_head in Heq.
  apply category_domain_inj in Heq as [-> Heq]. split; [done|]. by apply framed_inputs_inj.
Qed.

(** a fingerprint binds the category and the exact inputs of a plan.  Two plans that authenticate
    the same message have the same category and the same inputs, boundaries between inputs included;
    and with a 32-byte authenticator the digest is one the parser of persisted digests accepts. *)
Theorem fingerprint_framing (hmac_sha256 : list N -> list N -> list N) (key : list N) c inputs :
  (forall k m, lenN (hmac_sha256 k m) = 32 /\ Forall (fun b => b < 256) (hmac_sha256 k m)) ->
  Forall (fun i => lenN i < 2 ^ 64) inputs ->
  (forall c' inputs', Forall (fun i => lenN i < 2 ^ 64) inputs' ->
     plan_message c inputs = plan_message c' inputs' -> c = c' /\ inputs = inputs')
  /\ KeyedDigest_parse (digest_str (digest_plan hmac_sha256 key c inputs)) = Some (digest_plan hmac_sha256 key c inputs).
Proof.
  intros Hmac Hi. split; [intros; by apply plan_message_inj|].
  destruct (Hmac key (plan_message c inputs)) as [Hl Hb]. destruct (hex_encode_spec _ Hb) as [Hlen Hhex].
  unfold KeyedDigest_parse, digest_plan. cbn [digest_str].
  set (hex := hex_encode _) in *.
  assert (Hs : strip_prefix ($"keyed:") ($"keyed:" ++ hex) = Some hex) by reflexivity. rewrite Hs.
  assert (Hasc : Forall (fun c => c < 128) hex).
  { eapply Forall_impl; [exact Hhex|]. intros x Hx. unfold lower_hex, is_ascii_digit, in_range in Hx. cbn.
    apply orb_true_iff in Hx as [Hx|Hx]; apply andb_true_iff in Hx as [_ Hx%N.leb_le]; lia. }
  rewrite str_len_ascii, encode_utf8_ascii, Hlen, Hl by done. cbn [N.mul].
  assert (Hall : forallb lower_hex hex = true).
  { apply forallb_forall. intros x Hx. rewrite Forall_forall in Hhex. apply Hhex. by apply list_elem_of_In. }
  rewrite Hall. reflexivity.
Qed.

Lemma fingerprint_framing_witness :
  plan_message Plan_Build [[1; 2]; [3]] <> plan_message Plan_Build [[1]; [2; 3]]
  /\ plan_message Plan_Build [[1; 2]; [3]] <> plan_message Plan_Create [[1; 2]; [3]].
Proof.
  destruct (fingerprint_framing (fun _ _ => replicate 32 7) [] Plan_Build [[1; 2]; [3]]) as [H _];
    [|repeat constructor|].
  - intros _ _. split; [reflexivity|]. apply Forall_replicate. lia.
  - split; intros Heq; apply H in Heq as [? ?]; try discriminate; repeat constructor.
Defined.

(** ** Opening *)

Section opening.
Context (sha256 : list N -> list N) {serde : RecordSerde} {serde_laws : RecordSerdeLaws} (user umask : N) (root : Path).
Implicit Types (t : gmap Path (Entry (list N))).

(** The content of a regular file of the user. *)
Definition content_of t (p : Path) : option (list N) :=
  match t !! p with
  | Some e => if bool_decide (e_kind e = Kind_File) && (e_uid e =? user) then Some (e_content e) else None
  | None => None
  end.

(** What the two files say: the record, and the state of the key. *)
Definition says t (i : Installation) : Prop :=
  exists bytes, content_of t (installation_file root) = Some bytes
    /\ record_from_slice bytes = Some (in_record i) /\ ir_schema_version (in_record i) = INSTALLATION_SCHEMA_VERSION
    /\ match in_key i with
       | Key_Unknown Key_Missing => t !! fingerprint_key root = None
       | other => exists key, content_of t (fingerprint_key root) = Some key /\ other = checked_key sha256 (in_record i) key
       end.

(** Modes apart, the trees have the same objects. *)
Definition same_object t t' (q : Path) : Prop :=
  match t !! q with
  | Some e => exists mode, t' !! q = Some (mkEntry (e_kind e) (e_uid e) mode (e_content e))
  | None => t' !! q = None
  end.
Definition same_objects t t' : Prop := forall q, same_object t t' q.

#[local] Instance same_objects_preorder : PreOrder same_objects.
Proof.
  split.
  - intros t q. unfold same_object. destruct (t !! q) as [[]|]; [by eexists|done].
  - intros t1 t2 t3 H12 H23 q. specialize (H12 q). specialize (H23 q). unfold same_object in *. destruct (t1 !! q) as [e|].
    + destruct H12 as [m Hm]. rewrite Hm in H23. destruct H23 as [m' Hm']. by exists m'.
    + by rewrite H12 in H23.
Qed.

Lemma same_content t t' p : same_object t t' p -> content_of t' p = content_of t p.
Proof.
  unfold content_of, same_object. intros H. destruct (t !! p) as [e|]; [destruct H as [m ->]|rewrite H]; done.
Qed.

Lemma ensured_existing kind p t t' :
  ensured user [] kind p t t' -> t !! p <> None -> same_objects t t'.
Proof.
  intros [Hq Hp] Hne q. unfold same_object. destruct (decide (q = p)) as [->|Hneq].
  - destruct (t !! p); [done|done].
  - rewrite Hq by done. destruct (t !! q) as [[]|]; [by eexists|done].
Qed.

Lemma read_managed_file_spec p t :
  post (read_managed_file user p) t (fun t' r n =>
    t' = t /\ match r with
              | Ok None => t !! p = None
              | Ok (Some bytes) => content_of t p = Some bytes
              | Err _ => n = 0%nat -> t !! p <> None /\ content_of t p = None
              end).
Proof.
  unfold read_managed_file. apply post_handle. eapply post_impl; [apply inspect_spec|].
  intros t0 r n (-> & Hr & Hz). destruct r as [found|e]; cbn beta iota.
  2:{ apply post_raise. split; [done|]. rewrite Nat.add_0_r. intros Hn. specialize (Hr Hn). unfold content_of. split.
      - intros H. by rewrite (proj2 (inspect_missing user t p Managed_File) H) in Hr.
      - destruct (t !! p) as [e0|] eqn:E; [|done]. case_bool_decide as Hk; [|done]. cbn.
        destruct (N.eqb_spec (e_uid e0) user) as [Hu|]; [|done].
        rewrite <- E, (proj2 (inspect_valid user t p Managed_File)) in Hr; [done|]. by exists e0. }
  specialize (Hz eq_refl). subst n. specialize (Hr eq_refl). symmetry in Hr. destruct found.
  - apply inspect_missing in Hr. by apply post_done.
  - apply inspect_valid in Hr as (e & He & Hu & Hk). unfold read_file.
    assert (Hc : content_of t p = Some (e_content e)).
    { unfold content_of. rewrite He, Hu, N.eqb_refl, bool_decide_eq_true_2 by done. done. }
    apply post_handle, post_call; intros step; cbn beta iota; [by apply post_raise|].
    rewrite He. cbn [ok_or]. rewrite bool_decide_eq_false_2 by congruence. by apply post_done.
Qed.

Lemma tighten_same p t bytes :
  content_of t p = Some bytes ->
  post (tighten_managed_file user p PrivateFile) t (fun t' _ _ => same_objects t t').
Proof.
  intros Hc. eapply post_impl; [apply (file_tightened user [] p t), ensured_refl|]. intros t' r n [He _].
  eapply ensured_existing; [exact He|]. intros H. unfold content_of in Hc. by rewrite H in Hc.
Qed.

(** Loading changes no content and creates nothing; what it returns is what the files say. *)
Lemma load_installation_spec t :
  post (load_installation sha256 user root) t (fun t' r _ => same_objects t t' /\ forall i, r = Ok i -> says t i).
Proof.
  unfold load_installation, load_record_read_only. apply post_handle, post_handle.
  eapply post_impl; [apply read_managed_file_spec|]. intros t0 r n [-> Hr]. destruct r as [[bytes|]|e]; cbn beta iota.
  2-3: apply post_raise, post_raise; done.
  destruct (record_from_slice bytes) as [record|] eqn:Hrec; [|apply post_raise, post_raise; done].
  destruct (N.eqb_spec (ir_schema_version record) INSTALLATION_SCHEMA_VERSION) as [Hv|]; cbn [negb];
    [|apply post_raise, post_raise; done].
  apply post_done. apply post_handle. eapply post_impl; [by eapply tighten_same|]. intros t1 r1 n1 H1.
  destruct r1 as [[]|e]; cbn beta iota; [|by apply post_raise].
  apply post_handle. eapply post_impl; [apply read_managed_file_spec|]. intros t2 r2 n2 [-> Hr2].
  destruct r2 as [[key|]|e]; cbn beta iota; [..|by apply post_raise].
  - apply post_handle. eapply post_impl; [by eapply tighten_same|]. intros t3 r3 n3 H3.
    assert (H13 : same_objects t t3) by (by etransitivity).
    destruct r3 as [[]|e]; cbn beta iota; [|by apply post_raise].
    apply post_done. split; [done|]. intros i [= <-]. exists bytes. cbn [in_record in_key]. split_and!; [done..|].
    rewrite (same_content _ _ _ (H1 _)) in Hr2.
    assert (Hk : checked_key sha256 record key <> Key_Unknown Key_Missing) by (unfold checked_key; by case_match).
    destruct (checked_key sha256 record key) as [k|[]] eqn:E; [|done|]; exists key; by rewrite E.
  - apply post_done. split; [done|]. intros i [= <-]. exists bytes. cbn [in_record in_key]. split_and!; [done..|].
    specialize (H1 (fingerprint_key root)). unfold same_object in H1. destruct (t !! fingerprint_key root); [|done].
    destruct H1 as [m H1]. congruence.
Qed.

Lemma says_unique t i i' : says t i -> says t i' -> i = i'.
Proof.
  intros (b & Hb & Hr & _ & Hk) (b' & Hb' & Hr' & _ & Hk'). assert (b' = b) as -> by congruence.
  destruct i as [rec k], i' as [rec' k']. cbn in *. assert (rec' = rec) as -> by congruence. f_equal.
  assert (Hmiss : t !! fingerprint_key root = None -> content_of t (fingerprint_key root) = None).
  { unfold content_of. by intros ->. }
  destruct k as [k|[]], k' as [k'|[]]; try done;
    repeat match goal with H : exists _, _ |- _ => destruct H as (? & ? & ?) end; try congruence;
    (rewrite Hmiss in * by done; congruence).
Qed.

(** The files of a new installation: the key first, then a record that names it. *)
Definition consistent t (i : Installation) : Prop :=
  says t i /\ exists key, in_key i = Key_Available key.

Lemma create_installation_spec key_bytes id_bytes t :
  (forall key, key_bytes = Some key -> lenN key = FINGERPRINT_KEY_LENGTH) ->
  t !! installation_file root = None ->
  post (create_installation sha256 user umask root key_bytes id_bytes) t (fun t' r _ =>
    match r with
    | Ok i => consistent t' i
    | Err _ => t' !! installation_file root = None \/ exists i, consistent t' i
    end).
Proof.
  intros Hlen Hnone. unfold create_installation.
  destruct (new_record sha256 key_bytes id_bytes) as [[key record]|e] eqn:Hnew; [|apply post_raise; by left].
  assert (Hrec : lenN key = FINGERPRINT_KEY_LENGTH /\ ir_schema_version record = INSTALLATION_SCHEMA_VERSION
    /\ ir_fingerprint_key_id record = key_id sha256 key).
  { unfold new_record in Hnew. destruct key_bytes as [k|]; [|done]. cbn in Hnew. destruct id_bytes; [|done]. cbn in Hnew.
    destruct (token_parse _ _); cbn in Hnew; [|done]. injection Hnew as <- <-. by split_and!; [apply Hlen|..]. }
  destruct Hrec as (Hk & Hv & Hid).
  assert (Hne : installation_file root <> fingerprint_key root) by (unfold installation_file, fingerprint_key; by intros [= ?]).
  apply post_handle. eapply post_impl; [apply write_managed_spec|]. intros t1 [[]|e] n1; cbn beta iota zeta.
  2:{ intros H1. apply post_raise. left. destruct H1 as [->|[->|(random & e1 & _ & ->)]]; [done|..].
      - by rewrite lookup_insert_ne.
      - rewrite lookup_insert_ne; [done|]. intros [= Hx]. }
  intros ->. unfold write_record. destruct (record_to_vec_pretty record) as [bytes|] eqn:Hbytes.
  2:{ apply post_handle, post_raise, post_raise. left. by rewrite lookup_insert_ne. }
  set (t2 := <[key_name :: root := replaced user PrivateFile key]> t).
  set (i := mkInstallation record (Key_Available key)).
  assert (Hgood : consistent (<[installation_name :: root := replaced user PrivateFile (bytes ++ [10])]> t2) i).
  { split; [|by eexists]. exists (bytes ++ [10]). cbn [in_record in_key i]. split_and!; [|by apply record_roundtrip|done|].
    - unfold content_of. rewrite lookup_insert_eq. cbn. by rewrite N.eqb_refl.
    - exists key. unfold content_of. rewrite lookup_insert_ne by done. unfold t2. rewrite lookup_insert_eq. cbn.
      rewrite N.eqb_refl. split; [done|]. unfold checked_key. rewrite Hk, Hid, N.eqb_refl. cbn.
      by rewrite str_eqb_refl. }
  apply post_handle, post_handle. eapply post_impl; [apply write_managed_spec|]. intros t3 [[]|e] n3; cbn beta iota zeta.
  - intros ->. by apply post_done, post_done.
  - intros H3. apply post_raise, post_raise. destruct H3 as [->|[->|(random & e1 & _ & ->)]].
    + left. unfold t2. by rewrite lookup_insert_ne.
    + right. by exists i.
    + left. rewrite lookup_insert_ne; [unfold t2; by rewrite lookup_insert_ne|]. by intros [= Hx].
Qed.

(** Opening once: an installation that exists is only read, its key never replaced; a new one is
    whole, or a failure leaves no record, or a whole one. *)
Definition open_end t t' (r : result InstallationError Installation) : Prop :=
  if bool_decide (t !! installation_file root = None) then
    match r with
    | Ok i => consistent t' i
    | Err _ => t' !! installation_file root = None \/ exists i, consistent t' i
    end
  else (forall q, q <> root -> same_object t t' q) /\ forall i, r = Ok i -> says t i.

Lemma open_or_create_spec key_bytes id_bytes t :
  (forall key, key_bytes = Some key -> lenN key = FINGERPRINT_KEY_LENGTH) ->
  post (open_or_create sha256 user umask root key_bytes id_bytes) t (fun t' r _ => open_end t t' r).
Proof.
  intros Hlen. unfold open_or_create.
  assert (Hch : forall c, c :: root <> root) by (intros c H; apply (f_equal length) in H; cbn in H; lia).
  apply post_handle. eapply post_impl; [apply ensure_private_directory_spec|]. intros t1 r1 n1 ([Hq _] & _).
  assert (Hf : forall c, t1 !! (c :: root) = t !! (c :: root)) by (intros c; by apply Hq).
  assert (Hfi : t1 !! installation_file root = t !! installation_file root) by apply Hf.
  assert (Hsame : forall t', same_objects t1 t' -> forall q, q <> root -> same_object t t' q).
  { intros t' H q Hne. specialize (H q). unfold same_object in *. by rewrite Hq in H by done. }
  assert (Hsays : forall i, says t1 i -> says t i).
  { intros i (b & Hb & Hr & Hv & Hk). exists b. unfold content_of, installation_file, fingerprint_key in *.
    rewrite !Hf in *. done. }
  assert (Hearly : forall e, open_end t t1 (Err e)).
  { intros e. unfold open_end. case_bool_decide as Hn; [left; by rewrite Hfi|]. split; [by apply Hsame|done]. }
  destruct r1 as [[]|e]; cbn beta iota; [|by apply post_raise].
  apply post_handle. eapply post_impl; [apply inspect_spec|]. intros t2 r2 n2 (-> & Hr & Hz).
  destruct r2 as [found|e]; cbn beta iota; [|by apply post_raise].
  specialize (Hr (Hz eq_refl)). symmetry in Hr. unfold open_end. destruct found.
  - apply inspect_missing in Hr. rewrite Hfi in Hr. rewrite bool_decide_eq_true_2 by done.
    apply create_installation_spec; [done|]. by rewrite Hfi.
  - apply inspect_valid in Hr as (e & He & _). rewrite Hfi in He. rewrite bool_decide_eq_false_2 by congruence.
    eapply post_impl; [apply load_installation_spec|]. intros t3 r3 n3 [Hs3 Hi]. split; [by apply Hsame|].
    intros i Hr3. by apply Hsays, Hi.
Qed.

(** C16: an installation keeps its identity and its key.  Opening an existing installation changes no
    content and creates nothing, a missing or replaced key included, and returns what the files
    say.  A new installation is written key first: if any call fails, there is no record yet or a
    record with its key; and opening the root again after a success returns the same installation,
    and after a failure never one whose key is unknown. *)
Theorem installation_survives_failures key_bytes id_bytes key_bytes' id_bytes' (d : FileTree.Disk (list N)) :
  (forall key, key_bytes = Some key \/ key_bytes' = Some key -> lenN key = FINGERPRINT_KEY_LENGTH) ->
  let '(d1, _, r1) := open_or_create sha256 user umask root key_bytes id_bytes d in
  let '(d2, _, r2) := open_or_create sha256 user umask root key_bytes' id_bytes' d1 in
  open_end (tree d) (tree d1) r1
  /\ (tree d !! installation_file root = None ->
      forall i2, r2 = Ok i2 -> (forall i1, r1 = Ok i1 -> i2 = i1) /\ exists key, in_key i2 = Key_Available key).
Proof.
  intros Hlen.
  assert (H1 := open_or_create_spec key_bytes id_bytes (tree d) (fun k H => Hlen k (or_introl H)) d eq_refl).
  destruct (open_or_create sha256 user umask root key_bytes id_bytes d) as [[d1 l1] r1]. destruct H1 as (_ & _ & H1).
  assert (H2 := open_or_create_spec key_bytes' id_bytes' (tree d1) (fun k H => Hlen k (or_intror H)) d1 eq_refl).
  destruct (open_or_create sha256 user umask root key_bytes' id_bytes' d1) as [[d2 l2] r2]. destruct H2 as (_ & _ & H2).
  split; [done|]. intros Hnone i2 ->. unfold open_end in H1, H2. rewrite bool_decide_eq_true_2 in H1 by done.
  assert (Hrec : forall i, consistent (tree d1) i -> i2 = i /\ exists key, in_key i2 = Key_Available key).
  { intros i [Hi Hk]. case_bool_decide as Hn.
    - exfalso. destruct Hi as (b & Hb & _). unfold content_of in Hb. by rewrite Hn in Hb.
    - assert (i2 = i) as -> by (eapply says_unique; [by apply H2|done]). done. }
  destruct r1 as [i1|e].
  - destruct (Hrec i1 H1) as [-> Hk]. split; [|done]. by intros i [= <-].
  - split; [done|]. destruct H1 as [Hn|[i Hi]]; [|by apply (Hrec i)].
    rewrite bool_decide_eq_true_2 in H2 by done. apply H2.
Qed.
End opening.

(** ** An example *)

(** A codec: the schema, the choice, the length of the identifier, the identifier, the key identifier. *)
#[local] Instance sample_codec : RecordSerde := {|
  record_to_vec_pretty r :=
    Some (ir_schema_version r
          :: match ir_ssh_include_consent r with Consent_Unknown => 0 | Consent_Accepted => 1 | Consent_Declined => 2 end
          :: lenN (installation_str (ir_installation_id r)) :: installation_str (ir_installation_id r)
          ++ ir_fingerprint_key_id r);
  record_from_slice bytes :=
    match bytes with
    | schema :: consent :: n :: rest =>
        let body := removelast rest in
        Some (mkInstallationRecord schema (mkInstallationId (take (N.to_nat n) body))
                (if consent =? 0 then Consent_Unknown else if consent =? 1 then Consent_Accepted else Consent_Declined)
                (drop (N.to_nat n) body))
    | _ => None
    end;
|}.

#[local] Instance sample_codec_laws : RecordSerdeLaws.
Proof.
  intros [schema [id] consent key] bytes [= <-]. cbn -[removelast]. rewrite removelast_last. unfold lenN.
  rewrite Nnat.Nat2N.id, take_app_length, drop_app_length. by destruct consent.
Qed.

(** A home directory; the write of the record fails when [fails] holds. *)
Definition bytes_disk (fails : bool) : FileTree.Disk (list N) :=
  mkDisk (<[[] := mkEntry Kind_Directory 0 493 []]> {[ [$"home"] := mkEntry Kind_Directory 1000 493 [] ]})
    (fun n => mkOsStep false (fun _ => true) (fun _ => None) (fun _ => false)
       (mkOsScript (Ok tt) (Ok (Some (mkEntry Kind_Directory 1000 448 []))) false [Attempt_Open [1] false]
          (fun stage => fails && bool_decide (stage = Write) && Nat.eqb 7 n) [] false)) 0.

Lemma installation_survives_failures_witness :
  let open := open_or_create (fun bytes => bytes) 1000 18 [$"cdenv"; $"home"] (Some (replicate 32 7)) (Some [1; 2; 3; 4]) in
  let '(d1, _, r1) := open (bytes_disk false) in
  let '(_, _, r2) := open d1 in
  is_ok r1 = true /\ is_ok r2 = true /\ forall i1 i2, r1 = Ok i1 -> r2 = Ok i2 -> i2 = i1.
Proof.
  intros open.
  assert (H := installation_survives_failures (fun bytes => bytes) 1000 18 [$"cdenv"; $"home"] (Some (replicate 32 7))
    (Some [1; 2; 3; 4]) (Some (replicate 32 7)) (Some [1; 2; 3; 4]) (bytes_disk false)).
  assert (H1 : is_ok (snd (open (bytes_disk false))) = true) by (vm_compute; reflexivity).
  assert (H2 : is_ok (snd (open (fst (fst (open (bytes_disk false)))))) = true) by (vm_compute; reflexivity).
  fold open in H. destruct (open (bytes_disk false)) as [[d1 l1] r1]. cbn [fst snd] in *.
  destruct (open d1) as [[d2 l2] r2]. cbn [fst snd] in *. split; [exact H1|]. split; [exact H2|].
  intros i1 i2 E1 E2. apply (proj2 (H ltac:(intros key [[= <-]|[= <-]]; reflexivity)) eq_refl i2 E2). exact E1.
Defined.

(** A failure between the two files: the key is there, the record is not, and the next opening starts
    over. *)
Example interrupted_creation :
  let open := open_or_create (fun bytes => bytes) 1000 18 [$"cdenv"; $"home"] (Some (replicate 32 7)) (Some [1; 2; 3; 4]) in
  let '(d1, _, r1) := open (bytes_disk true) in
  is_ok r1 = false /\ tree d1 !! [$"fingerprint.key"; $"cdenv"; $"home"] <> None
  /\ tree d1 !! [$"installation.json"; $"cdenv"; $"home"] = None.
Proof. vm_compute. by split_and!. Qed.
