(* ===== verification/FeatureArchive.v ===== *)
(** * FeatureArchive: the extraction of a Feature archive
    ([cdenv-cli/src/feature_sources/archive.rs], the limits and errors of [feature_sources/mod.rs])

    Extraction runs on the disk of [FileTree], whose files hold bytes and whose calls fail as the
    operating system likes.  The [tar] and [flate2] crates are a parameter: the entries of an
    archive, each of which may be unreadable, with the bytes that reading its data gives before an
    end or an error.  The cache directory is not reached through links.  Random suffixes are a
    parameter, as is their failure. *)

From S2P Require Import Prelude Text Effects Utf8 Storage FileTree FeatureReference Feature.

(** ** Limits and errors *)

(** @src cdenv-cli/src/feature_sources/mod.rs:36-51 FeatureSourceLimits *)
Record FeatureSourceLimits : Type := mkSourceLimits {
  sl_redirects : N;
  sl_blob_bytes : N;
  sl_metadata_bytes : N;
  sl_files : N;
  sl_extracted_bytes : N;
  sl_expansion_ratio : N;
  sl_path_bytes : N;
}.

(** @src cdenv-cli/src/feature_sources/mod.rs:54-64 FeatureSourceLimits::default *)
Definition default_source_limits : FeatureSourceLimits :=
  mkSourceLimits 5 (64 * 1024 * 1024) (1024 * 1024) 4096 (128 * 1024 * 1024) 100 4096.

(** A path of the host, or a path as an archive spells it. *)
Inductive SourcePath : Type := On_disk (p : Path) | In_archive (path : list N) | Random_source.

(** The sources of errors ([io::Error], [reqwest::Error], [serde_json::Error]) are left out.
    @src cdenv-cli/src/feature_sources/mod.rs:79-172 FeatureSourceError *)
Inductive FeatureSourceError : Type :=
| FS_Feature (error : FeatureError)
| FS_Url (url message : str)
| FS_Transport (url : str)
| FS_Authentication (message : str)
| FS_Oci (message : str)
| FS_Limit (kind : str) (limit : N)
| FS_Digest (expected actual : str)
| FS_Cache (path : SourcePath)
| FS_LocalContainment (path : SourcePath)
| FS_Archive (path : SourcePath) (message : str)
| FS_ArchiveIo (path : SourcePath)
| FS_Metadata (path : SourcePath)
| FS_MetadataJson (path : SourcePath).

(** ** Entries and paths of an archive *)

Inductive TarKind : Type := Tar_File | Tar_Directory | Tar_Other.

(** One entry of [tar::Archive::entries]: its path unless it cannot be decoded, its type, its size,
    and what reading its data gives. *)
Record TarEntry : Type := mkTarEntry {
  te_path : option (list N);
  te_kind : TarKind;
  te_size : N;
  te_data : result (list N) (list N);
}.

(** [Path::components] of a Unix path, [Normal] ones only. *)
Definition components (path : list N) : list (list N) :=
  List.filter (fun piece => negb (bool_decide (piece = [])) && negb (str_eqb piece ($"."))) (split 47 path).

(** Whether a component is the root, the current or the parent directory; [.] is a component only
    at the start. *)
Definition has_special_component (path : list N) : bool :=
  starts_with [47] path || existsb (str_eqb ($"..")) (split 47 path) || str_eqb (first_piece 47 path) ($".").

(** @src cdenv-cli/src/feature_sources/archive.rs:252-274 validate_archive_path *)
Definition validate_archive_path (path : list N) (max : N) : result FeatureSourceError unit :=
  match from_utf8 path with
  | None => Err (FS_Archive (In_archive path) ($"path is not UTF-8"))
  | Some _ =>
      fail_if max <? lenN path with FS_Limit ($"archive path bytes") max in
      fail_if has_special_component path with FS_Archive (In_archive path) ($"path is absolute or traversing") in
      Ok tt
  end.

(** [destination.join(path)]: an absolute path replaces the destination. *)
Definition target_of (destination : Path) (path : list N) : Path :=
  rev (components path) ++ (if starts_with [47] path then [] else destination).

(** ** More of the disk *)

(** What of a path lies below a directory. *)
Definition below (dir q : Path) : option Path :=
  let k := take (length q - length dir) q in
  if bool_decide (q = k ++ dir) then Some k else None.

(** The tree after the subtree of [src] is moved to [dst]. *)
Definition move_tree {B} (src dst : Path) (t : gmap Path (Entry B)) : gmap Path (Entry B) :=
  kmap (fun k => k ++ dst) (list_to_map (omap (fun '(q, e) => (fun k => (k, e)) <$> below src q) (map_to_list t)))
  ∪ filter (fun '(q, _) => below src q = None) t.

Section archive.
Context (user umask : N).
Context (tar_entries : bool -> list N -> result unit (list (result unit TarEntry))).
Abbreviation bytes := (list N).

(** [Path::exists]; a failed call counts as absent, and a link is followed by the system. *)
Definition exists_path (p : Path) : disk_io bytes Empty_set bool :=
  do? entry := system_call untouched (fun step t =>
      (t, ok_or Io_NotFound (t !! p ≫= fun e =>
         if bool_decide (e_kind e = Kind_Symlink) && step_dangling step p then None else Some e)))
    else (fun _ => done false) in
  done true.

(** [Path::is_dir] *)
Definition is_dir (p : Path) : disk_io bytes Empty_set bool :=
  do? entry := symlink_metadata p else (fun _ => done false) in
  done (bool_decide (e_kind entry = Kind_Directory)).

(** [fs::create_dir_all] of the standard library: an existing directory is accepted. *)
Definition unless_dir (p : Path) (e : IoError) : disk_io bytes IoError unit :=
  do? dir := is_dir p else (fun e => match e with end) in
  if dir : bool then done tt else raise e.
Fixpoint create_dir_all (p : Path) : disk_io bytes IoError unit :=
  do? _ := create_dir user umask [] p
    else (fun e => match e with
      | Io_NotFound =>
          match p with
          | [] => raise Io_Other
          | _ :: parent =>
              do? _ := create_dir_all parent else raise in
              do? _ := create_dir user umask [] p else unless_dir p in
              done tt
          end
      | _ => unless_dir p e
      end) in
  done tt.

(** [fs::rename] of a directory: the destination is absent or an empty directory. *)
Definition rename_dir (src dst : Path) : disk_io bytes IoError unit :=
  system_call untouched (fun _ t =>
    match t !! src with
    | None => (t, Err Io_NotFound)
    | Some _ =>
        match t !! dst with
        | Some e =>
            if bool_decide (e_kind e = Kind_Directory) && is_empty_dir t dst
            then (move_tree src dst (delete dst t), Ok tt) else (t, Err Io_Other)
        | None => match creatable t dst with Ok _ => (move_tree src dst t, Ok tt) | Err e => (t, Err e) end
        end
    end).

(** [OpenOptions] with [write] and [create_new] on a path as the archive spells it: one that is
    empty or ends in a slash names a directory, which cannot be created so. *)
Definition open_target (path : list N) (target : Path) : disk_io bytes IoError unit :=
  if bool_decide (path = []) || ends_with [47] path
  then system_call untouched (fun _ t => (t, Err Io_Other))
  else open_new user umask [] 438 target.

(** [io::copy] into the file that was opened: when reading or writing fails, a part is left. *)
Definition copy_into (target : Path) (data : result bytes bytes) : disk_io bytes IoError unit :=
  let put (content : bytes) (t : gmap Path (Entry bytes)) :=
    match t !! target with
    | Some e => <[target := mkEntry (e_kind e) (e_uid e) (e_mode e) content]> t
    | None => t
    end in
  system_call (fun step t => put (os_partial (step_write step)) t)
    (fun _ t => match data with Ok content => (put content t, Ok tt) | Err part => (put part t, Err Io_Other) end).

(** [fs::metadata(path)?.len()] of a file *)
Definition file_len (p : Path) : disk_io bytes IoError N :=
  do? content := read_file p else raise in done (lenN content).

(** ** Extraction *)

(** @src cdenv-cli/src/feature_sources/archive.rs:9-9 COMPLETE_MARKER *)
Definition COMPLETE_MARKER : list N := $".cdenv-feature-complete".

(** One file of the archive. @src cdenv-cli/src/feature_sources/archive.rs:206-242 extract_into *)
Definition extract_file (limits : FeatureSourceLimits) (compressed extracted : N) (path : list N) (target : Path)
    (entry : TarEntry) : disk_io bytes FeatureSourceError N :=
  match checked_add MAX_U64 extracted (te_size entry) with
  | None => raise (FS_Limit ($"extracted bytes") (sl_extracted_bytes limits))
  | Some extracted =>
      match checked_mul MAX_U64 compressed (sl_expansion_ratio limits) with
      | None => raise (FS_Limit ($"archive expansion ratio") (sl_expansion_ratio limits))
      | Some expansion_limit =>
          if (sl_extracted_bytes limits <? extracted) || (expansion_limit <? extracted)
          then raise (FS_Limit ($"extracted bytes/ratio") (N.min (sl_extracted_bytes limits) expansion_limit))
          else
          do? _ := match target with
            | [] => done tt
            | _ :: parent => do? _ := create_dir_all parent or (fun _ => FS_ArchiveIo (On_disk parent)) in done tt
            end else raise in
          do? _ := open_target path target or (fun _ => FS_ArchiveIo (On_disk target)) in
          do? _ := copy_into target (te_data entry) or (fun _ => FS_ArchiveIo (On_disk target)) in
          done extracted
      end
  end.

(** The loop. @src cdenv-cli/src/feature_sources/archive.rs:167-245 extract_into *)
Fixpoint extract_entries (archive destination : Path) (limits : FeatureSourceLimits) (compressed : N)
    (entries : list (result unit TarEntry)) (seen : list (list (list N))) (files extracted : N) :
    disk_io bytes FeatureSourceError unit :=
  match entries with
  | [] => done tt
  | Err _ :: _ => raise (FS_ArchiveIo (On_disk archive))
  | Ok entry :: rest =>
      if sl_files limits <? files + 1 then raise (FS_Limit ($"archive entries") (sl_files limits)) else
      match te_path entry with
      | None => raise (FS_ArchiveIo (On_disk archive))
      | Some path =>
          match validate_archive_path path (sl_path_bytes limits) with
          | Err e => raise e
          | Ok _ =>
              if bool_decide (components path ∈ seen)
              then raise (FS_Archive (In_archive path) ($"duplicate archive path")) else
              let target := target_of destination path in
              match te_kind entry with
              | Tar_Other => raise (FS_Archive (In_archive path) ($"links and special entry types are unsupported"))
              | Tar_Directory =>
                  do? _ := create_dir_all target or (fun _ => FS_ArchiveIo (On_disk target)) in
                  extract_entries archive destination limits compressed rest (components path :: seen) (files + 1) extracted
              | Tar_File =>
                  do? extracted := extract_file limits compressed extracted path target entry else raise in
                  extract_entries archive destination limits compressed rest (components path :: seen) (files + 1) extracted
              end
          end
      end
  end.

(** @src cdenv-cli/src/feature_sources/archive.rs:124-251 extract_into *)
Definition extract_into (archive destination : Path) (limits : FeatureSourceLimits) :
    disk_io bytes FeatureSourceError unit :=
  let failed (_ : IoError) := FS_ArchiveIo (On_disk archive) in
  do? len := file_len archive or failed in
  let compressed := N.max len 1 in
  do? _ := open_existing archive or failed in
  do? content := read_file archive or failed in
  let magic := take 2 content in
  do? _ := open_existing archive or failed in
  match tar_entries (bool_decide (magic = [31; 139])) content with
  | Err _ => raise (FS_ArchiveIo (On_disk archive))
  | Ok entries => extract_entries archive destination limits compressed entries [] 0 0
  end.

(** One entry of a directory that is validated: the directories are collected.
    @src cdenv-cli/src/feature_sources/archive.rs:90-113 validate_extraction *)
Fixpoint validate_names (directory : Path) (names : list (list N)) (pending : list Path) :
    disk_io bytes FeatureSourceError (list Path) :=
  match names with
  | [] => done pending
  | name :: rest =>
      do? _ := next_entry or (fun _ => FS_ArchiveIo (On_disk directory)) in
      let path := name :: directory in
      do? metadata := symlink_metadata path or (fun _ => FS_ArchiveIo (On_disk path)) in
      match e_kind metadata with
      | Kind_Directory => validate_names directory rest (path :: pending)
      | Kind_File => validate_names directory rest pending
      | _ => raise (FS_Archive (On_disk path) ($"existing extraction contains an unsafe entry"))
      end
  end.

(** The loop; the head of [pending] is the end of the vector, the fuel bounds the directories. *)
Fixpoint validate_pending (fuel : nat) (pending : list Path) : disk_io bytes FeatureSourceError unit :=
  match pending, fuel with
  | [], _ => done tt
  | directory :: pending, S fuel' =>
      do? names := read_dir directory or (fun _ => FS_ArchiveIo (On_disk directory)) in
      do? pending := validate_names directory names pending else raise in
      validate_pending fuel' pending
  | directory :: _, O => raise (FS_ArchiveIo (On_disk directory))
  end.

(** @src cdenv-cli/src/feature_sources/archive.rs:66-118 validate_extraction *)
Definition validate_extraction (destination : Path) : disk_io bytes FeatureSourceError unit :=
  do? metadata := symlink_metadata destination or (fun _ => FS_ArchiveIo (On_disk destination)) in
  if negb (bool_decide (e_kind metadata = Kind_Directory))
  then raise (FS_Archive (On_disk destination) ($"existing extraction is not a regular directory")) else
  let marker := COMPLETE_MARKER :: destination in
  do? marker_metadata := symlink_metadata marker or (fun _ => FS_ArchiveIo (On_disk marker)) in
  if negb (bool_decide (e_kind marker_metadata = Kind_File))
  then raise (FS_Archive (On_disk marker) ($"existing extraction is incomplete or unsafe")) else
  observe (fun d => size (tree d)) (fun fuel => validate_pending (S fuel) [destination]).

(** @src cdenv-cli/src/feature_sources/archive.rs:38-49 extract_archive *)
Definition mark_complete (temporary : Path) : disk_io bytes FeatureSourceError unit :=
  let marker := COMPLETE_MARKER :: temporary in
  let failed (_ : IoError) := FS_ArchiveIo (On_disk marker) in
  do? _ := open_new user umask [] 438 marker or failed in
  do? _ := next_entry or failed in
  done tt.

(** [suffix] is the outcome of [random_suffix].
    @src cdenv-cli/src/feature_sources/archive.rs:15-65 extract_archive *)
Definition extract_archive (suffix : option (list N)) (archive destination : Path) (limits : FeatureSourceLimits) :
    disk_io bytes FeatureSourceError unit :=
  let no_error {X} (e : Empty_set) : disk_io bytes FeatureSourceError X := match e with end in
  do? present := exists_path destination else no_error in
  if present : bool then validate_extraction destination else
  match destination with
  | [] => raise (FS_Archive (On_disk destination) ($"destination has no parent"))
  | _ :: parent =>
      do? _ := create_dir_all parent or (fun _ => FS_ArchiveIo (On_disk parent)) in
      match suffix with
      | None => raise (FS_Cache Random_source)
      | Some suffix =>
          let temporary := ($".extract-" ++ suffix) :: parent in
          do? _ := create_dir user umask [] temporary or (fun _ => FS_ArchiveIo (On_disk temporary)) in
          do? _ := (do? _ := extract_into archive temporary limits else raise in mark_complete temporary)
            else (fun error =>
              do? _ := remove_dir_all temporary else (fun _ => raise error) in raise error) in
          do? _ := rename_dir temporary destination
            else (fun _ =>
              let after : disk_io bytes FeatureSourceError unit :=
                do? present := exists_path destination else no_error in
                if present : bool then validate_extraction destination
                else raise (FS_ArchiveIo (On_disk destination)) in
              do? _ := remove_dir_all temporary else (fun _ => after) in after) in
          done tt
      end
  end.

(** ** Directories that are created *)

Implicit Types (t : gmap Path (Entry bytes)) (p q : Path).

Definition new_dir t q : Prop := exists mode, t !! q = Some (mkEntry Kind_Directory user mode []).

(** What creating [p] and its ancestors may do: add directories at [p] and above it, below every
    ancestor that exists. *)
Definition grown p t t' : Prop :=
  forall q, t' !! q = t !! q \/
    (t !! q = None /\ q `suffix_of` p /\ (forall r : Path, r `suffix_of` p -> is_Some (t !! r) -> strictly_below r q) /\
     new_dir t' q).

Lemma grown_refl p t : grown p t t.
Proof. intros q. by left. Qed.

Lemma is_dir_spec p t :
  post (is_dir p) t (fun t' r n => t' = t /\
    exists b, r = Ok b /\ (b = true -> exists e, t !! p = Some e /\ e_kind e = Kind_Directory)).
Proof.
  unfold is_dir, symlink_metadata. disk; split; try done; eexists; split; try done.
  intros Hb. apply bool_decide_eq_true in Hb. eauto.
Qed.

Lemma unless_dir_spec p e t :
  post (unless_dir p e) t (fun t' r n => t' = t /\
    (r = Ok tt -> exists e, t !! p = Some e /\ e_kind e = Kind_Directory)).
Proof.
  unfold unless_dir. apply post_handle. eapply post_impl; [apply is_dir_spec|].
  intros t' r n (-> & b & -> & Hb). cbn beta iota. destruct b; [apply post_done|apply post_raise]; split; try done; auto.
Qed.

Lemma create_dir_spec p t :
  post (create_dir user umask [] p) t (fun t' r n =>
    match r with
    | Ok _ => t !! p = None /\ t' = <[p := mkEntry Kind_Directory user (N.ldiff 511 umask) []]> t
    | Err e => t' = t /\ (e = Io_NotFound -> t !! p = None)
    end).
Proof.
  unfold create_dir, create. disk; [by split|]. destruct (creatable t p) as [[]|e] eqn:E.
  - split; [|done]. by eapply creatable_free.
  - split; [done|]. intros ->. unfold creatable in E. by destruct (t !! p).
Qed.

Lemma grown_create p t : t !! p = None -> grown p t (<[p := mkEntry Kind_Directory user (N.ldiff 511 umask) []]> t).
Proof.
  intros Hp q. destruct (decide (q = p)) as [->|Hne]; [right|left; by apply lookup_insert_ne].
  split; [done|]. split; [done|]. split; [|eexists; apply lookup_insert_eq].
  intros r Hr Hs. split; [|done]. intros ->. rewrite Hp in Hs. by destruct Hs.
Qed.

(** First the parent, then the path, which is absent from the start. *)
Lemma grown_parent c p t t1 t2 :
  t !! (c :: p) = None -> grown p t t1 -> grown (c :: p) t1 t2 -> grown (c :: p) t t2.
Proof.
  intros Habs H1 H2 q. destruct (H2 q) as [->|(Hq & Hs & Hr & Hd)].
  - destruct (H1 q) as [->|(Hq & Hs & Hr & [mode Hd])]; [by left|right].
    split; [done|]. split; [by apply suffix_cons_r|]. split; [|].
    + intros r [->|Hrs]%suffix_cons_cases Hex; [rewrite Habs in Hex; by destruct Hex|by apply Hr].
    + destruct (H2 q) as [Heq|(Hq2 & _)]; [exists mode; congruence|congruence].
  - right. split; [|split; [done|split; [|done]]].
    + destruct (H1 q) as [<-|(Hq1 & _)]; done.
    + intros r Hrs [e He]. apply Hr; [done|]. destruct (H1 r) as [->|(Hn & _)]; [by exists e|congruence].
Qed.

Lemma create_dir_all_spec p t :
  post (create_dir_all p) t (fun t' r n =>
    grown p t t' /\ (r = Ok tt -> exists e, t' !! p = Some e /\ e_kind e = Kind_Directory)).
Proof.
  revert t. induction p as [|c p IH]; intros t; cbn [create_dir_all]; apply post_handle;
    (eapply post_impl; [apply create_dir_spec|]); intros t1 [[]|e] n; cbn beta iota.
  1, 3: intros [Hp ->]; apply post_done; split; [by apply grown_create|]; intros _; eexists;
    split; [apply lookup_insert_eq|done].
  - intros [-> _]. assert (H := unless_dir_spec [] e t).
    destruct e; [apply post_raise; split; [apply grown_refl|done]|..];
      (eapply post_impl; [exact H|]); intros t' r n' [-> Hd]; (split; [apply grown_refl|done]).
  - intros [-> Habs]. assert (H := unless_dir_spec (c :: p) e t). destruct e.
    2, 3: (eapply post_impl; [exact H|]); intros t' r n' [-> Hd]; (split; [apply grown_refl|done]).
    clear H. specialize (Habs eq_refl). apply post_handle. eapply post_impl; [apply IH|].
    intros t1 [[]|e] n1 [Hg Hd]; cbn beta iota.
    2:{ apply post_raise. split; [|done]. by eapply grown_parent; [exact Habs|exact Hg|apply grown_refl]. }
    apply post_handle. eapply post_impl; [apply create_dir_spec|]. intros t2 [[]|e] n2; cbn beta iota.
    + intros [Hp ->]. apply post_done. split.
      * eapply grown_parent; [exact Habs|exact Hg|by apply grown_create].
      * intros _. eexists. split; [apply lookup_insert_eq|done].
    + intros [-> _]. eapply post_impl; [apply unless_dir_spec|].
      intros t3 r3 n3 [-> Hd3]. split; [|done]. eapply grown_parent; [exact Habs|exact Hg|apply grown_refl].
Qed.

(** ** Below a directory *)

(** Nothing but what is strictly below [root] differs. *)
Definition confined (root : Path) t t' : Prop := forall q, ~ strictly_below root q -> t' !! q = t !! q.

(** A name that the system takes as an entry of the directory it is in. *)
Definition proper_name (name : list N) : Prop :=
  name <> [] /\ name <> $"." /\ name <> $".." /\ (47 ∉ name).

(** Below [root] there are regular files and directories only, under proper names. *)
Definition plain (root : Path) t : Prop :=
  forall k e, k <> [] -> t !! (k ++ root) = Some e ->
    (e_kind e = Kind_File \/ e_kind e = Kind_Directory) /\ Forall proper_name k.

(** The regular files below [root], by their paths from it, with their contents. *)
Definition files_are (root : Path) t (written : list (Path * bytes)) : Prop :=
  forall k content, (exists e, t !! (k ++ root) = Some e /\ k <> [] /\ e_kind e = Kind_File /\ e_content e = content)
                    <-> (k, content) ∈ written.

Lemma strictly_below_app k (root : Path) : strictly_below root (k ++ root) <-> k <> [].
Proof.
  unfold strictly_below. split.
  - intros [Hne _] ->. by apply Hne.
  - intros Hk. split; [|by exists k]. intros Heq. apply Hk. apply (app_inv_tail root). by rewrite Heq.
Qed.

Lemma strictly_below_trans (a b c : Path) : strictly_below a b -> b `suffix_of` c -> strictly_below a c.
Proof.
  intros [Hne Hab] Hbc. split; [|by transitivity b]. intros ->. apply Hne. by apply (anti_symm suffix).
Qed.

Lemma grown_confined (root : Path) p t t' :
  root `suffix_of` p -> is_Some (t !! root) -> grown p t t' -> confined root t t'.
Proof.
  intros Hs Hex Hg q Hq. destruct (Hg q) as [?|(_ & _ & Hr & _)]; [done|]. destruct Hq. by apply Hr.
Qed.

Lemma suffix_below k k' (root : Path) : k ++ root `suffix_of` k' ++ root -> k `suffix_of` k'.
Proof. intros [x Hx]. exists x. apply (app_inv_tail root). by rewrite Hx, app_assoc. Qed.

Lemma Forall_suffix {A} (P : A -> Prop) k k' : k `suffix_of` k' -> Forall P k' -> Forall P k.
Proof. intros [x ->] H. by apply Forall_app in H as [_ H]. Qed.

Lemma grown_plain (root : Path) k t t' :
  Forall proper_name k -> plain root t -> grown (k ++ root) t t' -> plain root t'.
Proof.
  intros Hk Hp Hg k' e Hk' He. destruct (Hg (k' ++ root)) as [Heq|(_ & Hs & _ & mode & Hd)].
  - rewrite Heq in He. by apply (Hp k').
  - rewrite Hd in He. injection He as <-. split; [by right|]. eapply Forall_suffix; [|exact Hk]. by eapply suffix_below.
Qed.

Lemma grown_files (root : Path) p t t' written :
  files_are root t written -> grown p t t' -> files_are root t' written.
Proof.
  intros Hf Hg k content. rewrite <- (Hf k content). split; intros (e & He & Hk & Hkind & Hc).
  - exists e. split; [|done]. destruct (Hg (k ++ root)) as [<-|(_ & _ & _ & mode & Hd)]; [done|].
    rewrite Hd in He. by injection He as <-.
  - exists e. split; [|done]. destruct (Hg (k ++ root)) as [->|(Hn & _)]; [done|congruence].
Qed.

Lemma confined_trans (root : Path) t t1 t2 : confined root t t1 -> confined root t1 t2 -> confined root t t2.
Proof. intros H1 H2 q Hq. rewrite (H2 q Hq). by apply H1. Qed.

(** ** Files *)

Lemma validated_path path max :
  validate_archive_path path max = Ok tt ->
  starts_with [47] path = false /\ Forall proper_name (components path) /\ lenN path <= max.
Proof.
  unfold validate_archive_path, has_special_component. destruct (from_utf8 path); [|done]. intros H. run H. prop_of_bool.
  split; [done|]. split; [|done]. apply Forall_forall. intros c Hc. unfold components in Hc.
  apply list_elem_of_In, filter_In in Hc as [Hin Hc]. prop_of_bool.
  split_and!; [done|by intros ->; rewrite str_eqb_refl in *| |].
  - intros ->. rewrite existsb_false_iff in H2. apply list_elem_of_In in Hin. rewrite Forall_forall in H2.
    apply H2 in Hin. by rewrite str_eqb_refl in Hin.
  - apply list_elem_of_In in Hin. assert (Hp := split_pieces 47 path). rewrite Forall_forall in Hp. by apply Hp.
Qed.

Lemma create_new_file (root : Path) k t mode :
  k <> [] -> Forall proper_name k -> t !! (k ++ root) = None -> plain root t ->
  forall content, let t' := <[k ++ root := mkEntry Kind_File user mode content]> t in
    confined root t t' /\ plain root t' /\
    forall written, files_are root t written -> files_are root t' ((k, content) :: written).
Proof.
  intros Hk Hn Hfree Hp content t'. unfold t'. split_and!.
  - intros q Hq. apply lookup_insert_ne. intros <-. apply Hq. by apply strictly_below_app.
  - intros k' e Hk' He. destruct (decide (k' = k)) as [->|Hne].
    + rewrite lookup_insert_eq in He. injection He as <-. auto.
    + rewrite lookup_insert_ne in He; [by apply (Hp k')|]. intros Heq. by apply Hne, (app_inv_tail root).
  - intros written Hf k' c. rewrite elem_of_cons, <- (Hf k' c). destruct (decide (k' = k)) as [->|Hne].
    + rewrite lookup_insert_eq, Hfree. split.
      * intros (e & [= <-] & _ & _ & <-). by left.
      * intros [[= ->]|(e & ? & _)]; [|done]. eauto 6.
    + rewrite lookup_insert_ne by (intros Heq; by apply Hne, (app_inv_tail root)).
      split; [by right|]. by intros [[= -> ->]|?].
Qed.

Lemma open_target_spec path target t :
  post (open_target path target) t (fun t' r n =>
    match r with
    | Ok _ => t !! target = None /\ t' = <[target := mkEntry Kind_File user (N.ldiff 438 umask) []]> t
    | Err _ => t' = t
    end).
Proof.
  unfold open_target. destruct (_ || _); [by apply post_call|]. unfold open_new, create. disk; [done|].
  destruct (creatable t target) as [[]|e] eqn:E; [|done]. apply creatable_free in E. done.
Qed.

Lemma copy_into_spec target data t e :
  t !! target = Some e ->
  post (copy_into target data) t (fun t' r n =>
    exists content, t' = <[target := mkEntry (e_kind e) (e_uid e) (e_mode e) content]> t /\ (r = Ok tt -> data = Ok content)).
Proof.
  intros He. unfold copy_into. apply post_call; intros step; cbn zeta beta; rewrite He; [by eexists|].
  destruct data; by eexists; split; [reflexivity|]; try intros [= <-].
Qed.

(** What the limits allow in all. *)
Definition within (limits : FeatureSourceLimits) (compressed total : N) : Prop :=
  total <= sl_extracted_bytes limits /\ total <= compressed * sl_expansion_ratio limits.

(** The directory and the one it is in exist. *)
Definition rooted (root : Path) t : Prop :=
  is_Some (t !! root) /\ match root with [] => True | _ :: parent => is_Some (t !! parent) end.

Lemma rooted_confined (root : Path) t t' : rooted root t -> confined root t t' -> rooted root t'.
Proof.
  intros [Hr Hp] Hc. split.
  - rewrite Hc; [done|]. intros [Hne _]. by apply Hne.
  - destruct root as [|c parent]; [done|]. rewrite Hc; [done|]. intros [_ Hs]. apply suffix_length in Hs. cbn in Hs. lia.
Qed.

Lemma grown_existing p t t' : is_Some (t !! p) -> grown p t t' -> t' = t.
Proof.
  intros Hex Hg. apply map_eq. intros q. destruct (Hg q) as [?|(_ & Hs & Hr & _)]; [done|].
  destruct (Hr p) as [Hne Hps]; [done|done|]. exfalso. apply Hne. by apply (anti_symm suffix).
Qed.

(** The parent of a file of the archive. *)
Lemma target_parent_spec (root : Path) k t :
  Forall proper_name k -> rooted root t -> plain root t ->
  post (match k ++ root with
    | [] => done tt
    | _ :: parent => do? _ := create_dir_all parent or (fun _ => FS_ArchiveIo (On_disk parent)) in done tt
    end) t (fun t1 r n => confined root t t1 /\ plain root t1 /\
      forall written, files_are root t written -> files_are root t1 written).
Proof.
  intros Hn [Hroot Hex] Hp. assert (Hsame : forall t1, t1 = t -> confined root t t1 /\ plain root t1 /\
      forall written, files_are root t written -> files_are root t1 written) by (by intros t1 ->).
  destruct k as [|c k]; cbn [app].
  - destruct root as [|c parent]; [apply post_done; auto|]. apply post_handle.
    eapply post_impl; [apply create_dir_all_spec|]. intros t1 r n [Hg _].
    apply (grown_existing _ _ _ Hex) in Hg. destruct r; [apply post_done|apply post_raise]; auto.
  - apply post_handle. eapply post_impl; [apply create_dir_all_spec|]. intros t1 r n [Hg _].
    assert (Hall : confined root t t1 /\ plain root t1 /\ forall written, files_are root t written -> files_are root t1 written).
    { split_and!; [eapply grown_confined; [by exists k|done|exact Hg]| |intros w Hw; by eapply grown_files].
      apply Forall_cons in Hn as [_ Hn]. by eapply grown_plain. }
    destruct r; [apply post_done|apply post_raise]; exact Hall.
Qed.

Lemma extract_file_spec (root : Path) k limits compressed extracted path entry t :
  Forall proper_name k -> rooted root t -> plain root t ->
  post (extract_file limits compressed extracted path (k ++ root) entry) t (fun t' r n =>
    confined root t t' /\ plain root t' /\
    forall total, r = Ok total ->
      total = extracted + te_size entry /\ within limits compressed total /\
      exists content, te_data entry = Ok content /\
        forall written, files_are root t written -> files_are root t' ((k, content) :: written)).
Proof.
  intros Hn Hroot Hp. unfold extract_file, checked_add, checked_mul.
  destruct (N.leb_spec (extracted + te_size entry) MAX_U64); [|apply post_raise; by split_and!].
  destruct (N.leb_spec (compressed * sl_expansion_ratio limits) MAX_U64); [|apply post_raise; by split_and!].
  destruct (_ || _) eqn:Hlim; [apply post_raise; by split_and!|]. prop_of_bool.
  apply post_handle. eapply post_impl; [by apply (target_parent_spec root k)|].
  intros t1 [[]|e] n1 (Hc1 & Hp1 & Hf1); cbn beta iota; [|apply post_raise; by split_and!].
  apply post_handle. eapply post_impl; [apply open_target_spec|].
  intros t2 [[]|e] n2; cbn beta iota; [|intros ->; apply post_raise; by split_and!].
  intros [Hfree ->]. assert (Hk : k <> []).
  { intros ->. cbn in Hfree. destruct (rooted_confined _ _ _ Hroot Hc1) as [Hr _]. rewrite Hfree in Hr. by destruct Hr. }
  assert (Hw := create_new_file root k t1 (N.ldiff 438 umask) Hk Hn Hfree Hp1).
  apply post_handle. eapply post_impl; [apply copy_into_spec; apply lookup_insert_eq|].
  cbn [e_kind e_uid e_mode]. intros t3 r3 n3 (content & -> & Hr). rewrite insert_insert_eq.
  destruct (Hw content) as (Hc3 & Hp3 & Hf3). assert (Hc : confined root t (<[k ++ root := mkEntry Kind_File user (N.ldiff 438 umask) content]> t1))
    by (by eapply confined_trans).
  destruct r3 as [[]|e]; [apply post_done|apply post_raise]; (split; [done|split; [done|try done]]).
  intros total [= <-]. split; [done|]. split; [by split|]. exists content. split; [by apply Hr|]. auto.
Qed.

(** ** The archive *)

(** The files of an archive: the path from the destination and the content of each. *)
Definition archive_file (entry : result unit TarEntry) : option (Path * bytes) :=
  match entry with
  | Ok (mkTarEntry (Some path) Tar_File _ (Ok content)) => Some (rev (components path), content)
  | _ => None
  end.
Definition archive_files (entries : list (result unit TarEntry)) : list (Path * bytes) := omap archive_file entries.

(** The declared size of the files of an archive. *)
Definition declared_size (entry : result unit TarEntry) : N :=
  match entry with Ok (mkTarEntry _ Tar_File size _) => size | _ => 0 end.
Definition declared_sizes (entries : list (result unit TarEntry)) : N :=
  fold_right (fun entry total => declared_size entry + total) 0 entries.

(** An entry that is extracted: a file or a directory, with a path that stays below. *)
Definition acceptable (limits : FeatureSourceLimits) (entry : result unit TarEntry) : Prop :=
  exists path kind size data, entry = Ok (mkTarEntry (Some path) kind size data) /\ kind <> Tar_Other /\
    validate_archive_path path (sl_path_bytes limits) = Ok tt.

Lemma files_are_perm (root : Path) t l l' : l ≡ₚ l' -> files_are root t l -> files_are root t l'.
Proof. intros Hl Hf k c. rewrite <- Hl. apply Hf. Qed.

Lemma extract_entries_spec archive (root : Path) limits compressed entries : forall seen files extracted t,
  rooted root t -> plain root t -> within limits compressed extracted ->
  post (extract_entries archive root limits compressed entries seen files extracted) t (fun t' r n =>
    confined root t t' /\ plain root t' /\
    (r = Ok tt ->
       Forall (acceptable limits) entries /\
       (entries <> [] -> files + lenN entries <= sl_files limits) /\
       within limits compressed (extracted + declared_sizes entries) /\
       forall written, files_are root t written -> files_are root t' (archive_files entries ++ written))).
Proof.
  induction entries as [|[entry|] entries IH]; intros seen files extracted t Hroot Hp Hlim; cbn [extract_entries].
  - apply post_done. split_and!; [done|done|]. intros _. cbn. rewrite ?N.add_0_r.
    split; [constructor|]. split; [done|]. split; [exact Hlim|]. intros written Hw. exact Hw.
  - destruct (N.ltb_spec (sl_files limits) (files + 1)); [apply post_raise; by split_and!|].
    destruct (te_path entry) as [path|] eqn:Hpath; [|apply post_raise; by split_and!].
    destruct (validate_archive_path _ _) as [[]|e] eqn:Hv; [|apply post_raise; by split_and!].
    destruct (bool_decide _); [apply post_raise; by split_and!|]. cbn zeta.
    destruct (validated_path _ _ Hv) as (Habs & Hnames & _). unfold target_of. rewrite Habs.
    assert (Hnames' : Forall proper_name (rev (components path))) by (by apply Forall_rev).
    assert (Hcons : forall kind size data, kind <> Tar_Other -> entry = mkTarEntry (Some path) kind size data ->
      acceptable limits (Ok entry)) by (intros kind size data Hk ->; by exists path, kind, size, data).
    destruct entry as [path' kind size data]. cbn in Hpath. subst path'. cbn [te_kind]. destruct kind.
    + apply post_handle. eapply post_impl; [by apply (extract_file_spec root)|].
      intros t1 [total|e] n1 (Hc1 & Hp1 & Hok); cbn beta iota; [|apply post_raise; by split_and!].
      destruct (Hok _ eq_refl) as (-> & Hlim1 & content & Hdata & Hf1). cbn in Hdata, Hlim1 |- *. subst data.
      eapply post_impl; [apply (IH _ _ _ t1); [by eapply rooted_confined|done..]|].
      intros t2 r2 n2 (Hc2 & Hp2 & Hok2). split; [by eapply confined_trans|]. split; [done|]. intros ->.
      destruct (Hok2 eq_refl) as (Ha & Hn & Hl & Hf). split; [constructor; [by eapply Hcons; [|reflexivity]|done]|].
      split; [intros _; rewrite lenN_cons; destruct entries; [rewrite lenN_nil; lia|]; specialize (Hn ltac:(done)); lia|].
      split; [by rewrite N.add_assoc|]. intros written Hw. apply Hf1, Hf in Hw.
      eapply files_are_perm; [|exact Hw]. symmetry. apply Permutation_middle.
    + apply post_handle. eapply post_impl; [apply create_dir_all_spec|].
      intros t1 [[]|e] n1 [Hg _]; cbn beta iota.
      2:{ apply post_raise. split_and!; [|by eapply grown_plain|done]. destruct Hroot as [Hroot _].
          eapply grown_confined; [by exists (rev (components path))|done|exact Hg]. }
      assert (Hc1 : confined root t t1).
      { destruct Hroot as [Hroot _]. eapply grown_confined; [by exists (rev (components path))|done|exact Hg]. }
      eapply post_impl; [apply (IH _ _ _ t1); [by eapply rooted_confined|by eapply grown_plain|done]|].
      intros t2 r2 n2 (Hc2 & Hp2 & Hok2). split; [by eapply confined_trans|]. split; [done|]. intros ->.
      destruct (Hok2 eq_refl) as (Ha & Hn & Hl & Hf). split; [constructor; [by eapply Hcons; [|reflexivity]|done]|].
      split; [intros _; rewrite lenN_cons; destruct entries; [rewrite lenN_nil; lia|]; specialize (Hn ltac:(done)); lia|].
      split; [done|]. intros written Hw. apply Hf. by eapply grown_files.
    + apply post_raise. by split_and!.
  - apply post_raise. by split_and!.
Qed.

(** What a complete reading of an archive amounts to. *)
Definition extracted_from (limits : FeatureSourceLimits) t archive entries : Prop :=
  exists e, t !! archive = Some e /\ e_kind e <> Kind_Directory /\
    tar_entries (bool_decide (take 2 (e_content e) = [31; 139])) (e_content e) = Ok entries /\
    Forall (acceptable limits) entries /\ (entries <> [] -> lenN entries <= sl_files limits) /\
    within limits (N.max (lenN (e_content e)) 1) (declared_sizes entries).

Lemma read_file_spec p t :
  post (read_file p) t (fun t' r n => t' = t /\ forall c, r = Ok c -> exists e, t !! p = Some e /\
    e_kind e <> Kind_Directory /\ c = e_content e).
Proof. unfold read_file. disk; split; try done. intros c Hc. run Hc. prop_of_bool. eauto. Qed.

Lemma open_existing_spec p t : post (open_existing p) t (fun t' r n => t' = t).
Proof. unfold open_existing. by disk. Qed.

Lemma extract_into_spec archive (root : Path) limits t :
  rooted root t -> plain root t ->
  post (extract_into archive root limits) t (fun t' r n =>
    confined root t t' /\ plain root t' /\
    (r = Ok tt -> exists entries, extracted_from limits t archive entries /\
       forall written, files_are root t written -> files_are root t' (archive_files entries ++ written))).
Proof.
  intros Hroot Hp. unfold extract_into, file_len.
  apply post_handle, post_handle. eapply post_impl; [apply read_file_spec|].
  intros t' [c|e] n [-> Hc]; cbn beta iota; [|apply post_raise; cbn beta iota; apply post_raise; by split_and!].
  destruct (Hc c eq_refl) as (e & He & Hkind & ->). apply post_done. cbn beta iota zeta.
  apply post_handle. eapply post_impl; [apply open_existing_spec|].
  intros t' [[]|?] n' ->; cbn beta iota; [|apply post_raise; by split_and!].
  apply post_handle. eapply post_impl; [apply read_file_spec|].
  intros t' [c'|?] n'' [-> Hc']; cbn beta iota; [|apply post_raise; by split_and!].
  destruct (Hc' c' eq_refl) as (e' & He' & _ & ->). rewrite He in He'. injection He' as <-.
  apply post_handle. eapply post_impl; [apply open_existing_spec|].
  intros t' [[]|?] n3 ->; cbn beta iota zeta; [|apply post_raise; by split_and!].
  destruct (tar_entries _ _) as [entries|] eqn:Ht; [|apply post_raise; by split_and!].
  eapply post_impl; [apply (extract_entries_spec archive root); [done|done|split; lia]|].
  intros t1 r1 n1 (Hc1 & Hp1 & Hok). split_and!; [done|done|]. intros ->.
  destruct (Hok eq_refl) as (Ha & Hn & Hl & Hf). exists entries. split; [|done]. exists e.
  rewrite N.add_0_l in Hl. by split_and!.
Qed.

(** ** The whole extraction *)

Lemma below_Some (dir q : Path) k : below dir q = Some k <-> q = k ++ dir.
Proof.
  unfold below. cbn zeta. case_bool_decide as H.
  - split; [by intros [= <-]|]. intros ->. f_equal. rewrite length_app, Nat.add_sub. by rewrite take_app_length.
  - split; [done|]. intros ->. exfalso. apply H. by rewrite length_app, Nat.add_sub, take_app_length.
Qed.

Lemma lookup_move_tree (src dst : Path) t :
  (forall k, t !! (k ++ dst) = None) ->
  (forall k, move_tree src dst t !! (k ++ dst) = t !! (k ++ src)) /\
  (forall q, below dst q = None -> move_tree src dst t !! q = match below src q with Some _ => None | None => t !! q end).
Proof.
  intros Hfree. assert (Hinj : Inj (=) (=) (fun k : Path => k ++ dst)) by (intros a b Hab; by apply (app_inv_tail dst)).
  set (f := fun '((q, e) : Path * Entry bytes) => (fun k => (k, e)) <$> below src q).
  assert (Hf : forall k e, (k, e) ∈ omap f (map_to_list t) <-> t !! (k ++ src) = Some e).
  { intros k e. rewrite list_elem_of_omap. split.
    - intros ([q e0] & Hq%elem_of_map_to_list & Hc). cbn in Hc. destruct (below src q) eqn:E; [|done].
      apply below_Some in E as ->. by injection Hc as -> ->.
    - intros H. exists (k ++ src, e). split; [by apply elem_of_map_to_list|]. cbn.
      by rewrite (proj2 (below_Some src (k ++ src) k) eq_refl). }
  assert (Hsub : forall k, (list_to_map (omap f (map_to_list t)) : gmap Path (Entry bytes)) !! k = t !! (k ++ src)).
  { intros k. apply option_eq. intros e. split.
    - intros H%elem_of_list_to_map_2. by apply Hf.
    - intros H. apply elem_of_list_to_map_1'; [|by apply Hf]. intros e' He'%Hf. congruence. }
  unfold move_tree. fold f. split.
  - intros k. rewrite lookup_union. assert (Hk := lookup_kmap (fun k : Path => k ++ dst)
      (list_to_map (omap f (map_to_list t)) : gmap Path (Entry bytes)) k). cbn beta in Hk. rewrite Hk, Hsub.
    rewrite map_lookup_filter_None_2; [by destruct (t !! (k ++ src))|]. left. apply Hfree.
  - intros q Hq. rewrite lookup_union_r.
    + destruct (below src q) as [k|] eqn:E.
      * apply map_lookup_filter_None_2. right. intros e _. cbn. congruence.
      * apply option_eq. intros e. rewrite map_lookup_filter_Some. naive_solver.
    + apply lookup_kmap_None; [apply _|]. intros k ->. by rewrite (proj2 (below_Some dst (k ++ dst) k) eq_refl) in Hq.
Qed.

Lemma mark_complete_spec (root : Path) t :
  is_Some (t !! root) -> plain root t ->
  post (mark_complete root) t (fun t' r n =>
    confined root t t' /\ plain root t' /\
    (r = Ok tt -> (exists mode, t' !! (COMPLETE_MARKER :: root) = Some (mkEntry Kind_File user mode [])) /\
       forall written, files_are root t written -> files_are root t' (([COMPLETE_MARKER], []) :: written))).
Proof.
  intros Hroot Hp. unfold mark_complete. apply post_handle. unfold open_new.
  eapply post_impl; [apply create_spec|]. intros t1 [[]|e] n1; cbn beta iota.
  2:{ intros (-> & _). apply post_raise. by split_and!. }
  intros (_ & Hfree & ->).
  destruct (create_new_file root [COMPLETE_MARKER] t (N.ldiff 438 umask)) with (content := [] : bytes) as (Hc & Hpl & Hf);
    [done| |done|done|].
  { constructor; [|constructor]. split_and!; try done. apply (bool_decide_unpack _). vm_compute. exact I. }
  apply post_handle. unfold next_entry. apply post_call; intros step; cbn beta iota; (apply post_done || apply post_raise);
    (split; [exact Hc|split; [exact Hpl|try done]]).
  intros _. split; [eexists; apply lookup_insert_eq|exact Hf].
Qed.

(** ** An existing extraction *)

(** Below [root], names are proper and what holds an entry is a directory. *)
Definition wf_at (root : Path) t : Prop :=
  forall c k e, t !! (c :: k ++ root) = Some e ->
    proper_name c /\ exists e', t !! (k ++ root) = Some e' /\ e_kind e' = Kind_Directory.

Definition kind_is (kind : FileKind) t q : Prop := exists e, t !! q = Some e /\ e_kind e = kind.

(** Files and directories only, whatever their names. *)
Definition regular_below (root : Path) t : Prop :=
  forall k e, k <> [] -> t !! (k ++ root) = Some e -> e_kind e = Kind_File \/ e_kind e = Kind_Directory.

Lemma wf_names (root : Path) t k e : wf_at root t -> t !! (k ++ root) = Some e -> Forall proper_name k.
Proof.
  intros Hwf. revert e. induction k as [|c k IH]; intros e He; [constructor|].
  destruct (Hwf c k e He) as (Hc & e' & He' & _). constructor; [done|]. by eapply IH.
Qed.

(** The prefixes of what exists are directories. *)
Lemma wf_prefix (root : Path) t k k' e :
  wf_at root t -> t !! (k ++ k' ++ root) = Some e -> k <> [] -> kind_is Kind_Directory t (k' ++ root).
Proof.
  intros Hwf. revert e. induction k as [|c k IH]; intros e He Hk; [done|].
  cbn in He. rewrite app_assoc in He. destruct (Hwf c (k ++ k') e He) as (_ & e' & He' & Hd).
  rewrite <- app_assoc in He'. destruct k as [|c' k]; [by exists e'|]. by apply (IH e').
Qed.

Lemma validate_names_spec directory names pending t :
  post (validate_names directory names pending) t (fun t' r n => t' = t /\
    (forall pending', r = Ok pending' -> Forall (fun name => kind_is Kind_File t (name :: directory) \/
        kind_is Kind_Directory t (name :: directory)) names /\
      pending' = rev (List.map (fun name => name :: directory) (List.filter (fun name =>
        bool_decide (e_kind <$> t !! (name :: directory) = Some Kind_Directory)) names)) ++ pending) /\
    (n = 0%nat -> Forall (fun name => kind_is Kind_File t (name :: directory) \/
        kind_is Kind_Directory t (name :: directory)) names -> is_ok r = true)).
Proof.
  revert pending. induction names as [|name names IH]; intros pending; cbn [validate_names].
  { apply post_done. split_and!; try done. by intros ? [= <-]. }
  apply post_handle. unfold next_entry. apply post_call; intros step; cbn beta iota.
  { apply post_raise. by split_and!. }
  apply post_handle. unfold symlink_metadata. apply post_call; intros step'; cbn beta iota.
  { apply post_raise. by split_and!. }
  destruct (t !! (name :: directory)) as [e|] eqn:He; cbn [ok_or].
  2:{ apply post_raise. split_and!; try done. intros _ [[(? & ? & _)|(? & ? & _)] _]%Forall_cons; congruence. }
  assert (Hbad : e_kind e <> Kind_File -> e_kind e <> Kind_Directory ->
    ~ Forall (fun name => kind_is Kind_File t (name :: directory) \/ kind_is Kind_Directory t (name :: directory)) (name :: names)).
  { intros Hf Hd [[(? & ? & ?)|(? & ? & ?)] _]%Forall_cons; congruence. }
  destruct (e_kind e) eqn:Hk; try (apply post_raise; split_and!; [done|done|]; intros _ Hall; by destruct Hbad).
  - eapply post_impl; [apply IH|]. intros t' r n (-> & Hok & Hn). split_and!; [done| |].
    + intros pending' ->. destruct (Hok _ eq_refl) as [Hall ->]. cbn [List.filter]. rewrite He. cbn. rewrite Hk.
      split; [constructor; [left; by exists e|done]|]. done.
    + intros Hz [_ Hall]%Forall_cons. by apply Hn.
  - eapply post_impl; [apply IH|]. intros t' r n (-> & Hok & Hn). split_and!; [done| |].
    + intros pending' ->. destruct (Hok _ eq_refl) as [Hall ->]. cbn [List.filter]. rewrite He. cbn [fmap option_fmap option_map]. rewrite Hk, bool_decide_eq_true_2 by done. cbn.
      split; [constructor; [right; by exists e|done]|]. by rewrite <- app_assoc.
    + intros Hz [_ Hall]%Forall_cons. by apply Hn.
Qed.

(** The directories that reading [directory] adds. *)
Definition subdirectories directory t : list Path :=
  rev (List.map (fun name => name :: directory) (List.filter (fun name =>
    bool_decide (e_kind <$> t !! (name :: directory) = Some Kind_Directory)) (omap (child_name directory) (map_to_list t).*1))).

Lemma elem_of_children directory t name :
  name ∈ omap (child_name directory) (map_to_list t).*1 <-> is_Some (t !! (name :: directory)).
Proof.
  rewrite list_elem_of_omap. split.
  - intros (q & ([q' e] & -> & Hq%elem_of_map_to_list)%list_elem_of_fmap & Hc%child_name_Some). cbn in Hc. subst q'. eauto.
  - intros [e He]. exists (name :: directory). split; [|by apply child_name_Some].
    apply list_elem_of_fmap. exists (name :: directory, e). split; [done|]. by apply elem_of_map_to_list.
Qed.

Lemma elem_of_subdirectories directory t q :
  q ∈ subdirectories directory t <-> exists name, q = name :: directory /\ kind_is Kind_Directory t q.
Proof.
  unfold subdirectories. rewrite list_elem_of_In, <- in_rev, in_map_iff. split.
  - intros (name & <- & [_ Hk]%filter_In). exists name. split; [done|]. apply bool_decide_eq_true in Hk.
    destruct (t !! (name :: directory)) as [e|] eqn:He; [|done]. exists e. split; [done|]. by injection Hk.
  - intros (name & -> & e & He & Hk). exists name. split; [done|]. apply filter_In. split.
    + apply list_elem_of_In, elem_of_children. eauto.
    + apply bool_decide_eq_true. rewrite He. cbn. by rewrite Hk.
Qed.

Lemma wf_at_below (root : Path) k t : wf_at root t -> wf_at (k ++ root) t.
Proof.
  intros Hwf c k' e He. rewrite app_assoc in He. destruct (Hwf c (k' ++ k) e He) as (Hc & e' & He' & Hd).
  split; [done|]. exists e'. by rewrite app_assoc.
Qed.

Lemma regular_step directory t :
  wf_at directory t ->
  Forall (fun name => kind_is Kind_File t (name :: directory) \/ kind_is Kind_Directory t (name :: directory))
    (omap (child_name directory) (map_to_list t).*1) ->
  (forall d, d ∈ subdirectories directory t -> regular_below d t) -> regular_below directory t.
Proof.
  intros Hwf Hall Hsub k e Hk He. destruct (exists_last Hk) as (k' & c & ->). rewrite <- app_assoc in He. cbn in He.
  destruct (decide (k' = [])) as [->|Hk'].
  - rewrite Forall_forall in Hall. destruct (Hall c) as [(? & ? & ?)|(? & ? & ?)]; [apply elem_of_children; by exists e|..];
      cbn in He; simplify_eq; auto.
  - apply (Hsub (c :: directory)) with k'; [|done|done]. apply elem_of_subdirectories. exists c. split; [done|].
    by apply (wf_prefix directory t k' [c] e).
Qed.

Lemma read_dir_spec directory t :
  post (read_dir directory) t (fun t' r n => t' = t /\
    (forall names, r = Ok names -> names = omap (child_name directory) (map_to_list t).*1) /\ (n = 0%nat -> is_ok r = true)).
Proof. unfold read_dir. apply post_call; intros step; cbn; split_and!; try done. by intros names [= <-]. Qed.

Lemma validate_pending_sound fuel pending t :
  post (validate_pending fuel pending) t (fun t' r n => t' = t /\
    (r = Ok tt -> Forall (fun d => wf_at d t -> regular_below d t) pending)).
Proof.
  revert pending. induction fuel as [|fuel IH]; intros [|directory pending]; cbn [validate_pending];
    try (by apply post_done || by apply post_raise).
  apply post_handle. eapply post_impl; [apply read_dir_spec|]. intros t' [names|e] n (-> & Hn & _); cbn beta iota;
    [|by apply post_raise]. specialize (Hn _ eq_refl) as ->.
  apply post_handle. eapply post_impl; [apply validate_names_spec|]. intros t' [pending'|e] n' (-> & Hok & _); cbn beta iota;
    [|by apply post_raise]. destruct (Hok _ eq_refl) as [Hall ->]. fold (subdirectories directory t).
  eapply post_impl; [apply IH|]. intros t' r n2 [-> Hr]. split; [done|]. intros ->.
  specialize (Hr eq_refl). apply Forall_app in Hr as [Hsub Hr]. constructor; [|done]. intros Hwf.
  apply regular_step; [done..|]. intros d Hd. rewrite Forall_forall in Hsub. apply Hsub; [done|].
  apply elem_of_subdirectories in Hd as (c & -> & _). by apply (wf_at_below directory [c]).
Qed.

(** What is at or below one of the pending directories. *)
Definition covered t (pending : list Path) : gset Path :=
  filter (fun q => Exists (fun d => d `suffix_of` q) pending) (dom t).

(** No pending directory is another or lies below another. *)
Definition separate (pending : list Path) : Prop :=
  NoDup pending /\ forall d d', d ∈ pending -> d' ∈ pending -> d `suffix_of` d' -> d = d'.

Lemma NoDup_children (directory : Path) (l : list Path) : NoDup l -> NoDup (omap (child_name directory) l).
Proof.
  induction 1 as [|q l Hq _ IH]; [constructor|]. cbn. destruct (child_name directory q) as [n|] eqn:E; [|done].
  constructor; [|done]. intros (q' & Hq' & E')%list_elem_of_omap. apply child_name_Some in E, E'. congruence.
Qed.

Lemma separate_step directory pending t :
  separate (directory :: pending) -> separate (subdirectories directory t ++ pending).
Proof.
  intros [Hnd Hs]. apply NoDup_cons in Hnd as [Hd Hnd].
  assert (Hsub : forall d, d ∈ subdirectories directory t -> exists c, d = c :: directory).
  { intros d (c & -> & _)%elem_of_subdirectories. eauto. }
  assert (Hpend : forall c d, d ∈ pending -> ~ d `suffix_of` c :: directory /\ ~ (c :: directory) `suffix_of` d).
  { intros c d Hp. split.
    - intros [->|Hsuf]%suffix_cons_cases.
      + assert (directory = c :: directory) as Heq by (apply Hs; [by left|by right|by exists [c]]).
        apply (f_equal length) in Heq. cbn in Heq. lia.
      + assert (d = directory) as -> by (apply Hs; [by right|by left|done]). done.
    - intros Hsuf. assert (directory = d) as -> by (apply Hs; [by left|by right|etransitivity; [|exact Hsuf]; by exists [c]]). done. }
  split.
  - apply NoDup_app. split; [|split; [|done]].
    + unfold subdirectories. apply NoDup_ListNoDup, NoDup_rev, NoDup_ListNoDup. apply NoDup_fmap_2_strong; [by intros ???? [= ->]|].
      apply NoDup_ListNoDup, List.NoDup_filter, NoDup_ListNoDup. apply NoDup_children, NoDup_fst_map_to_list.
    + intros d Hin Hp. destruct (Hsub d Hin) as [c ->]. by destruct (Hpend c (c :: directory) Hp) as [[] _].
  - intros d d' [Hin|Hin]%elem_of_app [Hin'|Hin']%elem_of_app Hsuf.
    + destruct (Hsub d Hin) as [c ->], (Hsub d' Hin') as [c' ->]. apply suffix_cons_cases in Hsuf as [?|Hsuf]; [done|].
      apply suffix_length in Hsuf. cbn in Hsuf. lia.
    + destruct (Hsub d Hin) as [c ->]. by destruct (Hpend c d' Hin') as [_ []].
    + destruct (Hsub d' Hin') as [c ->]. by destruct (Hpend c d Hin) as [[] _].
    + apply Hs; [by right|by right|done].
Qed.

Lemma covered_step directory pending t :
  is_Some (t !! directory) -> separate (directory :: pending) ->
  (size (covered t (subdirectories directory t ++ pending)) < size (covered t (directory :: pending)))%nat.
Proof.
  intros Hex [Hnd Hs]. apply NoDup_cons in Hnd as [Hd _]. apply subset_size. split.
  - intros q Hq. unfold covered in *. apply elem_of_filter in Hq as [Hc Hq]. apply elem_of_filter. split; [|done].
    apply Exists_app in Hc as [Hc|Hc]; [|by right]. left. apply Exists_exists in Hc as (d & Hd' & Hsuf).
    apply elem_of_subdirectories in Hd' as (c & -> & _). etransitivity; [|exact Hsuf]. by exists [c].
  - intros Hsub. specialize (Hsub directory). unfold covered in Hsub. rewrite !elem_of_filter in Hsub.
    destruct Hsub as [Hc _]; [split; [by left|by apply elem_of_dom]|].
    apply Exists_app in Hc as [Hc|Hc]; apply Exists_exists in Hc as (d & Hd' & Hsuf).
    + apply elem_of_subdirectories in Hd' as (c & -> & _). apply suffix_length in Hsuf. cbn in Hsuf. lia.
    + assert (d = directory) as -> by (apply Hs; [by right|by left|done]). done.
Qed.

(** The fuel is enough: without failures of the system a regular tree is accepted. *)
Lemma validate_pending_complete fuel pending t :
  separate pending -> Forall (kind_is Kind_Directory t) pending -> Forall (fun d => regular_below d t) pending ->
  (size (covered t pending) <= fuel)%nat ->
  post (validate_pending fuel pending) t (fun t' r n => n = 0%nat -> r = Ok tt).
Proof.
  revert pending. induction fuel as [|fuel IH]; intros [|directory pending] Hsep Hdir Hreg Hfuel; cbn [validate_pending];
    try (by apply post_done).
  - exfalso. apply Forall_cons in Hdir as [(e & He & _) _]. assert (Hc := covered_step directory pending t (mk_is_Some _ _ He) Hsep). lia.
  - apply Forall_cons in Hdir as [Hd Hdir]. apply Forall_cons in Hreg as [Hr Hreg].
    apply post_handle. eapply post_impl; [apply read_dir_spec|]. intros t' r n (-> & Hn & Hz).
    destruct r as [names|e]; cbn beta iota; [|apply post_raise; intros Hz'; destruct n; [by specialize (Hz eq_refl)|done]].
    specialize (Hn _ eq_refl) as ->. apply post_handle. eapply post_impl; [apply validate_names_spec|].
    intros t' r n' (-> & Hok & Hz2). assert (Hall : Forall (fun name => kind_is Kind_File t (name :: directory) \/
        kind_is Kind_Directory t (name :: directory)) (omap (child_name directory) (map_to_list t).*1)).
    { apply Forall_forall. intros c [e He]%elem_of_children. destruct (Hr [c] e) as [?|?]; [done|done|left|right]; by exists e. }
    destruct r as [pending'|e]; cbn beta iota.
    + destruct (Hok _ eq_refl) as [_ ->]. fold (subdirectories directory t). destruct Hd as (e & He & Hd).
      eapply post_impl; [apply IH|].
      * by apply separate_step.
      * apply Forall_app. split; [|done]. apply Forall_forall. by intros d (c & _ & ?)%elem_of_subdirectories.
      * apply Forall_app. split; [|done]. apply Forall_forall. intros d (c & -> & _)%elem_of_subdirectories k e' Hk He'.
        apply (Hr (k ++ [c]) e'); [by destruct k|]. by rewrite <- app_assoc.
      * assert (Hc := covered_step directory pending t (mk_is_Some _ _ He) Hsep). lia.
      * cbn. intros t' r n'' H Hz'. apply H. lia.
    + apply post_raise. intros Hz'. assert (n' = 0%nat) as -> by lia. by specialize (Hz2 eq_refl Hall).
Qed.

(** A directory that can be used: complete, with files and directories only. *)
Definition complete (destination : Path) t : Prop :=
  kind_is Kind_Directory t destination /\ kind_is Kind_File t (COMPLETE_MARKER :: destination) /\ plain destination t.

Lemma validate_extraction_spec (destination : Path) t :
  wf_at destination t ->
  post (validate_extraction destination) t (fun t' r n => t' = t /\
    (r = Ok tt -> complete destination t) /\ (n = 0%nat -> complete destination t -> r = Ok tt)).
Proof.
  intros Hwf. unfold validate_extraction. apply post_handle. unfold symlink_metadata at 1.
  apply post_call; intros step; cbn beta iota; [apply post_raise; by split_and!|].
  destruct (t !! destination) as [e|] eqn:He; cbn [ok_or].
  2:{ apply post_raise. split_and!; try done. intros _ [(e & ? & _) _]. congruence. }
  destruct (bool_decide (e_kind e = Kind_Directory)) eqn:Hd; cbn [negb].
  2:{ apply post_raise. split_and!; try done. apply bool_decide_eq_false in Hd. intros _ [(e' & ? & ?) _]. congruence. }
  apply bool_decide_eq_true in Hd. apply post_handle. unfold symlink_metadata.
  apply post_call; intros step'; cbn beta iota; [apply post_raise; by split_and!|].
  destruct (t !! (COMPLETE_MARKER :: destination)) as [m|] eqn:Hm; cbn [ok_or].
  2:{ apply post_raise. split_and!; try done. intros _ (_ & (m & ? & _) & _). congruence. }
  destruct (bool_decide (e_kind m = Kind_File)) eqn:Hf; cbn [negb].
  2:{ apply post_raise. split_and!; try done. apply bool_decide_eq_false in Hf. intros _ (_ & (m' & ? & ?) & _). congruence. }
  apply bool_decide_eq_true in Hf. intros d Hdisk. unfold observe. rewrite Hdisk.
  assert (Hs := validate_pending_sound (S (size t)) [destination] t d Hdisk).
  assert (Hc : regular_below destination t -> post (validate_pending (S (size t)) [destination]) t (fun t' r n => n = 0%nat -> r = Ok tt)).
  { intros Hreg. apply validate_pending_complete.
    - split; [apply NoDup_singleton|]. by intros d1 d2 ->%list_elem_of_singleton ->%list_elem_of_singleton.
    - constructor; [by exists e|constructor].
    - constructor; [exact Hreg|constructor].
    - rewrite <- size_dom. apply Nat.le_le_succ_r, subseteq_size. intros q Hq. by apply elem_of_filter in Hq as [_ ?]. }
  destruct (validate_pending _ _ d) as [[d' l] r] eqn:Ev. destruct Hs as (Hscript & Hticks & -> & Hok).
  split; [done|]. split; [done|]. split_and!; [done| |].
  - intros ->. specialize (Hok eq_refl). apply Forall_cons in Hok as [Hok _]. specialize (Hok Hwf).
    split_and!; [by exists e|by exists m|]. intros k e' Hk He'. split; [by eapply Hok|by eapply wf_names].
  - intros Hz (_ & _ & Hp). assert (Hreg : regular_below destination t) by (intros k e' Hk He'; by apply (Hp k)).
    specialize (Hc Hreg d Hdisk). rewrite Ev in Hc. destruct Hc as (_ & _ & Hc). apply Hc. cbn in Hz. lia.
Qed.

(** ** The theorem *)

(** What exists lies in a directory, under a proper name. *)
Definition wf_tree t : Prop := forall c q e, t !! (c :: q) = Some e -> proper_name c /\ kind_is Kind_Directory t q.

Definition same_below (root : Path) t t' : Prop := forall k, t' !! (k ++ root) = t !! (k ++ root).

Lemma wf_tree_at t (root : Path) : wf_tree t -> wf_at root t.
Proof. intros Hwf c k e He. by apply (Hwf c (k ++ root)) in He. Qed.

Lemma wf_at_same (root : Path) t t' : same_below root t t' -> wf_at root t -> wf_at root t'.
Proof.
  intros Hs Hwf c k e He. change (c :: k ++ root) with ((c :: k) ++ root) in He. rewrite Hs in He.
  destruct (Hwf c k e He) as (Hc & e' & He' & Hd). split; [done|]. exists e'. by rewrite Hs.
Qed.

Lemma absent_below t (root : Path) k : wf_at root t -> t !! root = None -> t !! (k ++ root) = None.
Proof.
  intros Hwf Hn. induction k as [|c k IH]; [done|]. destruct (t !! ((c :: k) ++ root)) as [e|] eqn:He; [|done].
  apply (Hwf c k) in He as (_ & e' & He' & _). congruence.
Qed.

Lemma complete_same (root : Path) t t' : same_below root t t' -> complete root t -> complete root t'.
Proof.
  intros Hs ((e & He & Hd) & (m & Hm & Hf) & Hp). split_and!.
  - exists e. split; [|done]. by rewrite <- He; apply (Hs []).
  - exists m. split; [|done]. by rewrite <- Hm; apply (Hs [COMPLETE_MARKER]).
  - intros k e' Hk He'. rewrite Hs in He'. by apply (Hp k).
Qed.

Lemma remove_dir_all_spec (root : Path) t :
  post (remove_dir_all root) t (fun t' r n =>
    (forall q, ~ root `suffix_of` q -> t' !! q = t !! q) /\ (n = 0%nat -> forall k, t' !! (k ++ root) = None)).
Proof.
  unfold remove_dir_all. apply post_call; intros step; cbn beta iota.
  - split; [|done]. intros q Hq. apply option_eq. intros e. rewrite map_lookup_filter_Some. naive_solver.
  - split.
    + intros q Hq. apply option_eq. intros e. rewrite map_lookup_filter_Some. naive_solver.
    + intros _ k. apply map_lookup_filter_None_2. right. intros e _ Hs. apply Hs. by exists k.
Qed.

Lemma exists_path_spec p t :
  post (exists_path p) t (fun t' r n => t' = t /\ exists b, r = Ok b).
Proof. unfold exists_path. disk; eauto. Qed.

Section destination.
Context (name : list N) (parent archive : Path) (limits : FeatureSourceLimits) (t : gmap Path (Entry bytes)).
Context (Hwf : wf_at parent t).
Let destination : Path := name :: parent.

(** Outside the destination and the temporary directory only missing ancestors are made. *)
Definition outside_kept (suffix : option (list N)) t' : Prop :=
  forall q, ~ destination `suffix_of` q ->
    (forall s, suffix = Some s -> ~ (($".extract-" ++ s) :: parent) `suffix_of` q) ->
    t' !! q = t !! q \/ (t !! q = None /\ q `suffix_of` parent /\ new_dir t' q).

Definition extraction_outcome (suffix : option (list N)) t' (r : result FeatureSourceError unit) (n : nat) : Prop :=
  outside_kept suffix t' /\
  match r with
  | Ok _ => complete destination t' /\
      (same_below destination t t' \/
       exists entries, extracted_from limits t archive entries /\
         files_are destination t' (([COMPLETE_MARKER], []) :: archive_files entries))
  | Err _ => same_below destination t t'
  end /\
  (n = 0%nat -> forall s, suffix = Some s -> same_below (($".extract-" ++ s) :: parent) t t').

(** The parent exists or was made. *)
Lemma grown_sibling t1 c : grown parent t t1 -> same_below (c :: parent) t t1.
Proof.
  intros Hg k. destruct (Hg (k ++ c :: parent)) as [?|(_ & Hs & _)]; [done|].
  apply suffix_length in Hs. rewrite length_app in Hs. cbn in Hs. lia.
Qed.

Lemma grown_outside suffix t1 : grown parent t t1 -> outside_kept suffix t1.
Proof. intros Hg q _ _. destruct (Hg q) as [?|(? & ? & _ & ?)]; auto. Qed.

Lemma grown_outcome suffix t1 e n : grown parent t t1 -> extraction_outcome suffix t1 (Err e) n.
Proof.
  intros Hg. split_and!; [by apply grown_outside|by apply grown_sibling|]. intros _ s _. by apply grown_sibling.
Qed.

Lemma sibling_below (c c' : list N) k : (c :: parent) `suffix_of` k ++ c' :: parent -> c = c'.
Proof. intros [x Hx]. apply app_inj_2 in Hx as [_ Hx]; [|done]. by injection Hx. Qed.

Section temporary.
Context (s : list N) (Hname : name <> $".extract-" ++ s) (t1 : gmap Path (Entry bytes)).
Context (Hgrown : grown parent t t1) (Hparent : kind_is Kind_Directory t1 parent).
Let temporary : Path := ($".extract-" ++ s) :: parent.
Context (Hfree : t1 !! temporary = None).

(** The state while the temporary directory is filled. *)
Definition filling t' : Prop := forall q, ~ temporary `suffix_of` q -> t' !! q = t1 !! q.

Lemma temporary_absent k : t !! (k ++ temporary) = None.
Proof.
  apply absent_below; [by apply (wf_at_below parent [_])|]. destruct (Hgrown temporary) as [<-|(? & _)]; done.
Qed.

Lemma filling_outside t' : filling t' -> outside_kept (Some s) t'.
Proof.
  intros Hf q Hq Ht. specialize (Ht s eq_refl). destruct (grown_outside (Some s) t1 Hgrown q Hq) as [Heq|(Hn & Hs & mode & Hd)].
  - intros s' [= <-]. done.
  - left. by rewrite (Hf q Ht).
  - right. split; [done|]. split; [done|]. exists mode. by rewrite (Hf q Ht).
Qed.

Lemma filling_destination t' : filling t' -> same_below destination t t'.
Proof.
  intros Hf k. rewrite Hf by (intros Hb; by apply sibling_below in Hb). by apply grown_sibling.
Qed.

Lemma filling_failed t' e n :
  filling t' -> (n = 0%nat -> forall k, t' !! (k ++ temporary) = None) -> extraction_outcome (Some s) t' (Err e) n.
Proof.
  intros Hf Hz. split_and!; [by apply filling_outside|by apply filling_destination|].
  intros Hn s' [= <-] k. change (t' !! (k ++ temporary) = t !! (k ++ temporary)). by rewrite temporary_absent, (Hz Hn k).
Qed.

Lemma confined_filling t2 t' : filling t2 -> confined temporary t2 t' -> filling t'.
Proof. intros Hf Hc q Hq. rewrite Hc; [by apply Hf|]. intros [_ ?]. done. Qed.

Definition emptied : gmap Path (Entry bytes) :=
  <[temporary := mkEntry Kind_Directory user (N.ldiff 511 umask) []]> t1.

Lemma emptied_filling : filling emptied.
Proof. intros q Hq. apply lookup_insert_ne. by intros <-. Qed.

Lemma emptied_below k : k <> [] -> emptied !! (k ++ temporary) = None.
Proof.
  intros Hk. unfold emptied. rewrite lookup_insert_ne.
  - etransitivity; [apply (grown_sibling t1 ($".extract-" ++ s) Hgrown k)|apply temporary_absent].
  - intros Heq. apply Hk. apply (app_inv_tail temporary). by rewrite <- Heq.
Qed.

Lemma emptied_ready : rooted temporary emptied /\ plain temporary emptied /\ files_are temporary emptied [].
Proof.
  split_and!.
  - split; [unfold emptied; by rewrite lookup_insert_eq|]. cbn. unfold emptied. destruct Hparent as (e & He & _).
    rewrite lookup_insert_ne; [by rewrite He|]. intros Heq. apply (f_equal length) in Heq. cbn in Heq. lia.
  - intros k e Hk He. by rewrite emptied_below in He.
  - intros k c. split; [|by intros ?%not_elem_of_nil]. intros (e & He & Hk & _). by rewrite emptied_below in He.
Qed.

Lemma extracted_before entries : extracted_from limits emptied archive entries -> extracted_from limits t archive entries.
Proof.
  intros (e & He & Hk & Hrest). exists e. split; [|done]. unfold emptied in He.
  destruct (decide (archive = temporary)) as [->|Hne].
  - rewrite lookup_insert_eq in He. by injection He as <-.
  - rewrite lookup_insert_ne in He by done. destruct (Hgrown archive) as [<-|(_ & _ & _ & mode & Hd)]; [done|].
    rewrite Hd in He. by injection He as <-.
Qed.

Lemma fill_spec :
  post (do? _ := extract_into archive temporary limits else raise in mark_complete temporary) emptied (fun t' r n =>
    filling t' /\ kind_is Kind_Directory t' temporary /\ plain temporary t' /\
    (r = Ok tt -> exists entries, extracted_from limits t archive entries /\
       kind_is Kind_File t' (COMPLETE_MARKER :: temporary) /\
       files_are temporary t' (([COMPLETE_MARKER], []) :: archive_files entries))).
Proof.
  destruct emptied_ready as (Hr & Hp & Hf).
  assert (Hdir : forall t', confined temporary emptied t' -> kind_is Kind_Directory t' temporary).
  { intros t' Hc. eexists. rewrite Hc by (intros [[] _]; done). unfold emptied. split; [apply lookup_insert_eq|done]. }
  apply post_handle. eapply post_impl; [by apply extract_into_spec|].
  intros t2 [[]|e] n (Hc & Hp2 & Hok); cbn beta iota.
  2:{ apply post_raise. split_and!; [eapply confined_filling; [apply emptied_filling|done]|by apply Hdir|done|done]. }
  destruct (Hok eq_refl) as (entries & Hx & Hfiles). apply Hfiles in Hf. rewrite app_nil_r in Hf.
  eapply post_impl; [apply mark_complete_spec; [|done]|].
  { destruct (rooted_confined _ _ _ Hr Hc) as [? _]. done. }
  intros t3 r3 n3 (Hc3 & Hp3 & Hok3). assert (Hc' : confined temporary emptied t3) by (by eapply confined_trans).
  split_and!; [eapply confined_filling; [apply emptied_filling|done]|by apply Hdir|done|].
  intros ->. destruct (Hok3 eq_refl) as [[mode Hm] Hf3]. exists entries. split; [by apply extracted_before|].
  split; [by eexists|]. by apply Hf3.
Qed.

(** After a successful move the destination is what the temporary directory was. *)
Lemma moved_outcome t' t0 entries n :
  filling t' -> kind_is Kind_Directory t' temporary -> plain temporary t' -> extracted_from limits t archive entries ->
  kind_is Kind_File t' (COMPLETE_MARKER :: temporary) ->
  files_are temporary t' (([COMPLETE_MARKER], []) :: archive_files entries) ->
  (forall q, ~ destination `suffix_of` q -> t0 !! q = t' !! q) -> (forall k, t0 !! (k ++ destination) = None) ->
  extraction_outcome (Some s) (move_tree temporary destination t0) (Ok tt) n.
Proof.
  intros Hf Hd Hp Hx Hm Hfiles Heq Hnone. destruct (lookup_move_tree temporary destination t0 Hnone) as [Hin Hout].
  assert (Hmoved : forall k, move_tree temporary destination t0 !! (k ++ destination) = t' !! (k ++ temporary)).
  { intros k. rewrite Hin. apply Heq. intros Hb%sibling_below. by symmetry in Hb. }
  assert (Hnb : forall (dir : Path) q, ~ dir `suffix_of` q -> below dir q = None).
  { intros dir q Hq. destruct (below dir q) as [k|] eqn:E; [|done]. apply below_Some in E as ->. destruct Hq. by exists k. }
  split; [|split].
  - intros q Hq Ht. assert (Hval : move_tree temporary destination t0 !! q = t' !! q).
    { rewrite (Hout q (Hnb _ _ Hq)). assert (Hnt : below temporary q = None) by exact (Hnb _ _ (Ht s eq_refl)).
      by rewrite Hnt, (Heq q Hq). }
    destruct (filling_outside t' Hf q Hq Ht) as [?|(? & ? & mode & Hnew)]; [left; congruence|].
    right. split; [done|]. split; [done|]. exists mode. congruence.
  - split.
    + destruct Hd as (e & He & Hd), Hm as (m & Hm & Hmk). split; [|split].
      * exists e. split; [|done]. etransitivity; [apply (Hmoved [])|exact He].
      * exists m. split; [|done]. etransitivity; [apply (Hmoved [COMPLETE_MARKER])|exact Hm].
      * intros k e' Hk He'. rewrite Hmoved in He'. by apply (Hp k).
    + right. exists entries. split; [done|]. intros k c. rewrite <- (Hfiles k c), Hmoved. done.
  - intros _ s' [= <-] k. change (move_tree temporary destination t0 !! (k ++ temporary) = t !! (k ++ temporary)). rewrite temporary_absent, Hout.
    + by rewrite (proj2 (below_Some temporary (k ++ temporary) k) eq_refl).
    + apply Hnb. intros Hb%sibling_below. done.
Qed.
End temporary.

(** The existing destination is looked at again, in a tree that has it as it was. *)
Lemma revalidated suffix t' n :
  outside_kept suffix t' -> same_below destination t t' ->
  (n = 0%nat -> forall s, suffix = Some s -> same_below (($".extract-" ++ s) :: parent) t t') ->
  post (validate_extraction destination) t' (fun t2 r n2 => extraction_outcome suffix t2 r (n + n2)%nat).
Proof.
  intros Ho Hs Hz. assert (Hwf' : wf_at destination t') by (eapply wf_at_same; [exact Hs|by apply (wf_at_below parent [_])]).
  eapply post_impl; [by apply validate_extraction_spec|]. intros t2 r n2 (-> & Hok & _). split; [done|].
  split; [|intros Hn; apply Hz; lia]. destruct r as [[]|e]; [|done]. split; [by apply Hok|by left].
Qed.

Lemma rename_dir_spec src dst t' :
  post (rename_dir src dst) t' (fun t2 r n =>
    match r with
    | Ok _ => exists t0, t2 = move_tree src dst t0 /\ (forall q, ~ dst `suffix_of` q -> t0 !! q = t' !! q) /\ t0 !! dst = None /\
        (t0 = t' \/ forall q, strictly_below dst q -> t0 !! q = None)
    | Err _ => t2 = t'
    end).
Proof.
  unfold rename_dir. apply post_call; intros step; cbn beta iota; [done|].
  destruct (t' !! src); [|done]. destruct (t' !! dst) as [ed|] eqn:Hd.
  - destruct (_ && _) eqn:He; [|done]. apply andb_true_iff in He as [_ He]. exists (delete dst t'). split; [done|].
    split_and!; [|apply lookup_delete_eq|].
    + intros q Hq. apply lookup_delete_ne. by intros ->.
    + right. intros q Hq. rewrite lookup_delete_ne by (by intros ->; destruct Hq as [[] _]).
      destruct (t' !! q) as [eq|] eqn:Eq; [|done]. unfold is_empty_dir in He. rewrite forallb_forall in He.
      specialize (He (q, eq)). rewrite <- list_elem_of_In, elem_of_map_to_list in He. specialize (He Eq). cbn in He.
      apply negb_true_iff, bool_decide_eq_false in He. done.
  - destruct (creatable t' dst); [|done]. exists t'. by split_and!; [..|left].
Qed.

Lemma absent_destination k : t !! destination = None -> t !! (k ++ destination) = None.
Proof. apply absent_below. by apply (wf_at_below parent [_]). Qed.

(** The archive is unpacked and moved into place. *)
Lemma unpack_spec s t1 :
  name <> $".extract-" ++ s -> grown parent t t1 -> kind_is Kind_Directory t1 parent ->
  t1 !! (($".extract-" ++ s) :: parent) = None ->
  let temporary := ($".extract-" ++ s) :: parent in
  post (do? _ := (do? _ := extract_into archive temporary limits else raise in mark_complete temporary)
          else (fun error => do? _ := remove_dir_all temporary else (fun _ => raise error) in raise error) in
        do? _ := rename_dir temporary destination
          else (fun _ =>
            let after : disk_io bytes FeatureSourceError unit :=
              do? present := exists_path destination else (fun e : Empty_set => match e with end) in
              if present : bool then validate_extraction destination
              else raise (FS_ArchiveIo (On_disk destination)) in
            do? _ := remove_dir_all temporary else (fun _ => after) in after) in
        done tt) (emptied s t1) (extraction_outcome (Some s)).
Proof.
  intros Hname Hg Hd Hfree temporary. apply post_handle. eapply post_impl; [by apply fill_spec|].
  intros t2 r n (Hf & Hdir & Hp & Hok). destruct r as [[]|e]; cbn beta iota.
  2:{ apply post_handle. eapply post_impl; [apply remove_dir_all_spec|]. intros t3 r3 n3 [Hout Hin].
      assert (Hf3 : filling s t1 t3) by (intros q Hq; by rewrite Hout; [apply Hf|]).
      destruct r3; cbn beta iota; apply post_raise; (apply (filling_failed s Hname t1 Hg Hfree); [done|]);
        intros Hz; apply Hin; lia. }
  destruct (Hok eq_refl) as (entries & Hx & Hm & Hfiles).
  apply post_handle. eapply post_impl; [apply rename_dir_spec|]. intros t3 [[]|e] n3; cbn beta iota.
  - intros (t0 & -> & Heq & Hnone & Hcase). apply post_done.
    eapply (moved_outcome s Hname t1 Hg Hfree t2 t0 entries); try done.
    intros k. destruct (decide (k = [])) as [->|Hk]; [done|]. destruct Hcase as [->|Hcase].
    + rewrite (filling_destination s Hname t1 Hg t2 Hf k). apply absent_destination.
      rewrite <- Hnone. symmetry. apply (filling_destination s Hname t1 Hg t2 Hf []).
    + apply Hcase. by apply strictly_below_app.
  - intros ->. cbn zeta. apply post_handle. eapply post_impl; [apply remove_dir_all_spec|]. intros t3 r3 n4 [Hout Hin].
    assert (Hf3 : filling s t1 t3) by (intros q Hq; by rewrite Hout; [apply Hf|]).
    assert (Hafter : post (do? present := exists_path destination else (fun e : Empty_set => match e with end) in
        if present : bool then validate_extraction destination else raise (FS_ArchiveIo (On_disk destination))) t3
      (fun t2 r2 n2 => extraction_outcome (Some s) t2 r2 (n + (n3 + (n4 + n2)))%nat)).
    { apply post_handle. eapply post_impl; [apply exists_path_spec|]. intros t4 r4 n5 (-> & b & ->). cbn beta iota.
      destruct b.
      - eapply post_impl; [apply (revalidated (Some s) t3 (n + (n3 + (n4 + n5))))|].
        + by eapply (filling_outside s t1 Hg).
        + by apply (filling_destination s Hname t1 Hg).
        + intros Hz s' [= <-] k. rewrite Hin by lia. symmetry. by apply (temporary_absent s t1 Hg Hfree).
        + cbn. intros t5 r5 n6. by rewrite !Nat.add_assoc.
      - apply post_raise. apply (filling_failed s Hname t1 Hg Hfree); [done|]. intros Hz. apply Hin. lia. }
    by destruct r3.
Qed.

Lemma extract_archive_spec suffix :
  (forall s, suffix = Some s -> name <> $".extract-" ++ s) ->
  post (extract_archive suffix archive destination limits) t (extraction_outcome suffix).
Proof.
  intros Hname. unfold extract_archive. cbn zeta. apply post_handle.
  eapply post_impl; [apply exists_path_spec|]. intros t0 r n (-> & b & ->). cbn beta iota. destruct b.
  { apply (revalidated suffix t n); [intros q _ _; by left|done|done]. }
  unfold destination at 1. cbn beta iota. apply post_handle. eapply post_impl; [apply create_dir_all_spec|].
  intros t1 r n1 [Hg Hd]. destruct r as [[]|e]; cbn beta iota; [|apply post_raise; by apply grown_outcome].
  destruct (Hd eq_refl) as (e & He & Hk). destruct suffix as [s|]; [|apply post_raise; by apply grown_outcome].
  apply post_handle. eapply post_impl; [apply create_dir_spec|]. intros t2 [[]|e'] n2; cbn beta iota.
  2:{ intros [-> _]. apply post_raise. by apply grown_outcome. }
  intros [Hfree ->]. eapply post_impl; [apply (unpack_spec s t1); [by apply Hname|done|by exists e|done]|].
  intros t' r m (Ho & Hr & Hz). split; [done|]. split; [done|]. intros Hn. apply Hz. lia.
Qed.

End destination.

(** a Feature archive cannot write outside its destination, and is used whole or not at all.
    Whatever the archive holds and whatever call of the system fails: outside the destination and
    the temporary directory nothing changes but missing ancestors being made; on success the
    destination is complete, with regular files and directories under proper names only, and
    either it was there already or its files are exactly those of the archive, every entry
    acceptable and their number and declared sizes within the limits; on failure the destination is as it
    was; and nothing is left of the temporary directory unless a call failed. *)
Theorem archive_extraction_safe name parent archive limits t suffix :
  wf_tree t -> (forall s, suffix = Some s -> name <> $".extract-" ++ s) ->
  post (extract_archive suffix archive (name :: parent) limits) t (extraction_outcome name parent archive limits t suffix).
Proof. intros Hwf. apply extract_archive_spec. by apply wf_tree_at. Qed.
End archive.

(** ** An archive with one file *)

Definition quiet_step : OsStep (list N) :=
  mkOsStep false (fun _ => true) (fun _ => None) (fun _ => false) (mkOsScript (Ok tt) (Ok None) false [] (fun _ => false) [] false).
Definition sample_entry (kind : FileKind) (content : list N) : Entry (list N) := mkEntry kind 1000 448 content.
Definition cache : Path := [$"cache"].
Definition sample_tree : gmap Path (Entry (list N)) :=
  <[$"blob" :: cache := sample_entry Kind_File [7; 7]]> (<[cache := sample_entry Kind_Directory []]>
  (<[[] := sample_entry Kind_Directory []]> ∅)).
Definition sample_disk : Disk (list N) := mkDisk sample_tree (fun _ => quiet_step) 0.
Definition one_file (path : list N) (_ : bool) (_ : list N) : result unit (list (result unit TarEntry)) :=
  Ok [Ok (mkTarEntry (Some path) Tar_File 3 (Ok [1; 2; 3]))].

Lemma sample_tree_wf : wf_tree sample_tree.
Proof.
  intros c q e He. unfold sample_tree in He.
  apply lookup_insert_Some in He as [[[= <- <-] _]|[_ He]].
  { split; [split_and!; try done; apply (bool_decide_unpack _); vm_compute; exact I|]. by eexists. }
  apply lookup_insert_Some in He as [[[= <- <-] _]|[_ He]].
  { split; [split_and!; try done; apply (bool_decide_unpack _); vm_compute; exact I|]. by eexists. }
  apply lookup_insert_Some in He as [[? _]|[_ He]]; [done|]. by rewrite lookup_empty in He.
Qed.

Definition sample_extraction :=
  extract_archive 1000 18 (one_file ($"bin/tool")) (Some ($"00")) ($"blob" :: cache) ($"abc" :: cache)
    default_source_limits sample_disk.

Lemma archive_extraction_safe_witness :
  snd sample_extraction = Ok tt /\
  complete ($"abc" :: cache) (tree (fst (fst sample_extraction))) /\
  e_content <$> tree (fst (fst sample_extraction)) !! ($"tool" :: $"bin" :: $"abc" :: cache) = Some [1; 2; 3].
Proof.
  assert (Hok : snd sample_extraction = Ok tt) by (vm_compute; reflexivity).
  assert (H := archive_extraction_safe 1000 18 (one_file ($"bin/tool")) ($"abc") cache ($"blob" :: cache)
    default_source_limits sample_tree (Some ($"00")) sample_tree_wf ltac:(by intros s [= <-]) sample_disk eq_refl).
  fold sample_extraction in H. split; [exact Hok|]. split; [|vm_compute; reflexivity].
  destruct sample_extraction as [[d' l] r]. cbn [fst snd] in Hok |- *. subst r. destruct H as (_ & _ & _ & Hr & _).
  exact (proj1 Hr).
Defined.

(** A path that climbs is refused, and nothing is left. *)
Example climbing_refused :
  let '(d', _, r) := extract_archive 1000 18 (one_file ($"bin/../../x")) (Some ($"00")) ($"blob" :: cache) ($"abc" :: cache)
    default_source_limits sample_disk in
  r = Err (FS_Archive (In_archive ($"bin/../../x")) ($"path is absolute or traversing")) /\ tree d' = sample_tree.
Proof. vm_compute. split; reflexivity. Qed.
