(* ===== verification/FeatureSources.v ===== *)
(** * FeatureSources: from a reference to a verified Feature
    ([cdenv-cli/src/feature_sources/]: [http.rs], [oci.rs], [cache.rs], [local.rs], [metadata.rs], [mod.rs])

    The network is an arbitrary world that answers requests; the trace of an action is the list of
    the requests it sent, with the token they carried.  Files are on the disk of [FileTree].
    [url::Url], SHA-256, the JSON decoders and [fs::canonicalize] are parameters. *)

From S2P Require Import Prelude Text Effects Utf8 Net Identity Storage FileTree Profile FeatureReference Feature FeatureParser FeatureLock FeatureArchive.

(** ** Requests and responses *)

(** [url::Url], as far as the code uses it. *)
Class UrlApi : Type := {
  Url : Type;
  url_parse : str -> option Url;
  url_scheme : Url -> str;
  url_username : Url -> str;
  url_password : Url -> option str;
  url_host_str : Url -> option str;
  url_port_or_known_default : Url -> option N;
  url_as_str : Url -> str;
  url_join : Url -> str -> option Url;
  url_with_query : Url -> list (str * str) -> Url;
}.

(** [reqwest::Response]: the body is what successive reads of its stream give. *)
Record Response : Type := mkResponse {
  rs_status : N;
  rs_length_header : option N;
  rs_content_length : option N;
  rs_content_type : option str;
  rs_location : option str;
  rs_www_authenticate : option str;
  rs_body : list (result unit (list N));
}.

Record Request `{UrlApi} : Type := mkRequest { rq_url : Url; rq_accept : option str; rq_token : option str }.
Arguments mkRequest {_} _ _ _.
Arguments rq_url {_} _.
Arguments rq_accept {_} _.
Arguments rq_token {_} _.

(** What [Deserialize] gives for the documents of a registry. *)
(** @src cdenv-cli/src/feature_sources/oci.rs:196-201 Descriptor *)
Record Descriptor : Type := mkDescriptor { ds_media_type : str; ds_digest : str; ds_size : N }.
(** @src cdenv-cli/src/feature_sources/oci.rs:188-190 ManifestDocument *)
Record ManifestDocument : Type := mkManifest { md_layers : list Descriptor }.
(** @src cdenv-cli/src/feature_sources/oci.rs:192-194 IndexDocument *)
Record IndexDocument : Type := mkIndex { ix_manifests : list Descriptor }.
(** @src cdenv-cli/src/feature_sources/oci.rs:246-249 TokenDocument *)
Record TokenDocument : Type := mkToken { tk_token : option str; tk_access_token : option str }.
(** @src cdenv-cli/src/feature_sources/oci.rs:250-254 BearerFields *)
Record BearerFields : Type := mkBearer { bf_realm : str; bf_service : option str; bf_scope : option str }.
(** @src cdenv-cli/src/feature_sources/oci.rs:144-149 OciReference *)
Record OciReference : Type := mkOciReference {
  or_registry : str; or_repository : str; or_selector : str; or_digest : option str }.

(** @src cdenv-cli/src/feature_sources/mod.rs:27-27 OCI_MANIFEST *)
Definition OCI_MANIFEST : str := $"application/vnd.oci.image.manifest.v1+json".
(** @src cdenv-cli/src/feature_sources/mod.rs:28-28 DOCKER_MANIFEST *)
Definition DOCKER_MANIFEST : str := $"application/vnd.docker.distribution.manifest.v2+json".
(** @src cdenv-cli/src/feature_sources/mod.rs:29-29 OCI_INDEX *)
Definition OCI_INDEX : str := $"application/vnd.oci.image.index.v1+json".
(** @src cdenv-cli/src/feature_sources/mod.rs:30-30 DOCKER_LIST *)
Definition DOCKER_LIST : str := $"application/vnd.docker.distribution.manifest.list.v2+json".
(** @src cdenv-cli/src/feature_sources/mod.rs:31-31 FEATURE_LAYER *)
Definition FEATURE_LAYER : str := $"application/vnd.devcontainers.layer.v1+tar".
(** @src cdenv-cli/src/feature_sources/mod.rs:32-32 FEATURE_LAYER_GZIP *)
Definition FEATURE_LAYER_GZIP : str := $"application/vnd.devcontainers.layer.v1+tar+gzip".

(** @src cdenv-cli/src/feature_sources/mod.rs:69-74 VerifiedFeature *)
Record VerifiedFeature : Type := mkVerified { vf_package : FeaturePackage; vf_artifact : Path }.

(** [StatusCode::is_redirection], [is_success] *)
Definition is_redirection (status : N) : bool := in_range 300 399 status.
Definition is_success (status : N) : bool := in_range 200 299 status.

(** ** Pure parts of the registry protocol *)

(** @src cdenv-cli/src/feature_sources/oci.rs:151-172 OciReference::parse *)
Definition OciReference_parse (value : str) : result FeatureSourceError OciReference :=
  let '(name, digest) := match split_once [64] value with
    | Some (name, digest) => (name, Some digest)
    | None => (value, None)
    end in
  let? (registry, remainder) := ok_or (FS_Oci ($"reference has no repository")) (split_once [47] name) in
  let '(repository, tag) := match rsplit_once 58 remainder with
    | Some (before, tag) => if ends_with [47] before then (remainder, $"latest") else (before, tag)
    | None => (remainder, $"latest")
    end in
  Ok (mkOciReference registry repository (default tag digest) digest).

(** @src cdenv-cli/src/feature_sources/cache.rs:133-148 validate_digest *)
Definition validate_digest (value : str) : result FeatureSourceError unit :=
  let? hex := ok_or (FS_Oci ($"only SHA-256 digests are supported")) (strip_prefix ($"sha256:") value) in
  if (str_len hex =? 64)
     && forallb (fun c => (is_ascii_digit c || in_range 97 102 c || in_range 65 70 c) && negb (is_ascii_uppercase c)) hex
  then Ok tt else Err (FS_Oci ($"malformed SHA-256 digest")).

(** @src cdenv-cli/src/feature_sources/oci.rs:204-219 select_manifest *)
Definition select_manifest (index : IndexDocument) : result FeatureSourceError Descriptor :=
  match List.filter (fun item => bool_decide (ds_media_type item = OCI_MANIFEST) || bool_decide (ds_media_type item = DOCKER_MANIFEST))
          (ix_manifests index) with
  | [] => Err (FS_Oci ($"manifest list has no supported Feature manifest"))
  | [manifest] => let? _ := validate_digest (ds_digest manifest) in Ok manifest
  | _ => Err (FS_Oci ($"manifest list has ambiguous Feature manifests"))
  end.

(** @src cdenv-cli/src/feature_sources/oci.rs:222-243 feature_layer *)
Definition feature_layer (manifest : ManifestDocument) : result FeatureSourceError Descriptor :=
  match md_layers manifest with
  | [] => Err (FS_Oci ($"manifest has no Feature layer"))
  | [layer] =>
      fail_if negb (bool_decide (ds_media_type layer = FEATURE_LAYER) || bool_decide (ds_media_type layer = FEATURE_LAYER_GZIP))
        with FS_Oci ($"manifest layer has unsupported Feature media type `" ++ ds_media_type layer ++ $"`") in
      let? _ := validate_digest (ds_digest layer) in
      Ok layer
  | _ => Err (FS_Oci ($"manifest has multiple layers; exactly one Feature layer is required"))
  end.

(** One field of a challenge. @src cdenv-cli/src/feature_sources/oci.rs:265-281 parse_bearer_challenge *)
Definition bearer_field (acc : option str * option str * option str) (field : str) :
    result FeatureSourceError (option str * option str * option str) :=
  let '(realm, service, scope) := acc in
  let? (name, value) := ok_or (FS_Authentication ($"malformed Bearer challenge")) (split_once [61] (trim field)) in
  let? value := ok_or (FS_Authentication ($"malformed Bearer challenge value"))
    (mbind (strip_suffix [34]) (strip_prefix [34] (trim value))) in
  if str_eqb name ($"realm") then Ok (Some value, service, scope)
  else if str_eqb name ($"service") then Ok (realm, Some value, scope)
  else if str_eqb name ($"scope") then Ok (realm, service, Some value)
  else Ok (realm, service, scope).

(** @src cdenv-cli/src/feature_sources/oci.rs:256-293 parse_bearer_challenge *)
Definition parse_bearer_challenge (value : str) : result FeatureSourceError BearerFields :=
  let? body := ok_or (FS_Authentication ($"registry did not offer anonymous Bearer authentication"))
    (match strip_prefix ($"Bearer ") value with Some body => Some body | None => strip_prefix ($"bearer ") value end) in
  let? (realm, service, scope) := try_fold bearer_field (None, None, None) (split 44 body) in
  let? realm := ok_or (FS_Authentication ($"Bearer challenge omitted realm")) realm in
  Ok (mkBearer realm service scope).

(** The reads of the body. @src cdenv-cli/src/feature_sources/oci.rs:349-365 read_response *)
Fixpoint read_chunks (limit : N) (chunks : list (result unit (list N))) (bytes : list N) : result FeatureSourceError (list N) :=
  match chunks with
  | [] => Ok bytes
  | Err _ :: _ => Err (FS_Transport ($"<response-body>"))
  | Ok chunk :: rest =>
      fail_if limit <? saturating_add MAX_U64 (lenN bytes) (lenN chunk) with FS_Limit ($"response bytes") limit in
      read_chunks limit rest (bytes ++ chunk)
  end.

(** @src cdenv-cli/src/feature_sources/oci.rs:339-368 read_response *)
Definition read_response (response : Response) (limit : N) : result FeatureSourceError (list N) :=
  fail_if match rs_content_length response with Some length => limit <? length | None => false end
    with FS_Limit ($"response bytes") limit in
  read_chunks limit (rs_body response) [].

(** @src cdenv-cli/src/feature_sources/cache.rs:113-131 checked_download_size *)
Definition checked_download_size (current additional limit : N) : result FeatureSourceError N :=
  let? size := ok_or (FS_Limit ($"download bytes") limit) (checked_add MAX_U64 current additional) in
  fail_if limit <? size with FS_Limit ($"download bytes") limit in
  Ok size.

(** [str::trim_start_matches("sha256:")] *)
Fixpoint trim_digest_prefix (fuel : nat) (digest : str) : str :=
  match fuel, strip_prefix ($"sha256:") digest with
  | S fuel', Some rest => trim_digest_prefix fuel' rest
  | _, _ => digest
  end.
Definition digest_hex (digest : str) : str := trim_digest_prefix (length digest) digest.

(** @src cdenv-cli/src/feature_sources/cache.rs:248-250 cache_path *)
Definition cache_path (blobs : Path) (digest : str) : Path := target_of blobs (encode_utf8 (digest_hex digest)).

(** @src cdenv-cli/src/feature_sources/cache.rs:240-246 extraction_directory *)
Definition extraction_directory (blobs : Path) (digest : str) : Path :=
  let base := match blobs with [] => blobs | _ :: parent => parent end in
  target_of ($"extracted" :: base) (encode_utf8 (digest_hex digest)).

(** ** Requests *)

Section network.
Context `{UrlApi} {W : Type} (send : W -> Request -> W * result unit Response).
Context (status_display : N -> str).
Context (sha256 : list N -> list N).
Context (parse_index : list N -> result str IndexDocument) (parse_manifest : list N -> result str ManifestDocument)
  (parse_token : list N -> result str TokenDocument).

(** Code that uses the network and logs its requests. *)
Abbreviation net E := (act W Request E).

(** A step that cannot be undone by the network: its result. *)
Definition pure {A C E X} (r : result E X) : act A C E X := match r with Ok x => done x | Err e => raise e end.

Definition request (r : Request) : net unit Response := invoke (fun _ => r) (fun w => send w r).

(** @src cdenv-cli/src/feature_sources/oci.rs:369-386 require_success *)
Definition require_success (response : Response) : result FeatureSourceError unit :=
  let status := rs_status response in
  if is_success status then Ok tt
  else if (status =? 401) || (status =? 403)
  then Err (FS_Authentication ($"registry returned " ++ status_display status))
  else Err (FS_Oci ($"server returned " ++ status_display status)).

(** @src cdenv-cli/src/feature_sources/http.rs:98-106 same_origin *)
Definition same_origin (left_url right_url : Url) : bool :=
  bool_decide (url_scheme left_url = url_scheme right_url)
  && match url_host_str left_url, url_host_str right_url with
     | Some host, Some other => eq_ignore_ascii_case host other
     | _, _ => false
     end
  && bool_decide (url_port_or_known_default left_url = url_port_or_known_default right_url).

(** The host names and addresses are those [FeatureReference] refuses.
    @src cdenv-cli/src/feature_sources/http.rs:131-147 checked_https_url *)
Definition private_host (host : str) : bool :=
  let lowercase := lower_str host in private_name lowercase || private_ip lowercase.

(** @src cdenv-cli/src/feature_sources/http.rs:108-149 checked_https_url *)
Definition checked_https_url (value : str) : result FeatureSourceError Url :=
  let? url := ok_or (FS_Url value ($"invalid URL")) (url_parse value) in
  fail_if negb (str_eqb (url_scheme url) ($"https")) with FS_Url value ($"verified HTTPS is required") in
  fail_if negb (bool_decide (url_username url = [])) || is_Some_b (url_password url)
    with FS_Url value ($"URL credentials are forbidden") in
  let? host := ok_or (FS_Url value ($"public host is required")) (url_host_str url) in
  fail_if private_host host with FS_Url value ($"private or local hosts are forbidden") in
  Ok url.

(** The loop over [0..=redirects]; [remaining] counts down to the last turn.
    @src cdenv-cli/src/feature_sources/http.rs:46-92 get_following *)
Fixpoint follow (redirects : N) (remaining : nat) (url : Url) (accept token : option str) : net FeatureSourceError Response :=
  do? response := request (mkRequest url accept token) or (fun _ => FS_Transport (url_as_str url)) in
  if negb (is_redirection (rs_status response)) then done response else
  match remaining with
  | O => raise (FS_Limit ($"redirect count") redirects)
  | S remaining' =>
      match rs_location response with
      | None => raise (FS_Url (url_as_str url) ($"redirect omitted a valid Location"))
      | Some location =>
          match url_join url location with
          | None => raise (FS_Url location ($"invalid redirect Location"))
          | Some joined =>
              do? redirect := pure (checked_https_url (url_as_str joined)) else raise in
              follow redirects remaining' redirect accept (if same_origin url redirect then token else None)
          end
      end
  end.

(** @src cdenv-cli/src/feature_sources/http.rs:38-92 get_following *)
Definition get_following (limits : FeatureSourceLimits) (url : Url) (accept token : option str) :
    net FeatureSourceError Response :=
  follow (sl_redirects limits) (N.to_nat (sl_redirects limits)) url accept token.

(** @src cdenv-cli/src/feature_sources/oci.rs:109-141 bearer_token *)
Definition bearer_token (limits : FeatureSourceLimits) (challenge : str) : net FeatureSourceError str :=
  do? fields := pure (parse_bearer_challenge challenge) else raise in
  do? realm := pure (checked_https_url (bf_realm fields)) else raise in
  let query := match bf_service fields with Some service => [($"service", service)] | None => [] end
               ++ match bf_scope fields with Some scope => [($"scope", scope)] | None => [] end in
  do? response := request (mkRequest (url_with_query realm query) None None) or (fun _ => FS_Transport (url_as_str realm)) in
  do? _ := pure (require_success response) else raise in
  do? bytes := pure (read_response response (sl_metadata_bytes limits)) else raise in
  do? token := pure (map_err FS_Authentication (parse_token bytes)) else raise in
  match match tk_token token with Some value => Some value | None => tk_access_token token end with
  | Some (c :: value) => done (c :: value)
  | _ => raise (FS_Authentication ($"token response omitted token"))
  end.

(** The token the caller keeps is part of the result.
    @src cdenv-cli/src/feature_sources/oci.rs:83-106 get_oci_response *)
Definition get_oci_response (limits : FeatureSourceLimits) (url : Url) (accept token : option str) :
    net FeatureSourceError (Response * option str) :=
  do? response := get_following limits url accept token else raise in
  if negb (rs_status response =? 401) then done (response, token) else
  match rs_www_authenticate response with
  | None => raise (FS_Authentication ($"registry requires anonymous Bearer authentication"))
  | Some challenge =>
      do? token := bearer_token limits challenge else raise in
      do? response := get_following limits url accept (Some token) else raise in
      done (response, Some token)
  end.

(** @src cdenv-cli/src/feature_sources/oci.rs:173-178 OciReference::manifest_url *)
Definition manifest_url (reference : OciReference) (selector : str) : result FeatureSourceError Url :=
  checked_https_url ($"https://" ++ or_registry reference ++ $"/v2/" ++ or_repository reference ++ $"/manifests/" ++ selector).
(** @src cdenv-cli/src/feature_sources/oci.rs:179-184 OciReference::blob_url *)
Definition blob_url (reference : OciReference) (digest : str) : result FeatureSourceError Url :=
  checked_https_url ($"https://" ++ or_registry reference ++ $"/v2/" ++ or_repository reference ++ $"/blobs/" ++ digest).

(** @src cdenv-cli/src/feature_sources/cache.rs:149-151 digest_bytes *)
Definition digest_bytes (bytes : list N) : str := $"sha256:" ++ hex_encode (sha256 bytes).

(** @src cdenv-cli/src/feature_sources/cache.rs:152-162 verify_digest *)
Definition verify_digest (expected : str) (bytes : list N) : result FeatureSourceError unit :=
  let actual := digest_bytes bytes in
  if str_eqb actual expected then Ok tt else Err (FS_Digest expected actual).

(** @src cdenv-cli/src/feature_sources/oci.rs:325-337 verify_manifest_descriptor *)
Definition verify_manifest_descriptor (descriptor : Descriptor) (bytes : list N) : result FeatureSourceError unit :=
  fail_if negb (lenN bytes =? ds_size descriptor)
    with FS_Oci ($"selected manifest size mismatch: expected " ++ to_string (ds_size descriptor) ++ $", observed "
                 ++ to_string (lenN bytes)) in
  verify_digest (ds_digest descriptor) bytes.

(** @src cdenv-cli/src/feature_sources/oci.rs:295-324 read_manifest *)
Definition read_manifest (response : Response) (limit : N) (descriptor : option Descriptor) :
    result FeatureSourceError (list N * str * str) :=
  let media := trim (first_piece 59 (default OCI_MANIFEST (rs_content_type response))) in
  fail_if negb (bool_decide (media ∈ [OCI_MANIFEST; DOCKER_MANIFEST; OCI_INDEX; DOCKER_LIST]))
    with FS_Oci ($"unsupported manifest media type `" ++ media ++ $"`") in
  let? bytes := read_response response limit in
  let? _ := match descriptor with Some descriptor => verify_manifest_descriptor descriptor bytes | None => Ok tt end in
  Ok (bytes, digest_bytes bytes, media).

(** The manifest of the Feature, with its digest and the token in use.
    @src cdenv-cli/src/feature_sources/oci.rs:25-50 resolve_oci *)
Definition fetch_manifest (limits : FeatureSourceLimits) (parsed : OciReference) :
    net FeatureSourceError (list N * str * option str) :=
  let accept := OCI_MANIFEST ++ $", " ++ DOCKER_MANIFEST ++ $", " ++ OCI_INDEX ++ $", " ++ DOCKER_LIST in
  do? url := pure (manifest_url parsed (or_selector parsed)) else raise in
  do? (response, token) := get_oci_response limits url (Some accept) None else raise in
  do? _ := pure (require_success response) else raise in
  do? (manifest, manifest_digest, media) := pure (read_manifest response (sl_metadata_bytes limits) None) else raise in
  do? (manifest, manifest_digest, token) :=
    (if bool_decide (media = OCI_INDEX) || bool_decide (media = DOCKER_LIST) then
      do? index := pure (map_err FS_Oci (parse_index manifest)) else raise in
      do? descriptor := pure (select_manifest index) else raise in
      do? url := pure (manifest_url parsed (ds_digest descriptor)) else raise in
      do? (selected, token) := get_oci_response limits url (Some accept) token else raise in
      do? _ := pure (require_success selected) else raise in
      do? (manifest, manifest_digest, _) := pure (read_manifest selected (sl_metadata_bytes limits) (Some descriptor)) else raise in
      done (manifest, manifest_digest, token)
    else done (manifest, manifest_digest, token)) else raise in
  do? _ := pure (match or_digest parsed with Some expected => verify_digest expected manifest | None => Ok tt end) else raise in
  done (manifest, manifest_digest, token).


(** ** Where requests and tokens go *)

(** The hosts that the policy refuses: the machine itself and names in the local domain, names without
    a dot, and the addresses 10.x.x.x, 127.x.x.x, 172.16.x.x to 172.31.x.x, 192.168.x.x and
    169.254.x.x.  Case does not matter.  (Other names of the machine are not refused:
    [FeatureResolver.local_hosts_accepted].) *)
Definition private_octets (a b : N) : Prop :=
  a = 10 \/ a = 127 \/ (a = 172 /\ 16 <= b <= 31) \/ (a = 192 /\ b = 168) \/ (a = 169 /\ b = 254).
Definition refused_host (host : str) : Prop :=
  let h := lower_str host in
  h = $"localhost" \/ (exists p, h = p ++ $".localhost") \/ (exists p, h = p ++ $".local") \/ 46 ∉ h
  \/ exists a b c d, a < 256 /\ b < 256 /\ c < 256 /\ d < 256 /\ h = dotted a b c d /\ private_octets a b.

(** A URL that a request may go to. *)
Definition policy_url (url : Url) : Prop :=
  url_scheme url = $"https" /\ url_username url = [] /\ url_password url = None /\
  exists host, url_host_str url = Some host /\ ~ refused_host host.

Lemma private_host_refused host : refused_host host -> private_host host = true.
Proof.
  unfold private_host, refused_host, private_name. cbn zeta. set (h := lower_str host). intros Href. apply orb_true_iff.
  destruct Href as [Hh|[[p Hh]|[[p Hh]|[Hh|(a & b & c & d & Ha & Hb & Hc & Hd & Hh & Hp)]]]]; [left..|right]; try rewrite Hh.
  - done.
  - unfold ends_with. rewrite (proj2 (strip_suffix_Some _ _ p) eq_refl). by rewrite orb_true_r.
  - rewrite (proj2 (strip_suffix_Some _ _ p) eq_refl). cbn [is_Some_b]. by rewrite !orb_true_r.
  - assert (contains_char 46 h = false) as ->; [|by rewrite !orb_true_r].
    apply not_true_is_false. unfold contains_char. intros (x & Hx & <-%N.eqb_eq)%existsb_exists. by apply Hh, list_elem_of_In.
  - unfold private_ip. rewrite dotted_parse by done. unfold ipv4_is_private, ipv4_is_loopback, ipv4_is_link_local.
    assert (Ho := dotted_octets a b c d Ha Hb Hc Hd). unfold octets in *. cbn [List.map ipv4_bits] in *. injection Ho as H0 H1 H2 H3.
    rewrite H0, H1. unfold in_range.
    destruct Hp as [->|[->|[[-> Hb']|[[-> ->]|[-> ->]]]]]; try done; cbn.
    destruct Hb' as [H16%N.leb_le H31%N.leb_le]. by rewrite H16, H31.
Qed.

Lemma checked_https_url_policy value url : checked_https_url value = Ok url -> policy_url url.
Proof.
  unfold checked_https_url. destruct (url_parse value) as [u|]; [|done]. cbn [ok_or].
  destruct (str_eqb (url_scheme u) _) eqn:E1; cbn [negb]; [|done].
  destruct (bool_decide (url_username u = [])) eqn:E2; cbn [negb orb]; [|done].
  destruct (url_password u) eqn:E3; cbn [is_Some_b]; [done|].
  destruct (url_host_str u) as [host|] eqn:E4; cbn [ok_or]; [|done].
  destruct (private_host host) eqn:E5; [done|]. intros [= <-]. apply str_eqb_true in E1. prop_of_bool. split_and!; [done..|].
  exists host. split; [done|]. intros Href%private_host_refused. congruence.
Qed.

(** URLs of one origin: the same scheme, port and, whatever their case, host. *)
Definition of_origin (a b : Url) : Prop :=
  url_scheme a = url_scheme b /\ url_port_or_known_default a = url_port_or_known_default b /\
  exists h h', url_host_str a = Some h /\ url_host_str b = Some h' /\ lower_str h = lower_str h'.

(** The relation of URLs of one origin; on URLs with a host it is an equivalence. *)
Lemma same_origin_spec a b :
  same_origin a b = true <-> of_origin a b.
Proof.
  unfold of_origin, same_origin, eq_ignore_ascii_case. rewrite !andb_true_iff, !bool_decide_eq_true.
  destruct (url_host_str a) as [h|], (url_host_str b) as [h'|]; try naive_solver.
  rewrite str_eqb_true. naive_solver.
Qed.

Lemma same_origin_trans a b c : same_origin a b = true -> same_origin b c = true -> same_origin a c = true.
Proof.
  rewrite !same_origin_spec. unfold of_origin. intros (? & ? & h & h' & ? & ? & ?) (? & ? & g & g' & ? & ? & ?).
  split; [congruence|]. split; [congruence|]. exists h, g'. split_and!; [done..|]. by simplify_eq; congruence.
Qed.

Lemma same_origin_refl url : policy_url url -> same_origin url url = true.
Proof. intros (_ & _ & _ & host & Hh & _). apply same_origin_spec. split; [done|]. split; [done|]. by exists host, host. Qed.

(** A request under the policy: a URL that it allows, and a token only for the origin it was meant for. *)
Definition request_allowed (origin : Url) (r : Request) : Prop :=
  policy_url (rq_url r) /\ (is_Some (rq_token r) -> of_origin origin (rq_url r)).

(** A step that cannot touch the network. *)
Lemma emits_pure {A C E F X Y} (r : result E X) (h : E -> act A C F Y) k (Q : list C -> result F Y -> Prop) :
  match r with Ok x => emits (k x) Q | Err e => emits (h e) Q end -> emits (handle (pure r) h k) Q.
Proof.
  intros H' a. unfold handle, pure, done, raise. destruct r as [x|e]; specialize (H' a).
  - by destruct (k x a) as [[a' t] r].
  - by destruct (h e a) as [[a' t] r].
Qed.

Definition followed (origin : Url) (accept token : option str) (bound : nat) (t : list Request) : Prop :=
  Forall (request_allowed origin) t /\ (length t <= bound)%nat /\
  Forall (fun q => rq_accept q = accept /\ (rq_token q = None \/ rq_token q = token)) t.

Lemma followed_one origin url accept token n :
  policy_url url -> (is_Some token -> of_origin origin url) -> followed origin accept token (S n) [mkRequest url accept token].
Proof. intros. split; [|split; [cbn; lia|]]; apply Forall_singleton; [by split|by auto]. Qed.

Lemma follow_spec redirects remaining origin url accept token :
  policy_url url -> (is_Some token -> of_origin origin url) ->
  emits (follow redirects remaining url accept token) (fun t r =>
    followed origin accept token (S remaining) t /\
    match r with Ok response => is_redirection (rs_status response) = false | Err _ => True end).
Proof.
  revert url token. induction remaining as [|remaining IH]; intros url token Hp Ht; cbn [follow]; unfold request;
    apply emits_call; [intros response|intros e|intros response|intros e]; try (apply emits_raise; by split; [apply followed_one|]).
  all: destruct (is_redirection (rs_status response)) eqn:Er; cbn [negb];
    [|apply emits_done; by split; [apply followed_one|]].
  - apply emits_raise; by split; [apply followed_one|].
  - destruct (rs_location response) as [location|]; [destruct (url_join url location) as [joined|]|];
      try (apply emits_raise; by split; [apply followed_one|]).
    apply emits_pure. destruct (checked_https_url (url_as_str joined)) as [redirect|e] eqn:Ec;
      [|apply emits_raise; by split; [apply followed_one|]].
    eapply emits_impl; [apply IH; [by eapply checked_https_url_policy|]|].
    + destruct (same_origin url redirect) eqn:Es; [|by intros [? ?]]. intros Hs. apply same_origin_spec.
      eapply same_origin_trans; [apply same_origin_spec; by apply Ht|done].
    + cbn beta. intros t r [(HF & Hl & Ha) Hr]. split; [|done]. split; [by constructor; [split|]|]. split; [cbn; lia|].
      constructor; [by auto|]. eapply Forall_impl; [exact Ha|]. cbn beta. intros q [-> Hq]. split; [done|].
      destruct Hq as [|Hq]; [by left|]. case_match; [by right|by left].
Qed.

(** [RequestBuilder::query] adds pairs to the query and keeps the rest of the URL. *)
Context (query_keeps : forall url query,
  url_scheme (url_with_query url query) = url_scheme url /\ url_username (url_with_query url query) = url_username url /\
  url_password (url_with_query url query) = url_password url /\ url_host_str (url_with_query url query) = url_host_str url).

Lemma policy_with_query url query : policy_url url -> policy_url (url_with_query url query).
Proof. unfold policy_url. destruct (query_keeps url query) as (-> & -> & -> & ->). done. Qed.

Lemma followed_allowed origin accept token n t : followed origin accept token n t -> Forall (request_allowed origin) t.
Proof. by intros []. Qed.

Lemma get_following_spec limits url accept token :
  policy_url url ->
  emits (get_following limits url accept token) (fun t r =>
    followed url accept token (S (N.to_nat (sl_redirects limits))) t /\
    match r with Ok response => is_redirection (rs_status response) = false | Err _ => True end).
Proof. intros Hp. apply follow_spec; [done|]. intros _. by apply same_origin_spec, same_origin_refl. Qed.

Lemma bearer_token_spec limits challenge :
  emits (bearer_token limits challenge) (fun t r =>
    (length t <= 1)%nat /\ Forall (fun q => policy_url (rq_url q) /\ rq_token q = None) t /\
    match r with Ok token => token <> [] | Err _ => True end).
Proof.
  unfold bearer_token. apply emits_pure. destruct (parse_bearer_challenge challenge) as [fields|e]; [|apply emits_raise; split; [cbn; lia|by split; [constructor|]]].
  apply emits_pure. destruct (checked_https_url (bf_realm fields)) as [realm|e] eqn:Ec; [|apply emits_raise; split; [cbn; lia|by split; [constructor|]]].
  apply checked_https_url_policy in Ec.
  assert (Hone : forall q, Forall (fun r => policy_url (rq_url r) /\ rq_token r = None) [mkRequest (url_with_query realm q) None None]).
  { intros q. apply Forall_singleton. split; [|done]. by apply policy_with_query. }
  unfold request. apply emits_call; [intros response|intros e; apply emits_raise; split; [cbn; lia|by split; [first [apply Hone|constructor]|]]].
  apply emits_pure. case_match; [|apply emits_raise; split; [cbn; lia|by split; [first [apply Hone|constructor]|]]].
  apply emits_pure. case_match; [|apply emits_raise; split; [cbn; lia|by split; [first [apply Hone|constructor]|]]].
  apply emits_pure. case_match; [|apply emits_raise; split; [cbn; lia|by split; [first [apply Hone|constructor]|]]].
  match goal with |- emits (match ?o with _ => _ end) _ => destruct o as [[|c value]|] end;
    try (apply emits_raise; split; [cbn; lia|by split; [apply Hone|]]).
  apply emits_done. split; [cbn; lia|]. split; [apply Hone|done].
Qed.

(** How many requests one answer of the registry may take. *)
Definition request_bound (limits : FeatureSourceLimits) : nat := 2 * S (N.to_nat (sl_redirects limits)) + 1.

Lemma get_oci_response_spec limits url accept token :
  policy_url url ->
  emits (get_oci_response limits url accept token) (fun t r =>
    Forall (request_allowed url) t /\ (length t <= request_bound limits)%nat).
Proof.
  intros Hp. unfold get_oci_response, request_bound. eapply emits_handle; [by apply get_following_spec|..].
  2:{ intros t e [(HF & Hl & _) _]. apply emits_raise. rewrite app_nil_r. split; [done|lia]. }
  intros t response [(HF & Hl & _) _]. destruct (negb _).
  { apply emits_done. rewrite app_nil_r. split; [done|lia]. }
  destruct (rs_www_authenticate response) as [challenge|]; [|apply emits_raise; rewrite app_nil_r; split; [done|lia]].
  assert (Htok : forall l, Forall (fun q => policy_url (rq_url q) /\ rq_token q = None) l -> Forall (request_allowed url) l).
  { intros l Hl'. eapply Forall_impl; [exact Hl'|]. intros q [? Hn]. split; [done|]. rewrite Hn. by intros [? ?]. }
  eapply emits_handle; [apply bearer_token_spec|..].
  2:{ intros t2 e (Hl2 & H2 & _). apply emits_raise. rewrite app_nil_r, Forall_app, length_app. split; [by auto|lia]. }
  intros t2 token' (Hl2 & H2 & _). eapply emits_handle; [by apply get_following_spec|..].
  - intros t3 response' [(H3 & Hl3 & _) _]. apply emits_done. rewrite app_nil_r, !Forall_app, !length_app. split; [by auto|lia].
  - intros t3 e [(H3 & Hl3 & _) _]. apply emits_raise. rewrite app_nil_r, !Forall_app, !length_app. split; [by auto|lia].
Qed.

(** A request to the registry of a reference, or one without a token. *)
Definition registry_request (parsed : OciReference) (r : Request) : Prop :=
  exists origin, (exists x, manifest_url parsed x = Ok origin \/ blob_url parsed x = Ok origin) /\ request_allowed origin r.

Lemma read_chunks_bound limit chunks : forall bytes data,
  limit < MAX_U64 -> lenN bytes <= limit -> read_chunks limit chunks bytes = Ok data -> lenN data <= limit.
Proof.
  induction chunks as [|[chunk|e] chunks IH]; cbn [read_chunks]; intros bytes data Hlim Hb Hd; [by injection Hd as <-| |done].
  destruct (limit <? _) eqn:E; [done|]. eapply IH; [done| |exact Hd]. apply N.ltb_ge in E.
  unfold saturating_add in E. unfold lenN in *. rewrite length_app, Nat2N.inj_add.
  destruct (N.min_spec MAX_U64 (N.of_nat (length bytes) + N.of_nat (length chunk))); lia.
Qed.

Lemma oci_step limits parsed url accept token x :
  manifest_url parsed x = Ok url \/ blob_url parsed x = Ok url ->
  emits (get_oci_response limits url accept token) (fun t r =>
    Forall (registry_request parsed) t /\ (length t <= request_bound limits)%nat).
Proof.
  intros Hx. eapply emits_impl; [apply get_oci_response_spec|].
  - by destruct Hx as [Hx|Hx]; eapply checked_https_url_policy.
  - cbn beta. intros t r [HF Hl]. split; [|done]. eapply Forall_impl; [exact HF|]. intros q Hq. exists url. by eauto.
Qed.

Lemma read_manifest_spec response limit descriptor bytes digest media :
  read_manifest response limit descriptor = Ok (bytes, digest, media) ->
  digest = digest_bytes bytes /\ forall d, descriptor = Some d -> ds_digest d = digest /\ ds_size d = lenN bytes.
Proof.
  unfold read_manifest. case_match; [done|]. destruct (read_response response limit) as [b|]; [|done].
  destruct descriptor as [d|]; [|intros [= <- <- <-]; by split]. unfold verify_manifest_descriptor.
  destruct (lenN b =? ds_size d) eqn:E1; cbn [negb]; [|done].
  destruct (verify_digest (ds_digest d) b) eqn:E2; [|done]. intros [= <- <- <-]. split; [done|]. intros ? [= <-].
  unfold verify_digest in E2. destruct (str_eqb _ _) eqn:E3; [|done]. apply str_eqb_true in E3. prop_of_bool. done.
Qed.

(** What is known of a manifest: its digest is of its bytes, and is the one the reference pins. *)
Definition manifest_verified (parsed : OciReference) (manifest : list N) (digest : str) : Prop :=
  digest = digest_bytes manifest /\ forall pinned, or_digest parsed = Some pinned -> pinned = digest.

Lemma pinned_verified parsed manifest digest u :
  digest = digest_bytes manifest ->
  match or_digest parsed with Some expected => verify_digest expected manifest | None => Ok tt end = Ok u ->
  manifest_verified parsed manifest digest.
Proof.
  intros -> Hv. split; [done|]. intros pinned Hp. rewrite Hp in Hv. unfold verify_digest in Hv.
  destruct (str_eqb _ _) eqn:E; [|done]. by apply str_eqb_true in E.
Qed.

(** Failing after [t] requests. *)
Local Ltac refuse := apply emits_raise; rewrite ?app_nil_r, ?Forall_app, ?length_app; split; [by auto|split; [lia|done]].

Lemma fetch_manifest_spec limits parsed :
  emits (fetch_manifest limits parsed) (fun t r =>
    Forall (registry_request parsed) t /\ (length t <= 2 * request_bound limits)%nat /\
    match r with Ok (manifest, digest, _) => manifest_verified parsed manifest digest | Err _ => True end).
Proof.
  unfold fetch_manifest. apply emits_pure. destruct (manifest_url parsed _) as [url|e] eqn:Eu;
    [|apply emits_raise; split; [constructor|split; [cbn; lia|done]]].
  eapply emits_handle; [eapply oci_step; eauto|..]; [|intros t e [HF Hl]; refuse].
  intros t [response token] [HF Hl]. apply emits_pure. case_match; [|refuse].
  apply emits_pure. destruct (read_manifest response _ None) as [[[manifest digest] media]|] eqn:Er; [|refuse].
  apply read_manifest_spec in Er as [Hd _].
  eapply (emits_handle _ _ _ (fun t2 r => Forall (registry_request parsed) t2 /\ (length t2 <= request_bound limits)%nat /\
    match r with Ok (manifest, digest, _) => digest = digest_bytes manifest | Err _ => True end)).
  - destruct (_ || _); [|apply emits_done; split; [constructor|split; [cbn; lia|done]]].
    apply emits_pure. case_match; [|apply emits_raise; split; [constructor|split; [cbn; lia|done]]].
    apply emits_pure. destruct (select_manifest _) as [descriptor|]; [|apply emits_raise; split; [constructor|split; [cbn; lia|done]]].
    apply emits_pure. destruct (manifest_url parsed (ds_digest descriptor)) as [url'|] eqn:Eu';
      [|apply emits_raise; split; [constructor|split; [cbn; lia|done]]].
    eapply emits_handle; [eapply oci_step; eauto|..]; [|intros t2 e [HF2 Hl2]; refuse].
    intros t2 [selected token2] [HF2 Hl2]. apply emits_pure. case_match; [|refuse].
    apply emits_pure. destruct (read_manifest selected _ _) as [[[m2 d2] media2]|] eqn:Er2; [|refuse].
    apply read_manifest_spec in Er2 as [Hd2 _]. apply emits_done. rewrite app_nil_r. by split_and!.
  - intros t2 [[m2 d2] token2] (HF2 & Hl2 & Hd2). apply emits_pure.
    destruct (match or_digest parsed with Some _ => _ | None => _ end) eqn:Ep; [|refuse].
    apply emits_done. rewrite app_nil_r, Forall_app, length_app. split; [by auto|]. split; [lia|].
    by eapply pinned_verified.
  - intros t2 e (HF2 & Hl2 & _). refuse.
Qed.
End network.
