(* ===== verification/FeatureResolver.v ===== *)
(** * FeatureResolver: Features in the cache, in the checkout and in a frozen lock
    ([cdenv-cli/src/feature_sources/]: [cache.rs], [local.rs], [metadata.rs], [mod.rs] and the
    resolutions of [http.rs] and [oci.rs])

    The registry and the disk are one world; an action logs the requests it sends.  The disk is that
    of [FileTree], its calls fail as the operating system likes.  [fs::canonicalize],
    [serde_json::from_slice] and the random suffixes are parameters. *)

From S2P Require Import Prelude Text Order Effects Utf8 Net Identity Storage FileTree Profile FeatureReference Feature FeatureParser FeatureLock FeatureArchive FeatureSources.

(** [slice::sort_by_key] of the names of a directory: by bytes. *)
Fixpoint insert_name (name : list N) (names : list (list N)) : list (list N) :=
  match names with
  | [] => [name]
  | other :: rest => match str_cmp name other with Gt => other :: insert_name name rest | _ => name :: names end
  end.
Definition sort_names (names : list (list N)) : list (list N) := foldr insert_name [] names.

(** [OsStr::as_encoded_bytes] of a relative path whose components are given from the last to the first. *)
Definition path_bytes (relative : Path) : list N := join [47] (rev relative).

Section resolver.
Context `{UrlApi} {W : Type} (send : W -> Request -> W * result unit Response).
Context (status_display : N -> str) (sha256 : list N -> list N).
Context (parse_index : list N -> result str IndexDocument) (parse_manifest : list N -> result str ManifestDocument)
  (parse_token : list N -> result str TokenDocument).
Context (user umask : N) (tar_entries : bool -> list N -> result unit (list (result unit TarEntry))).
Context (from_slice : list N -> result unit Json) (metadata_from_value : Json -> result FeatureError FeatureMetadata).
Context (canonical : gmap Path (Entry (list N)) -> Path -> option Path).
Abbreviation bytes := (list N).
Abbreviation digest_bytes := (digest_bytes sha256).

(** ** Files of the cache *)

(** [File::open], [File::metadata] *)
Definition open_read (p : Path) : disk_io bytes IoError unit :=
  system_call untouched (fun _ t => (t, let? _ := ok_or Io_NotFound (t !! p) in Ok tt)).

(** [write_all] on the file that was created: a failure may leave a part. *)
Definition append_chunk (p : Path) (chunk : bytes) : disk_io bytes IoError unit :=
  let put (more : bytes) (t : gmap Path (Entry bytes)) :=
    match t !! p with
    | Some e => <[p := mkEntry (e_kind e) (e_uid e) (e_mode e) (e_content e ++ more)]> t
    | None => t
    end in
  system_call (fun step t => put (os_partial (step_write step)) t) (fun _ t => (put chunk t, Ok tt)).

(** [fs::rename] of a file: another file is replaced. *)
Definition rename_file (src dst : Path) : disk_io bytes IoError unit :=
  system_call untouched (fun _ t =>
    match t !! src with
    | None => (t, Err Io_NotFound)
    | Some e =>
        match t !! dst with
        | Some e' => if bool_decide (e_kind e' = Kind_Directory) then (t, Err Io_Other) else (<[dst := e]> (delete src t), Ok tt)
        | None => match creatable t dst with Ok _ => (<[dst := e]> (delete src t), Ok tt) | Err error => (t, Err error) end
        end
    end).

(** [let _ = fs::remove_file(path);] *)
Definition discard {X} (p : Path) (k : disk_io bytes FeatureSourceError X) : disk_io bytes FeatureSourceError X :=
  do? _ := remove_file p else (fun _ => k) in k.

(** @src cdenv-cli/src/feature_sources/cache.rs:163-218 verify_cached *)
Definition verify_cached (path : Path) (digest : str) (size : option N) : disk_io bytes FeatureSourceError bool :=
  let failed (_ : IoError) := FS_Cache (On_disk path) in
  do? metadata := (do? entry := symlink_metadata path
      else (fun e => match e with Io_NotFound => done None | _ => raise (failed e) end) in done (Some entry)) else raise in
  match metadata with
  | None => done false
  | Some metadata =>
      if negb (bool_decide (e_kind metadata = Kind_File)) then raise (failed Io_Other) else
      do? _ := open_read path or failed in
      do? opened := symlink_metadata path or failed in
      if negb (bool_decide (e_kind opened = Kind_File)) then raise (failed Io_Other) else
      do? content := read_file path or failed in
      let actual := digest_bytes content in
      if negb (str_eqb actual digest) then raise (FS_Digest digest actual) else
      if match size with Some expected => negb (expected =? lenN content) | None => false end
      then raise (FS_Oci ($"cached blob size mismatch")) else
      done true
  end.

(** The loop over the chunks; what was written so far is what was hashed.
    @src cdenv-cli/src/feature_sources/cache.rs:48-72 FeatureSourceResolver::cache_response *)
Fixpoint write_chunks (limit : N) (temporary : Path) (chunks : list (result unit bytes)) (written : bytes) :
    disk_io bytes FeatureSourceError bytes :=
  match chunks with
  | [] => done written
  | Err _ :: _ => raise (FS_Transport ($"<response-body>"))
  | Ok chunk :: rest =>
      match checked_download_size (lenN written) (lenN chunk) limit with
      | Err error => discard temporary (raise error)
      | Ok _ =>
          do? _ := append_chunk temporary chunk or (fun _ => FS_Cache (On_disk temporary)) in
          write_chunks limit temporary rest (written ++ chunk)
      end
  end.

(** The file is in place, or one of the same digest is.
    @src cdenv-cli/src/feature_sources/cache.rs:95-111 FeatureSourceResolver::cache_response *)
Definition publish_blob (temporary destination : Path) (digest : str) (size : N) : disk_io bytes FeatureSourceError unit :=
  let no_error {X} (e : Empty_set) : disk_io bytes FeatureSourceError X := match e with end in
  let keep_existing := discard temporary (do? _ := verify_cached destination digest (Some size) else raise in done tt) in
  do? present := exists_path destination else no_error in
  if present : bool then keep_existing else
  do? _ := rename_file temporary destination
    else (fun _ =>
      do? present := exists_path destination else no_error in
      if present : bool then keep_existing else raise (FS_Cache (On_disk destination))) in
  done tt.

(** What was written is checked against what is expected, and published.
    @src cdenv-cli/src/feature_sources/cache.rs:78-112 FeatureSourceResolver::cache_response *)
Definition commit_blob (blobs temporary : Path) (written : bytes) (expected_digest : option str) (expected_size : option N) :
    disk_io bytes FeatureSourceError (Path * str * N) :=
  let digest := digest_bytes written in
  let size := lenN written in
  if match expected_digest with Some expected => negb (str_eqb digest expected) | None => false end
  then discard temporary (raise (FS_Digest (default [] expected_digest) digest)) else
  if match expected_size with Some expected => negb (size =? expected) | None => false end
  then discard temporary (raise (FS_Oci ($"blob size mismatch: expected " ++ to_string (default 0 expected_size)
         ++ $", observed " ++ to_string size))) else
  let destination := cache_path blobs digest in
  do? _ := publish_blob temporary destination digest size else raise in
  done (destination, digest, size).

(** @src cdenv-cli/src/feature_sources/cache.rs:12-106 FeatureSourceResolver::cache_response *)
Definition cache_response (limits : FeatureSourceLimits) (blobs : Path) (suffix : option (list N)) (response : Response)
    (expected_digest : option str) (expected_size : option N) : disk_io bytes FeatureSourceError (Path * str * N) :=
  if match rs_length_header response with Some length => sl_blob_bytes limits <? length | None => false end
  then raise (FS_Limit ($"download bytes") (sl_blob_bytes limits)) else
  do? _ := create_dir_all user umask blobs or (fun _ => FS_Cache (On_disk blobs)) in
  match suffix with
  | None => raise (FS_Cache Random_source)
  | Some suffix =>
      let temporary := ($".download-" ++ suffix) :: blobs in
      do? _ := open_new user umask [] 438 temporary or (fun _ => FS_Cache (On_disk temporary)) in
      do? written := write_chunks (sl_blob_bytes limits) temporary (rs_body response) [] else raise in
      do? _ := next_entry or (fun _ => FS_Cache (On_disk temporary)) in
      commit_blob blobs temporary written expected_digest expected_size
  end.

(** @src cdenv-cli/src/feature_sources/metadata.rs:8-33 read_feature_metadata *)
Definition read_feature_metadata (root : Path) (limit : N) : disk_io bytes FeatureSourceError FeatureMetadata :=
  let path := $"devcontainer-feature.json" :: root in
  do? _ := open_read path or (fun _ => FS_Metadata (On_disk path)) in
  do? content := read_file path or (fun _ => FS_Metadata (On_disk path)) in
  let content := take (N.to_nat (saturating_add MAX_U64 limit 1)) content in
  if limit <? lenN content then raise (FS_Limit ($"Feature metadata bytes") limit) else
  match from_slice content with
  | Err _ => raise (FS_MetadataJson (On_disk path))
  | Ok value => match metadata_from_value value with Ok m => done m | Err e => raise (FS_Feature e) end
  end.

(** ** Local Features *)

(** [fs::canonicalize] *)
Definition canonicalize (p : Path) : disk_io bytes IoError Path :=
  system_call untouched (fun _ t => (t, ok_or Io_NotFound (canonical t p))).

(** One directory of the walk: the entries are counted, directories are collected.
    @src cdenv-cli/src/feature_sources/local.rs:58-104 validate_local_tree *)
Fixpoint validate_local_names (base : Path) (limits : FeatureSourceLimits) (directory : Path) (names : list (list N))
    (pending : list Path) (count total : N) : disk_io bytes FeatureSourceError (list Path * N * N) :=
  match names with
  | [] => done (pending, count, total)
  | name :: rest =>
      let path := name :: directory in
      do? _ := next_entry or (fun _ => FS_Cache (On_disk directory)) in
      let count := count + 1 in
      if sl_files limits <? count then raise (FS_Limit ($"local files") (sl_files limits)) else
      do? metadata := symlink_metadata path or (fun _ => FS_Cache (On_disk path)) in
      match e_kind metadata with
      | Kind_Directory =>
          do? target := canonicalize path or (fun _ => FS_LocalContainment (On_disk path)) in
          if negb (bool_decide (base `suffix_of` target)) then raise (FS_LocalContainment (On_disk target)) else
          validate_local_names base limits directory rest (target :: pending) count total
      | Kind_File =>
          let limit := FS_Limit ($"local bytes") (sl_extracted_bytes limits) in
          match checked_add MAX_U64 total (lenN (e_content metadata)) with
          | None => raise limit
          | Some total =>
              if sl_extracted_bytes limits <? total then raise limit else
              validate_local_names base limits directory rest pending count total
          end
      | _ => raise (FS_LocalContainment (On_disk path))
      end
  end.

(** Every directory after the first was counted, so [files + 1] rounds are enough. *)
Fixpoint validate_local_pending (fuel : nat) (base : Path) (limits : FeatureSourceLimits) (pending : list Path)
    (count total : N) : disk_io bytes FeatureSourceError unit :=
  match pending, fuel with
  | [], _ => done tt
  | directory :: pending, S fuel' =>
      do? names := read_dir directory or (fun _ => FS_Cache (On_disk directory)) in
      do? (pending, count, total) := validate_local_names base limits directory names pending count total else raise in
      validate_local_pending fuel' base limits pending count total
  | directory :: _, O => raise (FS_Cache (On_disk directory))
  end.

(** @src cdenv-cli/src/feature_sources/local.rs:50-108 validate_local_tree *)
Definition validate_local_tree (root base : Path) (limits : FeatureSourceLimits) : disk_io bytes FeatureSourceError unit :=
  validate_local_pending (S (N.to_nat (sl_files limits))) base limits [root] 0 0.

(** [u64::to_be_bytes] *)
Definition to_be_bytes (n : N) : bytes := List.map (fun i => N.land (N.shiftr n (8 * N.of_nat i)) 255) (rev (seq 0 8)).

(** The bytes hashed before the content of an entry.
    @src cdenv-cli/src/feature_sources/local.rs:136-138 hash_local_tree *)
Definition entry_header (relative : Path) (is_dir : bool) : bytes :=
  let shown := path_bytes relative in to_be_bytes (lenN shown) ++ shown ++ [if is_dir then 1 else 0].

(** The entries of one directory; [inner] visits a directory in it.
    @src cdenv-cli/src/feature_sources/local.rs:123-158 hash_local_tree *)
Fixpoint visit_names (inner : Path -> disk_io bytes FeatureSourceError bytes) (root relative : Path) (names : list (list N))
    (hashed : bytes) : disk_io bytes FeatureSourceError bytes :=
  match names with
  | [] => done hashed
  | name :: rest =>
      let path := name :: relative ++ root in
      do? metadata := symlink_metadata path or (fun _ => FS_Cache (On_disk path)) in
      let is_dir := bool_decide (e_kind metadata = Kind_Directory) in
      let hashed := hashed ++ entry_header (name :: relative) is_dir in
      if is_dir then
        do? content := inner (name :: relative) else raise in
        visit_names inner root relative rest (hashed ++ content)
      else
        do? _ := open_read path or (fun _ => FS_Cache (On_disk path)) in
        do? content := read_file path or (fun _ => FS_Cache (On_disk path)) in
        visit_names inner root relative rest (hashed ++ content)
  end.

(** What one directory adds to the hash; the fuel bounds its depth.
    @src cdenv-cli/src/feature_sources/local.rs:110-159 hash_local_tree *)
Fixpoint visit (fuel : nat) (root relative : Path) : disk_io bytes FeatureSourceError bytes :=
  let directory := relative ++ root in
  match fuel with
  | O => raise (FS_Cache (On_disk directory))
  | S fuel' =>
      do? names := read_dir directory or (fun _ => FS_Cache (On_disk directory)) in
      visit_names (visit fuel' root) root relative (sort_names names) []
  end.

(** A directory of the tree is not deeper than the tree has entries.
    @src cdenv-cli/src/feature_sources/local.rs:109-163 hash_local_tree *)
Definition hash_local_tree (root : Path) : disk_io bytes FeatureSourceError str :=
  observe (fun d => size (tree d)) (fun fuel =>
    do? hashed := visit (S fuel) root [] else raise in
    done (digest_bytes hashed)).

(** @src cdenv-cli/src/feature_sources/local.rs:10-48 resolve_local *)
Definition resolve_local (reference : FeatureReference) (value : str) (base : Path) (limits : FeatureSourceLimits) :
    disk_io bytes FeatureSourceError VerifiedFeature :=
  do? canonical_base := canonicalize base or (fun _ => FS_Cache (On_disk base)) in
  let candidate := target_of base (encode_utf8 (default value (strip_prefix ($"./") value))) in
  do? source := canonicalize candidate or (fun _ => FS_LocalContainment (On_disk candidate)) in
  do? metadata := symlink_metadata source or (fun _ => FS_LocalContainment (On_disk source)) in
  if negb (bool_decide (canonical_base `suffix_of` source)) || negb (bool_decide (e_kind metadata = Kind_Directory))
  then raise (FS_LocalContainment (On_disk source)) else
  do? _ := validate_local_tree source canonical_base limits else raise in
  do? feature_metadata := read_feature_metadata source (sl_metadata_bytes limits) else raise in
  do? integrity := hash_local_tree source else raise in
  done (mkVerified (mkPackage reference (identity_local reference) feature_metadata None (Some integrity)) source).

(** ** Resolution *)

(** The registry and the disk in one world. *)
Definition on_network {E X} (m : act W Request E X) : act (W * Disk bytes) Request E X :=
  fun '(w, d) => let '(w', t, r) := m w in ((w', d), t, r).
Definition on_disk {E X} (m : disk_io bytes E X) : act (W * Disk bytes) Request E X :=
  fun '(w, d) => let '(d', _, r) := m d in ((w, d'), [], r).
Abbreviation resolving := (act (W * Disk bytes) Request FeatureSourceError).

(** An identity that is not a digest is an error of the reference. *)
Definition identity_of (r : result (str * str) FeatureInstallIdentity) : result FeatureSourceError FeatureInstallIdentity :=
  map_err (fun '(reference, message) => FS_Feature (Feature_UnsupportedReference reference message)) r.

(** @src cdenv-cli/src/feature_sources/http.rs:14-36 FeatureSourceResolver::resolve_https *)
Definition resolve_https (limits : FeatureSourceLimits) (blobs : Path) (download extract : option (list N))
    (reference : FeatureReference) (value : str) : resolving VerifiedFeature :=
  do? url := pure (checked_https_url value) else raise in
  do? response := on_network (get_following send limits url None None) else raise in
  do? _ := pure (require_success status_display response) else raise in
  do? (path, digest, _) := on_disk (cache_response limits blobs download response None None) else raise in
  let extracted := extraction_directory blobs digest in
  do? _ := on_disk (extract_archive user umask tar_entries extract path extracted limits) else raise in
  do? metadata := on_disk (read_feature_metadata extracted (sl_metadata_bytes limits)) else raise in
  do? id := pure (identity_of (https_integrity digest)) else raise in
  done (mkVerified (mkPackage reference id metadata None (Some digest)) path).

(** @src cdenv-cli/src/feature_sources/oci.rs:20-80 FeatureSourceResolver::resolve_oci *)
Definition resolve_oci (limits : FeatureSourceLimits) (blobs : Path) (download extract : option (list N))
    (reference : FeatureReference) (value : str) : resolving VerifiedFeature :=
  do? parsed := pure (OciReference_parse value) else raise in
  do? (manifest, manifest_digest, token) :=
    on_network (fetch_manifest send status_display sha256 parse_index parse_token limits parsed) else raise in
  do? document := pure (map_err FS_Oci (parse_manifest manifest)) else raise in
  do? layer := pure (feature_layer document) else raise in
  let cached := cache_path blobs (ds_digest layer) in
  do? present := on_disk (verify_cached cached (ds_digest layer) (Some (ds_size layer))) else raise in
  do? path := (if present : bool then done cached else
      do? url := pure (blob_url parsed (ds_digest layer)) else raise in
      do? (response, _) := on_network (get_oci_response send status_display parse_token limits url None token) else raise in
      do? _ := pure (require_success status_display response) else raise in
      do? (path, _, _) := on_disk (cache_response limits blobs download response (Some (ds_digest layer)) (Some (ds_size layer))) else raise in
      done path) else raise in
  let extracted := extraction_directory blobs (ds_digest layer) in
  do? _ := on_disk (extract_archive user umask tar_entries extract path extracted limits) else raise in
  do? metadata := on_disk (read_feature_metadata extracted (sl_metadata_bytes limits)) else raise in
  do? id := pure (identity_of (oci_digest manifest_digest)) else raise in
  done (mkVerified (mkPackage reference id metadata (Some manifest_digest) (Some (ds_digest layer))) path).

(** @src cdenv-cli/src/feature_sources/mod.rs:229-241 FeatureSourceResolver::resolve *)
Definition resolve (limits : FeatureSourceLimits) (blobs : Path) (download extract : option (list N))
    (reference : FeatureReference) (configuration_directory : Path) : resolving VerifiedFeature :=
  match reference with
  | Ref_Local value => on_disk (resolve_local reference value configuration_directory limits)
  | Ref_Https value => resolve_https limits blobs download extract reference value
  | Ref_Oci value => resolve_oci limits blobs download extract reference value
  end.

(** The identity and the digest of a frozen record.
    @src cdenv-cli/src/feature_sources/mod.rs:292-312 FeatureSourceResolver::resolve_locked *)
Definition frozen_identity (reference : FeatureReference) (record : LockedFeature) :
    result FeatureSourceError (FeatureInstallIdentity * option str) :=
  match reference with
  | Ref_Oci _ =>
      let? digest := ok_or (FS_Oci ($"frozen OCI resolution has no digest")) (snd <$> rsplit_once 64 (lf_resolved record)) in
      let? id := identity_of (oci_digest digest) in
      Ok (id, Some digest)
  | _ => let? id := identity_of (https_integrity (lf_integrity record)) in Ok (id, None)
  end.

(** @src cdenv-cli/src/feature_sources/mod.rs:250-320 FeatureSourceResolver::resolve_locked *)
Definition resolve_locked (limits : FeatureSourceLimits) (blobs : Path) (extract : option (list N))
    (reference : FeatureReference) (record : LockedFeature) (configuration_directory : Path) :
    disk_io bytes FeatureSourceError VerifiedFeature :=
  match reference with
  | Ref_Local _ =>
      do? verified := resolve_local reference (reference_as_str reference) configuration_directory limits else raise in
      let package := vf_package verified in
      if negb (bool_decide (package_integrity package = Some (lf_integrity record)))
         || negb (str_eqb (fm_version (package_metadata package)) (lf_version record))
      then raise (FS_Oci ($"local Feature differs from frozen lock")) else done verified
  | _ =>
      let path := cache_path blobs (lf_integrity record) in
      do? present := verify_cached path (lf_integrity record) None else raise in
      if negb present then raise (FS_Cache (On_disk path)) else
      let extracted := extraction_directory blobs (lf_integrity record) in
      do? _ := extract_archive user umask tar_entries extract path extracted limits else raise in
      do? metadata := read_feature_metadata extracted (sl_metadata_bytes limits) else raise in
      if negb (str_eqb (fm_version metadata) (lf_version record))
      then raise (FS_Oci ($"cached Feature version differs from frozen lock")) else
      match frozen_identity reference record with
      | Err e => raise e
      | Ok (id, digest) =>
          done (mkVerified (mkPackage reference id metadata digest (Some (lf_integrity record))) extracted)
      end
  end.

(** ** The cache *)

Implicit Types (t : gmap Path (Entry bytes)) (p q blobs : Path).

(** SHA-256 gives 32 bytes. *)
Context (sha256_length : forall data, lenN (sha256 data) = 32 /\ Forall (fun b => b < 256) (sha256 data)).

(** A regular file with the content that a digest names. *)
Definition blob_at t p (digest : str) (size : N) : Prop :=
  exists e, t !! p = Some e /\ e_kind e = Kind_File /\ digest_bytes (e_content e) = digest /\ lenN (e_content e) = size.

Lemma hex_component c : lower_hex c = true -> c < 128 /\ c <> 46 /\ c <> 47 /\ c <> 115.
Proof. unfold lower_hex, is_ascii_digit, in_range. intros H'. prop_of_bool. destruct H'; prop_of_bool; lia. Qed.

Lemma digest_hex_digest data : digest_hex (digest_bytes data) = hex_encode (sha256 data).
Proof.
  destruct (sha256_length data) as [Hl Hb]. destruct (hex_encode_spec _ Hb) as [Hlen Hhex].
  unfold digest_hex. change (length (digest_bytes data)) with (S (6 + length (hex_encode (sha256 data)))).
  cbn [trim_digest_prefix]. unfold FeatureSources.digest_bytes. rewrite strip_prefix_app.
  set (hex := hex_encode _) in *. assert (Hnone : strip_prefix ($"sha256:") hex = None).
  { destruct hex as [|c hex]; [done|]. apply Forall_cons in Hhex as [Hc _]. apply hex_component in Hc.
    change (strip_prefix (115 :: $"ha256:") (c :: hex) = None). cbn [strip_prefix]. destruct (N.eqb_spec 115 c); [lia|done]. }
  generalize (6 + length hex)%nat. intros [|n]; cbn [trim_digest_prefix]; [done|]. by rewrite Hnone.
Qed.

Lemma hex_target data dir : target_of dir (encode_utf8 (hex_encode (sha256 data))) = hex_encode (sha256 data) :: dir.
Proof.
  destruct (sha256_length data) as [Hl Hb]. destruct (hex_encode_spec _ Hb) as [Hlen Hhex].
  set (hex := hex_encode _) in *. rewrite encode_utf8_ascii by (eapply Forall_impl; [exact Hhex|]; intros c Hc%hex_component; tauto).
  assert (Hno : 47 ∉ hex) by (intros Hin; rewrite Forall_forall in Hhex; apply Hhex, hex_component in Hin; lia).
  destruct hex as [|c hex]; [rewrite Hl in Hlen; done|].
  assert (c <> 46 /\ c <> 47) as [H1 H2] by (apply Forall_cons in Hhex as [Hc%hex_component _]; lia).
  unfold target_of, components. rewrite split_nosep by done. cbn [List.filter].
  assert (str_eqb (c :: hex) ($".") = false) as ->.
  { apply not_true_is_false. rewrite str_eqb_true. intros [= -> _]. done. }
  cbn [negb bool_decide andb]. rewrite bool_decide_eq_false_2 by done. cbn [negb andb rev app].
  replace (starts_with [47] (c :: hex)) with false; [done|]. unfold starts_with. cbn [strip_prefix].
  destruct (N.eqb_spec 47 c); [lia|done].
Qed.

Lemma cache_path_digest blobs data : cache_path blobs (digest_bytes data) = hex_encode (sha256 data) :: blobs.
Proof. unfold cache_path. rewrite digest_hex_digest. apply hex_target. Qed.

Lemma extraction_directory_digest name base data :
  extraction_directory (name :: base) (digest_bytes data) = hex_encode (sha256 data) :: $"extracted" :: base.
Proof. unfold extraction_directory. rewrite digest_hex_digest. apply hex_target. Qed.

Lemma hex_not_hidden data prefix : hex_encode (sha256 data) <> 46 :: prefix.
Proof.
  destruct (sha256_length data) as [_ Hb]. destruct (hex_encode_spec _ Hb) as [_ Hhex]. intros E. rewrite E in Hhex.
  apply Forall_cons in Hhex as [Hc%hex_component _]. lia.
Qed.

Lemma exists_path_true p t :
  post (exists_path p) t (fun t' r n => t' = t /\ exists b, r = Ok b /\ (b = true -> is_Some (t !! p))).
Proof.
  unfold exists_path. disk; try (split; [done|]; by eexists). split; [done|]. eexists. split; [done|]. intros _.
  destruct (t !! p); [by eexists|done].
Qed.

Lemma discard_spec {X} p (k : disk_io bytes FeatureSourceError X) t Q :
  (forall t', (forall q, q <> p -> t' !! q = t !! q) -> post k t' (fun t2 r n => forall m, Q t2 r m)) ->
  post (discard p k) t Q.
Proof.
  intros Hk. unfold discard, remove_file. apply post_handle. apply post_call; intros step; cbn beta iota.
  - eapply post_impl; [by apply Hk|]. auto.
  - destruct (t !! p) as [e|]; [destruct (bool_decide _)|]; (eapply post_impl; [apply Hk|cbn beta; auto]); try done.
    intros q Hq. by rewrite lookup_delete_ne.
Qed.

Lemma verify_cached_spec p digest size t :
  post (verify_cached p digest size) t (fun t' r n => t' = t /\
    match r with
    | Ok true => exists found, blob_at t p digest found /\ forall expected, size = Some expected -> expected = found
    | Ok false => t !! p = None
    | Err _ => True
    end /\
    (n = 0%nat -> t !! p = None -> r = Ok false) /\
    (n = 0%nat -> forall found, blob_at t p digest found -> default found size = found -> r = Ok true)).
Proof.
  unfold verify_cached. cbn zeta. apply post_handle, post_handle. unfold symlink_metadata at 1.
  apply post_call; intros step; cbn beta iota; [apply post_raise; cbn beta iota; by apply post_raise|].
  destruct (t !! p) as [e|] eqn:He; cbn [ok_or].
  2:{ apply post_done; cbn beta iota; apply post_done. split_and!; try done. intros _ found (e & He' & _). congruence. }
  apply post_done; cbn beta iota. destruct (bool_decide (e_kind e = Kind_File)) eqn:Hk; cbn [negb].
  2:{ apply post_raise. apply bool_decide_eq_false in Hk. split_and!; try done.
      intros _ found (e' & He' & Hk' & _). congruence. }
  apply bool_decide_eq_true in Hk. apply post_handle. unfold open_read. apply post_call; intros step1; cbn beta iota; [by apply post_raise|].
  rewrite He; cbn [ok_or]. apply post_handle. unfold symlink_metadata. apply post_call; intros step2; cbn beta iota; [by apply post_raise|].
  rewrite He; cbn [ok_or]. rewrite bool_decide_eq_true_2 by done. cbn [negb].
  apply post_handle. unfold read_file. apply post_call; intros step3; cbn beta iota; [by apply post_raise|].
  rewrite He; cbn [ok_or]. rewrite bool_decide_eq_false_2 by (rewrite Hk; done). cbn beta iota.
  destruct (str_eqb (digest_bytes (e_content e)) digest) eqn:Ed; cbn [negb].
  2:{ apply post_raise. split_and!; try done. intros _ found (e' & He' & _ & Hd & _). simplify_eq. by rewrite str_eqb_refl in Ed. }
  apply str_eqb_true in Ed. destruct size as [expected|]; [destruct (N.eqb_spec expected (lenN (e_content e))); cbn [negb]|].
  - apply post_done. split_and!; try done. exists (lenN (e_content e)). split; [by exists e|]. intros ? [= <-]. done.
  - apply post_raise. split_and!; try done. intros _ found (e' & He' & _ & _ & Hl). cbn. intros Hs. simplify_eq.
  - apply post_done. split_and!; try done. exists (lenN (e_content e)). split; [by exists e|]. done.
Qed.

Lemma append_chunk_spec p chunk t e :
  t !! p = Some e ->
  post (append_chunk p chunk) t (fun t' r n => (forall q, q <> p -> t' !! q = t !! q) /\
    (r = Ok tt -> t' !! p = Some (mkEntry (e_kind e) (e_uid e) (e_mode e) (e_content e ++ chunk)))).
Proof.
  intros He. unfold append_chunk. apply post_call; intros step; cbn beta iota; rewrite He; (split; [|try done]);
    try (intros q Hq; by rewrite lookup_insert_ne by done). intros _. by rewrite lookup_insert_eq.
Qed.

(** What the file holds is what was hashed, and never more than the limit. *)
Lemma write_chunks_spec limit temporary chunks : forall written t e,
  t !! temporary = Some e -> e_kind e = Kind_File -> e_content e = written -> lenN written <= limit ->
  post (write_chunks limit temporary chunks written) t (fun t' r n =>
    (forall q, q <> temporary -> t' !! q = t !! q) /\
    forall data, r = Ok data -> lenN data <= limit /\
      exists e', t' !! temporary = Some e' /\ e_kind e' = Kind_File /\ e_content e' = data).
Proof.
  induction chunks as [|[chunk|x] chunks IH]; intros written t e He Hk Hc Hl; cbn [write_chunks].
  - apply post_done. split; [done|]. intros data [= <-]. split; [done|]. by exists e.
  - unfold checked_download_size, checked_add.
    destruct (lenN written + lenN chunk <=? MAX_U64); cbn [ok_or];
      [destruct (limit <? lenN written + lenN chunk) eqn:El|];
      try (apply discard_spec; intros t' Ht'; apply post_raise; intros m; by split).
    apply N.ltb_ge in El. apply post_handle. eapply post_impl; [by apply append_chunk_spec|].
    intros t1 [[]|x] n [Hout Hin]; cbn beta iota; [|apply post_raise; by split].
    specialize (Hin eq_refl). eapply post_impl; [eapply IH; [exact Hin|done|cbn; by rewrite Hc|]|].
    + unfold lenN in *. rewrite length_app. lia.
    + cbn beta. intros t2 r2 n2 [Hout2 Hok]. split; [|done]. intros q Hq. by rewrite Hout2, Hout.
  - apply post_raise. by split.
Qed.

(** The existing file is kept when it is the blob. *)
Lemma keep_existing_spec temporary destination digest size t :
  temporary <> destination -> is_Some (t !! destination) ->
  post (discard temporary (do? _ := verify_cached destination digest (Some size) else raise in done tt)) t (fun t' r n =>
    (forall q, q <> temporary -> t' !! q = t !! q) /\ (r = Ok tt -> blob_at t' destination digest size)).
Proof.
  intros Hne [e He]. apply discard_spec. intros t' Ht'. apply post_handle.
  eapply post_impl; [apply verify_cached_spec|]. intros t2 [[|]|x] n (-> & Hr & _); cbn beta iota.
  - destruct Hr as (found & Hb & Hs). rewrite <- (Hs size eq_refl) in Hb. apply post_done. intros _. by split.
  - rewrite Ht' in Hr by done. congruence.
  - apply post_raise. intros _. by split.
Qed.

Lemma rename_file_spec src dst t e :
  t !! src = Some e ->
  post (rename_file src dst) t (fun t' r n =>
    match r with Ok _ => t' = <[dst := e]> (delete src t) | Err _ => t' = t end).
Proof.
  intros He. unfold rename_file. apply post_call; intros step; cbn beta iota; [done|]. rewrite He.
  destruct (t !! dst); [by destruct (bool_decide _)|]. by destruct (creatable t dst).
Qed.

Lemma publish_blob_spec temporary destination digest size t :
  temporary <> destination -> blob_at t temporary digest size ->
  post (publish_blob temporary destination digest size) t (fun t' r n =>
    (forall q, q <> temporary -> q <> destination -> t' !! q = t !! q) /\
    match r with Ok _ => blob_at t' destination digest size | Err _ => t' !! destination = t !! destination end).
Proof.
  intros Hne Hb.
  assert (Hkeep : is_Some (t !! destination) ->
    post (discard temporary (do? _ := verify_cached destination digest (Some size) else raise in done tt)) t (fun t' r n =>
      (forall q, q <> temporary -> q <> destination -> t' !! q = t !! q) /\
      match r with Ok _ => blob_at t' destination digest size | Err _ => t' !! destination = t !! destination end)).
  { intros Hs. eapply post_impl; [by apply keep_existing_spec|]. cbn beta. intros t' r n [Hout Hok].
    split; [by auto|]. destruct r as [[]|x]; [by apply Hok|by apply Hout]. }
  unfold publish_blob. cbn zeta. apply post_handle. eapply post_impl; [apply exists_path_true|].
  intros t1 r1 n1 (-> & b & -> & Hex). cbn beta iota. destruct b; [by eapply post_impl; [apply Hkeep; auto|]|].
  destruct Hb as (e & He & Hk & Hd & Hl). apply post_handle. eapply post_impl; [by apply rename_file_spec|].
  intros t2 [[]|x] n2; cbn beta iota; intros ->.
  - apply post_done. split.
    + intros q Hq1 Hq2. by rewrite lookup_insert_ne, lookup_delete_ne.
    + exists e. by rewrite lookup_insert_eq.
  - apply post_handle. eapply post_impl; [apply exists_path_true|]. intros t3 r3 n3 (-> & b & -> & Hex'). cbn beta iota.
    destruct b; [by eapply post_impl; [apply Hkeep; auto|]|]. by apply post_raise.
Qed.

Lemma commit_blob_spec blobs s data digest size t :
  let temporary := ($".download-" ++ s) :: blobs in
  blob_at t temporary (digest_bytes data) (lenN data) ->
  post (commit_blob blobs temporary data digest size) t (fun t' r n =>
    match r with
    | Ok (path, found, len) =>
        path = cache_path blobs found /\ blob_at t' path found len /\ len = lenN data /\
        (forall expected, digest = Some expected -> found = expected) /\
        (forall expected, size = Some expected -> len = expected) /\
        (forall q, q <> path -> q <> temporary -> t' !! q = t !! q)
    | Err _ => forall q, q <> temporary -> t' !! q = t !! q
    end).
Proof.
  intros temporary Hb. unfold commit_blob. cbn zeta.
  assert (Hfail : forall x, post (discard temporary (raise x)) t (fun t' (r : result _ (Path * str * N)) n =>
    match r with Ok _ => False | Err _ => forall q, q <> temporary -> t' !! q = t !! q end)).
  { intros x. apply discard_spec. intros t' Ht'. apply post_raise. by intros _. }
  destruct (match digest with Some _ => _ | None => _ end) eqn:Ed; [eapply post_impl; [apply Hfail|]; by intros ? [] ?|].
  destruct (match size with Some _ => _ | None => _ end) eqn:Es; [eapply post_impl; [apply Hfail|]; by intros ? [] ?|].
  assert (Hne : temporary <> cache_path blobs (digest_bytes data))
    by (rewrite cache_path_digest; intros [= E]; symmetry in E; by apply hex_not_hidden in E).
  apply post_handle; eapply post_impl; [by apply publish_blob_spec|].
  intros t' [[]|x] n [Ho Hr]; cbn beta iota.
  - apply post_done. split; [done|]. split; [exact Hr|]. split; [done|]. split.
    { intros expected ->. apply negb_false_iff, str_eqb_true in Ed. done. }
    split; [intros expected ->; by apply negb_false_iff, N.eqb_eq in Es|]. auto.
  - apply post_raise. intros q Hq. destruct (decide (q = cache_path blobs (digest_bytes data))) as [->|]; auto.
Qed.

(** Nothing changed but the temporary file, and directories that were missing above the blobs. *)
Definition cache_kept blobs (suffix : option (list N)) t t' q : Prop :=
  (forall s, suffix = Some s -> q <> ($".download-" ++ s) :: blobs) ->
  t' !! q = t !! q \/ (t !! q = None /\ q `suffix_of` blobs /\ new_dir user t' q).

Lemma cache_kept_step blobs s t t1 t2 q :
  cache_kept blobs (Some s) t t1 q -> (q <> ($".download-" ++ s) :: blobs -> t2 !! q = t1 !! q) -> cache_kept blobs (Some s) t t2 q.
Proof.
  intros H1 H2 Hq. specialize (H2 (Hq s eq_refl)). destruct (H1 Hq) as [H1'|(? & ? & m & ?)].
  - left. by rewrite H2.
  - right. split; [done|]. split; [done|]. exists m. by rewrite H2.
Qed.

Lemma cache_response_spec limits blobs suffix response digest size t :
  post (cache_response limits blobs suffix response digest size) t (fun t' r n =>
    match r with
    | Ok (path, found, len) =>
        path = cache_path blobs found /\ blob_at t' path found len /\ len <= sl_blob_bytes limits /\
        (forall expected, digest = Some expected -> found = expected) /\
        (forall expected, size = Some expected -> len = expected) /\
        (forall q, q <> path -> cache_kept blobs suffix t t' q)
    | Err _ => forall q, cache_kept blobs suffix t t' q
    end).
Proof.
  unfold cache_response. destruct (match rs_length_header response with Some _ => _ | None => _ end);
    [apply post_raise; by left|].
  apply post_handle. eapply post_impl; [apply create_dir_all_spec|]. intros t1 r1 n1 [Hg _].
  assert (Hgrown : forall q, cache_kept blobs suffix t t1 q).
  { intros q _. destruct (Hg q) as [?|(? & ? & _ & ?)]; auto. }
  destruct r1 as [[]|x]; cbn beta iota; [|apply post_raise; auto]. destruct suffix as [s|]; [|apply post_raise; auto].
  set (temporary := ($".download-" ++ s) :: blobs). apply post_handle. unfold open_new.
  eapply post_impl; [apply create_spec|]. intros t2 [[]|x] n2; cbn beta iota; [|intros [-> _]; by apply post_raise].
  intros (_ & Hfree & ->). set (t2 := <[temporary := _]> t1).
  assert (Ht2 : t2 !! temporary = Some (mkEntry Kind_File user (N.ldiff 438 umask) [])) by apply lookup_insert_eq.
  assert (Hkeep : forall t', (forall q, q <> temporary -> t' !! q = t2 !! q) -> forall q, cache_kept blobs (Some s) t t' q).
  { intros t' Ht' q. eapply cache_kept_step; [apply Hgrown|]. intros Hq. rewrite Ht' by done. by apply lookup_insert_ne. }
  apply post_handle. eapply post_impl; [eapply (write_chunks_spec _ _ _ [] t2); [exact Ht2|done|done|apply N.le_0_l]|].
  intros t3 [data|x] n3 [Hout Hin]; cbn beta iota; [|apply post_raise; by apply Hkeep].
  destruct (Hin data eq_refl) as (Hlim & e & He & Hk & Hc).
  apply post_handle. unfold next_entry. apply post_call; intros step2; cbn beta iota zeta; [apply post_raise; by apply Hkeep|].
  eapply post_impl; [apply (commit_blob_spec blobs s); exists e; by subst|]. fold temporary. cbn beta.
  intros t4 [[[path found] len]|x] n4.
  - intros (-> & Hb & -> & Hd & Hs & Ho). do 5 (split; [done|]). intros q Hq.
    eapply cache_kept_step; [by apply (Hkeep t3)|]. by apply Ho.
  - intros Ho q. eapply cache_kept_step; [by apply (Hkeep t3)|]. by apply Ho.
Qed.

(** ** What a resolution leaves *)

(** Metadata that was read from a directory. *)
Definition metadata_at t root limit (m : FeatureMetadata) : Prop :=
  exists e value, t !! ($"devcontainer-feature.json" :: root) = Some e /\ lenN (e_content e) <= limit /\
    from_slice (e_content e) = Ok value /\ metadata_from_value value = Ok m.

Lemma read_feature_metadata_spec root limit t :
  limit < MAX_U64 ->
  post (read_feature_metadata root limit) t (fun t' r n => t' = t /\ forall m, r = Ok m -> metadata_at t root limit m).
Proof.
  intros Hlim. unfold read_feature_metadata. cbn zeta. apply post_handle. unfold open_read.
  apply post_call; intros step; cbn beta iota; [by apply post_raise|].
  destruct (t !! _) as [e|] eqn:He; cbn [ok_or]; [|by apply post_raise].
  apply post_handle. eapply post_impl; [apply read_file_spec|]. intros t' r n [-> Hc].
  destruct r as [content|x]; cbn beta iota; [|by apply post_raise]. destruct (Hc content eq_refl) as (e' & He' & _ & ->).
  rewrite He in He'. injection He' as <-. unfold saturating_add. rewrite N.min_r by lia.
  destruct (limit <? _) eqn:El; [by apply post_raise|]. apply N.ltb_ge in El.
  assert (Hshort : lenN (e_content e) <= limit).
  { unfold lenN in *. rewrite length_take in El. lia. }
  rewrite take_ge by (unfold lenN in Hshort; lia).
  destruct (from_slice (e_content e)) as [value|] eqn:Ev; [|by apply post_raise].
  destruct (metadata_from_value value) as [m|] eqn:Em; [|by apply post_raise].
  apply post_done. split; [done|]. intros ? [= <-]. by exists e, value.
Qed.

(** A directory with the files of the blob and a marker, or one that was there already. *)
Definition unpacked t t' path directory : Prop :=
  complete directory t' /\
  (same_below directory t t' \/
   exists e entries, t' !! path = Some e /\ tar_entries (bool_decide (take 2 (e_content e) = [31; 139])) (e_content e) = Ok entries /\
     files_are directory t' (([COMPLETE_MARKER], []) :: archive_files entries)).

(** The blob of a digest is in the cache, and its directory is unpacked. *)
Definition installed t t' blobs digest : Prop :=
  (exists len, blob_at t' (cache_path blobs digest) digest len) /\
  unpacked t t' (cache_path blobs digest) (extraction_directory blobs digest).

Section layout.
Context (name : list N) (base : Path) (Hname : name <> $"extracted").
Let blobs : Path := name :: base.

Lemma not_extracted (c c' : list N) q : q = c :: blobs -> ~ (c' :: $"extracted" :: base) `suffix_of` q.
Proof.
  intros -> [k Hk]. apply (f_equal (drop (length k))) in Hk as Hd. rewrite drop_app_length in Hd.
  assert (length k = 0%nat) as Hlen. { apply (f_equal length) in Hk. rewrite length_app in Hk. cbn in Hk. lia. }
  rewrite Hlen in Hd. injection Hd as _ Hn. by destruct Hname.
Qed.

Lemma extract_blob_spec extract data len limits t :
  wf_at ($"extracted" :: base) t -> blob_at t (cache_path blobs (digest_bytes data)) (digest_bytes data) len ->
  post (extract_archive user umask tar_entries extract (cache_path blobs (digest_bytes data))
      (extraction_directory blobs (digest_bytes data)) limits) t (fun t' r n =>
    r = Ok tt -> blob_at t' (cache_path blobs (digest_bytes data)) (digest_bytes data) len /\
      unpacked t t' (cache_path blobs (digest_bytes data)) (extraction_directory blobs (digest_bytes data))).
Proof.
  intros Hwf (e & He & Hk & Hd & Hl). unfold blobs in *. rewrite extraction_directory_digest, cache_path_digest in *.
  eapply post_impl; [apply extract_archive_spec; [done|]; intros s _; apply hex_not_hidden|].
  intros t' r n (Hout & Hr & _) ->. destruct Hr as [Hc Hsame].
  assert (He' : t' !! (hex_encode (sha256 data) :: name :: base) = Some e).
  { destruct (Hout (hex_encode (sha256 data) :: name :: base)) as [->|(Hnone & _)];
      [by eapply not_extracted|intros s _; by eapply not_extracted|done|congruence]. }
  split; [by exists e|]. split; [done|]. destruct Hsame as [Hsame|(entries & (e0 & He0 & _ & Ht & _) & Hf)]; [by left|].
  rewrite He in He0. injection He0 as <-. right. by exists e, entries.
Qed.

(** The cache never touches what is unpacked. *)
Lemma cache_kept_extracted suffix t t' data :
  (forall q, q <> cache_path blobs (digest_bytes data) -> cache_kept blobs suffix t t' q) -> same_below ($"extracted" :: base) t t'.
Proof.
  intros Hkept k. rewrite cache_path_digest in Hkept.
  assert (Hblobs : forall c, k ++ $"extracted" :: base <> c :: blobs).
  { intros c E. destruct k as [|c' k]; [apply (f_equal length) in E; cbn in E; lia|].
    cbn in E. injection E as _ E. assert (Hlen := f_equal length E). rewrite length_app in Hlen. cbn in Hlen.
    destruct k; [|cbn in Hlen; lia]. cbn in E. injection E as E. by destruct Hname. }
  destruct (Hkept (k ++ $"extracted" :: base)) as [?|(_ & Hs & _)]; [apply Hblobs|intros s _; apply Hblobs|done|].
  exfalso. apply suffix_cons_cases in Hs as [E|Hs].
  - assert (Hlen := f_equal length E). rewrite length_app in Hlen. cbn in Hlen. destruct k; [|cbn in Hlen; lia].
    cbn in E. injection E as E. by destruct Hname.
  - apply suffix_length in Hs. rewrite length_app in Hs. cbn in Hs. lia.
Qed.
End layout.

(** ** Resolving over the network *)

(** From the tree [t] the code ends in [Q]: the tree, the requests, the result. *)
Definition runs {E X} (m : act (W * Disk bytes) Request E X) t (Q : gmap Path (Entry bytes) -> list Request -> result E X -> Prop) : Prop :=
  forall w d, tree d = t -> let '((_, d'), requests, r) := m (w, d) in Q (tree d') requests r.

Lemma runs_done {E X} (x : X) t Q : Q t [] (Ok x) -> runs (E := E) (done x) t Q.
Proof. by intros HQ w d <-. Qed.
Lemma runs_raise {E X} (e : E) t Q : Q t [] (Err e) -> runs (X := X) (raise e) t Q.
Proof. by intros HQ w d <-. Qed.

Lemma runs_handle {E F X Y} (m : act (W * Disk bytes) Request E X) (h : E -> act (W * Disk bytes) Request F Y) k t Q :
  runs m t (fun t1 l1 r1 =>
    match r1 with
    | Ok x => runs (k x) t1 (fun t2 l2 r2 => Q t2 (l1 ++ l2) r2)
    | Err e => runs (h e) t1 (fun t2 l2 r2 => Q t2 (l1 ++ l2) r2)
    end) ->
  runs (handle m h k) t Q.
Proof.
  intros Hm w d Hd. unfold handle. specialize (Hm w d Hd). destruct (m (w, d)) as [[[w1 d1] l1] [x|e]].
  - specialize (Hm w1 d1 eq_refl). by destruct (k x (w1, d1)) as [[[w2 d2] l2] r2].
  - specialize (Hm w1 d1 eq_refl). by destruct (h e (w1, d1)) as [[[w2 d2] l2] r2].
Qed.

Lemma runs_impl {E X} (m : act (W * Disk bytes) Request E X) t Q Q' :
  runs m t Q -> (forall t' l r, Q t' l r -> Q' t' l r) -> runs m t Q'.
Proof. intros Hm HQ w d Hd. specialize (Hm w d Hd). destruct (m (w, d)) as [[[w1 d1] l1] r1]. auto. Qed.

Lemma runs_pure {E X} (r : result E X) t Q : Q t [] r -> runs (pure r) t Q.
Proof. destruct r; [apply runs_done|apply runs_raise]. Qed.

Lemma runs_network {E X} (m : act W Request E X) P t :
  emits m P -> runs (on_network m) t (fun t' l r => t' = t /\ P l r).
Proof. intros Hm w d <-. unfold on_network. specialize (Hm w). by destruct (m w) as [[w' l] r]. Qed.

Lemma runs_disk {E X} (m : disk_io bytes E X) P t :
  post m t P -> runs (on_disk m) t (fun t' l r => l = [] /\ exists n, P t' r n).
Proof. intros Hm w d Hd. unfold on_disk. specialize (Hm d Hd). destruct (m d) as [[d' l] r]. destruct Hm as (_ & _ & HP). split; [done|]. by exists (fault_count d d'). Qed.

(** What a Feature that came over the network is backed by. *)
Definition backed (limits : FeatureSourceLimits) blobs t t' (feature : VerifiedFeature) : Prop :=
  exists digest, package_integrity (vf_package feature) = Some digest /\ vf_artifact feature = cache_path blobs digest /\
    installed t t' blobs digest /\
    metadata_at t' (extraction_directory blobs digest) (sl_metadata_bytes limits) (package_metadata (vf_package feature)).

Section sources.
Context (query_keeps : forall url query,
  url_scheme (url_with_query url query) = url_scheme url /\ url_username (url_with_query url query) = url_username url /\
  url_password (url_with_query url query) = url_password url /\ url_host_str (url_with_query url query) = url_host_str url).
Context (name : list N) (base : Path) (Hname : name <> $"extracted").
Let blobs : Path := name :: base.
Context (limits : FeatureSourceLimits) (Hlimit : sl_metadata_bytes limits < MAX_U64).
Context (t : gmap Path (Entry bytes)) (Hwf : wf_at ($"extracted" :: base) t).

(** The last steps: the blob is unpacked and its metadata is read. *)
Lemma unpack_runs {X} extract data len t1 (k : FeatureMetadata -> resolving X) Q :
  same_below ($"extracted" :: base) t t1 ->
  blob_at t1 (cache_path blobs (digest_bytes data)) (digest_bytes data) len ->
  (forall t2 m, installed t t2 blobs (digest_bytes data) ->
     metadata_at t2 (extraction_directory blobs (digest_bytes data)) (sl_metadata_bytes limits) m -> runs (k m) t2 Q) ->
  (forall t2 e, Q t2 [] (Err e)) ->
  runs (do? _ := on_disk (extract_archive user umask tar_entries extract (cache_path blobs (digest_bytes data))
            (extraction_directory blobs (digest_bytes data)) limits) else raise in
        do? metadata := on_disk (read_feature_metadata (extraction_directory blobs (digest_bytes data)) (sl_metadata_bytes limits)) else raise in
        k metadata) t1 Q.
Proof.
  intros Hsame Hb Hk He. apply runs_handle. eapply runs_impl.
  { apply runs_disk. apply (extract_blob_spec name base Hname); [by eapply wf_at_same|exact Hb]. }
  intros t2 l r [-> [n Hr]]. destruct r as [[]|e]; [|apply runs_raise, He]. destruct (Hr eq_refl) as [Hb2 Hu].
  apply runs_handle. eapply runs_impl; [apply runs_disk, (read_feature_metadata_spec _ _ t2 Hlimit)|].
  intros t3 l r3 [-> [n3 [-> Hm]]]. destruct r3 as [m|e]; [|apply runs_raise, He]. apply Hk; [|by apply Hm].
  split; [by exists len|]. destruct Hu as [Hc Hu]. split; [done|]. destruct Hu as [Hu|Hu]; [|by right]. left.
  intros j. rewrite Hu. unfold blobs. rewrite extraction_directory_digest.
  change (j ++ hex_encode (sha256 data) :: $"extracted" :: base) with (j ++ [hex_encode (sha256 data)] ++ $"extracted" :: base).
  rewrite app_assoc. apply Hsame.
Qed.

Lemma blob_data (t1 : gmap Path (Entry bytes)) p digest len : blob_at t1 p digest len -> exists data, digest = digest_bytes data.
Proof. intros (e & _ & _ & <- & _). eauto. Qed.

Definition https_outcome (reference : FeatureReference) (t' : gmap Path (Entry bytes)) (requests : list Request)
    (r : result FeatureSourceError VerifiedFeature) : Prop :=
  Forall (fun q : Request => policy_url (rq_url q) /\ rq_token q = None) requests /\
  (length requests <= S (N.to_nat (sl_redirects limits)))%nat /\
  forall feature, r = Ok feature ->
    backed limits blobs t t' feature /\ package_reference (vf_package feature) = reference /\
    package_digest (vf_package feature) = None /\
    Some (package_identity (vf_package feature)) = HttpsIntegrity <$> package_integrity (vf_package feature).

Lemma identity_of_Ok f digest id :
  identity_of (let? _ := map_err (fun message => (digest, message)) (validate_sha256 digest) in Ok (f digest)) = Ok id -> id = f digest.
Proof. destruct (validate_sha256 digest); cbn; [|done]. by intros [= <-]. Qed.

Lemma resolve_https_spec download extract reference value :
  runs (resolve_https limits blobs download extract reference value) t (https_outcome reference).
Proof.
  unfold resolve_https. apply runs_handle, runs_pure.
  destruct (checked_https_url value) as [url|e] eqn:Eu; [|apply runs_raise; split; [constructor|split; [cbn; lia|done]]].
  apply checked_https_url_policy in Eu. apply runs_handle.
  eapply runs_impl; [apply runs_network; by apply (get_following_spec send)|]. intros t1 l r [-> [(Hf & Hl & Hq) _]].
  assert (Hreq : Forall (fun q : Request => policy_url (rq_url q) /\ rq_token q = None) l).
  { apply Forall_forall. intros q Hin. rewrite Forall_forall in Hf, Hq. destruct (Hf q Hin) as [Hp _].
    destruct (Hq q Hin) as [_ [?|?]]; done. }
  assert (Hstop : forall t' e, https_outcome reference t' l (Err e)) by (intros; split; [done|by split]).
  destruct r as [response|e]; [|apply runs_raise; rewrite app_nil_r; apply Hstop].
  apply runs_handle, runs_pure. case_match; [|apply runs_raise; rewrite !app_nil_r; apply Hstop].
  apply runs_handle. eapply runs_impl; [apply runs_disk, cache_response_spec|]. intros t1 l1 r1 [-> [n1 Hr]].
  destruct r1 as [[[path digest] len]|e]; [|apply runs_raise; rewrite !app_nil_r; apply Hstop].
  destruct Hr as (-> & Hb & _ & _ & _ & Hkept). destruct (blob_data _ _ _ _ Hb) as [data ->]. cbn zeta. eapply unpack_runs.
  - by eapply (cache_kept_extracted name base Hname download t t1 data).
  - exact Hb.
  - intros t2 m Hi Hm. apply runs_handle, runs_pure.
    destruct (identity_of (https_integrity (digest_bytes data))) as [id|e] eqn:Ei; [|apply runs_raise; rewrite !app_nil_r; apply Hstop].
    apply runs_done. rewrite !app_nil_r. split; [done|]. split; [done|]. intros feature [= <-].
    apply (identity_of_Ok HttpsIntegrity) in Ei as ->. split; [|done]. by exists (digest_bytes data).
  - intros t2 e. rewrite !app_nil_r. apply Hstop.
Qed.

Definition oci_outcome (reference : FeatureReference) (value : str) (t' : gmap Path (Entry bytes)) (requests : list Request)
    (r : result FeatureSourceError VerifiedFeature) : Prop :=
  (forall parsed, OciReference_parse value = Ok parsed ->
     Forall (registry_request parsed) requests /\ (length requests <= 3 * request_bound limits)%nat) /\
  forall feature, r = Ok feature ->
    backed limits blobs t t' feature /\ package_reference (vf_package feature) = reference /\
    exists parsed manifest document layer,
      OciReference_parse value = Ok parsed /\ manifest_verified sha256 parsed manifest (digest_bytes manifest) /\
      package_digest (vf_package feature) = Some (digest_bytes manifest) /\
      package_identity (vf_package feature) = OciDigest (digest_bytes manifest) /\
      parse_manifest manifest = Ok document /\ feature_layer document = Ok layer /\
      package_integrity (vf_package feature) = Some (ds_digest layer).

(** The blob of the layer, from the cache or from the registry.
    It is what the manifest names, and nothing unpacked changed. *)
Lemma layer_blob_runs download parsed token layer (present : bool) :
  (present = true -> exists len, blob_at t (cache_path blobs (ds_digest layer)) (ds_digest layer) len) ->
  runs (if present then done (cache_path blobs (ds_digest layer)) else
      do? url := pure (blob_url parsed (ds_digest layer)) else raise in
      do? (response, _) := on_network (get_oci_response send status_display parse_token limits url None token) else raise in
      do? _ := pure (require_success status_display response) else raise in
      do? (path, _, _) := on_disk (cache_response limits blobs download response (Some (ds_digest layer)) (Some (ds_size layer))) else raise in
      done path) t (fun t' l r =>
    Forall (registry_request parsed) l /\ (length l <= request_bound limits)%nat /\
    forall path, r = Ok path -> path = cache_path blobs (ds_digest layer) /\ same_below ($"extracted" :: base) t t' /\
      exists len, blob_at t' path (ds_digest layer) len).
Proof.
  intros Hp. destruct present.
  { apply runs_done. split; [constructor|]. split; [cbn; lia|]. intros path [= <-]. split; [done|]. split; [done|]. by apply Hp. }
  apply runs_handle, runs_pure. destruct (blob_url parsed (ds_digest layer)) as [url|e] eqn:Eu;
    [|apply runs_raise; split; [constructor|split; [cbn; lia|done]]].
  apply runs_handle. eapply runs_impl; [apply runs_network; eapply (oci_step send); eauto|]. cbn beta. intros t1 l r [-> [Hf Hl]].
  destruct r as [[response token']|e]; [|apply runs_raise; rewrite !app_nil_r; by split_and!].
  apply runs_handle, runs_pure. case_match; [|apply runs_raise; rewrite !app_nil_r; by split_and!].
  apply runs_handle. eapply runs_impl; [apply runs_disk, cache_response_spec|]. intros t1 l1 r1 [-> [n1 Hr]].
  destruct r1 as [[[path digest] len]|e]; [|apply runs_raise; rewrite !app_nil_r; by split_and!].
  destruct Hr as (-> & Hb & _ & Hd & _ & Hkept). specialize (Hd _ eq_refl) as ->.
  apply runs_done. rewrite !app_nil_r. split; [done|]. split; [done|]. intros path [= <-]. split; [done|]. split; [|by exists len].
  destruct (blob_data _ _ _ _ Hb) as [data Edata]. rewrite Edata in Hkept.
  by eapply (cache_kept_extracted name base Hname download t t1 data).
Qed.

Lemma resolve_oci_spec download extract reference value :
  runs (resolve_oci limits blobs download extract reference value) t (oci_outcome reference value).
Proof.
  unfold resolve_oci. apply runs_handle, runs_pure.
  destruct (OciReference_parse value) as [parsed|e] eqn:Ep; [|apply runs_raise; split; [intros p Hp; congruence|done]].
  apply runs_handle. eapply runs_impl; [apply runs_network, (fetch_manifest_spec send status_display sha256 parse_index parse_manifest parse_token query_keeps)|].
  intros t1 l r [-> (Hf & Hl & Hm)].
  assert (Hstop : forall t' l' e, Forall (registry_request parsed) l' -> (length l' <= request_bound limits)%nat ->
    oci_outcome reference value t' (l ++ l') (Err e)).
  { intros t' l' e Hf' Hl'. split; [|done]. intros p Hp. rewrite Ep in Hp. injection Hp as <-.
    rewrite Forall_app, length_app. split; [by split|lia]. }
  assert (Hstop0 : forall t' e, oci_outcome reference value t' l (Err e)).
  { intros t' e. rewrite <- (app_nil_r l). apply Hstop; [constructor|cbn; lia]. }
  destruct r as [[[manifest digest] token]|e]; [|apply runs_raise; rewrite !app_nil_r; apply Hstop0].
  destruct Hm as [-> Hpin]. apply runs_handle, runs_pure.
  destruct (parse_manifest manifest) as [document|e] eqn:Ed; cbn [map_err]; [|apply runs_raise; rewrite !app_nil_r; apply Hstop0].
  apply runs_handle, runs_pure. destruct (feature_layer document) as [layer|e] eqn:El; [|apply runs_raise; rewrite !app_nil_r; apply Hstop0].
  cbn zeta. apply runs_handle. eapply runs_impl; [apply runs_disk, verify_cached_spec|]. intros t1 l1 r1 [-> [n1 (-> & Hr & _)]].
  destruct r1 as [present|e]; [|apply runs_raise; rewrite !app_nil_r; apply Hstop0].
  apply runs_handle. eapply runs_impl.
  { apply (layer_blob_runs download parsed token layer present). destruct present; [|done]. destruct Hr as (len & Hb & _). by exists len. }
  intros t2 l2 r2 (Hf2 & Hl2 & Hok). destruct r2 as [path|e]; [|apply runs_raise; rewrite !app_nil_r; by apply Hstop].
  destruct (Hok path eq_refl) as (-> & Hsame & len & Hb). destruct (blob_data _ _ _ _ Hb) as [data Edata].
  rewrite Edata in Hb |- *. eapply unpack_runs; [exact Hsame|exact Hb| |].
  - intros t3 m Hi Hmeta. apply runs_handle, runs_pure.
    destruct (identity_of (oci_digest (digest_bytes manifest))) as [id|e] eqn:Ei; [|apply runs_raise; rewrite !app_nil_r; by apply Hstop].
    apply runs_done. rewrite !app_nil_r. split; [by apply (Hstop t3 l2 (FS_Oci []))|]. intros feature [= <-].
    apply (identity_of_Ok OciDigest) in Ei as ->. split; [by exists (digest_bytes data)|]. split; [done|].
    exists parsed, manifest, document, layer. split; [done|]. split; [done|]. cbn. rewrite Edata. done.
  - intros t3 e. rewrite !app_nil_r. by apply Hstop.
Qed.
End sources.

(** C34: a Feature that comes over the network is what its digests say, and its requests leave no
    token elsewhere.  Whatever the servers answer and whatever call of the system fails: every
    request goes to an HTTPS URL without credentials whose host is not one of those the policy
    names ([refused_host]: localhost, local names, private and loopback IPv4 addresses); a token is
    sent only to the scheme, host and port of a manifest or blob URL of the registry; an HTTPS source takes at most [redirects + 1]
    requests, an OCI one at most three answers of [request_bound].  On success the file in the
    cache hashes to the integrity of the package, its directory is complete and was there before
    or holds exactly the files of that archive, the metadata is what that directory holds, and for
    OCI the digest is that of the manifest, the one the reference pins, whose layer the file is. *)
Theorem network_feature_verified name base limits download extract reference directory t :
  (forall url query,
     url_scheme (url_with_query url query) = url_scheme url /\ url_username (url_with_query url query) = url_username url /\
     url_password (url_with_query url query) = url_password url /\ url_host_str (url_with_query url query) = url_host_str url) ->
  name <> $"extracted" -> sl_metadata_bytes limits < MAX_U64 -> wf_tree t ->
  runs (resolve limits (name :: base) download extract reference directory) t (fun t' requests r =>
    match reference with
    | Ref_Local _ => requests = []
    | Ref_Https value => https_outcome name base limits t reference t' requests r
    | Ref_Oci value => oci_outcome name base limits t reference value t' requests r
    end).
Proof.
  intros Hq Hname Hlimit Hwf. apply (wf_tree_at t ($"extracted" :: base)) in Hwf. destruct reference as [value|value|value]; cbn [resolve].
  - by apply resolve_oci_spec.
  - by apply resolve_https_spec.
  - intros w d Hd. unfold on_disk. by destruct (resolve_local _ _ _ _ d) as [[d' l] r].
Qed.

(** ** Frozen and local Features *)

Section local.
(** [fs::canonicalize] gives a path that it leaves alone, and leaves alone what is in a directory
    that it leaves alone, unless that is a link. *)
Context (canonical_again : forall t p q, canonical t p = Some q -> canonical t q = Some q).
Context (canonical_child : forall t c p e, canonical t p = Some p -> t !! (c :: p) = Some e -> proper_name c ->
  e_kind e <> Kind_Symlink -> canonical t (c :: p) = Some (c :: p)).
Context (limits : FeatureSourceLimits) (base : Path) (t : gmap Path (Entry bytes)) (Hwf : wf_tree t).

Lemma validate_local_names_spec directory names pending count total :
  canonical t directory = Some directory -> Forall (fun name => is_Some (t !! (name :: directory))) names ->
  post (validate_local_names base limits directory names pending count total) t (fun t' r n => t' = t /\
    forall pending' count' total', r = Ok (pending', count', total') ->
      Forall (fun name => kind_is Kind_File t (name :: directory) \/ kind_is Kind_Directory t (name :: directory)) names /\
      pending' = rev (List.map (fun name => name :: directory) (List.filter (fun name =>
        bool_decide (e_kind <$> t !! (name :: directory) = Some Kind_Directory)) names)) ++ pending /\
      count' = count + lenN names /\ (names <> [] -> count' <= sl_files limits)).
Proof.
  intros Hcan. revert pending count total. induction names as [|name names IH]; intros pending count total Hn; cbn [validate_local_names].
  { apply post_done. split; [done|]. intros ??? [= <- <- <-]. split_and!; try done. by rewrite lenN_nil, N.add_0_r. }
  apply Forall_cons in Hn as [[e He] Hn].
  apply post_handle. unfold next_entry. apply post_call; intros step; cbn beta iota zeta; [by apply post_raise|].
  destruct (sl_files limits <? count + 1) eqn:Ef; [by apply post_raise|]. apply N.ltb_ge in Ef.
  apply post_handle. unfold symlink_metadata. apply post_call; intros step'; cbn beta iota; [by apply post_raise|].
  rewrite He. cbn [ok_or]. destruct (Hwf _ _ _ He) as [Hproper _].
  assert (Hnext : forall pending2 total2 keep,
    (e_kind e = Kind_File /\ keep = [] \/ e_kind e = Kind_Directory /\ keep = [name :: directory]) -> pending2 = keep ++ pending ->
    post (validate_local_names base limits directory names pending2 (count + 1) total2) t (fun t' r n => t' = t /\
      forall pending' count' total', r = Ok (pending', count', total') ->
      Forall (fun name => kind_is Kind_File t (name :: directory) \/ kind_is Kind_Directory t (name :: directory)) (name :: names) /\
      pending' = rev (List.map (fun name => name :: directory) (List.filter (fun name =>
        bool_decide (e_kind <$> t !! (name :: directory) = Some Kind_Directory)) (name :: names))) ++ pending /\
      count' = count + lenN (name :: names) /\ (name :: names <> [] -> count' <= sl_files limits))).
  { intros pending2 total2 keep Hk ->. eapply post_impl; [by apply IH|]. cbn beta. intros t' r n [-> Hr]. split; [done|].
    intros pending' count' total' Hr'. destruct (Hr _ _ _ Hr') as (Hall & -> & -> & Hc). rewrite lenN_cons. split_and!.
    - constructor; [|done]. destruct Hk as [[Hk _]|[Hk _]]; [left|right]; by exists e.
    - cbn [List.filter]. rewrite He. cbn [fmap option_fmap option_map]. destruct Hk as [[Hk ->]|[Hk ->]]; rewrite Hk.
      + by rewrite bool_decide_eq_false_2.
      + rewrite bool_decide_eq_true_2 by done. cbn [List.map rev]. by rewrite <- app_assoc.
    - lia.
    - intros _. destruct names; [rewrite lenN_nil; lia|]. by apply Hc. }
  destruct (e_kind e) eqn:Hk; try by apply post_raise.
  - destruct (checked_add _ _ _) as [total'|]; [|by apply post_raise]. destruct (_ <? total'); [by apply post_raise|].
    apply (Hnext _ _ []); [by left|done].
  - apply post_handle. unfold canonicalize. apply post_call; intros step2; cbn beta iota; [by apply post_raise|].
    rewrite (canonical_child t name directory e) by (done || congruence). cbn [ok_or].
    destruct (bool_decide (base `suffix_of` name :: directory)); cbn [negb]; [|by apply post_raise].
    apply (Hnext _ _ [name :: directory]); [by right|done].
Qed.

Lemma validate_local_sound fuel pending count total :
  Forall (fun d => canonical t d = Some d) pending ->
  post (validate_local_pending fuel base limits pending count total) t (fun t' r n => t' = t /\
    (r = Ok tt -> Forall (fun d => regular_below d t) pending)).
Proof.
  revert pending count total. induction fuel as [|fuel IH]; intros [|directory pending] count total Hp; cbn [validate_local_pending];
    try (by apply post_done || by apply post_raise). apply Forall_cons in Hp as [Hd Hp].
  apply post_handle. eapply post_impl; [apply read_dir_spec|]. intros t' [names|e] n (-> & Hn & _); cbn beta iota;
    [|by apply post_raise]. specialize (Hn _ eq_refl) as ->.
  apply post_handle. eapply post_impl; [apply validate_local_names_spec; [done|]|].
  { apply Forall_forall. intros c Hc. by apply elem_of_children in Hc. }
  intros t' [[[pending' count'] total']|e] n' [-> Hok]; cbn beta iota; [|by apply post_raise].
  destruct (Hok _ _ _ eq_refl) as (Hall & -> & _). fold (subdirectories directory t).
  eapply post_impl; [apply IH; apply Forall_app; split; [|done]|].
  - apply Forall_forall. intros d (c & -> & e & He & Hk)%elem_of_subdirectories.
    apply (canonical_child t c directory e); [done|done|by apply (Hwf _ _ _ He)|congruence].
  - cbn beta. intros t' r n2 [-> Hr]. split; [done|]. intros ->.
    specialize (Hr eq_refl). apply Forall_app in Hr as [Hsub Hr]. constructor; [|done].
    apply regular_step; [by apply wf_tree_at|done|]. intros d Hd'. rewrite Forall_forall in Hsub. by apply Hsub.
Qed.

(** Every directory that is still to be read was counted, so the fuel cannot run out: more of it
    changes nothing. *)
Lemma validate_local_fuel fuel more pending count total d :
  tree d = t -> Forall (fun d => canonical t d = Some d) pending -> count <= sl_files limits ->
  (length pending + N.to_nat (sl_files limits - count) <= fuel)%nat ->
  validate_local_pending (fuel + more) base limits pending count total d = validate_local_pending fuel base limits pending count total d.
Proof.
  revert pending count total d. induction fuel as [|fuel IH]; intros [|directory pending] count total d Ht Hp Hc Hf;
    cbn [validate_local_pending Nat.add]; [by destruct more|cbn in Hf; lia|done|]. apply Forall_cons in Hp as [Hd Hp].
  unfold handle at 1 3. assert (Hr := read_dir_spec directory t d Ht). destruct (read_dir directory d) as [[d1 l1] [names|e]]; [|done].
  destruct Hr as (_ & _ & Ht1 & Hn & _). specialize (Hn _ eq_refl) as ->.
  unfold handle. assert (Hv := validate_local_names_spec directory (omap (child_name directory) (map_to_list t).*1) pending count total Hd
    ltac:(apply Forall_forall; intros c Hc'; by apply elem_of_children in Hc') d1 Ht1).
  destruct (validate_local_names _ _ _ _ _ _ _ d1) as [[d2 l2] [[[pending' count'] total']|e]]; [|done].
  destruct Hv as (_ & _ & Ht2 & Hok). destruct (Hok _ _ _ eq_refl) as (Hall & -> & -> & Hcount).
  fold (subdirectories directory t). rewrite IH; [done|done|..].
  - apply Forall_app. split; [|done]. apply Forall_forall. intros x (c & -> & e & He & Hk)%elem_of_subdirectories.
    apply (canonical_child t c directory e); [done|done|by apply (Hwf _ _ _ He)|congruence].
  - destruct (omap (child_name directory) (map_to_list t).*1) eqn:E; [rewrite lenN_nil; lia|]. by apply Hcount.
  - cbn in Hf. rewrite length_app. unfold subdirectories. rewrite length_rev, length_map.
    match goal with |- context [List.filter ?f ?l] => assert (Hlen := List.filter_length_le f l) end.
    destruct (omap (child_name directory) (map_to_list t).*1) as [|c names] eqn:E; [cbn; lia|].
    specialize (Hcount ltac:(done)). unfold lenN in *. lia.
Qed.

(** *** The hash *)

Lemma depth_bound (root : Path) k e : t !! (k ++ root) = Some e -> (length k <= size t)%nat.
Proof.
  assert (Hset : forall e, t !! (k ++ root) = Some e -> exists X : gset Path, X ⊆ dom t /\ size X = length k /\
    forall q, q ∈ X -> (length q <= length k + length root)%nat).
  { induction k as [|c k IH]; intros e' He'.
    - exists ∅. split; [set_solver|]. split; [apply size_empty|set_solver].
    - destruct (Hwf _ _ _ He') as (_ & e1 & He1 & _). destruct (IH e1 He1) as (X & HX & Hs & Hq).
      exists ({[c :: k ++ root]} ∪ X). split; [|split].
      + apply union_subseteq. split; [|done]. apply singleton_subseteq_l, elem_of_dom. eauto.
      + rewrite size_union, size_singleton, Hs; [done|]. apply disjoint_singleton_l. intros Hin. apply Hq in Hin.
        cbn in Hin. rewrite length_app in Hin. lia.
      + intros q [->%elem_of_singleton|Hin]%elem_of_union; [cbn; rewrite length_app; lia|]. apply Hq in Hin. cbn. lia. }
  intros He. destruct (Hset e He) as (X & HX & <- & _). rewrite <- size_dom. by apply subseteq_size.
Qed.

(** The bytes of a tree: names in order, each with the length of its path, its path, its kind and
    its content; [inner] gives the bytes of a directory. *)
Definition entry_bytes (inner : Path -> bytes) (root relative : Path) (name : list N) : bytes :=
  let entry := t !! (name :: relative ++ root) in
  let is_dir := bool_decide (e_kind <$> entry = Some Kind_Directory) in
  entry_header (name :: relative) is_dir ++ (if is_dir then inner (name :: relative) else default [] (e_content <$> entry)).
Fixpoint tree_bytes (fuel : nat) (root relative : Path) : bytes :=
  match fuel with
  | O => []
  | S fuel' => concat (List.map (entry_bytes (tree_bytes fuel' root) root relative)
      (sort_names (omap (child_name (relative ++ root)) (map_to_list t).*1)))
  end.

Lemma elem_of_sort_names name names : name ∈ sort_names names <-> name ∈ names.
Proof.
  assert (Hins : forall n l, name ∈ insert_name n l <-> name = n \/ name ∈ l).
  { intros n l. induction l as [|m l IH]; cbn; [set_solver|]. destruct (str_cmp n m); set_solver. }
  induction names as [|n names IH]; cbn; [done|]. rewrite Hins, IH. set_solver.
Qed.

(** The code reads exactly the bytes [bs], and returns when no call fails. *)
Definition reads (m : disk_io bytes FeatureSourceError bytes) (bs : bytes) : Prop :=
  post m t (fun t' r n => t' = t /\ (forall h, r = Ok h -> h = bs) /\ (n = 0%nat -> is_ok r = true)).

Lemma reads_next {X} (m : disk_io bytes FeatureSourceError X) (P : X -> Prop) k bs :
  post m t (fun t' r n => t' = t /\ (forall x, r = Ok x -> P x) /\ (n = 0%nat -> is_ok r = true)) ->
  (forall x, P x -> reads (k x) bs) -> reads (handle m raise k) bs.
Proof.
  intros Hm Hk. apply post_handle. eapply post_impl; [exact Hm|]. intros t' [x|e] n (-> & HP & Hz); cbn beta iota.
  - eapply post_impl; [apply Hk, HP; done|]. intros t' r n2 (-> & Hh & Hz2). split_and!; [done..|]. intros Hn. apply Hz2. lia.
  - apply post_raise. split_and!; [done..|]. rewrite Nat.add_0_r. intros ->. by specialize (Hz eq_refl).
Qed.

(** The same for a call whose error is replaced. *)
Lemma reads_call {X : Type} f (g : IoError -> FeatureSourceError) (x : X) k bs :
  (forall step, f step t = (t, Ok x)) -> reads (k x) bs ->
  reads (handle (system_call untouched f) (fun e => raise (g e)) k) bs.
Proof.
  intros Hf Hk. apply post_handle. apply post_call; intros step; [apply post_raise; by split_and!|]. rewrite Hf. exact Hk.
Qed.

Lemma visit_names_spec inner bs root relative names hashed :
  Forall (fun name => is_Some (t !! (name :: relative ++ root))) names ->
  (forall name, is_Some (t !! (name :: relative ++ root)) -> reads (inner (name :: relative)) (bs (name :: relative))) ->
  reads (visit_names inner root relative names hashed) (hashed ++ concat (List.map (entry_bytes bs root relative) names)).
Proof.
  intros Hall Hinner. revert hashed. induction names as [|name names IH]; intros hashed; cbn [visit_names List.map concat].
  { apply post_done. split_and!; try done. intros h [= <-]. by rewrite app_nil_r. }
  apply Forall_cons in Hall as [[e He] Hall]. cbn zeta. apply (reads_call _ _ e); [intros step; by rewrite He|].
  unfold entry_bytes at 1. rewrite He. cbn [fmap option_fmap option_map default].
  replace (bool_decide (Some (e_kind e) = Some Kind_Directory)) with (bool_decide (e_kind e = Kind_Directory))
    by (apply bool_decide_ext; split; [by intros ->|by intros [= ->]]). destruct (bool_decide (e_kind e = Kind_Directory)) eqn:Hk.
  - apply (reads_next _ (fun content => content = bs (name :: relative))); [by apply Hinner; exists e|].
    intros ? ->. rewrite !app_assoc. by apply IH.
  - apply (reads_call _ _ tt); [intros step; by rewrite He|].
    apply (reads_call _ _ (e_content e)); [intros step; rewrite He; cbn [ok_or]; by rewrite Hk|].
    rewrite !app_assoc. by apply IH.
Qed.

Lemma visit_spec (root : Path) fuel relative :
  (relative = [] \/ is_Some (t !! (relative ++ root))) -> (size t < fuel + length relative)%nat ->
  reads (visit fuel root relative) (tree_bytes fuel root relative).
Proof.
  revert relative. induction fuel as [|fuel IH]; intros relative Hrel Hfuel; cbn [visit tree_bytes].
  { exfalso. destruct Hrel as [->|[e He]]; [cbn in Hfuel; lia|]. apply depth_bound in He. lia. }
  apply (reads_call _ _ (omap (child_name (relative ++ root)) (map_to_list t).*1)); [done|].
  apply (visit_names_spec _ _ _ _ _ []).
  - apply Forall_forall. intros name Hname. apply (proj1 (elem_of_sort_names _ _)) in Hname. by apply elem_of_children in Hname.
  - intros name Hname. apply IH; [by right|cbn; lia].
Qed.
End local.

Section local_sources.
Context (canonical_again : forall t p q, canonical t p = Some q -> canonical t q = Some q).
Context (canonical_child : forall t c p e, canonical t p = Some p -> t !! (c :: p) = Some e -> proper_name c ->
  e_kind e <> Kind_Symlink -> canonical t (c :: p) = Some (c :: p)).

(** The integrity of a local Feature. *)
Definition tree_digest t root : str := digest_bytes (tree_bytes t (S (size t)) root []).

Lemma hash_local_tree_spec t root :
  wf_tree t ->
  post (hash_local_tree root) t (fun t' r n => t' = t /\ (forall h, r = Ok h -> h = tree_digest t root) /\ (n = 0%nat -> is_ok r = true)).
Proof.
  intros Hwf. assert (Hv : post (do? hashed := visit (S (size t)) root [] else raise in done (digest_bytes hashed)) t
    (fun t' r n => t' = t /\ (forall h, r = Ok h -> h = tree_digest t root) /\ (n = 0%nat -> is_ok r = true)));
    [|intros d Hd; unfold hash_local_tree, observe; rewrite Hd; exact (Hv d Hd)].
  apply post_handle. eapply post_impl; [apply (visit_spec canonical_again canonical_child t Hwf root (S (size t)) []); [by left|cbn; lia]|].
  intros t' [h|e] n (-> & Hh & Hz); cbn beta iota.
  - apply post_done. split_and!; [done| |done]. intros ? [= <-]. by rewrite (Hh _ eq_refl).
  - apply post_raise. split_and!; [done..|]. rewrite Nat.add_0_r. intros ->. by specialize (Hz eq_refl).
Qed.

(** A Feature of the checkout: a directory under the base with files and directories only. *)
Definition contained (limits : FeatureSourceLimits) (directory : Path) t reference (feature : VerifiedFeature) : Prop :=
  let artifact := vf_artifact feature in
  exists base, canonical t directory = Some base /\ base `suffix_of` artifact /\
    kind_is Kind_Directory t artifact /\ regular_below artifact t /\
    metadata_at t artifact (sl_metadata_bytes limits) (package_metadata (vf_package feature)) /\
    vf_package feature = mkPackage reference (identity_local reference) (package_metadata (vf_package feature)) None
      (Some (tree_digest t artifact)).

Lemma resolve_local_spec limits directory reference value t :
  wf_tree t -> sl_metadata_bytes limits < MAX_U64 ->
  post (resolve_local reference value directory limits) t (fun t' r n => t' = t /\
    forall feature, r = Ok feature -> contained limits directory t reference feature).
Proof.
  intros Hwf Hlimit. unfold resolve_local. cbn zeta.
  generalize (target_of directory (encode_utf8 (default value (strip_prefix ($"./") value)))). intros candidate.
  apply post_handle. unfold canonicalize at 1.
  apply post_call; intros step; cbn beta iota; [by apply post_raise|].
  destruct (canonical t directory) as [base|] eqn:Eb; cbn [ok_or]; [|by apply post_raise].
  apply post_handle. unfold canonicalize. apply post_call; intros step1; cbn beta iota; [by apply post_raise|].
  destruct (canonical t candidate) as [source|] eqn:Es; cbn [ok_or]; [|by apply post_raise]. apply canonical_again in Es.
  apply post_handle. unfold symlink_metadata. apply post_call; intros step2; cbn beta iota; [by apply post_raise|].
  destruct (t !! source) as [e|] eqn:He; cbn [ok_or]; [|by apply post_raise].
  destruct (_ || _) eqn:Ec; [by apply post_raise|]. prop_of_bool. apply post_handle.
  eapply post_impl; [apply (validate_local_sound canonical_child limits base t Hwf); by constructor|].
  intros t1 [[]|x] n1 [-> Hv]; cbn beta iota; [|by apply post_raise]. specialize (Hv eq_refl). apply Forall_cons in Hv as [Hv _].
  apply post_handle. eapply post_impl; [by apply read_feature_metadata_spec|].
  intros t2 [m|x] n2 [-> Hm]; cbn beta iota; [|by apply post_raise]. specialize (Hm _ eq_refl).
  apply post_handle. eapply post_impl; [by apply hash_local_tree_spec|].
  intros t3 [h|x] n3 (-> & Hh & _); cbn beta iota; [|by apply post_raise]. specialize (Hh _ eq_refl) as ->.
  apply post_done. split; [done|]. intros feature [= <-]. exists base. cbn [vf_artifact vf_package package_metadata].
  do 2 (split; [done|]). split; [by exists e|]. split; [exact Hv|]. split; [exact Hm|reflexivity].
Qed.

(** A Feature of the checkout stays in the checkout.  When it is resolved, its directory is at
    or below the configuration directory after links are followed, everything below it is a
    regular file or a directory, its integrity is the digest of the whole tree, its metadata is
    what the tree holds, and nothing on the disk changed. *)
Theorem local_feature_contained limits blobs download extract value directory t :
  wf_tree t -> sl_metadata_bytes limits < MAX_U64 ->
  runs (resolve limits blobs download extract (Ref_Local value) directory) t (fun t' requests r =>
    t' = t /\ forall feature, r = Ok feature -> contained limits directory t (Ref_Local value) feature).
Proof.
  intros Hwf Hlimit. cbn [resolve]. eapply runs_impl; [apply runs_disk; by apply resolve_local_spec|].
  intros t' l r [_ [n [-> Hr]]]. by split.
Qed.

Lemma resolve_locked_network name base limits extract reference record directory t :
  name <> $"extracted" -> wf_tree t -> sl_metadata_bytes limits < MAX_U64 ->
  match reference with Ref_Local _ => False | _ => True end ->
  post (resolve_locked limits (name :: base) extract reference record directory) t (fun t' r n =>
    forall feature, r = Ok feature -> exists id digest m,
      feature = mkVerified (mkPackage reference id m digest (Some (lf_integrity record))) (extraction_directory (name :: base) (lf_integrity record)) /\
      fm_version m = lf_version record /\ frozen_identity reference record = Ok (id, digest) /\ installed t t' (name :: base) (lf_integrity record)).
Proof.
  intros Hname Hwf Hlimit Href. unfold resolve_locked. destruct reference as [value|value|value]; [..|done]; clear Href; cbn zeta.
  all: apply post_handle; eapply post_impl; [apply verify_cached_spec|].
  all: intros t1 [[|]|x] n1 (-> & Hb & _); cbn beta iota; [|by apply post_raise..]; destruct Hb as (len & Hb & _).
  all: destruct (blob_data _ _ _ _ Hb) as [data Edata]; rewrite Edata in *.
  all: apply post_handle; (eapply post_impl; [apply (extract_blob_spec name base Hname extract data len); [by apply wf_tree_at|exact Hb]|]).
  all: intros t2 [[]|x] n2 Hx; cbn beta iota; [|by apply post_raise]; destruct (Hx eq_refl) as [Hb2 Hu].
  all: apply post_handle; (eapply post_impl; [by apply read_feature_metadata_spec|]).
  all: intros t3 [m|x] n3 [-> Hm]; cbn beta iota; [|by apply post_raise].
  all: destruct (str_eqb (fm_version m) (lf_version record)) eqn:Ev; cbn [negb]; [|by apply post_raise]; apply str_eqb_true in Ev.
  all: destruct (frozen_identity _ record) as [[id digest]|x] eqn:Ei; [|by apply post_raise].
  all: apply post_done; intros feature [= <-]; exists id, digest, m; split; [done|]; split; [done|]; split; [done|].
  all: by split; [exists len|].
Qed.

(** C40: a frozen Feature is the one that the lock records, without the network.  When a record is
    resolved, the version and the integrity are those of the record; a Feature of the network is
    backed by a cached file of that integrity, unpacked completely, and has the digest that the
    resolved reference ends in; one of the checkout has a tree of that digest. *)
Theorem frozen_feature_verified name base limits extract reference record directory t :
  name <> $"extracted" -> wf_tree t -> sl_metadata_bytes limits < MAX_U64 ->
  post (resolve_locked limits (name :: base) extract reference record directory) t (fun t' r n =>
    forall feature, r = Ok feature ->
      fm_version (package_metadata (vf_package feature)) = lf_version record /\
      package_integrity (vf_package feature) = Some (lf_integrity record) /\
      match reference with
      | Ref_Local _ => t' = t /\ contained limits directory t reference feature
      | Ref_Https _ => installed t t' (name :: base) (lf_integrity record) /\
          package_identity (vf_package feature) = HttpsIntegrity (lf_integrity record)
      | Ref_Oci _ => installed t t' (name :: base) (lf_integrity record) /\
          exists before digest, rsplit_once 64 (lf_resolved record) = Some (before, digest) /\
            package_identity (vf_package feature) = OciDigest digest /\ package_digest (vf_package feature) = Some digest
      end).
Proof.
  intros Hname Hwf Hlimit.
  destruct reference as [value|value|value].
  - eapply post_impl; [by apply resolve_locked_network|]. cbn beta. intros t' r n Hr feature Hf.
    destruct (Hr feature Hf) as (id & digest & m & -> & Hv & Hi & Hinst). split; [done|]. split; [done|]. split; [done|].
    unfold frozen_identity in Hi. destruct (rsplit_once 64 (lf_resolved record)) as [[before d]|]; [|done]. cbn [fmap option_fmap option_map ok_or snd] in Hi.
    destruct (identity_of (oci_digest d)) as [i|] eqn:Ei; [|done]. injection Hi as <- <-.
    apply (identity_of_Ok OciDigest) in Ei as ->. by exists before, d.
  - eapply post_impl; [by apply resolve_locked_network|]. cbn beta. intros t' r n Hr feature Hf.
    destruct (Hr feature Hf) as (id & digest & m & -> & Hv & Hi & Hinst). split; [done|]. split; [done|]. split; [done|].
    unfold frozen_identity in Hi. destruct (identity_of (https_integrity (lf_integrity record))) as [i|] eqn:Ei; [|done].
    injection Hi as <- <-. by apply (identity_of_Ok HttpsIntegrity) in Ei as ->.
  - unfold resolve_locked. apply post_handle. eapply post_impl; [by apply resolve_local_spec|].
    intros t1 [feature|x] n [-> Hc]; cbn beta iota zeta; [|by apply post_raise].
    destruct (_ || _) eqn:Ed; [by apply post_raise|]. prop_of_bool. apply str_eqb_true in H1.
    apply post_done. intros ? [= <-]. split; [done|]. split; [done|]. split; [done|]. by apply Hc.
Qed.
End local_sources.
End resolver.

(** ** A registry and a disk *)

#[local] Instance sample_urls : UrlApi := {|
  Url := str; url_parse := Some; url_scheme := fun _ => $"https"; url_username := fun _ => []; url_password := fun _ => None;
  url_host_str := fun _ => Some ($"registry.example"); url_port_or_known_default := fun _ => Some 443;
  url_as_str := fun url => url; url_join := fun _ location => Some location; url_with_query := fun url _ => url |}.

Definition sample_sha256 (_ : list N) : list N := repeat 0 32.
Definition sample_digest : str := digest_bytes sample_sha256 [].
Definition sample_canonical (t : gmap Path (Entry (list N))) (p : Path) : option Path :=
  match t !! p with Some e => if bool_decide (e_kind e = Kind_Symlink) then None else Some p | None => None end.
Definition blobs_dir : Path := $"blobs" :: cache.
Definition resolver_tree : gmap Path (Entry (list N)) :=
  <[repeat 48 64 :: blobs_dir := sample_entry Kind_File [7; 7]]> (<[blobs_dir := sample_entry Kind_Directory []]>
  (<[$"devcontainer-feature.json" :: cache := sample_entry Kind_File [7; 7]]>
  (<[cache := sample_entry Kind_Directory []]> (<[[] := sample_entry Kind_Directory []]> ∅)))).
Definition resolver_disk : Disk (list N) := mkDisk resolver_tree (fun _ => quiet_step) 0.
(** One redirect, then the blob. *)
Definition sample_send (w : nat) (_ : Request) : nat * result unit Response :=
  (S w, Ok (match w with
    | O => mkResponse 302 None None None (Some ($"https://registry.example/moved")) None []
    | _ => mkResponse 200 None None None None None [Ok [7]; Ok [7]]
    end)).

Lemma sample_sha256_length data : lenN (sample_sha256 data) = 32 /\ Forall (fun b => b < 256) (sample_sha256 data).
Proof. split; [done|]. by repeat constructor. Qed.

Lemma resolver_tree_wf : wf_tree resolver_tree.
Proof.
  intros c q e He. unfold resolver_tree in He.
  do 5 (apply lookup_insert_Some in He as [[Heq _]|[_ He]];
    [first [discriminate Heq|injection Heq as <- <-; split; [split_and!; try done; apply (bool_decide_unpack _); vm_compute; exact I|]; by eexists]|]).
  by rewrite lookup_empty in He.
Qed.

Lemma sample_canonical_again t p q : sample_canonical t p = Some q -> sample_canonical t q = Some q.
Proof. unfold sample_canonical. destruct (t !! p) as [e|] eqn:He; [|done]. case_bool_decide; [done|]. intros [= <-]. rewrite He. by rewrite bool_decide_eq_false_2. Qed.
Lemma sample_canonical_child t c p e :
  sample_canonical t p = Some p -> t !! (c :: p) = Some e -> proper_name c -> e_kind e <> Kind_Symlink ->
  sample_canonical t (c :: p) = Some (c :: p).
Proof. intros _ He _ Hk. unfold sample_canonical. rewrite He. by rewrite bool_decide_eq_false_2. Qed.

Definition sample_resolve :=
  resolve sample_send (fun _ => []) sample_sha256 (fun _ => Err []) (fun _ => Err []) (fun _ => Err []) 1000 18
    (one_file ($"devcontainer-feature.json")) (fun _ => Ok sample_feature_value) (from_value id (fun _ => Err [])) sample_canonical
    default_source_limits.

Lemma network_feature_verified_witness :
  exists feature requests d',
    sample_resolve blobs_dir (Some ($"00")) (Some ($"00")) (Ref_Https ($"https://registry.example/t.tgz")) [] (0%nat, resolver_disk)
      = ((2%nat, d'), requests, Ok feature) /\
    length requests = 2%nat /\ Forall (fun q : Request => policy_url (rq_url q) /\ rq_token q = None) requests.
Proof.
  assert (H := network_feature_verified sample_send (fun _ => []) sample_sha256 (fun _ => Err []) (fun _ => Err []) (fun _ => Err [])
    1000 18 (one_file ($"devcontainer-feature.json")) (fun _ => Ok sample_feature_value) (from_value id (fun _ => Err []))
    sample_canonical sample_sha256_length ($"blobs") cache default_source_limits (Some ($"00")) (Some ($"00"))
    (Ref_Https ($"https://registry.example/t.tgz")) [] resolver_tree ltac:(done) ltac:(done) ltac:(done) resolver_tree_wf
    0%nat resolver_disk eq_refl).
  change (resolve _ _ _ _ _ _ _ _ _ _ _ _ _ _ _ _ _ _) with
    (sample_resolve blobs_dir (Some ($"00")) (Some ($"00")) (Ref_Https ($"https://registry.example/t.tgz")) []) in H.
  destruct (sample_resolve _ _ _ _ _ _) as [[[w d'] requests] r] eqn:E.
  assert (Hr : w = 2%nat /\ length requests = 2%nat /\ is_ok r = true).
  { apply (f_equal (fun x => (x.1.1.1, length x.1.2, is_ok x.2))) in E. cbn [fst snd] in E. vm_compute in E. by injection E. }
  destruct Hr as (-> & Hl & Hok). destruct r as [feature|]; [|done]. exists feature, requests, d'.
  split; [done|]. split; [done|]. exact (proj1 H).
Defined.

Lemma local_feature_contained_witness :
  exists feature, (sample_resolve blobs_dir None None (Ref_Local ($"./cache")) [] (0%nat, resolver_disk)).2 = Ok feature /\
    contained sample_sha256 (fun _ => Ok sample_feature_value) (from_value id (fun _ => Err [])) sample_canonical
      default_source_limits [] resolver_tree (Ref_Local ($"./cache")) feature.
Proof.
  assert (H := local_feature_contained sample_send (fun _ => []) sample_sha256 (fun _ => Err []) (fun _ => Err []) (fun _ => Err [])
    1000 18 (one_file ($"devcontainer-feature.json")) (fun _ => Ok sample_feature_value) (from_value id (fun _ => Err []))
    sample_canonical sample_sha256_length sample_canonical_again sample_canonical_child default_source_limits blobs_dir None None ($"./cache") []
    resolver_tree resolver_tree_wf ltac:(done) 0%nat resolver_disk eq_refl).
  change (resolve _ _ _ _ _ _ _ _ _ _ _ _ _ _ _ _ _ _) with (sample_resolve blobs_dir None None (Ref_Local ($"./cache")) []) in H.
  destruct (sample_resolve _ _ _ _ _ _) as [[[w d'] requests] r] eqn:E.
  assert (Hr : is_ok r = true).
  { apply (f_equal (fun x => is_ok x.2)) in E. cbn [snd] in E. vm_compute in E. by symmetry. }
  destruct r as [feature|]; [|done]. exists feature. split; [done|]. exact (proj2 H feature eq_refl).
Defined.

Definition sample_locked : LockedFeature := mkLocked ($"1.0.0") ($"registry.example/t@" ++ sample_digest) sample_digest ∅ ∅.
Definition sample_frozen :=
  resolve_locked sample_sha256 1000 18 (one_file ($"devcontainer-feature.json")) (fun _ => Ok sample_feature_value)
    (from_value id (fun _ => Err [])) sample_canonical default_source_limits ($"blobs" :: cache) (Some ($"00"))
    (Ref_Oci ($"registry.example/t")) sample_locked [] resolver_disk.

Lemma frozen_feature_verified_witness :
  exists feature, sample_frozen.2 = Ok feature /\ fm_version (package_metadata (vf_package feature)) = $"1.0.0" /\
    installed sample_sha256 (one_file ($"devcontainer-feature.json")) resolver_tree (tree sample_frozen.1.1) blobs_dir sample_digest.
Proof.
  assert (H := frozen_feature_verified (fun _ => []) sample_sha256 (fun _ => Err []) (fun _ => Err []) (fun _ => Err []) 1000 18 (one_file ($"devcontainer-feature.json"))
    (fun _ => Ok sample_feature_value) (from_value id (fun _ => Err [])) sample_canonical sample_sha256_length
    sample_canonical_again sample_canonical_child ($"blobs") cache default_source_limits (Some ($"00"))
    (Ref_Oci ($"registry.example/t")) sample_locked [] resolver_tree ltac:(done) resolver_tree_wf ltac:(done) resolver_disk eq_refl).
  assert (Hok : is_ok sample_frozen.2 = true) by (vm_compute; reflexivity).
  unfold sample_frozen in *. destruct (resolve_locked _ _ _ _ _ _ _ _ _ _ _ _ _ _) as [[d' l] r]. cbn [fst snd] in Hok |- *. destruct r as [feature|]; [|done].
  destruct H as (_ & _ & H). exists feature. split; [done|]. destruct (H feature eq_refl) as (Hv & _ & Hi & _). by split.
Defined.

(** The hash does not frame the content of files: a file that ends in the frame of another hashes
    as the two files do. *)
Definition feature_root : Path := [$"feature"].
Definition two_files : gmap Path (Entry (list N)) :=
  <[$"a" :: feature_root := sample_entry Kind_File [1]]> (<[$"b" :: feature_root := sample_entry Kind_File [2]]>
  (<[feature_root := sample_entry Kind_Directory []]> (<[[] := sample_entry Kind_Directory []]> ∅))).
Definition one_longer_file : gmap Path (Entry (list N)) :=
  <[$"a" :: feature_root := sample_entry Kind_File (1 :: entry_header [$"b"] false ++ [2])]>
  (<[feature_root := sample_entry Kind_Directory []]> (<[[] := sample_entry Kind_Directory []]> ∅)).
Example local_hash_ambiguous :
  two_files <> one_longer_file /\
  tree_digest sample_sha256 two_files feature_root = tree_digest sample_sha256 one_longer_file feature_root /\
  tree_bytes two_files 9 feature_root [] = tree_bytes one_longer_file 9 feature_root [].
Proof.
  split; [|split; vm_compute; reflexivity]. intros E.
  apply (f_equal (lookup ($"b" :: feature_root))) in E. vm_compute in E. done.
Qed.

(** Names and addresses of the machine itself that the policy for URLs accepts. *)
Example local_hosts_accepted :
  List.map private_host [$"localhost."; $"printer.local."; $"0.0.0.0"] = [false; false; false] /\
  List.map private_host [$"localhost"; $"printer.local"; $"127.0.0.1"] = [true; true; true].
Proof. split; vm_compute; reflexivity. Qed.

(** A reference to the digest of an index is never resolved: the digest is compared with that of
    the manifest that the index selects. *)
Definition length_sha256 (data : list N) : list N := lenN data :: repeat 0 31.
Definition index_send (w : nat) (_ : Request) : nat * result unit Response :=
  (S w, Ok (match w with
    | O => mkResponse 200 None None (Some OCI_INDEX) None None [Ok [1]]
    | _ => mkResponse 200 None None (Some OCI_MANIFEST) None None [Ok [2; 2]]
    end)).
Example pinned_index_refused :
  let index := digest_bytes length_sha256 [1] in
  let selected := digest_bytes length_sha256 [2; 2] in
  let fetch digest := (fetch_manifest index_send (fun _ => []) length_sha256
    (fun _ => Ok (mkIndex [mkDescriptor OCI_MANIFEST selected 2])) (fun _ => Err []) default_source_limits
    (mkOciReference ($"registry.example") ($"t") (default ($"latest") digest) digest) 0%nat).2 in
  fetch (Some index) = Err (FS_Digest index selected) /\ fetch None = Ok ([2; 2], selected, None).
Proof. split; vm_compute; reflexivity. Qed.
