(* ===== verification/LockCommand.v ===== *)
(** * LockCommand: writing a Feature lock and resolving from one
    ([cdenv-cli/src/feature_lock.rs], the codec entry points of
    [cdenv-devcontainer/src/feature/lock.rs])

    [cdenv lock] retrieves the packages that the configuration asks for with all their
    dependencies, resolves them, and replaces the lock next to the configuration; an existing lock
    is resolved from the cache without the network.  The resolver of [FeatureResolver] is a
    parameter here: what is proved holds for every resolver, and the frozen resolution, whose type
    has no network, is composed with the cached one at the end.  [serde_json], [fs::canonicalize]
    and the random suffixes are parameters.  The workspace lock and the tokio runtime around
    [generate_feature_lock], and the reading of the configuration, are not modelled here. *)

From S2P Require Import Prelude Text Order Utf8 Net Identity Storage FileTree Profile FeatureReference Feature FeatureParser Resolution FeatureLock FeatureArchive FeatureSources FeatureResolver Discovery Effects.

(** @src cdenv-cli/src/feature_lock.rs:21-21 FEATURE_LOCK_FILE *)
Definition FEATURE_LOCK_FILE : list N := $"devcontainer-lock.json".

(** @src cdenv-cli/src/feature_lock.rs:25-32 ExistingContainerLockStatus *)
Inductive ExistingContainerLockStatus : Type := Lock_Current | Lock_Absent | Lock_Drift.

(** The error that [FeatureLockError::Resolution] renders. *)
Inductive ResolutionFailure : Type :=
| Failure_Reference (error : UnsupportedReference)
| Failure_Feature (error : FeatureError).

(** The variants that the modelled code raises; [FL_OutOfFuel] is not one of the source.
    @src cdenv-cli/src/feature_lock.rs:85-124 FeatureLockError *)
Inductive FeatureLockError : Type :=
| FL_Source (error : FeatureSourceError)
| FL_Resolution (error : ResolutionFailure)
| FL_Target (path : Path) (message : str)
| FL_Write (path : Path) (source : IoError)
| FL_OutOfFuel.

(** ** The codec of the lock *)

Section codec.
Context (from_slice_lock : list N -> option FeatureLock) (to_vec_pretty : FeatureLock -> option (list N)).

(** @src cdenv-devcontainer/src/feature/lock.rs:98-104 FeatureLock::parse *)
Definition lock_parse (bytes : list N) : result FeatureError FeatureLock :=
  let? lock := ok_or (Feature_InvalidLock ($"lockfile is not valid strict JSON")) (from_slice_lock bytes) in
  let? _ := validate_structure lock in
  Ok lock.

(** @src cdenv-devcontainer/src/feature/lock.rs:110-117 FeatureLock::to_json_bytes *)
Definition to_json_bytes (lock : FeatureLock) : result FeatureError (list N) :=
  let? _ := validate_structure lock in
  let? bytes := ok_or (Feature_InvalidLock ($"lockfile cannot be serialized")) (to_vec_pretty lock) in
  Ok (bytes ++ [10]).

(** @src cdenv-cli/src/feature_lock.rs:38-51 inspect_existing_container_lock *)
Definition inspect_existing_container_lock (bytes : option (list N)) (requests : list FeatureRequest) :
    result FeatureError ExistingContainerLockStatus :=
  match bytes with
  | None => Ok Lock_Absent
  | Some bytes =>
      let? lock := lock_parse bytes in
      Ok (if is_ok (validate_requested lock requests) then Lock_Current else Lock_Drift)
  end.
End codec.

(** ** Requests of the profile *)

Section requests.
Context (Url_parse : str -> result str FeatureUrl).

(** @src cdenv-cli/src/feature_lock.rs:212-232 root_requests *)
Definition profile_request (feature : RawFeature) : result FeatureLockError FeatureRequest :=
  let value := match feature_source feature with Source_Oci value | Source_Https value | Source_Local value => value end in
  let? reference := map_err (fun e => FL_Resolution (Failure_Reference e)) (FeatureReference_parse Url_parse value) in
  let options := (fun value => match value with
    | Option_Boolean value => Value_Boolean value
    | Option_String value => Value_String value
    end) <$> feature_options feature in
  Ok (mkFeatureRequest reference options).

(** @src cdenv-cli/src/feature_lock.rs:207-234 root_requests *)
Definition root_requests (profile : RawProfile) : result FeatureLockError (list FeatureRequest) :=
  try_map profile_request (sorted_entries (features (common profile))).*2.

(** [resolve_features] always answers: [resolve_features_installs]. *)
Definition resolved (requests : list FeatureRequest) (packages : Catalog) (overrides : list str) :
    result FeatureLockError (list ResolvedFeature) :=
  match resolve_features Url_parse requests packages overrides with
  | Some r => map_err (fun e => FL_Resolution (Failure_Feature e)) r
  | None => Err FL_OutOfFuel
  end.
End requests.

(** ** Resolution from the lock *)

Section frozen.
Context (Url_parse : str -> result str FeatureUrl).
Context (resolve_locked : FeatureReference -> LockedFeature -> Path -> disk_io (list N) FeatureSourceError VerifiedFeature).

(** The loop over the records, in the order of their keys.
    @src cdenv-cli/src/feature_lock.rs:67-74 resolve_frozen_features_offline *)
Fixpoint locked_packages (directory : Path) (records : list (str * LockedFeature)) (packages : Catalog) :
    disk_io (list N) FeatureLockError Catalog :=
  match records with
  | [] => done packages
  | (value, record) :: rest =>
      do? reference := pure (map_err (fun e => FL_Resolution (Failure_Reference e)) (FeatureReference_parse Url_parse value)) else raise in
      do? verified := resolve_locked reference record directory or FL_Source in
      locked_packages directory rest (<[reference := vf_package verified]> packages)
  end.

(** @src cdenv-cli/src/feature_lock.rs:57-80 resolve_frozen_features_offline *)
Definition resolve_frozen_features_offline (lock : FeatureLock) (requests : list FeatureRequest) (override_order : list str)
    (configuration_directory : Path) : disk_io (list N) FeatureLockError (list ResolvedFeature) :=
  let failed e := FL_Resolution (Failure_Feature e) in
  do? _ := pure (map_err failed (validate_requested lock requests)) else raise in
  do? packages := locked_packages configuration_directory (sorted_entries (lock_features lock)) ∅ else raise in
  do? plan := pure (resolved Url_parse requests packages override_order) else raise in
  do? _ := pure (map_err failed (validate_frozen_lock lock requests plan packages)) else raise in
  done plan.
End frozen.

(** ** Retrieval *)

Section generate.
Context `{UrlApi} {W : Type} (Url_parse : str -> result str FeatureUrl).
Context (resolve : FeatureReference -> Path -> act (W * Disk (list N)) Request FeatureSourceError VerifiedFeature).
Abbreviation locking := (act (W * Disk (list N)) Request FeatureLockError).

(** The loop over the queue.  It ends only if the dependencies do: the fuel is a parameter.
    @src cdenv-cli/src/feature_lock.rs:236-265 retrieve_packages *)
Fixpoint retrieve_loop (fuel : nat) (directory : Path) (pending : list FeatureReference) (packages : Catalog) : locking Catalog :=
  match pending with
  | [] => done packages
  | reference :: rest =>
      match fuel with
      | O => raise FL_OutOfFuel
      | S fuel' =>
          if bool_decide (is_Some (packages !! reference)) then retrieve_loop fuel' directory rest packages else
          do? verified := resolve reference directory or FL_Source in
          let dependencies := (fm_depends_on (package_metadata (vf_package verified))).*1 in
          retrieve_loop fuel' directory
            (rest ++ List.filter (fun dependency => negb (bool_decide (is_Some (packages !! dependency)))) dependencies)
            (<[reference := vf_package verified]> packages)
      end
  end.

(** @src cdenv-cli/src/feature_lock.rs:236-265 retrieve_packages *)
Definition retrieve_packages (fuel : nat) (requests : list FeatureRequest) (directory : Path) : locking Catalog :=
  retrieve_loop fuel directory (List.map request_reference requests) ∅.

(** ** The file *)

Context (canonical : gmap Path (Entry (list N)) -> Path -> option Path) (user umask : N).

(** @src cdenv-cli/src/feature_lock.rs:267-299 checked_lock_target *)
Definition checked_lock_target (checkout configuration_directory : Path) : disk_io (list N) FeatureLockError Path :=
  do? checkout := canonicalize canonical checkout or FL_Write checkout in
  do? directory := canonicalize canonical configuration_directory or FL_Write configuration_directory in
  if negb (bool_decide (checkout `suffix_of` directory))
  then raise (FL_Target directory ($"configuration directory escapes checkout")) else
  let target := FEATURE_LOCK_FILE :: directory in
  do? metadata := symlink_metadata target
    else (fun e => match e with Io_NotFound => done target | _ => raise (FL_Write target e) end) in
  if negb (bool_decide (e_kind metadata = Kind_File))
  then raise (FL_Target target ($"existing target is a symlink or non-regular file")) else done target.

(** @src cdenv-cli/src/feature_lock.rs:348-358 existing_mode *)
Definition existing_mode (path : Path) : disk_io (list N) FeatureLockError N :=
  do? metadata := symlink_metadata path
    else (fun e => match e with Io_NotFound => done 420 | _ => raise (FL_Write path e) end) in
  done (N.land (e_mode metadata) 511).

(** @src cdenv-cli/src/feature_lock.rs:334-334 allocate_temporary *)
Definition temporary_name (random : list N) : list N := $".devcontainer-lock." ++ hex_encode random ++ $".tmp".

(** The attempts; [random] is what [getrandom] fills at each one.
    @src cdenv-cli/src/feature_lock.rs:328-340 allocate_temporary *)
Fixpoint allocate_loop (attempts : nat) (random : nat -> option (list N)) (parent : Path) : disk_io (list N) FeatureLockError Path :=
  match attempts with
  | O => raise (FL_Write parent Io_AlreadyExists)
  | S attempts' =>
      match random attempts' with
      | None => raise (FL_Write parent Io_Other)
      | Some bytes =>
          let path := temporary_name bytes :: parent in
          do? _ := open_new user umask [] 438 path
            else (fun e => match e with
              | Io_AlreadyExists => allocate_loop attempts' random parent
              | _ => raise (FL_Write path e)
              end) in
          done path
      end
  end.

(** @src cdenv-cli/src/feature_lock.rs:327-345 allocate_temporary *)
Definition allocate_temporary (random : nat -> option (list N)) (parent : Path) : disk_io (list N) FeatureLockError Path :=
  allocate_loop 32 random parent.

(** [File::set_permissions] on the open temporary file.
    @src cdenv-cli/src/feature_lock.rs:365-368 set_mode *)
Definition set_file_mode (path : Path) (mode : N) : disk_io (list N) IoError unit :=
  system_call untouched (fun _ t =>
    match t !! path with
    | Some entry => (<[path := mkEntry (e_kind entry) (e_uid entry) mode (e_content entry)]> t, Ok tt)
    | None => (t, Err Io_NotFound)
    end).

(** [flush], [sync_all] *)
Definition sync_file : disk_io (list N) IoError unit := system_call untouched (fun _ t => (t, Ok tt)).

(** @src cdenv-cli/src/feature_lock.rs:308-316 atomic_replace_checkout_file *)
Definition write_lock (path parent temporary : Path) (mode : N) (bytes : list N) : disk_io (list N) IoError unit :=
  do? _ := set_file_mode temporary mode else raise in
  do? _ := append_chunk temporary bytes else raise in
  do? _ := sync_file else raise in
  do? _ := sync_file else raise in
  do? _ := rename_file temporary path else raise in
  do? _ := open_read parent else raise in
  sync_file.

(** @src cdenv-cli/src/feature_lock.rs:301-325 atomic_replace_checkout_file *)
Definition atomic_replace_checkout_file (random : nat -> option (list N)) (path : Path) (bytes : list N) :
    disk_io (list N) FeatureLockError unit :=
  do? mode := existing_mode path else raise in
  match path with
  | [] => raise (FL_Target path ($"target has no parent"))
  | _ :: parent =>
      do? temporary := allocate_temporary random parent else raise in
      do? _ := write_lock path parent temporary mode bytes
        else (fun source =>
          do? _ := remove_file temporary else (fun _ => raise (FL_Write path source)) in
          raise (FL_Write path source)) in
      done tt
  end.

(** From the validated profile of the configuration at [source_path] in the checkout; [client] is
    [FeatureSourceResolver::new].
    @src cdenv-cli/src/feature_lock.rs:180-205 generate_feature_lock *)
Definition generate_feature_lock (to_vec_pretty : FeatureLock -> option (list N)) (client : result FeatureSourceError unit)
    (random : nat -> option (list N)) (fuel : nat) (checkout : Path) (source_path : ConfigPath) (profile : RawProfile) : locking Path :=
  let failed e := FL_Resolution (Failure_Feature e) in
  let config_absolute := target_of checkout (encode_utf8 (config_path_str source_path)) in
  match config_absolute with
  | [] => raise (FL_Target config_absolute ($"configuration has no parent directory"))
  | _ :: configuration_directory =>
      do? requests := pure (root_requests Url_parse profile) else raise in
      do? _ := pure (map_err FL_Source client) else raise in
      do? packages := retrieve_packages fuel requests configuration_directory else raise in
      do? plan := pure (resolved Url_parse requests packages (override_feature_install_order (common profile))) else raise in
      do? lock := pure (map_err failed (from_resolution requests plan packages)) else raise in
      do? bytes := pure (map_err failed (to_json_bytes to_vec_pretty lock)) else raise in
      do? target := on_disk (checked_lock_target checkout configuration_directory) else raise in
      do? _ := on_disk (atomic_replace_checkout_file random target bytes) else raise in
      done target
  end.
End generate.

(** ** Retrieval follows every dependency and ends *)

Definition dependencies_of (package : FeaturePackage) : list FeatureReference := (fm_depends_on (package_metadata package)).*1.

(** Every reference and every dependency of a package is in the catalog or still waits. *)
Definition closed_upto (roots pending : list FeatureReference) (packages : Catalog) : Prop :=
  (forall r, r ∈ roots -> is_Some (packages !! r) \/ r ∈ pending) /\
  (forall r p d, packages !! r = Some p -> d ∈ dependencies_of p -> is_Some (packages !! d) \/ d ∈ pending).

Section retrieval.
Context `{UrlApi} {W : Type}.
Context (resolve : FeatureReference -> Path -> act (W * Disk (list N)) Request FeatureSourceError VerifiedFeature).
Context (directory : Path) (P : FeatureReference -> FeaturePackage -> Prop) (U : gset FeatureReference).
Context (resolve_ok : forall r, r ∈ U -> emits (resolve r directory) (fun _ x => forall v, x = Ok v ->
  P r (vf_package v) /\ NoDup (dependencies_of (vf_package v)) /\ Forall (fun d => d ∈ U) (dependencies_of (vf_package v)))).

Lemma closed_skip roots r pending packages :
  closed_upto roots (r :: pending) packages -> is_Some (packages !! r) -> closed_upto roots pending packages.
Proof.
  intros [Hr Hd] Hs. split.
  - intros q Hq. destruct (Hr q Hq) as [|Hp]; [by left|]. apply elem_of_cons in Hp as [->|]; auto.
  - intros q p d Hq Hdep. destruct (Hd q p d Hq Hdep) as [|Hp]; [by left|]. apply elem_of_cons in Hp as [->|]; auto.
Qed.

Lemma closed_insert roots r pending packages p :
  closed_upto roots (r :: pending) packages ->
  closed_upto roots (pending ++ List.filter (fun d => negb (bool_decide (is_Some (packages !! d)))) (dependencies_of p))
    (<[r := p]> packages).
Proof.
  intros [Hr Hd]. assert (Hstep : forall d, is_Some (packages !! d) \/ d ∈ r :: pending ->
    is_Some (<[r := p]> packages !! d) \/ d ∈ pending ++ List.filter (fun d => negb (bool_decide (is_Some (packages !! d)))) (dependencies_of p)).
  { intros d [Hs|Hp]; [left; rewrite lookup_insert_is_Some'; auto|]. apply elem_of_cons in Hp as [->|Hp].
    - left. rewrite lookup_insert_eq. eauto.
    - right. apply elem_of_app. by left. }
  split; [by auto|]. intros q p' d Hq Hdep. apply lookup_insert_Some in Hq as [[<- <-]|[_ Hq]]; [|by eauto].
  destruct (decide (is_Some (packages !! d))) as [Hs|Hs]; [apply Hstep; by left|].
  right. apply elem_of_app. right. apply list_elem_of_In, List.filter_In. rewrite bool_decide_eq_false_2 by done.
  split; [by apply list_elem_of_In|done].
Qed.

Lemma length_filter_le {X : Type} (f : X -> bool) (l : list X) : (length (List.filter f l) <= length l)%nat.
Proof. induction l as [|x l IH]; cbn; [done|]. destruct (f x); cbn; lia. Qed.

Lemma dependencies_bound p : NoDup (dependencies_of p) -> Forall (fun d => d ∈ U) (dependencies_of p) -> (length (dependencies_of p) <= size U)%nat.
Proof.
  intros Hnd Hall. rewrite <- (size_list_to_set (C := gset FeatureReference)) by done.
  apply subseteq_size. intros d Hd%elem_of_list_to_set. by rewrite Forall_forall in Hall; apply Hall.
Qed.

Lemma retrieve_loop_spec fuel roots : forall pending (packages : Catalog),
  Forall (fun r => r ∈ U) pending -> dom packages ⊆ U -> map_Forall P packages -> closed_upto roots pending packages ->
  (length pending + (size U - size packages) * size U <= fuel)%nat ->
  emits (retrieve_loop resolve fuel directory pending packages) (fun _ r =>
    match r with
    | Ok packages' => closed_upto roots [] packages' /\ map_Forall P packages' /\ dom packages' ⊆ U
    | Err e => exists source, e = FL_Source source
    end).
Proof.
  induction fuel as [|fuel IH]; intros pending packages Hp HU HP Hc Hf; destruct pending as [|r pending]; cbn [retrieve_loop].
  1, 3: by apply emits_done.
  { by apply Nat.le_0_r, Nat.eq_add_0 in Hf as [? _]. }
  apply Forall_cons in Hp as [Hr Hp]. destruct (bool_decide_reflect (is_Some (packages !! r))) as [Hs|Hs].
  { apply IH; try done; [by eapply closed_skip|]. cbn [length] in Hf. lia. }
  eapply emits_handle; [by apply resolve_ok|..].
  2:{ intros t e _. apply emits_raise. eauto. }
  intros t v Hv. destruct (Hv v eq_refl) as (HPv & Hnd & Hall). cbn zeta. fold (dependencies_of (vf_package v)).
  assert (Hn : packages !! r = None) by (by destruct (packages !! r); [destruct Hs; eauto|]).
  assert (Hsz : (size packages < size U)%nat).
  { rewrite <- size_dom. apply subset_size. split; [done|]. intros Hsub. apply Hs, elem_of_dom. by apply Hsub. }
  apply IH.
  - apply Forall_app. split; [done|]. apply Forall_forall. intros d Hd%list_elem_of_In%List.filter_In.
    rewrite Forall_forall in Hall. apply Hall, list_elem_of_In, Hd.
  - rewrite dom_insert. set_solver.
  - by apply map_Forall_insert_2.
  - by apply closed_insert.
  - rewrite map_size_insert_None, length_app by done. cbn [length] in Hf.
    pose proof (length_filter_le (fun d => negb (bool_decide (is_Some (packages !! d)))) (dependencies_of (vf_package v))).
    pose proof (dependencies_bound _ Hnd Hall).
    replace (size U - size packages)%nat with (S (size U - S (size packages))) in Hf by lia. rewrite Nat.mul_succ_l in Hf. lia.
Qed.
End retrieval.

(** ** A closed catalog has every package that is looked up *)

Definition names_missing (e : FeatureError) : bool := match e with Feature_MissingPackage _ _ => true | _ => false end.

Section errors.
Context {E X Y Z : Type} (P : E -> Prop).
Lemma try_map_error (f : X -> result E Y) l : (forall x e, f x = Err e -> P e) -> forall e, try_map f l = Err e -> P e.
Proof.
  intros Hf. induction l as [|x l IH]; intros e He; cbn [try_map] in He; [done|].
  destruct (f x) as [y|e'] eqn:Ef; cbn in He; [|injection He as <-; by eapply Hf].
  destruct (try_map f l) as [ys|e'] eqn:El; cbn in He; [done|]. injection He as <-. by apply IH.
Qed.
Lemma try_fold_error (f : Z -> X -> result E Z) l : (forall z x e, f z x = Err e -> P e) -> forall z e, try_fold f z l = Err e -> P e.
Proof.
  intros Hf. induction l as [|x l IH]; intros z e He; cbn [try_fold] in He; [done|].
  destruct (f z x) as [z'|e'] eqn:Ef; cbn in He; [by eapply IH|]. injection He as <-. by eapply Hf.
Qed.
End errors.

Lemma validate_options_error metadata provided path e : validate_options metadata provided path = Err e -> names_missing e = false.
Proof.
  unfold validate_options. destruct (List.find _ _) as [[name v]|]; [by intros [= <-]|].
  destruct (try_map _ _) as [l|e'] eqn:Em; cbn; [done|]. intros [= <-].
  revert Em. apply (try_map_error (fun e => names_missing e = false)). intros [name d] e. unfold effective_option.
  destruct (negb _); [by intros [= <-]|done].
Qed.

Lemma apply_priorities_error nodes overrides e : apply_priorities nodes overrides = Err e -> names_missing e = false.
Proof.
  apply (try_fold_error (fun e => names_missing e = false)). intros n [i value] e'. unfold apply_override.
  destruct (_ || _); [by intros [= <-]|]. destruct (bool_decide _); [by intros [= <-]|done].
Qed.

Lemma rounds_error fuel : forall nodes installed output e, rounds fuel nodes installed output = Some (Err e) -> names_missing e = false.
Proof.
  induction fuel as [|fuel IH]; intros nodes installed output e; cbn [rounds]; destruct (bool_decide _); try done.
  destruct (ready_nodes nodes installed); [by intros [= <-]|]. apply IH.
Qed.

Section catalog.
Context (packages : Catalog) (closed : forall r p d, packages !! r = Some p -> d ∈ dependencies_of p -> is_Some (packages !! d)).
Let present (item : Pending) : Prop := is_Some (packages !! p_reference item).

Lemma expand_present item nodes :
  present item ->
  match expand packages item nodes with
  | Ok (_, pushed) => Forall present pushed
  | Err e => names_missing e = false
  end.
Proof.
  intros [p Hp]. unfold expand. rewrite Hp. cbn [ok_or].
  destruct (negb _); [done|]. destruct (validate_options _ _ _) as [effective|e] eqn:Ev; [|by eapply validate_options_error].
  destruct (nodes !! package_identity p); [by destruct (negb _)|].
  apply Forall_forall. intros q Hq. unfold dependency_requests in Hq. apply list_elem_of_In, in_map_iff in Hq as ([d o] & <- & Hin).
  unfold present. cbn. eapply closed; [exact Hp|]. unfold dependencies_of. apply list_elem_of_fmap. exists (d, o). by split; [|apply list_elem_of_In].
Qed.

Lemma expand_all_present fuel : forall pending nodes e, Forall present pending ->
  expand_all fuel packages pending nodes = Some (Err e) -> names_missing e = false.
Proof.
  induction fuel as [|fuel IH]; intros [|item pending] nodes e Hp; cbn [expand_all]; try done.
  apply Forall_cons in Hp as [Hi Hp]. pose proof (expand_present item nodes Hi) as He.
  destruct (expand packages item nodes) as [[nodes' pushed]|e']; [|by intros [= <-]].
  apply IH. by apply Forall_app.
Qed.

Lemma resolve_features_present Url_parse requests overrides :
  Forall (fun request => is_Some (packages !! request_reference request)) requests ->
  exists r, resolve_features Url_parse requests packages overrides = Some r /\ forall e, r = Err e -> names_missing e = false.
Proof.
  intros Hr. unfold resolve_features. destruct (expand_all_total requests packages) as [[nodes|e] He]; unfold root_request in He; rewrite He.
  2:{ eexists. split; [done|]. intros e' [= <-]. eapply expand_all_present; [|exact He]. apply Forall_forall.
      intros item Hi. apply list_elem_of_In, in_map_iff in Hi as (q & <- & Hq). rewrite Forall_forall in Hr. apply Hr. by apply list_elem_of_In. }
  destruct (apply_priorities _ _) as [nodes'|e] eqn:Ha.
  2:{ eexists. split; [done|]. intros e' [= <-]. by eapply apply_priorities_error. }
  pose proof (rounds_spec (size nodes') nodes' ∅ [] ltac:(lia)) as Hs. unfold round_sort.
  destruct (rounds _ _ _ _) as [[out|e]|] eqn:Eo; [|..|done]; eexists; (split; [done|]); [done|]. intros e' [= <-]. by eapply rounds_error.
Qed.
End catalog.

(** C28: retrieving the packages of a lock ends, with everything the resolution looks up.  When the
    references that can be reached lie in a finite set [U], the loop ends within
    [length requests + |U| * |U|] turns whatever the registries answer: it fails with an error of
    a source, or returns a catalog of references of [U] that has every requested reference and
    every dependency of every package in it, and the resolution of that catalog never lacks a
    package. *)
Theorem lock_retrieval_completes `{UrlApi} {W : Type} Url_parse
    (resolve : FeatureReference -> Path -> act (W * Disk (list N)) Request FeatureSourceError VerifiedFeature)
    directory (U : gset FeatureReference) requests overrides fuel :
  (forall r, r ∈ U -> emits (resolve r directory) (fun _ x => forall v, x = Ok v ->
     NoDup (dependencies_of (vf_package v)) /\ Forall (fun d => d ∈ U) (dependencies_of (vf_package v)))) ->
  Forall (fun request => request_reference request ∈ U) requests ->
  (length requests + size U * size U <= fuel)%nat ->
  emits (retrieve_packages resolve fuel requests directory) (fun _ r =>
    match r with
    | Ok packages =>
        dom packages ⊆ U /\ (forall request, request ∈ requests -> is_Some (packages !! request_reference request)) /\
        (forall r p d, packages !! r = Some p -> d ∈ dependencies_of p -> is_Some (packages !! d)) /\
        exists answer, resolve_features Url_parse requests packages overrides = Some answer /\
          forall e, answer = Err e -> names_missing e = false
    | Err e => exists source, e = FL_Source source
    end).
Proof.
  intros Hres Hreq Hfuel. unfold retrieve_packages.
  eapply emits_impl; [apply (retrieve_loop_spec resolve directory (fun _ _ => True) U) with (roots := List.map request_reference requests)|].
  - intros r Hr. eapply emits_impl; [by apply Hres|]. intros t x Hx v ->. by destruct (Hx v eq_refl).
  - apply Forall_forall. intros r Hr. apply list_elem_of_In, in_map_iff in Hr as (q & <- & Hq).
    rewrite Forall_forall in Hreq. by apply Hreq, list_elem_of_In.
  - rewrite dom_empty_L. set_solver.
  - apply map_Forall_empty.
  - split; [by auto|]. intros r p d Hr. by rewrite lookup_empty in Hr.
  - rewrite map_size_empty, Nat.sub_0_r, List.length_map. done.
  - intros _ [packages|e] Hr; [|done]. destruct Hr as ((Hroots & Hdeps) & _ & HU).
    assert (Hin : forall request, request ∈ requests -> is_Some (packages !! request_reference request)).
    { intros q Hq. destruct (Hroots (request_reference q)) as [Hs|Hs%elem_of_nil]; [|done..].
      apply list_elem_of_In, in_map, list_elem_of_In, Hq. }
    assert (Hcl : forall r p d, packages !! r = Some p -> d ∈ dependencies_of p -> is_Some (packages !! d)).
    { intros r p d Hp Hd. by destruct (Hdeps r p d Hp Hd) as [Hs|Hs%elem_of_nil]. }
    split_and!; [done..|]. apply resolve_features_present; [done|]. apply Forall_forall. by intros q Hq; apply Hin.
Qed.

(** ** A lock and the resolution it was built from *)

Section roundtrip.
Context (Url_parse : str -> result str FeatureUrl).
Context (resolve_locked : FeatureReference -> LockedFeature -> Path -> disk_io (list N) FeatureSourceError VerifiedFeature).
Context (directory : Path).





End roundtrip.

Section offline.
Context (Url_parse : str -> result str FeatureUrl) (sha256 : list N -> list N) (user umask : N).
Context (tar_entries : bool -> list N -> result unit (list (result unit TarEntry))) (from_slice : list N -> result unit Json).
Context (metadata_from_value : Json -> result FeatureError FeatureMetadata).
Context (canonical : gmap Path (Entry (list N)) -> Path -> option Path).
Context (limits : FeatureSourceLimits) (blobs : Path) (extract : option (list N)) (directory : Path).
Abbreviation offline := (resolve_locked sha256 user umask tar_entries from_slice metadata_from_value canonical limits blobs extract).





End offline.

(** ** Replacing the lock *)

Section replace.
Context (user umask : N) (random : nat -> option (list N)).
Implicit Types (t : gmap Path (Entry (list N))).

Lemma allocate_loop_spec attempts parent t :
  post (allocate_loop user umask attempts random parent) t (fun t' r n =>
    match r with
    | Ok p => exists b, p = temporary_name b :: parent /\ t !! p = None /\
        t' = <[p := mkEntry Kind_File user (N.ldiff 438 umask) []]> t
    | Err _ => t' = t /\ (n = 0%nat -> kind_is Kind_Directory t parent -> (0 < attempts)%nat ->
        ~ forall k, (k < attempts)%nat -> exists b, random k = Some b /\ t !! (temporary_name b :: parent) = None)
    end).
Proof.
  induction attempts as [|k IH]; cbn [allocate_loop].
  { apply post_raise. split; [done|]. lia. }
  destruct (random k) as [b|] eqn:Er.
  2:{ apply post_raise. split; [done|]. intros _ _ _ Hall. destruct (Hall k ltac:(lia)) as (b & Hb & _). by rewrite Hb in Er. }
  cbn zeta. apply post_handle. unfold open_new. eapply post_impl; [apply create_spec|]. intros t1 [[]|e] n1; cbn beta iota.
  { intros (-> & Hn & ->). apply post_done. by exists b. }
  intros (-> & Hc & Hex). assert (Hother : e <> Io_AlreadyExists -> post (X := Path) (raise (FL_Write (temporary_name b :: parent) e)) t (fun t2 r2 n2 =>
    match r2 with
    | Ok p => exists b0, p = temporary_name b0 :: parent /\ t !! p = None /\ t2 = <[p := mkEntry Kind_File user (N.ldiff 438 umask) []]> t
    | Err _ => t2 = t /\ ((n1 + n2)%nat = 0%nat -> kind_is Kind_Directory t parent -> (0 < S k)%nat ->
        ~ forall k0, (k0 < S k)%nat -> exists b, random k0 = Some b /\ t !! (temporary_name b :: parent) = None)
    end)).
  { intros Hne. apply post_raise. split; [done|]. intros Hz (d & Hd & Hk) _ Hall.
    destruct (Hall k ltac:(lia)) as (b' & Hb & Hfree). rewrite Er in Hb. injection Hb as <-.
    assert (Hc' : creatable t (temporary_name b :: parent) = Err e) by (apply Hc; lia).
    unfold creatable in Hc'. rewrite Hfree, Hd in Hc'. cbn [ok_or] in Hc'. by rewrite bool_decide_eq_true_2 in Hc'. }
  destruct e; [by apply Hother| |by apply Hother].
  eapply post_impl; [exact IH|]. cbn beta. intros t2 [p|e] n2; [done|]. intros [-> Hn]. split; [done|].
  intros Hz Hd _ Hall. destruct (Hall k ltac:(lia)) as (b' & Hb & Hfree). rewrite Er in Hb. injection Hb as <-. by apply Hex in Hfree.
Qed.

Lemma set_file_mode_spec p mode t e :
  t !! p = Some e ->
  post (set_file_mode p mode) t (fun t' r n => match r with
    | Ok _ => t' = <[p := mkEntry (e_kind e) (e_uid e) mode (e_content e)]> t /\ n = 0%nat
    | Err _ => t' = t /\ n = 1%nat end).
Proof. intros He. unfold set_file_mode. apply post_call; intros step; [done|]. by rewrite He. Qed.

(** The tree has the lock at [path], or a temporary file beside what was there. *)
Definition left_behind t t' (temporary : Path) : Prop := exists m c, t' = <[temporary := mkEntry Kind_File user m c]> t.

Lemma write_lock_spec t name parent temporary m0 mode bytes :
  let path := name :: parent in
  temporary <> path -> t !! temporary = None ->
  post (write_lock path parent temporary mode bytes) (<[temporary := mkEntry Kind_File user m0 []]> t) (fun t' r n =>
    match r with
    | Ok _ => t' = <[path := mkEntry Kind_File user mode bytes]> t
    | Err _ => (left_behind t t' temporary \/ t' = <[path := mkEntry Kind_File user mode bytes]> t) /\
        (n = 0%nat -> kind_is Kind_Directory t parent -> temporary <> parent -> kind_is Kind_Directory t path)
    end).
Proof.
  intros path Hne Hfree. unfold write_lock.
  assert (Hleft : forall m c, left_behind t (<[temporary := mkEntry Kind_File user m c]> t) temporary) by (intros m c; by exists m, c).
  apply post_handle. eapply post_impl; [apply set_file_mode_spec, lookup_insert_eq|]. intros t1 [[]|e] n1; cbn beta iota; intros [-> ->].
  2:{ apply post_raise. split; [left; apply Hleft|done]. }
  rewrite insert_insert_eq. cbn [e_kind e_uid e_content].
  apply post_handle. unfold append_chunk. apply post_call; intros step1; cbn beta iota zeta; rewrite lookup_insert_eq, insert_insert_eq; cbn [e_kind e_uid e_mode e_content app].
  { apply post_raise. split; [left; apply Hleft|done]. }
  do 2 (apply post_handle; unfold sync_file at 1; apply post_call; intros ?; cbn beta iota; [apply post_raise; split; [left; apply Hleft|done]|]).
  apply post_handle. unfold rename_file. apply post_call; intros step2; cbn beta iota; [apply post_raise; split; [left; apply Hleft|done]|].
  rewrite lookup_insert_eq, lookup_insert_ne by done.
  assert (Hdone : post (do? _ := open_read parent else raise in sync_file) (<[path := mkEntry Kind_File user mode bytes]> (delete temporary (<[temporary := mkEntry Kind_File user mode bytes]> t)))
    (fun t' r n => match r with
     | Ok _ => t' = <[path := mkEntry Kind_File user mode bytes]> t
     | Err _ => (left_behind t t' temporary \/ t' = <[path := mkEntry Kind_File user mode bytes]> t) /\
        (n = 0%nat -> kind_is Kind_Directory t parent -> temporary <> parent -> kind_is Kind_Directory t path)
     end)).
  { rewrite delete_insert_id by done. apply post_handle. unfold open_read. apply post_call; intros step3; cbn beta iota; [apply post_raise; by split; [right|]|].
    rewrite lookup_insert_ne by (by intros ?%(f_equal length); cbn in *; lia).
    destruct (t !! parent) eqn:Ep; cbn [ok_or].
    - unfold sync_file. apply post_call; intros step4; [by split; [right|]|done].
    - apply post_raise. split; [by right|]. intros _ (d & Hd & _). by rewrite Hd in Ep. }
  destruct (t !! path) as [e|] eqn:Epath.
  - destruct (bool_decide_reflect (e_kind e = Kind_Directory)) as [Hk|Hk]; [|by apply Hdone].
    apply post_raise. split; [left; apply Hleft|]. intros _ _ _. by exists e.
  - unfold creatable. rewrite lookup_insert_ne by done. rewrite Epath. unfold path at 1. cbn match.
    destruct (decide (temporary = parent)) as [->|Hnp].
    { rewrite lookup_insert_eq. cbn. apply post_raise. split; [left; apply Hleft|]. intros. done. }
    rewrite lookup_insert_ne by done. destruct (t !! parent) as [d|] eqn:Ep; cbn [ok_or].
    + destruct (bool_decide_reflect (e_kind d = Kind_Directory)) as [Hk|Hk]; cbn [negb]; [by apply Hdone|].
      apply post_raise. split; [left; apply Hleft|]. intros _ (d' & Hd & Hk') _. by rewrite Ep in Hd; injection Hd as <-.
    + apply post_raise. split; [left; apply Hleft|]. intros _ (d & Hd & _). by rewrite Hd in Ep.
Qed.

Lemma temporary_not_lock b (parent : Path) : temporary_name b :: parent <> FEATURE_LOCK_FILE :: parent.
Proof. intros [= H]. Qed.

Lemma temporary_not_parent b (parent : Path) : temporary_name b :: parent <> parent.
Proof. intros H%(f_equal length). cbn in H. lia. Qed.

(** The mode that a replacement keeps. *)
Definition kept_mode t p : N := match t !! p with Some e => N.land (e_mode e) 511 | None => 420 end.

(** What replacing the lock of a directory may leave. *)
Definition replaced t t' (parent : Path) bytes : Prop :=
  t' = <[FEATURE_LOCK_FILE :: parent := mkEntry Kind_File user (kept_mode t (FEATURE_LOCK_FILE :: parent)) bytes]> t.

Lemma atomic_replace_spec parent bytes t :
  post (atomic_replace_checkout_file user umask random (FEATURE_LOCK_FILE :: parent) bytes) t (fun t' r n =>
    match r with
    | Ok _ => replaced t t' parent bytes
    | Err _ =>
        (t' = t \/ replaced t t' parent bytes \/
         (0 < n)%nat /\ exists b, t !! (temporary_name b :: parent) = None /\ left_behind t t' (temporary_name b :: parent)) /\
        (n = 0%nat -> kind_is Kind_Directory t parent -> ~ kind_is Kind_Directory t (FEATURE_LOCK_FILE :: parent) ->
         ~ forall k, (k < 32)%nat -> exists b, random k = Some b /\ t !! (temporary_name b :: parent) = None)
    end).
Proof.
  set (path := FEATURE_LOCK_FILE :: parent). unfold atomic_replace_checkout_file. fold path. change (path) with (FEATURE_LOCK_FILE :: parent) at 2.
  apply post_handle. unfold existing_mode. apply post_handle. unfold symlink_metadata. apply post_call; intros step; cbn beta iota.
  { apply post_raise. apply post_raise. split; [by left|done]. }
  assert (Hrest : post (
      do? temporary := allocate_temporary user umask random parent else raise in
      do? _ := write_lock path parent temporary (kept_mode t path) bytes
        else (fun source => do? _ := remove_file temporary else (fun _ => raise (FL_Write path source)) in raise (FL_Write path source)) in
      done tt) t (fun t' r n => match r with
    | Ok _ => replaced t t' parent bytes
    | Err _ =>
        (t' = t \/ replaced t t' parent bytes \/
         (0 < n)%nat /\ exists b, t !! (temporary_name b :: parent) = None /\ left_behind t t' (temporary_name b :: parent)) /\
        (n = 0%nat -> kind_is Kind_Directory t parent -> ~ kind_is Kind_Directory t path ->
         ~ forall k, (k < 32)%nat -> exists b, random k = Some b /\ t !! (temporary_name b :: parent) = None)
    end)).
  - apply post_handle. unfold allocate_temporary. eapply post_impl; [apply allocate_loop_spec|]. intros t1 [tmp|e] n1; cbn beta iota.
    2:{ intros [-> Hn]. apply post_raise. split; [by left|]. intros Hz Hd _. apply Hn; [lia|done|lia]. }
    intros (b & -> & Hfree & ->). apply post_handle.
    eapply post_impl; [apply write_lock_spec; [apply temporary_not_lock|done]|]. intros t2 [[]|e] n2; cbn beta iota.
    { intros ->. by apply post_done. }
    intros [Hleft Hn]. apply post_handle. unfold remove_file. apply post_call; intros step2; cbn beta iota.
    { apply post_raise. split; [|lia]. destruct Hleft as [Hl| ->]; [|by right; left]. right. right. split; [lia|]. by exists b. }
    assert (Hend : forall t3, (t3 = t \/ replaced t t3 parent bytes) -> post (X := unit) (raise (FL_Write path e)) t3 (fun t' r n => match r with
      | Ok _ => replaced t t' parent bytes
      | Err _ =>
          (t' = t \/ replaced t t' parent bytes \/
           (0 < n1 + (n2 + (0 + n)))%nat /\ exists b, t !! (temporary_name b :: parent) = None /\ left_behind t t' (temporary_name b :: parent)) /\
          ((n1 + (n2 + (0 + n)))%nat = 0%nat -> kind_is Kind_Directory t parent -> ~ kind_is Kind_Directory t path ->
           ~ forall k, (k < 32)%nat -> exists b, random k = Some b /\ t !! (temporary_name b :: parent) = None) end)).
    { intros t3 Ht3. apply post_raise. split; [tauto|]. intros Hz Hd Hnd _. apply Hnd, Hn; [lia|done|apply temporary_not_parent]. }
    destruct Hleft as [(m & c & ->)| ->].
    + rewrite lookup_insert_eq. cbn. rewrite delete_insert_id by done. apply Hend. by left.
    + rewrite lookup_insert_ne by (symmetry; apply temporary_not_lock). rewrite Hfree. apply Hend. by right.
  - destruct (t !! path) as [e|] eqn:Ep; cbn [ok_or]; apply post_done;
      (replace (kept_mode t path) with (match t !! path with Some e => N.land (e_mode e) 511 | None => 420 end) in Hrest by done);
      rewrite Ep in Hrest; exact Hrest.
Qed.
End replace.

(** ** The command *)

Section command.
Context `{UrlApi} {W : Type} (Url_parse : str -> result str FeatureUrl).
Context (resolve : FeatureReference -> Path -> act (W * Disk (list N)) Request FeatureSourceError VerifiedFeature).
Context (canonical : gmap Path (Entry (list N)) -> Path -> option Path) (user umask : N).
Context (to_vec_pretty : FeatureLock -> option (list N)) (client : result FeatureSourceError unit) (random : nat -> option (list N)).
Context (cache : Path -> Prop).
Implicit Types (t : gmap Path (Entry (list N))).

(** Outside the cache nothing changed. *)
Definition same_checkout t t' : Prop := forall q, ~ cache q -> t' !! q = t !! q.

Context (resolve_confined : forall r directory t, runs (resolve r directory) t (fun t' _ _ => same_checkout t t')).

Lemma retrieve_confined fuel directory : forall pending packages t,
  runs (retrieve_loop resolve fuel directory pending packages) t (fun t' _ _ => same_checkout t t').
Proof.
  induction fuel as [|fuel IH]; intros [|r pending] packages t; cbn [retrieve_loop].
  1, 3: by apply runs_done.
  { by apply runs_raise. }
  destruct (bool_decide _); [apply IH|]. apply runs_handle. eapply runs_impl; [apply resolve_confined|].
  intros t1 l1 [v|e] H1; cbn beta iota; [|by apply runs_raise].
  eapply runs_impl; [apply IH|]. intros t2 l2 x H2 q Hq. rewrite H2 by done. by apply H1.
Qed.

Lemma runs_checked {E F X Y : Type} (r : result E X) (h : E -> act (W * Disk (list N)) Request F Y) k t Q :
  match r with Ok x => runs (k x) t Q | Err e => runs (h e) t Q end -> runs (handle (pure r) h k) t Q.
Proof. intros Hr. apply runs_handle. intros w d <-. destruct r; exact Hr. Qed.

(** The directory of the configuration, with links followed, in the checkout. *)
Definition lock_directory t checkout (directory : Path) : Prop :=
  exists root, canonical t checkout = Some root /\ root `suffix_of` directory.

Lemma checked_lock_target_spec checkout directory t :
  post (checked_lock_target canonical checkout directory) t (fun t' r n => t' = t /\ forall target, r = Ok target ->
    exists found, canonical t directory = Some found /\ target = FEATURE_LOCK_FILE :: found /\ lock_directory t checkout found /\
      (t !! target = None \/ kind_is Kind_File t target)).
Proof.
  unfold checked_lock_target. apply post_handle. unfold canonicalize at 1. apply post_call; intros s1; cbn beta iota; [by apply post_raise|].
  destruct (canonical t checkout) as [root|] eqn:Er; cbn [ok_or]; [|by apply post_raise].
  apply post_handle. unfold canonicalize. apply post_call; intros s2; cbn beta iota; [by apply post_raise|].
  destruct (canonical t directory) as [found|] eqn:Ef; cbn [ok_or]; [|by apply post_raise].
  destruct (bool_decide_reflect (root `suffix_of` found)) as [Hs|Hs]; cbn [negb]; [|by apply post_raise]. cbn zeta.
  apply post_handle. unfold symlink_metadata. apply post_call; intros s3; cbn beta iota; [by apply post_raise|].
  destruct (t !! _) as [e|] eqn:Et; cbn [ok_or].
  - destruct (bool_decide_reflect (e_kind e = Kind_File)) as [Hk|Hk]; cbn [negb]; [|by apply post_raise].
    apply post_done. split; [done|]. intros ? [= <-]. exists found. split_and!; [done..|by exists root|]. right. by exists e.
  - apply post_done. split; [done|]. intros ? [= <-]. exists found. split_and!; [done..|by exists root|by left].
Qed.

(** [cdenv lock] writes one file of the checkout, completely or not at all.  Whatever the
    registries answer and whatever call of the system fails, apart from the cache of the resolver
    the tree ends as it was, or with [devcontainer-lock.json] replaced in the directory of the
    configuration, which lies in the checkout after links are followed, or with one temporary file
    beside it.  On success the file is a regular one with the mode it had, a link or directory was
    not followed, and it holds the text of a lock that the resolution of the retrieved packages
    builds for the requests of the profile. *)
Theorem lock_command_writes_lock fuel checkout source_path profile t :
  runs (generate_feature_lock Url_parse resolve canonical user umask to_vec_pretty client random fuel checkout source_path profile) t (fun t' _ r =>
    exists t1, same_checkout t t1 /\
    match r with
    | Ok target => exists found requests packages plan lock json,
        lock_directory t1 checkout found /\ target = FEATURE_LOCK_FILE :: found /\
        (t1 !! target = None \/ kind_is Kind_File t1 target) /\ replaced user t1 t' found (json ++ [10]) /\
        root_requests Url_parse profile = Ok requests /\
        resolve_features Url_parse requests packages (override_feature_install_order (common profile)) = Some (Ok plan) /\
        from_resolution requests plan packages = Ok lock /\ validate_structure lock = Ok tt /\ to_vec_pretty lock = Some json
    | Err _ => t' = t1 \/ exists found, lock_directory t1 checkout found /\
        ((exists bytes, replaced user t1 t' found bytes) \/
         exists b, t1 !! (temporary_name b :: found) = None /\ left_behind user t1 t' (temporary_name b :: found))
    end).
Proof.
  unfold generate_feature_lock. cbn zeta. destruct (target_of _ _) as [|name directory] eqn:Et; [apply runs_raise; exists t; by split; [|left]|].
  apply runs_checked. destruct (root_requests Url_parse profile) as [requests|e] eqn:Eq; [|apply runs_raise; exists t; by split; [|left]].
  apply runs_checked. destruct client as [[]|e]; cbn [map_err]; [|apply runs_raise; exists t; by split; [|left]].
  apply runs_handle. eapply runs_impl; [apply retrieve_confined|]. intros t1 l1 [packages|e] H1; cbn beta iota; [|apply runs_raise; exists t1; by split; [|left]].
  apply runs_checked. unfold resolved.
  destruct (resolve_features Url_parse requests packages _) as [[plan|e]|] eqn:Ep; cbn [map_err]; [|apply runs_raise; exists t1; by split; [|left]..].
  apply runs_checked. destruct (from_resolution requests plan packages) as [lock|e] eqn:El; cbn [map_err]; [|apply runs_raise; exists t1; by split; [|left]].
  apply runs_checked. unfold to_json_bytes. destruct (validate_structure lock) as [[]|e] eqn:Ev; cbn [map_err]; [|apply runs_raise; exists t1; by split; [|left]].
  destruct (to_vec_pretty lock) as [json|] eqn:Ej; cbn [ok_or map_err]; [|apply runs_raise; exists t1; by split; [|left]].
  apply runs_handle. eapply runs_impl; [apply runs_disk, checked_lock_target_spec|]. intros t2 l2 r2 (_ & n & -> & Htarget).
  destruct r2 as [target|e]; cbn beta iota; [|apply runs_raise; exists t1; by split; [|left]].
  destruct (Htarget target eq_refl) as (found & _ & -> & Hdir & Hkind).
  apply runs_handle. eapply runs_impl; [apply runs_disk, atomic_replace_spec|]. intros t3 l3 r3 (_ & n3 & Hr).
  destruct r3 as [[]|e]; cbn beta iota.
  - apply runs_done. exists t1. split; [done|]. exists found, requests, packages, plan, lock, json. by split_and!.
  - apply runs_raise. exists t1. split; [done|]. destruct Hr as [[->|[Hr|(_ & b & Hr)]] _]; [by left|right; exists found; split; [done|]..]; eauto.
Qed.
End command.

(** ** A checkout, its Features and their lock *)

#[local] Instance no_urls : UrlApi := {|
  Url := unit; url_parse := fun _ => None; url_scheme := fun _ => []; url_username := fun _ => []; url_password := fun _ => None;
  url_host_str := fun _ => None; url_port_or_known_default := fun _ => None;
  url_as_str := fun _ => []; url_join := fun _ _ => None; url_with_query := fun url _ => url |}.

Definition tagged (name : str) : FeatureReference := Ref_Oci ($"ghcr.io/features/" ++ name ++ $":1").

(** [name] at tag 1, published with the digest of the letter [c]. *)
Definition published (name : str) (c : N) (depends : list str) : FeaturePackage :=
  mkPackage (tagged name) (OciDigest (FeatureLock.sample_digest c))
    (mkFeatureMetadata name ($"1.0.3") ∅ (List.map (fun d => (tagged d, ∅)) depends) []
       (fm_contributions (package_metadata (sample_package name [] []))))
    (Some (FeatureLock.sample_digest c)) (Some (FeatureLock.sample_digest c)).

Definition published_catalog : Catalog := sample_catalog [published ($"top") 97 [$"base"]; published ($"base") 98 []].
Definition top_request : FeatureRequest := mkFeatureRequest (tagged ($"top")) ∅.

(** A resolver that answers from a catalog. *)
Definition catalog_resolve (packages : Catalog) (reference : FeatureReference) (_ : Path) :
    act (unit * Disk (list N)) Request FeatureSourceError VerifiedFeature :=
  match packages !! reference with
  | Some package => done (mkVerified package [])
  | None => raise (FS_Authentication ($"no such Feature"))
  end.
Definition catalog_locked (packages : Catalog) (reference : FeatureReference) (record : LockedFeature) (_ : Path) :
    disk_io (list N) FeatureSourceError VerifiedFeature :=
  match packages !! reference with
  | Some package =>
      if bool_decide (package_integrity package = Some (lf_integrity record)) then done (mkVerified package [])
      else raise (FS_Authentication ($"not the locked Feature"))
  | None => raise (FS_Authentication ($"no such Feature"))
  end.

(** Two Features that depend on each other are retrieved once each. *)
Definition looping_catalog : Catalog := sample_catalog [published ($"top") 97 [$"base"]; published ($"base") 98 [$"top"]].

Lemma lock_retrieval_completes_witness :
  exists packages d', retrieve_packages (catalog_resolve looping_catalog) 5 [top_request] [] (tt, resolver_disk) = (d', [], Ok packages) /\
    size packages = 2%nat /\ forall r p d, packages !! r = Some p -> d ∈ dependencies_of p -> is_Some (packages !! d).
Proof.
  assert (H := lock_retrieval_completes no_url (catalog_resolve looping_catalog) [] {[tagged ($"top"); tagged ($"base")]} [top_request] [] 5).
  assert (Hok : forall r, r ∈ ({[tagged ($"top"); tagged ($"base")]} : gset FeatureReference) -> emits (catalog_resolve looping_catalog r []) (fun _ x =>
     forall v, x = Ok v -> NoDup (dependencies_of (vf_package v)) /\
       Forall (fun d => d ∈ ({[tagged ($"top"); tagged ($"base")]} : gset FeatureReference)) (dependencies_of (vf_package v)))).
  { intros r [Hr|Hr]%elem_of_union; apply elem_of_singleton in Hr as ->; (eapply emits_done; intros v [= <-]);
      (split; [by apply NoDup_singleton|]); by constructor; [apply (bool_decide_unpack _); vm_compute|]. }
  specialize (H Hok). assert (Hreq : Forall (fun request => request_reference request ∈ ({[tagged ($"top"); tagged ($"base")]} : gset FeatureReference)) [top_request]).
  { constructor; [|done]. apply (bool_decide_unpack _). by vm_compute. }
  specialize (H Hreq ltac:(vm_compute; lia) (tt, resolver_disk)).
  destruct (retrieve_packages _ _ _ _ _) as [[d' l] r] eqn:E.
  apply (f_equal (fun x => (x.1.2, match x.2 with Ok packages => Some (size packages) | Err _ => None end))) in E as E'. vm_compute in E'.
  injection E' as <- Hs. destruct r as [packages|]; [|done]. injection Hs as Hs. exists packages, d'. destruct H as (_ & _ & Hc & _). split_and!; [done|symmetry; exact Hs|exact Hc].
Defined.

(** The resolution of [published_catalog] and its lock. *)
Definition as_resolved (p : FeaturePackage) : ResolvedFeature :=
  mkResolved (package_reference p) (package_identity p) (package_metadata p) ∅.
Definition published_plan : list ResolvedFeature :=
  List.map as_resolved [published ($"base") 98 []; published ($"top") 97 [$"base"]].
Definition published_lock : result FeatureError FeatureLock := from_resolution [top_request] published_plan published_catalog.

(** The lock brings the plan back from a cache that has the packages. *)
Example locked_plan_returns :
  exists lock d', published_lock = Ok lock /\ size (lock_features lock) = 2%nat /\
    resolve_frozen_features_offline no_url (catalog_locked published_catalog) lock [top_request] [] [] resolver_disk = (d', [], Ok published_plan).
Proof. eexists _, _. split; [vm_compute; reflexivity|]. split; vm_compute; reflexivity. Qed.

(** A Feature that is requested by two tags of one digest is one node of the resolution, so the lock
    has a record for the first reference only, and a frozen resolution of that lock lacks the
    package of the second. *)
Definition alias : FeatureReference := Ref_Oci ($"ghcr.io/features/top:1.0").
Definition alias_catalog : Catalog :=
  <[alias := mkPackage alias (OciDigest (FeatureLock.sample_digest 97)) (package_metadata (published ($"top") 97 [])) None (Some (FeatureLock.sample_digest 97))]>
    (sample_catalog [published ($"top") 97 []]).
Definition alias_requests : list FeatureRequest := [top_request; mkFeatureRequest alias ∅].
Lemma lock_drops_alias :
  exists plan lock, resolve_features no_url alias_requests alias_catalog [] = Some (Ok plan) /\
    from_resolution alias_requests plan alias_catalog = Ok lock /\ validate_requested lock alias_requests = Ok tt /\
    (resolve_frozen_features_offline no_url (catalog_locked alias_catalog) lock alias_requests [] [] resolver_disk).2 =
      Err (FL_Resolution (Failure_Feature (Feature_MissingPackage alias (render_path [alias])))).
Proof.
  eexists _, _. split; [vm_compute; reflexivity|]. split; [vm_compute; reflexivity|]. split; vm_compute; reflexivity.
Qed.

(** [.devcontainer/devcontainer.json] in a checkout that asks for [top]. *)
Definition lock_checkout : Path := [$"checkout"].
Definition lock_tree : gmap Path (Entry (list N)) :=
  <[$".devcontainer" :: lock_checkout := sample_entry Kind_Directory []]>
    (<[lock_checkout := sample_entry Kind_Directory []]> (<[[] := sample_entry Kind_Directory []]> ∅)).
Definition locking_profile : RawProfile :=
  mkRawProfile None None (Scenario_Image (mkImageScenario ($"x") (mkNonComposeOptions None None [] None None)))
    (mkRawCommon (<[$"ghcr.io/features/top:1" := mkRawFeature (Source_Oci ($"ghcr.io/features/top:1")) ∅]> ∅) [] ∅ ∅ None None None None None None
       [] [] [] [] [] ∅ None (mkLifecycleCommands None None None None None None) None None ∅ ∅).
Definition sample_generate : act (unit * Disk (list N)) Request FeatureLockError Path :=
  generate_feature_lock no_url (catalog_resolve published_catalog) sample_canonical 1000 18 (fun _ => Some [123; 125]) (Ok tt) (fun k => Some [N.of_nat k])
    7 lock_checkout (mkRepositoryPath ($".devcontainer/devcontainer.json")) locking_profile.

Lemma catalog_resolve_confined packages r directory t :
  runs (catalog_resolve packages r directory) t (fun t' _ _ => same_checkout (fun _ => False) t t').
Proof. unfold catalog_resolve. destruct (packages !! r); [by apply runs_done|by apply runs_raise]. Qed.

Lemma lock_command_writes_lock_witness :
  exists target t1 t' found json, (sample_generate (tt, mkDisk lock_tree (fun _ => quiet_step) 0)).2 = Ok target /\
    target = FEATURE_LOCK_FILE :: found /\ found = $".devcontainer" :: lock_checkout /\ replaced 1000 t1 t' found (json ++ [10]) /\ (forall q, t1 !! q = lock_tree !! q).
Proof.
  assert (H := lock_command_writes_lock no_url (catalog_resolve published_catalog) sample_canonical 1000 18 (fun _ => Some [123; 125]) (Ok tt)
    (fun k => Some [N.of_nat k]) (fun _ => False) (catalog_resolve_confined published_catalog) 7 lock_checkout
    (mkRepositoryPath ($".devcontainer/devcontainer.json")) locking_profile lock_tree).
  fold sample_generate in H. specialize (H tt (mkDisk lock_tree (fun _ => quiet_step) 0) eq_refl).
  destruct (sample_generate _) as [[[w d'] l] r] eqn:E. apply (f_equal snd) in E. cbn [snd] in E. 
  assert (Hr : r = Ok [FEATURE_LOCK_FILE; $".devcontainer"; $"checkout"]) by (rewrite <- E; vm_compute; reflexivity). rewrite Hr in H. clear E.
  destruct H as [t1 [Hsame H]]. cbv beta iota in H. destruct H as [found [requests [packages H]]]. destruct H as [plan [lock [json H]]].
  destruct H as [_ [Ht [_ [Hrep _]]]].
  exists [FEATURE_LOCK_FILE; $".devcontainer"; $"checkout"], t1, (tree d'), found, json. injection Ht as <-. split; [exact Hr|]. split_and!; [done..|exact Hrep|].
  intros q. apply Hsame. tauto.
Defined.
