(* ===== verification/Git.v ===== *)
(** * Git: the Git process and its log
    ([cdenv-cli/src/git.rs])

    [GitAdapter] runs the Git executable, copies what it prints to the operation log with the
    secrets of the clone source redacted, and waits for it, with a signal on cancellation.  The
    executable is a parameter ([GitSystem]): what it does to the tree of files, what it prints, and
    the answers of the operating system about it.  The log is a file of the tree; it is written
    through an open handle, up to a bound. *)

From S2P Require Import Prelude Text Order Effects Utf8 Identity Workspace Status Storage WorkspaceState Transaction FileTree.

(** ** Data *)

(** @src cdenv-cli/src/git.rs:331-353 OperationLogError *)
Inductive OperationLogError : Type := Log_Create | Log_Write.

(** What Git printed is kept as bytes, of which the message is a summary.
    @src cdenv-cli/src/git.rs:206-280 GitError *)
Inductive GitError : Type :=
| Git_SourceTooLong
| Git_Spawn
| Git_MissingPipe (stream : str)
| Git_Wait
| Git_Capture (stream : str)
| Git_Exited (code : option N) (stderr : list N)
| Git_Cancelled
| Git_InvalidVersion
| Git_Log (error : OperationLogError).

(** @src cdenv-cli/src/git.rs:24-28 GitVersion *)
Record GitVersion : Type := mkGitVersion { gv_major : N; gv_minor : N; gv_patch : option N }.

(** The file is open at its path.
    @src cdenv-cli/src/git.rs:356-361 BoundedLog *)
Record BoundedLog : Type := mkBoundedLog { bl_path : Path; bl_maximum : N; bl_written : N }.

(** The parts of a parsed URL that are redacted. *)
Record CloneUrl : Type := mkCloneUrl {
  cu_scheme : str;
  cu_username : list N;
  cu_password : option (list N);
  cu_query : option (list N);
  cu_query_values : list (list N);
  cu_fragment : option (list N);
}.

(** An argument of Git. *)
Inductive GitArgument : Type := Git_Text (text : list N) | Git_Path (p : Path).

(** One round of the wait in which the process was still running. *)
Record Poll : Type := mkPoll {
  po_wait_fails : bool;
  po_cancelled : bool;
  po_grace_over : bool;
  po_signal_fails : bool;
}.

(** A process: whether it started and has its pipes, the chunks that are read from them (an error is a
    failed read), the rounds of the wait and the exit code, absent when a signal ended it. *)
Record GitProcess : Type := mkGitProcess {
  gp_spawned : bool;
  gp_stdout_pipe : bool;
  gp_stderr_pipe : bool;
  gp_stdout : list (result unit (list N));
  gp_stderr : list (result unit (list N));
  gp_polls : list Poll;
  gp_code : option N;
}.

(** The executable with its arguments, the [url] crate, the content of a file after a write at its end,
    and the cancellation token. *)
Class GitSystem (B : Type) : Type := {
  git_process : list GitArgument -> disk_io B Empty_set GitProcess;
  parse_clone_url : str -> option CloneUrl;
  append_content : B -> list N -> B;
  is_cancelled : Disk B -> bool;
}.

(** [git clone] writes to its destination and [git --version] writes nothing. *)
Class GitSystemLaws (B : Type) `{!GitSystem B} : Prop := {
  git_clone_frame source p t :
    post (git_process [Git_Text ($"clone"); Git_Text ($"--"); Git_Text source; Git_Path p]) t
      (fun t' _ _ => forall q, ~ p `suffix_of` q -> t' !! q = t !! q);
  git_version_frame t : post (git_process [Git_Text ($"--version")]) t (fun t' _ _ => t' = t);
}.

(** ** Redaction *)

(** @src cdenv-cli/src/git.rs:427-429 capture_stream *)
Fixpoint settle (secrets : list (list N)) (pending : list N) : list N * list N :=
  if existsb (starts_with pending) secrets then ([], pending)
  else match pending with
       | [] => ([], [])
       | byte :: rest => let '(ready, pending) := settle secrets rest in (byte :: ready, pending)
       end.

Definition REDACTED : list N := $"[REDACTED]".

(** One byte: what is ready to be written, and what may still become a secret.
    @src cdenv-cli/src/git.rs:425-434 capture_stream *)
Definition redact_byte (secrets : list (list N)) (state : list N * list N) (byte : N) : list N * list N :=
  let '(ready, pending) := state in
  let '(more, pending) := settle secrets (pending ++ [byte]) in
  if bool_decide (pending ∈ secrets) then (ready ++ more ++ REDACTED, []) else (ready ++ more, pending).

(** @src cdenv-cli/src/git.rs:424-434 capture_stream *)
Definition redact_chunk (secrets : list (list N)) (pending chunk : list N) : list N * list N :=
  fold_left (redact_byte secrets) chunk ([], pending).

Definition when_not_empty (value : option (list N)) : list (list N) :=
  match value with Some (byte :: rest) => [byte :: rest] | _ => [] end.

(** The sorted list without repetitions.
    @src cdenv-cli/src/git.rs:479-503 clone_redactions *)
Definition clone_redactions {B} `{!GitSystem B} (source : str) : list (list N) :=
  sorted_elements (list_to_set (encode_utf8 source ::
    match parse_clone_url source with
    | None => []
    | Some url =>
        (if str_eqb (cu_scheme url) ($"http") || str_eqb (cu_scheme url) ($"https") then when_not_empty (Some (cu_username url)) else [])
        ++ when_not_empty (cu_password url)
        ++ match when_not_empty (cu_query url) with
           | [] => []
           | query => query ++ List.filter (fun value => negb (bool_decide (value = []))) (cu_query_values url)
           end
        ++ when_not_empty (cu_fragment url)
    end)).

(** ** The log *)

Section git.
Context {B : Type} `{!GitSystem B} (user umask : N) (no_bytes : B).

(** Code that always returns. *)
Definition always {E X Y : Type} (m : disk_io B Empty_set X) (k : X -> disk_io B E Y) : disk_io B E Y :=
  handle m (fun e : Empty_set => match e with end) k.

(** [write_all] on the open file; a write that fails may have written a part. *)
Definition append_file (p : Path) (bytes : list N) : disk_io B IoError unit :=
  let put content (t : gmap Path (Entry B)) :=
    match t !! p with
    | Some entry => <[p := mkEntry (e_kind entry) (e_uid entry) (e_mode entry) (content (e_content entry))]> t
    | None => t
    end in
  system_call (fun step => put (fun _ => os_partial (step_write step))) (fun _ t => (put (fun content => append_content content bytes) t, Ok tt)).

(** @src cdenv-cli/src/git.rs:288-310 OperationLog::create *)
Definition operation_log_create (p : Path) (maximum_bytes : N) : disk_io B OperationLogError BoundedLog :=
  do? _ := open_new user umask no_bytes 384 p or (fun _ => Log_Create) in
  do? _ := set_mode p PrivateFile or (fun _ => Log_Create) in
  done (mkBoundedLog p maximum_bytes 0).

(** The log is behind a lock that no panic poisons, and its count is kept on an error too.
    @src cdenv-cli/src/git.rs:364-372 BoundedLog::write *)
Definition log_write (log : BoundedLog) (bytes : list N) : disk_io B Empty_set (BoundedLog * result OperationLogError unit) :=
  let remaining := saturating_sub (bl_maximum log) (bl_written log) in
  let accepted := N.min remaining (lenN bytes) in
  if 0 <? accepted then
    do? _ := append_file (bl_path log) (take (N.to_nat accepted) bytes) else (fun _ => done (log, Err Log_Write)) in
    done (mkBoundedLog (bl_path log) (bl_maximum log) (bl_written log + accepted), Ok tt)
  else done (log, Ok tt).

(** The pieces of the line are written one by one.
    @src cdenv-cli/src/git.rs:312-319 OperationLog::write_line *)
Fixpoint write_pieces (log : BoundedLog) (pieces : list (list N)) : disk_io B Empty_set (BoundedLog * result OperationLogError unit) :=
  match pieces with
  | [] => done (log, Ok tt)
  | piece :: rest =>
      always (log_write log piece) (fun '(log, r) =>
        match r with Ok _ => write_pieces log rest | Err e => done (log, Err e) end)
  end.
Definition write_line (log : BoundedLog) (operation text : list N) : disk_io B Empty_set (BoundedLog * result OperationLogError unit) :=
  write_pieces log [$"git "; operation; text; [10]].

(** ** The readers *)

(** @src cdenv-cli/src/git.rs:20-20 MAX_CAPTURE_BYTES *)
Definition MAX_CAPTURE_BYTES : N := 1024 * 1024.

(** What goes to standard error as well is not followed here.
    @src cdenv-cli/src/git.rs:444-459 emit_redacted *)
Definition emit_redacted (log : BoundedLog) (bytes captured : list N) :
    disk_io B Empty_set (BoundedLog * result OperationLogError (list N)) :=
  always (log_write log bytes) (fun '(log, r) =>
    done (log, match r with
               | Ok _ => Ok (captured ++ take (N.to_nat (saturating_sub MAX_CAPTURE_BYTES (lenN captured))) bytes)
               | Err e => Err e
               end)).

(** @src cdenv-cli/src/git.rs:413-441 capture_stream *)
Fixpoint capture_loop (secrets : list (list N)) (chunks : list (result unit (list N))) (log : BoundedLog) (pending captured : list N) :
    disk_io B Empty_set (BoundedLog * result OperationLogError (list N)) :=
  match chunks with
  | [] => emit_redacted log pending captured
  | Err _ :: _ => done (log, Err Log_Write)
  | Ok chunk :: rest =>
      let '(ready, pending) := match secrets with [] => (chunk, pending) | _ => redact_chunk secrets pending chunk end in
      always (emit_redacted log ready captured) (fun '(log, r) =>
        match r with Ok captured => capture_loop secrets rest log pending captured | Err e => done (log, Err e) end)
  end.
(** @src cdenv-cli/src/git.rs:404-442 capture_stream *)
Definition capture_stream (secrets : list (list N)) (chunks : list (result unit (list N))) (log : BoundedLog) :
    disk_io B Empty_set (BoundedLog * result OperationLogError (list N)) := capture_loop secrets chunks log [] [].

(** ** The process *)

(** The loop ends with the exit code, or fails; a cancellation sends one signal, and kills after the grace.
    @src cdenv-cli/src/git.rs:524-550 wait_for_child *)
Fixpoint wait_for_child (polls : list Poll) (code : option N) (cancellation_started : bool) : result unit (option N * bool) :=
  match polls with
  | [] => Ok (code, cancellation_started)
  | poll :: rest =>
      if po_wait_fails poll then Err tt else
      if po_cancelled poll && negb cancellation_started
      then if po_signal_fails poll then Err tt else wait_for_child rest code true
      else if cancellation_started && po_grace_over poll
      then if po_signal_fails poll then Err tt else wait_for_child rest code cancellation_started
      else wait_for_child rest code cancellation_started
  end.

(** The two readers run beside the process and write only the log; the order in which their lines mix
    is not followed.  [log_or] writes a line and goes on.
    @src cdenv-cli/src/git.rs:142-196 GitAdapter::run *)
Definition run (arguments : list GitArgument) (secrets : list (list N)) (operation : list N) (log : BoundedLog) : disk_io B GitError (list N) :=
  let log_or log text k : disk_io B GitError (list N) :=
    always (write_line log operation text) (fun '(log, r) => match r with Ok _ => k | Err e => raise (Git_Log e) end) in
  observe is_cancelled (fun cancelled : bool =>
  if cancelled then raise Git_Cancelled else
  always (write_line log operation ($" started")) (fun '(log, started) =>
  match started with
  | Err e => raise (Git_Log e)
  | Ok _ =>
  always (git_process arguments) (fun child =>
  if negb (gp_spawned child) then raise Git_Spawn else
  if negb (gp_stdout_pipe child) then raise (Git_MissingPipe ($"stdout")) else
  if negb (gp_stderr_pipe child) then raise (Git_MissingPipe ($"stderr")) else
  always (capture_stream secrets (gp_stdout child) log) (fun '(log, stdout) =>
  always (capture_stream secrets (gp_stderr child) log) (fun '(log, stderr) =>
  match wait_for_child (gp_polls child) (gp_code child) false with
  | Err _ => raise Git_Wait
  | Ok (code, was_cancelled) =>
      match stdout, stderr with
      | Err _, _ => raise (Git_Capture ($"stdout"))
      | Ok _, Err _ => raise (Git_Capture ($"stderr"))
      | Ok stdout, Ok stderr =>
          if was_cancelled then log_or log ($" cancelled") (raise Git_Cancelled) else
          if negb (bool_decide (code = Some 0)) then log_or log ($" exited unsuccessfully") (raise (Git_Exited code stderr)) else
          log_or log ($" completed") (done stdout)
      end
  end)))
  end)).

(** @src cdenv-cli/src/git.rs:19-19 MAX_SOURCE_BYTES *)
Definition MAX_SOURCE_BYTES : N := 16 * 1024.

(** @src cdenv-cli/src/git.rs:119-140 GitAdapter::clone_repository *)
Definition clone_repository (source : str) (destination : Path) (log : BoundedLog) : disk_io B GitError unit :=
  if MAX_SOURCE_BYTES <? str_len source then raise Git_SourceTooLong else
  do? _ := run [Git_Text ($"clone"); Git_Text ($"--"); Git_Text (encode_utf8 source); Git_Path destination]
             (clone_redactions source) ($"clone") log else raise in
  done tt.

(** ** The version *)

(** @src cdenv-cli/src/git.rs:576-588 parse_leading_number *)
Definition parse_leading_number (component : str) : result GitError N :=
  match take_while is_ascii_digit component with
  | [] => Err Git_InvalidVersion
  | digits => ok_or Git_InvalidVersion (parse_uint MAX_U32 digits)
  end.

(** @src cdenv-cli/src/git.rs:552-574 parse_version *)
Definition parse_version (bytes : list N) : result GitError GitVersion :=
  let? text := ok_or Git_InvalidVersion (from_utf8 bytes) in
  let? version := ok_or Git_InvalidVersion (strip_prefix ($"git version ") (trim text)) in
  let number component := ok_or Git_InvalidVersion (component ≫= parse_uint MAX_U32) in
  let components := split 46 version in
  let? major := number (components !! 0%nat) in
  let? minor := number (components !! 1%nat) in
  match components !! 2%nat with
  | None => Ok (mkGitVersion major minor None)
  | Some component => let? patch := parse_leading_number component in Ok (mkGitVersion major minor (Some patch))
  end.

(** @src cdenv-cli/src/git.rs:75-88 GitAdapter::detect *)
Definition detect (log : BoundedLog) : disk_io B GitError GitVersion :=
  do? stdout := run [Git_Text ($"--version")] [] ($"version detection") log else raise in
  match parse_version stdout with Ok version => done version | Err e => raise e end.
End git.

(** ** What a clone writes *)

Section frames.
Context {B : Type} `{!GitSystem B, !GitSystemLaws B}.
Implicit Types (t : gmap Path (Entry B)) (p q l : Path) (below : Path -> Prop).

(** The same object with another content, or no object in both. *)
Definition same_log t t' l : Prop :=
  match t !! l, t' !! l with
  | Some e, Some e' => e_kind e' = e_kind e /\ e_uid e' = e_uid e /\ e_mode e' = e_mode e
  | None, None => True
  | _, _ => False
  end.

(** Only what is below [p] has changed, and the content of the log at [l]. *)
Definition clone_writes (below : Path -> Prop) l t t' : Prop :=
  (forall q, ~ below q -> q <> l -> t' !! q = t !! q) /\ same_log t t' l.

Lemma same_log_refl t l : same_log t t l.
Proof. unfold same_log. by destruct (t !! l). Qed.
Lemma same_log_trans t t1 t2 l : same_log t t1 l -> same_log t1 t2 l -> same_log t t2 l.
Proof. unfold same_log. destruct (t !! l), (t1 !! l), (t2 !! l); try done. intros (-> & -> & ->) (-> & -> & ->). done. Qed.
Lemma clone_writes_refl below l t : clone_writes below l t t.
Proof. split; [done|apply same_log_refl]. Qed.
Lemma clone_writes_trans below l t t1 t2 : clone_writes below l t t1 -> clone_writes below l t1 t2 -> clone_writes below l t t2.
Proof. intros [H1 O1] [H2 O2]. split; [intros q Hq Hl; by rewrite H2, H1|by eapply same_log_trans]. Qed.

(** Code that writes the log and keeps its path. *)
Definition logs {E X} (log : X -> BoundedLog) l (m : disk_io B E X) : Prop :=
  forall below t, post m t (fun t' r _ => clone_writes below l t t' /\ forall x, r = Ok x -> bl_path (log x) = l).

Lemma logs_always {E X Y} (m : disk_io B Empty_set X) (k : X -> disk_io B E Y) (below : Path -> Prop) l (log : X -> BoundedLog) t
    (Q : gmap Path (Entry B) -> result E Y -> nat -> Prop) :
  logs log l m -> (forall x t' n, bl_path (log x) = l -> clone_writes below l t t' -> post (k x) t' (fun t2 r n2 => Q t2 r (n + n2)%nat)) ->
  post (always m k) t Q.
Proof.
  intros Hm Hk. unfold always. apply post_handle. eapply post_impl; [apply Hm|].
  intros t' [x|[]] n [Hw Hx]. eapply Hk; [by apply Hx|exact Hw].
Qed.

Lemma append_file_writes below l bytes t : post (append_file l bytes) t (fun t' _ _ => clone_writes below l t t').
Proof.
  assert (Hput : forall f, clone_writes below l t
    match t !! l with Some entry => <[l := mkEntry (e_kind entry) (e_uid entry) (e_mode entry) (f (e_content entry))]> t | None => t end).
  { intros f. destruct (t !! l) as [e|] eqn:E; [|apply clone_writes_refl].
    split; [intros q _ Hq; by rewrite lookup_insert_ne by done|]. unfold same_log. by rewrite E, lookup_insert_eq. }
  unfold append_file. apply post_call; intros step; cbn beta iota zeta; [exact (Hput (fun _ => os_partial (step_write step)))|].
  exact (Hput (fun content => append_content content bytes)).
Qed.

Lemma log_write_logs log bytes : logs fst (bl_path log) (log_write log bytes).
Proof.
  intros below t. unfold log_write. destruct (0 <? _); [|apply post_done; split; [apply clone_writes_refl|by intros x [= <-]]].
  apply post_handle. eapply post_impl; [apply (append_file_writes below)|].
  intros t' [[]|e] n Hw; cbn beta iota; apply post_done; (split; [done|by intros x [= <-]]).
Qed.

Lemma write_pieces_logs pieces log : logs fst (bl_path log) (write_pieces log pieces).
Proof.
  revert log. induction pieces as [|piece pieces IH]; intros log below t; cbn [write_pieces].
  { apply post_done. split; [apply clone_writes_refl|by intros x [= <-]]. }
  eapply logs_always; [apply log_write_logs|]. intros [log' [[]|e]] t' n Hp Hw; cbn in Hp.
  - rewrite <- Hp in *. eapply post_impl; [apply (IH log' below)|]. intros t2 r n2 [Hw2 Hr]. split; [by eapply clone_writes_trans|done].
  - apply post_done. split; [done|by intros x [= <-]].
Qed.

Lemma emit_logs log bytes captured : logs fst (bl_path log) (emit_redacted log bytes captured).
Proof.
  intros below t. unfold emit_redacted. eapply logs_always; [apply log_write_logs|]. intros [log' r] t' n Hp Hw.
  apply post_done. split; [done|by intros x [= <-]].
Qed.

Lemma capture_logs secrets chunks log pending captured : logs fst (bl_path log) (capture_loop secrets chunks log pending captured).
Proof.
  revert log pending captured. induction chunks as [|[chunk|e] chunks IH]; intros log pending captured below t; cbn [capture_loop].
  - apply emit_logs.
  - destruct (match secrets with [] => (chunk, pending) | _ => _ end) as [ready pending'].
    eapply logs_always; [apply emit_logs|]. intros [log' [captured'|e]] t' n Hp Hw; cbn in Hp.
    + rewrite <- Hp in *. eapply post_impl; [apply (IH log' pending' captured' below)|].
      intros t2 r n2 [Hw2 Hr]. split; [by eapply clone_writes_trans|done].
    + apply post_done. split; [done|by intros x [= <-]].
  - apply post_done. split; [apply clone_writes_refl|by intros x [= <-]].
Qed.

(** A run writes what its process writes, and the log. *)
Lemma run_writes arguments secrets operation log (below : Path -> Prop) t :
  ~ below (bl_path log) ->
  (forall t, post (git_process arguments) t (fun t' _ _ => forall q, ~ below q -> t' !! q = t !! q)) ->
  post (run arguments secrets operation log) t (fun t' _ _ => clone_writes below (bl_path log) t t').
Proof.
  intros Hlog Hprocess. unfold run. apply post_observe. intros [].
  { apply post_raise. apply clone_writes_refl. }
  eapply logs_always; [apply write_pieces_logs|]. intros [log1 [[]|e]] t1 n1 Hp1 H1; cbn in Hp1; [|by apply post_raise].
  unfold always at 1. apply post_handle. eapply post_impl; [apply Hprocess|]. intros t2 [child|[]] n2 H2; cbn beta iota.
  assert (H02 : clone_writes below (bl_path log) t t2).
  { eapply clone_writes_trans; [exact H1|]. split; [intros q Hq _; by apply H2|]. unfold same_log. rewrite (H2 _ Hlog).
    destruct (t1 !! bl_path log); done. }
  destruct (negb (gp_spawned child)); [by apply post_raise|]. destruct (negb (gp_stdout_pipe child)); [by apply post_raise|].
  destruct (negb (gp_stderr_pipe child)); [by apply post_raise|]. rewrite <- Hp1 in *.
  eapply logs_always; [apply capture_logs|]. intros [log3 stdout] t3 n3 Hp3 H3. cbn in Hp3. rewrite <- Hp3 in *.
  eapply logs_always; [apply capture_logs|]. intros [log4 stderr] t4 n4 Hp4 H4. cbn in Hp4. rewrite <- Hp4 in *.
  assert (H04 := clone_writes_trans _ _ _ _ _ (clone_writes_trans _ _ _ _ _ H02 H3) H4).
  destruct (wait_for_child _ _ _) as [[code cancelled]|]; [|by apply post_raise].
  destruct stdout as [stdout|], stderr as [stderr|]; try by apply post_raise.
  assert (Hline : forall text (k : disk_io B GitError (list N)), (forall t', post k t' (fun t2 _ _ => t2 = t')) ->
    post (always (write_line log4 operation text) (fun '(_, r) => match r with Ok _ => k | Err e => raise (Git_Log e) end)) t4
      (fun t' _ _ => clone_writes below (bl_path log4) t t')).
  { intros text k Hk. eapply logs_always; [apply write_pieces_logs|]. intros [log5 [[]|e]] t5 n5 _ H5.
    - eapply post_impl; [apply Hk|]. intros t6 r n6 ->. by eapply clone_writes_trans.
    - apply post_raise. by eapply clone_writes_trans. }
  destruct cancelled; [apply Hline; intros; by apply post_raise|].
  destruct (negb _); apply Hline; intros; [by apply post_raise|by apply post_done].
Qed.

(** A clone writes below its destination, and the log. *)
Lemma clone_repository_writes source p log t :
  ~ p `suffix_of` bl_path log ->
  post (clone_repository source p log) t (fun t' _ _ => clone_writes (suffix p) (bl_path log) t t').
Proof.
  intros Hlog. unfold clone_repository. destruct (_ <? _); [apply post_raise, clone_writes_refl|].
  apply post_handle. eapply post_impl; [apply (run_writes _ _ _ _ (suffix p)); [done|intros t0; apply git_clone_frame]|].
  intros t' [out|e] n Hw; cbn beta iota; [by apply post_done|by apply post_raise].
Qed.

(** Detecting the version writes the log only. *)
Lemma detect_writes log t : post (detect log) t (fun t' _ _ => clone_writes (fun _ => False) (bl_path log) t t').
Proof.
  unfold detect. apply post_handle. eapply post_impl; [apply (run_writes _ _ _ _ (fun _ => False)); [tauto|]|].
  - intros t0. eapply post_impl; [apply git_version_frame|]. by intros t' r n -> q _.
  - intros t' [out|e] n Hw; cbn beta iota; [|by apply post_raise]. destruct (parse_version out); [by apply post_done|by apply post_raise].
Qed.
End frames.

(** ** What redaction misses *)

(** The byte by byte search keeps one partial match.  A secret that is inside the partial match of a
    longer one is written when that match breaks off: the password of the clone source, in a URL that
    starts like the source and ends differently. *)
Example inner_secret_leaks :
  let secrets := [$"https://u:hunter2@h/repo.git"; $"hunter2"] in
  let '(ready, pending) := redact_chunk secrets [] ($"fatal: https://u:hunter2@h/repo/refs") in
  ready ++ pending = $"fatal: https://u:hunter2@h/repo/refs".
Proof. vm_compute. reflexivity. Qed.

(** And the first secret that is complete is replaced, although a longer one could follow. *)
Example longer_secret_leaks :
  let '(ready, pending) := redact_chunk [$"oauth2"; $"oauth2-token"] [] ($"oauth2-token") in
  ready ++ pending = $"[REDACTED]-token".
Proof. vm_compute. reflexivity. Qed.
