(* ===== verification/Create.v ===== *)
(** * Create: the checkout transaction
    ([cdenv-cli/src/create.rs])

    From the prepared request on: the reservation, the initial state, the clone ([Git]), and what
    follows it.  The binding of staged credentials and the calls that follow links are the class
    [CreateSystem]; everything else acts on the tree of [FileTree].  A failed clone rolls
    back what the reservation owns; once Git succeeded the workspace is kept and every later
    failure is recorded in it. *)

From S2P Require Import Prelude Text Effects Utf8 Identity Workspace Status Storage WorkspaceState.
From S2P Require Import Transaction FileTree Git Registry Enumeration Installation.

(** ** Data *)

(** @src cdenv-cli/src/create.rs:78-121 ConfigContainmentError *)
Inductive ConfigContainmentError : Type :=
| Config_NonUtf8
| Config_Lexical (error : DesiredConfigPathError)
| Config_Checkout
| Config_Missing
| Config_Inspect
| Config_NotRegular
| Config_EscapesCheckout.

(** The errors after the preparation; [G] are those of Git, [C] those of the credentials.
    @src cdenv-cli/src/create.rs:187-302 CreateWorkspaceError *)
Inductive CreateWorkspaceError (G C : Type) : Type :=
| Create_Credentials (error : C)
| Create_Git (error : G)
| Create_Reservation (error : ReservationError)
| Create_Lock (error : LockError)
| Create_State (error : WorkspaceStateError)
| Create_Config (error : ConfigContainmentError)
| Create_ManagedPath (error : ManagedPathError)
| Create_FingerprintKeyUnavailable (reason : FingerprintKeyUnknownReason)
| Create_MissingCheckout
| Create_CancelledAfterClone
| Create_InitialStateRollback (state : WorkspaceStateError)
| Create_CloneRollback (git : G)
| Create_RecordFailure (source : WorkspaceStateError).
Arguments Create_Credentials {G C} _.
Arguments Create_Git {G C} _.
Arguments Create_Reservation {G C} _.
Arguments Create_Lock {G C} _.
Arguments Create_State {G C} _.
Arguments Create_Config {G C} _.
Arguments Create_ManagedPath {G C} _.
Arguments Create_FingerprintKeyUnavailable {G C} _.
Arguments Create_MissingCheckout {G C}.
Arguments Create_CancelledAfterClone {G C}.
Arguments Create_InitialStateRollback {G C} _.
Arguments Create_CloneRollback {G C} _.
Arguments Create_RecordFailure {G C} _.

(** What the preparation hands over; the fingerprint key is its keyed digest, when it is available.
    @src cdenv-cli/src/create.rs:439-451 PreparedCreate *)
Record PreparedCreate : Type := mkPrepared {
  pc_installation : InstallationId;
  pc_key : result FingerprintKeyUnknownReason (PlanFingerprintCategory -> list (list N) -> KeyedDigest);
  pc_name : WorkspaceName;
  pc_source : SanitizedRepositorySource;
  pc_timestamp : StateTimestamp;
  pc_profile : ProfileId;
  pc_desired_config : DesiredConfigPath;
  pc_fingerprints : PlanFingerprints;
  pc_operation : OperationState;
  pc_log : BoundedLog;
}.

(** The source is Git's argument; the selected configuration is a sequence of bytes.
    @src cdenv-cli/src/create.rs:31-38 CreateWorkspaceRequest *)
Record CreateWorkspaceRequest : Type := mkCreateRequest {
  cw_source : str;
  cw_explicit_name : bool;
  cw_config : option (list N);
}.

(** The credentials of [credentials.rs], the calls that follow links ([fs::canonicalize],
    [fs::symlink_metadata] below a linked directory, [fs::metadata]), and the text of an error. *)
Class CreateSystem (B C : Type) : Type := {
  bind_created_workspace : Path -> WorkspaceState -> bool -> disk_io B C unit;
  canonicalize : Path -> disk_io B IoError Path;
  link_kind : Path -> disk_io B IoError FileKind;
  target_kind : Path -> disk_io B IoError FileKind;
  error_text : CreateWorkspaceError GitError C -> str;
}.

Section create.
Context {B C : Type} `{!StateSerde B, !GitSystem B, !CreateSystem B C} (user umask : N) (no_bytes : B).

Abbreviation creating X := (disk_io B (CreateWorkspaceError GitError C) X).

(** @src cdenv-cli/src/create.rs:27-27 PENDING_PLAN_DOMAIN *)
Definition PENDING_PLAN_DOMAIN : list N := $"create-checkout-only-v1".

(** @src cdenv-cli/src/create.rs:504-521 pending_fingerprints *)
Definition pending_fingerprints (prepared : PreparedCreate) (config : DesiredConfigPath) :
    result (CreateWorkspaceError GitError C) PlanFingerprints :=
  let? key := map_err Create_FingerprintKeyUnavailable (pc_key prepared) in
  let inputs := [PENDING_PLAN_DOMAIN; encode_utf8 (config_str config)] in
  Ok (mkFingerprints (key Plan_Build inputs) (key Plan_Create inputs) (key Plan_Runtime inputs)).

(** ** The selected configuration *)

(** The components of a relative path as the operating system sees them. *)
Definition join_path (base : Path) (relative : list N) : Path :=
  fold_left (fun p c => c :: p)
    (List.filter (fun c => negb (bool_decide (c = [])) && negb (bool_decide (c = $"."))) (split 47 relative)) base.

(** The relative path from a directory to a path below it, with the components in order. *)
Fixpoint strip_base (base p : Path) : option (list (list N)) :=
  if bool_decide (p = base) then Some []
  else match p with [] => None | c :: parent => (fun l => l ++ [c]) <$> strip_base base parent end.

(** @src cdenv-cli/src/create.rs:129-182 validate_explicit_config *)
Definition validate_explicit_config (checkout : Path) (selection : list N) :
    disk_io B ConfigContainmentError DesiredConfigPath :=
  match from_utf8 selection with
  | None => raise Config_NonUtf8
  | Some text =>
  match DesiredConfigPath_parse text with
  | Err e => raise (Config_Lexical e)
  | Ok _ =>
  do? canonical_checkout := canonicalize checkout or (fun _ => Config_Checkout) in
  let selected := join_path checkout selection in
  do? kind := link_kind selected
    else (fun e => raise (match e with Io_NotFound => Config_Missing | _ => Config_Inspect end)) in
  if negb (bool_decide (kind = Kind_File)) && negb (bool_decide (kind = Kind_Symlink))
  then raise Config_NotRegular else
  do? canonical_selected := canonicalize selected or (fun _ => Config_Inspect) in
  match strip_base canonical_checkout canonical_selected with
  | None => raise Config_EscapesCheckout
  | Some relative =>
  do? kind := target_kind canonical_selected or (fun _ => Config_Inspect) in
  if negb (bool_decide (kind = Kind_File)) then raise Config_NotRegular else
  match from_utf8 (join ($"/") relative) with
  | None => raise Config_NonUtf8
  | Some text =>
      match DesiredConfigPath_parse text with Ok config => done config | Err e => raise (Config_Lexical e) end
  end end end end.

(** ** Failures *)

(** @src cdenv-cli/src/create.rs:523-532 record_post_clone_failure *)
Definition record_post_clone_failure {X : Type} (dir : Path) (state : WorkspaceState)
    (error : CreateWorkspaceError GitError C) : creating X :=
  let state := set_last_error state (Some (redact (error_text error) [])) in
  do? _ := persist_state user umask no_bytes dir state or Create_RecordFailure in
  raise error.

(** @src cdenv-cli/src/create.rs:581-590 remove_regular_if_present *)
Definition remove_regular_if_present (p : Path) : disk_io B IoError unit :=
  do? entry := symlink_metadata p
    else (fun e => match e with Io_NotFound => done tt | _ => raise e end) in
  if bool_decide (e_kind entry = Kind_File) then remove_file p else raise Io_Other.

(** @src cdenv-cli/src/create.rs:570-579 remove_incomplete_checkout *)
Definition remove_incomplete_checkout (p : Path) : disk_io B IoError unit :=
  do? entry := symlink_metadata p
    else (fun e => match e with Io_NotFound => done tt | _ => raise e end) in
  if bool_decide (e_kind entry = Kind_Directory) then remove_dir_all p else raise Io_Other.

(** When the state file cannot be removed the reservation is dropped on the way out.
    @src cdenv-cli/src/create.rs:534-549 rollback_initial_state_failure *)
Definition rollback_initial_state_failure {X : Type} (state_path : Path) (reservation : WorkspaceReservation)
    (state : WorkspaceStateError) : creating X :=
  do? _ := remove_regular_if_present state_path
    else (fun _ => drop_with reservation (Create_InitialStateRollback state)) in
  do? _ := rollback reservation or (fun _ => Create_InitialStateRollback state) in
  raise (Create_State state).

(** @src cdenv-cli/src/create.rs:551-568 rollback_clone_failure *)
Definition rollback_clone_failure {X : Type} (checkout state_path : Path) (reservation : WorkspaceReservation)
    (git : GitError) : creating X :=
  let keep := drop_with reservation (Create_CloneRollback git) in
  do? _ := remove_incomplete_checkout checkout else (fun _ => keep) in
  do? _ := remove_regular_if_present state_path else (fun _ => keep) in
  do? _ := rollback reservation or (fun _ => Create_CloneRollback git) in
  raise (Create_Git git).

(** ** The transaction *)

Definition initial_state (prepared : PreparedCreate) : WorkspaceState :=
  set_operation
    (WorkspaceState_new (pc_installation prepared) (pc_name prepared) (pc_source prepared) (pc_profile prepared)
       (pc_desired_config prepared) (pc_fingerprints prepared) (pc_timestamp prepared))
    (pc_operation prepared).

(** Up to the clone.
    @src cdenv-cli/src/create.rs:320-351 create_workspace *)
Definition clone_workspace (root : Path) (prepared : PreparedCreate) (request : CreateWorkspaceRequest) :
    creating WorkspaceState :=
  let name := pc_name prepared in
  let dir := workspace_root root name in
  do? reservation := reserve_workspace user umask no_bytes root name or Create_Reservation in
  do? _ := acquire_lock user (lock_file root name) Lock_Exclusive Lock_Wait
    else (fun e => drop_with reservation (Create_Lock e)) in
  let state := initial_state prepared in
  do? _ := persist_state user umask no_bytes dir state
    else (fun e => rollback_initial_state_failure (state_path root name) reservation e) in
  do? _ := clone_repository (cw_source request) (checkout root name) (pc_log prepared)
    else (fun e => rollback_clone_failure (checkout root name) (state_path root name) reservation e) in
  done state.

(** The reservation is committed whatever the inspection of the checkout says.
    @src cdenv-cli/src/create.rs:353-413 create_workspace *)
Definition finish_create (root : Path) (prepared : PreparedCreate) (request : CreateWorkspaceRequest)
    (state : WorkspaceState) : creating unit :=
  let name := pc_name prepared in
  let dir := workspace_root root name in
  let record := record_post_clone_failure dir in
  do? found := inspect user (checkout root name) Managed_Directory
    else (fun e => record state (Create_ManagedPath e)) in
  match found with
  | Path_Missing => record state Create_MissingCheckout
  | Path_Valid =>
  do? _ := bind_created_workspace root state (cw_explicit_name request)
    else (fun e => record state (Create_Credentials e)) in
  observe is_cancelled (fun cancelled : bool =>
  if cancelled then record state Create_CancelledAfterClone else
  let finish state :=
    let completed := set_last_error (set_operation state idle) None in
    do? _ := persist_state user umask no_bytes dir completed
      else (fun e => record state (Create_State e)) in
    done tt in
  match cw_config request with
  | None => finish state
  | Some config =>
      do? validated := validate_explicit_config (checkout root name) config
        else (fun e => record state (Create_Config e)) in
      match pending_fingerprints prepared validated with
      | Err e => raise e
      | Ok fingerprints => finish (update_desired state (pc_profile prepared) validated fingerprints)
      end
  end)
  end.

(** @src cdenv-cli/src/create.rs:313-422 create_workspace *)
Definition create_prepared (root : Path) (prepared : PreparedCreate) (request : CreateWorkspaceRequest) : creating unit :=
  do? state := clone_workspace root prepared request else raise in
  finish_create root prepared request state.
End create.

(** ** What the credentials and the file system promise *)

(** The binding of credentials writes neither the checkout nor the state ([CredentialStore] proves it
    of the code), and looking at a path writes nothing. *)
Class CreateSystemLaws (B C : Type) `{!CreateSystem B C} : Prop := {
  bind_frame root state explicit t :
    post (bind_created_workspace root state explicit) t (fun t' _ _ =>
      forall q, checkout root (ws_name state) `suffix_of` q \/ q = state_path root (ws_name state) ->
                t' !! q = t !! q);
  canonicalize_frame p t : post (canonicalize p) t (fun t' _ _ => t' = t);
  link_kind_frame p t : post (link_kind p) t (fun t' _ _ => t' = t);
  target_kind_frame p t : post (target_kind p) t (fun t' _ _ => t' = t);
}.

(** ** Rollback *)

Section removal.
Context {B : Type}.
Implicit Types (t : gmap Path (Entry B)).

(** A cleanup that succeeds leaves an empty place: removing the directory of the workspace, last,
    succeeds only when nothing is in it. *)
Lemma cleanup_spec t (dir : Path) (names : list (list N)) :
  (exists e, t !! dir = Some e /\ e_kind e = Kind_Directory) ->
  post (reservation_cleanup (mkReservation dir (dir :: List.map (fun n => n :: dir) names))) t (fun t' r n =>
    (forall q, ~ dir `suffix_of` q -> t' !! q = t !! q)
    /\ (is_ok r = true -> forall q, dir `suffix_of` q -> t' !! q = None)).
Proof.
  intros (e & He & Hk). unfold reservation_cleanup. cbn [owned_paths rev]. rewrite <- map_rev.
  set (children := List.map (fun n => n :: dir) (rev names)).
  assert (Hch : forall q, q ∈ children -> dir `suffix_of` q /\ q <> dir).
  { intros q (n & -> & _)%list_elem_of_fmap. split; [by apply suffix_cons_r|apply child_ne]. }
  apply post_each_app. eapply post_impl; [apply remove_all_spec|]. intros t1 r1 n1 (Hout & Hsub & _ & _).
  assert (Hfr : forall q, ~ dir `suffix_of` q -> t1 !! q = t !! q).
  { intros q Hq. apply Hout. intros Hin%Hch. tauto. }
  destruct r1 as [[]|e1]; [|by split]. cbn [each]. apply post_handle. eapply post_impl; [apply remove_owned_spec|].
  intros t2 [[]|e2] n2; cbn beta iota.
  - intros [-> Hnow]. apply post_done. split.
    + intros q Hq. rewrite lookup_delete_ne; [by apply Hfr|]. intros ->. by apply Hq.
    + intros _ q Hq. destruct (decide (q = dir)) as [->|Hne]; [apply lookup_delete_eq|].
      rewrite lookup_delete_ne by done. unfold removable_now in Hnow.
      rewrite Hout, He in Hnow by (intros Hin%Hch; tauto). destruct Hnow as [?|[_ Hnow]]; [congruence|].
      by apply Hnow.
  - intros (-> & _). apply post_raise. by split.
Qed.

Lemma drop_frame {X : Type} {E} t (dir : Path) (names : list (list N)) (e : E) :
  (exists e, t !! dir = Some e /\ e_kind e = Kind_Directory) ->
  post (drop_with (X := X) (mkReservation dir (dir :: List.map (fun n => n :: dir) names)) e) t (fun t' r n =>
    r = Err e /\ forall q, ~ dir `suffix_of` q -> t' !! q = t !! q).
Proof.
  intros H. unfold drop_with. apply post_handle. eapply post_impl; [by apply cleanup_spec|].
  intros t' [[]|e'] n [Hf _]; by apply post_raise.
Qed.

Lemma rollback_spec t (dir : Path) (names : list (list N)) :
  (exists e, t !! dir = Some e /\ e_kind e = Kind_Directory) ->
  post (rollback (mkReservation dir (dir :: List.map (fun n => n :: dir) names))) t (fun t' r n =>
    (forall q, ~ dir `suffix_of` q -> t' !! q = t !! q)
    /\ (is_ok r = true -> forall q, dir `suffix_of` q -> t' !! q = None)).
Proof.
  intros H. unfold rollback. apply post_handle. eapply post_impl; [by apply cleanup_spec|].
  intros t' [[]|e'] n [Hf Hok]; [by apply post_done|].
  (* the second cleanup, by the drop, has no directory to rely on *)
  apply post_handle. eapply post_impl; [apply remove_all_spec|]. intros t2 r2 n2 (Hout & _).
  assert (Hf2 : forall q, ~ dir `suffix_of` q -> t2 !! q = t !! q).
  { intros q Hq. rewrite Hout; [by apply Hf|]. cbn [owned_paths rev]. rewrite list_elem_of_In, in_app_iff, <- in_rev.
    intros [(n' & <- & _)%in_map_iff|[<-|[]]]; apply Hq; [by apply suffix_cons_r|done]. }
  destruct r2 as [[]|e2]; by apply post_raise.
Qed.

Lemma remove_regular_spec (p : Path) t :
  post (remove_regular_if_present p) t (fun t' r n =>
    (forall q, q <> p -> t' !! q = t !! q) /\ (is_ok r = true -> t' !! p = None)).
Proof.
  unfold remove_regular_if_present, symlink_metadata, remove_file.
  apply post_handle, post_call; intros step; cbn beta iota; [by apply post_raise|].
  destruct (t !! p) as [e|] eqn:E; cbn [ok_or]; [|by apply post_done].
  case_bool_decide as Hk; [|by apply post_raise].
  apply post_call; intros step2; cbn beta iota; [by split|]. rewrite E, Hk. cbn.
  split; [intros q Hq; by apply lookup_delete_ne|]. intros _. apply lookup_delete_eq.
Qed.

Lemma remove_checkout_spec (p : Path) t :
  post (remove_incomplete_checkout p) t (fun t' r n => forall q, ~ p `suffix_of` q -> t' !! q = t !! q).
Proof.
  unfold remove_incomplete_checkout, symlink_metadata, remove_dir_all.
  apply post_handle, post_call; intros step; cbn beta iota; [by apply post_raise|].
  destruct (t !! p) as [e|] eqn:E; cbn [ok_or]; [|by apply post_done].
  case_bool_decide as Hk; [|by apply post_raise].
  apply post_call; intros step2; cbn beta iota; intros q Hq; apply option_eq; intros e';
    rewrite map_lookup_filter_Some; naive_solver.
Qed.
End removal.

(** ** The transaction *)

Section transaction.
Context {B C : Type} `{!StateSerde B, !StateSerdeLaws B, !GitSystem B, !GitSystemLaws B, !CreateSystem B C, !CreateSystemLaws B C}.
Context (user umask : N) (no_bytes : B) (root : Path) (prepared : PreparedCreate) (request : CreateWorkspaceRequest).
Context (Hname : name_ok (name_str (pc_name prepared))).
(** The operation log is a file in the directory of the logs (create.rs, line 463). *)
Context (Hlog : exists file, bl_path (pc_log prepared) = file :: root_logs_dir root).
Implicit Types (t : gmap Path (Entry B)).

Abbreviation ws := (workspace_root root (pc_name prepared)).
Abbreviation clone_path := (checkout root (pc_name prepared)).
Abbreviation log_path := (bl_path (pc_log prepared)).

Lemma log_apart : log_path ∉ shared_paths root /\ ~ ws `suffix_of` log_path /\ ~ clone_path `suffix_of` log_path.
Proof.
  destruct Hlog as [file ->].
  assert (Hws : ~ ws `suffix_of` file :: root_logs_dir root).
  { intros Hs. assert (Hl := suffix_length _ _ Hs). cbn in Hl. destruct Hs as [k Hk]. destruct k as [|c k].
    - cbn in Hk. injection Hk as _ H. discriminate H.
    - apply (f_equal length) in Hk. rewrite length_app in Hk. cbn in Hk. lia. }
  split_and!; [|done|].
  - unfold shared_paths. rewrite !elem_of_cons, elem_of_nil. intros H. destruct_or!; try done;
      apply (f_equal length) in H as Hl; cbn in Hl; try lia; cbn in H; discriminate H.
  - intros Hs. apply Hws. etransitivity; [|exact Hs]. by eexists [_; _].
Qed.

(** The state file holds a state. *)
Definition state_is t (s : WorkspaceState) : Prop :=
  exists e, t !! (state_file :: ws) = Some e /\ e_kind e = Kind_File /\ e_uid e = user
            /\ decode_workspace_state (e_content e) = Ok (mkLoaded s Migration_Current).

Lemma written_is t s e : written user s e -> t !! (state_file :: ws) = Some e -> state_is t s.
Proof.
  intros (bytes & Hb & Hv & ->) He. eexists. split; [exact He|]. split_and!; [done..|]. by apply decode_encoded.
Qed.

(** A write keeps everything but the objects directly in the workspace, and the state is the new one
    or, on failure, possibly still the old one. *)
Lemma persist_is t s :
  post (persist_state user umask no_bytes ws s) t (fun t' r n =>
    (forall q, (forall c, q <> c :: ws) -> t' !! q = t !! q)
    /\ match r with
       | Ok _ => state_is t' s
       | Err _ => forall s0, state_is t s0 -> state_is t' s0 \/ state_is t' s
       end).
Proof.
  eapply post_impl; [apply persist_state_spec|].
  assert (Hother : forall c e q, (forall c, q <> c :: ws) -> <[c :: ws := e]> t !! q = t !! q).
  { intros c e q Hq. apply lookup_insert_ne. intros H. by apply (Hq c). }
  intros t' [[]|e] n.
  - intros (e & Hw & ->). split; [apply Hother|]. eapply written_is; [exact Hw|]. apply lookup_insert_eq.
  - intros [->|[(e' & Hw & ->)|(random & e' & Hfree & ->)]].
    + split; [done|]. by left.
    + split; [apply Hother|]. intros s0 _. right. eapply written_is; [exact Hw|]. apply lookup_insert_eq.
    + split; [apply Hother|]. intros s0 (e0 & He0 & H). left. exists e0. split; [|done].
      rewrite lookup_insert_ne; [done|]. by intros [= Hx].
Qed.

Lemma checkout_deep q : clone_path `suffix_of` q -> ws `suffix_of` q /\ forall c, q <> c :: ws.
Proof.
  intros Hs. split.
  - etransitivity; [|exact Hs]. by eexists [_; _].
  - intros c ->. apply suffix_length in Hs. cbn in Hs. lia.
Qed.

(** The errors after which the Git process has ended, or never ran. *)
Definition git_ended (e : GitError) : bool := match e with Git_Wait | Git_MissingPipe _ => false | _ => true end.

(** The errors of a clone phase that was undone. *)
Definition undone (e : CreateWorkspaceError GitError C) : bool :=
  match e with Create_Git git => git_ended git | Create_State _ => true | _ => false end.

(** Nothing has changed but the workspace, and the content of the operation log. *)
Definition workspace_only t t' : Prop := clone_writes (suffix ws) log_path t t'.

Definition clone_end t t' (r : result (CreateWorkspaceError GitError C) WorkspaceState) : Prop :=
  clone_writes (fun q => q ∈ shared_paths root \/ ws `suffix_of` q) log_path t t'
  /\ match r with
     | Ok s => t !! ws = None /\ s = initial_state prepared /\ state_is t' s
     | Err e =>
         (t !! ws <> None -> forall q, ws `suffix_of` q -> t' !! q = t !! q)
         /\ (undone e = true -> forall q, ws `suffix_of` q -> t' !! q = None)
     end.

(** The reservation: nothing has changed but the shared paths and the workspace. *)
Definition reserved t t1 : Prop := forall q, q ∉ shared_paths root -> ~ ws `suffix_of` q -> t1 !! q = t !! q.

Lemma workspace_only_of t t' : (forall q, ~ ws `suffix_of` q -> t' !! q = t !! q) -> workspace_only t t'.
Proof.
  intros H. split; [intros q Hq _; by apply H|]. unfold same_log. rewrite H by apply log_apart. by destruct (t !! log_path).
Qed.

Lemma reserved_then t t1 t' : reserved t t1 -> workspace_only t1 t' ->
  clone_writes (fun q => q ∈ shared_paths root \/ ws `suffix_of` q) log_path t t'.
Proof.
  intros H1 [H2 Ho]. split.
  - intros q Hq Hl. rewrite H2 by tauto. apply H1; tauto.
  - eapply same_log_trans; [|exact Ho]. unfold same_log. rewrite H1 by apply log_apart. by destruct (t !! log_path).
Qed.

(** After the reservation, everything happens at and below the workspace. *)
Lemma clone_end_err t t1 t' e :
  t !! ws = None -> reserved t t1 -> workspace_only t1 t' ->
  (undone e = true -> forall q, ws `suffix_of` q -> t' !! q = None) -> clone_end t t' (Err e).
Proof. intros Hnone H1 H2 Hu. split; [by eapply reserved_then|by split]. Qed.

(** A tree that differs from [t1] only below the workspace, which is still a directory. *)
Definition below_only t1 t' : Prop :=
  workspace_only t1 t' /\ exists e, t' !! ws = Some e /\ e_kind e = Kind_Directory.

Lemma below_step t1 t2 t3 : below_only t1 t2 -> (forall q, ~ ws `suffix_of` q -> t3 !! q = t2 !! q) -> t3 !! ws = t2 !! ws -> below_only t1 t3.
Proof.
  intros [Hw He] Hf Hws. split; [eapply clone_writes_trans; [exact Hw|by apply workspace_only_of]|by rewrite Hws].
Qed.

Lemma drop_end t t1 t0 (names : list (list N)) (e : CreateWorkspaceError GitError C) :
  t !! ws = None -> reserved t t1 -> below_only t1 t0 -> undone e = false ->
  post (drop_with (mkReservation ws (ws :: List.map (fun n => n :: ws) names)) e) t0 (fun t2 r _ => clone_end t t2 r).
Proof.
  intros Hnone H1 [H0 Hd] Hu. eapply post_impl; [by apply drop_frame|]. intros t2 r n [-> Hf].
  eapply clone_end_err; [done|exact H1| |congruence]. eapply clone_writes_trans; [exact H0|by apply workspace_only_of].
Qed.

(** The end of both rollbacks. *)
Lemma remove_and_rollback t t1 t0 (names : list (list N)) (e e' : CreateWorkspaceError GitError C) :
  let reservation := mkReservation ws (ws :: List.map (fun n => n :: ws) names) in
  t !! ws = None -> reserved t t1 -> below_only t1 t0 -> undone e' = false ->
  post (do? _ := remove_regular_if_present (state_path root (pc_name prepared)) else (fun _ => drop_with reservation e') in
        do? _ := rollback reservation or (fun _ => e') in raise e) t0
    (fun t2 r _ => clone_end t t2 r).
Proof.
  intros res Hnone H1 H0 Hu. apply post_handle. eapply post_impl; [apply remove_regular_spec|].
  intros t2 r2 n2 [Hf2 _].
  assert (Hb2 : below_only t1 t2).
  { eapply below_step; [exact H0| |].
    - intros q Hq. apply Hf2. intros ->. apply Hq. by apply suffix_cons_r.
    - apply Hf2. intros H. symmetry in H. by apply child_ne in H. }
  destruct r2 as [[]|e2]; cbn beta iota; [|by eapply drop_end].
  apply post_handle. eapply post_impl; [apply rollback_spec, Hb2|].
  intros t3 [[]|er] n3 [Hf Hok]; cbn beta iota; apply post_raise;
    (eapply clone_end_err; [done|exact H1|eapply clone_writes_trans; [apply Hb2|by apply workspace_only_of]|]); [|congruence].
  intros _. by apply Hok.
Qed.

Lemma clone_workspace_spec t :
  no_orphans t ws ->
  post (clone_workspace user umask no_bytes root prepared request) t (fun t' r _ => clone_end t t' r).
Proof.
  intros Horphan. unfold clone_workspace. apply post_handle.
  eapply post_impl; [by apply (reserve_workspace_spec user umask no_bytes root (pc_name prepared) Hname)|].
  intros t1 [res|e] n1 (Hout & Hr); cbn beta iota.
  2:{ apply post_raise. split; [eapply reserved_then; [exact Hout|apply clone_writes_refl]|]. split; [intros Hne; apply Hr; by left|done]. }
  destruct Hr as (Hnone & -> & Hdirs & _ & _). apply Forall_cons in Hdirs as [[x Hd] _].
  assert (Hws : forall c, ws <> c :: ws) by (intros c H; symmetry in H; by apply child_ne in H).
  assert (Hb1 : below_only t1 t1) by (split; [apply clone_writes_refl|by eexists]).
  apply post_handle. eapply post_impl; [apply acquire_lock_spec|]. intros t2 [[]|e] n2 [-> _]; cbn beta iota.
  2:{ by apply (drop_end t t1 _ (skeleton_names ++ [$".lock"])). }
  apply post_handle. eapply post_impl; [apply persist_is|]. intros t3 r3 n3 [Hf3 Hs].
  assert (Hb3 : below_only t1 t3).
  { eapply below_step; [exact Hb1|intros q Hq; apply Hf3; intros c ->; apply Hq; by apply suffix_cons_r|by apply Hf3]. }
  destruct r3 as [[]|e]; cbn beta iota; [|by apply (remove_and_rollback t t1 _ (skeleton_names ++ [$".lock"]))].
  apply post_handle. eapply post_impl; [apply clone_repository_writes, log_apart|]. intros t4 r4 n4 [Hf4 Ho4].
  assert (Hkeep : forall q, ws `suffix_of` q -> ~ clone_path `suffix_of` q -> t4 !! q = t3 !! q).
  { intros q Hq Hc. apply Hf4; [done|]. intros ->. by apply log_apart in Hq. }
  assert (Hb4 : below_only t1 t4).
  { split.
    - eapply clone_writes_trans; [apply Hb3|]. split; [|done]. intros q Hq Hl. apply Hf4; [|done]. intros [? _]%checkout_deep. done.
    - rewrite Hkeep; [apply Hb3|done|]. intros H%suffix_length. cbn in H. lia. }
  destruct r4 as [[]|g]; cbn beta iota.
  - apply post_done. split; [by eapply reserved_then; [exact Hout|apply Hb4]|].
    split_and!; [done..|]. destruct Hs as (e & He & H). exists e. split; [|done]. rewrite Hkeep; [done|by apply suffix_cons_r|].
    intros [_ H']%checkout_deep. by apply (H' state_file).
  - unfold rollback_clone_failure. apply post_handle. eapply post_impl; [apply remove_checkout_spec|].
    intros t5 r5 n5 Hf5.
    assert (Hb5 : below_only t1 t5).
    { eapply below_step; [exact Hb4| |].
      - intros q Hq. apply Hf5. intros [? _]%checkout_deep. done.
      - apply Hf5. intros H%suffix_length. cbn in H. lia. }
    destruct r5 as [[]|e5]; cbn beta iota; [by apply (remove_and_rollback t t1 _ (skeleton_names ++ [$".lock"]))|by apply (drop_end t t1 _ (skeleton_names ++ [$".lock"]))].
Qed.

(** Failures that are written to the state: all but a failure to write it, and an unavailable key,
    which the preparation has already found available. *)
Definition recorded (e : CreateWorkspaceError GitError C) : bool :=
  match e with Create_RecordFailure _ | Create_FingerprintKeyUnavailable _ => false | _ => true end.

(** After the clone: the checkout is kept, and the state file holds a state of this workspace, the
    completed one on success and the failure of the operation otherwise. *)
Definition finish_end (s : WorkspaceState) t t' (r : result (CreateWorkspaceError GitError C) unit) : Prop :=
  (forall q, clone_path `suffix_of` q -> t' !! q = t !! q)
  /\ exists final, state_is t' final /\ same_workspace s final
     /\ match r with
        | Ok _ => ws_operation final = idle /\ ws_last_error final = None
                  /\ exists e, t !! clone_path = Some e /\ e_kind e = Kind_Directory /\ e_uid e = user
        | Err e => recorded e = true ->
                   ws_operation final = ws_operation s
                   /\ ws_last_error final = Some (redact (error_text e) [])
        end.

Lemma record_end s t t1 s0 s' e :
  (forall q, clone_path `suffix_of` q -> t1 !! q = t !! q) -> state_is t1 s0 -> same_workspace s s0 ->
  same_workspace s s' -> ws_operation s' = ws_operation s ->
  post (record_post_clone_failure user umask no_bytes ws s' e) t1 (fun t' r _ => finish_end s t t' r).
Proof.
  intros H1 Hs0 Hsame0 Hsame Hop. unfold record_post_clone_failure. apply post_handle.
  eapply post_impl; [apply persist_is|]. intros t2 r n [Hf Hr].
  assert (Hq : forall q, clone_path `suffix_of` q -> t2 !! q = t !! q).
  { intros q Hq. rewrite Hf; [by apply H1|]. by apply checkout_deep. }
  destruct r as [[]|er]; cbn beta iota; apply post_raise; (split; [done|]).
  - eexists. split; [exact Hr|]. by split_and!.
  - destruct (Hr s0 Hs0) as [H|H]; eexists; (split; [exact H|]); by split_and!.
Qed.

Lemma validate_config_frame p selection t :
  post (validate_explicit_config p selection) t (fun t' _ _ => t' = t).
Proof.
  unfold validate_explicit_config. disk; try done.
  eapply post_impl; [apply canonicalize_frame|]. intros t1 [c|e] n1 ->; disk; try done.
  eapply post_impl; [apply link_kind_frame|]. intros t2 [k|e] n2 ->; disk; try done.
  eapply post_impl; [apply canonicalize_frame|]. intros t3 [c'|e] n3 ->; disk; try done.
  eapply post_impl; [apply target_kind_frame|]. intros t4 [k'|e] n4 ->; disk; done.
Qed.

Lemma finish_create_spec s t :
  state_is t s -> ws_name s = pc_name prepared ->
  post (finish_create user umask no_bytes root prepared request s) t (fun t' r _ => finish_end s t t' r).
Proof.
  intros Hs Hn. assert (Hrefl : same_workspace s s) by reflexivity. unfold finish_create.
  apply post_handle. eapply post_impl; [apply inspect_spec|]. intros t0 r0 n0 (-> & Hr & Hz).
  destruct r0 as [found|e]; cbn beta iota; [|by apply (record_end s t t s s)].
  specialize (Hz eq_refl). subst n0. specialize (Hr eq_refl). symmetry in Hr.
  destruct found; [by apply (record_end s t t s s)|].
  apply inspect_valid in Hr as (ed & Hed & Hu & Hk).
  apply post_handle. eapply post_impl; [apply bind_frame|]. rewrite Hn. intros t1 r1 n1 Hf1.
  assert (H1 : forall q, clone_path `suffix_of` q -> t1 !! q = t !! q) by (intros q Hq; apply Hf1; by left).
  assert (Hs1 : state_is t1 s).
  { destruct Hs as (e & He & H). exists e. split; [|done]. rewrite Hf1; [done|by right]. }
  destruct r1 as [[]|e]; cbn beta iota; [|by apply (record_end s t t1 s s)].
  apply post_observe. intros cancelled. destruct cancelled; [by apply (record_end s t t1 s s)|].
  assert (Hfinish : forall s' t2, state_is t2 s -> (forall q, clone_path `suffix_of` q -> t2 !! q = t !! q) ->
    same_workspace s s' -> ws_operation s' = ws_operation s ->
    post (do? _ := persist_state user umask no_bytes ws (set_last_error (set_operation s' idle) None)
            else (fun e => record_post_clone_failure user umask no_bytes ws s' (Create_State e)) in done tt) t2
      (fun t' r _ => finish_end s t t' r)).
  { intros s' t2 Hs2 H2 Hsame Hop. apply post_handle. eapply post_impl; [apply persist_is|]. intros t3 r n [Hf Hr].
    assert (Hq : forall q, clone_path `suffix_of` q -> t3 !! q = t !! q).
    { intros q Hq. rewrite Hf; [by apply H2|]. by apply checkout_deep. }
    destruct r as [[]|er]; cbn beta iota.
    - apply post_done. split; [done|]. eexists. split; [exact Hr|]. split_and!; try done. by exists ed.
    - destruct (Hr s Hs2) as [H|H]; [by apply (record_end s t t3 s s')|].
      apply (record_end s t t3 (set_last_error (set_operation s' idle) None) s'); done. }
  destruct (cw_config request) as [config|]; [|by apply Hfinish].
  apply post_handle. eapply post_impl; [apply validate_config_frame|]. intros t2 [validated|e] n2 ->; cbn beta iota;
    [|by apply (record_end s t t1 s s)].
  destruct (pending_fingerprints prepared validated) as [f|e] eqn:Hfp.
  - by apply Hfinish.
  - apply post_raise. split; [done|]. exists s. split_and!; try done. unfold pending_fingerprints in Hfp.
    destruct (pc_key prepared); cbn in Hfp; simplify_eq. by intros ?.
Qed.

(** C14: creating a workspace is undone until Git has succeeded and kept from then on.  The clone phase
    touches nothing but the shared paths of the registry, the new workspace, and the content of its
    operation log, which stays the same file with the same owner and mode.  If it fails in Git (and
    the process was seen to end) or in the first write of the state, nothing of the workspace is
    left, or the error says that the rollback failed; a workspace that exists is never changed.  Once the clone succeeded, whatever
    fails next, the checkout stays as Git left it and the state file loads as a state of this
    workspace: idle and without error when the creation succeeded, and otherwise with the operation
    that was going on and the redacted text of the error, unless that very write failed. *)
Theorem create_keeps_or_undoes (d : Disk B) :
  no_orphans (tree d) ws ->
  let '(d1, _, cloned) := clone_workspace user umask no_bytes root prepared request d in
  let '(d2, _, r) := create_prepared user umask no_bytes root prepared request d in
  clone_end (tree d) (tree d1) cloned
  /\ match cloned with
     | Err e => d2 = d1 /\ r = Err e
     | Ok state => finish_end state (tree d1) (tree d2) r
     end.
Proof.
  intros Horphan. assert (H := clone_workspace_spec (tree d) Horphan d eq_refl). unfold create_prepared, handle.
  destruct (clone_workspace user umask no_bytes root prepared request d) as [[d1 l1] cloned].
  destruct H as (_ & _ & Hc). destruct cloned as [state|e]; [|by split].
  assert (Hc' := Hc). destruct Hc' as (_ & _ & -> & Hs).
  assert (H := finish_create_spec _ _ Hs eq_refl d1 eq_refl).
  destruct (finish_create user umask no_bytes root prepared request (initial_state prepared) d1) as [[d2 l2] r].
  split; [done|]. by destruct H as (_ & _ & H).
Qed.
End transaction.

(** ** An example *)

(** Git that makes the checkout directory or refuses, no staged credentials, no links. *)
#[local] Instance sample_git (clone_fails : bool) : GitSystem Document := {|
  git_process arguments :=
    match arguments with
    | [_; _; _; Git_Path p] =>
        let ended code := done (mkGitProcess true true true [] [Ok ($"Cloning")] [mkPoll false false false false] (Some code)) in
        do? ok := system_call untouched (fun _ t =>
            if clone_fails then (t, Ok false) else (<[p := mkEntry Kind_Directory 1000 493 (Doc_Other None)]> t, Ok true))
          else (fun _ => ended 128) in
        if ok : bool then ended 0 else ended 128
    | _ => done (mkGitProcess false false false [] [] [] None)
    end;
  parse_clone_url _ := None;
  append_content content _ := content;
  is_cancelled _ := false;
|}.
Definition sample_system : CreateSystem Document unit := {|
  bind_created_workspace _ _ _ := done tt;
  canonicalize p := done p;
  link_kind p := do? e := symlink_metadata p else raise in done (e_kind e);
  target_kind p := do? e := symlink_metadata p else raise in done (e_kind e);
  error_text _ := $"creation failed";
|}.

Lemma sample_git_laws clone_fails : GitSystemLaws Document (GitSystem0 := sample_git clone_fails).
Proof.
  split; cbn [git_process sample_git].
  - intros _ p t. apply post_handle, post_call; intros step; cbn beta iota; [by apply post_done|].
    destruct clone_fails; cbn beta iota; apply post_done; [done|]. intros q Hq.
    apply lookup_insert_ne. intros ->. by apply Hq.
  - intros. by apply post_done.
Qed.

Lemma sample_system_laws : CreateSystemLaws Document unit (CreateSystem0 := sample_system).
Proof.
  split; cbn.
  - intros. by apply post_done.
  - intros. by apply post_done.
  - intros. unfold symlink_metadata. disk; done.
  - intros. unfold symlink_metadata. disk; done.
Qed.

Definition sample_prepared : PreparedCreate :=
  mkPrepared (ws_installation_id sample_state) (Ok (fun _ _ => sample_digest)) (mkWorkspaceName ($"demo"))
    (ws_repository_source sample_state) (ws_created_at sample_state) (ws_devcontainer_profile sample_state)
    (ws_desired_config sample_state) sample_fingerprints (mkOperation Op_Creating (Some ($"op")) (Some (ws_created_at sample_state)))
    (mkBoundedLog ($"create-op.log" :: root_logs_dir sample_root) (1024 * 1024) 0).

Definition sample_request : CreateWorkspaceRequest := mkCreateRequest ($"https://example.com/demo.git") false None.

Definition sample_create (clone_fails : bool) (fails : nat -> bool) :=
  create_prepared (GitSystem0 := sample_git clone_fails) (CreateSystem0 := sample_system) 1000 18 (Doc_Other None) sample_root sample_prepared
    sample_request (sample_disk fails).

Lemma create_keeps_or_undoes_witness :
  let '(d1, _, cloned) := clone_workspace (GitSystem0 := sample_git false) 1000 18 (Doc_Other None) sample_root
                            sample_prepared sample_request (sample_disk (fun _ => false)) in
  let '(d2, _, r) := sample_create false (fun _ => false) in
  r = Ok tt /\ clone_end 1000 sample_root sample_prepared (tree (sample_disk (fun _ => false))) (tree d1) cloned
  /\ match cloned with
     | Err e => d2 = d1 /\ r = Err e
     | Ok state => finish_end (CreateSystem0 := sample_system) 1000 sample_root sample_prepared state
                     (tree d1) (tree d2) r
     end.
Proof.
  assert (Hn : name_ok (name_str (pc_name sample_prepared))) by (apply validate_workspace_name_ok; reflexivity).
  assert (Hl : exists file, bl_path (pc_log sample_prepared) = file :: root_logs_dir sample_root) by (eexists; reflexivity).
  assert (H := create_keeps_or_undoes (GitSystem0 := sample_git false) (GitSystemLaws0 := sample_git_laws false) (CreateSystem0 := sample_system)
    (CreateSystemLaws0 := sample_system_laws) 1000 18 (Doc_Other None) sample_root sample_prepared sample_request Hn Hl
    (sample_disk (fun _ => false))).
  assert (Hr : snd (sample_create false (fun _ => false)) = Ok tt) by (vm_compute; reflexivity).
  unfold sample_create in *.
  destruct (clone_workspace _ _ _ _ _ _ _) as [[d1 l1] cloned].
  destruct (create_prepared _ _ _ _ _ _ _) as [[d2 l2] r]. cbn [snd] in Hr. split; [exact Hr|]. apply H.
  intros _ q [_ Hq]. revert Hq. apply sample_disk_below. cbn. lia.
Defined.

(** A clone that fails leaves the collection as it was. *)
Example failed_clone_leaves_nothing :
  let '(d, _, r) := sample_create true (fun _ => false) in
  r = Err (Create_Git (Git_Exited (Some 128) ($"Cloning"))) /\ tree d !! workspace_root sample_root (pc_name sample_prepared) = None
  /\ map_to_list (tree d) <> [].
Proof. vm_compute. by split_and!. Qed.

(** A clone that fails and a directory that cannot be removed: the error says so. *)
Example failed_rollback_is_reported :
  let '(d, _, r) := sample_create true (Nat.eqb 81) in exists e, r = Err (Create_CloneRollback e).
Proof. vm_compute. eexists. reflexivity. Qed.
