(* ===== verification/CredentialStore.v ===== *)
(** * CredentialStore: permissions on disk, consent and revocation
    ([cdenv-cli/src/credentials.rs])

    The permission of a workspace name is a private file of the root; a receipt in the directory of
    the workspace ties it to that exact directory.  Every function works on the tree of [FileTree]
    under arbitrary failures; the device and inode of a path and its number of links are what the
    operating system reports at a call ([identity], [links]).  The codecs of the records, SHA-256,
    the random bytes, the build of the host, the exchange with the socket of a supervisor and
    whether the thread that talks to it starts are parameters.  The texts of the messages are what
    they say; the rendering for people is not modelled. *)

From S2P Require Import Prelude Text Order Effects Utf8 Identity Workspace Credentials BrokerFrame Leases LivePolicy.
From S2P Require Import Status Storage WorkspaceState Transaction FileTree Supervisor Enumeration Installation Create.

(** ** Data *)

(** @src cdenv-cli/src/credentials.rs:31-31 CREDENTIAL_PERMISSION_SCHEMA *)
Definition CREDENTIAL_PERMISSION_SCHEMA : N := 1.
(** @src cdenv-cli/src/credentials.rs:32-32 MAX_PERMISSION_BYTES *)
Definition MAX_PERMISSION_BYTES : N := 256 * 1024.

(** @src cdenv-cli/src/credentials.rs:58-67 BindingReceipt *)
Record BindingReceipt : Type := mkReceipt {
  br_schema_version : N;
  br_installation : InstallationId;
  br_workspace : WorkspaceName;
  br_created_at : StateTimestamp;
  br_source_digest : str;
  br_directory : N * N;
  br_nonce : str;
}.
#[export] Instance StateTimestamp_eq_dec : EqDecision StateTimestamp.
Proof. solve_decision. Defined.
#[export] Instance BindingReceipt_eq_dec : EqDecision BindingReceipt.
Proof. solve_decision. Defined.

(** @src cdenv-cli/src/credentials.rs:49-52 PermissionBinding *)
Inductive PermissionBinding : Type := Binding_Staged | Binding_Bound (receipt : BindingReceipt).
#[export] Instance PermissionBinding_eq_dec : EqDecision PermissionBinding.
Proof. solve_decision. Defined.

(** @src cdenv-cli/src/credentials.rs:36-45 PermissionRecord *)
Record PermissionRecord : Type := mkPermission {
  pr_schema_version : N;
  pr_installation : InstallationId;
  pr_installation_root : N * N;
  pr_workspace : WorkspaceName;
  pr_revision : N;
  pr_binding : PermissionBinding;
  pr_grants : CredentialGrants;
}.
#[export] Instance PermissionRecord_eq_dec : EqDecision PermissionRecord.
Proof. solve_decision. Defined.

(** @src cdenv-cli/src/credentials.rs:94-144 CredentialCommandError *)
Inductive CredentialCommandError : Type :=
| Credential_Policy (error : CredentialPolicyError)
| Credential_Installation
| Credential_UnsafeStorage
| Credential_Storage
| Credential_InvalidRecord
| Credential_Scope
| Credential_Workspace
| Credential_Binding
| Credential_ExplicitNameRequired
| Credential_Locked
| Credential_Revision
| Credential_RuntimeUnavailable
| Credential_RevocationUnconfirmed.

(** @src cdenv-cli/src/credentials.rs:149-162 CredentialPermissionState *)
Inductive CredentialPermissionState : Type :=
| Permission_Absent | Permission_Staged | Permission_BindingPending | Permission_Bound | Permission_Stale
| Permission_Unavailable.
#[export] Instance CredentialPermissionState_eq_dec : EqDecision CredentialPermissionState.
Proof. solve_decision. Defined.

(** @src cdenv-cli/src/credentials.rs:167-173 CredentialCapabilityStatus *)
Record CredentialCapabilityStatus : Type := mkCapabilityStatus {
  cs_configured : bool;
  cs_bound : bool;
  cs_active : bool;
  cs_transport : str;
  cs_backend : str;
}.

(** What the message of a report says. *)
Inductive StatusMessage : Type :=
| Message_Error (error : CredentialCommandError)
| Message_Unauthenticated
| Message_BindingPending
| Message_Stale
| Message_Healthy
| Message_Inactive.

(** @src cdenv-cli/src/credentials.rs:178-188 CredentialStatusReport *)
Record CredentialStatusReport : Type := mkReport {
  rp_schema_version : N;
  rp_workspace : WorkspaceName;
  rp_permission : CredentialPermissionState;
  rp_revision : option N;
  rp_grants : CredentialGrants;
  rp_capabilities : list (CredentialCapability * CredentialCapabilityStatus);
  rp_transport : str;
  rp_backend : str;
  rp_message : option StatusMessage;
}.

(** @src cdenv-cli/src/credentials.rs:211-221 CredentialStatusReport::summary *)
Definition report_summary (report : CredentialStatusReport) : str :=
  match rp_permission report with
  | Permission_Unavailable => $"permission unavailable"
  | Permission_Stale => $"stale permission; inactive"
  | permission =>
      if grants_is_empty (rp_grants report) then $"disabled; inactive" else
      match permission with
      | Permission_Staged => $"staged; inactive"
      | Permission_BindingPending => $"binding pending; inactive"
      | _ => if str_eqb (rp_transport report) ($"healthy") then $"bound; transport healthy; backend untested"
             else $"bound permission; integration unavailable"
      end
  end.

(** @src cdenv-cli/src/credentials.rs:223-229 CredentialStatusReport::diagnostic_summary *)
Definition diagnostic_summary (report : CredentialStatusReport) : str :=
  name_str (rp_workspace report) ++ $": " ++ report_summary report ++ $"; backend uninspected".

(** @src cdenv-cli/src/credentials.rs:233-238 CredentialStatusReport::is_unavailable *)
Definition report_unavailable (report : CredentialStatusReport) : bool :=
  bool_decide (rp_permission report = Permission_Unavailable) || bool_decide (rp_permission report = Permission_Stale)
  || str_eqb (rp_transport report) ($"unavailable").

(** @src cdenv-cli/src/command_line.rs:467-482 CredentialEnable *)
Inductive CredentialEnable : Type :=
| Enable_GitHttps (origins : list HttpsOrigin)
| Enable_SshAgent (socket : option SshAgentSelector)
| Enable_GitIdentity.

(** @src cdenv-cli/src/command_line.rs:422-450 CredentialsCommand *)
Inductive CredentialsCommand : Type :=
| Command_Enable (name : WorkspaceName) (capability : CredentialEnable)
| Command_Allow (name : WorkspaceName) (origins : list HttpsOrigin)
| Command_Deny (name : WorkspaceName) (origins : list HttpsOrigin)
| Command_Disable (name : WorkspaceName) (capabilities : list CredentialCapability)
| Command_Status (name : WorkspaceName) (json : bool).

(** @src cdenv-cli/src/command_line.rs:455-462 CredentialsCommand::name *)
Definition command_name (command : CredentialsCommand) : WorkspaceName :=
  match command with
  | Command_Enable name _ | Command_Allow name _ | Command_Deny name _ | Command_Disable name _ | Command_Status name _ => name
  end.

(** ** The layout *)

(** @src cdenv-cli/src/paths.rs:179-181 CdenvRoot::credential_permissions_dir *)
Definition credential_permissions_dir (root : Path) : Path := $"credentials" :: root.
(** @src cdenv-cli/src/paths.rs:185-187 CdenvRoot::credential_permissions_lock *)
Definition credential_permissions_lock (root : Path) : Path := $"permissions.lock" :: credential_permissions_dir root.
Definition permission_name (name : WorkspaceName) : list N := encode_utf8 (name_str name) ++ $".json".
(** @src cdenv-cli/src/paths.rs:191-194 CdenvRoot::credential_permission_file *)
Definition credential_permission_file (root : Path) (name : WorkspaceName) : Path :=
  permission_name name :: credential_permissions_dir root.
Definition binding_name : list N := $"credential-binding.json".
(** @src cdenv-cli/src/paths.rs:285-287 WorkspacePaths::credential_binding_file *)
Definition credential_binding_file (root : Path) (name : WorkspaceName) : Path := binding_name :: workspace_root root name.

(** The derived [Serialize] and [Deserialize] of the records. *)
Class PermissionSerde : Type := {
  permission_to_vec : PermissionRecord -> option (list N);
  permission_from_slice : list N -> option PermissionRecord;
  receipt_to_vec : BindingReceipt -> option (list N);
  receipt_from_slice : list N -> option BindingReceipt;
  supervisor_from_slice : list N -> option SupervisorState;
}.
Class PermissionSerdeLaws `{!PermissionSerde} : Prop := {
  permission_decodes r bytes : permission_to_vec r = Some bytes -> permission_from_slice bytes = Some r;
  receipt_decodes r bytes : receipt_to_vec r = Some bytes -> receipt_from_slice bytes = Some r;
}.

(** What the operating system and the process around the store give. *)
Record StoreHost : Type := mkStoreHost {
  sh_user : N;
  sh_umask : N;
  sh_identity : nat -> Path -> N * N;
  sh_links : nat -> Path -> N;
  sh_sha256 : list N -> list N;
  sh_installation_key : option (list N);
  sh_installation_id : option (list N);
  sh_nonce : option (list N);
  sh_build : option AgentBuildId;
  sh_thread : bool;
  sh_exchange : Path -> list N -> result str (list N);
}.

(** [fs::Metadata], as far as the code looks at it. *)
Record Metadata : Type := mkMetadata { md_entry : Entry (list N); md_id : N * N; md_links : N }.

Section store.
Context (host : StoreHost) `{!PermissionSerde, !RecordSerde, !StateSerde (list N), !ControlCodec}.
Context (Url_parse : str -> option Url) (root : Path).
Let user : N := sh_user host.
Let umask : N := sh_umask host.

Abbreviation storing := (disk_io (list N) CredentialCommandError).

(** ** Private files *)

(** [fs::symlink_metadata], with what it reports besides the entry. *)
Definition stat (p : Path) : disk_io (list N) IoError Metadata :=
  observe ticks (fun n =>
    do? entry := symlink_metadata p else raise in
    done (mkMetadata entry (sh_identity host n p) (sh_links host n p))).

(** The loop over the ancestors: whether one is missing.
    @src cdenv-cli/src/credentials.rs:976-983 private_metadata *)
Fixpoint scan_ancestors (l : list Path) (missing : bool) : storing bool :=
  match l with
  | [] => done missing
  | ancestor :: rest =>
      do? metadata := stat ancestor
        else (fun e => match e with Io_NotFound => scan_ancestors rest true | _ => raise Credential_UnsafeStorage end) in
      if bool_decide (e_kind (md_entry metadata) = Kind_Directory) then scan_ancestors rest missing
      else raise Credential_UnsafeStorage
  end.

(** The mode that is asked for is 0700 or 0600.
    @src cdenv-cli/src/credentials.rs:992-1000 private_metadata *)
Definition unsafe_metadata (metadata : Metadata) (directory : bool) : bool :=
  let entry := md_entry metadata in
  let expected_mode := if directory then 448 else 384 in
  bool_decide (e_kind entry = Kind_Symlink) || negb (e_uid entry =? user)
  || negb (N.land (e_mode entry) 4095 =? expected_mode)
  || (directory && negb (bool_decide (e_kind entry = Kind_Directory)))
  || (negb directory && (negb (bool_decide (e_kind entry = Kind_File)) || negb (md_links metadata =? 1))).

(** @src cdenv-cli/src/credentials.rs:970-1002 private_metadata *)
Definition private_metadata (p : Path) (directory : bool) : storing (option Metadata) :=
  do? missing := scan_ancestors (drop 1 (ancestors p)) false else raise in
  if missing : bool then done None else
  do? metadata := stat p
    else (fun e => match e with Io_NotFound => done None | _ => raise Credential_Storage end) in
  if unsafe_metadata metadata directory then raise Credential_UnsafeStorage else done (Some metadata).

(** [private_metadata(..)?.is_none()] *)
Definition private_present (p : Path) (directory : bool) : storing bool :=
  do? metadata := private_metadata p directory else raise in done (is_Some_b metadata).

(** The mode that is asked for is 0600.
    @src cdenv-cli/src/credentials.rs:954-968 private_socket_metadata *)
Definition private_socket_metadata (p : Path) : storing (option Metadata) :=
  do? metadata := stat p
    else (fun e => match e with Io_NotFound => done None | _ => raise Credential_Storage end) in
  let entry := md_entry metadata in
  if negb (bool_decide (e_kind entry = Kind_Socket)) || negb (e_uid entry =? user)
     || negb (N.land (e_mode entry) 4095 =? 384)
  then raise Credential_UnsafeStorage else done (Some metadata).

(** A file opened for reading without following a link: its content and identity stay those of the
    file that was opened. *)
Definition open_nofollow (p : Path) : disk_io (list N) IoError (list N * (N * N)) :=
  observe ticks (fun n => system_call untouched (fun _ t =>
    (t, let? entry := ok_or Io_NotFound (t !! p) in
        fail_if negb (bool_decide (e_kind entry = Kind_File)) with Io_Other in
        Ok (e_content entry, sh_identity host n p)))).

(** A call on the open file that gives [x] or fails. *)
Definition on_handle {X} (x : X) : disk_io (list N) IoError X := system_call untouched (fun _ t => (t, Ok x)).

(** @src cdenv-cli/src/credentials.rs:943-952 read_bounded *)
Definition read_bounded (content : list N) : storing (list N) :=
  do? bytes := on_handle (take (N.to_nat (MAX_PERMISSION_BYTES + 1)) content) or (fun _ => Credential_Storage) in
  if MAX_PERMISSION_BYTES <? lenN bytes then raise Credential_InvalidRecord else done bytes.

(** @src cdenv-cli/src/credentials.rs:920-941 read_private *)
Definition read_private {T} (from_slice : list N -> option T) (p : Path) : storing (option T) :=
  do? metadata := private_metadata p false else raise in
  match metadata with
  | None => done None
  | Some metadata =>
      do? (content, id) := open_nofollow p or (fun _ => Credential_Storage) in
      do? opened := on_handle id or (fun _ => Credential_Storage) in
      if negb (bool_decide (opened = md_id metadata)) then raise Credential_UnsafeStorage else
      do? bytes := read_bounded content else raise in
      match from_slice bytes with Some value => done (Some value) | None => raise Credential_InvalidRecord end
  end.

(** @src cdenv-cli/src/credentials.rs:909-918 persist_private *)
Definition persist_private (dir : Path) (filename : list N) (serialized : option (list N)) : storing unit :=
  do? _ := private_metadata (filename :: dir) false else raise in
  match serialized with
  | None => raise Credential_InvalidRecord
  | Some bytes =>
      if MAX_PERMISSION_BYTES <? lenN bytes then raise Credential_InvalidRecord else
      do? _ := write_managed user umask [] dir filename bytes PrivateFile or (fun _ => Credential_Storage) in done tt
  end.

(** ** Records *)

(** @src cdenv-cli/src/credentials.rs:898-907 validate_scope *)
Definition validate_scope (record : PermissionRecord) (installation : InstallationId) (name : WorkspaceName) :
    result CredentialCommandError unit :=
  fail_if negb (bool_decide (pr_installation record = installation)) || negb (bool_decide (pr_workspace record = name))
    with Credential_Scope in Ok tt.

(** The result of code without effects. *)
Definition lift {E X} (r : result E X) : disk_io (list N) E X := match r with Ok x => done x | Err e => raise e end.

(** @src cdenv-cli/src/credentials.rs:871-896 load_record *)
Definition load_record (name : WorkspaceName) : storing (option PermissionRecord) :=
  do? present := private_present root true else raise in
  if negb present then done None else
  do? present := private_present (credential_permissions_dir root) true else raise in
  if negb present then done None else
  do? found := read_private permission_from_slice (credential_permission_file root name) else raise in
  match found with
  | None => done None
  | Some record =>
      if negb (pr_schema_version record =? CREDENTIAL_PERMISSION_SCHEMA) || (pr_revision record =? 0)
      then raise Credential_InvalidRecord else
      do? _ := lift (validate_grants (pr_grants record)) or Credential_Policy in
      do? metadata := private_metadata root true else raise in
      match metadata with
      | None => raise Credential_UnsafeStorage
      | Some metadata =>
          if negb (bool_decide (pr_installation_root record = md_id metadata)) then raise Credential_Scope
          else done (Some record)
      end
  end.

(** @src cdenv-cli/src/credentials.rs:775-779 source_digest *)
Definition source_digest (state : WorkspaceState) : str :=
  hex_encode (sh_sha256 host (encode_utf8 (source_str (ws_repository_source state)))).

(** What a receipt says of a state and of the identity of its directory.
    @src cdenv-cli/src/credentials.rs:77-88 BindingReceipt::matches *)
Definition receipt_describes (receipt : BindingReceipt) (id : N * N) (state : WorkspaceState) : bool :=
  (br_schema_version receipt =? CREDENTIAL_PERMISSION_SCHEMA)
  && bool_decide (br_installation receipt = ws_installation_id state) && bool_decide (br_workspace receipt = ws_name state)
  && bool_decide (br_created_at receipt = ws_created_at state) && str_eqb (br_source_digest receipt) (source_digest state)
  && bool_decide (br_directory receipt = id)
  && (str_len (br_nonce receipt) =? 64) && forallb lower_hex (encode_utf8 (br_nonce receipt)).

(** @src cdenv-cli/src/credentials.rs:70-89 BindingReceipt::matches *)
Definition receipt_matches (receipt : BindingReceipt) (directory : Path) (state : WorkspaceState) : storing bool :=
  do? metadata := private_metadata directory true else raise in
  match metadata with
  | None => raise Credential_Workspace
  | Some metadata => done (receipt_describes receipt (md_id metadata) state)
  end.

(** @src cdenv-cli/src/credentials.rs:781-793 bound_matches *)
Definition bound_matches (record : PermissionRecord) (state : WorkspaceState) : storing bool :=
  match pr_binding record with
  | Binding_Staged => done false
  | Binding_Bound receipt =>
      do? same := receipt_matches receipt (workspace_root root (ws_name state)) state else raise in
      if negb same then done false else
      do? found := read_private receipt_from_slice (credential_binding_file root (ws_name state)) else raise in
      done (bool_decide (found = Some receipt))
  end.

(** @src cdenv-cli/src/credentials.rs:795-816 load_existing_workspace *)
Definition load_existing_workspace (name : WorkspaceName) (installation : InstallationId) : storing (option WorkspaceState) :=
  do? present := private_present (workspaces_dir root) true else raise in
  if negb present then done None else
  do? present := private_present (workspace_root root name) true else raise in
  if negb present then done None else
  do? present := private_present (state_path root name) false else raise in
  if negb present then raise Credential_Workspace else
  do? loaded := load_state user (state_path root name) or (fun _ => Credential_Workspace) in
  let state := loaded_state loaded in
  if match loaded_migration loaded with Migration_Current => false | _ => true end
     || negb (bool_decide (ws_name state = name)) || negb (bool_decide (ws_installation_id state = installation))
  then raise Credential_Workspace else done (Some state).

(** @src cdenv-cli/src/credentials.rs:745-773 ensure_receipt *)
Definition ensure_receipt (state : WorkspaceState) : storing BindingReceipt :=
  let dir := workspace_root root (ws_name state) in
  do? found := read_private receipt_from_slice (credential_binding_file root (ws_name state)) else raise in
  match found with
  | Some receipt =>
      do? same := receipt_matches receipt dir state else raise in
      if same : bool then done receipt else raise Credential_Binding
  | None =>
      do? metadata := private_metadata dir true else raise in
      match metadata, sh_nonce host with
      | None, _ => raise Credential_Workspace
      | Some _, None => raise Credential_Storage
      | Some metadata, Some nonce =>
          let receipt := mkReceipt CREDENTIAL_PERMISSION_SCHEMA (ws_installation_id state) (ws_name state)
            (ws_created_at state) (source_digest state) (md_id metadata) (hex_encode nonce) in
          do? _ := persist_private dir binding_name (receipt_to_vec receipt) else raise in
          done receipt
      end
  end.

Definition with_revision (record : PermissionRecord) (revision : N) : PermissionRecord :=
  mkPermission (pr_schema_version record) (pr_installation record) (pr_installation_root record) (pr_workspace record)
    revision (pr_binding record) (pr_grants record).
Definition with_binding (record : PermissionRecord) (binding : PermissionBinding) : PermissionRecord :=
  mkPermission (pr_schema_version record) (pr_installation record) (pr_installation_root record) (pr_workspace record)
    (pr_revision record) binding (pr_grants record).
Definition with_grants (record : PermissionRecord) (grants : CredentialGrants) : PermissionRecord :=
  mkPermission (pr_schema_version record) (pr_installation record) (pr_installation_root record) (pr_workspace record)
    (pr_revision record) (pr_binding record) grants.

(** The record as it is afterwards; the revision is a [u64].
    @src cdenv-cli/src/credentials.rs:652-665 persist_change *)
Definition persist_change (record : PermissionRecord) (previous : option PermissionRecord) : storing PermissionRecord :=
  if bool_decide (previous = Some record) then done record else
  if 2 ^ 64 - 1 <=? pr_revision record then raise Credential_Revision else
  let record := with_revision record (pr_revision record + 1) in
  do? _ := persist_private (credential_permissions_dir root) (permission_name (pr_workspace record)) (permission_to_vec record)
    else raise in
  done record.

(** ** The live supervisor *)

(** [fs::metadata] follows links; the callers have refused a link at the path before.
    @src cdenv-cli/src/forwarding.rs:1163-1175 load_supervisor_state *)
Definition load_supervisor_file (p : Path) : disk_io (list N) unit SupervisorState :=
  do? entry := symlink_metadata p or (fun _ => tt) in
  if negb (N.land (e_mode entry) 63 =? 0) then raise tt else
  do? bytes := read_file p or (fun _ => tt) in
  lift (ok_or tt (supervisor_from_slice bytes)).

(** The runtime of the thread and its result.
    @src cdenv-cli/src/credentials.rs:1080-1095 reconcile_running_generation *)
Definition in_thread {E X} (r : result E X) : result unit X := if sh_thread host then map_err (fun _ => tt) r else Err tt.

(** @src cdenv-cli/src/credentials.rs:1069-1076 reconcile_running_generation *)
Definition state_claim (supervisor : SupervisorState) : SupervisorClaim :=
  mkSupervisorClaim (sv_installation supervisor) (sv_workspace supervisor) (sv_generation supervisor)
    (sv_host_build_id supervisor) (sv_agent_build_id supervisor) (sv_agent_protocol supervisor).

(** The supervisor runs the active generation of the workspace with the builds of both sides.
    @src cdenv-cli/src/credentials.rs:1052-1057 reconcile_running_generation *)
Definition supervisor_of (supervisor : SupervisorState) (state : WorkspaceState) (active : ActiveGeneration) (build : AgentBuildId) : bool :=
  bool_decide (sv_installation supervisor = ws_installation_id state) && bool_decide (sv_workspace supervisor = ws_name state)
  && bool_decide (sv_generation supervisor = ag_generation active) && bool_decide (sv_host_build_id supervisor = build)
  && bool_decide (sv_agent_build_id supervisor = ps_agent_build_id (ag_provisioned active))
  && bool_decide (sv_agent_protocol supervisor = ps_protocol_version (ag_provisioned active)).

(** @src cdenv-cli/src/credentials.rs:1058-1064 reconcile_running_generation *)
Definition lease_of (lease : CredentialLeaseIdentity) (state : WorkspaceState) (active : ActiveGeneration) (nonce : str) : bool :=
  bool_decide (Leases.container lease = ag_container_id active) && bool_decide (Leases.generation lease = ag_generation active)
  && bool_decide (Leases.installation lease = ws_installation_id state) && bool_decide (Leases.workspace lease = ws_name state)
  && str_eqb (Leases.workspace_receipt lease) nonce.

(** The path must not exist.
    @src cdenv-cli/src/credentials.rs:1112-1117 confirm_no_live_supervisor *)
Definition path_absent (p : Path) : storing unit :=
  do? _ := stat p
    else (fun e => match e with Io_NotFound => done tt | _ => raise Credential_RevocationUnconfirmed end) in
  raise Credential_RevocationUnconfirmed.

(** @src cdenv-cli/src/credentials.rs:1104-1123 confirm_no_live_supervisor *)
Definition verify_no_supervisor (name : WorkspaceName) : storing unit :=
  do? present := private_present (workspace_root root name) true else raise in
  if negb present then done tt else
  do? present := private_present (runtime_dir root name) true else raise in
  if negb present then done tt else
  let lock := supervisor_lifetime_lock root name in
  do? present := private_present lock false else raise in
  if negb present then each path_absent [supervisor_state_file root name; supervisor_socket root name] else
  do? _ := acquire_lock user lock Lock_Exclusive Lock_FailFast or (fun _ => Credential_RevocationUnconfirmed) in
  done tt.

(** @src cdenv-cli/src/credentials.rs:1099-1125 confirm_no_live_supervisor *)
Definition confirm_no_live_supervisor (name : WorkspaceName) : storing unit :=
  do? _ := verify_no_supervisor name or (fun _ => Credential_RevocationUnconfirmed) in done tt.

(** @src cdenv-cli/src/credentials.rs:1009-1015 reconcile_running_generation *)
Definition reconcile_failure (revoking : bool) : CredentialCommandError :=
  if revoking then Credential_RevocationUnconfirmed else Credential_RuntimeUnavailable.

(** The part with a supervisor's files in place.
    @src cdenv-cli/src/credentials.rs:1043-1096 reconcile_running_generation *)
Definition reconcile_with_supervisor (record : PermissionRecord) (revoking : bool) (state : WorkspaceState) (active : ActiveGeneration) :
    storing unit :=
  let fail := reconcile_failure revoking in
  let name := pr_workspace record in
  do? supervisor := load_supervisor_file (supervisor_state_file root name) or (fun _ => fail) in
  do? receipt := read_private receipt_from_slice (credential_binding_file root name) else raise in
  match receipt with
  | None => raise fail
  | Some receipt =>
      do? same := receipt_matches receipt (workspace_root root name) state else raise in
      if negb same then raise fail else
      match sh_build host with
      | None => raise fail
      | Some build =>
          if negb (supervisor_of supervisor state active build
                   && match sv_credential_lease supervisor with
                      | None => true
                      | Some lease => lease_of lease state active (br_nonce receipt)
                      end)
          then raise fail else
          do? _ := lift (in_thread (reconcile_supervisor_credentials (sh_exchange host (supervisor_socket root name))
                          (sv_token supervisor) (state_claim supervisor) (pr_revision record) (pr_grants record)))
            or (fun _ => fail) in
          done tt
      end
  end.

(** @src cdenv-cli/src/credentials.rs:1004-1097 reconcile_running_generation *)
Definition reconcile_running_generation (record : PermissionRecord) (revoking : bool) : storing unit :=
  let name := pr_workspace record in
  let absent := if revoking then confirm_no_live_supervisor name else raise (reconcile_failure revoking) in
  do? installation := load_record_read_only user root or (fun _ => reconcile_failure revoking) in
  do? state := load_existing_workspace name (ir_installation_id installation) else raise in
  match state with
  | None => absent
  | Some state =>
      match ws_active state with
      | None => absent
      | Some active =>
          do? present := private_present (supervisor_state_file root name) false else raise in
          if negb present then absent else
          do? socket := private_socket_metadata (supervisor_socket root name) else raise in
          match socket with
          | None => absent
          | Some _ => reconcile_with_supervisor record revoking state active
          end
      end
  end.

(** ** Status *)

(** @src cdenv-cli/src/credentials.rs:354-380 capability_statuses *)
Definition capability_statuses (grants : CredentialGrants) (permission : CredentialPermissionState) (transport backend : str) :
    list (CredentialCapability * CredentialCapabilityStatus) :=
  List.map (fun capability =>
    let configured := enabled grants capability in
    (capability, mkCapabilityStatus configured (configured && bool_decide (permission = Permission_Bound))
       (configured && str_eqb transport ($"healthy"))
       (if configured then transport else $"inactive") (if configured then backend else $"disabled")))
    [GitHttps; SshAgent; GitIdentity].

(** Whether the supervisor answers at the revision of the record; [false] without an active generation.
    @src cdenv-cli/src/credentials.rs:393-455 inspect_live_facts *)
Definition live_at_revision (record : PermissionRecord) : storing bool :=
  let name := pr_workspace record in
  do? installation := load_record_read_only user root or (fun _ => Credential_Installation) in
  do? state := load_existing_workspace name (ir_installation_id installation) else raise in
  match state with
  | None => raise Credential_Workspace
  | Some state =>
      match ws_active state with
      | None => done false
      | Some active =>
          do? present := private_present (supervisor_state_file root name) false else raise in
          if negb present then raise Credential_RuntimeUnavailable else
          do? socket := private_socket_metadata (supervisor_socket root name) else raise in
          match socket with
          | None => raise Credential_RuntimeUnavailable
          | Some _ =>
              do? supervisor := load_supervisor_file (supervisor_state_file root name) or (fun _ => Credential_RuntimeUnavailable) in
              match sh_build host, sv_credential_lease supervisor, pr_binding record with
              | None, _, _ | Some _, None, _ => raise Credential_RuntimeUnavailable
              | Some _, Some _, Binding_Staged => raise Credential_Binding
              | Some build, Some lease, Binding_Bound receipt =>
                  if negb (supervisor_of supervisor state active build)
                     || negb (bool_decide (Leases.container lease = ag_container_id active))
                     || negb (str_eqb (Leases.workspace_receipt lease) (br_nonce receipt))
                  then raise Credential_RuntimeUnavailable else
                  do? status := lift (in_thread (supervisor_credential_status (sh_exchange host (supervisor_socket root name))
                                       (sv_token supervisor) (state_claim supervisor)))
                    or (fun _ => Credential_RuntimeUnavailable) in
                  done (bool_decide (snd status = Some (pr_revision record)))
              end
          end
      end
  end.

(** @src cdenv-cli/src/credentials.rs:382-465 inspect_live_facts *)
Definition inspect_live_facts (record : PermissionRecord) (permission : CredentialPermissionState) :
    disk_io (list N) Empty_set (str * str * option StatusMessage) :=
  if grants_is_empty (pr_grants record) then done ($"inactive", $"disabled", None) else
  if negb (bool_decide (permission = Permission_Bound)) then done ($"inactive", $"uninspected", None) else
  do? healthy := live_at_revision record
    else (fun _ => done ($"unavailable", $"uninspected", Some Message_Unauthenticated)) in
  done (if healthy : bool then ($"healthy", $"untested", None) else ($"inactive", $"uninspected", None)).

(** @src cdenv-cli/src/credentials.rs:467-485 inspect_staged_binding *)
Definition inspect_staged_binding (record : PermissionRecord) : storing CredentialPermissionState :=
  if grants_is_empty (pr_grants record) then done Permission_Staged else
  do? state := load_existing_workspace (pr_workspace record) (pr_installation record) else raise in
  match state with
  | None => done Permission_Staged
  | Some state =>
      do? found := read_private receipt_from_slice (credential_binding_file root (ws_name state)) else raise in
      match found with
      | None => done Permission_Stale
      | Some receipt =>
          do? same := receipt_matches receipt (workspace_root root (ws_name state)) state else raise in
          done (if same : bool then Permission_BindingPending else Permission_Stale)
      end
  end.

(** @src cdenv-cli/src/credentials.rs:322-332 inspect_status *)
Definition inspect_binding (record : PermissionRecord) (installation : InstallationId) (name : WorkspaceName) : storing CredentialPermissionState :=
  match pr_binding record with
  | Binding_Staged => inspect_staged_binding record
  | Binding_Bound _ =>
      do? state := load_existing_workspace name installation else raise in
      match state with
      | None => done Permission_Stale
      | Some state =>
          do? same := bound_matches record state else raise in
          done (if same : bool then Permission_Bound else Permission_Stale)
      end
  end.

(** @src cdenv-cli/src/credentials.rs:334-339 inspect_status *)
Definition status_message (permission : CredentialPermissionState) (transport : str) : StatusMessage :=
  match permission with
  | Permission_BindingPending => Message_BindingPending
  | Permission_Stale => Message_Stale
  | Permission_Bound => if str_eqb transport ($"healthy") then Message_Healthy else Message_Inactive
  | _ => Message_Inactive
  end.

(** @src cdenv-cli/src/credentials.rs:297-352 inspect_status *)
Definition inspect_status (name : WorkspaceName) : storing CredentialStatusReport :=
  do? found := load_record name else raise in
  match found with
  | None =>
      done (mkReport CREDENTIAL_PERMISSION_SCHEMA name Permission_Absent None default_grants
        (capability_statuses default_grants Permission_Absent ($"inactive") ($"disabled")) ($"inactive") ($"disabled") None)
  | Some record =>
      do? installation := load_record_read_only user root or (fun _ => Credential_Installation) in
      do? _ := lift (validate_scope record (ir_installation_id installation) name) else raise in
      do? permission := inspect_binding record (ir_installation_id installation) name else raise in
      do? (transport, backend, live_message) := inspect_live_facts record permission
        else (fun e : Empty_set => match e with end) in
      let message := match live_message with
                     | Some message => Some message
                     | None => if grants_is_empty (pr_grants record) then None else Some (status_message permission transport)
                     end in
      done (mkReport CREDENTIAL_PERMISSION_SCHEMA name permission (Some (pr_revision record)) (pr_grants record)
        (capability_statuses (pr_grants record) permission transport backend) transport backend message)
  end.

(** @src cdenv-cli/src/credentials.rs:245-265 credential_status *)
Definition credential_status (name : WorkspaceName) : disk_io (list N) Empty_set CredentialStatusReport :=
  do? report := inspect_status name
    else (fun error => done (mkReport CREDENTIAL_PERMISSION_SCHEMA name Permission_Unavailable None default_grants
      (capability_statuses default_grants Permission_Unavailable ($"unavailable") ($"uninspected"))
      ($"unavailable") ($"uninspected") (Some (Message_Error error)))) in
  done report.

(** The names of the permission files.
    @src cdenv-cli/src/credentials.rs:275-289 credential_reports *)
Fixpoint permission_names (file_names : list (list N)) (names : list WorkspaceName) : storing (list WorkspaceName) :=
  match file_names with
  | [] => done names
  | file_name :: rest =>
      do? _ := next_entry or (fun _ => Credential_Storage) in
      match from_utf8 file_name with
      | None => raise Credential_InvalidRecord
      | Some file_name =>
          match strip_suffix ($".json") file_name with
          | None => permission_names rest names
          | Some name =>
              match WorkspaceName_parse name with
              | Ok name => permission_names rest (names ++ [name])
              | Err _ => raise Credential_InvalidRecord
              end
          end
      end
  end.

Fixpoint status_of_each (names : list WorkspaceName) : disk_io (list N) Empty_set (list CredentialStatusReport) :=
  match names with
  | [] => done []
  | name :: rest =>
      do? report := credential_status name else raise in
      do? reports := status_of_each rest else raise in
      done (report :: reports)
  end.

(** @src cdenv-cli/src/credentials.rs:267-295 credential_reports *)
Definition credential_reports : storing (list CredentialStatusReport) :=
  do? present := private_present root true else raise in
  if negb present then done [] else
  do? present := private_present (credential_permissions_dir root) true else raise in
  if negb present then done [] else
  do? file_names := read_dir (credential_permissions_dir root) or (fun _ => Credential_Storage) in
  do? names := permission_names file_names [] else raise in
  let sorted := merge_sort (fun a b => str_le (name_str a) (name_str b)) names in
  do? reports := status_of_each sorted else (fun e : Empty_set => match e with end) in
  done reports.

(** ** Locks *)

(** @src cdenv-cli/src/credentials.rs:818-829 namespace_guard *)
Definition namespace_guard : storing unit :=
  do? present := private_present (workspaces_dir root) true else raise in
  do? _ := (if negb present then ensure_private_directory user umask [] (workspaces_dir root) else done tt)
    or (fun _ => Credential_Storage) in
  let lock := workspace_namespace_lock root in
  do? present := private_present lock false else raise in
  do? _ := (if negb present then ensure_lock_file user umask [] lock else done tt) or (fun _ => Credential_Storage) in
  do? _ := acquire_lock user lock Lock_Exclusive Lock_Wait or (fun _ => Credential_Locked) in
  done tt.

(** Whether the workspace exists, and is locked now.
    @src cdenv-cli/src/credentials.rs:831-845 workspace_guard *)
Definition workspace_guard (name : WorkspaceName) : storing bool :=
  do? present := private_present (workspaces_dir root) true else raise in
  if negb present then done false else
  do? present := private_present (workspace_root root name) true else raise in
  if negb present then done false else
  let lock := lock_file root name in
  do? present := private_present lock false else raise in
  if negb present then raise Credential_Locked else
  do? _ := acquire_lock user lock Lock_Exclusive Lock_FailFast or (fun _ => Credential_Locked) in
  done true.

(** @src cdenv-cli/src/credentials.rs:847-856 policy_guard *)
Definition policy_guard : storing unit :=
  do? present := private_present (credential_permissions_lock root) false else raise in
  if negb present then raise Credential_Locked else
  do? _ := acquire_lock user (credential_permissions_lock root) Lock_Exclusive Lock_Wait or (fun _ => Credential_Locked) in
  done tt.

(** @src cdenv-cli/src/credentials.rs:858-869 prepare_store *)
Definition prepare_store : storing unit :=
  do? present := private_present root true else raise in
  if negb present then raise Credential_UnsafeStorage else
  do? present := private_present (credential_permissions_dir root) true else raise in
  do? _ := (if negb present then ensure_private_directory user umask [] (credential_permissions_dir root) else done tt)
    or (fun _ => Credential_Storage) in
  do? present := private_present (credential_permissions_lock root) false else raise in
  do? _ := (if negb present then ensure_lock_file user umask [] (credential_permissions_lock root) else done tt)
    or (fun _ => Credential_Storage) in
  done tt.

(** ** Changes *)

(** @src cdenv-cli/src/credentials.rs:593-622 enable *)
Definition enable (grants : CredentialGrants) (capability : CredentialEnable) (state : option WorkspaceState) :
    result CredentialCommandError CredentialGrants :=
  let https origins :=
    match enable_https grants origins with (g, Ok _) => Ok g | (_, Err e) => Err (Credential_Policy e) end in
  match capability with
  | Enable_GitHttps origins =>
      if negb (bool_decide (origins = [])) || enabled grants GitHttps then https origins else
      let? origin := ok_or (Credential_Policy OriginsRequired)
        (state ← state; ok (from_repository_source Url_parse (source_str (ws_repository_source state)))) in
      https [origin]
  | Enable_SshAgent socket =>
      let selector := match socket with
                      | Some socket => socket
                      | None => default automatic (ssh_agent grants)
                      end in
      Ok (enable_ssh_agent grants selector)
  | Enable_GitIdentity => Ok (enable_identity grants)
  end.

(** @src cdenv-cli/src/credentials.rs:624-650 validate_mutation_binding *)
Definition validate_mutation_binding (record : PermissionRecord) (state : option WorkspaceState) (command : CredentialsCommand) : storing unit :=
  if grants_is_empty (pr_grants record) && match command with Command_Enable _ _ => true | _ => false end then done tt else
  match pr_binding record, state with
  | Binding_Staged, None => done tt
  | Binding_Staged, Some state =>
      do? found := read_private receipt_from_slice (credential_binding_file root (ws_name state)) else raise in
      match found with
      | None => raise Credential_ExplicitNameRequired
      | Some receipt =>
          do? same := receipt_matches receipt (workspace_root root (ws_name state)) state else (fun _ => raise Credential_ExplicitNameRequired) in
          if same : bool then done tt else raise Credential_ExplicitNameRequired
      end
  | Binding_Bound _, Some state =>
      do? same := bound_matches record state else raise in
      if same : bool then done tt else raise Credential_Binding
  | Binding_Bound _, None => raise Credential_Binding
  end.

(** @src cdenv-cli/src/credentials.rs:543-553 mutate_credentials *)
Definition disable_capabilities (record : PermissionRecord) (capabilities : list CredentialCapability) : PermissionRecord :=
  let grants := match capabilities with
                | [] => default_grants
                | _ => fold_left disable capabilities (pr_grants record)
                end in
  let record := with_grants record grants in
  if grants_is_empty grants then with_binding record Binding_Staged else record.

(** The grants after an enable, an allow or a deny.
    @src cdenv-cli/src/credentials.rs:561-574 mutate_credentials *)
Definition commanded_grants (command : CredentialsCommand) (grants : CredentialGrants) (state : option WorkspaceState) :
    result CredentialCommandError CredentialGrants :=
  let adjusted origins allow :=
    match adjust_origins grants origins allow with (g, Ok _) => Ok g | (_, Err e) => Err (Credential_Policy e) end in
  match command with
  | Command_Enable _ capability => enable grants capability state
  | Command_Allow _ origins => adjusted origins true
  | Command_Deny _ origins => adjusted origins false
  | Command_Disable _ _ | Command_Status _ _ => Ok grants
  end.

(** @src cdenv-cli/src/credentials.rs:575-583 mutate_credentials *)
Definition rebind (record : PermissionRecord) (previous : option PermissionRecord) (state : option WorkspaceState) : storing PermissionRecord :=
  match state with
  | Some state =>
      do? same := bound_matches record state else raise in
      if same : bool then done record else
      do? receipt := ensure_receipt state else raise in
      done (with_binding record (Binding_Bound receipt))
  | None =>
      done (if match previous with Some old => grants_is_empty (pr_grants old) | None => false end
            then with_binding record Binding_Staged else record)
  end.

(** @src cdenv-cli/src/credentials.rs:539-542 mutate_credentials *)
Definition revoking (command : CredentialsCommand) : bool :=
  match command with Command_Disable _ _ | Command_Deny _ _ => true | _ => false end.

(** The record before the command, or the one of a name without permission.
    @src cdenv-cli/src/credentials.rs:523-538 mutate_credentials *)
Definition load_or_stage (installation : InstallationId) (name : WorkspaceName) : storing (option PermissionRecord * PermissionRecord) :=
  do? previous := load_record name else raise in
  do? _ := lift (match previous with Some record => validate_scope record installation name | None => Ok tt end) else raise in
  do? metadata := private_metadata root true else raise in
  match metadata with
  | None => raise Credential_UnsafeStorage
  | Some metadata =>
      done (previous, default (mkPermission CREDENTIAL_PERMISSION_SCHEMA installation (md_id metadata) name 0 Binding_Staged default_grants) previous)
  end.

(** From the record to the durable and live change.
    @src cdenv-cli/src/credentials.rs:543-589 mutate_credentials *)
Definition apply_command (installation : InstallationId) (command : CredentialsCommand)
    (previous : option PermissionRecord) (record : PermissionRecord) : storing unit :=
  match command with
  | Command_Disable _ capabilities =>
      do? record := persist_change (disable_capabilities record capabilities) previous else raise in
      reconcile_running_generation record true
  | _ =>
      do? state := load_existing_workspace (command_name command) installation else raise in
      do? _ := validate_mutation_binding record state command else raise in
      do? grants := lift (commanded_grants command (pr_grants record) state) else raise in
      do? record := rebind (with_grants record grants) previous state else raise in
      do? record := persist_change record previous else raise in
      if is_Some_b (state ← state; ws_active state) then reconcile_running_generation record (revoking command)
      else if revoking command then confirm_no_live_supervisor (command_name command) else done tt
  end.

(** The store and the locks, which are held to the end (that of the names only where there is no
    workspace), and the record.
    @src cdenv-cli/src/credentials.rs:504-538 mutate_credentials *)
Definition open_permission (name : WorkspaceName) : storing (InstallationId * option PermissionRecord * PermissionRecord) :=
  do? _ := private_metadata root true else raise in
  do? installation := open_or_create (sh_sha256 host) user umask root (sh_installation_key host) (sh_installation_id host)
    or (fun _ => Credential_Installation) in
  let installation := ir_installation_id (in_record installation) in
  do? _ := prepare_store else raise in
  do? _ := namespace_guard else raise in
  do? _ := workspace_guard name else raise in
  do? _ := policy_guard else raise in
  do? (previous, record) := load_or_stage installation name else raise in
  done (installation, previous, record).

(** @src cdenv-cli/src/credentials.rs:497-591 mutate_credentials *)
Definition mutate_credentials (command : CredentialsCommand) : storing CredentialStatusReport :=
  if match command with Command_Status _ _ => true | _ => false end then inspect_status (command_name command) else
  do? (installation, previous, record) := open_permission (command_name command) else raise in
  do? _ := apply_command installation command previous record else raise in
  inspect_status (command_name command).

(** @src cdenv-cli/src/credentials.rs:677-708 bind_created_workspace *)
Definition bind_workspace (state : WorkspaceState) (explicit_name : bool) : storing unit :=
  do? found := load_record (ws_name state) else raise in
  match found with
  | None => done tt
  | Some _ =>
      do? _ := policy_guard else raise in
      do? found := load_record (ws_name state) else raise in
      match found with
      | None => done tt
      | Some record =>
          do? _ := lift (validate_scope record (ws_installation_id state) (ws_name state)) else raise in
          if grants_is_empty (pr_grants record) then done tt else
          if negb explicit_name then raise Credential_ExplicitNameRequired else
          match pr_binding record with
          | Binding_Bound _ =>
              do? same := bound_matches record state else raise in
              if same : bool then done tt else raise Credential_Binding
          | Binding_Staged =>
              do? receipt := ensure_receipt state else raise in
              do? _ := persist_change (with_binding record (Binding_Bound receipt)) (Some record) else raise in
              done tt
          end
      end
  end.

(** [Path::new(home) == Path::new("/")] for an absolute path: no component but [.].
    @src cdenv-cli/src/credentials.rs:729-729 credential_supervisor_lease *)
Definition is_root_path (home : str) : bool :=
  forallb (fun part => str_eqb part [] || str_eqb part ($".")) (split 47 home).

(** [Path::join] with a relative path.
    @src cdenv-cli/src/credentials.rs:735-735 credential_supervisor_lease *)
Definition path_join (base relative : str) : str := if ends_with ($"/") base then base ++ relative else base ++ $"/" ++ relative.

(** @src cdenv-cli/src/credentials.rs:715-743 credential_supervisor_lease *)
Definition credential_supervisor_lease (state : WorkspaceState) (lease_user : CredentialUserIdentity) (home : str) (generation : GenerationId) :
    storing (option SupervisorCredentialLease) :=
  do? found := load_record (ws_name state) else raise in
  match found with
  | None => done None
  | Some record =>
      do? _ := lift (validate_scope record (ws_installation_id state) (ws_name state)) else raise in
      if grants_is_empty (pr_grants record) then done None else
      do? same := bound_matches record state else raise in
      if negb same || negb (starts_with ($"/") home) || is_root_path home then raise Credential_Binding else
      match pr_binding record with
      | Binding_Staged => raise Credential_Binding
      | Binding_Bound receipt =>
          done (Some (mkSupervisorLease (br_nonce receipt) lease_user (pr_revision record) (pr_grants record)
            (path_join (path_join home ($".cdenv/credentials")) (to_string (generation_get generation)))))
      end
  end.

(** ** Reasoning *)

(** From [d] the code ends in [Q]; the script of the operating system stays, its clock moves on. *)
Definition ends {E X} (m : disk_io (list N) E X) (d : FileTree.Disk (list N)) (Q : FileTree.Disk (list N) -> result E X -> Prop) : Prop :=
  let '(d', _, r) := m d in script d' = script d /\ (ticks d <= ticks d')%nat /\ Q d' r.

Lemma ends_post {E X} (m : disk_io (list N) E X) d (Q : _ -> result E X -> Prop) :
  post m (tree d) (fun t' r _ => Q t' r) -> ends m d (fun d' r => Q (tree d') r).
Proof. intros Hm. specialize (Hm d eq_refl). unfold ends. by destruct (m d) as [[d' l] r]. Qed.

Lemma ends_impl {E X} (m : disk_io (list N) E X) d (Q Q' : _ -> result E X -> Prop) :
  ends m d Q -> (forall d' r, script d' = script d -> (ticks d <= ticks d')%nat -> Q d' r -> Q' d' r) -> ends m d Q'.
Proof. unfold ends. destruct (m d) as [[d' l] r]. naive_solver. Qed.

Lemma ends_eq {E X} (m : disk_io (list N) E X) d (Q : _ -> result E X -> Prop) :
  ends m d Q -> ends m d (fun d' r => Q d' r /\ exists l, m d = (d', l, r)).
Proof. unfold ends. destruct (m d) as [[d' l] r]. intros (Hs & Ht & Hq). eauto 6. Qed.

Lemma ends_done {E X} (x : X) d (Q : _ -> result E X -> Prop) : Q d (Ok x) -> ends (done x) d Q.
Proof. by intros Hq. Qed.
Lemma ends_raise {E X} (e : E) d (Q : _ -> result E X -> Prop) : Q d (Err e) -> ends (raise e) d Q.
Proof. by intros Hq. Qed.

Lemma ends_handle {E F X Y} (m : disk_io (list N) E X) (h : E -> disk_io (list N) F Y) k d (Q : _ -> result F Y -> Prop) :
  ends m d (fun d' r => match r with Ok x => ends (k x) d' Q | Err e => ends (h e) d' Q end) -> ends (handle m h k) d Q.
Proof.
  unfold ends, handle. destruct (m d) as [[d1 l1] [x|e]]; intros (Hs & Ht & Hq).
  - destruct (k x d1) as [[d2 l2] r2]. destruct Hq as (Hs2 & Ht2 & Hq). split_and!; [congruence|lia|done].
  - destruct (h e d1) as [[d2 l2] r2]. destruct Hq as (Hs2 & Ht2 & Hq). split_and!; [congruence|lia|done].
Qed.

(** The common case: a step with a known effect on the tree; what follows a failure changes nothing. *)
Lemma ends_step {E F X Y} (m : disk_io (list N) E X) (f : E -> F) (k : X -> disk_io (list N) F Y) d (P : _ -> result E X -> Prop) (Q : _ -> result F Y -> Prop) :
  post m (tree d) (fun t' r _ => P t' r) ->
  (forall d' x, script d' = script d -> (ticks d <= ticks d')%nat -> P (tree d') (Ok x) -> ends (k x) d' Q) ->
  (forall d' e, script d' = script d -> (ticks d <= ticks d')%nat -> P (tree d') (Err e) -> Q d' (Err (f e))) ->
  ends (handle m (fun e => raise (f e)) k) d Q.
Proof.
  intros Hm Hk Hf. apply ends_handle. eapply ends_impl; [by apply ends_post|].
  intros d' [x|e] Hs Ht HP; [by apply Hk|]. apply ends_raise. by apply Hf.
Qed.

Lemma post_step {E F X Y} (m : disk_io (list N) E X) (f : E -> F) (k : X -> disk_io (list N) F Y) t (P : _ -> result E X -> Prop) (Q : _ -> result F Y -> Prop) :
  post m t (fun t' r _ => P t' r) ->
  (forall t' x, P t' (Ok x) -> post (k x) t' (fun t2 r _ => Q t2 r)) ->
  (forall t' e, P t' (Err e) -> Q t' (Err (f e))) ->
  post (handle m (fun e => raise (f e)) k) t (fun t' r _ => Q t' r).
Proof.
  intros Hm Hk Hf. apply post_handle. eapply post_impl; [exact Hm|]. intros t' [x|e] n HP; cbn beta iota.
  - by apply Hk.
  - apply post_raise. by apply Hf.
Qed.

Implicit Types (t : gmap Path (Entry (list N))) (name : WorkspaceName).

Lemma post_lift {E X} (r : result E X) t (Q : _ -> result E X -> Prop) : Q t r -> post (lift r) t (fun t' r _ => Q t' r).
Proof. destruct r; intros Hq; [by apply post_done|by apply post_raise]. Qed.

(** The path or a directory above it does not exist. *)
Definition missing_path t (p : Path) : Prop := exists q, q `suffix_of` p /\ t !! q = None.

(** A private object: of the user, with the mode that is asked for. *)
Definition private_object t (p : Path) (kind : FileKind) (content : list N) : Prop :=
  exists e, t !! p = Some e /\ e_kind e = kind /\ e_uid e = user /\ e_content e = content.

Lemma stat_spec p t :
  post (stat p) t (fun t' r _ => t' = t /\ match r with
    | Ok md => t !! p = Some (md_entry md) /\ exists n, md_id md = sh_identity host n p /\ md_links md = sh_links host n p
    | Err Io_NotFound => t !! p = None
    | Err _ => True
    end).
Proof.
  unfold stat. apply (post_observe ticks). intros n. apply post_handle. unfold symlink_metadata. disk; split_and!; try done.
  by exists n.
Qed.

Lemma scan_ancestors_spec l missing t :
  post (scan_ancestors l missing) t (fun t' r _ => t' = t
    /\ (r = Ok true -> missing = true \/ exists q, q ∈ l /\ t !! q = None)).
Proof.
  revert missing t. induction l as [|q l IH]; intros missing t; cbn [scan_ancestors].
  - apply post_done. split; [done|]. intros [= ->]. by left.
  - apply post_handle. eapply post_impl; [apply stat_spec|]. intros t' [md|e] n [-> Hr]; cbn beta iota.
    + case_bool_decide; [|by apply post_raise]. eapply post_impl; [apply IH|]. intros t2 r _ [-> Hmiss]. split; [done|].
      intros [?|(q' & ? & ?)]%Hmiss; [by left|right]. exists q'. split; [by constructor|done].
    + destruct e; try by apply post_raise. eapply post_impl; [apply IH|]. intros t2 r _ [-> Hmiss]. split; [done|].
      intros _. right. exists q. split; [by constructor|done].
Qed.

Lemma ancestors_drop p q : q ∈ drop 1 (ancestors p) -> q `suffix_of` p.
Proof. intros Hq. apply ancestors_below. rewrite <- (take_drop 1 (ancestors p)). apply elem_of_app. by right. Qed.

Lemma private_metadata_spec p directory t :
  post (private_metadata p directory) t (fun t' r _ => t' = t /\ match r with
    | Ok (Some md) =>
        t !! p = Some (md_entry md) /\ e_uid (md_entry md) = user
        /\ e_kind (md_entry md) = (if directory then Kind_Directory else Kind_File) /\ exists n, md_id md = sh_identity host n p
    | Ok None => missing_path t p
    | Err _ => True
    end).
Proof.
  unfold private_metadata. apply (post_step _ _ _ _ (fun t' r => t' = t /\ (r = Ok true -> exists q, q `suffix_of` p /\ t !! q = None))).
  { eapply post_impl; [apply scan_ancestors_spec|]. intros t' r _ [-> Hr]. split; [done|].
    intros [?|(q & Hq%ancestors_drop & ?)]%Hr; [done|by exists q]. }
  2:{ by intros t' e [-> _]. }
  intros t' missing [-> Hm]. destruct missing; [apply post_done; split; [done|by apply Hm]|].
  apply post_handle. eapply post_impl; [apply stat_spec|]. intros t' [md|e] _ [-> Hr]; cbn beta iota.
  - destruct Hr as (He & n & Hid & _). unfold unsafe_metadata. destruct (bool_decide _ || _ || _ || _ || _) eqn:Hu; [by apply post_raise|].
    apply post_done. split; [done|]. prop_of_bool. split_and!; [done..| |by exists n].
    destruct directory; cbn in *; repeat match goal with Hx : _ \/ _ |- _ => destruct Hx end; prop_of_bool; done.
  - destruct e; try by apply post_raise. apply post_done. split; [done|]. by exists p.
Qed.

Lemma private_present_spec p directory t :
  post (private_present p directory) t (fun t' r _ => t' = t /\ match r with
    | Ok true => exists content, private_object t p (if directory then Kind_Directory else Kind_File) content
    | Ok false => missing_path t p
    | Err _ => True
    end).
Proof.
  unfold private_present. eapply post_step; [apply private_metadata_spec| |by intros t' e [-> _]].
  intros t' [md|] [-> Hr]; apply post_done; cbn; (split; [done|]); [|done].
  destruct Hr as (He & Hu & Hk & _). by exists (e_content (md_entry md)), (md_entry md).
Qed.

Lemma open_nofollow_spec p t :
  post (open_nofollow p) t (fun t' r _ => t' = t /\ forall c id, r = Ok (c, id) -> exists e, t !! p = Some e /\ e_content e = c).
Proof.
  unfold open_nofollow. apply (post_observe ticks). intros n. apply post_call; intros step; cbn beta iota; [done|].
  destruct (t !! p) as [e|]; cbn; [|done]. case_bool_decide; cbn; (split; [done|]); [|done]. intros c id [= <- _]. by exists e.
Qed.

Lemma on_handle_spec {X} (x : X) t : post (on_handle x) t (fun t' r _ => t' = t /\ forall y, r = Ok y -> y = x).
Proof. unfold on_handle. disk; split; try done. by intros y [= ->]. Qed.

(** The file holds a value. *)
Definition holds_value {T} (from_slice : list N -> option T) t (p : Path) (value : T) : Prop :=
  exists content, private_object t p Kind_File content /\ from_slice content = Some value.

Lemma read_private_spec {T} (from_slice : list N -> option T) p t :
  post (read_private from_slice p) t (fun t' r _ => t' = t /\ match r with
    | Ok (Some value) => holds_value from_slice t p value
    | Ok None => missing_path t p
    | Err _ => True
    end).
Proof.
  clear Url_parse. unfold read_private. eapply post_step; [apply private_metadata_spec| |by intros t' e [-> _]].
  intros t' [md|] [-> Hr]; [|by apply post_done]. destruct Hr as (He & Hu & Hk & _).
  eapply post_step; [apply open_nofollow_spec| |by intros t' e [-> _]]. intros t' [content id] [-> Hc].
  destruct (Hc content id eq_refl) as (e & He' & Hcontent). assert (e = md_entry md) as -> by congruence.
  eapply post_step; [apply on_handle_spec| |by intros t' e [-> _]]. intros t' opened [-> _].
  case_bool_decide; cbn [negb]; [|by apply post_raise].
  eapply (post_step _ _ _ _ (fun t' r => t' = t /\ forall bytes, r = Ok bytes -> bytes = content)); [| |by intros t' e [-> _]].
  - unfold read_bounded. eapply post_step; [apply on_handle_spec| |by intros t' e [-> _]]. intros t' bytes [-> Hb].
    specialize (Hb bytes eq_refl) as ->. destruct (N.ltb_spec MAX_PERMISSION_BYTES (lenN (take (N.to_nat (MAX_PERMISSION_BYTES + 1)) content))) as [Hlt|Hle];
      [by apply post_raise|]. apply post_done. split; [done|]. intros bytes [= <-]. apply take_ge.
    unfold lenN in Hle. rewrite length_take in Hle. lia.
  - intros t' bytes [-> Hb]. specialize (Hb bytes eq_refl) as ->. destruct (from_slice content) eqn:Hf; [|by apply post_raise].
    apply post_done. split; [done|]. exists content. split; [|done]. by exists (md_entry md).
Qed.

(** The permission of a name, as the store reads it. *)
Definition recorded t name (record : PermissionRecord) : Prop :=
  holds_value permission_from_slice t (credential_permission_file root name) record
  /\ pr_schema_version record = CREDENTIAL_PERMISSION_SCHEMA /\ pr_revision record <> 0
  /\ is_ok (validate_grants (pr_grants record)) = true.
Definition loaded_permission t name (previous : option PermissionRecord) : Prop :=
  match previous with
  | Some record => recorded t name record
  | None => missing_path t (credential_permission_file root name)
  end.

Lemma missing_below t (p q : Path) : missing_path t p -> p `suffix_of` q -> missing_path t q.
Proof. intros (x & Hx & Hn) Hq. exists x. split; [by etrans|done]. Qed.

Lemma load_record_spec name t :
  post (load_record name) t (fun t' r _ => t' = t /\ forall previous, r = Ok previous -> loaded_permission t name previous
    /\ forall record, previous = Some record -> exists n, pr_installation_root record = sh_identity host n root).
Proof.
  assert (Hroot : root `suffix_of` credential_permission_file root name) by (do 2 apply suffix_cons_r; done).
  unfold load_record. eapply post_step; [apply private_present_spec| |by intros t' e [-> _]].
  intros t' [] [-> Hp]; cbn [negb]; [clear Hp|apply post_done; split; [done|]; intros previous [= <-]; split; [by eapply missing_below|done]].
  eapply post_step; [apply private_present_spec| |by intros t' e [-> _]].
  intros t' [] [-> Hp]; cbn [negb]; [clear Hp|apply post_done; split; [done|]; intros previous [= <-]; split; [|done]].
  2:{ eapply missing_below; [done|]. by apply suffix_cons_r. }
  eapply post_step; [apply read_private_spec| |by intros t' e [-> _]].
  intros t' [record|] [-> Hr]; [|apply post_done; split; [done|]; intros previous [= <-]; by split].
  destruct (negb _ || _) eqn:Hbad; [by apply post_raise|]. apply orb_false_iff in Hbad as [Hs%negb_false_iff%N.eqb_eq Hv%N.eqb_neq].
  eapply (post_step _ _ _ _ (fun t' r => t' = t /\ r = validate_grants (pr_grants record))); [by apply post_lift| |by intros t' e [-> _]].
  intros t' u [-> Hg]. eapply post_step; [apply private_metadata_spec| |by intros t' e [-> _]].
  intros t' [md|] [-> Hmd]; [|by apply post_raise]. case_bool_decide as Hid; cbn [negb]; [|by apply post_raise].
  apply post_done. split; [done|]. intros previous [= <-]. split; [split_and!; [done..|by rewrite <- Hg]|].
  intros r [= <-]. destruct Hmd as (_ & _ & _ & n & Hn). exists n. congruence.
Qed.

Lemma receipt_matches_spec receipt directory state t :
  post (receipt_matches receipt directory state) t (fun t' r _ => t' = t
    /\ (r = Ok true -> exists n, receipt_describes receipt (sh_identity host n directory) state = true)).
Proof.
  unfold receipt_matches. eapply post_step; [apply private_metadata_spec| |by intros t' e [-> _]].
  intros t' [md|] [-> Hr]; [|by apply post_raise]. apply post_done. split; [done|]. intros [= Hd].
  destruct Hr as (_ & _ & _ & n & Hn). exists n. by rewrite <- Hn.
Qed.

(** The receipt in the directory of the workspace is that of the record, and describes the workspace and
    the directory as the operating system reported it. *)
Definition bound_to t (record : PermissionRecord) (receipt : BindingReceipt) (state : WorkspaceState) : Prop :=
  pr_binding record = Binding_Bound receipt
  /\ holds_value receipt_from_slice t (credential_binding_file root (ws_name state)) receipt
  /\ exists n, receipt_describes receipt (sh_identity host n (workspace_root root (ws_name state))) state = true.

Lemma bound_matches_spec record state t :
  post (bound_matches record state) t (fun t' r _ => t' = t /\ (r = Ok true -> exists receipt, bound_to t record receipt state)).
Proof.
  unfold bound_matches, bound_to. destruct (pr_binding record) as [|receipt]; [by apply post_done|].
  eapply post_step; [apply receipt_matches_spec| |by intros t' e [-> _]]. intros t' [] [-> Hr]; cbn [negb]; [|by apply post_done].
  eapply post_step; [apply read_private_spec| |by intros t' e [-> _]]. intros t' found [-> Hf]. apply post_done. split; [done|].
  intros [= Hb%bool_decide_eq_true]. subst found. exists receipt. split_and!; auto.
Qed.

Lemma load_state_reads p t : post (load_state user p) t (fun t' _ _ => t' = t).
Proof.
  unfold load_state. apply post_handle. eapply post_impl; [apply inspect_spec|]. intros t' [[]|e] n (-> & _); cbn beta iota; try by apply post_raise.
  unfold read_file. apply post_handle. disk; try done. case_bool_decide; disk; done.
Qed.

Lemma load_existing_spec name installation t :
  post (load_existing_workspace name installation) t (fun t' r _ => t' = t
    /\ forall state, r = Ok (Some state) -> ws_name state = name /\ ws_installation_id state = installation).
Proof.
  unfold load_existing_workspace. eapply post_step; [apply private_present_spec| |by intros t' e [-> _]].
  intros t' [] [-> _]; cbn [negb]; [|by apply post_done].
  eapply post_step; [apply private_present_spec| |by intros t' e [-> _]].
  intros t' [] [-> _]; cbn [negb]; [|by apply post_done].
  eapply post_step; [apply private_present_spec| |by intros t' e [-> _]].
  intros t' [] [-> _]; cbn [negb]; [|by apply post_raise].
  eapply (post_step _ _ _ _ (fun t' _ => t' = t)); [apply load_state_reads| |by intros t' e ->].
  intros t' loaded ->. destruct (_ || _ || _) eqn:Hbad; [by apply post_raise|]. apply post_done. split; [done|].
  intros state [= <-]. prop_of_bool. by split.
Qed.

(** Code that leaves the tree as it is. *)
Definition reads {E X} (m : disk_io (list N) E X) : Prop := forall t, post m t (fun t' _ _ => t' = t).

Lemma reads_done {E X} (x : X) : reads (E := E) (done x).
Proof. intros t. by apply post_done. Qed.
Lemma reads_raise {E X} (e : E) : reads (X := X) (raise e).
Proof. intros t. by apply post_raise. Qed.
Lemma reads_lift {E X} (r : result E X) : reads (lift r).
Proof. intros t. by apply (post_lift _ _ (fun t' _ => t' = t)). Qed.
Lemma reads_handle {E F X Y} (m : disk_io (list N) E X) (h : E -> disk_io (list N) F Y) k :
  reads m -> (forall e, reads (h e)) -> (forall x, reads (k x)) -> reads (handle m h k).
Proof. intros Hm Hh Hk t. apply post_handle. eapply post_impl; [apply Hm|]. intros t' [x|e] n ->; [apply Hk|apply Hh]. Qed.
Lemma reads_spec {E X} (m : disk_io (list N) E X) (Q : _ -> _ -> result E X -> nat -> Prop) :
  (forall t, post m t (fun t' r n => t' = t /\ Q t t' r n)) -> reads m.
Proof. intros Hm t. eapply post_impl; [apply Hm|]. by intros t' r n [-> _]. Qed.

Lemma reads_private_present p directory : reads (private_present p directory).
Proof. apply (reads_spec _ _ (fun t => private_present_spec p directory t)). Qed.
Lemma reads_private_metadata p directory : reads (private_metadata p directory).
Proof. apply (reads_spec _ _ (fun t => private_metadata_spec p directory t)). Qed.
Lemma reads_read_private {T} (from_slice : list N -> option T) p : reads (read_private from_slice p).
Proof. apply (reads_spec _ _ (fun t => read_private_spec from_slice p t)). Qed.
Lemma reads_load_record name : reads (load_record name).
Proof. apply (reads_spec _ _ (fun t => load_record_spec name t)). Qed.
Lemma reads_receipt_matches receipt directory state : reads (receipt_matches receipt directory state).
Proof. apply (reads_spec _ _ (fun t => receipt_matches_spec receipt directory state t)). Qed.
Lemma reads_bound_matches record state : reads (bound_matches record state).
Proof. apply (reads_spec _ _ (fun t => bound_matches_spec record state t)). Qed.
Lemma reads_load_existing name installation : reads (load_existing_workspace name installation).
Proof. apply (reads_spec _ _ (fun t => load_existing_spec name installation t)). Qed.
Lemma reads_stat p : reads (stat p).
Proof. apply (reads_spec _ _ (fun t => stat_spec p t)). Qed.
Lemma reads_inspect p kind : reads (inspect user p kind).
Proof. apply (reads_spec _ _ (fun t => inspect_spec user p kind t)). Qed.
Lemma reads_acquire p mode behavior : reads (acquire_lock user p mode behavior).
Proof. apply (reads_spec _ _ (fun t => acquire_lock_spec user p mode behavior t)). Qed.
Lemma reads_system_call {X : Type} (f : OsStep (list N) -> _ -> result IoError X) : reads (system_call untouched (fun step t => (t, f step t))).
Proof. intros t. by apply post_call. Qed.

Create HintDb disk_reads.
#[local] Hint Resolve reads_done reads_raise reads_lift reads_private_present reads_private_metadata reads_read_private
  reads_load_record reads_receipt_matches reads_bound_matches reads_load_existing reads_stat reads_inspect
  reads_acquire reads_system_call : disk_reads.

(** The rules of [reads], branch by branch. *)
Local Ltac reading :=
  repeat first
    [ solve [auto with disk_reads]
    | apply reads_handle; intros
    | match goal with |- reads (match ?x with _ => _ end) => destruct x end ].

Lemma reads_private_socket p : reads (private_socket_metadata p).
Proof. unfold private_socket_metadata. reading. Qed.
Lemma reads_supervisor_file p : reads (load_supervisor_file p).
Proof. unfold load_supervisor_file, symlink_metadata, read_file. reading. Qed.
Lemma reads_installation : reads (load_record_read_only user root).
Proof. unfold load_record_read_only, read_managed_file, read_file. reading. Qed.
#[local] Hint Resolve reads_private_socket reads_supervisor_file reads_installation : disk_reads.

Lemma reads_confirm name : reads (confirm_no_live_supervisor name).
Proof. unfold confirm_no_live_supervisor, verify_no_supervisor, path_absent. cbn [each]. reading. Qed.
#[local] Hint Resolve reads_confirm : disk_reads.
Lemma reads_reconcile record revoking : reads (reconcile_running_generation record revoking).
Proof. unfold reconcile_running_generation, reconcile_with_supervisor. reading. Qed.
Lemma reads_live_facts record permission : reads (inspect_live_facts record permission).
Proof. unfold inspect_live_facts, live_at_revision. reading. Qed.
Lemma reads_inspect_binding record installation name : reads (inspect_binding record installation name).
Proof. unfold inspect_binding, inspect_staged_binding. reading. Qed.
Lemma reads_validate_mutation record state command : reads (validate_mutation_binding record state command).
Proof. unfold validate_mutation_binding. reading. Qed.
Lemma reads_workspace_guard name : reads (workspace_guard name).
Proof. unfold workspace_guard. reading. Qed.
Lemma reads_policy_guard : reads policy_guard.
Proof. unfold policy_guard. reading. Qed.
#[local] Hint Resolve reads_reconcile reads_live_facts reads_inspect_binding reads_validate_mutation reads_workspace_guard reads_policy_guard : disk_reads.

(** The record that a report shows. *)
Definition reports (report : CredentialStatusReport) (previous : option PermissionRecord) : Prop :=
  rp_revision report = pr_revision <$> previous
  /\ rp_grants report = match previous with Some record => pr_grants record | None => default_grants end.

Lemma inspect_status_spec name t :
  post (inspect_status name) t (fun t' r _ => t' = t
    /\ forall report, r = Ok report -> exists previous, loaded_permission t name previous /\ reports report previous
         /\ forall record, previous = Some record -> pr_workspace record = name).
Proof.
  unfold inspect_status. eapply post_step; [apply load_record_spec| |by intros t' e [-> _]].
  intros t' found [-> Hl]. destruct (Hl found eq_refl) as [Hload _]. destruct found as [record|].
  2:{ apply post_done. split; [done|]. intros report [= <-]. by exists None. }
  eapply post_step; [apply reads_installation| |by intros t' e ->]. intros t' installation ->.
  eapply (post_step _ _ _ _ (fun t' r => t' = t /\ r = validate_scope record (ir_installation_id installation) name)); [by apply post_lift| |by intros t' e [-> _]].
  intros t' u [-> Hs]. eapply post_step; [apply reads_inspect_binding| |by intros t' e ->]. intros t' permission ->.
  apply post_handle. eapply post_impl; [apply reads_live_facts|]. intros t' [[[transport backend] live]|[]] n ->; cbn beta iota.
  apply post_done. split; [done|]. intros report [= <-]. exists (Some record). split_and!; [done..|].
  intros r [= <-]. unfold validate_scope in Hs. destruct (_ || _) eqn:Hb; [done|]. by prop_of_bool.
Qed.

Lemma reads_credential_status name : reads (credential_status name).
Proof. unfold credential_status. apply reads_handle; [|intros; auto with disk_reads..]. apply (reads_spec _ _ (fun t => inspect_status_spec name t)). Qed.
#[local] Hint Resolve reads_credential_status : disk_reads.

(** Looking at permissions changes nothing. *)
Theorem reports_read_only : reads credential_reports.
Proof.
  assert (Hnames : forall file_names names, reads (permission_names file_names names)).
  { induction file_names as [|f l IH]; intros names; cbn [permission_names]; unfold next_entry; reading; apply IH. }
  assert (Heach : forall names, reads (status_of_each names)).
  { induction names as [|name l IH]; cbn [status_of_each]; reading; apply IH. }
  unfold credential_reports, read_dir. reading; first [apply Hnames|apply Heach].
Qed.

(** ** Writes *)

Definition unchanged t t' (q : Path) : Prop := t' !! q = t !! q.
(** Outside [W] the objects stay; nothing is removed. *)
Definition frame (W : Path -> Prop) t t' : Prop :=
  (forall q, ~ W q -> unchanged t t' q) /\ forall q, is_Some (t !! q) -> is_Some (t' !! q).
(** The places that the replacement of a file writes: the file and its temporary names. *)
Definition file_or_temporary (dir : Path) (filename : list N) (q : Path) : Prop :=
  q = filename :: dir \/ exists random, q = temporary_name filename random :: dir.

Lemma unchanged_refl t q : unchanged t t q.
Proof. done. Qed.
Lemma unchanged_trans t1 t2 t3 q : unchanged t1 t2 q -> unchanged t2 t3 q -> unchanged t1 t3 q.
Proof. unfold unchanged. congruence. Qed.
Lemma frame_refl W t : frame W t t.
Proof. split; [|done]. intros q _. apply unchanged_refl. Qed.
Lemma frame_trans W t1 t2 t3 : frame W t1 t2 -> frame W t2 t3 -> frame W t1 t3.
Proof.
  intros [H12 He12] [H23 He23]. split; [|auto]. intros q Hq. eapply unchanged_trans; [by apply H12|by apply H23].
Qed.
Lemma frame_weaken (W W' : Path -> Prop) t t' : frame W t t' -> (forall q, W q -> W' q) -> frame W' t t'.
Proof. intros [Hf He] Hw. split; [|done]. intros q Hq. apply Hf. auto. Qed.

(** Code that writes in [W] only. *)
Definition writes {E X} (W : Path -> Prop) (m : disk_io (list N) E X) : Prop := forall t, post m t (fun t' _ _ => frame W t t').

Lemma writes_reads {E X} W (m : disk_io (list N) E X) : reads m -> writes W m.
Proof. intros Hm t. eapply post_impl; [apply Hm|]. intros t' r n ->. apply frame_refl. Qed.
Lemma writes_weaken {E X} (W W' : Path -> Prop) (m : disk_io (list N) E X) : writes W m -> (forall q, W q -> W' q) -> writes W' m.
Proof. intros Hm Hw t. eapply post_impl; [apply Hm|]. intros t' r n Hf. exact (frame_weaken _ _ _ _ Hf Hw). Qed.
Lemma writes_handle {E F X Y} W (m : disk_io (list N) E X) (h : E -> disk_io (list N) F Y) k :
  writes W m -> (forall e, writes W (h e)) -> (forall x, writes W (k x)) -> writes W (handle m h k).
Proof.
  intros Hm Hh Hk t. apply post_handle. eapply post_impl; [apply Hm|]. intros t' [x|e] n Hf; cbn beta iota.
  - eapply post_impl; [apply Hk|]. intros t2 r n2 Hf2. exact (frame_trans _ _ _ _ Hf Hf2).
  - eapply post_impl; [apply Hh|]. intros t2 r n2 Hf2. exact (frame_trans _ _ _ _ Hf Hf2).
Qed.

Lemma writes_managed dir filename content mode : writes (file_or_temporary dir filename) (write_managed user umask [] dir filename content mode).
Proof.
  intros t. eapply post_impl; [apply write_managed_spec|]. cbn beta zeta. intros t' r n Hr.
  assert (Hins : forall p e, file_or_temporary dir filename p -> frame (file_or_temporary dir filename) t (<[p := e]> t)).
  { intros p e Hp. split; [|intros q Hq; destruct (decide (p = q)) as [->|]; [by rewrite lookup_insert_eq|by rewrite lookup_insert_ne]].
    intros q Hq. apply lookup_insert_ne. by intros <-. }
  assert (Hnew : forall e, frame (file_or_temporary dir filename) t (<[filename :: dir := e]> t)) by (intros e; apply Hins; by left).
  destruct r as [[]|e]; [by subst t'|]. destruct Hr as [->|[->|(random & e1 & _ & ->)]]; [apply frame_refl|done|].
  apply Hins. right. by exists random.
Qed.

Lemma ensured_frame kind p t t' : ensured user [] kind p t t' -> frame (eq p) t t'.
Proof.
  intros [Hne Hp]. split; [intros q Hq; apply Hne; congruence|]. intros q Hq.
  destruct (decide (q = p)) as [->|Hqp]; [|by rewrite Hne]. destruct (t !! p) as [e|]; [destruct Hp as [m ->]|by destruct Hq]. done.
Qed.
Lemma writes_directory p : writes (eq p) (ensure_private_directory user umask [] p).
Proof. intros t. eapply post_impl; [apply ensure_private_directory_spec|]. intros t' r n [He _]. by eapply ensured_frame. Qed.
Lemma writes_lock_file p : writes (eq p) (ensure_lock_file user umask [] p).
Proof. intros t. eapply post_impl; [apply ensure_lock_file_spec|]. intros t' r n [He _]. by eapply ensured_frame. Qed.
Lemma writes_tighten p : writes (eq p) (tighten_managed_file user p PrivateFile).
Proof.
  intros t. eapply post_impl; [apply (file_tightened user [] p t), ensured_refl|]. intros t' r n [He _]. by eapply ensured_frame.
Qed.

(** What a command may write, the permission file apart. *)
Definition around_permission name (q : Path) : Prop :=
  q = root \/ file_or_temporary root installation_name q \/ file_or_temporary root key_name q
  \/ q = credential_permissions_dir root \/ q = credential_permissions_lock root
  \/ q = workspaces_dir root \/ q = workspace_namespace_lock root
  \/ file_or_temporary (workspace_root root name) binding_name q.

Local Ltac writing :=
  repeat first
    [ solve [apply writes_reads; reading]
    | solve [eapply writes_weaken; [first [apply writes_managed|apply writes_directory|apply writes_lock_file|apply writes_tighten]|unfold around_permission, file_or_temporary, installation_file, fingerprint_key; naive_solver]]
    | apply writes_handle; intros
    | match goal with |- writes _ (match ?x with _ => _ end) => destruct x end ].

Lemma writes_installation name :
  writes (around_permission name) (open_or_create (sh_sha256 host) user umask root (sh_installation_key host) (sh_installation_id host)).
Proof.
  unfold open_or_create, create_installation, load_installation, write_record, read_managed_file, read_file.
  writing.
Qed.
Lemma writes_prepare name : writes (around_permission name) prepare_store.
Proof. unfold prepare_store. writing. Qed.
Lemma writes_namespace name : writes (around_permission name) namespace_guard.
Proof. unfold namespace_guard. writing. Qed.
Lemma writes_receipt state : writes (file_or_temporary (workspace_root root (ws_name state)) binding_name) (ensure_receipt state).
Proof. unfold ensure_receipt, persist_private. writing. Qed.
Lemma writes_change record previous :
  writes (file_or_temporary (credential_permissions_dir root) (permission_name (pr_workspace record))) (persist_change record previous).
Proof. unfold persist_change, persist_private. writing. Qed.

(** ** Places *)

Lemma written_length dir filename q : file_or_temporary dir filename q -> length q = S (length dir).
Proof. by intros [->|[random ->]]. Qed.

Lemma permission_not_around name name' : ~ around_permission name (credential_permission_file root name').
Proof.
  assert (Hl : length (credential_permission_file root name') = S (S (length root))) by done.
  unfold around_permission. intros [Hq|[Hq|[Hq|[Hq|[Hq|[Hq|[Hq|Hq]]]]]]].
  all: try (apply (f_equal length) in Hq; rewrite Hl in Hq; cbn in Hq; lia).
  all: try (apply written_length in Hq; rewrite Hl in Hq; cbn in Hq; lia).
  - injection Hq as Hq. apply (f_equal last) in Hq. unfold permission_name in Hq. by rewrite last_app in Hq.
  - injection Hq as Hq. done.
Qed.

Lemma binding_elsewhere name name' :
  ~ file_or_temporary (credential_permissions_dir root) (permission_name name') (credential_binding_file root name).
Proof. intros Hq%written_length. cbn in Hq. lia. Qed.

(** The temporary names of a permission file are not the permission file of a valid name. *)
Lemma other_permission_elsewhere name name' : name_ok (name_str name) -> name_ok (name_str name') -> name' <> name ->
  ~ file_or_temporary (credential_permissions_dir root) (permission_name name) (credential_permission_file root name').
Proof.
  assert (Hascii : forall n, name_ok (name_str n) -> permission_name n = name_str n ++ $".json" /\ exists c l, name_str n = c :: l /\ c <> 46).
  { intros n (Hlen & Hc & _). unfold permission_name. rewrite encode_utf8_ascii.
    - split; [done|]. destruct (name_str n) as [|c l]; [by destruct Hlen|]. exists c, l. split; [done|].
      apply Forall_cons in Hc as [Hc _]. by intros ->.
    - eapply Forall_impl; [exact Hc|]. intros c Hr%name_char_range. cbn. lia. }
  intros Hn Hn' Hne. destruct (Hascii _ Hn) as [Hp _], (Hascii _ Hn') as (Hp' & c & l & Hcl & Hdot).
  unfold file_or_temporary, credential_permission_file. rewrite Hp, Hp'. intros [Hq|[random Hq]]; injection Hq as Hq.
  - apply app_inv_tail in Hq. apply Hne. destruct name, name'. cbn in Hq. by subst.
  - rewrite Hcl in Hq. cbn in Hq. injection Hq as Hq _. done.
Qed.

(** ** What the writes leave *)

Section laws.
Context `{!PermissionSerdeLaws} (Hnonce : forall nonce, sh_nonce host = Some nonce -> lenN nonce = 32 /\ Forall (fun b => b < 256) nonce).

Lemma persist_private_spec dir filename serialized t :
  post (persist_private dir filename serialized) t (fun t' r _ =>
    frame (file_or_temporary dir filename) t t'
    /\ match r with
       | Ok _ => exists bytes, serialized = Some bytes /\ t' !! (filename :: dir) = Some (replaced user PrivateFile bytes)
       | Err _ => unchanged t t' (filename :: dir)
                  \/ exists bytes, serialized = Some bytes /\ t' !! (filename :: dir) = Some (replaced user PrivateFile bytes)
       end).
Proof.
  unfold persist_private. eapply post_step; [apply reads_private_metadata| |intros t' e ->; split; [apply frame_refl|left; apply unchanged_refl]].
  intros t' _ ->. destruct serialized as [bytes|]; [|apply post_raise; split; [apply frame_refl|left; apply unchanged_refl]].
  destruct (_ <? _); [apply post_raise; split; [apply frame_refl|left; apply unchanged_refl]|].
  assert (Htemp : forall random, temporary_name filename random :: dir <> filename :: dir).
  { intros random [= Ht]. apply (f_equal length) in Ht. unfold temporary_name in Ht. rewrite !length_app in Ht. cbn in Ht. lia. }
  assert (Hall : post (write_managed user umask [] dir filename bytes PrivateFile) t (fun t' r _ =>
    frame (file_or_temporary dir filename) t t' /\
    match r with
    | Ok _ => t' !! (filename :: dir) = Some (replaced user PrivateFile bytes)
    | Err _ => unchanged t t' (filename :: dir) \/ t' !! (filename :: dir) = Some (replaced user PrivateFile bytes)
    end)).
  { intros d Hd. assert (Hw := writes_managed dir filename bytes PrivateFile t d Hd).
    assert (Hs := write_managed_spec user umask [] dir filename bytes PrivateFile t d Hd).
    destruct (write_managed _ _ _ _ _ _ _ d) as [[d' l] r]. destruct Hw as (Hsc & Ht & Hf), Hs as (_ & _ & Hs).
    split_and!; [done..|]. cbn beta zeta in Hs. destruct r as [[]|e].
    - rewrite Hs. apply lookup_insert_eq.
    - destruct Hs as [->|[->|(random & e1 & Hfree & ->)]]; [left; apply unchanged_refl|right; apply lookup_insert_eq|].
      left. apply lookup_insert_ne. by apply Htemp. }
  eapply post_step; [apply Hall| |].
  - intros t' u [Hf Hr]. apply post_done. split; [done|]. by exists bytes.
  - intros t' e [Hf [Hr|Hr]]; (split; [done|]); [by left|right; by exists bytes].
Qed.

Lemma replaced_value {T} (from_slice : list N -> option T) t p bytes v :
  t !! p = Some (replaced user PrivateFile bytes) -> from_slice bytes = Some v -> holds_value from_slice t p v.
Proof. intros He Hv. exists bytes. split; [|done]. by exists (replaced user PrivateFile bytes). Qed.

Lemma holds_same {T} (from_slice : list N -> option T) t t' p v :
  unchanged t t' p -> holds_value from_slice t p v -> holds_value from_slice t' p v.
Proof. unfold holds_value, private_object, unchanged. by intros ->. Qed.

(** A receipt that is there is kept; a new one describes the directory as it is now. *)
Lemma ensure_receipt_spec state t :
  post (ensure_receipt state) t (fun t' r _ => frame (file_or_temporary (workspace_root root (ws_name state)) binding_name) t t'
    /\ forall receipt, r = Ok receipt ->
         holds_value receipt_from_slice t' (credential_binding_file root (ws_name state)) receipt
         /\ exists n, receipt_describes receipt (sh_identity host n (workspace_root root (ws_name state))) state = true).
Proof.
  unfold ensure_receipt. eapply post_step; [apply read_private_spec| |intros t' e [-> _]; split; [apply frame_refl|done]].
  intros t' [receipt|] [-> Hr].
  - eapply post_step; [apply receipt_matches_spec| |intros t' e [-> _]; split; [apply frame_refl|done]].
    intros t' [] [-> Hd]; [|apply post_raise; split; [apply frame_refl|done]]. apply post_done. split; [apply frame_refl|].
    intros receipt' [= <-]. auto.
  - eapply post_step; [apply private_metadata_spec| |intros t' e [-> _]; split; [apply frame_refl|done]].
    intros t' md [-> Hmd]. destruct md as [md|]; [|apply post_raise; split; [apply frame_refl|done]].
    destruct (sh_nonce host) as [nonce|] eqn:Hn; [|apply post_raise; split; [apply frame_refl|done]].
    destruct (Hnonce nonce eq_refl) as [Hlen Hbytes]. set (receipt := mkReceipt _ _ _ _ _ _ _).
    eapply post_step; [apply persist_private_spec| |by intros t' e [Hf _]]. intros t' u [Hf (bytes & Hb & He)].
    apply post_done. split; [done|]. intros receipt' [= <-].
    split; [eapply replaced_value; [exact He|by apply receipt_decodes]|].
    destruct Hmd as (_ & _ & _ & n & Hid). exists n. rewrite <- Hid. unfold receipt_describes, receipt. cbn.
    destruct (hex_encode_spec nonce Hbytes) as [Hl Hhex]. rewrite !bool_decide_eq_true_2, str_eqb_refl by done.
    assert (Hasc : Forall (fun c => c < 128) (hex_encode nonce)).
    { eapply Forall_impl; [exact Hhex|]. intros c Hc. unfold lower_hex, is_ascii_digit, in_range in Hc. cbn. prop_of_bool. destruct Hc; prop_of_bool; lia. }
    rewrite str_len_ascii, encode_utf8_ascii, Hl, Hlen by done. cbn.
    apply forallb_forall. intros c Hc. rewrite Forall_forall in Hhex. apply Hhex. by apply list_elem_of_In.
Qed.

(** ** The end of a live supervisor *)

Lemma ends_call {X : Type} on_failure (f : OsStep (list N) -> _ -> _ * result IoError X) d (Q : _ -> result IoError X -> Prop) :
  (forall t', Q (mkDisk t' (script d) (S (ticks d))) (Err Io_Other)) ->
  (step_fails (script d (ticks d)) = false ->
     let '(t', r) := f (script d (ticks d)) (tree d) in Q (mkDisk t' (script d) (S (ticks d))) r) ->
  ends (system_call on_failure f) d Q.
Proof.
  intros Hf Hk. unfold ends, system_call. destruct (step_fails (script d (ticks d))) eqn:E; [split_and!; [done|cbn; lia|apply Hf]|].
  specialize (Hk eq_refl). destruct (f _ _) as [t' r]. split_and!; [done|cbn; lia|done].
Qed.

(** At some call between two moments nobody held the lock at [p]. *)
Definition lock_granted (p : Path) (d d' : FileTree.Disk (list N)) : Prop :=
  exists n, (ticks d <= n < ticks d')%nat /\ step_fails (script d n) = false /\ step_held (script d n) p = None.

Lemma lock_granted_extend p d d1 d2 d3 : lock_granted p d1 d2 -> script d1 = script d -> (ticks d <= ticks d1)%nat -> (ticks d2 <= ticks d3)%nat ->
  lock_granted p d d3.
Proof. intros (n & Hn & Hf & Hh) Hs Ht Ht'. exists n. rewrite <- Hs. split_and!; [lia|lia|done|done]. Qed.

Lemma acquire_grants p d :
  ends (acquire_lock user p Lock_Exclusive Lock_FailFast) d (fun d' r => tree d' = tree d /\ (r = Ok tt -> lock_granted p d d')).
Proof.
  unfold acquire_lock. apply ends_handle. eapply ends_impl; [apply (ends_post _ _ (fun t' _ => t' = tree d)), reads_inspect|].
  intros d1 [found|e] Hs1 Ht1 Htree1; cbn beta iota; [|by apply ends_raise]. destruct found; [by apply ends_raise|].
  apply ends_handle. eapply ends_impl; [apply (ends_post _ _ (fun t' _ => t' = tree d1)); unfold open_existing; apply reads_system_call|].
  intros d2 [[]|e] Hs2 Ht2 Htree2; cbn beta iota; [|apply ends_raise; split; [congruence|done]].
  apply ends_handle. unfold try_lock, system_call, ends. rewrite Hs2, Hs1.
  destruct (step_fails (script d (ticks d2))) eqn:Hfails; cbn.
  - unfold untouched. split_and!; try done; try lia; congruence.
  - destruct (step_held (script d (ticks d2)) p) as [[]|] eqn:Hheld; cbn; split_and!; try done; try lia; try congruence.
    intros _. exists (ticks d2). cbn. split_and!; [lia|lia|done|done].
Qed.

(** The request with which a command asks the supervisor of a state file for a revision. *)
Definition revision_request (supervisor : SupervisorState) (record : PermissionRecord) : ControlRequest :=
  claim_request (sv_token supervisor) (state_claim supervisor) (Control_Reconcile (pr_revision record) (pr_grants record)).

(** What lets a revocation succeed: no supervisor can run (nothing of it is there, or the lock that it
    holds for life was free), or the one whose state is on disk was sent the revision and the
    grants over its socket, and its answer accepts that revision. *)
Definition acknowledged t name (record : PermissionRecord) (supervisor : SupervisorState) : Prop :=
  (exists entry, t !! supervisor_state_file root name = Some entry /\ supervisor_from_slice (e_content entry) = Some supervisor)
  /\ sv_workspace supervisor = name
  /\ exists answer line response,
       sh_exchange host (supervisor_socket root name) (request_to_vec (revision_request supervisor record) ++ [10]) = Ok answer
       /\ bounded_line answer = Some line /\ response_from_slice line = Some response
       /\ cp_accepted response = true /\ cp_credential_revision response = Some (pr_revision record) /\ is_Some (cp_state response).
Definition no_supervisor name (d d' : FileTree.Disk (list N)) : Prop :=
  missing_path (tree d') (runtime_dir root name)
  \/ (missing_path (tree d') (supervisor_lifetime_lock root name) /\ tree d' !! supervisor_state_file root name = None
      /\ tree d' !! supervisor_socket root name = None)
  \/ ((exists content, private_object (tree d') (supervisor_lifetime_lock root name) Kind_File content)
      /\ lock_granted (supervisor_lifetime_lock root name) d d').
Definition quiet name record (d d' : FileTree.Disk (list N)) : Prop :=
  no_supervisor name d d' \/ exists supervisor, acknowledged (tree d') name record supervisor.

Lemma quiet_extend name record d d1 d2 d3 :
  quiet name record d1 d2 -> script d1 = script d -> (ticks d <= ticks d1)%nat -> (ticks d2 <= ticks d3)%nat ->
  tree d3 = tree d2 -> quiet name record d d3.
Proof.
  intros Hq Hs Ht Ht' Htree. unfold quiet, no_supervisor in *. rewrite Htree.
  destruct Hq as [[Hq|[Hq|[Hlock Hg]]]|Hq]; [left; by left|left; right; by left| |by right].
  left. right. right. split; [done|]. by eapply lock_granted_extend.
Qed.

Lemma path_absent_spec p t : post (path_absent p) t (fun t' r _ => t' = t /\ (r = Ok tt -> t !! p = None)).
Proof.
  unfold path_absent. apply post_handle. eapply post_impl; [apply stat_spec|]. intros t' [md|e] n [-> Hr]; cbn beta iota; [by apply post_raise|].
  destruct e; [by apply post_done|by apply post_raise..].
Qed.

Lemma confirm_spec name record d :
  ends (confirm_no_live_supervisor name) d (fun d' r => tree d' = tree d /\ (r = Ok tt -> quiet name record d d')).
Proof.
  unfold confirm_no_live_supervisor. apply ends_handle.
  eapply (ends_impl _ _ (fun d' r => tree d' = tree d /\ (r = Ok tt -> no_supervisor name d d'))).
  2:{ intros d' [[]|e] Hs Ht [Htree Hq]; [apply ends_done; split; [done|]; intros _; left; by apply Hq|by apply ends_raise]. }
  unfold verify_no_supervisor, no_supervisor.
  eapply ends_step; [apply private_present_spec| |by intros d' e _ _ [Htree _]]. intros d1 [] Hs1 Ht1 [Htree1 Hp1]; cbn [negb].
  2:{ apply ends_done. split; [done|]. intros _. left. rewrite Htree1. eapply missing_below; [exact Hp1|]. by apply suffix_cons_r. }
  eapply ends_step; [apply private_present_spec| |intros d' e _ _ [Htree _]; by rewrite Htree, Htree1].
  intros d2 [] Hs2 Ht2 [Htree2 Hp2]; cbn [negb]; rewrite Htree1 in Htree2, Hp2.
  2:{ apply ends_done. split; [done|]. intros _. left. by rewrite Htree2. }
  eapply ends_step; [apply private_present_spec| |intros d' e _ _ [Htree _]; by rewrite Htree, Htree2].
  intros d3 [] Hs3 Ht3 [Htree3 Hp3]; cbn [negb]; rewrite Htree2 in Htree3, Hp3.
  - apply ends_handle. eapply ends_impl; [apply acquire_grants|]. intros d4 [[]|e] Hs4 Ht4 [Htree4 Hg]; cbn beta iota.
    + apply ends_done. split; [congruence|]. intros _. right; right. rewrite Htree4, Htree3. split; [done|].
      eapply lock_granted_extend; [by apply Hg|congruence|lia|lia].
    + apply ends_raise. split; [congruence|done].
  - cbn [each]. rewrite <- Htree3 in Hp3.
    eapply ends_step; [apply path_absent_spec| |intros d' e _ _ [Htree _]; by rewrite Htree, Htree3]. intros d4 [] _ Ht4 [Htree4 Hn4].
    eapply ends_step; [apply path_absent_spec| |intros d' e _ _ [Htree _]; by rewrite Htree, Htree4, Htree3]. intros d5 [] _ Ht5 [Htree5 Hn5].
    apply ends_done. split; [congruence|]. intros _. right; left. rewrite Htree5, Htree4. rewrite Htree4 in Hn5. auto.
Qed.

Lemma supervisor_file_spec p t :
  post (load_supervisor_file p) t (fun t' r _ => t' = t
    /\ forall s, r = Ok s -> exists entry, t !! p = Some entry /\ supervisor_from_slice (e_content entry) = Some s).
Proof.
  unfold load_supervisor_file, symlink_metadata, read_file. apply post_handle, post_call; intros step; cbn beta iota; [by apply post_raise|].
  destruct (t !! p) as [entry|] eqn:He; cbn [ok_or]; [|by apply post_raise]. destruct (negb _); [by apply post_raise|].
  apply post_handle, post_call; intros step'; cbn beta iota; [by apply post_raise|]. rewrite He. cbn [ok_or].
  destruct (bool_decide _); [by apply post_raise|].
  destruct (supervisor_from_slice (e_content entry)) as [s|] eqn:Hs; cbn [ok_or lift]; [|by apply post_raise].
  apply post_done. split; [done|]. intros s' [= <-]. eauto.
Qed.

(** What a success of the request says of the answer. *)
Lemma reconcile_answered exchange token claim revision grants s :
  reconcile_supervisor_credentials exchange token claim revision grants = Ok s ->
  exists answer line response,
    exchange (request_to_vec (claim_request token claim (Control_Reconcile revision grants)) ++ [10]) = Ok answer
    /\ bounded_line answer = Some line /\ response_from_slice line = Some response
    /\ cp_accepted response = true /\ cp_credential_revision response = Some revision /\ is_Some (cp_state response).
Proof.
  unfold reconcile_supervisor_credentials, control_exchange. fold (claim_request token claim (Control_Reconcile revision grants)).
  destruct (exchange _) as [answer|] eqn:Ha; cbn [map_err]; [|done].
  destruct (bounded_line answer) as [line|] eqn:Hl; cbn [ok_or]; [|done].
  destruct (response_from_slice line) as [response|] eqn:Hr; cbn [ok_or]; [|done].
  destruct (cp_accepted response) eqn:Hacc; [|done]. case_bool_decide as Hrev; cbn [negb]; [|done].
  destruct (cp_state response) eqn:Hs; cbn [ok_or]; [|done]. intros _. exists answer, line, response. rewrite Hs. eauto 9.
Qed.

Lemma reconcile_spec record d :
  ends (reconcile_running_generation record true) d (fun d' r => tree d' = tree d /\ (r = Ok tt -> quiet (pr_workspace record) record d d')).
Proof.
  assert (Hconfirm : forall d1, script d1 = script d -> (ticks d <= ticks d1)%nat -> tree d1 = tree d ->
    ends (confirm_no_live_supervisor (pr_workspace record)) d1 (fun d' r => tree d' = tree d /\ (r = Ok tt -> quiet (pr_workspace record) record d d'))).
  { intros d1 Hs Ht Htree. eapply ends_impl; [apply (confirm_spec _ record)|]. intros d' r Hs' Ht' [Htree' Hq]. split; [congruence|].
    intros Hr. by eapply quiet_extend; [apply Hq| | | |]. }
  unfold reconcile_running_generation. cbn [reconcile_failure].
  eapply ends_step; [apply reads_installation| |by intros d' e _ _ ->]. intros d1 installation Hs1 Ht1 Htree1.
  eapply ends_step; [apply load_existing_spec| |by intros d' e _ _ [-> _]]. intros d2 state Hs2 Ht2 [Htree2 Hstate]. rewrite Htree1 in Htree2.
  destruct state as [state|]; [|apply Hconfirm; [congruence|lia|done]].
  destruct (ws_active state) as [active|]; [|apply Hconfirm; [congruence|lia|done]].
  eapply ends_step; [apply private_present_spec| |intros d' e _ _ [-> _]; by rewrite Htree2]. intros d3 present Hs3 Ht3 [Htree3 _]. rewrite Htree2 in Htree3.
  destruct present; cbn [negb]; [|apply Hconfirm; [congruence|lia|done]].
  eapply ends_step; [apply reads_private_socket| |intros d' e _ _ ->; by rewrite Htree3]. intros d4 socket Hs4 Ht4 Htree4. rewrite Htree3 in Htree4.
  destruct socket as [socket|]; [|apply Hconfirm; [congruence|lia|done]].
  unfold reconcile_with_supervisor.
  eapply ends_step; [apply supervisor_file_spec| |intros d' e _ _ [-> _]; by rewrite Htree4].
  intros d5 supervisor Hs5 Ht5 [Htree5 Hfile]. specialize (Hfile supervisor eq_refl). rewrite Htree4 in Htree5, Hfile.
  eapply ends_step; [apply reads_read_private| |intros d' e _ _ ->; by rewrite Htree5]. intros d6 receipt Hs6 Ht6 Htree6. rewrite Htree5 in Htree6.
  destruct receipt as [receipt|]; [|by apply ends_raise].
  eapply ends_step; [apply reads_receipt_matches| |intros d' e _ _ ->; by rewrite Htree6]. intros d7 same Hs7 Ht7 Htree7. rewrite Htree6 in Htree7.
  destruct same; cbn [negb]; [|by apply ends_raise]. destruct (sh_build host) as [build|]; [|by apply ends_raise].
  destruct (negb _) eqn:Hid; [by apply ends_raise|]. apply negb_false_iff, andb_true_iff in Hid as [Hid _].
  unfold in_thread. destruct (sh_thread host); cbn [lift].
  2:{ by apply ends_handle, ends_raise, ends_raise. }
  destruct (reconcile_supervisor_credentials _ _ _ _ _) as [s|e] eqn:Hr; cbn [map_err lift].
  2:{ by apply ends_handle, ends_raise, ends_raise. }
  apply ends_handle, ends_done, ends_done. split; [done|]. intros _. right. exists supervisor.
  split_and!; [by rewrite Htree7| |by eapply reconcile_answered]. unfold supervisor_of in Hid. prop_of_bool. destruct (Hstate state eq_refl) as [<- _]. done.
Qed.

(** ** What a command changes *)

Definition base_grants (previous : option PermissionRecord) : CredentialGrants :=
  match previous with Some record => pr_grants record | None => default_grants end.
Definition base_revision (previous : option PermissionRecord) : N :=
  match previous with Some record => pr_revision record | None => 0 end.

(** The grants that a command makes of those before it. *)
Definition grants_after (command : CredentialsCommand) (before after : CredentialGrants) : Prop :=
  match command with
  | Command_Disable _ [] => after = default_grants
  | Command_Disable _ capabilities => after = fold_left disable capabilities before
  | _ => exists state, commanded_grants command before state = Ok after
  end.

(** The next record: the same, where the command changes nothing, or one with the next revision. *)
Definition changes (command : CredentialsCommand) (previous : option PermissionRecord) (record : PermissionRecord) : Prop :=
  pr_workspace record = command_name command /\ grants_after command (base_grants previous) (pr_grants record)
  /\ (previous = Some record \/ pr_revision record = base_revision previous + 1 /\ pr_revision record < 2 ^ 64).

Definition stored t name (record : PermissionRecord) : Prop :=
  exists bytes, permission_to_vec record = Some bytes
    /\ t !! credential_permission_file root name = Some (replaced user PrivateFile bytes).

Lemma stored_holds t name record : stored t name record -> holds_value permission_from_slice t (credential_permission_file root name) record.
Proof. intros (bytes & Hb & He). eapply replaced_value; [exact He|by apply permission_decodes]. Qed.

(** The place of the permission of a name and of its temporary files. *)
Definition permission_place name : Path -> Prop := file_or_temporary (credential_permissions_dir root) (permission_name name).

Lemma persist_change_spec record previous t :
  let next := with_revision record (pr_revision record + 1) in
  post (persist_change record previous) t (fun t' r _ =>
    frame (permission_place (pr_workspace record)) t t'
    /\ match r with
       | Ok result => previous = Some record /\ result = record /\ t' = t
                      \/ result = next /\ pr_revision next < 2 ^ 64 /\ stored t' (pr_workspace record) next
       | Err _ => unchanged t t' (credential_permission_file root (pr_workspace record))
                  \/ pr_revision next < 2 ^ 64 /\ stored t' (pr_workspace record) next
       end).
Proof.
  intros next. unfold persist_change. case_bool_decide as Hp; [apply post_done; split; [apply frame_refl|by left]|].
  destruct (N.leb_spec (2 ^ 64 - 1) (pr_revision record)) as [Hle|Hlt]; [apply post_raise; split; [apply frame_refl|left; apply unchanged_refl]|].
  fold next. assert (Hrev : pr_revision next < 2 ^ 64) by (cbn; lia).
  eapply post_step; [apply persist_private_spec| |].
  - intros t' u [Hf (bytes & Hb & He)]. apply post_done. split; [done|]. right. split_and!; [done..|]. by exists bytes.
  - intros t' e [Hf [Hs|(bytes & Hb & He)]]; (split; [done|]); [by left|right]. split; [done|]. by exists bytes.
Qed.

(** What a command leaves of the tree. *)
Definition command_writes name (q : Path) : Prop := around_permission name q \/ permission_place name q.

(** The confirmation comes after the write: [persist_change] had returned the record at [d1], and
    what confirms it happened from then on. *)
Definition confirmed name (previous : option PermissionRecord) (record : PermissionRecord) (d d' : FileTree.Disk (list N)) : Prop :=
  exists staged d0 d1 l, persist_change staged previous d0 = (d1, l, Ok record)
    /\ script d0 = script d /\ script d1 = script d /\ (ticks d <= ticks d0)%nat /\ (ticks d0 <= ticks d1)%nat /\ (ticks d1 <= ticks d')%nat
    /\ tree d1 = tree d' /\ quiet name record d1 d'.

Lemma confirmed_extend name previous record d d1 d2 d3 :
  confirmed name previous record d1 d2 -> script d1 = script d -> (ticks d <= ticks d1)%nat -> (ticks d2 <= ticks d3)%nat ->
  tree d3 = tree d2 -> confirmed name previous record d d3.
Proof.
  intros (staged & e0 & e1 & l & Hp & Hs0 & Hs1 & Ht0 & Ht1 & Ht2 & Htree1 & Hq) Hs Ht Ht' Htree. exists staged, e0, e1, l.
  split_and!; try congruence; try lia. eapply quiet_extend; [exact Hq|done|lia|lia|done].
Qed.

Definition command_end (command : CredentialsCommand) (previous : option PermissionRecord) (d d' : FileTree.Disk (list N))
    (r : result CredentialCommandError unit) : Prop :=
  let name := command_name command in
  frame (command_writes name) (tree d) (tree d')
  /\ (unchanged (tree d) (tree d') (credential_permission_file root name)
      \/ exists record, stored (tree d') name record /\ changes command previous record)
  /\ (r = Ok tt -> exists record,
        holds_value permission_from_slice (tree d') (credential_permission_file root name) record
        /\ changes command previous record /\ (revoking command = true -> confirmed name previous record d d')).

Lemma command_end_same command previous d d' e : tree d' = tree d -> command_end command previous d d' (Err e).
Proof. unfold command_end. intros ->. split_and!; [apply frame_refl|left; apply unchanged_refl|done]. Qed.

(** Writing the record, and then code that only reads. *)
Lemma persist_then command previous record (rest : PermissionRecord -> disk_io (list N) CredentialCommandError unit) d0 d :
  pr_workspace record = command_name command ->
  loaded_permission (tree d0) (command_name command) previous ->
  script d = script d0 -> (ticks d0 <= ticks d)%nat ->
  frame (around_permission (command_name command)) (tree d0) (tree d) ->
  pr_revision record = base_revision previous -> grants_after command (base_grants previous) (pr_grants record) ->
  (forall next d1, pr_workspace next = command_name command ->
     ends (rest next) d1 (fun d' r => tree d' = tree d1 /\ (r = Ok tt -> revoking command = true -> quiet (command_name command) next d1 d'))) ->
  ends (do? record := persist_change record previous else raise in rest record) d (command_end command previous d0).
Proof.
  intros Hname Hload Hs Ht Hframe Hrev Hgrants Hrest. set (f := credential_permission_file root (command_name command)).
  assert (Hf : unchanged (tree d0) (tree d) f) by apply Hframe, permission_not_around.
  assert (Hw : forall t, frame (permission_place (pr_workspace record)) (tree d) t -> frame (command_writes (command_name command)) (tree d0) t).
  { intros t Hp. eapply frame_trans; [eapply frame_weaken; [exact Hframe|by left]|]. eapply frame_weaken; [exact Hp|].
    intros q Hq. right. by rewrite Hname in Hq. }
  set (next := with_revision record (pr_revision record + 1)).
  assert (Hnext : pr_revision next < 2 ^ 64 -> changes command previous next).
  { intros Hlt. split_and!; [done|done|right]. split; [cbn; by rewrite Hrev|done]. }
  apply ends_handle. eapply ends_impl; [apply ends_eq, ends_post, persist_change_spec|]. intros d1 [result|e] Hs1 Ht1 [[Hp Hr] [l Hrun]]; cbn beta iota.
  - rewrite Hname in Hr.
    assert (Hres : pr_workspace result = command_name command /\ changes command previous result
      /\ holds_value permission_from_slice (tree d1) f result
      /\ (unchanged (tree d0) (tree d1) f \/ exists record, stored (tree d1) (command_name command) record /\ changes command previous record)).
    { destruct Hr as [(Hprev & -> & Htree)|(-> & Hlt & Hst)].
      - split_and!; [done|by split_and!; [..|left]| |left; by rewrite Htree].
        rewrite Hprev in Hload. rewrite Htree. eapply holds_same; [exact Hf|apply Hload].
      - split_and!; [done|by apply Hnext|by apply stored_holds|right; exists next; by split; [|apply Hnext]]. }
    destruct Hres as (Hn & Hch & Hh & Hsame). eapply ends_impl; [apply (Hrest result d1 Hn)|].
    intros d2 r Hs2 Ht2 [Htree2 Hq]. unfold command_end. rewrite Htree2. split_and!; [by apply Hw|done|].
    intros Hr'. exists result. split_and!; [done|done|]. intros Hrv.
    exists record, d, d1, l. rewrite Htree2. split_and!; try congruence; try lia. by apply Hq.
  - apply ends_raise. rewrite Hname in Hr. split_and!; [by apply Hw| |done].
    destruct Hr as [Hr|[Hlt Hr]]; [left; by eapply unchanged_trans|right; exists next; by split; [|apply Hnext]].
Qed.

Lemma rebind_spec record previous state name t : (forall s, state = Some s -> ws_name s = name) ->
  post (rebind record previous state) t (fun t' r _ => frame (around_permission name) t t'
    /\ forall record', r = Ok record' -> pr_workspace record' = pr_workspace record /\ pr_revision record' = pr_revision record
         /\ pr_grants record' = pr_grants record).
Proof.
  intros Hname. destruct state as [state|]; cbn [rebind].
  2:{ apply post_done. split; [apply frame_refl|]. intros record' [= <-]. by destruct (match previous with Some _ => _ | None => _ end). }
  rewrite <- (Hname state eq_refl). eapply post_step; [apply bound_matches_spec| |intros t' e [-> _]; split; [apply frame_refl|done]].
  intros t' same [-> _]. destruct same; [apply post_done; split; [apply frame_refl|by intros record' [= <-]]|].
  assert (Hf : forall t', frame (file_or_temporary (workspace_root root (ws_name state)) binding_name) t t' -> frame (around_permission (ws_name state)) t t').
  { intros t' Hf. eapply frame_weaken; [exact Hf|]. intros q Hq. unfold around_permission. tauto. }
  eapply post_step; [apply ensure_receipt_spec| |intros t' e [Hr _]; split; [by apply Hf|done]].
  intros t' receipt [Hr _]. apply post_done. split; [by apply Hf|]. by intros record' [= <-].
Qed.

Lemma apply_command_spec installation command previous record d :
  loaded_permission (tree d) (command_name command) previous ->
  pr_workspace record = command_name command -> pr_revision record = base_revision previous -> pr_grants record = base_grants previous ->
  ends (apply_command installation command previous record) d (command_end command previous d).
Proof.
  intros Hload Hname Hrev Hgrants. set (name := command_name command) in *.
  assert (Hrest : match command with Command_Disable _ _ => False | _ => True end ->
    ends (do? state := load_existing_workspace name installation else raise in
          do? _ := validate_mutation_binding record state command else raise in
          do? grants := lift (commanded_grants command (pr_grants record) state) else raise in
          do? record := rebind (with_grants record grants) previous state else raise in
          do? record := persist_change record previous else raise in
          if is_Some_b (state ← state; ws_active state) then reconcile_running_generation record (revoking command)
          else if revoking command then confirm_no_live_supervisor name else done tt) d (command_end command previous d)).
  { intros Hcommand. eapply ends_step; [apply load_existing_spec| |by intros d1 e _ _ [Htree _]; apply command_end_same].
    intros d1 state Hs1 Ht1 [Htree1 Hstate].
    eapply ends_step; [apply reads_validate_mutation| |intros d2 e _ _ Htree; apply command_end_same; congruence].
    intros d2 u Hs2 Ht2 Htree2. cbn beta in Htree2.
    destruct (commanded_grants command (pr_grants record) state) as [grants|e] eqn:Hg; cbn [lift].
    2:{ apply ends_handle, ends_raise, ends_raise, command_end_same. congruence. }
    apply ends_handle, ends_done. cbn beta.
    eapply ends_step; [apply (rebind_spec _ _ _ name); intros s ->; by apply (Hstate s)| |].
    - intros d3 record' Hs3 Ht3 [Hf Hr]. destruct (Hr record' eq_refl) as (Hn' & Hrev' & Hg'). cbn in Hn', Hrev', Hg'.
      apply persist_then; try done; [by rewrite Hn'|congruence|lia|rewrite Htree2, Htree1 in Hf; done|congruence| |].
      + rewrite Hg'. unfold grants_after. rewrite <- Hgrants. destruct command; try done; by exists state.
      + intros next d4 Hnext. destruct (is_Some_b _).
        * destruct (revoking command) eqn:Hrv.
          -- eapply ends_impl; [apply reconcile_spec|]. intros d5 r _ _ [Htree Hq]. split; [done|]. intros Hok _. rewrite <- Hnext. auto.
          -- eapply ends_impl; [apply (ends_post _ _ (fun t' _ => t' = tree d4)), reads_reconcile|]. by intros d5 r _ _ ->.
        * destruct (revoking command) eqn:Hrv; [|by apply ends_done].
          eapply ends_impl; [apply (confirm_spec _ next)|]. intros d5 r _ _ [Htree Hq]. split; [done|]. auto.
    - intros d3 e Hs3 Ht3 [Hf _]. rewrite Htree2, Htree1 in Hf. split_and!; [eapply frame_weaken; [exact Hf|by left]| |done].
      left. apply Hf, permission_not_around. }
  destruct command as [n c|n o|n o|n capabilities|n json]; try exact (Hrest I).
  cbn [apply_command]. apply persist_then; try done.
  - unfold disable_capabilities. by destruct (grants_is_empty _).
  - unfold disable_capabilities. by destruct (grants_is_empty _).
  - unfold disable_capabilities. cbn. rewrite <- Hgrants. by destruct capabilities, (grants_is_empty _).
  - intros next d4 Hnext. eapply ends_impl; [apply reconcile_spec|]. intros d5 r _ _ [Htree Hq]. split; [done|]. intros Hok _. rewrite <- Hnext. auto.
Qed.

Lemma load_or_stage_spec installation name t :
  post (load_or_stage installation name) t (fun t' r _ => t' = t
    /\ forall previous record, r = Ok (previous, record) -> loaded_permission t name previous
         /\ pr_workspace record = name /\ pr_revision record = base_revision previous /\ pr_grants record = base_grants previous).
Proof.
  unfold load_or_stage. eapply post_step; [apply load_record_spec| |by intros t' e [-> _]].
  intros t' previous [-> Hl]. destruct (Hl previous eq_refl) as [Hload _].
  eapply (post_step _ _ _ _ (fun t' r => t' = t /\ r = match previous with Some record => validate_scope record installation name | None => Ok tt end));
    [by apply post_lift| |by intros t' e [-> _]].
  intros t' u [-> Hs]. eapply post_step; [apply reads_private_metadata| |by intros t' e ->].
  intros t' md ->. destruct md as [md|]; [|by apply post_raise]. apply post_done. split; [done|].
  intros previous' record [= <- <-]. destruct previous as [old|]; cbn; split_and!; try done.
  unfold validate_scope in Hs. destruct (_ || _) eqn:Hb; [done|]. by prop_of_bool.
Qed.

Lemma frame_missing W t t' p : frame W t t' -> missing_path t' p -> missing_path t p.
Proof.
  intros [_ He] (q & Hq & Hn). exists q. split; [done|]. destruct (t !! q) eqn:E; [|done]. destruct (He q) as [? ?]; [by rewrite E|congruence].
Qed.

Lemma loaded_before name name' t t' previous : frame (around_permission name') t t' ->
  loaded_permission t' name previous -> loaded_permission t name previous.
Proof.
  intros Hf Hl. destruct previous as [record|]; [|by eapply frame_missing]. destruct Hl as (Hh & Hrest). split; [|done].
  eapply holds_same; [|exact Hh]. symmetry. apply Hf, permission_not_around.
Qed.

Lemma holds_unique {T} (from_slice : list N -> option T) t p v v' :
  holds_value from_slice t p v -> holds_value from_slice t p v' -> v = v'.
Proof.
  intros (c & (e & He & _ & _ & <-) & Hv) (c' & (e' & He' & _ & _ & <-) & Hv'). assert (e = e') as -> by congruence. congruence.
Qed.

(** An object that is found has every directory above it. *)
Lemma scan_ancestors_complete l missing t :
  post (scan_ancestors l missing) t (fun t' r _ => t' = t /\ (r = Ok false -> missing = false /\ forall q, q ∈ l -> is_Some (t !! q))).
Proof.
  revert missing t. induction l as [|q l IH]; intros missing t; cbn [scan_ancestors].
  - apply post_done. split; [done|]. intros [= ->]. split; [done|]. by intros q ?%elem_of_nil.
  - apply post_handle. eapply post_impl; [apply stat_spec|]. intros t' [md|e] n [-> Hr]; cbn beta iota.
    + case_bool_decide; [|by apply post_raise]. eapply post_impl; [apply IH|]. intros t2 r _ [-> Hall]. split; [done|].
      intros Hok. destruct (Hall Hok) as [-> Hl]. split; [done|]. intros q' [->|Hq']%elem_of_cons; [destruct Hr as [-> _]; done|auto].
    + destruct e; try by apply post_raise. eapply post_impl; [apply IH|]. intros t2 r _ [-> Hall]. split; [done|].
      intros Hok. by destruct (Hall Hok).
Qed.

Lemma private_present_complete p directory t :
  post (private_present p directory) t (fun t' r _ => t' = t /\ (r = Ok true -> forall q, q `suffix_of` p -> is_Some (t !! q))).
Proof.
  unfold private_present, private_metadata. eapply (post_step _ _ _ _ (fun t' r => t' = t /\ forall md, r = Ok (Some md) -> forall q, q `suffix_of` p -> is_Some (t !! q))).
  - eapply post_step; [apply scan_ancestors_complete| |by intros t' e [-> _]]. intros t' [] [-> Hs]; [by apply post_done|].
    destruct (Hs eq_refl) as [_ Hall]. apply post_handle. eapply post_impl; [apply stat_spec|]. intros t' [md|e] n [-> Hr]; cbn beta iota.
    + destruct (unsafe_metadata _ _); [by apply post_raise|]. apply post_done. split; [done|]. intros _ _ q Hq%ancestors_below.
      assert (Hp : ancestors p = p :: drop 1 (ancestors p)) by (by destruct p). rewrite Hp in Hq.
      apply elem_of_cons in Hq as [->|Hq]; [destruct Hr as [-> _]; done|auto].
    + destruct e; try by apply post_raise. by apply post_done.
  - intros t' [md|] [-> Hall]; apply post_done; (split; [done|]); [intros _; by apply (Hall md)|done].
  - by intros t' e [-> _].
Qed.

Lemma policy_guard_complete t :
  post policy_guard t (fun t' r _ => t' = t /\ (r = Ok tt -> forall q, q `suffix_of` credential_permissions_dir root -> is_Some (t !! q))).
Proof.
  unfold policy_guard. eapply post_step; [apply private_present_complete| |by intros t' e [-> _]].
  intros t' [] [-> Hp]; cbn [negb]; [|by apply post_raise]. eapply post_step; [apply reads_acquire| |by intros t' e ->].
  intros t' [] ->. apply post_done. split; [done|]. intros _ q Hq. apply Hp; [done|]. by apply suffix_cons_r.
Qed.

Lemma open_permission_spec name d :
  ends (open_permission name) d (fun d' r => frame (around_permission name) (tree d) (tree d')
    /\ forall installation previous record, r = Ok (installation, previous, record) ->
         loaded_permission (tree d') name previous /\ loaded_permission (tree d) name previous
         /\ pr_workspace record = name /\ pr_revision record = base_revision previous /\ pr_grants record = base_grants previous
         /\ forall q, q `suffix_of` credential_permissions_dir root -> is_Some (tree d' !! q)).
Proof.
  unfold open_permission.
  eapply ends_step; [apply reads_private_metadata| |by intros d' e _ _ ->; split; [apply frame_refl|]].
  intros d1 md _ _ Htree1; cbn beta in Htree1.
  eapply ends_step; [apply (writes_installation name)| |by intros d' e _ _ Hf; rewrite Htree1 in Hf; split].
  intros d2 installation _ _ Hf2; cbn beta in Hf2; rewrite Htree1 in Hf2.
  eapply ends_step; [apply (writes_prepare name)| |intros d' e _ _ Hf; split; [exact (frame_trans _ _ _ _ Hf2 Hf)|done]].
  intros d3 [] _ _ Hf3. assert (Hf03 := frame_trans _ _ _ _ Hf2 Hf3).
  eapply ends_step; [apply (writes_namespace name)| |intros d' e _ _ Hf; split; [exact (frame_trans _ _ _ _ Hf03 Hf)|done]].
  intros d4 [] _ _ Hf4. assert (Hf04 := frame_trans _ _ _ _ Hf03 Hf4).
  eapply ends_step; [apply reads_workspace_guard| |by intros d' e _ _ ->; split].
  intros d5 locked _ _ Htree5; cbn beta in Htree5.
  eapply ends_step; [apply policy_guard_complete| |by intros d' e _ _ [-> _]; rewrite Htree5; split].
  intros d6 [] _ _ [Htree6 Hdirs]. specialize (Hdirs eq_refl). rewrite <- Htree6 in Hdirs. rewrite Htree5 in Htree6.
  eapply ends_step; [apply load_or_stage_spec| |by intros d' e _ _ [-> _]; rewrite Htree6; split].
  intros d7 [previous record] _ _ [Htree7 Hl]. destruct (Hl previous record eq_refl) as (Hload & Hn & Hr & Hg).
  apply ends_done. rewrite <- Htree7 in Hload, Hdirs. rewrite Htree6 in Htree7. split; [by rewrite Htree7|].
  intros i p r [= <- <- <-]. split_and!; try done. eapply (loaded_before _ name); [|exact Hload]. by rewrite Htree7.
Qed.

Definition is_change (command : CredentialsCommand) : bool := match command with Command_Status _ _ => false | _ => true end.

Lemma mutate_spec command d : is_change command = true ->
  ends (mutate_credentials command) d (fun d' r =>
    let name := command_name command in
    frame (command_writes name) (tree d) (tree d')
    /\ (unchanged (tree d) (tree d') (credential_permission_file root name)
        \/ exists previous record, loaded_permission (tree d) name previous /\ changes command previous record /\ stored (tree d') name record)
    /\ forall report, r = Ok report -> exists previous record, loaded_permission (tree d) name previous /\ changes command previous record
         /\ recorded (tree d') name record /\ reports report (Some record) /\ (revoking command = true -> confirmed name previous record d d')).
Proof.
  intros Hchange. cbn zeta. unfold mutate_credentials. replace (match command with Command_Status _ _ => true | _ => false end) with false by (by destruct command).
  assert (Hw : forall t t', frame (around_permission (command_name command)) t t' -> frame (command_writes (command_name command)) t t').
  { intros t t' Hf. eapply frame_weaken; [exact Hf|by left]. }
  apply ends_handle. eapply ends_impl; [apply open_permission_spec|]. intros d1 [[[installation previous] record]|e] Hs1 Ht1 [Hf1 Hopen]; cbn beta iota.
  2:{ apply ends_raise. split_and!; [by apply Hw|left; apply Hf1, permission_not_around|done]. }
  destruct (Hopen _ _ _ eq_refl) as (Hload1 & Hload & Hn & Hr & Hg & Hdirs).
  assert (Hsame : unchanged (tree d) (tree d1) (credential_permission_file root (command_name command))) by apply Hf1, permission_not_around.
  apply ends_handle. eapply ends_impl; [by apply apply_command_spec|]. intros d2 r Hs2 Ht2 (Hf2 & Hp2 & Hok2).
  assert (Hf02 := frame_trans _ _ _ _ (Hw _ _ Hf1) Hf2).
  assert (Hp02 : unchanged (tree d) (tree d2) (credential_permission_file root (command_name command))
    \/ exists previous record, loaded_permission (tree d) (command_name command) previous /\ changes command previous record /\ stored (tree d2) (command_name command) record).
  { destruct Hp2 as [Hp2|(rec & Hst & Hch)]; [left; by eapply unchanged_trans|right; by exists previous, rec]. }
  destruct r as [[]|e]; cbn beta iota; [|by apply ends_raise].
  eapply ends_impl; [apply ends_post, inspect_status_spec|]. intros d3 r Hs3 Ht3 [Htree3 Hrep]. rewrite Htree3. split_and!; [done..|].
  intros report ->. destruct (Hok2 eq_refl) as (rec & Hh & Hch & Hq). destruct (Hrep report eq_refl) as (previous' & Hl' & Hreport & _).
  destruct previous' as [rec'|].
  - destruct Hl' as (Hh' & Hwf). assert (rec' = rec) as -> by (by eapply holds_unique). exists previous, rec. split_and!; try done.
    intros Hrv. eapply confirmed_extend; [by apply Hq|done|done|lia|done].
  - exfalso. destruct Hl' as (q & [->|Hsuf]%suffix_cons_cases & Hnone).
    + destruct Hh as (c & (e & He & _) & _). unfold credential_permission_file in He. congruence.
    + destruct (proj2 Hf2 q (Hdirs q Hsuf)). congruence.
Qed.

Lemma ends_run {E X} (m : disk_io (list N) E X) d d' l r Q : ends m d Q -> m d = (d', l, r) -> Q d' r.
Proof. unfold ends. intros Hm Heq. rewrite Heq in Hm. apply Hm. Qed.

(** C7: a change of permissions, under every failure of the operating system, leaves the permission
    file of every other name and everything outside the places of the command (its store, its
    locks, the receipt of this workspace) as it was.  The permission of the name is as before, or
    it is a whole record with the next revision, below the limit of its width, whose grants are
    exactly those that the command makes of the grants before; and when the command reports
    success, the report shows the revision and the grants of the record that is on disk. *)
Theorem permission_change_exact command d d' l r :
  is_change command = true -> mutate_credentials command d = (d', l, r) ->
  let name := command_name command in
  (forall q, ~ command_writes name q -> unchanged (tree d) (tree d') q)
  /\ (forall name', name_ok (name_str name) -> name_ok (name_str name') -> name' <> name ->
        unchanged (tree d) (tree d') (credential_permission_file root name'))
  /\ (unchanged (tree d) (tree d') (credential_permission_file root name)
      \/ exists previous record, loaded_permission (tree d) name previous /\ changes command previous record
           /\ stored (tree d') name record /\ holds_value permission_from_slice (tree d') (credential_permission_file root name) record)
  /\ forall report, r = Ok report -> exists previous record, loaded_permission (tree d) name previous
       /\ changes command previous record /\ recorded (tree d') name record /\ reports report (Some record).
Proof.
  intros Hchange Hrun. cbn zeta. destruct (ends_run _ _ _ _ _ _ (mutate_spec command d Hchange) Hrun) as ([Hframe _] & Hfile & Hok).
  split_and!; [done| | |].
  - intros name' Hn Hn' Hne. apply Hframe. intros [Ha|Hp]; [by apply permission_not_around in Ha|]. exact (other_permission_elsewhere _ _ Hn Hn' Hne Hp).
  - destruct Hfile as [?|(previous & record & Hl & Hc & Hs)]; [by left|right]. exists previous, record. split_and!; try done. by apply stored_holds.
  - intros report Hr. destruct (Hok report Hr) as (previous & record & Hl & Hc & Hrec & Hrep & _). by exists previous, record.
Qed.

(** What a revocation takes away. *)
Definition revoked (command : CredentialsCommand) (grants : CredentialGrants) : Prop :=
  match command with
  | Command_Disable _ capabilities => forall c, capabilities = [] \/ c ∈ capabilities -> enabled grants c = false
  | Command_Deny _ origins => forall o, o ∈ origins -> allows grants o = false
  | _ => True
  end.

Lemma disable_enabled g c c' : enabled (disable g c) c' = enabled g c' && negb (bool_decide (c = c')).
Proof. destruct c, c'; cbn; by rewrite ?andb_true_r, ?andb_false_r. Qed.

Lemma grants_after_revoked command before after : grants_after command before after -> revoked command after.
Proof.
  destruct command as [n c|n o|n o|n cs|n j]; cbn; try done.
  - intros [_ Hg] origin Hin. unfold adjust_origins in Hg. destruct (git_https before) as [granted|] eqn:E; cbn in Hg; [|done].
    case_bool_decide; [done|]. injection Hg as <-. unfold allows. cbn. apply bool_decide_eq_false. rewrite elem_of_filter. tauto.
  - intros Hg c Hc. destruct Hc as [->|Hc]; [subst after; by destruct c|]. destruct cs as [|c0 cs]; [by apply elem_of_nil in Hc|].
    subst after. revert before Hc. generalize (c0 :: cs). intros l. induction l as [|x l IH] using rev_ind; intros g Hin; [by apply elem_of_nil in Hin|].
    rewrite fold_left_app. cbn. rewrite disable_enabled. apply elem_of_app in Hin as [Hin|Hin%list_elem_of_singleton]; [by rewrite IH|].
    subst. by rewrite bool_decide_eq_true_2, andb_false_r.
Qed.

Context {codec_laws : ControlCodecLaws}.

Lemma control_exchange_ext exchange exchange' token claim command operation :
  (forall bytes, exchange bytes = exchange' bytes) ->
  control_exchange exchange token claim command operation = control_exchange exchange' token claim command operation.
Proof. intros He. unfold control_exchange. by rewrite He. Qed.

(** The live policy after a supervisor has served the request. *)
Definition live_policy_after (s : SupervisorState) (backend : option LiveCredentialBackend) (request : ControlRequest) (record : PermissionRecord) : Prop :=
  exists backend' response,
    handle_control (mkConnection (Ok (request_to_vec request ++ [10])) true) s backend = (backend', Some response, Ok false)
    /\ match backend' with
       | Some live => backend_revision live = pr_revision record /\ lp_grants (lb_policy live) = pr_grants record
       | None => backend = None /\ grants_is_empty (pr_grants record) = true
       end.

Lemma acknowledged_live t name record supervisor s backend :
  (forall bytes, sh_exchange host (supervisor_socket root name) bytes = server_exchange s backend bytes) ->
  acknowledged t name record supervisor -> sv_workspace s = name /\ live_policy_after s backend (revision_request supervisor record) record.
Proof.
  intros Hex (_ & Hname & answer & line & response & Hx & Hl & Hr & Hacc & Hrev & _).
  assert (Hc : control_exchange (sh_exchange host (supervisor_socket root name)) (sv_token supervisor) (state_claim supervisor)
                 (Control_Reconcile (pr_revision record) (pr_grants record)) ($"credential reconcile") = Ok response).
  { unfold control_exchange. fold (claim_request (sv_token supervisor) (state_claim supervisor) (Control_Reconcile (pr_revision record) (pr_grants record))).
    fold (revision_request supervisor record). rewrite Hx. cbn [map_err]. rewrite Hl. cbn [ok_or]. rewrite Hr. cbn [ok_or]. by rewrite Hacc. }
  rewrite (control_exchange_ext _ _ _ _ _ _ Hex) in Hc.
  apply control_exchange_Ok in Hc as (Hd & b' & down & revision & error & Hout & ->). fold (revision_request supervisor record) in Hd, Hout.
  pose proof Hd as (Hlen & _ & Hm).
  assert (Hout' := Hout). apply outcome_reconcile in Hout' as (Ha & -> & -> & ->); [|done].
  split; [apply request_matches_true in Hm; cbn in Hm; destruct Hm as (_ & Hw & _); congruence|].
  exists b', (reconciled s (pr_revision record)). split.
  - unfold handle_control. cbn [cn_input cn_answer]. rewrite bounded_line_line by apply request_one_line.
    apply N.ltb_lt in Hlen. rewrite Hlen. cbn [mbind option_bind]. rewrite request_decodes, Hout. done.
  - unfold accepts in Ha. destruct backend as [b|]; [|destruct Ha as [Hg ->]; done]. destruct Ha as (policy & Hrec & ->).
    apply reconcile_Ok in Hrec as (_ & Hrev' & Hg & _). done.
Qed.

(** C6: a revocation that reports success is durable and in force.  The record on disk lacks every
    capability and origin that the command names, and the report shows its revision.  After
    [persist_change] had returned that record, one of two things happened.  Either no supervisor
    could run for the workspace: it had no runtime directory, or no lock, state and socket in it,
    or the operating system gave the lifetime lock of its supervisor (that lock and no other, at a
    moment when nobody held it).  Or the supervisor whose state is on disk was sent the request
    for that revision with exactly those grants, and its answer accepts that revision; and a
    supervisor that serves the socket has that revision and those grants as its live policy once
    it has served this request. *)
Theorem revocation_confirmed command d d' l report :
  revoking command = true -> mutate_credentials command d = (d', l, Ok report) ->
  let name := command_name command in
  exists record previous staged d0 d1 l1,
    recorded (tree d') name record /\ reports report (Some record) /\ revoked command (pr_grants record)
    /\ persist_change staged previous d0 = (d1, l1, Ok record) /\ script d0 = script d /\ script d1 = script d
    /\ (ticks d <= ticks d0)%nat /\ (ticks d0 <= ticks d1)%nat /\ (ticks d1 <= ticks d')%nat /\ tree d1 = tree d'
    /\ (no_supervisor name d1 d'
        \/ exists supervisor, acknowledged (tree d') name record supervisor
             /\ forall s backend, (forall bytes, sh_exchange host (supervisor_socket root name) bytes = server_exchange s backend bytes) ->
                  sv_workspace s = name /\ live_policy_after s backend (revision_request supervisor record) record).
Proof.
  intros Hrev Hrun. assert (Hchange : is_change command = true) by (by destruct command). cbn zeta.
  destruct (ends_run _ _ _ _ _ _ (mutate_spec command d Hchange) Hrun) as (_ & _ & Hok).
  destruct (Hok report eq_refl) as (previous & record & _ & Hc & Hrec & Hrep & Hq).
  destruct (Hq Hrev) as (staged & d0 & d1 & l1 & Hp & Hs0 & Hs1 & Ht0 & Ht1 & Ht2 & Htree & Hquiet).
  exists record, previous, staged, d0, d1, l1. split_and!; try done.
  - apply (grants_after_revoked _ (base_grants previous)). apply Hc.
  - destruct Hquiet as [Hq'|[supervisor Hq']]; [by left|right]. exists supervisor. split; [done|]. intros s backend Hex. by eapply acknowledged_live.
Qed.

(** While another process holds the lifetime lock of the supervisor, no revocation succeeds unless the
    supervisor acknowledges it. *)
Theorem live_supervisor_must_acknowledge command d d' l report :
  revoking command = true -> mutate_credentials command d = (d', l, Ok report) ->
  (forall n, step_held (script d n) (supervisor_lifetime_lock root (command_name command)) <> None) ->
  (forall q, q `suffix_of` supervisor_lifetime_lock root (command_name command) -> is_Some (tree d' !! q)) ->
  exists record supervisor, recorded (tree d') (command_name command) record /\ acknowledged (tree d') (command_name command) record supervisor.
Proof.
  intros Hrev Hrun Hheld Hdirs. assert (Hchange : is_change command = true) by (by destruct command).
  destruct (ends_run _ _ _ _ _ _ (mutate_spec command d Hchange) Hrun) as (_ & _ & Hok).
  destruct (Hok report eq_refl) as (previous & record & _ & Hc & Hrec & Hrep & Hq).
  destruct (Hq Hrev) as (staged & d0 & d1 & l1 & Hp & Hs0 & Hs1 & Ht0 & Ht1 & Ht2 & Htree & Hquiet).
  assert (Hthere : forall p, p `suffix_of` supervisor_lifetime_lock root (command_name command) -> ~ missing_path (tree d') p).
  { intros p Hs (q & Hq' & Hn). destruct (Hdirs q) as [? ?]; [by etrans|congruence]. }
  destruct Hquiet as [[Hm|[[Hm _]|[_ (n & _ & _ & Hfree)]]]|[supervisor Ha]].
  - exfalso. eapply Hthere; [|exact Hm]. by apply suffix_cons_r.
  - exfalso. by eapply Hthere; [|exact Hm].
  - exfalso. rewrite Hs1 in Hfree. by apply (Hheld n).
  - exists record, supervisor. done.
Qed.

(** ** Binding and leases *)

Lemma scope_Ok record installation name u :
  validate_scope record installation name = Ok u -> pr_installation record = installation /\ pr_workspace record = name.
Proof. unfold validate_scope. destruct (_ || _) eqn:Hb; [done|]. by prop_of_bool. Qed.

(** A staged grant is bound to the workspace of an explicit name only, with the same grants and under the
    next revision; whatever fails, nothing but the receipt and the permission of this name is
    written. *)
Definition bind_end (state : WorkspaceState) (explicit_name : bool) t t' (r : result CredentialCommandError unit) : Prop :=
  let name := ws_name state in
  frame (fun q => explicit_name = true /\ (file_or_temporary (workspace_root root name) binding_name q \/ permission_place name q)) t t'
  /\ (r = Ok tt -> exists previous, loaded_permission t name previous /\ forall record, previous = Some record ->
        grants_is_empty (pr_grants record) = true
        \/ explicit_name = true /\ exists record' receipt,
             holds_value permission_from_slice t' (credential_permission_file root name) record'
             /\ bound_to t' record' receipt state /\ pr_grants record' = pr_grants record
             /\ (record' = record \/ pr_binding record = Binding_Staged /\ pr_revision record' = pr_revision record + 1)).

Theorem staged_grant_binds state explicit_name t :
  post (bind_workspace state explicit_name) t (fun t' r _ => bind_end state explicit_name t t' r).
Proof.
  assert (Hraise : forall e, bind_end state explicit_name t t (Err e)) by (intros e; split; [apply frame_refl|done]).
  unfold bind_workspace. eapply post_step; [apply load_record_spec| |by intros t' e [-> _]]. intros t' found [-> Hl0].
  destruct (Hl0 found eq_refl) as [Hload0 _]. destruct found as [record0|].
  2:{ apply post_done. split; [apply frame_refl|]. intros _. by exists None. }
  eapply post_step; [apply reads_policy_guard| |by intros t' e ->]. intros t' u ->.
  eapply post_step; [apply load_record_spec| |by intros t' e [-> _]]. intros t' found [-> Hl].
  destruct (Hl found eq_refl) as [Hload _]. destruct found as [record|].
  2:{ apply post_done. split; [apply frame_refl|]. intros _. by exists None. }
  destruct (validate_scope _ _ _) as [u'|e] eqn:Hs; cbn [lift]; [|by apply post_handle, post_raise, post_raise].
  apply scope_Ok in Hs as [_ Hname]. apply post_handle, post_done. cbn beta iota.
  destruct (grants_is_empty (pr_grants record)) eqn:Hempty.
  { apply post_done. split; [apply frame_refl|]. intros _. exists (Some record). split; [done|]. intros r [= <-]. by left. }
  destruct explicit_name; cbn [negb]; [|by apply post_raise].
  destruct (pr_binding record) as [|receipt0] eqn:Hb.
  - assert (Hframe : forall t1 t2, frame (file_or_temporary (workspace_root root (ws_name state)) binding_name) t t1 ->
      frame (permission_place (ws_name state)) t1 t2 -> frame (fun q => true = true /\ (file_or_temporary (workspace_root root (ws_name state)) binding_name q \/ permission_place (ws_name state) q)) t t2).
    { intros t1 t2 Ha Hc. eapply frame_trans; [eapply frame_weaken; [exact Ha|tauto]|eapply frame_weaken; [exact Hc|tauto]]. }
    eapply (post_step _ _ _ _ _ (bind_end state true t)); [apply ensure_receipt_spec| |].
    2:{ intros t1 e [Hf _]. split; [|done]. eapply Hframe; [exact Hf|apply frame_refl]. }
    intros t1 receipt [Hf1 Hr]. destruct (Hr receipt eq_refl) as [Hheld Hdesc].
    eapply post_step; [apply persist_change_spec| |].
    2:{ intros t2 e [Hf2 _]. split; [|done]. cbn in Hf2. rewrite Hname in Hf2. by eapply Hframe. }
    intros t2 record' [Hf2 Hr2]. cbn in Hf2, Hr2. rewrite Hname in Hf2, Hr2. apply post_done. split; [by eapply Hframe|].
    intros _. exists (Some record). split; [done|]. intros r [= <-]. right. split; [done|].
    destruct Hr2 as [([= Hsame] & _)|(-> & _ & Hst)]; [by rewrite Hsame in Hb|].
    eexists _, receipt. split_and!; [by apply stored_holds| |done|right; done].
    split_and!; [done| |done]. eapply holds_same; [|exact Hheld]. apply Hf2, binding_elsewhere.
  - eapply post_step; [apply bound_matches_spec| |by intros t' e [-> _]]. intros t' [] [-> Hbm]; [|by apply post_raise].
    apply post_done. split; [apply frame_refl|]. intros _. exists (Some record). split; [done|]. intros r [= <-]. right. split; [done|].
    destruct (Hbm eq_refl) as [receipt Hto]. exists record, receipt. split_and!; [apply Hload|done|done|by left].
Qed.

Lemma described_receipt_valid receipt id state : receipt_describes receipt id state = true ->
  in_range 16 128 (str_len (br_nonce receipt)) && forallb is_ascii_alphanumeric (encode_utf8 (br_nonce receipt)) = true.
Proof.
  unfold receipt_describes. intros Hd. apply andb_true_iff in Hd as [Hd Hhex]. apply andb_true_iff in Hd as [_ Hlen%N.eqb_eq].
  rewrite Hlen. cbn [andb]. apply forallb_forall. intros c Hc. rewrite forallb_forall in Hhex. specialize (Hhex c Hc).
  unfold lower_hex, is_ascii_alphanumeric, is_ascii_digit, is_ascii_alphabetic, is_ascii_lowercase, in_range in *.
  apply orb_true_iff in Hhex as [Hx|Hx]; [rewrite Hx; by rewrite orb_true_r|].
  apply andb_true_iff in Hx as [Hlow Hup%N.leb_le]. rewrite Hlow, (proj2 (N.leb_le c 122)) by lia. done.
Qed.

Lemma lease_spec state lease_user home generation t :
  post (credential_supervisor_lease state lease_user home generation) t (fun t' r _ => t' = t
    /\ forall lease, r = Ok (Some lease) -> exists record receipt, recorded t (ws_name state) record
         /\ pr_installation record = ws_installation_id state /\ pr_workspace record = ws_name state
         /\ (exists n, pr_installation_root record = sh_identity host n root) /\ bound_to t record receipt state
         /\ grants_is_empty (pr_grants record) = false /\ sl_workspace_receipt lease = br_nonce receipt
         /\ sl_grants lease = pr_grants record /\ sl_grant_revision lease = pr_revision record).
Proof.
  unfold credential_supervisor_lease. eapply post_step; [apply load_record_spec| |by intros t' e [-> _]]. intros t' found [-> Hl].
  destruct (Hl found eq_refl) as [Hload Hid]. destruct found as [record|]; [|by apply post_done].
  destruct (validate_scope _ _ _) as [u|e] eqn:Hs; cbn [lift]; [|by apply post_handle, post_raise, post_raise].
  apply scope_Ok in Hs as [Hi Hn]. apply post_handle, post_done. cbn beta iota.
  destruct (grants_is_empty (pr_grants record)) eqn:Hempty; [by apply post_done|].
  eapply post_step; [apply bound_matches_spec| |by intros t' e [-> _]]. intros t' same [-> Hb].
  destruct same; cbn [negb orb]; [|by apply post_raise]. destruct (_ || _); [by apply post_raise|].
  destruct (Hb eq_refl) as [receipt Hto]. destruct (pr_binding record) as [|receipt'] eqn:Hbind; [by apply post_raise|].
  apply post_done. split; [done|]. intros lease0 [= <-]. exists record, receipt.
  assert (receipt' = receipt) as -> by (destruct Hto as [Hto _]; congruence). split_and!; try done. by apply Hid.
Qed.

(** C8: the lease that a supervisor starts with comes from a permission bound to this very workspace.
    Making it writes nothing; the record on disk is of this installation, this root directory and
    this name, has grants, and is bound by a receipt that is also in the directory of the
    workspace and describes the state and that directory as the operating system identified it.
    The lease carries that receipt, revision and grants, and passes the receipt and revision
    checks of the lease registry. *)
Theorem lease_from_bound_permission state lease_user home generation d d' l lease :
  credential_supervisor_lease state lease_user home generation d = (d', l, Ok (Some lease)) ->
  tree d' = tree d /\ exists record receipt,
    recorded (tree d) (ws_name state) record /\ pr_installation record = ws_installation_id state
    /\ pr_workspace record = ws_name state /\ (exists n, pr_installation_root record = sh_identity host n root)
    /\ bound_to (tree d) record receipt state /\ grants_is_empty (pr_grants record) = false
    /\ sl_workspace_receipt lease = br_nonce receipt /\ sl_grants lease = pr_grants record /\ sl_grant_revision lease = pr_revision record
    /\ in_range 16 128 (str_len (sl_workspace_receipt lease)) && forallb is_ascii_alphanumeric (encode_utf8 (sl_workspace_receipt lease)) = true
    /\ sl_grant_revision lease <> 0.
Proof.
  intros Hrun. assert (Hpost := lease_spec state lease_user home generation (tree d) d eq_refl). rewrite Hrun in Hpost.
  destruct Hpost as (_ & _ & Htree & Hlease). split; [done|].
  destruct (Hlease lease eq_refl) as (record & receipt & Hrec & Hi & Hn & Hid & Hto & He & Hr & Hg & Hv).
  exists record, receipt. split_and!; try done; [|rewrite Hv; apply Hrec].
  rewrite Hr. destruct Hto as (_ & _ & n & Hd). by eapply described_receipt_valid.
Qed.

(** What the creation of a workspace relies on: binding writes neither the checkout nor the state. *)
Lemma bind_meets_create state explicit_name t :
  post (bind_workspace state explicit_name) t (fun t' _ _ =>
    forall q, checkout root (ws_name state) `suffix_of` q \/ q = state_path root (ws_name state) -> t' !! q = t !! q).
Proof.
  eapply post_impl; [apply staged_grant_binds|]. intros t' r n [[Hf _] _] q Hq. apply Hf. intros [_ Hw].
  assert (Hlen : checkout root (ws_name state) `suffix_of` q -> (length root + 4 <= length q)%nat).
  { intros Hs%suffix_length. cbn in Hs. lia. }
  destruct Hw as [Hw|Hw]; assert (Hl := written_length _ _ _ Hw); cbn in Hl; (destruct Hq as [Hq|Hq]; [specialize (Hlen Hq); lia|]).
  - subst q. destruct Hw as [[= Hw]|[random [= Hw]]]; discriminate Hw.
  - subst q. cbn in Hl. lia.
Qed.

(** A receipt that is in the directory and does not describe it blocks every later binding: no enable,
    allow or deny for the workspace passes, and none of them replaces the receipt. *)
Theorem stale_receipt_blocks_binding record previous state receipt t :
  holds_value receipt_from_slice t (credential_binding_file root (ws_name state)) receipt ->
  (forall q, q `suffix_of` credential_binding_file root (ws_name state) -> is_Some (t !! q)) ->
  (forall n, receipt_describes receipt (sh_identity host n (workspace_root root (ws_name state))) state = false) ->
  post (rebind record previous (Some state)) t (fun t' r _ => t' = t /\ is_ok r = false).
Proof.
  intros Hheld Hdirs Hno. cbn [rebind]. eapply post_step; [apply bound_matches_spec| |by intros t' e [-> _]].
  intros t' same [-> Hsame]. destruct same.
  { destruct (Hsame eq_refl) as (r & _ & Hr & n & Hd). assert (r = receipt) as -> by (by eapply holds_unique). by rewrite Hno in Hd. }
  eapply (post_step _ _ _ _ (fun t' r => t' = t /\ is_ok r = false)); [|by intros t' x [_ ?]|by intros t' e [-> _]].
  unfold ensure_receipt. eapply post_step; [apply read_private_spec| |by intros t' e [-> _]]. intros t' [r|] [-> Hr].
  - assert (r = receipt) as -> by (by eapply holds_unique). eapply post_step; [apply receipt_matches_spec| |by intros t' e [-> _]].
    intros t' [] [-> Hm]; [|by apply post_raise]. destruct (Hm eq_refl) as [n Hd]. by rewrite Hno in Hd.
  - destruct Hr as (q & Hq & Hnone). destruct (Hdirs q Hq). congruence.
Qed.
End laws.
End store.

(** ** Examples *)

#[local] Instance StateTimestamp_countable : Countable StateTimestamp.
Proof. apply (inj_countable' timestamp_str mkTimestamp). by intros []. Defined.
#[local] Instance BindingReceipt_countable : Countable BindingReceipt.
Proof.
  apply (inj_countable'
    (fun r => ((br_schema_version r, br_installation r, br_workspace r, br_created_at r), (br_source_digest r, br_directory r, br_nonce r)))
    (fun '((a, b, c, d), (e, f, g)) => mkReceipt a b c d e f g)). by intros [].
Defined.
#[local] Instance PermissionBinding_countable : Countable PermissionBinding.
Proof.
  apply (inj_countable' (fun b => match b with Binding_Staged => None | Binding_Bound r => Some r end)
    (fun o => match o with None => Binding_Staged | Some r => Binding_Bound r end)). by intros [].
Defined.
#[local] Instance PermissionRecord_countable : Countable PermissionRecord.
Proof.
  apply (inj_countable'
    (fun r => ((pr_schema_version r, pr_installation r, pr_installation_root r, pr_workspace r), (pr_revision r, pr_binding r, pr_grants r)))
    (fun '((a, b, c, d), (e, f, g)) => mkPermission a b c d e f g)). by intros [].
Defined.

Lemma bits_value_exact p : bits_value (bits_text p) = p.
Proof. induction p as [p IH|p IH|]; cbn; by rewrite ?IH. Qed.

(** Codecs for which the laws hold; the root of this example holds no workspace. *)
#[local] Instance sample_permission_codec : PermissionSerde := {|
  permission_to_vec r := Some (bits_text (countable.encode r)); permission_from_slice l := countable.decode (bits_value l);
  receipt_to_vec r := Some (bits_text (countable.encode r)); receipt_from_slice l := countable.decode (bits_value l);
  supervisor_from_slice _ := None |}.
#[local] Instance sample_permission_laws : PermissionSerdeLaws.
Proof. split; intros r bytes [= <-]; cbn; by rewrite bits_value_exact, countable.decode_encode. Qed.
#[local] Instance no_state_codec : StateSerde (list N) := {|
  header_from_slice _ := None; state_from_slice _ := None; legacy_from_slice _ := None; to_vec_pretty _ := None; push_newline l := l |}.

Definition sample_store_host : StoreHost := {|
  sh_user := 1000; sh_umask := 18; sh_identity _ _ := (1, 2); sh_links _ _ := 1; sh_sha256 bytes := bytes;
  sh_installation_key := Some (replicate 32 7); sh_installation_id := Some [1; 2; 3; 4]; sh_nonce := Some (replicate 32 7);
  sh_build := None; sh_thread := true; sh_exchange _ _ := Err [] |}.
Lemma sample_nonce (nonce : list N) (H : sh_nonce sample_store_host = Some nonce) :
    lenN nonce = 32 /\ Forall (fun b => b < 256) nonce.
Proof. injection H as <-. split; [reflexivity|]. repeat constructor. Qed.

Definition sample_change (command : CredentialsCommand) :=
  @mutate_credentials sample_store_host sample_permission_codec Installation.sample_codec no_state_codec sample_control_codec
    (fun _ => None) [$"cdenv"; $"home"] command.

(** The agent is granted to a name that has no workspace yet. *)
Definition sample_enable : CredentialsCommand := Command_Enable (mkWorkspaceName ($"w")) (Enable_SshAgent None).
Definition enabled_disk := fst (fst (sample_change sample_enable (bytes_disk false))).

Lemma permission_change_exact_witness :
  let '(d', _, r) := sample_change sample_enable (bytes_disk false) in
  is_ok r = true /\ exists previous record,
    changes (fun _ => None) sample_enable previous record
    /\ @recorded sample_store_host sample_permission_codec [$"cdenv"; $"home"] (tree d') (mkWorkspaceName ($"w")) record.
Proof.
  assert (Hok : is_ok (snd (sample_change sample_enable (bytes_disk false))) = true) by (vm_compute; reflexivity).
  destruct (sample_change sample_enable (bytes_disk false)) as [[d' l] r] eqn:E. cbn [snd] in Hok. split; [exact Hok|].
  destruct r as [report|e]; [|discriminate Hok].
  destruct (@permission_change_exact sample_store_host sample_permission_codec Installation.sample_codec no_state_codec sample_control_codec
    (fun _ => None) [$"cdenv"; $"home"] sample_permission_laws sample_nonce sample_enable (bytes_disk false) d' l (Ok report) eq_refl E)
    as (_ & _ & _ & H). destruct (H report eq_refl) as (previous & record & _ & Hc & Hr & _). exists previous, record. exact (conj Hc Hr).
Defined.

Definition sample_disable : CredentialsCommand := Command_Disable (mkWorkspaceName ($"w")) [SshAgent].

Lemma revocation_confirmed_witness :
  let '(d', _, r) := sample_change sample_disable enabled_disk in
  is_ok r = true /\ exists record,
    @recorded sample_store_host sample_permission_codec [$"cdenv"; $"home"] (tree d') (mkWorkspaceName ($"w")) record
    /\ enabled (pr_grants record) SshAgent = false.
Proof.
  assert (Hok : is_ok (snd (sample_change sample_disable enabled_disk)) = true) by (vm_compute; reflexivity).
  destruct (sample_change sample_disable enabled_disk) as [[d' l] r] eqn:E. cbn [snd] in Hok. split; [exact Hok|].
  destruct r as [report|e]; [|discriminate Hok].
  destruct (@revocation_confirmed sample_store_host sample_permission_codec Installation.sample_codec no_state_codec sample_control_codec
    (fun _ => None) [$"cdenv"; $"home"] sample_permission_laws sample_nonce sample_control_laws sample_disable enabled_disk d' l report eq_refl E)
    as (record & previous & staged & d0 & d1 & l1 & Hr & _ & Hg & _). exists record. split; [exact Hr|]. apply Hg. right. by left.
Defined.

(** The workspace is created under that name: its directory is there, and the grant is bound. *)
Definition bound_state : WorkspaceState :=
  mkState (ws_schema_version sample_state) (mkInstallationId ($"01020304")) (mkWorkspaceName ($"w")) (ws_repository_source sample_state)
    (ws_devcontainer_profile sample_state) (ws_desired_config sample_state) (ws_desired_fingerprints sample_state) (ws_created_at sample_state)
    (ws_last_up_at sample_state) (ws_operation sample_state) (ws_last_error sample_state) (ws_interrupted_compose_rebuild sample_state)
    (ws_active sample_state).
Definition bound_disk : FileTree.Disk (list N) :=
  let d := mkDisk (<[workspace_root [$"cdenv"; $"home"] (mkWorkspaceName ($"w")) := mkEntry Kind_Directory 1000 448 []]> (tree enabled_disk))
             (script enabled_disk) (ticks enabled_disk) in
  fst (fst (@bind_workspace sample_store_host sample_permission_codec [$"cdenv"; $"home"] bound_state true d)).

Lemma lease_from_bound_permission_witness :
  exists lease, snd (@credential_supervisor_lease sample_store_host sample_permission_codec [$"cdenv"; $"home"] bound_state
                  (mkUser 1000 1000) ($"/home/u") (mkGenerationId 4) bound_disk) = Ok (Some lease)
    /\ sl_grant_revision lease = 2
    /\ exists record, @recorded sample_store_host sample_permission_codec [$"cdenv"; $"home"] (tree bound_disk) (mkWorkspaceName ($"w")) record
         /\ sl_grants lease = pr_grants record.
Proof.
  set (m := @credential_supervisor_lease sample_store_host sample_permission_codec [$"cdenv"; $"home"] bound_state
    (mkUser 1000 1000) ($"/home/u") (mkGenerationId 4)).
  assert (Hok : match snd (m bound_disk) with Ok (Some lease) => sl_grant_revision lease =? 2 | _ => false end = true) by (vm_compute; reflexivity).
  destruct (m bound_disk) as [[d' l] r] eqn:E. cbn [snd] in *. destruct r as [[lease|]|e]; [|discriminate Hok..].
  exists lease. split; [reflexivity|]. split; [by apply N.eqb_eq|].
  destruct (@lease_from_bound_permission sample_store_host sample_permission_codec [$"cdenv"; $"home"] bound_state (mkUser 1000 1000) ($"/home/u")
    (mkGenerationId 4) bound_disk d' l lease E) as (_ & record & receipt & Hr & _ & _ & _ & _ & _ & _ & Hg & _).
  exists record. exact (conj Hr Hg).
Defined.

(** The same disk where the directory of the workspace has another inode, as after a restored backup,
    with the state and the lock file of the workspace. *)
Definition moved_host : StoreHost :=
  let w := workspace_root [$"cdenv"; $"home"] (mkWorkspaceName ($"w")) in {|
  sh_user := 1000; sh_umask := 18; sh_identity _ p := if bool_decide (p = w) then (1, 3) else (1, 2); sh_links _ _ := 1; sh_sha256 bytes := bytes;
  sh_installation_key := None; sh_installation_id := None; sh_nonce := Some (replicate 32 7);
  sh_build := None; sh_thread := true; sh_exchange _ _ := Err [] |}.
Definition moved_disk : FileTree.Disk (list N) :=
  let w := workspace_root [$"cdenv"; $"home"] (mkWorkspaceName ($"w")) in
  mkDisk (<[$"state.json" :: w := mkEntry Kind_File 1000 384 []]> (<[$".lock" :: w := mkEntry Kind_File 1000 384 []]> (tree bound_disk)))
    (script bound_disk) (ticks bound_disk).
#[local] Instance fixed_state_codec : StateSerde (list N) := {|
  header_from_slice _ := Some WORKSPACE_STATE_SCHEMA_VERSION; state_from_slice _ := Some bound_state; legacy_from_slice _ := None;
  to_vec_pretty _ := None; push_newline l := l |}.
Definition moved_change (command : CredentialsCommand) :=
  @mutate_credentials moved_host sample_permission_codec Installation.sample_codec fixed_state_codec sample_control_codec
    (fun _ => None) [$"cdenv"; $"home"] command.

(** The grant does not transfer; but to disable it and then to enable a new one, as the error says, is
    refused again, because nothing replaces the old receipt. *)
Example recovery_guidance_refused :
  let '(d1, _, r1) := moved_change sample_disable moved_disk in
  let '(_, _, r2) := moved_change sample_enable d1 in
  snd (@credential_supervisor_lease moved_host sample_permission_codec [$"cdenv"; $"home"] bound_state
         (mkUser 1000 1000) ($"/home/u") (mkGenerationId 4) moved_disk) = Err Credential_Binding
  /\ is_ok r1 = true /\ r2 = Err Credential_Binding.
Proof. vm_compute. by split_and!. Qed.
