(* ===== verification/ComposeRebuild.v ===== *)
(** * ComposeRebuild: the non-atomic replacement of a Compose project
    ([cdenv-cli/src/compose_rebuild.rs])

    The runtime is the trait of the source, as a class over its world; [is_cancelled] reads the
    cancellation token, which any call may find set.  A panic of the source is the outcome
    [Panicked], which the theorem excludes.  The evidence types are in [WorkspaceState], which
    stores them. *)

From S2P Require Import Prelude Text Order Effects Identity Workspace Status Storage WorkspaceState.

(** ** Evidence *)

(** @src cdenv-cli/src/compose_rebuild.rs:27-36 ObservedComposeService *)
Record ObservedComposeService : Type := mkObserved {
  ob_service : str;
  ob_container : ContainerId;
  ob_running : bool;
  ob_health : ComposeServiceHealth;
}.

#[export] Instance ComposeServiceHealth_eq_dec : EqDecision ComposeServiceHealth.
Proof. solve_decision. Defined.

Definition healthy_service (s : ComposePartialService) : bool :=
  match s with Service_Present _ true Health_Healthy => true | _ => false end.

(** @src cdenv-cli/src/compose_rebuild.rs:73-84 ComposePartialState::is_complete_healthy *)
Definition is_complete_healthy (p : ComposePartialState) : bool :=
  forallb (fun '(_, service) => healthy_service service) (map_to_list (partial_services p)).

(** @src cdenv-cli/src/compose_rebuild.rs:88-102 ComposePartialState::healthy_managed_set *)
Definition present_containers (p : ComposePartialState) : strmap ContainerId :=
  omap (fun service => match service with
                       | Service_Present container _ _ => Some container
                       | _ => None
                       end) (partial_services p).

(** @src cdenv-cli/src/compose_rebuild.rs:88-102 ComposePartialState::healthy_managed_set *)
Definition healthy_managed_set (p : ComposePartialState) : option (strmap ContainerId) :=
  if is_complete_healthy p then Some (present_containers p) else None.

Definition container_le (a b : ContainerId) : Prop := str_le (container_str a) (container_str b).
#[export] Instance container_le_dec a b : Decision (container_le a b) := str_le_dec _ _.

(** [grouped.get(service)]: the observations of one service, in order.
    @src cdenv-cli/src/compose_rebuild.rs:112-115 classify_compose_partial_state *)
Definition grouped (observed : list ObservedComposeService) (service : str) : list ObservedComposeService :=
  filter (fun o => ob_service o = service) observed.

(** @src cdenv-cli/src/compose_rebuild.rs:119-134 classify_compose_partial_state *)
Definition classify_service (matches : list ObservedComposeService) : ComposePartialService :=
  match matches with
  | [] => Service_Missing
  | [o] => Service_Present (ob_container o) (ob_running o) (ob_health o)
  | _ => Service_Ambiguous (merge_sort container_le (List.map ob_container matches))
  end.

(** @src cdenv-cli/src/compose_rebuild.rs:107-142 classify_compose_partial_state *)
Definition classify_compose_partial_state (generation : GenerationId) (desired_services : list str)
    (observed : list ObservedComposeService) : ComposePartialState :=
  mkPartialState generation
    (fold_left (fun services service =>
       <[service := classify_service (grouped observed service)]> services) desired_services ∅).

(** ** Requests, outcomes, errors *)

(** @src cdenv-cli/src/compose_rebuild.rs:175-188 ComposeRebuildRequest *)
Record ComposeRebuildRequest (P : Type) : Type := mkComposeRequest {
  cr_desired : P;
  cr_managed_services : list str;
  cr_primary_service : str;
  cr_generation : GenerationId;
  cr_previous_primary : option ContainerId;
  cr_no_cache : bool;
}.
Arguments mkComposeRequest {P} _ _ _ _ _ _.
Arguments cr_desired {P} _.
Arguments cr_managed_services {P} _.
Arguments cr_primary_service {P} _.
Arguments cr_generation {P} _.
Arguments cr_previous_primary {P} _.
Arguments cr_no_cache {P} _.

(** @src cdenv-cli/src/compose_rebuild.rs:192-197 ComposeCleanupKind *)
Inductive ComposeCleanupKind : Type := Cleanup_Orphans | Cleanup_GeneratedImages.

(** @src cdenv-cli/src/compose_rebuild.rs:210-217 ComposeRebuildOutcome *)
Record ComposeRebuildOutcome (E : Type) : Type := mkComposeOutcome {
  co_active : ActiveGeneration;
  co_managed : strmap ContainerId;
  co_cleanup_warnings : list (ComposeCleanupKind * E);
}.
Arguments mkComposeOutcome {E} _ _ _.
Arguments co_active {E} _.
Arguments co_managed {E} _.
Arguments co_cleanup_warnings {E} _.

(** @src cdenv-cli/src/compose_rebuild.rs:221-226 ComposePartialEvidence *)
Inductive ComposePartialEvidence (E : Type) : Type :=
| Evidence_Inspected (state : ComposePartialState)
| Evidence_InspectionFailed (error : E).
Arguments Evidence_Inspected {E} _.
Arguments Evidence_InspectionFailed {E} _.

(** @src cdenv-cli/src/compose_rebuild.rs:230-240 ComposeRebuildInvariantError *)
Inductive ComposeRebuildInvariantError : Type := InvalidManagedSet | ReusedPrimary | InvalidReadiness.

(** @src cdenv-cli/src/compose_rebuild.rs:244-285 ComposeRebuildError *)
Inductive ComposeRebuildError (E : Type) : Type :=
| Compose_Build (source : E)
| Compose_CancelledBeforeRecreation
| Compose_Cancelled (phase : ComposeRebuildPhase) (evidence : ComposePartialEvidence E)
| Compose_Partial (phase : ComposeRebuildPhase) (source : E) (evidence : ComposePartialEvidence E)
| Compose_Invariant (phase : ComposeRebuildPhase) (source : ComposeRebuildInvariantError)
    (evidence : ComposePartialEvidence E).
Arguments Compose_Build {E} _.
Arguments Compose_CancelledBeforeRecreation {E}.
Arguments Compose_Cancelled {E} _ _.
Arguments Compose_Partial {E} _ _ _.
Arguments Compose_Invariant {E} _ _ _.

#[export] Instance ComposeRebuildPhase_eq_dec : EqDecision ComposeRebuildPhase.
Proof. solve_decision. Defined.

(** What a failure says about the services, unless it came before the recreation.
    @src cdenv-cli/src/compose_rebuild.rs:290-307 ComposeRebuildError::recovery *)
Definition failure_evidence {E} (e : ComposeRebuildError E) :
    option (ComposeRebuildPhase * ComposePartialEvidence E) :=
  match e with
  | Compose_Cancelled phase evidence | Compose_Partial phase _ evidence
  | Compose_Invariant phase _ evidence =>
      if bool_decide (phase = Compose_BuildFirst) then None else Some (phase, evidence)
  | Compose_Build _ | Compose_CancelledBeforeRecreation => None
  end.

(** @src cdenv-cli/src/compose_rebuild.rs:290-317 ComposeRebuildError::recovery *)
Definition recovery {E} (e : ComposeRebuildError E) (generation : GenerationId) :
    option ComposeRebuildRecovery :=
  match failure_evidence e with
  | None => None
  | Some (phase, evidence) =>
      Some (mkRecovery generation phase
        match evidence with
        | Evidence_Inspected state => Some state
        | Evidence_InspectionFailed _ => None
        end)
  end.

(** ** The runtime *)

(** @src cdenv-cli/src/compose_rebuild.rs:322-380 ComposeRebuildRuntime *)
Class ComposeRebuildRuntime (A P B E : Type) : Type := {
  build_complete : P -> GenerationId -> bool -> A -> A * result E B;
  force_recreate : P -> B -> GenerationId -> A -> A * result E unit;
  inspect_services : GenerationId -> A -> A * result E (list ObservedComposeService);
  complete_readiness : P -> B -> GenerationId -> strmap ContainerId -> A -> A * result E ActiveGeneration;
  handoff_forwarding : ActiveGeneration -> A -> A * result E unit;
  commit_active_runtime : ActiveGeneration -> strmap ContainerId -> A -> A * result E unit;
  remove_orphans : strmap ContainerId -> A -> A * result E unit;
  cleanup_generated_images : A -> A * result E unit;
}.

(** The calls, with what the theorems need of their arguments and answers. *)
Inductive ComposeCall (E : Type) : Type :=
| On_Build (ok : bool)
| On_Recreate (ok : bool)
| On_Inspect (answer : result E (list ObservedComposeService))
| On_Readiness (managed : strmap ContainerId) (answer : result E ActiveGeneration)
| On_Handoff (active : ActiveGeneration) (ok : bool)
| On_Commit (active : ActiveGeneration) (managed : strmap ContainerId) (ok : bool)
| On_Orphans (managed : strmap ContainerId) (answer : result E unit)
| On_Images (answer : result E unit).
Arguments On_Build {E} _.
Arguments On_Recreate {E} _.
Arguments On_Inspect {E} _.
Arguments On_Readiness {E} _ _.
Arguments On_Handoff {E} _ _.
Arguments On_Commit {E} _ _ _.
Arguments On_Orphans {E} _ _.
Arguments On_Images {E} _.

Inductive ComposeFailure (E : Type) : Type :=
| Failed (error : ComposeRebuildError E)
| Panicked.
Arguments Failed {E} _.
Arguments Panicked {E}.

Section rebuild.
Context {A P B E : Type} `{!ComposeRebuildRuntime A P B E} (is_cancelled : A -> bool).

Abbreviation compose X := (act A (ComposeCall E) (ComposeFailure E) X) (only parsing).
Abbreviation request_of := (ComposeRebuildRequest P) (only parsing).

Definition fail {X} (e : ComposeRebuildError E) : compose X := raise (Failed e).

(** @src cdenv-cli/src/compose_rebuild.rs:590-617 validate_request *)
Definition validate_request (request : request_of) : result (ComposeRebuildError E) unit :=
  let services := cr_managed_services request in
  if bool_decide (services = [])
     || negb (Nat.eqb (size (list_to_set (C := gset (list N)) services)) (length services))
     || negb (existsb (fun service => bool_decide (service = cr_primary_service request)) services)
     || existsb (fun service => bool_decide (service = []) || starts_with ($"-") service
                                || existsb is_control service) services
  then Err (Compose_Invariant Compose_BuildFirst InvalidManagedSet
              (Evidence_Inspected (mkPartialState (cr_generation request) ∅)))
  else Ok tt.

(** @src cdenv-cli/src/compose_rebuild.rs:572-587 ComposeRebuildOrchestrator::evidence *)
Definition evidence {X} (request : request_of) (k : ComposePartialEvidence E -> compose X) : compose X :=
  do? observed := invoke On_Inspect (inspect_services (cr_generation request))
    else (fun e => k (Evidence_InspectionFailed e)) in
  k (Evidence_Inspected (classify_compose_partial_state (cr_generation request)
       (cr_managed_services request) observed)).

(** @src cdenv-cli/src/compose_rebuild.rs:542-556 ComposeRebuildOrchestrator::partial_error *)
Definition partial_error {X} (phase : ComposeRebuildPhase) (source : E) (request : request_of) : compose X :=
  evidence request (fun evidence => fail (Compose_Partial phase source evidence)).

(** @src cdenv-cli/src/compose_rebuild.rs:558-570 ComposeRebuildOrchestrator::cancelled *)
Definition cancelled {X} (phase : ComposeRebuildPhase) (request : request_of) : compose X :=
  evidence request (fun evidence => fail (Compose_Cancelled phase evidence)).

Definition unless_cancelled {X} (stop k : compose X) : compose X :=
  observe is_cancelled (fun c : bool => if c then stop else k).

(** The warning-only cleanup.
    @src cdenv-cli/src/compose_rebuild.rs:522-539 ComposeRebuildOrchestrator::rebuild *)
Definition compose_cleanup (active : ActiveGeneration) (managed : strmap ContainerId) :
    compose (ComposeRebuildOutcome E) :=
  let images warnings :=
    do? _ := invoke On_Images cleanup_generated_images
      else (fun e => done (mkComposeOutcome active managed (warnings ++ [(Cleanup_GeneratedImages, e)]))) in
    done (mkComposeOutcome active managed warnings) in
  do? _ := invoke (On_Orphans managed) (remove_orphans managed)
    else (fun e => images [(Cleanup_Orphans, e)]) in
  images [].

(** From the rediscovered set to the commit.
    @src cdenv-cli/src/compose_rebuild.rs:477-520 ComposeRebuildOrchestrator::rebuild *)
Definition ready_and_commit (request : request_of) (build : B) (partial : ComposePartialState)
    (managed : strmap ContainerId) (primary : ContainerId) : compose (ComposeRebuildOutcome E) :=
  let seen := Evidence_Inspected partial in
  do? active := invoke (On_Readiness managed)
      (complete_readiness (cr_desired request) build (cr_generation request) managed)
    else (fun e => fail (Compose_Partial Compose_Readiness e seen)) in
  if negb (bool_decide (ag_generation active = cr_generation request))
     || negb (bool_decide (ag_container_id active = primary))
  then fail (Compose_Invariant Compose_Readiness InvalidReadiness seen) else
  unless_cancelled (cancelled Compose_Readiness request) (
  do? _ := invoke (fun r => On_Handoff active (is_ok r)) (handoff_forwarding active)
    else (fun e => fail (Compose_Partial Compose_Forwarding e seen)) in
  unless_cancelled (cancelled Compose_Forwarding request) (
  do? _ := invoke (fun r => On_Commit active managed (is_ok r)) (commit_active_runtime active managed)
    else (fun e => fail (Compose_Partial Compose_ActiveCommit e seen)) in
  compose_cleanup active managed)).

(** From the recreation to the rediscovered set.
    @src cdenv-cli/src/compose_rebuild.rs:438-476 ComposeRebuildOrchestrator::rebuild *)
Definition discover (request : request_of) (build : B) : compose (ComposeRebuildOutcome E) :=
  let classify := classify_compose_partial_state (cr_generation request) (cr_managed_services request) in
  do? observed := invoke On_Inspect (inspect_services (cr_generation request))
    else (fun e => fail (Compose_Partial Compose_ManagedSet e (Evidence_Inspected (classify [])))) in
  let partial := classify observed in
  let seen := Evidence_Inspected partial in
  match healthy_managed_set partial with
  | None => fail (Compose_Invariant Compose_ManagedSet InvalidReadiness seen)
  | Some managed =>
      match managed !! cr_primary_service request with
      | None => raise Panicked
      | Some primary =>
          if bool_decide (cr_previous_primary request = Some primary)
          then fail (Compose_Invariant Compose_ManagedSet ReusedPrimary seen) else
          unless_cancelled (fail (Compose_Cancelled Compose_ManagedSet seen))
            (ready_and_commit request build partial managed primary)
      end
  end.

(** @src cdenv-cli/src/compose_rebuild.rs:409-540 ComposeRebuildOrchestrator::rebuild *)
Definition rebuild_compose (request : request_of) : compose (ComposeRebuildOutcome E) :=
  match validate_request request with
  | Err e => fail e
  | Ok _ =>
  unless_cancelled (fail Compose_CancelledBeforeRecreation) (
  do? build := invoke (fun r => On_Build (is_ok r))
      (build_complete (cr_desired request) (cr_generation request) (cr_no_cache request))
    else (fun e => fail (Compose_Build e)) in
  unless_cancelled (fail Compose_CancelledBeforeRecreation) (
  do? _ := invoke (fun r => On_Recreate (is_ok r))
      (force_recreate (cr_desired request) build (cr_generation request))
    else (fun e => partial_error Compose_Recreation e request) in
  unless_cancelled (cancelled Compose_Recreation request) (discover request build)))
  end.
End rebuild.

(** ** Classification *)

Lemma classify_lookup generation services observed service :
  partial_services (classify_compose_partial_state generation services observed) !! service =
  if bool_decide (service ∈ services) then Some (classify_service (grouped observed service)) else None.
Proof.
  unfold classify_compose_partial_state. cbn [partial_services].
  induction services as [|s services IH] using rev_ind; [done|]. rewrite fold_left_app. cbn [fold_left].
  destruct (decide (service = s)) as [->|Hne].
  - rewrite lookup_insert_eq, bool_decide_eq_true_2; [done|set_solver].
  - rewrite lookup_insert_ne by done. rewrite IH.
    erewrite bool_decide_ext; [done|]. set_solver.
Qed.

(** [service] has exactly one observed container, which runs and is healthy. *)
Definition uniquely_healthy (observed : list ObservedComposeService) (service : str)
    (container : ContainerId) : Prop :=
  exists o, grouped observed service = [o] /\ ob_container o = container /\ ob_running o = true
    /\ ob_health o = Health_Healthy.

Lemma healthy_service_classified observed service :
  healthy_service (classify_service (grouped observed service)) = true <->
  exists container, uniquely_healthy observed service container.
Proof.
  unfold uniquely_healthy. split.
  - destruct (grouped observed service) as [|o [|o' l]]; cbn; [done| |done].
    destruct (ob_running o) eqn:Hr, (ob_health o) eqn:Hh; try done. eauto 10.
  - intros (c & o & -> & _ & Hr & Hh). cbn. by rewrite Hr, Hh.
Qed.

(** The managed set exists exactly when every desired service is uniquely healthy, and then it is
    the map from the services to those containers. *)
Lemma healthy_managed_set_Some generation services observed managed :
  healthy_managed_set (classify_compose_partial_state generation services observed) = Some managed ->
  (forall service, service ∈ services -> exists container, managed !! service = Some container) /\
  forall service container, managed !! service = Some container ->
    service ∈ services /\ uniquely_healthy observed service container.
Proof.
  unfold healthy_managed_set. destruct (is_complete_healthy _) eqn:Hh; [|done]. intros [= <-].
  unfold is_complete_healthy in Hh. rewrite forallb_Forall, Forall_forall in Hh.
  assert (Hall : forall service, service ∈ services -> exists container,
    uniquely_healthy observed service container).
  { intros service Hs. apply healthy_service_classified.
    apply (Hh (service, _)), elem_of_map_to_list. by rewrite classify_lookup, bool_decide_eq_true_2. }
  assert (Hlook : forall service container, service ∈ services ->
    uniquely_healthy observed service container ->
    present_containers (classify_compose_partial_state generation services observed) !! service
    = Some container).
  { intros service container Hs (o & Ho & <- & _). unfold present_containers. rewrite lookup_omap, classify_lookup, bool_decide_eq_true_2 by done.
    cbn. by rewrite Ho. }
  split.
  - intros service Hs. destruct (Hall _ Hs) as [container Hc]. exists container. by apply Hlook.
  - intros service container Hm. destruct (decide (service ∈ services)) as [Hs|Hs].
    + split; [done|]. destruct (Hall _ Hs) as [c Hc]. rewrite (Hlook _ _ Hs Hc) in Hm. by injection Hm as <-.
    + unfold present_containers in Hm. by rewrite lookup_omap, classify_lookup, bool_decide_eq_false_2 in Hm by done.
Qed.

(** ** The trace of a replacement *)

Section replacement.
Context {A P B E : Type} `{!ComposeRebuildRuntime A P B E} (is_cancelled : A -> bool).

Definition warning_of (kind : ComposeCleanupKind) (answer : result E unit) : list (ComposeCleanupKind * E) :=
  match answer with Ok _ => [] | Err e => [(kind, e)] end.

(** A run that succeeds: the calls in order, on the set that was discovered. *)
Record replaced (request : ComposeRebuildRequest P) (t : list (ComposeCall E))
    (outcome : ComposeRebuildOutcome E) : Prop := mkReplaced {
  rp_calls : exists observed orphans images,
    t = [On_Build true; On_Recreate true; On_Inspect (Ok observed);
         On_Readiness (co_managed outcome) (Ok (co_active outcome)); On_Handoff (co_active outcome) true;
         On_Commit (co_active outcome) (co_managed outcome) true;
         On_Orphans (co_managed outcome) orphans; On_Images images] /\
    (forall service container, co_managed outcome !! service = Some container ->
       uniquely_healthy observed service container) /\
    co_cleanup_warnings outcome =
      warning_of Cleanup_Orphans orphans ++ warning_of Cleanup_GeneratedImages images;
  rp_services service : service ∈ cr_managed_services request <-> is_Some (co_managed outcome !! service);
  rp_generation : ag_generation (co_active outcome) = cr_generation request;
  rp_primary : co_managed outcome !! cr_primary_service request = Some (ag_container_id (co_active outcome));
  rp_replaced : cr_previous_primary request <> Some (ag_container_id (co_active outcome));
}.

(** What a failure may say of the services: the classification of the answer to an inspection that
    was made, the failure of that inspection, or, when the discovery itself failed, that every
    service is missing. *)
Definition evidence_from (request : ComposeRebuildRequest P) (t : list (ComposeCall E))
    (e : ComposeRebuildError E) (phase : ComposeRebuildPhase) (evidence : ComposePartialEvidence E) : Prop :=
  let classify := classify_compose_partial_state (cr_generation request) (cr_managed_services request) in
  match evidence with
  | Evidence_Inspected state =>
      (exists observed, On_Inspect (Ok observed) ∈ t /\ state = classify observed) \/
      (phase = Compose_ManagedSet /\ exists source, e = Compose_Partial phase source evidence
         /\ On_Inspect (Err source) ∈ t /\ state = classify [])
  | Evidence_InspectionFailed source => On_Inspect (Err source) ∈ t
  end.

Definition is_recreate (c : ComposeCall E) : bool :=
  match c with On_Recreate _ => true | _ => false end.
(** What follows a successful commit. *)
Definition is_final (c : ComposeCall E) : bool :=
  match c with On_Commit _ _ true | On_Orphans _ _ | On_Images _ => true | _ => false end.
Definition is_commit (c : ComposeCall E) : bool :=
  match c with On_Commit _ _ _ => true | _ => false end.

Record not_replaced (request : ComposeRebuildRequest P) (t : list (ComposeCall E))
    (e : ComposeRebuildError E) : Prop := mkNotReplaced {
  nr_final : existsb is_final t = false;
  nr_commit : existsb is_commit t = true -> exists source evidence, e = Compose_Partial Compose_ActiveCommit source evidence;
  nr_recovery : is_Some_b (failure_evidence e) = existsb is_recreate t;
  nr_evidence phase evidence :
    failure_evidence e = Some (phase, evidence) -> evidence_from request t e phase evidence;
}.

Definition compose_result (request : ComposeRebuildRequest P) (t : list (ComposeCall E))
    (r : result (ComposeFailure E) (ComposeRebuildOutcome E)) : Prop :=
  match r with
  | Ok outcome => replaced request t outcome
  | Err (Failed e) => not_replaced request t e
  | Err Panicked => False
  end.

Lemma validate_request_primary (request : ComposeRebuildRequest P) :
  validate_request (E := E) request = Ok tt -> cr_primary_service request ∈ cr_managed_services request.
Proof.
  unfold validate_request. set (primary := existsb _ _). assert (Hp := existsb_true_iff
    (fun service => bool_decide (service = cr_primary_service request)) (cr_managed_services request)).
  fold primary in Hp. destruct primary; [|by rewrite orb_true_r]. intros _.
  destruct (proj1 (Exists_exists _ _) (proj1 Hp eq_refl)) as (s & Hs & He). by case_bool_decide; subst.
Qed.

(** Leaves of the failing branches. *)
Lemma not_replaced_intro request t e :
  existsb is_final t = false ->
  (existsb is_commit t = true -> exists source evidence, e = Compose_Partial Compose_ActiveCommit source evidence) ->
  is_Some_b (failure_evidence e) = existsb is_recreate t ->
  match failure_evidence e with
  | Some (phase, evidence) => evidence_from request t e phase evidence
  | None => True
  end -> not_replaced request t e.
Proof. intros ? ? ? He. split; [done..|]. intros phase evidence Hf. by rewrite Hf in He. Qed.

(** Closes a branch that fails: the trace is concrete. *)
Ltac leaf :=
  apply emits_raise, not_replaced_intro; cbn -[classify_compose_partial_state];
  [done|try done; eauto|done|];
  try (left; eexists; split; [|reflexivity]); set_solver.

(** C19: a Compose replacement commits last and never guesses.  Whatever the runtime answers and
    whenever it is cancelled, a success made the calls build, recreate, inspect, readiness,
    handoff, commit, cleanup in this order and once each; the managed set it commits has exactly
    the requested services, each with the only container observed for it, running and healthy;
    the active generation is the requested one, on the primary service's container, which is not
    the previous primary.  A failure committed nothing and cleaned nothing up, unless the commit
    itself failed, which the error says; it has recovery evidence exactly when the recreation was
    attempted; and this evidence is the classification of the answer to an inspection of the run
    or the failure of one, except that a failed discovery is reported as every service missing.
    The lookup of the primary service does not panic. *)
Theorem compose_rebuild_commits_last (request : ComposeRebuildRequest P) :
  emits (rebuild_compose is_cancelled request) (compose_result request).
Proof.
  unfold rebuild_compose, discover, ready_and_commit, unless_cancelled, cancelled, partial_error, evidence,
    compose_cleanup.
  destruct (validate_request request) as [[]|e] eqn:Hv.
  2:{ apply emits_raise. unfold validate_request in Hv. case_match; [|done]. injection Hv as <-.
      apply not_replaced_intro; done. }
  trace; try leaf.
  - destruct (healthy_managed_set _) as [managed|] eqn:Hm; [|leaf].
    apply healthy_managed_set_Some in Hm as [Hall Hm].
    destruct (Hall _ (validate_request_primary _ Hv)) as [primary Hp]. rewrite Hp.
    case_bool_decide as Hprev; [leaf|]. trace; [leaf| |leaf].
    destruct (negb _ || negb _) eqn:Hid; [leaf|]. prop_of_bool. subst primary. trace; try leaf.
    all: split; [by eexists _, _, _; split_and!; [|intros; eapply Hm|]|..]; try done.
    all: intros service; split; [by intros ?%Hall|]; intros [c Hc]; by eapply Hm.
  - apply emits_raise, not_replaced_intro; try done. right. split; [done|]. eexists.
    split_and!; [done|set_solver|done].
Qed.
End replacement.

(** ** Concrete runs *)

Section examples.
Let db := $"db".
Let web := $"web".
Let observed := [mkObserved web (mkContainerId ($"c2")) true Health_Healthy;
                 mkObserved db (mkContainerId ($"c1")) true Health_Healthy].
Let request := mkComposeRequest tt [web; db] web (mkGenerationId 2) (Some (mkContainerId ($"c0"))) false.

(** The world is the answer to the inspections. *)
Definition scripted_runtime (active : ActiveGeneration) :
    ComposeRebuildRuntime (result unit (list ObservedComposeService)) unit unit unit := {|
  build_complete _ _ _ a := (a, Ok tt);
  force_recreate _ _ _ a := (a, Ok tt);
  inspect_services _ a := (a, a);
  complete_readiness _ _ _ _ a := (a, Ok active);
  handoff_forwarding _ a := (a, Ok tt);
  commit_active_runtime _ _ a := (a, Ok tt);
  remove_orphans _ a := (a, Err tt);
  cleanup_generated_images a := (a, Ok tt);
|}.

Definition scripted_run (active : ActiveGeneration) (answer : result unit (list ObservedComposeService)) :=
  snd (@rebuild_compose _ _ _ _ (scripted_runtime active) (fun _ => false) request answer).

Example compose_rebuild_succeeds active :
  ag_generation active = mkGenerationId 2 -> ag_container_id active = mkContainerId ($"c2") ->
  scripted_run active (Ok observed) =
  Ok (mkComposeOutcome active {[web := mkContainerId ($"c2"); db := mkContainerId ($"c1")]}
        [(Cleanup_Orphans, tt)]).
Proof.
  destruct active. cbn. intros -> ->. vm_compute. reflexivity.
Qed.

(** When the discovery fails, the evidence says that the services are missing, although nothing was
    seen: a persisted recovery has [partial] of services that may all run. *)
Example failed_discovery_reports_missing active :
  match scripted_run active (Err tt) with
  | Err (Failed e) =>
      recovery e (mkGenerationId 2) = Some (mkRecovery (mkGenerationId 2) Compose_ManagedSet
        (Some (mkPartialState (mkGenerationId 2) {[web := Service_Missing; db := Service_Missing]})))
  | _ => False
  end.
Proof. vm_compute. reflexivity. Qed.
End examples.
