(* ===== verification/ComposeLifecycle.v ===== *)
(** * ComposeLifecycle: start and stop of a persisted set of Compose services
    ([cdenv-cli/src/compose_lifecycle.rs])

    The coordinator calls Compose and the Docker adapter through two traits, here the classes
    [ComposeLifecycleCli] and [ComposeLifecycleEngine] over an arbitrary world; the cancellation
    token is a predicate on it.  A trace holds the calls with their answers.  An index that the
    source takes without a check is [Panicked] when it is absent. *)

From S2P Require Import Prelude Text Order Identity Workspace Ports DockerCommands DockerInspection Compose Effects.

(** ** Requests and outcomes *)

(** The files and directories of a project are data of the Compose adapter.
    @src cdenv-cli/src/compose.rs:24-31 ComposeProject *)
Record ComposeProject : Type := mkProject { pj_files : list str; pj_project_name : str; pj_working_directory : str }.
(** @src cdenv-cli/src/compose.rs:48-55 ComposeUpRequest *)
Record ComposeUpRequest : Type := mkUpRequest { up_project : ComposeProject; up_plan : ComposePlan; up_force_recreate : bool }.
(** @src cdenv-cli/src/compose.rs:58-63 ComposeStopRequest *)
Record ComposeStopRequest : Type := mkStopRequest { st_project : ComposeProject; st_managed_services : list str }.
(** @src cdenv-cli/src/compose.rs:76-81 ComposeUpClaim *)
Record ComposeUpClaim : Type := mkUpClaim { cl_primary : ContainerId; cl_managed : strmap ContainerId }.

(** @src cdenv-cli/src/compose_lifecycle.rs:115-126 RecordedComposeRequest *)
Record RecordedComposeRequest : Type := mkRecorded {
  rc_identity : DockerResourceIdentity;
  rc_project : str;
  rc_primary_service : str;
  rc_primary : ContainerId;
  rc_managed_services : list str;
}.

(** @src cdenv-cli/src/compose_lifecycle.rs:129-138 CreateComposeRequest *)
Record CreateComposeRequest : Type := mkCreateCompose {
  cr_up : ComposeUpRequest;
  cr_identity : DockerResourceIdentity;
  cr_primary_image : ImageId;
  cr_ports : PortPlan;
}.

(** @src cdenv-cli/src/compose_lifecycle.rs:142-147 ComposeLifecycleFacts *)
Record ComposeLifecycleFacts : Type := mkFacts { fa_primary : ContainerId; fa_managed : strmap ContainerId }.

(** @src cdenv-cli/src/compose_lifecycle.rs:151-158 ComposeStopOutcome *)
Inductive ComposeStopOutcome : Type :=
| Outcome_Stopped (facts : ComposeLifecycleFacts)
| Outcome_AlreadyStopped (facts : ComposeLifecycleFacts)
| Outcome_Missing.

(** @src cdenv-cli/src/compose_lifecycle.rs:162-193 ComposeServiceSetState *)
Inductive ComposeServiceSetState : Type :=
| Set_CompleteRunning
| Set_CompleteStopped
| Set_PartiallyRunning (running stopped : list str)
| Set_Missing (missing running stopped : list str)
| Set_Ambiguous (services : list str)
| Set_PrimarySubstituted (actual : ContainerId).

#[export] Instance ComposeServiceSetState_eq_dec : EqDecision ComposeServiceSetState.
Proof. solve_decision. Defined.

(** The error [C] of the Compose adapter is arbitrary; the name of the operation is kept.
    @src cdenv-cli/src/compose_lifecycle.rs:198-243 ComposeLifecycleError *)
Inductive ComposeLifecycleError (C : Type) : Type :=
| Lifecycle_Cancelled (completed : list str)
| Lifecycle_InvalidManagedSet
| Lifecycle_UnsafeServiceSet (state : ComposeServiceSetState)
| Lifecycle_Compose (operation : str) (source : C)
| Lifecycle_Docker (operation : str) (source : BollardAdapterError)
| Lifecycle_ClaimSetMismatch
| Lifecycle_ServiceMismatch (service field : str).
Arguments Lifecycle_Cancelled {C} _.
Arguments Lifecycle_InvalidManagedSet {C}.
Arguments Lifecycle_UnsafeServiceSet {C} _.
Arguments Lifecycle_Compose {C} _ _.
Arguments Lifecycle_Docker {C} _ _.
Arguments Lifecycle_ClaimSetMismatch {C}.
Arguments Lifecycle_ServiceMismatch {C} _ _.

Inductive LifecycleStop (C : Type) : Type := Refused (error : ComposeLifecycleError C) | Panicked.
Arguments Refused {C} _.
Arguments Panicked {C}.

(** ** Classification *)

(** @src cdenv-cli/src/compose_lifecycle.rs:709-711 label *)
Definition label (labels : strmap str) (name : str) : option str := labels !! name.

(** What the loop over the persisted services collects. *)
Record Resolved : Type := mkResolved {
  rv_missing : list str;
  rv_ambiguous : list str;
  rv_running : list str;
  rv_stopped : list str;
  rv_managed : strmap ContainerId;
}.

(** The containers that the source groups under a service.
    @src cdenv-cli/src/compose_lifecycle.rs:566-573 resolve_service_set *)
Definition service_containers (project : str) (discovered : list DiscoveredContainer) (service : str) : list DiscoveredContainer :=
  List.filter (is_service project service) discovered.

(** @src cdenv-cli/src/compose_lifecycle.rs:579-592 resolve_service_set *)
Definition resolve_step (project : str) (discovered : list DiscoveredContainer) (acc : Resolved) (service : str) : Resolved :=
  match service_containers project discovered service with
  | [] => mkResolved (rv_missing acc ++ [service]) (rv_ambiguous acc) (rv_running acc) (rv_stopped acc) (rv_managed acc)
  | [container] =>
      let managed := <[service := dc_id container]> (rv_managed acc) in
      if is_running container
      then mkResolved (rv_missing acc) (rv_ambiguous acc) (rv_running acc ++ [service]) (rv_stopped acc) managed
      else mkResolved (rv_missing acc) (rv_ambiguous acc) (rv_running acc) (rv_stopped acc ++ [service]) managed
  | _ => mkResolved (rv_missing acc) (rv_ambiguous acc ++ [service]) (rv_running acc) (rv_stopped acc) (rv_managed acc)
  end.

(** @src cdenv-cli/src/compose_lifecycle.rs:562-618 resolve_service_set *)
Definition resolve_service_set (request : RecordedComposeRequest) (discovered : list DiscoveredContainer) :
    ComposeServiceSetState * strmap ContainerId :=
  let r := fold_left (resolve_step (rc_project request) discovered) (rc_managed_services request) (mkResolved [] [] [] [] ∅) in
  let primary := rv_managed r !! rc_primary_service request in
  let state :=
    if negb (bool_decide (rv_ambiguous r = [])) then Set_Ambiguous (rv_ambiguous r)
    else if negb (bool_decide (rv_missing r = [])) then Set_Missing (rv_missing r) (rv_running r) (rv_stopped r)
    else match primary with
    | Some id =>
        if negb (bool_decide (id = rc_primary request)) then Set_PrimarySubstituted id
        else if bool_decide (rv_stopped r = []) then Set_CompleteRunning
        else if bool_decide (rv_running r = []) then Set_CompleteStopped
        else Set_PartiallyRunning (rv_running r) (rv_stopped r)
    | None =>
        if bool_decide (rv_stopped r = []) then Set_CompleteRunning
        else if bool_decide (rv_running r = []) then Set_CompleteStopped
        else Set_PartiallyRunning (rv_running r) (rv_stopped r)
    end in
  (state, rv_managed r).

(** @src cdenv-cli/src/compose_lifecycle.rs:555-560 classify_compose_service_set *)
Definition classify_compose_service_set (request : RecordedComposeRequest) (discovered : list DiscoveredContainer) :
    ComposeServiceSetState := (resolve_service_set request discovered).1.

(** @src cdenv-cli/src/compose_lifecycle.rs:620-629 is_completely_missing *)
Definition is_completely_missing (state : ComposeServiceSetState) (expected : N) : bool :=
  match state with
  | Set_Missing missing running stopped =>
      (lenN missing =? expected) && bool_decide (running = []) && bool_decide (stopped = [])
  | _ => false
  end.

(** The states that are reported without a mutation. *)
Definition is_unsafe (state : ComposeServiceSetState) : bool :=
  match state with Set_Missing _ _ _ | Set_Ambiguous _ | Set_PrimarySubstituted _ => true | _ => false end.

Section pure.
Context {C : Type}.
(** @src cdenv-cli/src/compose_lifecycle.rs:631-646 validate_recorded *)
Definition validate_recorded (request : RecordedComposeRequest) : result (ComposeLifecycleError C) unit :=
  let services := rc_managed_services request in
  if bool_decide (services = []) || negb (bool_decide (NoDup services))
     || negb (existsb (str_eqb (rc_primary_service request)) services)
     || existsb (fun service => bool_decide (service = []) || starts_with [45] service || existsb is_control service) services
  then Err Lifecycle_InvalidManagedSet else Ok tt.

(** [checks]: the fields in order, with what was found and what is expected.
    @src cdenv-cli/src/compose_lifecycle.rs:656-688 verify_service *)
Definition service_checks (inspection : ContainerInspection) (id : ContainerId) (service project : str)
    (identity : DockerResourceIdentity) : list (str * str * str) :=
  let found name := default [] (label (in_labels inspection) name) in
  [($"container ID", container_str (in_id inspection), container_str id);
   ($"installation label", found INSTALLATION_LABEL, installation_str (di_installation identity));
   ($"workspace label", found WORKSPACE_LABEL, name_str (di_workspace identity));
   ($"generation label", found GENERATION_LABEL, to_string (generation_get (di_generation identity)));
   ($"profile label", found PROFILE_LABEL, profile_str (di_profile identity));
   ($"Compose project label", found COMPOSE_PROJECT_LABEL, project);
   ($"Compose service label", found COMPOSE_SERVICE_LABEL, service)].

(** @src cdenv-cli/src/compose_lifecycle.rs:648-707 verify_service *)
Definition verify_service (inspection : ContainerInspection) (id : ContainerId) (service project : str)
    (identity : DockerResourceIdentity) (running : option bool) : result (ComposeLifecycleError C) unit :=
  match List.find (fun '(_, actual, expected) => negb (str_eqb actual expected))
          (service_checks inspection id service project identity) with
  | Some (field, _, _) => Err (Lifecycle_ServiceMismatch service field)
  | None =>
      if match running with Some expected => negb (Bool.eqb (in_running inspection) expected) | None => false end
      then Err (Lifecycle_ServiceMismatch service ($"running state")) else Ok tt
  end.
End pure.

(** ** The coordinator *)

(** @src cdenv-cli/src/compose_lifecycle.rs:23-37 ComposeLifecycleCli *)
Class ComposeLifecycleCli (A C : Type) : Type := {
  cli_up : ComposeUpRequest -> A -> A * result C ComposeUpClaim;
  cli_stop : ComposeStopRequest -> A -> A * result C unit;
}.

(** @src cdenv-cli/src/compose_lifecycle.rs:59-83 ComposeLifecycleEngine *)
Class ComposeLifecycleEngine (A : Type) : Type := {
  engine_discover : DockerResourceIdentity -> A -> A * result BollardAdapterError (list DiscoveredContainer);
  engine_inspect : ContainerId -> A -> A * result BollardAdapterError ContainerInspection;
  engine_start : ContainerId -> A -> A * result BollardAdapterError unit;
  engine_verify_primary : ComposePrimaryExpectation -> A -> A * result BollardAdapterError ContainerInspection;
}.

(** The calls with their answers. *)
Inductive LifecycleCall (C : Type) : Type :=
| LC_Up (request : ComposeUpRequest) (answer : result C ComposeUpClaim)
| LC_Stop (request : ComposeStopRequest) (answer : result C unit)
| LC_Discover (identity : DockerResourceIdentity) (answer : result BollardAdapterError (list DiscoveredContainer))
| LC_Inspect (id : ContainerId) (answer : result BollardAdapterError ContainerInspection)
| LC_Start (id : ContainerId) (answer : result BollardAdapterError unit)
| LC_VerifyPrimary (expected : ComposePrimaryExpectation) (answer : result BollardAdapterError ContainerInspection).
Arguments LC_Up {C} _ _.
Arguments LC_Stop {C} _ _.
Arguments LC_Discover {C} _ _.
Arguments LC_Inspect {C} _ _.
Arguments LC_Start {C} _ _.
Arguments LC_VerifyPrimary {C} _ _.

Section coordinator.
Context {A C : Type} `{!ComposeLifecycleCli A C, !ComposeLifecycleEngine A} (is_cancelled : A -> bool).

Abbreviation compose := (act A (LifecycleCall C) (LifecycleStop C)).
Definition refuse {X} (e : ComposeLifecycleError C) : compose X := raise (Refused e).
Definition require {X} (r : result (ComposeLifecycleError C) X) : compose X := match r with Ok x => done x | Err e => refuse e end.

(** @src cdenv-cli/src/compose_lifecycle.rs:713-724 check_cancelled *)
Definition check_cancelled (completed : list str) : compose unit :=
  observe is_cancelled (fun cancelled : bool => if cancelled then refuse (Lifecycle_Cancelled completed) else done tt).

(** @src cdenv-cli/src/compose_lifecycle.rs:539-550 ComposeLifecycleOrchestrator::discover *)
Definition discover_set (request : RecordedComposeRequest) : compose (list DiscoveredContainer) :=
  do? found := invoke (LC_Discover (rc_identity request)) (engine_discover (rc_identity request))
    or (fun source => Refused (Lifecycle_Docker ($"discover managed Compose services") source)) in
  done found.

(** One service is inspected and verified. *)
Definition inspect_service (operation service project : str) (identity : DockerResourceIdentity) (container : ContainerId)
    (running : option bool) : compose ContainerInspection :=
  do? inspection := invoke (LC_Inspect container) (engine_inspect container)
    or (fun source => Refused (Lifecycle_Docker operation source)) in
  do? _ := require (verify_service inspection container service project identity running) else raise in
  done inspection.

(** The loop over the claim, in the order of its keys.
    @src cdenv-cli/src/compose_lifecycle.rs:311-329 ComposeLifecycleOrchestrator::create_or_rebuild *)
Definition verify_claim (request : CreateComposeRequest) (claim : ComposeUpClaim) : compose unit :=
  each (fun '((service, id) : str * ContainerId) =>
    do? _ := check_cancelled [] else raise in
    do? _ := inspect_service ($"inspect managed Compose service") service (project_name (up_plan (cr_up request)))
      (cr_identity request) id (Some true) else raise in
    done tt) (sorted_entries (cl_managed claim)).

(** @src cdenv-cli/src/compose_lifecycle.rs:265-334 ComposeLifecycleOrchestrator::create_or_rebuild *)
Definition create_or_rebuild (request : CreateComposeRequest) : compose ComposeLifecycleFacts :=
  let plan := up_plan (cr_up request) in
  do? _ := check_cancelled [] else raise in
  do? claim := invoke (LC_Up (cr_up request)) (cli_up (cr_up request))
    or (fun source => Refused (Lifecycle_Compose ($"reconciliation") source)) in
  match cl_managed claim !! primary_service plan with
  | None => refuse Lifecycle_ClaimSetMismatch
  | Some claimed =>
      if negb (bool_decide ((sorted_entries (cl_managed claim)).*1 = managed_services plan))
         || negb (bool_decide (cl_primary claim = claimed))
      then refuse Lifecycle_ClaimSetMismatch else
      do? _ := check_cancelled [] else raise in
      let expected := mkPrimaryExpectation (cl_primary claim) (cr_primary_image request) (cr_identity request)
        (project_name plan) (primary_service plan) true in
      do? inspection := invoke (LC_VerifyPrimary expected) (engine_verify_primary expected)
        or (fun source => Refused (Lifecycle_Docker ($"verify Compose primary") source)) in
      do? _ := match verify_port_bindings inspection (cr_ports request) with
        | Ok _ => done tt
        | Err source => refuse (Lifecycle_Docker ($"verify Compose primary port bindings") source)
        end else raise in
      do? _ := verify_claim request claim else raise in
      done (mkFacts (cl_primary claim) (cl_managed claim))
  end.

(** The services that are started, in order; [completed] are those this run started.
    @src cdenv-cli/src/compose_lifecycle.rs:358-386 ComposeLifecycleOrchestrator::resume *)
Fixpoint start_services (request : RecordedComposeRequest) (managed : strmap ContainerId) (services completed : list str) :
    compose (list str) :=
  match services with
  | [] => done completed
  | service :: rest =>
      do? _ := check_cancelled completed else raise in
      match managed !! service with
      | None => raise Panicked
      | Some container =>
          do? inspection := inspect_service ($"inspect recorded Compose service") service (rc_project request)
            (rc_identity request) container None else raise in
          if in_running inspection then start_services request managed rest completed else
          do? _ := check_cancelled completed else raise in
          do? _ := invoke (LC_Start container) (engine_start container)
            or (fun source => Refused (Lifecycle_Docker ($"start recorded Compose service") source)) in
          start_services request managed rest (completed ++ [service])
      end
  end.

(** @src cdenv-cli/src/compose_lifecycle.rs:341-397 ComposeLifecycleOrchestrator::resume *)
Definition resume (request : RecordedComposeRequest) : compose ComposeLifecycleFacts :=
  do? _ := require (validate_recorded request) else raise in
  do? _ := check_cancelled [] else raise in
  do? discovered := discover_set request else raise in
  let '(state, managed) := resolve_service_set request discovered in
  if is_unsafe state then refuse (Lifecycle_UnsafeServiceSet state) else
  do? completed := start_services request managed (rc_managed_services request) [] else raise in
  do? _ := check_cancelled completed else raise in
  do? discovered := discover_set request else raise in
  let '(state, managed) := resolve_service_set request discovered in
  if negb (bool_decide (state = Set_CompleteRunning)) then refuse (Lifecycle_UnsafeServiceSet state) else
  done (mkFacts (rc_primary request) managed).

(** @src cdenv-cli/src/compose_lifecycle.rs:514-537 ComposeLifecycleOrchestrator::verify_recorded_set *)
Definition verify_recorded_set (operation : str) (request : RecordedComposeRequest) (managed : strmap ContainerId) : compose unit :=
  each (fun service =>
    match managed !! service with
    | None => raise Panicked
    | Some container =>
        do? _ := inspect_service operation service (rc_project request) (rc_identity request) container None else raise in
        done tt
    end) (rc_managed_services request).

(** @src cdenv-cli/src/compose_lifecycle.rs:416-420 ComposeLifecycleOrchestrator::stop_recorded *)
Definition same_set (recorded : RecordedComposeRequest) (stop : ComposeStopRequest) : result (ComposeLifecycleError C) unit :=
  if negb (str_eqb (pj_project_name (st_project stop)) (rc_project recorded))
     || negb (bool_decide (st_managed_services stop = rc_managed_services recorded))
  then Err Lifecycle_InvalidManagedSet else Ok tt.

(** @src cdenv-cli/src/compose_lifecycle.rs:454-512 ComposeLifecycleOrchestrator::down *)
Definition compose_down (recorded : RecordedComposeRequest) (stop : ComposeStopRequest) : compose ComposeLifecycleFacts :=
  do? _ := require (validate_recorded recorded) else raise in
  do? _ := require (same_set recorded stop) else raise in
  do? _ := check_cancelled [] else raise in
  do? discovered := discover_set recorded else raise in
  let '(state, managed) := resolve_service_set recorded discovered in
  if is_unsafe state then refuse (Lifecycle_UnsafeServiceSet state) else
  do? _ := verify_recorded_set ($"inspect Compose service before stop") recorded managed else raise in
  do? _ := check_cancelled [] else raise in
  do? _ := invoke (LC_Stop stop) (cli_stop stop)
    or (fun source => Refused (Lifecycle_Compose ($"managed stop") source)) in
  do? _ := check_cancelled [] else raise in
  do? discovered := discover_set recorded else raise in
  let '(state, managed) := resolve_service_set recorded discovered in
  if negb (bool_decide (state = Set_CompleteStopped)) then refuse (Lifecycle_UnsafeServiceSet state) else
  done (mkFacts (rc_primary recorded) managed).

(** @src cdenv-cli/src/compose_lifecycle.rs:409-445 ComposeLifecycleOrchestrator::stop_recorded *)
Definition stop_recorded (recorded : RecordedComposeRequest) (stop : ComposeStopRequest) : compose ComposeStopOutcome :=
  do? _ := require (validate_recorded recorded) else raise in
  do? _ := require (same_set recorded stop) else raise in
  do? _ := check_cancelled [] else raise in
  do? discovered := discover_set recorded else raise in
  let '(state, managed) := resolve_service_set recorded discovered in
  if is_completely_missing state (lenN (rc_managed_services recorded)) then done Outcome_Missing else
  if bool_decide (state = Set_CompleteStopped) then
    do? _ := verify_recorded_set ($"inspect recorded Compose service") recorded managed else raise in
    done (Outcome_AlreadyStopped (mkFacts (rc_primary recorded) managed))
  else
  if is_unsafe state then refuse (Lifecycle_UnsafeServiceSet state) else
  do? facts := compose_down recorded stop else raise in
  done (Outcome_Stopped facts).
End coordinator.

(** ** Classification is exact *)

Section classification.
Context (project : str) (discovered : list DiscoveredContainer).
Implicit Types (service : str) (acc : Resolved).
Let found := service_containers project discovered.

(** What the loop has collected after some services. *)
Record collected (services : list str) (r : Resolved) : Prop := mk_collected {
  co_missing : forall s, s ∈ rv_missing r <-> s ∈ services /\ found s = [];
  co_ambiguous : forall s, s ∈ rv_ambiguous r <-> s ∈ services /\ (2 <= length (found s))%nat;
  co_running : forall s, s ∈ rv_running r <-> s ∈ services /\ exists c, found s = [c] /\ is_running c = true;
  co_stopped : forall s, s ∈ rv_stopped r <-> s ∈ services /\ exists c, found s = [c] /\ is_running c = false;
  co_managed : forall s id, rv_managed r !! s = Some id <-> s ∈ services /\ exists c, found s = [c] /\ dc_id c = id;
}.

(** One more service belongs to a group or does not. *)
Lemma member_step (Q : str -> Prop) services service s :
  s ∈ services ++ [service] /\ Q s <-> (s ∈ services /\ Q s) \/ (s = service /\ Q service).
Proof. rewrite elem_of_app, list_elem_of_singleton. split; [intros [[?| ->] ?]; auto|intros [[? ?]|[-> ?]]; auto]. Qed.

Lemma group_in (Q : str -> Prop) services service (l : list str) s :
  (s ∈ l <-> s ∈ services /\ Q s) -> Q service -> s ∈ l ++ [service] <-> s ∈ services ++ [service] /\ Q s.
Proof. intros Hl HQ. rewrite member_step, <- Hl, elem_of_app, list_elem_of_singleton. tauto. Qed.
Lemma group_out (Q : str -> Prop) services service (l : list str) s :
  (s ∈ l <-> s ∈ services /\ Q s) -> ~ Q service -> s ∈ l <-> s ∈ services ++ [service] /\ Q s.
Proof. intros Hl HQ. rewrite member_step, <- Hl. tauto. Qed.

Lemma managed_in (m : strmap ContainerId) services service c s id :
  (forall s id, m !! s = Some id <-> s ∈ services /\ exists c, found s = [c] /\ dc_id c = id) -> found service = [c] ->
  <[service := dc_id c]> m !! s = Some id <-> s ∈ services ++ [service] /\ exists c, found s = [c] /\ dc_id c = id.
Proof.
  intros Hg Hc. rewrite (member_step (fun s => exists c, found s = [c] /\ dc_id c = id)), <- (Hg s id), lookup_insert_Some. split.
  - intros [[<- <-]|[_ Hm]]; [right; eauto|by left].
  - intros [Hm|[-> (c' & Hc' & <-)]]; [|left; split; [done|]; by rewrite Hc in Hc'; injection Hc' as <-].
    destruct (decide (service = s)) as [<-|]; [|by right]. left. split; [done|].
    apply Hg in Hm as (_ & c' & Hc' & <-). rewrite Hc in Hc'. by injection Hc' as <-.
Qed.
Lemma managed_out (m : strmap ContainerId) services service s id :
  (forall s id, m !! s = Some id <-> s ∈ services /\ exists c, found s = [c] /\ dc_id c = id) -> length (found service) <> 1%nat ->
  m !! s = Some id <-> s ∈ services ++ [service] /\ exists c, found s = [c] /\ dc_id c = id.
Proof.
  intros Hg Hc. rewrite (member_step (fun s => exists c, found s = [c] /\ dc_id c = id)), <- (Hg s id).
  split; [by left|]. intros [?|[-> (c & E & _)]]; [done|]. by rewrite E in Hc.
Qed.

Lemma resolve_step_collected services acc service :
  collected services acc -> collected (services ++ [service]) (resolve_step project discovered acc service).
Proof.
  intros [Hm Ha Hr Hs Hg]. unfold resolve_step. fold (found service).
  destruct (found service) as [|c [|c' rest]] eqn:E; [|destruct (is_running c) eqn:Ec|]; constructor; cbn; intros s.
  all: try (intros id; first [by apply managed_in|apply managed_out; [done|by rewrite E]]).
  all: first [apply (group_in (fun s => found s = []))|apply (group_out (fun s => found s = []))
    |apply (group_in (fun s => (2 <= length (found s))%nat))|apply (group_out (fun s => (2 <= length (found s))%nat))
    |apply (group_in (fun s => exists c, found s = [c] /\ is_running c = true))|apply (group_out (fun s => exists c, found s = [c] /\ is_running c = true))
    |apply (group_in (fun s => exists c, found s = [c] /\ is_running c = false))|apply (group_out (fun s => exists c, found s = [c] /\ is_running c = false))];
    [done|rewrite ?E; cbn].
  all: first [done|lia|by exists c|intros (c0 & Hc0 & ?); simplify_eq; congruence].
Qed.

Lemma resolve_collected services :
  collected services (fold_left (resolve_step project discovered) services (mkResolved [] [] [] [] ∅)).
Proof.
  induction services as [|service services IH] using rev_ind.
  - constructor; cbn; intros; rewrite ?lookup_empty; set_solver.
  - rewrite fold_left_app. by apply resolve_step_collected.
Qed.
End classification.

(** Every recorded service has one container, in [managed], that satisfies [P]; the one of the
    primary service is the recorded one. *)
Definition set_found (request : RecordedComposeRequest) (discovered : list DiscoveredContainer) (managed : strmap ContainerId)
    (P : DiscoveredContainer -> Prop) : Prop :=
  (forall s, s ∈ rc_managed_services request -> exists c,
     service_containers (rc_project request) discovered s = [c] /\ managed !! s = Some (dc_id c) /\ P c) /\
  (forall s id, managed !! s = Some id -> s ∈ rc_managed_services request) /\
  (rc_primary_service request ∈ rc_managed_services request -> managed !! rc_primary_service request = Some (rc_primary request)).

Lemma resolve_service_set_safe request discovered state managed :
  resolve_service_set request discovered = (state, managed) -> is_unsafe state = false ->
  set_found request discovered managed (fun _ => True) /\
  (state = Set_CompleteRunning -> set_found request discovered managed (fun c => is_running c = true)) /\
  (state = Set_CompleteStopped -> set_found request discovered managed (fun c => is_running c = false)).
Proof.
  unfold resolve_service_set. cbn zeta. destruct (resolve_collected (rc_project request) discovered (rc_managed_services request)) as [Hm Ha Hr Hs Hg].
  set (r := fold_left _ _ _) in *. intros [= <- <-].
  destruct (bool_decide (rv_ambiguous r = [])) eqn:E1; cbn [negb]; [|done].
  destruct (bool_decide (rv_missing r = [])) eqn:E2; cbn [negb]; [|done]. prop_of_bool.
  assert (Hfound : forall s, s ∈ rc_managed_services request -> exists c, service_containers (rc_project request) discovered s = [c]).
  { intros s Hin. destruct (service_containers (rc_project request) discovered s) as [|c [|c' rest]] eqn:E; [|by exists c|]; exfalso.
    - assert (s ∈ rv_missing r) as Hx by (apply Hm; done). rewrite E2 in Hx. by apply not_elem_of_nil in Hx.
    - assert (s ∈ rv_ambiguous r) as Hx by (apply Ha; rewrite E; cbn; split; [done|lia]). rewrite E1 in Hx. by apply not_elem_of_nil in Hx. }
  intros Hsafe. assert (Hprimary : rc_primary_service request ∈ rc_managed_services request ->
    rv_managed r !! rc_primary_service request = Some (rc_primary request)).
  { intros Hin. destruct (Hfound _ Hin) as [c Hc].
    assert (rv_managed r !! rc_primary_service request = Some (dc_id c)) as Hp by (apply Hg; eauto). rewrite Hp in Hsafe |- *.
    destruct (bool_decide (dc_id c = rc_primary request)) eqn:Eb; [|done]. apply bool_decide_eq_true in Eb. by rewrite Eb. }
  assert (Hset : forall P : DiscoveredContainer -> Prop, (forall s c, s ∈ rc_managed_services request ->
      service_containers (rc_project request) discovered s = [c] -> P c) -> set_found request discovered (rv_managed r) P).
  { intros P HP. split; [|split; [|done]].
    - intros s Hin. destruct (Hfound s Hin) as [c Hc]. exists c. split; [done|]. split; [apply Hg; eauto|by eapply HP].
    - intros s id [Hin _]%Hg. done. }
  split; [by apply Hset|].
  assert (Hstate : forall st, match rv_managed r !! rc_primary_service request with
      | Some id => if negb (bool_decide (id = rc_primary request)) then Set_PrimarySubstituted id
          else if bool_decide (rv_stopped r = []) then Set_CompleteRunning
          else if bool_decide (rv_running r = []) then Set_CompleteStopped else Set_PartiallyRunning (rv_running r) (rv_stopped r)
      | None => if bool_decide (rv_stopped r = []) then Set_CompleteRunning
          else if bool_decide (rv_running r = []) then Set_CompleteStopped else Set_PartiallyRunning (rv_running r) (rv_stopped r)
      end = st -> (st = Set_CompleteRunning -> rv_stopped r = []) /\ (st = Set_CompleteStopped -> rv_running r = [])).
  { intros st <-. destruct (rv_managed r !! rc_primary_service request) as [id|]; [destruct (bool_decide (id = rc_primary request))|];
      cbn [negb]; destruct (bool_decide (rv_stopped r = [])) eqn:Es, (bool_decide (rv_running r = [])) eqn:Er; prop_of_bool; done. }
  destruct (Hstate _ eq_refl) as [H1 H2]. split; intros Hst; apply Hset; intros s c Hin Hc; destruct (is_running c) eqn:Er; try done; exfalso.
  - assert (s ∈ rv_stopped r) as Hx by (apply Hs; eauto). rewrite (H1 Hst) in Hx. by apply not_elem_of_nil in Hx.
  - assert (s ∈ rv_running r) as Hx by (apply Hr; eauto). rewrite (H2 Hst) in Hx. by apply not_elem_of_nil in Hx.
Qed.

(** ** What is started and stopped *)

(** The container answers to its identifier, the labels of the identity, the project and the service. *)
Definition service_identity (i : ContainerInspection) (id : ContainerId) (service project : str) (identity : DockerResourceIdentity) : Prop :=
  in_id i = id /\
  default [] (in_labels i !! INSTALLATION_LABEL) = installation_str (di_installation identity) /\
  default [] (in_labels i !! WORKSPACE_LABEL) = name_str (di_workspace identity) /\
  default [] (in_labels i !! GENERATION_LABEL) = to_string (generation_get (di_generation identity)) /\
  default [] (in_labels i !! PROFILE_LABEL) = profile_str (di_profile identity) /\
  default [] (in_labels i !! COMPOSE_PROJECT_LABEL) = project /\
  default [] (in_labels i !! COMPOSE_SERVICE_LABEL) = service.

Lemma find_mismatch_None (checks : list (str * str * str)) :
  List.find (fun '(_, actual, expected) => negb (str_eqb actual expected)) checks = None <->
  Forall (fun '(_, actual, expected) => actual = expected) checks.
Proof.
  induction checks as [|[[field actual] expected] checks IH]; cbn [List.find]; [by split|].
  rewrite Forall_cons. destruct (str_eqb actual expected) eqn:E; cbn [negb].
  - apply str_eqb_true in E. rewrite IH. tauto.
  - split; [done|]. intros [-> _]. by rewrite str_eqb_refl in E.
Qed.

Lemma verify_service_Ok {C} i id service project identity running :
  verify_service (C := C) i id service project identity running = Ok tt <->
  service_identity i id service project identity /\ forall expected, running = Some expected -> in_running i = expected.
Proof.
  assert (Hchecks : Forall (fun '(_, actual, expected) => actual = expected) (service_checks i id service project identity) <->
    service_identity i id service project identity).
  { unfold service_checks, service_identity, label. rewrite !Forall_cons, Forall_nil.
    assert (container_str (in_id i) = container_str id <-> in_id i = id) as -> by (destruct (in_id i), id; cbn; naive_solver). tauto. }
  unfold verify_service. rewrite <- Hchecks, <- find_mismatch_None.
  destruct (List.find _ _) as [[[field a] e]|] eqn:E; [split; [done|by intros [? _]]|].
  destruct running as [expected|]; [|by split]. destruct (in_running i) eqn:Er, expected; cbn; split; try done; naive_solver.
Qed.

Section traces.
Context {A C : Type} `{!ComposeLifecycleCli A C, !ComposeLifecycleEngine A} (is_cancelled : A -> bool).
Implicit Types (t : list (LifecycleCall C)).

(** Steps that call nothing. *)
Lemma emits_require {X Y} (r : result (ComposeLifecycleError C) X) (k : X -> act A (LifecycleCall C) (LifecycleStop C) Y) Q :
  (forall x, r = Ok x -> emits (k x) Q) -> (forall e, r = Err e -> Q [] (Err (Refused e))) ->
  emits (handle (require r) raise k) Q.
Proof.
  intros Hk He a. unfold handle, require, refuse, done, raise. destruct r as [x|e]; [|by apply He].
  specialize (Hk x eq_refl a). by destruct (k x a) as [[a' t] r].
Qed.

Lemma emits_check_cancelled {Y} completed (k : unit -> act A (LifecycleCall C) (LifecycleStop C) Y) Q :
  emits (k tt) Q -> Q [] (Err (Refused (Lifecycle_Cancelled completed))) ->
  emits (handle (check_cancelled is_cancelled completed) raise k) Q.
Proof.
  intros Hk He a. unfold handle, check_cancelled, observe, refuse, done, raise. destruct (is_cancelled a); [done|].
  specialize (Hk a). by destruct (k tt a) as [[a' t] r].
Qed.

Lemma emits_discover {Y} request (k : list DiscoveredContainer -> act A (LifecycleCall C) (LifecycleStop C) Y) Q :
  (forall found, emits (k found) (fun t r => Q (LC_Discover (rc_identity request) (Ok found) :: t) r)) ->
  (forall e, Q [LC_Discover (rc_identity request) (Err e)] (Err (Refused (Lifecycle_Docker ($"discover managed Compose services") e)))) ->
  emits (handle (discover_set request) raise k) Q.
Proof.
  intros Hk He a. unfold handle, discover_set, handle, invoke, done, raise.
  destruct (engine_discover _ a) as [a1 [found|e]]; [|by apply He].
  specialize (Hk found a1). by destruct (k found a1) as [[a' t] r].
Qed.

Lemma emits_inspect {Y} operation service project identity id running (k : ContainerInspection -> act A (LifecycleCall C) (LifecycleStop C) Y) Q :
  (forall i, service_identity i id service project identity -> (forall expected, running = Some expected -> in_running i = expected) ->
     emits (k i) (fun t r => Q (LC_Inspect id (Ok i) :: t) r)) ->
  (forall answer e, match e with Lifecycle_Docker _ _ | Lifecycle_ServiceMismatch _ _ => True | _ => False end ->
     Q [LC_Inspect id answer] (Err (Refused e))) ->
  emits (handle (inspect_service operation service project identity id running) raise k) Q.
Proof.
  intros Hk He a. unfold handle, inspect_service, handle, invoke, require, refuse, done, raise.
  destruct (engine_inspect id a) as [a1 [i|e]]; [|by apply He].
  destruct (verify_service i id service project identity running) as [[]|e] eqn:E.
  - apply verify_service_Ok in E as [Hid Hrun]. specialize (Hk i Hid Hrun a1). by destruct (k i a1) as [[a' t] r].
  - apply He. unfold verify_service in E. repeat case_match; simplify_eq; done.
Qed.

(** The calls of a resume: reads, and starts that directly follow the inspection of the container. *)
Inductive guarded (V : ContainerId -> ContainerInspection -> Prop) : list (LifecycleCall C) -> Prop :=
| guarded_nil : guarded V []
| guarded_discover identity answer t : guarded V t -> guarded V (LC_Discover identity answer :: t)
| guarded_inspect id answer t : guarded V t -> guarded V (LC_Inspect id answer :: t)
| guarded_start id i answer t : V id i -> guarded V t -> guarded V (LC_Inspect id (Ok i) :: LC_Start id answer :: t).
#[local] Hint Constructors guarded : core.

Lemma guarded_app V t1 t2 : guarded V t1 -> guarded V t2 -> guarded V (t1 ++ t2).
Proof. induction 1; cbn; auto. Qed.

(** The containers that were started. *)
Definition started t : list ContainerId := omap (fun c => match c with LC_Start id (Ok _) => Some id | _ => None end) t.

(** A recorded service's container that was verified and did not run. *)
Definition startable (request : RecordedComposeRequest) (managed : strmap ContainerId) (id : ContainerId) (i : ContainerInspection) : Prop :=
  exists service, service ∈ rc_managed_services request /\ managed !! service = Some id /\
    service_identity i id service (rc_project request) (rc_identity request) /\ in_running i = false.

(** What is reported as completed is what was started. *)
Definition completed_is (managed : strmap ContainerId) (before : list str) (completed : list str) t : Prop :=
  exists new, completed = before ++ new /\ omap (fun s => managed !! s) new = started t.

Definition start_outcome (request : RecordedComposeRequest) (managed : strmap ContainerId) (before : list str) t
    (r : result (LifecycleStop C) (list str)) : Prop :=
  guarded (startable request managed) t /\
  match r with
  | Ok completed | Err (Refused (Lifecycle_Cancelled completed)) => completed_is managed before completed t
  | Err (Refused _) => True
  | Err Panicked => False
  end.

Lemma completed_nothing managed before t : started t = [] -> completed_is managed before before t.
Proof. intros Ht. exists []. rewrite app_nil_r. by split. Qed.

Lemma start_services_spec request managed services : forall before,
  Forall (fun s => s ∈ rc_managed_services request /\ is_Some (managed !! s)) services ->
  emits (start_services is_cancelled request managed services before) (start_outcome request managed before).
Proof.
  induction services as [|service services IH]; intros before Hall; cbn [start_services].
  { apply emits_done. split; [auto|]. by apply completed_nothing. }
  apply Forall_cons in Hall as [[Hin [id Hid]] Hall].
  apply emits_check_cancelled; [|split; [auto|by apply completed_nothing]]. rewrite Hid.
  apply emits_inspect; [|intros answer e He; split; [auto|by destruct e]].
  intros i Hi _. destruct (in_running i) eqn:Hrun.
  { eapply emits_impl; [by apply IH|]. intros t r [Hg Hr]. split; [auto|].
    repeat case_match; try done; destruct Hr as (new & -> & Hn); by exists new. }
  apply emits_check_cancelled; [|split; [auto|by apply completed_nothing]].
  assert (Hs : startable request managed id i) by (exists service; by split_and!).
  apply emits_call.
  - intros []. eapply emits_impl; [by apply IH|]. intros t r [Hg Hr]. split; [auto|].
    assert (Hmore : forall completed, completed_is managed (before ++ [service]) completed t ->
      completed_is managed before completed (LC_Inspect id (Ok i) :: LC_Start id (Ok tt) :: t)).
    { intros completed (new & -> & Hn). exists (service :: new). rewrite <- app_assoc. split; [done|].
      cbn. rewrite Hid. cbn. by rewrite Hn. }
    repeat case_match; auto.
  - intros e. apply emits_raise. split; auto.
Qed.

(** resuming a recorded Compose set starts only its own stopped containers.  Whatever the daemon
    answers, Compose is never asked to reconcile or stop; nothing is started unless the discovered
    set has exactly one container for every recorded service and the recorded primary; each start
    directly follows the inspection of that container, which has the identity, project and service
    recorded for it and does not run; a cancellation reports exactly the services that were
    started; and success means that a last discovery found the whole set running. *)
Theorem compose_resume_starts_verified request :
  emits (resume is_cancelled request) (fun t r =>
    match r with Err Panicked => False | _ => True end /\
    (t = [] \/ exists answer t', t = LC_Discover (rc_identity request) answer :: t' /\
      (t' = [] \/ exists found managed, answer = Ok found /\ set_found request found managed (fun _ => True) /\
         guarded (startable request managed) t' /\
         forall completed, r = Err (Refused (Lifecycle_Cancelled completed)) -> completed_is managed [] completed t')) /\
    forall facts, r = Ok facts -> fa_primary facts = rc_primary request /\
      exists found, last t = Some (LC_Discover (rc_identity request) (Ok found)) /\
        set_found request found (fa_managed facts) (fun c => is_running c = true)).
Proof.
  unfold resume. apply emits_require; [|intros e He; split_and!; auto; done]. intros [] _.
  apply emits_check_cancelled; [|split_and!; auto; done].
  apply emits_discover; [|intros e; split_and!; [done|right; eexists _, []; auto|done]].
  intros found. destruct (resolve_service_set request found) as [state managed] eqn:Es.
  destruct (is_unsafe state) eqn:Eu; [apply emits_raise; split_and!; [done|right; eexists _, []; auto|done]|].
  destruct (resolve_service_set_safe _ _ _ _ Es Eu) as [Hset _].
  eapply emits_handle; [apply (start_services_spec request managed (rc_managed_services request) [])|..].
  { apply Forall_forall. intros s Hs. split; [done|]. destruct Hset as [Hset _]. destruct (Hset s Hs) as (c & _ & Hc & _). eauto. }
  2:{ intros t e [Hg He]. apply emits_raise. rewrite app_nil_r. split_and!; [by destruct e| |done].
      right. eexists _, t. split; [done|]. right. exists found, managed. split_and!; try done. intros completed [= ->]. exact He. }
  intros t completed [Hg Hc]. apply emits_check_cancelled.
  2:{ rewrite app_nil_r. split_and!; [done| |done]. right. eexists _, t. split; [done|]. right.
      exists found, managed. split_and!; try done. by intros ? [= <-]. }
  assert (Hmid : forall answer, guarded (startable request managed) (t ++ [LC_Discover (rc_identity request) answer])).
  { intros answer. apply guarded_app; auto. }
  apply emits_discover.
  2:{ intros e. split_and!; [done| |done]. right. eexists _, _. split; [done|]. right. exists found, managed. by split_and!. }
  intros found2. destruct (resolve_service_set request found2) as [state2 managed2] eqn:Es2.
  destruct (bool_decide (state2 = Set_CompleteRunning)) eqn:Er; cbn [negb].
  - apply bool_decide_eq_true in Er as ->. destruct (resolve_service_set_safe _ _ _ _ Es2 eq_refl) as (_ & Hrun & _).
    apply emits_done. split_and!; [done| |].
    + right. eexists _, _. split; [done|]. right. exists found, managed. by split_and!.
    + intros facts [= <-]. split; [done|]. exists found2. split; [|by apply Hrun]. by rewrite last_cons, last_snoc.
  - apply emits_raise. split_and!; [done| |done]. right. eexists _, _. split; [done|]. right. exists found, managed. by split_and!.
Qed.

(** Calls that change nothing. *)
Definition is_read (c : LifecycleCall C) : Prop :=
  match c with LC_Discover _ _ | LC_Inspect _ _ | LC_VerifyPrimary _ _ => True | _ => False end.

(** The calls have inspected the container that [managed] has for a service and found its identity. *)
Definition verified_in (recorded : RecordedComposeRequest) (managed : strmap ContainerId) t (s : str) : Prop :=
  exists id i, managed !! s = Some id /\ LC_Inspect id (Ok i) ∈ t /\ service_identity i id s (rc_project recorded) (rc_identity recorded).

Lemma verified_in_mono recorded managed t t' s : t ⊆ t' -> verified_in recorded managed t s -> verified_in recorded managed t' s.
Proof. intros Hsub (id & i & Hm & Hin & Hi). exists id, i. split_and!; [done|by apply Hsub|done]. Qed.

Lemma verify_recorded_set_spec operation recorded managed :
  (forall s, s ∈ rc_managed_services recorded -> is_Some (managed !! s)) ->
  emits (A := A) (verify_recorded_set (C := C) operation recorded managed) (fun t r =>
    Forall is_read t /\ (forall identity answer, LC_Discover identity answer ∉ t) /\
    match r with
    | Ok _ => forall s, s ∈ rc_managed_services recorded -> verified_in recorded managed t s
    | Err (Refused _) => True
    | Err Panicked => False
    end).
Proof.
  unfold verify_recorded_set. generalize (rc_managed_services recorded) as services. intros services.
  induction services as [|service services IH]; intros Hall; cbn [each].
  { apply emits_done. split; [constructor|]. split; [intros; apply not_elem_of_nil|]. intros s Hs. by apply not_elem_of_nil in Hs. }
  destruct (Hall service ltac:(by left)) as [id Hid]. rewrite Hid.
  eapply (emits_handle _ _ _ (fun t r => Forall is_read t /\ (forall identity answer, LC_Discover identity answer ∉ t) /\
    match r with Ok _ => verified_in recorded managed t service | Err (Refused _) => True | Err Panicked => False end)).
  - apply emits_inspect; [|intros answer e _; split_and!; [by repeat constructor|set_solver|done]].
    intros i Hi _. apply emits_done. split; [by repeat constructor|]. split; [set_solver|]. exists id, i. split_and!; [done|by left|done].
  - intros t [] (Hr & Hd & Hv). eapply emits_impl; [apply IH; intros s Hs; apply Hall; by right|]. intros t' r (Hr' & Hd' & Hv').
    split; [by apply Forall_app|]. split; [set_solver|]. destruct r as [[]|e]; [|done]. intros s [->|Hs]%elem_of_cons.
    + eapply verified_in_mono; [|exact Hv]. set_solver.
    + eapply verified_in_mono; [|by apply Hv']. set_solver.
  - intros t e (Hr & Hd & He). apply emits_raise. by rewrite app_nil_r.
Qed.

(** Compose stopped the recorded set after a discovery found one container for every service of it and
    each of these was verified; or it was not called. *)
Definition stops_verified (recorded : RecordedComposeRequest) (stop : ComposeStopRequest) t : Prop :=
  Forall is_read t \/
  exists pre answer post, t = pre ++ LC_Stop stop answer :: post /\ Forall is_read pre /\ Forall is_read post /\
    pj_project_name (st_project stop) = rc_project recorded /\ st_managed_services stop = rc_managed_services recorded /\
    exists found managed, LC_Discover (rc_identity recorded) (Ok found) ∈ pre /\ set_found recorded found managed (fun _ => True) /\
      forall s, s ∈ rc_managed_services recorded -> verified_in recorded managed pre s.

Lemma stops_verified_cons recorded stop c t : is_read c -> stops_verified recorded stop t -> stops_verified recorded stop (c :: t).
Proof.
  intros Hc [Ht|(pre & answer & post & -> & Hpre & Hpost & Hp & Hs & found & managed & Hd & Hset & Hv)]; [left; by constructor|right].
  exists (c :: pre), answer, post. split_and!; [done|by constructor|done|done|done|]. exists found, managed.
  split_and!; [by right|done|]. intros s Hin. eapply verified_in_mono; [|by apply Hv]. set_solver.
Qed.

Lemma same_set_Ok recorded stop u : same_set (C := C) recorded stop = Ok u ->
  pj_project_name (st_project stop) = rc_project recorded /\ st_managed_services stop = rc_managed_services recorded.
Proof. unfold same_set. destruct (_ || _) eqn:E; [done|]. prop_of_bool. apply str_eqb_true in H. done. Qed.

Definition down_outcome (recorded : RecordedComposeRequest) (stop : ComposeStopRequest) t
    (r : result (LifecycleStop C) ComposeLifecycleFacts) : Prop :=
  stops_verified recorded stop t /\
  match r with
  | Ok facts => fa_primary facts = rc_primary recorded /\
      exists found, last t = Some (LC_Discover (rc_identity recorded) (Ok found)) /\
        set_found recorded found (fa_managed facts) (fun c => is_running c = false) /\
        exists pre post, t = pre ++ LC_Stop stop (Ok tt) :: post
  | Err (Refused _) => True
  | Err Panicked => False
  end.

Lemma compose_down_spec recorded stop : emits (compose_down is_cancelled recorded stop) (down_outcome recorded stop).
Proof.
  assert (Hread : forall t e, Forall is_read t -> down_outcome recorded stop t (Err (Refused e))) by (intros; split; [by left|done]).
  unfold compose_down. apply emits_require; [|intros e _; by apply Hread]. intros [] _.
  apply emits_require; [|intros e _; by apply Hread]. intros [] [Hp Hm]%same_set_Ok.
  apply emits_check_cancelled; [|by apply Hread]. apply emits_discover; [|intros e; apply Hread; by repeat constructor].
  intros found. destruct (resolve_service_set recorded found) as [state managed] eqn:Es.
  destruct (is_unsafe state) eqn:Eu; [apply emits_raise, Hread; by repeat constructor|].
  destruct (resolve_service_set_safe _ _ _ _ Es Eu) as [Hfound _]. assert (Hset := proj1 Hfound).
  eapply emits_handle; [apply (verify_recorded_set_spec _ recorded managed)|..].
  { intros s Hs. destruct (Hset s Hs) as (c & _ & Hc & _). eauto. }
  2:{ intros t [e|] (Hr & _ & He); [|done]. apply emits_raise. rewrite app_nil_r. apply Hread. by constructor. }
  intros t [] (Hr & _ & Hv). apply emits_check_cancelled; [|rewrite app_nil_r; apply Hread; by constructor].
  set (pre := LC_Discover (rc_identity recorded) (Ok found) :: t).
  assert (Hstop : forall answer post, Forall is_read post -> stops_verified recorded stop (pre ++ LC_Stop stop answer :: post)).
  { intros answer post Hpost. right. exists pre, answer, post. split_and!; try done; [by constructor|].
    exists found, managed. split_and!; [by left|done|]. intros s Hin. eapply verified_in_mono; [|by apply Hv]. unfold pre. set_solver. }
  apply emits_call; [|intros e; apply emits_raise; split; [by apply Hstop|done]]. intros [].
  apply emits_check_cancelled; [|split; [by apply Hstop|done]].
  apply emits_discover; [|intros e; split; [by apply Hstop; repeat constructor|done]].
  intros found2. destruct (resolve_service_set recorded found2) as [state2 managed2] eqn:Es2.
  destruct (bool_decide (state2 = Set_CompleteStopped)) eqn:Er; cbn [negb].
  - apply bool_decide_eq_true in Er as ->. destruct (resolve_service_set_safe _ _ _ _ Es2 eq_refl) as (_ & _ & Hstopped).
    apply emits_done. split; [by apply Hstop; repeat constructor|]. split; [done|]. exists found2. split; [|split; [by apply Hstopped|]].
    + rewrite last_cons, last_app. done.
    + exists pre, [LC_Discover (rc_identity recorded) (Ok found2)]. done.
  - apply emits_raise. split; [by apply Hstop; repeat constructor|done].
Qed.

Lemma completely_missing request discovered state managed n :
  resolve_service_set request discovered = (state, managed) -> is_completely_missing state n = true ->
  forall s, s ∈ rc_managed_services request -> service_containers (rc_project request) discovered s = [].
Proof.
  unfold resolve_service_set. cbn zeta. destruct (resolve_collected (rc_project request) discovered (rc_managed_services request)) as [Hm Ha Hr Hs Hg].
  set (r := fold_left _ _ _) in *. intros [= <- _] Hmiss s Hin.
  destruct (bool_decide (rv_ambiguous r = [])) eqn:E1; cbn [negb] in Hmiss; [|done]. apply bool_decide_eq_true in E1.
  destruct (bool_decide (rv_missing r = [])) eqn:E2; cbn [negb] in Hmiss; [repeat case_match; done|].
  cbn [is_completely_missing] in Hmiss. prop_of_bool.
  destruct (service_containers (rc_project request) discovered s) as [|c [|c' rest]] eqn:E; [done|..]; exfalso.
  - destruct (is_running c) eqn:Ec.
    + assert (s ∈ rv_running r) as Hx by (apply Hr; eauto). rewrite H1 in Hx. by apply not_elem_of_nil in Hx.
    + assert (s ∈ rv_stopped r) as Hx by (apply Hs; eauto). rewrite H0 in Hx. by apply not_elem_of_nil in Hx.
  - assert (s ∈ rv_ambiguous r) as Hx by (apply Ha; rewrite E; cbn; split; [done|lia]). rewrite E1 in Hx. by apply not_elem_of_nil in Hx.
Qed.

(** C25: stopping a recorded Compose set touches only that set, after verifying all of it.  No
    container is started and nothing is reconciled; Compose is asked to stop at most once, for the
    recorded project and services, after the container of every service was inspected and has its
    identity; [Missing] means that the discovery found no container of any service, [AlreadyStopped]
    that the one discovery that was made found the whole set stopped, that the container it found
    for every service was inspected, and that Compose was not called, and [Stopped] that the last
    call was a discovery after the stop and found the whole set stopped. *)
Theorem compose_stop_verified recorded stop :
  emits (stop_recorded is_cancelled recorded stop) (fun t r =>
    stops_verified recorded stop t /\
    match r with
    | Ok Outcome_Missing => exists found, t = [LC_Discover (rc_identity recorded) (Ok found)] /\
        forall s, s ∈ rc_managed_services recorded -> service_containers (rc_project recorded) found s = []
    | Ok (Outcome_AlreadyStopped facts) => Forall is_read t /\ fa_primary facts = rc_primary recorded /\
        exists found inspections, t = LC_Discover (rc_identity recorded) (Ok found) :: inspections /\
          (forall identity answer, LC_Discover identity answer ∉ inspections) /\
          set_found recorded found (fa_managed facts) (fun c => is_running c = false) /\
          forall s, s ∈ rc_managed_services recorded -> verified_in recorded (fa_managed facts) inspections s
    | Ok (Outcome_Stopped facts) => fa_primary facts = rc_primary recorded /\
        (exists pre post, t = pre ++ LC_Stop stop (Ok tt) :: post) /\
        exists found, last t = Some (LC_Discover (rc_identity recorded) (Ok found)) /\
          set_found recorded found (fa_managed facts) (fun c => is_running c = false)
    | Err (Refused _) => True
    | Err Panicked => False
    end).
Proof.
  unfold stop_recorded. apply emits_require; [|intros e _; by split; [left|]]. intros [] _.
  apply emits_require; [|intros e _; by split; [left|]]. intros [] _.
  apply emits_check_cancelled; [|by split; [left|]]. apply emits_discover; [|intros e; split; [left; by repeat constructor|done]].
  intros found. destruct (resolve_service_set recorded found) as [state managed] eqn:Es.
  destruct (is_completely_missing state _) eqn:Em.
  { apply emits_done. split; [left; by repeat constructor|]. exists found. split; [done|]. by eapply completely_missing. }
  destruct (bool_decide (state = Set_CompleteStopped)) eqn:Est.
  - apply bool_decide_eq_true in Est as ->. destruct (resolve_service_set_safe _ _ _ _ Es eq_refl) as ([Hset _] & _ & Hstopped).
    eapply emits_handle; [apply (verify_recorded_set_spec _ recorded managed)|..].
    { intros s Hs. destruct (Hset s Hs) as (c & _ & Hc & _). eauto. }
    + intros t [] (Hr & Hd & Hv). apply emits_done. rewrite app_nil_r. split; [left; by constructor|].
      split; [by constructor|]. split; [done|]. exists found, t. split_and!; [done|done|by apply Hstopped|done].
    + intros t [e|] (Hr & _ & He); [|done]. apply emits_raise. rewrite app_nil_r. split; [left; by constructor|done].
  - destruct (is_unsafe state) eqn:Eu; [apply emits_raise; split; [left; by repeat constructor|done]|].
    eapply emits_handle; [apply compose_down_spec|..].
    + intros t facts [Hs (Hp & found2 & Hlast & Hset & pre & post & Ht)]. apply emits_done. rewrite app_nil_r.
      split; [by apply stops_verified_cons|]. split; [done|]. split.
      * exists (LC_Discover (rc_identity recorded) (Ok found) :: pre), post. by rewrite Ht.
      * exists found2. split; [|done]. by rewrite last_cons, Hlast.
    + intros t [e|] [Hs He]; [|done]. apply emits_raise. rewrite app_nil_r. split; [by apply stops_verified_cons|done].
Qed.

Lemma verify_claim_spec request claim :
  emits (verify_claim is_cancelled request claim) (fun t r => Forall is_read t /\
    (r = Ok tt -> forall service id, (service, id) ∈ sorted_entries (cl_managed claim) -> exists j, LC_Inspect id (Ok j) ∈ t /\
      in_running j = true /\ service_identity j id service (project_name (up_plan (cr_up request))) (cr_identity request))).
Proof.
  unfold verify_claim. generalize (sorted_entries (cl_managed claim)) as entries. intros entries.
  induction entries as [|[service id] entries IH]; cbn [each].
  { apply emits_done. split; [constructor|]. intros _ s x Hin. by apply not_elem_of_nil in Hin. }
  eapply (emits_handle _ _ _ (fun t r => Forall is_read t /\ (r = Ok tt -> exists j, LC_Inspect id (Ok j) ∈ t /\
    in_running j = true /\ service_identity j id service (project_name (up_plan (cr_up request))) (cr_identity request)))).
  - apply emits_check_cancelled; [|by split]. apply emits_inspect; [|intros answer e _; split; [by repeat constructor|done]].
    intros j Hj Hrun. apply emits_done. split; [by repeat constructor|]. intros _. exists j. split; [by left|]. split; [by apply Hrun|done].
  - intros t [] [Hr Hv]. destruct (Hv eq_refl) as (j & Hj & Hid). eapply emits_impl; [apply IH|]. intros t' r [Hr' Hv'].
    split; [by apply Forall_app|]. intros -> s x [[= -> ->]|Hin]%elem_of_cons.
    + exists j. split; [set_solver|done].
    + destruct (Hv' eq_refl s x Hin) as (j' & Hj' & Hid'). exists j'. split; [set_solver|done].
  - intros t e [Hr _]. apply emits_raise. rewrite app_nil_r. by split.
Qed.

(** A Compose project that was created is verified service by service, and its primary is the only
    container of its service with the published ports. *)
Theorem compose_create_verified request :
  emits (create_or_rebuild is_cancelled request) (fun t r =>
    (t = [] \/ exists answer t', t = LC_Up (cr_up request) answer :: t' /\ Forall is_read t') /\
    forall facts, r = Ok facts -> exists claim i t', t = LC_Up (cr_up request) (Ok claim) :: LC_VerifyPrimary
        (mkPrimaryExpectation (fa_primary facts) (cr_primary_image request) (cr_identity request)
           (project_name (up_plan (cr_up request))) (primary_service (up_plan (cr_up request))) true) (Ok i) :: t' /\
      facts = mkFacts (cl_primary claim) (cl_managed claim) /\
      (sorted_entries (cl_managed claim)).*1 = managed_services (up_plan (cr_up request)) /\
      cl_managed claim !! primary_service (up_plan (cr_up request)) = Some (cl_primary claim) /\
      port_bindings_match (in_ports i) (cr_ports request) = true /\
      forall service id, cl_managed claim !! service = Some id -> exists j, LC_Inspect id (Ok j) ∈ t' /\ in_running j = true /\
        service_identity j id service (project_name (up_plan (cr_up request))) (cr_identity request)).
Proof.
  unfold create_or_rebuild. cbn zeta. apply emits_check_cancelled; [|by split; [left|]].
  apply emits_call; [|intros e; apply emits_raise; split; [right; by eexists _, []|done]]. intros claim.
  destruct (cl_managed claim !! _) as [claimed|] eqn:Ec; [|apply emits_raise; split; [right; by eexists _, []|done]].
  destruct (_ || _) eqn:Em; [apply emits_raise; split; [right; by eexists _, []|done]|]. prop_of_bool. subst claimed.
  apply emits_check_cancelled; [|split; [right; by eexists _, []|done]].
  apply emits_call; [|intros e; apply emits_raise; split; [right; eexists _, _; split; [done|]; by repeat constructor|done]]. intros i.
  unfold verify_port_bindings. destruct (port_bindings_match (in_ports i) (cr_ports request)) eqn:Epb.
  2:{ apply (emits_handle _ _ _ (fun t r => t = [] /\ is_ok r = false)); [by apply emits_raise|by intros ? ? [_ ?]|].
      intros t e [-> _]. apply emits_raise. split; [right; eexists _, _; split; [done|]; by repeat constructor|done]. }
  apply (emits_handle _ _ _ (fun t r => t = [] /\ r = Ok tt)); [by apply emits_done| |by intros ? ? [_ ?]]. intros t [] [-> _].
  eapply emits_handle; [apply verify_claim_spec|..].
  - intros t [] [Hr Hv]. apply emits_done. cbn [app]. rewrite app_nil_r. split; [right; eexists _, _; split; [done|]; by constructor|].
    intros facts [= <-]. exists claim, i, t. split; [done|]. split_and!; try done. intros service id Hid.
    apply (Hv eq_refl). by apply elem_of_sorted_entries.
  - intros t e [Hr _]. apply emits_raise. cbn [app]. rewrite app_nil_r. split; [right; eexists _, _; split; [done|]; by constructor|done].
Qed.
End traces.
