(* ===== verification/Reconciliation.v ===== *)
(** * Reconciliation: the transaction of [create] and [up]
    ([cdenv-cli/src/reconciliation.rs])

    The planner and the environment are the two traits of the source, as classes over the
    adapters' world. *)

From S2P Require Import Prelude Text Identity Workspace Status Storage WorkspaceState Transaction.

(** @src cdenv-cli/src/reconciliation.rs:23-30 FeatureSourcePolicy *)
Inductive FeatureSourcePolicy : Type := ResolveForCreation | FrozenOffline.

(** @src cdenv-cli/src/reconciliation.rs:34-41 CategoryDrift *)
Record CategoryDrift : Type := mkDrift { drift_build : bool; drift_create : bool; drift_runtime : bool }.

(** @src cdenv-cli/src/reconciliation.rs:44-50 CategoryDrift::between *)
Definition drift_between (desired active : PlanFingerprints) : CategoryDrift :=
  mkDrift (negb (bool_decide (fp_build desired = fp_build active)))
    (negb (bool_decide (fp_create desired = fp_create active)))
    (negb (bool_decide (fp_runtime desired = fp_runtime active))).

Definition no_drift : CategoryDrift := mkDrift false false false.

(** @src cdenv-cli/src/reconciliation.rs:55-60 ReconciliationWarning *)
Inductive ReconciliationWarning : Type := BuildDrift | CreateDrift.

(** @src cdenv-cli/src/reconciliation.rs:64-71 EnvironmentTransition *)
Inductive EnvironmentTransition : Type := Env_Created | Env_Started | Env_AlreadyRunning.

(** @src cdenv-cli/src/reconciliation.rs:75-80 RuntimeReconciliation *)
Inductive RuntimeReconciliation : Type := Runtime_Current | Runtime_Applied.

#[export] Instance RuntimeReconciliation_eq_dec : EqDecision RuntimeReconciliation.
Proof. solve_decision. Defined.

(** @src cdenv-cli/src/reconciliation.rs:86-95 PreparedDesiredPlan *)
Record PreparedDesiredPlan (P : Type) : Type := mkDesired {
  pd_profile : ProfileId;
  pd_config : DesiredConfigPath;
  pd_fingerprints : PlanFingerprints;
  pd_plan : P;
}.
Arguments mkDesired {P} _ _ _ _.
Arguments pd_profile {P} _.
Arguments pd_config {P} _.
Arguments pd_fingerprints {P} _.
Arguments pd_plan {P} _.

(** @src cdenv-cli/src/reconciliation.rs:98-107 ReconciliationRequest *)
Record ReconciliationRequest : Type := mkReconciliationRequest {
  rr_config : option str;
  rr_operation : OperationState;
  rr_completed_at : StateTimestamp;
}.

(** @src cdenv-cli/src/reconciliation.rs:137-144 EnvironmentReconciliationRequest *)
Record EnvironmentReconciliationRequest (P : Type) : Type := mkEnvironmentRequest {
  er_desired : PreparedDesiredPlan P;
  er_active : option ActiveGeneration;
  er_drift : CategoryDrift;
}.
Arguments mkEnvironmentRequest {P} _ _ _.
Arguments er_desired {P} _.
Arguments er_active {P} _.
Arguments er_drift {P} _.

(** @src cdenv-cli/src/reconciliation.rs:147-154 ReadyEnvironment *)
Record ReadyEnvironment : Type := mkReady {
  ready_active : ActiveGeneration;
  ready_transition : EnvironmentTransition;
  ready_runtime : RuntimeReconciliation;
}.

(** @src cdenv-cli/src/reconciliation.rs:111-134 ReconciliationPlanner *)
Class ReconciliationPlanner (A P PE FE : Type) : Type := {
  prepare : A -> option str -> WorkspaceState -> FeatureSourcePolicy ->
    result PE (PreparedDesiredPlan P);
  preflight : A -> PreparedDesiredPlan P -> FeatureSourcePolicy -> A * result FE unit;
  preflight_message : FE -> str;
}.

(** @src cdenv-cli/src/reconciliation.rs:158-167 EnvironmentReconciler *)
Class EnvironmentReconciler (A P EE : Type) : Type := {
  reconcile : A -> EnvironmentReconciliationRequest P -> A * result EE ReadyEnvironment;
  reconcile_message : EE -> str;
}.

(** @src cdenv-cli/src/reconciliation.rs:171-180 ReconciliationOutcome *)
Record ReconciliationOutcome : Type := mkOutcome {
  out_generation : GenerationId;
  out_transition : EnvironmentTransition;
  out_runtime : RuntimeReconciliation;
  out_warnings : list ReconciliationWarning;
}.

(** @src cdenv-cli/src/reconciliation.rs:184-235 ReconciliationError *)
Inductive ReconciliationError (PE FE EE : Type) : Type :=
| Rec_Lock (error : LockError)
| Rec_State (error : WorkspaceStateError)
| Rec_Desired (source : PE)
| Rec_Preflight (source : FE)
| Rec_IndeterminateLifecycle
| Rec_Environment (source : EE)
| Rec_ImplicitReplacement
| Rec_InvalidReadiness
| Rec_FailureRecord (message : str) (state : WorkspaceStateError).
Arguments Rec_Lock {PE FE EE} _.
Arguments Rec_State {PE FE EE} _.
Arguments Rec_Desired {PE FE EE} _.
Arguments Rec_Preflight {PE FE EE} _.
Arguments Rec_IndeterminateLifecycle {PE FE EE}.
Arguments Rec_Environment {PE FE EE} _.
Arguments Rec_ImplicitReplacement {PE FE EE}.
Arguments Rec_InvalidReadiness {PE FE EE}.
Arguments Rec_FailureRecord {PE FE EE} _ _.

(** @src cdenv-cli/src/reconciliation.rs:355-358 ReadinessBoundaryError *)
Inductive ReadinessBoundaryError : Type := Boundary_ImplicitReplacement | Boundary_InvalidCategories.

(** @src cdenv-cli/src/reconciliation.rs:361-370 ReadinessBoundaryError::message *)
Definition boundary_message (b : ReadinessBoundaryError) : str :=
  match b with
  | Boundary_ImplicitReplacement =>
      $"ordinary reconciliation attempted an implicit generation replacement"
  | Boundary_InvalidCategories =>
      $"environment readiness violated the category commit boundary"
  end.

(** The readiness facts with the runtime fingerprint committed.
    @src cdenv-cli/src/reconciliation.rs:373-404 validate_readiness *)
Definition validate_readiness (previous : option ActiveGeneration) (desired : PlanFingerprints)
    (drift : CategoryDrift) (ready : ReadyEnvironment) :
    result ReadinessBoundaryError ReadyEnvironment :=
  fail_if match previous with
          | Some active => negb (bool_decide (ag_generation active = ag_generation (ready_active ready)))
          | None => false
          end with Boundary_ImplicitReplacement in
  let fingerprints := ag_fingerprints (ready_active ready) in
  let valid_categories :=
    match previous with
    | None => bool_decide (fingerprints = desired)
    | Some active =>
        bool_decide (fp_build fingerprints = fp_build (ag_fingerprints active))
        && bool_decide (fp_create fingerprints = fp_create (ag_fingerprints active))
        && bool_decide (ready_runtime ready =
             if drift_runtime drift then Runtime_Applied else Runtime_Current)
    end in
  fail_if negb valid_categories with Boundary_InvalidCategories in
  Ok (if drift_runtime drift
      then mkReady (commit_runtime_fingerprint (ready_active ready) (fp_runtime desired))
             (ready_transition ready) (ready_runtime ready)
      else ready).

Section reconciliation.
Context {S A P PE FE EE : Type} `{!StateStore S}
  `{!ReconciliationPlanner A P PE FE, !EnvironmentReconciler A P EE}
  (acquire : A -> result LockError unit).

Abbreviation error := (ReconciliationError PE FE EE) (only parsing).

(** The state that records a failure. *)
Definition failed_state (state : WorkspaceState) (message : str) : WorkspaceState :=
  set_last_error (set_operation state idle) (Some (redact message [])).

(** @src cdenv-cli/src/reconciliation.rs:406-414 record_failure *)
Definition record_failure (store : S) (state : WorkspaceState) (message : str) :
    S * result WorkspaceStateError unit :=
  persist store (failed_state state message).

(** The state that records the intent, before any adapter changes anything.
    @src cdenv-cli/src/reconciliation.rs:287-293 reconcile_workspace *)
Definition intent_state (state : WorkspaceState) (desired : PreparedDesiredPlan P)
    (operation : OperationState) : WorkspaceState :=
  set_last_error (set_operation (update_desired state (pd_profile desired) (pd_config desired)
    (pd_fingerprints desired)) operation) None.

(** @src cdenv-cli/src/reconciliation.rs:260-264 reconcile_workspace *)
Definition feature_policy (state : WorkspaceState) : FeatureSourcePolicy :=
  match ws_active state with Some _ => FrozenOffline | None => ResolveForCreation end.

(** @src cdenv-cli/src/reconciliation.rs:282-286 reconcile_workspace *)
Definition category_drift (state : WorkspaceState) (desired : PlanFingerprints) : CategoryDrift :=
  match ws_active state with
  | Some active => drift_between desired (ag_fingerprints active)
  | None => no_drift
  end.

(** @src cdenv-cli/src/reconciliation.rs:339-345 reconcile_workspace *)
Definition drift_warnings (drift : CategoryDrift) : list ReconciliationWarning :=
  (if drift_build drift then [BuildDrift] else []) ++
  (if drift_create drift then [CreateDrift] else []).

(** From the environment call to the commit.
    @src cdenv-cli/src/reconciliation.rs:307-352 reconcile_workspace *)
Definition reconcile_and_commit (request : ReconciliationRequest) (desired : PreparedDesiredPlan P)
    (previous : option ActiveGeneration) (drift : CategoryDrift) (state : WorkspaceState)
    (store : S) (env : A) : World S A * result error ReconciliationOutcome :=
  let '(env, r) := reconcile env (mkEnvironmentRequest desired previous drift) in
  match r with
  | Err source =>
      let message := reconcile_message source in
      let '(store, recorded) := record_failure store state message in
      (mkWorld store env,
       match recorded with
       | Err e => Err (Rec_FailureRecord message e)
       | Ok _ => Err (Rec_Environment source)
       end)
  | Ok ready =>
      match validate_readiness previous (pd_fingerprints desired) drift ready with
      | Err boundary =>
          let '(store, recorded) := record_failure store state (boundary_message boundary) in
          (mkWorld store env,
           match recorded with
           | Err e => Err (Rec_State e)
           | Ok _ => Err (match boundary with
                          | Boundary_ImplicitReplacement => Rec_ImplicitReplacement
                          | Boundary_InvalidCategories => Rec_InvalidReadiness
                          end)
           end)
      | Ok ready =>
          let '(store, r) := persist store (commit_active state (ready_active ready)
                                              (rr_completed_at request)) in
          (mkWorld store env,
           match r with
           | Err e => Err (Rec_State e)
           | Ok _ => Ok (mkOutcome (ag_generation (ready_active ready)) (ready_transition ready)
                           (ready_runtime ready) (drift_warnings drift))
           end)
      end
  end.

(** @src cdenv-cli/src/reconciliation.rs:247-352 reconcile_workspace *)
Definition reconcile_workspace (w : World S A) (request : ReconciliationRequest) :
    World S A * result error ReconciliationOutcome :=
  match acquire (w_env w) with
  | Err e => (w, Err (Rec_Lock e))
  | Ok _ =>
  match load (w_store w) with
  | Err e => (w, Err (Rec_State e))
  | Ok loaded =>
  let state := loaded_state loaded in
  match prepare (w_env w) (rr_config request) state (feature_policy state) with
  | Err source => (w, Err (Rec_Desired source))
  | Ok desired =>
  if match ws_active state with
     | Some active => pc_indeterminate (ag_lifecycle active)
     | None => false
     end
  then (w, Err Rec_IndeterminateLifecycle) else
  let previous := ws_active state in
  let drift := category_drift state (pd_fingerprints desired) in
  let policy := feature_policy state in
  let state := intent_state state desired (rr_operation request) in
  let '(store, r) := persist (w_store w) state in
  match r with
  | Err e => (mkWorld store (w_env w), Err (Rec_State e))
  | Ok _ =>
  let '(env, r) := preflight (w_env w) desired policy in
  match r with
  | Err source =>
      let message := preflight_message source in
      let '(store, recorded) := record_failure store state message in
      (mkWorld store env,
       match recorded with
       | Err e => Err (Rec_FailureRecord message e)
       | Ok _ => Err (Rec_Preflight source)
       end)
  | Ok _ => reconcile_and_commit request desired previous drift state store env
  end end end end end.

(** ** The commit boundary *)

(** The state a successful run leaves. *)
Record committed (request : ReconciliationRequest) (s0 s1 : WorkspaceState)
    (active : ActiveGeneration) : Prop := mkCommitted {
  co_active : ws_active s1 = Some active;
  co_idle : ws_operation s1 = idle;
  co_error : ws_last_error s1 = None;
  co_time : ws_last_up_at s1 = Some (rr_completed_at request);
  co_first : ws_active s0 = None -> ag_fingerprints active = ws_desired_fingerprints s1;
  co_generation old : ws_active s0 = Some old -> ag_generation active = ag_generation old;
  co_build old : ws_active s0 = Some old ->
    fp_build (ag_fingerprints active) = fp_build (ag_fingerprints old);
  co_create old : ws_active s0 = Some old ->
    fp_create (ag_fingerprints active) = fp_create (ag_fingerprints old);
  co_runtime old : ws_active s0 = Some old ->
    fp_runtime (ws_desired_fingerprints s1) <> fp_runtime (ag_fingerprints old) ->
    fp_runtime (ag_fingerprints active) = fp_runtime (ws_desired_fingerprints s1);
}.

Lemma validate_readiness_committed request s0 desired ready ready' :
  validate_readiness (ws_active s0) (pd_fingerprints desired)
    (category_drift s0 (pd_fingerprints desired)) ready = Ok ready' ->
  committed request s0
    (commit_active (intent_state s0 desired (rr_operation request)) (ready_active ready')
       (rr_completed_at request)) (ready_active ready').
Proof.
  unfold validate_readiness, category_drift. intros H.
  destruct (ws_active s0) as [old|] eqn:Ha.
  - case_bool_decide as Hg; [|done]. cbn [negb] in H.
    destruct (bool_decide (fp_build _ = _)) eqn:Hb; [|done].
    destruct (bool_decide (fp_create _ = _)) eqn:Hc; [|done].
    destruct (bool_decide (ready_runtime _ = _)) eqn:Hr; [|done]. cbn in H. prop_of_bool.
    case_bool_decide as Hd; cbn [negb] in H; injection H as <-;
      split; cbn; try done; rewrite Ha; try done; intros old' [= <-]; cbn; congruence.
  - cbn [negb] in H. case_bool_decide as Hf; [|done]. cbn in H. injection H as <-.
    split; cbn; try done; intros old; by rewrite Ha.
Qed.

Context `{!StateStoreLaws S}.

(** What the stored state is after a run from [s0]: the workspace is the same, and the active
    generation is the old one unless the run reached its commit. *)
Definition boundary (request : ReconciliationRequest) (s0 : WorkspaceState) (store : S)
    (r : result error ReconciliationOutcome) : Prop :=
  exists s1, stored store = Some s1 /\ same_workspace s0 s1 /\
    match r with
    | Ok outcome => exists active, committed request s0 s1 active /\
        out_generation outcome = ag_generation active
    | Err e => ws_active s1 = ws_active s0 \/
        exists se active, e = Rec_State se /\ committed request s0 s1 active
    end.

Lemma boundary_kept request s0 store s1 e :
  stored store = Some s1 -> same_workspace s0 s1 -> ws_active s1 = ws_active s0 ->
  boundary request s0 store (Err e).
Proof. intros Hs Hw Ha. exists s1. split_and!; [done|done|]. by left. Qed.

Lemma same_intent s0 desired operation : same_workspace s0 (intent_state s0 desired operation).
Proof. unfold intent_state. etrans; [|apply same_set_last_error]. etrans; [|apply same_set_operation].
  apply same_update_desired. Qed.

Lemma same_failed s0 message : same_workspace s0 (failed_state s0 message).
Proof. unfold failed_state. etrans; [|apply same_set_last_error]. apply same_set_operation. Qed.

Lemma record_failure_boundary request s0 desired store message store' r e :
  stored store = Some (intent_state s0 desired (rr_operation request)) ->
  record_failure store (intent_state s0 desired (rr_operation request)) message = (store', r) ->
  boundary request s0 store' (Err e).
Proof.
  intros Hs Hr. destruct (stored_after_persist _ _ _ _ _ Hs Hr) as [H|[_ H]].
  - eapply boundary_kept; [exact H| |done]. etrans; [apply same_intent|apply same_failed].
  - eapply boundary_kept; [exact H|apply same_intent|done].
Qed.

Lemma reconcile_and_commit_boundary request s0 desired store env w' r :
  stored store = Some (intent_state s0 desired (rr_operation request)) ->
  reconcile_and_commit request desired (ws_active s0) (category_drift s0 (pd_fingerprints desired))
    (intent_state s0 desired (rr_operation request)) store env = (w', r) ->
  boundary request s0 (w_store w') r.
Proof.
  intros Hs H. unfold reconcile_and_commit in H.
  destruct (reconcile env _) as [env1 [ready|source]].
  - destruct (validate_readiness _ _ _ ready) as [ready'|b] eqn:Hv.
    + destruct (persist store _) as [store1 pr] eqn:Hp.
      assert (Hc := validate_readiness_committed request s0 desired ready ready' Hv).
      destruct (stored_after_persist _ _ _ _ _ Hs Hp) as [Hst|[Hno Hst]].
      * exists (commit_active (intent_state s0 desired (rr_operation request)) (ready_active ready')
                  (rr_completed_at request)).
        injection H as <- <-. split_and!; [done|etrans; [apply same_intent|apply same_commit_active]|].
        destruct pr; [by eexists|]. right. by eexists _, _.
      * injection H as <- <-. destruct pr; [done|].
        eapply boundary_kept; [exact Hst|apply same_intent|done].
    + destruct (record_failure store _ _) as [store1 pr] eqn:Hp. injection H as <- <-.
      destruct pr; by eapply record_failure_boundary.
  - destruct (record_failure store _ _) as [store1 pr] eqn:Hp. injection H as <- <-.
    destruct pr; by eapply record_failure_boundary.
Qed.

(** C1: no failure of [up] replaces the active generation.  From a workspace whose stored state
    is [s0], whatever the planner, the environment and the store do, the stored state afterwards
    is of the same workspace.  On success it records the generation of the outcome, idle and
    without error; that generation is the old one, with its build and create fingerprints and,
    when the runtime drifted, the desired runtime fingerprint; for a first generation the
    fingerprints are the desired ones.  On an error the active generation is the old one, except
    when the write of such a commit itself failed after replacing the file. *)
Theorem reconcile_commit_boundary (w : World S A) (request : ReconciliationRequest)
    (s0 : WorkspaceState) :
  stored (w_store w) = Some s0 ->
  let '(w', r) := reconcile_workspace w request in boundary request s0 (w_store w') r.
Proof.
  intros H0. destruct (reconcile_workspace w request) as [w' r] eqn:H. unfold reconcile_workspace in H.
  assert (Hkeep : forall e, boundary request s0 (w_store w) (Err e))
    by (intros e; by eapply boundary_kept).
  destruct (acquire (w_env w)); [|injection H as <- <-; done].
  destruct (load (w_store w)) as [loaded|] eqn:Hl; [|injection H as <- <-; done].
  apply load_stored in Hl. rewrite H0 in Hl. injection Hl as Hl. rewrite <- Hl in H.
  destruct (prepare _ _ _ _) as [desired|]; [|injection H as <- <-; done].
  destruct (match ws_active s0 with Some active => _ | None => _ end); [injection H as <- <-; done|].
  destruct (persist (w_store w) _) as [store1 pr] eqn:Hp.
  assert (Hs := stored_after_persist _ _ _ _ _ H0 Hp). destruct pr as [[]|e].
  - destruct Hs as [Hs|[? _]]; [|done]. destruct (preflight _ _ _) as [env1 [[]|source]].
    + by eapply reconcile_and_commit_boundary.
    + destruct (record_failure store1 _ _) as [store2 pr] eqn:Hr. injection H as <- <-.
      destruct pr; by eapply record_failure_boundary.
  - injection H as <- <-. destruct Hs as [Hs|[_ Hs]].
    + eapply boundary_kept; [exact Hs|apply same_intent|done].
    + by eapply boundary_kept.
Qed.

Lemma reconcile_and_commit_env request desired previous drift state store env w' r :
  reconcile_and_commit request desired previous drift state store env = (w', r) ->
  w_env w' = fst (reconcile env (mkEnvironmentRequest desired previous drift)).
Proof.
  unfold reconcile_and_commit. intros H. destruct (reconcile env _) as [env1 [ready|source]].
  - destruct (validate_readiness _ _ _ _).
    + destruct (persist store _). by injection H as <- _.
    + destruct (record_failure store _ _). by injection H as <- _.
  - destruct (record_failure store _ _). by injection H as <- _.
Qed.

(** What a run prepared before its first effect: the plan, under the policy of the workspace (online
    only before the first generation exists), the stored intent, and the drift per category. *)
Record prepared (w : World S A) (request : ReconciliationRequest) (state : WorkspaceState)
    (desired : PreparedDesiredPlan P) (policy : FeatureSourcePolicy) (intent : WorkspaceState)
    (drift : CategoryDrift) : Prop := mkPrepared {
  pre_plan : prepare (w_env w) (rr_config request) state policy = Ok desired;
  pre_policy : policy = FrozenOffline <-> is_Some (ws_active state);
  pre_determinate old : ws_active state = Some old -> pc_indeterminate (ag_lifecycle old) = false;
  pre_active : ws_active intent = ws_active state;
  pre_desired : ws_desired_fingerprints intent = pd_fingerprints desired
    /\ ws_desired_config intent = pd_config desired /\ ws_devcontainer_profile intent = pd_profile desired;
  pre_operation : ws_operation intent = rr_operation request /\ ws_last_error intent = None;
  pre_stored : exists store1, persist (w_store w) intent = (store1, Ok tt);
  pre_first : ws_active state = None -> drift = no_drift;
  pre_drift old : ws_active state = Some old ->
    (drift_build drift = true <-> fp_build (pd_fingerprints desired) <> fp_build (ag_fingerprints old))
    /\ (drift_create drift = true <-> fp_create (pd_fingerprints desired) <> fp_create (ag_fingerprints old))
    /\ (drift_runtime drift = true <-> fp_runtime (pd_fingerprints desired) <> fp_runtime (ag_fingerprints old));
}.

Lemma drift_flag (X : Type) `{!EqDecision X} (x y : X) : negb (bool_decide (x = y)) = true <-> x <> y.
Proof. rewrite negb_true_iff. apply bool_decide_eq_false. Qed.

Lemma prepared_intro w request state desired store1 :
  prepare (w_env w) (rr_config request) state (feature_policy state) = Ok desired ->
  match ws_active state with Some active => pc_indeterminate (ag_lifecycle active) | None => false end
    = false ->
  persist (w_store w) (intent_state state desired (rr_operation request)) = (store1, Ok tt) ->
  prepared w request state desired (feature_policy state)
    (intent_state state desired (rr_operation request)) (category_drift state (pd_fingerprints desired)).
Proof.
  intros Hp Hd Hs. split; [done| | |done|done|done|by eexists|intros Hn; unfold category_drift; by rewrite Hn|].
  - unfold feature_policy. destruct (ws_active state); [by split; eauto|]. by split; [|intros [? ?]].
  - intros old Ho. by rewrite Ho in Hd.
  - intros old Ho. unfold category_drift. rewrite Ho. cbn. by rewrite !drift_flag.
Qed.

(** planning precedes every effect.  When the lock is not acquired, the desired
    configuration is invalid, or the one-time lifecycle work of the active generation is
    indeterminate, nothing changes: neither the store nor the adapters' world.  And the adapters'
    world changes only after the plan was prepared (offline once a generation is active), the
    lifecycle was found determinate and the intent was stored, with the desired configuration
    and the old generation; then it is what the preflight leaves, if that fails, and otherwise
    what one call of the environment with the plan, the old generation and the categories that
    really drifted leaves. *)
Theorem reconcile_plans_before_mutating (w : World S A) (request : ReconciliationRequest) :
  let '(w', r) := reconcile_workspace w request in
  match r with
  | Err (Rec_Lock _) | Err (Rec_Desired _) | Err Rec_IndeterminateLifecycle => w' = w
  | _ => True
  end /\
  (w_env w' = w_env w \/
   exists loaded desired policy intent drift,
     load (w_store w) = Ok loaded /\
     prepared w request (loaded_state loaded) desired policy intent drift /\
     let '(env1, checked) := preflight (w_env w) desired policy in
     w_env w' = if is_ok checked
                then fst (reconcile env1 (mkEnvironmentRequest desired (ws_active (loaded_state loaded)) drift))
                else env1).
Proof.
  destruct (reconcile_workspace w request) as [w' r] eqn:H. unfold reconcile_workspace in H.
  destruct (acquire (w_env w)); [|injection H as <- <-; auto].
  destruct (load (w_store w)) as [loaded|] eqn:Hl; [|injection H as <- <-; auto].
  destruct (prepare _ _ _ _) as [desired|] eqn:Hprep; [|injection H as <- <-; auto].
  destruct (match ws_active _ with Some active => _ | None => _ end) eqn:Hind;
    [injection H as <- <-; auto|].
  destruct (persist (w_store w) _) as [store1 [[]|e]] eqn:Hp; [|injection H as <- <-; auto].
  assert (Hpd := prepared_intro _ _ _ _ _ Hprep Hind Hp).
  destruct (preflight _ _ _) as [env1 [[]|source]] eqn:Hpre.
  - assert (Henv := reconcile_and_commit_env _ _ _ _ _ _ _ _ _ H). split.
    + clear - H. unfold reconcile_and_commit in H. destruct (reconcile env1 _) as [env2 [ready|source]].
      * destruct (validate_readiness _ _ _ _) as [|[]].
        -- destruct (persist store1 _) as [? []]; by injection H as <- <-.
        -- destruct (record_failure store1 _ _) as [? []]; by injection H as <- <-.
        -- destruct (record_failure store1 _ _) as [? []]; by injection H as <- <-.
      * destruct (record_failure store1 _ _) as [? []]; by injection H as <- <-.
    + right. eexists loaded, desired, _, _, _. split_and!; [done|exact Hpd|]. by rewrite Hpre.
  - destruct (record_failure store1 _ _) as [store2 rr] eqn:Hrec. injection H as <- <-.
    split; [by destruct rr|]. right. eexists loaded, desired, _, _, _. split_and!; [done|exact Hpd|]. by rewrite Hpre.
Qed.
End reconciliation.

(** ** A concrete run *)

Definition sample_active (generation : N) (container : str) : ActiveGeneration :=
  mkActive (mkGenerationId generation) Scenario_Image (mkContainerId container) ($"sha256:image")
    sample_fingerprints ∅ (mkPersistedCheckpoint None None false) (mkActiveForwarding None [] [])
    (mkProvisioned ($"dev") ($"/workspaces/demo") Aarch64 ($"/usr/local/bin/agent")
       (mkAgentBuildId ($"build-1")) (mkProtocolVersion 1) ($"/run/environment.json")).

#[export] Instance sample_planner : ReconciliationPlanner nat unit unit unit := {
  prepare _ _ s _ := Ok (mkDesired (ws_devcontainer_profile s) (ws_desired_config s) sample_fingerprints tt);
  preflight n _ _ := (S n, Ok tt);
  preflight_message _ := [];
}.

#[export] Instance sample_environment : EnvironmentReconciler nat unit unit := {
  reconcile n _ := (S n, Ok (mkReady (sample_active 1 ($"abc")) Env_Created Runtime_Current));
  reconcile_message _ := [];
}.

Definition sample_up_request : ReconciliationRequest :=
  mkReconciliationRequest None (mkOperation Op_Starting (Some ($"op-1")) (Some (mkTimestamp ($"2026-01-01T00:00:00Z"))))
    (mkTimestamp ($"2026-01-02T00:00:00Z")).

Definition sample_dir (s : WorkspaceState) : gmap (list N) (Entry Document) :=
  {[ state_file := mkEntry Kind_File 1000 384 (Doc_State s) ]}.

#[export] Instance sample_managed_store : StateStore (ManagedStore Document) :=
  managed_store 1000 18 (Doc_Other None).
#[export] Instance sample_managed_store_laws : StateStoreLaws (ManagedStore Document) :=
  managed_store_laws 1000 18 (Doc_Other None).

Lemma reconcile_commit_boundary_witness :
  let w := mkWorld (sample_store (sample_dir sample_state) None) 0%nat in
  stored (w_store w) = Some sample_state /\
  let '(w', r) := reconcile_workspace (P := unit) (PE := unit) (FE := unit) (EE := unit)
                    (fun _ => Ok tt) w sample_up_request in
  boundary sample_up_request sample_state (w_store w') r.
Proof.
  intros w. assert (H : stored (w_store w) = Some sample_state) by (vm_compute; reflexivity).
  split; [exact H|].
  exact (reconcile_commit_boundary (fun _ => Ok tt) w sample_up_request sample_state H).
Defined.

Example reconcile_commits :
  is_ok (snd (reconcile_workspace (P := unit) (PE := unit) (FE := unit) (EE := unit) (fun _ => Ok tt)
    (mkWorld (sample_store (sample_dir sample_state) None) 0%nat) sample_up_request)) = true.
Proof. vm_compute. reflexivity. Qed.
