(* ===== verification/LifecycleScript.v ===== *)
(** * LifecycleScript: the shell scripts that run lifecycle commands in the container
    ([execute_lifecycle] and its helpers of [cdenv-cli/src/production.rs])

    The values of a lifecycle command may name variables of the container's environment, which
    only the container knows: the host writes a shell script that puts each argument together
    and runs the command in its place.  The scripts are built here character by character; what
    a shell makes of them is not defined.  The theorems are about which groups run, in which
    order, and what is left for the background. *)

From S2P Require Import Prelude Text Utf8 Substitution Lifecycle Reconciliation.

(** ** The scripts *)

(** [value.replace('\'', "'\"'\"'")] between quotes.
    @src cdenv-cli/src/production.rs:1360-1362 shell_quote *)
Definition shell_quote (value : str) : str :=
  [39] ++ concat (List.map (fun c => if c =? 39 then [39; 34; 39; 34; 39] else [c]) value) ++ [39].

(** One segment of a value.
    @src cdenv-cli/src/production.rs:1342-1355 append_deferred_value *)
Definition deferred_segment (segment : Segment) : str :=
  match segment with
  | Segment_Literal value => $"v=$v" ++ shell_quote value ++ $";"
  | Segment_ContainerEnv name default =>
      $"if [ " ++ [34] ++ $"${" ++ name ++ $"+x}" ++ [34] ++ $" = x ];then v=$v" ++ [34] ++ $"$" ++ name ++ [34] ++ $";else v=$v"
      ++ shell_quote default ++ $";fi;"
  end.

(** @src cdenv-cli/src/production.rs:1339-1358 append_deferred_value *)
Definition append_deferred_value (output : str) (value : DeferredString) : str :=
  fold_left (fun output segment => output ++ deferred_segment segment) (segments_of value) output.

(** [None] for the error about an empty argument vector.
    @src cdenv-cli/src/production.rs:1315-1337 lifecycle_process_script *)
Definition lifecycle_process_script (process : LifecycleProcess) : option str :=
  match process with
  | Process_Shell value => Some (append_deferred_value ($"v='';") value ++ $"exec /bin/sh -c " ++ [34] ++ $"$v" ++ [34])
  | Process_Exec [] => None
  | Process_Exec arguments =>
      Some (fold_left (fun script argument =>
              append_deferred_value (script ++ $"v='';") argument ++ $"set -- " ++ [34] ++ $"$@" ++ [34; 32; 34] ++ $"$v" ++ [34] ++ $";")
            arguments ($"set --;")
            ++ $"exec " ++ [34] ++ $"$@" ++ [34])
  end.

(** @src cdenv-cli/src/production.rs:1297-1313 lifecycle_group_script *)
Definition lifecycle_group_script (group : LifecycleCommand) : option str :=
  match group with
  | Lifecycle_Process process => lifecycle_process_script process
  | Lifecycle_Parallel processes =>
      scripts ← mapM (fun '(_, process) => lifecycle_process_script process) processes;
      Some ($"pids='';status=0;"
            ++ concat (List.map (fun script => $"(" ++ script ++ $")&pids=" ++ [34] ++ $"$pids $!" ++ [34] ++ $";") scripts)
            ++ $"for p in $pids;do wait " ++ [34] ++ $"$p" ++ [34] ++ $"||status=$?;done;[ " ++ [34] ++ $"$status" ++ [34]
            ++ $" -eq 0 ]||exit " ++ [34] ++ $"$status" ++ [34])
  end.

(** [managed] is the runtime directory and the encoded grants of a credential lease.
    @src cdenv-cli/src/production.rs:1270-1295 lifecycle_agent_command *)
Definition lifecycle_agent_command (agent environment script : str) (managed : option (str * str)) : list str :=
  [agent]
  ++ match managed with
     | Some (runtime_directory, grants) => [$"run-managed-environment"; environment; runtime_directory; grants]
     | None => [$"run-environment"; environment]
     end
  ++ [$"--"; $"/bin/sh"; $"-c"; script; $"--"].

(** @src cdenv-cli/src/production.rs:1181-1184 LifecycleExecution *)
Inductive LifecycleExecution : Type := Foreground | Background.

(** The stages that are due.
    @src cdenv-cli/src/production.rs:1204-1210 execute_lifecycle *)
Definition due_stages (plan : LifecyclePlan) (transition : EnvironmentTransition) (new_generation : bool) : list LifecycleStagePlan :=
  (if new_generation then [p_on_create plan; p_update_content plan; p_post_create plan] else [])
  ++ match transition with Env_AlreadyRunning => [] | _ => [p_post_start plan] end.

(** @src cdenv-cli/src/production.rs:1213-1217 execute_lifecycle *)
Definition stage_execution (plan : LifecyclePlan) (stage : LifecycleStagePlan) : LifecycleExecution :=
  if stage_index (plan_stage stage) <=? stage_index (readiness plan) then Foreground else Background.

Definition runs_in (execution : LifecycleExecution) (plan : LifecyclePlan) (stage : LifecycleStagePlan) : bool :=
  match execution, stage_execution plan stage with
  | Foreground, Foreground | Background, Background => true
  | _, _ => false
  end.

(** The groups that an execution runs, in order.
    @src cdenv-cli/src/production.rs:1212-1221 execute_lifecycle *)
Definition lifecycle_groups (plan : LifecyclePlan) (transition : EnvironmentTransition) (new_generation : bool) (execution : LifecycleExecution) :
    list LifecycleCommand :=
  concat (List.map plan_commands (List.filter (runs_in execution plan) (due_stages plan transition new_generation))).

(** The stage that is recorded as running when the environment is ready.
    @src cdenv-cli/src/production.rs:975-985 finish_readiness *)
Definition running_stage (plan : LifecyclePlan) (transition : EnvironmentTransition) (new_generation : bool) : option LifecycleStage :=
  plan_stage <$> List.find (fun stage => (stage_index (readiness plan) <? stage_index (plan_stage stage))
                                         && match plan_commands stage with [] => false | _ => true end)
                   (due_stages plan transition new_generation).

Section execute.
(** Running a command attached in the container and copying its output, and starting one
    detached; [false] for an error. *)
Context {W : Type} (attached detached : list str -> W -> W * bool) (agent environment : str) (managed : option (str * str)).

(** The groups of a stage in the foreground: each runs to its end before the next. *)
Fixpoint run_groups (groups : list LifecycleCommand) (w : W) : W * bool :=
  match groups with
  | [] => (w, true)
  | group :: rest =>
      match lifecycle_group_script group with
      | None => (w, false)
      | Some script =>
          match attached (lifecycle_agent_command agent environment script managed) w with
          | (w, true) => run_groups rest w
          | (w, false) => (w, false)
          end
      end
  end.

(** The script of all groups in the background. *)
Definition background_script (groups : list LifecycleCommand) : option str :=
  scripts ← mapM lifecycle_group_script groups;
  Some (concat (List.map (fun script => $"(" ++ script ++ $")||exit $?;") scripts)).

(** @src cdenv-cli/src/production.rs:1190-1268 execute_lifecycle *)
Definition execute_lifecycle (plan : LifecyclePlan) (transition : EnvironmentTransition) (new_generation : bool) (execution : LifecycleExecution) (w : W) :
    W * bool :=
  let groups := lifecycle_groups plan transition new_generation execution in
  match execution with
  | Foreground => run_groups groups w
  | Background =>
      match background_script groups with
      | None => (w, false)
      | Some [] => (w, true)
      | Some script => detached (lifecycle_agent_command agent environment script managed) w
      end
  end.
End execute.

(** The name of a container variable is part of the script as it is: a value that names [v] refers
    to the variable in which the script puts the value together. *)
Example script_names_own_variable :
  lifecycle_process_script (Process_Shell (mkDeferred [Segment_Literal ($"a"); Segment_ContainerEnv ($"v") ($"d")]))
  = Some ($"v='';v=$v'a';if [ " ++ [34] ++ $"${v+x}" ++ [34] ++ $" = x ];then v=$v" ++ [34] ++ $"$v" ++ [34]
          ++ $";else v=$v'd';fi;exec /bin/sh -c " ++ [34] ++ $"$v" ++ [34]).
Proof. vm_compute. reflexivity. Qed.

(** ** Which groups run *)

(** Every stage is where its field says. *)
Definition plan_placed (plan : LifecyclePlan) : Prop :=
  plan_stage (p_on_create plan) = OnCreate /\ plan_stage (p_update_content plan) = UpdateContent
  /\ plan_stage (p_post_create plan) = PostCreate /\ plan_stage (p_post_start plan) = PostStart.

(** The groups up to readiness in the foreground, then the others in the background, are all that
    are due, once each and in order. *)
Theorem lifecycle_groups_once plan transition new_generation : plan_placed plan ->
  lifecycle_groups plan transition new_generation Foreground ++ lifecycle_groups plan transition new_generation Background
  = concat (List.map plan_commands (due_stages plan transition new_generation)).
Proof.
  intros (H1 & H2 & H3 & H4). unfold lifecycle_groups, due_stages, runs_in, stage_execution.
  destruct new_generation, transition; cbn [app List.filter]; rewrite ?H1, ?H2, ?H3, ?H4; destruct (readiness plan); cbn; rewrite ?app_nil_r, <- ?app_assoc; reflexivity.
Qed.

Lemma find_None_concat {X Y : Type} (f : X -> list Y) (p : X -> bool) (l : list X) :
  List.find (fun x => p x && match f x with [] => false | _ => true end) l = None <-> concat (List.map f (List.filter p l)) = [].
Proof.
  induction l as [|x l IH]; cbn; [done|]. destruct (p x); cbn; [|done]. destruct (f x); cbn; [done|]. split; done.
Qed.

(** A stage is recorded as running exactly if groups are left for the background. *)
Theorem running_stage_background plan transition new_generation :
  running_stage plan transition new_generation = None <-> lifecycle_groups plan transition new_generation Background = [].
Proof.
  unfold running_stage, lifecycle_groups. rewrite <- find_None_concat.
  match goal with |- _ <$> List.find ?f ?l = None <-> List.find ?g _ = None => assert (Hf : List.find f l = List.find g l) end.
  { induction (due_stages plan transition new_generation) as [|s l IH]; cbn; [done|]. rewrite IH. unfold runs_in, stage_execution.
    rewrite N.leb_antisym. by destruct (stage_index (readiness plan) <? stage_index (plan_stage s)). }
  by rewrite fmap_None, Hf.
Qed.

(** *** The foreground *)

Section foreground.
Context {W : Type} (attached detached : list str -> W -> W * bool) (agent environment : str) (managed : option (str * str)).
Abbreviation command_of script := (lifecycle_agent_command agent environment script managed).

(** Attached commands one after the other, each of which ended well. *)
Inductive ran : list (list str) -> W -> W -> Prop :=
| ran_nil w : ran [] w w
| ran_cons command rest w w1 w2 : attached command w = (w1, true) -> ran rest w1 w2 -> ran (command :: rest) w w2.

(** How the first group that did not run ended: it has no script, or its command failed. *)
Inductive group_failed (group : LifecycleCommand) (w : W) : W -> Prop :=
| failed_script : lifecycle_group_script group = None -> group_failed group w w
| failed_command script w' : lifecycle_group_script group = Some script -> attached (command_of script) w = (w', false) ->
    group_failed group w w'.

(** The groups up to readiness run in order, one attached command each, up to the first that
    fails; no group after that one runs, and success means that all of them ran. *)
Theorem foreground_runs_in_order plan transition new_generation w w' ended :
  execute_lifecycle attached detached agent environment managed plan transition new_generation Foreground w = (w', ended) ->
  exists before rest scripts w1, lifecycle_groups plan transition new_generation Foreground = before ++ rest
    /\ mapM lifecycle_group_script before = Some scripts /\ ran (List.map (fun script => command_of script) scripts) w w1
    /\ match rest with
       | [] => ended = true /\ w' = w1
       | group :: _ => ended = false /\ group_failed group w1 w'
       end.
Proof.
  cbn [execute_lifecycle]. generalize (lifecycle_groups plan transition new_generation Foreground). intros groups.
  revert w. induction groups as [|group groups IH]; intros w H; cbn [run_groups] in H.
  { injection H as <- <-. exists [], [], [], w. by repeat split; constructor. }
  destruct (lifecycle_group_script group) as [script|] eqn:Hs.
  - destruct (attached (command_of script) w) as [w0 [|]] eqn:Ha.
    + destruct (IH _ H) as (before & rest & scripts & w1 & -> & Hd & Hr & He).
      exists (group :: before), rest, (script :: scripts), w1. split; [done|]. split; [cbn; by rewrite Hs, Hd|].
      split; [|done]. by econstructor.
    + injection H as <- <-. exists [], (group :: groups), [], w. split; [done|]. split; [done|]. split; [constructor|].
      split; [done|]. by eapply failed_command.
  - injection H as <- <-. exists [], (group :: groups), [], w. split; [done|]. split; [done|]. split; [constructor|].
    split; [done|]. by constructor.
Qed.
End foreground.
