(* ===== verification/Down.v ===== *)
(** * Down: the ordered shutdown of a workspace
    ([cdenv-cli/src/down.rs]) *)

From S2P Require Import Prelude Text Identity Workspace Status Storage WorkspaceState Transaction.

(** @src cdenv-cli/src/down.rs:28-35 ForwardingStopOutcome *)
Inductive ForwardingStopOutcome : Type := Forwarding_Stopped | Forwarding_Missing | Forwarding_Degraded.
(** @src cdenv-cli/src/down.rs:39-48 LifecycleStopOutcome *)
Inductive LifecycleStopOutcome : Type :=
| Lifecycle_NotRunning | Lifecycle_Graceful | Lifecycle_Forced | Lifecycle_Indeterminate.
(** @src cdenv-cli/src/down.rs:52-59 EnvironmentStopOutcome *)
Inductive EnvironmentStopOutcome : Type :=
| Environment_Stopped | Environment_AlreadyStopped | Environment_Missing.

#[export] Instance LifecycleStopOutcome_eq_dec : EqDecision LifecycleStopOutcome.
Proof. solve_decision. Defined.

(** @src cdenv-cli/src/down.rs:63-70 InterruptedOperationRecovery *)
Inductive InterruptedOperationRecovery : Type :=
| Recovery_None
| Recovery_Recoverable (operation : ForegroundOperation)
| Recovery_Retained (operation : ForegroundOperation).

(** @src cdenv-cli/src/down.rs:75-89 classify_interrupted_operation *)
Definition classify_interrupted_operation (operation : ForegroundOperation)
    (lifecycle_indeterminate : bool) : InterruptedOperationRecovery :=
  match operation with
  | Op_Idle => Recovery_None
  | Op_Stopping => Recovery_Recoverable Op_Stopping
  | Op_Starting => if negb lifecycle_indeterminate then Recovery_Recoverable Op_Starting
                   else Recovery_Retained Op_Starting
  | operation => Recovery_Retained operation
  end.

(** @src cdenv-cli/src/down.rs:93-104 DownWarning *)
Inductive DownWarning : Type :=
| Down_ForwardingMissing
| Down_ForwardingDegraded
| Down_LifecycleForced
| Down_EnvironmentMissing
| Down_PriorOperationInterrupted (operation : ForegroundOperation).

(** The grace periods are in seconds. @src cdenv-cli/src/down.rs:107-116 DownRequest *)
Record DownRequest : Type := mkDownRequest {
  dr_workspace : WorkspaceName;
  dr_operation : OperationState;
  dr_lifecycle_grace : N;
  dr_container_grace : N;
}.

(** The three stop traits, over the adapters' world.
    @src cdenv-cli/src/down.rs:133-171 ForwardingSupervisorStop *)
Class StopAdapters (A FE LE EE : Type) : Type := {
  stop_forwarding : A -> WorkspaceName -> option ActiveGeneration ->
    A * result FE ForwardingStopOutcome;
  cancel_lifecycle : A -> option ActiveGeneration -> N -> A * result LE LifecycleStopOutcome;
  stop_environment : A -> option ActiveGeneration -> N -> A * result EE EnvironmentStopOutcome;
}.

(** @src cdenv-cli/src/down.rs:175-184 StopFailures *)
Record StopFailures (FE LE EE : Type) : Type := mkFailures {
  sf_forwarding : option FE;
  sf_lifecycle : option LE;
  sf_environment : option EE;
  sf_lifecycle_indeterminate : bool;
}.
Arguments mkFailures {FE LE EE} _ _ _ _.
Arguments sf_forwarding {FE LE EE} _.
Arguments sf_lifecycle {FE LE EE} _.
Arguments sf_environment {FE LE EE} _.
Arguments sf_lifecycle_indeterminate {FE LE EE} _.

(** @src cdenv-cli/src/down.rs:189-194 StopFailures::is_empty *)
Definition failures_empty {FE LE EE} (f : StopFailures FE LE EE) : bool :=
  negb (is_Some_b (sf_forwarding f)) && negb (is_Some_b (sf_lifecycle f))
  && negb (is_Some_b (sf_environment f)) && negb (sf_lifecycle_indeterminate f).

(** @src cdenv-cli/src/down.rs:199-210 DownOutcome *)
Record DownOutcome : Type := mkDownOutcome {
  do_forwarding : ForwardingStopOutcome;
  do_lifecycle : LifecycleStopOutcome;
  do_environment : EnvironmentStopOutcome;
  do_recovery : InterruptedOperationRecovery;
  do_warnings : list DownWarning;
}.

(** @src cdenv-cli/src/down.rs:214-244 DownError *)
Inductive DownError (FE LE EE : Type) : Type :=
| Down_InvalidOperation
| Down_Lock (error : LockError)
| Down_State (error : WorkspaceStateError)
| Down_Incomplete (failures : StopFailures FE LE EE)
| Down_FailureRecord (failures : StopFailures FE LE EE) (state : WorkspaceStateError).
Arguments Down_InvalidOperation {FE LE EE}.
Arguments Down_Lock {FE LE EE} _.
Arguments Down_State {FE LE EE} _.
Arguments Down_Incomplete {FE LE EE} _.
Arguments Down_FailureRecord {FE LE EE} _ _.

(** [format!("{operation:?}")] *)
Definition operation_debug (operation : ForegroundOperation) : str :=
  match operation with
  | Op_Idle => $"Idle" | Op_Creating => $"Creating" | Op_Starting => $"Starting"
  | Op_Rebuilding => $"Rebuilding" | Op_Stopping => $"Stopping" | Op_Locking => $"Locking"
  end.

(** @src cdenv-cli/src/down.rs:371-399 failure_summary *)
Definition failure_summary {FE LE EE} (successful : bool) (recovery : InterruptedOperationRecovery)
    (failures : StopFailures FE LE EE) : option SanitizedSummary :=
  if negb successful then
    let phases :=
      (if is_Some_b (sf_forwarding failures) then [$"forwarding"] else [])
      ++ (if is_Some_b (sf_lifecycle failures) || sf_lifecycle_indeterminate failures
          then [$"lifecycle"] else [])
      ++ (if is_Some_b (sf_environment failures) then [$"environment"] else []) in
    Some (redact ($"down incomplete during " ++ join ($", ") phases) [])
  else match recovery with
  | Recovery_Retained operation =>
      Some (redact ($"previous " ++ operation_debug operation ++ $" operation was interrupted") [])
  | _ => None
  end.

(** @src cdenv-cli/src/down.rs:401-423 warnings *)
Definition down_warnings (forwarding : ForwardingStopOutcome) (lifecycle : LifecycleStopOutcome)
    (environment : EnvironmentStopOutcome) (recovery : InterruptedOperationRecovery) :
    list DownWarning :=
  match forwarding with
  | Forwarding_Stopped => []
  | Forwarding_Missing => [Down_ForwardingMissing]
  | Forwarding_Degraded => [Down_ForwardingDegraded]
  end
  ++ (if bool_decide (lifecycle = Lifecycle_Forced) then [Down_LifecycleForced] else [])
  ++ match environment with Environment_Missing => [Down_EnvironmentMissing] | _ => [] end
  ++ match recovery with
     | Recovery_Retained operation => [Down_PriorOperationInterrupted operation]
     | _ => []
     end.

(** [result.err()] *)
Definition err {E T} (r : result E T) : option E := match r with Err e => Some e | Ok _ => None end.

Section down.
Context {S A FE LE EE : Type} `{!StateStore S, !StopAdapters A FE LE EE}
  (acquire : A -> result LockError unit).

(** [lifecycle.is_ok_and(|outcome| outcome == Indeterminate)] *)
Definition indeterminate_stop (lifecycle : result LE LifecycleStopOutcome) : bool :=
  match lifecycle with Ok outcome => bool_decide (outcome = Lifecycle_Indeterminate) | Err _ => false end.

(** The failures of the three phases.
    @src cdenv-cli/src/down.rs:324-329 finish_down *)
Definition stop_failures (forwarding : result FE ForwardingStopOutcome)
    (lifecycle : result LE LifecycleStopOutcome) (environment : result EE EnvironmentStopOutcome) :
    StopFailures FE LE EE :=
  mkFailures (err forwarding) (err lifecycle) (err environment) (indeterminate_stop lifecycle).

(** The state a shutdown ends with. @src cdenv-cli/src/down.rs:331-332 finish_down *)
Definition finished_state (state : WorkspaceState) (recovery : InterruptedOperationRecovery)
    (failures : StopFailures FE LE EE) : WorkspaceState :=
  set_last_error (set_operation state idle)
    (failure_summary (failures_empty failures) recovery failures).

(** The [unreachable!] of the code is the last branch ([failures_empty_phases]).
    @src cdenv-cli/src/down.rs:308-369 finish_down *)
Definition finish_down (store : S) (state : WorkspaceState) (recovery : InterruptedOperationRecovery)
    (forwarding : result FE ForwardingStopOutcome) (lifecycle : result LE LifecycleStopOutcome)
    (environment : result EE EnvironmentStopOutcome) :
    S * result (DownError FE LE EE) DownOutcome :=
  let failures := stop_failures forwarding lifecycle environment in
  let '(store, r) := persist store (finished_state state recovery failures) in
  (store,
   match r with
   | Err e => Err (Down_FailureRecord failures e)
   | Ok _ =>
       if negb (failures_empty failures) then Err (Down_Incomplete failures) else
       match forwarding, lifecycle, environment with
       | Ok forwarding, Ok lifecycle, Ok environment =>
           Ok (mkDownOutcome forwarding lifecycle environment recovery
                 (down_warnings forwarding lifecycle environment recovery))
       | _, _, _ => Err (Down_Incomplete failures)
       end
   end).

(** The active generation after the lifecycle runner is stopped.
    @src cdenv-cli/src/down.rs:288-293 down_workspace *)
Definition after_cancel (state : WorkspaceState) (lifecycle : result LE LifecycleStopOutcome) :
    WorkspaceState :=
  match lifecycle with
  | Ok outcome =>
      match ws_active state with
      | Some active => set_active state (Some (record_lifecycle_stopped active
                         (bool_decide (outcome = Lifecycle_Indeterminate))))
      | None => state
      end
  | Err _ => state
  end.

(** @src cdenv-cli/src/down.rs:274-279 down_workspace *)
Definition down_recovery (state : WorkspaceState) : InterruptedOperationRecovery :=
  classify_interrupted_operation (op_kind (ws_operation state))
    match ws_active state with
    | Some active => pc_indeterminate (ag_lifecycle active)
    | None => false
    end.

(** @src cdenv-cli/src/down.rs:256-306 down_workspace *)
Definition down_workspace (w : World S A) (request : DownRequest) :
    World S A * result (DownError FE LE EE) DownOutcome :=
  if negb (bool_decide (op_kind (dr_operation request) = Op_Stopping))
  then (w, Err Down_InvalidOperation) else
  match acquire (w_env w) with
  | Err e => (w, Err (Down_Lock e))
  | Ok _ =>
  match load (w_store w) with
  | Err e => (w, Err (Down_State e))
  | Ok loaded =>
  let state := loaded_state loaded in
  let recovery := down_recovery state in
  let state := set_last_error (set_operation state (dr_operation request)) None in
  let '(store, r) := persist (w_store w) state in
  match r with
  | Err e => (mkWorld store (w_env w), Err (Down_State e))
  | Ok _ =>
  let '(env, forwarding) := stop_forwarding (w_env w) (dr_workspace request) (ws_active state) in
  let '(env, lifecycle) := cancel_lifecycle env (ws_active state) (dr_lifecycle_grace request) in
  let state := after_cancel state lifecycle in
  let '(env, environment) := stop_environment env (ws_active state) (dr_container_grace request) in
  let '(store, r) := finish_down store state recovery forwarding lifecycle environment in
  (mkWorld store env, r)
  end end end.

(** ** Shutdown *)

(** The three phases, each applied to what the previous one left, whatever it returned. *)
Definition phases_run (w : World S A) (request : DownRequest) (s0 : WorkspaceState)
    (env : A) (f : result FE ForwardingStopOutcome) (l : result LE LifecycleStopOutcome)
    (e : result EE EnvironmentStopOutcome) : Prop :=
  exists env1 env2,
    stop_forwarding (w_env w) (dr_workspace request) (ws_active s0) = (env1, f) /\
    cancel_lifecycle env1 (ws_active s0) (dr_lifecycle_grace request) = (env2, l) /\
    stop_environment env2 (ws_active (after_cancel s0 l)) (dr_container_grace request) = (env, e).

(** The intent and the active generation are kept, but for its lifecycle runner. *)
Record retains (s0 s1 : WorkspaceState) : Prop := mkRetains {
  re_workspace : same_workspace s0 s1;
  re_profile : ws_devcontainer_profile s1 = ws_devcontainer_profile s0;
  re_config : ws_desired_config s1 = ws_desired_config s0;
  re_desired : ws_desired_fingerprints s1 = ws_desired_fingerprints s0;
  re_last_up : ws_last_up_at s1 = ws_last_up_at s0;
  re_compose : ws_interrupted_compose_rebuild s1 = ws_interrupted_compose_rebuild s0;
  re_active : ws_active s1 = ws_active s0 \/
    exists active indeterminate, ws_active s0 = Some active /\
      ws_active s1 = Some (record_lifecycle_stopped active indeterminate);
}.

Lemma after_cancel_active s o l :
  ws_active (after_cancel (set_last_error (set_operation s o) None) l) = ws_active (after_cancel s l).
Proof. unfold after_cancel. destruct l; [|done]. cbn. destruct (ws_active s) eqn:Ha; cbn; by rewrite ?Ha. Qed.

Lemma retains_after_cancel s o l : retains s (after_cancel (set_last_error (set_operation s o) None) l).
Proof.
  unfold after_cancel. destruct l as [outcome|]; [|split; cbn; auto; by split_and!].
  cbn. destruct (ws_active s) as [a|] eqn:Ha; (split; cbn; rewrite ?Ha; auto; [by split_and!|..]).
  right. by eexists _, _.
Qed.

Lemma retains_finished s0 s r f : retains s0 s -> retains s0 (finished_state s r f).
Proof. intros [H1 H2 H3 H4 H5 H6 H7]. split; done. Qed.

Lemma failures_empty_phases f l e :
  failures_empty (stop_failures f l e) = true <->
  exists fo lo eo, f = Ok fo /\ l = Ok lo /\ e = Ok eo /\ lo <> Lifecycle_Indeterminate.
Proof.
  unfold failures_empty, stop_failures. cbn. split.
  - destruct f as [fo|], l as [lo|], e as [eo|]; cbn; try done. intros H. prop_of_bool.
    by exists fo, lo, eo.
  - intros (fo & lo & eo & -> & -> & -> & Hne). cbn. by rewrite bool_decide_eq_false_2.
Qed.

Context `{!StateStoreLaws S}.

(** What a shutdown from [s0] leaves. *)
Definition shut_down (w : World S A) (request : DownRequest) (s0 : WorkspaceState) (w' : World S A)
    (r : result (DownError FE LE EE) DownOutcome) : Prop :=
  exists s1, stored (w_store w') = Some s1 /\ retains s0 s1 /\
  match r with
  | Ok o => phases_run w request s0 (w_env w')
        (Ok (do_forwarding o)) (Ok (do_lifecycle o)) (Ok (do_environment o)) /\
      do_lifecycle o <> Lifecycle_Indeterminate /\ ws_operation s1 = idle /\
      (ws_last_error s1 = None <-> forall op, do_recovery o <> Recovery_Retained op)
  | Err (Down_Incomplete failures) => exists f l e,
      phases_run w request s0 (w_env w') f l e /\
      failures = stop_failures f l e /\ failures_empty failures = false /\
      ws_operation s1 = idle /\ is_Some (ws_last_error s1)
  | Err (Down_FailureRecord failures _) => exists f l e,
      phases_run w request s0 (w_env w') f l e /\ failures = stop_failures f l e
  | Err _ => w_env w' = w_env w
  end.

Lemma finish_down_shut_down w request s0 s store recovery env f l e store' r :
  stored store = Some s -> retains s0 s ->
  retains s0 (after_cancel s l) ->
  phases_run w request s0 env f l e ->
  finish_down store (after_cancel s l) recovery f l e = (store', r) ->
  shut_down w request s0 (mkWorld store' env) r.
Proof.
  intros Hs Hret Hret' Hrun H. unfold finish_down in H.
  destruct (persist store _) as [store1 pr] eqn:Hp. injection H as <- <-.
  destruct (stored_after_persist _ _ _ _ _ Hs Hp) as [Hst|[Hno Hst]].
  - exists (finished_state (after_cancel s l) recovery (stop_failures f l e)).
    split_and!; [done|by apply retains_finished|].
    destruct pr as [[]|pe]; [|by eexists _, _, _].
    destruct (failures_empty (stop_failures f l e)) eqn:Hf; cbn [negb].
    + apply failures_empty_phases in Hf as Hf'. destruct Hf' as (fo & lo & eo & -> & -> & -> & Hne).
      cbn [do_forwarding do_lifecycle do_environment do_recovery].
      split_and!; [done|done|done|]. unfold finished_state. rewrite Hf. cbn.
      destruct recovery; naive_solver.
    + exists f, l, e. split_and!; [done..|].
      unfold finished_state. rewrite Hf. cbn. by eexists.
  - destruct pr as [[]|pe]; [done|]. exists s. split_and!; [done|done|]. by eexists _, _, _.
Qed.

(** C13: [down] retains the workspace, its intent and its active generation, and attempts every
    phase.  From a stored state [s0], once the stopping intent is stored, the forwarding
    supervisor, the lifecycle runner and the environment are stopped in this order, each on what
    the previous one left even when it failed; before that nothing but the store changes.
    Success means that all three succeeded and that no one-time work was left indeterminate, and
    the operation is then recorded as idle, with an error only when an interrupted operation is
    retained; an incomplete shutdown reports exactly the phases that failed and records an
    error. *)
Theorem down_attempts_every_phase (w : World S A) (request : DownRequest) (s0 : WorkspaceState) :
  stored (w_store w) = Some s0 ->
  let '(w', r) := down_workspace w request in shut_down w request s0 w' r.
Proof.
  intros H0. destruct (down_workspace w request) as [w' r] eqn:H. unfold down_workspace in H.
  assert (Hself : retains s0 s0) by (split; auto; by split_and!).
  case_bool_decide; cbn [negb] in H; [|injection H as <- <-; by exists s0].
  destruct (acquire (w_env w)); [|injection H as <- <-; by exists s0].
  destruct (load (w_store w)) as [loaded|] eqn:Hl; [|injection H as <- <-; by exists s0].
  apply load_stored in Hl. rewrite H0 in Hl. injection Hl as Hl. rewrite <- Hl in H.
  set (state := set_last_error (set_operation s0 (dr_operation request)) None) in H.
  assert (Hstate : retains s0 state) by (split; auto; by split_and!).
  destruct (persist (w_store w) state) as [store1 [[]|pe]] eqn:Hp.
  - assert (Hs := stored_persist_ok _ _ _ Hp).
    destruct (stop_forwarding _ _ _) as [env1 f] eqn:Hf.
    destruct (cancel_lifecycle _ _ _) as [env2 l] eqn:Hc.
    destruct (stop_environment _ _ _) as [env3 e] eqn:He.
    destruct (finish_down _ _ _ _ _ _) as [store2 r2] eqn:Hfin. injection H as <- <-.
    eapply finish_down_shut_down; [exact Hs|exact Hstate|apply retains_after_cancel| |exact Hfin].
    exists env1, env2. split_and!; [done|done|]. by rewrite <- (after_cancel_active s0 (dr_operation request)).
  - injection H as <- <-. destruct (stored_after_persist _ _ _ _ _ H0 Hp) as [Hs|[_ Hs]].
    + by exists state.
    + by exists s0.
Qed.
End down.

(** ** A concrete shutdown *)

#[export] Instance sample_stops : StopAdapters nat unit unit unit := {
  stop_forwarding n _ _ := (S n, Err tt);
  cancel_lifecycle n _ _ := (S n, Ok Lifecycle_Graceful);
  stop_environment n _ _ := (S n, Ok Environment_Stopped);
}.

#[local] Instance down_store : StateStore (ManagedStore Document) := managed_store 1000 18 (Doc_Other None).
#[local] Instance down_store_laws : StateStoreLaws (ManagedStore Document) :=
  managed_store_laws 1000 18 (Doc_Other None).

Definition sample_down_request : DownRequest :=
  mkDownRequest (ws_name sample_state)
    (mkOperation Op_Stopping (Some ($"op-2")) (Some (mkTimestamp ($"2026-01-01T00:00:00Z")))) 5 10.

Definition down_world : World (ManagedStore Document) nat :=
  mkWorld (sample_store {[ state_file := mkEntry Kind_File 1000 384 (Doc_State sample_state) ]} None) 0%nat.

Lemma down_attempts_every_phase_witness :
  stored (w_store down_world) = Some sample_state /\
  let '(w', r) := down_workspace (FE := unit) (LE := unit) (EE := unit) (fun _ => Ok tt)
                    down_world sample_down_request in
  shut_down down_world sample_down_request sample_state w' r.
Proof.
  assert (H : stored (w_store down_world) = Some sample_state) by (vm_compute; reflexivity).
  split; [exact H|].
  exact (down_attempts_every_phase (fun _ => Ok tt) down_world sample_down_request sample_state H).
Defined.

(** The forwarding supervisor fails; the other phases still run. *)
Example down_incomplete_example :
  let '(w', r) := down_workspace (FE := unit) (LE := unit) (EE := unit) (fun _ => Ok tt)
                    down_world sample_down_request in
  w_env w' = 3%nat /\ r = Err (Down_Incomplete (mkFailures (Some tt) None None false)).
Proof. vm_compute. split; reflexivity. Qed.
