(* ===== verification/Forwarding.v ===== *)
(** * Forwarding: the desired forwards of a workspace and the switch of its supervisor
    ([cdenv-cli/src/forwarding_reconciliation.rs]; [reconcile_forwarding] and its helpers of
    [cdenv-cli/src/production.rs])

    [up] compares the desired plan with what the live supervisor serves, stops the old
    supervisor and starts a new one.  The world is the runtime directory, the supervisor
    process that is alive and the host: the requests of the client are served by the model of
    [Supervisor], whose [run_supervisor] is the new process.  A supervisor that was told to stop
    closes on its own: [CloseTiming] says when, with respect to the steps of the client. *)

From S2P Require Import Prelude Text Net Identity Workspace Profile Ports Status Storage WorkspaceState Down FileTree Enumeration Credentials LivePolicy Leases Supervisor.

#[export] Instance TcpPort_eq_dec : EqDecision TcpPort.
Proof. solve_decision. Defined.
#[export] Instance ForwardingEndpoint_eq_dec : EqDecision ForwardingEndpoint.
Proof. solve_decision. Defined.
#[export] Instance ForwardProtocol_eq_dec : EqDecision ForwardProtocol.
Proof. solve_decision. Defined.
#[export] Instance DeclaredForward_eq_dec : EqDecision DeclaredForward.
Proof. solve_decision. Defined.

(** ** The desired plan *)

(** @src cdenv-cli/src/forwarding_reconciliation.rs:20-20 FIRST_UNPRIVILEGED_PORT *)
Definition FIRST_UNPRIVILEGED_PORT : N := 1024.

(** @src cdenv-cli/src/forwarding_reconciliation.rs:24-26 DesiredForwardingPlan *)
Record DesiredForwardingPlan : Type := mkDesired { desired_requested : list DeclaredForward }.

(** @src cdenv-cli/src/forwarding_reconciliation.rs:97-112 ForwardingPlanError *)
Inductive ForwardingPlanError : Type := Plan_PrivilegedPort (port : N) | Plan_DuplicateLocalPort (port : N).

(** A [PortNumber] is a nonzero [u16], so the conversions to [TcpPort] do not fail.
    @src cdenv-cli/src/forwarding_reconciliation.rs:72-92 declared_forward *)
Definition declared_forward (forward : ForwardRequest) (target_host : str) : DeclaredForward :=
  mkDeclaredForward (loopback_endpoint (mkTcpPort (port_get (fr_requested_local forward)))) target_host
    (mkTcpPort (port_get (fr_target_port forward))) (pa_require_local_port (fr_attributes forward)) (pa_label (fr_attributes forward))
    (match pa_protocol (fr_attributes forward) with
     | None => Forward_Tcp
     | Some Protocol_Http => Forward_Http
     | Some Protocol_Https => Forward_Https
     end).

(** The name that the agent resolves.
    @src cdenv-cli/src/forwarding_reconciliation.rs:50-53 from_port_plan *)
Definition target_host_of (forward : ForwardRequest) : str :=
  match fr_target_host forward with
  | Target_ContainerLoopback => $"localhost"
  | Target_ComposeService service => service
  end.

Definition local_port (d : DeclaredForward) : N := tcp_port (endpoint_port (df_requested d)).

(** @src cdenv-cli/src/forwarding_reconciliation.rs:37-57 DesiredForwardingPlan::from_port_plan *)
Definition from_port_plan (plan : PortPlan) : result ForwardingPlanError DesiredForwardingPlan :=
  let? requested := try_fold (fun requested forward =>
      let local := port_get (fr_requested_local forward) in
      fail_if local <? FIRST_UNPRIVILEGED_PORT with Plan_PrivilegedPort local in
      fail_if existsb (fun existing => local_port existing =? local) requested with Plan_DuplicateLocalPort local in
      Ok (requested ++ [declared_forward forward (target_host_of forward)]))
    [] (pp_forwards plan) in
  Ok (mkDesired requested).

(** ** The transaction over a runtime *)

(** @src cdenv-cli/src/forwarding_reconciliation.rs:126-152 ForwardingRuntimeOutcome *)
Inductive ForwardingRuntimeOutcome : Type :=
| Runtime_Current (assigned : list ForwardingEndpointAssignment)
| Runtime_Started (assigned : list ForwardingEndpointAssignment)
| Runtime_Replaced (assigned : list ForwardingEndpointAssignment)
| Runtime_RequiredPortUnavailable (assigned : list ForwardingEndpointAssignment)
| Runtime_NotConfigured.

(** @src cdenv-cli/src/forwarding_reconciliation.rs:155-163 ForwardingRuntimeOutcome::assignments *)
Definition assignments (outcome : ForwardingRuntimeOutcome) : list ForwardingEndpointAssignment :=
  match outcome with
  | Runtime_Current assigned | Runtime_Started assigned | Runtime_Replaced assigned | Runtime_RequiredPortUnavailable assigned => assigned
  | Runtime_NotConfigured => []
  end.

Definition required_unavailable (outcome : ForwardingRuntimeOutcome) : bool :=
  match outcome with Runtime_RequiredPortUnavailable _ => true | _ => false end.

(** @src cdenv-cli/src/forwarding_reconciliation.rs:340-366 valid_assignments *)
Definition valid_assignments (desired : DesiredForwardingPlan) (outcome : ForwardingRuntimeOutcome) : bool :=
  match desired_requested desired with
  | [] => match outcome with Runtime_NotConfigured => true | _ => false end
  | requested =>
      Nat.eqb (length (assignments outcome)) (length requested)
      && forallb (fun '(assignment, request) =>
           bool_decide (requested_endpoint assignment = df_requested request)
           && match assigned_endpoint assignment with
              | None => df_require_local_port request && required_unavailable outcome
              | Some assigned =>
                  bool_decide (endpoint_address assigned = LOCALHOST)
                  && (bool_decide (endpoint_port assigned = endpoint_port (df_requested request)) || negb (df_require_local_port request))
              end) (zip (assignments outcome) requested)
  end.

(** @src cdenv-cli/src/forwarding_reconciliation.rs:205-215 ForwardingReconciliationError *)
Inductive ForwardingReconciliationError {R : Type} : Type :=
| Forwarding_Plan (error : ForwardingPlanError)
| Forwarding_Runtime (error : R)
| Forwarding_InvalidAssignments.
Arguments ForwardingReconciliationError : clear implicits.

(** [runtime] is the adapter's [reconcile], over its world.
    @src cdenv-cli/src/forwarding_reconciliation.rs:226-253 reconcile_declared_forwarding *)
Definition reconcile_declared_forwarding {W R : Type}
    (runtime : DesiredForwardingPlan -> option ActiveForwarding -> AgentBuildId -> W -> W * result R ForwardingRuntimeOutcome)
    (plan : PortPlan) (previous : option ActiveForwarding) (build : AgentBuildId) (w : W) :
    W * result (ForwardingReconciliationError R) (ActiveForwarding * ForwardingRuntimeOutcome) :=
  match from_port_plan plan with
  | Err e => (w, Err (Forwarding_Plan e))
  | Ok desired =>
      let '(w, r) := runtime desired previous build w in
      (w, let? outcome := map_err Forwarding_Runtime r in
          fail_if negb (valid_assignments desired outcome) with Forwarding_InvalidAssignments in
          let build := match desired_requested desired with [] => None | _ => Some build end in
          Ok (mkActiveForwarding build (desired_requested desired) (assignments outcome), outcome))
  end.

(** ** The world of [up] *)

(** When the process of a supervisor that answered Down removes its files and lets its lock go:
    before the client writes the next manifest, between that and the start of the next process,
    or after it. *)
Inductive CloseTiming : Type := Close_BeforeWrite | Close_AfterWrite | Close_AfterSpawn.
#[export] Instance CloseTiming_eq_dec : EqDecision CloseTiming.
Proof. solve_decision. Defined.

(** [fw_closing]: a supervisor answered Down and its cleanup is still to come. *)
Record ForwardingWorld {A : Type} : Type := mkForwardingWorld {
  fw_state : StateFile;
  fw_socket : bool;
  fw_live : option (SupervisorManifest * SupervisorState * option LiveCredentialBackend);
  fw_closing : bool;
  fw_host : A;
}.
Arguments ForwardingWorld : clear implicits.

(** What [up] knows of the environment. *)
Record ForwardingContext : Type := mkForwardingContext {
  fc_installation : InstallationId;
  fc_workspace : WorkspaceName;
  fc_generation : GenerationId;
  fc_container : ContainerId;
  fc_build : AgentBuildId;
  fc_protocol : ProtocolVersion;
  fc_agent_path : str;
  fc_docker_socket : option str;
  fc_socket : Path;
  fc_state_file : Path;
  fc_lifetime_lock : Path;
  fc_host_build : option AgentBuildId;
  fc_token : option (list N);
}.

Section up.
Context `{ControlCodec} {A : Type} (host : SupervisorHost A) (timing : CloseTiming) (context : ForwardingContext).
Implicit Types w : ForwardingWorld A.

(** A request of the client to the socket. *)
Definition world_exchange w : list N -> result str (list N) :=
  match fw_live w with
  | Some (_, state, backend) => server_exchange state backend
  | None => fun _ => Err ($"connect")
  end.

(** The file is only ever written with the private mode, so the test of its mode passes.
    @src cdenv-cli/src/forwarding.rs:1163-1175 load_supervisor_state *)
Definition load_supervisor_state w : option SupervisorState :=
  match fw_state w with File_State state => Some state | _ => None end.

(** The files of a supervisor that closes. *)
Definition close_world w : ForwardingWorld A :=
  if fw_closing w then
    let rt := runtime_cleanup host (mkRuntime true (fw_socket w) (fw_state w)) in
    mkForwardingWorld A (rt_state rt) (rt_socket rt) (fw_live w) false (fw_host w)
  else w.

Definition supervisor_claim (host_build : AgentBuildId) : SupervisorClaim :=
  mkSupervisorClaim (fc_installation context) (fc_workspace context) (fc_generation context) host_build (fc_build context) (fc_protocol context).

(** The stop of the live supervisor, which answers before it closes. *)
Definition world_stop w (token : str) (claim : SupervisorClaim) : ForwardingWorld A * result ForwardingSupervisorError SupervisorState :=
  let r := stop_supervisor (world_exchange w) token claim in
  let request := mkConnection (Ok (request_to_vec (claim_request token claim Control_Down) ++ [10])) true in
  (match fw_live w with
   | Some (_, state, backend) =>
       match (handle_control request state backend).2 with
       | Ok true => mkForwardingWorld A (fw_state w) (fw_socket w) None true (fw_host w)
       | _ => w
       end
   | None => w
   end, r).

(** @src cdenv-cli/src/production.rs:1117-1125 start_forwarding_supervisor *)
Definition supervisor_forward (forward : DeclaredForward) : SupervisorForward :=
  mkSupervisorForward (local_port forward) (df_require_local_port forward) (df_target_host forward) (tcp_port (df_target_port forward)).

(** The cleanup of a supervisor that closes, at its time. *)
Definition close_at (now : CloseTiming) w : ForwardingWorld A := if bool_decide (timing = now) then close_world w else w.

Definition write_manifest (manifest : SupervisorManifest) w : ForwardingWorld A :=
  mkForwardingWorld A (File_Manifest manifest) (fw_socket w) (fw_live w) (fw_closing w) (fw_host w).

(** The backend of a supervisor that serves. *)
Definition served_backend (manifest : SupervisorManifest) (state : SupervisorState) : option LiveCredentialBackend :=
  match sv_credential_lease state, sm_credential_lease manifest with
  | Some identity, Some lease => Some (transport_ready (backend_new identity (sl_grants lease) (hs_environment host)))
  | _, _ => None
  end.

(** The new process, up to where it waits for connections or ends. *)
Definition spawn_supervisor (manifest : SupervisorManifest) w : ForwardingWorld A :=
  let rt := mkRuntime (is_Some_b (fw_live w) || fw_closing w) (fw_socket w) (fw_state w) in
  let '(rt, a, published, _, _) := run_private_supervisor_manifest host (sm_state_file manifest) [] rt (fw_host w) in
  mkForwardingWorld A (rt_state rt) (rt_socket rt)
    (match published with Some state => Some (manifest, state, served_backend manifest state) | None => fw_live w end) (fw_closing w) a.

(** The manifest is written, the process starts, and the client asks for its status; the wait
    for an answer is bounded, and the answer does not come too late here.
    @src cdenv-cli/src/forwarding.rs:329-365 start_detached_supervisor *)
Definition start_detached_supervisor (manifest : SupervisorManifest) w : ForwardingWorld A * result ForwardingSupervisorError SupervisorState :=
  let w := close_at Close_AfterWrite (write_manifest manifest (close_at Close_BeforeWrite w)) in
  let w := close_at Close_AfterSpawn (spawn_supervisor manifest w) in
  (w, supervisor_status (world_exchange w) (sm_token manifest) (claim_from_manifest manifest)).

(** [None] for the errors that become messages here.
    @src cdenv-cli/src/production.rs:1105-1148 start_forwarding_supervisor *)
Definition start_forwarding_supervisor (host_build : AgentBuildId) (requested : list DeclaredForward) (lease : option SupervisorCredentialLease) w :
    ForwardingWorld A * option SupervisorState :=
  match fc_docker_socket context with
  | None => (w, None)
  | Some docker =>
      let fields := mkManifest (fc_installation context) (fc_workspace context) (fc_generation context) host_build (fc_build context)
        (fc_protocol context) (fc_container context) (fc_agent_path context) docker (fc_socket context) (fc_state_file context)
        (fc_lifetime_lock context) [] (List.map supervisor_forward requested) None in
      match manifest_new fields (fc_token context) with
      | Err _ => (w, None)
      | Ok manifest =>
          let manifest := match lease with Some lease => with_credential_lease manifest lease | None => manifest end in
          let '(w, r) := start_detached_supervisor manifest w in
          (w, match r with Ok state => Some state | Err _ => None end)
      end
  end.

(** @src cdenv-cli/src/production.rs:1160-1171 active_forwarding *)
Definition assignment_of (request : DeclaredForward) (listener : IpAddr * N) : option ForwardingEndpointAssignment :=
  match try_from_parts listener.1 listener.2 with
  | Ok endpoint => Some (mkAssignment (df_requested request) (Some endpoint))
  | Err _ => None
  end.

(** @src cdenv-cli/src/production.rs:1150-1178 active_forwarding *)
Definition active_forwarding (desired : DesiredForwardingPlan) (host_build : AgentBuildId) (state : SupervisorState) : option ActiveForwarding :=
  if negb (Nat.eqb (length (sv_listeners state)) (length (desired_requested desired))) then None else
  assigned ← mapM (fun '(request, listener) => assignment_of request listener) (zip (desired_requested desired) (sv_listeners state));
  Some (mkActiveForwarding (Some host_build) (desired_requested desired) assigned).

(** The live supervisor that serves the desired forwards already, without credentials.
    @src cdenv-cli/src/production.rs:1045-1055 reconcile_forwarding *)
Definition current_supervisor (desired : DesiredForwardingPlan) (previous : option ActiveForwarding) (lease : option SupervisorCredentialLease)
    (claim : SupervisorClaim) w : option SupervisorState :=
  if negb (is_Some_b lease) && bool_decide (af_requested <$> previous = Some (desired_requested desired)) then
    match load_supervisor_state w with
    | None => None
    | Some state =>
        match supervisor_credential_status (world_exchange w) (sv_token state) claim with
        | Ok (live, None) => Some live
        | _ => None
        end
    end
  else None.

(** @src cdenv-cli/src/production.rs:1059-1064 reconcile_forwarding *)
Definition stop_current (claim : SupervisorClaim) w : ForwardingWorld A * option unit :=
  match load_supervisor_state w with
  | None => (w, Some tt)
  | Some state => let '(w, r) := world_stop w (sv_token state) claim in (w, match r with Ok _ => Some tt | Err _ => None end)
  end.

(** @src cdenv-cli/src/production.rs:1065-1098 reconcile_forwarding *)
Definition switch_supervisor (desired : DesiredForwardingPlan) (host_build : AgentBuildId) (rollback : option (list DeclaredForward))
    (lease : option SupervisorCredentialLease) w : ForwardingWorld A * option ActiveForwarding :=
  if match desired_requested desired with [] => true | _ => false end && negb (is_Some_b lease)
  then (w, Some (mkActiveForwarding None [] [])) else
  let '(w, started) := start_forwarding_supervisor host_build (desired_requested desired) lease w in
  match started with
  | Some state => (w, active_forwarding desired host_build state)
  | None =>
      (match rollback with
       | Some rollback => (start_forwarding_supervisor host_build rollback lease w).1
       | None => w
       end, None)
  end.

(** @src cdenv-cli/src/production.rs:1024-1099 reconcile_forwarding *)
Definition reconcile_forwarding (ports : PortPlan) (previous : option ActiveForwarding) (lease : option SupervisorCredentialLease) w :
    ForwardingWorld A * option ActiveForwarding :=
  match from_port_plan ports, fc_host_build context with
  | Err _, _ | _, None => (w, None)
  | Ok desired, Some host_build =>
      let claim := supervisor_claim host_build in
      match current_supervisor desired previous lease claim w with
      | Some live => (w, active_forwarding desired host_build live)
      | None =>
          let rollback := match previous with
            | Some previous => match af_requested previous with [] => None | requested => Some requested end
            | None => None
            end in
          match stop_current claim w with
          | (w, None) => (w, None)
          | (w, Some _) => switch_supervisor desired host_build rollback lease w
          end
      end
  end.

(** [inspection] is what the runtime directory showed.
    @src cdenv-cli/src/forwarding_reconciliation.rs:286-337 ScopedForwardingSupervisor::stop *)
Definition scoped_stop (installation : InstallationId) (host_build : AgentBuildId)
    (inspection : result ManagedPathError SupervisorRuntimeInspection) (workspace : WorkspaceName) (active : option ActiveGeneration) w :
    ForwardingWorld A * result ForwardingSupervisorError ForwardingStopOutcome :=
  match active with
  | None => (w, Ok Forwarding_Missing)
  | Some active =>
      match inspection with
      | Err _ => (w, Ok Forwarding_Degraded)
      | Ok (mkRuntimeInspection Path_Valid Path_Valid Path_Valid Path_Valid) =>
          match load_supervisor_state w with
          | None => (w, Ok Forwarding_Degraded)
          | Some state =>
              let provisioned := ag_provisioned active in
              if negb (bool_decide (sv_installation state = installation)) || negb (bool_decide (sv_workspace state = workspace))
                 || negb (bool_decide (sv_generation state = ag_generation active)) || negb (bool_decide (sv_host_build_id state = host_build))
                 || negb (bool_decide (sv_agent_build_id state = ps_agent_build_id provisioned))
                 || negb (bool_decide (sv_agent_protocol state = ps_protocol_version provisioned))
              then (w, Ok Forwarding_Degraded) else
              let claim := mkSupervisorClaim installation workspace (ag_generation active) host_build (ps_agent_build_id provisioned)
                (ps_protocol_version provisioned) in
              let '(w, r) := world_stop w (sv_token state) claim in
              (w, let? _ := r in Ok Forwarding_Stopped)
          end
      | Ok _ => (w, Ok Forwarding_Missing)
      end
  end.
End up.

(** ** Reasoning *)

Definition declared (f : ForwardRequest) : DeclaredForward := declared_forward f (target_host_of f).
Definition wanted_port (f : ForwardRequest) : N := port_get (fr_requested_local f).

Lemma local_port_declared f : local_port (declared f) = wanted_port f.
Proof. done. Qed.

Lemma duplicate_port (before : list ForwardRequest) port :
  existsb (fun existing => local_port existing =? port) (declared <$> before) = true <-> port ∈ wanted_port <$> before.
Proof.
  rewrite existsb_exists, list_elem_of_fmap. split.
  - intros (d & Hin & Heq%N.eqb_eq). apply list_elem_of_In, list_elem_of_fmap in Hin as (f & -> & Hf). by exists f.
  - intros (f & -> & Hf). exists (declared f). split; [apply list_elem_of_In, list_elem_of_fmap; eauto|by apply N.eqb_eq].
Qed.

(** The desired plan exists exactly for unprivileged, distinct local ports, and keeps their order. *)
Lemma from_port_plan_Ok plan desired : from_port_plan plan = Ok desired <->
  desired = mkDesired (declared <$> pp_forwards plan)
  /\ Forall (fun f => FIRST_UNPRIVILEGED_PORT <= wanted_port f) (pp_forwards plan)
  /\ NoDup (wanted_port <$> pp_forwards plan).
Proof.
  unfold from_port_plan. match goal with |- context [try_fold ?g _ _] => set (step := g) end.
  assert (Hgo : forall (forwards before : list ForwardRequest) requested, NoDup (wanted_port <$> before) ->
    try_fold step (declared <$> before) forwards = Ok requested <->
    requested = declared <$> (before ++ forwards) /\ Forall (fun f => FIRST_UNPRIVILEGED_PORT <= wanted_port f) forwards
    /\ NoDup (wanted_port <$> (before ++ forwards))).
  { induction forwards as [|forward forwards IH]; intros before requested Hnd; cbn [try_fold].
    { rewrite app_nil_r. naive_solver. }
    unfold step at 1. destruct (N.ltb_spec (port_get (fr_requested_local forward)) FIRST_UNPRIVILEGED_PORT) as [Hp|Hp].
    { split; [done|]. intros (_ & Hall & _). apply Forall_cons in Hall as [Hw _]. unfold wanted_port in Hw. lia. }
    destruct (existsb _ _) eqn:He.
    { split; [done|]. intros (_ & _ & Hd). apply duplicate_port in He. rewrite fmap_app, fmap_cons in Hd.
      apply NoDup_app in Hd as (_ & Hd & _). exfalso. apply (Hd _ He). left. }
    assert (Hnew : NoDup (wanted_port <$> (before ++ [forward]))).
    { rewrite fmap_app. apply NoDup_app. split_and!; [done| |apply NoDup_singleton].
      intros port Hin Hin2. apply list_elem_of_singleton in Hin2 as ->. apply duplicate_port in Hin. unfold wanted_port in Hin. congruence. }
    specialize (IH _ requested Hnew). rewrite fmap_app in IH. cbn [fmap list_fmap] in IH. fold (declared forward).
    rewrite IH, <- app_assoc. cbn [app]. rewrite Forall_cons. unfold wanted_port at 2. naive_solver. }
  specialize (Hgo (pp_forwards plan) []). cbn [app fmap list_fmap] in Hgo.
  destruct (try_fold step [] (pp_forwards plan)) as [requested|e].
  - specialize (Hgo requested NoDup_nil_2). naive_solver.
  - split; [done|]. intros (_ & Hall & Hnd). destruct (Hgo (declared <$> pp_forwards plan) NoDup_nil_2) as [_ Hback]. discriminate (Hback (conj eq_refl (conj Hall Hnd))).
Qed.

(** An assignment says where a forward listens: on loopback, on a valid port, and on the port it
    asked for where that is required. *)
Definition assigned_ok (request : DeclaredForward) (assignment : ForwardingEndpointAssignment) : Prop :=
  requested_endpoint assignment = df_requested request
  /\ exists endpoint, assigned_endpoint assignment = Some endpoint /\ endpoint_ok endpoint /\ endpoint_address endpoint = LOCALHOST
    /\ (df_require_local_port request = true -> tcp_port (endpoint_port endpoint) = local_port request).

(** The listeners of a supervisor for the forwards give such assignments. *)
Lemma active_forwarding_assigned (desired : DesiredForwardingPlan) build state forwarding :
  Forall (fun d => local_port d <> 0) (desired_requested desired) ->
  Forall2 listens_for (List.map supervisor_forward (desired_requested desired)) (sv_listeners state) ->
  active_forwarding desired build state = Some forwarding ->
  af_requested forwarding = desired_requested desired /\ af_supervisor_build_id forwarding = Some build
  /\ Forall2 assigned_ok (desired_requested desired) (af_assigned forwarding).
Proof.
  unfold active_forwarding. generalize (desired_requested desired) as requested. generalize (sv_listeners state) as listeners.
  intros listeners requested Hports Hlisten. destruct (negb _); [done|].
  destruct (mapM _ _) as [assigned|] eqn:Hm; [|done]. intros [= <-]. cbn. split_and!; [done..|].
  apply mapM_Some in Hm. revert listeners assigned Hlisten Hm.
  induction requested as [|request requested IH]; intros listeners assigned Hlisten Hm.
  { cbn in Hm. apply Forall2_nil_inv_l in Hm as ->. constructor. }
  cbn in Hlisten. apply Forall2_cons_inv_l in Hlisten as (listener & rest & Hl & Hrest & ->). cbn in Hm.
  apply Forall2_cons_inv_l in Hm as (assignment & more & Ha & Hmore & ->). apply Forall_cons in Hports as [Hp Hports].
  constructor; [|by eapply IH]. unfold assignment_of in Ha. destruct (try_from_parts listener.1 listener.2) as [endpoint|] eqn:He; [|done].
  injection Ha as <-. apply try_from_parts_spec in He as [Hok ->]. destruct Hl as [Hhost Hport].
  split; [done|]. eexists. split_and!; [done..|]. cbn. intros Hreq. by apply Hport.
Qed.

Section reconcile.
Context `{ControlCodecLaws} {A : Type} (host : SupervisorHost A) (Hbind : binds_requested host).
Context (timing : CloseTiming) (context : ForwardingContext).
Implicit Types w : ForwardingWorld A.

(** The live supervisor, if any, published its state and serves the forwards recorded last. *)
Definition world_ok (recorded : option ActiveForwarding) w : Prop :=
  forall manifest state backend, fw_live w = Some (manifest, state, backend) ->
    fw_state w = File_State state /\ published_for host manifest state
    /\ (forall f, recorded = Some f -> sm_forwards manifest = List.map supervisor_forward (af_requested f)).

Lemma status_of_live w token claim response :
  control_exchange (world_exchange w) token claim Control_Status ($"status") = Ok response ->
  exists manifest state backend, fw_live w = Some (manifest, state, backend) /\ cp_state response = Some state
    /\ cp_credential_revision response = (backend_revision <$> backend).
Proof.
  unfold world_exchange. destruct (fw_live w) as [[[manifest state] backend]|]; [|done]. intros Hc.
  apply control_exchange_Ok in Hc as ((_ & _ & Hm) & b' & down & revision & error & Hout & ->).
  cbn [control_outcome] in Hout. rewrite Hm in Hout. cbn in Hout. injection Hout as <- <- <- <-. eauto 6.
Qed.

Lemma stop_of_live w token claim w' s : world_stop w token claim = (w', Ok s) ->
  exists manifest backend, fw_live w = Some (manifest, s, backend) /\ w' = mkForwardingWorld A (fw_state w) (fw_socket w) None true (fw_host w).
Proof.
  unfold world_stop, world_exchange. destruct (fw_live w) as [[[manifest state] backend]|]; [|done]. intros [= <- Hs].
  apply stop_acknowledged in Hs as (-> & _ & Hloop). exists manifest, backend. split; [done|]. cbn [control_loop] in Hloop.
  destruct (handle_control _ _ _) as [[b r] [[]|e]]; [done| |]; cbn in Hloop; injection Hloop; done.
Qed.

(** A process that published its state, and had no connection yet. *)
Lemma run_supervisor_idle manifest rt a rt' a' state responses ended :
  run_supervisor host manifest [] rt a = (rt', a', Some state, responses, ended) ->
  rt_locked rt = false /\ published_for host manifest state /\ rt_state rt' = File_State state.
Proof.
  unfold run_supervisor. destruct (validate_manifest_identity _ _); [|done]. destruct (rt_locked rt); [done|]. destruct (rt_socket rt); [done|].
  destruct (supervisor_body host manifest [] a) as [[[[a1 socket] p] rs] en] eqn:Hbody. intros [= <- <- -> <- <-].
  apply (supervisor_body_spec _ _ _ _ _ _ _ _ _ Hbind) in Hbody as (Hpub & -> & backend & backend' & [= <- <- <-]). done.
Qed.

Lemma close_at_live now w : fw_live (close_at host timing now w) = fw_live w.
Proof. unfold close_at, close_world. case_bool_decide; [|done]. by destruct (fw_closing w). Qed.

Lemma start_published manifest w w' s : fw_live w = None -> start_detached_supervisor host timing manifest w = (w', Ok s) ->
  exists backend, fw_live w' = Some (manifest, s, backend) /\ fw_state w' = File_State s /\ published_for host manifest s.
Proof.
  intros Hlive. unfold start_detached_supervisor, supervisor_status, control_request.
  set (w1 := close_at host timing Close_AfterWrite _). intros [= <- Hs].
  assert (Hlive1 : fw_live w1 = None) by (unfold w1; rewrite close_at_live; cbn; by rewrite close_at_live).
  destruct (control_exchange _ _ _ _ _) as [response|] eqn:Hc; [|done].
  apply status_of_live in Hc as (m & state & backend & Hl & Hstate & _). rewrite Hstate in Hs. injection Hs as ->.
  rewrite close_at_live in Hl. rewrite close_at_live.
  assert (Hm : forall m', fw_state w1 = File_Manifest m' -> m' = manifest).
  { unfold w1, close_at, close_world, write_manifest. case_bool_decide; cbn; [|naive_solver].
    destruct (fw_closing _); cbn; [|naive_solver]. destruct (hs_remove_state host); naive_solver. }
  unfold spawn_supervisor in *. rewrite Hlive1 in *. cbn [is_Some_b orb] in *.
  unfold run_private_supervisor_manifest in *. cbn [rt_state] in *. destruct (fw_state w1) as [|m'|] eqn:Hfile; [done| |done].
  rewrite (Hm _ eq_refl) in *. rewrite bool_decide_eq_true_2 in * by done.
  destruct (run_supervisor _ _ _ _ _) as [[[[rt a] published] responses] ended] eqn:Hrun. cbn [fw_live] in Hl.
  destruct published as [st|]; [|done]. injection Hl as <- -> <-.
  apply run_supervisor_idle in Hrun as (Hlock & Hpub & Hfile'). cbn in Hlock. exists (served_backend host manifest s). split_and!; [done| |done].
  unfold close_at. case_bool_decide; [|done]. unfold close_world. cbn. by rewrite Hlock.
Qed.

(** The live supervisor serves exactly these forwards. *)
Definition live_for (requested : list DeclaredForward) w : Prop :=
  exists manifest state backend, fw_live w = Some (manifest, state, backend) /\ fw_state w = File_State state
    /\ sm_forwards manifest = List.map supervisor_forward requested /\ published_for host manifest state.

Lemma manifest_new_forwards fields random manifest : manifest_new fields random = Ok manifest -> sm_forwards manifest = sm_forwards fields.
Proof.
  unfold manifest_new. destruct (try_fold _ _ _); [|done]. destruct (validate_runtime_paths _ _ _ _); [|done].
  destruct (negb _); [done|]. destruct (_ || _); [done|]. destruct random; cbn; [|done]. by intros [= <-].
Qed.

Lemma start_forwarding_live build requested lease w w' s : fw_live w = None ->
  start_forwarding_supervisor host timing context build requested lease w = (w', Some s) ->
  live_for requested w' /\ (exists manifest backend, fw_live w' = Some (manifest, s, backend)).
Proof.
  intros Hlive. unfold start_forwarding_supervisor. destruct (fc_docker_socket context) as [docker|]; [|done].
  destruct (manifest_new _ _) as [manifest|] eqn:Hnew; [|done].
  set (m := match lease with Some lease => with_credential_lease manifest lease | None => manifest end).
  assert (Hm : sm_forwards m = List.map supervisor_forward requested).
  { apply manifest_new_forwards in Hnew. unfold m. by destruct lease. }
  destruct (start_detached_supervisor host timing m w) as [w1 [s1|]] eqn:Hstart; [|done]. intros [= <- <-].
  apply start_published in Hstart as (backend & Hl & Hf & Hp); [|done]. split; [exists m, s1, backend|]; eauto.
Qed.

Lemma live_for_ok requested f w : live_for requested w -> af_requested f = requested -> world_ok (Some f) w.
Proof.
  intros (m & s & b & Hl & Hf & Hm & Hp) <- m' s' b' Hl'. rewrite Hl in Hl'. injection Hl' as <- <- <-.
  split_and!; [done..|]. by intros ? [= <-].
Qed.

Lemma unprivileged_ports ports desired : from_port_plan ports = Ok desired -> Forall (fun d => local_port d <> 0) (desired_requested desired).
Proof.
  intros (-> & Hall & _)%from_port_plan_Ok. cbn. apply Forall_fmap. eapply Forall_impl; [exact Hall|].
  intros f Hf. cbn. unfold FIRST_UNPRIVILEGED_PORT, local_port in *. cbn. unfold wanted_port in Hf. lia.
Qed.

(** What a result says, for the world it leaves. *)
Lemma active_of_live desired build w manifest state backend f :
  Forall (fun d => local_port d <> 0) (desired_requested desired) -> fw_live w = Some (manifest, state, backend) ->
  live_for (desired_requested desired) w -> active_forwarding desired build state = Some f ->
  af_requested f = desired_requested desired /\ af_supervisor_build_id f = Some build
  /\ Forall2 assigned_ok (desired_requested desired) (af_assigned f).
Proof.
  intros Hports Hl (m & s & b & Hl' & _ & Hm & Hp) Ha. rewrite Hl in Hl'. injection Hl' as <- <- <-.
  destruct Hp as (Hlisten & _). rewrite Hm in Hlisten. by eapply active_forwarding_assigned.
Qed.

(** What a result must say of the world it leaves. *)
Definition records desired build lease f w : Prop :=
  af_requested f = desired_requested desired /\ Forall2 assigned_ok (af_requested f) (af_assigned f)
  /\ ((fw_live w = None /\ f = mkActiveForwarding None [] [] /\ lease = (@None SupervisorCredentialLease))
      \/ (live_for (af_requested f) w /\ af_supervisor_build_id f = Some build))
  /\ world_ok (Some f) w.

Lemma records_live desired build lease w manifest state backend f :
  Forall (fun d => local_port d <> 0) (desired_requested desired) -> fw_live w = Some (manifest, state, backend) ->
  live_for (desired_requested desired) w -> active_forwarding desired build state = Some f -> records desired build lease f w.
Proof.
  intros Hports Hl Hfor Ha. destruct (active_of_live _ _ _ _ _ _ _ Hports Hl Hfor Ha) as (Hr & Hb & Hassigned).
  unfold records. rewrite Hr. split_and!; [done|done|by right|by eapply live_for_ok].
Qed.

Lemma current_records desired build previous lease claim w live f :
  Forall (fun d => local_port d <> 0) (desired_requested desired) -> world_ok previous w ->
  current_supervisor desired previous lease claim w = Some live -> active_forwarding desired build live = Some f ->
  records desired build lease f w.
Proof.
  intros Hports Hok. unfold current_supervisor. destruct (negb (is_Some_b lease) && _) eqn:Hsame; [|done].
  apply andb_true_iff in Hsame as [_ Hsame%bool_decide_eq_true]. destruct (load_supervisor_state w) as [state|]; [|done].
  unfold supervisor_credential_status. destruct (control_exchange _ _ _ _ _) as [response|] eqn:Hc; [|done].
  apply status_of_live in Hc as (m & s & b & Hl & Hs & _). rewrite Hs. cbn. destruct (cp_credential_revision response); [done|].
  intros [= <-] Ha. eapply records_live; eauto.
  destruct (Hok _ _ _ Hl) as (Hfile & Hpub & Hprev). exists m, s, b. split_and!; [done..| |done].
  destruct previous as [p|]; [|done]. injection Hsame as <-. by apply Hprev.
Qed.

Lemma stop_current_live previous claim w w' : world_ok previous w -> stop_current claim w = (w', Some tt) -> fw_live w' = None.
Proof.
  intros Hok. unfold stop_current. destruct (load_supervisor_state w) as [state|] eqn:Hload.
  - destruct (world_stop w (sv_token state) claim) as [w1 [s|]] eqn:Hstop; [|done]. intros [= <-].
    apply stop_of_live in Hstop as (m & b & _ & ->). done.
  - intros [= <-]. destruct (fw_live w) as [[[m s] b]|] eqn:Hl; [|done].
    destruct (Hok _ _ _ Hl) as (Hfile & _). unfold load_supervisor_state in Hload. by rewrite Hfile in Hload.
Qed.

Lemma switch_records desired build rollback lease w w' f :
  Forall (fun d => local_port d <> 0) (desired_requested desired) -> fw_live w = None ->
  switch_supervisor host timing context desired build rollback lease w = (w', Some f) -> records desired build lease f w'.
Proof.
  intros Hports Hlive. unfold switch_supervisor. destruct (_ && negb (is_Some_b lease)) eqn:Hempty.
  - intros [= <- <-]. apply andb_true_iff in Hempty as [He Hlease]. destruct desired as [[|]]; [|done].
    split_and!; [done|constructor|left; split_and!; [done..|by destruct lease]|]. intros m s b Hl. congruence.
  - destruct (start_forwarding_supervisor _ _ _ _ _ _ _) as [w2 [state|]] eqn:Hstart; [|done]. intros [= <- Ha].
    apply start_forwarding_live in Hstart as (Hfor & m & b & Hl); [|done]. by eapply records_live.
Qed.

(** C4: what [up] records about forwarding is what is live.  Where the supervisor that is live,
    if any, serves what was recorded before, a reconciliation that succeeds records exactly the
    desired forwards, each assigned an endpoint on loopback (its own port where required); after
    it either nothing is forwarded and no supervisor is live, or the live supervisor, whose
    state file is in place, was published for exactly these forwards; and the world is again one
    from which this holds.  The cleanup of the supervisor that was stopped may come at any time. *)
Theorem forwarding_recorded_is_live ports previous lease w w' f : world_ok previous w ->
  reconcile_forwarding host timing context ports previous lease w = (w', Some f) ->
  exists desired build, from_port_plan ports = Ok desired /\ fc_host_build context = Some build /\ records desired build lease f w'.
Proof.
  intros Hok. unfold reconcile_forwarding. destruct (from_port_plan ports) as [desired|] eqn:Hplan; [|done].
  assert (Hports := unprivileged_ports _ _ Hplan). destruct (fc_host_build context) as [build|]; [|done].
  set (claim := supervisor_claim context build). intros Hr. exists desired, build. split_and!; [done..|].
  destruct (current_supervisor desired previous lease claim w) as [live|] eqn:Hcurrent.
  - injection Hr as <- Ha. by eapply current_records.
  - destruct (stop_current claim w) as [w1 [[]|]] eqn:Hstop; [|done].
    eapply switch_records; [done| |exact Hr]. by eapply stop_current_live.
Qed.

(** A state file that is left by a supervisor that was killed (a crash, a reboot) is loaded, the
    supervisor it names does not answer, and the reconciliation fails and changes nothing: so
    does the next one. *)
Theorem stale_state_blocks_up ports previous lease w state : fw_live w = None -> fw_state w = File_State state ->
  reconcile_forwarding host timing context ports previous lease w = (w, None).
Proof.
  intros Hlive Hfile. unfold reconcile_forwarding. destruct (from_port_plan ports) as [desired|]; [|done].
  destruct (fc_host_build context) as [build|]; [|done].
  unfold current_supervisor, stop_current, load_supervisor_state, world_stop, world_exchange. rewrite Hfile, Hlive.
  destruct (_ && _); done.
Qed.

Lemma late_cleanup_start manifest w : hs_remove_state host = true -> fw_live w = None -> fw_closing w = true -> timing <> Close_BeforeWrite ->
  exists e, (start_detached_supervisor host timing manifest w).2 = Err e.
Proof.
  intros Hremove Hlive Hclosing Ht. unfold start_detached_supervisor. cbn [snd]. unfold supervisor_status, control_request.
  destruct (control_exchange _ _ _ _ _) as [response|e] eqn:Hc; [|eauto]. exfalso.
  apply status_of_live in Hc as (m1 & s1 & b1 & Hl & _). rewrite close_at_live in Hl. revert Hl.
  unfold spawn_supervisor. rewrite close_at_live. cbn [write_manifest fw_live]. rewrite close_at_live, Hlive. cbn [is_Some_b orb].
  unfold close_at, close_world. destruct timing; [done| |].
  - rewrite (bool_decide_eq_true_2 (Close_AfterWrite = Close_AfterWrite)), bool_decide_eq_false_2 by done. cbn. rewrite Hclosing, Hremove. done.
  - rewrite !bool_decide_eq_false_2 by done. cbn. rewrite Hclosing. unfold run_private_supervisor_manifest, run_supervisor.
    cbn [rt_state rt_locked write_manifest fw_state]. rewrite bool_decide_eq_true_2 by done.
    destruct (validate_manifest_identity (hs_build host) manifest); done.
Qed.

(** A supervisor that closes after the next manifest is written takes it along (its removal of
    the file succeeds here), or still holds
    the lock: the switch fails, and nothing is live. *)
Theorem late_cleanup_fails_switch desired build rollback lease w :
  hs_remove_state host = true -> fw_live w = None -> fw_closing w = true -> timing <> Close_BeforeWrite ->
  (desired_requested desired <> [] \/ is_Some lease) ->
  (switch_supervisor host timing context desired build rollback lease w).2 = None.
Proof.
  intros Hremove Hlive Hclosing Ht Hwork. unfold switch_supervisor.
  destruct (_ && negb (is_Some_b lease)) eqn:Hempty.
  { apply andb_true_iff in Hempty as [He Hlease]. destruct (desired_requested desired); [|done]. destruct lease; [done|].
    destruct Hwork as [|[? ?]]; done. }
  destruct (start_forwarding_supervisor _ _ _ _ _ _ _) as [w2 [state|]] eqn:Hstart; [|done]. exfalso.
  unfold start_forwarding_supervisor in Hstart. destruct (fc_docker_socket context); [|done].
  destruct (manifest_new _ _) as [manifest|]; [|done].
  set (m := match lease with Some lease => with_credential_lease manifest lease | None => manifest end) in Hstart.
  destruct (late_cleanup_start m w Hremove Hlive Hclosing Ht) as [e He].
  destruct (start_detached_supervisor host timing m w) as [w3 r]. cbn in He. subst r. done.
Qed.
End reconcile.

(** [down] tells a supervisor to stop only if its state names this installation, workspace,
    generation and both builds, and reports it as stopped only if that supervisor is gone. *)
Theorem scoped_stop_exact `{ControlCodecLaws} {A : Type} installation build inspection workspace active (w w' : ForwardingWorld A) r :
  scoped_stop installation build inspection workspace active w = (w', r) ->
  match r with
  | Ok Forwarding_Stopped => exists a manifest state backend, active = Some a /\ fw_live w = Some (manifest, state, backend) /\ fw_live w' = None
      /\ sv_installation state = installation /\ sv_workspace state = workspace /\ sv_generation state = ag_generation a
      /\ sv_host_build_id state = build
  | Ok _ => w' = w
  | Err _ => exists state, load_supervisor_state w = Some state
  end.
Proof.
  unfold scoped_stop. destruct active as [a|]; [|by intros [= <- <-]].
  destruct inspection as [[[] [] [] []]|]; try by intros [= <- <-].
  destruct (load_supervisor_state w) as [recorded|] eqn:Hload; [|by intros [= <- <-]].
  destruct (_ || _); [by intros [= <- <-]|].
  destruct (world_stop w (sv_token recorded) _) as [w1 [s|e]] eqn:Hstop; intros [= <- <-]; [|eauto]. cbn.
  pose proof Hstop as Hexchange. apply stop_of_live in Hstop as (manifest & backend & Hl & ->).
  exists a, manifest, s, backend. split_and!; try done.
  all: unfold world_stop in Hexchange; injection Hexchange as _ Hexchange; unfold world_exchange in Hexchange; rewrite Hl in Hexchange.
  all: apply stop_acknowledged in Hexchange as (_ & (_ & _ & Hm) & _); apply request_matches_true in Hm; cbn in Hm; naive_solver.
Qed.

(** A transaction over any runtime: what it returns covers the desired forwards one by one, and
    a missing listener is only accepted where the port is required and the outcome says so. *)
Theorem declared_forwarding_covers {W R : Type}
    (runtime : DesiredForwardingPlan -> option ActiveForwarding -> AgentBuildId -> W -> W * result R ForwardingRuntimeOutcome)
    plan previous build w w' f outcome :
  reconcile_declared_forwarding runtime plan previous build w = (w', Ok (f, outcome)) ->
  af_requested f = declared <$> pp_forwards plan
  /\ Forall2 (fun request assignment => requested_endpoint assignment = df_requested request
       /\ match assigned_endpoint assignment with
          | Some e => endpoint_address e = LOCALHOST /\ (df_require_local_port request = true -> endpoint_port e = endpoint_port (df_requested request))
          | None => df_require_local_port request = true /\ required_unavailable outcome = true
          end) (af_requested f) (af_assigned f).
Proof.
  unfold reconcile_declared_forwarding. destruct (from_port_plan plan) as [desired|] eqn:Hplan; [|done].
  apply from_port_plan_Ok in Hplan as (-> & _). destruct (runtime _ _ _ _) as [w1 [o|]]; [|done]. cbn [map_err].
  destruct (valid_assignments _ _) eqn:Hv; [|done]. intros [= <- <- <-]. cbn [af_requested af_assigned desired_requested] in *.
  split; [done|]. unfold valid_assignments in Hv. cbn [desired_requested] in Hv.
  destruct (declared <$> pp_forwards plan) as [|d requested].
  { by destruct o. }
  apply andb_true_iff in Hv as [Hlen%Nat.eqb_eq Hall]. revert Hlen Hall. generalize (d :: requested) as l, (assignments o) as assigned.
  induction l as [|request l IH]; intros [|assignment assigned] Hlen Hall; try done. cbn in Hall, Hlen.
  apply andb_true_iff in Hall as [Hh Hall]. constructor; [|by apply IH; [injection Hlen|]].
  apply andb_true_iff in Hh as [Hreq%bool_decide_eq_true Hh]. split; [done|]. destruct (assigned_endpoint assignment).
  - apply andb_true_iff in Hh as [Ha%bool_decide_eq_true Hp]. split; [done|]. intros Hrequired. rewrite Hrequired, orb_false_r in Hp.
    by apply bool_decide_eq_true in Hp.
  - by apply andb_true_iff in Hh.
Qed.

(** ** A first [up] *)

Definition sample_context : ForwardingContext :=
  mkForwardingContext (mkInstallationId ($"i")) (mkWorkspaceName ($"w")) (mkGenerationId 1) (mkContainerId ($"c")) sample_build (mkProtocolVersion 1)
    ($"/agent") (Some ($"/docker.sock")) ($"control" :: sample_runtime) ($"state" :: sample_runtime) ($"lock" :: sample_runtime)
    (Some sample_build) (Some [116]).
Definition sample_ports : PortPlan :=
  mkPortPlan [] [mkForward (mkPort 3000) None Target_ContainerLoopback (mkPort 8080) (mkPortAttrs Auto_Notify false None true None)] [].
Definition empty_world : ForwardingWorld unit := mkForwardingWorld unit File_Absent false None false tt.
Definition sample_active : ActiveForwarding :=
  mkActiveForwarding (Some sample_build) (declared <$> pp_forwards sample_ports)
    [mkAssignment (loopback_endpoint (mkTcpPort 3000)) (Some (mkEndpoint LOCALHOST (mkTcpPort 3000)))].

Lemma forwarding_recorded_is_live_witness : exists w',
  @reconcile_forwarding sample_control_codec unit sample_host Close_BeforeWrite sample_context sample_ports None None empty_world
    = (w', Some sample_active)
  /\ live_for sample_host (af_requested sample_active) w'.
Proof.
  assert (E : (@reconcile_forwarding sample_control_codec unit sample_host Close_BeforeWrite sample_context sample_ports None None empty_world).2
    = Some sample_active) by (vm_compute; reflexivity).
  destruct (@reconcile_forwarding sample_control_codec unit sample_host Close_BeforeWrite sample_context sample_ports None None empty_world) as [w' r] eqn:Er.
  cbn in E. subst r. exists w'. split; [reflexivity|].
  assert (Hb : binds_requested sample_host) by (intros address a a' bound [= <- <-]; auto).
  assert (Hok : world_ok sample_host None empty_world) by (intros ? ? ? [=]).
  destruct (@forwarding_recorded_is_live sample_control_codec sample_control_laws unit sample_host Hb _ _ _ _ _ _ _ _ Hok Er)
    as (desired & build & _ & _ & _ & _ & [(_ & Hf & _)|[Hlive _]] & _).
  - discriminate Hf.
  - exact Hlive.
Defined.
