(* ===== verification/ProductionStop.v ===== *)
(** * ProductionStop: how [down] stops a real environment
    ([ProductionLifecycleStop] and [ProductionManagedStop] of [cdenv-cli/src/production.rs])

    The adapters behind [Down]: the containers of the active generation are discovered by label,
    selected, inspected and verified, stopped, and inspected again.  Their calls to the daemon
    are those of [DockerInspection]. *)

From S2P Require Import Prelude Text Identity Workspace Status DockerCommands Effects DockerInspection WorkspaceState Transaction Down.

(** ** The lifecycle runner *)

(** @src cdenv-cli/src/production.rs:1479-1493 ProductionLifecycleStop::cancel *)
Definition cancel_runner (active : option ActiveGeneration) : LifecycleStopOutcome :=
  match active with
  | Some active => if is_Some_b (pc_running (ag_lifecycle active)) then Lifecycle_Indeterminate else Lifecycle_NotRunning
  | None => Lifecycle_NotRunning
  end.

(** ** The containers *)

(** [WorkflowMessage], by where it comes from. *)
Inductive ManagedStopError : Type :=
| Managed_Cancelled
| Managed_AmbiguousImage
| Managed_AmbiguousService (service : str)
| Managed_PrimaryUnverified
| Managed_ImageId
| Managed_Docker (error : BollardAdapterError).

(** A container, with its project and service in a Compose environment. *)
Definition Selected : Type := (option (str * str) * ContainerId).

(** One service of the recorded set: its only container.
    @src cdenv-cli/src/production.rs:1550-1575 ProductionManagedStop::stop *)
Definition select_service (project : str) (discovered : list DiscoveredContainer) (selected : list Selected) (service : str) :
    result ManagedStopError (list Selected) :=
  match List.filter (is_service project service) discovered with
  | [only] => Ok (selected ++ [(Some (project, service), dc_id only)])
  | _ => Err (Managed_AmbiguousService service)
  end.

(** [None] where the container is missing.
    @src cdenv-cli/src/production.rs:1531-1586 ProductionManagedStop::stop *)
Definition select_containers (active : ActiveGeneration) (discovered : list DiscoveredContainer) : result ManagedStopError (option (list Selected)) :=
  match ag_scenario active with
  | Scenario_Image | Scenario_Dockerfile =>
      let matches := List.filter (fun c => bool_decide (dc_id c = ag_container_id active)) discovered in
      match matches with
      | [] => Ok None
      | _ =>
          fail_if negb (Nat.eqb (length matches) 1) || negb (Nat.eqb (length discovered) 1) with Managed_AmbiguousImage in
          Ok (Some [(None, ag_container_id active)])
      end
  | Scenario_Compose project managed_services =>
      let? selected := try_fold (select_service project discovered) [] managed_services in
      fail_if negb (Nat.eqb (length (List.filter (fun s => bool_decide (snd s = ag_container_id active)) selected)) 1)
        with Managed_PrimaryUnverified in
      Ok (Some selected)
  end.

Section managed.
Context {A : Type} `{!BollardApi A} (is_cancelled : A -> bool) (installation : InstallationId) (workspace : WorkspaceName) (profile : ProfileId).
Abbreviation stopping := (act A DockerCall ManagedStopError).

(** What a container has to be: its name and, but for the primary before the stop, its image are
    taken from the inspection itself.
    @src cdenv-cli/src/production.rs:1599-1610 ProductionManagedStop::stop *)
Definition stop_expectation (active : ActiveGeneration) (selected : Selected) (inspection : ContainerInspection) (image : ImageId) (running : option bool) :
    ContainerExpectation :=
  mkExpectation (snd selected) (in_name inspection) image
    (mkResourceIdentity installation workspace (ag_generation active) profile) (fst <$> fst selected) (snd <$> fst selected) running.

(** The first loop: those that run, each verified.
    @src cdenv-cli/src/production.rs:1590-1616 ProductionManagedStop::stop *)
Fixpoint verify_selected (active : ActiveGeneration) (image : ImageId) (selected : list Selected) : stopping (list ContainerId) :=
  match selected with
  | [] => done []
  | one :: rest =>
      do? inspection := inspect_container (snd one) or Managed_Docker in
      let expected := if bool_decide (snd one = ag_container_id active) then image else in_image_id inspection in
      do? _ := check (verify_container inspection (stop_expectation active one inspection expected None)) or Managed_Docker in
      do? running := verify_selected active image rest else raise in
      done (if in_running inspection then snd one :: running else running)
  end.

(** The second loop. @src cdenv-cli/src/production.rs:1617-1622 ProductionManagedStop::stop *)
Definition stop_running (grace : N) (running : list ContainerId) : stopping unit :=
  each (fun id => observe is_cancelled (fun cancelled : bool =>
    if cancelled then raise Managed_Cancelled else
    do? _ := stop_container id grace or Managed_Docker in done tt)) running.

(** The last loop. @src cdenv-cli/src/production.rs:1623-1641 ProductionManagedStop::stop *)
Definition verify_stopped (active : ActiveGeneration) (selected : list Selected) : stopping unit :=
  each (fun one =>
    do? inspection := inspect_container (snd one) or Managed_Docker in
    do? _ := check (verify_container inspection (stop_expectation active one inspection (in_image_id inspection) (Some false))) or Managed_Docker in
    done tt) selected.

(** @src cdenv-cli/src/production.rs:1511-1647 ProductionManagedStop::stop *)
Definition managed_stop (active : option ActiveGeneration) (grace : N) : stopping EnvironmentStopOutcome :=
  match active with
  | None => done Environment_Missing
  | Some active =>
      observe is_cancelled (fun cancelled : bool =>
      if cancelled then raise Managed_Cancelled else
      do? discovered := discover_containers (mkScope installation (Some workspace) (Some (ag_generation active))) or Managed_Docker in
      match select_containers active discovered with
      | Err e => raise e
      | Ok None => done Environment_Missing
      | Ok (Some selected) =>
          match ImageId_parse (ag_image_id active) with
          | Err _ => raise Managed_ImageId
          | Ok image =>
              do? running := verify_selected active image selected else raise in
              do? _ := stop_running grace running else raise in
              do? _ := verify_stopped active selected else raise in
              done (match running with [] => Environment_AlreadyStopped | _ => Environment_Stopped end)
          end
      end)
  end.
End managed.

(** ** What is stopped *)

Section verified.
Context {A : Type} `{!BollardApi A} (is_cancelled : A -> bool) (installation : InstallationId) (workspace : WorkspaceName) (profile : ProfileId).
Context (active : ActiveGeneration).
Implicit Types (t : list DockerCall) (one : Selected).

(** Only containers are inspected. *)
Definition inspects (c : DockerCall) : Prop := match dc_request c with Request_InspectContainer _ => True | _ => False end.

(** The daemon described the container in [t], as this workspace's and as running or not, and with the
    image where one is expected. *)
Definition seen t one (image : option ImageId) (running : bool) : Prop :=
  exists response i, mkCall (Request_InspectContainer (container_str (snd one))) (Ok (Response_Container response)) ∈ t
    /\ map_container response = Ok i /\ in_id i = snd one /\ in_running i = running /\ (forall expected, image = Some expected -> in_image_id i = expected)
    /\ labelled (in_labels i) (mkResourceIdentity installation workspace (ag_generation active) profile)
    /\ in_labels i !! COMPOSE_PROJECT_LABEL = (fst <$> fst one) /\ in_labels i !! COMPOSE_SERVICE_LABEL = (snd <$> fst one).

Lemma seen_mono t t' one image running : t ⊆ t' -> seen t one image running -> seen t' one image running.
Proof. intros Ht (response & i & Hin & Hrest). exists response, i. split; [by apply Ht|done]. Qed.

(** The image that the recorded container has to have. *)
Definition recorded_image (image : ImageId) one : option ImageId := if bool_decide (snd one = ag_container_id active) then Some image else None.

(** One container inspected and verified. *)
Lemma verified_seen one i image (running : option bool) t :
  inspected (snd one) t i -> verify_container i (stop_expectation installation workspace profile active one i image running) = Ok tt ->
  seen t one (Some image) (in_running i) /\ (forall b, running = Some b -> in_running i = b).
Proof.
  intros (response & -> & Hm) Hv%verify_container_spec. split; [|intros b ->; by apply (xc_running _ _ Hv)].
  exists response, i. split_and!; [left|done|apply (xc_id _ _ Hv)|done|intros ? [= <-]; apply (xc_image _ _ Hv)|apply (xc_labels _ _ Hv)|apply (xc_project _ _ Hv)|apply (xc_service _ _ Hv)].
Qed.

Lemma seen_image t one image image' running : (forall expected, image' = Some expected -> image = Some expected) ->
  seen t one image running -> seen t one image' running.
Proof. intros Hi (response & i & Hin & Hm & Hid & Hr & Himg & Hrest). exists response, i. split_and!; try apply Hrest; auto. Qed.

(** Inspecting and verifying one, then going on. *)
Lemma emits_verified {Y : Type} one (image : ContainerInspection -> ImageId) running
    (k : ContainerInspection -> act A DockerCall ManagedStopError Y) Q :
  (forall t i, Forall inspects t -> seen t one (Some (image i)) (in_running i) -> (forall b, running = Some b -> in_running i = b) ->
     emits (k i) (fun t' r => Q (t ++ t') r)) ->
  (forall t e, Forall inspects t -> Q t (Err e)) ->
  emits (do? inspection := inspect_container (snd one) or Managed_Docker in
         do? _ := check (verify_container inspection (stop_expectation installation workspace profile active one inspection (image inspection) running))
           or Managed_Docker in k inspection) Q.
Proof.
  intros Hk He. eapply emits_handle; [apply inspect_container_spec|..].
  - intros t i [[answer Ht] Hi]. assert (Hr : Forall inspects t) by (rewrite Ht; by repeat constructor).
    intros a. unfold handle, check, raise, done.
    destruct (verify_container i _) as [[]|e] eqn:Hv; [|rewrite ?app_nil_r; by apply He].
    destruct (verified_seen one i _ _ t (Hi i eq_refl) Hv) as [Hs Hb]. specialize (Hk t i Hr Hs Hb a).
    by destruct (k i a) as [[a' t'] r].
  - intros t e [[answer Ht] _]. apply emits_raise. rewrite app_nil_r. apply He. rewrite Ht. by repeat constructor.
Qed.

(** The first loop: who runs was seen to run, and everyone else was seen not to. *)
Lemma verify_selected_spec image selected :
  emits (A := A) (verify_selected installation workspace profile active image selected) (fun t r =>
    Forall inspects t /\ forall running, r = Ok running ->
      Forall (fun id => exists one, one ∈ selected /\ snd one = id /\ seen t one (recorded_image image one) true) running
      /\ Forall (fun one => snd one ∈ running \/ seen t one (recorded_image image one) false) selected).
Proof.
  induction selected as [|one selected IH]; cbn [verify_selected]; [apply emits_done; split; [constructor|intros ? [= <-]; split; constructor]|].
  apply (emits_verified one (fun i => if bool_decide (snd one = ag_container_id active) then image else in_image_id i) None).
  2:{ intros t e Ht. done. }
  intros t i Ht Hseen _.
  assert (Hs : seen t one (recorded_image image one) (in_running i)).
  { eapply seen_image; [|exact Hseen]. unfold recorded_image. case_bool_decide; [by intros ? [= <-]|done]. }
  eapply emits_handle; [exact IH|..].
  - intros t' running [Ht' Hr]. apply emits_done. rewrite app_nil_r. split; [by apply Forall_app|].
    destruct (Hr _ eq_refl) as [Hrun Hall].
    assert (Hrest : Forall (fun id => exists one', one' ∈ one :: selected /\ snd one' = id /\ seen (t ++ t') one' (recorded_image image one') true) running).
    { eapply Forall_impl; [exact Hrun|]. intros id (o & Ho & <- & Hs'). exists o. split_and!; [by right|done|]. eapply seen_mono; [|exact Hs']. set_solver. }
    assert (Hs' : seen (t ++ t') one (recorded_image image one) (in_running i)) by (eapply seen_mono; [|exact Hs]; set_solver).
    intros ? [= <-]. destruct (in_running i); (split; [try (constructor; [|done]; exists one; split_and!; [left|done|done]); try done|]); constructor;
      try (left; by left); try (by right); (eapply Forall_impl; [exact Hall|]); intros o [Ho|Ho];
      (try (by left)); (try (left; by right)); right; (eapply seen_mono; [|exact Ho]); set_solver.
  - intros t' e [Ht' _]. apply emits_raise. rewrite app_nil_r. split; [by apply Forall_app|done].
Qed.

Lemma verify_stopped_spec selected :
  emits (A := A) (verify_stopped installation workspace profile active selected) (fun t r =>
    Forall inspects t /\ (r = Ok tt -> Forall (fun one => seen t one None false) selected)).
Proof.
  unfold verify_stopped. induction selected as [|one selected IH]; cbn [each]; [by apply emits_done|].
  eapply emits_handle.
  - apply (emits_verified one in_image_id (Some false) (fun _ => done tt) (fun t r => Forall inspects t /\ (r = Ok tt -> seen t one None false))).
    + intros t i Ht Hs Hb. apply emits_done. rewrite app_nil_r. split; [done|]. intros _. rewrite <- (Hb _ eq_refl). by eapply seen_image; [|exact Hs].
    + intros t e Ht. done.
  - intros t [] [Ht Hs]. eapply emits_impl; [exact IH|]. intros t' r [Ht' Hr]. split; [by apply Forall_app|]. intros Hok. constructor.
    + eapply seen_mono; [|by apply Hs]. set_solver.
    + eapply Forall_impl; [by apply Hr|]. intros o Ho. eapply seen_mono; [|exact Ho]. set_solver.
  - intros t e [Ht _]. apply emits_raise. rewrite app_nil_r. done.
Qed.

(** The requests that stop, one per container in order; none where the shutdown is cancelled. *)
Definition stop_call (grace : N) (id : ContainerId) (c : DockerCall) : Prop :=
  dc_request c = Request_StopContainer (container_str id) (Z.of_N grace).

Lemma stop_running_spec grace running :
  emits (A := A) (stop_running is_cancelled grace running) (fun t r =>
    exists ids rest, running = ids ++ rest /\ Forall2 (stop_call grace) ids t /\ (r = Ok tt -> rest = [])).
Proof.
  unfold stop_running. induction running as [|id running IH]; cbn [each].
  { apply emits_done. exists [], []. split_and!; [done|constructor|done]. }
  eapply emits_handle.
  - apply (emits_observe _ _ (fun t (r : result ManagedStopError unit) => (t = [] /\ r <> Ok tt) \/ exists c, t = [c] /\ stop_call grace id c)). intros [].
    { apply emits_raise. by left. }
    eapply (emits_handle _ _ _ (fun t (r : result BollardAdapterError unit) => (t = [] /\ r <> Ok tt) \/ exists c, t = [c] /\ stop_call grace id c)).
    2:{ intros t [] [[_ Hn]|Hx]; [done|]. apply emits_done. rewrite app_nil_r. by right. }
    2:{ intros t e Hx. apply emits_raise. rewrite app_nil_r. destruct Hx as [[-> _]|Hx]; [by left|by right]. }
    unfold stop_container. destruct (_ <? _); [apply emits_raise; by left|]. eapply emits_impl; [apply unit_call_spec|].
    intros t r (answer & -> & _). right. eexists. by split.
  - intros t [] [[_ Hn]|(c & -> & Hc)]; [done|]. eapply emits_impl; [exact IH|]. intros t' r (ids & rest & -> & Hf & Hr).
    exists (id :: ids), rest. split_and!; [done|by constructor|done].
  - intros t e [[-> _]|(c & -> & Hc)]; apply emits_raise; rewrite app_nil_r.
    + exists [], (id :: running). split_and!; [done|constructor|done].
    + exists [id], running. split_and!; [done|by repeat constructor|done].
Qed.

(** The one discovery: all containers with the labels of this installation, workspace and generation. *)
Definition discovery (answer : result CallFailure BollardApiResponse) : DockerCall :=
  mkCall (Request_ListContainers true
    [INSTALLATION_LABEL ++ $"=" ++ installation_str installation; WORKSPACE_LABEL ++ $"=" ++ name_str workspace;
     GENERATION_LABEL ++ $"=" ++ to_string (generation_get (ag_generation active))]) answer.

(** The containers to stop, from those that were found.  Without Compose: the recorded container, which
    is the only one.  With Compose: for every recorded service its only container, and one of them
    is the recorded container. *)
Definition selected_from (found : list DiscoveredContainer) (selected : list Selected) : Prop :=
  match ag_scenario active with
  | Scenario_Image | Scenario_Dockerfile =>
      exists c, found = [c] /\ dc_id c = ag_container_id active /\ selected = [(None, ag_container_id active)]
  | Scenario_Compose project services =>
      Forall2 (fun service one => exists c,
        List.filter (fun x => bool_decide (dc_labels x !! COMPOSE_PROJECT_LABEL = Some project)
                              && bool_decide (dc_labels x !! COMPOSE_SERVICE_LABEL = Some service)) found = [c]
        /\ one = (Some (project, service), dc_id c)) services selected
      /\ exists one, List.filter (fun one => bool_decide (snd one = ag_container_id active)) selected = [one]
  end.

Lemma select_services_spec project found services acc selected :
  try_fold (select_service project found) acc services = Ok selected ->
  exists more, selected = acc ++ more /\ Forall2 (fun service one => exists c,
    List.filter (is_service project service) found = [c] /\ one = (Some (project, service), dc_id c)) services more.
Proof.
  revert acc. induction services as [|service services IH]; intros acc; cbn [try_fold].
  - intros [= <-]. exists []. rewrite app_nil_r. by split.
  - unfold select_service at 1. destruct (List.filter (is_service project service) found) as [|c [|]] eqn:Hf; cbn; try done.
    intros (more & -> & Hm)%IH. exists ((Some (project, service), dc_id c) :: more). rewrite <- app_assoc. split; [done|].
    constructor; [by exists c|done].
Qed.

Lemma select_containers_spec found selected :
  select_containers active found = Ok (Some selected) -> selected_from found selected.
Proof.
  unfold select_containers, selected_from.
  assert (Himage : forall l, List.filter (fun c => bool_decide (dc_id c = ag_container_id active)) found = l ->
    match l with [] => Ok None | _ => fail_if negb (Nat.eqb (length l) 1) || negb (Nat.eqb (length found) 1) with Managed_AmbiguousImage in
      Ok (Some [(None, ag_container_id active)]) end = Ok (Some selected) ->
    exists c, found = [c] /\ dc_id c = ag_container_id active /\ selected = [(None, ag_container_id active)]).
  { intros [|x l] Hl; [done|]. destruct (_ || _) eqn:E; [done|]. intros [= <-]. apply orb_false_iff in E as [_ E].
    destruct found as [|c [|]]; try done. exists c. split_and!; try done. cbn in Hl. by case_bool_decide. }
  destruct (ag_scenario active) as [| |project services]; [by apply Himage|by apply Himage|].
  destruct (try_fold _ _ _) as [sel|] eqn:Hf; [|done]. apply select_services_spec in Hf as (more & -> & Hm). cbn [app].
  destruct (Nat.eqb_spec (length (List.filter (fun s => bool_decide (snd s = ag_container_id active)) more)) 1) as [E|E]; cbn [negb]; [|done].
  intros [= <-]. split; [exact Hm|].
  match goal with |- exists one, ?l = _ => change (length l = 1%nat) in E; destruct l as [|one [|? ?]] end; [done|by exists one|done].
Qed.

(** Nothing to stop: no container is found, or, without Compose, the recorded one is not found. *)
Lemma select_missing found : select_containers active found = Ok None ->
  match ag_scenario active with Scenario_Compose _ _ => False | _ => forall c, c ∈ found -> dc_id c <> ag_container_id active end.
Proof.
  unfold select_containers.
  assert (Himage : forall l, List.filter (fun c => bool_decide (dc_id c = ag_container_id active)) found = l ->
    match l with [] => Ok None | _ => fail_if negb (Nat.eqb (length l) 1) || negb (Nat.eqb (length found) 1) with Managed_AmbiguousImage in
      Ok (Some [(None, ag_container_id active) : Selected]) end = Ok None -> forall c, c ∈ found -> dc_id c <> ag_container_id active).
  { intros [|x l] Hl; [|by destruct (_ || _)]. intros _ c Hc Hid. rewrite list_elem_of_In in Hc.
    assert (Hin : In c []) by (rewrite <- Hl; apply filter_In; split; [done|by apply bool_decide_eq_true]). done. }
  destruct (ag_scenario active) as [| |project services]; [by apply Himage|by apply Himage|].
  destruct (try_fold _ _ _); [|done]. cbn beta iota. case_match; done.
Qed.

(** What the daemon answered to the discovery. *)
Definition discovered_as (answer : result CallFailure BollardApiResponse) (found : list DiscoveredContainer) : Prop :=
  exists summaries, answer = Ok (Response_Containers summaries) /\ try_map map_summary summaries = Ok found.

(** The trace and the outcome of a shutdown. *)
Definition stop_report (grace : N) t (r : result ManagedStopError EnvironmentStopOutcome) : Prop :=
  t = [] /\ r = Err Managed_Cancelled
  \/ (exists answer, t = [discovery answer] /\
      ((exists e, r = Err e)
       \/ r = Ok Environment_Missing /\ exists found, discovered_as answer found
          /\ match ag_scenario active with Scenario_Compose _ _ => False | _ => forall c, c ∈ found -> dc_id c <> ag_container_id active end))
  \/ exists answer found selected image t1 t2 t3,
      t = discovery answer :: t1 ++ t2 ++ t3 /\ discovered_as answer found /\ selected_from found selected
      /\ ImageId_parse (ag_image_id active) = Ok image /\ Forall inspects t1 /\ Forall inspects t3
      /\ Forall (fun c => exists one, one ∈ selected /\ stop_call grace (snd one) c /\ seen t1 one (recorded_image image one) true) t2
      /\ match r with
         | Err _ => True
         | Ok Environment_Missing => False
         | Ok outcome =>
             Forall (fun one => (exists c, c ∈ t2 /\ stop_call grace (snd one) c) \/ seen t1 one (recorded_image image one) false) selected
             /\ Forall (fun one => seen t3 one None false) selected /\ (outcome = Environment_AlreadyStopped <-> t2 = [])
         end.

(** Every stop of a prefix of the containers found running is of one seen running. *)
Lemma stops_seen grace image t (selected : list Selected) running ids rest t2 :
  Forall (fun id => exists one, one ∈ selected /\ snd one = id /\ seen t one (recorded_image image one) true) running ->
  running = ids ++ rest -> Forall2 (stop_call grace) ids t2 ->
  Forall (fun c => exists one, one ∈ selected /\ stop_call grace (snd one) c /\ seen t one (recorded_image image one) true) t2.
Proof.
  intros Hrunning -> Hf. apply Forall_app in Hrunning as [Hids _]. induction Hf as [|id c ids' t2' Hc Hf IH]; [constructor|].
  apply Forall_cons in Hids as [(one & Ho & <- & Hs) Hids]. constructor; [|by apply IH]. by exists one.
Qed.

Lemma stopped_call grace ids t2 id : Forall2 (stop_call grace) ids t2 -> id ∈ ids -> exists c, c ∈ t2 /\ stop_call grace id c.
Proof.
  induction 1 as [|x c ids t2 Hc _ IH]; [by intros ?%elem_of_nil|]. intros [->|Hin]%elem_of_cons; [exists c; split; [left|done]|].
  destruct (IH Hin) as (c' & Hc' & Hs). exists c'. split; [by right|done].
Qed.

(** C26: what [down] stops.  The first call lists the containers with the labels of this installation,
    workspace and generation; the calls after it are inspections, then stops, then inspections.
    The containers to stop are selected from the daemon's answer: the recorded container, where it
    is the only one found, or the only container of every recorded Compose service, one of which is
    the recorded container.  Every container that is told to stop is a selected one that the daemon
    had described, since the discovery, as running, with its identifier, every label of the
    workspace (and of its Compose service) and, for the recorded container, the recorded image.  The
    shutdown is reported as complete only when every selected container was told to stop or was
    described as not running, and all of them were described again as not running; it is reported
    as already stopped exactly when nothing was told to stop, and as missing only when the answer
    does not have the recorded container. *)
Theorem managed_stop_verified grace :
  emits (A := A) (managed_stop is_cancelled installation workspace profile (Some active) grace) (stop_report grace).
Proof.
  unfold managed_stop. apply emits_observe. intros []; [apply emits_raise; by left|].
  eapply emits_handle; [apply discover_containers_spec|..].
  2:{ intros t e (answer & -> & _). apply emits_raise. right; left. exists answer. split; [done|eauto]. }
  intros t found (answer & Ht & Hfound). change (t = [discovery answer]) in Ht. subst t. specialize (Hfound _ eq_refl).
  assert (Herr : forall e, emits (A := A) (raise e) (fun t' r => stop_report grace ([discovery answer] ++ t') r)).
  { intros e. apply emits_raise. right; left. exists answer. split; [done|eauto]. }
  destruct (select_containers active found) as [[selected|]|e] eqn:Hselect; [| |apply Herr].
  2:{ apply emits_done. right; left. exists answer. split; [done|]. right. split; [done|]. exists found. split; [done|by apply select_missing]. }
  apply select_containers_spec in Hselect.
  destruct (ImageId_parse (ag_image_id active)) as [image|e] eqn:Himage; [|apply Herr].
  eapply emits_handle; [apply verify_selected_spec|..].
  2:{ intros t1 e [Ht1 _]. apply emits_raise. rewrite app_nil_r. right; right. exists answer, found, selected, image, t1, [], [].
      rewrite app_nil_r. split_and!; try done; constructor. }
  intros t1 running [Ht1 Hrunning]. destruct (Hrunning _ eq_refl) as [Hrun Hall].
  eapply emits_handle; [apply stop_running_spec|..].
  2:{ intros t2 e (ids & rest & Hids & Hf & _). apply emits_raise. rewrite app_nil_r. right; right.
      exists answer, found, selected, image, t1, t2, []. rewrite app_nil_r. split_and!; try done. by eapply stops_seen. }
  intros t2 [] (ids & rest & Hids & Hf & Hrest). rewrite (Hrest eq_refl), app_nil_r in Hids. subst ids.
  assert (Ht2 := stops_seen grace image _ _ _ running [] t2 Hrun (eq_sym (app_nil_r _)) Hf).
  eapply emits_handle; [apply verify_stopped_spec|..].
  - intros t3 [] [Ht3 Hs]. apply emits_done. rewrite app_nil_r. right; right. exists answer, found, selected, image, t1, t2, t3.
    split_and!; try done.
    assert (Hstop : Forall (fun one => (exists c, c ∈ t2 /\ stop_call grace (snd one) c) \/ seen t1 one (recorded_image image one) false) selected).
    { eapply Forall_impl; [exact Hall|]. intros one [Ho|Ho]; [left; by eapply stopped_call|by right]. }
    apply Forall2_length in Hf. destruct running as [|id running], t2 as [|c t2]; try done; split_and!; auto; done.
  - intros t3 e [Ht3 _]. apply emits_raise. rewrite app_nil_r. right; right. exists answer, found, selected, image, t1, t2, t3. split_and!; done.
Qed.
End verified.

(** ** With [Down] *)

Section runner.
Context {S A FE LE EE : Type} `{!StateStore S, !StateStoreLaws S, !StopAdapters A FE LE EE} (acquire : A -> result LockError unit).
Hypothesis production_runner : forall a active grace, cancel_lifecycle a active grace = (a, Ok (cancel_runner active)).

(** Where readiness recorded a stage as running in the background, a shutdown that reaches the
    adapters is reported as incomplete, and what it records is that one-time work is
    indeterminate, for which the next [up] is refused before anything else: nothing ever records
    that the stage ended. *)
Theorem background_stage_blocks_down (w w' : World S A) request s0 active r :
  stored (w_store w) = Some s0 -> ws_active s0 = Some active -> is_Some (pc_running (ag_lifecycle active)) ->
  down_workspace acquire w request = (w', r) ->
  match r with
  | Ok _ => False
  | Err (Down_Incomplete _) => exists s1 active1, stored (w_store w') = Some s1 /\ ws_active s1 = Some active1 /\ pc_indeterminate (ag_lifecycle active1) = true
  | Err _ => True
  end.
Proof.
  intros H0 Hactive [stage Hstage] Hd. unfold down_workspace in Hd.
  case_bool_decide; cbn [negb] in Hd; [|by injection Hd as <- <-]. destruct (acquire (w_env w)); [|by injection Hd as <- <-].
  destruct (load (w_store w)) as [loaded|] eqn:Hl; [|by injection Hd as <- <-]. apply load_stored in Hl. rewrite H0 in Hl. injection Hl as Hl.
  rewrite <- Hl in Hd. destruct (persist (w_store w) _) as [store1 [[]|]]; [|by injection Hd as <- <-].
  destruct (stop_forwarding _ _ _) as [env1 f]. rewrite production_runner in Hd. cbn [ws_active set_last_error set_operation] in Hd.
  rewrite Hactive in Hd. cbn [cancel_runner] in Hd. rewrite Hstage in Hd. cbn [is_Some_b] in Hd.
  destruct (stop_environment _ _ _) as [env2 e]. unfold finish_down in Hd.
  destruct (persist store1 _) as [store2 [[]|]] eqn:Hp; [|by injection Hd as <- <-].
  assert (failures_empty (stop_failures (LE := LE) f (Ok Lifecycle_Indeterminate) e) = false) as Hf.
  { unfold failures_empty, stop_failures, indeterminate_stop. cbn. rewrite bool_decide_eq_true_2 by done. by rewrite andb_false_r. }
  rewrite Hf in Hd. injection Hd as <- <-. cbn [negb w_store]. apply stored_persist_ok in Hp. eexists _, _. split; [exact Hp|].
  cbn. rewrite Hactive. cbn. split; [reflexivity|]. cbn. rewrite bool_decide_eq_true_2 by done. apply orb_true_r.
Qed.
End runner.
