(* ===== verification/Rebuild.v ===== *)
(** * Rebuild: the build-first replacement of an environment
    ([cdenv-cli/src/rebuild.rs])

    The transaction is written in a small error monad over its state: the store, the adapters'
    world, and the log of the adapter methods called so far, which the theorems are about. *)

From S2P Require Import Prelude Text Identity Workspace Status Storage WorkspaceState Transaction.

(** ** Data *)

(** @src cdenv-cli/src/rebuild.rs:21-30 PreparedRebuildPlan *)
Record PreparedRebuildPlan (P : Type) : Type := mkRebuildPlan {
  pr_profile : ProfileId;
  pr_config : DesiredConfigPath;
  pr_fingerprints : PlanFingerprints;
  pr_plan : P;
}.
Arguments mkRebuildPlan {P} _ _ _ _.
Arguments pr_profile {P} _.
Arguments pr_config {P} _.
Arguments pr_fingerprints {P} _.
Arguments pr_plan {P} _.

(** @src cdenv-cli/src/rebuild.rs:80-91 RebuildPhase *)
Inductive RebuildPhase : Type :=
| Phase_Built | Phase_Quiescing | Phase_BackupRenamed | Phase_CandidateReady | Phase_ForwardingHandedOff.

(** @src cdenv-cli/src/rebuild.rs:94-107 RebuildRollbackRequest *)
Record RebuildRollbackRequest (B : Type) : Type := mkRollbackRequest {
  rq_build : B;
  rq_generation : GenerationId;
  rq_previous : option ActiveGeneration;
  rq_candidate : option ActiveGeneration;
  rq_backup_name : str;
  rq_phase : RebuildPhase;
}.
Arguments mkRollbackRequest {B} _ _ _ _ _ _.
Arguments rq_phase {B} _.

(** @src cdenv-cli/src/rebuild.rs:110-119 RebuildCleanupRequest *)
Record RebuildCleanupRequest (B : Type) : Type := mkCleanupRequest {
  cq_previous : option ActiveGeneration;
  cq_replacement : ActiveGeneration;
  cq_build : B;
  cq_backup_name : str;
}.
Arguments mkCleanupRequest {B} _ _ _ _.

(** @src cdenv-cli/src/rebuild.rs:34-68 RebuildPlanner *)
Class RebuildPlanner (A P PE FE SE : Type) : Type := {
  prepare_rebuild : A -> option str -> WorkspaceState -> result PE (PreparedRebuildPlan P);
  validate_frozen : PreparedRebuildPlan P -> A -> A * result FE unit;
  has_changes : A -> A * result SE bool;
}.

(** @src cdenv-cli/src/rebuild.rs:123-176 RebuildEnvironment *)
Class RebuildEnvironment (A P B EE : Type) : Type := {
  build : PreparedRebuildPlan P -> GenerationId -> bool -> A -> A * result EE B;
  quiesce : option ActiveGeneration -> A -> A * result EE unit;
  backup : ActiveGeneration -> str -> A -> A * result EE unit;
  create_ready : PreparedRebuildPlan P -> B -> GenerationId -> A -> A * result EE ActiveGeneration;
  handoff : option ActiveGeneration -> ActiveGeneration -> A -> A * result EE unit;
  rollback : RebuildRollbackRequest B -> A -> A * result EE unit;
  cleanup : RebuildCleanupRequest B -> A -> A * result EE unit;
  environment_message : EE -> str;
}.

(** @src cdenv-cli/src/rebuild.rs:179-192 RebuildRequest *)
Record RebuildRequest : Type := mkRebuildRequest {
  rb_config : option str;
  rb_operation : OperationState;
  rb_backup_name : str;
  rb_no_cache : bool;
  rb_completed_at : StateTimestamp;
}.

(** @src cdenv-cli/src/rebuild.rs:196-205 RebuildOutcome *)
Record RebuildOutcome (EE : Type) : Type := mkRebuildOutcome {
  ro_generation : GenerationId;
  ro_container : ContainerId;
  ro_checkout_has_changes : bool;
  ro_cleanup_warning : option EE;
}.
Arguments mkRebuildOutcome {EE} _ _ _ _.
Arguments ro_generation {EE} _.
Arguments ro_container {EE} _.

(** @src cdenv-cli/src/rebuild.rs:209-219 RebuildInvariantError *)
Inductive RebuildInvariantError : Type := GenerationOverflow | WrongGeneration | ReusedContainer.

(** @src cdenv-cli/src/rebuild.rs:223-233 ReplacementFailure *)
Inductive ReplacementFailure (EE : Type) : Type :=
| Failure_Adapter (error : EE)
| Failure_Invariant (error : RebuildInvariantError)
| Failure_State (error : WorkspaceStateError).
Arguments Failure_Adapter {EE} _.
Arguments Failure_Invariant {EE} _.
Arguments Failure_State {EE} _.

(** @src cdenv-cli/src/rebuild.rs:237-301 RebuildError *)
Inductive RebuildError (PE FE SE EE : Type) : Type :=
| Rebuild_InvalidOperation
| Rebuild_Lock (error : LockError)
| Rebuild_State (error : WorkspaceStateError)
| Rebuild_Desired (source : PE)
| Rebuild_Preflight (source : FE)
| Rebuild_CheckoutStatus (source : SE)
| Rebuild_Generation (error : RebuildInvariantError)
| Rebuild_Replacement (phase : RebuildPhase) (primary : ReplacementFailure EE) (rollback : option EE)
| Rebuild_FailureRecord (phase : RebuildPhase) (primary : ReplacementFailure EE) (rollback : option EE)
    (state : WorkspaceStateError).
Arguments Rebuild_InvalidOperation {PE FE SE EE}.
Arguments Rebuild_Lock {PE FE SE EE} _.
Arguments Rebuild_State {PE FE SE EE} _.
Arguments Rebuild_Desired {PE FE SE EE} _.
Arguments Rebuild_Preflight {PE FE SE EE} _.
Arguments Rebuild_CheckoutStatus {PE FE SE EE} _.
Arguments Rebuild_Generation {PE FE SE EE} _.
Arguments Rebuild_Replacement {PE FE SE EE} _ _ _.
Arguments Rebuild_FailureRecord {PE FE SE EE} _ _ _ _.

(** @src cdenv-cli/src/rebuild.rs:499-507 next_generation *)
Definition next_generation (previous : option ActiveGeneration) :
    result RebuildInvariantError GenerationId :=
  let value := match previous with
               | Some active => saturating_add MAX_U64 (generation_get (ag_generation active)) 1
               | None => 1
               end in
  fail_if (value =? 0) || match previous with
                          | Some active => value =? generation_get (ag_generation active)
                          | None => false
                          end with GenerationOverflow in
  map_err (fun _ => GenerationOverflow) (GenerationId_new value).

(** @src cdenv-cli/src/rebuild.rs:509-514 valid_backup_name *)
Definition valid_backup_name (value : str) : bool :=
  starts_with ($"cdenv-backup-") value && negb (starts_with ($"-") value)
  && negb (existsb is_control value) && (str_len value <=? 255).

(** ** The monad *)

Inductive RebuildCall : Type :=
| Call_ValidateFrozen | Call_Status | Call_Build | Call_Quiesce | Call_Backup | Call_CreateReady
| Call_Handoff | Call_Rollback (phase : RebuildPhase) | Call_Cleanup.

Record RebuildWorld (S A : Type) : Type := mkRebuildWorld {
  rw_store : S;
  rw_env : A;
  rw_calls : list RebuildCall;
}.
Arguments mkRebuildWorld {S A} _ _ _.
Arguments rw_store {S A} _.
Arguments rw_env {S A} _.
Arguments rw_calls {S A} _.

Section rebuild.
Context {S A P B PE FE SE EE : Type} `{!StateStore S}
  `{!RebuildPlanner A P PE FE SE, !RebuildEnvironment A P B EE}
  (acquire : A -> result LockError unit) (state_message : WorkspaceStateError -> str).

Abbreviation world := (RebuildWorld S A) (only parsing).
Abbreviation error := (RebuildError PE FE SE EE) (only parsing).

Definition tx (X : Type) : Type := world -> world * result error X.

Definition ret {X} (x : X) : tx X := fun w => (w, Ok x).
Definition throw {X} (e : error) : tx X := fun w => (w, Err e).

(** An adapter method, logged. *)
Definition call {E X} (c : RebuildCall) (f : A -> A * result E X) : world -> world * result E X :=
  fun w => let '(env, r) := f (rw_env w) in (mkRebuildWorld (rw_store w) env (rw_calls w ++ [c]), r).

(** [persist_workspace_state]. *)
Definition save (s : WorkspaceState) : world -> world * result WorkspaceStateError unit :=
  fun w => let '(store, r) := persist (rw_store w) s in
           (mkRebuildWorld store (rw_env w) (rw_calls w), r).

(** [match m { Ok(x) => k(x), Err(e) => h(e) }] *)
Definition attempt {E X Y} (m : world -> world * result E X) (h : E -> tx Y) (k : X -> tx Y) : tx Y :=
  fun w => let '(w', r) := m w in match r with Ok x => k x w' | Err e => h e w' end.
End rebuild.

Notation "'try' x := m 'else' h 'in' k" := (attempt m h (fun x => k))
  (at level 10, x pattern, m at level 100, h at level 100, k at level 200,
   format "'[v' 'try'  x  :=  m  'else'  h  'in' '/' k ']'") : rust_scope.

Section rebuild.
Context {S A P B PE FE SE EE : Type} `{!StateStore S}
  `{!RebuildPlanner A P PE FE SE, !RebuildEnvironment A P B EE}
  (acquire : A -> result LockError unit) (state_message : WorkspaceStateError -> str).

Abbreviation world := (RebuildWorld S A) (only parsing).
Abbreviation tx := (tx (S := S) (A := A) (PE := PE) (FE := FE) (SE := SE) (EE := EE)) (only parsing).

(** [primary.to_string()] *)
Definition failure_message (primary : ReplacementFailure EE) : str :=
  match primary with
  | Failure_Adapter e => environment_message e
  | Failure_Invariant GenerationOverflow => $"active generation cannot be incremented"
  | Failure_Invariant WrongGeneration => $"replacement returned an unexpected generation"
  | Failure_Invariant ReusedContainer => $"replacement primary container ID did not change"
  | Failure_State e => state_message e
  end.

(** @src cdenv-cli/src/rebuild.rs:516-543 fail_without_rollback *)
Definition fail_without_rollback {X} (state : WorkspaceState) (phase : RebuildPhase)
    (primary : ReplacementFailure EE) : tx X :=
  try _ := save (set_last_error (set_operation state idle) (Some (redact (failure_message primary) [])))
    else (fun e => throw (Rebuild_FailureRecord phase primary None e)) in
  throw (Rebuild_Replacement phase primary None).

(** The state recorded after a rollback. @src cdenv-cli/src/rebuild.rs:578-588 fail_with_rollback *)
Definition rolled_back_state (state : WorkspaceState) (primary : ReplacementFailure EE)
    (rolled_back : option EE) : WorkspaceState :=
  set_last_error
    (set_operation state (match rolled_back with None => idle | Some _ => ws_operation state end))
    (Some (redact (match rolled_back with
                   | None => failure_message primary
                   | Some _ => $"rebuild failed and rollback was incomplete"
                   end) [])).

(** @src cdenv-cli/src/rebuild.rs:549-602 fail_with_rollback *)
Definition fail_with_rollback {X} (state : WorkspaceState) (claim : B)
    (previous candidate : option ActiveGeneration) (backup_name : str) (phase : RebuildPhase)
    (primary : ReplacementFailure EE) : tx X :=
  match next_generation previous with
  | Err e => throw (Rebuild_Generation e)
  | Ok generation =>
      fun w =>
      let '(w, r) := call (Call_Rollback phase) (rollback
        (mkRollbackRequest claim generation previous candidate backup_name phase)) w in
      let rolled_back := match r with Err e => Some e | Ok _ => None end in
      (try _ := save (rolled_back_state state primary rolled_back)
         else (fun e => throw (Rebuild_FailureRecord phase primary rolled_back e)) in
       throw (Rebuild_Replacement phase primary rolled_back)) w
  end.

(** @src cdenv-cli/src/rebuild.rs:426-435 rebuild_workspace *)
Definition candidate_invariant (previous : option ActiveGeneration) (candidate : ActiveGeneration)
    (generation : GenerationId) : option RebuildInvariantError :=
  if negb (bool_decide (ag_generation candidate = generation)) then Some WrongGeneration
  else if match previous with
          | Some old => bool_decide (ag_container_id old = ag_container_id candidate)
          | None => false
          end then Some ReusedContainer
  else None.

(** From a ready candidate to the commit.
    @src cdenv-cli/src/rebuild.rs:426-497 rebuild_workspace *)
Definition commit_candidate (request : RebuildRequest) (state : WorkspaceState) (claim : B)
    (previous : option ActiveGeneration) (generation : GenerationId) (checkout_has_changes : bool)
    (candidate : ActiveGeneration) : tx (RebuildOutcome EE) :=
  let fail state := fail_with_rollback state claim previous (Some candidate) (rb_backup_name request) in
  match candidate_invariant previous candidate generation with
  | Some invariant => fail state Phase_CandidateReady (Failure_Invariant invariant)
  | None =>
      try _ := call Call_Handoff (handoff previous candidate)
        else (fun e => fail state Phase_CandidateReady (Failure_Adapter e)) in
      try _ := save (commit_active state candidate (rb_completed_at request))
        else (fun e => fail state Phase_ForwardingHandedOff (Failure_State e)) in
      fun w =>
      let '(w, r) := call Call_Cleanup (cleanup
        (mkCleanupRequest previous candidate claim (rb_backup_name request))) w in
      ret (mkRebuildOutcome generation (ag_container_id candidate) checkout_has_changes
             match r with Err e => Some e | Ok _ => None end) w
  end.

(** From the stored intent to a ready candidate.
    @src cdenv-cli/src/rebuild.rs:365-425 rebuild_workspace *)
Definition replace_environment (request : RebuildRequest) (state : WorkspaceState)
    (desired : PreparedRebuildPlan P) (previous : option ActiveGeneration) (generation : GenerationId)
    (checkout_has_changes : bool) : tx (RebuildOutcome EE) :=
  try claim := call Call_Build (build desired generation (rb_no_cache request))
    else (fun e => fail_without_rollback state Phase_Built (Failure_Adapter e)) in
  let fail := fail_with_rollback state claim previous None (rb_backup_name request) in
  try _ := call Call_Quiesce (quiesce previous)
    else (fun e => fail Phase_Quiescing (Failure_Adapter e)) in
  try _ := (match previous with
            | Some old => call Call_Backup (backup old (rb_backup_name request))
            | None => fun w => (w, Ok tt)
            end)
    else (fun e => fail Phase_BackupRenamed (Failure_Adapter e)) in
  try candidate := call Call_CreateReady (create_ready desired claim generation)
    else (fun e => fail Phase_BackupRenamed (Failure_Adapter e)) in
  commit_candidate request state claim previous generation checkout_has_changes candidate.

(** The state that records the intent. @src cdenv-cli/src/rebuild.rs:356-362 rebuild_workspace *)
Definition rebuild_intent (state : WorkspaceState) (desired : PreparedRebuildPlan P)
    (operation : OperationState) : WorkspaceState :=
  set_last_error (set_operation (update_desired state (pr_profile desired) (pr_config desired)
    (pr_fingerprints desired)) operation) None.

(** @src cdenv-cli/src/rebuild.rs:315-497 rebuild_workspace *)
Definition rebuild_workspace (request : RebuildRequest) : tx (RebuildOutcome EE) :=
  if negb (bool_decide (op_kind (rb_operation request) = Op_Rebuilding))
     || negb (valid_backup_name (rb_backup_name request))
  then throw Rebuild_InvalidOperation else
  try _ := (fun w => (w, acquire (rw_env w))) else (fun e => throw (Rebuild_Lock e)) in
  try loaded := (fun w => (w, load (rw_store w))) else (fun e => throw (Rebuild_State e)) in
  let state := loaded_state loaded in
  try desired := (fun w => (w, prepare_rebuild (rw_env w) (rb_config request) state))
    else (fun e => throw (Rebuild_Desired e)) in
  try _ := call Call_ValidateFrozen (validate_frozen desired) else (fun e => throw (Rebuild_Preflight e)) in
  try changes := call Call_Status has_changes else (fun e => throw (Rebuild_CheckoutStatus e)) in
  let previous := ws_active state in
  match next_generation previous with
  | Err e => throw (Rebuild_Generation e)
  | Ok generation =>
      let state := rebuild_intent state desired (rb_operation request) in
      try _ := save state else (fun e => throw (Rebuild_State e)) in
      replace_environment request state desired previous generation changes
  end.

(** ** Specification *)

Definition checks : list RebuildCall := [Call_ValidateFrozen; Call_Status].
Definition backup_calls (previous : option ActiveGeneration) : list RebuildCall :=
  match previous with Some _ => [Call_Backup] | None => [] end.
(** The calls of a replacement up to a ready candidate. *)
Definition replacement_calls (previous : option ActiveGeneration) : list RebuildCall :=
  checks ++ [Call_Build; Call_Quiesce] ++ backup_calls previous ++ [Call_CreateReady].

(** The calls made when a replacement fails in a phase. *)
Definition failure_calls (previous : option ActiveGeneration) (phase : RebuildPhase)
    (calls : list RebuildCall) : Prop :=
  match phase with
  | Phase_Built => calls = checks ++ [Call_Build]
  | Phase_Quiescing => calls = checks ++ [Call_Build; Call_Quiesce; Call_Rollback phase]
  | Phase_BackupRenamed =>
      (is_Some previous /\
       calls = checks ++ [Call_Build; Call_Quiesce; Call_Backup; Call_Rollback phase]) \/
      calls = replacement_calls previous ++ [Call_Rollback phase]
  | Phase_CandidateReady =>
      calls = replacement_calls previous ++ [Call_Rollback phase] \/
      calls = replacement_calls previous ++ [Call_Handoff; Call_Rollback phase]
  | Phase_ForwardingHandedOff =>
      calls = replacement_calls previous ++ [Call_Handoff; Call_Rollback phase]
  end.

Definition rebuild_calls (previous : option ActiveGeneration)
    (r : result (RebuildError PE FE SE EE) (RebuildOutcome EE)) (calls : list RebuildCall) : Prop :=
  match r with
  | Ok _ => calls = replacement_calls previous ++ [Call_Handoff; Call_Cleanup]
  | Err (Rebuild_Replacement phase _ _) | Err (Rebuild_FailureRecord phase _ _ _) =>
      failure_calls previous phase calls
  | Err _ => calls `prefix_of` checks
  end.

(** The candidate that replaces the previous generation. *)
Record replaces (request : RebuildRequest) (s0 s1 : WorkspaceState) (o : RebuildOutcome EE)
    (candidate : ActiveGeneration) : Prop := mkReplaces {
  rp_active : ws_active s1 = Some candidate;
  rp_generation : ag_generation candidate = ro_generation o;
  rp_next : next_generation (ws_active s0) = Ok (ro_generation o);
  rp_container : ag_container_id candidate = ro_container o;
  rp_fresh old : ws_active s0 = Some old -> ag_container_id old <> ro_container o;
  rp_idle : ws_operation s1 = idle;
  rp_error : ws_last_error s1 = None;
  rp_time : ws_last_up_at s1 = Some (rb_completed_at request);
}.

(** What the store holds after a run from [s0]. *)
Definition rebuild_boundary (request : RebuildRequest) (s0 : WorkspaceState) (w : world)
    (r : result (RebuildError PE FE SE EE) (RebuildOutcome EE)) : Prop :=
  exists s1, stored (rw_store w) = Some s1 /\ same_workspace s0 s1 /\
  match r with
  | Ok o => exists candidate, replaces request s0 s1 o candidate
  | Err e => ws_active s1 = ws_active s0 \/
      exists primary rolled_back se,
        e = Rebuild_FailureRecord Phase_ForwardingHandedOff (Failure_State primary) rolled_back se
  end.

Lemma same_rebuild_intent s0 desired operation : same_workspace s0 (rebuild_intent s0 desired operation).
Proof.
  unfold rebuild_intent. etrans; [|apply same_set_last_error]. etrans; [|apply same_set_operation].
  apply same_update_desired.
Qed.

Lemma same_rolled_back s primary rb : same_workspace s (rolled_back_state s primary rb).
Proof. unfold rolled_back_state. etrans; [|apply same_set_last_error]. apply same_set_operation. Qed.

Context `{!StateStoreLaws S}.

(** The end of a failing run: one rollback is logged, and the store holds the recorded state, or
    the write failed. *)
Lemma fail_with_rollback_spec {X} state claim previous candidate name phase primary s g w w' r :
  stored (rw_store w) = Some s -> next_generation previous = Ok g ->
  fail_with_rollback (X := X) state claim previous candidate name phase primary w = (w', r) ->
  rw_calls w' = rw_calls w ++ [Call_Rollback phase] /\
  exists rb,
    (r = Err (Rebuild_Replacement phase primary rb) /\
     stored (rw_store w') = Some (rolled_back_state state primary rb)) \/
    (exists e, r = Err (Rebuild_FailureRecord phase primary rb e) /\
     (stored (rw_store w') = Some (rolled_back_state state primary rb) \/
      stored (rw_store w') = Some s)).
Proof.
  intros Hs Hg H. unfold fail_with_rollback in H. rewrite Hg in H. unfold call in H.
  destruct (rollback _ (rw_env w)) as [env rb]. unfold attempt, save, throw in H.
  cbn [rw_store rw_env rw_calls] in H.
  destruct (persist (rw_store w) _) as [store pr] eqn:Hp.
  assert (Hst := stored_after_persist _ _ _ _ _ Hs Hp).
  destruct pr as [[]|e]; injection H as <- <-; (split; [done|]);
    exists (match rb with Err e => Some e | Ok _ => None end).
  - left. split; [done|]. destruct Hst as [?|[? _]]; done.
  - right. exists e. split; [done|]. destruct Hst as [?|[_ ?]]; auto.
Qed.

(** A failure before the commit keeps the active generation. *)
Lemma fail_before_commit {X} request s0 state claim candidate name phase primary g w w' r :
  stored (rw_store w) = Some state -> same_workspace s0 state -> ws_active state = ws_active s0 ->
  next_generation (ws_active s0) = Ok g ->
  fail_with_rollback (X := X) state claim (ws_active s0) candidate name phase primary w = (w', r) ->
  rw_calls w' = rw_calls w ++ [Call_Rollback phase] /\
  exists rb e, r = Err e /\
    (e = Rebuild_Replacement phase primary rb \/ exists se, e = Rebuild_FailureRecord phase primary rb se) /\
    rebuild_boundary request s0 w' (Err e).
Proof.
  intros Hs Hw Ha Hg H. destruct (fail_with_rollback_spec _ _ _ _ _ _ _ _ _ _ _ _ Hs Hg H)
    as (Hc & rb & Hcase).
  split; [done|]. destruct Hcase as [(-> & Hst)|(e & -> & [Hst|Hst])].
  - exists rb. eexists. split_and!; [done|by left|]. eexists. split_and!; [exact Hst| |by left].
    etrans; [exact Hw|apply same_rolled_back].
  - exists rb. eexists. split_and!; [done|by right; eexists|]. eexists.
    split_and!; [exact Hst| |by left]. etrans; [exact Hw|apply same_rolled_back].
  - exists rb. eexists. split_and!; [done|by right; eexists|]. eexists. by split_and!; [exact Hst| |left].
Qed.

Section run.
Context (request : RebuildRequest) (s0 state : WorkspaceState) (g : GenerationId).
Context (Hsame : same_workspace s0 state) (Hactive : ws_active state = ws_active s0).
Context (Hnext : next_generation (ws_active s0) = Ok g).

(** What is to be shown of a run. *)
Definition good (w : world) (r : result (RebuildError PE FE SE EE) (RebuildOutcome EE)) : Prop :=
  rebuild_boundary request s0 w r /\ rebuild_calls (ws_active s0) r (rw_calls w).

Lemma good_failure claim candidate name phase primary w w' r :
  stored (rw_store w) = Some state ->
  fail_with_rollback state claim (ws_active s0) candidate name phase primary w = (w', r) ->
  failure_calls (ws_active s0) phase (rw_calls w ++ [Call_Rollback phase]) -> good w' r.
Proof.
  intros Hs H Hc.
  destruct (fail_before_commit request s0 _ _ _ _ _ _ _ _ _ _ Hs Hsame Hactive Hnext H)
    as (Hcalls & rb & e & -> & He & Hb).
  split; [done|]. rewrite Hcalls. destruct He as [->|[se ->]]; exact Hc.
Qed.

Lemma commit_failure claim candidate primary s w w' r :
  stored (rw_store w) = Some s -> same_workspace s0 s ->
  rw_calls w = replacement_calls (ws_active s0) ++ [Call_Handoff] ->
  fail_with_rollback state claim (ws_active s0) candidate (rb_backup_name request)
    Phase_ForwardingHandedOff (Failure_State primary) w = (w', r) -> good w' r.
Proof.
  intros Hs Hw Hcalls H.
  destruct (fail_with_rollback_spec _ _ _ _ _ _ _ _ _ _ _ _ Hs Hnext H) as (Hc & rb & Hcase).
  rewrite Hcalls, <- app_assoc in Hc. cbn [app] in Hc.
  assert (Hrolled : same_workspace s0 (rolled_back_state state (Failure_State primary) rb))
    by (etrans; [exact Hsame|apply same_rolled_back]).
  destruct Hcase as [(-> & Hst)|(e & -> & [Hst|Hst])]; (split; [|exact Hc]).
  - eexists. split_and!; [exact Hst|done|by left].
  - eexists. split_and!; [exact Hst|done|by left].
  - exists s. split_and!; [done|done|]. right. by eexists _, _, _.
Qed.

Lemma commit_candidate_good claim changes candidate w w' r :
  stored (rw_store w) = Some state -> rw_calls w = replacement_calls (ws_active s0) ->
  commit_candidate request state claim (ws_active s0) g changes candidate w = (w', r) -> good w' r.
Proof.
  intros Hs Hcalls H. unfold commit_candidate in H.
  destruct (candidate_invariant _ _ _) as [invariant|] eqn:Hinv.
  { eapply good_failure; [exact Hs|exact H|]. left. by rewrite Hcalls. }
  unfold attempt, call, save in H. destruct (handoff _ _ _) as [env1 [[]|e]].
  - cbn [rw_store rw_env rw_calls] in H.
    destruct (persist (rw_store w) _) as [store2 pr] eqn:Hp.
    assert (Hst := stored_after_persist _ _ _ _ _ Hs Hp). destruct pr as [[]|e].
    + cbn [rw_store rw_env rw_calls] in H.
      destruct (cleanup _ env1) as [env2 cr]. injection H as <- <-. split.
      * exists (commit_active state candidate (rb_completed_at request)).
        destruct Hst as [Hst|[? _]]; [|done].
        split_and!; [done|etrans; [exact Hsame|apply same_commit_active]|].
        exists candidate. unfold candidate_invariant in Hinv.
        case_bool_decide as Hgen; [|done]. cbn [negb] in Hinv. split; cbn; try done.
        intros old Ho. rewrite Ho in Hinv. by case_bool_decide.
      * cbn [rebuild_calls rw_calls]. rewrite Hcalls. by rewrite <- !app_assoc.
    + destruct Hst as [Hst|[_ Hst]].
      * eapply commit_failure; [..|exact H]; [exact Hst| |cbn; by rewrite Hcalls].
        etrans; [exact Hsame|apply same_commit_active].
      * eapply commit_failure; [..|exact H]; [exact Hst|exact Hsame|cbn; by rewrite Hcalls].
  - eapply good_failure; [|exact H|]; [exact Hs|]. right. cbn [rw_calls]. rewrite Hcalls.
    by rewrite <- !app_assoc.
Qed.

Lemma fail_without_rollback_good primary w w' r :
  stored (rw_store w) = Some state -> rw_calls w = checks ++ [Call_Build] ->
  fail_without_rollback state Phase_Built primary w = (w', r) -> good w' r.
Proof.
  intros Hs Hcalls H. unfold fail_without_rollback, attempt, save, throw in H.
  destruct (persist (rw_store w) _) as [store pr] eqn:Hp.
  assert (Hfail : same_workspace s0 (set_last_error (set_operation state idle)
                    (Some (redact (failure_message primary) []))))
    by (etrans; [exact Hsame|]; etrans; [apply same_set_operation|apply same_set_last_error]).
  destruct (stored_after_persist _ _ _ _ _ Hs Hp) as [Hst|[Hno Hst]];
    destruct pr as [[]|e]; try done; injection H as <- <-; (split; [|exact Hcalls]);
    eexists; (split_and!; [exact Hst|done|by left]).
Qed.

Lemma replace_environment_good desired changes w w' r :
  stored (rw_store w) = Some state -> rw_calls w = checks ->
  replace_environment request state desired (ws_active s0) g changes w = (w', r) -> good w' r.
Proof.
  intros Hs Hcalls H. unfold replace_environment in H. unfold attempt at 1, call at 1 in H.
  destruct (build _ _ _ _) as [env1 [claim|e]].
  2:{ eapply fail_without_rollback_good; [|..|exact H]; [exact Hs|]. cbn. by rewrite Hcalls. }
  unfold attempt at 1, call at 1 in H. cbn [rw_store rw_env rw_calls] in H.
  destruct (quiesce _ env1) as [env2 [[]|e]].
  2:{ eapply good_failure; [|exact H|]; [exact Hs|]. cbn [rw_calls failure_calls]. by rewrite Hcalls. }
  unfold attempt at 1 in H.
  assert (Hcreate : forall env, (attempt (call Call_CreateReady (create_ready desired claim g))
      (fun e => fail_with_rollback state claim (ws_active s0) None (rb_backup_name request)
                  Phase_BackupRenamed (Failure_Adapter e))
      (fun candidate => commit_candidate request state claim (ws_active s0) g changes candidate))
      (mkRebuildWorld (rw_store w) env
         (checks ++ [Call_Build; Call_Quiesce] ++ backup_calls (ws_active s0))) = (w', r) -> good w' r).
  { intros env Hrun. unfold attempt, call in Hrun. cbn [rw_store rw_env rw_calls] in Hrun.
    assert (Hrep : (checks ++ [Call_Build; Call_Quiesce] ++ backup_calls (ws_active s0)) ++
      [Call_CreateReady] = replacement_calls (ws_active s0))
      by (unfold replacement_calls; by rewrite <- !app_assoc).
    rewrite Hrep in Hrun. destruct (create_ready _ _ _ env) as [env4 [candidate|e]].
    - eapply commit_candidate_good; [|..|exact Hrun]; done.
    - eapply good_failure; [|exact Hrun|]; [exact Hs|]. by right. }
  destruct (ws_active s0) as [old|] eqn:Hprev in H; rewrite <- Hprev in H.
  - unfold call at 1 in H. cbn [rw_store rw_env rw_calls] in H.
    destruct (backup _ _ env2) as [env3 [[]|e]].
    + apply (Hcreate env3). rewrite <- H, Hcalls, Hprev. done.
    + eapply good_failure; [|exact H|]; [exact Hs|].
      cbn [rw_calls]. rewrite Hcalls. left. split; [by eexists|done].
  - cbn [rw_store rw_env rw_calls] in H. apply (Hcreate env2). rewrite <- H, Hcalls, Hprev. done.
Qed.
End run.

Lemma rebuild_good request s0 w w' r :
  stored (rw_store w) = Some s0 -> rw_calls w = [] ->
  rebuild_workspace request w = (w', r) -> good request s0 w' r.
Proof.
  intros H0 Hcalls H. unfold rebuild_workspace in H.
  assert (Hkeep : forall w1 e, stored (rw_store w1) = Some s0 -> rw_calls w1 `prefix_of` checks ->
    (forall ph p rb, e <> Rebuild_Replacement ph p rb) ->
    (forall ph p rb se, e <> Rebuild_FailureRecord ph p rb se) -> good request s0 w1 (Err e)).
  { intros w1 e Hs Hc He1 He2. split.
    - exists s0. split_and!; [done|done|by left].
    - destruct e as [| | | | | | |ph p rb|ph p rb se]; try done;
        [by destruct (He1 ph p rb)|by destruct (He2 ph p rb se)]. }
  assert (Hnil : rw_calls w `prefix_of` checks) by (rewrite Hcalls; apply prefix_nil).
  destruct (_ || _); [injection H as <- <-; by apply Hkeep|].
  unfold attempt at 1 in H. destruct (acquire (rw_env w)); [|injection H as <- <-; by apply Hkeep].
  unfold attempt at 1 in H. destruct (load (rw_store w)) as [loaded|] eqn:Hl;
    [|injection H as <- <-; by apply Hkeep].
  apply load_stored in Hl. rewrite H0 in Hl. injection Hl as Hl. rewrite <- Hl in H.
  unfold attempt at 1 in H. destruct (prepare_rebuild _ _ _) as [desired|];
    [|injection H as <- <-; by apply Hkeep].
  unfold attempt at 1, call at 1 in H. rewrite Hcalls in H.
  destruct (validate_frozen _ _) as [env1 [[]|e]];
    [|injection H as <- <-; apply Hkeep; [done|by eexists|done|done]].
  unfold attempt at 1, call at 1 in H. cbn [rw_store rw_env rw_calls app] in H.
  destruct (has_changes env1) as [env2 [changes|e]]; [|injection H as <- <-; by apply Hkeep].
  destruct (next_generation (ws_active s0)) as [g|e] eqn:Hg; [|injection H as <- <-; by apply Hkeep].
  unfold attempt at 1, save at 1 in H. cbn [rw_store rw_env rw_calls app] in H.
  destruct (persist (rw_store w) _) as [store1 [[]|e]] eqn:Hp.
  - eapply replace_environment_good; [apply same_rebuild_intent|done|exact Hg|..|exact H]; [|done].
    by eapply stored_persist_ok.
  - injection H as <- <-. destruct (stored_after_persist _ _ _ _ _ H0 Hp) as [Hs|[_ Hs]]; [|by apply Hkeep].
    split; [|exact (reflexivity checks)]. eexists. split_and!; [exact Hs|apply same_rebuild_intent|by left].
Qed.

(** C2: the old generation stays authoritative until the replacement is committed.  From a
    stored state [s0], whatever the adapters and the store do, the stored state afterwards is of
    the same workspace.  On success its active generation is the candidate, with the next
    generation number and a primary container other than the old one, idle and without error.
    On an error the active generation is the old one, except when the write of the commit failed
    and the write that records the rollback failed as well, which the error says. *)
Theorem rebuild_commit_boundary (request : RebuildRequest) (s0 : WorkspaceState) (store : S) (env : A) :
  stored store = Some s0 ->
  let '(w', r) := rebuild_workspace request (mkRebuildWorld store env []) in
  rebuild_boundary request s0 w' r.
Proof.
  intros H0. destruct (rebuild_workspace request _) as [w' r] eqn:H.
  by destruct (rebuild_good request s0 (mkRebuildWorld store env []) w' r H0 eq_refl H).
Qed.

(** a rebuild builds first and rolls back once.  The plan and the frozen inputs are checked
    before any replacement call; the image is built before the old environment is quiesced and
    backed up; when the build fails nothing else is called; any later failure is followed by
    exactly one rollback for the phase it reports, and by nothing else; and the cleanup is
    called only at the end of a run that succeeds. *)
Theorem rebuild_call_order (request : RebuildRequest) (s0 : WorkspaceState) (store : S) (env : A) :
  stored store = Some s0 ->
  let '(w', r) := rebuild_workspace request (mkRebuildWorld store env []) in
  rebuild_calls (ws_active s0) r (rw_calls w').
Proof.
  intros H0. destruct (rebuild_workspace request _) as [w' r] eqn:H.
  by destruct (rebuild_good request s0 (mkRebuildWorld store env []) w' r H0 eq_refl H).
Qed.
End rebuild.

(** ** Generated images *)

(** [ImageId], the text of a content-addressed image.
    @src cdenv-cli/src/rebuild.rs:606-617 GeneratedImageCandidate *)
Record GeneratedImageCandidate : Type := mkImageCandidate {
  gi_id : str;
  gi_generation : GenerationId;
  gi_workspace_generated : bool;
  gi_referenced : bool;
  gi_repository_tagged : bool;
}.

(** @src cdenv-cli/src/rebuild.rs:18-18 GENERATED_IMAGE_HISTORY *)
Definition GENERATED_IMAGE_HISTORY : nat := 2.

Definition eligible (image : GeneratedImageCandidate) : bool :=
  gi_workspace_generated image && negb (gi_referenced image) && negb (gi_repository_tagged image).

Definition newer (a b : GeneratedImageCandidate) : Prop :=
  generation_get (gi_generation b) <= generation_get (gi_generation a).
#[export] Instance newer_dec a b : Decision (newer a b).
Proof. unfold newer. apply _. Defined.

(** @src cdenv-cli/src/rebuild.rs:624-635 select_generated_images_for_cleanup *)
Definition select_generated_images_for_cleanup (candidates : list GeneratedImageCandidate) : list str :=
  List.map gi_id (drop GENERATED_IMAGE_HISTORY
    (merge_sort newer (List.filter eligible candidates))).

#[export] Instance newer_total : Total newer.
Proof. intros a b. unfold newer. lia. Qed.
#[export] Instance newer_trans : Transitive newer.
Proof. intros a b c. unfold newer. lia. Qed.

(** image cleanup removes only generated images of the workspace that no container uses and
    no repository tags, and keeps the newest of them: every removed image is preceded in age by
    [GENERATED_IMAGE_HISTORY] kept ones that are at least as new; all eligible images but those
    are removed. *)
Theorem cleanup_keeps_newest (candidates : list GeneratedImageCandidate) :
  exists kept removed,
    select_generated_images_for_cleanup candidates = List.map gi_id removed /\
    kept ++ removed ≡ₚ List.filter eligible candidates /\
    length kept = Nat.min GENERATED_IMAGE_HISTORY (length (List.filter eligible candidates)) /\
    (forall k r, k ∈ kept -> r ∈ removed -> newer k r).
Proof.
  set (sorted := merge_sort newer (List.filter eligible candidates)).
  assert (Hperm : sorted ≡ₚ List.filter eligible candidates) by apply merge_sort_Permutation.
  assert (Hss : StronglySorted newer sorted) by (apply StronglySorted_merge_sort; apply _).
  exists (take GENERATED_IMAGE_HISTORY sorted), (drop GENERATED_IMAGE_HISTORY sorted).
  split_and!; [done|by rewrite take_drop|by rewrite length_take, Hperm|].
  intros k r Hk Hr. rewrite <- (take_drop GENERATED_IMAGE_HISTORY sorted) in Hss.
  by eapply StronglySorted_app_1_elem_of.
Qed.

(** ** A concrete rebuild *)

Definition sample_generation (generation : N) (container : str) : ActiveGeneration :=
  mkActive (mkGenerationId generation) Scenario_Image (mkContainerId container) ($"sha256:image")
    sample_fingerprints ∅ (mkPersistedCheckpoint None None false) (mkActiveForwarding None [] [])
    (mkProvisioned ($"dev") ($"/workspaces/demo") Aarch64 ($"/usr/local/bin/agent")
       (mkAgentBuildId ($"build-1")) (mkProtocolVersion 1) ($"/run/environment.json")).

Definition running_state : WorkspaceState := set_active sample_state (Some (sample_generation 1 ($"abc"))).

#[export] Instance sample_rebuild_planner : RebuildPlanner nat unit unit unit unit := {
  prepare_rebuild _ _ s :=
    Ok (mkRebuildPlan (ws_devcontainer_profile s) (ws_desired_config s) sample_fingerprints tt);
  validate_frozen _ n := (n, Ok tt);
  has_changes n := (n, Ok true);
}.

(** The environment refuses the step whose number its world holds. *)
#[export] Instance sample_rebuild_environment : RebuildEnvironment nat unit unit unit :=
  let step (k : nat) (n : nat) {X} (x : X) : nat * result unit X :=
    (n, if bool_decide (n = k) then Err tt else Ok x) in {|
  build _ _ _ n := step 0%nat n tt;
  quiesce _ n := step 1%nat n tt;
  backup _ _ n := step 2%nat n tt;
  create_ready _ _ g n := step 3%nat n (sample_generation (generation_get g) ($"def"));
  handoff _ _ n := step 4%nat n tt;
  rollback _ n := step 5%nat n tt;
  cleanup _ n := step 6%nat n tt;
  environment_message _ := [];
|}.

#[local] Instance rebuild_store : StateStore (ManagedStore Document) := managed_store 1000 18 (Doc_Other None).
#[local] Instance rebuild_store_laws : StateStoreLaws (ManagedStore Document) :=
  managed_store_laws 1000 18 (Doc_Other None).

Definition sample_rebuild_request : RebuildRequest :=
  mkRebuildRequest None
    (mkOperation Op_Rebuilding (Some ($"op-3")) (Some (mkTimestamp ($"2026-01-01T00:00:00Z"))))
    ($"cdenv-backup-1") false (mkTimestamp ($"2026-01-02T00:00:00Z")).

Definition running_store : ManagedStore Document :=
  sample_store {[ state_file := mkEntry Kind_File 1000 384 (Doc_State running_state) ]} None.

Definition sample_rebuild (failing : nat) :=
  rebuild_workspace (PE := unit) (FE := unit) (SE := unit) (EE := unit) (fun _ => Ok tt) (fun _ => [])
    sample_rebuild_request (mkRebuildWorld running_store failing []).

Lemma rebuild_commit_boundary_witness :
  stored running_store = Some running_state /\
  let '(w', r) := sample_rebuild 7 in rebuild_boundary sample_rebuild_request running_state w' r.
Proof.
  assert (H : stored running_store = Some running_state) by (vm_compute; reflexivity).
  split; [exact H|].
  exact (rebuild_commit_boundary (fun _ => Ok tt) (fun _ => []) sample_rebuild_request running_state
           running_store 7%nat H).
Defined.

Lemma rebuild_call_order_witness :
  stored running_store = Some running_state /\
  let '(w', r) := sample_rebuild 4 in rebuild_calls (ws_active running_state) r (rw_calls w').
Proof.
  assert (H : stored running_store = Some running_state) by (vm_compute; reflexivity).
  split; [exact H|].
  exact (rebuild_call_order (fun _ => Ok tt) (fun _ => []) sample_rebuild_request running_state
           running_store 4%nat H).
Defined.

(** A handoff that fails is rolled back; a run without failures commits. *)
Example rebuild_handoff_fails :
  rw_calls (fst (sample_rebuild 4)) =
    [Call_ValidateFrozen; Call_Status; Call_Build; Call_Quiesce; Call_Backup; Call_CreateReady;
     Call_Handoff; Call_Rollback Phase_CandidateReady].
Proof. vm_compute. reflexivity. Qed.

Example rebuild_commits : is_ok (snd (sample_rebuild 7)) = true.
Proof. vm_compute. reflexivity. Qed.
